(* ===== verification/_CoqProject ===== *)
-Q . S2P
Prelude.v
KrString.v
KrList.v
KrQueue.v
KrHashtable.v
KrTypes.v
KrHashset.v
KrJson.v
KrCalcTree.v
KrCalcJson.v
KrCache.v
KrDb.v
KrDbWindow.v
KrDbRun.v
KrDym.v
KrShm.v
KrData.v
KrDataSpec.v
KrProtocol.v
KrServer.v
KrShell.v
KrMessage.v
KrDate.v
KrDetect.v
KrUse.v
KrEngine.v
KrThreadpool.v
KrSkiplist.v
KrNtree.v
KrForest.v
KrTraverse.v
KrEvent.v
KrConhash.v
KrCoordi.v
