(* ===== verification/Prelude.v ===== *)
(** * A verification of krproject

    krproject detects events by rules.  An event arrives as a message of a data source;
    it becomes a record of an in-memory database (krdb), which keeps the last records of
    every source and indexes them; calculators (krcalc) over the current record and over
    data items computed from the kept records (krdata) choose the group of the event and
    decide the rules of the group (krengine).  Groups, rules, data items and sets are
    parameters, loaded into a double-buffered section of memory and built into the
    parameters of each thread (krparam).  All of it stands on the containers of krutils.

    ** Files

    - Prelude: machine integers, faults, and the two monads of the development.
    - KrString: krutils/kr_string.c.
    - KrList, KrQueue: kr_list.c and kr_queue.c, on a store of nodes.
    - KrHashtable: kr_hashtable.c, open addressing with tombstones.
    - KrTypes: the value union, types, hash and equality functions of kr_types.h.
    - KrHashset: kr_hashset.c and kr_functable.c.
    - KrJson: kr_json.c, the items, the parser and the printer of JSON.
    - KrCalcTree: krcalc/kr_calc_tree.c.  A tree is a node record with its children;
      evaluation returns the tree it leaves.
    - KrCalcJson: kr_calc_parser_json.c, kr_calc_dumper_json.c, kr_calc.c and
      kr_calc_parser.c, over KrJson.
    - KrCache: kr_cache.c, over KrList and KrHashtable.
    - KrDb: krdb/kr_db_kernel.c and kr_db.c, over KrHashtable; KrDbWindow: the invariant
      of the rings of slots and of the indexes, and that creation and insertion keep it;
      KrDbRun: what whole runs of the database do.
    - KrDym: krparam/kr_shm.c and kr_dym*.c, over KrCalcJson and KrHashset: the items of a
      thread hold pointers to their definitions, which lie in the sections that the loads
      overwrite in turn; KrShm: the loads of kr_shm_*.c with their arrays of characters, which
      KrDym's memory is a view of.
    - KrData: krdata, the items and the callbacks of the calculators, over KrDb, KrDym
      and KrCache; the context of kr_context.h is its state.
    - KrDataSpec: what the static and dynamic items compute.
    - KrUse: what evaluation, the data items and detection leave of the parameters.
    - KrDate: kr_datetime.c, over the calendar of a zone with a fixed distance from UTC; its
      text of a date is the one KrData computes with its argument [localtime].
    - KrDetect: krengine/kr_engine_detect.c, the insert and detect events of
      kr_engine_handle.c, and the dump of the context of kr_context.c.
    - KrProtocol: the messages of the server and the shell (kr_server_protocol.c,
      kr_shell_protocol.c) and the reads and writes of kr_net.c.
    - KrServer: krserver/kr_server_network.c, over KrProtocol and the interface of an
      engine; KrShell: krshell/kr_shell_client.c, the other end.
    - KrEngine: krengine/kr_engine.c and kr_engine_handle.c, the settings of kr_log.c, the
      descriptions of kr_db_api.c and krparam; it implements the interface of KrServer
      over KrDetect, KrDym and KrHashset.
    - KrThreadpool: kr_threadpool.c over KrQueue, the threads and their callers as steps.
    - KrSkiplist: kr_skiplist.c, a store of nodes with arrays of pointers; KrConhash:
      kr_conhash.c, over two skip lists.
    - KrNtree: kr_ntree.c, the operations; KrForest: what those that change nodes do to a
      forest; KrTraverse: what traversals visit, copies, counts.
    - KrEvent: kr_event.c over kr_event_select.c, the event loop.
    - KrMessage: krcoordi/kr_message.c, the messages of the coordinator; KrCoordi:
      kr_coordi_handle.c, kr_coordi.c and kr_coordi_config.c, over KrMessage, KrConhash,
      KrList and KrHashtable.

    ** How the code is modelled

    C functions keep their names.  A function that cannot fail is a function; one that can
    reach undefined behaviour returns [res], whose [Fault] names what happened (a null or
    dangling pointer, an array index out of bounds, a division by zero...); one that
    changes a state is in the monad [M St] of state and faults.  Error returns of the code
    are ordinary values, [-1] or [None].  Integers are [Z] with the wrap-around of their
    width written out ([u32], [i32], [i64]...); doubles are IEEE 754 binary64 of the
    Standard Library's [spec_float]; unions remember which member was written.  Objects
    that the code shares through pointers are entries of a store, reached by address;
    objects with one owner are values.  Memory is supposed to be available: allocation
    does not fail.

    Code that is not the program's is an argument: [getenv], [regcomp] and [regexec],
    [localtime], the clock, the symbols of loaded modules, the rows of the configuration
    database and the queries of the history database, and the generated parser of the other calculator format.  [SortArgument] (KrDb) is the
    [int] that a function finds in place of an address, which the memory layout decides.

    ** What is proved

    - Detection (KrDetect): the group that is selected and the rules that fire; the dump
      of a record without a group.
    - Database (KrDbRun): refinement of a window of the last records for each table,
      selection by index, the layout of records; that sorted indexes fault and that the
      addresses in a table of 4 GiB wrap.
    - Parameters (KrDym, KrShm): read through their pointers they follow the active section,
      over any loads, checks and uses, when each load is in a later second than the one
      before (one within the same second is not noticed); the active section holds the last
      configuration that could be loaded; what is configured is what runs; that KrDym's
      memory is the code's; that releasing parameters frees sets twice.
    - Data items (KrDataSpec): which record a static item takes and what a dynamic item
      computes; that an item computed on a slot is not computed again for the next record
      of that slot; that a calculator keeps the type a field had at its first evaluation.
    - Dates (KrDate): adding seconds and measuring intervals agree; adding days and months,
      and the end of a month, against the calendar; the loop of months ends; every text is
      a valid date, and a day 00 overflows an array.
    - Network (KrServer, KrShell, KrProtocol): requests of any number of clients, cut in
      any way, are answered in order with the replies of the engine; a request from end to
      end; the round trip of messages; requests and replies that are too large.
    - Engine (KrEngine): the dispatch of requests; that a reload takes effect with the
      next message and moves nothing in use; that all its life an engine works with the
      active configuration; that what the shell asks is what is done.
    - JSON (KrJson): what is printed is read back, and the parser ends on every text.
    - Calculators (KrCalcTree, KrCalcJson): safety of what the check accepts, however often
      it is evaluated, but for a set left of !@; that evaluation reads of earlier ones the
      types of identifiers only; the type check, the relational operators, the round trip
      through the text of JSON, release, and errors of the code.
    - Containers (KrHashtable, KrCache, KrList, KrQueue, KrHashset, KrString): refinement
      of finite maps, of a least-recently-used cache (whose maximum is made smaller when it
      is full: else too much is evicted), of sequences and bounded queues, with the
      functional behaviour of the operations that are not steps of these.

    - Skip list and consistent hash (KrSkiplist, KrConhash): refinement of a sorted list;
      which node an object belongs to, that adding or removing a node moves only what it
      must, the CRC-16 against its polynomial, and the private data that is freed.
    - Trees (KrForest, KrTraverse): refinement of forests of lists of children; the orders of
      traversals, and that a depth of 0 is none; the first node that a search finds, copies,
      numbers of nodes and levels; a function that never gives a position.
    - Event loop (KrEvent): every round ends and processes what is due once, when no time
      event deletes itself or comes back within the round, and keeps the sets of [select] in
      order; the wait for an overdue time event, the delay of zero that never ends, and the
      event that is written to after it deleted itself.
    - Coordinator (KrMessage, KrCoordi): messages are passed on unchanged, but for those
      too long for their header; where an event and its reply go; that every round of the
      event loop keeps the connectors in order, if connections come online once and go
      offline for themselves, or stops at a request that is read past its end; the end of a
      server that another connection sends.
    - Thread pool (KrThreadpool): tasks run in order, each once; nothing is stuck unless
      a broadcast found the queue full; the broadcasts that stop the pool for good.

    Each file states its properties last but for the concrete examples that show that
    their hypotheses can hold ([..._witness]).

    ** Fuel

    Loops over lists of nodes take the length of the list as fuel, probe sequences the
    number of slots (the triangular sequence visits all of them), [kr_string_dupenv] the
    length of its input, [kr_calc_parse_json] the depth of the item, [cJSON_Parse] two
    for each byte of its text; the theorems show
    that this is enough, since their conclusions exclude [NoFuel].  [kr_data_get_value]
    calls itself through the filter of an item; its fuel bounds the nesting of items.  The
    walks of a skip list take the number of its nodes, those of a tree two for each node;
    a load makes at most one fetch more than its array has room for;
    for a round of the event loop the theorem gives a number of steps that is enough; the threads of the pool have no
    fuel, and a measure bounds the steps they take when nobody calls.

    ** Not modelled

    Printing and logging; the texts of error messages; the release of tables and indexes
    (kr_drop_table, kr_drop_db); mutexes but that of
    the thread pool, and the engine with a thread pool (a context and the database are
    used by one thread at a time; KrDym shows what two reloads by other threads do to the parameters
    of a message that is being handled); the generated scanner and parser of krcalc, and
    the generated access to the configuration database (its cursors are arguments); the start and the shutdown of the
    engine and the server, the commands of the shell, the options, the daemon and the
    signals of the programs and the system calls of the network (a socket is a script of what its calls give);
    the back ends of the event loop that the build does not take; zones with summer time; dbs, kriface, krflow, the bindings,
    krweb and the examples.

    ** Plan

    In order: the drop of tables; the flex dumper. *)

From stdpp Require Export base gmap list strings.
From Stdlib Require Export ZArith Lia.
#[export] Set Default Goal Selector "!".

Declare Scope kr_scope.
Delimit Scope kr_scope with kr.

(** * Machine integers

    C integers are mathematical integers with their wrap-around written out:
    [wrapu w] is the conversion to a [w]-bit unsigned type, [wraps w] the
    (two's complement) conversion to a [w]-bit signed type. *)

Definition wrapu (w z : Z) : Z := (z `mod` 2 ^ w)%Z.
Definition wraps (w z : Z) : Z := ((z + 2 ^ (w - 1)) `mod` 2 ^ w - 2 ^ (w - 1))%Z.

Abbreviation u8 := (wrapu 8).
Abbreviation u16 := (wrapu 16).
Abbreviation u32 := (wrapu 32).
Abbreviation u64 := (wrapu 64).
Abbreviation i8 := (wraps 8).
Abbreviation i32 := (wraps 32).
Abbreviation i64 := (wraps 64).

Definition INT_MAX : Z := 2147483647.
Definition INT_MIN : Z := -2147483648.
Definition UINT_MAX : Z := 4294967295.

Lemma wrapu_range w z : (0 <= w)%Z -> (0 <= wrapu w z < 2 ^ w)%Z.
Proof. intros. apply Z.mod_pos_bound, Z.pow_pos_nonneg; lia. Qed.

Lemma wrapu_small w z : (0 <= z < 2 ^ w)%Z -> wrapu w z = z.
Proof. apply Z.mod_small. Qed.

Lemma wrapu_wrapu w z : wrapu w (wrapu w z) = wrapu w z.
Proof. apply Zmod_mod. Qed.

Lemma wraps_range w z :
  (0 < w)%Z -> (- 2 ^ (w - 1) <= wraps w z < 2 ^ (w - 1))%Z.
Proof.
  intros Hw. unfold wraps.
  assert (Hp : (2 ^ w = 2 * 2 ^ (w - 1))%Z).
  { rewrite <- Z.pow_succ_r by lia. f_equal. lia. }
  pose proof (Z.mod_pos_bound (z + 2 ^ (w - 1)) (2 ^ w)).
  pose proof (Z.pow_pos_nonneg 2 w). lia.
Qed.

Lemma wraps_small w z :
  (0 < w)%Z -> (- 2 ^ (w - 1) <= z < 2 ^ (w - 1))%Z -> wraps w z = z.
Proof.
  intros Hw Hz. unfold wraps.
  assert (Hp : (2 ^ w = 2 * 2 ^ (w - 1))%Z).
  { rewrite <- Z.pow_succ_r by lia. f_equal. lia. }
  rewrite Z.mod_small; lia.
Qed.

Lemma wraps_wraps w z : (0 < w)%Z -> wraps w (wraps w z) = wraps w z.
Proof. intros. apply wraps_small; [done|]. by apply wraps_range. Qed.

Lemma i32_small z : (INT_MIN <= z <= INT_MAX)%Z -> i32 z = z.
Proof. intros. apply wraps_small; [lia|]. unfold INT_MIN, INT_MAX in *. lia. Qed.

Lemma u32_small z : (0 <= z <= UINT_MAX)%Z -> u32 z = z.
Proof. intros. apply wrapu_small. unfold UINT_MAX in *. lia. Qed.

(** Sums taken modulo [2^w] may be wrapped term by term. *)
Lemma wrapu_add_l w a b : wrapu w (wrapu w a + b) = wrapu w (a + b).
Proof. apply Zplus_mod_idemp_l. Qed.
Lemma wrapu_add_r w a b : wrapu w (a + wrapu w b) = wrapu w (a + b).
Proof. apply Zplus_mod_idemp_r. Qed.
Lemma wrapu_mul_l w a b : wrapu w (wrapu w a * b) = wrapu w (a * b).
Proof. apply Zmult_mod_idemp_l. Qed.
Lemma wrapu_mul_r w a b : wrapu w (a * wrapu w b) = wrapu w (a * b).
Proof. apply Zmult_mod_idemp_r. Qed.

(** Two numbers that differ by a multiple of [2^w] have one wrapped value. *)
Lemma wrapu_quot w z : exists k, wrapu w z = (z + k * 2 ^ w)%Z.
Proof. exists (- (z / 2 ^ w))%Z. unfold wrapu. pose proof (Z_div_mod_eq_full z (2 ^ w)). lia. Qed.
Lemma wrapu_shift w k a b : a = (b + k * 2 ^ w)%Z -> wrapu w a = wrapu w b.
Proof. intros ->. apply Z_mod_plus_full. Qed.

Lemma wraps_add_l w a b : wraps w (wraps w a + b) = wraps w (a + b).
Proof.
  unfold wraps. f_equal.
  replace ((a + 2 ^ (w - 1)) mod 2 ^ w - 2 ^ (w - 1) + b + 2 ^ (w - 1))%Z
    with ((a + 2 ^ (w - 1)) mod 2 ^ w + b)%Z by lia.
  rewrite Zplus_mod_idemp_l. f_equal. lia.
Qed.

Create Rewrite HintDb krwrap.
#[export] Hint Rewrite wrapu_wrapu wrapu_add_l wrapu_add_r wrapu_mul_l wrapu_mul_r : krwrap.

(** * Outcomes

    A C computation that has no defined result (a dereference of [NULL] or of
    freed memory, an access out of bounds, a division by zero, a conversion of a
    floating-point number out of the range of an integer, a read of a union
    member other than the one last written, a failed assertion) ends in a [fault];
    [NoFuel] is the
    outcome of a loop cut by its fuel, and the theorems show it is never reached
    where the code's loops end. *)

Variant fault :=
  | NullDeref | BadPointer | OutOfBounds | DivByZero | BadConversion | TypePun
  | AssertFailed | NoFuel.

#[export] Instance fault_eq_dec : EqDecision fault.
Proof. solve_decision. Defined.

Inductive res (A : Type) : Type :=
  | Ok (a : A)
  | Fault (f : fault).
Arguments Ok {A} a.
Arguments Fault {A} f.

#[export] Instance res_ret : MRet res := @Ok.
#[export] Instance res_bind : MBind res :=
  fun A B f m => match m with Ok a => f a | Fault e => Fault e end.
#[export] Instance res_fmap : FMap res :=
  fun A B f m => match m with Ok a => Ok (f a) | Fault e => Fault e end.

(** An option read as a pointer or an array cell: [None] is the fault [f]. *)
Definition of_option {A} (f : fault) (o : option A) : res A :=
  match o with Some a => Ok a | None => Fault f end.

Lemma of_option_Ok {A} f (o : option A) a : of_option f o = Ok a <-> o = Some a.
Proof. destruct o; simpl; split; congruence. Qed.

Lemma res_bind_Ok {A B} (m : res A) (k : A -> res B) b :
  m ≫= k = Ok b <-> exists a, m = Ok a /\ k a = Ok b.
Proof. destruct m; simpl; naive_solver. Qed.

(** * State and fault: computations over a store [S]. *)

Definition M (S A : Type) : Type := S -> res (A * S).

#[export] Instance M_ret {S} : MRet (M S) := fun A a s => Ok (a, s).
#[export] Instance M_bind {S} : MBind (M S) :=
  fun A B f m s => match m s with Ok (a, s') => f a s' | Fault e => Fault e end.

Definition fail {S A} (f : fault) : M S A := fun _ => Fault f.
Definition lift {S A} (r : res A) : M S A :=
  fun s => match r with Ok a => Ok (a, s) | Fault e => Fault e end.

(** One step of a computation, from what it gives. *)
Lemma bind_ok {S A B} (m : M S A) (k : A -> M S B) s a s' : m s = Ok (a, s') -> (m ≫= k) s = k a s'.
Proof. intros E. unfold mbind, M_bind. by rewrite E. Qed.
Lemma bind_fault {S A B} (m : M S A) (k : A -> M S B) s e : m s = Fault e -> (m ≫= k) s = Fault e.
Proof. intros E. unfold mbind, M_bind. by rewrite E. Qed.
Lemma bind_lift {S A B} (r : res A) (k : A -> M S B) s :
  (lift r ≫= k) s = match r with Ok a => k a s | Fault e => Fault e end.
Proof. unfold mbind, M_bind, lift. by destruct r. Qed.

(** [wp m s Q]: the computation [m] runs from the store [s] without a fault, and
    its result and final store satisfy [Q]. *)
Definition wp {S A} (m : M S A) (s : S) (Q : A -> S -> Prop) : Prop :=
  match m s with Ok (a, s') => Q a s' | Fault _ => False end.

Lemma wp_ret {S A} (a : A) (s : S) (Q : A -> S -> Prop) : Q a s -> wp (mret a) s Q.
Proof. done. Qed.

Lemma wp_bind {S A B} (m : M S A) (k : A -> M S B) (s : S) (Q : B -> S -> Prop) :
  wp m s (fun a s' => wp (k a) s' Q) -> wp (m ≫= k) s Q.
Proof. unfold wp. simpl. unfold mbind, M_bind. destruct (m s) as [[a s']|]; done. Qed.

Lemma wp_mono {S A} (m : M S A) (s : S) (P Q : A -> S -> Prop) :
  wp m s P -> (forall a s', P a s' -> Q a s') -> wp m s Q.
Proof. unfold wp. destruct (m s) as [[a s']|]; naive_solver. Qed.

Lemma wp_elim {S A} (m : M S A) (s : S) (Q : A -> S -> Prop) :
  wp m s Q -> exists a s', m s = Ok (a, s') /\ Q a s'.
Proof. unfold wp. destruct (m s) as [[a s']|]; naive_solver. Qed.

(** * Automation *)

(** Splits every [match] and [if] of a hypothesis or of the goal, and finishes
    with congruence. *)
Ltac split_match :=
  match goal with
  | |- context [match ?x with _ => _ end] => destruct x eqn:?
  | H : context [match ?x with _ => _ end] |- _ => destruct x eqn:?
  end.

(** Turns the boolean tests of the code into arithmetic facts and calls [lia]. *)
Ltac zbool :=
  repeat match goal with
  | H : (_ =? _)%Z = true |- _ => apply Z.eqb_eq in H
  | H : (_ =? _)%Z = false |- _ => apply Z.eqb_neq in H
  | H : (_ <? _)%Z = true |- _ => apply Z.ltb_lt in H
  | H : (_ <? _)%Z = false |- _ => apply Z.ltb_ge in H
  | H : (_ <=? _)%Z = true |- _ => apply Z.leb_le in H
  | H : (_ <=? _)%Z = false |- _ => apply Z.leb_gt in H
  | H : _ && _ = true |- _ => apply andb_true_iff in H as [? ?]
  | H : _ || _ = false |- _ => apply orb_false_iff in H as [? ?]
  end.
Ltac zlia := zbool; lia.
