(* ===== verification/KrString.v ===== *)
(** The string utilities of krutils/kr_string.c and kr_string.h.

    A C string is a Rocq [string] (its bytes up to the terminating NUL, which it
    does not hold); a [char] is signed, as on the platforms the build targets, so
    the byte [c] read as a [char] is [schar c].  The in-place functions return the
    new contents of the buffer.  [isspace], [toupper] and [tolower] are the C
    library's in the C locale. *)

From S2P Require Import Prelude.
From stdpp Require Import pretty.
From Stdlib Require Import Ascii String.
Local Open Scope Z_scope.
#[local] Arguments String.append !_ _ / : simpl nomatch.

(** * Characters *)

(** The byte of a character, as an [unsigned char] and as a [char]. *)
Definition uchar (c : ascii) : Z := Z.of_N (N_of_ascii c).
Definition schar (c : ascii) : Z := i8 (uchar c).
Definition chr (z : Z) : ascii := ascii_of_N (Z.to_N z).

(** The bytes of a string, without the null that ends it, and back. *)
Fixpoint string_bytes (s : string) : list Z :=
  match s with EmptyString => [] | String a s' => Z.of_nat (Ascii.nat_of_ascii a) :: string_bytes s' end.
Fixpoint bytes_string (l : list Z) : string :=
  match l with [] => EmptyString | b :: l' => String (chr b) (bytes_string l') end.

(** The C library's [isspace], [toupper] and [tolower] (C locale). *)
Definition isspace (c : ascii) : bool :=
  (uchar c =? 32) || ((9 <=? uchar c) && (uchar c <=? 13)).
Definition toupper (c : ascii) : ascii :=
  if (97 <=? uchar c) && (uchar c <=? 122) then chr (uchar c - 32) else c.
Definition tolower (c : ascii) : ascii :=
  if (65 <=? uchar c) && (uchar c <=? 90) then chr (uchar c + 32) else c.

(** * Printing of numbers, by the C library *)

(** [%0nd] of a number, padded on the left after its sign. *)
Fixpoint zeros (n : nat) : string := match n with O => EmptyString | S n' => ("0" ++ zeros n')%string end.
Definition print_padded (n : nat) (z : Z) : string :=
  let s := pretty (Z.abs z) in
  let sign := if z <? 0 then "-"%string else ""%string in
  (sign ++ zeros (n - String.length sign - String.length s) ++ s)%string.

(** * Comparison, hash and duplication *)

Definition kr_string_length (s : string) : Z := Z.of_nat (String.length s).

(** [strcmp], by its sign: bytes are compared as [unsigned char]; a string that
    ends compares as if its next byte were NUL. *)
Fixpoint strcmp (s1 s2 : string) : Z :=
  match s1, s2 with
  | EmptyString, EmptyString => 0
  | EmptyString, String _ _ => -1
  | String _ _, EmptyString => 1
  | String a s1', String b s2' =>
      if uchar a <? uchar b then -1
      else if uchar b <? uchar a then 1
      else strcmp s1' s2'
  end.

Definition kr_string_compare (s1 s2 : string) : Z := strcmp s1 s2.

Definition kr_string_equal (s1 s2 : string) : bool := kr_string_compare s1 s2 =? 0.

(** The loop of [kr_string_hash]: [h] becomes [(h << 5) + h] plus the character, on
    32 bits. *)
Fixpoint kr_string_hash_loop (h : Z) (s : string) : Z :=
  match s with
  | EmptyString => h
  | String c s' => kr_string_hash_loop (u32 (u32 (Z.shiftl h 5) + h + schar c)) s'
  end.

Definition kr_string_hash (s : string) : Z := kr_string_hash_loop 5381 s.

(** [kr_calloc] of [l] bytes and [memcpy] of [l] bytes, NUL included: the copy
    has the same bytes. *)
Definition kr_string_dup (s : string) : string :=
  let l := kr_string_length s + 1 in
  substring 0 (Z.to_nat l) s.

(** * Character-class tests *)

Definition numeric_char (c : ascii) : bool := negb ((schar c <? 48) || (57 <? schar c)).

Fixpoint kr_string_isnumeric (s : string) : bool :=
  match s with
  | EmptyString => true
  | String c s' =>
      if (schar c <? 48) || (57 <? schar c) then false else kr_string_isnumeric s'
  end.

Fixpoint kr_string_isdecimal (s : string) : bool :=
  match s with
  | EmptyString => true
  | String c s' =>
      if ((schar c <? 48) || (57 <? schar c)) && negb (schar c =? 46) &&
         negb (schar c =? 45) && negb (schar c =? 43)
      then false else kr_string_isdecimal s'
  end.

Fixpoint kr_string_isalphabet (s : string) : bool :=
  match s with
  | EmptyString => true
  | String c s' =>
      if (schar c <? 65) || ((90 <? schar c) && (schar c <? 97)) || (122 <? schar c)
      then false else kr_string_isalphabet s'
  end.

(** * Trimming *)

(** The buffer after [s[l-1] = NUL]: the string is cut to its first [l-1] bytes. *)
Definition cut_at (l : nat) (s : string) : string := substring 0 l s.

(** [for (l = strlen(s); l > 0 && isspace(s[l-1]); l--) s[l-1] = NUL]. *)
Fixpoint kr_string_rtrim_loop (l : nat) (s : string) : string :=
  match l with
  | O => s
  | S l' =>
      match String.get l' s with
      | Some c => if isspace c then kr_string_rtrim_loop l' (cut_at l' s) else s
      | None => s
      end
  end.

Definition kr_string_rtrim (s : string) : string :=
  kr_string_rtrim_loop (String.length s) s.

(** The pointer [p] moves over the leading blanks, then [strcpy(s, p)]. *)
Fixpoint kr_string_ltrim (s : string) : string :=
  match s with
  | EmptyString => EmptyString
  | String c s' => if isspace c then kr_string_ltrim s' else s
  end.

Definition kr_string_alltrim (s : string) : string :=
  kr_string_ltrim (kr_string_rtrim s).

(** * Case conversion that skips double-byte (GBK) characters *)

Definition lead_byte (c : ascii) : bool := (129 <=? uchar c) && (uchar c <=? 254).

(** The loop on [i] with the conversion [f]; a lead byte makes [i] skip the byte
    after it. *)
Fixpoint convert_loop (f : ascii -> ascii) (s : string) : string :=
  match s with
  | EmptyString => EmptyString
  | String c s' =>
      if lead_byte c then
        match s' with
        | EmptyString => String c EmptyString
        | String c2 s'' => String c (String c2 (convert_loop f s''))
        end
      else String (f c) (convert_loop f s')
  end.

Definition kr_string_toupper (s : string) : string := convert_loop toupper s.
Definition kr_string_tolower (s : string) : string := convert_loop tolower s.

(** * Environment expansion *)

Section Dupenv.

(** The C library's [getenv], on the process environment. *)
Context (getenv : string -> option string).

(** The local state of [kr_string_dupenv]: the bytes of [caEnv] and the index of
    [pEnv] in it; the bytes written to [caOutput] so far. *)
Record dupenv_state := { caEnv : list ascii; pEnv : nat; caOutput : string }.

Definition CAENV_SIZE : nat := 100.
Definition CAOUTPUT_SIZE : nat := 1024.

(** A [char] array read as a string: its bytes before the first NUL. *)
Fixpoint cstring (l : list ascii) : string :=
  match l with
  | [] => EmptyString
  | c :: l' => if uchar c =? 0 then EmptyString else String c (cstring l')
  end.

Definition memset_env (st : dupenv_state) : dupenv_state :=
  {| caEnv := replicate CAENV_SIZE (chr 0); pEnv := pEnv st; caOutput := caOutput st |}.

(** The byte [c] written at [pEnv], which then moves one byte further. *)
Definition env_putc (c : ascii) (st : dupenv_state) : res dupenv_state :=
  if decide (pEnv st < CAENV_SIZE)%nat
  then Ok {| caEnv := <[pEnv st := c]> (caEnv st); pEnv := S (pEnv st);
             caOutput := caOutput st |}
  else Fault OutOfBounds.

(** A write of [s] at [pOutput], which then moves past it. *)
Definition out_put (s : string) (st : dupenv_state) : res dupenv_state :=
  if decide (String.length (caOutput st ++ s)%string <= CAOUTPUT_SIZE)%nat
  then Ok {| caEnv := caEnv st; pEnv := pEnv st; caOutput := (caOutput st ++ s)%string |}
  else Fault OutOfBounds.

(** The inner loop, which copies the bytes up to the closing brace to [caEnv], and
    the step over that brace: the rest of the input after it.  An input that ends
    first is read past its end. *)
Fixpoint read_name (inp : string) (st : dupenv_state) : res (string * dupenv_state) :=
  match inp with
  | EmptyString => Fault OutOfBounds
  | String c inp' =>
      if Ascii.eqb c "}"%char then Ok (inp', st)
      else st' ← env_putc c st; read_name inp' st'
  end.

(** The outer loop over the input, until its NUL. *)
Fixpoint dupenv_loop (fuel : nat) (inp : string) (st : dupenv_state) : res dupenv_state :=
  match fuel with
  | O => Fault NoFuel
  | S fuel' =>
      match inp with
      | EmptyString => Ok st
      | String c inp' =>
          if Ascii.eqb c "$"%char then
            let st := memset_env st in
            '(inp2, st2) ← match inp' with
                           | String d inp'' =>
                               if Ascii.eqb d "{"%char then read_name inp'' st
                               else Ok (inp', st)
                           | EmptyString => Ok (inp', st)
                           end;
            st3 ← match getenv (cstring (caEnv st2)) with
                  | Some env => out_put env st2
                  | None => Ok st2
                  end;
            dupenv_loop fuel' inp2 st3
          else
            st2 ← out_put (String c EmptyString) st;
            dupenv_loop fuel' inp' st2
      end
  end.

(** [kr_string_dupenv(s)]; [None] is a [NULL] argument or result. *)
Definition kr_string_dupenv (s : option string) : res (option string) :=
  match s with
  | None => Ok None
  | Some s =>
      st ← dupenv_loop (S (String.length s)) s
             {| caEnv := replicate CAENV_SIZE (chr 0); pEnv := 0; caOutput := EmptyString |};
      if decide (String.length (caOutput st) < CAOUTPUT_SIZE)%nat
      then Ok (Some (caOutput st))
      else Fault OutOfBounds
  end.

End Dupenv.

(** * Lemmas on strings *)

Lemma string_app_assoc (a b c : string) : ((a ++ b) ++ c = a ++ (b ++ c))%string.
Proof. induction a; simpl; congruence. Qed.

Lemma string_app_nil_r (s : string) : (s ++ "" = s)%string.
Proof. induction s; simpl; congruence. Qed.

Lemma string_length_app (a b : string) :
  String.length (a ++ b) = (String.length a + String.length b)%nat.
Proof. induction a; simpl; congruence. Qed.

(** Every non-empty string has a last character. *)
Lemma string_rev_ind (P : string -> Prop) :
  P EmptyString -> (forall s c, P s -> P (s ++ String c EmptyString)%string) ->
  forall s, P s.
Proof.
  intros H0 HS s. remember (String.length s) as n eqn:Hn. revert s Hn.
  induction n as [|n IH]; intros s Hn.
  - by destruct s.
  - assert (exists s' c, s = s' ++ String c EmptyString)%string as (s' & c & ->).
    { clear -Hn. destruct s as [|a s]; [done|]. clear Hn. revert a.
      induction s as [|b s IH]; intros a; [by exists EmptyString, a|].
      destruct (IH b) as (s' & c & ->). by exists (String a s'), c. }
    apply HS, IH. rewrite string_length_app in Hn. simpl in Hn. lia.
Qed.

Lemma get_last s c : String.get (String.length s) (s ++ String c EmptyString) = Some c.
Proof. by induction s. Qed.

Lemma cut_at_app s t : cut_at (String.length s) (s ++ t) = s.
Proof. unfold cut_at. induction s; simpl; [by destruct t|congruence]. Qed.

Lemma cut_at_ge n s : (String.length s <= n)%nat -> cut_at n s = s.
Proof.
  unfold cut_at. revert n. induction s as [|c s IH]; intros [|n] Hn; simpl in *; try lia; try done.
  rewrite IH by lia. done.
Qed.

Fixpoint all_chars (p : ascii -> bool) (s : string) : bool :=
  match s with EmptyString => true | String c s' => p c && all_chars p s' end.

Lemma all_chars_app p a b : all_chars p (a ++ b) = all_chars p a && all_chars p b.
Proof. induction a; simpl; [done|]. rewrite IHa. by rewrite andb_assoc. Qed.

(** * Comparison *)

Lemma uchar_inj a b : uchar a = uchar b -> a = b.
Proof.
  unfold uchar. intros H. apply N2Z.inj in H.
  rewrite <- (ascii_N_embedding a), <- (ascii_N_embedding b). congruence.
Qed.

Lemma uchar_bound c : 0 <= uchar c < 256.
Proof. unfold uchar. pose proof (N_ascii_bounded c). lia. Qed.

Lemma nat_of_ascii_uchar a : Z.of_nat (nat_of_ascii a) = uchar a.
Proof. unfold nat_of_ascii, uchar. by rewrite N_nat_Z. Qed.

Lemma string_bytes_cons a s : string_bytes (String a s) = uchar a :: string_bytes s.
Proof. cbn [string_bytes]. by rewrite nat_of_ascii_uchar. Qed.

Lemma chr_uchar a : chr (uchar a) = a.
Proof. unfold chr, uchar. by rewrite N2Z.id, ascii_N_embedding. Qed.

Lemma uchar_chr z : 0 <= z < 256 -> uchar (chr z) = z.
Proof. intros Hz. unfold chr, uchar. rewrite N_ascii_embedding by lia. lia. Qed.

Lemma bytes_string_bytes s : bytes_string (string_bytes s) = s.
Proof. induction s as [|a s IH]; [done|]. rewrite string_bytes_cons. cbn [bytes_string]. by rewrite chr_uchar, IH. Qed.

Lemma string_bytes_string l : Forall (fun b => 0 <= b < 256) l -> string_bytes (bytes_string l) = l.
Proof.
  induction 1 as [|b l Hb Hl IH]; [done|]. cbn [bytes_string]. by rewrite string_bytes_cons, uchar_chr, IH.
Qed.

Lemma string_bytes_range s : Forall (fun b => 0 <= b < 256) (string_bytes s).
Proof.
  induction s as [|a s IH]; [done|]. rewrite string_bytes_cons. constructor; [apply uchar_bound|done].
Qed.

Lemma bytes_string_app a b : bytes_string (a ++ b) = (bytes_string a ++ bytes_string b)%string.
Proof. induction a as [|x a IH]; [done|]. cbn. by rewrite IH. Qed.

Lemma bytes_string_length l : String.length (bytes_string l) = List.length l.
Proof. induction l as [|b l IH]; [done|]. cbn. by rewrite IH. Qed.

Lemma string_bytes_length s : List.length (string_bytes s) = String.length s.
Proof. induction s as [|a s IH]; [done|]. cbn. by rewrite IH. Qed.

Lemma strcmp_refl s : strcmp s s = 0.
Proof. induction s; simpl; [done|]. by rewrite Z.ltb_irrefl. Qed.

Lemma strcmp_eq s1 s2 : strcmp s1 s2 = 0 <-> s1 = s2.
Proof.
  split; [|intros ->; apply strcmp_refl].
  revert s2. induction s1 as [|a s1 IH]; intros [|b s2]; simpl; try done.
  destruct (uchar a <? uchar b) eqn:?, (uchar b <? uchar a) eqn:?; try done.
  intros H. f_equal; [apply uchar_inj; zlia|by apply IH].
Qed.

Lemma strcmp_antisym s1 s2 : strcmp s2 s1 = - strcmp s1 s2.
Proof.
  revert s2. induction s1 as [|a s1 IH]; intros [|b s2]; simpl; try done.
  destruct (uchar a <? uchar b) eqn:?, (uchar b <? uchar a) eqn:?; try done. zlia.
Qed.

Lemma strcmp_trans s1 s2 s3 : strcmp s1 s2 < 0 -> strcmp s2 s3 < 0 -> strcmp s1 s3 < 0.
Proof.
  revert s2 s3. induction s1 as [|a s1 IH]; intros [|b s2] [|c s3]; simpl; try lia.
  destruct (uchar a <? uchar b) eqn:?, (uchar b <? uchar a) eqn:?,
    (uchar b <? uchar c) eqn:?, (uchar c <? uchar b) eqn:?,
    (uchar a <? uchar c) eqn:?, (uchar c <? uchar a) eqn:?; try zlia.
  apply IH.
Qed.

Lemma kr_string_equal_iff s1 s2 : kr_string_equal s1 s2 = true <-> s1 = s2.
Proof. unfold kr_string_equal, kr_string_compare. rewrite Z.eqb_eq. apply strcmp_eq. Qed.

Lemma kr_string_dup_id s : kr_string_dup s = s.
Proof. unfold kr_string_dup, kr_string_length. apply (cut_at_ge _ s). lia. Qed.

(** * Printed numbers *)

(** The number that decimal digits denote, after [acc]. *)
Fixpoint dvalue (acc : N) (s : string) : N :=
  match s with
  | EmptyString => acc
  | String c s' => dvalue (10 * acc + (N_of_ascii c - 48)) s'
  end.

Fixpoint digits (s : string) : bool :=
  match s with
  | EmptyString => true
  | String c s' => (48 <=? uchar c) && (uchar c <=? 57) && digits s'
  end.

Lemma pretty_N_char_digit x :
  (x < 10)%N -> N_of_ascii (pretty_N_char x) = (48 + x)%N /\
  (48 <=? uchar (pretty_N_char x)) && (uchar (pretty_N_char x) <=? 57) = true.
Proof.
  intros H. assert (Hx : (x = 0 \/ x = 1 \/ x = 2 \/ x = 3 \/ x = 4 \/ x = 5 \/ x = 6 \/ x = 7 \/ x = 8 \/ x = 9)%N)
    by lia.
  by destruct Hx as [->|[->|[->|[->|[->|[->|[->|[->|[->| ->]]]]]]]]].
Qed.

Lemma pretty_go_value x : forall s,
  dvalue 0 (pretty_N_go x s) = dvalue x s /\ (digits s = true -> digits (pretty_N_go x s) = true).
Proof.
  induction (N.lt_wf_0 x) as [x _ IH]. intros s. destruct (decide (0 < x)%N) as [Hx|Hx].
  - rewrite pretty_N_go_step by done.
    destruct (IH (x / 10)%N (N.div_lt x 10 Hx eq_refl) (String (pretty_N_char (x `mod` 10)) s)) as [-> H2].
    destruct (pretty_N_char_digit (x `mod` 10)) as [Hc Hd]; [by apply N.mod_lt|]. split.
    + cbn [dvalue]. rewrite Hc. f_equal. rewrite (N.add_comm 48), N.add_sub. symmetry. by apply N.div_mod.
    + intros Hs. apply H2. cbn [digits]. by rewrite Hd, Hs.
  - assert (x = 0%N) as -> by lia. by rewrite pretty_N_go_0.
Qed.

Lemma pretty_value (z : Z) : 0 <= z -> dvalue 0 (pretty z) = Z.to_N z /\ digits (pretty z) = true.
Proof.
  intros Hz. assert (H : forall n : N, dvalue 0 (pretty n) = n /\ digits (pretty n) = true).
  { intros n. unfold pretty, pretty_N. case_decide as Hn; [by subst|].
    destruct (pretty_go_value n "") as [-> Hd]. split; [done|by apply Hd]. }
  destruct z as [|q|q]; [by apply (H 0%N)|by apply (H (N.pos q))|lia].
Qed.

(** A number but 0 starts with another digit than 0. *)
Lemma pretty_go_head x : forall s, (0 < x)%N ->
  exists c t, pretty_N_go x s = String c t /\ 49 <= uchar c <= 57.
Proof.
  induction (N.lt_wf_0 x) as [x _ IH]. intros s Hx. rewrite pretty_N_go_step by done.
  destruct (decide (0 < x / 10)%N) as [Hq|Hq].
  - destruct (IH (x / 10)%N (N.div_lt x 10 Hx eq_refl) (String (pretty_N_char (x `mod` 10)) s) Hq)
      as (c & t & -> & Hc). by exists c, t.
  - assert (Hs : (x < 10)%N).
    { destruct (N.lt_ge_cases x 10) as [|Hge]; [done|]. destruct Hq. by apply N.div_str_pos. }
    rewrite N.div_small, N.mod_small by done. rewrite pretty_N_go_0. eexists _, _. split; [done|].
    destruct (pretty_N_char_digit x Hs) as [Hc _]. unfold uchar. rewrite Hc. lia.
Qed.

Lemma pretty_pos_head (p : positive) :
  exists c t, pretty (Z.pos p) = String c t /\ 49 <= uchar c <= 57.
Proof.
  destruct (pretty_go_head (N.pos p) "" ltac:(lia)) as (c & t & H & Hc). exists c, t. split; [|done].
  rewrite <- H. done.
Qed.

Lemma zeros_value n s : dvalue 0 (zeros n ++ s) = dvalue 0 s /\ digits (zeros n ++ s) = digits s.
Proof.
  induction n as [|n [IH1 IH2]]; [done|].
  change (dvalue 0 (zeros n ++ s) = dvalue 0 s /\ digits (zeros n ++ s) = digits s).
  by rewrite IH1, IH2.
Qed.

Lemma print_padded_value n z :
  0 <= z -> dvalue 0 (print_padded n z) = Z.to_N z /\ digits (print_padded n z) = true.
Proof.
  intros Hz. unfold print_padded. rewrite (proj2 (Z.ltb_ge z 0)), Z.abs_eq by done. simpl.
  destruct (zeros_value (n - 0 - String.length (pretty z)) (pretty z)) as [-> ->]. by apply pretty_value.
Qed.

(** * The hash is a polynomial in 33 *)

(** The characters as the digits, base 33, most significant first. *)
Fixpoint hash_poly (s : string) : Z :=
  match s with
  | EmptyString => 0
  | String c s' => schar c * 33 ^ Z.of_nat (String.length s') + hash_poly s'
  end.

Lemma kr_string_hash_loop_poly h s :
  u32 (kr_string_hash_loop h s) = u32 (h * 33 ^ Z.of_nat (String.length s) + hash_poly s).
Proof.
  revert h. induction s as [|c s IH]; intros h.
  - simpl kr_string_hash_loop. simpl hash_poly. change (33 ^ Z.of_nat _) with 1. f_equal. lia.
  - simpl kr_string_hash_loop. rewrite IH. simpl hash_poly. simpl String.length.
    rewrite Nat2Z.inj_succ, Z.pow_succ_r by lia.
    rewrite Z.shiftl_mul_pow2 by lia.
    destruct (wrapu_quot 32 (h * 2 ^ 5)) as [q ->].
    destruct (wrapu_quot 32 (h * 2 ^ 5 + q * 2 ^ 32 + h + schar c)) as [q' ->].
    apply wrapu_shift with (k := (q' + q) * 33 ^ Z.of_nat (String.length s)). ring.
Qed.

Lemma kr_string_hash_loop_range h s :
  0 <= h <= UINT_MAX -> 0 <= kr_string_hash_loop h s <= UINT_MAX.
Proof.
  revert h. induction s as [|c s IH]; intros h Hh; simpl; [done|].
  apply IH. pose proof (wrapu_range 32 (u32 (Z.shiftl h 5) + h + schar c)). unfold UINT_MAX. lia.
Qed.

Lemma kr_string_hash_range s : 0 <= kr_string_hash s <= UINT_MAX.
Proof. apply kr_string_hash_loop_range. unfold UINT_MAX. lia. Qed.

(** * Trimming *)

Lemma kr_string_rtrim_snoc s c :
  kr_string_rtrim (s ++ String c EmptyString) =
  if isspace c then kr_string_rtrim s else (s ++ String c EmptyString)%string.
Proof.
  unfold kr_string_rtrim. rewrite string_length_app, Nat.add_comm. simpl.
  rewrite get_last, cut_at_app. done.
Qed.

(** What [kr_string_rtrim] cuts is blank, and what it leaves does not end in a
    blank. *)
Lemma kr_string_rtrim_spec s :
  exists r, s = (kr_string_rtrim s ++ r)%string /\ all_chars isspace r = true /\
  forall s' c, kr_string_rtrim s = (s' ++ String c EmptyString)%string -> isspace c = false.
Proof.
  induction s as [|s c IH] using string_rev_ind.
  { exists EmptyString. split; [done|]. split; [done|].
    intros [|? ?] ?; simpl; done. }
  rewrite kr_string_rtrim_snoc. destruct (isspace c) eqn:Hc.
  - destruct IH as (r & Hs & Hr & Hend). exists (r ++ String c EmptyString)%string.
    split; [|split; [|done]].
    + rewrite <- string_app_assoc. congruence.
    + rewrite all_chars_app, Hr. simpl. by rewrite Hc.
  - exists EmptyString. rewrite string_app_nil_r. split; [done|]. split; [done|].
    intros s' c' Heq. assert (Hl : String.length s = String.length s').
    { apply (f_equal String.length) in Heq. rewrite !string_length_app in Heq. simpl in Heq. lia. }
    pose proof (get_last s c) as H1. rewrite Heq, Hl, get_last in H1. congruence.
Qed.

Lemma kr_string_ltrim_spec s :
  exists l, s = (l ++ kr_string_ltrim s)%string /\ all_chars isspace l = true /\
  forall s' c, kr_string_ltrim s = String c s' -> isspace c = false.
Proof.
  induction s as [|c s IH]; simpl.
  { exists EmptyString. naive_solver. }
  destruct (isspace c) eqn:Hc.
  - destruct IH as (l & Hs & Hl & Hend). exists (String c l). simpl. rewrite Hc. split_and!; [congruence|done|done].
  - exists EmptyString. split; [done|]. split; [done|]. intros ? ? [= <- <-]. done.
Qed.

Lemma kr_string_ltrim_blank_l l s :
  all_chars isspace l = true -> kr_string_ltrim (l ++ s) = kr_string_ltrim s.
Proof. induction l as [|c l IH]; simpl; [done|]. intros [-> ?]%andb_true_iff. by apply IH. Qed.

(** * Case conversion *)

Section Convert.
Context (f g : ascii -> ascii).
Context (f_lead : forall c, lead_byte (f c) = lead_byte c).

Lemma convert_loop_compose_aux n s :
  (String.length s <= n)%nat ->
  convert_loop g (convert_loop f s) = convert_loop (fun c => g (f c)) s.
Proof.
  revert s. induction n as [|n IH]; intros [|c s] Hn; simpl in *; try lia; try done.
  destruct (lead_byte c) eqn:Hc.
  - destruct s as [|c2 s]; simpl; rewrite Hc; [done|]. simpl in Hn.
    rewrite IH by lia. done.
  - simpl. rewrite f_lead, Hc, IH by lia. done.
Qed.

Lemma convert_loop_compose s :
  convert_loop g (convert_loop f s) = convert_loop (fun c => g (f c)) s.
Proof. by apply (convert_loop_compose_aux (String.length s)). Qed.
End Convert.

Lemma convert_loop_ext_aux f g n s :
  (forall c, f c = g c) -> (String.length s <= n)%nat -> convert_loop f s = convert_loop g s.
Proof.
  intros Hfg. revert s. induction n as [|n IH]; intros [|c s] Hn; simpl in *; try lia; try done.
  destruct (lead_byte c).
  - destruct s as [|c2 s]; [done|]. simpl in Hn. by rewrite IH by lia.
  - by rewrite Hfg, IH by lia.
Qed.

Lemma convert_loop_ext f g s : (forall c, f c = g c) -> convert_loop f s = convert_loop g s.
Proof. intros. by eapply convert_loop_ext_aux. Qed.

(** A fact about every character, by evaluation on the 256 of them. *)
Definition all_ascii : list ascii := ascii_of_nat <$> seq 0 256.
Lemma all_ascii_spec c : c ∈ all_ascii.
Proof.
  unfold all_ascii. apply list_elem_of_fmap. exists (nat_of_ascii c).
  split; [by rewrite ascii_nat_embedding|]. apply elem_of_seq.
  pose proof (nat_ascii_bounded c). lia.
Qed.
Lemma ascii_forall (P : ascii -> bool) : forallb P all_ascii = true -> forall c, P c = true.
Proof.
  intros H c. rewrite forallb_forall in H. apply H, list_elem_of_In, all_ascii_spec.
Qed.

Lemma toupper_lead c : lead_byte (toupper c) = lead_byte c.
Proof.
  apply eqb_true_iff. revert c. apply ascii_forall. by vm_compute.
Qed.

Lemma tolower_lead c : lead_byte (tolower c) = lead_byte c.
Proof.
  apply eqb_true_iff. revert c. apply ascii_forall. by vm_compute.
Qed.

Lemma tolower_toupper_char c : tolower (toupper c) = tolower c.
Proof. apply Ascii.eqb_eq. revert c. apply ascii_forall. by vm_compute. Qed.

Lemma toupper_toupper_char c : toupper (toupper c) = toupper c.
Proof. apply Ascii.eqb_eq. revert c. apply ascii_forall. by vm_compute. Qed.

(** * Environment expansion ends *)

Lemma read_name_length inp st r :
  read_name inp st = Ok r -> (String.length r.1 < String.length inp)%nat.
Proof.
  revert st. induction inp as [|c inp IH]; intros st; simpl; [done|].
  destruct (Ascii.eqb c "}").
  - intros [= <-]. simpl. lia.
  - intros (st' & _ & Hr)%res_bind_Ok. apply IH in Hr. lia.
Qed.

Lemma read_name_fuel inp st : read_name inp st <> Fault NoFuel.
Proof.
  revert st. induction inp as [|c inp IH]; intros st; simpl; [done|].
  destruct (Ascii.eqb c "}"); [done|].
  unfold env_putc. case_decide; simpl; [apply IH|done].
Qed.

Lemma out_put_fuel s st : out_put s st <> Fault NoFuel.
Proof. unfold out_put. by case_decide. Qed.

Lemma dupenv_loop_fuel getenv fuel inp st :
  (String.length inp < fuel)%nat -> dupenv_loop getenv fuel inp st <> Fault NoFuel.
Proof.
  revert inp st. induction fuel as [|fuel IH]; intros inp st Hf; [lia|].
  destruct inp as [|c inp]; simpl in *; [done|].
  destruct (Ascii.eqb c "$").
  - assert (Hr : forall r, r = match inp with
        | String d inp'' =>
            if Ascii.eqb d "{" then read_name inp'' (memset_env st)
            else Ok (inp, memset_env st)
        | EmptyString => Ok (inp, memset_env st)
        end -> r <> Fault NoFuel /\
        forall i s, r = Ok (i, s) -> (String.length i <= String.length inp)%nat).
    { intros r ->. destruct inp as [|d inp]; [naive_solver|].
      destruct (Ascii.eqb d "{"); [|naive_solver]. split; [apply read_name_fuel|].
      intros i s Hr%read_name_length. simpl in *. lia. }
    specialize (Hr _ eq_refl). destruct Hr as [Hnf Hlen].
    destruct (match inp with EmptyString => _ | String _ _ => _ end) as [[i s]|e];
      simpl; [|congruence].
    specialize (Hlen i s eq_refl).
    destruct (getenv _) as [env|]; [|apply IH; lia].
    destruct (out_put env s) eqn:Ho; simpl; [apply IH; lia|].
    pose proof (out_put_fuel env s). congruence.
  - destruct (out_put _ st) eqn:Ho; simpl; [apply IH; lia|].
    pose proof (out_put_fuel (String c "") st). congruence.
Qed.

(** * Properties *)

(** The shift-and-add loop of [kr_string_hash], on 32-bit unsigned words and
    signed characters, computes the hash of a reference polynomial: [5381] and the
    characters as the digits of a number in base 33, modulo [2^32]. *)
Theorem kr_string_hash_poly (s : string) :
  kr_string_hash s = u32 (5381 * 33 ^ Z.of_nat (String.length s) + hash_poly s).
Proof.
  unfold kr_string_hash. rewrite <- kr_string_hash_loop_poly. symmetry.
  apply u32_small, kr_string_hash_range.
Qed.

(** [kr_string_alltrim] removes exactly the blanks at the two ends: the string
    is blanks, the result, blanks, and the result neither begins nor ends with a
    blank. *)
Theorem kr_string_alltrim_spec (s : string) :
  exists l r, s = (l ++ kr_string_alltrim s ++ r)%string /\
    all_chars isspace l = true /\ all_chars isspace r = true /\
    (forall c t, kr_string_alltrim s = String c t -> isspace c = false) /\
    (forall t c, kr_string_alltrim s = (t ++ String c EmptyString)%string -> isspace c = false).
Proof.
  unfold kr_string_alltrim.
  destruct (kr_string_rtrim_spec s) as (r & Hs & Hr & Hend).
  destruct (kr_string_ltrim_spec (kr_string_rtrim s)) as (l & Hl & Hbl & Hbeg).
  exists l, r. split; [|split; [done|split; [done|split]]].
  - rewrite <- string_app_assoc, <- Hl. done.
  - intros c t Ht. by eapply Hbeg.
  - intros t c Ht. apply (Hend (l ++ t)%string c). rewrite Hl at 1. rewrite Ht.
    by rewrite string_app_assoc.
Qed.

(** On any string, double-byte characters included, upper-casing loses no more
    than the case: lower-casing the result of [kr_string_toupper] gives what
    lower-casing the string gives, and upper-casing twice is upper-casing once. *)
Theorem kr_string_case_conversion (s : string) :
  kr_string_tolower (kr_string_toupper s) = kr_string_tolower s /\
  kr_string_toupper (kr_string_toupper s) = kr_string_toupper s.
Proof.
  unfold kr_string_tolower, kr_string_toupper.
  rewrite !convert_loop_compose by apply toupper_lead.
  split; apply convert_loop_ext; [apply tolower_toupper_char|apply toupper_toupper_char].
Qed.

(** [kr_string_dupenv] always ends, and expands only the first variable of its
    input: [pEnv] is not moved back to the start of [caEnv], so from the second
    [${...}] on the name handed to [getenv] is empty. *)
Theorem kr_string_dupenv_ends (getenv : string -> option string) (s : option string) :
  kr_string_dupenv getenv s <> Fault NoFuel /\
  kr_string_dupenv (fun n => if String.eqb n "A" then Some "/opt"%string
                             else if String.eqb n "B" then Some "etc"%string else None)
    (Some "${A}/${B}"%string) = Ok (Some "/opt/"%string).
Proof.
  split; [|by vm_compute].
  destruct s as [s|]; [|done]. unfold kr_string_dupenv.
  match goal with |- context [dupenv_loop ?g ?f ?i ?st] =>
    pose proof (dupenv_loop_fuel g f i st); destruct (dupenv_loop g f i st) end.
  - simpl. by case_decide.
  - simpl. intros [= ->]. by apply H; [lia|].
Qed.
