(* ===== verification/KrList.v ===== *)
(** The doubly linked list of krutils/kr_list.c and kr_list.h.

    Nodes live in a store, so that the pointers the code rewires, shares and frees
    are pointers here: a node is reached by [read_node], which faults on [NULL] and
    on a node that is not allocated (freed, in particular).  A list header is passed
    by value and returned.  [V] is the type of the [void *] values. *)

From S2P Require Import Prelude.
From Stdlib Require Import Sorted.
Local Open Scope Z_scope.

Definition ptr := positive.

Section KrList.
Context {V : Type} `{EqDecision V} {U : Type}.

(** * Data *)

Record T_KRListNode := mkNode { prev : option ptr; next : option ptr; value : V }.

(** The list header, with its methods ([None] is a [NULL] function pointer).  The
    [free] method's calls are recorded in the store. *)
Record T_KRList := mkList {
  head : option ptr;
  tail : option ptr;
  dup : option (V -> option V);
  has_free : bool;
  match_ : option (V -> V -> bool);
  compare : option (V -> V -> U -> Z);
  len : Z
}.

(** The store: the allocated nodes, and the values passed to [free], in order. *)
Record store := mkStore { nodes : gmap ptr T_KRListNode; freed : list V }.

#[global] Instance eta_node_inhabited : Inhabited store := populate (mkStore ∅ []).

(** * Access to the store *)

Definition read_node (p : option ptr) : M store T_KRListNode := fun s =>
  match p with
  | None => Fault NullDeref
  | Some p => match nodes s !! p with Some n => Ok (n, s) | None => Fault BadPointer end
  end.

Definition write_node (p : option ptr) (f : T_KRListNode -> T_KRListNode) : M store unit := fun s =>
  match p with
  | None => Fault NullDeref
  | Some p => match nodes s !! p with
              | Some n => Ok (tt, mkStore (<[p := f n]> (nodes s)) (freed s))
              | None => Fault BadPointer
              end
  end.

Definition set_prev (p : option ptr) (x : option ptr) : M store unit :=
  write_node p (fun n => mkNode x (next n) (value n)).
Definition set_next (p : option ptr) (x : option ptr) : M store unit :=
  write_node p (fun n => mkNode (prev n) x (value n)).

(** [kr_malloc] of a node, whose links are set later by the code. *)
Definition alloc_node (v : V) : M store (option ptr) := fun s =>
  let p := fresh (dom (nodes s)) in
  Ok (Some p, mkStore (<[p := mkNode None None v]> (nodes s)) (freed s)).

Definition free_node (p : option ptr) : M store unit := fun s =>
  match p with
  | None => Ok (tt, s)
  | Some p => match nodes s !! p with
              | Some _ => Ok (tt, mkStore (delete p (nodes s)) (freed s))
              | None => Fault BadPointer
              end
  end.

Definition call_free (l : T_KRList) (v : V) : M store unit := fun s =>
  Ok (tt, if has_free l then mkStore (nodes s) (freed s ++ [v]) else s).

Definition set_head (l : T_KRList) (p : option ptr) : T_KRList :=
  mkList p (tail l) (dup l) (has_free l) (match_ l) (compare l) (len l).
Definition set_tail (l : T_KRList) (p : option ptr) : T_KRList :=
  mkList (head l) p (dup l) (has_free l) (match_ l) (compare l) (len l).
Definition set_len (l : T_KRList) (n : Z) : T_KRList :=
  mkList (head l) (tail l) (dup l) (has_free l) (match_ l) (compare l) n.

(** * Operations *)

Definition kr_list_new : T_KRList := mkList None None None false None None 0.

Definition kr_list_length (l : T_KRList) : Z := len l.

(** [while (len--)]: [n] is the value of [len] before the test. *)
Fixpoint kr_list_destroy_loop (l : T_KRList) (n : nat) (current : option ptr) : M store unit :=
  match n with
  | O => mret tt
  | S n' =>
      c ← read_node current;
      call_free l (value c);;
      free_node current;;
      kr_list_destroy_loop l n' (next c)
  end.

Definition kr_list_destroy (l : T_KRList) : M store unit :=
  kr_list_destroy_loop l (Z.to_nat (len l)) (head l).

Definition kr_list_add_head (l : T_KRList) (v : V) : M store T_KRList :=
  node ← alloc_node v;
  l ← (if len l =? 0 then
         set_prev node None;; set_next node None;;
         mret (set_tail (set_head l node) node)
       else
         set_prev node None;;
         set_next node (head l);;
         set_prev (head l) node;;
         mret (set_head l node));
  mret (set_len l (u32 (len l + 1))).

Definition kr_list_add_tail (l : T_KRList) (v : V) : M store T_KRList :=
  node ← alloc_node v;
  l ← (if len l =? 0 then
         set_prev node None;; set_next node None;;
         mret (set_tail (set_head l node) node)
       else
         set_prev node (tail l);;
         set_next node None;;
         set_next (tail l) node;;
         mret (set_tail l node));
  mret (set_len l (u32 (len l + 1))).

(** The search of the place, from the tail: [curr] is the last node not after the
    value, [next] the one that follows it. *)
Fixpoint add_sorted_loop (fuel : nat) (l : T_KRList) (v : V) (user_data : U)
    (curr nxt : option ptr) : M store (option ptr * option ptr) :=
  match fuel with
  | O => fail NoFuel
  | S fuel' =>
      match curr with
      | None => mret (None, nxt)
      | Some _ =>
          c ← read_node curr;
          match compare l with
          | Some cmp =>
              if 0 <=? cmp v (value c) user_data then mret (curr, nxt)
              else add_sorted_loop fuel' l v user_data (prev c) curr
          | None => add_sorted_loop fuel' l v user_data (prev c) curr
          end
      end
  end.

Definition kr_list_add_sorted (l : T_KRList) (v : V) (user_data : U) : M store T_KRList :=
  node ← alloc_node v;
  l ← (if len l =? 0 then
         set_prev node None;; set_next node None;;
         mret (set_tail (set_head l node) node)
       else
         t ← read_node (tail l);
         '(curr, nxt) ← add_sorted_loop (S (Z.to_nat (len l))) l v user_data (tail l) (next t);
         set_prev node curr;;
         set_next node nxt;;
         l ← match curr with
             | Some _ => set_next curr node;; mret l
             | None => mret (set_head l node)
             end;
         match nxt with
         | Some _ => set_prev nxt node;; mret l
         | None => mret (set_tail l node)
         end);
  mret (set_len l (u32 (len l + 1))).

Definition kr_list_delete (l : T_KRList) (node : option ptr) : M store T_KRList :=
  n ← read_node node;
  l ← match prev n with
      | Some _ => set_next (prev n) (next n);; mret l
      | None => mret (set_head l (next n))
      end;
  l ← match next n with
      | Some _ => set_prev (next n) (prev n);; mret l
      | None => mret (set_tail l (prev n))
      end;
  call_free l (value n);;
  free_node node;;
  mret (set_len l (u32 (len l - 1))).

(** [kr_list_dup]; [None] is a failed [dup] method, after which the copy made so
    far is destroyed. *)
Fixpoint kr_list_dup_loop (fuel : nat) (copy : T_KRList) (node : option ptr)
    : M store (option T_KRList) :=
  match fuel with
  | O => fail NoFuel
  | S fuel' =>
      match node with
      | None => mret (Some copy)
      | Some _ =>
          n ← read_node node;
          match (match dup copy with Some d => d (value n) | None => Some (value n) end) with
          | None => kr_list_destroy copy;; mret None
          | Some v =>
              copy ← kr_list_add_tail copy v;
              n ← read_node node;
              kr_list_dup_loop fuel' copy (next n)
          end
      end
  end.

Definition kr_list_dup (orig : T_KRList) : M store (option T_KRList) :=
  let new := kr_list_new in
  let copy := mkList (head new) (tail new) (dup orig) (has_free orig) (match_ orig)
                     (compare orig) (len new) in
  kr_list_dup_loop (S (Z.to_nat (len orig))) copy (head orig).

(** [kr_list_foreach] with a callback that threads its own state [A]. *)
Fixpoint kr_list_foreach_loop {A} (fuel : nat) (func : V -> A -> A) (node : option ptr) (a : A)
    : M store A :=
  match fuel with
  | O => fail NoFuel
  | S fuel' =>
      match node with
      | None => mret a
      | Some _ => n ← read_node node; kr_list_foreach_loop fuel' func (next n) (func (value n) a)
      end
  end.

Definition kr_list_foreach {A} (l : T_KRList) (func : V -> A -> A) (a : A) : M store A :=
  kr_list_foreach_loop (S (Z.to_nat (len l))) func (head l) a.

(** The test of a node against a key: the [match] method, or pointer equality. *)
Definition node_match (l : T_KRList) (v key : V) : bool :=
  match match_ l with
  | Some m => m v key
  | None => bool_decide (key = v)
  end.

Fixpoint kr_list_search_loop (fuel : nat) (l : T_KRList) (key : V) (node : option ptr)
    : M store (option ptr) :=
  match fuel with
  | O => fail NoFuel
  | S fuel' =>
      match node with
      | None => mret None
      | Some _ =>
          n ← read_node node;
          if node_match l (value n) key then mret node
          else kr_list_search_loop fuel' l key (next n)
      end
  end.

Definition kr_list_search (l : T_KRList) (key : V) : M store (option ptr) :=
  kr_list_search_loop (S (Z.to_nat (len l))) l key (head l).

(** [while (index-- && n)]: the index is tested before the node. *)
Fixpoint locate_loop (step : T_KRListNode -> option ptr) (index : nat) (n : option ptr)
    : M store (option ptr) :=
  match index with
  | O => mret n
  | S index' =>
      match n with
      | None => mret None
      | Some _ => c ← read_node n; locate_loop step index' (step c)
      end
  end.

Definition kr_list_locate (l : T_KRList) (index : Z) : M store (option ptr) :=
  if index <? 0 then locate_loop prev (Z.to_nat (- index - 1)) (tail l)
  else locate_loop next (Z.to_nat index) (head l).

Fixpoint kr_list_remove_loop (fuel : nat) (l : T_KRList) (key : V) (node : option ptr)
    : M store T_KRList :=
  match fuel with
  | O => fail NoFuel
  | S fuel' =>
      match node with
      | None => mret l
      | Some _ =>
          n ← read_node node;
          if node_match l (value n) key then kr_list_delete l node
          else kr_list_remove_loop fuel' l key (next n)
      end
  end.

Definition kr_list_remove (l : T_KRList) (key : V) : M store T_KRList :=
  kr_list_remove_loop (S (Z.to_nat (len l))) l key (head l).

(** [kr_list_remove_all] reads [node->next] after the node may have been freed. *)
Fixpoint kr_list_remove_all_loop (fuel : nat) (l : T_KRList) (key : V) (node : option ptr)
    : M store T_KRList :=
  match fuel with
  | O => fail NoFuel
  | S fuel' =>
      match node with
      | None => mret l
      | Some _ =>
          n ← read_node node;
          l ← (if node_match l (value n) key then kr_list_delete l node else mret l);
          n ← read_node node;
          kr_list_remove_all_loop fuel' l key (next n)
      end
  end.

Definition kr_list_remove_all (l : T_KRList) (key : V) : M store T_KRList :=
  kr_list_remove_all_loop (S (Z.to_nat (len l))) l key (head l).

Definition kr_list_move_head (l : T_KRList) (node : option ptr) : M store T_KRList :=
  n ← read_node node;
  match prev n with
  | None => mret l
  | Some _ =>
      set_next (prev n) (next n);;
      n ← read_node node;
      l ← match next n with
          | Some _ => set_prev (next n) (prev n);; mret l
          | None => mret (set_tail l (prev n))
          end;
      set_prev node None;;
      set_next node (head l);;
      set_prev (head l) node;;
      mret (set_head l node)
  end.

End KrList.

(** * Representation

    [dseg m pv ps nx]: in the node map [m], the pairs (pointer, value) of [ps] are a
    doubly linked segment whose first node has the [prev] link [pv] and whose last
    one has the [next] link [nx]. *)

Section Rep.
Context {V : Type} `{EqDecision V} {U : Type}.
Implicit Types (m : gmap ptr (T_KRListNode (V:=V))) (ps a b : list (ptr * V)).
Implicit Types (s : store (V:=V)) (l : T_KRList (V:=V) (U:=U)).

Definition first ps (nx : option ptr) : option ptr :=
  match ps with [] => nx | (p, _) :: _ => Some p end.

Fixpoint lastp ps (pv : option ptr) : option ptr :=
  match ps with [] => pv | (p, _) :: r => lastp r (Some p) end.

Fixpoint dseg m (pv : option ptr) ps (nx : option ptr) : Prop :=
  match ps with
  | [] => True
  | (p, v) :: r => m !! p = Some (mkNode pv (first r nx) v) /\ dseg m (Some p) r nx
  end.

(** A list header and the store represent the sequence [ps]. *)
Record list_rep s l ps : Prop := {
  rep_seg : dseg (nodes s) None ps None;
  rep_nodup : NoDup ps.*1;
  rep_head : head l = first ps None;
  rep_tail : tail l = lastp ps None;
  rep_len : len l = Z.of_nat (length ps);
  rep_bound : Z.of_nat (length ps) <= UINT_MAX
}.

Lemma first_app a b nx : first (a ++ b) nx = first a (first b nx).
Proof. by destruct a as [|[??]?]. Qed.

Lemma lastp_app a b pv : lastp (a ++ b) pv = lastp b (lastp a pv).
Proof. revert pv. induction a as [|[??] ? IH]; intros; simpl; [done|apply IH]. Qed.

Lemma lastp_cons_not_None p v ps : exists q, lastp ((p, v) :: ps) None = Some q /\ q ∈ p :: ps.*1.
Proof.
  simpl. revert p v. induction ps as [|[q w] ps IH]; intros p v; simpl.
  - exists p. set_solver.
  - destruct (IH q w) as (r & -> & ?). exists r. set_solver.
Qed.

Lemma lastp_default a pv x : a <> [] -> lastp a pv = lastp a x.
Proof. by destruct a as [|[??]?]. Qed.

Lemma first_default a nx x : a <> [] -> first a nx = first a x.
Proof. by destruct a as [|[??]?]. Qed.

Lemma dseg_app m pv a b nx :
  dseg m pv (a ++ b) nx <-> dseg m pv a (first b nx) /\ dseg m (lastp a pv) b nx.
Proof.
  revert pv. induction a as [|[p v] a IH]; intros pv; simpl; [naive_solver|].
  rewrite IH, first_app. naive_solver.
Qed.

Lemma dseg_ext m m' pv ps nx :
  (forall q, q ∈ ps.*1 -> m' !! q = m !! q) -> dseg m pv ps nx -> dseg m' pv ps nx.
Proof.
  revert pv. induction ps as [|[p v] ps IH]; intros pv Hq; simpl; [done|].
  intros [Hp Hs]. split; [|apply IH; set_solver]. rewrite <- Hp. apply Hq. set_solver.
Qed.

Lemma dseg_frame m p n pv ps nx :
  p ∉ ps.*1 -> dseg m pv ps nx -> dseg (<[p := n]> m) pv ps nx.
Proof. intros Hp. apply dseg_ext. intros q Hq. apply lookup_insert_ne. set_solver. Qed.

Lemma dseg_dom m pv ps nx q : dseg m pv ps nx -> q ∈ ps.*1 -> q ∈ dom m.
Proof.
  revert pv. induction ps as [|[p v] ps IH]; intros pv; simpl; [set_solver|].
  intros [Hp Hs] [->|Hq]%elem_of_cons; [by eapply elem_of_dom_2|by eapply IH].
Qed.

(** The node in the middle of a segment. *)
Lemma dseg_lookup m pv a p v b nx :
  dseg m pv (a ++ (p, v) :: b) nx -> m !! p = Some (mkNode (lastp a pv) (first b nx) v).
Proof. by intros [_ [? _]]%dseg_app. Qed.

(** * Steps on links *)

Lemma wp_read_node s p n (Q : _ -> _ -> Prop) :
  nodes s !! p = Some n -> Q n s -> wp (read_node (Some p)) s Q.
Proof. unfold wp, read_node. by intros ->. Qed.

Lemma wp_write_node s p n f (Q : _ -> _ -> Prop) :
  nodes s !! p = Some n -> Q tt (mkStore (<[p := f n]> (nodes s)) (freed s)) ->
  wp (write_node (Some p) f) s Q.
Proof. unfold wp, write_node. by intros ->. Qed.

(** The [next] link of the last node of a segment. *)
Lemma wp_set_next_last s pv a nx x (Q : _ -> _ -> Prop) :
  a <> [] -> dseg (nodes s) pv a nx -> NoDup a.*1 ->
  (forall m', dseg m' pv a x -> (forall q, q ∉ a.*1 -> m' !! q = nodes s !! q) ->
    Q tt (mkStore m' (freed s))) ->
  wp (set_next (lastp a pv) x) s Q.
Proof.
  intros Hne Hs Hnd HQ. destruct (exists_last Hne) as (a' & [p v] & ->).
  rewrite lastp_app. simpl.
  pose proof (dseg_lookup _ _ _ _ _ _ _ Hs) as Hp.
  rewrite fmap_app in Hnd. apply NoDup_app in Hnd as (Hnd & Hd & _). simpl in Hd.
  eapply wp_write_node; [done|]. apply HQ.
  - apply dseg_app in Hs as [Hs _]. apply dseg_app. split.
    + apply dseg_frame; [|done]. set_solver.
    + simpl. by rewrite lookup_insert_eq.
  - intros q Hq. rewrite fmap_app in Hq. apply lookup_insert_ne. set_solver.
Qed.

(** The [prev] link of the first node of a segment. *)
Lemma wp_set_prev_first s pv b nx x (Q : _ -> _ -> Prop) :
  b <> [] -> dseg (nodes s) pv b nx -> NoDup b.*1 ->
  (forall m', dseg m' x b nx -> (forall q, q ∉ b.*1 -> m' !! q = nodes s !! q) ->
    Q tt (mkStore m' (freed s))) ->
  wp (set_prev (first b nx) x) s Q.
Proof.
  intros Hne Hs Hnd HQ. destruct b as [|[p v] b]; [done|]. simpl in *.
  destruct Hs as [Hp Hs]. apply NoDup_cons in Hnd as [Hnp Hnd].
  eapply wp_write_node; [done|]. apply HQ.
  - split; [by rewrite lookup_insert_eq|]. by apply dseg_frame.
  - intros q Hq. apply lookup_insert_ne. set_solver.
Qed.

Lemma set_head_head l : set_head l (head l) = l.
Proof. by destruct l. Qed.
Lemma set_tail_tail l : set_tail l (tail l) = l.
Proof. by destruct l. Qed.

(** "If there is a node before, its [next] link, else the head of the list". *)
Lemma wp_link_before s l a nx x (Q : _ -> _ -> Prop) :
  dseg (nodes s) None a nx -> NoDup a.*1 -> (a <> [] -> head l = first a None) ->
  (forall m', dseg m' None a x -> (forall q, q ∉ a.*1 -> m' !! q = nodes s !! q) ->
    Q (set_head l (first a x)) (mkStore m' (freed s))) ->
  wp (match lastp a None with
      | Some _ => set_next (lastp a None) x;; mret l
      | None => mret (set_head l x)
      end) s Q.
Proof.
  intros Hs Hnd Hh HQ. destruct a as [|[p v] a].
  - simpl. apply wp_ret. destruct s. by apply HQ.
  - destruct (lastp_cons_not_None p v a) as (q & Hq & _). rewrite Hq, <- Hq.
    apply wp_bind. eapply wp_set_next_last; [done..|]. intros m' Hm Hm'.
    apply wp_ret. specialize (HQ m' Hm Hm'). simpl in HQ.
    specialize (Hh ltac:(done)). simpl in Hh. by rewrite <- Hh, set_head_head in HQ.
Qed.

Lemma wp_link_after s l pv b x (Q : _ -> _ -> Prop) :
  dseg (nodes s) pv b None -> NoDup b.*1 -> (b <> [] -> tail l = lastp b None) ->
  (forall m', dseg m' x b None -> (forall q, q ∉ b.*1 -> m' !! q = nodes s !! q) ->
    Q (set_tail l (lastp b x)) (mkStore m' (freed s))) ->
  wp (match first b None with
      | Some _ => set_prev (first b None) x;; mret l
      | None => mret (set_tail l x)
      end) s Q.
Proof.
  intros Hs Hnd Hh HQ. destruct b as [|[p v] b].
  - simpl. apply wp_ret. destruct s. by apply HQ.
  - assert (Hf : first ((p, v) :: b) None = Some p) by done. rewrite Hf, <- Hf.
    apply wp_bind. eapply wp_set_prev_first; [done..|]. intros m' Hm Hm'.
    apply wp_ret. specialize (HQ m' Hm Hm').
    rewrite (lastp_default _ x None), <- Hh, set_tail_tail in HQ by done. done.
Qed.


(** * Each operation on the represented sequence *)

Definition same_methods l l' : Prop :=
  dup l' = dup l /\ has_free l' = has_free l /\ match_ l' = match_ l /\ compare l' = compare l.

Lemma same_methods_trans l1 l2 l3 :
  same_methods l1 l2 -> same_methods l2 l3 -> same_methods l1 l3.
Proof. unfold same_methods. intuition congruence. Qed.

(** [updated s l ps s' l' ps']: the operation took the represented sequence from
    [ps] to [ps'], kept the methods, and left the nodes of others alone. *)
Record updated s l ps s' l' ps' : Prop := {
  upd_rep : list_rep s' l' ps';
  upd_methods : same_methods l l';
  upd_frame : forall q, q ∉ ps.*1 -> q ∉ ps'.*1 -> nodes s' !! q = nodes s !! q
}.

Lemma list_rep_nodes s s' l ps : nodes s' = nodes s -> list_rep s l ps -> list_rep s' l ps.
Proof. intros Hn [? ? ? ? ? ?]. split; try done. by rewrite Hn. Qed.

Lemma list_rep_nil s : list_rep s kr_list_new [].
Proof. split; simpl; try done; try constructor. Qed.

Lemma list_rep_len_0 s l ps : list_rep s l ps -> (len l =? 0) = bool_decide (ps = []).
Proof.
  intros H. rewrite (rep_len _ _ _ H). case_bool_decide as Hps; [by subst|].
  apply Z.eqb_neq. destruct ps; simpl; [done|lia].
Qed.

Lemma list_rep_fuel s l ps : list_rep s l ps -> Z.to_nat (len l) = length ps.
Proof. intros H. rewrite (rep_len _ _ _ H). lia. Qed.

Lemma wp_alloc_node s v (Q : _ -> _ -> Prop) :
  (forall p, p ∉ dom (nodes s) ->
    Q (Some p) (mkStore (<[p := mkNode None None v]> (nodes s)) (freed s))) ->
  wp (alloc_node v) s Q.
Proof. intros HQ. apply HQ, is_fresh. Qed.

Lemma dseg_not_dom m pv ps nx p : dseg m pv ps nx -> p ∉ dom m -> p ∉ ps.*1.
Proof. intros Hs Hp Hin. apply Hp. by eapply dseg_dom. Qed.

(** A node [p] linked between [a] and [b], once its own links, the [next] link
    before it and the [prev] link after it are set, gives the longer list. *)
Lemma insert_list_rep s s' l l' a b p v :
  list_rep s l (a ++ b) -> p ∉ dom (nodes s) -> len l < UINT_MAX ->
  dseg (nodes s') None a (Some p) -> dseg (nodes s') (Some p) b None ->
  nodes s' !! p = Some (mkNode (lastp a None) (first b None) v) ->
  head l' = first a (Some p) -> tail l' = lastp b (Some p) -> len l' = u32 (len l + 1) ->
  same_methods l l' ->
  (forall q, q <> p -> q ∉ (a ++ b).*1 -> nodes s' !! q = nodes s !! q) ->
  updated s l (a ++ b) s' l' (a ++ (p, v) :: b).
Proof.
  intros [Hseg Hnd Hh Ht Hl Hb] Hp Hlt Ha Hbs Hn Hh' Ht' Hl' Hm Hf.
  pose proof (dseg_not_dom _ _ _ _ _ Hseg Hp) as Hpn.
  split; [split| |]; try done.
  - apply dseg_app. simpl. split; [done|]. split; done.
  - rewrite fmap_app in *. simpl. apply NoDup_app in Hnd as (? & ? & ?).
    apply NoDup_app. split_and!; [done|set_solver|]. constructor; [set_solver|done].
  - rewrite Hh', first_app. by destruct a as [|[??]?].
  - rewrite Ht', lastp_app. done.
  - rewrite Hl', u32_small by lia. rewrite Hl, !length_app. simpl. lia.
  - revert Hb. rewrite !length_app in *. simpl. rewrite Hl in Hlt. lia.
  - intros q Hqn Hqn'. apply Hf; [|done]. rewrite fmap_app in Hqn'. csimpl in *. set_solver.
Qed.

(** The case of an empty list, common to the three insertions. *)
Lemma wp_insert_empty s l v p (Q : _ -> _ -> Prop) :
  list_rep s l [] -> p ∉ dom (nodes s) ->
  (forall s' l', updated s l [] s' l' [(p, v)] -> freed s' = freed s -> Q l' s') ->
  wp (l ← (set_prev (Some p) None;; set_next (Some p) None;;
           mret (set_tail (set_head l (Some p)) (Some p)));
      mret (set_len l (u32 (len l + 1))))
     (mkStore (<[p := mkNode None None v]> (nodes s)) (freed s)) Q.
Proof.
  intros Hr Hp HQ. apply wp_bind, wp_bind.
  eapply wp_write_node; [apply lookup_insert_eq|]. simpl. apply wp_bind.
  eapply wp_write_node; [apply lookup_insert_eq|]. simpl. apply wp_ret, wp_ret, HQ; [|done].
  rewrite !insert_insert_eq.
  eapply (insert_list_rep _ _ _ _ [] []); simpl; try done.
  - rewrite (rep_len _ _ _ Hr). simpl. unfold UINT_MAX. lia.
  - by rewrite lookup_insert_eq.
  - intros q Hq _. by apply lookup_insert_ne.
Qed.

Lemma wp_add_head s l ps v :
  list_rep s l ps -> len l < UINT_MAX ->
  wp (kr_list_add_head l v) s (fun l' s' => exists p, p ∉ dom (nodes s) /\
    updated s l ps s' l' ((p, v) :: ps) /\ freed s' = freed s).
Proof.
  intros Hr Hlt. unfold kr_list_add_head. apply wp_bind, wp_alloc_node. intros p Hp.
  rewrite (list_rep_len_0 _ _ _ Hr). case_bool_decide as Hps.
  { subst. apply wp_insert_empty; [done..|]. eauto. }
  pose proof (dseg_not_dom _ _ _ _ _ (rep_seg _ _ _ Hr) Hp) as Hpn.
  apply wp_bind, wp_bind. eapply wp_write_node; [apply lookup_insert_eq|]. apply wp_bind.
  eapply wp_write_node; [apply lookup_insert_eq|]. simpl. rewrite !insert_insert_eq.
  rewrite (rep_head _ _ _ Hr). apply wp_bind. eapply (wp_set_prev_first _ None); [done| | |].
  { simpl. apply dseg_frame; [done|]. apply Hr. }
  { apply Hr. }
  intros m' Hm Hf. simpl in *. apply wp_ret, wp_ret. exists p. split; [done|]. split; [|done].
  apply (insert_list_rep _ _ _ _ [] ps); simpl; try done.
  - rewrite Hf by done. by rewrite lookup_insert_eq.
  - rewrite (rep_tail _ _ _ Hr). by apply lastp_default.
  - intros q Hqp Hq. rewrite Hf by done. by apply lookup_insert_ne.
Qed.

Lemma wp_add_tail s l ps v :
  list_rep s l ps -> len l < UINT_MAX ->
  wp (kr_list_add_tail l v) s (fun l' s' => exists p, p ∉ dom (nodes s) /\
    updated s l ps s' l' (ps ++ [(p, v)]) /\ freed s' = freed s).
Proof.
  intros Hr Hlt. unfold kr_list_add_tail. apply wp_bind, wp_alloc_node. intros p Hp.
  rewrite (list_rep_len_0 _ _ _ Hr). case_bool_decide as Hps.
  { subst. apply wp_insert_empty; [done..|]. eauto. }
  pose proof (dseg_not_dom _ _ _ _ _ (rep_seg _ _ _ Hr) Hp) as Hpn.
  apply wp_bind, wp_bind. eapply wp_write_node; [apply lookup_insert_eq|]. apply wp_bind.
  eapply wp_write_node; [apply lookup_insert_eq|]. simpl. rewrite !insert_insert_eq.
  rewrite (rep_tail _ _ _ Hr). apply wp_bind. eapply (wp_set_next_last _ None _ None); [done| | |].
  { simpl. apply dseg_frame; [done|]. apply Hr. }
  { apply Hr. }
  intros m' Hm Hf. simpl in *. apply wp_ret, wp_ret. exists p. split; [done|]. split; [|done].
  pose proof (insert_list_rep s (mkStore m' (freed s)) l
    (set_len (set_tail l (Some p)) (u32 (len l + 1))) ps [] p v) as Hi.
  rewrite app_nil_r in Hi. apply Hi; simpl; try done.
  - rewrite Hf by done. by rewrite lookup_insert_eq.
  - rewrite (rep_head _ _ _ Hr). by apply first_default.
  - intros q Hqp Hq. rewrite Hf by done. by apply lookup_insert_ne.
Qed.

(** The place [add_sorted] finds: the values after it are greater than the new one,
    the value before it is not. *)
Definition before (c : option (V -> V -> U -> Z)) (u : U) (v w : V) : bool :=
  match c with Some cmp => 0 <=? cmp v w u | None => false end.

Fixpoint split_sorted (f : V -> bool) (r : list (ptr * V)) b : list (ptr * V) * list (ptr * V) :=
  match r with
  | [] => ([], b)
  | (p, w) :: r' => if f w then (reverse r, b) else split_sorted f r' ((p, w) :: b)
  end.

Lemma split_sorted_app f r b a b' :
  split_sorted f r b = (a, b') -> reverse r ++ b = a ++ b'.
Proof.
  revert b. induction r as [|[p w] r IH]; intros b; simpl; [by intros [= <- <-]|].
  destruct (f w); [by intros [= <- <-]|]. intros <-%IH.
  rewrite reverse_cons, <- app_assoc. done.
Qed.

Lemma wp_add_sorted_loop s l v u r b fuel (Q : _ -> _ -> Prop) :
  dseg (nodes s) None (reverse r ++ b) None -> (length r < fuel)%nat ->
  (let '(a, b') := split_sorted (before (compare l) u v) r b in
   Q (lastp a None, first b' None) s) ->
  wp (add_sorted_loop fuel l v u (lastp (reverse r) None) (first b None)) s Q.
Proof.
  revert b fuel. induction r as [|[p w] r IH]; intros b [|fuel] Hs Hf HQ; simpl in *; try lia.
  - done.
  - rewrite reverse_cons, lastp_app in *. simpl. rewrite <- app_assoc in Hs.
    apply wp_bind. eapply wp_read_node; [by eapply dseg_lookup|]. simpl.
    assert (Hrec : before (compare l) u v w = false ->
      wp (add_sorted_loop fuel l v u (lastp (reverse r) None) (Some p)) s Q).
    { intros Hb. rewrite Hb in HQ. apply (IH ((p, w) :: b)); [done|lia|done]. }
    unfold before in *. destruct (compare l) as [cmp|]; [|by apply Hrec].
    destruct (0 <=? cmp v w u); [|by apply Hrec].
    apply wp_ret. rewrite ?reverse_cons, ?lastp_app in HQ. done.
Qed.

Lemma wp_add_sorted s l ps v u :
  list_rep s l ps -> len l < UINT_MAX ->
  wp (kr_list_add_sorted l v u) s (fun l' s' => exists p, p ∉ dom (nodes s) /\
    (let '(a, b) := split_sorted (before (compare l) u v) (reverse ps) [] in
     updated s l ps s' l' (a ++ (p, v) :: b)) /\ freed s' = freed s).
Proof.
  intros Hr Hlt. unfold kr_list_add_sorted. apply wp_bind, wp_alloc_node. intros p Hp.
  rewrite (list_rep_len_0 _ _ _ Hr). case_bool_decide as Hps.
  { subst. apply wp_insert_empty; [done..|]. eauto. }
  pose proof (dseg_not_dom _ _ _ _ _ (rep_seg _ _ _ Hr) Hp) as Hpn.
  assert (exists q n, tail l = Some q /\ q <> p /\ nodes s !! q = Some n /\ next n = None)
    as (q & n & Hq & Hqp & Hn & Hnx).
  { destruct (exists_last Hps) as (ps' & [q w] & ->). exists q. eexists. split_and!.
    - by rewrite (rep_tail _ _ _ Hr), lastp_app.
    - intros ->. apply Hpn. rewrite fmap_app. set_solver.
    - eapply dseg_lookup, Hr.
    - done. }
  apply wp_bind, wp_bind. rewrite Hq at 1. eapply wp_read_node.
  { simpl. by rewrite lookup_insert_ne. }
  rewrite Hnx. destruct (split_sorted _ _ _) as [a b] eqn:Hab.
  pose proof (split_sorted_app _ _ _ _ _ Hab) as Happ.
  rewrite reverse_involutive, app_nil_r in Happ.
  apply wp_bind. rewrite (rep_tail _ _ _ Hr). rewrite <- (reverse_involutive ps) at 1.
  apply (wp_add_sorted_loop _ _ _ _ _ []).
  { rewrite reverse_involutive, app_nil_r. simpl. apply dseg_frame; [done|]. apply Hr. }
  { rewrite length_reverse, <- (list_rep_fuel _ _ _ Hr). lia. }
  rewrite Hab. subst ps. clear Hab Hps q n Hq Hqp Hn Hnx.
  apply wp_bind. eapply wp_write_node; [apply lookup_insert_eq|]. apply wp_bind.
  eapply wp_write_node; [apply lookup_insert_eq|]. simpl. rewrite !insert_insert_eq.
  pose proof (rep_seg _ _ _ Hr) as Hs. apply dseg_app in Hs as [Ha Hb].
  pose proof (rep_nodup _ _ _ Hr) as Hnd.
  rewrite fmap_app in Hpn, Hnd. apply NoDup_app in Hnd as (Hna & Hd & Hnb).
  apply wp_bind. eapply (wp_link_before _ _ _ (first b None)); [simpl|done| |].
  { apply dseg_frame; [set_solver|done]. }
  { intros Ha0. rewrite (rep_head _ _ _ Hr), first_app. by apply first_default. }
  intros m1 Hm1 Hf1. simpl in *. eapply (wp_link_after _ _ (lastp a None)); [simpl|done| |].
  { eapply dseg_ext; [|exact Hb]. intros q Hq. rewrite Hf1 by set_solver.
    apply lookup_insert_ne. set_solver. }
  { intros Hb0. simpl. rewrite (rep_tail _ _ _ Hr), lastp_app. by apply lastp_default. }
  intros m2 Hm2 Hf2. simpl in *. apply wp_ret. exists p. split; [done|]. split; [|done].
  apply insert_list_rep; simpl; try done.
  - eapply dseg_ext; [|exact Hm1]. intros q Hq. apply Hf2. set_solver.
  - rewrite Hf2, Hf1 by set_solver. by rewrite lookup_insert_eq.
  - intros q Hqp Hq. rewrite fmap_app in Hq. rewrite Hf2, Hf1 by set_solver.
    by apply lookup_insert_ne.
Qed.

(** * Removal *)

Lemma wp_delete s l a p v b :
  list_rep s l (a ++ (p, v) :: b) ->
  wp (kr_list_delete l (Some p)) s (fun l' s' =>
    updated s l (a ++ (p, v) :: b) s' l' (a ++ b) /\ nodes s' !! p = None /\
    freed s' = freed s ++ (if has_free l then [v] else [])).
Proof.
  intros Hr. pose proof (rep_seg _ _ _ Hr) as Hs. pose proof (dseg_lookup _ _ _ _ _ _ _ Hs) as Hn.
  apply dseg_app in Hs as [Ha [_ Hb]].
  pose proof (rep_nodup _ _ _ Hr) as Hnd. rewrite fmap_app in Hnd. csimpl in Hnd.
  apply NoDup_app in Hnd as (Hna & Hd & [Hpb Hnb]%NoDup_cons).
  unfold kr_list_delete. apply wp_bind. eapply wp_read_node; [done|]. simpl.
  apply wp_bind. eapply wp_link_before; [done|done| |].
  { intros Ha0. rewrite (rep_head _ _ _ Hr), first_app. by apply first_default. }
  intros m1 Hm1 Hf1. apply wp_bind. eapply (wp_link_after _ _ (Some p)); [simpl|done| |].
  { eapply dseg_ext; [|exact Hb]. intros q Hq. rewrite Hf1; set_solver. }
  { intros Hb0. simpl. rewrite (rep_tail _ _ _ Hr), lastp_app. simpl. by apply lastp_default. }
  intros m2 Hm2 Hf2. simpl in *. apply wp_bind. unfold call_free, wp at 1. simpl.
  set (fr := if has_free l then [v] else []).
  assert (Heq : (if has_free l then mkStore m2 (freed s ++ [v]) else mkStore m2 (freed s))
                = mkStore m2 (freed s ++ fr)).
  { subst fr. destruct (has_free l); [done|]. by rewrite app_nil_r. }
  rewrite Heq. apply wp_bind. unfold wp at 1, free_node. simpl.
  assert (Hp : m2 !! p = Some (mkNode (lastp a None) (first b None) v)).
  { rewrite Hf2, Hf1 by set_solver. done. }
  rewrite Hp. apply wp_ret. split; [|split; [apply lookup_delete_eq|done]].
  split; [split| |]; simpl; try done.
  - apply dseg_app. split.
    + eapply dseg_ext; [|exact Hm1]. intros q Hq. rewrite lookup_delete_ne, Hf2; set_solver.
    + eapply dseg_ext; [|exact Hm2]. intros q Hq. rewrite lookup_delete_ne; set_solver.
  - rewrite fmap_app. apply NoDup_app. split_and!; [done|set_solver|done].
  - by rewrite first_app.
  - by rewrite lastp_app.
  - pose proof (rep_bound _ _ _ Hr) as Hbd. rewrite (rep_len _ _ _ Hr), !length_app in *.
    simpl in *. rewrite u32_small; lia.
  - pose proof (rep_bound _ _ _ Hr) as Hbd. rewrite !length_app in *. simpl in *. lia.
  - intros q Hq _. rewrite fmap_app in Hq. csimpl in *.
    rewrite lookup_delete_ne, Hf2, Hf1; set_solver.
Qed.

(** * Reading operations *)

(** The node that holds the first match, if any. *)
Definition first_match l (key : V) ps : option (ptr * V) :=
  List.find (fun pv => node_match l pv.2 key) ps.

Lemma wp_search_loop s l key pv ps fuel (Q : _ -> _ -> Prop) :
  dseg (nodes s) pv ps None -> (length ps < fuel)%nat ->
  Q (fst <$> first_match l key ps) s ->
  wp (kr_list_search_loop fuel l key (first ps None)) s Q.
Proof.
  revert pv fuel. induction ps as [|[p v] ps IH]; intros pv [|fuel] Hs Hf HQ; simpl in *; try lia.
  - exact HQ.
  - destruct Hs as [Hp Hs]. apply wp_bind. eapply wp_read_node; [done|].
    unfold first_match in *. simpl in *. destruct (node_match l v key); [exact HQ|].
    eapply IH; [done|lia|done].
Qed.

Lemma wp_search s l ps key (Q : _ -> _ -> Prop) :
  list_rep s l ps -> Q (fst <$> first_match l key ps) s -> wp (kr_list_search l key) s Q.
Proof.
  intros Hr HQ. unfold kr_list_search. rewrite (rep_head _ _ _ Hr).
  eapply wp_search_loop; [apply Hr| |done]. rewrite (list_rep_fuel _ _ _ Hr). lia.
Qed.

Lemma wp_locate_next s pv ps i (Q : _ -> _ -> Prop) :
  dseg (nodes s) pv ps None -> Q (fst <$> ps !! i) s ->
  wp (locate_loop next i (first ps None)) s Q.
Proof.
  revert pv ps. induction i as [|i IH]; intros pv [|[p v] ps] Hs HQ; simpl in *; try done.
  destruct Hs as [Hp Hs]. apply wp_bind. eapply wp_read_node; [done|]. by eapply IH.
Qed.

Lemma wp_locate_prev s r b i (Q : _ -> _ -> Prop) :
  dseg (nodes s) None (reverse r ++ b) None -> Q (fst <$> r !! i) s ->
  wp (locate_loop prev i (lastp (reverse r) None)) s Q.
Proof.
  revert r b. induction i as [|i IH]; intros [|[p v] r] b Hs HQ; simpl in *; try done.
  - rewrite reverse_cons, lastp_app. done.
  - rewrite reverse_cons, lastp_app. simpl. apply wp_bind.
    rewrite reverse_cons, <- app_assoc in Hs. eapply wp_read_node; [by eapply dseg_lookup|].
    by eapply IH.
Qed.

(** The position an index of the C function denotes: from the head when it is not
    negative, from the end when it is. *)
Definition position (n : nat) (index : Z) : option nat :=
  let j := if index <? 0 then Z.of_nat n + index else index in
  if (0 <=? j) && (j <? Z.of_nat n) then Some (Z.to_nat j) else None.

Lemma wp_locate s l ps index (Q : _ -> _ -> Prop) :
  list_rep s l ps -> Q (i ← position (length ps) index; fst <$> ps !! i) s ->
  wp (kr_list_locate l index) s Q.
Proof.
  intros Hr HQ. unfold kr_list_locate, position in *.
  destruct (index <? 0) eqn:Hi; zbool.
  - rewrite (rep_tail _ _ _ Hr), <- (reverse_involutive ps).
    apply (wp_locate_prev _ _ []).
    { rewrite reverse_involutive, app_nil_r. apply Hr. }
    revert HQ. destruct (_ && _) eqn:Hb; simpl.
    + apply andb_true_iff in Hb as [??]; zbool. rewrite reverse_lookup by lia.
      replace (length ps - S (Z.to_nat (- index - 1)))%nat
        with (Z.to_nat (Z.of_nat (length ps) + index)) by lia. done.
    + rewrite lookup_ge_None_2; [done|]. rewrite length_reverse.
      apply andb_false_iff in Hb as [?|?]; zlia.
  - rewrite (rep_head _ _ _ Hr). eapply wp_locate_next; [apply Hr|].
    revert HQ. destruct (_ && _) eqn:Hb; simpl; [done|].
    rewrite lookup_ge_None_2; [done|]. apply andb_false_iff in Hb as [?|?]; zlia.
Qed.

Lemma wp_foreach_loop {A} s (f : V -> A -> A) pv ps fuel (x : A) (Q : A -> _ -> Prop) :
  dseg (nodes s) pv ps None -> (length ps < fuel)%nat ->
  Q (foldl (fun x v => f v x) x ps.*2) s ->
  wp (kr_list_foreach_loop fuel f (first ps None) x) s Q.
Proof.
  revert pv fuel x. induction ps as [|[p v] ps IH]; intros pv [|fuel] x Hs Hf HQ;
    simpl in *; try lia.
  - exact HQ.
  - destruct Hs as [Hp Hs]. apply wp_bind. eapply wp_read_node; [done|].
    eapply IH; [done|lia|done].
Qed.

Lemma wp_foreach {A} s l ps (f : V -> A -> A) (x : A) (Q : A -> _ -> Prop) :
  list_rep s l ps -> Q (foldl (fun x v => f v x) x ps.*2) s ->
  wp (kr_list_foreach l f x) s Q.
Proof.
  intros Hr HQ. unfold kr_list_foreach. rewrite (rep_head _ _ _ Hr).
  eapply wp_foreach_loop; [apply Hr| |done]. rewrite (list_rep_fuel _ _ _ Hr). lia.
Qed.

(** * Removal by key *)

Lemma first_match_split l key ps p v :
  first_match l key ps = Some (p, v) ->
  exists a b, (ps = a ++ (p, v) :: b) /\ Forall (fun w => node_match l w.2 key = false) a /\
    node_match l v key = true.
Proof.
  unfold first_match. induction ps as [|[q w] ps IH]; simpl; [done|].
  destruct (node_match l w key) eqn:Hm.
  - intros [= -> ->]. exists [], ps. done.
  - intros (a & b & -> & Ha & Hv)%IH. exists ((q, w) :: a), b. split; [done|]. split; [|done].
    by constructor.
Qed.

Lemma wp_remove_loop s l key a ps fuel (Q : _ -> _ -> Prop) :
  list_rep s l (a ++ ps) -> (length ps < fuel)%nat ->
  match first_match l key ps with
  | Some (p, v) => wp (kr_list_delete l (Some p)) s Q
  | None => Q l s
  end ->
  wp (kr_list_remove_loop fuel l key (first ps None)) s Q.
Proof.
  revert a fuel. induction ps as [|[p v] ps IH]; intros a [|fuel] Hr Hf HQ; simpl in *; try lia.
  - exact HQ.
  - pose proof (dseg_lookup _ _ _ _ _ _ _ (rep_seg _ _ _ Hr)) as Hp.
    apply wp_bind. eapply wp_read_node; [done|]. simpl.
    unfold first_match in *. simpl in HQ. destruct (node_match l v key); [done|].
    apply (IH (a ++ [(p, v)])); [by rewrite <- app_assoc|lia|done].
Qed.

(** A match-free list is left as it is; else the first node that matches goes. *)
Lemma wp_remove s l ps key (Q : _ -> _ -> Prop) :
  list_rep s l ps ->
  match first_match l key ps with
  | Some (p, v) => wp (kr_list_delete l (Some p)) s Q
  | None => Q l s
  end ->
  wp (kr_list_remove l key) s Q.
Proof.
  intros Hr HQ. unfold kr_list_remove. rewrite (rep_head _ _ _ Hr).
  apply (wp_remove_loop _ _ _ []); [done| |done]. rewrite (list_rep_fuel _ _ _ Hr). lia.
Qed.

Lemma remove_all_loop_fault s l key a ps fuel :
  list_rep s l (a ++ ps) -> (length ps < fuel)%nat ->
  kr_list_remove_all_loop fuel l key (first ps None) s =
  match first_match l key ps with Some _ => Fault BadPointer | None => Ok (l, s) end.
Proof.
  revert a fuel. induction ps as [|[p v] ps IH]; intros a [|fuel] Hr Hf; simpl in *; try lia.
  - done.
  - pose proof (dseg_lookup _ _ _ _ _ _ _ (rep_seg _ _ _ Hr)) as Hp.
    unfold mbind, M_bind, read_node. rewrite Hp. simpl.
    unfold first_match. simpl. destruct (node_match l v key).
    + destruct (wp_elim _ _ _ (wp_delete _ _ _ _ _ _ Hr)) as (l' & s' & -> & _ & Hd & _).
      by rewrite Hd.
    + unfold mret, M_ret. rewrite Hp. simpl.
      apply (IH (a ++ [(p, v)])); [by rewrite <- app_assoc|lia].
Qed.

(** * Moving a node to the head *)

Lemma wp_move_head s l a p v b :
  list_rep s l (a ++ (p, v) :: b) ->
  wp (kr_list_move_head l (Some p)) s (fun l' s' =>
    updated s l (a ++ (p, v) :: b) s' l' ((p, v) :: a ++ b) /\ freed s' = freed s).
Proof.
  intros Hr. pose proof (rep_seg _ _ _ Hr) as Hs. pose proof (dseg_lookup _ _ _ _ _ _ _ Hs) as Hn.
  unfold kr_list_move_head. apply wp_bind. eapply wp_read_node; [done|]. cbn [prev].
  destruct (decide (a = [])) as [->|Ha0].
  { simpl in *. apply wp_ret. split; [|done]. by split. }
  apply dseg_app in Hs as [Ha [_ Hb]].
  pose proof (rep_nodup _ _ _ Hr) as Hnd. rewrite fmap_app in Hnd. csimpl in Hnd.
  apply NoDup_app in Hnd as (Hna & Hd & [Hpb Hnb]%NoDup_cons).
  assert (exists q, lastp a None = Some q) as [q Hq].
  { destruct a as [|[q w] a]; [done|]. destruct (lastp_cons_not_None q w a) as (?&?&_). eauto. }
  rewrite Hq. rewrite <- Hq at 1. cbn [next]. apply wp_bind.
  eapply wp_set_next_last; [done|done|done|]. intros m1 Hm1 Hf1.
  apply wp_bind. eapply wp_read_node; [simpl; rewrite Hf1 by set_solver; done|]. cbn [prev next].
  apply wp_bind. eapply (wp_link_after _ _ (Some p)); [simpl|done| |].
  { eapply dseg_ext; [|exact Hb]. intros r Hr'. rewrite Hf1; set_solver. }
  { intros Hb0. rewrite (rep_tail _ _ _ Hr), lastp_app. simpl. by apply lastp_default. }
  intros m2 Hm2 Hf2. simpl in *.
  assert (Hp : m2 !! p = Some (mkNode (lastp a None) (first b None) v)).
  { rewrite Hf2, Hf1 by set_solver. done. }
  assert (Ha2 : dseg m2 None a (first b None)).
  { eapply dseg_ext; [|exact Hm1]. intros r Hra. rewrite Hf2; set_solver. }
  assert (Hh : head l = first a (first b None)).
  { rewrite (rep_head _ _ _ Hr), first_app. by apply first_default. }
  apply wp_bind. eapply wp_write_node; [done|]. apply wp_bind.
  eapply wp_write_node; [apply lookup_insert_eq|]. simpl. rewrite insert_insert_eq, Hh.
  apply wp_bind. eapply wp_set_prev_first; [done| |done|].
  { simpl. apply dseg_frame; [set_solver|exact Ha2]. }
  intros m3 Hm3 Hf3. simpl in *. apply wp_ret. split; [|done].
  split; [split| |]; simpl; try done.
  - split.
    + rewrite Hf3 by set_solver. rewrite lookup_insert_eq.
      do 2 f_equal. rewrite first_app. done.
    + apply dseg_app. split; [done|]. eapply dseg_ext; [|].
      2:{ rewrite (lastp_default a (Some p) None) by done. exact Hm2. }
      intros r Hrb. rewrite Hf3 by set_solver. rewrite lookup_insert_ne; set_solver.
  - rewrite fmap_app. constructor; [set_solver|]. apply NoDup_app. split_and!; [done|set_solver|done].
  - rewrite lastp_app. by rewrite (lastp_default a (Some p) None) by done.
  - rewrite (rep_len _ _ _ Hr), !length_app. simpl. rewrite ?length_app. lia.
  - pose proof (rep_bound _ _ _ Hr) as Hbd. rewrite !length_app in Hbd. simpl in *.
    rewrite length_app. lia.
  - intros r Hra _. rewrite fmap_app in Hra. csimpl in *.
    rewrite Hf3, lookup_insert_ne, Hf2, Hf1 by set_solver. done.
Qed.

(** * Destruction and duplication *)

Lemma wp_destroy_loop s l pv ps :
  dseg (nodes s) pv ps None -> NoDup ps.*1 ->
  wp (kr_list_destroy_loop l (length ps) (first ps None)) s (fun _ s' =>
    freed s' = freed s ++ (if has_free l then ps.*2 else []) /\
    forall q, nodes s' !! q = if decide (q ∈ ps.*1) then None else nodes s !! q).
Proof.
  revert s pv. induction ps as [|[p v] ps IH]; intros s pv Hs Hnd; simpl.
  - apply wp_ret. split; [|done]. destruct (has_free l); by rewrite app_nil_r.
  - destruct Hs as [Hp Hs]. csimpl in Hnd. apply NoDup_cons in Hnd as [Hpn Hnd].
    apply wp_bind. eapply wp_read_node; [done|]. simpl. apply wp_bind.
    unfold call_free, wp at 1. simpl.
    set (s1 := if has_free l then _ else _).
    assert (Hs1 : nodes s1 = nodes s) by (subst s1; by destruct (has_free l)).
    apply wp_bind. unfold wp at 1, free_node. rewrite Hs1, Hp.
    eapply wp_mono; [apply (IH _ (Some p)); [simpl|done]|].
    { eapply dseg_ext; [|exact Hs]. intros q Hq. apply lookup_delete_ne. set_solver. }
    simpl. intros _ s' [Hf Hd]. split.
    + rewrite Hf. subst s1. destruct (has_free l); simpl; [|done]. by rewrite <- app_assoc.
    + intros q. rewrite Hd. csimpl.
      destruct (decide (q = p)) as [->|Hqp].
      * rewrite lookup_delete_eq. repeat case_decide; set_solver.
      * rewrite lookup_delete_ne by done.
        repeat case_decide; try done; set_solver.
Qed.

Lemma wp_destroy s l ps :
  list_rep s l ps ->
  wp (kr_list_destroy l) s (fun _ s' =>
    freed s' = freed s ++ (if has_free l then ps.*2 else []) /\
    forall q, nodes s' !! q = if decide (q ∈ ps.*1) then None else nodes s !! q).
Proof.
  intros Hr. unfold kr_list_destroy. rewrite (list_rep_fuel _ _ _ Hr), (rep_head _ _ _ Hr).
  by eapply wp_destroy_loop; apply Hr.
Qed.

(** What [kr_list_dup] makes of a value. *)
Definition dup_value l (v : V) : option V :=
  match dup l with Some d => d v | None => Some v end.

Lemma wp_dup_loop s0 s copy c pv r fuel :
  dseg (nodes s0) pv r None -> (length r < fuel)%nat ->
  list_rep s copy c -> (forall q, q ∈ c.*1 -> q ∉ dom (nodes s0)) ->
  (forall q, q ∉ c.*1 -> nodes s !! q = nodes s0 !! q) ->
  len copy + Z.of_nat (length r) <= UINT_MAX ->
  wp (kr_list_dup_loop fuel copy (first r None)) s (fun o s' =>
    match o with
    | Some l' => exists c' vs, list_rep s' l' c' /\ mapM (dup_value copy) r.*2 = Some vs /\
        c'.*2 = c.*2 ++ vs /\ same_methods copy l' /\ freed s' = freed s /\
        (forall q, q ∈ dom (nodes s0) -> nodes s' !! q = nodes s0 !! q)
    | None => mapM (dup_value copy) r.*2 = None /\ forall q, nodes s' !! q = nodes s0 !! q
    end).
Proof.
  revert s copy c pv fuel. induction r as [|[p v] r IH];
    intros s copy c pv [|fuel] Hs Hf Hc Hd Heq Hlen; csimpl in *; try lia.
  - apply wp_ret. exists c, []. rewrite app_nil_r. split_and!; try done.
    intros q Hq. apply Heq. intros Hq'. by eapply Hd.
  - destruct Hs as [Hp Hs].
    assert (Hpc : p ∉ c.*1) by (intros Hpc; apply (Hd p Hpc); by eapply elem_of_dom_2).
    apply wp_bind. eapply wp_read_node; [by rewrite Heq|]. simpl.
    change (match dup copy with Some d => d v | None => Some v end) with (dup_value copy v).
    destruct (dup_value copy v) as [w|] eqn:Hw; simpl.
    + apply wp_bind. eapply wp_mono; [apply (wp_add_tail _ _ _ w Hc); lia|].
      intros copy' s1 (q & Hq & [Hr Hm Hfr] & Hfs). apply wp_bind.
      rewrite fmap_app in Hfr. csimpl in Hfr.
      assert (Hq0 : q ∉ dom (nodes s0)).
      { intros Hq0. apply Hq. destruct (decide (q ∈ c.*1)) as [Hqc|Hqc].
        - eapply dseg_dom; [apply Hc|done].
        - apply elem_of_dom. rewrite Heq by done. by apply elem_of_dom. }
      assert (Hs1 : forall x, x ∉ c.*1 -> x <> q -> nodes s1 !! x = nodes s0 !! x).
      { intros x Hx Hxq. rewrite Hfr, Heq; set_solver. }
      assert (p <> q) by (intros ->; apply Hq0; by eapply elem_of_dom_2).
      eapply wp_read_node; [by rewrite Hs1|]. simpl.
      assert (Hdup : dup_value copy' = dup_value copy).
      { unfold dup_value. by destruct Hm as [-> _]. }
      eapply wp_mono; [eapply (IH s1 copy' _ (Some p)); [done|lia|exact Hr|..]|].
      * intros x. rewrite fmap_app. csimpl. intros [?|[->|[]%elem_of_nil]%elem_of_cons]%elem_of_app; auto.
      * intros x. rewrite fmap_app. csimpl. intros ?. apply Hs1; set_solver.
      * rewrite (rep_len _ _ _ Hr), length_app, (rep_len _ _ _ Hc) in *. simpl. lia.
      * rewrite Hdup. intros [l'|] s'; simpl.
        -- intros (c' & vs & Hr' & Hv & Hc' & Hm' & Hfs' & Hn'). exists c', (w :: vs).
           rewrite fmap_app in Hc'. simpl in *. split_and!; try done.
           ++ change (mapM (dup_value copy) r.*2 ≫= (fun k => mret (w :: k)) = Some (w :: vs)).
              by rewrite Hv.
           ++ by rewrite Hc', <- app_assoc.
           ++ by eapply same_methods_trans.
           ++ by rewrite Hfs', Hfs.
        -- intros [Hv ?]. split; [|done]. change (mapM (dup_value copy) r.*2 ≫= (fun k => mret (w :: k)) = None).
           by rewrite Hv.
    + apply wp_bind. eapply wp_mono; [by apply wp_destroy|]. intros _ s' [_ Hn].
      apply wp_ret. split; [done|]. intros q. rewrite Hn. case_decide as Hqc; [|by apply Heq].
      symmetry. apply not_elem_of_dom. by apply Hd.
Qed.

Lemma wp_dup s l ps :
  list_rep s l ps ->
  wp (kr_list_dup l) s (fun o s' =>
    match o with
    | Some l' => exists ps' vs, list_rep s' l' ps' /\ mapM (dup_value l) ps.*2 = Some vs /\
        ps'.*2 = vs /\ same_methods l l' /\ list_rep s' l ps /\ freed s' = freed s
    | None => mapM (dup_value l) ps.*2 = None /\ forall q, nodes s' !! q = nodes s !! q
    end).
Proof.
  intros Hr. unfold kr_list_dup. rewrite (list_rep_fuel _ _ _ Hr), (rep_head _ _ _ Hr).
  eapply wp_mono; [eapply (wp_dup_loop s _ _ [] None ps); try done|].
  - apply Hr.
  - lia.
  - split; simpl; try done; try constructor.
  - simpl. set_solver.
  - simpl. apply Hr.
  - unfold dup_value. simpl. intros [l'|] s'; [|done].
    intros (c & vs & Hc & Hvs & Hcv & Hm & Hf & Hn). exists c, vs. split_and!; try done.
    split; try apply Hr. eapply dseg_ext; [|apply Hr]. intros q Hq. apply Hn.
    eapply dseg_dom; [apply Hr|done].
Qed.

(** * The abstract list

    A list promises the operations of a sequence of values: [spec_op] gives the
    sequence after an operation and the values passed to the [free] method. *)

Inductive op :=
  | AddHead (v : V)
  | AddTail (v : V)
  | AddSorted (v : V) (u : U)
  | Remove (key : V)
  | DeleteAt (index : Z)
  | MoveHeadAt (index : Z).

(** The C calls of an operation; the positional ones act on the node that
    [kr_list_locate] returns, if any. *)
Definition run_op (o : op) l : M (store (V:=V)) T_KRList :=
  match o with
  | AddHead v => kr_list_add_head l v
  | AddTail v => kr_list_add_tail l v
  | AddSorted v u => kr_list_add_sorted l v u
  | Remove key => kr_list_remove l key
  | DeleteAt i =>
      n ← kr_list_locate l i;
      match n with Some _ => kr_list_delete l n | None => mret l end
  | MoveHeadAt i =>
      n ← kr_list_locate l i;
      match n with Some _ => kr_list_move_head l n | None => mret l end
  end.

Fixpoint run_ops (os : list op) l : M (store (V:=V)) T_KRList :=
  match os with
  | [] => mret l
  | o :: os' => l' ← run_op o l; run_ops os' l'
  end.

(** Insertion after the last element that satisfies [f], in front if none does:
    on the reversed sequence, before the first one. *)
Fixpoint rinsert (f : V -> bool) (v : V) (r : list V) : list V :=
  match r with
  | [] => [v]
  | w :: r' => if f w then v :: r else w :: rinsert f v r'
  end.
Definition sorted_insert (f : V -> bool) (v : V) (vs : list V) : list V :=
  reverse (rinsert f v (reverse vs)).

Definition spec_op (c : option (V -> V -> U -> Z)) (m : V -> V -> bool) (o : op) (vs : list V)
    : list V * list V :=
  let drop j := match vs !! j with
                | Some v => (delete j vs, [v])
                | None => (vs, [])
                end in
  match o with
  | AddHead v => (v :: vs, [])
  | AddTail v => (vs ++ [v], [])
  | AddSorted v u => (sorted_insert (before c u v) v vs, [])
  | Remove key => match list_find (fun v => m v key = true) vs with
                  | Some (j, _) => drop j
                  | None => (vs, [])
                  end
  | DeleteAt i => match position (length vs) i with Some j => drop j | None => (vs, []) end
  | MoveHeadAt i => (match position (length vs) i with
                     | Some j => match vs !! j with Some v => v :: delete j vs | None => vs end
                     | None => vs
                     end, [])
  end.

Fixpoint spec_ops (c : option (V -> V -> U -> Z)) (m : V -> V -> bool) (os : list op)
    (vs fs : list V) : list V * list V :=
  match os with
  | [] => (vs, fs)
  | o :: os' => let '(vs', f) := spec_op c m o vs in spec_ops c m os' vs' (fs ++ f)
  end.

(** A new list after the calls of [kr_list_set_dup], [_free], [_match], [_compare]. *)
Definition list_with (d : option (V -> option V)) (fr : bool) (m : option (V -> V -> bool))
    (c : option (V -> V -> U -> Z)) : T_KRList :=
  mkList (head (V:=V) (U:=U) kr_list_new) (tail (V:=V) (U:=U) kr_list_new) d fr m c
    (len (V:=V) (U:=U) kr_list_new).

Lemma split_sorted_values f v r b :
  (let '(a, b') := split_sorted f r b in a.*2 ++ v :: b'.*2) = reverse (rinsert f v r.*2) ++ b.*2.
Proof.
  revert b. induction r as [|[p w] r IH]; intros b; csimpl; [done|].
  destruct (f w).
  - rewrite !reverse_cons, fmap_app, fmap_reverse. csimpl. by rewrite <- !app_assoc.
  - rewrite IH. csimpl. by rewrite reverse_cons, <- app_assoc.
Qed.

Lemma list_find_first_match l key ps :
  first_match l key ps = None /\ list_find (fun v => node_match l v key = true) ps.*2 = None \/
  exists a p v b, first_match l key ps = Some (p, v) /\ (ps = a ++ (p, v) :: b) /\
    list_find (fun v => node_match l v key = true) ps.*2 = Some (length a, v).
Proof.
  unfold first_match. induction ps as [|[p v] ps IH]; csimpl; [by left|].
  destruct (node_match l v key) eqn:Hv.
  - right. exists [], p, v, ps. by rewrite decide_True.
  - rewrite decide_False by done. destruct IH as [[Hf ->]|(a & q & w & b & Hf & -> & ->)].
    + left. by rewrite Hf.
    + right. exists ((p, v) :: a), q, w, b. rewrite Hf. done.
Qed.

Lemma lookup_pos_split ps j :
  (exists a p v b, (ps = a ++ (p, v) :: b) /\ length a = j) \/ (ps !! j = None /\ ps.*2 !! j = None).
Proof.
  destruct (ps !! j) as [[p v]|] eqn:Hj.
  - left. exists (take j ps), p, v, (drop (S j) ps). split; [by rewrite take_drop_middle|].
    rewrite length_take. apply lookup_lt_Some in Hj. lia.
  - right. split; [done|]. by rewrite list_lookup_fmap, Hj.
Qed.

Lemma values_middle a p v b :
  (a ++ (p, v) :: b).*2 !! length a = Some v /\
  delete (length a) (a ++ (p, v) :: b).*2 = (a ++ b).*2.
Proof.
  rewrite !fmap_app. csimpl. split.
  - rewrite list_lookup_middle; [done|]. by rewrite length_fmap.
  - replace (length a) with (length a.*2) by apply length_fmap. by rewrite delete_middle.
Qed.

(** The outcome of an operation: the new sequence and the values freed. *)
Definition outcome s l (r : list V * list V) l' (s' : store) : Prop :=
  exists ps', list_rep s' l' ps' /\ same_methods l l' /\ len l' <= len l + 1 /\
    ps'.*2 = r.1 /\ freed s' = freed s ++ (if has_free l then r.2 else []).

Lemma outcome_same s l ps : list_rep s l ps -> outcome s l (ps.*2, []) l s.
Proof.
  intros Hr. exists ps. split_and!; try done; [lia|]. simpl. destruct (has_free l);
  by rewrite app_nil_r.
Qed.

Lemma outcome_insert s l ps s' l' ps' r :
  list_rep s l ps -> updated s l ps s' l' ps' -> length ps' = S (length ps) ->
  freed s' = freed s -> ps'.*2 = r -> outcome s l (r, []) l' s'.
Proof.
  intros Hr [Hr' Hm _] Hlen Hf Hps. exists ps'. split_and!; try done.
  - rewrite (rep_len _ _ _ Hr), (rep_len _ _ _ Hr'). lia.
  - simpl. rewrite Hf. destruct (has_free l); by rewrite app_nil_r.
Qed.

Lemma wp_delete_outcome s l a p v b :
  list_rep s l (a ++ (p, v) :: b) ->
  wp (kr_list_delete l (Some p)) s
     (outcome s l (delete (length a) (a ++ (p, v) :: b).*2, [v])).
Proof.
  intros Hr. eapply wp_mono; [by apply wp_delete|].
  intros l' s' ([Hr' Hm _] & _ & Hf). exists (a ++ b). split_and!; try done.
  - rewrite (rep_len _ _ _ Hr), (rep_len _ _ _ Hr'), !length_app. simpl. lia.
  - symmetry. apply values_middle.
Qed.

(** One operation refines its abstract counterpart. *)
Lemma wp_run_op s l ps o :
  list_rep s l ps -> len l < UINT_MAX ->
  wp (run_op o l) s (outcome s l (spec_op (compare l) (node_match l) o ps.*2)).
Proof.
  intros Hr Hlen. destruct o as [v|v|v u|key|i|i]; simpl.
  - eapply wp_mono; [by apply wp_add_head|]. intros l' s' (p & _ & Hu & Hf).
    by eapply outcome_insert.
  - eapply wp_mono; [by apply wp_add_tail|]. intros l' s' (p & _ & Hu & Hf).
    eapply outcome_insert; [done..|rewrite length_app; simpl; lia|done|by rewrite fmap_app].
  - eapply wp_mono; [by apply wp_add_sorted|]. intros l' s' (p & _ & Hu & Hf).
    pose proof (split_sorted_values (before (compare l) u v) v (reverse ps) []) as Hv.
    pose proof (split_sorted_app (before (compare l) u v) (reverse ps) []) as Ha.
    destruct (split_sorted _ _ _) as [a b]. specialize (Ha a b eq_refl).
    rewrite reverse_involutive, app_nil_r in Ha. subst ps.
    eapply outcome_insert; [done..|rewrite !length_app; simpl; lia|done|].
    rewrite fmap_app. csimpl. rewrite Hv, app_nil_r, fmap_reverse. done.
  - eapply wp_remove; [done|].
    destruct (list_find_first_match l key ps) as [[-> ->]|(a & p & v & b & -> & -> & ->)].
    + by apply outcome_same.
    + rewrite (proj1 (values_middle a p v b)). by apply wp_delete_outcome.
  - apply wp_bind. eapply wp_locate; [done|]. rewrite length_fmap.
    destruct (position _ i) as [j|]; simpl; [|by apply outcome_same].
    destruct (lookup_pos_split ps j) as [(a & p & v & b & -> & <-)|[-> ->]];
      [|by apply outcome_same].
    rewrite list_lookup_middle by done. simpl. rewrite (proj1 (values_middle a p v b)).
    by apply wp_delete_outcome.
  - apply wp_bind. eapply wp_locate; [done|]. rewrite length_fmap.
    destruct (position _ i) as [j|]; simpl; [|by apply outcome_same].
    destruct (lookup_pos_split ps j) as [(a & p & v & b & -> & <-)|[-> ->]];
      [|by apply outcome_same].
    rewrite list_lookup_middle by done. simpl. rewrite (proj1 (values_middle a p v b)).
    rewrite (proj2 (values_middle a p v b)).
    eapply wp_mono; [by apply wp_move_head|]. intros l' s' ([Hr' Hm _] & Hf).
    exists ((p, v) :: a ++ b). split_and!; try done.
    + rewrite (rep_len _ _ _ Hr), (rep_len _ _ _ Hr'). simpl. rewrite !length_app. simpl. lia.
    + simpl. rewrite Hf. destruct (has_free l); by rewrite app_nil_r.
Qed.

Lemma spec_ops_acc c (m : V -> V -> bool) os vs fs :
  spec_ops c m os vs fs = ((spec_ops c m os vs []).1, fs ++ (spec_ops c m os vs []).2).
Proof.
  revert vs fs. induction os as [|o os IH]; intros vs fs; simpl; [by rewrite app_nil_r|].
  destruct (spec_op c m o vs) as [vs' f]. rewrite (IH _ (fs ++ f)), (IH _ f). simpl.
  by rewrite app_assoc.
Qed.

Lemma wp_run_ops s l ps os :
  list_rep s l ps -> len l + Z.of_nat (length os) <= UINT_MAX ->
  wp (run_ops os l) s (fun l' s' => exists ps', list_rep s' l' ps' /\
    let '(vs, fs) := spec_ops (compare l) (node_match l) os ps.*2 [] in
    ps'.*2 = vs /\ freed s' = freed s ++ (if has_free l then fs else [])).
Proof.
  revert s l ps. induction os as [|o os IH]; intros s l ps Hr Hlen; simpl in *.
  - apply wp_ret. exists ps. split_and!; try done. destruct (has_free l); by rewrite app_nil_r.
  - apply wp_bind. eapply wp_mono; [apply (wp_run_op _ _ _ _ Hr); lia|].
    intros l' s' (ps' & Hr' & Hm & Hl & Hps & Hf).
    eapply wp_mono; [apply (IH s' l' ps' Hr'); lia|].
    intros l2 s2 (ps2 & Hr2 & H2). exists ps2. split; [done|].
    assert (Hnm : node_match l' = node_match l).
    { unfold node_match. by destruct Hm as (_ & _ & -> & _). }
    destruct Hm as (_ & Hfr & _ & Hc). rewrite Hnm, Hc, Hps, Hfr in H2.
    destruct (spec_op _ _ _ _) as [vs f]. simpl in *.
    rewrite (spec_ops_acc _ _ _ _ f). destruct (spec_ops _ _ os vs []) as [vs2 fs2]. simpl in *.
    destruct H2 as [-> ->]. split; [done|]. rewrite Hf.
    destruct (has_free l); [by rewrite app_assoc|by rewrite !app_nil_r].
Qed.

(** * Sorted insertion *)

Section Sorted.
Context (cmp : V -> V -> U -> Z) (u : U).
Context (cmp_total : forall x y, cmp x y u < 0 -> 0 <= cmp y x u).
Context (cmp_trans : forall x y z, 0 <= cmp x y u -> 0 <= cmp y z u -> 0 <= cmp x z u).

(** [ge x y]: [x] may follow [y]. *)
Definition ge (x y : V) : Prop := 0 <= cmp x y u.

Lemma rinsert_perm f v r : rinsert f v r ≡ₚ v :: r.
Proof. induction r as [|w r IH]; simpl; [done|]. destruct (f w); [done|]. rewrite IH. constructor. Qed.

Lemma rinsert_sorted v r :
  StronglySorted ge r -> StronglySorted ge (rinsert (before (Some cmp) u v) v r).
Proof.
  induction r as [|w r IH]; intros Hs; simpl.
  - constructor; constructor.
  - inversion Hs as [|? ? Hs' Hw]; subst. destruct (0 <=? cmp v w u) eqn:Hvw; zbool.
    + constructor; [done|]. constructor; [done|].
      eapply Forall_impl; [exact Hw|]. intros x Hx. by eapply cmp_trans.
    + constructor; [by apply IH|]. rewrite rinsert_perm. constructor; [|done].
      apply cmp_total. lia.
Qed.

Lemma spec_add_sorted (m : V -> V -> bool) vs acc fs :
  StronglySorted ge (reverse acc) ->
  exists ws, spec_ops (Some cmp) m ((fun v => AddSorted v u) <$> vs) acc fs = (ws, fs) /\
    StronglySorted ge (reverse ws) /\ ws ≡ₚ vs ++ acc.
Proof.
  revert acc. induction vs as [|v vs IH]; intros acc Hs; csimpl.
  - exists acc. done.
  - rewrite app_nil_r.
    destruct (IH (sorted_insert (before (Some cmp) u v) v acc)) as (ws & -> & Hws & Hp).
    { unfold sorted_insert. rewrite reverse_involutive. by apply rinsert_sorted. }
    exists ws. split_and!; [done..|]. rewrite Hp. unfold sorted_insert.
    rewrite reverse_Permutation, rinsert_perm, reverse_Permutation.
    by rewrite Permutation_middle.
Qed.
End Sorted.

Lemma StronglySorted_lookup (R : V -> V -> Prop) vs i j x y :
  StronglySorted R vs -> (i < j)%nat -> vs !! i = Some x -> vs !! j = Some y -> R x y.
Proof.
  intros Hs. revert i j. induction Hs as [|z vs Hs IH Hz]; intros [|i] [|j] Hij Hx Hy;
    simpl in *; try lia; try done.
  - simplify_eq. rewrite Forall_lookup in Hz. by eapply Hz.
  - eapply (IH i j); [lia|done..].
Qed.

Lemma StronglySorted_reverse_lookup (R : V -> V -> Prop) vs i j x y :
  StronglySorted R (reverse vs) -> (i < j)%nat -> vs !! i = Some x -> vs !! j = Some y -> R y x.
Proof.
  intros Hs Hij Hx Hy. pose proof (lookup_lt_Some _ _ _ Hy) as Hl.
  eapply (StronglySorted_lookup _ _ (length vs - S j) (length vs - S i)); [done|lia|..].
  - rewrite reverse_lookup by lia. rewrite <- Hy. f_equal. lia.
  - rewrite reverse_lookup by lia. rewrite <- Hx. f_equal. lia.
Qed.

(** * Properties *)

(** C27. The pointer code of kr_list.c refines the sequence: any series of insertions
    (head, tail, sorted), removals (by key, by position) and moves to the head, from
    a new list with any methods, runs without touching a pointer that is not valid,
    ends with a well-linked list of exactly the values the sequence has, and calls
    the [free] method on exactly the values removed, in order. *)
Theorem kr_list_refines_sequence d fr (m : option (V -> V -> bool))
    (c : option (V -> V -> U -> Z)) (os : list op) s :
  Z.of_nat (length os) <= UINT_MAX ->
  wp (run_ops os (list_with d fr m c)) s (fun l' s' => exists ps, list_rep s' l' ps /\
    let '(vs, fs) := spec_ops c (node_match (list_with d fr m c)) os [] [] in
    ps.*2 = vs /\ freed s' = freed s ++ (if fr then fs else [])).
Proof.
  intros Hos. apply (wp_run_ops s (list_with d fr m c) []); [|done].
  split; simpl; try done; constructor.
Qed.

(** Values added to a new list with [kr_list_add_sorted] end up in the order of
    the [compare] method, each as often as it was added, when [compare] is a total
    preorder. *)
Theorem kr_list_add_sorted_sorts (cmp : V -> V -> U -> Z) u d fr
    (m : option (V -> V -> bool)) (vs : list V) s :
  (forall x y, cmp x y u < 0 -> 0 <= cmp y x u) ->
  (forall x y z, 0 <= cmp x y u -> 0 <= cmp y z u -> 0 <= cmp x z u) ->
  Z.of_nat (length vs) <= UINT_MAX ->
  wp (run_ops ((fun v => AddSorted v u) <$> vs) (list_with d fr m (Some cmp))) s
    (fun l' s' => exists ps, list_rep s' l' ps /\ Permutation ps.*2 vs /\
      forall i j x y, (i < j)%nat -> ps.*2 !! i = Some x -> ps.*2 !! j = Some y ->
        0 <= cmp y x u).
Proof.
  intros Ht Htr Hlen. eapply wp_mono.
  - apply (wp_run_ops s (list_with d fr m (Some cmp)) []).
    + split; simpl; try done; constructor.
    + simpl. by rewrite length_fmap.
  - simpl. intros l' s' (ps & Hr & H). exists ps. split; [done|].
    destruct (spec_add_sorted cmp u Ht Htr (node_match (list_with d fr m (Some cmp))) vs [] [])
      as (ws & Hw & Hs & Hp); [constructor|].
    rewrite Hw in H. destruct H as [-> _]. rewrite app_nil_r in Hp. split; [done|].
    intros i j x y. by apply (StronglySorted_reverse_lookup (ge cmp u)).
Qed.

(** [kr_list_dup] makes an independent copy: when the [dup] method succeeds on
    every value (or is absent) a second well-linked list holds the duplicates in
    order, and the original is untouched; when it fails the result is [NULL] and
    every node allocated for the copy has been freed. *)
Theorem kr_list_dup_copies s l ps :
  list_rep s l ps ->
  wp (kr_list_dup l) s (fun o s' =>
    match o with
    | Some l' => exists ps', list_rep s' l' ps' /\ mapM (dup_value l) ps.*2 = Some ps'.*2 /\
        same_methods l l' /\ list_rep s' l ps /\ freed s' = freed s
    | None => mapM (dup_value l) ps.*2 = None /\ forall q, nodes s' !! q = nodes s !! q
    end).
Proof.
  intros Hr. eapply wp_mono; [by apply wp_dup|]. intros [l'|] s'; [|done].
  intros (ps' & vs & H1 & H2 & <- & H3). eauto.
Qed.

(** [kr_list_remove_all] reads [node->next] from the node it has just freed: on
    a list with a value that matches it always uses freed memory, and it only runs
    to its end when there is nothing to remove. *)
Theorem kr_list_remove_all_use_after_free s l ps key :
  list_rep s l ps ->
  kr_list_remove_all l key s =
  if existsb (fun v => node_match l v key) ps.*2 then Fault BadPointer
  else Ok (l, s).
Proof.
  intros Hr. unfold kr_list_remove_all. rewrite (rep_head _ _ _ Hr).
  rewrite (remove_all_loop_fault s l key [] ps); [|done|rewrite (list_rep_fuel _ _ _ Hr); lia].
  destruct (list_find_first_match l key ps) as [[-> Hf]|(a & p & v & b & -> & -> & Hf)].
  - replace (existsb _ _) with false; [done|]. symmetry. apply not_true_is_false.
    intros (v & Hv%list_elem_of_In & Hm)%existsb_exists.
    apply list_find_None in Hf. rewrite Forall_forall in Hf. by apply (Hf v).
  - replace (existsb _ _) with true; [done|]. symmetry. apply list_find_Some in Hf as (Hl & Hv & _).
    apply existsb_exists. exists v. split; [by eapply list_elem_of_In, list_elem_of_lookup_2|done].
Qed.

(** [kr_list_destroy] passes every value to the [free] method, once and in order,
    frees every node of the list and no other node. *)
Theorem kr_list_destroy_frees s l ps :
  list_rep s l ps ->
  wp (kr_list_destroy l) s (fun _ s' =>
    freed s' = freed s ++ (if has_free l then ps.*2 else []) /\
    forall q, nodes s' !! q = if decide (q ∈ ps.*1) then None else nodes s !! q).
Proof. apply wp_destroy. Qed.
End Rep.

(** * The properties at concrete lists *)

(** Two linked nodes, at addresses 1 and 2. *)
Definition demo_store : store (V:=Z) :=
  mkStore (<[1%positive := mkNode None (Some 2%positive) 10]>
          (<[2%positive := mkNode (Some 1%positive) None 20]> ∅)) [].
Definition demo_list : T_KRList (V:=Z) (U:=unit) :=
  mkList (Some 1%positive) (Some 2%positive) None true None None 2.

Lemma demo_rep : list_rep demo_store demo_list [(1%positive, 10); (2%positive, 20)].
Proof.
  split; simpl; try done.
  apply NoDup_cons. split; [by intros ?%list_elem_of_singleton|]. apply NoDup_singleton.
Qed.

Lemma kr_list_refines_sequence_witness :
  Z.of_nat 3 <= UINT_MAX /\
  wp (run_ops (U:=unit) [AddTail 5; AddHead 7; DeleteAt (-1)] (list_with None true None None))
    demo_store (fun l' s' => exists ps, list_rep s' l' ps /\ ps.*2 = [7] /\ freed s' = [5]).
Proof.
  split; [by vm_compute|].
  apply (kr_list_refines_sequence (U:=unit) None true None None
    [AddTail 5; AddHead 7; DeleteAt (-1)] demo_store). by vm_compute.
Defined.

Lemma kr_list_add_sorted_sorts_witness :
  wp (run_ops ((fun v => AddSorted v tt) <$> [3; 1; 2])
      (list_with None false None (Some (fun x y _ => x - y)))) demo_store
    (fun l' s' => exists ps, list_rep s' l' ps /\ Permutation ps.*2 [3; 1; 2] /\
      forall i j x y, (i < j)%nat -> ps.*2 !! i = Some x -> ps.*2 !! j = Some y ->
        0 <= y - x).
Proof.
  apply (kr_list_add_sorted_sorts (fun x y _ => x - y) tt None false None [3; 1; 2] demo_store).
  - intros x y. lia.
  - intros x y z. lia.
  - by vm_compute.
Defined.

Lemma kr_list_dup_copies_witness :
  wp (kr_list_dup demo_list) demo_store (fun o s' =>
    match o with
    | Some l' => exists ps', list_rep s' l' ps' /\
        mapM (dup_value demo_list) [10; 20] = Some ps'.*2 /\
        same_methods demo_list l' /\
        list_rep s' demo_list [(1%positive, 10); (2%positive, 20)] /\
        freed s' = freed demo_store
    | None => mapM (dup_value demo_list) [10; 20] = None /\
        forall q, nodes s' !! q = nodes demo_store !! q
    end).
Proof. apply (kr_list_dup_copies demo_store demo_list _ demo_rep). Defined.

Lemma kr_list_remove_all_use_after_free_witness :
  kr_list_remove_all demo_list 20 demo_store = Fault BadPointer /\
  kr_list_remove_all demo_list 30 demo_store = Ok (demo_list, demo_store).
Proof.
  split.
  - rewrite (kr_list_remove_all_use_after_free demo_store demo_list _ 20 demo_rep). by vm_compute.
  - rewrite (kr_list_remove_all_use_after_free demo_store demo_list _ 30 demo_rep). by vm_compute.
Defined.

Lemma kr_list_destroy_frees_witness :
  wp (kr_list_destroy demo_list) demo_store (fun _ s' =>
    freed s' = [10; 20] /\
    forall q, nodes s' !! q =
      if decide (q ∈ [1%positive; 2%positive]) then None else nodes demo_store !! q).
Proof. apply (kr_list_destroy_frees demo_store demo_list _ demo_rep). Defined.
