(* ===== verification/KrQueue.v ===== *)
(** The bounded queue of krutils/kr_queue.c, a list header and a high water mark:
    [kr_queue_push] adds at the tail of the list, [kr_queue_pop] takes its head.
    The assertions on the queue pointer are the types: a queue is passed by value. *)

From S2P Require Import Prelude KrList.
Local Open Scope Z_scope.

Section KrQueue.
Context {V : Type} `{EqDecision V}.

(** The queue's list has no methods. *)
Record kr_queue_t := mkQueue { list_ : T_KRList (V:=V) (U:=unit); hwm : Z }.

(** [kr_queue_init]: the new queue (the allocation does not fail). *)
Definition kr_queue_init (hwm : Z) : kr_queue_t := mkQueue kr_list_new hwm.

(** The return code ([0], or [-1] at the high water mark) and the queue. *)
Definition kr_queue_push (q : kr_queue_t) (data : V) : M store (Z * kr_queue_t) :=
  if hwm q <=? kr_list_length (list_ q) then mret (-1, q)
  else
    l ← kr_list_add_tail (list_ q) data;
    mret (0, mkQueue l (hwm q)).

(** The value, [None] for [NULL]; the length is unsigned. *)
Definition kr_queue_pop (q : kr_queue_t) : M store (option V * kr_queue_t) :=
  if kr_list_length (list_ q) <=? 0 then mret (None, q)
  else
    match head (list_ q) with
    | None => mret (None, q)
    | Some _ =>
        n ← read_node (head (list_ q));
        l ← kr_list_delete (list_ q) (head (list_ q));
        mret (Some (value n), mkQueue l (hwm q))
    end.

Definition kr_queue_fini (q : kr_queue_t) : M store unit := kr_list_destroy (list_ q).

Definition kr_queue_length (q : kr_queue_t) : Z := kr_list_length (list_ q).

Definition kr_queue_is_empty (q : kr_queue_t) : bool := kr_list_length (list_ q) =? 0.

(** * The abstract queue *)

Inductive qop := Push (v : V) | Pop | Length | IsEmpty.
Inductive qret := RCode (z : Z) | RValue (v : option V) | RLength (z : Z) | RBool (b : bool).

Definition run_qop (o : qop) (q : kr_queue_t) : M store (qret * kr_queue_t) :=
  match o with
  | Push v => '(c, q) ← kr_queue_push q v; mret (RCode c, q)
  | Pop => '(v, q) ← kr_queue_pop q; mret (RValue v, q)
  | Length => mret (RLength (kr_queue_length q), q)
  | IsEmpty => mret (RBool (kr_queue_is_empty q), q)
  end.

(** A first-in first-out sequence of at most [hwm] values. *)
Definition spec_qop (hwm : Z) (o : qop) (vs : list V) : qret * list V :=
  match o with
  | Push v => if hwm <=? Z.of_nat (length vs) then (RCode (-1), vs) else (RCode 0, vs ++ [v])
  | Pop => match vs with [] => (RValue None, vs) | v :: vs' => (RValue (Some v), vs') end
  | Length => (RLength (Z.of_nat (length vs)), vs)
  | IsEmpty => (RBool (bool_decide (vs = [])), vs)
  end.

Fixpoint run_qops (os : list qop) (q : kr_queue_t) : M store (list qret * kr_queue_t) :=
  match os with
  | [] => mret ([], q)
  | o :: os' => '(r, q) ← run_qop o q; '(rs, q) ← run_qops os' q; mret (r :: rs, q)
  end.

Fixpoint spec_qops (hwm : Z) (os : list qop) (vs : list V) : list qret * list V :=
  match os with
  | [] => ([], vs)
  | o :: os' =>
      let '(r, vs) := spec_qop hwm o vs in
      let '(rs, vs) := spec_qops hwm os' vs in (r :: rs, vs)
  end.

(** The queue and the store represent the sequence [vs]. *)
Definition queue_rep (s : store) (q : kr_queue_t) (vs : list V) : Prop :=
  exists ps, list_rep s (list_ q) ps /\ ps.*2 = vs /\ has_free (list_ q) = false.

Lemma list_node_none (ps : list (ptr * V)) : bool_decide (ps.*2 = []) = bool_decide (ps = []).
Proof. destruct ps; by repeat case_bool_decide. Qed.

Lemma wp_run_qop s q vs o :
  queue_rep s q vs -> 0 <= hwm q <= UINT_MAX ->
  wp (run_qop o q) s (fun r s' =>
    r.1 = (spec_qop (hwm q) o vs).1 /\ queue_rep s' r.2 (spec_qop (hwm q) o vs).2 /\
    hwm r.2 = hwm q /\ freed s' = freed s).
Proof.
  intros (ps & Hr & <- & Hfree) Hh.
  assert (Hlen : len (list_ q) = Z.of_nat (length ps.*2)).
  { by rewrite (rep_len _ _ _ Hr), length_fmap. }
  destruct o as [v| | |]; simpl.
  - unfold kr_queue_push, kr_list_length. rewrite Hlen.
    destruct (hwm q <=? _) eqn:Hfull; zbool.
    + apply wp_bind, wp_ret, wp_ret. split_and!; try done. by exists ps.
    + apply wp_bind, wp_bind. eapply wp_mono; [apply (wp_add_tail _ _ _ v Hr); lia|].
      intros l' s' (p & _ & [Hr' (Hm1 & Hm2 & _) _] & Hf). apply wp_ret, wp_ret.
      split_and!; try done. exists (ps ++ [(p, v)]). split_and!; [done|by rewrite fmap_app|].
      simpl. congruence.
  - unfold kr_queue_pop, kr_list_length. rewrite Hlen.
    destruct ps as [|[p v] ps]; simpl.
    + apply wp_bind, wp_ret, wp_ret. split_and!; try done. by exists [].
    + rewrite (rep_head _ _ _ Hr). simpl. apply wp_bind, wp_bind.
      eapply wp_read_node; [apply (proj1 (rep_seg _ _ _ Hr))|]. apply wp_bind.
      eapply wp_mono; [apply (wp_delete _ _ [] p v ps Hr)|].
      intros l' s' ([Hr' (_ & Hm & _) _] & _ & Hf). apply wp_ret, wp_ret.
      rewrite Hfree, app_nil_r in Hf. split_and!; try done.
      exists ps. split_and!; [done..|]. simpl. congruence.
  - apply wp_ret. unfold kr_queue_length, kr_list_length. rewrite Hlen. split_and!; try done.
    by exists ps.
  - apply wp_ret. unfold kr_queue_is_empty, kr_list_length. simpl.
    rewrite (list_rep_len_0 _ _ _ Hr), list_node_none. split_and!; try done. by exists ps.
Qed.

Lemma wp_run_qops s q vs os :
  queue_rep s q vs -> 0 <= hwm q <= UINT_MAX ->
  wp (run_qops os q) s (fun r s' =>
    r.1 = (spec_qops (hwm q) os vs).1 /\ queue_rep s' r.2 (spec_qops (hwm q) os vs).2).
Proof.
  revert s q vs. induction os as [|o os IH]; intros s q vs Hr Hh; simpl.
  { by apply wp_ret. }
  apply wp_bind. eapply wp_mono; [by apply wp_run_qop|].
  intros [r q'] s' (Hr1 & Hr2 & Hhw & _). simpl in *. apply wp_bind.
  rewrite <- Hhw in *. eapply wp_mono; [by eapply IH|].
  intros [rs q2] s2 (Hrs & Hq2). apply wp_ret. simpl in *.
  destruct (spec_qop (hwm q') o vs) as [r0 vs']. simpl in *.
  destruct (spec_qops (hwm q') os vs') as [rs0 vs2]. simpl in *. by subst.
Qed.

(** A new queue behaves, for any series of calls, as a first-in first-out
    sequence that refuses (returning -1) a push at its high water mark, and never
    faults on its linked list. *)
Theorem kr_queue_fifo (hw : Z) (os : list qop) (s : store) :
  0 <= hw <= UINT_MAX ->
  wp (run_qops os (kr_queue_init hw)) s (fun r s' =>
    r.1 = (spec_qops hw os []).1 /\ queue_rep s' r.2 (spec_qops hw os []).2 /\
    Forall (fun x => match x with RLength n => n <= hw | _ => True end) r.1).
Proof.
  intros Hh. eapply wp_mono; [apply (wp_run_qops s (kr_queue_init hw) [])|]; [|done|].
  { exists []. split_and!; [apply list_rep_nil|done..]. }
  simpl. intros [rs q] s' [-> Hq]. split_and!; [done..|]. simpl.
  assert (Hvs : Z.of_nat (length (@nil V)) <= hw) by (simpl; lia).
  clear -Hvs. revert Hvs. generalize (@nil V). induction os as [|o os IH]; intros vs Hvs; simpl.
  { constructor. }
  destruct (spec_qop hw o vs) as [r vs'] eqn:Ho.
  assert (Z.of_nat (length vs') <= hw /\ match r with RLength n => n <= hw | _ => True end)
    as [Hvs' Hr].
  { destruct o; simpl in Ho.
    - destruct (hw <=? _) eqn:?; zbool; simplify_eq; [done|].
      split; [|done]. rewrite length_app. simpl. lia.
    - destruct vs; simplify_eq; simpl in *; split; try done; lia.
    - by simplify_eq.
    - by simplify_eq. }
  specialize (IH vs' Hvs'). destruct (spec_qops hw os vs') as [rs vs2]. simpl in *.
  by constructor.
Qed.

End KrQueue.

Lemma kr_queue_fifo_witness :
  wp (run_qops [Push 1; Push 2; Push 3; Pop; Length] (kr_queue_init 2)) (mkStore ∅ [])
    (fun r s' => r.1 = [RCode 0; RCode 0; RCode (-1); RValue (Some 1); RLength 1] /\
       queue_rep s' r.2 [2] /\
       Forall (fun x => match x with RLength n => n <= 2 | _ => True end) r.1).
Proof.
  apply (kr_queue_fifo (V:=Z) 2 [Push 1; Push 2; Push 3; Pop; Length] (mkStore ∅ [])).
  by vm_compute.
Defined.
