(* ===== verification/KrHashtable.v ===== *)
(** The open-addressing hash table of krutils/kr_hashtable.c.

    Buckets are found by triangular probing modulo a power of two, from the hash
    modulo a prime; a removed node leaves a tombstone; the table is rebuilt when it
    is too empty or too full.  A table is passed by value and returned with the
    calls made to the destroy functions.  Probing loops carry fuel: [NoFuel] stands
    for a loop that finds no free bucket, and the theorems show it never happens.

    [K] is the type of the keys as the caller passes them (pointers, in C), [V] that
    of the values; [None] is [NULL]. *)

From S2P Require Import Prelude.
From Stdlib Require Import Znumtheory.
Local Open Scope Z_scope.

Definition HASH_TABLE_MIN_SHIFT : Z := 3.

Definition prime_mod : list Z :=
  [1; 2; 3; 7; 13; 31; 61; 127; 251; 509; 1021; 2039; 4093; 8191; 16381; 32749; 65521;
   131071; 262139; 524287; 1048573; 2097143; 4194301; 8388593; 16777213; 33554393;
   67108859; 134217689; 268435399; 536870909; 1073741789; 2147483647].

Section KrHashtable.
Context {K V : Type} `{EqDecision K}.

(** The functions the table is created with: [hash_func] and [key_equal_func] (with
    [None] for [NULL], keys are compared as pointers).  They are arguments of every
    operation, because a client may have them read memory that changes. *)
Context (hash_func : K -> Z) (key_equal_func : option (K -> K -> bool)).

(** * Data *)

Record T_KRHashNode := mkHashNode { key : option K; value : option V; key_hash : Z }.

Record T_KRHashTable := mkHashTable {
  size : Z;
  mod_ : Z;
  mask : Z;
  nnodes : Z;
  noccupied : Z;
  nodes : list T_KRHashNode;
  ref_count : Z;
  key_destroy_func : bool;
  value_destroy_func : bool
}.

(** A call of a destroy function. *)
Variant event := KeyDestroy (k : option K) | ValueDestroy (v : option V).

Definition empty_node : T_KRHashNode := mkHashNode None None 0.

(** * Sizes *)

Fixpoint shift_mask (i : nat) (mask : Z) : Z :=
  match i with
  | O => mask
  | S i' => shift_mask i' (Z.lor (u32 (Z.shiftl mask 1)) 1)
  end.

Definition kr_hashtable_set_shift (t : T_KRHashTable) (shift : Z) : res T_KRHashTable :=
  m ← of_option OutOfBounds (prime_mod !! Z.to_nat shift);
  mret (mkHashTable (i32 (Z.shiftl 1 shift)) m (shift_mask (Z.to_nat shift) 0)
          (nnodes t) (noccupied t) (nodes t) (ref_count t)
          (key_destroy_func t) (value_destroy_func t)).

(** [for (i = 0; n; i++) n >>= 1]; an [int] has at most 31 significant bits. *)
Fixpoint find_closest_shift_loop (fuel : nat) (n i : Z) : res Z :=
  match fuel with
  | O => Fault NoFuel
  | S fuel' => if n =? 0 then Ok i else find_closest_shift_loop fuel' (Z.shiftr n 1) (i + 1)
  end.

Definition kr_hashtable_find_closest_shift (n : Z) : res Z := find_closest_shift_loop 32 n 0.

Definition kr_hashtable_set_shift_from_size (t : T_KRHashTable) (size : Z) : res T_KRHashTable :=
  shift ← kr_hashtable_find_closest_shift size;
  kr_hashtable_set_shift t (Z.max shift HASH_TABLE_MIN_SHIFT).

(** * Probing *)

(** The hash of a key, kept clear of 0 (empty) and 1 (tombstone). *)
Definition hash_value (k : K) : Z := let h := u32 (hash_func k) in if h <=? 1 then 2 else h.

Definition get_node (t : T_KRHashTable) (i : Z) : res T_KRHashNode :=
  of_option OutOfBounds (nodes t !! Z.to_nat i).

(** The test of a node whose full hash is the one looked for. *)
Definition key_equal (nd : T_KRHashNode) (k : K) : res bool :=
  match key_equal_func with
  | Some eq => match key nd with Some k' => Ok (eq k' k) | None => Fault NullDeref end
  | None => Ok (bool_decide (key nd = Some k))
  end.

(** One probe further. *)
Definition next_index (t : T_KRHashTable) (node_index step : Z) : Z :=
  Z.land (u32 (node_index + step)) (mask t).

Fixpoint lookup_node_loop (fuel : nat) (t : T_KRHashTable) (k : K) (hash node_index step : Z)
    : res Z :=
  match fuel with
  | O => Fault NoFuel
  | S fuel' =>
      nd ← get_node t node_index;
      if key_hash nd =? 0 then Ok node_index
      else
        b ← (if key_hash nd =? hash then key_equal nd k else Ok false);
        if (b : bool) then Ok node_index
        else
          let step := u32 (step + 1) in
          lookup_node_loop fuel' t k hash (next_index t node_index step) step
  end.

Definition kr_hashtable_lookup_node (t : T_KRHashTable) (k : K) : res Z :=
  let h := hash_value k in
  if mod_ t =? 0 then Fault DivByZero
  else lookup_node_loop (S (Z.to_nat (size t))) t k h (h `mod` mod_ t) 0.

Fixpoint lookup_node_for_insertion_loop (fuel : nat) (t : T_KRHashTable) (k : K)
    (hash node_index step : Z) (first_tombstone : option Z) : res Z :=
  match fuel with
  | O => Fault NoFuel
  | S fuel' =>
      nd ← get_node t node_index;
      if key_hash nd =? 0 then
        Ok (match first_tombstone with Some i => i | None => node_index end)
      else
        b ← (if key_hash nd =? hash then key_equal nd k else Ok false);
        if (b : bool) then Ok node_index
        else
          let first_tombstone :=
            if key_hash nd =? hash then first_tombstone
            else match first_tombstone with
                 | None => if key_hash nd =? 1 then Some node_index else None
                 | Some _ => first_tombstone
                 end in
          let step := u32 (step + 1) in
          lookup_node_for_insertion_loop fuel' t k hash (next_index t node_index step) step
            first_tombstone
  end.

(** The index, and the hash by [hash_return]. *)
Definition kr_hashtable_lookup_node_for_insertion (t : T_KRHashTable) (k : K) : res (Z * Z) :=
  let h := hash_value k in
  if mod_ t =? 0 then Fault DivByZero
  else
    i ← lookup_node_for_insertion_loop (S (Z.to_nat (size t))) t k h (h `mod` mod_ t) 0 None;
    mret (i, h).

(** * Changes to the nodes *)

Definition set_nodes (t : T_KRHashTable) (nds : list T_KRHashNode) : T_KRHashTable :=
  mkHashTable (size t) (mod_ t) (mask t) (nnodes t) (noccupied t) nds (ref_count t)
    (key_destroy_func t) (value_destroy_func t).
Definition set_counts (t : T_KRHashTable) (n o : Z) : T_KRHashTable :=
  mkHashTable (size t) (mod_ t) (mask t) n o (nodes t) (ref_count t)
    (key_destroy_func t) (value_destroy_func t).

Definition node_destroyed (t : T_KRHashTable) (nd : T_KRHashNode) (notify : bool) : list event :=
  (if notify && key_destroy_func t then [KeyDestroy (key nd)] else []) ++
  (if notify && value_destroy_func t then [ValueDestroy (value nd)] else []).

(** [kr_hashtable_remove_node]: a tombstone takes the place of the node [i]. *)
Definition kr_hashtable_remove_node (t : T_KRHashTable) (i : Z) (nd : T_KRHashNode)
    (notify : bool) : T_KRHashTable * list event :=
  (set_counts (set_nodes t (<[Z.to_nat i := mkHashNode None None 1]> (nodes t)))
     (i32 (nnodes t - 1)) (noccupied t),
   node_destroyed t nd notify).

(** [for (i = 0; i < size; i++)] over the nodes in use. *)
Definition live (nd : T_KRHashNode) : bool := 1 <? key_hash nd.

Definition kr_hashtable_remove_all_nodes (t : T_KRHashTable) (notify : bool)
    : T_KRHashTable * list event :=
  let evs := concat (map (fun nd => if live nd then node_destroyed t nd notify else [])
                         (nodes t)) in
  (set_counts (set_nodes t (replicate (Z.to_nat (size t)) empty_node)) 0 0, evs).

(** The loop of [kr_hashtable_resize] that looks for an empty bucket among the new
    nodes. *)
Fixpoint resize_probe (fuel : nat) (t : T_KRHashTable) (new_nodes : list T_KRHashNode)
    (hash_val step : Z) : res Z :=
  match fuel with
  | O => Fault NoFuel
  | S fuel' =>
      new_node ← of_option OutOfBounds (new_nodes !! Z.to_nat hash_val);
      if key_hash new_node =? 0 then Ok hash_val
      else
        let step := u32 (step + 1) in
        resize_probe fuel' t new_nodes (next_index t hash_val step) step
  end.

(** The loop over the old nodes. *)
Fixpoint resize_loop (t : T_KRHashTable) (old : list T_KRHashNode)
    (new_nodes : list T_KRHashNode) : res (list T_KRHashNode) :=
  match old with
  | [] => Ok new_nodes
  | nd :: old' =>
      if key_hash nd <=? 1 then resize_loop t old' new_nodes
      else if mod_ t =? 0 then Fault DivByZero
      else
        i ← resize_probe (S (Z.to_nat (size t))) t new_nodes (key_hash nd `mod` mod_ t) 0;
        resize_loop t old' (<[Z.to_nat i := nd]> new_nodes)
  end.

Definition kr_hashtable_resize (t : T_KRHashTable) : res T_KRHashTable :=
  let old_size := size t in
  t ← kr_hashtable_set_shift_from_size t (i32 (nnodes t * 2));
  new_nodes ← resize_loop t (take (Z.to_nat old_size) (nodes t))
                (replicate (Z.to_nat (size t)) empty_node);
  mret (set_counts (set_nodes t new_nodes) (nnodes t) (nnodes t)).

Definition kr_hashtable_maybe_resize (t : T_KRHashTable) : res T_KRHashTable :=
  if ((i32 (nnodes t * 4) <? size t) && (Z.shiftl 1 HASH_TABLE_MIN_SHIFT <? size t)) ||
     (size t <=? i32 (noccupied t + noccupied t ÷ 16))
  then kr_hashtable_resize t
  else mret t.

(** * The interface *)

Definition kr_hashtable_new_full (key_destroy value_destroy : bool) : res T_KRHashTable :=
  t ← kr_hashtable_set_shift
        (mkHashTable 0 0 0 0 0 [] 1 key_destroy value_destroy) HASH_TABLE_MIN_SHIFT;
  mret (set_nodes t (replicate (Z.to_nat (size t)) empty_node)).

Definition kr_hashtable_new : res T_KRHashTable := kr_hashtable_new_full false false.

Definition kr_hashtable_lookup (ht : option T_KRHashTable) (k : K) : res (option V) :=
  match ht with
  | None => Ok None
  | Some t =>
      i ← kr_hashtable_lookup_node t k;
      nd ← get_node t i;
      mret (if key_hash nd =? 0 then None else value nd)
  end.

(** The original key and the value, when the result is [TRUE]. *)
Definition kr_hashtable_lookup_extended (ht : option T_KRHashTable) (k : K)
    : res (option (option K * option V)) :=
  match ht with
  | None => Ok None
  | Some t =>
      i ← kr_hashtable_lookup_node t k;
      nd ← get_node t i;
      mret (if key_hash nd =? 0 then None else Some (key nd, value nd))
  end.

Definition kr_hashtable_insert_internal (t : T_KRHashTable) (k : K) (v : option V)
    (keep_new_key : bool) : res (T_KRHashTable * list event) :=
  '(i, h) ← kr_hashtable_lookup_node_for_insertion t k;
  nd ← get_node t i;
  let old_hash := key_hash nd in
  if 1 <? old_hash then
    let evk := if key_destroy_func t then
                 [KeyDestroy (if keep_new_key then key nd else Some k)] else [] in
    let evv := if value_destroy_func t then [ValueDestroy (value nd)] else [] in
    let nd' := mkHashNode (if keep_new_key then Some k else key nd) v old_hash in
    mret (set_nodes t (<[Z.to_nat i := nd']> (nodes t)), evk ++ evv)
  else
    let t := set_nodes t (<[Z.to_nat i := mkHashNode (Some k) v h]> (nodes t)) in
    let t := set_counts t (i32 (nnodes t + 1)) (noccupied t) in
    if old_hash =? 0 then
      t ← kr_hashtable_maybe_resize (set_counts t (nnodes t) (i32 (noccupied t + 1)));
      mret (t, [])
    else mret (t, []).

Definition kr_hashtable_insert (t : T_KRHashTable) (k : K) (v : option V) :=
  kr_hashtable_insert_internal t k v false.
Definition kr_hashtable_replace (t : T_KRHashTable) (k : K) (v : option V) :=
  kr_hashtable_insert_internal t k v true.

Definition kr_hashtable_remove_internal (ht : option T_KRHashTable) (k : K) (notify : bool)
    : res (bool * option T_KRHashTable * list event) :=
  match ht with
  | None => Ok (false, None, [])
  | Some t =>
      i ← kr_hashtable_lookup_node t k;
      nd ← get_node t i;
      if key_hash nd =? 0 then mret (false, Some t, [])
      else
        let '(t, evs) := kr_hashtable_remove_node t i nd notify in
        t ← kr_hashtable_maybe_resize t;
        mret (true, Some t, evs)
  end.

Definition kr_hashtable_remove (ht : option T_KRHashTable) (k : K) :=
  kr_hashtable_remove_internal ht k true.
Definition kr_hashtable_steal (ht : option T_KRHashTable) (k : K) :=
  kr_hashtable_remove_internal ht k false.

Definition kr_hashtable_remove_all (t : T_KRHashTable) : res (T_KRHashTable * list event) :=
  let '(t, evs) := kr_hashtable_remove_all_nodes t true in
  t ← kr_hashtable_maybe_resize t;
  mret (t, evs).
Definition kr_hashtable_steal_all (t : T_KRHashTable) : res (T_KRHashTable * list event) :=
  let '(t, evs) := kr_hashtable_remove_all_nodes t false in
  t ← kr_hashtable_maybe_resize t;
  mret (t, evs).

(** The destroy calls; the table and its nodes are then freed. *)
Definition kr_hashtable_destroy (t : T_KRHashTable) : res (list event) :=
  '(_, evs) ← kr_hashtable_remove_all t;
  mret evs.

(** The loop over the buckets from [i], with a callback that threads a state. *)
Fixpoint foreach_remove_loop {A} (n : nat) (i : Z) (t : T_KRHashTable)
    (func : option K -> option V -> A -> bool * A) (a : A) (notify : bool)
    (deleted : Z) (evs : list event) : res (Z * T_KRHashTable * list event * A) :=
  match n with
  | O => Ok (deleted, t, evs, a)
  | S n' =>
      nd ← get_node t i;
      if live nd then
        let '(b, a) := func (key nd) (value nd) a in
        if (b : bool) then
          let '(t, ev) := kr_hashtable_remove_node t i nd notify in
          foreach_remove_loop n' (i + 1) t func a notify (u32 (deleted + 1)) (evs ++ ev)
        else foreach_remove_loop n' (i + 1) t func a notify deleted evs
      else foreach_remove_loop n' (i + 1) t func a notify deleted evs
  end.

Definition kr_hashtable_foreach_remove_or_steal {A} (t : T_KRHashTable)
    (func : option K -> option V -> A -> bool * A) (a : A) (notify : bool)
    : res (Z * T_KRHashTable * list event * A) :=
  '(deleted, t, evs, a) ← foreach_remove_loop (Z.to_nat (size t)) 0 t func a notify 0 [];
  t ← kr_hashtable_maybe_resize t;
  mret (deleted, t, evs, a).

Definition kr_hashtable_foreach_remove {A} (ht : option T_KRHashTable)
    (func : option (option K -> option V -> A -> bool * A)) (a : A)
    : res (Z * option T_KRHashTable * list event * A) :=
  match ht, func with
  | Some t, Some func =>
      '(n, t, evs, a) ← kr_hashtable_foreach_remove_or_steal t func a true;
      mret (n, Some t, evs, a)
  | _, _ => Ok (0, ht, [], a)
  end.
Definition kr_hashtable_foreach_steal {A} (ht : option T_KRHashTable)
    (func : option (option K -> option V -> A -> bool * A)) (a : A)
    : res (Z * option T_KRHashTable * list event * A) :=
  match ht, func with
  | Some t, Some func =>
      '(n, t, evs, a) ← kr_hashtable_foreach_remove_or_steal t func a false;
      mret (n, Some t, evs, a)
  | _, _ => Ok (0, ht, [], a)
  end.

Definition kr_hashtable_foreach {A} (t : T_KRHashTable)
    (func : option K -> option V -> A -> A) (a : A) : A :=
  foldl (fun a nd => if live nd then func (key nd) (value nd) a else a) a (nodes t).

Definition kr_hashtable_find (ht : option T_KRHashTable)
    (predicate : option (option K -> option V -> bool)) : option V :=
  match ht, predicate with
  | Some t, Some p =>
      match List.find (fun nd => live nd && p (key nd) (value nd)) (nodes t) with
      | Some nd => value nd
      | None => None
      end
  | _, _ => None
  end.

Definition kr_hashtable_size (ht : option T_KRHashTable) : Z :=
  match ht with None => 0 | Some t => u32 (nnodes t) end.

End KrHashtable.

(** * Triangular probing visits every bucket *)

Definition tri (s : Z) : Z := s * (s + 1) / 2.

Lemma tri_double s : 2 * tri s = s * (s + 1).
Proof.
  unfold tri. assert (Hev : Z.Even (s * (s + 1))).
  { apply Z.even_spec. rewrite Z.even_mul, Z.even_add. by destruct (Z.even s). }
  destruct Hev as [q Hq]. rewrite Hq. rewrite (Z.mul_comm 2 q), Z.div_mul; lia.
Qed.

Lemma tri_succ s : tri (s + 1) = tri s + (s + 1).
Proof. pose proof (tri_double s). pose proof (tri_double (s + 1)). lia. Qed.

Lemma gcd_pow2_odd (k : nat) z : Z.Odd z -> Z.gcd (2 ^ Z.of_nat k) z = 1.
Proof.
  intros [q ->]. induction k as [|k IH]; [apply Z.gcd_1_l|].
  rewrite Nat2Z.inj_succ, Z.pow_succ_r by lia.
  apply Zgcd_1_rel_prime, rel_prime_sym, rel_prime_mult.
  - apply Zgcd_1_rel_prime. rewrite Z.gcd_comm. apply Z.bezout_1_gcd. exists (- q), 1. lia.
  - by apply rel_prime_sym, Zgcd_1_rel_prime.
Qed.

Lemma tri_inj_mod n s t :
  0 <= n -> 0 <= s < 2 ^ n -> 0 <= t < 2 ^ n -> (2 ^ n | tri s - tri t) -> s = t.
Proof.
  intros Hn Hs Ht [q Hq].
  assert (Hd : (2 ^ (n + 1) | (s - t) * (s + t + 1))).
  { exists q. rewrite Z.pow_add_r by lia. change (2 ^ 1) with 2.
    pose proof (tri_double s). pose proof (tri_double t). nia. }
  assert (Hpow : 2 ^ (n + 1) = 2 * 2 ^ n) by (rewrite Z.pow_add_r by lia; lia).
  assert (Hgcd : forall z, Z.Odd z -> Z.gcd (2 ^ (n + 1)) z = 1).
  { intros z Hz. rewrite <- (Z2Nat.id (n + 1)) by lia. by apply gcd_pow2_odd. }
  destruct (Z.Even_or_Odd (s - t)) as [[a Ha]|Hodd].
  - rewrite Z.mul_comm in Hd. apply Z.gauss in Hd.
    + destruct Hd as [b Hb]. rewrite Hpow in Hb. assert (b = 0) by nia. lia.
    + apply Hgcd. exists (t + a). lia.
  - apply Z.gauss in Hd; [|by apply Hgcd]. destruct Hd as [b Hb]. rewrite Hpow in Hb.
    generalize dependent (2 ^ n). intros P. intros. exfalso. destruct (decide (b <= 0)); nia.
Qed.

(** From any start, the first [2^n] probes visit the [2^n] buckets. *)
Lemma probe_cover n h i :
  0 <= n -> 0 <= i < 2 ^ n -> exists s, 0 <= s < 2 ^ n /\ (h + tri s) `mod` 2 ^ n = i.
Proof.
  intros Hn Hi. pose proof (Z.pow_pos_nonneg 2 n ltac:(lia) Hn) as Hpos.
  set (f := fun s => (h + tri s) `mod` 2 ^ n).
  assert (Hnd : NoDup (f <$> seqZ 0 (2 ^ n))).
  { apply NoDup_fmap_2_strong; [|apply NoDup_seqZ].
    intros s t Hs%elem_of_seqZ Ht%elem_of_seqZ Heq. unfold f in Heq.
    apply (tri_inj_mod n); [lia..|].
    exists ((h + tri s) / 2 ^ n - (h + tri t) / 2 ^ n).
    pose proof (Z_div_mod_eq_full (h + tri s) (2 ^ n)).
    pose proof (Z_div_mod_eq_full (h + tri t) (2 ^ n)). lia. }
  assert (Hsub : (f <$> seqZ 0 (2 ^ n)) ⊆+ seqZ 0 (2 ^ n)).
  { apply NoDup_submseteq; [done|]. intros x (s & -> & _)%list_elem_of_fmap.
    apply elem_of_seqZ. unfold f. pose proof (Z.mod_pos_bound (h + tri s) (2 ^ n)). lia. }
  apply submseteq_length_Permutation in Hsub; [|by rewrite length_fmap].
  assert (Hin : i ∈ f <$> seqZ 0 (2 ^ n)) by (rewrite Hsub; apply elem_of_seqZ; lia).
  apply list_elem_of_fmap in Hin as (s & -> & Hs%elem_of_seqZ). exists s. split; [lia|done].
Qed.

(** * The sizes *)

Definition pm (n : Z) : Z := default 1 (prime_mod !! Z.to_nat n).

Lemma pm_bound n : 0 <= n <= 30 ->
  prime_mod !! Z.to_nat n = Some (pm n) /\ 0 < pm n <= 2 ^ n.
Proof.
  intros Hn.
  assert (Hall : forallb (fun i => let z := Z.of_nat i in
    bool_decide (prime_mod !! i = Some (pm z)) && (0 <? pm z) && (pm z <=? 2 ^ z)) (seq 0 31) = true)
    by by vm_compute.
  rewrite forallb_forall in Hall. specialize (Hall (Z.to_nat n)).
  rewrite Z2Nat.id in Hall by lia.
  apply andb_true_iff in Hall as [[Hp Hlo]%andb_true_iff Hhi]; [|apply in_seq; lia].
  apply bool_decide_eq_true in Hp. zbool. split; [done|lia].
Qed.

Lemma shift_mask_ones i (j : Z) :
  0 <= j -> j + Z.of_nat i <= 32 -> shift_mask i (2 ^ j - 1) = 2 ^ (j + Z.of_nat i) - 1.
Proof.
  revert j. induction i as [|i IH]; intros j Hj Hle; simpl; [f_equal; f_equal; lia|].
  assert (Hp : 2 ^ (j + 1) = 2 * 2 ^ j) by (rewrite Z.pow_add_r by lia; lia).
  assert (H32 : 2 ^ (j + 1) <= 2 ^ 32) by (apply Z.pow_le_mono_r; lia).
  pose proof (Z.pow_pos_nonneg 2 j).
  rewrite Z.shiftl_mul_pow2 by lia. rewrite wrapu_small by lia.
  replace (Z.lor ((2 ^ j - 1) * 2 ^ 1) 1) with (2 ^ (j + 1) - 1).
  { rewrite IH by lia. f_equal. f_equal. lia. }
  rewrite Z.lor_comm. change 1 with (Z.ones 1) at 2.
  rewrite <- (Z.add_0_r ((2 ^ j - 1) * 2 ^ 1)).
  assert (Hand : Z.land 1 ((2 ^ j - 1) * 2 ^ 1) = 0).
  { apply Z.bits_inj'. intros b Hb. rewrite Z.land_spec, Z.bits_0.
    destruct (decide (b = 0)) as [->|].
    - rewrite Z.mul_pow2_bits_low by lia. by rewrite andb_false_r.
    - assert (Z.testbit 1 b = false) as -> by (apply Z.bits_above_log2; simpl; lia). done. }
  rewrite Z.add_0_r. change (Z.ones 1) with 1. rewrite <- Z.add_nocarry_lor by done. lia.
Qed.

Lemma shift_mask_0 n : 0 <= n <= 31 -> shift_mask (Z.to_nat n) 0 = 2 ^ n - 1.
Proof.
  intros Hn. change 0 with (2 ^ 0 - 1) at 1. rewrite shift_mask_ones by lia. f_equal. f_equal. lia.
Qed.

(** [find_closest_shift n] is the number of bits of [n]: the least [i] with
    [n < 2^i]. *)
Lemma find_closest_shift_spec fuel n i :
  0 <= n < 2 ^ (Z.of_nat fuel - 1) -> (0 < fuel)%nat ->
  exists j, find_closest_shift_loop fuel n i = Ok (i + j) /\ 0 <= j /\ n < 2 ^ j /\
    (0 < j -> 2 ^ (j - 1) <= n).
Proof.
  revert n i. induction fuel as [|fuel IH]; intros n i Hn Hf; [lia|]. simpl.
  destruct (n =? 0) eqn:Hn0; zbool.
  - subst. exists 0. rewrite Z.add_0_r. split_and!; try done; lia.
  - destruct fuel as [|fuel].
    { simpl in Hn. lia. }
    destruct (IH (Z.shiftr n 1) (i + 1)) as (j & Hj & H0 & Hlt & Hge); [|lia|].
    { rewrite Z.shiftr_div_pow2 by lia. change (2 ^ 1) with 2.
      replace (Z.of_nat (S (S fuel)) - 1) with (1 + (Z.of_nat (S fuel) - 1)) in Hn by lia.
      rewrite Z.pow_add_r in Hn by lia. change (2 ^ 1) with 2 in Hn.
      pose proof (Z.div_pos n 2). split; [lia|]. apply Z.div_lt_upper_bound; lia. }
    rewrite Z.shiftr_div_pow2 in * by lia. change (2 ^ 1) with 2 in *.
    exists (1 + j). rewrite Hj. split; [f_equal; lia|]. split; [lia|].
    rewrite Z.pow_add_r by lia. change (2 ^ 1) with 2.
    pose proof (Z_div_mod_eq_full n 2). pose proof (Z.mod_pos_bound n 2). split; [lia|].
    intros _. replace (1 + j - 1) with j by lia.
    destruct (decide (j = 0)) as [->|]; [lia|].
    specialize (Hge ltac:(lia)). replace j with (1 + (j - 1)) by lia.
    rewrite Z.pow_add_r by lia. change (2 ^ 1) with 2. lia.
Qed.

(** The least index at which a test holds. *)
Lemma least_index (P : Z -> bool) s0 :
  0 <= s0 -> P s0 = true ->
  exists s, 0 <= s <= s0 /\ P s = true /\ forall s', 0 <= s' < s -> P s' = false.
Proof.
  intros H0. revert s0 H0. apply (Zlt_0_ind (fun s0 => P s0 = true -> exists s,
    0 <= s <= s0 /\ P s = true /\ forall s', 0 <= s' < s -> P s' = false)).
  intros x IH Hx HP.
  destruct (decide (Exists (fun z => P z = true) (seqZ 0 x))) as [Hex|Hno].
  - apply Exists_exists in Hex as (z & Hz%elem_of_seqZ & HPz).
    destruct (IH z ltac:(lia) HPz) as (s & ? & ? & ?). exists s. split; [lia|done].
  - exists x. split; [lia|]. split; [done|]. intros s' Hs'. apply not_true_is_false.
    intros HPs. apply Hno, Exists_exists. exists s'. split; [apply elem_of_seqZ; lia|done].
Qed.

(** * Keys

    What a table asks of its two functions: keys are compared through what they
    denote ([repr], the contents of a string or of the record a pointer leads to),
    and the hash depends on nothing else. *)
Class HashKeys {K C : Type} `{EqDecision K} `{EqDecision C} (hash_func : K -> Z)
    (key_equal_func : option (K -> K -> bool)) (repr : K -> C) : Prop := {
  keys_equal k1 k2 :
    (match key_equal_func with Some eq => eq k1 k2 | None => bool_decide (k1 = k2) end) =
    bool_decide (repr k1 = repr k2);
  keys_hash k1 k2 : repr k1 = repr k2 -> hash_func k1 = hash_func k2
}.

Section Table.
Context {K V C : Type} `{EqDecision K} `{Countable C}.
Context (hash_func : K -> Z) (key_equal_func : option (K -> K -> bool)) (repr : K -> C).
Context `{!HashKeys hash_func key_equal_func repr}.
Implicit Types (nds : list (T_KRHashNode (K:=K) (V:=V))) (nd : T_KRHashNode (K:=K) (V:=V)).
Implicit Types (t : T_KRHashTable (K:=K) (V:=V)) (k : K) (v : option V).
Implicit Types (m : gmap C (K * option V)).

Notation hv := (hash_value hash_func).

Lemma hash_value_ge k : 2 <= hv k.
Proof. unfold hash_value. destruct (_ <=? 1) eqn:?; zlia. Qed.

Lemma hash_value_u32 k : hv k < 2 ^ 32.
Proof.
  unfold hash_value. destruct (_ <=? 1); [lia|].
  pose proof (wrapu_range 32 (hash_func k)). lia.
Qed.

Lemma hash_value_repr k1 k2 : repr k1 = repr k2 -> hv k1 = hv k2.
Proof. intros Hr. unfold hash_value. by rewrite (keys_hash (hash_func:=hash_func) (key_equal_func:=key_equal_func) k1 k2 Hr). Qed.

(** * The nodes represent a finite map

    The bucket of the [s]-th probe, the path that leads to a bucket, and the
    invariant: every node in use is a binding of the map, reached from its home
    bucket through buckets that are not empty; every binding has one node. *)

Definition slot (n h s : Z) : Z := (h `mod` pm n + tri s) `mod` 2 ^ n.

Definition path (n : Z) nds (h : Z) (i : nat) : Prop :=
  exists s, 0 <= s < 2 ^ n /\ Z.of_nat i = slot n h s /\
    forall s', 0 <= s' < s ->
      exists nd, nds !! Z.to_nat (slot n h s') = Some nd /\ key_hash nd <> 0.

Record nodes_ok (n : Z) nds m : Prop := {
  no_len : Z.of_nat (length nds) = 2 ^ n;
  no_range : forall i nd, nds !! i = Some nd -> 0 <= key_hash nd;
  no_live : forall i nd, nds !! i = Some nd -> live nd = true ->
    exists k, key nd = Some k /\ key_hash nd = hv k /\ m !! repr k = Some (k, value nd) /\
      path n nds (hv k) i;
  no_complete : forall c k v, m !! c = Some (k, v) ->
    repr k = c /\ exists i, nds !! i = Some (mkHashNode (Some k) v (hv k));
  no_unique : forall i j nd1 nd2 k1 k2, nds !! i = Some nd1 -> nds !! j = Some nd2 ->
    live nd1 = true -> live nd2 = true -> key nd1 = Some k1 -> key nd2 = Some k2 ->
    repr k1 = repr k2 -> i = j
}.

Lemma slot_range n h s : 0 <= n -> 0 <= slot n h s < 2 ^ n.
Proof. intros. apply Z.mod_pos_bound, Z.pow_pos_nonneg; lia. Qed.

Lemma slot_lookup n nds m h s :
  0 <= n -> nodes_ok n nds m -> exists nd, nds !! Z.to_nat (slot n h s) = Some nd.
Proof.
  intros Hn Hok. apply lookup_lt_is_Some. pose proof (slot_range n h s Hn).
  pose proof (no_len _ _ _ Hok). lia.
Qed.

Lemma slot_cover n h (i : nat) :
  0 <= n -> Z.of_nat i < 2 ^ n -> exists s, 0 <= s < 2 ^ n /\ Z.of_nat i = slot n h s.
Proof.
  intros Hn Hi. destruct (probe_cover n (h `mod` pm n) (Z.of_nat i)) as (s & Hs & Heq); [lia..|].
  exists s. by split.
Qed.

(** One step of the code's probing goes from a slot to the next. *)
Lemma slot_step n h s :
  0 <= n <= 30 -> 0 <= s < 2 ^ n ->
  Z.land (u32 (slot n h s + u32 (s + 1))) (2 ^ n - 1) = slot n h (s + 1).
Proof.
  intros Hn Hs. pose proof (slot_range n h s ltac:(lia)) as Hr.
  assert (Hp : 2 ^ n <= 2 ^ 30) by (apply Z.pow_le_mono_r; lia).
  change (2 ^ 30) with 1073741824 in Hp.
  rewrite !u32_small by (unfold UINT_MAX; rewrite ?u32_small by (unfold UINT_MAX; lia); lia).
  replace (2 ^ n - 1) with (Z.ones n) by (rewrite Z.ones_equiv; lia).
  rewrite Z.land_ones by lia. unfold slot. rewrite tri_succ, Zplus_mod_idemp_l. f_equal. lia.
Qed.

(** The code's first bucket is the first slot. *)
Lemma slot_0 n h : 0 <= n <= 30 -> slot n h 0 = h `mod` pm n.
Proof.
  intros Hn. unfold slot. change (tri 0) with 0. rewrite Z.add_0_r. apply Z.mod_small.
  destruct (pm_bound n Hn) as [_ ?]. pose proof (Z.mod_pos_bound h (pm n)). lia.
Qed.

(** * Lookup *)

(** The test the loops make of a node. *)
Definition matches nd k : bool :=
  match key nd with
  | Some k' => (key_hash nd =? hv k) && bool_decide (repr k' = repr k)
  | None => false
  end.

Lemma matches_spec n nds m i nd k :
  nodes_ok n nds m -> nds !! i = Some nd ->
  (if key_hash nd =? hv k then key_equal key_equal_func nd k else Ok false) =
  Ok (matches nd k).
Proof.
  intros Hok Hi. unfold matches. destruct (key_hash nd =? hv k) eqn:Hh; zbool.
  - assert (Hl : live nd = true).
    { unfold live. pose proof (hash_value_ge k). apply Z.ltb_lt. lia. }
    destruct (no_live _ _ _ Hok _ _ Hi Hl) as (k' & Hk & _).
    rewrite Hk. simpl.
    pose proof (keys_equal (hash_func:=hash_func) (key_equal_func:=key_equal_func)
      (repr:=repr) k' k) as Hke. rewrite <- Hke. unfold key_equal. rewrite Hk.
    case key_equal_func; [done|]. f_equal. apply bool_decide_ext. naive_solver.
  - by destruct (key nd).
Qed.

(** The bucket where the search of [k] stops. *)
Definition stop nds (k : K) (i : Z) : bool :=
  match nds !! Z.to_nat i with
  | Some nd => (key_hash nd =? 0) || matches nd k
  | None => false
  end.

Definition table_shape (n : Z) t : Prop :=
  3 <= n <= 30 /\ size t = 2 ^ n /\ mod_ t = pm n /\ mask t = 2 ^ n - 1.

Lemma lookup_node_loop_spec n t m k (fuel : nat) s s1 :
  table_shape n t -> nodes_ok n (nodes t) m -> 0 <= s <= s1 -> s1 < 2 ^ n ->
  s1 - s < Z.of_nat fuel -> stop (nodes t) k (slot n (hv k) s1) = true ->
  (forall s', s <= s' < s1 -> stop (nodes t) k (slot n (hv k) s') = false) ->
  lookup_node_loop key_equal_func fuel t k (hv k) (slot n (hv k) s) s = Ok (slot n (hv k) s1).
Proof.
  intros (Hn & Hsz & Hmod & Hmask) Hok. revert s. induction fuel as [|fuel IH];
    intros s Hs Hs1 Hf Hstop Hnot; [lia|].
  simpl. destruct (slot_lookup n (nodes t) m (hv k) s ltac:(lia) Hok) as [nd Hnd].
  unfold get_node. rewrite Hnd. simpl.
  rewrite (matches_spec _ _ _ _ _ k Hok Hnd). simpl.
  assert (Hst : stop (nodes t) k (slot n (hv k) s) = (key_hash nd =? 0) || matches nd k).
  { unfold stop. by rewrite Hnd. }
  destruct (decide (s = s1)) as [->|Hne].
  - rewrite Hst in Hstop. destruct (key_hash nd =? 0); [done|]. simpl in Hstop. by rewrite Hstop.
  - rewrite Hnot in Hst by lia. symmetry in Hst. apply orb_false_iff in Hst as [-> ->].
    unfold next_index. rewrite Hmask, slot_step by lia.
    rewrite u32_small by (unfold UINT_MAX; assert (2 ^ n <= 2 ^ 30) by (apply Z.pow_le_mono_r; lia); lia).
    apply IH; try done; try lia. intros s' Hs'. apply Hnot. lia.
Qed.

(** A table with an empty bucket: every search stops. *)
Lemma first_stop n nds m k i nd :
  0 <= n -> nodes_ok n nds m -> nds !! i = Some nd -> key_hash nd = 0 ->
  exists s1, 0 <= s1 < 2 ^ n /\ stop nds k (slot n (hv k) s1) = true /\
    forall s', 0 <= s' < s1 -> stop nds k (slot n (hv k) s') = false.
Proof.
  intros Hn Hok Hi Hz.
  destruct (slot_cover n (hv k) i Hn) as (s0 & Hs0 & Heq).
  { rewrite <- (no_len _ _ _ Hok). apply lookup_lt_Some in Hi. lia. }
  destruct (least_index (fun s => stop nds k (slot n (hv k) s)) s0) as (s1 & Hs1 & Hst & Hno).
  - lia.
  - unfold stop. rewrite <- Heq, Nat2Z.id, Hi, Hz. done.
  - exists s1. split; [lia|done].
Qed.

(** What is at the bucket where the search stops. *)
Lemma stop_found n nds m k s1 k' v :
  0 <= n -> nodes_ok n nds m -> m !! repr k = Some (k', v) -> 0 <= s1 < 2 ^ n ->
  stop nds k (slot n (hv k) s1) = true ->
  (forall s', 0 <= s' < s1 -> stop nds k (slot n (hv k) s') = false) ->
  nds !! Z.to_nat (slot n (hv k) s1) = Some (mkHashNode (Some k') v (hv k)) /\ repr k' = repr k.
Proof.
  intros Hn Hok Hm Hs1 Hstop Hno.
  destruct (no_complete _ _ _ Hok _ _ _ Hm) as (Hrk & i & Hi).
  rewrite (hash_value_repr _ _ Hrk) in Hi. split; [|done].
  assert (Hlive : forall v h, h = hv k -> live (mkHashNode (Some k') v h) = true).
  { intros v' h ->. unfold live. simpl. pose proof (hash_value_ge k). apply Z.ltb_lt. lia. }
  unfold stop in Hstop. destruct (nds !! Z.to_nat (slot n (hv k) s1)) as [nd|] eqn:Hnd; [|done].
  apply orb_true_iff in Hstop as [Hz|Hmt]; zbool.
  - destruct (no_live _ _ _ Hok _ _ Hi (Hlive _ _ eq_refl)) as (k2 & [= <-] & _ & _ & Hp).
    rewrite (hash_value_repr _ _ Hrk) in Hp. destruct Hp as (s & Hs & Heq & Hpath).
    destruct (decide (s1 < s)) as [Hlt|Hge].
    + destruct (Hpath s1 ltac:(lia)) as (nd' & Hnd' & Hnz). congruence.
    + destruct (decide (s = s1)) as [->|Hne].
      * rewrite <- Heq, Nat2Z.id, Hi in Hnd. injection Hnd as <-. simpl in Hz.
        pose proof (hash_value_ge k). lia.
      * specialize (Hno s ltac:(lia)). unfold stop in Hno.
        rewrite <- Heq, Nat2Z.id, Hi in Hno. unfold matches in Hno. simpl in Hno.
        rewrite Z.eqb_refl, bool_decide_true, orb_true_r in Hno by done. done.
  - unfold matches in Hmt. destruct (key nd) as [k2|] eqn:Hk2; [|done].
    apply andb_true_iff in Hmt as [Hh Hb]. zbool. apply bool_decide_eq_true in Hb.
    assert (Hl : live nd = true).
    { unfold live. rewrite Hh. pose proof (hash_value_ge k). apply Z.ltb_lt. lia. }
    assert (Z.to_nat (slot n (hv k) s1) = i) as Hsi.
    { eapply (no_unique _ _ _ Hok); [exact Hnd|exact Hi|done|by apply Hlive|done|done|congruence]. }
    rewrite Hsi in Hnd. congruence.
Qed.

Lemma stop_absent n nds m k s1 :
  nodes_ok n nds m -> m !! repr k = None ->
  stop nds k (slot n (hv k) s1) = true ->
  exists nd, nds !! Z.to_nat (slot n (hv k) s1) = Some nd /\ key_hash nd = 0.
Proof.
  intros Hok Hm Hstop. unfold stop in Hstop.
  destruct (nds !! Z.to_nat (slot n (hv k) s1)) as [nd|] eqn:Hnd; [|done]. exists nd.
  split; [done|]. apply orb_true_iff in Hstop as [Hz|Hmt]; zbool; [done|].
  unfold matches in Hmt. destruct (key nd) as [k2|] eqn:Hk2; [|done].
  apply andb_true_iff in Hmt as [Hh Hb]. zbool. apply bool_decide_eq_true in Hb.
  assert (Hl : live nd = true).
  { unfold live. rewrite Hh. pose proof (hash_value_ge k). apply Z.ltb_lt. lia. }
  destruct (no_live _ _ _ Hok _ _ Hnd Hl) as (k3 & Hk3 & _ & Hm3 & _). congruence.
Qed.

(** * Lookup for insertion *)

(** The accumulated first tombstone before the [s]-th probe. *)
Definition tomb_ok n nds (h s : Z) (ft : option Z) : Prop :=
  match ft with
  | None => True
  | Some i => exists s2 nd, 0 <= s2 < s /\ i = slot n h s2 /\
      nds !! Z.to_nat i = Some nd /\ key_hash nd = 1
  end.

(** Where the loop ends: at a match, or at an unused bucket on the path of the key
    once the path has been seen to hold no match. *)
Definition insert_place n nds k (i s1 : Z) : Prop :=
  (i = slot n (hv k) s1 /\
   exists nd, nds !! Z.to_nat i = Some nd /\ matches nd k = true /\ live nd = true) \/
  (exists s2 nd nd1, 0 <= s2 <= s1 /\ i = slot n (hv k) s2 /\
   nds !! Z.to_nat i = Some nd /\ live nd = false /\
   nds !! Z.to_nat (slot n (hv k) s1) = Some nd1 /\ key_hash nd1 = 0).

Lemma matches_live nd k : matches nd k = true -> live nd = true.
Proof.
  unfold matches, live. destruct (key nd); [|done]. intros [Hh _]%andb_true_iff. zbool.
  pose proof (hash_value_ge k). apply Z.ltb_lt. lia.
Qed.

Lemma lookup_for_insertion_loop_spec n t m k (fuel : nat) s s1 ft :
  table_shape n t -> nodes_ok n (nodes t) m -> 0 <= s <= s1 -> s1 < 2 ^ n ->
  s1 - s < Z.of_nat fuel -> stop (nodes t) k (slot n (hv k) s1) = true ->
  (forall s', s <= s' < s1 -> stop (nodes t) k (slot n (hv k) s') = false) ->
  tomb_ok n (nodes t) (hv k) s ft ->
  exists i, lookup_node_for_insertion_loop key_equal_func fuel t k (hv k) (slot n (hv k) s) s ft
    = Ok i /\ insert_place n (nodes t) k i s1.
Proof.
  intros (Hn & Hsz & Hmod & Hmask) Hok. revert s ft. induction fuel as [|fuel IH];
    intros s ft Hs Hs1 Hf Hstop Hnot Hft; [lia|].
  simpl. destruct (slot_lookup n (nodes t) m (hv k) s ltac:(lia) Hok) as [nd Hnd].
  unfold get_node. rewrite Hnd. simpl.
  assert (Hst : stop (nodes t) k (slot n (hv k) s) = (key_hash nd =? 0) || matches nd k).
  { unfold stop. by rewrite Hnd. }
  destruct (key_hash nd =? 0) eqn:Hz; zbool.
  { assert (s1 = s) as ->.
    { destruct (decide (s = s1)) as [->|]; [done|]. rewrite Hnot in Hst by lia. done. }
    eexists. split; [done|]. right. destruct ft as [i|].
    - destruct Hft as (s2 & nd2 & Hs2 & -> & Hnd2 & H1). exists s2, nd2, nd.
      split_and!; try done; try lia. unfold live. by rewrite H1.
    - exists s, nd, nd. split_and!; try done; try lia. unfold live. by rewrite Hz. }
  rewrite (matches_spec _ _ _ _ _ k Hok Hnd). simpl. simpl in Hst.
  destruct (matches nd k) eqn:Hmt.
  { assert (s1 = s) as ->.
    { destruct (decide (s = s1)) as [->|]; [done|]. rewrite Hnot in Hst by lia. done. }
    eexists. split; [done|]. left. split; [done|]. exists nd.
    split_and!; [done..|by eapply matches_live]. }
  destruct (decide (s = s1)) as [->|Hne]; [congruence|].
  assert (Hu : u32 (s + 1) = s + 1).
  { apply u32_small. unfold UINT_MAX.
    assert (2 ^ n <= 2 ^ 30) by (apply Z.pow_le_mono_r; lia). lia. }
  unfold next_index. rewrite Hmask, slot_step, Hu by lia.
  apply IH; try done; try lia.
  { intros s' Hs'. apply Hnot. lia. }
  destruct (key_hash nd =? hv k) eqn:Hh.
  - destruct ft as [i|]; [|done]. destruct Hft as (s2 & nd2 & Hs2 & Hi). exists s2, nd2.
    split; [lia|done].
  - destruct ft as [i|].
    + destruct Hft as (s2 & nd2 & Hs2 & Hi). exists s2, nd2. split; [lia|done].
    + destruct (key_hash nd =? 1) eqn:H1; zbool; [|done]. exists s, nd.
      split_and!; try done; lia.
Qed.

(** * Updates of the nodes *)

(** A path survives any change that does not empty a bucket. *)
Lemma path_insert n nds h i j nd0 nd :
  nds !! j = Some nd0 -> (key_hash nd0 <> 0 -> key_hash nd <> 0) ->
  path n nds h i -> path n (<[j := nd]> nds) h i.
Proof.
  intros Hj Hnz (s & Hs & Heq & Hp). exists s. split_and!; try done; try lia.
  intros s' Hs'. destruct (Hp s' Hs') as (nd1 & Hnd1 & Hne).
  destruct (decide (Z.to_nat (slot n h s') = j)) as [Hd|Hd].
  - exists nd. rewrite Hd in *. rewrite list_lookup_insert_eq by (by eapply lookup_lt_Some).
    split; [done|]. apply Hnz. congruence.
  - exists nd1. by rewrite list_lookup_insert_ne.
Qed.

Lemma live_node k v : live (mkHashNode (V:=V) (Some k) v (hv k)) = true.
Proof. unfold live. simpl. pose proof (hash_value_ge k). apply Z.ltb_lt. lia. Qed.

(** A binding for a new key goes to a bucket of its path. *)
Lemma nodes_ok_insert_new n nds m k v s nd0 :
  0 <= n -> nodes_ok n nds m -> m !! repr k = None -> 0 <= s < 2 ^ n ->
  nds !! Z.to_nat (slot n (hv k) s) = Some nd0 -> live nd0 = false ->
  (forall s', 0 <= s' < s -> exists nd, nds !! Z.to_nat (slot n (hv k) s') = Some nd /\
     key_hash nd <> 0) ->
  nodes_ok n (<[Z.to_nat (slot n (hv k) s) := mkHashNode (Some k) v (hv k)]> nds)
    (<[repr k := (k, v)]> m).
Proof.
  intros Hn Hok Hm Hs Hnd0 Hdead Hpath. set (i := Z.to_nat (slot n (hv k) s)) in *.
  set (new := mkHashNode (Some k) v (hv k)).
  pose proof (hash_value_ge k) as Hge. pose proof (lookup_lt_Some _ _ _ Hnd0) as Hlt.
  assert (Hnot : forall j nd k', nds !! j = Some nd -> live nd = true -> key nd = Some k' ->
    repr k' <> repr k /\ j <> i).
  { intros j nd k' Hj Hl Hk'. split.
    - destruct (no_live _ _ _ Hok _ _ Hj Hl) as (k2 & Hk2 & _ & Hm2 & _). congruence.
    - intros ->. congruence. }
  split.
  - rewrite length_insert. apply Hok.
  - intros j nd. destruct (decide (j = i)) as [->|Hji].
    + rewrite list_lookup_insert_eq by done. intros [= <-]. simpl. lia.
    + rewrite list_lookup_insert_ne by done. apply Hok.
  - intros j nd Hj Hl. destruct (decide (j = i)) as [->|Hji].
    + rewrite list_lookup_insert_eq in Hj by done. injection Hj as <-. exists k. simpl.
      rewrite lookup_insert_eq. split_and!; try done.
      eapply path_insert; [done|by intros _; simpl; lia|]. exists s.
      pose proof (slot_range n (hv k) s Hn). split_and!; try done; lia.
    + rewrite list_lookup_insert_ne in Hj by done.
      destruct (no_live _ _ _ Hok _ _ Hj Hl) as (k2 & Hk2 & Hh2 & Hm2 & Hp2). exists k2.
      destruct (Hnot _ _ _ Hj Hl Hk2). split_and!; try done.
      * rewrite lookup_insert_ne by done. done.
      * eapply path_insert; [done| |done]. intros _. simpl. lia.
  - intros c k2 v2. destruct (decide (c = repr k)) as [->|Hc].
    + rewrite lookup_insert_eq. intros [= <- <-]. split; [done|]. exists i.
      by rewrite list_lookup_insert_eq.
    + rewrite lookup_insert_ne by done. intros Hm2.
      destruct (no_complete _ _ _ Hok _ _ _ Hm2) as (Hr & j & Hj). split; [done|]. exists j.
      rewrite list_lookup_insert_ne; [done|]. intros <-.
      rewrite Hnd0 in Hj. injection Hj as ->. by rewrite live_node in Hdead.
  - intros j1 j2 nd1 nd2 k1 k2 Hj1 Hj2 Hl1 Hl2 Hk1 Hk2 Hr.
    destruct (decide (j1 = i)) as [->|H1], (decide (j2 = i)) as [->|H2]; [done| | |].
    + rewrite list_lookup_insert_eq in Hj1 by done. injection Hj1 as <-.
      rewrite list_lookup_insert_ne in Hj2 by done. simpl in Hk1. simplify_eq.
      by destruct (Hnot _ _ _ Hj2 Hl2 Hk2).
    + rewrite list_lookup_insert_eq in Hj2 by done. injection Hj2 as <-.
      rewrite list_lookup_insert_ne in Hj1 by done. simpl in Hk2. simplify_eq.
      by destruct (Hnot _ _ _ Hj1 Hl1 Hk1).
    + rewrite list_lookup_insert_ne in Hj1, Hj2 by done. by eapply (no_unique _ _ _ Hok).
Qed.

(** A new value, or a new key that denotes the same thing, for a binding. *)
Lemma nodes_ok_update n nds m i k0 v0 k v :
  nodes_ok n nds m -> nds !! i = Some (mkHashNode (Some k0) v0 (hv k0)) -> repr k = repr k0 ->
  nodes_ok n (<[i := mkHashNode (Some k) v (hv k0)]> nds) (<[repr k := (k, v)]> m).
Proof.
  intros Hok Hi Hr. pose proof (lookup_lt_Some _ _ _ Hi) as Hlt.
  pose proof (hash_value_ge k0) as Hge. pose proof (hash_value_repr _ _ Hr) as Hhr.
  assert (Hnz : forall (x : Prop), x -> key_hash (mkHashNode (V:=V) (Some k) v (hv k0)) <> 0).
  { simpl. intros. lia. }
  assert (Hnot : forall j nd k', nds !! j = Some nd -> live nd = true -> key nd = Some k' ->
    j <> i -> repr k' <> repr k).
  { intros j nd k' Hj Hl Hk' Hji Hrk. apply Hji.
    eapply (no_unique _ _ _ Hok); [exact Hj|exact Hi|done|apply live_node|done|done|congruence]. }
  split.
  - rewrite length_insert. apply Hok.
  - intros j nd. destruct (decide (j = i)) as [->|Hji].
    + rewrite list_lookup_insert_eq by done. intros [= <-]. simpl. lia.
    + rewrite list_lookup_insert_ne by done. apply Hok.
  - intros j nd Hj Hl. destruct (decide (j = i)) as [->|Hji].
    + rewrite list_lookup_insert_eq in Hj by done. injection Hj as <-. exists k. simpl.
      rewrite lookup_insert_eq. split_and!; try done. eapply path_insert; [done|apply Hnz|].
      destruct (no_live _ _ _ Hok _ _ Hi (live_node _ _)) as (k2 & [= <-] & _ & _ & Hp).
      by rewrite Hhr.
    + rewrite list_lookup_insert_ne in Hj by done.
      destruct (no_live _ _ _ Hok _ _ Hj Hl) as (k2 & Hk2 & Hh2 & Hm2 & Hp2). exists k2.
      split_and!; try done.
      * rewrite lookup_insert_ne; [done|]. intros Heq. by eapply (Hnot j nd k2).
      * eapply path_insert; [done|apply Hnz|done].
  - intros c k2 v2. destruct (decide (c = repr k)) as [->|Hc].
    + rewrite lookup_insert_eq. intros [= <- <-]. split; [done|]. exists i.
      rewrite list_lookup_insert_eq by done. by rewrite Hhr.
    + rewrite lookup_insert_ne by done. intros Hm2.
      destruct (no_complete _ _ _ Hok _ _ _ Hm2) as (Hr2 & j & Hj). split; [done|]. exists j.
      rewrite list_lookup_insert_ne; [done|]. intros <-. simplify_eq.
  - intros j1 j2 nd1 nd2 k1 k2 Hj1 Hj2 Hl1 Hl2 Hk1 Hk2 Hr12.
    destruct (decide (j1 = i)) as [->|H1], (decide (j2 = i)) as [->|H2]; [done| | |].
    + rewrite list_lookup_insert_eq in Hj1 by done. injection Hj1 as <-.
      rewrite list_lookup_insert_ne in Hj2 by done. simpl in Hk1. simplify_eq.
      by destruct (Hnot _ _ _ Hj2 Hl2 Hk2).
    + rewrite list_lookup_insert_eq in Hj2 by done. injection Hj2 as <-.
      rewrite list_lookup_insert_ne in Hj1 by done. simpl in Hk2. simplify_eq.
      by destruct (Hnot _ _ _ Hj1 Hl1 Hk1).
    + rewrite list_lookup_insert_ne in Hj1, Hj2 by done. by eapply (no_unique _ _ _ Hok).
Qed.

(** A tombstone takes the place of a binding. *)
Lemma nodes_ok_remove n nds m i k0 v0 :
  nodes_ok n nds m -> nds !! i = Some (mkHashNode (Some k0) v0 (hv k0)) ->
  nodes_ok n (<[i := mkHashNode None None 1]> nds) (delete (repr k0) m).
Proof.
  intros Hok Hi. pose proof (lookup_lt_Some _ _ _ Hi) as Hlt.
  assert (Hdead : live (mkHashNode (K:=K) (V:=V) None None 1) = false) by done.
  assert (Hother : forall j nd, <[i := mkHashNode None None 1]> nds !! j = Some nd ->
    live nd = true -> j <> i /\ nds !! j = Some nd).
  { intros j nd Hj Hl. destruct (decide (j = i)) as [->|Hji].
    - rewrite list_lookup_insert_eq in Hj by done. congruence.
    - by rewrite list_lookup_insert_ne in Hj. }
  assert (Hnot : forall j nd k', nds !! j = Some nd -> live nd = true -> key nd = Some k' ->
    j <> i -> repr k0 <> repr k').
  { intros j nd k' Hj Hl Hk' Hji Hrk. apply Hji.
    eapply (no_unique _ _ _ Hok); [exact Hj|exact Hi|done|apply live_node|done|done|congruence]. }
  split.
  - rewrite length_insert. apply Hok.
  - intros j nd. destruct (decide (j = i)) as [->|Hji].
    + rewrite list_lookup_insert_eq by done. by intros [= <-].
    + rewrite list_lookup_insert_ne by done. apply Hok.
  - intros j nd Hj Hl. destruct (Hother _ _ Hj Hl) as [Hji Hj'].
    destruct (no_live _ _ _ Hok _ _ Hj' Hl) as (k2 & Hk2 & Hh2 & Hm2 & Hp2). exists k2.
    split_and!; try done.
    + rewrite lookup_delete_ne by (by eapply Hnot). done.
    + by eapply path_insert.
  - intros c k2 v2. rewrite lookup_delete_Some. intros [Hc Hm2].
    destruct (no_complete _ _ _ Hok _ _ _ Hm2) as (Hr2 & j & Hj). split; [done|]. exists j.
    rewrite list_lookup_insert_ne; [done|]. intros <-. simplify_eq.
  - intros j1 j2 nd1 nd2 k1 k2 Hj1 Hj2 Hl1 Hl2 Hk1 Hk2 Hr12.
    destruct (Hother _ _ Hj1 Hl1), (Hother _ _ Hj2 Hl2). by eapply (no_unique _ _ _ Hok).
Qed.

(** All buckets empty. *)
Lemma nodes_ok_empty n : 0 <= n -> nodes_ok n (replicate (Z.to_nat (2 ^ n)) empty_node) ∅.
Proof.
  intros Hn. pose proof (Z.pow_pos_nonneg 2 n).
  assert (Hnone : forall i nd, replicate (Z.to_nat (2 ^ n)) (@empty_node K V) !! i = Some nd ->
    nd = empty_node) by (intros i nd [-> _]%lookup_replicate; done).
  split; try done.
  - rewrite length_replicate. lia.
  - intros i nd ->%Hnone. done.
  - intros i nd ->%Hnone. done.
  - intros i j nd1 nd2 k1 k2 ->%Hnone _. done.
Qed.

(** * Counts *)

Definition count (p : T_KRHashNode (K:=K) (V:=V) -> bool) nds : Z :=
  Z.of_nat (length (List.filter p nds)).
Definition occupied nd : bool := negb (key_hash nd =? 0).
Definition b2z (b : bool) : Z := if b then 1 else 0.

Lemma count_insert p nds i nd0 nd :
  nds !! i = Some nd0 -> count p (<[i := nd]> nds) = count p nds - b2z (p nd0) + b2z (p nd).
Proof.
  unfold count. revert i. induction nds as [|x nds IH]; intros [|i] Hi; simpl in *; try done.
  - injection Hi as ->. destruct (p nd0), (p nd); simpl; lia.
  - specialize (IH i Hi). destruct (p x); simpl; lia.
Qed.

Lemma count_le_length p nds : 0 <= count p nds <= Z.of_nat (length nds).
Proof.
  unfold count. induction nds as [|x nds IH]; simpl; [lia|]. destruct (p x); simpl; lia.
Qed.

Lemma count_empty p j : p empty_node = false -> count p (replicate j empty_node) = 0.
Proof. intros Hp. unfold count. induction j as [|j IH]; simpl; [done|]. by rewrite Hp. Qed.

(** Fewer nodes than buckets satisfy [p]: some bucket does not. *)
Lemma count_lt p nds :
  count p nds < Z.of_nat (length nds) -> exists i nd, nds !! i = Some nd /\ p nd = false.
Proof.
  unfold count. induction nds as [|x nds IH]; simpl; [lia|]. intros Hlt.
  destruct (p x) eqn:Hp; simpl in *.
  - destruct IH as (i & nd & Hi & Hnd); [lia|]. by exists (S i), nd.
  - by exists 0%nat, x.
Qed.

Lemma live_occupied nd : live nd = true -> occupied nd = true.
Proof. unfold live, occupied. intros ?. zbool. apply negb_true_iff, Z.eqb_neq. lia. Qed.

Lemma count_live_occupied nds : count live nds <= count occupied nds.
Proof.
  unfold count. induction nds as [|x nds IH]; simpl; [lia|].
  pose proof (live_occupied x) as Ho. destruct (live x), (occupied x); simpl; try lia.
Qed.

(** * The table invariant

    [table_ok t m]: the table holds the map [m]; its counters count the nodes in use
    and the nodes not empty.  [load_ok]: it has room, so that every search ends. *)
Record table_ok (n : Z) t m : Prop := {
  tk_shape : table_shape n t;
  tk_nodes : nodes_ok n (nodes t) m;
  tk_size : nnodes t = Z.of_nat (base.size m);
  tk_live : nnodes t = count live (nodes t);
  tk_occ : noccupied t = count occupied (nodes t)
}.

Definition load_ok t : Prop := noccupied t + noccupied t / 16 < size t.

(** The bound on the number of entries: 2^28 (the [int] sizes are then below 2^31). *)
Definition MAX_ENTRIES : Z := 268435456.

Definition hashtable_rep t m : Prop :=
  exists n, table_ok n t m /\ load_ok t /\ Z.of_nat (base.size m) <= MAX_ENTRIES.

Lemma load_free n t m : table_ok n t m -> load_ok t -> exists i nd,
  nodes t !! i = Some nd /\ key_hash nd = 0.
Proof.
  intros Hok Hl. destruct (count_lt occupied (nodes t)) as (i & nd & Hi & Hnd).
  - rewrite <- (tk_occ _ _ _ Hok), (no_len _ _ _ (tk_nodes _ _ _ Hok)).
    destruct (tk_shape _ _ _ Hok) as (_ & <- & _). unfold load_ok in Hl.
    pose proof (count_le_length occupied (nodes t)) as Hc. rewrite <- (tk_occ _ _ _ Hok) in Hc.
    pose proof (Z.div_pos (noccupied t) 16). lia.
  - exists i, nd. split; [done|]. unfold occupied in Hnd. apply negb_false_iff in Hnd. by zbool.
Qed.

(** * Rebuilding *)

Lemma resize_probe_spec n t nds m k (fuel : nat) s s1 :
  table_shape n t -> nodes_ok n nds m -> 0 <= s <= s1 -> s1 < 2 ^ n ->
  s1 - s < Z.of_nat fuel ->
  (exists nd, nds !! Z.to_nat (slot n (hv k) s1) = Some nd /\ key_hash nd = 0) ->
  (forall s', s <= s' < s1 -> exists nd, nds !! Z.to_nat (slot n (hv k) s') = Some nd /\
     key_hash nd <> 0) ->
  resize_probe fuel t nds (slot n (hv k) s) s = Ok (slot n (hv k) s1).
Proof.
  intros (Hn & Hsz & Hmod & Hmask) Hok. revert s. induction fuel as [|fuel IH];
    intros s Hs Hs1 Hf Hend Hnot; [lia|]. simpl.
  destruct (decide (s = s1)) as [->|Hne].
  - destruct Hend as (nd & -> & Hz). simpl. by rewrite Hz.
  - destruct (Hnot s ltac:(lia)) as (nd & -> & Hz). simpl. apply Z.eqb_neq in Hz as ->.
    unfold next_index. rewrite Hmask, slot_step by lia.
    rewrite u32_small by (unfold UINT_MAX; assert (2 ^ n <= 2 ^ 30) by (apply Z.pow_le_mono_r; lia); lia).
    apply IH; try done; try lia. intros s' Hs'. apply Hnot. lia.
Qed.

#[local] Arguments resize_probe : simpl never.
#[local] Arguments lookup_node_loop : simpl never.
#[local] Arguments lookup_node_for_insertion_loop : simpl never.

(** The first empty bucket of a path, when there is one. *)
Lemma first_empty n nds m k i nd :
  0 <= n -> nodes_ok n nds m -> nds !! i = Some nd -> key_hash nd = 0 ->
  exists s1, 0 <= s1 < 2 ^ n /\
    (exists nd, nds !! Z.to_nat (slot n (hv k) s1) = Some nd /\ key_hash nd = 0) /\
    forall s', 0 <= s' < s1 -> exists nd, nds !! Z.to_nat (slot n (hv k) s') = Some nd /\
      key_hash nd <> 0.
Proof.
  intros Hn Hok Hi Hz.
  destruct (slot_cover n (hv k) i Hn) as (s0 & Hs0 & Heq).
  { rewrite <- (no_len _ _ _ Hok). apply lookup_lt_Some in Hi. lia. }
  destruct (least_index (fun s => match nds !! Z.to_nat (slot n (hv k) s) with
    | Some nd => key_hash nd =? 0 | None => false end) s0) as (s1 & Hs1 & Hst & Hno).
  - lia.
  - rewrite <- Heq, Nat2Z.id, Hi, Hz. done.
  - exists s1. split; [lia|]. split.
    + destruct (slot_lookup n nds m (hv k) s1 Hn Hok) as [nd1 Hnd1]. rewrite Hnd1 in Hst.
      exists nd1. by zbool.
    + intros s' Hs'. specialize (Hno s' Hs').
      destruct (slot_lookup n nds m (hv k) s' Hn Hok) as [nd1 Hnd1]. rewrite Hnd1 in Hno.
      exists nd1. by zbool.
Qed.

(** The nodes in use, as bindings. *)
Definition binding nd : option (C * (K * option V)) :=
  match key nd with Some k => Some (repr k, (k, value nd)) | None => None end.

Fixpoint bindings nds : list (C * (K * option V)) :=
  match nds with
  | [] => []
  | nd :: nds' =>
      if live nd then
        match binding nd with Some b => b :: bindings nds' | None => bindings nds' end
      else bindings nds'
  end.

(** Each node in use carries the hash of its key. *)
Definition well_hashed nd : Prop :=
  live nd = true -> exists k, nd = mkHashNode (Some k) (value nd) (hv k).

Lemma resize_loop_spec n t old nds m :
  table_shape n t -> nodes_ok n nds m -> Forall well_hashed old ->
  NoDup (bindings old).*1 -> (forall c, c ∈ (bindings old).*1 -> m !! c = None) ->
  count occupied nds = count live nds ->
  count live nds + count live old < 2 ^ n ->
  exists nds' m', resize_loop t old nds = Ok nds' /\ nodes_ok n nds' m' /\
    (forall c, m' !! c = match (list_to_map (bindings old) : gmap C _) !! c with
                         | Some b => Some b | None => m !! c end) /\
    count live nds' = count live nds + count live old /\
    count occupied nds' = count live nds' /\
    Z.of_nat (base.size m') = Z.of_nat (base.size m) + count live old.
Proof.
  intros Hshape. revert nds m. induction old as [|nd old IH];
    intros nds m Hok Hwh Hnd Hfresh Hocc Hcnt.
  { exists nds, m. unfold count in *. simpl. rewrite !Z.add_0_r. split_and!; try done. }
  apply Forall_cons in Hwh as [Hwh1 Hwh]. simpl.
  assert (Hlive : (key_hash nd <=? 1) = negb (live nd)).
  { unfold live. rewrite Z.leb_antisym. done. }
  assert (Hc0 : count live (nd :: old) = b2z (live nd) + count live old).
  { unfold count. simpl. destruct (live nd); simpl; lia. }
  rewrite Hlive, Hc0 in *. destruct (live nd) eqn:Hl; simpl.
  2:{ simpl in Hnd, Hfresh. rewrite Hl in Hnd, Hfresh.
      destruct (IH nds m) as (nds' & m' & H'); try done. by exists nds', m'. }
  destruct (Hwh1 Hl) as [k Hk]. destruct Hshape as (Hn & Hsz & Hmod & Hmask).
  destruct (pm_bound n ltac:(lia)) as [_ Hpm].
  rewrite Hmod. assert ((pm n =? 0) = false) as -> by (apply Z.eqb_neq; lia).
  assert (Hkh : key_hash nd = hv k) by (by rewrite Hk).
  simpl in Hnd, Hfresh. rewrite Hl in Hnd, Hfresh. unfold binding in *.
  assert (Hkey : key nd = Some k) by (by rewrite Hk). rewrite Hkey in *.
  csimpl in *. apply NoDup_cons in Hnd as [Hnotin Hnd].
  destruct (count_lt occupied nds) as (j & nde & Hj & Hnde).
  { rewrite Hocc, (no_len _ _ _ Hok). pose proof (count_le_length live old). lia. }
  assert (Hz : key_hash nde = 0).
  { unfold occupied in Hnde. apply negb_false_iff in Hnde. by zbool. }
  destruct (first_empty n nds m k j nde ltac:(lia) Hok Hj Hz) as (s1 & Hs1 & Hend & Hpath).
  rewrite Hkh, <- slot_0 by lia.
  rewrite (resize_probe_spec n t nds m k _ 0 s1); [|done|done|lia|lia|rewrite Hsz; lia|done|done].
  change (Ok (slot n (hv k) s1) ≫= _) with
    (resize_loop t old (<[Z.to_nat (slot n (hv k) s1) := nd]> nds)).
  destruct Hend as (nd1 & Hnd1 & Hz1).
  assert (Hl1 : live nd1 = false) by (unfold live; by rewrite Hz1).
  assert (Ho1 : occupied nd1 = false) by (unfold occupied; by rewrite Hz1).
  destruct (IH (<[Z.to_nat (slot n (hv k) s1) := nd]> nds)
    (<[repr k := (k, value nd)]> m)) as (nds' & m' & Hr & Hok' & Hm' & Hc1 & Hc2 & Hc3).
  - replace (<[Z.to_nat (slot n (hv k) s1) := nd]> nds) with
      (<[Z.to_nat (slot n (hv k) s1) := mkHashNode (Some k) (value nd) (hv k)]> nds) by congruence.
    eapply nodes_ok_insert_new; try done; [lia|]. apply Hfresh. set_solver.
  - done.
  - done.
  - intros c Hc. rewrite lookup_insert_ne; [apply Hfresh; set_solver|set_solver].
  - rewrite !(count_insert _ _ _ _ _ Hnd1), Hl1, Ho1, Hl, Hocc.
    by rewrite (live_occupied _ Hl).
  - rewrite (count_insert _ _ _ _ _ Hnd1), Hl1, Hl. simpl in *. lia.
  - exists nds', m'. rewrite (count_insert _ _ _ _ _ Hnd1), Hl1, Hl in Hc1.
    split_and!; try done.
    + intros c. rewrite Hm'. csimpl. destruct (decide (c = repr k)) as [->|Hc].
      * rewrite !lookup_insert_eq. by rewrite (not_elem_of_list_to_map_1 _ _ Hnotin).
      * by rewrite !lookup_insert_ne.
    + simpl in *. lia.
    + rewrite Hc3, map_size_insert_None by (apply Hfresh; set_solver). simpl. lia.
Qed.

Lemma elem_of_bindings nds c b :
  (c, b) ∈ bindings nds <-> exists i nd, nds !! i = Some nd /\ live nd = true /\
    binding nd = Some (c, b).
Proof.
  induction nds as [|x nds IH]; simpl.
  { split; [by intros ?%elem_of_nil|]. by intros (i & nd & Hi & _). }
  assert (Hcons : (exists i nd, (x :: nds) !! i = Some nd /\ live nd = true /\
      binding nd = Some (c, b)) <-> (live x = true /\ binding x = Some (c, b)) \/
      (exists i nd, nds !! i = Some nd /\ live nd = true /\ binding nd = Some (c, b))).
  { split.
    - intros ([|i] & nd & Hi & Hl & Hb); simpl in Hi; [left; by simplify_eq|right; eauto].
    - intros [[Hl Hb]|(i & nd & Hi & Hl & Hb)]; [by exists 0%nat, x|by exists (S i), nd]. }
  rewrite Hcons, <- IH. clear Hcons. destruct (live x).
  - destruct (binding x) as [b'|]; [|naive_solver].
    rewrite elem_of_cons. naive_solver.
  - naive_solver.
Qed.

Lemma bindings_NoDup nds :
  (forall i j nd1 nd2 k1 k2, nds !! i = Some nd1 -> nds !! j = Some nd2 ->
    live nd1 = true -> live nd2 = true -> key nd1 = Some k1 -> key nd2 = Some k2 ->
    repr k1 = repr k2 -> i = j) ->
  NoDup (bindings nds).*1.
Proof.
  induction nds as [|x nds IH]; intros Huniq; simpl; [constructor|].
  assert (Hnd : NoDup (bindings nds).*1).
  { apply IH. intros i j nd1 nd2 k1 k2 Hi Hj Hl1 Hl2 Hk1 Hk2 Hr.
    assert (S i = S j) by (by eapply Huniq). lia. }
  destruct (live x) eqn:Hl; [|done]. unfold binding. destruct (key x) as [k|] eqn:Hk; [|done].
  csimpl. constructor; [|done]. intros ([c b] & Hc & Hin)%list_elem_of_fmap. simpl in Hc. subst c.
  apply elem_of_bindings in Hin as (i & nd & Hi & Hl' & Hb). unfold binding in Hb.
  destruct (key nd) as [k'|] eqn:Hk'; simplify_eq.
  assert (0 = S i)%nat by (by eapply Huniq). lia.
Qed.

Lemma bindings_map n nds m :
  nodes_ok n nds m -> NoDup (bindings nds).*1 /\ list_to_map (bindings nds) = m.
Proof.
  intros Hok. assert (Hnd : NoDup (bindings nds).*1) by (apply bindings_NoDup, Hok).
  split; [done|]. apply map_eq. intros c. apply option_eq. intros [k v].
  rewrite <- elem_of_list_to_map by done. rewrite elem_of_bindings. split.
  - intros (i & nd & Hi & Hl & Hb). destruct (no_live _ _ _ Hok _ _ Hi Hl) as (k' & Hk & _ & Hm & _).
    unfold binding in Hb. rewrite Hk in Hb. by simplify_eq.
  - intros Hm. destruct (no_complete _ _ _ Hok _ _ _ Hm) as (<- & i & Hi).
    exists i, (mkHashNode (Some k) v (hv k)). split; [done|]. split; [apply live_node|done].
Qed.

Lemma nodes_ok_hashed n nds m : nodes_ok n nds m -> Forall well_hashed nds.
Proof.
  intros Hok. apply Forall_lookup. intros i nd Hi Hl.
  destruct (no_live _ _ _ Hok _ _ Hi Hl) as (k & Hk & Hh & _). exists k.
  destruct nd; simpl in *. congruence.
Qed.

(** The sizes that go with a shift. *)
Definition with_shift t (n : Z) : T_KRHashTable :=
  mkHashTable (2 ^ n) (pm n) (2 ^ n - 1) (nnodes t) (noccupied t) (nodes t) (ref_count t)
    (key_destroy_func t) (value_destroy_func t).

Lemma set_shift_spec t n : 3 <= n <= 30 -> kr_hashtable_set_shift t n = Ok (with_shift t n).
Proof.
  intros Hn. unfold kr_hashtable_set_shift. destruct (pm_bound n ltac:(lia)) as [-> _]. simpl.
  assert (Hp30 : 2 ^ n <= 2 ^ 30) by (apply Z.pow_le_mono_r; lia).
  change (2 ^ 30) with 1073741824 in Hp30. pose proof (Z.pow_pos_nonneg 2 n).
  rewrite shift_mask_0, Z.shiftl_mul_pow2, Z.mul_1_l by lia.
  rewrite i32_small by (unfold INT_MIN, INT_MAX; lia). done.
Qed.

(** Rebuilding keeps the map and leaves room. *)
Lemma resize_spec n t m :
  table_ok n t m -> Z.of_nat (base.size m) <= MAX_ENTRIES ->
  exists t' n', kr_hashtable_resize t = Ok t' /\ table_ok n' t' m /\ load_ok t' /\
    key_destroy_func t' = key_destroy_func t /\ value_destroy_func t' = value_destroy_func t.
Proof.
  intros [Hsh Hok Hsz Hlive Hocc] Hmax. unfold MAX_ENTRIES in Hmax.
  unfold kr_hashtable_resize, kr_hashtable_set_shift_from_size, kr_hashtable_find_closest_shift.
  rewrite i32_small by (unfold INT_MIN, INT_MAX; lia).
  destruct (find_closest_shift_spec 32 (nnodes t * 2) 0) as (j & -> & Hj & Hlt & Hge); [|lia|].
  { change (2 ^ (Z.of_nat 32 - 1)) with 2147483648. lia. }
  assert (Hj30 : j <= 30).
  { destruct (decide (j <= 30)) as [|Hgt]; [done|]. specialize (Hge ltac:(lia)).
    assert (2 ^ 30 <= 2 ^ (j - 1)) by (apply Z.pow_le_mono_r; lia).
    change (2 ^ 30) with 1073741824 in *. lia. }
  set (n' := Z.max j 3). assert (Hn' : 3 <= n' <= 30) by lia.
  assert (Hlt' : nnodes t * 2 < 2 ^ n').
  { assert (2 ^ j <= 2 ^ n') by (apply Z.pow_le_mono_r; lia). lia. }
  change (Ok (0 + j) ≫= (fun shift => kr_hashtable_set_shift t (Z.max shift HASH_TABLE_MIN_SHIFT)))
    with (kr_hashtable_set_shift t n').
  rewrite set_shift_spec by done. set (t1 := with_shift t n').
  unfold mbind at 1, res_bind at 1.
  destruct Hsh as (Hn & Hs & Hmod & Hmask).
  change (nodes t1) with (nodes t). replace (take (Z.to_nat (size t)) (nodes t)) with (nodes t).
  2:{ symmetry. apply take_ge. pose proof (no_len _ _ _ Hok). lia. }
  destruct (bindings_map _ _ _ Hok) as [Hbnd Hbm].
  assert (Hce : forall p : T_KRHashNode (K:=K) (V:=V) -> bool, p empty_node = false ->
    count p (replicate (Z.to_nat (size t1)) empty_node) = 0) by (intros; by apply count_empty).
  destruct (resize_loop_spec n' t1 (nodes t) (replicate (Z.to_nat (size t1)) empty_node) ∅)
    as (nds' & m' & Hr & Hok' & Hm' & Hc1 & Hc2 & Hc3).
  - done.
  - apply nodes_ok_empty. lia.
  - by eapply nodes_ok_hashed.
  - done.
  - intros c _. apply lookup_empty.
  - by rewrite !Hce.
  - rewrite Hce, <- Hlive by done. lia.
  - assert (m' = m) as ->.
    { apply map_eq. intros c. rewrite Hm', Hbm, lookup_empty. by destruct (m !! c). }
    rewrite Hr. change (Ok nds' ≫= _) with
      (Ok (set_counts (set_nodes t1 nds') (nnodes t1) (nnodes t1))).
    rewrite Hce in Hc1 by done. rewrite Hlive in *.
    eexists _, n'. split; [done|]. split; [split|]; simpl; try done.
    + unfold table_shape. by rewrite Hlive.
    + rewrite Hlive. lia.
    + rewrite Hlive. lia.
    + unfold load_ok. simpl. rewrite Hlive. split; [|done].
      pose proof (count_le_length live (nodes t)) as Hcl.
      pose proof (Z.div_le_upper_bound (count live (nodes t)) 16 (count live (nodes t))). lia.
Qed.

Lemma maybe_resize_spec n t m :
  table_ok n t m -> Z.of_nat (base.size m) <= MAX_ENTRIES ->
  exists t' n', kr_hashtable_maybe_resize t = Ok t' /\ table_ok n' t' m /\ load_ok t' /\
    key_destroy_func t' = key_destroy_func t /\ value_destroy_func t' = value_destroy_func t.
Proof.
  intros Hok Hmax. unfold kr_hashtable_maybe_resize.
  destruct (_ || _) eqn:Hb; [by eapply resize_spec|].
  exists t, n. split_and!; try done. apply orb_false_iff in Hb as [_ Hle]. zbool.
  unfold load_ok. pose proof (count_le_length occupied (nodes t)) as Hc.
  rewrite <- (tk_occ _ _ _ Hok), (no_len _ _ _ (tk_nodes _ _ _ Hok)) in Hc.
  destruct (tk_shape _ _ _ Hok) as (Hn & Hs & _).
  assert (2 ^ n <= 2 ^ 30) by (apply Z.pow_le_mono_r; lia).
  change (2 ^ 30) with 1073741824 in *.
  rewrite Z.quot_div_nonneg in Hle by lia.
  pose proof (Z.div_le_upper_bound (noccupied t) 16 67108864).
  pose proof (Z.div_pos (noccupied t) 16).
  rewrite i32_small in Hle by (unfold INT_MIN, INT_MAX; lia). lia.
Qed.

(** * The operations on the represented map *)

#[local] Arguments kr_hashtable_maybe_resize : simpl never.

Definition same_destroy t t' : Prop :=
  key_destroy_func t' = key_destroy_func t /\ value_destroy_func t' = value_destroy_func t.

Lemma live_hv nd k : key_hash nd = hv k -> live nd = true.
Proof. unfold live. intros ->. pose proof (hash_value_ge k). apply Z.ltb_lt. lia. Qed.

(** The calls that destroy a binding. *)
Definition destroyed t (notify : bool) (b : K * option V) : list event :=
  (if notify && key_destroy_func t then [KeyDestroy (Some b.1)] else []) ++
  (if notify && value_destroy_func t then [ValueDestroy b.2] else []).

Lemma lookup_node_spec t m k :
  hashtable_rep t m ->
  exists i nd, kr_hashtable_lookup_node hash_func key_equal_func t k = Ok i /\ 0 <= i /\
    nodes t !! Z.to_nat i = Some nd /\
    match m !! repr k with
    | Some (k', v) => nd = mkHashNode (Some k') v (hv k) /\ repr k' = repr k
    | None => key_hash nd = 0
    end.
Proof.
  intros (n & Hok & Hload & _). destruct (load_free _ _ _ Hok Hload) as (j & ndj & Hj & Hz).
  destruct (tk_shape _ _ _ Hok) as (Hn & Hsz & Hmod & Hmask).
  destruct (first_stop n _ _ k _ _ ltac:(lia) (tk_nodes _ _ _ Hok) Hj Hz)
    as (s1 & Hs1 & Hst & Hno).
  unfold kr_hashtable_lookup_node. destruct (pm_bound n ltac:(lia)) as [_ Hpm].
  rewrite Hmod. assert ((pm n =? 0) = false) as -> by (apply Z.eqb_neq; lia).
  rewrite <- slot_0 by lia.
  rewrite (lookup_node_loop_spec n t m k _ 0 s1);
    [|done|apply Hok|lia|lia|rewrite Hsz; lia|done|done].
  pose proof (slot_range n (hv k) s1 ltac:(lia)).
  destruct (m !! repr k) as [[k' v]|] eqn:Hm.
  - destruct (stop_found n _ _ k s1 k' v ltac:(lia) (tk_nodes _ _ _ Hok) Hm Hs1 Hst Hno)
      as [Hnd Hr]. eexists _, _. split_and!; [done|lia|done..].
  - destruct (stop_absent n _ _ k s1 (tk_nodes _ _ _ Hok) Hm Hst) as (nd & Hnd & Hz0).
    eexists _, _. split_and!; [done|lia|done..].
Qed.

Lemma lookup_extended_spec t m k :
  hashtable_rep t m ->
  kr_hashtable_lookup_extended hash_func key_equal_func (Some t) k =
  Ok ((fun b => (Some b.1, b.2)) <$> m !! repr k).
Proof.
  intros Hrep. destruct (lookup_node_spec t m k Hrep) as (i & nd & Hi & _ & Hnd & Hm).
  unfold kr_hashtable_lookup_extended, get_node. rewrite Hi. simpl. rewrite Hnd. simpl.
  destruct (m !! repr k) as [[k' v]|]; simpl.
  - destruct Hm as [-> _]. simpl. pose proof (hash_value_ge k).
    assert ((hv k =? 0) = false) as -> by (apply Z.eqb_neq; lia). done.
  - by rewrite Hm.
Qed.

Lemma lookup_spec t m k :
  hashtable_rep t m ->
  kr_hashtable_lookup hash_func key_equal_func (Some t) k = Ok (m !! repr k ≫= snd).
Proof.
  intros Hrep. destruct (lookup_node_spec t m k Hrep) as (i & nd & Hi & _ & Hnd & Hm).
  unfold kr_hashtable_lookup, get_node. rewrite Hi. simpl. rewrite Hnd. simpl.
  destruct (m !! repr k) as [[k' v]|]; simpl.
  - destruct Hm as [-> _]. simpl. pose proof (hash_value_ge k).
    assert ((hv k =? 0) = false) as -> by (apply Z.eqb_neq; lia). done.
  - by rewrite Hm.
Qed.

(** The key that stays: the new one for [replace], the old one for [insert]. *)
Definition kept_key (keep_new_key : bool) (old : option (K * option V)) k : K :=
  match old with
  | Some (k', _) => if keep_new_key then k else k'
  | None => k
  end.

Definition insert_events t (keep_new_key : bool) (old : option (K * option V)) k : list event :=
  match old with
  | Some (k', v') =>
      (if key_destroy_func t then [KeyDestroy (Some (if keep_new_key then k' else k))] else []) ++
      (if value_destroy_func t then [ValueDestroy v'] else [])
  | None => []
  end.

Lemma insert_place_spec t m k :
  hashtable_rep t m ->
  exists n i s1, kr_hashtable_lookup_node_for_insertion hash_func key_equal_func t k =
      Ok (i, hv k) /\ table_ok n t m /\ 0 <= s1 < 2 ^ n /\ insert_place n (nodes t) k i s1 /\
      forall s', 0 <= s' < s1 -> stop (nodes t) k (slot n (hv k) s') = false.
Proof.
  intros (n & Hok & Hload & _). destruct (load_free _ _ _ Hok Hload) as (j & ndj & Hj & Hz).
  destruct (tk_shape _ _ _ Hok) as (Hn & Hsz & Hmod & Hmask).
  destruct (first_stop n _ _ k _ _ ltac:(lia) (tk_nodes _ _ _ Hok) Hj Hz)
    as (s1 & Hs1 & Hst & Hno).
  unfold kr_hashtable_lookup_node_for_insertion. destruct (pm_bound n ltac:(lia)) as [_ Hpm].
  rewrite Hmod. assert ((pm n =? 0) = false) as -> by (apply Z.eqb_neq; lia).
  rewrite <- slot_0 by lia.
  destruct (lookup_for_insertion_loop_spec n t m k (S (Z.to_nat (size t))) 0 s1 None)
    as (i & -> & Hi); [done|apply Hok|lia|lia|rewrite Hsz; lia|done|done|done|].
  exists n, i, s1. done.
Qed.

Lemma insert_internal_spec t m k v keep :
  hashtable_rep t m -> Z.of_nat (base.size m) < MAX_ENTRIES ->
  exists t', kr_hashtable_insert_internal hash_func key_equal_func t k v keep =
      Ok (t', insert_events t keep (m !! repr k) k) /\
    hashtable_rep t' (<[repr k := (kept_key keep (m !! repr k) k, v)]> m) /\ same_destroy t t'.
Proof.
  intros Hrep Hmax. destruct (insert_place_spec t m k Hrep) as (n & i & s1 & Hi & Hok & Hs1 & Hpl & Hno).
  destruct Hrep as (n0 & _ & Hload & _).
  destruct (tk_shape _ _ _ Hok) as (Hn & Hsz & Hmod & Hmask).
  pose proof (slot_range n (hv k) s1 ltac:(lia)) as Hrng.
  unfold kr_hashtable_insert_internal. rewrite Hi.
  change (Ok (i, hv k) ≫= ?f) with (f (i, hv k)). cbv beta iota.
  unfold get_node. destruct Hpl as [[-> (nd & Hnd & Hmt & Hl)]|Hfree].
  - rewrite Hnd. change (of_option OutOfBounds (Some nd) ≫= ?f) with (f nd). cbv beta iota zeta.
    change (1 <? key_hash nd) with (live nd). rewrite Hl.
    destruct (no_live _ _ _ (tk_nodes _ _ _ Hok) _ _ Hnd Hl) as (k' & Hk' & Hh' & Hm' & _).
    unfold matches in Hmt. rewrite Hk' in Hmt. apply andb_true_iff in Hmt as [_ Hr].
    apply bool_decide_eq_true in Hr. rewrite Hr in Hm'. rewrite Hm'. simpl.
    replace (if keep then key nd else Some k) with (Some (if keep then k' else k))
      by (rewrite Hk'; by destruct keep).
    eexists. split; [done|]. split; [|done].
    assert (Hnd' : nodes t !! Z.to_nat (slot n (hv k) s1) = Some (mkHashNode (Some k') (value nd) (hv k'))).
    { rewrite Hnd. f_equal. destruct nd; simpl in *. congruence. }
    rewrite Hh', Hk'.
    assert (Hsz' : base.size (<[repr k := (if keep then k else k', v)]> m) = base.size m).
    { by rewrite map_size_insert_Some. }
    exists n. split; [|split; [exact Hload|rewrite Hsz'; lia]]. destruct Hok as [? Hnok Hs ? ?].
    split; simpl; try done.
    + replace (if keep then Some k else Some k') with (Some (if keep then k else k')) by by destruct keep.
      replace (repr k) with (repr (if keep then k else k')) by by destruct keep.
      eapply nodes_ok_update; [done|done|]. by destruct keep.
    + by rewrite Hsz'.
    + rewrite (count_insert _ _ _ _ _ Hnd), Hl, (live_hv (mkHashNode _ _ _) k' eq_refl). lia.
    + rewrite (count_insert _ _ _ _ _ Hnd), (live_occupied _ Hl).
      rewrite (live_occupied _ (live_hv (mkHashNode _ _ _) k' eq_refl)). lia.
  - destruct Hfree as (s2 & nd & nd1 & Hs2 & -> & Hnd & Hdead & Hnd1 & Hz1).
    rewrite Hnd. change (of_option OutOfBounds (Some nd) ≫= ?f) with (f nd). cbv beta iota zeta.
    change (1 <? key_hash nd) with (live nd). rewrite Hdead.
    pose proof (tk_nodes _ _ _ Hok) as Hnok.
    assert (Hm : m !! repr k = None).
    { destruct (m !! repr k) as [[k' v']|] eqn:Hm; [|done]. exfalso.
      assert (Hst : stop (nodes t) k (slot n (hv k) s1) = true).
      { unfold stop. by rewrite Hnd1, Hz1. }
      destruct (stop_found n _ _ k s1 k' v' ltac:(lia) Hnok Hm Hs1 Hst Hno) as [Hx _].
      rewrite Hnd1 in Hx. injection Hx as ->. simpl in Hz1. pose proof (hash_value_ge k). lia. }
    rewrite Hm. simpl.
    assert (Hnok' : nodes_ok n (<[Z.to_nat (slot n (hv k) s2) := mkHashNode (Some k) v (hv k)]>
      (nodes t)) (<[repr k := (k, v)]> m)).
    { eapply nodes_ok_insert_new; try done; [lia|lia|]. intros s' Hs'.
      specialize (Hno s' ltac:(lia)).
      destruct (slot_lookup n (nodes t) m (hv k) s' ltac:(lia) Hnok) as [ndx Hx]. exists ndx.
      split; [done|]. unfold stop in Hno. rewrite Hx in Hno.
      apply orb_false_iff in Hno as [Hno _]. by zbool. }
    destruct Hok as [Hsh _ Hs Hlv Hoc].
    assert (Hsz' : base.size (<[repr k := (k, v)]> m) = S (base.size m)) by by apply map_size_insert_None.
    unfold MAX_ENTRIES in *.
    assert (Hnn : i32 (nnodes t + 1) = nnodes t + 1).
    { apply i32_small. unfold INT_MIN, INT_MAX. lia. }
    pose proof (count_le_length occupied (nodes t)) as Hco. rewrite (no_len _ _ _ Hnok) in Hco.
    assert (Hp : 2 ^ n <= 2 ^ 30) by (apply Z.pow_le_mono_r; lia).
    change (2 ^ 30) with 1073741824 in Hp.
    assert (Hno1 : i32 (noccupied t + 1) = noccupied t + 1).
    { apply i32_small. unfold INT_MIN, INT_MAX. lia. }
    assert (Hcl : count live (<[Z.to_nat (slot n (hv k) s2) := mkHashNode (Some k) v (hv k)]>
      (nodes t)) = nnodes t + 1).
    { rewrite (count_insert _ _ _ _ _ Hnd), Hdead, live_node. simpl. lia. }
    assert (Hcoc : count occupied (<[Z.to_nat (slot n (hv k) s2) := mkHashNode (Some k) v (hv k)]>
      (nodes t)) = noccupied t - b2z (occupied nd) + 1).
    { rewrite (count_insert _ _ _ _ _ Hnd), (live_occupied _ (live_node k v)). simpl. lia. }
    rewrite Hnn, ?Hno1. destruct (key_hash nd =? 0) eqn:Hz.
    + match goal with |- context [kr_hashtable_maybe_resize ?t1] =>
        destruct (maybe_resize_spec n t1 (<[repr k := (k, v)]> m))
          as (t' & n' & -> & Hok' & Hl' & Hd1 & Hd2) end.
      * split; [exact Hsh|exact Hnok'|simpl; rewrite Hsz'; lia|simpl; lia|simpl].
        rewrite Hcoc. unfold occupied. rewrite Hz. simpl. lia.
      * unfold MAX_ENTRIES. lia.
      * simpl. exists t'. split; [done|]. split; [|done]. exists n'. unfold MAX_ENTRIES.
        split_and!; try done. lia.
    + eexists. split; [done|]. split; [|done]. exists n. unfold MAX_ENTRIES.
      split_and!; try done; [|rewrite Hsz'; lia].
      split; simpl; try done; [rewrite Hsz'; lia|].
      rewrite Hcoc. unfold occupied. rewrite Hz. simpl. lia.
Qed.

Lemma remove_node_ok n t m i k v notify :
  table_ok n t m -> Z.of_nat (base.size m) <= MAX_ENTRIES -> 0 <= i ->
  nodes t !! Z.to_nat i = Some (mkHashNode (Some k) v (hv k)) ->
  exists t', kr_hashtable_remove_node t i (mkHashNode (Some k) v (hv k)) notify =
      (t', destroyed t notify (k, v)) /\
    table_ok n t' (delete (repr k) m) /\ same_destroy t t' /\ size t' = size t /\
    nodes t' = <[Z.to_nat i := mkHashNode None None 1]> (nodes t) /\
    m !! repr k = Some (k, v).
Proof.
  intros Hok Hmax Hi Hnd. unfold MAX_ENTRIES in *. eexists. split; [done|].
  destruct (no_live _ _ _ (tk_nodes _ _ _ Hok) _ _ Hnd (live_node _ _)) as (k' & [= <-] & _ & Hm & _).
  destruct Hok as [Hsh Hnok Hs Hlv Hoc]. simpl in Hm.
  assert (Hsz : base.size m = S (base.size (delete (repr k) m))).
  { rewrite <- (insert_delete_id m (repr k) (k, v)) at 1 by done.
    by rewrite map_size_insert_None by apply lookup_delete_eq. }
  assert (Hn1 : i32 (nnodes t - 1) = nnodes t - 1).
  { apply i32_small. unfold INT_MIN, INT_MAX. lia. }
  split_and!; try done. split; simpl; try done.
  - by eapply nodes_ok_remove.
  - rewrite Hn1. lia.
  - rewrite Hn1, (count_insert _ _ _ _ _ Hnd), live_node. cbn. lia.
  - rewrite (count_insert _ _ _ _ _ Hnd), (live_occupied _ (live_node k v)). cbn. lia.
Qed.

Lemma remove_internal_spec t m k notify :
  hashtable_rep t m ->
  exists t', kr_hashtable_remove_internal hash_func key_equal_func (Some t) k notify =
      Ok (bool_decide (is_Some (m !! repr k)), Some t',
          match m !! repr k with Some b => destroyed t notify b | None => [] end) /\
    hashtable_rep t' (delete (repr k) m) /\ same_destroy t t'.
Proof.
  intros Hrep. destruct (lookup_node_spec t m k Hrep) as (i & nd & Hi & Hi0 & Hnd & Hm).
  unfold kr_hashtable_remove_internal. rewrite Hi. simpl. unfold get_node. rewrite Hnd. simpl.
  destruct (m !! repr k) as [[k' v]|] eqn:Hmk.
  - destruct Hm as [-> Hr]. simpl. pose proof (hash_value_ge k).
    assert ((hv k =? 0) = false) as -> by (apply Z.eqb_neq; lia).
    destruct Hrep as (n & Hok & Hload & Hmax).
    rewrite <- (hash_value_repr _ _ Hr) in *.
    destruct (remove_node_ok n t m i k' v notify Hok Hmax Hi0 Hnd)
      as (t1 & Heq & Hok1 & [Hd1 Hd2] & _ & _ & _). rewrite Hr in Hok1.
    injection Heq as Heq. rewrite Heq.
    destruct (maybe_resize_spec n t1 (delete (repr k) m)) as (t' & n' & Hres & Hok' & Hl' & Hk1 & Hk2).
    { done. }
    { rewrite map_size_delete_Some by done. lia. }
    rewrite Hres. simpl. exists t'.
    split; [done|]. split; [|by split; congruence].
    exists n'. split_and!; try done. rewrite map_size_delete_Some by done. lia.
  - rewrite Hm. simpl. exists t. split; [done|]. split; [|done]. by rewrite delete_id.
Qed.

(** * Creation and removal of all *)

Lemma new_full_spec kd vd :
  exists t, kr_hashtable_new_full kd vd = Ok t /\ hashtable_rep t ∅ /\
    key_destroy_func t = kd /\ value_destroy_func t = vd.
Proof.
  unfold kr_hashtable_new_full. rewrite set_shift_spec by (unfold HASH_TABLE_MIN_SHIFT; lia).
  eexists. split; [done|]. split; [|done]. exists 3. split; [|by vm_compute].
  split; try done. apply (nodes_ok_empty 3). lia.
Qed.

Lemma Permutation_concat_map {A B} (f : A -> list B) (l1 l2 : list A) :
  l1 ≡ₚ l2 -> concat (map f l1) ≡ₚ concat (map f l2).
Proof.
  induction 1 as [|x l1 l2 _ IH|x y l|l1 l2 l3 _ IH1 _ IH2]; simpl; [done| | |].
  - by rewrite IH.
  - rewrite !app_assoc. by rewrite (Permutation_app_comm (f y) (f x)).
  - by rewrite IH1.
Qed.

Lemma map_to_list_bindings n nds m : nodes_ok n nds m -> bindings nds ≡ₚ map_to_list m.
Proof.
  intros Hok. destruct (bindings_map _ _ _ Hok) as [Hnd <-]. symmetry. by apply map_to_list_to_map.
Qed.

Lemma all_destroyed_bindings t nds n m notify :
  nodes_ok n nds m ->
  concat (map (fun nd => if live nd then node_destroyed t nd notify else []) nds) ≡ₚ
  concat (map (fun b => destroyed t notify b.2) (map_to_list m)).
Proof.
  intros Hok. rewrite <- (Permutation_concat_map _ _ _ (map_to_list_bindings _ _ _ Hok)).
  pose proof (nodes_ok_hashed _ _ _ Hok) as Hwh. clear Hok. induction Hwh as [|nd nds Hw _ IH]; [done|].
  simpl. destruct (live nd) eqn:Hl; [|done]. destruct (Hw Hl) as [k Hk].
  unfold binding. rewrite Hk. simpl. by rewrite IH.
Qed.

Lemma remove_all_spec t m notify :
  hashtable_rep t m ->
  exists t' evs,
    (let '(t, evs) := kr_hashtable_remove_all_nodes t notify in
     t ← kr_hashtable_maybe_resize t; mret (t, evs)) = Ok (t', evs) /\
    evs ≡ₚ concat (map (fun b => destroyed t notify b.2) (map_to_list m)) /\
    hashtable_rep t' ∅ /\ same_destroy t t'.
Proof.
  intros (n & Hok & Hload & Hmax). unfold kr_hashtable_remove_all_nodes.
  destruct (tk_shape _ _ _ Hok) as (Hn & Hsz & Hmod & Hmask).
  match goal with |- context [kr_hashtable_maybe_resize ?t1] =>
    destruct (maybe_resize_spec n t1 ∅) as (t' & n' & -> & Hok' & Hl' & Hd1 & Hd2) end.
  - split; simpl; try done.
    + rewrite Hsz. apply nodes_ok_empty. lia.
    + symmetry. by apply count_empty.
    + symmetry. by apply count_empty.
  - rewrite map_size_empty. unfold MAX_ENTRIES. lia.
  - simpl. eexists t', _. split; [done|]. split.
    + eapply all_destroyed_bindings. apply Hok.
    + split; [|done]. exists n'. by split_and!.
Qed.

(** * Iteration *)

Lemma foreach_bindings {A} nds (f : option K -> option V -> A -> A) (x : A) :
  Forall well_hashed nds ->
  foldl (fun a nd => if live nd then f (key nd) (value nd) a else a) x nds =
  foldl (fun a b => f (Some b.2.1) b.2.2 a) x (bindings nds).
Proof.
  intros Hwh. revert x. induction Hwh as [|nd nds Hw _ IH]; intros x; [done|]. simpl.
  rewrite IH. destruct (live nd) eqn:Hl; [|done]. destruct (Hw Hl) as [k Hk].
  unfold binding. by rewrite Hk.
Qed.

(** A callback that keeps no state. *)
Definition pure_callback (p : option K -> option V -> bool) :
    option K -> option V -> unit -> bool * unit := fun o v x => (p o v, x).

(** The loop of [foreach_remove] with a callback that keeps no state: [es] are the
    bindings removed, in order. *)
Lemma foreach_remove_loop_spec (p : option K -> option V -> bool) (j : nat) n t m (i : Z) notify d evs :
  table_ok n t m -> Z.of_nat (base.size m) <= MAX_ENTRIES -> 0 <= i ->
  i + Z.of_nat j = 2 ^ n -> 0 <= d -> d + Z.of_nat j <= 2 ^ n ->
  exists t' m' es,
    foreach_remove_loop j i t (pure_callback p) tt notify d evs =
      Ok (d + Z.of_nat (length es), t', evs ++ concat (map (destroyed t notify) es), tt) /\
    table_ok n t' m' /\ same_destroy t t' /\
    Z.of_nat (base.size m') + Z.of_nat (length es) = Z.of_nat (base.size m) /\
    NoDup (map (fun b => repr b.1) es) /\
    (forall k v, (k, v) ∈ es <-> m !! repr k = Some (k, v) /\ m' !! repr k = None) /\
    (forall c b, m' !! c = Some b -> m !! c = Some b) /\
    (forall k v, (k, v) ∈ es -> p (Some k) v = true) /\
    (forall q, (q < Z.to_nat i)%nat -> nodes t' !! q = nodes t !! q) /\
    (forall q nd, (Z.to_nat i <= q)%nat -> nodes t' !! q = Some nd -> live nd = true ->
       p (key nd) (value nd) = false).
Proof.
  revert t m i d evs. induction j as [|j IH]; intros t m i d evs Hok Hmax Hi Hij Hd Hdj.
  - exists t, m, []. simpl. rewrite app_nil_r, Z.add_0_r. split_and!; try done; try lia.
    + constructor.
    + intros k v. split; [by intros ?%elem_of_nil|]. intros [? ?]. congruence.
    + intros k v ?%elem_of_nil. done.
    + intros q nd Hq Hnd. apply lookup_lt_Some in Hnd.
      pose proof (no_len _ _ _ (tk_nodes _ _ _ Hok)). lia.
  - simpl. pose proof (tk_nodes _ _ _ Hok) as Hnok.
    destruct (lookup_lt_is_Some_2 (nodes t) (Z.to_nat i)) as [nd Hnd].
    { pose proof (no_len _ _ _ Hnok). lia. }
    unfold get_node. rewrite Hnd. cbn [of_option mbind res_bind].
    assert (Hskip : (live nd = true -> p (key nd) (value nd) = false) ->
      exists t' m' es,
      foreach_remove_loop j (i + 1) t (pure_callback p) tt notify d evs =
        Ok (d + Z.of_nat (length es), t', evs ++ concat (map (destroyed t notify) es), tt) /\
      table_ok n t' m' /\ same_destroy t t' /\
      Z.of_nat (base.size m') + Z.of_nat (length es) = Z.of_nat (base.size m) /\
      NoDup (map (fun b => repr b.1) es) /\
      (forall k v, (k, v) ∈ es <-> m !! repr k = Some (k, v) /\ m' !! repr k = None) /\
      (forall c b, m' !! c = Some b -> m !! c = Some b) /\
      (forall k v, (k, v) ∈ es -> p (Some k) v = true) /\
      (forall q, (q < Z.to_nat i)%nat -> nodes t' !! q = nodes t !! q) /\
      (forall q nd, (Z.to_nat i <= q)%nat -> nodes t' !! q = Some nd -> live nd = true ->
         p (key nd) (value nd) = false)).
    { intros Hpf. destruct (IH t m (i + 1) d evs) as
        (t' & m' & es & H1 & H2 & H3 & H4 & H5 & H6 & H7 & H8 & H9 & H10); try done; try lia.
      exists t', m', es. split_and!; try done.
      - intros q Hq. apply H9. lia.
      - intros q nd' Hq. destruct (decide (q = Z.to_nat i)) as [->|]; [|apply H10; lia].
        rewrite H9 by lia. rewrite Hnd. by intros [= <-]. }
    destruct (live nd) eqn:Hl; [|by apply Hskip].
    destruct (p (key nd) (value nd)) eqn:Hp; [|by apply Hskip]. clear Hskip.
    destruct (no_live _ _ _ Hnok _ _ Hnd Hl) as (k & Hk & Hh & Hm & _).
    destruct nd as [nk v nh]. simpl in *. subst nk nh.
    destruct (remove_node_ok n t m i k v notify Hok Hmax Hi Hnd)
      as (t1 & Heq & Hok1 & [Hd1 Hd2] & Hs1 & Hn1 & _).
    injection Heq as Heq. rewrite Heq.
    change (node_destroyed t (mkHashNode (Some k) v (hv k)) notify)
      with (destroyed t notify (k, v)).
    assert (Hu : u32 (d + 1) = d + 1).
    { apply u32_small. unfold UINT_MAX. destruct (tk_shape _ _ _ Hok) as (Hn & _).
      assert (2 ^ n <= 2 ^ 30) by (apply Z.pow_le_mono_r; lia).
      change (2 ^ 30) with 1073741824 in *. lia. }
    rewrite Hu.
    assert (Hsz : Z.of_nat (base.size m) = Z.of_nat (base.size (delete (repr k) m)) + 1).
    { rewrite <- (insert_delete_id m (repr k) (k, v)) at 1 by done.
      rewrite map_size_insert_None by apply lookup_delete_eq. lia. }
    destruct (IH t1 (delete (repr k) m) (i + 1) (d + 1) (evs ++ destroyed t notify (k, v))) as
      (t' & m' & es & H1 & H2 & [H3 H3'] & H4 & H5 & H6 & H7 & H8 & H9 & H10); try done; try lia.
    assert (Hdt : destroyed t1 notify = destroyed t notify).
    { unfold destroyed. by rewrite Hd1, Hd2. }
    exists t', m', ((k, v) :: es). rewrite H1, Hdt. simpl. split_and!; try done.
    + f_equal. rewrite <- app_assoc. do 3 f_equal. lia.
    + split; congruence.
    + lia.
    + constructor; [|done]. intros ([k2 v2] & Heq2 & Hin)%list_elem_of_In%in_map_iff.
      simpl in Heq2. apply list_elem_of_In, H6 in Hin as [Hin _]. rewrite Heq2, lookup_delete_eq in Hin. done.
    + intros k2 v2. rewrite elem_of_cons, H6, lookup_delete_Some. split.
      * intros [[= -> ->]|[[Hne Hm2] Hm2']]; [|done]. split; [done|].
        destruct (m' !! repr k) as [b|] eqn:Hb; [|done]. apply H7 in Hb.
        by rewrite lookup_delete_eq in Hb.
      * intros [Hm2 Hm2']. destruct (decide (repr k = repr k2)) as [Hr|Hr]; [|by right].
        left. rewrite <- Hr, Hm in Hm2. congruence.
    + intros c b Hb. apply H7 in Hb. by apply lookup_delete_Some in Hb as [_ ?].
    + intros k2 v2 [[= -> ->]|Hin]%elem_of_cons; [done|]. by apply H8.
    + intros q Hq. rewrite H9 by lia. rewrite Hn1. apply list_lookup_insert_ne. lia.
    + intros q nd' Hq. destruct (decide (q = Z.to_nat i)) as [->|]; [|apply H10; lia].
      rewrite H9 by lia. rewrite Hn1, list_lookup_insert_eq by (by eapply lookup_lt_Some).
      intros [= <-]. done.
Qed.

Lemma foreach_remove_spec (p : option K -> option V -> bool) t m notify :
  hashtable_rep t m ->
  exists t' es,
    kr_hashtable_foreach_remove_or_steal t (pure_callback p) tt notify =
      Ok (Z.of_nat (length es), t', concat (map (destroyed t notify) es), tt) /\
    hashtable_rep t' (filter (fun b => p (Some b.2.1) b.2.2 = false) m) /\ same_destroy t t' /\
    es ≡ₚ (map_to_list (filter (fun b => p (Some b.2.1) b.2.2 = true) m)).*2.
Proof.
  intros (n & Hok & Hload & Hmax). unfold kr_hashtable_foreach_remove_or_steal.
  destruct (tk_shape _ _ _ Hok) as (Hn & Hsz & _). rewrite Hsz.
  pose proof (Z.pow_pos_nonneg 2 n).
  destruct (foreach_remove_loop_spec p (Z.to_nat (2 ^ n)) n t m 0 notify 0 [])
    as (t1 & m1 & es & -> & Hok1 & [Hd1 Hd2] & Hs1 & Hnd & Hes & Hsub & Hp & _ & Hq);
    [done|done|lia|lia|lia|lia|].
  assert (Hm1 : m1 = filter (fun b => p (Some b.2.1) b.2.2 = false) m).
  { apply map_eq. intros c. apply option_eq. intros [k v]. rewrite map_lookup_filter_Some. simpl. split.
    - intros Hc. split; [by apply Hsub|].
      destruct (no_complete _ _ _ (tk_nodes _ _ _ Hok1) _ _ _ Hc) as (_ & i & Hi).
      apply (Hq i _ ltac:(lia) Hi), live_node.
    - intros [Hc Hpf]. destruct (no_complete _ _ _ (tk_nodes _ _ _ Hok) _ _ _ Hc) as (Hr & _).
      destruct (m1 !! c) as [b|] eqn:Hb; [apply Hsub in Hb; congruence|].
      exfalso. subst c. assert ((k, v) ∈ es) as Hin by by apply Hes. apply Hp in Hin. congruence. }
  cbn [mbind res_bind].
  assert (Hsz1 : Z.of_nat (base.size m1) <= MAX_ENTRIES) by lia.
  destruct (maybe_resize_spec n t1 m1 Hok1 Hsz1) as (t' & n' & -> & Hok' & Hl' & Hk1 & Hk2).
  cbn [mbind res_bind mret res_ret]. exists t', es. split; [done|]. rewrite <- Hm1.
  split; [by exists n'|]. split; [by split; congruence|].
  assert (Hc : forall c k v, m !! c = Some (k, v) -> repr k = c).
  { intros c k v Hc. by destruct (no_complete _ _ _ (tk_nodes _ _ _ Hok) _ _ _ Hc). }
  apply NoDup_Permutation.
  - by apply (NoDup_fmap_1 (fun b : K * option V => repr b.1)).
  - apply NoDup_fmap_2_strong; [|apply NoDup_map_to_list].
    intros [c1 [k1 v1]] [c2 [k2 v2]] H1%elem_of_map_to_list H2%elem_of_map_to_list. simpl.
    intros [= -> ->]. apply map_lookup_filter_Some in H1 as [H1 _], H2 as [H2 _].
    by rewrite <- (Hc _ _ _ H1), <- (Hc _ _ _ H2).
  - intros [k v]. rewrite list_elem_of_fmap. split.
    + intros Hin. pose proof (Hp _ _ Hin). apply Hes in Hin as [Hin _].
      exists (repr k, (k, v)). split; [done|]. apply elem_of_map_to_list.
      by apply map_lookup_filter_Some.
    + intros ([c [k' v']] & [= -> ->] & Hin%elem_of_map_to_list).
      apply map_lookup_filter_Some in Hin as [Hin Hpt]. simpl in *.
      pose proof (Hc _ _ _ Hin) as <-. apply Hes. split; [done|].
      rewrite Hm1. apply map_lookup_filter_None. right. intros b Hb. simplify_eq. simpl. congruence.
Qed.

(** * Series of calls *)

Inductive hop :=
  | HInsert (k : K) (v : option V) | HReplace (k : K) (v : option V)
  | HRemove (k : K) | HSteal (k : K) | HLookup (k : K) | HSize | HRemoveAll | HStealAll.
Inductive hret := HUnit | HBool (b : bool) | HValue (v : option V) | HCount (z : Z).

Definition run_hop (o : hop) t : res (hret * T_KRHashTable * list event) :=
  let as_unit r := '(t, evs) ← r; mret (HUnit, t, evs) in
  let as_bool r := '(b, ot, evs) ← r;
                   t ← of_option NullDeref ot; mret (HBool b, t, evs) in
  match o with
  | HInsert k v => as_unit (kr_hashtable_insert hash_func key_equal_func t k v)
  | HReplace k v => as_unit (kr_hashtable_replace hash_func key_equal_func t k v)
  | HRemove k => as_bool (kr_hashtable_remove hash_func key_equal_func (Some t) k)
  | HSteal k => as_bool (kr_hashtable_steal hash_func key_equal_func (Some t) k)
  | HLookup k =>
      v ← kr_hashtable_lookup hash_func key_equal_func (Some t) k; mret (HValue v, t, [])
  | HSize => mret (HCount (kr_hashtable_size (Some t)), t, [])
  | HRemoveAll => as_unit (kr_hashtable_remove_all t)
  | HStealAll => as_unit (kr_hashtable_steal_all t)
  end.

Fixpoint run_hops (os : list hop) t : res (list hret * T_KRHashTable * list event) :=
  match os with
  | [] => mret ([], t, [])
  | o :: os' =>
      '(r, t, e1) ← run_hop o t;
      '(rs, t, e2) ← run_hops os' t;
      mret (r :: rs, t, e1 ++ e2)
  end.

(** The same calls on a finite map from what keys denote to the key that was given
    and its value; [kd] and [vd]: the table has destroy functions for keys, values. *)
Definition destroyed_if (kd vd : bool) (b : K * option V) : list event :=
  (if kd then [KeyDestroy (Some b.1)] else []) ++ (if vd then [ValueDestroy b.2] else []).

Definition spec_hop (kd vd : bool) (o : hop) m : hret * gmap C (K * option V) * list event :=
  match o with
  | HInsert k v =>
      (HUnit, <[repr k := (match m !! repr k with Some b => b.1 | None => k end, v)]> m,
       match m !! repr k with Some b => destroyed_if kd vd (k, b.2) | None => [] end)
  | HReplace k v =>
      (HUnit, <[repr k := (k, v)]> m,
       match m !! repr k with Some b => destroyed_if kd vd b | None => [] end)
  | HRemove k =>
      (HBool (bool_decide (is_Some (m !! repr k))), delete (repr k) m,
       match m !! repr k with Some b => destroyed_if kd vd b | None => [] end)
  | HSteal k => (HBool (bool_decide (is_Some (m !! repr k))), delete (repr k) m, [])
  | HLookup k => (HValue (m !! repr k ≫= snd), m, [])
  | HSize => (HCount (Z.of_nat (base.size m)), m, [])
  | HRemoveAll => (HUnit, ∅, concat (map (fun b => destroyed_if kd vd b.2) (map_to_list m)))
  | HStealAll => (HUnit, ∅, [])
  end.

Fixpoint spec_hops (kd vd : bool) (os : list hop) m
    : list hret * gmap C (K * option V) * list event :=
  match os with
  | [] => ([], m, [])
  | o :: os' =>
      let '(r, m, e1) := spec_hop kd vd o m in
      let '(rs, m, e2) := spec_hops kd vd os' m in (r :: rs, m, e1 ++ e2)
  end.

Lemma destroyed_true t b :
  destroyed t true b = destroyed_if (key_destroy_func t) (value_destroy_func t) b.
Proof. done. Qed.

Lemma concat_map_nil {A B} (l : list A) : concat (map (fun _ => @nil B) l) = [].
Proof. induction l; simpl; done. Qed.

Lemma run_hop_spec t m o :
  hashtable_rep t m -> Z.of_nat (base.size m) < MAX_ENTRIES ->
  let '(r, m', e) := spec_hop (key_destroy_func t) (value_destroy_func t) o m in
  exists t' e', run_hop o t = Ok (r, t', e') /\ hashtable_rep t' m' /\ e' ≡ₚ e /\
    same_destroy t t' /\ (base.size m' <= S (base.size m))%nat.
Proof.
  intros Hrep Hmax.
  assert (Hins : forall k (b : K * option V), (base.size (<[repr k := b]> m) <= S (base.size m))%nat).
  { intros k b. rewrite map_size_insert. destruct (m !! repr k); simpl; lia. }
  assert (Hdel : forall k, (base.size (delete (repr k) m) <= S (base.size m))%nat).
  { intros k. rewrite map_size_delete. destruct (m !! repr k); simpl; lia. }
  destruct o as [k v|k v|k|k|k| | |]; cbn [run_hop spec_hop].
  - destruct (insert_internal_spec t m k v false Hrep Hmax) as (t' & He & Hr & Hd).
    unfold kr_hashtable_insert. rewrite He. simpl. eexists _, _. split; [done|].
    destruct (m !! repr k) as [[k' v']|]; simpl in *; by split_and!.
  - destruct (insert_internal_spec t m k v true Hrep Hmax) as (t' & He & Hr & Hd).
    unfold kr_hashtable_replace. rewrite He. simpl. eexists _, _. split; [done|].
    destruct (m !! repr k) as [[k' v']|]; simpl in *; by split_and!.
  - destruct (remove_internal_spec t m k true Hrep) as (t' & He & Hr & Hd).
    unfold kr_hashtable_remove. rewrite He. simpl. eexists _, _. by split_and!.
  - destruct (remove_internal_spec t m k false Hrep) as (t' & He & Hr & Hd).
    unfold kr_hashtable_steal. rewrite He. simpl. eexists _, _. split_and!; try done.
    by destruct (m !! repr k).
  - rewrite (lookup_spec t m k Hrep). simpl. eexists _, _. split_and!; [done..|lia].
  - assert (Hs : kr_hashtable_size (Some t) = Z.of_nat (base.size m)).
    { destruct Hrep as (n & Hok & _). unfold kr_hashtable_size. rewrite (tk_size _ _ _ Hok).
      apply u32_small. unfold UINT_MAX, MAX_ENTRIES in *. lia. }
    rewrite Hs. eexists t, []. split_and!; try done; lia.
  - destruct (remove_all_spec t m true Hrep) as (t' & e' & He & Hp & Hr & Hd).
    unfold kr_hashtable_remove_all. rewrite He. simpl. eexists _, _. split_and!; try done.
    rewrite map_size_empty. lia.
  - destruct (remove_all_spec t m false Hrep) as (t' & e' & He & Hp & Hr & Hd).
    unfold kr_hashtable_steal_all. rewrite He. simpl. eexists _, _. split_and!; try done.
    + rewrite Hp. unfold destroyed. simpl. by rewrite concat_map_nil.
    + rewrite map_size_empty. lia.
Qed.

Lemma run_hops_spec t m os :
  hashtable_rep t m -> Z.of_nat (base.size m + length os) <= MAX_ENTRIES ->
  let '(rs, m', e) := spec_hops (key_destroy_func t) (value_destroy_func t) os m in
  exists t' e', run_hops os t = Ok (rs, t', e') /\ hashtable_rep t' m' /\ e' ≡ₚ e.
Proof.
  revert t m. induction os as [|o os IH]; intros t m Hrep Hmax; simpl.
  { exists t, []. done. }
  simpl in Hmax. pose proof (run_hop_spec t m o Hrep ltac:(lia)) as Ho.
  destruct (spec_hop _ _ o m) as [[r m1] e1]. destruct Ho as (t1 & e1' & -> & Hr1 & He1 & [Hd1 Hd2] & Hsz).
  simpl. specialize (IH t1 m1 Hr1 ltac:(lia)). rewrite Hd1, Hd2 in IH.
  destruct (spec_hops _ _ os m1) as [[rs m2] e2]. destruct IH as (t2 & e2' & -> & Hr2 & He2).
  simpl. exists t2, (e1' ++ e2'). split_and!; try done. by rewrite He1, He2.
Qed.

(** * Properties *)

(** C20. For any keys whose hash depends only on what they denote, the hash table
    refines a finite map: any series of fewer than 2^28 insertions, replacements,
    removals, thefts, lookups and clearings from a new table runs to its end (every
    probe sequence stops, through any resize), returns what the map returns, and
    calls the destroy functions on exactly the keys and values that leave it. *)
Theorem kr_hashtable_refines_map (kd vd : bool) (os : list hop) :
  Z.of_nat (length os) <= MAX_ENTRIES ->
  let '(rs, m, e) := spec_hops kd vd os ∅ in
  exists t0 t e', kr_hashtable_new_full kd vd = Ok t0 /\ run_hops os t0 = Ok (rs, t, e') /\
    hashtable_rep t m /\ e' ≡ₚ e.
Proof.
  intros Hlen. destruct (new_full_spec kd vd) as (t0 & Hnew & Hrep & Hkd & Hvd).
  pose proof (run_hops_spec t0 ∅ os Hrep) as Hrun. rewrite map_size_empty, Hkd, Hvd in Hrun.
  specialize (Hrun Hlen). destruct (spec_hops kd vd os ∅) as [[rs m] e].
  destruct Hrun as (t & e' & Hr & Hrep' & He). by exists t0, t, e'.
Qed.

(** [kr_hashtable_foreach_remove] and [_steal] with a stateless callback keep
    exactly the entries it rejects, count and (for [_remove]) destroy each of the
    others once; tombstones and the resize that follows lose nothing. *)
Theorem kr_hashtable_foreach_remove_filters (p : option K -> option V -> bool) t m notify :
  hashtable_rep t m ->
  exists t' es,
    kr_hashtable_foreach_remove_or_steal t (pure_callback p) tt notify =
      Ok (Z.of_nat (length es), t', concat (map (destroyed t notify) es), tt) /\
    hashtable_rep t' (filter (fun b => p (Some b.2.1) b.2.2 = false) m) /\
    es ≡ₚ (map_to_list (filter (fun b => p (Some b.2.1) b.2.2 = true) m)).*2.
Proof.
  intros Hrep. destruct (foreach_remove_spec p t m notify Hrep) as (t' & es & H1 & H2 & _ & H3).
  by exists t', es.
Qed.

(** [kr_hashtable_foreach] calls its function once on each entry of the map, and
    [kr_hashtable_find] returns the value of an entry that satisfies its predicate,
    [NULL] only when there is none (or the value is [NULL]). *)
Theorem kr_hashtable_iteration {A} t m (f : option K -> option V -> A -> A) (x : A)
    (p : option K -> option V -> bool) :
  hashtable_rep t m ->
  (exists es, es ≡ₚ map_to_list m /\
     kr_hashtable_foreach t f x = foldl (fun a b => f (Some b.2.1) b.2.2 a) x es) /\
  ((exists c k v, m !! c = Some (k, v) /\ p (Some k) v = true /\
      kr_hashtable_find (Some t) (Some p) = v) \/
   (kr_hashtable_find (Some t) (Some p) = None /\
    forall c k v, m !! c = Some (k, v) -> p (Some k) v = false)).
Proof.
  intros (n & Hok & _). pose proof (tk_nodes _ _ _ Hok) as Hnok. split.
  - exists (bindings (nodes t)). split; [by eapply map_to_list_bindings|].
    unfold kr_hashtable_foreach. apply foreach_bindings. by eapply nodes_ok_hashed.
  - unfold kr_hashtable_find.
    destruct (List.find _ (nodes t)) as [nd|] eqn:Hf.
    + apply find_some in Hf as [Hin [Hl Hp]%andb_true_iff]. left.
      apply list_elem_of_In, list_elem_of_lookup in Hin as [i Hi].
      destruct (no_live _ _ _ Hnok _ _ Hi Hl) as (k & Hk & _ & Hm & _).
      exists (repr k), k, (value nd). by rewrite <- Hk.
    + right. split; [done|]. intros c k v Hm.
      destruct (no_complete _ _ _ Hnok _ _ _ Hm) as (_ & i & Hi).
      pose proof (find_none _ _ Hf (mkHashNode (Some k) v (hv k))) as Hno. simpl in Hno.
      rewrite live_node in Hno. simpl in Hno. apply Hno.
      apply list_elem_of_In. by eapply list_elem_of_lookup_2.
Qed.
End Table.

(** * The properties at concrete tables *)

(** Keys that collide: the hash of an integer is 5 for every key. *)
#[export] Instance collide_keys : HashKeys (K:=Z) (C:=Z) (fun _ => 5) (Some Z.eqb) (fun z => z).
Proof.
  split; [|done]. intros k1 k2. destruct (Z.eqb_spec k1 k2); by case_bool_decide.
Qed.

Lemma kr_hashtable_refines_map_witness :
  Z.of_nat 6 <= MAX_ENTRIES /\
  exists t0 t e',
    kr_hashtable_new_full (K:=Z) (V:=Z) true true = Ok t0 /\
    run_hops (fun _ => 5) (Some Z.eqb)
      [HInsert 1 (Some 10); HInsert 2 (Some 20); HReplace 1 (Some 11); HRemove 1; HLookup 1; HLookup 2]
      t0 = Ok ([HUnit; HUnit; HUnit; HBool true; HValue None; HValue (Some 20)], t, e') /\
    hashtable_rep (fun _ => 5) (fun z => z) t {[2 := (2, Some 20)]} /\
    e' ≡ₚ [KeyDestroy (Some 1); ValueDestroy (Some 10); KeyDestroy (Some 1); ValueDestroy (Some 11)].
Proof.
  split; [by vm_compute|].
  pose proof (kr_hashtable_refines_map (K:=Z) (V:=Z) (fun _ => 5) (Some Z.eqb) (fun z => z) true true
    [HInsert 1 (Some 10); HInsert 2 (Some 20); HReplace 1 (Some 11); HRemove 1; HLookup 1; HLookup 2]
    ltac:(by vm_compute)) as H.
  match type of H with context [spec_hops ?r ?kd ?vd ?os ?m] =>
    replace (spec_hops r kd vd os m) with
      ([HUnit; HUnit; HUnit; HBool true; HValue None; HValue (Some 20)],
       {[2 := (2, Some 20)]} : gmap Z (Z * option Z),
       [KeyDestroy (Some 1); ValueDestroy (Some 10); KeyDestroy (Some 1); ValueDestroy (Some 11)])
      in H by by vm_compute end.
  exact H.
Defined.

Lemma demo_empty_rep : hashtable_rep (V:=Z) (fun _ : Z => 5) (fun z : Z => z)
  (mkHashTable 8 7 7 0 0 (replicate 8 empty_node) 1 false false) ∅.
Proof.
  destruct (new_full_spec (V:=Z) (fun _ : Z => 5) (fun z : Z => z) false false)
    as (t & Ht & Hrep & _).
  vm_compute in Ht. injection Ht as <-. done.
Qed.

Lemma demo_table_rep : exists t, hashtable_rep (V:=Z) (fun _ : Z => 5) (fun z : Z => z) t {[7 := (7, Some 70)]}.
Proof.
  destruct (insert_internal_spec (fun _ : Z => 5) (Some Z.eqb) (fun z : Z => z) _ _ 7 (Some 70) false
    demo_empty_rep) as (t & _ & Hrep & _); [by vm_compute|]. exists t.
  rewrite lookup_empty, insert_empty in Hrep. done.
Qed.

Lemma kr_hashtable_foreach_remove_filters_witness :
  exists t (t' : T_KRHashTable (K:=Z) (V:=Z)) es,
    kr_hashtable_foreach_remove_or_steal t (pure_callback (fun k _ => bool_decide (k = Some 7)))
      tt true = Ok (Z.of_nat (length es), t', concat (map (destroyed t true) es), tt) /\
    hashtable_rep (fun _ => 5) (fun z => z) t' ∅ /\ es ≡ₚ [(7, Some 70)].
Proof.
  destruct demo_table_rep as [t Hrep]. exists t.
  exact (kr_hashtable_foreach_remove_filters (fun _ => 5) (Some Z.eqb) (fun z => z)
    (fun k _ => bool_decide (k = Some 7)) t {[7 := (7, Some 70)]} true Hrep).
Defined.

Lemma kr_hashtable_iteration_witness :
  exists t : T_KRHashTable (K:=Z) (V:=Z),
  (exists es, es ≡ₚ [(7, (7, Some 70))] /\
     kr_hashtable_foreach t (fun k v a => (k, v) :: a) [] =
     foldl (fun a b => (Some b.2.1, b.2.2) :: a) [] es) /\
  ((exists c k v, ({[7 := (7, Some 70)]} : gmap Z (Z * option Z)) !! c = Some (k, v) /\
      bool_decide (Some k = Some 7) = true /\
      kr_hashtable_find (Some t) (Some (fun k _ => bool_decide (k = Some 7))) = v) \/
   (kr_hashtable_find (Some t) (Some (fun k _ => bool_decide (k = Some 7))) = None /\
    forall c k v, ({[7 := (7, Some 70)]} : gmap Z (Z * option Z)) !! c = Some (k, v) ->
      bool_decide (Some k = Some 7) = false)).
Proof.
  destruct demo_table_rep as [t Hrep]. exists t.
  exact (kr_hashtable_iteration (fun _ => 5) (fun z => z) t {[7 := (7, Some 70)]}
    (fun k v a => (k, v) :: a) [] (fun k _ => bool_decide (k = Some 7)) Hrep).
Defined.

(** Clients reason by the lemmas on the operations, never by their code. *)
#[global] Arguments kr_hashtable_lookup : simpl never.
#[global] Arguments kr_hashtable_lookup_extended : simpl never.
#[global] Arguments kr_hashtable_insert_internal : simpl never.
#[global] Arguments kr_hashtable_insert : simpl never.
#[global] Arguments kr_hashtable_replace : simpl never.
#[global] Arguments kr_hashtable_remove_internal : simpl never.
#[global] Arguments kr_hashtable_remove : simpl never.
#[global] Arguments kr_hashtable_new_full : simpl never.
