(* ===== verification/KrTypes.v ===== *)
(** The values of krutils/kr_types.h: the type tags, the value union with its
    indicator, and the hash, equality and duplication functions chosen by type.

    A [double] is an IEEE 754 binary64 datum of the Standard Library's [SpecFloat],
    with its rounding (to nearest, ties to even).  A [void *] to a value is the value
    it points to with its type ([valptr]); [P] is the type of the other pointers. *)

From S2P Require Import Prelude KrString KrHashtable.
From Stdlib Require Import SpecFloat.
Local Open Scope Z_scope.

(** * Doubles *)

Definition double := spec_float.
Notation PREC := 53 (only parsing).
Notation EMAX := 1024 (only parsing).

#[export] Instance double_eq_dec : EqDecision double.
Proof. intros x y. unfold Decision. decide equality; try apply Z.eq_dec; try apply Pos.eq_dec; apply bool_dec. Defined.

Definition d_of_Z (z : Z) : double := binary_normalize PREC EMAX z 0 false.
Definition d_add : double -> double -> double := SFadd PREC EMAX.
Definition d_sub : double -> double -> double := SFsub PREC EMAX.
Definition d_mul : double -> double -> double := SFmul PREC EMAX.
Definition d_div : double -> double -> double := SFdiv PREC EMAX.
Definition d_lt : double -> double -> bool := SFltb.
Definition d_le : double -> double -> bool := SFleb.
Definition d_eq : double -> double -> bool := SFeqb.
Definition d_zero : double := S754_zero false.

(** The integer part, rounded towards zero; [None] for infinities and NaN. *)
Definition d_trunc (d : double) : option Z :=
  match d with
  | S754_zero _ => Some 0
  | S754_infinity _ => None
  | S754_nan => None
  | S754_finite s m e =>
      let a := if e <? 0 then Z.pos m / 2 ^ (- e) else Z.pos m * 2 ^ e in
      Some (if s then - a else a)
  end.

(** A C conversion to an integer type of range [lo, hi]: defined when the integer
    part is in the range. *)
Definition d_to_int (lo hi : Z) (d : double) : res Z :=
  match d_trunc d with
  | Some z => if (lo <=? z) && (z <=? hi) then Ok z else Fault BadConversion
  | None => Fault BadConversion
  end.

Definition LONG_MIN : Z := -9223372036854775808.
Definition LONG_MAX : Z := 9223372036854775807.
Definition d_to_i32 : double -> res Z := d_to_int INT_MIN INT_MAX.
Definition d_to_i64 : double -> res Z := d_to_int LONG_MIN LONG_MAX.

(** * Types and values *)

Inductive E_KRType :=
  | KR_TYPE_BOOL | KR_TYPE_CHAR | KR_TYPE_INT | KR_TYPE_LONG | KR_TYPE_DOUBLE
  | KR_TYPE_STRING | KR_TYPE_POINTER | KR_TYPE_UNKNOWN.

#[export] Instance E_KRType_eq_dec : EqDecision E_KRType.
Proof. solve_decision. Defined.

Inductive E_KRValueInd := KR_VALUE_UNSET | KR_VALUE_SETED.

#[export] Instance E_KRValueInd_eq_dec : EqDecision E_KRValueInd.
Proof. solve_decision. Defined.

Section Values.
Context {P : Type}.

(** The union, with the member last written; [KRZero] is the union after [calloc] or
    [memset], every member of which reads as zero. *)
Inductive U_KRValue :=
  | KRZero
  | KRBool (b : Z)
  | KRChar (c : Z)
  | KRInt (i : Z)
  | KRLong (l : Z)
  | KRDouble (d : double)
  | KRString (s : option string)
  | KRPointer (p : option P).

(** The members; reading one that was not written is a [TypePun]. *)
Definition get_b (u : U_KRValue) : res Z :=
  match u with KRZero => Ok 0 | KRBool b => Ok b | _ => Fault TypePun end.
Definition get_i (u : U_KRValue) : res Z :=
  match u with KRZero => Ok 0 | KRInt i => Ok i | _ => Fault TypePun end.
Definition get_l (u : U_KRValue) : res Z :=
  match u with KRZero => Ok 0 | KRLong l => Ok l | _ => Fault TypePun end.
Definition get_d (u : U_KRValue) : res double :=
  match u with KRZero => Ok d_zero | KRDouble d => Ok d | _ => Fault TypePun end.
Definition get_s (u : U_KRValue) : res (option string) :=
  match u with KRZero => Ok None | KRString s => Ok s | _ => Fault TypePun end.
Definition get_p (u : U_KRValue) : res (option P) :=
  match u with KRZero => Ok None | KRPointer p => Ok p | _ => Fault TypePun end.

(** A non-[NULL] [void *] to a value, with what is there. *)
Inductive valptr :=
  | VBool (b : Z) | VInt (i : Z) | VLong (l : Z) | VDouble (d : double)
  | VString (s : string) | VPointer (p : P).

(** [kr_get_value]: the address of the member of the type, or the member itself for
    the pointer types; [None] is [NULL]. *)
Definition kr_get_value (value : U_KRValue) (type : E_KRType) : res (option valptr) :=
  match type with
  | KR_TYPE_BOOL => b ← get_b value; Ok (Some (VBool b))
  | KR_TYPE_INT => i ← get_i value; Ok (Some (VInt i))
  | KR_TYPE_LONG => l ← get_l value; Ok (Some (VLong l))
  | KR_TYPE_DOUBLE => d ← get_d value; Ok (Some (VDouble d))
  | KR_TYPE_STRING => s ← get_s value; Ok (option_map VString s)
  | KR_TYPE_POINTER => p ← get_p value; Ok (option_map VPointer p)
  | _ => Ok None
  end.

End Values.
Arguments U_KRValue P : clear implicits.
Arguments valptr P : clear implicits.

(** * Hash, equality and duplication functions *)

Definition kr_int_hash (v : Z) : Z := u32 v.
Definition kr_long_hash (v : Z) : Z := u32 v.

(** A conversion out of range gives some value, here 0: a table works with any. *)
Definition kr_double_hash (v : double) : Z :=
  match d_to_int 0 UINT_MAX v with Ok z => z | Fault _ => 0 end.
Definition kr_pointer_hash (v : Z) : Z := u32 v.

Definition kr_int_equal (v1 v2 : Z) : bool := v1 =? v2.
Definition kr_long_equal (v1 v2 : Z) : bool := v1 =? v2.
Definition kr_double_equal (v1 v2 : double) : bool := d_eq v1 v2.
Definition kr_pointer_equal (v1 v2 : Z) : bool := v1 =? v2.

Definition kr_int_dup (key : Z) : Z := key.
Definition kr_long_dup (key : Z) : Z := key.
Definition kr_double_dup (key : double) : double := key.
Definition kr_pointer_dup (key : Z) : Z := key.

(** A [const void *] key, as what it points to; a pointer key is its address. *)
Inductive keyptr :=
  | KeyInt (i : Z) | KeyLong (l : Z) | KeyDouble (d : double) | KeyString (s : string)
  | KeyPointer (p : Z).

#[export] Instance keyptr_eq_dec : EqDecision keyptr.
Proof. solve_decision. Defined.

#[export] Instance double_countable : Countable double.
Proof.
  refine (inj_countable'
    (fun d : double => match d with
       | S754_zero s => inl (inl s) | S754_infinity s => inl (inr s)
       | S754_nan => inr (inl tt) | S754_finite s m e => inr (inr (s, m, e)) end)
    (fun x => match x with
       | inl (inl s) => S754_zero s | inl (inr s) => S754_infinity s
       | inr (inl _) => S754_nan | inr (inr (s, m, e)) => S754_finite s m e end) _).
  by intros [].
Defined.

#[export] Instance keyptr_countable : Countable keyptr.
Proof.
  refine (inj_countable'
    (fun k => match k with
       | KeyInt i => inl (inl i) | KeyLong l => inl (inr (inl l)) | KeyDouble d => inl (inr (inr d))
       | KeyString s => inr (inl s) | KeyPointer p => inr (inr p) end)
    (fun x => match x with
       | inl (inl i) => KeyInt i | inl (inr (inl l)) => KeyLong l | inl (inr (inr d)) => KeyDouble d
       | inr (inl s) => KeyString s | inr (inr p) => KeyPointer p end) _).
  by intros [].
Defined.

(** The functions of a type applied to keys; a key of another type is misread. *)
Definition kr_get_hash_func (type : E_KRType) : option (keyptr -> res Z) :=
  match type with
  | KR_TYPE_INT => Some (fun k => match k with KeyInt i => Ok (kr_int_hash i) | _ => Fault TypePun end)
  | KR_TYPE_LONG => Some (fun k => match k with KeyLong l => Ok (kr_long_hash l) | _ => Fault TypePun end)
  | KR_TYPE_DOUBLE => Some (fun k => match k with KeyDouble d => Ok (kr_double_hash d) | _ => Fault TypePun end)
  | KR_TYPE_STRING => Some (fun k => match k with KeyString s => Ok (kr_string_hash s) | _ => Fault TypePun end)
  | KR_TYPE_POINTER => Some (fun k => match k with KeyPointer p => Ok (kr_pointer_hash p) | _ => Fault TypePun end)
  | _ => None
  end.

Definition kr_get_equal_func (type : E_KRType) : option (keyptr -> keyptr -> res bool) :=
  match type with
  | KR_TYPE_INT => Some (fun a b => match a, b with
      | KeyInt x, KeyInt y => Ok (kr_int_equal x y) | _, _ => Fault TypePun end)
  | KR_TYPE_LONG => Some (fun a b => match a, b with
      | KeyLong x, KeyLong y => Ok (kr_long_equal x y) | _, _ => Fault TypePun end)
  | KR_TYPE_DOUBLE => Some (fun a b => match a, b with
      | KeyDouble x, KeyDouble y => Ok (kr_double_equal x y) | _, _ => Fault TypePun end)
  | KR_TYPE_STRING => Some (fun a b => match a, b with
      | KeyString x, KeyString y => Ok (kr_string_equal x y) | _, _ => Fault TypePun end)
  | KR_TYPE_POINTER => Some (fun a b => match a, b with
      | KeyPointer x, KeyPointer y => Ok (kr_pointer_equal x y) | _, _ => Fault TypePun end)
  | _ => None
  end.

Definition kr_get_dup_func (type : E_KRType) : option (keyptr -> res keyptr) :=
  match type with
  | KR_TYPE_INT => Some (fun k => match k with KeyInt i => Ok (KeyInt (kr_int_dup i)) | _ => Fault TypePun end)
  | KR_TYPE_LONG => Some (fun k => match k with KeyLong l => Ok (KeyLong (kr_long_dup l)) | _ => Fault TypePun end)
  | KR_TYPE_DOUBLE => Some (fun k => match k with KeyDouble d => Ok (KeyDouble (kr_double_dup d)) | _ => Fault TypePun end)
  | KR_TYPE_STRING => Some (fun k => match k with KeyString s => Ok (KeyString (kr_string_dup s)) | _ => Fault TypePun end)
  | KR_TYPE_POINTER => Some (fun k => match k with KeyPointer p => Ok (KeyPointer (kr_pointer_dup p)) | _ => Fault TypePun end)
  | _ => None
  end.

(** The type a key is read at. *)
Definition key_type (k : keyptr) : E_KRType :=
  match k with
  | KeyInt _ => KR_TYPE_INT | KeyLong _ => KR_TYPE_LONG | KeyDouble _ => KR_TYPE_DOUBLE
  | KeyString _ => KR_TYPE_STRING | KeyPointer _ => KR_TYPE_POINTER
  end.

(** * The functions fit the hash table *)

#[export] Instance int_keys : HashKeys kr_int_hash (Some kr_int_equal) (fun z : Z => z).
Proof.
  split; [|by intros ? ? ->]. intros k1 k2. unfold kr_int_equal.
  destruct (Z.eqb_spec k1 k2); by case_bool_decide.
Qed.

#[export] Instance long_keys : HashKeys kr_long_hash (Some kr_long_equal) (fun z : Z => z).
Proof. apply int_keys. Qed.

#[export] Instance pointer_keys : HashKeys kr_pointer_hash None (fun z : Z => z).
Proof. split; [done|by intros ? ? ->]. Qed.

#[export] Instance string_keys :
  HashKeys kr_string_hash (Some kr_string_equal) (fun s : string => s).
Proof.
  split; [|by intros ? ? ->]. intros k1 k2.
  pose proof (kr_string_equal_iff k1 k2).
  destruct (kr_string_equal k1 k2); case_bool_decide; naive_solver.
Qed.

(** * Integers are exact

    An integer of fewer than 54 bits is a double, and converts back to itself. *)

Lemma digits2_pos_lower m : 2 ^ (Z.pos (digits2_pos m) - 1) <= Z.pos m.
Proof.
  induction m as [m IH|m IH|]; simpl digits2_pos; [| |by vm_compute];
    rewrite Pos2Z.inj_succ;
    replace (Z.succ (Z.pos (digits2_pos m)) - 1) with (1 + (Z.pos (digits2_pos m) - 1)) by lia;
    rewrite Z.pow_add_r by lia; change (2 ^ 1) with 2; lia.
Qed.

Lemma digits2_pos_iter m p :
  Z.pos (digits2_pos (Pos.iter xO m p)) = Z.pos (digits2_pos m) + Z.pos p.
Proof.
  induction p as [|p IH] using Pos.peano_ind; [simpl; lia|].
  rewrite Pos.iter_succ. simpl. lia.
Qed.

Lemma iter_xO_value m p : Z.pos (Pos.iter xO m p) = Z.pos m * 2 ^ Z.pos p.
Proof.
  induction p as [|p IH] using Pos.peano_ind; [simpl; lia|].
  rewrite Pos.iter_succ, Pos2Z.inj_succ, Z.pow_succ_r by lia.
  change (Z.pos (Pos.iter xO m p)~0) with (2 * Z.pos (Pos.iter xO m p)). lia.
Qed.

(** A mantissa of 53 bits is rounded to itself. *)
Lemma binary_round_aux_exact s m e :
  Z.pos (digits2_pos m) = 53 -> -1074 <= e <= 971 ->
  binary_round_aux PREC EMAX s (Z.pos m) e loc_Exact = S754_finite s m e.
Proof.
  intros Hd He.
  assert (Hs : forall mx, mx = Z.pos m ->
    shr_fexp PREC EMAX mx e loc_Exact = (Build_shr_record (Z.pos m) false false, e)).
  { intros mx ->. unfold shr_fexp, fexp, emin. simpl Zdigits2. rewrite Hd.
    replace (Z.max (53 + e - 53) (3 - 1024 - 53) - e) with 0 by lia. done. }
  unfold binary_round_aux. rewrite Hs by done. cbn [shr_m loc_of_shr_record round_nearest_even].
  rewrite Hs by done. cbn [shr_m].
  assert ((e <=? 1024 - 53) = true) as -> by (apply Z.leb_le; lia). done.
Qed.

Lemma binary_round_pos s m :
  Z.pos m < 2 ^ 53 -> exists m' e, binary_round PREC EMAX s m 0 = S754_finite s m' e /\
    -52 <= e <= 0 /\ Z.pos m' = Z.pos m * 2 ^ (- e).
Proof.
  intros Hm. pose proof (digits2_pos_lower m) as Hlo.
  assert (Hd : Z.pos (digits2_pos m) <= 53).
  { destruct (decide (Z.pos (digits2_pos m) <= 53)) as [|Hgt]; [done|].
    assert (2 ^ 53 <= 2 ^ (Z.pos (digits2_pos m) - 1)) by (apply Z.pow_le_mono_r; lia). lia. }
  unfold binary_round, fexp, emin.
  replace (Z.max (Z.pos (digits2_pos m) + 0 - 53) (3 - 1024 - 53))
    with (Z.pos (digits2_pos m) - 53) by lia.
  unfold shl_align. rewrite Z.sub_0_r.
  destruct (Z.pos (digits2_pos m) - 53) as [|p|p] eqn:He; [| lia |].
  - rewrite binary_round_aux_exact by lia. exists m, 0. simpl. split_and!; (done || lia).
  - rewrite binary_round_aux_exact; [| |lia].
    + exists (Pos.iter xO m p), (Z.neg p). split_and!; try done; try lia. apply iter_xO_value.
    + rewrite digits2_pos_iter. lia.
Qed.

Lemma d_trunc_of_Z z : - 2 ^ 53 < z < 2 ^ 53 -> d_trunc (d_of_Z z) = Some z.
Proof.
  intros Hz. unfold d_of_Z, binary_normalize. destruct z as [|m|m]; [done| |].
  - destruct (binary_round_pos false m) as (m' & e & -> & He & Hm'); [lia|]. simpl d_trunc.
    f_equal. destruct (e <? 0) eqn:Hneg; zbool.
    + rewrite Hm', Z.div_mul; [done|]. pose proof (Z.pow_pos_nonneg 2 (- e)). lia.
    + assert (e = 0) as -> by lia. rewrite Hm'. simpl (- 0). change (2 ^ 0) with 1. lia.
  - destruct (binary_round_pos true m) as (m' & e & -> & He & Hm'); [lia|]. simpl d_trunc.
    f_equal. destruct (e <? 0) eqn:Hneg; zbool.
    + rewrite Hm', Z.div_mul; [lia|]. pose proof (Z.pow_pos_nonneg 2 (- e)). lia.
    + assert (e = 0) as -> by lia. rewrite Hm'. simpl (- 0). change (2 ^ 0) with 1. lia.
Qed.

Lemma d_to_i32_of_Z z : INT_MIN <= z <= INT_MAX -> d_to_i32 (d_of_Z z) = Ok z.
Proof.
  intros Hz. unfold INT_MIN, INT_MAX in *. unfold d_to_i32, d_to_int.
  rewrite d_trunc_of_Z by lia. unfold INT_MIN, INT_MAX.
  assert (((-2147483648 <=? z) && (z <=? 2147483647)) = true) as ->; [|done].
  apply andb_true_iff. split; lia.
Qed.

(** ** Exact arithmetic

    Rounding gives back a number that 53 bits hold, however its mantissa is shifted. *)

(** The mantissa [q] of 53 bits and the exponent [e] of an integer. *)
Definition holds_int (a : Z) (q : positive) (e : Z) : Prop :=
  Z.pos (digits2_pos q) = 53 /\ -52 <= e <= 0 /\ Z.pos q = a * 2 ^ (- e).

Lemma digits2_pos_upper m : Z.pos m < 2 ^ Z.pos (digits2_pos m).
Proof.
  induction m as [m IH|m IH|]; simpl digits2_pos; [| |by vm_compute];
    rewrite Pos2Z.inj_succ, Z.pow_succ_r by lia; lia.
Qed.

Lemma digits2_pos_unique m n : 0 <= n -> 2 ^ n <= Z.pos m < 2 ^ (n + 1) -> Z.pos (digits2_pos m) = n + 1.
Proof.
  intros Hn [H1 H2]. pose proof (digits2_pos_lower m) as Hl. pose proof (digits2_pos_upper m) as Hu.
  assert (n < Z.pos (digits2_pos m)) by (apply (Z.pow_lt_mono_r_iff 2); lia).
  assert (Z.pos (digits2_pos m) - 1 < n + 1) by (apply (Z.pow_lt_mono_r_iff 2); lia). lia.
Qed.

Lemma digits2_pos_bound m : 2 ^ 52 <= Z.pos m < 2 ^ 53 <-> Z.pos (digits2_pos m) = 53.
Proof.
  split; [apply (digits2_pos_unique m 52); lia|]. intros H.
  pose proof (digits2_pos_lower m) as Hl. pose proof (digits2_pos_upper m) as Hu. rewrite H in Hl, Hu. done.
Qed.

Lemma shr_1_double m : shr_1 (Build_shr_record (Z.pos m~0) false false) = Build_shr_record (Z.pos m) false false.
Proof. done. Qed.

Lemma iter_pos_comm {A} (f : A -> A) p x : iter_pos f p (f x) = f (iter_pos f p x).
Proof. revert x. induction p as [p IH|p IH|]; intros x; simpl; [by rewrite !IH|by rewrite !IH|done]. Qed.

Lemma iter_pos_succ {A} (f : A -> A) p x : iter_pos f (Pos.succ p) x = f (iter_pos f p x).
Proof.
  revert x. induction p as [p IH|p IH|]; intros x; simpl.
  - by rewrite !IH, !iter_pos_comm.
  - by rewrite !iter_pos_comm.
  - done.
Qed.

Lemma shr_exact q p m :
  Z.pos m = Z.pos q * 2 ^ Z.pos p ->
  iter_pos shr_1 p (Build_shr_record (Z.pos m) false false) = Build_shr_record (Z.pos q) false false.
Proof.
  revert q m. induction p as [|p IH] using Pos.peano_ind; intros q m Hm.
  - change (2 ^ 1) with 2 in Hm. assert (m = q~0)%positive as -> by lia. done.
  - rewrite iter_pos_succ, (IH q~0%positive m); [done|].
    rewrite Pos2Z.inj_succ, Z.pow_succ_r in Hm by lia. lia.
Qed.

Lemma digits2_pos_shift q p m :
  Z.pos m = Z.pos q * 2 ^ p -> 0 <= p -> Z.pos (digits2_pos q) = 53 -> Z.pos (digits2_pos m) = 53 + p.
Proof.
  intros Hm Hp Hq. apply digits2_pos_bound in Hq.
  rewrite (digits2_pos_unique m (52 + p)); [lia|lia|].
  replace (52 + p + 1) with (53 + p) by lia. rewrite !Z.pow_add_r by lia. nia.
Qed.

Lemma binary_round_aux_shift s q e m e0 :
  Z.pos (digits2_pos q) = 53 -> -1074 <= e <= 971 -> e0 <= e -> Z.pos m = Z.pos q * 2 ^ (e - e0) ->
  binary_round_aux PREC EMAX s (Z.pos m) e0 loc_Exact = S754_finite s q e.
Proof.
  intros Hq He Hle Hm. pose proof (digits2_pos_shift q (e - e0) m Hm ltac:(lia) Hq) as Hd.
  destruct (decide (e0 = e)) as [->|Hne].
  { rewrite Z.sub_diag in Hm. assert (m = q) as -> by lia. by apply binary_round_aux_exact. }
  unfold binary_round_aux.
  assert (H : shr_fexp PREC EMAX (Z.pos m) e0 loc_Exact = (Build_shr_record (Z.pos q) false false, e)).
  { unfold shr_fexp, fexp, emin. cbn [Zdigits2]. rewrite Hd.
    replace (Z.max (53 + (e - e0) + e0 - 53) (3 - 1024 - 53) - e0) with (e - e0) by lia.
    unfold shr, shr_record_of_loc. destruct (e - e0) as [|p|p] eqn:E; [lia| |lia].
    rewrite (shr_exact q p m Hm). f_equal. lia. }
  rewrite H. cbn [shr_m loc_of_shr_record round_nearest_even].
  assert (H2 : shr_fexp PREC EMAX (Z.pos q) e loc_Exact = (Build_shr_record (Z.pos q) false false, e)).
  { unfold shr_fexp, fexp, emin. cbn [Zdigits2]. rewrite Hq.
    by replace (Z.max (53 + e - 53) (3 - 1024 - 53) - e) with 0 by lia. }
  rewrite H2. cbn [shr_m]. by rewrite (proj2 (Z.leb_le e (1024 - 53))) by lia.
Qed.

Lemma holds_int_exists a : 0 < a < 2 ^ 53 -> exists q e, holds_int a q e.
Proof.
  intros Ha. pose proof (Z.log2_spec a ltac:(lia)) as [H1 H2].
  assert (Hlog : 0 <= Z.log2 a < 53) by (split; [apply Z.log2_nonneg|apply Z.log2_lt_pow2; lia]).
  exists (Z.to_pos (a * 2 ^ (52 - Z.log2 a))), (Z.log2 a - 52).
  pose proof (Z.pow_pos_nonneg 2 (52 - Z.log2 a) ltac:(lia) ltac:(lia)).
  unfold holds_int. rewrite Z2Pos.id by nia. replace (- (Z.log2 a - 52)) with (52 - Z.log2 a) by lia.
  split_and!; [|lia|lia|done]. apply digits2_pos_bound. rewrite Z2Pos.id by nia.
  replace (2 ^ 52) with (2 ^ Z.log2 a * 2 ^ (52 - Z.log2 a)) by (rewrite <- Z.pow_add_r by lia; f_equal; lia).
  replace (2 ^ 53) with (2 ^ Z.succ (Z.log2 a) * 2 ^ (52 - Z.log2 a)) by (rewrite <- Z.pow_add_r by lia; f_equal; lia).
  split; [by apply Z.mul_le_mono_nonneg_r; lia|by apply Z.mul_lt_mono_pos_r].
Qed.

(** A mantissa [m] at [e0] that stands for [a] is rounded to [a]. *)
Lemma binary_round_aux_int s a q e m e0 :
  holds_int a q e -> e0 <= e -> Z.pos m * 2 ^ (e0 + 2000) = a * 2 ^ 2000 -> -2000 <= e0 ->
  binary_round_aux PREC EMAX s (Z.pos m) e0 loc_Exact = S754_finite s q e.
Proof.
  intros (Hq & He & Hv) Hle Hm H0. apply binary_round_aux_shift; [done|lia|done|].
  assert (E : a * 2 ^ 2000 = Z.pos q * 2 ^ (e + 2000)).
  { rewrite Hv, <- Z.mul_assoc, <- Z.pow_add_r by lia. do 2 f_equal. lia. }
  rewrite E in Hm. replace (e + 2000) with ((e - e0) + (e0 + 2000)) in Hm by lia.
  rewrite (Z.pow_add_r 2 (e - e0) (e0 + 2000)), Z.mul_assoc in Hm by lia.
  apply Z.mul_reg_r in Hm; [done|]. pose proof (Z.pow_pos_nonneg 2 (e0 + 2000)). lia.
Qed.

Lemma binary_round_int s a q e m e0 :
  holds_int a q e -> Z.pos m * 2 ^ (e0 + 2000) = a * 2 ^ 2000 -> -1900 <= e0 ->
  binary_round PREC EMAX s m e0 = S754_finite s q e.
Proof.
  intros Ha Hm H0. pose proof Ha as (Hq & He & Hv).
  assert (Ea : a * 2 ^ 2000 = Z.pos q * 2 ^ (e + 2000)).
  { rewrite Hv, <- Z.mul_assoc, <- Z.pow_add_r by lia. do 2 f_equal. lia. }
  assert (Hd : Z.pos (digits2_pos m) + e0 = 53 + e).
  { apply digits2_pos_bound in Hq as [Hq1 Hq2]. rewrite Ea in Hm.
    pose proof (digits2_pos_lower m) as Hl. pose proof (digits2_pos_upper m) as Hu.
    pose proof (Z.pow_pos_nonneg 2 (e0 + 2000) ltac:(lia) ltac:(lia)).
    pose proof (Z.pow_pos_nonneg 2 (e + 2000) ltac:(lia) ltac:(lia)).
    assert (L : 2 ^ (Z.pos (digits2_pos m) - 1 + (e0 + 2000)) < 2 ^ (53 + (e + 2000))).
    { rewrite (Z.pow_add_r 2 (_ - 1)), (Z.pow_add_r 2 53) by lia.
      apply Z.le_lt_trans with (Z.pos m * 2 ^ (e0 + 2000)); [by apply Z.mul_le_mono_pos_r|].
      rewrite Hm. by apply Z.mul_lt_mono_pos_r. }
    assert (U : 2 ^ (52 + (e + 2000)) < 2 ^ (Z.pos (digits2_pos m) + (e0 + 2000))).
    { rewrite (Z.pow_add_r 2 52), (Z.pow_add_r 2 (Z.pos _)) by lia.
      apply Z.le_lt_trans with (Z.pos m * 2 ^ (e0 + 2000)); [rewrite Hm; by apply Z.mul_le_mono_pos_r|].
      by apply Z.mul_lt_mono_pos_r. }
    apply Z.pow_lt_mono_r_iff in L; [|lia|lia]. apply Z.pow_lt_mono_r_iff in U; lia. }
  unfold binary_round, fexp, emin. rewrite Hd. replace (Z.max (53 + e - 53) (3 - 1024 - 53)) with e by lia.
  unfold shl_align. destruct (e - e0) as [|p|p] eqn:E.
  - apply (binary_round_aux_int s a); [done|lia|done|lia].
  - apply (binary_round_aux_int s a); [done|lia|done|lia].
  - apply (binary_round_aux_int s a); [done|lia| |lia]. rewrite iter_xO_value, <- Z.mul_assoc, <- Z.pow_add_r by lia.
    rewrite <- Hm. do 2 f_equal. lia.
Qed.

Lemma d_of_Z_holds a q e : holds_int a q e -> d_of_Z a = S754_finite false q e.
Proof.
  intros Ha. pose proof Ha as (_ & He & Hv).
  assert (0 < a) by (pose proof (Z.pow_pos_nonneg 2 (- e) ltac:(lia) ltac:(lia)); nia).
  destruct a as [|m|m]; [lia| |lia]. apply (binary_round_int false (Z.pos m)); [done|done|lia].
Qed.

Lemma d_of_Z_neg_holds a q e : holds_int a q e -> d_of_Z (- a) = S754_finite true q e.
Proof.
  intros Ha. pose proof Ha as (_ & He & Hv).
  assert (0 < a) by (pose proof (Z.pow_pos_nonneg 2 (- e) ltac:(lia) ltac:(lia)); nia).
  destruct a as [|m|m]; [lia| |lia]. apply (binary_round_int true (Z.pos m)); [done|done|lia].
Qed.

Lemma holds_int_value a q e : holds_int a q e -> Z.pos q * 2 ^ (e + 2000) = a * 2 ^ 2000.
Proof.
  intros (_ & He & ->). rewrite <- Z.mul_assoc, <- Z.pow_add_r by lia. do 2 f_equal. lia.
Qed.

Lemma mul_finite s1 s2 a b q1 e1 q2 e2 q e :
  holds_int a q1 e1 -> holds_int b q2 e2 -> holds_int (a * b) q e ->
  d_mul (S754_finite s1 q1 e1) (S754_finite s2 q2 e2) = S754_finite (xorb s1 s2) q e.
Proof.
  intros Ha Hb Hab. pose proof Ha as (_ & He1 & Hv1). pose proof Hb as (_ & He2 & Hv2).
  pose proof Hab as (Hq & He & Hv). apply digits2_pos_bound in Hq as [Hq1 Hq2].
  pose proof Ha as ([Ha1 Ha2]%digits2_pos_bound & _). pose proof Hb as ([Hb1 Hb2]%digits2_pos_bound & _).
  assert (Hm : Z.pos (q1 * q2) * 2 ^ (e1 + e2 + 2000) = a * b * 2 ^ 2000).
  { rewrite Pos2Z.inj_mul, Hv1, Hv2.
    replace (a * 2 ^ (- e1) * (b * 2 ^ (- e2)) * 2 ^ (e1 + e2 + 2000))
      with (a * b * (2 ^ (- e1) * 2 ^ (- e2) * 2 ^ (e1 + e2 + 2000))) by ring.
    rewrite <- !Z.pow_add_r by lia. do 2 f_equal. lia. }
  cbn [d_mul SFmul]. unfold d_mul, SFmul. apply (binary_round_aux_int _ (a * b)); [done| |done|lia].
  destruct (decide (e1 + e2 <= e)) as [|Hgt]; [done|exfalso].
  rewrite <- (holds_int_value _ _ _ Hab) in Hm.
  assert (H1 : 2 ^ (e + 2000) <= 2 ^ (e1 + e2 + 2000)) by (apply Z.pow_le_mono_r; lia).
  assert (H0 : 0 < 2 ^ (e + 2000)) by (apply Z.pow_pos_nonneg; lia).
  assert (H2 : Z.pos q < Z.pos (q1 * q2)) by (rewrite Pos2Z.inj_mul; nia). nia.
Qed.

Lemma d_mul_of_Z a b : 0 < a -> 0 < b -> a * b < 2 ^ 53 -> d_mul (d_of_Z a) (d_of_Z b) = d_of_Z (a * b).
Proof.
  intros Ha Hb Hab. destruct (holds_int_exists a) as (q1 & e1 & H1); [nia|].
  destruct (holds_int_exists b) as (q2 & e2 & H2); [nia|].
  destruct (holds_int_exists (a * b)) as (q & e & H); [nia|].
  by rewrite (d_of_Z_holds _ _ _ H1), (d_of_Z_holds _ _ _ H2), (d_of_Z_holds _ _ _ H), (mul_finite _ _ a b _ _ _ _ q e).
Qed.

Lemma d_mul_neg_of_Z a b :
  0 < a -> 0 < b -> a * b < 2 ^ 53 -> d_mul (d_of_Z (- a)) (d_of_Z b) = d_of_Z (- (a * b)).
Proof.
  intros Ha Hb Hab. destruct (holds_int_exists a) as (q1 & e1 & H1); [nia|].
  destruct (holds_int_exists b) as (q2 & e2 & H2); [nia|].
  destruct (holds_int_exists (a * b)) as (q & e & H); [nia|].
  by rewrite (d_of_Z_neg_holds _ _ _ H1), (d_of_Z_holds _ _ _ H2), (d_of_Z_neg_holds _ _ _ H), (mul_finite _ _ a b _ _ _ _ q e).
Qed.

Lemma shl_align_value m e e' : e' <= e -> Z.pos (shl_align m e e').1 = Z.pos m * 2 ^ (e - e').
Proof.
  intros H. unfold shl_align. destruct (e' - e) as [|p|p] eqn:E; simpl; [| lia |].
  - replace (e - e') with 0 by lia. lia.
  - rewrite iter_xO_value. do 2 f_equal. lia.
Qed.

Lemma d_add_of_Z a b : 0 < a -> 0 < b -> a + b < 2 ^ 53 -> d_add (d_of_Z a) (d_of_Z b) = d_of_Z (a + b).
Proof.
  intros Ha Hb Hab. destruct (holds_int_exists a) as (q1 & e1 & H1); [lia|].
  destruct (holds_int_exists b) as (q2 & e2 & H2); [lia|].
  destruct (holds_int_exists (a + b)) as (q & e & H); [lia|].
  rewrite (d_of_Z_holds _ _ _ H1), (d_of_Z_holds _ _ _ H2), (d_of_Z_holds _ _ _ H).
  pose proof H1 as (_ & He1 & _). pose proof H2 as (_ & He2 & _).
  unfold d_add, SFadd. cbn [cond_Zopp]. change (fst (shl_align q1 e1 (Z.min e1 e2))) with (shl_align q1 e1 (Z.min e1 e2)).1.
  change (fst (shl_align q2 e2 (Z.min e1 e2))) with (shl_align q2 e2 (Z.min e1 e2)).1.
  rewrite <- Pos2Z.inj_add. apply (binary_round_int false (a + b)); [done| |lia].
  rewrite Pos2Z.inj_add, !shl_align_value, Z.mul_add_distr_r, <- !Z.mul_assoc, <- !Z.pow_add_r by lia.
  rewrite Z.mul_add_distr_r, <- (holds_int_value _ _ _ H1), <- (holds_int_value _ _ _ H2).
  do 3 f_equal; lia.
Qed.

(** The order of integers, as doubles. *)
Lemma holds_int_le a b q1 e1 q2 e2 :
  holds_int a q1 e1 -> holds_int b q2 e2 -> a <= b -> e1 < e2 \/ e1 = e2 /\ Z.pos q1 <= Z.pos q2.
Proof.
  intros Ha Hb Hab. pose proof (holds_int_value _ _ _ Ha) as H1. pose proof (holds_int_value _ _ _ Hb) as H2.
  destruct Ha as ([Ha1 Ha2]%digits2_pos_bound & He1 & _). destruct Hb as ([Hb1 Hb2]%digits2_pos_bound & He2 & _).
  assert (Hle : Z.pos q1 * 2 ^ (e1 + 2000) <= Z.pos q2 * 2 ^ (e2 + 2000)).
  { rewrite H1, H2. apply Z.mul_le_mono_nonneg_r; [|done]. by apply Z.pow_nonneg. }
  destruct (Z.lt_trichotomy e1 e2) as [|[->|Hgt]]; [by left| |exfalso].
  - right. split; [done|]. apply Z.mul_le_mono_pos_r in Hle; [done|]. apply Z.pow_pos_nonneg; lia.
  - assert (Hp : 2 ^ (e1 + 2000) = 2 ^ (e1 - e2) * 2 ^ (e2 + 2000)) by (rewrite <- Z.pow_add_r by lia; f_equal; lia).
    assert (H0 : 0 < 2 ^ (e2 + 2000)) by (apply Z.pow_pos_nonneg; lia).
    assert (H3 : 2 ^ 1 <= 2 ^ (e1 - e2)) by (apply Z.pow_le_mono_r; lia). change (2 ^ 1) with 2 in H3.
    rewrite Hp, Z.mul_assoc in Hle. apply Z.mul_le_mono_pos_r in Hle; [|done]. nia.
Qed.

Lemma compare_cont_Eq_le p q : (p <= q)%positive -> Pos.compare_cont Eq p q = Lt \/ Pos.compare_cont Eq p q = Eq.
Proof. intros H. change (Pos.compare_cont Eq p q) with (Pos.compare p q). destruct (Pos.compare_spec p q); [by right|by left|lia]. Qed.

Lemma d_le_pos a b : 0 < a -> a <= b -> b < 2 ^ 53 ->
  d_le (d_of_Z a) (d_of_Z b) = true /\ d_le (d_of_Z (- b)) (d_of_Z (- a)) = true.
Proof.
  intros Ha Hab Hb. destruct (holds_int_exists a) as (q1 & e1 & H1); [lia|].
  destruct (holds_int_exists b) as (q2 & e2 & H2); [lia|].
  rewrite (d_of_Z_holds _ _ _ H1), (d_of_Z_holds _ _ _ H2), (d_of_Z_neg_holds _ _ _ H1), (d_of_Z_neg_holds _ _ _ H2).
  unfold d_le, SFleb, SFcompare. destruct (holds_int_le _ _ _ _ _ _ H1 H2 Hab) as [He|[-> Hq]].
  - rewrite (proj2 (Z.compare_lt_iff e1 e2)), (proj2 (Z.compare_gt_iff e2 e1)) by done. done.
  - rewrite Z.compare_refl. split.
    + by destruct (compare_cont_Eq_le q1 q2) as [-> | ->]; [lia| |].
    + change (Pos.compare_cont Eq q2 q1) with (Pos.compare q2 q1).
      destruct (Pos.compare_spec q2 q1) as [|Hlt|]; [done|lia|done].
Qed.

Lemma d_le_sign a b : 0 < a < 2 ^ 53 -> 0 <= b < 2 ^ 53 -> d_le (d_of_Z (- a)) (d_of_Z b) = true.
Proof.
  intros Ha Hb. destruct (holds_int_exists a) as (q1 & e1 & H1); [lia|]. rewrite (d_of_Z_neg_holds _ _ _ H1).
  destruct (decide (b = 0)) as [->|]; [done|].
  destruct (holds_int_exists b) as (q2 & e2 & H2); [lia|]. by rewrite (d_of_Z_holds _ _ _ H2).
Qed.

Lemma d_le_of_Z a b : - 2 ^ 53 < a -> a <= b -> b < 2 ^ 53 -> d_le (d_of_Z a) (d_of_Z b) = true.
Proof.
  intros Ha Hab Hb. destruct (decide (0 < a)) as [Hpos|Hpos]; [by apply d_le_pos|].
  destruct (decide (0 <= b)) as [Hb0|Hb0].
  - destruct (decide (a = 0)) as [->|].
    + destruct (decide (b = 0)) as [->|]; [done|].
      destruct (holds_int_exists b) as (q2 & e2 & H2); [lia|]. by rewrite (d_of_Z_holds _ _ _ H2).
    + replace a with (- - a) by lia. apply d_le_sign; lia.
  - replace a with (- - a) by lia. replace b with (- - b) by lia. apply d_le_pos; lia.
Qed.

Lemma d_sub_self a : - 2 ^ 53 < a < 2 ^ 53 -> d_sub (d_of_Z a) (d_of_Z a) = d_zero.
Proof.
  intros Ha. destruct (Z.lt_trichotomy a 0) as [Hn|[->|Hp]]; [|done|].
  - replace a with (- - a) by lia. destruct (holds_int_exists (- a)) as (q & e & H); [lia|].
    rewrite (d_of_Z_neg_holds _ _ _ H). unfold d_sub, SFsub. by rewrite Z.sub_diag.
  - destruct (holds_int_exists a) as (q & e & H); [lia|].
    rewrite (d_of_Z_holds _ _ _ H). unfold d_sub, SFsub. by rewrite Z.sub_diag.
Qed.



