(* ===== verification/KrHashset.v ===== *)
(** The two small clients of the hash table: the typed set of krutils/kr_hashset.c
    and the table of named functions of krutils/kr_functable.c.

    A set copies its elements (with the duplication function of its type), so an
    element is what its [void *] points to. *)

From S2P Require Import Prelude KrString KrHashtable KrTypes.
From Stdlib Require Import Ascii String SpecFloat.
Local Open Scope Z_scope.
#[local] Notation length := List.length.

(** * The table of functions *)

Section Functable.
Context {F : Type}.

(** The names are copied by [kr_string_dup] and freed by [kr_free]. *)
Record T_KRFuncTable := mkFuncTable {
  ft_name : string;
  ft_table : T_KRHashTable (K:=string) (V:=F)
}.

Definition kr_functable_create (name : string) : res T_KRFuncTable :=
  t ← kr_hashtable_new_full true false;
  mret (mkFuncTable name t).

Definition kr_functable_search (func_table : T_KRFuncTable) (func_name : string)
    : res (option F) :=
  kr_hashtable_lookup kr_string_hash (Some kr_string_equal) (Some (ft_table func_table)) func_name.

Definition kr_functable_register (func_table : T_KRFuncTable) (func_name : string)
    (func : option F) : res (Z * T_KRFuncTable * list (event (K:=string) (V:=F))) :=
  let dup_key := kr_string_dup func_name in
  '(t, evs) ← kr_hashtable_insert kr_string_hash (Some kr_string_equal)
                (ft_table func_table) dup_key func;
  mret (0, mkFuncTable (ft_name func_table) t, evs).

Definition kr_functable_unregister (func_table : T_KRFuncTable) (func_name : string)
    : res (Z * T_KRFuncTable * list (event (K:=string) (V:=F))) :=
  '(_, ot, evs) ← kr_hashtable_remove kr_string_hash (Some kr_string_equal)
                    (Some (ft_table func_table)) func_name;
  t ← of_option NullDeref ot;
  mret (0, mkFuncTable (ft_name func_table) t, evs).

(** The strings freed when the table is destroyed. *)
Definition kr_functable_destroy (func_table : option T_KRFuncTable)
    : res (list (event (K:=string) (V:=F))) :=
  match func_table with
  | Some ft => kr_hashtable_destroy (ft_table ft)
  | None => Ok []
  end.

(** The table and the functions registered under each name. *)
Definition functable_rep (ft : T_KRFuncTable) (fs : gmap string (option F)) : Prop :=
  exists m, hashtable_rep kr_string_hash (fun s => s) (ft_table ft) m /\
    (forall name, snd <$> m !! name = fs !! name) /\
    (forall name b, m !! name = Some b -> b.1 = name) /\ base.size m = base.size fs.

Inductive fop := Register (name : string) (f : option F) | Unregister (name : string).

Definition run_fop (ft : T_KRFuncTable) (o : fop) : res T_KRFuncTable :=
  match o with
  | Register name f => '(_, ft, _) ← kr_functable_register ft name f; mret ft
  | Unregister name => '(_, ft, _) ← kr_functable_unregister ft name; mret ft
  end.

Fixpoint run_fops (os : list fop) (ft : T_KRFuncTable) : res T_KRFuncTable :=
  match os with
  | [] => mret ft
  | o :: os' => ft ← run_fop ft o; run_fops os' ft
  end.

Definition spec_fop (fs : gmap string (option F)) (o : fop) : gmap string (option F) :=
  match o with
  | Register name f => <[name := f]> fs
  | Unregister name => delete name fs
  end.

Lemma functable_size (fs : gmap string (option F)) m :
  (forall name, snd <$> m !! name = fs !! name) ->
  base.size (m : gmap string (string * option F)) = base.size fs.
Proof.
  intros Hm. replace fs with (snd <$> m : gmap string (option F)).
  { by rewrite map_size_fmap. }
  apply map_eq. intros name. by rewrite lookup_fmap.
Qed.

Lemma run_fop_spec ft (fs : gmap string (option F)) o :
  functable_rep ft fs -> Z.of_nat (base.size fs) < MAX_ENTRIES ->
  exists ft', run_fop ft o = Ok ft' /\ functable_rep ft' (spec_fop fs o) /\
    (base.size (spec_fop fs o) <= S (base.size fs))%nat.
Proof.
  intros (m & Hrep & Hm & Hk & Hsz) Hmax. destruct o as [name f|name]; simpl.
  - unfold kr_functable_register, kr_hashtable_insert. rewrite kr_string_dup_id.
    destruct (insert_internal_spec kr_string_hash (Some kr_string_equal) (fun s => s)
      (ft_table ft) m name f false Hrep) as (t' & -> & Hrep' & _); [by rewrite Hsz|].
    simpl. eexists. split; [done|]. split.
    + assert (Hm' : forall n, snd <$> (<[name := (kept_key false (m !! name) name, f)]> m
        : gmap string _) !! n = (<[name := f]> fs) !! n).
      { intros n. destruct (decide (n = name)) as [->|Hn].
        - by rewrite !lookup_insert_eq.
        - rewrite !lookup_insert_ne by done. apply Hm. }
      eexists. split; [exact Hrep'|]. split; [done|]. split; [|by apply functable_size].
      intros n b. destruct (decide (n = name)) as [->|Hn].
      * rewrite lookup_insert_eq. intros [= <-]. simpl.
        destruct (m !! name) as [[k' v']|] eqn:Hmn; simpl; [|done]. by apply Hk in Hmn.
      * rewrite lookup_insert_ne by done. apply Hk.
    + rewrite map_size_insert. destruct (fs !! name); simpl; lia.
  - unfold kr_functable_unregister, kr_hashtable_remove.
    destruct (remove_internal_spec kr_string_hash (Some kr_string_equal) (fun s => s)
      (ft_table ft) m name true Hrep) as (t' & -> & Hrep' & _).
    simpl. eexists. split; [done|]. split.
    + assert (Hm' : forall n, snd <$> (delete name m) !! n = (delete name fs) !! n).
      { intros n. destruct (decide (n = name)) as [->|Hn].
        - by rewrite !lookup_delete_eq.
        - rewrite !lookup_delete_ne by done. apply Hm. }
      eexists. split; [exact Hrep'|]. split; [done|]. split; [|by apply functable_size].
      intros n b [_ Hb]%lookup_delete_Some. by apply Hk.
    + rewrite map_size_delete. destruct (fs !! name); simpl; lia.
Qed.

Lemma run_fops_spec ft (fs : gmap string (option F)) os :
  functable_rep ft fs -> Z.of_nat (base.size fs + length os) <= MAX_ENTRIES ->
  exists ft', run_fops os ft = Ok ft' /\ functable_rep ft' (foldl spec_fop fs os).
Proof.
  revert ft fs. induction os as [|o os IH]; intros ft fs Hrep Hmax; simpl in *.
  { by exists ft. }
  destruct (run_fop_spec ft fs o Hrep) as (ft1 & -> & Hrep1 & Hsz); [lia|]. simpl.
  apply IH; [done|]. lia.
Qed.

Lemma functable_create_spec (name : string) :
  exists ft0, kr_functable_create name = Ok ft0 /\ functable_rep ft0 ∅.
Proof.
  unfold kr_functable_create.
  destruct (new_full_spec (V:=F) kr_string_hash (fun s : string => s) true false)
    as (t & -> & Hrep & _). simpl. eexists. split; [done|].
  exists ∅. split; [done|]. split; [|split; [|done]].
  - intros nm. by rewrite !lookup_empty.
  - intros nm b. by rewrite lookup_empty.
Qed.

Lemma functable_search_spec ft (fs : gmap string (option F)) name :
  functable_rep ft fs -> kr_functable_search ft name = Ok (default None (fs !! name)).
Proof.
  intros (m & Hrep & Hm & _). unfold kr_functable_search.
  rewrite (lookup_spec kr_string_hash (Some kr_string_equal) (fun s => s) (ft_table ft) m name Hrep).
  rewrite <- Hm. by destruct (m !! name) as [[??]|].
Qed.
End Functable.

(** * The set *)

Record T_KRHashSet := mkHashSet {
  hs_name : string;
  hs_type : E_KRType;
  hs_set : T_KRHashTable (K:=keyptr) (V:=keyptr)
}.

#[export] Instance T_KRHashSet_inhabited : Inhabited T_KRHashSet :=
  populate (mkHashSet EmptyString KR_TYPE_UNKNOWN (mkHashTable 0 0 0 0 0 [] 0 false false)).

(** The hash and equality functions the table of a set of this type is created with,
    on keys of the type.  (A type without functions gets the pointer functions; such
    a set stays empty.)  What they do on keys of another type is not used: the
    operations below read the element at the type of the set first. *)
Definition set_hash (type : E_KRType) (k : keyptr) : Z :=
  match kr_get_hash_func type with
  | Some f => match f k with Ok h => h | Fault _ => 0 end
  | None => 0
  end.
Definition set_equal (type : E_KRType) : option (keyptr -> keyptr -> bool) :=
  match kr_get_equal_func type with
  | Some f => Some (fun a b => match f a b with Ok e => e | Fault _ => bool_decide (a = b) end)
  | None => None
  end.

(** An element is read at the type of the set. *)
Definition read_element (type : E_KRType) (element : keyptr) : res unit :=
  match kr_get_hash_func type with
  | Some f => _ ← f element; Ok tt
  | None => Ok tt
  end.

Definition kr_hashset_create (name : string) (key_type : E_KRType) : res T_KRHashSet :=
  t ← kr_hashtable_new_full true false;
  mret (mkHashSet name key_type t).

Definition kr_hashset_search (krset : T_KRHashSet) (element : keyptr) : res bool :=
  read_element (hs_type krset) element;;
  entry ← kr_hashtable_lookup (set_hash (hs_type krset)) (set_equal (hs_type krset))
            (Some (hs_set krset)) element;
  mret (match entry with Some _ => true | None => false end).

Definition kr_hashset_add (krset : T_KRHashSet) (element : keyptr)
    : res (Z * T_KRHashSet * list (event (K:=keyptr) (V:=keyptr))) :=
  match kr_get_dup_func (hs_type krset) with
  | None => Fault NullDeref
  | Some dup_func =>
      dup_key ← dup_func element;
      '(t, evs) ← kr_hashtable_insert (set_hash (hs_type krset)) (set_equal (hs_type krset))
                    (hs_set krset) dup_key (Some dup_key);
      mret (0, mkHashSet (hs_name krset) (hs_type krset) t, evs)
  end.

Definition kr_hashset_remove (krset : T_KRHashSet) (element : keyptr)
    : res (Z * T_KRHashSet * list (event (K:=keyptr) (V:=keyptr))) :=
  read_element (hs_type krset) element;;
  '(_, ot, evs) ← kr_hashtable_remove (set_hash (hs_type krset)) (set_equal (hs_type krset))
                    (Some (hs_set krset)) element;
  t ← of_option NullDeref ot;
  mret (0, mkHashSet (hs_name krset) (hs_type krset) t, evs).

Definition kr_hashset_destroy (krset : option T_KRHashSet)
    : res (list (event (K:=keyptr) (V:=keyptr))) :=
  match krset with
  | Some s => kr_hashtable_destroy (hs_set s)
  | None => Ok []
  end.

(** * Making a set from a string *)

(** [strtok_r] with the separator [,]: the tokens, none of them empty; [cur] is the
    token being read. *)
Fixpoint tokens_loop (cur : string) (s : string) : list string :=
  match s with
  | EmptyString => if String.eqb cur "" then [] else [cur]
  | String c s' =>
      if Ascii.eqb c "," then
        (if String.eqb cur "" then [] else [cur]) ++ tokens_loop EmptyString s'
      else tokens_loop (cur ++ String c EmptyString)%string s'
  end.
Definition tokens (s : string) : list string := tokens_loop EmptyString s.

(** The digits at the start of a string, their value and number, and what follows. *)
Fixpoint read_digits (acc : Z) (n : Z) (s : string) : Z * Z * string :=
  match s with
  | String c s' =>
      if numeric_char c then read_digits (acc * 10 + (uchar c - 48)) (n + 1) s' else (acc, n, s)
  | EmptyString => (acc, n, s)
  end.

(** Blanks and the sign. *)
Definition read_sign (s : string) : bool * string :=
  match kr_string_ltrim s with
  | String c s' =>
      if Ascii.eqb c "-" then (true, s')
      else if Ascii.eqb c "+" then (false, s') else (false, String c s')
  | EmptyString => (false, EmptyString)
  end.

(** The C library's [atol], which is [strtol] and stops at its limits, and [atoi], its
    conversion to [int]. *)
Definition atol (s : string) : Z :=
  let '(neg, s) := read_sign s in
  let '(v, _, _) := read_digits 0 0 s in
  Z.max LONG_MIN (Z.min LONG_MAX (if neg then - v else v)).
Definition atoi (s : string) : Z := i32 (atol s).

(** [atof] on decimals with an optional fraction and exponent, correctly rounded. *)
Definition d_decimal (neg : bool) (v e : Z) : double :=
  match v with
  | Z.pos m =>
      if 0 <=? e then binary_normalize 53 1024 ((if neg then -1 else 1) * (v * 10 ^ e)) 0 neg
      else match 10 ^ (- e) with
           | Z.pos q => SFdiv 53 1024 (S754_finite neg m 0) (S754_finite false q 0)
           | _ => S754_zero neg
           end
  | _ => S754_zero neg
  end.

Definition atof (s : string) : double :=
  let '(neg, s) := read_sign s in
  let '(v, _, s) := read_digits 0 0 s in
  let '(v, k, s) := match s with
                    | String "." s' => let '(v', n, s'') := read_digits v 0 s' in (v', n, s'')
                    | _ => (v, 0, s)
                    end in
  let e := match s with
           | String "e" s' | String "E" s' =>
               let '(eneg, s') := read_sign s' in
               let '(x, _, _) := read_digits 0 0 s' in if (eneg : bool) then - x else x
           | _ => 0
           end in
  d_decimal neg v (e - k).

(** The quotes around a string token are dropped: [p + 1], less the last byte. *)
Definition unquote (p : string) : string :=
  let p := substring 1 (String.length p) p in
  cut_at (String.length p - 1) p.

Fixpoint make_loop (ps : list string) (krhashset : T_KRHashSet) : res T_KRHashSet :=
  match ps with
  | [] => Ok krhashset
  | p :: ps' =>
      krhashset ←
        match hs_type krhashset with
        | KR_TYPE_INT => '(_, s, _) ← kr_hashset_add krhashset (KeyInt (atoi p)); mret s
        | KR_TYPE_DOUBLE => '(_, s, _) ← kr_hashset_add krhashset (KeyDouble (atof p)); mret s
        | KR_TYPE_STRING => '(_, s, _) ← kr_hashset_add krhashset (KeyString (unquote p)); mret s
        | _ => mret krhashset
        end;
      make_loop ps' krhashset
  end.

Definition kr_hashset_make (key_type : E_KRType) (multi_string : string) : res T_KRHashSet :=
  krhashset ← kr_hashset_create multi_string key_type;
  make_loop (tokens multi_string) krhashset.

(** * The set represents a finite set *)

(** The types whose equality is that of what is pointed to. *)
Definition exact_type (type : E_KRType) : bool :=
  match type with KR_TYPE_INT | KR_TYPE_LONG | KR_TYPE_STRING => true | _ => false end.

Definition set_equal_fun (type : E_KRType) (a b : keyptr) : bool :=
  match kr_get_equal_func type with
  | Some f => match f a b with Ok e => e | Fault _ => bool_decide (a = b) end
  | None => bool_decide (a = b)
  end.

Lemma set_keys type : exact_type type = true ->
  HashKeys (set_hash type) (set_equal type) (fun k : keyptr => k).
Proof.
  intros Ht. split; [|by intros ? ? ->]. intros k1 k2.
  destruct type, k1, k2; try done; simpl;
    unfold kr_int_equal, kr_long_equal;
    try (match goal with |- (?x =? ?y) = _ => destruct (Z.eqb_spec x y) end;
         case_bool_decide; naive_solver).
  pose proof (kr_string_equal_iff s s0).
  destruct (kr_string_equal s s0); case_bool_decide; naive_solver.
Qed.

(** The set holds exactly the elements of [l]. *)
Definition hashset_rep (hs : T_KRHashSet) (l : list keyptr) : Prop :=
  exact_type (hs_type hs) = true /\
  exists m, hashtable_rep (set_hash (hs_type hs)) (fun k => k) (hs_set hs) m /\
    (base.size m <= length l)%nat /\
    forall k, match m !! k with
              | Some b => k ∈ l /\ b.2 <> None
              | None => k ∉ l
              end.

Lemma read_element_ok type k : exact_type type = true -> key_type k = type ->
  read_element type k = Ok tt.
Proof. by destruct type, k. Qed.

Lemma hashset_search_spec hs l k :
  hashset_rep hs l -> key_type k = hs_type hs ->
  kr_hashset_search hs k = Ok (bool_decide (k ∈ l)).
Proof.
  intros (Ht & m & Hrep & _ & Hm) Hk. unfold kr_hashset_search.
  rewrite read_element_ok by done. simpl.
  pose proof (set_keys _ Ht) as HK.
  rewrite (lookup_spec _ _ (fun k : keyptr => k) _ m k Hrep). simpl.
  specialize (Hm k). destruct (m !! k) as [[k' v]|]; simpl in *.
  - destruct Hm as [Hin Hv]. destruct v; [|done]. by rewrite bool_decide_true.
  - by rewrite bool_decide_false.
Qed.

Lemma hashset_add_spec hs l k :
  hashset_rep hs l -> key_type k = hs_type hs -> Z.of_nat (length l) < MAX_ENTRIES ->
  exists hs' evs, kr_hashset_add hs k = Ok (0, hs', evs) /\ hashset_rep hs' (k :: l) /\
    hs_type hs' = hs_type hs /\ hs_name hs' = hs_name hs.
Proof.
  intros (Ht & m & Hrep & Hsz & Hm) Hk Hmax. unfold kr_hashset_add.
  pose proof (set_keys _ Ht) as HK.
  assert (Hdup : exists f, kr_get_dup_func (hs_type hs) = Some f /\ f k = Ok k).
  { rewrite <- Hk in Ht |- *. destruct k; try done; eexists; split; try done.
    simpl. by rewrite kr_string_dup_id. }
  destruct Hdup as (f & -> & ->). simpl. unfold kr_hashtable_insert.
  destruct (insert_internal_spec (set_hash (hs_type hs)) (set_equal (hs_type hs))
    (fun k : keyptr => k) (hs_set hs) m k (Some k) false Hrep) as (t' & -> & Hrep' & _); [lia|].
  simpl. eexists _, _. split; [done|]. split; [|done]. split; [done|].
  eexists. split; [exact Hrep'|]. split.
  - rewrite map_size_insert. destruct (m !! k); simpl; lia.
  - intros k2. destruct (decide (k2 = k)) as [->|Hne].
    + rewrite lookup_insert_eq. set_solver.
    + rewrite lookup_insert_ne by done. specialize (Hm k2).
      destruct (m !! k2); set_solver.
Qed.

Lemma hashset_create_spec name type : exact_type type = true ->
  exists hs, kr_hashset_create name type = Ok hs /\ hashset_rep hs [] /\ hs_type hs = type /\
    hs_name hs = name.
Proof.
  intros Ht. unfold kr_hashset_create.
  destruct (new_full_spec (V:=keyptr) (set_hash type) (fun k : keyptr => k) true false)
    as (t & -> & Hrep & _).
  simpl. eexists. split; [done|]. split; [|done]. split; [done|]. exists ∅. split; [done|].
  rewrite map_size_empty. split; [simpl; lia|]. intros k. rewrite lookup_empty. set_solver.
Qed.

(** The element a token stands for. *)
Definition token_key (type : E_KRType) (p : string) : keyptr :=
  match type with
  | KR_TYPE_STRING => KeyString (unquote p)
  | _ => KeyInt (atoi p)
  end.

Lemma make_loop_spec ps hs l :
  hashset_rep hs l -> hs_type hs = KR_TYPE_INT \/ hs_type hs = KR_TYPE_STRING ->
  Z.of_nat (length l + length ps) <= MAX_ENTRIES ->
  exists hs', make_loop ps hs = Ok hs' /\
    hashset_rep hs' (reverse (token_key (hs_type hs) <$> ps) ++ l) /\
    hs_type hs' = hs_type hs /\ hs_name hs' = hs_name hs.
Proof.
  revert hs l. induction ps as [|p ps IH]; intros hs l Hrep Hty Hmax; simpl in *.
  { by exists hs. }
  destruct (hashset_add_spec hs l (token_key (hs_type hs) p) Hrep) as (hs1 & evs & Ha & Hr1 & Ht1 & Hn1);
    [by destruct Hty as [-> | ->]|lia|].
  assert (Hstep : match hs_type hs with
        | KR_TYPE_INT => '(_, s, _) ← kr_hashset_add hs (KeyInt (atoi p)); mret s
        | KR_TYPE_DOUBLE => '(_, s, _) ← kr_hashset_add hs (KeyDouble (atof p)); mret s
        | KR_TYPE_STRING => '(_, s, _) ← kr_hashset_add hs (KeyString (unquote p)); mret s
        | _ => mret hs
        end = Ok hs1).
  { destruct Hty as [Hty|Hty]; rewrite Hty in *; simpl in Ha; by rewrite Ha. }
  rewrite Hstep. simpl. destruct (IH hs1 (token_key (hs_type hs) p :: l)) as (hs2 & H2 & Hr2 & Ht2 & Hn2).
  { done. }
  { by rewrite Ht1. }
  { simpl. lia. }
  exists hs2. split; [done|]. split; [|by split; congruence].
  rewrite reverse_cons, <- app_assoc. rewrite Ht1 in Hr2. exact Hr2.
Qed.

(** * Properties *)

(** A table of functions behaves as a map from names: after any series of
    registrations and removals, [kr_functable_search] gives the function last
    registered under a name and not removed since, and [NULL] for the others. *)
Theorem kr_functable_refines_map {F} (name : string) (os : list (fop (F:=F))) (n : string) :
  Z.of_nat (length os) <= MAX_ENTRIES ->
  exists ft0 ft, kr_functable_create name = Ok ft0 /\ run_fops os ft0 = Ok ft /\
    kr_functable_search ft n = Ok (default None (foldl spec_fop ∅ os !! n)).
Proof.
  intros Hmax. destruct (functable_create_spec (F:=F) name) as (ft0 & Hc & Hrep).
  destruct (run_fops_spec ft0 ∅ os Hrep) as (ft & Hrun & Hft).
  { rewrite map_size_empty. simpl. lia. }
  exists ft0, ft. split; [done|]. split; [done|]. by apply functable_search_spec.
Qed.

(** The set made from a string of integers (or of quoted strings) separated by
    commas contains an element exactly when a token of the string reads as it. *)
Theorem kr_hashset_make_members (type : E_KRType) (s : string) (k : keyptr) :
  type = KR_TYPE_INT \/ type = KR_TYPE_STRING -> key_type k = type ->
  Z.of_nat (length (tokens s)) <= MAX_ENTRIES ->
  exists hs, kr_hashset_make type s = Ok hs /\ hs_type hs = type /\ hs_name hs = s /\
    kr_hashset_search hs k = Ok (bool_decide (k ∈ token_key type <$> tokens s)).
Proof.
  intros Hty Hk Hmax. unfold kr_hashset_make.
  destruct (hashset_create_spec s type) as (hs0 & -> & Hr0 & Ht0 & Hn0); [by destruct Hty as [-> | ->]|].
  simpl. destruct (make_loop_spec (tokens s) hs0 []) as (hs & -> & Hr & Ht & Hn);
    [done|by rewrite Ht0|simpl; lia|].
  exists hs. split; [done|]. split; [congruence|]. split; [congruence|].
  erewrite hashset_search_spec by (done || congruence). f_equal.
  rewrite app_nil_r, Ht0. apply bool_decide_ext. apply elem_of_reverse.
Qed.

Lemma kr_functable_refines_map_witness :
  Z.of_nat 3 <= MAX_ENTRIES /\
  exists ft0 ft, kr_functable_create (F:=nat) "t" = Ok ft0 /\
    run_fops [Register "a" (Some 1%nat); Register "b" (Some 2%nat); Unregister "a"] ft0 = Ok ft /\
    kr_functable_search ft "b" = Ok (Some 2%nat).
Proof.
  split; [by vm_compute|].
  apply (kr_functable_refines_map "t"
    [Register "a" (Some 1%nat); Register "b" (Some 2%nat); Unregister "a"] "b").
  by vm_compute.
Defined.

Lemma kr_hashset_make_members_witness :
  exists hs, kr_hashset_make KR_TYPE_INT "10,-7,10" = Ok hs /\ hs_type hs = KR_TYPE_INT /\
    hs_name hs = "10,-7,10"%string /\ kr_hashset_search hs (KeyInt (-7)) = Ok true.
Proof.
  apply (kr_hashset_make_members KR_TYPE_INT "10,-7,10" (KeyInt (-7))).
  - by left.
  - done.
  - by vm_compute.
Defined.
