(* ===== verification/KrJson.v ===== *)
(** JSON items and their text (krutils/kr_json.c).

    An item is the C structure without its links: its items are a list.  The parser walks
    over memory, the bytes from a pointer to the end of their allocation; a string in memory
    ends with a null, a body that was received does not, and a read past the last byte is a
    fault.  The printer's arrays have the sizes that the code computes.  Allocation does not
    fail; [InitHooks] and the pointer to the error are left out. *)

From S2P Require Import Prelude KrString KrHashtable KrTypes KrHashset.
From stdpp Require Import pretty.
From Stdlib Require Import Ascii String SpecFloat.
Local Open Scope Z_scope.
#[local] Notation length := List.length.

(** * Items *)

Inductive cJSON := CJson (ctype : Z) (valuestring : option string) (valueint : Z) (valuedouble : double)
  (name : option string) (items : list cJSON).

Definition cJSON_False : Z := 0.
Definition cJSON_True : Z := 1.
Definition cJSON_NULL : Z := 2.
Definition cJSON_Number : Z := 3.
Definition cJSON_String : Z := 4.
Definition cJSON_Array : Z := 5.
Definition cJSON_Object : Z := 6.
Definition cJSON_IsReference : Z := 256.

Definition ctype (j : cJSON) : Z := match j with CJson t _ _ _ _ _ => t end.
Definition valuestring (j : cJSON) : option string := match j with CJson _ s _ _ _ _ => s end.
Definition valueint (j : cJSON) : Z := match j with CJson _ _ i _ _ _ => i end.
Definition valuedouble (j : cJSON) : double := match j with CJson _ _ _ d _ _ => d end.
Definition name (j : cJSON) : option string := match j with CJson _ _ _ _ n _ => n end.
Definition items (j : cJSON) : list cJSON := match j with CJson _ _ _ _ _ c => c end.

Definition with_name (n : option string) (j : cJSON) : cJSON :=
  match j with CJson t s i d _ c => CJson t s i d n c end.
Definition with_items (c : list cJSON) (j : cJSON) : cJSON :=
  match j with CJson t s i d n _ => CJson t s i d n c end.

(** [(int)num], which the items keep beside the number.  C leaves it undefined out of the
    range of [int]; the processor gives [INT_MIN]. *)
Definition to_int (num : double) : Z :=
  match d_to_i32 num with Ok z => z | Fault _ => INT_MIN end.

(** The names are compared without case; an item without name matches no name. *)
Fixpoint string_map (f : ascii -> ascii) (s : string) : string :=
  match s with EmptyString => EmptyString | String c s' => String (f c) (string_map f s') end.
Definition same_name (a : option string) (b : string) : bool :=
  match a with
  | Some a => String.eqb (string_map tolower a) (string_map tolower b)
  | None => false
  end.

Definition cJSON_GetArraySize (array : cJSON) : Z := Z.of_nat (length (items array)).
Definition cJSON_GetArrayItem (array : cJSON) (item : Z) : option cJSON := items array !! Z.to_nat item.
Definition cJSON_GetObjectItem (object : cJSON) (s : string) : option cJSON :=
  List.find (fun c => same_name (name c) s) (items object).
Definition cJSON_GetNumber (object : cJSON) (s : string) : double :=
  match cJSON_GetObjectItem object s with Some node => valuedouble node | None => d_zero end.
Definition cJSON_GetString (object : cJSON) (s : string) : option string :=
  match cJSON_GetObjectItem object s with Some node => valuestring node | None => None end.

Definition cJSON_New_Item : cJSON := CJson 0 None 0 d_zero None [].
Definition of_type (t : Z) : cJSON := CJson t None 0 d_zero None [].
Definition cJSON_CreateNull : cJSON := of_type cJSON_NULL.
Definition cJSON_CreateTrue : cJSON := of_type cJSON_True.
Definition cJSON_CreateFalse : cJSON := of_type cJSON_False.
Definition cJSON_CreateBool (b : Z) : cJSON := of_type (if b =? 0 then cJSON_False else cJSON_True).
Definition cJSON_CreateNumber (num : double) : cJSON := CJson cJSON_Number None (to_int num) num None [].
Definition cJSON_CreateString (s : string) : cJSON := CJson cJSON_String (Some s) 0 d_zero None [].
Definition cJSON_CreateArray : cJSON := of_type cJSON_Array.
Definition cJSON_CreateObject : cJSON := of_type cJSON_Object.
Definition cJSON_CreateIntArray (numbers : list Z) : cJSON :=
  with_items (map (fun n => cJSON_CreateNumber (d_of_Z n)) numbers) cJSON_CreateArray.
Definition cJSON_CreateDoubleArray (numbers : list double) : cJSON :=
  with_items (map cJSON_CreateNumber numbers) cJSON_CreateArray.
Definition cJSON_CreateStringArray (strings : list string) : cJSON :=
  with_items (map cJSON_CreateString strings) cJSON_CreateArray.

Definition cJSON_AddItemToArray (array item : cJSON) : cJSON := with_items (items array ++ [item]) array.
Definition cJSON_AddItemToObject (object : cJSON) (s : string) (item : cJSON) : cJSON :=
  cJSON_AddItemToArray object (with_name (Some s) item).
Definition cJSON_AddNumberToObject (object : cJSON) (s : string) (n : double) : cJSON :=
  cJSON_AddItemToObject object s (cJSON_CreateNumber n).
Definition cJSON_AddStringToObject (object : cJSON) (s v : string) : cJSON :=
  cJSON_AddItemToObject object s (cJSON_CreateString v).

(** A reference shares the items of the item it refers to, which are not changed here. *)
Definition create_reference (item : cJSON) : cJSON :=
  match item with CJson t s i d _ c => CJson (Z.lor t cJSON_IsReference) s i d None c end.
Definition cJSON_AddItemReferenceToArray (array item : cJSON) : cJSON :=
  cJSON_AddItemToArray array (create_reference item).
Definition cJSON_AddItemReferenceToObject (object : cJSON) (s : string) (item : cJSON) : cJSON :=
  cJSON_AddItemToObject object s (create_reference item).

(** A negative index is the first item. *)
Definition cJSON_DetachItemFromArray (array : cJSON) (which : Z) : option cJSON * cJSON :=
  let i := Z.to_nat which in
  match items array !! i with
  | Some c => (Some c, with_items (take i (items array) ++ drop (S i) (items array)) array)
  | None => (None, array)
  end.
Definition cJSON_DeleteItemFromArray (array : cJSON) (which : Z) : cJSON :=
  (cJSON_DetachItemFromArray array which).2.

Fixpoint find_index (f : cJSON -> bool) (l : list cJSON) (i : Z) : option Z :=
  match l with [] => None | c :: l' => if f c then Some i else find_index f l' (i + 1) end.
Definition cJSON_DetachItemFromObject (object : cJSON) (s : string) : option cJSON * cJSON :=
  match find_index (fun c => same_name (name c) s) (items object) 0 with
  | Some i => cJSON_DetachItemFromArray object i
  | None => (None, object)
  end.
Definition cJSON_DeleteItemFromObject (object : cJSON) (s : string) : cJSON :=
  (cJSON_DetachItemFromObject object s).2.
Definition cJSON_ReplaceItemInArray (array : cJSON) (which : Z) (newitem : cJSON) : cJSON :=
  with_items (<[Z.to_nat which := newitem]> (items array)) array.
Definition cJSON_ReplaceItemInObject (object : cJSON) (s : string) (newitem : cJSON) : cJSON :=
  match find_index (fun c => same_name (name c) s) (items object) 0 with
  | Some i => cJSON_ReplaceItemInArray object i (with_name (Some s) newitem)
  | None => object
  end.

Fixpoint cJSON_Duplicate (item : cJSON) (recurse : bool) : cJSON :=
  match item with
  | CJson t s i d n c =>
      CJson (Z.land t (Z.lnot cJSON_IsReference)) s i d n
        (if recurse then map (fun x => cJSON_Duplicate x true) c else [])
  end.

(** * Memory *)

Abbreviation mem := (list Z).

Definition rd (p : mem) : res Z := match p with [] => Fault OutOfBounds | b :: _ => Ok b end.

(** The string at a pointer: up to the first null. *)
Fixpoint cut_null (l : list Z) : list Z :=
  match l with [] => [] | b :: l' => if b =? 0 then [] else b :: cut_null l' end.

(** [strncmp(p, lit, n) == 0] for a literal of [n] characters. *)
Fixpoint starts_with (lit : list Z) (p : mem) : res bool :=
  match lit with
  | [] => Ok true
  | c :: lit' => b ← rd p; if b =? c then starts_with lit' (tail p) else Ok false
  end.

Fixpoint skip (p : mem) : res mem :=
  match p with
  | [] => Fault OutOfBounds
  | b :: p' => if negb (b =? 0) && (b <=? 32) then skip p' else Ok p
  end.

Definition digit (b : Z) : bool := (48 <=? b) && (b <=? 57).

(** ** Numbers *)

(** The loop over digits, with the number of digits read. *)
Fixpoint digits_loop (n : double) (k : Z) (p : mem) : res (double * Z * mem) :=
  match p with
  | [] => Fault OutOfBounds
  | b :: p' => if digit b then digits_loop (d_add (d_mul n (d_of_Z 10)) (d_of_Z (b - 48))) (k + 1) p'
               else Ok (n, k, p)
  end.
Fixpoint subscale_loop (n : Z) (p : mem) : res (Z * mem) :=
  match p with
  | [] => Fault OutOfBounds
  | b :: p' => if digit b then subscale_loop (i32 (n * 10 + (b - 48))) p' else Ok (n, p)
  end.

(** [pow(10.0, x)], correctly rounded, for the integral [x] of the code. *)
Definition pow10 (x : double) : double :=
  match d_trunc x with
  | Some e => if e <? -400 then d_zero else if 400 <? e then S754_infinity false else d_decimal false 1 e
  | None => S754_nan
  end.

Definition is_digit_at (p : mem) : res bool := b ← rd p; Ok (digit b).

Definition parse_number (p : mem) : res (cJSON * mem) :=
  b ← rd p;
  let '(sign, p) := if b =? 45 then (d_of_Z (-1), tail p) else (d_of_Z 1, p) in
  b ← rd p;
  let p := if b =? 48 then tail p else p in
  b ← rd p;
  '(n, _, p) ← (if (49 <=? b) && (b <=? 57) then digits_loop d_zero 0 p else Ok (d_zero, 0, p));
  b ← rd p;
  frac ← (if b =? 46 then is_digit_at (tail p) else Ok false);
  '(n, scale, p) ← (if frac : bool then digits_loop n 0 (tail p) else Ok (n, 0, p));
  b ← rd p;
  '(subscale, signsubscale, p) ←
    (if (b =? 101) || (b =? 69) then
       let p := tail p in
       b ← rd p;
       let '(signsubscale, p) := if b =? 43 then (1, tail p) else if b =? 45 then (-1, tail p) else (1, p) in
       '(subscale, p) ← subscale_loop 0 p;
       mret (subscale, signsubscale, p)
     else Ok (0, 1, p));
  let n := d_mul (d_mul sign n)
             (pow10 (d_add (d_of_Z (- scale)) (d_of_Z (i32 (subscale * signsubscale))))) in
  Ok (CJson cJSON_Number None (to_int n) n None [], p).

(** ** Strings *)

(** The first loop, which counts the characters: a pair that starts with a backslash is one. *)
Fixpoint string_len (p : mem) : res Z :=
  match p with
  | [] => Fault OutOfBounds
  | b :: p' =>
      if (b =? 34) || (b =? 0) then Ok 0
      else if b =? 92 then
        match p' with
        | [] => Fault OutOfBounds
        | _ :: p'' => n ← string_len p''; Ok (n + 1)
        end
      else n ← string_len p'; Ok (n + 1)
  end.

(** Writes at the end of an array of [cap] bytes. *)
Definition out_put (cap : Z) (out bytes : list Z) : res (list Z) :=
  if Z.of_nat (length out) + Z.of_nat (length bytes) <=? cap then Ok (out ++ bytes) else Fault OutOfBounds.

Definition hex_digit (b : Z) : option Z :=
  if digit b then Some (b - 48)
  else if (97 <=? b) && (b <=? 102) then Some (b - 87)
  else if (65 <=? b) && (b <=? 70) then Some (b - 55) else None.

(** At most [w] hexadecimal digits: their value and number. *)
Fixpoint hex_digits (w : nat) (acc k : Z) (p : mem) : res (Z * Z) :=
  match w with
  | O => Ok (acc, k)
  | S w' =>
      b ← rd p;
      match hex_digit b with
      | Some d => hex_digits w' (16 * acc + d) (k + 1) (tail p)
      | None => Ok (acc, k)
      end
  end.

Fixpoint skip_blanks (p : mem) : res mem :=
  match p with
  | [] => Fault OutOfBounds
  | b :: p' => if isspace (chr b) then skip_blanks p' else Ok p
  end.

(** [sscanf(p, "%4x", &uc)]: blanks, then at most four characters of a sign, the prefix
    [0x] and digits.  [None] when nothing was converted. *)
Definition scan_hex (p : mem) : res (option Z) :=
  p ← skip_blanks p;
  b ← rd p;
  let '(neg, w, p) := if b =? 45 then (true, 3%nat, tail p) else if b =? 43 then (false, 3%nat, tail p)
                      else (false, 4%nat, p) in
  b ← rd p;
  x ← (if b =? 48 then c ← rd (tail p); Ok ((c =? 120) || (c =? 88)) else Ok false);
  '(v, k) ← (if x : bool then '(v, k) ← hex_digits (w - 2) 0 0 (tail (tail p)); Ok (v, k + 1)
             else hex_digits w 0 0 p);
  Ok (if k =? 0 then None else Some (u32 (if neg : bool then - v else v))).

Definition firstByteMark (len : Z) : Z := default 0 ([0; 0; 192; 224; 240; 248; 252] !! Z.to_nat len).

(** The bytes of a character in UTF-8, and what [uc] is left with. *)
Definition utf8 (uc : Z) : list Z * Z :=
  let cont c := u8 (Z.land (Z.lor c 128) 191) in
  let first c len := u8 (Z.lor c (firstByteMark len)) in
  let uc1 := Z.shiftr uc 6 in let uc2 := Z.shiftr uc1 6 in let uc3 := Z.shiftr uc2 6 in
  if uc <? 128 then ([first uc 1], uc)
  else if uc <? 2048 then ([first uc1 2; cont uc], uc1)
  else if uc <? 65536 then ([first uc2 3; cont uc1; cont uc], uc2)
  else ([first uc3 4; cont uc2; cont uc1; cont uc], uc3).

Definition low_surrogate (uc : Z) : bool := (56320 <=? uc) && (uc <=? 57343).
Definition high_surrogate (uc : Z) : bool := (55296 <=? uc) && (uc <=? 56319).

(** [case 'u'], from the [u] on: the pointer, what was written, [uc] and [uc2].  A number
    that is not there leaves its variable as it was, at first without a value. *)
Definition unescape_u (cap : Z) (p : mem) (out : list Z) (uc uc2 : option Z)
    : res (mem * list Z * option Z * option Z) :=
  h ← scan_hex (tail p);
  let uc := match h with Some _ => h | None => uc end in
  u ← of_option TypePun uc;
  let p := drop 4 p in
  if low_surrogate u || (u =? 0) then Ok (p, out, uc, uc2)
  else if high_surrogate u then
    b1 ← rd (drop 1 p);
    b2 ← (if b1 =? 92 then rd (drop 2 p) else Ok 0);
    if negb (b1 =? 92) || negb (b2 =? 117) then Ok (p, out, uc, uc2)
    else
      h2 ← scan_hex (drop 3 p);
      let uc2 := match h2 with Some _ => h2 | None => uc2 end in
      let p := drop 6 p in
      u2 ← of_option TypePun uc2;
      if negb (low_surrogate u2) then Ok (p, out, uc, uc2)
      else
        let '(bytes, u) := utf8 (65536 + Z.lor (Z.shiftl (Z.land u 1023) 10) (Z.land u2 1023)) in
        out ← out_put cap out bytes; Ok (p, out, Some u, uc2)
  else
    let '(bytes, u) := utf8 u in
    out ← out_put cap out bytes; Ok (p, out, Some u, uc2).

Definition escaped (b : Z) : Z :=
  if b =? 98 then 8 else if b =? 102 then 12 else if b =? 110 then 10
  else if b =? 114 then 13 else if b =? 116 then 9 else b.

Fixpoint unescape (fuel : nat) (cap : Z) (p : mem) (out : list Z) (uc uc2 : option Z)
    : res (list Z * mem) :=
  match fuel with
  | O => Fault NoFuel
  | S n =>
      b ← rd p;
      if (b =? 34) || (b =? 0) then Ok (out, p)
      else if negb (b =? 92) then
        out ← out_put cap out [b]; unescape n cap (tail p) out uc uc2
      else
        let p := tail p in
        b ← rd p;
        if b =? 117 then
          '(p, out, uc, uc2) ← unescape_u cap p out uc uc2;
          unescape n cap (tail p) out uc uc2
        else
          out ← out_put cap out [escaped b]; unescape n cap (tail p) out uc uc2
  end.

(** The string that was read, in an item of its own. *)
Definition parse_string (str : mem) : res (option (string * mem)) :=
  b ← rd str;
  if negb (b =? 34) then Ok None
  else
    len ← string_len (tail str);
    '(out, p) ← unescape (length str) (len + 1) (tail str) [] None None;
    out ← out_put (len + 1) out [0];
    b ← rd p;
    Ok (Some (bytes_string (cut_null out), if b =? 34 then tail p else p)).

(** ** Values *)

Fixpoint parse_value (fuel : nat) (p : mem) {struct fuel} : res (option (cJSON * mem)) :=
  match fuel with
  | O => Fault NoFuel
  | S n =>
      is_null ← starts_with [110; 117; 108; 108] p;
      if is_null : bool then Ok (Some (cJSON_CreateNull, drop 4 p)) else
      is_false ← starts_with [102; 97; 108; 115; 101] p;
      if is_false : bool then Ok (Some (cJSON_CreateFalse, drop 5 p)) else
      is_true ← starts_with [116; 114; 117; 101] p;
      if is_true : bool then Ok (Some (CJson cJSON_True None 1 d_zero None [], drop 4 p)) else
      b ← rd p;
      if b =? 34 then
        s ← parse_string p;
        Ok (match s with Some (s, p) => Some (cJSON_CreateString s, p) | None => None end)
      else if (b =? 45) || digit b then
        '(j, p) ← parse_number p; Ok (Some (j, p))
      else if b =? 91 then
        p ← skip (tail p);
        b ← rd p;
        if b =? 93 then Ok (Some (cJSON_CreateArray, tail p))
        else
          r ← parse_elements n p;
          match r with
          | Some (l, p) =>
              b ← rd p; Ok (if b =? 93 then Some (with_items l cJSON_CreateArray, tail p) else None)
          | None => Ok None
          end
      else if b =? 123 then
        p ← skip (tail p);
        b ← rd p;
        if b =? 125 then Ok (Some (cJSON_CreateObject, tail p))
        else
          r ← parse_members n p;
          match r with
          | Some (l, p) =>
              b ← rd p; Ok (if b =? 125 then Some (with_items l cJSON_CreateObject, tail p) else None)
          | None => Ok None
          end
      else Ok None
  end
with parse_elements (fuel : nat) (p : mem) {struct fuel} : res (option (list cJSON * mem)) :=
  match fuel with
  | O => Fault NoFuel
  | S n =>
      p ← skip p;
      r ← parse_value n p;
      match r with
      | None => Ok None
      | Some (c, p) =>
          p ← skip p;
          b ← rd p;
          if b =? 44 then
            r ← parse_elements n (tail p);
            Ok (match r with Some (cs, p) => Some (c :: cs, p) | None => None end)
          else Ok (Some ([c], p))
      end
  end
with parse_members (fuel : nat) (p : mem) {struct fuel} : res (option (list cJSON * mem)) :=
  match fuel with
  | O => Fault NoFuel
  | S n =>
      p ← skip p;
      s ← parse_string p;
      match s with
      | None => Ok None
      | Some (s, p) =>
          p ← skip p;
          b ← rd p;
          if negb (b =? 58) then Ok None
          else
            p ← skip (tail p);
            r ← parse_value n p;
            match r with
            | None => Ok None
            | Some (c, p) =>
                let c := with_name (Some s) c in
                p ← skip p;
                b ← rd p;
                if b =? 44 then
                  r ← parse_members n (tail p);
                  Ok (match r with Some (cs, p) => Some (c :: cs, p) | None => None end)
                else Ok (Some ([c], p))
            end
      end
  end.

(** [None] for the null pointer, as a text and as a result.  The end of what was read is
    returned too. *)
Definition cJSON_ParseWithOpts (value : option mem) (require_null_terminated : bool)
    : res (option (cJSON * mem)) :=
  match value with
  | None => Ok None
  | Some p =>
      p ← skip p;
      r ← parse_value (2 * length p + 1) p;
      match r with
      | None => Ok None
      | Some (c, end_) =>
          if require_null_terminated then
            end_ ← skip end_; b ← rd end_; Ok (if b =? 0 then Some (c, end_) else None)
          else Ok (Some (c, end_))
      end
  end.

Definition cJSON_Parse (value : option mem) : res (option cJSON) :=
  r ← cJSON_ParseWithOpts value false;
  Ok (match r with Some (j, _) => Some j | None => None end).

(** The memory of a C string. *)
Definition c_memory (s : string) : mem := string_bytes s ++ [0].

(** * Printing *)

(** ** Numbers

    [printf] of doubles: the exact decimal expansion, rounded half to even. *)

Definition DBL_EPSILON : double := S754_finite false 4503599627370496 (-104).
Definition d_abs : double -> double := SFabs.

Definition round_half_even (n d : Z) : Z :=
  let q := n / d in let r := n mod d in
  if 2 * r <? d then q else if d <? 2 * r then q + 1 else if Z.even q then q else q + 1.

(** The digits of [m * 2 ^ e], rounded to [prec] decimals. *)
Definition scaled (m e prec : Z) : Z :=
  round_half_even (m * 2 ^ (Z.max e 0) * 10 ^ (Z.max prec 0)) (2 ^ (Z.max (- e) 0) * 10 ^ (Z.max (- prec) 0)).

Definition special (d : double) : string :=
  match d with
  | S754_infinity s => if s then "-inf" else "inf"
  | S754_zero s => if s then "-0" else "0"
  | _ => "nan"
  end%string.

Definition with_sign (s : bool) (t : string) : string := if s then ("-" ++ t)%string else t.

(** The format [%.0f] or [%f], with [prec] decimals. *)
Definition decimals (prec v : Z) : string :=
  if prec =? 0 then EmptyString else ("." ++ print_padded (Z.to_nat prec) v)%string.
Definition print_f (prec : Z) (d : double) : string :=
  match d with
  | S754_finite s m e =>
      let v := scaled (Z.pos m) e prec in
      let '(q, r) := Z.div_eucl v (10 ^ prec) in
      with_sign s (pretty q ++ decimals prec r)
  | S754_zero s => special d ++ decimals prec 0
  | _ => special d
  end%string.

(** The format [%e]: the exponent is the number of digits of the integer part, or of a
    multiple of the number. *)
Definition exponent (m e : Z) : Z :=
  let digits_of z := Z.of_nat (String.length (pretty z)) - 1 in
  if 0 <=? e then digits_of (m * 2 ^ e) else digits_of (m * 10 ^ 400 / 2 ^ (- e)) - 400.
Definition print_exp (v k : Z) : string :=
  let '(q, r) := Z.div_eucl v (10 ^ 6) in
  let sign := if k <? 0 then "-"%string else "+"%string in
  (pretty q ++ decimals 6 r ++ "e" ++ sign ++ print_padded 2 (Z.abs k))%string.
Definition print_e (d : double) : string :=
  match d with
  | S754_finite s m e =>
      let k := exponent (Z.pos m) e in
      let v := scaled (Z.pos m) e (6 - k) in
      with_sign s (if v =? 10 ^ 7 then print_exp (v / 10) (k + 1) else print_exp v k)
  | S754_zero s => (special d ++ decimals 6 0 ++ "e+00")%string
  | _ => special d
  end.

Definition d_floor (d : double) : double :=
  match d with
  | S754_finite s m e =>
      if e <? 0 then
        let q := Z.pos m / 2 ^ (- e) in
        let z := if s then (if Z.pos m mod 2 ^ (- e) =? 0 then - q else - q - 1) else q in
        if (z =? 0) && s then S754_zero true else d_of_Z z
      else d
  | _ => d
  end.

(** [sprintf] into an array of [size] bytes. *)
Definition sprintf (size : Z) (s : string) : res string :=
  if Z.of_nat (String.length s) <? size then Ok s else Fault OutOfBounds.

Definition print_number (item : cJSON) : res string :=
  let d := valuedouble item in
  if d_le (d_abs (d_sub (d_of_Z (valueint item)) d)) DBL_EPSILON &&
     d_le d (d_of_Z INT_MAX) && d_le (d_of_Z INT_MIN) d
  then sprintf 21 (pretty (valueint item))
  else if d_le (d_abs (d_sub (d_floor d) d)) DBL_EPSILON && d_lt (d_abs d) (d_decimal false 1 60)
  then sprintf 64 (print_f 0 d)
  else if d_lt (d_abs d) (d_decimal false 1 (-6)) || d_lt (d_decimal false 1 9) (d_abs d)
  then sprintf 64 (print_e d)
  else sprintf 64 (print_f 6 d).

(** ** Strings *)

(** The characters with an escape of two characters, and their letters. *)
Definition short_escape (b : Z) : option Z :=
  if b =? 92 then Some 92 else if b =? 34 then Some 34 else if b =? 8 then Some 98
  else if b =? 12 then Some 102 else if b =? 10 then Some 110 else if b =? 13 then Some 114
  else if b =? 9 then Some 116 else None.

(** [strchr] finds the null at the end of its string, but the loop ends before it. *)
Fixpoint escaped_len (p : list Z) : Z :=
  match p with
  | [] => 0
  | b :: p' =>
      1 + (match short_escape b with Some _ => 1 | None => if b <? 32 then 5 else 0 end) + escaped_len p'
  end.

Definition hex_char (d : Z) : Z := if d <? 10 then 48 + d else 87 + d.

(** [sprintf(ptr2, "u%04x", token)] for a byte. *)
Definition print_u (token : Z) : list Z := [117; 48; 48; hex_char (token / 16); hex_char (token mod 16)].

Fixpoint escape (p : list Z) : list Z :=
  match p with
  | [] => []
  | b :: p' =>
      (if (31 <? b) && negb (b =? 34) && negb (b =? 92) then [b]
       else 92 :: match short_escape b with Some c => [c] | None => print_u b end) ++ escape p'
  end.

Definition print_string_ptr (str : option string) : res string :=
  match str with
  | None => Ok EmptyString
  | Some s =>
      let len := escaped_len (string_bytes s) in
      sprintf (len + 3) (bytes_string (34 :: escape (string_bytes s) ++ [34]))
  end.

Definition print_string (item : cJSON) : res string := print_string_ptr (valuestring item).

(** ** Values *)

Definition text_length (s : string) : Z := Z.of_nat (String.length s).
Definition flag (fmt : bool) (n : Z) : Z := if fmt then n else 0.
Definition tabs (n : Z) : string := bytes_string (replicate (Z.to_nat n) 9).
Definition newline : string := bytes_string [10].
Definition tab : string := bytes_string [9].

(** The results for the entries, in order; [None] for the null pointer. *)
Fixpoint all_some {A} (l : list (option A)) : option (list A) :=
  match l with
  | [] => Some []
  | Some a :: l' => match all_some l' with Some r => Some (a :: r) | None => None end
  | None :: _ => None
  end.

Fixpoint map_res {A B} (f : A -> res B) (l : list A) : res (list B) :=
  match l with [] => Ok [] | a :: l' => b ← f a; r ← map_res f l'; Ok (b :: r) end.

Fixpoint array_len (fmt : bool) (entries : list string) : Z :=
  match entries with [] => 5 | e :: es => text_length e + 2 + flag fmt 1 + array_len fmt es end.

Fixpoint compose_array (fmt : bool) (entries : list string) : string :=
  match entries with
  | [] => ""
  | [e] => e
  | e :: es => e ++ "," ++ (if fmt then " " else "") ++ compose_array fmt es
  end%string.

(** [out] holds [len] bytes. *)
Definition print_entries (fmt : bool) (entries : list (option string)) : res (option string) :=
  match entries with
  | [] => s ← sprintf 3 "[]"; Ok (Some s)
  | _ =>
      match all_some entries with
      | None => Ok None
      | Some entries =>
          s ← sprintf (array_len fmt entries) ("[" ++ compose_array fmt entries ++ "]");
          Ok (Some s)
      end
  end.

Fixpoint object_len (fmt : bool) (depth : Z) (entries : list (string * string)) : Z :=
  match entries with
  | [] => 7 + flag fmt depth
  | (n, e) :: es => text_length e + text_length n + 2 + flag fmt (2 + depth) + object_len fmt depth es
  end.

Definition compose_entry (fmt : bool) (depth : Z) (n e : string) : string :=
  ((if fmt then tabs depth else "") ++ n ++ ":" ++ (if fmt then tab else "") ++ e)%string.

Fixpoint compose_object (fmt : bool) (depth : Z) (entries : list (string * string)) : string :=
  let eol := if fmt then newline else EmptyString in
  match entries with
  | [] => ""
  | [(n, e)] => compose_entry fmt depth n e ++ eol
  | (n, e) :: es => compose_entry fmt depth n e ++ "," ++ eol ++ compose_object fmt depth es
  end%string.

(** The names and the values; [depth] is that of the members. *)
Definition print_members (fmt : bool) (depth : Z) (entries : list (string * option string))
    : res (option string) :=
  match entries with
  | [] =>
      let depth := depth - 1 in
      s ← sprintf (if fmt then depth + 3 else 3)
            ("{" ++ (if fmt then newline ++ tabs (depth - 1) else "") ++ "}");
      Ok (Some s)
  | _ =>
      match all_some (map (fun '(n, e) => match e with Some e => Some (n, e) | None => None end) entries) with
      | None => Ok None
      | Some entries =>
          s ← sprintf (object_len fmt depth entries)
                ("{" ++ (if fmt then newline else "") ++ compose_object fmt depth entries ++
                 (if fmt then tabs (depth - 1) else "") ++ "}");
          Ok (Some s)
      end
  end%string.

Definition some_text (r : res string) : res (option string) := s ← r; Ok (Some s).

Fixpoint print_value (item : cJSON) (depth : Z) (fmt : bool) : res (option string) :=
  match item with
  | CJson t _ _ _ _ c =>
      let t := Z.land t 255 in
      if t =? cJSON_NULL then Ok (Some "null"%string)
      else if t =? cJSON_False then Ok (Some "false"%string)
      else if t =? cJSON_True then Ok (Some "true"%string)
      else if t =? cJSON_Number then some_text (print_number item)
      else if t =? cJSON_String then some_text (print_string item)
      else if t =? cJSON_Array then
        entries ← map_res (fun x => print_value x (depth + 1) fmt) c;
        print_entries fmt entries
      else if t =? cJSON_Object then
        entries ← map_res (fun x => n ← print_string_ptr (name x); e ← print_value x (depth + 1) fmt; Ok (n, e)) c;
        print_members fmt (depth + 1) entries
      else Ok None
  end.

Definition cJSON_Print (item : cJSON) : res (option string) := print_value item 0 true.
Definition cJSON_PrintUnformatted (item : cJSON) : res (option string) := print_value item 0 false.

(** * Numbers are read back *)

Lemma d_step a d : 0 < a -> 0 <= d < 10 -> 10 * a + d < 2 ^ 53 ->
  d_add (d_mul (d_of_Z a) (d_of_Z 10)) (d_of_Z d) = d_of_Z (10 * a + d).
Proof.
  intros Ha Hd Hlt. rewrite d_mul_of_Z, (Z.mul_comm a) by lia.
  destruct (decide (d = 0)) as [->|].
  - destruct (holds_int_exists (10 * a)) as (q & e & H); [lia|].
    by rewrite Z.add_0_r, (d_of_Z_holds _ _ _ H).
  - by rewrite d_add_of_Z by lia.
Qed.

Lemma d_step_0 d : 0 < d < 10 -> d_add (d_mul d_zero (d_of_Z 10)) (d_of_Z d) = d_of_Z d.
Proof.
  intros Hd. destruct (holds_int_exists d) as (q & e & H); [lia|]. by rewrite (d_of_Z_holds _ _ _ H).
Qed.

(** What follows a number in a text: no character that would continue it. *)
Definition stops (r : mem) : Prop :=
  exists b r', r = b :: r' /\ digit b = false /\ b <> 46 /\ b <> 101 /\ b <> 69.

Lemma dvalue_le acc s : (acc <= dvalue acc s)%N.
Proof. revert acc. induction s as [|c s IH]; intros acc; [done|]. cbn [dvalue]. specialize (IH (10 * acc + (N_of_ascii c - 48))%N). lia. Qed.

Lemma digits_loop_spec s : forall a k r, digits s = true -> 0 < a -> stops r ->
  Z.of_N (dvalue (Z.to_N a) s) < 2 ^ 53 ->
  exists k', digits_loop (d_of_Z a) k (string_bytes s ++ r) = Ok (d_of_Z (Z.of_N (dvalue (Z.to_N a) s)), k', r).
Proof.
  induction s as [|c s IH]; intros a k r Hs Ha Hr Hlt.
  - destruct Hr as (b & r' & -> & Hb & _). cbn [string_bytes app digits_loop dvalue]. rewrite Hb.
    exists k. by rewrite Z2N.id by lia.
  - cbn [digits] in Hs. apply andb_true_iff in Hs as [Hc Hs]. apply andb_true_iff in Hc as [Hc1 Hc2].
    rewrite string_bytes_cons. cbn [app digits_loop dvalue] in *. unfold digit. rewrite Hc1, Hc2. cbn [andb].
    zbool. set (a' := 10 * a + (uchar c - 48)).
    assert (Ha' : (10 * Z.to_N a + (N_of_ascii c - 48))%N = Z.to_N a').
    { unfold a', uchar in *. lia. }
    rewrite Ha' in *. pose proof (dvalue_le (Z.to_N a') s) as Hle.
    rewrite d_step by lia. apply IH; [done|lia|done|done].
Qed.

Lemma pow10_0 : pow10 (d_add (d_of_Z (- 0)) (d_of_Z (i32 (0 * 1)))) = d_of_Z 1.
Proof. by vm_compute. Qed.

(** The tail of [parse_number] when the digits end at [r]. *)
Lemma digits_loop_int p r :
  stops r -> Z.pos p < 2 ^ 53 ->
  exists b l, string_bytes (pretty (Z.pos p)) = b :: l /\ 49 <= b <= 57 /\
    exists k, digits_loop d_zero 0 (b :: l ++ r) = Ok (d_of_Z (Z.pos p), k, r).
Proof.
  intros Hr Hp. destruct (pretty_pos_head p) as (c & t & Hpr & Hc).
  destruct (pretty_value (Z.pos p)) as [Hv Hd]; [lia|]. rewrite Hpr in Hv, Hd. cbn [digits dvalue] in Hv, Hd.
  apply andb_true_iff in Hd as [_ Hd]. rewrite Hpr, string_bytes_cons.
  exists (uchar c), (string_bytes t). split; [done|]. split; [done|].
  assert (Hn : (10 * 0 + (N_of_ascii c - 48))%N = Z.to_N (uchar c - 48)) by (unfold uchar in *; lia).
  rewrite Hn in Hv. assert (Hz : Z.pos p = Z.of_N (dvalue (Z.to_N (uchar c - 48)) t)) by (rewrite Hv; lia).
  cbn [app digits_loop]. unfold digit. rewrite (proj2 (Z.leb_le 48 _)), (proj2 (Z.leb_le _ 57)) by lia. cbn [andb].
  rewrite d_step_0 by lia. rewrite Hz. apply digits_loop_spec; [done|lia|done|]. by rewrite <- Hz.
Qed.

Lemma d_mul_one a : 0 < a < 2 ^ 53 -> d_mul (d_of_Z 1) (d_of_Z a) = d_of_Z a /\ d_mul (d_of_Z a) (d_of_Z 1) = d_of_Z a.
Proof. intros Ha. rewrite !d_mul_of_Z by lia. split; f_equal; lia. Qed.

Lemma d_mul_minus_one a :
  0 < a < 2 ^ 53 -> d_mul (d_of_Z (-1)) (d_of_Z a) = d_of_Z (- a) /\ d_mul (d_of_Z (- a)) (d_of_Z 1) = d_of_Z (- a).
Proof. intros Ha. change (-1) with (- (1)). rewrite (d_mul_neg_of_Z 1 a), (d_mul_neg_of_Z a 1) by lia. split; f_equal; lia. Qed.

Lemma to_int_of_Z z : INT_MIN <= z <= INT_MAX -> to_int (d_of_Z z) = z.
Proof. intros Hz. unfold to_int. by rewrite d_to_i32_of_Z. Qed.

Definition number_item (z : Z) : cJSON := CJson cJSON_Number None z (d_of_Z z) None [].

(** After the digits nothing is read but the character that stops the number. *)
Lemma number_end (sign n : double) (r : mem) :
  stops r ->
  (b ← rd r;
   frac ← (if b =? 46 then is_digit_at (tail r) else Ok false);
   '(n, scale, p) ← (if frac : bool then digits_loop n 0 (tail r) else Ok (n, 0, r));
   b ← rd p;
   '(subscale, signsubscale, p) ←
     (if (b =? 101) || (b =? 69) then
        let p := tail p in
        b ← rd p;
        let '(signsubscale, p) := if b =? 43 then (1, tail p) else if b =? 45 then (-1, tail p) else (1, p) in
        '(subscale, p) ← subscale_loop 0 p;
        mret (subscale, signsubscale, p)
      else Ok (0, 1, p));
   let n := d_mul (d_mul sign n)
              (pow10 (d_add (d_of_Z (- scale)) (d_of_Z (i32 (subscale * signsubscale))))) in
   Ok (CJson cJSON_Number None (to_int n) n None [], p))
  = Ok (let n := d_mul (d_mul sign n) (d_of_Z 1) in CJson cJSON_Number None (to_int n) n None [], r).
Proof.
  intros (b & r' & -> & _ & H1 & H2 & H3). cbn [rd mbind res_bind].
  rewrite (proj2 (Z.eqb_neq b 46)) by done. cbn [mbind res_bind rd].
  rewrite (proj2 (Z.eqb_neq b 101)), (proj2 (Z.eqb_neq b 69)) by done. cbn [orb mbind res_bind].
  by rewrite pow10_0.
Qed.

Lemma parse_number_int z r :
  INT_MIN <= z <= INT_MAX -> stops r ->
  parse_number (string_bytes (pretty z) ++ r) = Ok (number_item z, r).
Proof.
  intros Hz Hr. pose proof (to_int_of_Z z Hz) as Hi. unfold INT_MIN, INT_MAX in Hz. unfold number_item, parse_number.
  destruct z as [|p|p].
  - change (string_bytes (pretty 0)) with [48]. cbn [app rd mbind res_bind tail Z.eqb Pos.eqb].
    rewrite <- Hi. pose proof Hr as (b & r' & Er & Hd & _). rewrite Er. cbn [rd mbind res_bind].
    assert ((49 <=? b) && (b <=? 57) = false) as ->.
    { unfold digit in Hd. apply andb_false_iff. apply andb_false_iff in Hd as [?|?]; [left|right]; lia. }
    cbn [mbind res_bind]. rewrite <- Er. rewrite (number_end _ _ r Hr). do 3 f_equal.
  - destruct (digits_loop_int p r Hr) as (b & l & E & Hb & k & Hl); [lia|]. rewrite E. cbn [app rd mbind res_bind].
    rewrite (proj2 (Z.eqb_neq b 45)) by lia. cbn [rd mbind res_bind].
    rewrite (proj2 (Z.eqb_neq b 48)) by lia. cbn [rd mbind res_bind].
    rewrite (proj2 (Z.leb_le 49 b)), (proj2 (Z.leb_le b 57)) by lia. cbn [andb]. rewrite Hl. cbn [mbind res_bind].
    rewrite (number_end _ _ r Hr). destruct (d_mul_one (Z.pos p)) as [-> ->]; [lia|]. cbn zeta. by rewrite Hi.
  - destruct (digits_loop_int p r Hr) as (b & l & E & Hb & k & Hl); [lia|].
    change (string_bytes (pretty (Z.neg p))) with (45 :: string_bytes (pretty (Z.pos p))). rewrite E.
    cbn [app rd mbind res_bind Z.eqb Pos.eqb tail].
    rewrite (proj2 (Z.eqb_neq b 48)) by lia. cbn [rd mbind res_bind].
    rewrite (proj2 (Z.leb_le 49 b)), (proj2 (Z.leb_le b 57)) by lia. cbn [andb]. rewrite Hl. cbn [mbind res_bind].
    rewrite (number_end _ _ r Hr). destruct (d_mul_minus_one (Z.pos p)) as [-> ->]; [lia|].
    change (- Z.pos p) with (Z.neg p). cbn zeta. by rewrite Hi.
Qed.

(** * Strings are read back *)

Abbreviation byte b := (0 <= b < 256).

(** A C string: it holds no null. *)
Definition plain (s : string) : Prop := Forall (fun b => b <> 0) (string_bytes s).

Lemma plain_bool s : forallb (fun b => negb (b =? 0)) (string_bytes s) = true -> plain s.
Proof.
  intros H. apply Forall_forall. intros b Hb. rewrite List.forallb_forall in H.
  specialize (H b (proj1 (list_elem_of_In _ _) Hb)). intros ->. done.
Qed.

Lemma hex_char_digit d : 0 <= d < 16 -> hex_digit (hex_char d) = Some d.
Proof.
  intros Hd. unfold hex_char, hex_digit, digit. destruct (d <? 10) eqn:E; zbool.
  - rewrite (proj2 (Z.leb_le 48 _)), (proj2 (Z.leb_le _ 57)) by lia. cbn [andb]. f_equal. lia.
  - rewrite (proj2 (Z.leb_gt _ 57)), andb_false_r by lia.
    rewrite (proj2 (Z.leb_le 97 _)), (proj2 (Z.leb_le _ 102)) by lia. cbn [andb]. f_equal. lia.
Qed.

Lemma scan_hex_byte b r : byte b ->
  scan_hex (48 :: 48 :: hex_char (b / 16) :: hex_char (b mod 16) :: r) = Ok (Some b).
Proof.
  intros Hb. unfold scan_hex. cbn [skip_blanks].
  change (isspace (chr 48)) with false. cbn [mbind res_bind rd Z.eqb Pos.eqb tail orb hex_digits].
  change (hex_digit 48) with (Some 0). cbn [mbind res_bind rd tail].
  rewrite !hex_char_digit by (split; [|]; first [apply Z.div_pos|apply Z.mod_pos_bound|apply Z.div_lt_upper_bound|idtac]; lia).
  cbn [mbind res_bind]. pose proof (Z.div_mod b 16 ltac:(lia)).
  do 2 f_equal. cbn [Z.eqb Pos.eqb Z.add Pos.add Pos.succ Pos.add_carry]. rewrite wrapu_small; lia.
Qed.

(** One character and its escape: what [escape] writes for it, read by both loops. *)
Definition escape1 (b : Z) : list Z :=
  if (31 <? b) && negb (b =? 34) && negb (b =? 92) then [b]
  else 92 :: match short_escape b with Some c => [c] | None => print_u b end.

Lemma escape_cons b l : escape (b :: l) = escape1 b ++ escape l.
Proof. done. Qed.

Variant escape_view (b : Z) : list Z -> Prop :=
  | escape_plain : 31 < b -> b <> 34 -> b <> 92 -> escape_view b [b]
  | escape_short c : c <> 117 -> escaped c = b -> escape_view b [92; c]
  | escape_u : b < 32 -> escape_view b (92 :: print_u b).

Lemma escape_cases b : byte b -> escape_view b (escape1 b).
Proof.
  intros Hb. unfold escape1, short_escape.
  destruct (31 <? b) eqn:E1; [destruct (b =? 34) eqn:E2; [|destruct (b =? 92) eqn:E3]|]; cbn [andb negb]; zbool; subst; cbn.
  - by constructor.
  - by constructor.
  - by constructor.
  - rewrite (proj2 (Z.eqb_neq b 92)), (proj2 (Z.eqb_neq b 34)) by lia.
    destruct (b =? 8) eqn:E; zbool; subst; [by constructor|].
    destruct (b =? 12) eqn:E'; zbool; subst; [by constructor|].
    destruct (b =? 10) eqn:E''; zbool; subst; [by constructor|].
    destruct (b =? 13) eqn:E3; zbool; subst; [by constructor|].
    destruct (b =? 9) eqn:E4; zbool; subst; [by constructor|]. constructor. lia.
Qed.

Lemma hex_char_not_special d : 0 <= d < 16 -> hex_char d <> 34 /\ hex_char d <> 0 /\ hex_char d <> 92.
Proof. intros Hd. unfold hex_char. destruct (d <? 10) eqn:E; zbool; lia. Qed.

Lemma string_len_plain b p : b <> 34 -> b <> 0 -> b <> 92 -> string_len (b :: p) = n ← string_len p; Ok (n + 1).
Proof.
  intros H1 H2 H3. cbn [string_len].
  by rewrite (proj2 (Z.eqb_neq b 34)), (proj2 (Z.eqb_neq b 0)), (proj2 (Z.eqb_neq b 92)) by done.
Qed.

Lemma string_len_spec l r : Forall (fun b => byte b /\ b <> 0) l ->
  exists n, string_len (escape l ++ 34 :: r) = Ok n /\ Z.of_nat (length l) <= n.
Proof.
  induction 1 as [|b l [Hb Hz] Hl (n & IH & Hn)]; [by exists 0|]. rewrite escape_cons, <- app_assoc.
  destruct (escape_cases b Hb) as [H1 H2 H3|c H1 H2|H1].
  - exists (n + 1). cbn [app]. rewrite string_len_plain, IH by done. cbn [mbind res_bind length]. split; [done|lia].
  - exists (n + 1). cbn [app string_len Z.eqb Pos.eqb orb]. rewrite IH. cbn [mbind res_bind length]. split; [done|lia].
  - exists (n + 1 + 4). destruct (hex_char_not_special (b / 16)) as (? & ? & ?);
      [split; [apply Z.div_pos|apply Z.div_lt_upper_bound]; lia|].
    destruct (hex_char_not_special (b mod 16)) as (? & ? & ?); [apply Z.mod_pos_bound; lia|].
    unfold print_u. cbn [app].
    change (string_len (92 :: 117 :: ?x)) with (m ← string_len x; Ok (m + 1)).
    rewrite !string_len_plain by done. rewrite IH. cbn [mbind res_bind length]. split; [f_equal; lia|lia].
Qed.

Lemma out_put_ok cap out bytes :
  Z.of_nat (length out) + Z.of_nat (length bytes) <= cap -> out_put cap out bytes = Ok (out ++ bytes).
Proof. intros H. unfold out_put. by rewrite (proj2 (Z.leb_le _ _) H). Qed.

Lemma utf8_byte b : 0 <= b < 128 -> utf8 b = ([b], b).
Proof.
  intros Hb. unfold utf8. rewrite (proj2 (Z.ltb_lt b 128)) by lia. do 2 f_equal.
  change (firstByteMark 1) with 0. rewrite Z.lor_0_r. rewrite wrapu_small; [done|]. lia.
Qed.

Lemma unescape_u_byte cap b r out uc uc2 :
  0 < b < 32 -> Z.of_nat (length out) + 1 <= cap ->
  unescape_u cap (print_u b ++ r) out uc uc2 = Ok (hex_char (b mod 16) :: r, out ++ [b], Some b, uc2).
Proof.
  intros Hb Hcap. unfold unescape_u, print_u. cbn [app tail]. rewrite scan_hex_byte by lia.
  cbn [mbind res_bind of_option drop]. unfold low_surrogate, high_surrogate.
  rewrite (proj2 (Z.leb_gt 56320 b)), (proj2 (Z.leb_gt 55296 b)), (proj2 (Z.eqb_neq b 0)) by lia. cbn [andb orb].
  rewrite utf8_byte by lia. by rewrite out_put_ok.
Qed.

Lemma unescape_spec l : forall fuel cap r out uc uc2,
  Forall (fun b => byte b /\ b <> 0) l -> (length (escape l) < fuel)%nat ->
  Z.of_nat (length out) + Z.of_nat (length l) <= cap ->
  unescape fuel cap (escape l ++ 34 :: r) out uc uc2 = Ok (out ++ l, 34 :: r).
Proof.
  induction l as [|b l IH]; intros fuel cap r out uc uc2 Hl Hf Hcap.
  - destruct fuel as [|n]; [simpl in Hf; lia|]. cbn. by rewrite app_nil_r.
  - apply Forall_cons in Hl as [[Hb Hz] Hl]. rewrite escape_cons, length_app in Hf. rewrite escape_cons, <- app_assoc.
    replace (out ++ b :: l) with ((out ++ [b]) ++ l) by (by rewrite <- app_assoc).
    assert (Hout : Z.of_nat (length (out ++ [b])) + Z.of_nat (length l) <= cap).
    { rewrite length_app. cbn [length] in *. lia. }
    assert (Hput : out_put cap out [b] = Ok (out ++ [b])) by (apply out_put_ok; cbn [length] in *; lia).
    destruct fuel as [|n]; [lia|]. destruct (escape_cases b Hb) as [H1 H2 H3|c H1 H2|H1].
    + cbn [app length] in *. cbn [unescape rd mbind res_bind tail].
      rewrite (proj2 (Z.eqb_neq b 34)), (proj2 (Z.eqb_neq b 0)), (proj2 (Z.eqb_neq b 92)) by done. cbn [orb negb].
      rewrite Hput. apply IH; [done|lia|done].
    + cbn [app length] in *. cbn [unescape rd mbind res_bind tail Z.eqb Pos.eqb orb negb].
      rewrite (proj2 (Z.eqb_neq c 117)), H2, Hput by done. cbn [mbind res_bind]. apply IH; [done|lia|done].
    + cbn [app length] in *. cbn [unescape rd mbind res_bind tail Z.eqb Pos.eqb orb negb].
      change (rd (print_u b ++ escape l ++ 34 :: r)) with (@Ok Z 117). cbn [mbind res_bind Z.eqb Pos.eqb].
      rewrite unescape_u_byte by (cbn [length] in *; lia). cbn [mbind res_bind tail].
      apply IH; [done|lia|done].
Qed.

Lemma cut_null_plain l : Forall (fun b => b <> 0) l -> cut_null (l ++ [0]) = l.
Proof.
  induction 1 as [|b l Hb Hl IH]; [done|]. cbn [app cut_null]. by rewrite (proj2 (Z.eqb_neq b 0)), IH.
Qed.

Definition quoted (s : string) : list Z := 34 :: escape (string_bytes s) ++ [34].

Lemma plain_bytes s : plain s -> Forall (fun b => byte b /\ b <> 0) (string_bytes s).
Proof. intros Hs. pose proof (string_bytes_range s) as Hr. apply Forall_and. by split. Qed.

Lemma parse_string_quoted s r : plain s -> parse_string (quoted s ++ r) = Ok (Some (s, r)).
Proof.
  intros Hs. unfold parse_string, quoted. cbn [app rd mbind res_bind Z.eqb Pos.eqb negb tail].
  rewrite <- app_assoc. cbn [app]. pose proof (plain_bytes s Hs) as Hb.
  destruct (string_len_spec (string_bytes s) r Hb) as (n & -> & Hn). cbn [mbind res_bind].
  rewrite unescape_spec; [|done| |cbn [length]; lia].
  2:{ cbn [length]. rewrite length_app. lia. }
  cbn [app mbind res_bind]. rewrite out_put_ok by (cbn [length]; lia). cbn [mbind res_bind rd Z.eqb Pos.eqb tail].
  by rewrite cut_null_plain, bytes_string_bytes by done.
Qed.

(** * Values and their text *)

(** The values of JSON whose numbers are integers, as items and as text. *)
Inductive json :=
  | JNull | JBool (b : bool) | JInt (z : Z) | JStr (s : string)
  | JArr (l : list json) | JObj (l : list (string * json)).

Fixpoint json_ind' (P : json -> Prop) (Hnull : P JNull) (Hbool : forall b, P (JBool b)) (Hint : forall z, P (JInt z))
    (Hstr : forall s, P (JStr s)) (Harr : forall l, Forall P l -> P (JArr l))
    (Hobj : forall l, Forall (fun e => P e.2) l -> P (JObj l)) (v : json) : P v :=
  match v with
  | JNull => Hnull | JBool b => Hbool b | JInt z => Hint z | JStr s => Hstr s
  | JArr l => Harr l ((fix go l := match l return Forall P l with
      | [] => Forall_nil_2 P
      | x :: l' => Forall_cons_2 P x l' (json_ind' P Hnull Hbool Hint Hstr Harr Hobj x) (go l')
      end) l)
  | JObj l => Hobj l ((fix go l := match l return Forall (fun e => P e.2) l with
      | [] => Forall_nil_2 _
      | x :: l' => Forall_cons_2 _ x l' (json_ind' P Hnull Hbool Hint Hstr Harr Hobj x.2) (go l')
      end) l)
  end.

Fixpoint item_of (v : json) : cJSON :=
  match v with
  | JNull => cJSON_CreateNull
  | JBool b => if b then CJson cJSON_True None 1 d_zero None [] else cJSON_CreateFalse
  | JInt z => number_item z
  | JStr s => cJSON_CreateString s
  | JArr l => with_items (map item_of l) cJSON_CreateArray
  | JObj l => with_items (map (fun e => with_name (Some e.1) (item_of e.2)) l) cJSON_CreateObject
  end.

Fixpoint json_ok (v : json) : Prop :=
  match v with
  | JNull | JBool _ => True
  | JInt z => INT_MIN <= z <= INT_MAX
  | JStr s => plain s
  | JArr l => fold_right (fun x P => json_ok x /\ P) True l
  | JObj l => fold_right (fun e P => (plain e.1 /\ json_ok e.2) /\ P) True l
  end.

Fixpoint join (ts : list (list Z)) : list Z :=
  match ts with [] => [] | [t] => t | t :: ts' => t ++ 44 :: join ts' end.

Fixpoint json_text (v : json) : list Z :=
  match v with
  | JNull => [110; 117; 108; 108]
  | JBool b => if b then [116; 114; 117; 101] else [102; 97; 108; 115; 101]
  | JInt z => string_bytes (pretty z)
  | JStr s => quoted s
  | JArr l => 91 :: join (map json_text l) ++ [93]
  | JObj l => 123 :: join (map (fun e => quoted e.1 ++ 58 :: json_text e.2) l) ++ [125]
  end.

Lemma fold_Forall {A} (P : A -> Prop) l : fold_right (fun x Q => P x /\ Q) True l <-> Forall P l.
Proof. induction l as [|x l IH]; simpl; [done|]. by rewrite IH, Forall_cons. Qed.

(** ** The printer writes the text *)

Lemma sprintf_ok size s : text_length s < size -> sprintf size s = Ok s.
Proof. intros H. unfold sprintf, text_length in *. by rewrite (proj2 (Z.ltb_lt _ _) H). Qed.

Lemma text_length_bytes l : text_length (bytes_string l) = Z.of_nat (length l).
Proof. unfold text_length. by rewrite bytes_string_length. Qed.

Lemma escape_length l : Forall (fun b => byte b) l -> Z.of_nat (length (escape l)) = escaped_len l.
Proof.
  induction 1 as [|b l Hb Hl IH]; [done|]. rewrite escape_cons, length_app. cbn [escaped_len].
  rewrite Nat2Z.inj_add, IH. f_equal. unfold escape1, short_escape.
  destruct (31 <? b) eqn:E1; [destruct (b =? 34) eqn:E2; [|destruct (b =? 92) eqn:E3]|]; cbn [andb negb]; zbool; subst; try done.
  - rewrite (proj2 (Z.eqb_neq b 8)), (proj2 (Z.eqb_neq b 12)), (proj2 (Z.eqb_neq b 10)),
      (proj2 (Z.eqb_neq b 13)), (proj2 (Z.eqb_neq b 9)), (proj2 (Z.ltb_ge b 32)) by lia. done.
  - rewrite (proj2 (Z.eqb_neq b 92)), (proj2 (Z.eqb_neq b 34)) by lia.
    repeat match goal with |- context [if b =? ?c then _ else _] => destruct (b =? c); [done|] end.
    rewrite (proj2 (Z.ltb_lt b 32)) by lia. done.
Qed.

Lemma print_string_ptr_spec s : print_string_ptr (Some s) = Ok (bytes_string (quoted s)).
Proof.
  unfold print_string_ptr. fold (quoted s). apply sprintf_ok. rewrite text_length_bytes. unfold quoted.
  pose proof (escape_length (string_bytes s) (string_bytes_range s)).
  cbn [length]. rewrite length_app. cbn [length]. lia.
Qed.

Lemma compose_array_text ts : compose_array false (map bytes_string ts) = bytes_string (join ts).
Proof.
  induction ts as [|t [|t' ts] IH]; [done..|].
  change (join (t :: t' :: ts)) with (t ++ 44 :: join (t' :: ts)). rewrite bytes_string_app. cbn [bytes_string].
  rewrite <- IH. done.
Qed.

Lemma array_len_text ts : text_length (bytes_string (join ts)) + 2 < array_len false (map bytes_string ts).
Proof.
  rewrite text_length_bytes. induction ts as [|t ts IH]; [done|].
  cbn [map array_len flag]. rewrite text_length_bytes. destruct ts as [|t' ts].
  - cbn [join map array_len flag]. lia.
  - change (join (t :: t' :: ts)) with (t ++ 44 :: join (t' :: ts)). rewrite length_app. cbn [length]. lia.
Qed.

Definition entry_text (e : list Z * list Z) : list Z := e.1 ++ 58 :: e.2.
Definition entry_strings (e : list Z * list Z) : string * string := (bytes_string e.1, bytes_string e.2).

Lemma compose_object_text depth ts :
  compose_object false depth (map entry_strings ts) = bytes_string (join (map entry_text ts)).
Proof.
  assert (He : forall e, compose_entry false depth (bytes_string e.1) (bytes_string e.2) = bytes_string (entry_text e)).
  { intros e. unfold compose_entry, entry_text. by rewrite bytes_string_app. }
  induction ts as [|t [|t' ts] IH]; [done| |].
  - cbn [map compose_object join]. unfold entry_strings. by rewrite He, string_app_nil_r.
  - change (join (map entry_text (t :: t' :: ts))) with (entry_text t ++ 44 :: join (map entry_text (t' :: ts))).
    rewrite bytes_string_app. cbn [bytes_string]. rewrite <- IH, <- He. done.
Qed.

Lemma object_len_text depth ts :
  text_length (bytes_string (join (map entry_text ts))) + 2 < object_len false depth (map entry_strings ts).
Proof.
  rewrite text_length_bytes. induction ts as [|t ts IH]; [done|].
  change (map entry_strings (t :: ts)) with (entry_strings t :: map entry_strings ts).
  unfold entry_strings at 1. cbn [object_len flag]. rewrite !text_length_bytes.
  assert (Hl : length (entry_text t) = (length t.1 + S (length t.2))%nat) by (unfold entry_text; by rewrite length_app).
  destruct ts as [|t' ts].
  - cbn [join map object_len flag]. lia.
  - change (join (map entry_text (t :: t' :: ts))) with (entry_text t ++ 44 :: join (map entry_text (t' :: ts))).
    rewrite length_app. cbn [length]. lia.
Qed.

Lemma all_some_map {A} (l : list A) : all_some (map Some l) = Some l.
Proof. induction l as [|x l IH]; [done|]. cbn. by rewrite IH. Qed.

Lemma map_res_map {A B C} (f : B -> res C) (h : A -> B) (g : A -> C) l :
  Forall (fun a => f (h a) = Ok (g a)) l -> map_res f (map h l) = Ok (map g l).
Proof.
  induction 1 as [|a l Ha Hl IH]; [done|]. cbn [map map_res]. rewrite Ha. cbn [mbind res_bind]. by rewrite IH.
Qed.

Lemma text_length_app a b : text_length (a ++ b) = text_length a + text_length b.
Proof. unfold text_length. rewrite string_length_app. lia. Qed.

Lemma print_entries_some es :
  es <> [] -> print_entries false (map Some es)
    = s ← sprintf (array_len false es) ("[" ++ compose_array false es ++ "]"); Ok (Some s).
Proof.
  intros He. unfold print_entries. rewrite all_some_map. by destruct es.
Qed.

Lemma print_entries_text ts :
  print_entries false (map (fun t => Some (bytes_string t)) ts) = Ok (Some (bytes_string (91 :: join ts ++ [93]))).
Proof.
  rewrite <- (map_map bytes_string Some). destruct (decide (ts = [])) as [->|Hne]; [done|].
  rewrite print_entries_some by (by destruct ts). rewrite compose_array_text, sprintf_ok.
  - cbn [mbind res_bind]. do 2 f_equal. cbn [bytes_string]. by rewrite bytes_string_app.
  - pose proof (array_len_text ts). rewrite !text_length_app.
    change (text_length "[") with 1. change (text_length "]") with 1. lia.
Qed.

Lemma print_members_some depth es :
  es <> [] -> print_members false depth (map (fun e => (e.1, Some e.2)) es)
    = s ← sprintf (object_len false depth es) ("{" ++ "" ++ compose_object false depth es ++ "" ++ "}"); Ok (Some s).
Proof.
  intros He. unfold print_members. rewrite map_map.
  rewrite (map_ext _ Some) by (by intros [a b]). rewrite all_some_map. by destruct es.
Qed.

Lemma print_members_text depth ts :
  print_members false depth (map (fun t => (bytes_string t.1, Some (bytes_string t.2))) ts)
    = Ok (Some (bytes_string (123 :: join (map entry_text ts) ++ [125]))).
Proof.
  rewrite <- (map_map entry_strings (fun e => (e.1, Some e.2))). destruct (decide (ts = [])) as [->|Hne]; [done|].
  rewrite print_members_some by (by destruct ts). rewrite compose_object_text, sprintf_ok.
  - cbn [mbind res_bind]. do 2 f_equal. cbn [bytes_string]. by rewrite bytes_string_app.
  - pose proof (object_len_text depth ts). rewrite !text_length_app. change (text_length "{") with 1.
    change (text_length "}") with 1. change (text_length "") with 0. lia.
Qed.

Lemma dvalue_lower s : forall acc, digits s = true -> (acc * 10 ^ N.of_nat (String.length s) <= dvalue acc s)%N.
Proof.
  induction s as [|c s IH]; intros acc Hs; [simpl; lia|]. cbn [digits] in Hs. apply andb_true_iff in Hs as [_ Hs].
  cbn [dvalue String.length]. specialize (IH (10 * acc + (N_of_ascii c - 48))%N Hs).
  rewrite Nat2N.inj_succ, N.pow_succ_r by lia. nia.
Qed.

(** A number that is an [int] is printed by its digits. *)
Lemma pretty_length p : Z.pos p <= 2 ^ 31 -> text_length (pretty (Z.pos p)) < 20.
Proof.
  intros Hp. destruct (pretty_pos_head p) as (c & t & E & Hc). destruct (pretty_value (Z.pos p)) as [Hv Hd]; [lia|].
  rewrite E in *. cbn [digits dvalue] in Hv, Hd. apply andb_true_iff in Hd as [_ Hd].
  pose proof (dvalue_lower t (10 * 0 + (N_of_ascii c - 48)) Hd) as Hl. unfold uchar in Hc.
  unfold text_length. cbn [String.length]. destruct (decide (String.length t < 19)%nat) as [|Hge]; [lia|exfalso].
  assert (H19 : (10 ^ 19 <= 10 ^ N.of_nat (String.length t))%N) by (apply N.pow_le_mono_r; lia). nia.
Qed.

Lemma pretty_short z : INT_MIN <= z <= INT_MAX -> text_length (pretty z) < 21.
Proof.
  intros Hz. unfold INT_MIN, INT_MAX in Hz. destruct z as [|p|p]; [done| |].
  - pose proof (pretty_length p). lia.
  - pose proof (pretty_length p ltac:(lia)) as H. change (pretty (Z.neg p)) with ("-" ++ pretty (Z.pos p))%string.
    rewrite text_length_app. change (text_length "-") with 1. lia.
Qed.

Lemma print_number_int z : INT_MIN <= z <= INT_MAX -> print_number (number_item z) = Ok (pretty z).
Proof.
  intros Hz. pose proof (pretty_short z Hz). unfold print_number, number_item. cbn [valuedouble valueint].
  unfold INT_MIN, INT_MAX in *. rewrite d_sub_self by lia. rewrite !d_le_of_Z by lia.
  change (d_le (d_abs d_zero) DBL_EPSILON) with true. by apply sprintf_ok.
Qed.

Lemma print_value_name n v depth fmt : print_value (with_name n v) depth fmt = print_value v depth fmt.
Proof. by destruct v. Qed.

Lemma print_value_text v : forall depth,
  json_ok v -> print_value (item_of v) depth false = Ok (Some (bytes_string (json_text v))).
Proof.
  induction v as [|b|z|s|l IH|l IH] using json_ind'; intros depth Hok.
  - done.
  - by destruct b.
  - change (print_value (item_of (JInt z)) depth false) with (some_text (print_number (number_item z))).
    rewrite print_number_int by done. unfold some_text. cbn. by rewrite bytes_string_bytes.
  - change (print_value (item_of (JStr s)) depth false) with (some_text (print_string_ptr (Some s))).
    by rewrite print_string_ptr_spec.
  - change (print_value (item_of (JArr l)) depth false)
      with (entries ← map_res (fun x => print_value x (depth + 1) false) (map item_of l); print_entries false entries).
    apply fold_Forall in Hok. rewrite (map_res_map _ item_of (fun x => Some (bytes_string (json_text x)))).
    + cbn [mbind res_bind]. rewrite <- (map_map json_text (fun t => Some (bytes_string t))). apply print_entries_text.
    + apply Forall_forall. intros x Hx. rewrite Forall_forall in IH, Hok. apply (IH x Hx). exact (Hok x Hx).
  - change (print_value (item_of (JObj l)) depth false)
      with (entries ← map_res (fun x => n ← print_string_ptr (name x); e ← print_value x (depth + 1) false; Ok (n, e))
                        (map (fun e => with_name (Some e.1) (item_of e.2)) l);
            print_members false (depth + 1) entries).
    apply fold_Forall in Hok.
    rewrite (map_res_map _ _ (fun e => (bytes_string (quoted e.1), Some (bytes_string (json_text e.2))))).
    + cbn [mbind res_bind].
      rewrite <- (map_map (fun e => (quoted e.1, json_text e.2)) (fun t => (bytes_string t.1, Some (bytes_string t.2)))).
      rewrite print_members_text, map_map. done.
    + apply Forall_forall. intros e He. rewrite Forall_forall in IH, Hok.
      replace (name (with_name (Some e.1) (item_of e.2))) with (Some e.1) by (by destruct (item_of e.2)).
      rewrite print_string_ptr_spec. cbn [mbind res_bind]. rewrite print_value_name, (IH e He); [done|]. exact (proj2 (Hok e He)).
Qed.

(** ** The parser reads the text *)

(** A number ends where the text that follows it stops it; other values end themselves. *)
Definition ends (v : json) (r : mem) : Prop := match v with JInt _ => stops r | _ => True end.

Lemma ends_at v b r : digit b = false -> b <> 46 -> b <> 101 -> b <> 69 -> ends v (b :: r).
Proof. intros. destruct v; try done. exists b, r. done. Qed.

Lemma pretty_head (z : Z) : exists b t, string_bytes (pretty z) = b :: t /\ (b = 45 \/ digit b = true).
Proof.
  destruct z as [|p|p].
  - by exists 48, []; split; [|right].
  - destruct (pretty_pos_head p) as (c & t & -> & Hc). rewrite string_bytes_cons. eexists _, _. split; [done|].
    right. unfold digit. apply andb_true_iff. lia.
  - change (string_bytes (pretty (Z.neg p))) with (45 :: string_bytes (pretty (Z.pos p))). eexists _, _. split; [done|by left].
Qed.

Lemma text_head v : exists b t, json_text v = b :: t /\ 32 < b /\ b <> 93 /\ b <> 125.
Proof.
  destruct v as [|b|z|s|l|l]; cbn [json_text]; try (eexists _, _; split; [done|lia]).
  - destruct b; eexists _, _; (split; [done|lia]).
  - destruct (pretty_head z) as (b & t & -> & Hb). exists b, t. split; [done|].
    destruct Hb as [->|Hb]; [lia|]. unfold digit in Hb. zbool. lia.
Qed.

Lemma skip_here b t r : 32 < b -> skip ((b :: t) ++ r) = Ok ((b :: t) ++ r).
Proof. intros Hb. cbn [app skip]. by rewrite (proj2 (Z.leb_gt b 32)), andb_false_r by lia. Qed.

Lemma skip_text v r : skip (json_text v ++ r) = Ok (json_text v ++ r).
Proof. destruct (text_head v) as (b & t & -> & Hb & _). by apply skip_here. Qed.

Lemma starts_with_differs c lit b p : b <> c -> starts_with (c :: lit) (b :: p) = Ok false.
Proof. intros H. cbn [starts_with rd mbind res_bind]. by rewrite (proj2 (Z.eqb_neq b c)). Qed.

(** The parser on a character that starts none of the three words. *)
Lemma parse_value_other n b p :
  b <> 110 -> b <> 102 -> b <> 116 ->
  parse_value (S n) (b :: p) =
    if b =? 34 then
      s ← parse_string (b :: p);
      Ok (match s with Some (s, p) => Some (cJSON_CreateString s, p) | None => None end)
    else if (b =? 45) || digit b then '(j, p) ← parse_number (b :: p); Ok (Some (j, p))
    else if b =? 91 then
      p ← skip p;
      b ← rd p;
      if b =? 93 then Ok (Some (cJSON_CreateArray, tail p))
      else
        r ← parse_elements n p;
        match r with
        | Some (l, p) => b ← rd p; Ok (if b =? 93 then Some (with_items l cJSON_CreateArray, tail p) else None)
        | None => Ok None
        end
    else if b =? 123 then
      p ← skip p;
      b ← rd p;
      if b =? 125 then Ok (Some (cJSON_CreateObject, tail p))
      else
        r ← parse_members n p;
        match r with
        | Some (l, p) => b ← rd p; Ok (if b =? 125 then Some (with_items l cJSON_CreateObject, tail p) else None)
        | None => Ok None
        end
    else Ok None.
Proof.
  intros H1 H2 H3. cbn [parse_value]. by rewrite !starts_with_differs by done.
Qed.

Definition parses (v : json) : Prop := forall fuel r, json_ok v -> ends v r ->
  (2 * length (json_text v) + 1 <= fuel)%nat ->
  parse_value fuel (json_text v ++ r) = Ok (Some (item_of v, r)).

(** One element, and what comes after it. *)
Lemma parse_elements_step n v x :
  parses v -> json_ok v -> ends v x -> (2 * length (json_text v) + 1 <= n)%nat ->
  parse_elements (S n) (json_text v ++ x) =
    p ← skip x;
    b ← rd p;
    if b =? 44 then
      r ← parse_elements n (tail p);
      Ok (match r with Some (cs, p) => Some (item_of v :: cs, p) | None => None end)
    else Ok (Some ([item_of v], p)).
Proof.
  intros Hv Hok Hx Hn. cbn [parse_elements]. rewrite skip_text. cbn [mbind res_bind]. by rewrite Hv.
Qed.

Lemma parse_elements_text l : forall fuel r, l <> [] -> Forall parses l -> Forall json_ok l ->
  (2 * length (join (map json_text l)) + 2 <= fuel)%nat ->
  parse_elements fuel (join (map json_text l) ++ 93 :: r) = Ok (Some (map item_of l, 93 :: r)).
Proof.
  induction l as [|v l IH]; intros fuel r Hne Hp Hok Hf; [done|].
  apply Forall_cons in Hp as [Hv Hp]. apply Forall_cons in Hok as [Hvok Hok].
  destruct fuel as [|n]; [lia|]. destruct l as [|v' l].
  - cbn [map join] in *. by rewrite parse_elements_step by (done || lia || by apply ends_at).
  - change (join (map json_text (v :: v' :: l))) with (json_text v ++ 44 :: join (map json_text (v' :: l))) in *.
    rewrite length_app in Hf. cbn [length] in Hf. rewrite <- app_assoc. cbn [app].
    rewrite parse_elements_step by (done || lia || by apply ends_at).
    change (skip (44 :: ?x)) with (@Ok mem (44 :: x)). cbn [mbind res_bind rd Z.eqb Pos.eqb tail].
    rewrite IH; [done|done|done|done|lia].
Qed.

Definition member_text (e : string * json) : list Z := quoted e.1 ++ 58 :: json_text e.2.
Definition member_item (e : string * json) : cJSON := with_name (Some e.1) (item_of e.2).

Lemma parse_members_step n e x :
  parses e.2 -> plain e.1 -> json_ok e.2 -> ends e.2 x -> (2 * length (member_text e) <= n)%nat ->
  parse_members (S n) (member_text e ++ x) =
    p ← skip x;
    b ← rd p;
    if b =? 44 then
      r ← parse_members n (tail p);
      Ok (match r with Some (cs, p) => Some (member_item e :: cs, p) | None => None end)
    else Ok (Some ([member_item e], p)).
Proof.
  intros Hv Hs Hok Hx Hn. unfold member_text in *. rewrite length_app in Hn. cbn [length] in Hn.
  rewrite <- app_assoc. cbn [parse_members].
  assert (Hq : skip (quoted e.1 ++ (58 :: json_text e.2) ++ x) = Ok (quoted e.1 ++ (58 :: json_text e.2) ++ x))
    by (by apply skip_here).
  rewrite Hq. cbn [mbind res_bind]. rewrite parse_string_quoted by done. cbn [mbind res_bind app].
  change (skip (58 :: ?y)) with (@Ok mem (58 :: y)). cbn [mbind res_bind rd Z.eqb Pos.eqb tail negb].
  rewrite skip_text. cbn [mbind res_bind]. by rewrite Hv by (done || lia).
Qed.

Lemma parse_members_text l : forall fuel r, l <> [] -> Forall (fun e => parses e.2) l ->
  Forall (fun e => plain e.1 /\ json_ok e.2) l ->
  (2 * length (join (map member_text l)) + 2 <= fuel)%nat ->
  parse_members fuel (join (map member_text l) ++ 125 :: r) = Ok (Some (map member_item l, 125 :: r)).
Proof.
  induction l as [|e l IH]; intros fuel r Hne Hp Hok Hf; [done|].
  apply Forall_cons in Hp as [Hv Hp]. apply Forall_cons in Hok as [[Hs Hvok] Hok].
  destruct fuel as [|n]; [lia|]. destruct l as [|e' l].
  - cbn [map join] in *. by rewrite parse_members_step by (done || lia || by apply ends_at).
  - change (join (map member_text (e :: e' :: l))) with (member_text e ++ 44 :: join (map member_text (e' :: l))) in *.
    rewrite length_app in Hf. cbn [length] in Hf. rewrite <- app_assoc. cbn [app].
    rewrite parse_members_step by (done || lia || by apply ends_at).
    change (skip (44 :: ?x)) with (@Ok mem (44 :: x)). cbn [mbind res_bind rd Z.eqb Pos.eqb tail].
    rewrite IH; [done|done|done|done|lia].
Qed.

Lemma join_head {A} (f : A -> list Z) l r (P : Z -> Prop) :
  l <> [] -> (forall a, exists b t, f a = b :: t /\ P b) ->
  exists b t, join (map f l) ++ r = b :: t /\ P b.
Proof.
  intros Hl Hf. destruct l as [|a l]; [done|]. destruct (Hf a) as (b & t & Hb & HP). exists b.
  destruct l as [|a' l]; cbn [map join]; rewrite Hb; eexists; (split; [reflexivity|done]).
Qed.

(** Every value is read back from its text, and nothing after it is read. *)
Lemma parse_value_text v : parses v.
Proof.
  induction v as [|b|z|s|l IH|l IH] using json_ind'; intros fuel r Hok Hr Hf; (destruct fuel as [|n]; [lia|]).
  - done.
  - by destruct b.
  - cbn [json_text]. destruct (pretty_head z) as (b & t & E & Hb). pose proof (parse_number_int z r Hok Hr) as Hn.
    rewrite E in *. cbn [app] in *.
    rewrite parse_value_other, Hn by (destruct Hb as [->|Hb]; [lia|unfold digit in Hb; zbool; lia]).
    rewrite (proj2 (Z.eqb_neq b 34)) by (destruct Hb as [->|Hb]; [lia|unfold digit in Hb; zbool; lia]).
    by destruct Hb as [->| ->]; rewrite ?orb_true_r.
  - cbn [json_text]. pose proof (parse_string_quoted s r Hok) as Hs. unfold quoted in *. cbn [app] in *.
    rewrite parse_value_other by lia. cbn [Z.eqb Pos.eqb]. by rewrite Hs.
  - cbn [json_text] in *. cbn [app]. rewrite parse_value_other by lia.
    cbn [Z.eqb Pos.eqb orb digit Z.leb Z.compare Pos.compare Pos.compare_cont andb].
    rewrite <- app_assoc. cbn [app]. destruct (decide (l = [])) as [->|Hne]; [done|].
    destruct (join_head json_text l (93 :: r) (fun b => 32 < b /\ b <> 93) Hne) as (b & t & E & Hb & Hb').
    { intros a. destruct (text_head a) as (b & t & ? & ? & ? & _). by exists b, t. }
    assert (Hskip : skip (join (map json_text l) ++ 93 :: r) = Ok (join (map json_text l) ++ 93 :: r)).
    { rewrite E. by apply (skip_here b [] t). }
    rewrite Hskip. cbn [mbind res_bind]. rewrite E at 1. cbn [rd mbind res_bind].
    rewrite (proj2 (Z.eqb_neq b 93)) by done.
    apply fold_Forall in Hok. cbn [length] in Hf. rewrite length_app in Hf. cbn [length] in Hf.
    rewrite parse_elements_text by (done || lia). done.
  - change (json_text (JObj l)) with (123 :: join (map member_text l) ++ [125]) in *. cbn [app].
    rewrite parse_value_other by lia. cbn [Z.eqb Pos.eqb orb digit Z.leb Z.compare Pos.compare Pos.compare_cont andb].
    rewrite <- app_assoc. cbn [app]. destruct (decide (l = [])) as [->|Hne]; [done|].
    destruct (join_head member_text l (125 :: r) (fun b => b = 34) Hne) as (b & t & E & ->).
    { intros a. unfold member_text, quoted. by eexists _, _. }
    assert (Hskip : skip (join (map member_text l) ++ 125 :: r) = Ok (join (map member_text l) ++ 125 :: r)).
    { rewrite E. by apply (skip_here 34 [] t). }
    rewrite Hskip. cbn [mbind res_bind]. rewrite E at 1. cbn [rd mbind res_bind Z.eqb Pos.eqb].
    apply fold_Forall in Hok. cbn [length] in Hf. rewrite length_app in Hf. cbn [length] in Hf.
    rewrite parse_members_text by (done || lia). done.
Qed.

(** * The parser ends

    [safe Q r]: [r] did not run out of fuel, and its result has [Q]. *)

Definition safe {A} (Q : A -> Prop) (r : res A) : Prop :=
  match r with Ok a => Q a | Fault f => f <> NoFuel end.

Lemma parse_safe_bind {A B} (P : A -> Prop) (Q : B -> Prop) (m : res A) (k : A -> res B) :
  safe P m -> (forall a, P a -> safe Q (k a)) -> safe Q (m ≫= k).
Proof. destruct m; simpl; auto. Qed.

Lemma parse_safe_weaken {A} (P Q : A -> Prop) (m : res A) : safe P m -> (forall a, P a -> Q a) -> safe Q m.
Proof. destruct m; simpl; auto. Qed.

(** What is left to read is at most [n] bytes long. *)
Definition within {A} (n : nat) (x : A * mem) : Prop := (length x.2 <= n)%nat.
Definition within_opt {A} (n : nat) (x : option (A * mem)) : Prop :=
  match x with Some x => within n x | None => True end.
Definition short (n : nat) (p : mem) : Prop := (length p <= n)%nat.

Lemma rd_safe p : safe (fun _ => (0 < length p)%nat) (rd p).
Proof. destruct p; simpl; [done|lia]. Qed.

Lemma skip_safe p : safe (short (length p)) (skip p).
Proof.
  induction p as [|b p IH]; [done|]. cbn [skip]. destruct (_ && _); [|unfold short; simpl; lia].
  apply (parse_safe_weaken _ _ _ IH). intros a. unfold short. simpl. lia.
Qed.

Lemma starts_with_safe lit p : safe (fun _ => True) (starts_with lit p).
Proof.
  revert p. induction lit as [|c lit IH]; intros p; [done|]. cbn [starts_with].
  apply (parse_safe_bind _ _ _ _ (rd_safe p)). intros b _. by destruct (b =? c).
Qed.

Lemma digits_loop_safe n k p : safe (within (length p)) (digits_loop n k p).
Proof.
  revert n k. induction p as [|b p IH]; intros n k; [done|]. cbn [digits_loop].
  destruct (digit b); [|unfold within; simpl; lia].
  apply (parse_safe_weaken _ _ _ (IH _ _)). unfold within. simpl. lia.
Qed.

Lemma subscale_loop_safe n p : safe (within (length p)) (subscale_loop n p).
Proof.
  revert n. induction p as [|b p IH]; intros n; [done|]. cbn [subscale_loop].
  destruct (digit b); [|unfold within; simpl; lia].
  apply (parse_safe_weaken _ _ _ (IH _)). unfold within. simpl. lia.
Qed.

Lemma tail_length (p : mem) : length (tail p) = pred (length p).
Proof. by destruct p. Qed.

(** One more computation that is safe, with what is known of its result. *)
Ltac safe_step H := eapply (parse_safe_bind _ _ _ _ H); cbn beta.
Ltac lens := unfold within_opt, within, short in *; cbn [snd fst] in *; rewrite ?tail_length, ?length_drop in *; try lia.

Lemma is_digit_at_safe p : safe (fun _ => True) (is_digit_at p).
Proof. unfold is_digit_at. safe_step (rd_safe p). done. Qed.

Lemma parse_number_safe p : safe (within (length p)) (parse_number p).
Proof.
  unfold parse_number. safe_step (rd_safe p). intros b Hp.
  assert (exists sign p1, (if b =? 45 then (d_of_Z (-1), tail p) else (d_of_Z 1, p)) = (sign, p1) /\ (length p1 <= length p)%nat)
    as (sign & p1 & -> & H1) by (destruct (b =? 45); eexists _, _; (split; [done|lens])).
  safe_step (rd_safe p1). intros b1 _. set (p2 := if b1 =? 48 then tail p1 else p1).
  assert (H2 : (length p2 <= length p)%nat) by (unfold p2; destruct (b1 =? 48); lens).
  safe_step (rd_safe p2). intros b2 _.
  assert (Hd : safe (within (length p2)) (if (49 <=? b2) && (b2 <=? 57) then digits_loop d_zero 0 p2 else Ok (d_zero, 0, p2)))
    by (destruct (_ && _); [apply digits_loop_safe|lens; simpl; lia]).
  safe_step Hd. intros [[n k] p3] H3. safe_step (rd_safe p3). intros b3 _.
  assert (Hf : safe (fun _ : bool => True) (if b3 =? 46 then is_digit_at (tail p3) else Ok false))
    by (destruct (b3 =? 46); [apply is_digit_at_safe|done]).
  safe_step Hf. intros frac _.
  assert (Hs : safe (within (length p3)) (if frac then digits_loop n 0 (tail p3) else Ok (n, 0, p3))).
  { destruct frac; [|lens; simpl; lia]. apply (parse_safe_weaken _ _ _ (digits_loop_safe _ _ _)). intros a; lens. }
  safe_step Hs. intros [[n' scale] p4] H4. safe_step (rd_safe p4). intros b4 _.
  eapply (parse_safe_bind (within (length p4))).
  - destruct (_ || _); [|lens; simpl; lia]. safe_step (rd_safe (tail p4)). intros b5 _.
    assert (exists g p5, (if b5 =? 43 then (1, tail (tail p4)) else if b5 =? 45 then (-1, tail (tail p4)) else (1, tail p4)) = (g, p5)
      /\ (length p5 <= length p4)%nat) as (g & p5 & -> & H5)
      by (destruct (b5 =? 43); [|destruct (b5 =? 45)]; eexists _, _; (split; [done|lens])).
    safe_step (subscale_loop_safe 0 p5). intros [x p6] H6. simpl. lens.
  - intros [[x y] p5] H5. simpl. lens.
Qed.

Lemma string_len_safe p : safe (fun _ => True) (string_len p).
Proof.
  assert (H : forall m q, (length q <= m)%nat -> safe (fun _ => True) (string_len q)); [|by apply (H (length p))].
  induction m as [|m IH]; intros [|b q] Hq; try done; [simpl in Hq; lia|]. cbn [string_len].
  destruct (_ || _); [done|]. destruct (b =? 92).
  - destruct q as [|c q]; [done|]. eapply parse_safe_bind; [apply IH; simpl in Hq; lia|done].
  - eapply parse_safe_bind; [apply IH; simpl in Hq; lia|done].
Qed.

Lemma out_put_safe cap out bytes : safe (fun _ => True) (out_put cap out bytes).
Proof. unfold out_put. by destruct (_ <=? _). Qed.

Lemma hex_digits_safe w acc k p : safe (fun _ => True) (hex_digits w acc k p).
Proof.
  revert acc k p. induction w as [|w IH]; intros acc k p; [done|]. cbn [hex_digits].
  safe_step (rd_safe p). intros b _. destruct (hex_digit b); [apply IH|done].
Qed.

Lemma skip_blanks_safe p : safe (fun _ => True) (skip_blanks p).
Proof. induction p as [|b p IH]; [done|]. cbn [skip_blanks]. by destruct (isspace _). Qed.

Lemma scan_hex_safe p : safe (fun _ => True) (scan_hex p).
Proof.
  unfold scan_hex. safe_step (skip_blanks_safe p). intros q _. safe_step (rd_safe q). intros b _.
  destruct (if b =? 45 then _ else _) as [[neg w] q']. safe_step (rd_safe q'). intros c _.
  eapply (parse_safe_bind (fun _ => True)).
  { destruct (c =? 48); [|done]. safe_step (rd_safe (tail q')). done. }
  intros x _. eapply (parse_safe_bind (fun _ => True)); [|by intros [v k]].
  destruct x; [|apply hex_digits_safe]. safe_step (hex_digits_safe (w - 2) 0 0 (tail (tail q'))). by intros [v k].
Qed.

Lemma unescape_u_safe cap p out uc uc2 :
  safe (fun x => (length x.1.1.1 <= length p)%nat) (unescape_u cap p out uc uc2).
Proof.
  unfold unescape_u. safe_step (scan_hex_safe (tail p)). intros h _.
  eapply (parse_safe_bind (fun _ => True)); [by destruct (match h with Some _ => h | None => uc end)|]. intros u _.
  destruct (_ || _); [simpl; lens|]. destruct (high_surrogate u).
  - safe_step (rd_safe (drop 1 (drop 4 p))). intros b1 _.
    eapply (parse_safe_bind (fun _ => True)).
    { destruct (b1 =? 92); [|done]. apply (parse_safe_weaken _ _ _ (rd_safe _)). done. }
    intros b2 _. destruct (_ || _); [simpl; lens|]. safe_step (scan_hex_safe (drop 3 (drop 4 p))). intros h2 _.
    eapply (parse_safe_bind (fun _ => True)); [by destruct (match h2 with Some _ => h2 | None => uc2 end)|]. intros u2 _.
    destruct (negb _); [simpl; lens|]. destruct (utf8 _) as [bytes u']. safe_step (out_put_safe cap out bytes).
    intros o _. simpl. lens.
  - destruct (utf8 u) as [bytes u']. safe_step (out_put_safe cap out bytes). intros o _. simpl. lens.
Qed.

Lemma unescape_safe fuel : forall cap p out uc uc2,
  (length p < fuel)%nat -> safe (within (length p)) (unescape fuel cap p out uc uc2).
Proof.
  induction fuel as [|n IH]; intros cap p out uc uc2 Hf; [lia|]. cbn [unescape].
  safe_step (rd_safe p). intros b Hp. destruct (_ || _); [simpl; lens|].
  assert (Hrest : forall q o c c2, (length q < length p)%nat -> safe (within (length p)) (unescape n cap q o c c2)).
  { intros q o c c2 Hq. apply (parse_safe_weaken _ _ _ (IH cap q o c c2 ltac:(lia))). intros a; lens. }
  destruct (negb _).
  - safe_step (out_put_safe cap out [b]). intros o _. apply Hrest. lens.
  - safe_step (rd_safe (tail p)). intros c Hc. destruct (c =? 117).
    + safe_step (unescape_u_safe cap (tail p) out uc uc2). intros [[[q o] c1] c2] Hq. cbn [fst] in Hq. apply Hrest. lens.
    + safe_step (out_put_safe cap out [escaped c]). intros o _. apply Hrest. lens.
Qed.

Lemma parse_string_safe p : safe (within_opt (length p)) (parse_string p).
Proof.
  unfold parse_string. safe_step (rd_safe p). intros b Hp. destruct (negb _); [done|].
  safe_step (string_len_safe (tail p)). intros len _.
  safe_step (unescape_safe (length p) (len + 1) (tail p) [] None None ltac:(lens)). intros [out q] Hq.
  safe_step (out_put_safe (len + 1) out [0]). intros o _. safe_step (rd_safe q). intros c _. simpl.
  destruct (c =? 34); lens.
Qed.

(** Two units of fuel for each byte are enough. *)
Lemma parse_safe fuel :
  (forall p, (2 * length p < fuel)%nat -> safe (within_opt (length p)) (parse_value fuel p)) /\
  (forall p, (2 * length p + 1 < fuel)%nat -> safe (within_opt (length p)) (parse_elements fuel p)) /\
  (forall p, (2 * length p + 1 < fuel)%nat -> safe (within_opt (length p)) (parse_members fuel p)).
Proof.
  induction fuel as [|n (IHv & IHe & IHm)]; [split_and!; intros; lia|].
  assert (Hlist : forall (q p : mem) (close : Z) (f : list cJSON -> cJSON) (r : res (option (list cJSON * mem))),
    (length q <= length p)%nat -> safe (within_opt (length q)) r ->
    safe (within_opt (length p))
      (r ← r; match r with
              | Some (l, p) => b ← rd p; Ok (if b =? close then Some (f l, tail p) else None)
              | None => Ok None
              end)).
  { intros q p close f r Hq Hr. safe_step Hr. intros [[l p']|] Hp'; [|done]. safe_step (rd_safe p'). intros b _.
    simpl. destruct (b =? close); [lens|done]. }
  split_and!; intros p Hf.
  - cbn [parse_value]. safe_step (starts_with_safe [110; 117; 108; 108] p). intros [] _; [simpl; lens|].
    safe_step (starts_with_safe [102; 97; 108; 115; 101] p). intros [] _; [simpl; lens|].
    safe_step (starts_with_safe [116; 114; 117; 101] p). intros [] _; [simpl; lens|].
    safe_step (rd_safe p). intros b Hp. destruct (b =? 34).
    { safe_step (parse_string_safe p). intros [[s q]|] Hq; [|done]. done. }
    destruct (_ || _); [safe_step (parse_number_safe p); by intros [j q]|].
    destruct (b =? 91).
    { safe_step (skip_safe (tail p)). intros q Hq. safe_step (rd_safe q). intros c _.
      destruct (c =? 93); [simpl; lens|]. apply (Hlist q); [lens|]. apply IHe. lens. }
    destruct (b =? 123); [|done].
    safe_step (skip_safe (tail p)). intros q Hq. safe_step (rd_safe q). intros c _.
    destruct (c =? 125); [simpl; lens|]. apply (Hlist q); [lens|]. apply IHm. lens.
  - cbn [parse_elements]. safe_step (skip_safe p). intros q Hq. safe_step (IHv q ltac:(lens)).
    intros [[c q']|] Hq'; [|done]. safe_step (skip_safe q'). intros q2 Hq2. safe_step (rd_safe q2). intros b Hb.
    destruct (b =? 44); [|simpl; lens]. safe_step (IHe (tail q2) ltac:(lens)). intros [[cs q3]|] Hq3; [|done].
    simpl. lens.
  - cbn [parse_members]. safe_step (skip_safe p). intros q Hq. safe_step (parse_string_safe q).
    intros [[s q0]|] Hq0; [|done]. safe_step (skip_safe q0). intros q1 Hq1. safe_step (rd_safe q1). intros b0 Hb0.
    destruct (negb _); [done|]. safe_step (skip_safe (tail q1)). intros q1' Hq1'.
    safe_step (IHv q1' ltac:(lens)).
    intros [[c q']|] Hq'; [|done]. safe_step (skip_safe q'). intros q2 Hq2. safe_step (rd_safe q2). intros b Hb.
    destruct (b =? 44); [|simpl; lens]. safe_step (IHm (tail q2) ltac:(lens)). intros [[cs q3]|] Hq3; [|done].
    simpl. lens.
Qed.

(** * Properties *)

Lemma json_text_range v : Forall (fun b => byte b) (json_text v).
Proof.
  assert (Hq : forall s, Forall (fun b => byte b) (quoted s)).
  { intros s. constructor; [lia|]. apply Forall_app. split; [|by repeat constructor].
    pose proof (string_bytes_range s) as Hs. induction Hs as [|b l Hb Hl IH]; [done|]. rewrite escape_cons.
    apply Forall_app. split; [|done]. unfold escape1, short_escape, print_u.
    destruct (_ && _); [by constructor|].
    repeat match goal with |- context [if ?c then _ else _] => destruct c; [repeat constructor; lia|] end.
    unfold hex_char. pose proof (Z.mod_pos_bound b 16 ltac:(lia)).
    pose proof (Z.div_pos b 16 ltac:(lia) ltac:(lia)). pose proof (Z.div_lt_upper_bound b 16 16 ltac:(lia) ltac:(lia)).
    destruct (b / 16 <? 10), (b mod 16 <? 10); repeat constructor; lia. }
  assert (Hj : forall A (f : A -> list Z) l, Forall (fun a => Forall (fun b => byte b) (f a)) l ->
    Forall (fun b => byte b) (join (map f l))).
  { intros A f l. induction 1 as [|a l Ha Hl IH]; [constructor|]. destruct l as [|a' l]; [done|].
    change (join (map f (a :: a' :: l))) with (f a ++ 44 :: join (map f (a' :: l))).
    apply Forall_app. split; [done|]. constructor; [lia|done]. }
  induction v as [|b|z|s|l IH|l IH] using json_ind'; cbn [json_text].
  - repeat constructor; lia.
  - destruct b; repeat constructor; lia.
  - apply string_bytes_range.
  - apply Hq.
  - constructor; [lia|]. apply Forall_app. split; [by apply Hj|by repeat constructor].
  - constructor; [lia|]. apply Forall_app. split; [|by repeat constructor]. apply Hj.
    apply (Forall_impl _ _ _ IH). intros e He. apply Forall_app. split; [apply Hq|]. constructor; [lia|done].
Qed.

Lemma print_text v :
  json_ok v -> cJSON_PrintUnformatted (item_of v) = Ok (Some (bytes_string (json_text v))).
Proof. apply print_value_text. Qed.

Lemma parse_text v r : json_ok v -> ends v r -> cJSON_Parse (Some (json_text v ++ r)) = Ok (Some (item_of v)).
Proof.
  intros Hok Hr. unfold cJSON_Parse, cJSON_ParseWithOpts. rewrite skip_text. cbn [mbind res_bind].
  rewrite parse_value_text; [done|done|done|]. rewrite length_app. lia.
Qed.

Lemma parse_text_string v r :
  json_ok v -> ends v r ->
  cJSON_Parse (Some (string_bytes (bytes_string (json_text v)) ++ r)) = Ok (Some (item_of v)).
Proof. intros Hok Hr. rewrite string_bytes_string by apply json_text_range. by apply parse_text. Qed.

Lemma ends_null v : ends v [0].
Proof. by apply ends_at. Qed.

(** C24. An item of JSON printed without formatting is read back as it was, from a text that
    ends with a null and from one that is followed by anything, or by nothing when it is not
    a number: the parser reads no further than the value. *)
Theorem cJSON_roundtrip (v : json) (r : mem) :
  json_ok v -> ends v r ->
  exists t, cJSON_PrintUnformatted (item_of v) = Ok (Some t) /\
    cJSON_Parse (Some (string_bytes t ++ r)) = Ok (Some (item_of v)) /\
    cJSON_Parse (Some (c_memory t)) = Ok (Some (item_of v)).
Proof.
  intros Hok Hr. exists (bytes_string (json_text v)). split; [by apply print_text|].
  split; [by apply parse_text_string|]. apply parse_text_string; [done|apply ends_null].
Qed.

(** C25. The parser ends on every memory, whatever its bytes: with an item, with the null
    pointer, or at a read or a write outside of its arrays. *)
Theorem cJSON_Parse_ends (value : option mem) : cJSON_Parse value <> Fault NoFuel.
Proof.
  assert (H : safe (fun _ => True) (cJSON_Parse value)); [|by destruct (cJSON_Parse value); intros [=]].
  unfold cJSON_Parse, cJSON_ParseWithOpts. eapply (parse_safe_bind (fun _ => True)); [|done].
  destruct value as [p|]; [|done]. safe_step (skip_safe p). intros q Hq.
  destruct (parse_safe (2 * length q + 1)) as [Hv _]. safe_step (Hv q ltac:(lia)). by intros [[c e]|] _.
Qed.

(** [cJSON_Print] writes the text of an empty object over the end of its array. *)
Lemma cJSON_Print_empty_overflows : cJSON_Print cJSON_CreateObject = Fault OutOfBounds.
Proof. done. Qed.

(** A string that ends with a backslash is read past the null that ends it. *)
Lemma cJSON_Parse_backslash : cJSON_Parse (Some (34 :: 92 :: [0])) = Fault OutOfBounds.
Proof. by vm_compute. Qed.

Definition example_json : json :=
  JObj [("name"%string, JStr (bytes_string [97; 34; 10; 1])); ("ids"%string, JArr [JInt (-5); JInt 2147483647; JNull]);
        ("ok"%string, JBool true)].

Lemma cJSON_roundtrip_witness :
  json_ok example_json /\ ends example_json [] /\
  exists t, cJSON_PrintUnformatted (item_of example_json) = Ok (Some t) /\
    cJSON_Parse (Some (string_bytes t ++ [])) = Ok (Some (item_of example_json)) /\
    cJSON_Parse (Some (c_memory t)) = Ok (Some (item_of example_json)).
Proof.
  assert (Hok : json_ok example_json).
  { unfold example_json, plain. cbn. unfold INT_MIN, INT_MAX. repeat split; repeat constructor; try lia; done. }
  split; [exact Hok|]. split; [exact I|]. exact (cJSON_roundtrip example_json [] Hok I).
Defined.
