(* ===== verification/KrCalcTree.v ===== *)
(** The expression trees of krcalc/kr_calc_tree.c and kr_calc_tree.h: construction,
    type check, evaluation and release, all by the one postorder traversal.

    A tree is a node record with its children.  Its functions return the tree they
    leave behind, since evaluation writes the type, indicator and value of every node
    and keeps them for the next one.  Sets and compiled regular expressions are
    objects of a store, reached by address.  [get_type_cb] and [get_value_cb] are the
    calculator's callbacks, which run on the state [St] of their caller; POSIX
    [regcomp] and [regexec] are parameters.  The text of error messages is not
    modelled; [calc_status] is. *)

From S2P Require Import Prelude KrString KrHashtable KrTypes KrHashset.
Local Open Scope Z_scope.

(** * Operators and kinds *)

Inductive E_KRCalcOp :=
  | KR_CALCOP_PLUS | KR_CALCOP_SUB | KR_CALCOP_MUT | KR_CALCOP_DIV | KR_CALCOP_MOD
  | KR_CALCOP_LT | KR_CALCOP_LE | KR_CALCOP_GT | KR_CALCOP_GE | KR_CALCOP_EQ | KR_CALCOP_NEQ
  | KR_CALCOP_BL | KR_CALCOP_NBL | KR_CALCOP_MATCH
  | KR_CALCOP_NOT | KR_CALCOP_AND | KR_CALCOP_OR.

#[export] Instance E_KRCalcOp_eq_dec : EqDecision E_KRCalcOp.
Proof. solve_decision. Defined.

Inductive E_KRCalcKind :=
  | KR_CALCKIND_REL | KR_CALCKIND_ARITH | KR_CALCKIND_LOGIC
  | KR_CALCKIND_INT | KR_CALCKIND_FLOAT | KR_CALCKIND_STRING
  | KR_CALCKIND_MINT | KR_CALCKIND_MFLOAT | KR_CALCKIND_MSTRING | KR_CALCKIND_REGEX
  | KR_CALCKIND_SET | KR_CALCKIND_CID | KR_CALCKIND_FID | KR_CALCKIND_SID
  | KR_CALCKIND_DID | KR_CALCKIND_HID.

#[export] Instance E_KRCalcKind_eq_dec : EqDecision E_KRCalcKind.
Proof. solve_decision. Defined.

(** * Data *)

Definition addr := positive.

(** A node; [op] is [None] for the 0 that [calloc] leaves. *)
Record T_KRCalcNode := mkNode {
  kind : E_KRCalcKind;
  op : option E_KRCalcOp;
  id : Z;
  type : E_KRType;
  ind : E_KRValueInd;
  value : U_KRValue addr
}.

Inductive T_KRCalcTree := Tree (node : T_KRCalcNode) (children : list T_KRCalcTree).

Definition node (t : T_KRCalcTree) : T_KRCalcNode := match t with Tree n _ => n end.
Definition children (t : T_KRCalcTree) : list T_KRCalcTree := match t with Tree _ c => c end.

Definition set_type (n : T_KRCalcNode) (t : E_KRType) : T_KRCalcNode :=
  mkNode (kind n) (op n) (id n) t (ind n) (value n).
Definition set_ind (n : T_KRCalcNode) (i : E_KRValueInd) : T_KRCalcNode :=
  mkNode (kind n) (op n) (id n) (type n) i (value n).
Definition set_value (n : T_KRCalcNode) (v : U_KRValue addr) : T_KRCalcNode :=
  mkNode (kind n) (op n) (id n) (type n) (ind n) v.

Definition kr_calc_tree_new (kind : E_KRCalcKind) : T_KRCalcTree :=
  Tree (mkNode kind None 0 KR_TYPE_UNKNOWN KR_VALUE_UNSET KRZero) [].

Definition kr_calc_tree_append (t child : T_KRCalcTree) : T_KRCalcTree :=
  Tree (node t) (children t ++ [child]).

(** The objects an address leads to: a set, or a compiled regular expression, known by
    its pattern. *)
Inductive calc_obj := OSet (s : T_KRHashSet) | ORegex (pattern : string).

(** * Traversal *)

Section Traverse.
Context {D St : Type}.

(** What a traversal applies to a node: from the node, its children and the data to a
    return code, the node and the data. *)
Definition traverse_func := list T_KRCalcTree -> T_KRCalcNode -> D -> M St (Z * T_KRCalcNode * D).

(** Applied when the function pointer is not [NULL]. *)
Definition call_proc (proc : option traverse_func) (cs : list T_KRCalcTree) (n : T_KRCalcNode)
    (data : D) : M St (Z * T_KRCalcNode * D) :=
  match proc with
  | Some f => f cs n data
  | None => mret (0, n, data)
  end.

(** The return code, the tree (as far as it was changed) and the data. *)
Fixpoint kr_calc_tree_traverse (t : T_KRCalcTree) (data : D)
    (pre_proc post_proc : option traverse_func) {struct t} : M St (Z * T_KRCalcTree * D) :=
  match t with
  | Tree n cs =>
      '(rc, n, data) ← call_proc pre_proc cs n data;
      if negb (rc =? 0) then mret (-1, Tree n cs, data)
      else
        '(rc, cs, data) ←
          (fix go (l : list T_KRCalcTree) (data : D) : M St (Z * list T_KRCalcTree * D) :=
             match l with
             | [] => mret (0, [], data)
             | c :: l' =>
                 '(rc, c, data) ← kr_calc_tree_traverse c data pre_proc post_proc;
                 if negb (rc =? 0) then mret (-1, c :: l', data)
                 else
                   '(rc, l', data) ← go l' data;
                   mret (rc, c :: l', data)
             end) cs data;
        if negb (rc =? 0) then mret (-1, Tree n cs, data)
        else
          '(rc, n, data) ← call_proc post_proc cs n data;
          if negb (rc =? 0) then mret (-1, Tree n cs, data) else mret (0, Tree n cs, data)
  end.

(** The loop over the children. *)
Fixpoint traverse_children (l : list T_KRCalcTree) (data : D)
    (pre_proc post_proc : option traverse_func) : M St (Z * list T_KRCalcTree * D) :=
  match l with
  | [] => mret (0, [], data)
  | c :: l' =>
      '(rc, c, data) ← kr_calc_tree_traverse c data pre_proc post_proc;
      if negb (rc =? 0) then mret (-1, c :: l', data)
      else
        '(rc, l', data) ← traverse_children l' data pre_proc post_proc;
        mret (rc, c :: l', data)
  end.

End Traverse.

(** * Type check *)

Definition is_numeric (ty : E_KRType) : bool :=
  match ty with KR_TYPE_INT | KR_TYPE_LONG | KR_TYPE_DOUBLE => true | _ => false end.
Definition is_arith_op (o : option E_KRCalcOp) : bool :=
  match o with
  | Some (KR_CALCOP_PLUS | KR_CALCOP_SUB | KR_CALCOP_MUT | KR_CALCOP_DIV | KR_CALCOP_MOD) => true
  | _ => false
  end.
Definition is_set_kind (k : E_KRCalcKind) : bool :=
  match k with
  | KR_CALCKIND_MINT | KR_CALCKIND_MFLOAT | KR_CALCKIND_MSTRING | KR_CALCKIND_SET => true
  | _ => false
  end.
Definition ty_eq (a b : E_KRType) : bool := bool_decide (a = b).
Definition kind_eq (a b : E_KRCalcKind) : bool := bool_decide (a = b).

(** The test of one node: [true] is the return code 0. *)
Definition check_arith (n lft rgt : T_KRCalcNode) : bool :=
  if ty_eq (type lft) KR_TYPE_UNKNOWN || ty_eq (type rgt) KR_TYPE_UNKNOWN then true
  else if is_arith_op (op n) then is_numeric (type lft) && is_numeric (type rgt)
  else false.

Definition check_logic (n lft rgt : T_KRCalcNode) : bool :=
  if ty_eq (type lft) KR_TYPE_UNKNOWN || ty_eq (type rgt) KR_TYPE_UNKNOWN then true
  else
    match op n with
    | Some (KR_CALCOP_LT | KR_CALCOP_LE | KR_CALCOP_GT | KR_CALCOP_GE | KR_CALCOP_EQ
            | KR_CALCOP_NEQ) =>
        negb ((ty_eq (type lft) KR_TYPE_STRING && negb (ty_eq (type rgt) KR_TYPE_STRING)) ||
              (ty_eq (type rgt) KR_TYPE_STRING && negb (ty_eq (type lft) KR_TYPE_STRING)))
    | Some (KR_CALCOP_BL | KR_CALCOP_NBL) =>
        negb (negb (is_set_kind (kind rgt)) || negb (ty_eq (type lft) (type rgt)))
    | Some KR_CALCOP_MATCH =>
        negb (negb (ty_eq (type lft) KR_TYPE_STRING) ||
              negb (kind_eq (kind rgt) KR_CALCKIND_REGEX))
    | _ => false
    end.

(** The loop over the children of a relation stops at one of unknown type. *)
Fixpoint check_rel_loop (cs : list T_KRCalcTree) : bool :=
  match cs with
  | [] => true
  | c :: cs' =>
      if ty_eq (type (node c)) KR_TYPE_UNKNOWN then true
      else if negb (ty_eq (type (node c)) KR_TYPE_BOOL) && negb (ty_eq (type (node c)) KR_TYPE_INT)
      then false
      else check_rel_loop cs'
  end.

Definition check_node (cs : list T_KRCalcTree) (n : T_KRCalcNode) : bool :=
  match kind n with
  | KR_CALCKIND_ARITH =>
      match cs with [lft; rgt] => check_arith n (node lft) (node rgt) | _ => false end
  | KR_CALCKIND_LOGIC =>
      match cs with [lft; rgt] => check_logic n (node lft) (node rgt) | _ => false end
  | KR_CALCKIND_REL =>
      match op n with
      | Some (KR_CALCOP_AND | KR_CALCOP_OR | KR_CALCOP_NOT) => check_rel_loop cs
      | _ => false
      end
  | _ => true
  end.

(** The data is the calculator's [calc_status]. *)
Definition _kr_calc_tree_check {St} : traverse_func (D:=Z) (St:=St) := fun cs n calc_status =>
  if check_node cs n then mret (0, n, calc_status) else mret (-1, n, -1).

Definition kr_calc_tree_check {St} (root : T_KRCalcTree) (calc_status : Z)
    : M St (Z * T_KRCalcTree * Z) :=
  kr_calc_tree_traverse root calc_status None (Some _kr_calc_tree_check).

(** * Evaluation *)

(** The outcome of a node: a value; the return code -1 because an operand is not set;
    the return code -1 with [calc_status] set. *)
Inductive outcome := OVal (v : U_KRValue addr) | OUnset | OError.

Section Eval.
Context {St : Type}.
(** The store of objects, in the state. *)
Context (objects : St -> addr -> option calc_obj).
(** [regexec] of a string on the expression compiled from a pattern. *)
Context (regexec : string -> string -> bool).
Context (get_type_cb : E_KRCalcKind -> Z -> M St E_KRType).
Context (get_value_cb : E_KRCalcKind -> Z -> M St (option (valptr addr))).

(** The truth of an operand of a relation: [None] when its type has none. *)
Definition truth (c : T_KRCalcNode) : res (option bool) :=
  match type c with
  | KR_TYPE_BOOL => b ← get_b (value c); Ok (Some (negb (b =? 0)))
  | KR_TYPE_INT => i ← get_i (value c); Ok (Some (negb (i =? 0)))
  | _ => Ok None
  end.

(** The loop over the operands: [b] is the result so far, [stop] the truth that ends
    the loop with the other result. *)
Fixpoint rel_loop (cs : list T_KRCalcTree) (stop b : bool) : res outcome :=
  match cs with
  | [] => Ok (OVal (KRBool (if b then 1 else 0)))
  | c :: cs' =>
      if bool_decide (ind (node c) <> KR_VALUE_SETED) then Ok OUnset
      else
        o ← truth (node c);
        match o with
        | Some x => if Bool.eqb x stop then Ok (OVal (KRBool (if negb b then 1 else 0)))
                    else rel_loop cs' stop b
        | None => Ok OError
        end
  end.

Definition rel_result (o : option E_KRCalcOp) (cs : list T_KRCalcTree) : res outcome :=
  match o with
  | Some KR_CALCOP_AND => rel_loop cs false true
  | Some KR_CALCOP_OR => rel_loop cs true false
  | Some KR_CALCOP_NOT => rel_loop cs true true
  | _ => Ok OError
  end.

(** The children a binary operation reads without a test of their number. *)
Definition child (cs : list T_KRCalcTree) (i : nat) : res T_KRCalcNode :=
  c ← of_option OutOfBounds (cs !! i); Ok (node c).

(** Promotion to [double]; [None]: the type is not numeric. *)
Definition promote_arith (c : T_KRCalcNode) : res (option double) :=
  match type c with
  | KR_TYPE_INT => i ← get_i (value c); Ok (Some (d_of_Z i))
  | KR_TYPE_LONG => l ← get_l (value c); Ok (Some (d_of_Z l))
  | KR_TYPE_DOUBLE => d ← get_d (value c); Ok (Some d)
  | _ => Ok None
  end.

(** [(int )d0 % (int )d1] *)
Definition int_mod (d0 d1 : double) : res double :=
  a ← d_to_i32 d0;
  b ← d_to_i32 d1;
  if b =? 0 then Fault DivByZero
  else if (a =? INT_MIN) && (b =? -1) then Fault BadConversion
  else Ok (d_of_Z (Z.rem a b)).

Definition arith_op (o : option E_KRCalcOp) (d0 d1 : double) : res (option double) :=
  match o with
  | Some KR_CALCOP_PLUS => Ok (Some (d_add d0 d1))
  | Some KR_CALCOP_SUB => Ok (Some (d_sub d0 d1))
  | Some KR_CALCOP_MUT => Ok (Some (d_mul d0 d1))
  | Some KR_CALCOP_DIV => Ok (Some (d_div d0 d1))
  | Some KR_CALCOP_MOD => d ← int_mod d0 d1; Ok (Some d)
  | _ => Ok None
  end.

(** The result as a value of the node's type. *)
Definition arith_value (ty : E_KRType) (d : double) : res outcome :=
  match ty with
  | KR_TYPE_INT => i ← d_to_i32 d; Ok (OVal (KRInt i))
  | KR_TYPE_LONG => l ← d_to_i64 d; Ok (OVal (KRLong l))
  | KR_TYPE_DOUBLE => Ok (OVal (KRDouble d))
  | _ => Ok OError
  end.

Definition not_seted (n : T_KRCalcNode) : bool := bool_decide (ind n <> KR_VALUE_SETED).

Definition arith_result (n : T_KRCalcNode) (cs : list T_KRCalcTree) : res outcome :=
  lft ← child cs 0;
  rgt ← child cs 1;
  if not_seted lft || not_seted rgt then Ok OUnset
  else
    o0 ← promote_arith lft;
    match o0 with
    | None => Ok OError
    | Some d0 =>
        o1 ← promote_arith rgt;
        match o1 with
        | None => Ok OError
        | Some d1 =>
            o ← arith_op (op n) d0 d1;
            match o with
            | None => Ok OError
            | Some d => arith_value (type n) d
            end
        end
    end.

(** Promotion in a logical operation: the other types count as 0. *)
Definition promote_logic (c : T_KRCalcNode) : res double :=
  match type c with
  | KR_TYPE_BOOL => b ← get_b (value c); Ok (d_of_Z b)
  | KR_TYPE_INT => i ← get_i (value c); Ok (d_of_Z i)
  | KR_TYPE_LONG => l ← get_l (value c); Ok (d_of_Z l)
  | KR_TYPE_DOUBLE => get_d (value c)
  | _ => Ok d_zero
  end.

Definition bool_value (b : bool) : outcome := OVal (KRBool (if b then 1 else 0)).

(** A comparison: of two strings by [strcmp], of two values that are not strings as
    doubles. *)
Definition compare_result (lft rgt : T_KRCalcNode) (on_strings : Z -> Z)
    (on_doubles : bool) : res outcome :=
  if ty_eq (type lft) KR_TYPE_STRING && ty_eq (type rgt) KR_TYPE_STRING then
    s0 ← get_s (value lft); s1 ← get_s (value rgt);
    s0 ← of_option NullDeref s0; s1 ← of_option NullDeref s1;
    Ok (OVal (KRBool (on_strings (strcmp s0 s1))))
  else if negb (ty_eq (type lft) KR_TYPE_STRING) && negb (ty_eq (type rgt) KR_TYPE_STRING) then
    Ok (bool_value on_doubles)
  else Ok OError.

Definition b2i (b : bool) : Z := if b then 1 else 0.

Definition get_set (st : St) (n : T_KRCalcNode) : res T_KRHashSet :=
  p ← get_p (value n);
  p ← of_option NullDeref p;
  o ← of_option BadPointer (objects st p);
  match o with OSet s => Ok s | ORegex _ => Fault TypePun end.

Definition get_regex (st : St) (n : T_KRCalcNode) : res string :=
  p ← get_p (value n);
  p ← of_option NullDeref p;
  o ← of_option BadPointer (objects st p);
  match o with ORegex r => Ok r | OSet _ => Fault TypePun end.

(** [&lft->value], read at the type of the set.  A set of another type holds no
    element, or only addresses, of which this is none. *)
Definition value_key (ty : E_KRType) (u : U_KRValue addr) : res (option keyptr) :=
  match ty with
  | KR_TYPE_INT => i ← get_i u; Ok (Some (KeyInt i))
  | KR_TYPE_LONG => l ← get_l u; Ok (Some (KeyLong l))
  | KR_TYPE_DOUBLE => d ← get_d u; Ok (Some (KeyDouble d))
  | KR_TYPE_STRING => Fault TypePun
  | _ => Ok None
  end.

Definition search_value (s : T_KRHashSet) (u : U_KRValue addr) : res bool :=
  k ← value_key (hs_type s) u;
  match k with Some k => kr_hashset_search s k | None => Ok false end.

Definition search_string (s : T_KRHashSet) (u : U_KRValue addr) : res bool :=
  v ← get_s u;
  v ← of_option NullDeref v;
  kr_hashset_search s (KeyString v).

(** [lft @@ rgt], and its negation [lft !@ rgt], which compares the type of
    [lft] with that of the node [rgt] instead of that of the set. *)
Definition belong_result (st : St) (neg : bool) (lft rgt : T_KRCalcNode) : res outcome :=
  if is_set_kind (kind rgt) then
    s ← get_set st rgt;
    if ty_eq (type lft) KR_TYPE_STRING && ty_eq (hs_type s) KR_TYPE_STRING then
      b ← search_string s (value lft); Ok (bool_value (xorb neg b))
    else if ty_eq (type lft) (if neg then type rgt else hs_type s) then
      b ← search_value s (value lft); Ok (bool_value (xorb neg b))
    else Ok OError
  else Ok OError.

Definition match_result (st : St) (lft rgt : T_KRCalcNode) : res outcome :=
  if ty_eq (type lft) KR_TYPE_STRING && kind_eq (kind rgt) KR_CALCKIND_REGEX then
    r ← get_regex st rgt;
    s ← get_s (value lft);
    s ← of_option NullDeref s;
    Ok (bool_value (regexec r s))
  else Ok OError.

Definition logic_result (st : St) (n : T_KRCalcNode) (cs : list T_KRCalcTree) : res outcome :=
  lft ← child cs 0;
  rgt ← child cs 1;
  if not_seted lft || not_seted rgt then Ok OUnset
  else
    d0 ← promote_logic lft;
    d1 ← promote_logic rgt;
    match op n with
    | Some KR_CALCOP_LT => compare_result lft rgt (fun c => b2i (c <? 0)) (d_lt d0 d1)
    | Some KR_CALCOP_LE => compare_result lft rgt (fun c => b2i (c <=? 0)) (d_le d0 d1)
    | Some KR_CALCOP_GT => compare_result lft rgt (fun c => b2i (0 <? c)) (d_lt d1 d0)
    | Some KR_CALCOP_GE => compare_result lft rgt (fun c => b2i (0 <=? c)) (d_le d1 d0)
    | Some KR_CALCOP_EQ => compare_result lft rgt (fun c => b2i (c =? 0)) (d_eq d0 d1)
    | Some KR_CALCOP_NEQ => compare_result lft rgt (fun c => c) (negb (d_eq d0 d1))
    | Some KR_CALCOP_BL => belong_result st false lft rgt
    | Some KR_CALCOP_NBL => belong_result st true lft rgt
    | Some KR_CALCOP_MATCH => match_result st lft rgt
    | _ => Ok OError
    end.

(** What the three evaluation functions do with an outcome: the indicator is cleared
    first, and set with the value. *)
Definition store_outcome (n : T_KRCalcNode) (o : outcome) (calc_status : Z)
    : Z * T_KRCalcNode * Z :=
  match o with
  | OVal v => (0, set_ind (set_value n v) KR_VALUE_SETED, calc_status)
  | OUnset => (-1, set_ind n KR_VALUE_UNSET, calc_status)
  | OError => (-1, set_ind n KR_VALUE_UNSET, -1)
  end.

Definition _kr_calc_tree_eval_rel : traverse_func (D:=Z) (St:=St) := fun cs n calc_status =>
  o ← lift (rel_result (op n) cs); mret (store_outcome n o calc_status).

Definition _kr_calc_tree_eval_arith : traverse_func (D:=Z) (St:=St) := fun cs n calc_status =>
  o ← lift (arith_result n cs); mret (store_outcome n o calc_status).

Definition _kr_calc_tree_eval_logic : traverse_func (D:=Z) (St:=St) := fun cs n calc_status st =>
  (o ← lift (logic_result st n cs); mret (store_outcome n o calc_status)) st.

(** The value read through the callback's pointer at the node's type; [None]: a type
    that is not supported. *)
Definition extern_value (ty : E_KRType) (v : valptr addr) : res (option (U_KRValue addr)) :=
  match ty with
  | KR_TYPE_BOOL => match v with VBool b => Ok (Some (KRBool b)) | _ => Fault TypePun end
  | KR_TYPE_INT => match v with VInt i => Ok (Some (KRInt i)) | _ => Fault TypePun end
  | KR_TYPE_LONG => match v with VLong l => Ok (Some (KRLong l)) | _ => Fault TypePun end
  | KR_TYPE_DOUBLE => match v with VDouble d => Ok (Some (KRDouble d)) | _ => Fault TypePun end
  | KR_TYPE_STRING => match v with VString s => Ok (Some (KRString (Some s))) | _ => Fault TypePun end
  | KR_TYPE_POINTER => match v with VPointer p => Ok (Some (KRPointer (Some p))) | _ => Fault TypePun end
  | _ => Ok None
  end.

Definition _kr_calc_tree_eval_extern : traverse_func (D:=Z) (St:=St) := fun cs n calc_status =>
  let n := set_ind n KR_VALUE_UNSET in
  ty ← (if ty_eq (type n) KR_TYPE_UNKNOWN then get_type_cb (kind n) (id n) else mret (type n));
  let n := set_type n ty in
  if ty_eq ty KR_TYPE_UNKNOWN then mret (-1, n, -1)
  else
    val ← get_value_cb (kind n) (id n);
    match val with
    | None => mret (0, n, calc_status)
    | Some v =>
        if kind_eq (kind n) KR_CALCKIND_SET then
          p ← lift (match v with VPointer p => Ok p | _ => Fault TypePun end);
          mret (0, set_ind (set_value (set_type n KR_TYPE_POINTER) (KRPointer (Some p)))
                     KR_VALUE_SETED, calc_status)
        else
          u ← lift (extern_value ty v);
          match u with
          | Some u => mret (0, set_ind (set_value n u) KR_VALUE_SETED, calc_status)
          | None => mret (-1, n, -1)
          end
    end.

Definition _kr_calc_tree_eval : traverse_func (D:=Z) (St:=St) := fun cs n calc_status =>
  match kind n with
  | KR_CALCKIND_REL => _kr_calc_tree_eval_rel cs n calc_status
  | KR_CALCKIND_ARITH => _kr_calc_tree_eval_arith cs n calc_status
  | KR_CALCKIND_LOGIC => _kr_calc_tree_eval_logic cs n calc_status
  | KR_CALCKIND_SET | KR_CALCKIND_CID | KR_CALCKIND_FID | KR_CALCKIND_SID
  | KR_CALCKIND_DID | KR_CALCKIND_HID => _kr_calc_tree_eval_extern cs n calc_status
  | _ => mret (0, n, calc_status)
  end.

Definition kr_calc_tree_eval (root : T_KRCalcTree) (calc_status : Z)
    : M St (Z * T_KRCalcTree * Z) :=
  kr_calc_tree_traverse root calc_status None (Some _kr_calc_tree_eval).

End Eval.

(** * Release *)

(** The store of objects, which [kr_hashset_destroy] and [kr_regex_free] free; a [NULL]
    pointer is accepted by both. *)
Definition free_object (p : option addr) : M (gmap addr calc_obj) unit := fun os =>
  match p with
  | None => Ok (tt, os)
  | Some p => match os !! p with
              | Some _ => Ok (tt, delete p os)
              | None => Fault BadPointer
              end
  end.

Definition _kr_calc_tree_free : traverse_func (D:=unit) (St:=gmap addr calc_obj) :=
  fun cs n data =>
  match kind n with
  | KR_CALCKIND_MINT | KR_CALCKIND_MFLOAT | KR_CALCKIND_MSTRING | KR_CALCKIND_SET
  | KR_CALCKIND_REGEX =>
      p ← lift (get_p (value n)); free_object p;; mret (0, n, data)
  | _ => mret (0, n, data)
  end.

Definition kr_calc_tree_free (root : option T_KRCalcTree) : M (gmap addr calc_obj) unit :=
  match root with
  | Some t => kr_calc_tree_traverse t tt None (Some _kr_calc_tree_free);; mret tt
  | None => mret tt
  end.

(** * Induction on trees, and the traversal as a loop *)

Section TreeInd.
Context (P : T_KRCalcTree -> Prop).
Context (HP : forall n cs, Forall P cs -> P (Tree n cs)).
Fixpoint tree_rose_ind (t : T_KRCalcTree) : P t :=
  match t with
  | Tree n cs =>
      HP n cs ((fix go l : Forall P l :=
        match l with
        | [] => @List.Forall_nil _ P
        | c :: l' => @List.Forall_cons _ P c l' (tree_rose_ind c) (go l')
        end) cs)
  end.
End TreeInd.

Lemma traverse_Tree {D St} n cs (data : D) (post : traverse_func (D:=D) (St:=St)) (s : St) :
  kr_calc_tree_traverse (Tree n cs) data None (Some post) s =
  ('(rc, cs, data) ← traverse_children cs data None (Some post);
   if negb (rc =? 0) then mret (-1, Tree n cs, data)
   else
     '(rc, n, data) ← post cs n data;
     if negb (rc =? 0) then mret (-1, Tree n cs, data) else mret (0, Tree n cs, data)) s.
Proof.
  assert (Hgo : forall l (d : D) (s : St),
    (fix go (l : list T_KRCalcTree) (data : D) : M St (Z * list T_KRCalcTree * D) :=
       match l with
       | [] => mret (0, [], data)
       | c :: l' =>
           '(rc, c, data) ← kr_calc_tree_traverse c data None (Some post);
           if negb (rc =? 0) then mret (-1, c :: l', data)
           else
             '(rc, l', data) ← go l' data;
             mret (rc, c :: l', data)
       end) l d s = traverse_children l d None (Some post) s).
  { induction l as [|c l IH]; intros d s0; [done|]. simpl. unfold mbind, M_bind.
    destruct (kr_calc_tree_traverse c d None (Some post) s0) as [[[[rc c'] d'] s1]|]; [|done].
    destruct (negb (rc =? 0)); [done|]. rewrite IH. done. }
  simpl. unfold mbind, M_bind. simpl. unfold mret, M_ret. rewrite Hgo. done.
Qed.

(** * Type check *)

Fixpoint all_nodes (p : list T_KRCalcTree -> T_KRCalcNode -> bool) (t : T_KRCalcTree) : bool :=
  match t with Tree n cs => forallb (all_nodes p) cs && p cs n end.

(** The check returns 0, leaving the tree as it was, exactly when every node passes. *)
Lemma tree_check_spec {St} t (s : St) status :
  kr_calc_tree_check t status s =
  if all_nodes check_node t then Ok (0, t, status, s) else Ok (-1, t, -1, s).
Proof.
  unfold kr_calc_tree_check. revert status. induction t as [n cs IH] using tree_rose_ind.
  intros status. rewrite traverse_Tree.
  assert (Hcs : traverse_children cs status None (Some (@_kr_calc_tree_check St)) s =
    if forallb (all_nodes check_node) cs then Ok (0, cs, status, s) else Ok (-1, cs, -1, s)).
  { revert status. induction IH as [|c cs Hc _ IHl]; intros status; [done|]. simpl.
    unfold mbind, M_bind. rewrite Hc. destruct (all_nodes check_node c); simpl; [|done].
    rewrite IHl. by destruct (forallb (all_nodes check_node) cs). }
  simpl. unfold mbind, M_bind. rewrite Hcs.
  destruct (forallb (all_nodes check_node) cs); simpl; [|done].
  unfold _kr_calc_tree_check. by destruct (check_node cs n).
Qed.

(** * Evaluation reads no stale value

    Before each evaluation the indicators and values of the nodes that are not
    constants are those of the last one.  [erase] forgets them. *)

Definition is_const (k : E_KRCalcKind) : bool :=
  match k with
  | KR_CALCKIND_INT | KR_CALCKIND_FLOAT | KR_CALCKIND_STRING | KR_CALCKIND_MINT
  | KR_CALCKIND_MFLOAT | KR_CALCKIND_MSTRING | KR_CALCKIND_REGEX => true
  | _ => false
  end.

Definition erase_node (n : T_KRCalcNode) : T_KRCalcNode :=
  if is_const (kind n) then n else set_value (set_ind n KR_VALUE_UNSET) KRZero.
Fixpoint erase (t : T_KRCalcTree) : T_KRCalcTree :=
  match t with Tree n cs => Tree (erase_node n) (map erase cs) end.

(** What an evaluation leaves that counts: a value where the indicator says so. *)
Definition fresh_node (n : T_KRCalcNode) : T_KRCalcNode :=
  if is_const (kind n) then n
  else match ind n with KR_VALUE_SETED => n | KR_VALUE_UNSET => set_value n KRZero end.
Fixpoint fresh_tree (t : T_KRCalcTree) : T_KRCalcTree :=
  match t with Tree n cs => Tree (fresh_node n) (map fresh_tree cs) end.

(** What a parent reads of its children. *)
Definition seen (n1 n2 : T_KRCalcNode) : Prop :=
  kind n1 = kind n2 /\ type n1 = type n2 /\ ind n1 = ind n2 /\
  (ind n1 = KR_VALUE_SETED -> value n1 = value n2).

Lemma fresh_seen n1 n2 : fresh_node n1 = fresh_node n2 -> seen n1 n2.
Proof.
  unfold fresh_node, seen. destruct n1 as [k1 o1 i1 t1 d1 v1], n2 as [k2 o2 i2 t2 d2 v2]. simpl.
  destruct (is_const k1) eqn:H1, (is_const k2) eqn:H2, d1, d2; intros [=]; subst;
    try congruence; split_and!; done.
Qed.

Lemma fresh_children_seen cs1 cs2 :
  map fresh_tree cs1 = map fresh_tree cs2 -> Forall2 (fun a b => seen (node a) (node b)) cs1 cs2.
Proof.
  revert cs2. induction cs1 as [|[n1 l1] cs1 IH]; intros [|[n2 l2] cs2] Heq; try done.
  injection Heq as Hn _ Hcs. constructor; [by apply fresh_seen|]. by apply IH.
Qed.

Lemma truth_seen n1 n2 : seen n1 n2 -> ind n1 = KR_VALUE_SETED -> truth n1 = truth n2.
Proof. intros (_ & Ht & _ & Hv) Hi. unfold truth. by rewrite Ht, (Hv Hi). Qed.

Lemma rel_result_seen o cs1 cs2 :
  Forall2 (fun a b => seen (node a) (node b)) cs1 cs2 -> rel_result o cs1 = rel_result o cs2.
Proof.
  intros Hs. assert (Hl : forall stop b, rel_loop cs1 stop b = rel_loop cs2 stop b).
  { intros stop b. induction Hs as [|c1 c2 cs1 cs2 Hc _ IH]; [done|]. simpl.
    pose proof Hc as (_ & _ & Hi & _). rewrite <- Hi. case_bool_decide as Hset; [done|].
    rewrite (truth_seen _ _ Hc) by (destruct (ind (node c1)); naive_solver). by rewrite IH. }
  unfold rel_result. by rewrite !Hl.
Qed.

(** Two operands that are seen alike. *)
Lemma child_seen cs1 cs2 i :
  Forall2 (fun a b => seen (node a) (node b)) cs1 cs2 ->
  match child cs1 i, child cs2 i with
  | Ok a, Ok b => seen a b
  | Fault f, Fault g => f = g
  | _, _ => False
  end.
Proof.
  intros Hs. unfold child. destruct (cs1 !! i) as [c1|] eqn:H1.
  - destruct (Forall2_lookup_l _ _ _ _ _ Hs H1) as (c2 & -> & Hc). done.
  - assert (cs2 !! i = None) as ->.
    { apply lookup_ge_None. rewrite <- (Forall2_length _ _ _ Hs). by apply lookup_ge_None. }
    done.
Qed.

Section EvalLemmas.
Context {St : Type} (objects : St -> addr -> option calc_obj).
Context (regexec : string -> string -> bool).
Context (get_type_cb : E_KRCalcKind -> Z -> M St E_KRType).
Context (get_value_cb : E_KRCalcKind -> Z -> M St (option (valptr addr))).

Notation eval_node := (_kr_calc_tree_eval objects regexec get_type_cb get_value_cb).
Notation eval_tree := (kr_calc_tree_eval objects regexec get_type_cb get_value_cb).

(** Two nodes that agree but for what an evaluation resets. *)
Definition same_code (n1 n2 : T_KRCalcNode) : Prop := erase_node n1 = erase_node n2.

Lemma same_code_fields n1 n2 : same_code n1 n2 ->
  kind n1 = kind n2 /\ op n1 = op n2 /\ id n1 = id n2 /\ type n1 = type n2 /\
  (is_const (kind n1) = true -> n1 = n2).
Proof.
  unfold same_code, erase_node.
  destruct n1 as [k1 o1 i1 t1 d1 v1], n2 as [k2 o2 i2 t2 d2 v2]. simpl.
  destruct (is_const k1) eqn:H1, (is_const k2) eqn:H2; intros [=]; subst; try congruence;
    by split_and!.
Qed.

Lemma binary_seen {A} cs1 cs2 (f : T_KRCalcNode -> T_KRCalcNode -> res A) (u : res A) :
  Forall2 (fun a b => seen (node a) (node b)) cs1 cs2 ->
  (forall a b a' b', seen a a' -> seen b b' -> ind a = KR_VALUE_SETED ->
     ind b = KR_VALUE_SETED -> f a b = f a' b') ->
  (lft ← child cs1 0; rgt ← child cs1 1;
   if not_seted lft || not_seted rgt then u else f lft rgt) =
  (lft ← child cs2 0; rgt ← child cs2 1;
   if not_seted lft || not_seted rgt then u else f lft rgt).
Proof.
  intros Hs Hf. pose proof (child_seen _ _ 0%nat Hs) as H0.
  pose proof (child_seen _ _ 1%nat Hs) as H1.
  destruct (child cs1 0) as [a|], (child cs2 0) as [a'|]; simpl; try done; try congruence.
  destruct (child cs1 1) as [b|], (child cs2 1) as [b'|]; simpl; try done; try congruence.
  destruct H0 as (Hk0 & Ht0 & Hi0 & Hv0), H1 as (Hk1 & Ht1 & Hi1 & Hv1).
  unfold not_seted. rewrite <- Hi0, <- Hi1.
  case_bool_decide as Ha; [done|]. case_bool_decide as Hb; [done|]. simpl.
  by apply Hf.
Qed.

Lemma arith_result_seen n1 n2 cs1 cs2 :
  same_code n1 n2 -> Forall2 (fun a b => seen (node a) (node b)) cs1 cs2 ->
  arith_result n1 cs1 = arith_result n2 cs2.
Proof.
  intros (_ & Ho & _ & Ht & _)%same_code_fields Hs. unfold arith_result. rewrite Ho, Ht.
  apply (binary_seen cs1 cs2 (fun lft rgt =>
    o0 ← promote_arith lft;
    match o0 with
    | None => Ok OError
    | Some d0 =>
        o1 ← promote_arith rgt;
        match o1 with
        | None => Ok OError
        | Some d1 =>
            o ← arith_op (op n2) d0 d1;
            match o with None => Ok OError | Some d => arith_value (type n2) d end
        end
    end)); [done|].
  intros a b a' b' (_ & Hta & _ & Hva) (_ & Htb & _ & Hvb) Ha Hb. unfold promote_arith.
  by rewrite Hta, Htb, (Hva Ha), (Hvb Hb).
Qed.

Lemma logic_result_seen st n1 n2 cs1 cs2 :
  same_code n1 n2 -> Forall2 (fun a b => seen (node a) (node b)) cs1 cs2 ->
  logic_result objects regexec st n1 cs1 = logic_result objects regexec st n2 cs2.
Proof.
  intros (_ & Ho & _ & _ & _)%same_code_fields Hs. unfold logic_result. rewrite Ho.
  apply (binary_seen cs1 cs2 (fun lft rgt =>
    d0 ← promote_logic lft;
    d1 ← promote_logic rgt;
    match op n2 with
    | Some KR_CALCOP_LT => compare_result lft rgt (fun c => b2i (c <? 0)) (d_lt d0 d1)
    | Some KR_CALCOP_LE => compare_result lft rgt (fun c => b2i (c <=? 0)) (d_le d0 d1)
    | Some KR_CALCOP_GT => compare_result lft rgt (fun c => b2i (0 <? c)) (d_lt d1 d0)
    | Some KR_CALCOP_GE => compare_result lft rgt (fun c => b2i (0 <=? c)) (d_le d1 d0)
    | Some KR_CALCOP_EQ => compare_result lft rgt (fun c => b2i (c =? 0)) (d_eq d0 d1)
    | Some KR_CALCOP_NEQ => compare_result lft rgt (fun c => c) (negb (d_eq d0 d1))
    | Some KR_CALCOP_BL => belong_result objects st false lft rgt
    | Some KR_CALCOP_NBL => belong_result objects st true lft rgt
    | Some KR_CALCOP_MATCH => match_result objects regexec st lft rgt
    | _ => Ok OError
    end)); [done|].
  intros a b a' b' (_ & Hta & _ & Hva) (Hkb & Htb & _ & Hvb) Ha Hb.
  unfold promote_logic, compare_result, belong_result, match_result, get_set, get_regex.
  by rewrite Hta, Htb, (Hva Ha), (Hvb Hb), Hkb.
Qed.

(** The outcome of two runs: the same return code, data and state; trees that agree but
    for stale fields, and wholly on what counts when the return code is 0. *)
Definition same_run (r1 r2 : res (Z * T_KRCalcTree * Z * St)) : Prop :=
  match r1, r2 with
  | Ok (rc1, t1, d1, s1), Ok (rc2, t2, d2, s2) =>
      rc1 = rc2 /\ d1 = d2 /\ s1 = s2 /\ erase t1 = erase t2 /\
      (rc1 = 0 -> fresh_tree t1 = fresh_tree t2)
  | Fault f1, Fault f2 => f1 = f2
  | _, _ => False
  end.

Definition same_children_run (r1 r2 : res (Z * list T_KRCalcTree * Z * St)) : Prop :=
  match r1, r2 with
  | Ok (rc1, t1, d1, s1), Ok (rc2, t2, d2, s2) =>
      rc1 = rc2 /\ d1 = d2 /\ s1 = s2 /\ map erase t1 = map erase t2 /\
      (rc1 = 0 -> map fresh_tree t1 = map fresh_tree t2)
  | Fault f1, Fault f2 => f1 = f2
  | _, _ => False
  end.

Definition same_node_run (r1 r2 : res (Z * T_KRCalcNode * Z * St)) : Prop :=
  match r1, r2 with
  | Ok (rc1, n1, d1, s1), Ok (rc2, n2, d2, s2) =>
      rc1 = rc2 /\ d1 = d2 /\ s1 = s2 /\ same_code n1 n2 /\
      (rc1 = 0 -> fresh_node n1 = fresh_node n2)
  | Fault f1, Fault f2 => f1 = f2
  | _, _ => False
  end.

Lemma store_outcome_same n1 n2 o d s :
  same_code n1 n2 -> is_const (kind n1) = false ->
  same_node_run (Ok (store_outcome n1 o d, s)) (Ok (store_outcome n2 o d, s)).
Proof.
  intros Hsc Hc. pose proof (same_code_fields _ _ Hsc) as (Hk & Ho & Hi & Ht & _).
  destruct n1 as [k1 o1 i1 t1 d1 v1], n2 as [k2 o2 i2 t2 d2 v2]. simpl in *. subst.
  destruct o; simpl; unfold same_code, erase_node, fresh_node; simpl; rewrite Hc;
    split_and!; try done.
Qed.

Lemma eval_extern_same n1 n2 d s :
  same_code n1 n2 -> is_const (kind n1) = false ->
  same_node_run (_kr_calc_tree_eval_extern get_type_cb get_value_cb [] n1 d s)
                (_kr_calc_tree_eval_extern get_type_cb get_value_cb [] n2 d s).
Proof.
  intros Hsc Hc. pose proof (same_code_fields _ _ Hsc) as (Hk & Ho & Hi & Ht & _).
  destruct n1 as [k1 o1 i1 t1 d1 v1], n2 as [k2 o2 i2 t2 d2 v2]. simpl in *. subst.
  unfold _kr_calc_tree_eval_extern. simpl. unfold mbind, M_bind. simpl.
  destruct ((if ty_eq t2 KR_TYPE_UNKNOWN then get_type_cb k2 i2 else mret t2) s) as [[ty s1]|];
    [|done].
  unfold same_node_run, same_code, erase_node, fresh_node.
  destruct (ty_eq ty KR_TYPE_UNKNOWN).
  { simpl. rewrite Hc. by split_and!. }
  destruct (get_value_cb k2 i2 s1) as [[[v|] s2]|]; [| |done].
  2:{ simpl. rewrite Hc. by split_and!. }
  destruct (kind_eq k2 KR_CALCKIND_SET).
  - destruct v; simpl; try done; rewrite Hc; by split_and!.
  - unfold lift. destruct (extern_value ty v) as [[u|]|]; simpl; try done; rewrite Hc; by split_and!.
Qed.

Lemma eval_node_same n1 n2 cs1 cs2 d s :
  same_code n1 n2 -> Forall2 (fun a b => seen (node a) (node b)) cs1 cs2 ->
  same_node_run (eval_node cs1 n1 d s) (eval_node cs2 n2 d s).
Proof.
  intros Hsc Hs. pose proof (same_code_fields _ _ Hsc) as (Hk & Ho & _ & _ & Hcn).
  unfold _kr_calc_tree_eval. rewrite <- Hk. destruct (kind n1) eqn:Hkn;
    try (simpl; specialize (Hcn eq_refl); subst; by split_and!);
    try (apply eval_extern_same; [done|by rewrite Hkn]).
  - unfold _kr_calc_tree_eval_rel. rewrite <- Ho, (rel_result_seen _ _ _ Hs).
    unfold mbind, M_bind, lift. destruct (rel_result _ cs2); [|done].
    apply store_outcome_same; [done|by rewrite Hkn].
  - unfold _kr_calc_tree_eval_arith. rewrite (arith_result_seen _ _ _ _ Hsc Hs).
    unfold mbind, M_bind, lift. destruct (arith_result _ cs2); [|done].
    apply store_outcome_same; [done|by rewrite Hkn].
  - unfold _kr_calc_tree_eval_logic. rewrite (logic_result_seen _ _ _ _ _ Hsc Hs).
    unfold mbind, M_bind, lift. destruct (logic_result _ _ _ _ cs2); [|done].
    apply store_outcome_same; [done|by rewrite Hkn].
Qed.

Lemma eval_same t1 t2 d s : erase t1 = erase t2 -> same_run (eval_tree t1 d s) (eval_tree t2 d s).
Proof.
  unfold kr_calc_tree_eval. revert t2 d s. induction t1 as [n1 cs1 IH] using tree_rose_ind.
  intros [n2 cs2] d s [= Hn Hcs]. rewrite !traverse_Tree.
  assert (Hrun : same_children_run
    (traverse_children cs1 d None (Some eval_node) s)
    (traverse_children cs2 d None (Some eval_node) s)).
  { clear Hn n1 n2. revert cs2 Hcs d s. induction IH as [|c1 cs1 Hc1 _ IHl];
      intros [|c2 cs2] Heq d s; try done.
    injection Heq as Hc Hcs. simpl. specialize (Hc1 c2 d s Hc). unfold mbind, M_bind.
    destruct (kr_calc_tree_traverse c1 d None (Some eval_node) s) as [[[[rc1 c1'] d1] s1]|],
      (kr_calc_tree_traverse c2 d None (Some eval_node) s) as [[[[rc2 c2'] d2] s2]|]; try done.
    destruct Hc1 as (<- & <- & <- & He & Hf).
    destruct (negb (rc1 =? 0)) eqn:Hrc.
    { simpl. split_and!; try done; try congruence. }
    apply negb_false_iff, Z.eqb_eq in Hrc. specialize (IHl cs2 Hcs d1 s1).
    destruct (traverse_children cs1 d1 None (Some eval_node) s1) as [[[[rc1' l1] d1'] s1']|],
      (traverse_children cs2 d1 None (Some eval_node) s1) as [[[[rc2' l2] d2'] s2']|]; try done.
    destruct IHl as (<- & <- & <- & Hel & Hfl). simpl. split_and!; try done; [congruence|].
    intros Hz. rewrite (Hf Hrc), (Hfl Hz). done. }
  unfold mbind, M_bind.
  destruct (traverse_children cs1 d None (Some eval_node) s) as [[[[rc1 l1] d1] s1]|],
    (traverse_children cs2 d None (Some eval_node) s) as [[[[rc2 l2] d2] s2]|]; try done.
  destruct Hrun as (<- & <- & <- & He & Hf). destruct (negb (rc1 =? 0)) eqn:Hrc.
  { simpl. split_and!; try done. by rewrite Hn, He. }
  apply negb_false_iff, Z.eqb_eq in Hrc.
  pose proof (eval_node_same n1 n2 l1 l2 d1 s1 Hn (fresh_children_seen _ _ (Hf Hrc))) as Hnode.
  destruct (eval_node l1 n1 d1 s1) as [[[[rc1' m1] d1'] s1']|],
    (eval_node l2 n2 d1 s1) as [[[[rc2' m2] d2'] s2']|]; try done.
  destruct Hnode as (<- & <- & <- & Hsc & Hfn). unfold same_code in Hsc.
  destruct (negb (rc1' =? 0)) eqn:Hrc'; simpl.
  { split_and!; try done. by rewrite Hsc, He. }
  apply negb_false_iff, Z.eqb_eq in Hrc'. split_and!; try done; [by rewrite Hsc, He|].
  intros _. by rewrite (Hfn Hrc'), (Hf Hrc).
Qed.
End EvalLemmas.

(** * Evaluation is safe

    What a tree needs for its evaluation to stay in defined behaviour: to pass
    [kr_calc_tree_check] (which sees to the two operands of an operator), the types the
    parsers give ([typed_tree]), objects that exist, and callbacks whose values have the
    type they announce; and one thing the check does not see to, that no left operand of
    [!@] is a pointer ([nbl_scalar]): the grammar of the expressions allows none there,
    but an expression may be given as JSON, too. *)

(** The faults left are those of the numbers themselves. *)
Definition arith_fault (f : fault) : Prop := f = DivByZero \/ f = BadConversion.

Definition safe {A} (r : res A) (Q : A -> Prop) : Prop :=
  match r with Ok a => Q a | Fault f => arith_fault f end.

Lemma safe_bind {A B} (r : res A) (k : A -> res B) Q :
  safe r (fun a => safe (k a) Q) -> safe (r ≫= k) Q.
Proof. by destruct r. Qed.

Lemma safe_mono {A} (r : res A) (P Q : A -> Prop) :
  safe r P -> (forall a, P a -> Q a) -> safe r Q.
Proof. destruct r; simpl; eauto. Qed.

Definition val_ok (ty : E_KRType) (u : U_KRValue addr) : Prop :=
  match ty with
  | KR_TYPE_BOOL => exists b, get_b u = Ok b
  | KR_TYPE_INT => exists i, get_i u = Ok i
  | KR_TYPE_LONG => exists l, get_l u = Ok l
  | KR_TYPE_DOUBLE => exists d, get_d u = Ok d
  | KR_TYPE_STRING => exists s, get_s u = Ok (Some s)
  | _ => True
  end.

(** A set whose searches end. *)
Definition set_ok (s : T_KRHashSet) : Prop :=
  forall k, key_type k = hs_type s -> exists b, kr_hashset_search s k = Ok b.

Definition obj_ok (os : addr -> option calc_obj) (k : E_KRCalcKind) (u : U_KRValue addr) : Prop :=
  if is_set_kind k then
    exists p s, get_p u = Ok (Some p) /\ os p = Some (OSet s) /\ set_ok s
  else if kind_eq k KR_CALCKIND_REGEX then
    exists p r, get_p u = Ok (Some p) /\ os p = Some (ORegex r)
  else True.

Definition node_wf (os : addr -> option calc_obj) (n : T_KRCalcNode) : Prop :=
  ind n = KR_VALUE_SETED ->
  val_ok (type n) (value n) /\ obj_ok os (kind n) (value n) /\
  (is_set_kind (kind n) = true -> type n = KR_TYPE_POINTER).

Definition is_extern (k : E_KRCalcKind) : bool :=
  match k with
  | KR_CALCKIND_SET | KR_CALCKIND_CID | KR_CALCKIND_FID | KR_CALCKIND_SID
  | KR_CALCKIND_DID | KR_CALCKIND_HID => true
  | _ => false
  end.

Section Safety.
Context {St : Type} (objects : St -> addr -> option calc_obj).
Context (regexec : string -> string -> bool).
Context (get_type_cb : E_KRCalcKind -> Z -> M St E_KRType).
Context (get_value_cb : E_KRCalcKind -> Z -> M St (option (valptr addr))).
(** The type of each external identifier. *)
Context (ety : E_KRCalcKind -> Z -> E_KRType).

(** The callbacks: they announce the types [ety], give values of these types (sets that
    exist, for a set), and leave the objects alone; a nested evaluation may end in an
    arithmetic fault. *)
Definition typed_callbacks : Prop :=
  (forall k i s, safe (get_type_cb k i s) (fun r => r.1 = ety k i /\ objects r.2 = objects s)) /\
  (forall k i s, safe (get_value_cb k i s) (fun r => objects r.2 = objects s /\
     match r.1 with
     | None => True
     | Some v =>
         if kind_eq k KR_CALCKIND_SET then
           exists p st, v = VPointer p /\ objects s p = Some (OSet st) /\ set_ok st
         else exists o, extern_value (ety k i) v = Ok o
     end)).
Context (callbacks_ok : typed_callbacks).

(** A left operand of [!@] that no evaluation makes a pointer. *)
Definition no_pointer (n : T_KRCalcNode) : Prop :=
  kind n <> KR_CALCKIND_SET /\ type n <> KR_TYPE_POINTER /\
  (is_extern (kind n) = true -> ety (kind n) (id n) <> KR_TYPE_POINTER).

(** Every node of a tree, with the nodes below it, is as [P] says. *)
Fixpoint tree_all (P : T_KRCalcNode -> list T_KRCalcNode -> Prop) (t : T_KRCalcTree) : Prop :=
  match t with
  | Tree n cs => P n (map node cs) /\
      (fix all l := match l with [] => True | c :: l' => tree_all P c /\ all l' end) cs
  end.

(** The type the parsers give a node, or the one a first evaluation found. *)
Definition node_typed (n : T_KRCalcNode) : Prop :=
  match kind n with
  | KR_CALCKIND_LOGIC | KR_CALCKIND_REL => type n = KR_TYPE_BOOL
  | KR_CALCKIND_CID | KR_CALCKIND_FID | KR_CALCKIND_SID | KR_CALCKIND_DID | KR_CALCKIND_HID =>
      type n = KR_TYPE_UNKNOWN \/ type n = ety (kind n) (id n)
  | _ => True
  end.

Definition typed_tree (os : addr -> option calc_obj) : T_KRCalcTree -> Prop :=
  tree_all (fun n _ => node_wf os n /\ node_typed n).

Definition nbl_scalar : T_KRCalcTree -> Prop :=
  tree_all (fun n cs => kind n = KR_CALCKIND_LOGIC -> op n = Some KR_CALCOP_NBL ->
    forall c, cs !! 0%nat = Some c -> no_pointer c).

(** What these come to at a node, once the tree has passed its check. *)
Definition node_shape (n : T_KRCalcNode) (cs : list T_KRCalcNode) : Prop :=
  match kind n with
  | KR_CALCKIND_ARITH => (2 <= length cs)%nat
  | KR_CALCKIND_LOGIC =>
      (2 <= length cs)%nat /\ type n = KR_TYPE_BOOL /\
      (op n = Some KR_CALCOP_NBL -> forall c, cs !! 0%nat = Some c -> no_pointer c)
  | KR_CALCKIND_REL => type n = KR_TYPE_BOOL
  | KR_CALCKIND_CID | KR_CALCKIND_FID | KR_CALCKIND_SID | KR_CALCKIND_DID | KR_CALCKIND_HID =>
      type n = KR_TYPE_UNKNOWN \/ type n = ety (kind n) (id n)
  | _ => True
  end.

Fixpoint tree_wf (os : addr -> option calc_obj) (t : T_KRCalcTree) : Prop :=
  match t with
  | Tree n cs => node_wf os n /\ node_shape n (map node cs) /\
      (fix all l := match l with [] => True | c :: l' => tree_wf os c /\ all l' end) cs
  end.

Definition trees_wf os (cs : list T_KRCalcTree) : Prop := Forall (tree_wf os) cs.

Lemma tree_all_Tree P n cs : tree_all P (Tree n cs) <-> P n (map node cs) /\ Forall (tree_all P) cs.
Proof.
  simpl. assert (Hall : forall l, (fix all l := match l with [] => True
    | c :: l' => tree_all P c /\ all l' end) l <-> Forall (tree_all P) l).
  { induction l as [|c l IH]; [by split|]. rewrite IH, Forall_cons. done. }
  by rewrite Hall.
Qed.

Lemma tree_wf_Tree os n cs :
  tree_wf os (Tree n cs) <-> node_wf os n /\ node_shape n (map node cs) /\ trees_wf os cs.
Proof.
  simpl. assert (Hall : forall l, (fix all l := match l with [] => True
    | c :: l' => tree_wf os c /\ all l' end) l <-> trees_wf os l).
  { unfold trees_wf. induction l as [|c l IH]; [by split|]. rewrite IH, Forall_cons. done. }
  by rewrite Hall.
Qed.

(** A tree that passes the check, with the types of the parsers and no pointer to the left
    of a [!@], can be evaluated. *)
Lemma checked_wf os t :
  all_nodes check_node t = true -> typed_tree os t -> nbl_scalar t -> tree_wf os t.
Proof.
  induction t as [n cs IH] using tree_rose_ind. simpl all_nodes.
  intros [Hcs Hn]%andb_true_iff [[Hwf Hty] Hts]%tree_all_Tree [Hnbl Hns]%tree_all_Tree.
  apply tree_wf_Tree. split_and!; [done| |].
  - unfold node_shape, node_typed, check_node in *. destruct (kind n); try done;
      destruct cs as [|? [|? []]]; try done.
    split; [simpl; lia|]. by auto.
  - unfold trees_wf. rewrite Forall_forall in *. intros c Hc.
    apply IH; [done| |by apply Hts|by apply Hns].
    rewrite forallb_forall in Hcs. apply Hcs. by apply list_elem_of_In.
Qed.

(** How an evaluation changes the fixed part of a node. *)
Definition evolves (n n' : T_KRCalcNode) : Prop :=
  kind n' = kind n /\ op n' = op n /\ id n' = id n /\
  (type n' = type n \/ kind n = KR_CALCKIND_SET \/
   (is_extern (kind n) = true /\ type n' = ety (kind n) (id n))).

Lemma no_pointer_evolves n n' : evolves n n' -> no_pointer n -> no_pointer n'.
Proof.
  intros (Hk & _ & Hi & Ht) (H1 & H2 & H3). unfold no_pointer. rewrite Hk, Hi.
  split_and!; [done| |done]. destruct Ht as [->|[?|[He ->]]]; [done|done|]. by apply H3.
Qed.

Lemma node_shape_evolves n n' cs cs' :
  evolves n n' -> Forall2 evolves cs cs' -> node_shape n cs -> node_shape n' cs'.
Proof.
  intros (Hk & Ho & Hi & Ht) Hcs. unfold node_shape. rewrite Hk, Ho, Hi.
  rewrite <- (Forall2_length _ _ _ Hcs).
  destruct (kind n) eqn:Hkn; try done; simpl in Ht;
    try (destruct Ht as [->|[?|[? ?]]]; (done || naive_solver)).
  intros (Hl & Hty & Hp). split_and!; [done| |].
  - destruct Ht as [->|[?|[? ?]]]; done.
  - intros Hop c Hc. destruct (Forall2_lookup_r _ _ _ _ _ Hcs Hc) as (c0 & Hc0 & Hev).
    eapply no_pointer_evolves; [done|]. by apply Hp.
Qed.

(** * The nodes *)

Lemma wf_child os cs i c :
  trees_wf os cs -> cs !! i = Some c -> child cs i = Ok (node c) /\ node_wf os (node c).
Proof.
  intros Hwf Hc. unfold child. rewrite Hc. split; [done|].
  unfold trees_wf in Hwf. rewrite Forall_lookup in Hwf. specialize (Hwf _ _ Hc).
  destruct c as [n l]. by apply tree_wf_Tree in Hwf as [? _].
Qed.

Lemma rel_loop_safe os cs stop b :
  trees_wf os cs -> safe (rel_loop cs stop b) (fun o => forall v, o = OVal v -> val_ok KR_TYPE_BOOL v).
Proof.
  intros Hwf. induction Hwf as [|c cs Hc Hwf IH]; simpl.
  { intros v [= <-]. by eexists. }
  case_bool_decide as Hset; simpl; [done|].
  destruct c as [n l]. apply tree_wf_Tree in Hc as (Hn & _ & _). simpl in *.
  assert (Hind : ind n = KR_VALUE_SETED) by (destruct (ind n); naive_solver).
  destruct (Hn Hind) as (Hv & _). unfold truth. destruct (type n); simpl in *; try done.
  - destruct Hv as [z ->]. simpl. destruct (Bool.eqb _ _); [|done]. simpl.
    intros v [= <-]. by eexists.
  - destruct Hv as [z ->]. simpl. destruct (Bool.eqb _ _); [|done]. simpl.
    intros v [= <-]. by eexists.
Qed.

Lemma d_to_int_safe lo hi d : safe (d_to_int lo hi d) (fun _ => True).
Proof. unfold d_to_int. destruct (d_trunc d) as [z|]; [destruct (_ && _)|]; simpl; auto; by right. Qed.

Lemma promote_arith_safe os n : node_wf os n -> ind n = KR_VALUE_SETED ->
  exists o, promote_arith n = Ok o.
Proof.
  intros Hn Hi. destruct (Hn Hi) as (Hv & _). unfold promote_arith.
  destruct (type n); simpl in *; try (by eexists); destruct Hv as [z ->]; simpl; by eexists.
Qed.

Lemma promote_logic_safe os n : node_wf os n -> ind n = KR_VALUE_SETED ->
  exists o, promote_logic n = Ok o.
Proof.
  intros Hn Hi. destruct (Hn Hi) as (Hv & _). unfold promote_logic.
  destruct (type n); simpl in *; try (by eexists); destruct Hv as [z ->]; simpl; by eexists.
Qed.

Lemma not_seted_false n : not_seted n = false -> ind n = KR_VALUE_SETED.
Proof. unfold not_seted. intros ?%bool_decide_eq_false. destruct (ind n); naive_solver. Qed.

Lemma arith_result_safe os n cs :
  trees_wf os cs -> (2 <= length cs)%nat ->
  safe (arith_result n cs) (fun o => forall v, o = OVal v -> val_ok (type n) v).
Proof.
  intros Hwf Hlen. destruct cs as [|c0 [|c1 cs]]; simpl in Hlen; try lia.
  destruct (wf_child os _ 0%nat c0 Hwf eq_refl) as [E0 Hw0].
  destruct (wf_child os _ 1%nat c1 Hwf eq_refl) as [E1 Hw1]. unfold arith_result.
  rewrite E0, E1. cbn [mbind res_bind].
  destruct (not_seted (node c0)) eqn:H0; [done|]. destruct (not_seted (node c1)) eqn:H1; [done|].
  simpl. destruct (promote_arith_safe os _ Hw0 (not_seted_false _ H0)) as [[d0|] ->]; simpl; [|done].
  destruct (promote_arith_safe os _ Hw1 (not_seted_false _ H1)) as [[d1|] ->]; simpl; [|done].
  assert (Hop : safe (arith_op (op n) d0 d1) (fun _ => True)).
  { unfold arith_op. destruct (op n) as [[]|]; simpl; try done.
    apply safe_bind. unfold int_mod. apply safe_bind.
    eapply safe_mono; [apply d_to_int_safe|]. intros a _. apply safe_bind.
    eapply safe_mono; [apply d_to_int_safe|]. intros b _.
    destruct (b =? 0); [by left|]. destruct (_ && _); [by right|done]. }
  apply safe_bind. eapply safe_mono; [exact Hop|]. intros [d|] _; [|done].
  unfold arith_value. destruct (type n); simpl; try done.
  - apply safe_bind. eapply safe_mono; [apply d_to_int_safe|]. intros i _ v [= <-]. by eexists.
  - apply safe_bind. eapply safe_mono; [apply d_to_int_safe|]. intros i _ v [= <-]. by eexists.
  - intros v [= <-]. by eexists.
Qed.

(** A result that is a boolean. *)
Ltac bool_ok := simpl; unfold bool_value; intros ? [= <-]; by eexists.

Lemma compare_safe os lft rgt f b :
  node_wf os lft -> node_wf os rgt -> ind lft = KR_VALUE_SETED -> ind rgt = KR_VALUE_SETED ->
  safe (compare_result lft rgt f b) (fun o => forall v, o = OVal v -> val_ok KR_TYPE_BOOL v).
Proof.
  intros Hl Hr Hil Hir. destruct (Hl Hil) as (Hvl & _), (Hr Hir) as (Hvr & _).
  unfold compare_result, ty_eq. case_bool_decide as H1; case_bool_decide as H2; simpl.
  - rewrite H1 in Hvl. rewrite H2 in Hvr. destruct Hvl as [s0 ->], Hvr as [s1 ->]. simpl.
    intros v [= <-]. by eexists.
  - done.
  - done.
  - bool_ok.
Qed.

Lemma belong_safe (st : St) neg lft rgt :
  node_wf (objects st) lft -> node_wf (objects st) rgt ->
  ind lft = KR_VALUE_SETED -> ind rgt = KR_VALUE_SETED ->
  (neg = true -> type lft <> KR_TYPE_POINTER) ->
  safe (belong_result objects st neg lft rgt)
    (fun o => forall v, o = OVal v -> val_ok KR_TYPE_BOOL v).
Proof.
  intros Hl Hr Hil Hir Hneg. destruct (Hl Hil) as (Hvl & _), (Hr Hir) as (_ & Hor & Hpr).
  unfold belong_result, obj_ok in *. destruct (is_set_kind (kind rgt)); [|done].
  destruct Hor as (p & s & Hp & Hos & Hset). unfold get_set. rewrite Hp. simpl. rewrite Hos. simpl.
  unfold ty_eq. case_bool_decide as H1; [case_bool_decide as H2|]; simpl.
  - rewrite H1 in Hvl. destruct Hvl as [x Hx]. unfold search_string. rewrite Hx. simpl.
    destruct (Hset (KeyString x)) as [b ->]; [done|]. bool_ok.
  - case_bool_decide as H3; [|done]. exfalso. destruct neg; [|congruence].
    rewrite Hpr, H1 in H3 by done. done.
  - case_bool_decide as H3; [|done]. destruct neg.
    { exfalso. apply Hneg; [done|]. rewrite H3. by apply Hpr. }
    unfold search_value, set_ok in *. rewrite <- H3. rewrite <- H3 in Hset.
    destruct (type lft) eqn:Ht; simpl in *; try done; try bool_ok.
    + destruct Hvl as [z ->]. simpl. destruct (Hset (KeyInt z)) as [b ->]; [done|]. bool_ok.
    + destruct Hvl as [z ->]. simpl. destruct (Hset (KeyLong z)) as [b ->]; [done|]. bool_ok.
    + destruct Hvl as [z ->]. simpl. destruct (Hset (KeyDouble z)) as [b ->]; [done|]. bool_ok.
Qed.

Lemma match_safe (st : St) lft rgt :
  node_wf (objects st) lft -> node_wf (objects st) rgt ->
  ind lft = KR_VALUE_SETED -> ind rgt = KR_VALUE_SETED ->
  safe (match_result objects regexec st lft rgt)
    (fun o => forall v, o = OVal v -> val_ok KR_TYPE_BOOL v).
Proof.
  intros Hl Hr Hil Hir. destruct (Hl Hil) as (Hvl & _), (Hr Hir) as (_ & Hor & _).
  unfold match_result, ty_eq, kind_eq, obj_ok in *. case_bool_decide as H1; [|done].
  case_bool_decide as H2; [|done]. simpl. rewrite H1 in Hvl. rewrite H2 in Hor. simpl in Hor.
  destruct Hvl as [x Hx]. destruct Hor as (p & r & Hp & Hos).
  unfold get_regex. rewrite Hp. simpl. rewrite Hos, Hx. simpl. bool_ok.
Qed.

Lemma logic_result_safe (st : St) n cs :
  trees_wf (objects st) cs -> (2 <= length cs)%nat ->
  (op n = Some KR_CALCOP_NBL -> forall c, map node cs !! 0%nat = Some c -> no_pointer c) ->
  safe (logic_result objects regexec st n cs) (fun o => forall v, o = OVal v -> val_ok KR_TYPE_BOOL v).
Proof.
  intros Hwf Hlen Hnp. destruct cs as [|c0 [|c1 cs]]; simpl in Hlen; try lia.
  destruct (wf_child (objects st) _ 0%nat c0 Hwf eq_refl) as [E0 Hw0].
  destruct (wf_child (objects st) _ 1%nat c1 Hwf eq_refl) as [E1 Hw1]. unfold logic_result.
  rewrite E0, E1. cbn [mbind res_bind].
  destruct (not_seted (node c0)) eqn:H0; [done|]. destruct (not_seted (node c1)) eqn:H1; [done|].
  apply not_seted_false in H0, H1. simpl.
  destruct (promote_logic_safe (objects st) _ Hw0 H0) as [d0 ->]. simpl.
  destruct (promote_logic_safe (objects st) _ Hw1 H1) as [d1 ->]. simpl.
  destruct (op n) as [[]|]; try done; try (by eapply compare_safe).
  - by apply belong_safe.
  - apply belong_safe; try done. intros _. by apply (Hnp eq_refl (node c0)).
  - by apply match_safe.
Qed.

Notation eval_node := (_kr_calc_tree_eval objects regexec get_type_cb get_value_cb).
Notation eval_tree := (kr_calc_tree_eval objects regexec get_type_cb get_value_cb).

Lemma extern_value_val_ok ty v u : extern_value ty v = Ok (Some u) -> val_ok ty u.
Proof. destruct ty, v; simpl; try done; intros [= <-]; by eexists. Qed.

(** A result has four parts. *)
Ltac parts4 := split; [|split; [|split]].

Lemma evolves_refl n : evolves n n.
Proof. unfold evolves. auto. Qed.

(** The result of a node: it evolves, and it is well formed again. *)
Definition node_result (n : T_KRCalcNode) (s : St) (r : Z * T_KRCalcNode * Z * St) : Prop :=
  let '(rc, n', d, s') := r in
  objects s' = objects s /\ (rc = 0 \/ rc = -1) /\ evolves n n' /\ node_wf (objects s) n'.

Lemma store_outcome_result n o d s :
  is_extern (kind n) = false -> is_const (kind n) = false ->
  (forall v, o = OVal v -> val_ok (type n) v) ->
  node_result n s (store_outcome n o d, s).
Proof.
  intros He Hc Ho. destruct n as [k op i ty id v]. simpl in *.
  assert (Hev : forall ind v', evolves (mkNode k op i ty id v) (mkNode k op i ty ind v')).
  { intros ind v'. unfold evolves. simpl. auto. }
  destruct o as [u| |]; parts4; [done|auto|apply Hev| |done|auto|apply Hev|done|done|auto|apply Hev|done].
  intros _. simpl. split_and!; [by apply Ho| |by destruct k].
  unfold obj_ok. by destruct k.
Qed.

Lemma eval_extern_safe n cs d s :
  node_wf (objects s) n -> node_shape n cs -> is_extern (kind n) = true ->
  safe (_kr_calc_tree_eval_extern get_type_cb get_value_cb [] n d s) (node_result n s).
Proof.
  intros Hwf Hsh Hex. destruct callbacks_ok as [Hty Hval].
  destruct n as [k o i ty id v]. simpl in Hex.
  unfold _kr_calc_tree_eval_extern. simpl.
  assert (Hunset : forall st ty' v', node_wf (objects st) (mkNode k o i ty' KR_VALUE_UNSET v')).
  { intros. unfold node_wf. simpl. done. }
  assert (Hty' : safe ((if ty_eq ty KR_TYPE_UNKNOWN then get_type_cb k i else mret ty) s)
    (fun r => objects r.2 = objects s /\ (k = KR_CALCKIND_SET \/ r.1 = ety k i) /\
      (r.1 = ty \/ r.1 = ety k i))).
  { unfold ty_eq. case_bool_decide as Ht.
    - eapply safe_mono; [apply Hty|]. simpl. intros [t s'] [-> ->]. auto.
    - simpl. split; [done|]. split; [|by left]. unfold node_shape in Hsh. simpl in Hsh.
      destruct k; try done; auto; destruct Hsh; naive_solver. }
  unfold mbind, M_bind.
  destruct ((if ty_eq ty KR_TYPE_UNKNOWN then get_type_cb k i else mret ty) s) as [[ty1 s1]|];
    [|exact Hty']. simpl in Hty'. destruct Hty' as (Ho1 & Hk & Hor).
  assert (Hev : forall ind v', evolves (mkNode k o i ty id v) (mkNode k o i ty1 ind v')).
  { intros ind v'. unfold evolves. simpl. split_and!; try done.
    destruct Hor as [->| ->]; [by left|]. right. right. done. }
  destruct (ty_eq ty1 KR_TYPE_UNKNOWN).
  { parts4; [done|auto|apply Hev|apply Hunset]. }
  specialize (Hval k i s1). unfold safe in Hval. simpl in *.
  destruct (get_value_cb k i s1) as [[ov s2]|]; [|done]. simpl in Hval.
  destruct Hval as [Ho2 Hv]. destruct ov as [w|]; simpl.
  2:{ parts4; [congruence|auto|apply Hev|apply Hunset]. }
  destruct (kind_eq k KR_CALCKIND_SET) eqn:Hset.
  - destruct Hv as (p & st & -> & Hp & Hst). simpl. unfold kind_eq in Hset.
    apply bool_decide_eq_true in Hset. subst k. parts4; [congruence|auto| |].
    + unfold evolves. simpl. split_and!; try done. by right; left.
    + unfold node_wf. simpl. intros _. split_and!; try done. unfold obj_ok. simpl.
      exists p, st. rewrite <- Ho1. done.
  - destruct Hv as [ou Hou]. unfold kind_eq in Hset. apply bool_decide_eq_false in Hset.
    destruct Hk as [?| ->]; [done|]. rewrite Hou. simpl. destruct ou as [u|]; simpl.
    + parts4; [congruence|auto|apply Hev|]. unfold node_wf. simpl. intros _. split_and!.
      * by eapply extern_value_val_ok.
      * unfold obj_ok. by destruct k.
      * by destruct k.
    + parts4; [congruence|auto|apply Hev|apply Hunset].
Qed.

Lemma eval_node_safe n cs d s :
  node_wf (objects s) n -> node_shape n (map node cs) -> trees_wf (objects s) cs ->
  safe (eval_node cs n d s) (node_result n s).
Proof.
  intros Hwf Hsh Hcs. unfold _kr_calc_tree_eval. unfold node_shape in Hsh. rewrite length_map in Hsh.
  destruct (kind n) eqn:Hk;
    try (simpl; parts4; auto using evolves_refl);
    try (eapply (eval_extern_safe n []); [done| |by rewrite Hk]; unfold node_shape; rewrite Hk;
         exact Hsh).
  - unfold _kr_calc_tree_eval_rel. pose proof (rel_loop_safe (objects s) cs) as Hr.
    assert (Hrel : safe (rel_result (op n) cs) (fun o => forall v, o = OVal v -> val_ok (type n) v)).
    { rewrite Hsh. unfold rel_result. destruct (op n) as [[]|]; try done; by apply Hr. }
    unfold mbind, M_bind, lift. destruct (rel_result (op n) cs); [|exact Hrel].
    apply store_outcome_result; [by rewrite Hk|by rewrite Hk|exact Hrel].
  - unfold _kr_calc_tree_eval_arith.
    pose proof (arith_result_safe (objects s) n cs Hcs Hsh) as Hr.
    unfold mbind, M_bind, lift. destruct (arith_result n cs); [|exact Hr].
    apply store_outcome_result; [by rewrite Hk|by rewrite Hk|exact Hr].
  - unfold _kr_calc_tree_eval_logic. destruct Hsh as (Hl & Ht & Hnp).
    pose proof (logic_result_safe s n cs Hcs Hl Hnp) as Hr. rewrite <- Ht in Hr.
    unfold mbind, M_bind, lift. destruct (logic_result objects regexec s n cs); [|exact Hr].
    apply store_outcome_result; [by rewrite Hk|by rewrite Hk|exact Hr].
Qed.

Definition tree_result (t : T_KRCalcTree) (s : St) (r : Z * T_KRCalcTree * Z * St) : Prop :=
  let '(rc, t', d, s') := r in
  objects s' = objects s /\ (rc = 0 \/ rc = -1) /\ evolves (node t) (node t') /\
  tree_wf (objects s) t'.

Lemma eval_tree_safe t d s :
  tree_wf (objects s) t -> safe (eval_tree t d s) (tree_result t s).
Proof.
  unfold kr_calc_tree_eval. revert d s. induction t as [n cs IH] using tree_rose_ind.
  intros d s (Hn & Hsh & Hcs)%tree_wf_Tree. rewrite traverse_Tree.
  assert (Hrun : forall d s, trees_wf (objects s) cs ->
    safe (traverse_children cs d None (Some eval_node) s) (fun r =>
      let '(rc, cs', d', s') := r in
      objects s' = objects s /\ (rc = 0 \/ rc = -1) /\
      Forall2 (fun t t' => evolves (node t) (node t')) cs cs' /\ trees_wf (objects s) cs')).
  { clear -IH. induction IH as [|c cs Hc _ IHl]; intros d s Hwf.
    { simpl. by auto. }
    apply Forall_cons in Hwf as [Hwc Hwf]. simpl. specialize (Hc d s Hwc).
    unfold mbind, M_bind.
    destruct (kr_calc_tree_traverse c d None (Some eval_node) s) as [[[[rc c'] d1] s1]|]; [|done].
    simpl in Hc. destruct Hc as (Ho & Hrc & Hev & Hwc').
    assert (Hself : Forall2 (fun t t' => evolves (node t) (node t')) cs cs).
    { clear. induction cs; constructor; auto using evolves_refl. }
    destruct (negb (rc =? 0)); simpl.
    { parts4; auto. by constructor. }
    specialize (IHl d1 s1). rewrite Ho in IHl. specialize (IHl Hwf).
    destruct (traverse_children cs d1 None (Some eval_node) s1) as [[[[rc' l'] d2] s2]|]; [|done].
    simpl in IHl |- *. destruct IHl as (Ho' & Hrc' & Hev' & Hwf').
    parts4; try done; by constructor. }
  specialize (Hrun d s Hcs). unfold mbind, M_bind.
  destruct (traverse_children cs d None (Some eval_node) s) as [[[[rc cs'] d1] s1]|]; [|done].
  simpl in Hrun. destruct Hrun as (Ho & Hrc & Hev & Hcs').
  assert (Hev' : Forall2 evolves (map node cs) (map node cs')) by (by apply Forall2_fmap).
  assert (Hsh' : forall n', evolves n n' -> node_shape n' (map node cs')).
  { intros n' Hn'. by eapply node_shape_evolves. }
  destruct (negb (rc =? 0)).
  { simpl. parts4; auto using evolves_refl. apply tree_wf_Tree. auto using evolves_refl. }
  assert (Hnode : safe (eval_node cs' n d1 s1) (node_result n s1)).
  { apply eval_node_safe; rewrite ?Ho; auto using evolves_refl. }
  destruct (eval_node cs' n d1 s1) as [[[[rc' n'] d2] s2]|]; [|done].
  simpl in Hnode. rewrite Ho in Hnode. destruct Hnode as (Ho2 & Hrc2 & Hevn & Hwfn).
  assert (Hwf' : tree_wf (objects s) (Tree n' cs')).
  { apply tree_wf_Tree. auto. }
  destruct (negb (rc' =? 0)); simpl; parts4; auto.
Qed.
End Safety.

(** * Relations *)

Lemma rel_loop_spec cs bs stop b :
  Forall2 (fun c x => ind (node c) = KR_VALUE_SETED /\ truth (node c) = Ok (Some x)) cs bs ->
  rel_loop cs stop b =
  Ok (OVal (KRBool (if (if existsb (Bool.eqb stop) bs then negb b else b) then 1 else 0))).
Proof.
  induction 1 as [|c x cs bs [Hi Ht] _ IH]; [done|]. simpl. rewrite bool_decide_false by auto.
  rewrite Ht. simpl. rewrite IH. by destruct x, stop.
Qed.

(** * Release of a leaf *)

Lemma free_leaf n p os : kind n = KR_CALCKIND_SET -> value n = KRPointer (Some p) ->
  kr_calc_tree_free (Some (Tree n [])) os = free_object (Some p) os.
Proof.
  intros Hk Hv. unfold kr_calc_tree_free. unfold mbind, M_bind. rewrite traverse_Tree.
  unfold traverse_children, mbind, M_bind, mret, M_ret, _kr_calc_tree_free. cbn [negb Z.eqb].
  rewrite Hk, Hv. unfold lift, get_p, mbind, M_bind.
  destruct (free_object (Some p) os) as [[[] os']|]; done.
Qed.

(** * Properties *)

(** The trees of an expression in use: one that [kr_calc_tree_check] accepts, with the
    types its parser gives and no pointer to the left of a [!@], and what any number of
    evaluations make of it, while its constants ([os]) exist. *)
Section InUse.
Context {St : Type} (objects : St -> addr -> option calc_obj)
  (regexec : string -> string -> bool)
  (get_type_cb : E_KRCalcKind -> Z -> M St E_KRType)
  (get_value_cb : E_KRCalcKind -> Z -> M St (option (valptr addr)))
  (ety : E_KRCalcKind -> Z -> E_KRType).

Inductive in_use (os : addr -> option calc_obj) : T_KRCalcTree -> Prop :=
  | in_use_checked t status s :
      kr_calc_tree_check (St:=St) t status s = Ok (0, t, status, s) ->
      typed_tree ety os t -> nbl_scalar ety t -> in_use os t
  | in_use_evaluated t status s rc t' status' s' :
      in_use os t -> objects s = os ->
      kr_calc_tree_eval objects regexec get_type_cb get_value_cb t status s =
        Ok (rc, t', status', s') -> in_use os t'.

Lemma in_use_wf os t : typed_callbacks objects get_type_cb get_value_cb ety ->
  in_use os t -> tree_wf ety os t.
Proof.
  intros Hcb. induction 1 as [t status s Hck Hty Hnbl|t status s rc t' d s' _ IH <- Hrun].
  - apply checked_wf; [|done|done]. rewrite tree_check_spec in Hck.
    by destruct (all_nodes check_node t).
  - pose proof (eval_tree_safe objects regexec get_type_cb get_value_cb ety Hcb t status s IH) as H.
    rewrite Hrun in H. by destruct H as (_ & _ & _ & ?).
Qed.
End InUse.


(** Why [nbl_scalar] is asked for: [!@] with a set identifier on both sides passes the
    check, for the types of identifiers are not known then; at the evaluation both are
    pointers, the test that compares the operands with each other lets them pass, and the
    set is searched for the first operand as if it were one of its numbers. *)
Definition nbl_sets (i j : Z) : T_KRCalcTree :=
  Tree (mkNode KR_CALCKIND_LOGIC (Some KR_CALCOP_NBL) 0 KR_TYPE_BOOL KR_VALUE_UNSET KRZero)
    [Tree (mkNode KR_CALCKIND_SET None i KR_TYPE_UNKNOWN KR_VALUE_UNSET KRZero) [];
     Tree (mkNode KR_CALCKIND_SET None j KR_TYPE_UNKNOWN KR_VALUE_UNSET KRZero) []].

Theorem kr_calc_not_belong_sets {St} (objects : St -> addr -> option calc_obj)
    (regexec : string -> string -> bool)
    (get_type_cb : E_KRCalcKind -> Z -> M St E_KRType)
    (get_value_cb : E_KRCalcKind -> Z -> M St (option (valptr addr)))
    (i j status : Z) (s : St) (ty : E_KRType) (p q : addr) (hs : T_KRHashSet) :
  ty <> KR_TYPE_UNKNOWN ->
  (forall k, get_type_cb KR_CALCKIND_SET k s = Ok (ty, s)) ->
  get_value_cb KR_CALCKIND_SET i s = Ok (Some (VPointer p), s) ->
  get_value_cb KR_CALCKIND_SET j s = Ok (Some (VPointer q), s) ->
  objects s q = Some (OSet hs) -> is_numeric (hs_type hs) = true ->
  kr_calc_tree_check (nbl_sets i j) status s = Ok (0, nbl_sets i j, status, s) /\
  kr_calc_tree_eval objects regexec get_type_cb get_value_cb (nbl_sets i j) status s =
    Fault TypePun.
Proof.
  intros Hty Hgt Hi Hj Hq Hnum. split; [done|].
  assert (Hu : ty_eq ty KR_TYPE_UNKNOWN = false) by (unfold ty_eq; by rewrite bool_decide_false).
  assert (Hset : forall k v d cs, get_value_cb KR_CALCKIND_SET k s = Ok (Some (VPointer v), s) ->
    _kr_calc_tree_eval objects regexec get_type_cb get_value_cb cs
      (mkNode KR_CALCKIND_SET None k KR_TYPE_UNKNOWN KR_VALUE_UNSET KRZero) d s =
    Ok (0, mkNode KR_CALCKIND_SET None k KR_TYPE_POINTER KR_VALUE_SETED (KRPointer (Some v)), d, s)).
  { intros k v d cs Hk. cbn. unfold _kr_calc_tree_eval_extern, mbind, M_bind. cbn -[ty_eq].
    change (ty_eq KR_TYPE_UNKNOWN KR_TYPE_UNKNOWN) with true. cbn.
    rewrite Hgt, Hu, Hk. done. }
  assert (Hleaf : forall k v d, get_value_cb KR_CALCKIND_SET k s = Ok (Some (VPointer v), s) ->
    kr_calc_tree_traverse
      (Tree (mkNode KR_CALCKIND_SET None k KR_TYPE_UNKNOWN KR_VALUE_UNSET KRZero) []) d None
      (Some (_kr_calc_tree_eval objects regexec get_type_cb get_value_cb)) s =
    Ok (0, Tree (mkNode KR_CALCKIND_SET None k KR_TYPE_POINTER KR_VALUE_SETED
                   (KRPointer (Some v))) [], d, s)).
  { intros k v d Hk. rewrite traverse_Tree. unfold mbind, M_bind. cbn -[_kr_calc_tree_eval].
    by rewrite (Hset k v d [] Hk). }
  assert (Hlogic : forall n l r, op n = Some KR_CALCOP_NBL ->
    logic_result objects regexec s n
      [Tree (mkNode KR_CALCKIND_SET None i KR_TYPE_POINTER KR_VALUE_SETED (KRPointer (Some p))) l;
       Tree (mkNode KR_CALCKIND_SET None j KR_TYPE_POINTER KR_VALUE_SETED (KRPointer (Some q))) r] =
    Fault TypePun).
  { intros n l r Hop. unfold logic_result. cbn. rewrite Hop. unfold belong_result, get_set. cbn.
    rewrite Hq. cbn.
    unfold search_value. by destruct (hs_type hs). }
  unfold kr_calc_tree_eval, nbl_sets. rewrite traverse_Tree. cbn [traverse_children].
  unfold mbind, M_bind. rewrite (Hleaf i p _ Hi). cbn -[kr_calc_tree_traverse].
  unfold mbind, M_bind. rewrite (Hleaf j q _ Hj). cbn -[logic_result].
  unfold _kr_calc_tree_eval_logic, mbind, M_bind, lift. by rewrite Hlogic.
Qed.

(** C19. Of the evaluations before it, an evaluation reads no indicator and no value, only
    the types that they found for the identifiers: two trees that differ in no more than
    the indicators and values of the nodes that an evaluation computes give the same return
    code, status and callback calls and, when it succeeds, the same indicators and
    values. *)
Theorem kr_calc_tree_eval_no_stale {St} (objects : St -> addr -> option calc_obj)
    (regexec : string -> string -> bool)
    (get_type_cb : E_KRCalcKind -> Z -> M St E_KRType)
    (get_value_cb : E_KRCalcKind -> Z -> M St (option (valptr addr)))
    (t1 t2 : T_KRCalcTree) (status : Z) (s : St) :
  erase t1 = erase t2 ->
  match kr_calc_tree_eval objects regexec get_type_cb get_value_cb t1 status s,
        kr_calc_tree_eval objects regexec get_type_cb get_value_cb t2 status s with
  | Ok (rc1, t1', d1, s1), Ok (rc2, t2', d2, s2) =>
      rc1 = rc2 /\ d1 = d2 /\ s1 = s2 /\ erase t1' = erase t2' /\
      (rc1 = 0 -> fresh_tree t1' = fresh_tree t2')
  | Fault f1, Fault f2 => f1 = f2
  | _, _ => False
  end.
Proof. intros He. apply (eval_same objects regexec get_type_cb get_value_cb t1 t2 status s He). Qed.

(** The type check returns 0 exactly when every node passes its test, and changes
    nothing but the status; a tree that passes has two operands under every
    arithmetic and logical operator. *)
Lemma kr_calc_tree_check_iff {St} (t : T_KRCalcTree) (status : Z) (s : St) :
  kr_calc_tree_check t status s =
    (if all_nodes check_node t then Ok (0, t, status, s) else Ok (-1, t, -1, s)) /\
  (all_nodes check_node t = true -> all_nodes (fun cs n =>
     match kind n with
     | KR_CALCKIND_ARITH | KR_CALCKIND_LOGIC => (length cs =? 2)%nat
     | _ => true
     end) t = true).
Proof.
  split; [apply tree_check_spec|]. induction t as [n cs IH] using tree_rose_ind. simpl.
  intros [Hcs Hn]%andb_true_iff. apply andb_true_iff. split.
  - rewrite forallb_forall in *. intros c Hc. rewrite Forall_forall in IH.
    apply IH; [by apply list_elem_of_In|]. by apply Hcs.
  - unfold check_node in Hn. destruct (kind n); try done; by destruct cs as [|? [|? []]].
Qed.

(** On operands that are set, [&&], [||] and [!] compute the conjunction, the
    disjunction and the negated disjunction of their truth, whatever their number. *)
Lemma kr_calc_rel_semantics {St} (cs : list T_KRCalcTree) (bs : list bool) (n : T_KRCalcNode)
    (b : bool) (status : Z) (s : St) :
  Forall2 (fun c x => ind (node c) = KR_VALUE_SETED /\ truth (node c) = Ok (Some x)) cs bs ->
  (op n = Some KR_CALCOP_AND /\ b = forallb (fun x => x) bs) \/
  (op n = Some KR_CALCOP_OR /\ b = existsb (fun x => x) bs) \/
  (op n = Some KR_CALCOP_NOT /\ b = negb (existsb (fun x => x) bs)) ->
  _kr_calc_tree_eval_rel cs n status s =
    Ok (0, set_ind (set_value n (KRBool (if b then 1 else 0))) KR_VALUE_SETED, status, s).
Proof.
  intros Hcs Hop. unfold _kr_calc_tree_eval_rel, mbind, M_bind, lift.
  assert (Hb : rel_result (op n) cs = Ok (OVal (KRBool (if b then 1 else 0)))); [|by rewrite Hb].
  assert (He1 : existsb (Bool.eqb true) bs = existsb (fun x => x) bs).
  { clear. induction bs as [|[] bs IH]; simpl; congruence. }
  assert (He0 : existsb (Bool.eqb false) bs = negb (forallb (fun x => x) bs)).
  { clear. induction bs as [|[] bs IH]; simpl; congruence. }
  unfold rel_result. destruct Hop as [[-> ->]|[[-> ->]|[-> ->]]]; rewrite (rel_loop_spec _ _ _ _ Hcs).
  - rewrite He0. by destruct (forallb (fun x => x) bs).
  - rewrite He1. by destruct (existsb (fun x => x) bs).
  - rewrite He1. by destruct (existsb (fun x => x) bs).
Qed.

(** Membership in a set of numbers: where [left @@ right] gives a result,
    [left !@ right] is an error, because it compares the type of the left operand with
    the type of the right node, a pointer; and the type check rejects both, for the
    same reason, as soon as the type of the left operand is known. *)
Theorem kr_calc_not_belong_error {St} (objects : St -> addr -> option calc_obj) (s : St)
    (lft rgt n : T_KRCalcNode) (hs : T_KRHashSet) (p : addr) (b : bool) :
  is_set_kind (kind rgt) = true -> type rgt = KR_TYPE_POINTER ->
  value rgt = KRPointer (Some p) -> objects s p = Some (OSet hs) ->
  is_numeric (type lft) = true -> type lft = hs_type hs -> search_value hs (value lft) = Ok b ->
  belong_result objects s false lft rgt = Ok (bool_value b) /\
  belong_result objects s true lft rgt = Ok OError /\
  (op n = Some KR_CALCOP_BL \/ op n = Some KR_CALCOP_NBL -> check_logic n lft rgt = false).
Proof.
  intros Hk Ht Hv Hp Hnum Hty Hs. unfold belong_result, get_set. rewrite Hk, Hv. simpl.
  rewrite Hp. simpl. rewrite <- Hty, Ht.
  assert (Hls : ty_eq (type lft) KR_TYPE_STRING = false) by (by destruct (type lft)).
  assert (Hlp : ty_eq (type lft) KR_TYPE_POINTER = false) by (by destruct (type lft)).
  assert (Hll : ty_eq (type lft) (type lft) = true) by (unfold ty_eq; by rewrite bool_decide_true).
  rewrite Hls, Hlp, Hll. simpl. rewrite Hs. simpl. split; [done|]. split; [done|].
  intros Hop. unfold check_logic. rewrite Ht.
  assert (Hu : ty_eq (type lft) KR_TYPE_UNKNOWN = false) by (by destruct (type lft)).
  rewrite Hu, Hlp, Hk. simpl. by destruct Hop as [-> | ->].
Qed.

(** Releasing a tree that has evaluated a set identifier frees the set the callback
    returned, which the tree does not own: a second tree with the same set then frees
    it again. *)
Theorem kr_calc_tree_free_shared_set (n : T_KRCalcNode) (p : addr) (os : gmap addr calc_obj) :
  kind n = KR_CALCKIND_SET -> value n = KRPointer (Some p) -> is_Some (os !! p) ->
  kr_calc_tree_free (Some (Tree n [])) os = Ok (tt, delete p os) /\
  (kr_calc_tree_free (Some (Tree n []));; kr_calc_tree_free (Some (Tree n []))) os =
    Fault BadPointer.
Proof.
  intros Hk Hv [o Hp].
  assert (H1 : kr_calc_tree_free (Some (Tree n [])) os = Ok (tt, delete p os)).
  { rewrite (free_leaf n p os Hk Hv). unfold free_object. by rewrite Hp. }
  split; [done|]. unfold mbind, M_bind. rewrite H1, (free_leaf n p _ Hk Hv).
  unfold free_object. by rewrite lookup_delete_eq.
Qed.

(** * The properties at concrete trees *)

(** [C_1 > 3], and the callbacks that give the current field the integer 7. *)
Definition demo_tree : T_KRCalcTree :=
  Tree (mkNode KR_CALCKIND_LOGIC (Some KR_CALCOP_GT) 0 KR_TYPE_BOOL KR_VALUE_UNSET KRZero)
    [Tree (mkNode KR_CALCKIND_CID None 1 KR_TYPE_UNKNOWN KR_VALUE_UNSET KRZero) [];
     Tree (mkNode KR_CALCKIND_INT None 0 KR_TYPE_INT KR_VALUE_SETED (KRInt 3)) []].
Definition demo_type (k : E_KRCalcKind) (i : Z) : M (gmap addr calc_obj) E_KRType :=
  mret KR_TYPE_INT.
Definition demo_value (k : E_KRCalcKind) (i : Z) : M (gmap addr calc_obj) (option (valptr addr)) :=
  mret (if kind_eq k KR_CALCKIND_SET then None else Some (VInt 7)).
Definition demo_objects (os : gmap addr calc_obj) (p : addr) : option calc_obj := os !! p.
Definition no_regex (pattern s : string) : bool := false.


Definition stale_tree : T_KRCalcTree :=
  Tree (mkNode KR_CALCKIND_LOGIC (Some KR_CALCOP_GT) 0 KR_TYPE_BOOL KR_VALUE_SETED (KRBool 0))
    [Tree (mkNode KR_CALCKIND_CID None 1 KR_TYPE_UNKNOWN KR_VALUE_SETED (KRInt 2)) [];
     Tree (mkNode KR_CALCKIND_INT None 0 KR_TYPE_INT KR_VALUE_SETED (KRInt 3)) []].

Lemma kr_calc_tree_eval_no_stale_witness :
  match kr_calc_tree_eval demo_objects no_regex demo_type demo_value demo_tree 0 ∅,
        kr_calc_tree_eval demo_objects no_regex demo_type demo_value stale_tree 0 ∅ with
  | Ok (rc1, t1', d1, s1), Ok (rc2, t2', d2, s2) =>
      rc1 = rc2 /\ d1 = d2 /\ s1 = s2 /\ erase t1' = erase t2' /\
      (rc1 = 0 -> fresh_tree t1' = fresh_tree t2')
  | Fault f1, Fault f2 => f1 = f2
  | _, _ => False
  end.
Proof.
  apply (kr_calc_tree_eval_no_stale demo_objects no_regex demo_type demo_value demo_tree stale_tree 0 ∅).
  reflexivity.
Defined.

Definition int_const (i : Z) : T_KRCalcTree :=
  Tree (mkNode KR_CALCKIND_INT None 0 KR_TYPE_INT KR_VALUE_SETED (KRInt i)) [].
Definition rel_node (o : E_KRCalcOp) : T_KRCalcNode :=
  mkNode KR_CALCKIND_REL (Some o) 0 KR_TYPE_BOOL KR_VALUE_UNSET KRZero.

Lemma kr_calc_rel_semantics_witness :
  _kr_calc_tree_eval_rel [int_const 1; int_const 0; int_const 5] (rel_node KR_CALCOP_AND) 0 tt =
    Ok (0, set_ind (set_value (rel_node KR_CALCOP_AND) (KRBool 0)) KR_VALUE_SETED, 0, tt).
Proof.
  apply (kr_calc_rel_semantics [int_const 1; int_const 0; int_const 5] [true; false; true]
    (rel_node KR_CALCOP_AND) false 0 tt).
  - repeat constructor.
  - by left.
Defined.

(** The set [{1,2}] and the integer 2. *)
Definition demo_set : T_KRHashSet :=
  match kr_hashset_make KR_TYPE_INT "1,2" with Ok s => s | Fault _ => inhabitant end.
Definition demo_set_node : T_KRCalcNode :=
  mkNode KR_CALCKIND_MINT None 0 KR_TYPE_POINTER KR_VALUE_SETED (KRPointer (Some 1%positive)).
Definition demo_not_belong : T_KRCalcNode :=
  mkNode KR_CALCKIND_LOGIC (Some KR_CALCOP_NBL) 0 KR_TYPE_BOOL KR_VALUE_UNSET KRZero.

Lemma kr_calc_not_belong_error_witness :
  belong_result demo_objects {[1%positive := OSet demo_set]} false (node (int_const 2)) demo_set_node =
    Ok (bool_value true) /\
  belong_result demo_objects {[1%positive := OSet demo_set]} true (node (int_const 2)) demo_set_node =
    Ok OError /\
  (op demo_not_belong = Some KR_CALCOP_BL \/ op demo_not_belong = Some KR_CALCOP_NBL ->
   check_logic demo_not_belong (node (int_const 2)) demo_set_node = false).
Proof.
  apply (kr_calc_not_belong_error demo_objects {[1%positive := OSet demo_set]} (node (int_const 2))
    demo_set_node demo_not_belong demo_set 1%positive true); try reflexivity.
Defined.

Lemma kr_calc_tree_free_shared_set_witness :
  let n := mkNode KR_CALCKIND_SET None 7 KR_TYPE_POINTER KR_VALUE_SETED (KRPointer (Some 1%positive)) in
  let os := {[1%positive := OSet demo_set]} : gmap addr calc_obj in
  kr_calc_tree_free (Some (Tree n [])) os = Ok (tt, delete 1%positive os) /\
  (kr_calc_tree_free (Some (Tree n []));; kr_calc_tree_free (Some (Tree n []))) os =
    Fault BadPointer.
Proof.
  apply (kr_calc_tree_free_shared_set
    (mkNode KR_CALCKIND_SET None 7 KR_TYPE_POINTER KR_VALUE_SETED (KRPointer (Some 1%positive)))
    1%positive {[1%positive := OSet demo_set]}); try reflexivity.
  exists (OSet demo_set). reflexivity.
Defined.

(** Both set identifiers are the set [{1,2}]. *)
Definition demo_set_value (k : E_KRCalcKind) (i : Z)
    : M (gmap addr calc_obj) (option (valptr addr)) := mret (Some (VPointer 1%positive)).

Lemma kr_calc_not_belong_sets_witness :
  kr_calc_tree_check (nbl_sets 1 2) 0 ({[1%positive := OSet demo_set]} : gmap addr calc_obj) =
    Ok (0, nbl_sets 1 2, 0, {[1%positive := OSet demo_set]}) /\
  kr_calc_tree_eval demo_objects no_regex demo_type demo_set_value (nbl_sets 1 2) 0
    {[1%positive := OSet demo_set]} = Fault TypePun.
Proof.
  apply (kr_calc_not_belong_sets demo_objects no_regex demo_type demo_set_value 1 2 0
    {[1%positive := OSet demo_set]} KR_TYPE_INT 1%positive 1%positive demo_set); try reflexivity.
  discriminate.
Defined.
