(* ===== verification/KrCalcJson.v ===== *)
(** Expressions in JSON (krcalc/kr_calc_parser_json.c, kr_calc_dumper_json.c) and the
    calculator built on them (krcalc/kr_calc.c, kr_calc_parser.c).

    The generated parser of the other format is a parameter, as are POSIX [regcomp] and
    [regexec].  Sets and regular expressions made by the parser are new objects of
    the store. *)

From S2P Require Import Prelude KrString KrHashtable KrTypes KrHashset KrJson KrCalcTree.
From Stdlib Require Import Ascii String.
Local Open Scope Z_scope.
#[local] Notation length := List.length.

(** The number of levels: the fuel the parser needs. *)
Fixpoint json_depth (j : cJSON) : nat :=
  match j with
  | CJson _ _ _ _ _ c => S ((fix go l := match l with [] => 0 | x :: l' => max (json_depth x) (go l') end) c)
  end%nat.

(** * The codes of the enumerations *)

Definition op_code (o : E_KRCalcOp) : Z :=
  match o with
  | KR_CALCOP_PLUS => 1 | KR_CALCOP_SUB => 2 | KR_CALCOP_MUT => 3 | KR_CALCOP_DIV => 4
  | KR_CALCOP_MOD => 5 | KR_CALCOP_LT => 6 | KR_CALCOP_LE => 7 | KR_CALCOP_GT => 8
  | KR_CALCOP_GE => 9 | KR_CALCOP_EQ => 10 | KR_CALCOP_NEQ => 11 | KR_CALCOP_BL => 12
  | KR_CALCOP_NBL => 13 | KR_CALCOP_MATCH => 14 | KR_CALCOP_NOT => 15 | KR_CALCOP_AND => 16
  | KR_CALCOP_OR => 17
  end.
Definition kind_code (k : E_KRCalcKind) : Z :=
  match k with
  | KR_CALCKIND_REL => 0 | KR_CALCKIND_ARITH => 1 | KR_CALCKIND_LOGIC => 2
  | KR_CALCKIND_INT => 3 | KR_CALCKIND_FLOAT => 4 | KR_CALCKIND_STRING => 5
  | KR_CALCKIND_MINT => 6 | KR_CALCKIND_MFLOAT => 7 | KR_CALCKIND_MSTRING => 8
  | KR_CALCKIND_REGEX => 9 | KR_CALCKIND_SET => 10 | KR_CALCKIND_CID => 11
  | KR_CALCKIND_FID => 12 | KR_CALCKIND_SID => 13 | KR_CALCKIND_DID => 14
  | KR_CALCKIND_HID => 15
  end.

Definition all_ops : list E_KRCalcOp :=
  [KR_CALCOP_PLUS; KR_CALCOP_SUB; KR_CALCOP_MUT; KR_CALCOP_DIV; KR_CALCOP_MOD; KR_CALCOP_LT;
   KR_CALCOP_LE; KR_CALCOP_GT; KR_CALCOP_GE; KR_CALCOP_EQ; KR_CALCOP_NEQ; KR_CALCOP_BL;
   KR_CALCOP_NBL; KR_CALCOP_MATCH; KR_CALCOP_NOT; KR_CALCOP_AND; KR_CALCOP_OR].
Definition all_kinds : list E_KRCalcKind :=
  [KR_CALCKIND_REL; KR_CALCKIND_ARITH; KR_CALCKIND_LOGIC; KR_CALCKIND_INT; KR_CALCKIND_FLOAT;
   KR_CALCKIND_STRING; KR_CALCKIND_MINT; KR_CALCKIND_MFLOAT; KR_CALCKIND_MSTRING;
   KR_CALCKIND_REGEX; KR_CALCKIND_SET; KR_CALCKIND_CID; KR_CALCKIND_FID; KR_CALCKIND_SID;
   KR_CALCKIND_DID; KR_CALCKIND_HID].
Definition op_of_code (z : Z) : option E_KRCalcOp := List.find (fun o => op_code o =? z) all_ops.
Definition kind_of_code (z : Z) : option E_KRCalcKind :=
  List.find (fun k => kind_code k =? z) all_kinds.

(** * The parser *)

Abbreviation objs := (gmap addr calc_obj).

(** A set or an expression made by the parser. *)
Definition alloc_obj (o : calc_obj) : M objs addr := fun os =>
  let p := fresh (dom os) in Ok (p, <[p := o]> os).

Section Json.
Context (regcomp : string -> bool).

Definition kr_calcjson_getint (json : cJSON) : res Z := d_to_i32 (valuedouble json).
Definition kr_calcjson_getdouble (json : cJSON) : double := valuedouble json.
Definition kr_calcjson_getstring (json : cJSON) : option string := valuestring json.

(** [kr_regex_compile]: [None] when the pattern does not compile; a [NULL] pattern is
    dereferenced by [kr_strdup], as is the [NULL] name of a set. *)
Definition kr_regex_compile (pattern : option string) : M objs (option addr) :=
  pattern ← lift (of_option NullDeref pattern);
  if regcomp pattern then p ← alloc_obj (ORegex pattern); mret (Some p) else mret None.

Definition make_set (key_type : E_KRType) (s : option string) : M objs addr :=
  s ← lift (of_option NullDeref s);
  hs ← lift (kr_hashset_make key_type s);
  alloc_obj (OSet hs).

(** The fields of a new node. *)
Definition elem (k : E_KRCalcKind) (id : Z) (ty : E_KRType) (i : E_KRValueInd) (v : U_KRValue addr)
    : option T_KRCalcTree := Some (Tree (mkNode k None id ty i v) []).

(** [kr_calc_parse_ele]; [None] for [NULL].  [json] is the item, which the assertion
    requires. *)
Definition kr_calc_parse_ele (kind : Z) (json : option cJSON) : M objs (option T_KRCalcTree) :=
  json ← lift (of_option AssertFailed json);
  match kind_of_code kind with
  | Some KR_CALCKIND_INT =>
      i ← lift (kr_calcjson_getint json);
      mret (elem KR_CALCKIND_INT 0 KR_TYPE_INT KR_VALUE_SETED (KRInt i))
  | Some KR_CALCKIND_FLOAT =>
      mret (elem KR_CALCKIND_FLOAT 0 KR_TYPE_DOUBLE KR_VALUE_SETED
              (KRDouble (kr_calcjson_getdouble json)))
  | Some KR_CALCKIND_STRING =>
      s ← lift (of_option NullDeref (kr_calcjson_getstring json));
      mret (elem KR_CALCKIND_STRING 0 KR_TYPE_STRING KR_VALUE_SETED (KRString (Some s)))
  | Some ((KR_CALCKIND_CID | KR_CALCKIND_FID | KR_CALCKIND_SID | KR_CALCKIND_DID
           | KR_CALCKIND_HID | KR_CALCKIND_SET) as k) =>
      i ← lift (kr_calcjson_getint json);
      mret (elem k i KR_TYPE_UNKNOWN KR_VALUE_UNSET KRZero)
  | Some KR_CALCKIND_MINT =>
      p ← make_set KR_TYPE_INT (kr_calcjson_getstring json);
      mret (elem KR_CALCKIND_MINT 0 KR_TYPE_POINTER KR_VALUE_SETED (KRPointer (Some p)))
  | Some KR_CALCKIND_MFLOAT =>
      p ← make_set KR_TYPE_DOUBLE (kr_calcjson_getstring json);
      mret (elem KR_CALCKIND_MFLOAT 0 KR_TYPE_POINTER KR_VALUE_SETED (KRPointer (Some p)))
  | Some KR_CALCKIND_MSTRING =>
      p ← make_set KR_TYPE_STRING (kr_calcjson_getstring json);
      mret (elem KR_CALCKIND_MSTRING 0 KR_TYPE_POINTER KR_VALUE_SETED (KRPointer (Some p)))
  | Some KR_CALCKIND_REGEX =>
      p ← kr_regex_compile (kr_calcjson_getstring json);
      mret (elem KR_CALCKIND_REGEX 0 KR_TYPE_POINTER KR_VALUE_SETED (KRPointer p))
  | _ => mret None
  end.

(** The node of an operator, with the type the JSON format gives it. *)
Definition exp_node (o : E_KRCalcOp) : T_KRCalcNode :=
  match o with
  | KR_CALCOP_PLUS | KR_CALCOP_SUB | KR_CALCOP_MUT | KR_CALCOP_DIV | KR_CALCOP_MOD =>
      mkNode KR_CALCKIND_ARITH (Some o) 0 KR_TYPE_DOUBLE KR_VALUE_UNSET KRZero
  | KR_CALCOP_LT | KR_CALCOP_LE | KR_CALCOP_GT | KR_CALCOP_GE | KR_CALCOP_EQ | KR_CALCOP_NEQ
  | KR_CALCOP_BL | KR_CALCOP_NBL | KR_CALCOP_MATCH =>
      mkNode KR_CALCKIND_LOGIC (Some o) 0 KR_TYPE_BOOL KR_VALUE_UNSET KRZero
  | KR_CALCOP_NOT | KR_CALCOP_AND | KR_CALCOP_OR =>
      mkNode KR_CALCKIND_REL (Some o) 0 KR_TYPE_BOOL KR_VALUE_UNSET KRZero
  end.

(** The loop over the children, which appends their trees to [tree]. *)
Fixpoint parse_children (parse : cJSON -> M objs (option T_KRCalcTree)) (tree : T_KRCalcTree)
    (cs : list cJSON) : M objs (option T_KRCalcTree) :=
  match cs with
  | [] => mret (Some tree)
  | c :: cs' =>
      node ← parse c;
      match node with
      | None => mret None
      | Some node => parse_children parse (kr_calc_tree_append tree node) cs'
      end
  end.

(** [kr_calc_parse_exp]: the number of children is read from the item [child] without
    a test that there is one. *)
Definition kr_calc_parse_exp (parse : cJSON -> M objs (option T_KRCalcTree)) (o : Z)
    (json : cJSON) : M objs (option T_KRCalcTree) :=
  match op_of_code o with
  | None => mret None
  | Some o =>
      children ← lift (of_option NullDeref (cJSON_GetObjectItem json "child"));
      parse_children parse (Tree (exp_node o) []) (items children)
  end.

Fixpoint _kr_calc_parse_json (fuel : nat) (krjson : cJSON) : M objs (option T_KRCalcTree) :=
  match fuel with
  | O => fail NoFuel
  | S fuel' =>
      match cJSON_GetObjectItem krjson "op" with
      | Some json =>
          o ← lift (kr_calcjson_getint json);
          kr_calc_parse_exp (_kr_calc_parse_json fuel') o krjson
      | None =>
          match cJSON_GetObjectItem krjson "kind" with
          | Some json =>
              kind ← lift (kr_calcjson_getint json);
              kr_calc_parse_ele kind (cJSON_GetObjectItem krjson "value")
          | None => mret None
          end
      end
  end.

(** * The dumper

    Its loop variable is not initialised: [garbage t] is what it holds when the loop
    over the children of [t] starts. *)

Context (garbage : T_KRCalcTree -> Z).

Definition set_name (os : objs) (n : T_KRCalcNode) : res string :=
  s ← get_set (fun os p => os !! p) os n; Ok (hs_name s).

Fixpoint _kr_calc_dump_json (os : objs) (t : T_KRCalcTree) {struct t} : res cJSON :=
  match t with
  | Tree n cs =>
      let krjson := cJSON_CreateObject in
      match kind n with
      | KR_CALCKIND_REL | KR_CALCKIND_ARITH | KR_CALCKIND_LOGIC =>
          let krjson := cJSON_AddNumberToObject krjson "op"
                          (d_of_Z (match op n with Some o => op_code o | None => 0 end)) in
          if garbage t <? 0 then Fault OutOfBounds
          else
            childs ←
              (fix go (l : list T_KRCalcTree) (i : Z) (childs : cJSON) : res cJSON :=
                 match l with
                 | [] => Ok childs
                 | c :: l' =>
                     if i <? garbage t then go l' (i + 1) childs
                     else j ← _kr_calc_dump_json os c;
                          go l' (i + 1) (cJSON_AddItemToArray childs j)
                 end) cs 0 cJSON_CreateArray;
            Ok (cJSON_AddItemToObject krjson "child" childs)
      | KR_CALCKIND_INT =>
          i ← get_i (value n);
          Ok (cJSON_AddNumberToObject
                (cJSON_AddNumberToObject krjson "kind" (d_of_Z (kind_code (kind n))))
                "value" (d_of_Z i))
      | KR_CALCKIND_FLOAT =>
          d ← get_d (value n);
          Ok (cJSON_AddNumberToObject
                (cJSON_AddNumberToObject krjson "kind" (d_of_Z (kind_code (kind n)))) "value" d)
      | KR_CALCKIND_STRING =>
          s ← get_s (value n);
          s ← of_option NullDeref s;
          Ok (cJSON_AddStringToObject
                (cJSON_AddNumberToObject krjson "kind" (d_of_Z (kind_code (kind n)))) "value" s)
      | KR_CALCKIND_MINT | KR_CALCKIND_MFLOAT | KR_CALCKIND_MSTRING =>
          s ← set_name os n;
          Ok (cJSON_AddStringToObject
                (cJSON_AddNumberToObject krjson "kind" (d_of_Z (kind_code (kind n)))) "value" s)
      | KR_CALCKIND_REGEX =>
          s ← get_regex (fun os p => os !! p) os n;
          Ok (cJSON_AddStringToObject
                (cJSON_AddNumberToObject krjson "kind" (d_of_Z (kind_code (kind n)))) "value" s)
      | KR_CALCKIND_SET | KR_CALCKIND_CID | KR_CALCKIND_FID | KR_CALCKIND_SID
      | KR_CALCKIND_DID | KR_CALCKIND_HID =>
          Ok (cJSON_AddNumberToObject
                (cJSON_AddNumberToObject krjson "kind" (d_of_Z (kind_code (kind n))))
                "value" (d_of_Z (id n)))
      end
  end.

(** * The calculator *)

(** [calc_format]; the code switches on the two letters. *)
Inductive E_KRCalcFormat := KR_CALCFORMAT_FLEX | KR_CALCFORMAT_JSON | KR_CALCFORMAT_OTHER.

Record T_KRCalc := mkCalc {
  calc_format : E_KRCalcFormat;
  calc_string : string;
  calc_tree : option T_KRCalcTree;
  calc_status : Z
}.

(** The generated parser of the other format, which reports an error in [calc_status]. *)
Context (kr_calc_parse_flex : T_KRCalc -> M objs (Z * T_KRCalc)).

(** The trees of the parser's failures stay allocated: their objects stay in the
    store. *)
Definition kr_calc_parse_json (krcalc : T_KRCalc) : M objs (Z * T_KRCalc) :=
  krjson ← lift (cJSON_Parse (Some (c_memory (calc_string krcalc))));
  match krjson with
  | None => mret (-1, mkCalc (calc_format krcalc) (calc_string krcalc) (calc_tree krcalc) (-1))
  | Some krjson =>
      t ← _kr_calc_parse_json (json_depth krjson) krjson;
      match t with
      | None => mret (-1, mkCalc (calc_format krcalc) (calc_string krcalc) None (-1))
      | Some t =>
          mret (0, mkCalc (calc_format krcalc) (calc_string krcalc) (Some t) (calc_status krcalc))
      end
  end.

Definition kr_calc_parse (krcalc : T_KRCalc) : M objs (Z * T_KRCalc) :=
  match calc_format krcalc with
  | KR_CALCFORMAT_FLEX => kr_calc_parse_flex krcalc
  | KR_CALCFORMAT_JSON => kr_calc_parse_json krcalc
  | KR_CALCFORMAT_OTHER => mret (-1, krcalc)
  end.

Definition kr_calc_construct (format : E_KRCalcFormat) (calcstr : string)
    : M objs (option T_KRCalc) :=
  '(rc, krcalc) ← kr_calc_parse (mkCalc format calcstr None 0);
  if negb (rc =? 0) then mret None else mret (Some krcalc).

Definition kr_calc_destruct (krcalc : option T_KRCalc) : M objs unit :=
  match krcalc with
  | Some krcalc => kr_calc_tree_free (calc_tree krcalc)
  | None => mret tt
  end.

(** The dump as a JSON item; [cJSON_PrintUnformatted] prints it. *)
Definition kr_calc_dump_json (os : objs) (krcalc : T_KRCalc) : res cJSON :=
  t ← of_option NullDeref (calc_tree krcalc); _kr_calc_dump_json os t.

End Json.

(** The callbacks are those of the caller, which runs on the state [St]. *)
Section Calc.
Context {St : Type}.
Context (objects : St -> addr -> option calc_obj).
Context (regexec : string -> string -> bool).
Context (get_type_cb : E_KRCalcKind -> Z -> M St E_KRType).
Context (get_value_cb : E_KRCalcKind -> Z -> M St (option (valptr addr))).

Definition with_tree (krcalc : T_KRCalc) (t : T_KRCalcTree) (status : Z) : T_KRCalc :=
  mkCalc (calc_format krcalc) (calc_string krcalc) (Some t) status.

Definition kr_calc_check (krcalc : T_KRCalc) : M St (Z * T_KRCalc) :=
  t ← lift (of_option NullDeref (calc_tree krcalc));
  '(rc, t, status) ← kr_calc_tree_check t (calc_status krcalc);
  if negb (rc =? 0) then mret (-1, with_tree krcalc t status)
  else mret (0, with_tree krcalc t status).

Definition kr_calc_eval (krcalc : T_KRCalc) : M St (Z * T_KRCalc) :=
  t ← lift (of_option NullDeref (calc_tree krcalc));
  '(rc, t, status) ← kr_calc_tree_eval objects regexec get_type_cb get_value_cb t
                       (calc_status krcalc);
  if negb (rc =? 0) then mret (-1, with_tree krcalc t status)
  else mret (0, with_tree krcalc t status).

End Calc.

Definition kr_calc_status (krcalc : T_KRCalc) : Z := calc_status krcalc.
Definition calc_root (krcalc : T_KRCalc) : res T_KRCalcNode :=
  t ← of_option NullDeref (calc_tree krcalc); Ok (node t).
Definition kr_calc_type (krcalc : T_KRCalc) : res E_KRType :=
  n ← calc_root krcalc; Ok (type n).
Definition kr_calc_ind (krcalc : T_KRCalc) : res E_KRValueInd :=
  n ← calc_root krcalc; Ok (ind n).
Definition kr_calc_value (krcalc : T_KRCalc) : res (U_KRValue addr) :=
  n ← calc_root krcalc; Ok (value n).


(** * The fuel of the parser is no bound

    The depth of an item is enough: more fuel changes nothing. *)

Lemma json_depth_child j c : c ∈ items j -> (S (json_depth c) <= json_depth j)%nat.
Proof.
  destruct j as [t s i d n l]. simpl. intros Hc. apply le_n_S.
  induction l as [|x l IH]; [by apply not_elem_of_nil in Hc|].
  apply elem_of_cons in Hc as [-> |Hc]; [lia|]. specialize (IH Hc). lia.
Qed.

Lemma object_item_in j s c : cJSON_GetObjectItem j s = Some c -> c ∈ items j.
Proof. intros H. apply List.find_some in H as [H _]. by apply list_elem_of_In. Qed.

Lemma parse_children_ext f g cs t os :
  (forall c os, c ∈ cs -> f c os = g c os) -> parse_children f t cs os = parse_children g t cs os.
Proof.
  revert t os. induction cs as [|c cs IH]; intros t os Hfg; [done|]. simpl. unfold mbind, M_bind.
  rewrite Hfg by set_solver. destruct (g c os) as [[[n|] os']|]; [|done|done].
  apply IH. intros. apply Hfg. set_solver.
Qed.

Lemma parse_fuel_irrelevant regcomp j fuel os :
  (json_depth j <= fuel)%nat ->
  _kr_calc_parse_json regcomp fuel j os = _kr_calc_parse_json regcomp (json_depth j) j os.
Proof.
  remember (json_depth j) as n eqn:Hn. assert (Hle : (json_depth j <= n)%nat) by lia. clear Hn.
  revert j fuel os Hle. induction n as [|n IH]; intros j fuel os Hle Hf.
  { destruct j; simpl in Hle; lia. }
  destruct fuel as [|fuel]; [lia|]. simpl.
  destruct (cJSON_GetObjectItem j "op") as [o|]; [|done].
  unfold mbind, M_bind. destruct (lift (kr_calcjson_getint o) os) as [[c os']|]; [|done].
  unfold kr_calc_parse_exp. destruct (op_of_code c); [|done]. unfold mbind, M_bind.
  destruct (cJSON_GetObjectItem j "child") as [ch|] eqn:Hch; [|done]. simpl.
  apply parse_children_ext. intros c' os2 Hc'.
  pose proof (json_depth_child _ _ (object_item_in _ _ _ Hch)).
  pose proof (json_depth_child _ _ Hc'). by apply IH; lia.
Qed.

(** * What a tree says

    The addresses of the objects replaced by what is stored there. *)

Inductive meaning :=
  | MOp (o : option E_KRCalcOp)
  | MValue (v : U_KRValue addr)
  | MObject (o : option calc_obj)
  | MId (i : Z).
Inductive expr := Expr (k : E_KRCalcKind) (m : meaning) (args : list expr).

Definition is_object_kind (k : E_KRCalcKind) : bool :=
  match k with
  | KR_CALCKIND_MINT | KR_CALCKIND_MFLOAT | KR_CALCKIND_MSTRING | KR_CALCKIND_REGEX => true
  | _ => false
  end.

Definition object_addr (n : T_KRCalcNode) : option addr :=
  if is_object_kind (kind n) then match value n with KRPointer p => p | _ => None end else None.

Definition meaning_of (os : objs) (n : T_KRCalcNode) : meaning :=
  match kind n with
  | KR_CALCKIND_REL | KR_CALCKIND_ARITH | KR_CALCKIND_LOGIC => MOp (op n)
  | KR_CALCKIND_INT | KR_CALCKIND_FLOAT | KR_CALCKIND_STRING => MValue (value n)
  | KR_CALCKIND_MINT | KR_CALCKIND_MFLOAT | KR_CALCKIND_MSTRING | KR_CALCKIND_REGEX =>
      MObject (object_addr n ≫= fun p => os !! p)
  | _ => MId (id n)
  end.

Fixpoint expr_of (os : objs) (t : T_KRCalcTree) : expr :=
  match t with Tree n cs => Expr (kind n) (meaning_of os n) (map (expr_of os) cs) end.

(** The sets and expressions of a tree, in the order of the traversal. *)
Fixpoint owned (t : T_KRCalcTree) : list addr :=
  match t with Tree n cs => (cs ≫= owned) ++ option_list (object_addr n) end.

(** The trees the format can tell: an operator of the kind of its node, numbers of the
    C types, sets and expressions made from the text they are named by. *)
Section Dumpable.
Context (regcomp : string -> bool).

Definition makes_set (os : objs) (n : T_KRCalcNode) (ty : E_KRType) : Prop :=
  exists p s, value n = KRPointer (Some p) /\ os !! p = Some (OSet s) /\
    kr_hashset_make ty (hs_name s) = Ok s.

Definition node_dumpable (os : objs) (n : T_KRCalcNode) (cs : list T_KRCalcTree) : Prop :=
  match kind n with
  | KR_CALCKIND_REL | KR_CALCKIND_ARITH | KR_CALCKIND_LOGIC =>
      exists o, op n = Some o /\ kind (exp_node o) = kind n
  | KR_CALCKIND_INT => cs = [] /\ exists i, value n = KRInt i /\ INT_MIN <= i <= INT_MAX
  | KR_CALCKIND_FLOAT => cs = [] /\ exists d, value n = KRDouble d
  | KR_CALCKIND_STRING => cs = [] /\ exists s, value n = KRString (Some s)
  | KR_CALCKIND_MINT => cs = [] /\ makes_set os n KR_TYPE_INT
  | KR_CALCKIND_MFLOAT => cs = [] /\ makes_set os n KR_TYPE_DOUBLE
  | KR_CALCKIND_MSTRING => cs = [] /\ makes_set os n KR_TYPE_STRING
  | KR_CALCKIND_REGEX =>
      cs = [] /\ exists p r, value n = KRPointer (Some p) /\ os !! p = Some (ORegex r) /\
        regcomp r = true
  | _ => cs = [] /\ INT_MIN <= id n <= INT_MAX
  end.

Fixpoint dumpable (os : objs) (t : T_KRCalcTree) : Prop :=
  match t with Tree n cs => node_dumpable os n cs /\ foldr (fun c P => dumpable os c /\ P) True cs end.

Lemma dumpable_children os n cs :
  dumpable os (Tree n cs) -> node_dumpable os n cs /\ Forall (dumpable os) cs.
Proof.
  intros [Hn Hcs]. split; [done|]. clear Hn.
  induction cs as [|c cs IH]; constructor; destruct Hcs; auto.
Qed.

(** The dump of a node without children, and what is parsed from it. *)
Definition element (k : E_KRCalcKind) (v : cJSON) : cJSON :=
  cJSON_AddItemToObject
    (cJSON_AddNumberToObject cJSON_CreateObject "kind" (d_of_Z (kind_code k))) "value" v.

Lemma element_parse k v os :
  _kr_calc_parse_json regcomp (json_depth (element k v)) (element k v) os =
  kr_calc_parse_ele regcomp (kind_code k)
    (cJSON_GetObjectItem (element k v) "value") os.
Proof.
  destruct v as [t s d n c]. unfold element, cJSON_AddItemToObject. simpl. unfold mbind, M_bind.
  destruct k; reflexivity.
Qed.

Lemma element_value k v :
  cJSON_GetObjectItem (element k v) "value" =
  Some (with_name (Some "value"%string) v).
Proof. by destruct v. Qed.

Lemma kind_of_code_code k : kind_of_code (kind_code k) = Some k.
Proof. by destruct k. Qed.
Lemma op_of_code_code o : op_of_code (op_code o) = Some o.
Proof. by destruct o. Qed.
Lemma op_code_range o : INT_MIN <= op_code o <= INT_MAX.
Proof. destruct o; by vm_compute. Qed.

End Dumpable.

(** * The objects of a parsed tree

    [added os l os']: [os'] is [os] with new objects at the addresses [l]. *)

Definition added (os : objs) (l : list addr) (os' : objs) : Prop :=
  NoDup l /\ (forall p, p ∈ l -> os !! p = None /\ is_Some (os' !! p)) /\
  (forall p, p ∉ l -> os' !! p = os !! p).

Lemma added_nil os : added os [] os.
Proof. split; [constructor|]. split; [|done]. intros p Hp. by apply not_elem_of_nil in Hp. Qed.

Lemma added_app os l1 os1 l2 os2 :
  added os l1 os1 -> added os1 l2 os2 -> added os (l1 ++ l2) os2.
Proof.
  intros (Hn1 & Hi1 & Ho1) (Hn2 & Hi2 & Ho2).
  assert (Hd : forall p, p ∈ l1 -> p ∉ l2).
  { intros p H1 H2. destruct (Hi1 p H1) as [_ [? Hx]]. destruct (Hi2 p H2) as [Hy _]. congruence. }
  split; [by apply NoDup_app; auto|]. split.
  - intros p [Hp|Hp]%elem_of_app.
    + destruct (Hi1 p Hp) as [Ha Hb]. split; [done|]. rewrite (Ho2 p (Hd p Hp)). done.
    + destruct (Hi2 p Hp) as [Ha Hb]. split; [|done].
      rewrite <- (Ho1 p); [done|]. intros H1. by apply (Hd p).
  - intros p Hp. rewrite not_elem_of_app in Hp. rewrite Ho2, Ho1; naive_solver.
Qed.

Lemma added_subseteq os l os' : added os l os' -> os ⊆ os'.
Proof.
  intros (_ & Hi & Ho). apply map_subseteq_spec. intros p o Hp.
  destruct (decide (p ∈ l)) as [Hl|Hl]; [|by rewrite Ho].
  destruct (Hi p Hl) as [Hnone _]. assert (Some o = None) by (by rewrite <- Hnone, <- Hp). done.
Qed.

Lemma alloc_added o os p os' : alloc_obj o os = Ok (p, os') ->
  added os [p] os' /\ os' !! p = Some o.
Proof.
  intros [= <- <-]. pose proof (is_fresh (dom os)) as Hf. apply not_elem_of_dom in Hf.
  split; [|by rewrite lookup_insert_eq]. split; [apply NoDup_singleton|]. split.
  - intros p ->%list_elem_of_singleton. by rewrite lookup_insert_eq.
  - intros p Hp. rewrite list_elem_of_singleton in Hp. by rewrite lookup_insert_ne.
Qed.

(** Releasing them gives the old store back. *)
Definition release (os : objs) (l : list addr) : objs := foldl (fun m p => delete p m) os l.

Lemma lookup_release l os p : release os l !! p = if decide (p ∈ l) then None else os !! p.
Proof.
  revert os. induction l as [|q l IH]; intros os; [done|]. simpl. rewrite IH.
  destruct (decide (p = q)) as [-> |Hne].
  - rewrite lookup_delete_eq. repeat case_decide; set_solver.
  - rewrite lookup_delete_ne by done. repeat case_decide; set_solver.
Qed.

Lemma release_added os l os' : added os l os' -> release os' l = os.
Proof.
  intros (_ & Hi & Ho). apply map_eq. intros p. rewrite lookup_release.
  case_decide as Hp; [by destruct (Hi p Hp) as [-> _]|by apply Ho].
Qed.

(** Nodes as the parser leaves them: an object is held by address, a set of the caller
    not yet. *)
Definition node_parsed (n : T_KRCalcNode) : Prop :=
  (is_object_kind (kind n) = true -> exists p, value n = KRPointer p) /\
  (kind n = KR_CALCKIND_SET -> value n = KRZero).
Fixpoint parsed (t : T_KRCalcTree) : Prop :=
  match t with Tree n cs => node_parsed n /\ foldr (fun c P => parsed c /\ P) True cs end.

Lemma parsed_children n cs : parsed (Tree n cs) <-> node_parsed n /\ Forall parsed cs.
Proof.
  simpl. assert (foldr (fun c P => parsed c /\ P) True cs <-> Forall parsed cs) as ->; [|done].
  induction cs as [|c cs IH]; simpl; [done|]. rewrite IH, Forall_cons. done.
Qed.

Lemma free_node n cs os :
  node_parsed n -> (forall p, object_addr n = Some p -> is_Some (os !! p)) ->
  _kr_calc_tree_free cs n tt os = Ok (0, n, tt, release os (option_list (object_addr n))).
Proof.
  intros [Ho Hs] Hin. unfold _kr_calc_tree_free, object_addr in *.
  destruct (kind n) eqn:Hk; simpl in *; try done.
  1-4: destruct (Ho eq_refl) as [p Hv]; rewrite Hv in *; simpl; unfold mbind, M_bind; simpl;
    destruct p as [p|]; [|done]; simpl; destruct (Hin p eq_refl) as [o Hp]; rewrite Hp; done.
  rewrite (Hs eq_refl). done.
Qed.

Lemma free_tree t os :
  parsed t -> NoDup (owned t) -> (forall p, p ∈ owned t -> is_Some (os !! p)) ->
  kr_calc_tree_traverse t tt None (Some _kr_calc_tree_free) os =
  Ok (0, t, tt, release os (owned t)).
Proof.
  revert os. induction t as [n cs IH] using tree_rose_ind. intros os Hp Hnd Hin.
  apply parsed_children in Hp as [Hpn Hpcs]. rewrite traverse_Tree.
  assert (Hcs : forall os, NoDup (cs ≫= owned) -> (forall p, p ∈ cs ≫= owned -> is_Some (os !! p)) ->
    traverse_children cs tt None (Some _kr_calc_tree_free) os =
    Ok (0, cs, tt, release os (cs ≫= owned))).
  { clear Hnd Hin Hpn os. induction IH as [|c cs Hc _ IHl]; intros os Hnd Hin; [done|].
    apply Forall_cons in Hpcs as [Hpc Hpcs]. simpl in *. apply NoDup_app in Hnd as (Hn1 & Hd & Hn2).
    unfold mbind at 1, M_bind. rewrite Hc; [|done|done|intros; apply Hin; set_solver]. simpl.
    unfold mbind, M_bind. rewrite IHl; [|done|done|].
    - simpl. unfold release. by rewrite foldl_app.
    - intros p Hp. rewrite lookup_release, decide_False by naive_solver. apply Hin. set_solver. }
  simpl in Hnd, Hin. apply NoDup_app in Hnd as (Hn1 & Hd & Hn2).
  unfold mbind at 1, M_bind. rewrite Hcs; [|done|intros; apply Hin; set_solver]. simpl.
  unfold mbind, M_bind. rewrite free_node; [|done|].
  - simpl. unfold release. by rewrite foldl_app.
  - intros p Hp. rewrite lookup_release, decide_False.
    + apply Hin. rewrite elem_of_app, Hp. right. by apply list_elem_of_singleton.
    + intros Hc. apply (Hd p Hc). rewrite Hp. by apply list_elem_of_singleton.
Qed.

(** A computation of the parser that adds the objects of its tree. *)
Definition adds (os : objs) (r : res (option T_KRCalcTree * objs)) : Prop :=
  match r with
  | Ok (Some t, os') => added os (owned t) os' /\ parsed t
  | _ => True
  end.

Lemma make_set_added ty s os p os' :
  make_set ty s os = Ok (p, os') ->
  added os [p] os' /\ exists name hs, s = Some name /\ kr_hashset_make ty name = Ok hs /\
    os' !! p = Some (OSet hs).
Proof.
  unfold make_set, mbind, M_bind. destruct s as [name|]; [|done]. simpl. unfold lift.
  destruct (kr_hashset_make ty name) as [hs|] eqn:Hm; [|done].
  intros [Ha Hp]%alloc_added. split; [done|]. by exists name, hs.
Qed.

Lemma parse_children_adds parse tree cs os t' os' :
  (forall c os, adds os (parse c os)) ->
  parse_children parse tree cs os = Ok (Some t', os') ->
  exists cs', t' = Tree (node tree) (children tree ++ cs') /\ added os (cs' ≫= owned) os' /\
    Forall parsed cs'.
Proof.
  intros Hp. revert tree os. induction cs as [|c cs IH]; intros tree os; simpl.
  { intros [= <- <-]. exists []. rewrite app_nil_r. destruct tree. split; [done|].
    split; [apply added_nil|constructor]. }
  unfold mbind, M_bind. specialize (Hp c os) as Hc. destruct (parse c os) as [[[n|] os1]|]; try done.
  intros H. destruct (IH _ _ H) as (cs' & -> & Ha & Hf). destruct Hc as [Hca Hcp].
  exists (n :: cs'). split; [simpl; by rewrite <- app_assoc|]. split; [by eapply added_app|].
  by constructor.
Qed.

Lemma parse_ele_adds regcomp k j os : adds os (kr_calc_parse_ele regcomp k j os).
Proof.
  unfold kr_calc_parse_ele. unfold mbind at 1, M_bind at 1. destruct j as [j|]; [|done].
  simpl. destruct (kind_of_code k) as [kd|]; [|done].
  assert (Hset : forall ty s f,
    (forall p, exists t, f p = mret (Some t) /\ owned t = [p] /\ parsed t) ->
    adds os ((make_set ty s ≫= f) os)).
  { intros ty s f Hf. unfold mbind, M_bind.
    destruct (make_set ty s os) as [[p os1]|] eqn:H; [|done].
    apply make_set_added in H as [Ha _]. destruct (Hf p) as (t & -> & Ho & Ht).
    simpl. by rewrite Ho. }
  assert (Hnum : forall A (r : res A) f,
    (forall a, exists t, f a = mret (Some t) /\ owned t = [] /\ parsed t) ->
    adds os ((lift r ≫= f) os)).
  { intros A r f Hf. unfold mbind, M_bind, lift. destruct r as [a|]; [|done].
    destruct (Hf a) as (t & -> & Ho & Ht). simpl. rewrite Ho. split; [apply added_nil|done]. }
  destruct kd; simpl; try done;
    try (apply Hnum; intros; eexists; split; [done|split; [done|split; [split; done|done]]]);
    try (apply Hset; intros; eexists; split; [done|split; [done|split; [split; [by eexists|done]|done]]]).
  - split; [apply added_nil|]. split; [split; done|done].
  - unfold kr_regex_compile, mbind, M_bind. destruct (kr_calcjson_getstring j) as [r|]; [|done].
    simpl. destruct (regcomp r); simpl.
    + destruct (alloc_added (ORegex r) os _ _ eq_refl) as [Ha _]. split; [exact Ha|].
      split; [|done]. split; [by eexists|done].
    + split; [apply added_nil|]. split; [|done]. split; [by eexists|done].
Qed.

Lemma parse_adds regcomp fuel j os : adds os (_kr_calc_parse_json regcomp fuel j os).
Proof.
  revert j os. induction fuel as [|fuel IH]; intros j os; [done|]. simpl.
  destruct (cJSON_GetObjectItem j "op") as [o|].
  - unfold mbind, M_bind, lift. destruct (kr_calcjson_getint o) as [c|]; [|done].
    unfold kr_calc_parse_exp. destruct (op_of_code c) as [oc|]; [|done].
    unfold mbind, M_bind, lift. destruct (cJSON_GetObjectItem j "child") as [ch|]; [|done]. simpl.
    destruct (parse_children _ _ _ os) as [[[t|] os']|] eqn:H; try done.
    destruct (parse_children_adds _ _ _ _ _ _ IH H) as (cs' & -> & Ha & Hf).
    simpl app. split.
    + simpl. by destruct oc; rewrite app_nil_r.
    + apply parsed_children. split; [|done]. by destruct oc.
  - destruct (cJSON_GetObjectItem j "kind") as [kj|]; [|done].
    unfold mbind, M_bind, lift. destruct (kr_calcjson_getint kj) as [k|]; [|done].
    apply parse_ele_adds.
Qed.

(** A calculator made from JSON text and destroyed leaves the store of sets and
    regular expressions as it found it: nothing leaks, nothing is freed twice. *)
Theorem kr_calc_construct_destruct regcomp parse_flex calcstr os krcalc os' :
  kr_calc_construct regcomp parse_flex KR_CALCFORMAT_JSON calcstr os =
    Ok (Some krcalc, os') ->
  kr_calc_destruct (Some krcalc) os' = Ok (tt, os).
Proof.
  unfold kr_calc_construct, kr_calc_parse, kr_calc_parse_json, mbind, M_bind. simpl.
  unfold lift. destruct (cJSON_Parse _) as [[j|]|]; [|done..].
  pose proof (parse_adds regcomp (json_depth j) j os) as Ha.
  destruct (_kr_calc_parse_json _ _ _ os) as [[[t|] os1]|]; try done.
  simpl. intros [= <- <-]. destruct Ha as [Ha Hp]. simpl. unfold mbind, M_bind.
  pose proof Ha as (Hnd & Hin & _). rewrite free_tree; [|done|done|by intros p [_ H]%Hin].
  by rewrite (release_added _ _ _ Ha).
Qed.

(** * The dump is parsed back *)

Section RoundTrip.
Context (regcomp : string -> bool).
Notation dump := (_kr_calc_dump_json (fun _ => 0)).
Notation parse := (_kr_calc_parse_json regcomp).

Definition is_operator (k : E_KRCalcKind) : bool :=
  match k with KR_CALCKIND_REL | KR_CALCKIND_ARITH | KR_CALCKIND_LOGIC => true | _ => false end.

(** The dump of an operator over the dumps of its operands. *)
Definition exp_item (o : E_KRCalcOp) (js : list cJSON) : cJSON :=
  cJSON_AddItemToObject (cJSON_AddNumberToObject cJSON_CreateObject "op" (d_of_Z (op_code o)))
    "child" (CJson cJSON_Array None 0 d_zero None js).

Lemma dump_operator os n cs js o :
  is_operator (kind n) = true -> op n = Some o ->
  Forall2 (fun c j => dump os c = Ok j) cs js -> dump os (Tree n cs) = Ok (exp_item o js).
Proof.
  intros Hk Ho Hjs.
  assert (Hgo : forall i acc, 0 <= i ->
    (fix go (l : list T_KRCalcTree) (i : Z) (childs : cJSON) : res cJSON :=
       match l with
       | [] => Ok childs
       | c :: l' =>
           if i <? 0 then go l' (i + 1) childs
           else j ← dump os c; go l' (i + 1) (cJSON_AddItemToArray childs j)
       end) cs i (CJson cJSON_Array None 0 d_zero None acc) =
    Ok (CJson cJSON_Array None 0 d_zero None (acc ++ js))).
  { induction Hjs as [|c j cs js Hc _ IH]; intros i acc Hi; [by rewrite app_nil_r|].
    assert (i <? 0 = false) as -> by lia. rewrite Hc. simpl. rewrite IH by lia.
    by rewrite <- app_assoc. }
  destruct n as [k o' i ty ind v]. simpl in *. subst o'. unfold cJSON_CreateArray, of_type.
  destruct k; try done; simpl; rewrite Hgo by lia; done.
Qed.


(** What the parser makes of the dump of [t]: from any store, a tree that says the
    same. *)
Definition parsed_back (os : objs) (t : T_KRCalcTree) (j : cJSON) : Prop :=
  forall fuel os1, (json_depth j <= fuel)%nat ->
  exists t' os2, parse fuel j os1 = Ok (Some t', os2) /\
    forall os3, os2 ⊆ os3 -> expr_of os3 t' = expr_of os t.

Lemma dump_element os n j0 :
  match kind n with
  | KR_CALCKIND_REL | KR_CALCKIND_ARITH | KR_CALCKIND_LOGIC => False
  | KR_CALCKIND_INT => exists i, value n = KRInt i /\ j0 = cJSON_CreateNumber (d_of_Z i)
  | KR_CALCKIND_FLOAT => exists d, value n = KRDouble d /\ j0 = cJSON_CreateNumber d
  | KR_CALCKIND_STRING => exists s, value n = KRString (Some s) /\ j0 = cJSON_CreateString s
  | KR_CALCKIND_MINT | KR_CALCKIND_MFLOAT | KR_CALCKIND_MSTRING =>
      exists p s, value n = KRPointer (Some p) /\ os !! p = Some (OSet s) /\
        j0 = cJSON_CreateString (hs_name s)
  | KR_CALCKIND_REGEX =>
      exists p r, value n = KRPointer (Some p) /\ os !! p = Some (ORegex r) /\
        j0 = cJSON_CreateString r
  | _ => j0 = cJSON_CreateNumber (d_of_Z (id n))
  end ->
  dump os (Tree n []) = Ok (element (kind n) j0).
Proof.
  destruct n as [k o i ty ind v]. simpl.
  destruct k; try done; intros H;
    repeat match type of H with ex _ => destruct H as [? H] | _ /\ _ => destruct H as [? H] end;
    subst; simpl;
    unfold set_name, get_set, get_regex; simpl; try done;
    repeat match goal with H : _ !! _ = Some _ |- _ => rewrite H; simpl end; done.
Qed.

(** A new object that is the old one. *)
Lemma expr_of_object os n p o os2 os3 p' :
  is_object_kind (kind n) = true -> value n = KRPointer (Some p) -> os !! p = Some o ->
  os2 !! p' = Some o -> os2 ⊆ os3 ->
  expr_of os3 (Tree (mkNode (kind n) None 0 KR_TYPE_POINTER KR_VALUE_SETED
                       (KRPointer (Some p'))) []) = expr_of os (Tree n []).
Proof.
  intros Hk Hv Hp Hp' Hsub. simpl. f_equal. unfold meaning_of, object_addr. simpl.
  rewrite Hv. pose proof (lookup_weaken _ _ _ _ Hp' Hsub) as H3.
  destruct (kind n); try done; simpl; by rewrite H3, Hp.
Qed.

Lemma make_set_back os1 ty s hs :
  kr_hashset_make ty s = Ok hs ->
  exists p os2, make_set ty (Some s) os1 = Ok (p, os2) /\ os2 !! p = Some (OSet hs).
Proof.
  intros Hm. unfold make_set, mbind, M_bind. simpl. rewrite Hm. simpl.
  exists (fresh (dom os1)). eexists. split; [done|]. by rewrite lookup_insert_eq.
Qed.

Lemma element_parsed_back os n j0 :
  (forall os1, exists t' os2, kr_calc_parse_ele regcomp (kind_code (kind n))
     (Some (with_name (Some "value"%string) j0)) os1 =
     Ok (Some t', os2) /\ forall os3, os2 ⊆ os3 -> expr_of os3 t' = expr_of os (Tree n [])) ->
  parsed_back os (Tree n []) (element (kind n) j0).
Proof.
  intros H fuel os1 Hf. rewrite parse_fuel_irrelevant by done.
  rewrite element_parse, element_value. apply H.
Qed.

Lemma literal_parsed_back os n j0 t' :
  dump os (Tree n []) = Ok (element (kind n) j0) ->
  (forall os1, kr_calc_parse_ele regcomp (kind_code (kind n))
     (Some (with_name (Some "value"%string) j0)) os1 =
     Ok (Some t', os1)) ->
  (forall os3, expr_of os3 t' = expr_of os (Tree n [])) ->
  exists j, dump os (Tree n []) = Ok j /\ parsed_back os (Tree n []) j.
Proof.
  intros Hd Hp He. exists (element (kind n) j0). split; [done|]. apply element_parsed_back.
  intros os1. exists t', os1. by split.
Qed.

Lemma object_parsed_back os n p o j0 :
  is_object_kind (kind n) = true -> value n = KRPointer (Some p) -> os !! p = Some o ->
  dump os (Tree n []) = Ok (element (kind n) j0) ->
  (forall os1, exists p' os2, kr_calc_parse_ele regcomp (kind_code (kind n))
     (Some (with_name (Some "value"%string) j0)) os1 =
     Ok (Some (Tree (mkNode (kind n) None 0 KR_TYPE_POINTER KR_VALUE_SETED
                       (KRPointer (Some p'))) []), os2) /\ os2 !! p' = Some o) ->
  exists j, dump os (Tree n []) = Ok j /\ parsed_back os (Tree n []) j.
Proof.
  intros Ho Hv Hp Hdump Hparse. exists (element (kind n) j0). split; [done|].
  apply element_parsed_back. intros os1. destruct (Hparse os1) as (p' & os2 & He & Hp').
  do 2 eexists. split; [exact He|]. intros os3 Hsub. by eapply expr_of_object.
Qed.

Lemma set_parsed_back os n ty :
  kind n = KR_CALCKIND_MINT /\ ty = KR_TYPE_INT \/ kind n = KR_CALCKIND_MFLOAT /\ ty = KR_TYPE_DOUBLE \/
    kind n = KR_CALCKIND_MSTRING /\ ty = KR_TYPE_STRING ->
  makes_set os n ty ->
  exists j, dump os (Tree n []) = Ok j /\ parsed_back os (Tree n []) j.
Proof.
  intros Hk (p & s & Hv & Hp & Hm).
  assert (Hd := dump_element os n (cJSON_CreateString (hs_name s))).
  apply (object_parsed_back os n p (OSet s) (cJSON_CreateString (hs_name s)));
    [by destruct Hk as [[-> _]|[[-> _]|[-> _]]]|done|done| |].
  - apply Hd. destruct Hk as [[-> _]|[[-> _]|[-> _]]]; by exists p, s.
  - intros os1. destruct (make_set_back os1 ty _ _ Hm) as (p' & os2 & Hs & Hp').
    exists p', os2. split; [|done].
    destruct Hk as [[-> ->]|[[-> ->]|[-> ->]]]; unfold kr_calc_parse_ele; simpl;
      unfold mbind, M_bind; simpl; by rewrite Hs.
Qed.

(** A node without children. *)
Lemma leaf_parsed_back os n :
  is_operator (kind n) = false -> node_dumpable regcomp os n [] ->
  exists j, dump os (Tree n []) = Ok j /\ parsed_back os (Tree n []) j.
Proof.
  intros Hk Hd. unfold node_dumpable in Hd.
  assert (Hde := dump_element os n). assert (Hlit := literal_parsed_back os n).
  assert (Hobj := object_parsed_back os n). assert (Hset := set_parsed_back os n).
  assert (Hid : forall i, INT_MIN <= i <= INT_MAX -> d_to_i32 (d_of_Z i) = Ok i)
    by apply d_to_i32_of_Z.
  destruct (kind n) eqn:Hkind; try done; destruct Hd as [_ Hd];
    try (eapply Hlit; [by apply Hde| |];
      [ intros os1; unfold kr_calc_parse_ele, kr_calcjson_getint, mbind, M_bind; simpl;
        rewrite Hid by done; done
      | intros os3; simpl; unfold meaning_of; by rewrite Hkind ]).
  - destruct Hd as (i & Hv & Hi).
    eapply Hlit; [apply Hde; by eauto| |].
    + intros os1. unfold kr_calc_parse_ele, kr_calcjson_getint, mbind, M_bind. simpl. 
      rewrite Hid by done. done.
    + intros os3. simpl. unfold meaning_of. by rewrite Hkind, Hv.
  - destruct Hd as (d & Hv). eapply Hlit; [apply Hde; by eauto|done|].
    intros os3. simpl. unfold meaning_of. by rewrite Hkind, Hv.
  - destruct Hd as (d & Hv). eapply Hlit; [apply Hde; by eauto|done|].
    intros os3. simpl. unfold meaning_of. by rewrite Hkind, Hv.
  - apply (Hset KR_TYPE_INT); auto.
  - apply (Hset KR_TYPE_DOUBLE); auto.
  - apply (Hset KR_TYPE_STRING); auto 6.
  - destruct Hd as (p & r & Hv & Hp & Hr).
    eapply Hobj; [done|done|done|apply Hde; by eauto|].
    intros os1. exists (fresh (dom os1)). eexists.
    unfold kr_calc_parse_ele, kr_regex_compile, mbind, M_bind. simpl. rewrite Hr. simpl.
    split; [done|]. by rewrite lookup_insert_eq.
Qed.

Lemma item_of_exp o js :
  cJSON_GetObjectItem (exp_item o js) "op" =
    Some (with_name (Some "op"%string) (cJSON_CreateNumber (d_of_Z (op_code o)))) /\
  cJSON_GetObjectItem (exp_item o js) "child" =
    Some (CJson cJSON_Array None 0 d_zero (Some "child"%string) js).
Proof. done. Qed.

Lemma children_parsed_back os cs js :
  Forall2 (fun c j => parsed_back os c j) cs js ->
  forall tree fuel os1, Forall (fun j => json_depth j <= fuel)%nat js ->
  exists cs' os2,
    parse_children (parse fuel) tree js os1 =
      Ok (Some (Tree (node tree) (children tree ++ cs')), os2) /\
    forall os3, os2 ⊆ os3 -> map (expr_of os3) cs' = map (expr_of os) cs.
Proof.
  intros H. induction H as [|c j cs js Hc _ IH]; intros tree fuel os1 Hf.
  { exists [], os1. simpl. rewrite app_nil_r. by destruct tree. }
  apply Forall_cons in Hf as [Hfj Hf].
  destruct (Hc fuel os1 Hfj) as (t' & os2 & Hp & He).
  destruct (IH (kr_calc_tree_append tree t') fuel os2 Hf) as (cs' & os3 & Hps & Hes).
  exists (t' :: cs'), os3. split.
  - simpl. unfold mbind, M_bind. rewrite Hp, Hps. simpl. by rewrite <- app_assoc.
  - intros os4 Hsub. simpl. rewrite (Hes os4 Hsub), He; [done|].
    etransitivity; [|exact Hsub].
    destruct (parse_children_adds _ _ _ _ _ _ (parse_adds regcomp fuel) Hps) as (? & _ & Ha & _).
    by eapply added_subseteq.
Qed.

Lemma dump_parse os t :
  dumpable regcomp os t -> exists j, dump os t = Ok j /\ parsed_back os t j.
Proof.
  induction t as [n cs IH] using tree_rose_ind. intros [Hn Hcs]%dumpable_children.
  destruct (is_operator (kind n)) eqn:Hk.
  - assert (exists js, Forall2 (fun c j => dump os c = Ok j) cs js /\
                       Forall2 (fun c j => parsed_back os c j) cs js) as (js & Hd & Hb).
    { clear Hn. induction IH as [|c cs Hc _ IHl]; [by exists []|].
      apply Forall_cons in Hcs as [Hdc Hcs]. destruct (IHl Hcs) as (js & H1 & H2).
      destruct (Hc Hdc) as (j & Hj1 & Hj2). exists (j :: js). by split; constructor. }
    assert (exists o, op n = Some o /\ kind (exp_node o) = kind n) as (o & Ho & Hko).
    { unfold node_dumpable in Hn. by destruct (kind n). }
    exists (exp_item o js). split; [by apply dump_operator|].
    intros fuel os1 Hf. destruct (item_of_exp o js) as [Hop Hch].
    destruct fuel as [|fuel]; [simpl in Hf; lia|].
    assert (Hfc : Forall (fun j => json_depth j <= fuel)%nat js).
    { apply Forall_forall. intros j Hj.
      pose proof (json_depth_child _ _ (object_item_in _ _ _ Hch)).
      pose proof (json_depth_child (CJson cJSON_Array None 0 d_zero (Some "child"%string) js) j Hj).
      lia. }
    destruct (children_parsed_back _ _ _ Hb (Tree (exp_node o) []) fuel os1 Hfc)
      as (cs' & os2 & Hp & He).
    exists (Tree (exp_node o) cs'), os2. split.
    + cbn [_kr_calc_parse_json]. rewrite Hop. unfold kr_calcjson_getint, mbind, M_bind, lift.
      cbn [valuedouble with_name cJSON_CreateNumber]. rewrite d_to_i32_of_Z by apply op_code_range.
      unfold kr_calc_parse_exp. rewrite op_of_code_code, Hch. exact Hp.
    + intros os3 Hsub. simpl. rewrite (He os3 Hsub), Hko. f_equal. unfold meaning_of.
      rewrite Hko, Ho. clear Hop Hch Hf Hp Hfc. by destruct (kind n), o.
  - assert (cs = []) as ->.
    { unfold node_dumpable in Hn. destruct (kind n); try done; by destruct Hn. }
    by apply leaf_parsed_back.
Qed.

(** ** As text *)

(** The value of a node without operands, as JSON: floating constants are not kept by
    their text. *)
Definition leaf_value (os : objs) (n : T_KRCalcNode) : option json :=
  match kind n, value n with
  | KR_CALCKIND_INT, KRInt i => Some (JInt i)
  | KR_CALCKIND_STRING, KRString (Some s) => Some (JStr s)
  | (KR_CALCKIND_MINT | KR_CALCKIND_MFLOAT | KR_CALCKIND_MSTRING | KR_CALCKIND_REGEX), KRPointer (Some p) =>
      match os !! p with
      | Some (OSet s) => Some (JStr (hs_name s))
      | Some (ORegex r) => Some (JStr r)
      | None => None
      end
  | (KR_CALCKIND_CID | KR_CALCKIND_FID | KR_CALCKIND_SID | KR_CALCKIND_DID | KR_CALCKIND_HID
     | KR_CALCKIND_SET), _ => Some (JInt (id n))
  | _, _ => None
  end.

(** A node whose text is read back: no floating constant, and no null in a string. *)
Definition node_printable (os : objs) (n : T_KRCalcNode) : Prop :=
  is_operator (kind n) = true \/ exists v, leaf_value os n = Some v /\ json_ok v.
Fixpoint printable (os : objs) (t : T_KRCalcTree) : Prop :=
  match t with Tree n cs => node_printable os n /\ foldr (fun c P => printable os c /\ P) True cs end.

Lemma kind_code_range k : INT_MIN <= kind_code k <= INT_MAX.
Proof. destruct k; by vm_compute. Qed.

Lemma number_item_create z : INT_MIN <= z <= INT_MAX -> cJSON_CreateNumber (d_of_Z z) = number_item z.
Proof. intros Hz. unfold cJSON_CreateNumber, number_item. by rewrite to_int_of_Z. Qed.

Lemma element_item k v :
  element k (item_of v) = item_of (JObj [("kind"%string, JInt (kind_code k)); ("value"%string, v)]).
Proof.
  unfold element, cJSON_AddNumberToObject. rewrite number_item_create; [done|]. apply kind_code_range.
Qed.

Lemma exp_item_item o vs :
  exp_item o (map item_of vs) = item_of (JObj [("op"%string, JInt (op_code o)); ("child"%string, JArr vs)]).
Proof.
  unfold exp_item, cJSON_AddNumberToObject. rewrite number_item_create; [done|]. apply op_code_range.
Qed.

Lemma leaf_dump os n v :
  node_dumpable regcomp os n [] -> leaf_value os n = Some v -> json_ok v ->
  dump os (Tree n []) = Ok (element (kind n) (item_of v)).
Proof.
  intros Hd Hv Hok. apply dump_element. unfold node_dumpable, leaf_value, makes_set in *.
  assert (Hint : forall i, json_ok (JInt i) -> item_of (JInt i) = cJSON_CreateNumber (d_of_Z i)).
  { intros i Hi. by rewrite number_item_create. }
  destruct (kind n) eqn:Hk; try done;
    try (injection Hv as <-; by rewrite Hint by done);
    repeat match goal with
      | H : _ /\ _ |- _ => destruct H | H : ex _ |- _ => destruct H
      | H : value n = _ |- _ => rewrite H in Hv
      | H : os !! _ = Some _ |- _ => rewrite H in Hv
      end; try done; injection Hv as <-; try rewrite Hint by done; eauto 10.
Qed.

Lemma tree_dump_item os t :
  dumpable regcomp os t -> printable os t -> exists v, dump os t = Ok (item_of (JObj v)) /\ json_ok (JObj v).
Proof.
  induction t as [n cs IH] using tree_rose_ind. intros [Hn Hcs]%dumpable_children [Hp Hps].
  destruct (is_operator (kind n)) eqn:Hk.
  - assert (exists vs, Forall2 (fun c j => dump os c = Ok j) cs (map item_of vs) /\ Forall json_ok vs) as (vs & Hd & Hok).
    { clear Hn Hp. induction IH as [|c cs Hc _ IHl]; [by exists []|].
      apply Forall_cons in Hcs as [Hdc Hcs]. destruct Hps as [Hpc Hps]. destruct (IHl Hcs Hps) as (vs & H1 & H2).
      destruct (Hc Hdc Hpc) as (v & Hv & Hvok). exists (JObj v :: vs). by split; constructor. }
    assert (exists o, op n = Some o) as (o & Ho).
    { unfold node_dumpable in Hn. destruct (kind n); try done; destruct Hn as (o & Ho & _); by exists o. }
    eexists. split; [rewrite (dump_operator _ _ _ _ o Hk Ho Hd); rewrite exp_item_item; reflexivity|].
    refine (conj (conj _ (op_code_range o)) (conj (conj _ _) I)); [by apply plain_bool..|by apply fold_Forall].
  - assert (cs = []) as ->.
    { unfold node_dumpable in Hn. destruct (kind n); try done; by destruct Hn. }
    destruct Hp as [Hp|(v & Hv & Hok)]; [by rewrite Hk in Hp|]. eexists.
    split; [rewrite (leaf_dump os n v Hn Hv Hok), element_item; reflexivity|].
    refine (conj (conj _ (kind_code_range _)) (conj (conj _ Hok) I)); by apply plain_bool.
Qed.

End RoundTrip.

(** Dumped to a JSON item and parsed again, an expression says the same: the same operators, constants, identifiers, and sets and regular
    expressions of the same content in new objects.  The loop variable of the dumper,
    which the code does not initialise, is supposed to hold 0. *)
Lemma kr_calc_json_roundtrip regcomp os t os1 :
  dumpable regcomp os t ->
  exists j t' os2, _kr_calc_dump_json (fun _ => 0) os t = Ok j /\
    _kr_calc_parse_json regcomp (json_depth j) j os1 = Ok (Some t', os2) /\
    expr_of os2 t' = expr_of os t /\ added os1 (owned t') os2.
Proof.
  intros Hd. destruct (dump_parse regcomp os t Hd) as (j & Hj & Hb).
  destruct (Hb (json_depth j) os1 (le_n _)) as (t' & os2 & Hp & He).
  pose proof (parse_adds regcomp (json_depth j) j os1) as Ha. rewrite Hp in Ha.
  destruct Ha as [Ha _]. exists j, t', os2. split; [done|]. split; [done|].
  split; [by apply He|done].
Qed.

(** C23. An expression printed as JSON text, and made from this text again, in the same or
    another process, says the same: the same operators, constants, identifiers, and sets
    and regular expressions of the same content in new objects.  Floating constants, which
    the text cuts, are excluded; the loop variable of the dumper, which the code does not
    initialise, is supposed to hold 0. *)
Theorem kr_calc_text_roundtrip regcomp parse_flex os t os1 :
  dumpable regcomp os t -> printable os t ->
  exists j text t' os2, _kr_calc_dump_json (fun _ => 0) os t = Ok j /\
    cJSON_PrintUnformatted j = Ok (Some text) /\
    kr_calc_construct regcomp parse_flex KR_CALCFORMAT_JSON text os1
      = Ok (Some (mkCalc KR_CALCFORMAT_JSON text (Some t') 0), os2) /\
    expr_of os2 t' = expr_of os t /\ added os1 (owned t') os2.
Proof.
  intros Hd Hp. destruct (tree_dump_item regcomp os t Hd Hp) as (v & Hv & Hok).
  destruct (kr_calc_json_roundtrip regcomp os t os1 Hd) as (j & t' & os2 & Hj & Hparse & He & Ha).
  assert (j = item_of (JObj v)) as -> by congruence.
  exists (item_of (JObj v)), (bytes_string (json_text (JObj v))), t', os2. split; [done|].
  split; [by apply print_text|]. split; [|done].
  unfold kr_calc_construct, kr_calc_parse, kr_calc_parse_json, lift. cbn [calc_format].
  unfold mbind, M_bind. cbn [calc_string]. unfold c_memory.
  rewrite parse_text_string by (done || apply ends_null). by rewrite Hparse.
Qed.

(** A floating constant is printed with six decimals. *)
Lemma kr_calc_float_cut :
  cJSON_PrintUnformatted (cJSON_CreateNumber (d_decimal false 1234567 (-7))) = Ok (Some "0.123457"%string).
Proof. by vm_compute. Qed.

(** An item with an operator and no operands is not refused: the parser
    dereferences [NULL] looking for them. *)
Theorem kr_calc_parse_json_no_child regcomp fuel j o c os :
  cJSON_GetObjectItem j "op" = Some o -> d_to_i32 (valuedouble o) = Ok c ->
  op_of_code c <> None -> cJSON_GetObjectItem j "child" = None ->
  _kr_calc_parse_json regcomp (S fuel) j os = Fault NullDeref.
Proof.
  intros Ho Hc Hop Hch. simpl. rewrite Ho. unfold mbind, M_bind, lift, kr_calcjson_getint.
  rewrite Hc. unfold kr_calc_parse_exp. rewrite Hch. by destruct (op_of_code c).
Qed.

(** Witnesses. *)


Definition sample_calc : string := bytes_string (json_text
  (JObj [("op", JInt 15); ("child", JArr [
     JObj [("kind", JInt 6); ("value", JStr "1,2")]; JObj [("kind", JInt 9); ("value", JStr "ab*")]])]))%string.
Definition no_flex (krcalc : T_KRCalc) : M objs (Z * T_KRCalc) := mret (-1, krcalc).

Definition sample_tree : T_KRCalcTree :=
  Tree (mkNode KR_CALCKIND_LOGIC (Some KR_CALCOP_MATCH) 0 KR_TYPE_BOOL KR_VALUE_UNSET KRZero)
    [Tree (mkNode KR_CALCKIND_CID None 7 KR_TYPE_UNKNOWN KR_VALUE_UNSET KRZero) [];
     Tree (mkNode KR_CALCKIND_REGEX None 0 KR_TYPE_POINTER KR_VALUE_SETED
             (KRPointer (Some 5%positive))) []].
Definition sample_store : objs := {[5%positive := ORegex "ab*"]}.

Lemma kr_calc_construct_destruct_witness :
  exists krcalc os',
    kr_calc_construct (fun _ => true) no_flex KR_CALCFORMAT_JSON sample_calc
      sample_store = Ok (Some krcalc, os') /\ base.size os' = 3%nat /\
    kr_calc_destruct (Some krcalc) os' = Ok (tt, sample_store).
Proof.
  destruct (kr_calc_construct (fun _ => true) no_flex KR_CALCFORMAT_JSON sample_calc
              sample_store) as [[[krcalc|] os']|] eqn:H;
    [| by vm_compute in H | by vm_compute in H].
  exists krcalc, os'. split; [done|]. split.
  - assert (Hs : option_map base.size (match kr_calc_construct (fun _ => true) no_flex
        KR_CALCFORMAT_JSON sample_calc sample_store with Ok (_, s) => Some s | _ => None end) =
        Some 3%nat) by by vm_compute.
    rewrite H in Hs. by injection Hs.
  - by apply (kr_calc_construct_destruct _ _ _ _ _ _ H).
Defined.

Lemma kr_calc_text_roundtrip_witness :
  exists j text t' os2, _kr_calc_dump_json (fun _ => 0) sample_store sample_tree = Ok j /\
    cJSON_PrintUnformatted j = Ok (Some text) /\
    kr_calc_construct (fun _ => true) no_flex KR_CALCFORMAT_JSON text sample_store
      = Ok (Some (mkCalc KR_CALCFORMAT_JSON text (Some t') 0), os2) /\
    expr_of os2 t' = expr_of sample_store sample_tree /\ added sample_store (owned t') os2.
Proof.
  apply kr_calc_text_roundtrip.
  - simpl. split; [by exists KR_CALCOP_MATCH|]. split; [done|].
    split; [|done]. split; [|done]. split; [done|]. by exists 5%positive, "ab*"%string.
  - unfold printable, node_printable. simpl. split; [by left|]. split; [split; [|done]; right|].
    + exists (JInt 7). split; [done|]. by vm_compute.
    + split; [|done]. split; [|done]. right. exists (JStr "ab*"). split; [by vm_compute|]. by apply plain_bool.
Defined.

Lemma kr_calc_parse_json_no_child_witness :
  _kr_calc_parse_json (fun _ => true) 3 (cJSON_AddNumberToObject cJSON_CreateObject "op"
    (d_of_Z 1)) ∅ = Fault NullDeref.
Proof.
  eapply (kr_calc_parse_json_no_child _ 2 _ _ 1); [done|by vm_compute|by vm_compute|done].
Defined.
