(* ===== verification/KrCache.v ===== *)
(** The cache of krutils/kr_cache.c: a list of nodes, the last used one first, and a
    hash table from the keys to the nodes of the list.

    The list is that of KrList, whose values are pointers to the cache's own nodes, in
    a second node map of the heap; the table is that of KrHashtable, whose values are
    pointers to list nodes.  The calls the list makes of its [free] method
    ([kr_cache_node_free]) are run after the list operation that makes them.  Printing
    is not modelled; the time is an argument. *)

From S2P Require Import Prelude KrString KrHashtable KrTypes KrList.
Local Open Scope Z_scope.
#[local] Notation length := List.length.

Section KrCache.
Context {K V : Type} `{EqDecision K}.
Context (key_hash_func : K -> Z) (key_equal_func : option (K -> K -> bool)).

(** * Data *)

Record T_KRCacheNode := mkCacheNode { ckey : K; cvalue : V; hits : Z; last_hit_time : Z }.

(** The functions of the cache are those of [kr_cache_new]: [None] and [false] are
    [NULL] pointers. *)
Record T_KRCache := mkCache {
  max_size : Z;
  list_ : T_KRList (V:=ptr) (U:=unit);
  hash_table : T_KRHashTable (K:=K) (V:=ptr);
  key_dup_func : option (K -> K);
  key_free_func : bool;
  value_dup_func : option (V -> V);
  value_free_func : bool
}.

(** A call of a free function. *)
Variant release := KeyFree (k : K) | ValueFree (v : V).

Record heap := mkHeap {
  lists : store (V:=ptr);
  cnodes : gmap ptr T_KRCacheNode;
  released : list release
}.

Definition with_list (c : T_KRCache) (l : T_KRList) : T_KRCache :=
  mkCache (max_size c) l (hash_table c) (key_dup_func c) (key_free_func c) (value_dup_func c)
    (value_free_func c).
Definition with_table (c : T_KRCache) (t : T_KRHashTable) : T_KRCache :=
  mkCache (max_size c) (list_ c) t (key_dup_func c) (key_free_func c) (value_dup_func c)
    (value_free_func c).
Definition with_max (c : T_KRCache) (n : Z) : T_KRCache :=
  mkCache n (list_ c) (hash_table c) (key_dup_func c) (key_free_func c) (value_dup_func c)
    (value_free_func c).

(** * The nodes of the cache *)

Definition on_list {A} (m : M store A) : M heap A := fun h =>
  match m (lists h) with
  | Ok (a, s) => Ok (a, mkHeap s (cnodes h) (released h))
  | Fault f => Fault f
  end.

Definition read_cnode (p : ptr) : M heap T_KRCacheNode := fun h =>
  match cnodes h !! p with Some n => Ok (n, h) | None => Fault BadPointer end.

Definition write_cnode (p : ptr) (n : T_KRCacheNode) : M heap unit := fun h =>
  Ok (tt, mkHeap (lists h) (<[p := n]> (cnodes h)) (released h)).

Definition kr_cache_node_new (c : T_KRCache) (k : K) (v : V) : M heap ptr := fun h =>
  let p := fresh (dom (cnodes h)) in
  let k := match key_dup_func c with Some dup => dup k | None => k end in
  let v := match value_dup_func c with Some dup => dup v | None => v end in
  Ok (p, mkHeap (lists h) (<[p := mkCacheNode k v 0 0]> (cnodes h)) (released h)).

Definition kr_cache_node_free (c : T_KRCache) (p : ptr) : M heap unit := fun h =>
  match cnodes h !! p with
  | Some n =>
      Ok (tt, mkHeap (lists h) (delete p (cnodes h))
                (released h ++ (if key_free_func c then [KeyFree (ckey n)] else []) ++
                               (if value_free_func c then [ValueFree (cvalue n)] else [])))
  | None => Fault BadPointer
  end.

(** The calls of the list's [free] method noted by its store. *)
Fixpoint run_frees (c : T_KRCache) (ps : list ptr) : M heap unit :=
  match ps with
  | [] => mret tt
  | p :: ps' => kr_cache_node_free c p;; run_frees c ps'
  end.
Definition run_noted (c : T_KRCache) : M heap unit := fun h =>
  run_frees c (freed (lists h)) (mkHeap (mkStore (nodes (lists h)) []) (cnodes h) (released h)).
Definition on_list_freeing {A} (c : T_KRCache) (m : M store A) : M heap A :=
  a ← on_list m; run_noted c;; mret a.

(** * Operations *)

(** [None] for a size of 0. *)
Definition kr_cache_new (cache_size : Z) (kdup : option (K -> K)) (kfree : bool)
    (vdup : option (V -> V)) (vfree : bool) : res (option T_KRCache) :=
  if cache_size <=? 0 then Ok None
  else
    t ← kr_hashtable_new;
    let l := kr_list_new in
    let l := mkList (head l) (tail l) (dup l) true (match_ l) (compare l) (len l) in
    Ok (Some (mkCache cache_size l t kdup kfree vdup vfree)).

Definition kr_cache_free (c : T_KRCache) : M heap unit :=
  on_list_freeing c (kr_list_destroy (list_ c));;
  _ ← lift (kr_hashtable_destroy (hash_table c));
  mret tt.

Fixpoint kr_cache_evict_n_oldest (n : nat) (c : T_KRCache) : M heap T_KRCache :=
  match n with
  | O => mret c
  | S n' =>
      match tail (list_ c) with
      | None => mret c
      | Some oldest =>
          nd ← on_list (read_node (Some oldest));
          cachenode ← read_cnode (value nd);
          '(_, t, _) ← lift (kr_hashtable_remove key_hash_func key_equal_func
                               (Some (hash_table c)) (ckey cachenode));
          t ← lift (of_option NullDeref t);
          l ← on_list_freeing c (kr_list_delete (list_ c) (Some oldest));
          kr_cache_evict_n_oldest n' (with_table (with_list c l) t)
      end
  end.

(** The difference of the sizes is passed as an [int]. *)
Definition kr_cache_set_max_size (c : T_KRCache) (n : Z) : M heap T_KRCache :=
  let old_max_size := max_size c in
  let c := with_max c n in
  if n <? old_max_size
  then kr_cache_evict_n_oldest (Z.to_nat (i32 (u32 (old_max_size - n)))) c
  else mret c.

Definition kr_cache_get_max_size (c : T_KRCache) : Z := max_size c.
Definition kr_cache_get_size (c : T_KRCache) : Z := kr_hashtable_size (Some (hash_table c)).

Definition kr_cache_get (c : T_KRCache) (k : K) (now : Z) : M heap (option V * T_KRCache) :=
  listnode ← lift (kr_hashtable_lookup key_hash_func key_equal_func (Some (hash_table c)) k);
  match listnode with
  | Some _ =>
      l ← on_list (kr_list_move_head (list_ c) listnode);
      nd ← on_list (read_node listnode);
      cachenode ← read_cnode (value nd);
      write_cnode (value nd) (mkCacheNode (ckey cachenode) (cvalue cachenode)
                                (i32 (hits cachenode + 1)) now);;
      mret (Some (cvalue cachenode), with_list c l)
  | None => mret (None, c)
  end.

Definition kr_cache_set (c : T_KRCache) (k : K) (v : V) : M heap T_KRCache :=
  let n := i32 (u32 (kr_hashtable_size (Some (hash_table c)) - max_size c)) in
  c ← (if 0 <=? n then kr_cache_evict_n_oldest (Z.to_nat (i32 (n + 1))) c else mret c);
  cachenode ← kr_cache_node_new c k v;
  l ← on_list (kr_list_add_head (list_ c) cachenode);
  nd ← read_cnode cachenode;
  '(t, _) ← lift (kr_hashtable_replace key_hash_func key_equal_func (hash_table c) (ckey nd)
                    (head l));
  mret (with_table (with_list c l) t).

End KrCache.

Arguments T_KRCache K V : clear implicits.
Arguments heap K V : clear implicits.

(** * Representation

    The entries, the last used one first. *)

Section Rep.
Context {K V C : Type} `{EqDecision K} `{Countable C}.
Context (key_hash_func : K -> Z) (key_equal_func : option (K -> K -> bool)) (repr : K -> C).
Context `{!HashKeys key_hash_func key_equal_func repr}.
Implicit Types (h : heap K V) (c : T_KRCache K V) (es : list (K * V)) (ps : list (ptr * ptr)).

Definition entry_ok h (p : ptr * ptr) (e : K * V) : Prop :=
  exists n, cnodes h !! p.2 = Some n /\ ckey n = e.1 /\ cvalue n = e.2.

(** What the table holds: the key and the list node of each entry. *)
Definition table_of ps es : gmap C (K * option ptr) :=
  list_to_map (zip_with (fun p e => (repr e.1, (e.1, Some p.1))) ps es).

Record cache_rep h c ps es : Prop := {
  cr_list : list_rep (lists h) (list_ c) ps;
  cr_free : has_free (list_ c) = true;
  cr_freed : freed (lists h) = [];
  cr_nodup : NoDup ps.*2;
  cr_entries : Forall2 (entry_ok h) ps es;
  cr_dom : forall p, is_Some (cnodes h !! p) -> p ∈ ps.*2;
  cr_keys : NoDup (repr ∘ fst <$> es);
  cr_table : hashtable_rep key_hash_func repr (hash_table c) (table_of ps es);
  cr_max : Z.of_nat (length es) <= MAX_ENTRIES
}.

Definition bounded c es : Prop := Z.of_nat (length es) <= max_size c /\ 1 <= max_size c <= MAX_ENTRIES.

(** The specification: what each operation does to the sequence of entries. *)
Definition lru_find (k : K) es : option (nat * (K * V)) :=
  list_find (fun e => repr e.1 = repr k) es.

Definition lru_get (k : K) es : option V * list (K * V) :=
  match lru_find k es with
  | Some (i, e) => (Some e.2, e :: delete i es)
  | None => (None, es)
  end.

Definition dup_with {A} (f : option (A -> A)) (x : A) : A :=
  match f with Some g => g x | None => x end.

Definition lru_set (max : Z) (k : K) (v : V) es : list (K * V) :=
  (k, v) :: take (Z.to_nat max - 1) es.

(** * Lemmas *)

Lemma wp_on_list {A} (m : M store A) h (Q : A -> heap K V -> Prop) :
  wp m (lists h) (fun a s => Q a (mkHeap s (cnodes h) (released h))) -> wp (on_list m) h Q.
Proof. unfold wp, on_list. by destruct (m (lists h)) as [[a s]|]. Qed.

Lemma wp_read_cnode h p n (Q : _ -> _ -> Prop) :
  cnodes h !! p = Some n -> Q n h -> wp (read_cnode p) h Q.
Proof. unfold wp, read_cnode. by intros ->. Qed.

Lemma table_of_length ps es :
  length ps = length es ->
  (zip_with (fun p e => (repr e.1, (e.1, Some p.1))) ps es).*1 = repr ∘ fst <$> es.
Proof.
  revert es. induction ps as [|p ps IH]; intros [|e es] Hl; try done. csimpl.
  f_equal. apply IH. by injection Hl.
Qed.

Lemma table_of_lookup ps es p e i :
  length ps = length es -> NoDup (repr ∘ fst <$> es) ->
  ps !! i = Some p -> es !! i = Some e -> table_of ps es !! repr e.1 = Some (e.1, Some p.1).
Proof.
  intros Hl Hnd Hp He. apply elem_of_list_to_map_1.
  - by rewrite table_of_length.
  - apply list_elem_of_lookup. exists i. rewrite lookup_zip_with, Hp, He. done.
Qed.

Lemma table_of_absent ps es k :
  length ps = length es -> (forall e, e ∈ es -> repr e.1 <> repr k) ->
  table_of ps es !! repr k = None.
Proof.
  intros Hl Hk. apply not_elem_of_list_to_map_1. rewrite table_of_length by done.
  intros (e & He & Hin)%list_elem_of_fmap. by apply (Hk e).
Qed.

Lemma table_of_size ps es :
  length ps = length es -> NoDup (repr ∘ fst <$> es) -> base.size (table_of ps es) = length es.
Proof.
  intros Hl Hnd. unfold table_of. rewrite map_size_list_to_map by by rewrite table_of_length.
  rewrite length_zip_with. lia.
Qed.

Lemma table_of_snoc ps es p e :
  length ps = length es -> NoDup (repr ∘ fst <$> (es ++ [e])) ->
  delete (repr e.1) (table_of (ps ++ [p]) (es ++ [e])) = table_of ps es.
Proof.
  intros Hl Hnd. unfold table_of. rewrite zip_with_app by done. simpl.
  rewrite list_to_map_snoc.
  - apply delete_insert_id, not_elem_of_list_to_map_1. rewrite table_of_length by done.
    rewrite fmap_app in Hnd. apply NoDup_app in Hnd as (_ & Hd & _).
    intros Hin. apply (Hd _ Hin). by left.
  - rewrite table_of_length by done. rewrite fmap_app in Hnd.
    apply NoDup_app in Hnd as (_ & Hd & _). intros Hin. apply (Hd _ Hin). by left.
Qed.

Lemma table_of_move ps1 ps2 es1 es2 p e :
  length ps1 = length es1 -> length ps2 = length es2 ->
  NoDup (repr ∘ fst <$> (es1 ++ e :: es2)) ->
  table_of (p :: ps1 ++ ps2) (e :: es1 ++ es2) = table_of (ps1 ++ p :: ps2) (es1 ++ e :: es2).
Proof.
  intros H1 H2 Hnd. unfold table_of. apply list_to_map_proper.
  - rewrite table_of_length by (simpl; rewrite !length_app; lia).
    by rewrite <- Permutation_middle in Hnd.
  - rewrite !zip_with_app by done. simpl. rewrite zip_with_app by done.
    by rewrite Permutation_middle.
Qed.

Definition same_funs c c' : Prop :=
  max_size c' = max_size c /\ key_dup_func c' = key_dup_func c /\
  key_free_func c' = key_free_func c /\ value_dup_func c' = value_dup_func c /\
  value_free_func c' = value_free_func c.

Lemma wp_freeing_one {A} (m : M store A) c h p n (Q : A -> heap K V -> Prop) :
  cnodes h !! p = Some n ->
  wp m (lists h) (fun a s => freed s = [p] /\
    forall r, Q a (mkHeap (mkStore (nodes s) []) (delete p (cnodes h)) r)) ->
  wp (on_list_freeing c m) h Q.
Proof.
  intros Hn Hm. unfold on_list_freeing. apply wp_bind, wp_on_list.
  eapply wp_mono; [exact Hm|]. intros a s [Hf HQ].
  unfold wp, run_noted, mbind, M_bind. simpl. rewrite Hf. simpl.
  unfold mbind, M_bind, kr_cache_node_free. simpl. rewrite Hn. apply HQ.
Qed.

Lemma entries_frame h h' ps es :
  Forall2 (entry_ok h) ps es -> (forall p, p ∈ ps.*2 -> cnodes h' !! p = cnodes h !! p) ->
  Forall2 (entry_ok h') ps es.
Proof.
  intros He Hf. induction He as [|p e ps es (n & Hp & Hn) _ IH]; constructor.
  - exists n. rewrite Hf by (csimpl; by left). done.
  - apply IH. intros q Hq. apply Hf. csimpl. by right.
Qed.

(** The last entry goes: out of the table, out of the list, and its node is freed. *)
Lemma wp_evict_one n h c ps es p e (Q : T_KRCache K V -> heap K V -> Prop) :
  cache_rep h c (ps ++ [p]) (es ++ [e]) ->
  (forall h' c', cache_rep h' c' ps es -> same_funs c c' ->
     wp (kr_cache_evict_n_oldest key_hash_func key_equal_func n c') h' Q) ->
  wp (kr_cache_evict_n_oldest key_hash_func key_equal_func (S n) c) h Q.
Proof.
  intros [Hl Hfr Hfd Hnd He Hdom Hk Ht Hm] HQ. destruct p as [p cp].
  apply Forall2_app_inv_r in He as (ps0 & pl & He0 & Hpl & Heq).
  inversion Hpl as [|? ? l' ? Hen Hnil]; subst. inversion Hnil; subst.
  apply app_inj_tail in Heq as [<- <-]. destruct Hen as (nd & Hcp & Hnk & Hnv). simpl in Hcp.
  pose proof (Forall2_length _ _ _ He0) as Hlen.
  simpl. rewrite (rep_tail _ _ _ Hl), lastp_app. simpl.
  pose proof (dseg_lookup _ _ _ _ _ _ _ (rep_seg _ _ _ Hl)) as Hp.
  apply wp_bind, wp_on_list. eapply wp_read_node; [exact Hp|]. cbn [value].
  apply wp_bind. eapply wp_read_cnode; [exact Hcp|].
  apply wp_bind. rewrite Hnk.
  destruct (remove_internal_spec key_hash_func key_equal_func repr _ _ e.1 true Ht)
    as (t' & Hr & Ht' & _).
  unfold kr_hashtable_remove. rewrite Hr. unfold lift at 1, wp at 1.
  apply wp_bind. unfold of_option, lift at 1, wp at 1. apply wp_bind.
  eapply wp_freeing_one; [exact Hcp|].
  eapply wp_mono; [by apply (wp_delete _ _ ps p cp [])|].
  simpl. intros l' s' ([Hl' Hsm Hframe] & _ & Hf). rewrite Hfr, Hfd in Hf. split; [done|].
  intros r. apply HQ; [|done].
  rewrite app_nil_r in Hl'. rewrite fmap_app in Hnd. apply NoDup_app in Hnd as (Hnd & Hdj & _).
  assert (Hcps : cp ∉ ps.*2) by (intros Hin; apply (Hdj _ Hin); by left).
  rewrite table_of_snoc in Ht' by done. rewrite length_app in Hm. simpl in Hm.
  split; simpl; try done.
  - by eapply list_rep_nodes; [|exact Hl'].
  - by destruct Hsm as (_ & -> & _).
  - eapply entries_frame; [exact He0|]. intros q Hq. simpl.
    rewrite lookup_delete_ne by (by intros <-). done.
  - intros q [x Hq]. apply lookup_delete_Some in Hq as [Hne Hq].
    specialize (Hdom q (mk_is_Some _ _ Hq)). rewrite fmap_app in Hdom. set_solver.
  - rewrite fmap_app in Hk. by apply NoDup_app in Hk as (Hk & _ & _).
  - lia.
Qed.

Lemma cache_rep_length h c ps es : cache_rep h c ps es -> length ps = length es.
Proof. intros Hr. apply (Forall2_length _ _ _ (cr_entries _ _ _ _ Hr)). Qed.

Lemma wp_evict n h c ps es :
  cache_rep h c ps es ->
  wp (kr_cache_evict_n_oldest key_hash_func key_equal_func n c) h (fun c' h' =>
    cache_rep h' c' (take (length es - n) ps) (take (length es - n) es) /\ same_funs c c').
Proof.
  revert h c ps es. induction n as [|n IH]; intros h c ps es Hr.
  - rewrite Nat.sub_0_r, firstn_all, <- (cache_rep_length _ _ _ _ Hr), firstn_all. by apply wp_ret.
  - pose proof (cache_rep_length _ _ _ _ Hr) as Hlen.
    destruct es as [|e es _] using rev_ind.
    + destruct ps; [|done]. simpl. rewrite (rep_tail _ _ _ (cr_list _ _ _ _ Hr)). by apply wp_ret.
    + destruct ps as [|p ps _] using rev_ind; [rewrite length_app in Hlen; simpl in Hlen; lia|].
      rewrite !length_app in *. simpl in *.
      eapply wp_evict_one; [exact Hr|]. intros h' c' Hr' Hs.
      eapply wp_mono; [by apply IH|]. simpl. intros c2 h2 [Hr2 Hs2].
      replace (length es + 1 - S n)%nat with (length es - n)%nat by lia.
      rewrite !take_app_le by lia. split; [done|]. unfold same_funs in *. intuition congruence.
Qed.

Lemma kr_cache_size_spec h c ps es : cache_rep h c ps es -> kr_cache_get_size c = Z.of_nat (length es).
Proof.
  intros Hr. pose proof (cr_max _ _ _ _ Hr) as Hm. pose proof (cache_rep_length _ _ _ _ Hr).
  destruct (cr_table _ _ _ _ Hr) as (n & Hok & _). unfold kr_cache_get_size, kr_hashtable_size.
  rewrite (tk_size _ _ _ _ _ Hok), table_of_size by (try done; apply Hr).
  unfold MAX_ENTRIES in Hm. rewrite u32_small by (unfold UINT_MAX; lia). done.
Qed.

Lemma lru_find_Some k es i e : lru_find k es = Some (i, e) ->
  exists es1 es2, es = es1 ++ e :: es2 /\ length es1 = i /\ repr e.1 = repr k /\
    delete i es = es1 ++ es2.
Proof.
  intros (Hi & Hk & _)%list_find_Some. exists (take i es), (drop (S i) es).
  pose proof (lookup_lt_Some _ _ _ Hi). rewrite take_drop_middle by done.
  rewrite length_take_le by lia. by rewrite delete_take_drop.
Qed.


Lemma lru_find_None k es : lru_find k es = None -> forall e, e ∈ es -> repr e.1 <> repr k.
Proof. intros Hf e He. apply list_find_None in Hf. rewrite Forall_forall in Hf. by apply Hf. Qed.

Lemma table_of_find k ps es :
  length ps = length es -> NoDup (repr ∘ fst <$> es) ->
  table_of ps es !! repr k ≫= snd = lru_find k es ≫= fun x => fst <$> ps !! x.1.
Proof.
  intros Hl Hnd. destruct (lru_find k es) as [[i e]|] eqn:Hf.
  - apply list_find_Some in Hf as (Hi & Hk & _). simpl.
    destruct (lookup_lt_is_Some_2 ps i) as [p Hp]; [rewrite Hl; by eapply lookup_lt_Some|].
    rewrite <- Hk. rewrite (table_of_lookup ps es p e i) by done. simpl. by rewrite Hp.
  - by rewrite table_of_absent by (try done; by apply lru_find_None).
Qed.

(** A hit: the entry moves to the head of the list, the table does not change. *)
Lemma wp_get h c ps es k now :
  cache_rep h c ps es ->
  wp (kr_cache_get key_hash_func key_equal_func c k now) h (fun r h' =>
    r.1 = (lru_get k es).1 /\ same_funs c r.2 /\
    exists ps', cache_rep h' r.2 ps' (lru_get k es).2).
Proof.
  intros Hr. pose proof (cache_rep_length _ _ _ _ Hr) as Hlen. unfold kr_cache_get, lru_get.
  apply wp_bind. rewrite (lookup_spec key_hash_func key_equal_func repr _ _ k (cr_table _ _ _ _ Hr)).
  unfold lift, wp at 1. rewrite table_of_find by (try done; apply Hr).
  destruct (lru_find k es) as [[i e]|] eqn:Hf; simpl.
  2: { apply wp_ret. split; [done|]. split; [done|]. by exists ps. }
  destruct (lru_find_Some _ _ _ _ Hf) as (es1 & es2 & -> & <- & Hk & Hdel). rewrite Hdel.
  destruct (lookup_lt_is_Some_2 ps (length es1)) as [[p cp] Hp];
    [rewrite Hlen, length_app; simpl; lia|].
  rewrite Hp. simpl.
  assert (exists ps1 ps2, ps = ps1 ++ (p, cp) :: ps2 /\ length ps1 = length es1) as (ps1 & ps2 & -> & H1).
  { exists (take (length es1) ps), (drop (S (length es1)) ps). rewrite take_drop_middle by done.
    pose proof (lookup_lt_Some _ _ _ Hp). rewrite length_take_le by lia. done. }
  destruct Hr as [Hl Hfr Hfd Hnd He Hdom Hkd Ht Hm].
  rewrite !length_app in Hlen. simpl in Hlen. assert (H2 : length ps2 = length es2) by lia.
  apply Forall2_app_inv in He as [He1 He2]; [|done].
  inversion He2 as [|? ? ? ? (n & Hcp & Hnk & Hnv) He2']; subst. simpl in Hcp.
  apply wp_bind, wp_on_list. eapply wp_mono; [by apply wp_move_head|].
  simpl. intros l' s' [[Hl' Hsm Hframe] Hf'].
  apply wp_bind, wp_on_list. eapply wp_read_node; [apply (rep_seg _ _ _ Hl')|]. cbn [value].
  apply wp_bind. eapply wp_read_cnode; [exact Hcp|]. apply wp_bind.
  unfold write_cnode, wp at 1. apply wp_ret. simpl. rewrite Hnv. split; [done|]. split; [done|].
  exists ((p, cp) :: ps1 ++ ps2).
  assert (Hperm : (p, cp) :: ps1 ++ ps2 ≡ₚ ps1 ++ (p, cp) :: ps2) by by rewrite Permutation_middle.
  assert (Hnd' : NoDup ((p, cp) :: ps1 ++ ps2).*2) by by rewrite Hperm.
  assert (Hcps : cp ∉ (ps1 ++ ps2).*2) by (csimpl in Hnd'; by apply NoDup_cons in Hnd' as [? _]).
  split; simpl; try done.
  - by destruct Hsm as (_ & -> & _).
  - by rewrite Hf'.
  - constructor.
    + eexists. simpl. rewrite lookup_insert_eq. split; [done|]. simpl. by split.
    + eapply entries_frame; [by apply Forall2_app; [exact He1|exact He2']|].
      intros q Hq. simpl. rewrite lookup_insert_ne; [done|]. by intros <-.
  - intros q Hq. change (q ∈ ((p, cp) :: ps1 ++ ps2).*2). rewrite Hperm.
    destruct (decide (q = cp)) as [->|Hne]; [rewrite fmap_app; csimpl; set_solver|].
    rewrite lookup_insert_ne in Hq by done. by apply Hdom.
  - change (NoDup (repr ∘ fst <$> e :: es1 ++ es2)). by rewrite Permutation_middle.
  - by rewrite table_of_move.
  - rewrite !length_app in *. simpl in *. lia.
Qed.

(** Storing an absent key. *)
Lemma wp_set h c ps es k v :
  cache_rep h c ps es -> bounded c es ->
  (forall k, repr (dup_with (key_dup_func c) k) = repr k) -> lru_find k es = None ->
  wp (kr_cache_set key_hash_func key_equal_func c k v) h (fun c' h' =>
    same_funs c c' /\ exists ps', cache_rep h' c' ps'
      (lru_set (max_size c) (dup_with (key_dup_func c) k) (dup_with (value_dup_func c) v) es)).
Proof.
  intros Hr [Hmax Hm] Hdup Habs. unfold MAX_ENTRIES in Hm.
  unfold kr_cache_set. change (kr_hashtable_size (Some (hash_table c))) with (kr_cache_get_size c).
  rewrite (kr_cache_size_spec _ _ _ _ Hr).
  assert (Hn : i32 (u32 (Z.of_nat (length es) - max_size c)) = Z.of_nat (length es) - max_size c).
  { unfold wraps, wrapu. change (2 ^ 32) with 4294967296. change (2 ^ (32 - 1)) with 2147483648.
    rewrite Zplus_mod_idemp_l. rewrite Z.mod_small by lia. lia. }
  rewrite Hn. apply wp_bind.
  apply wp_mono with (P := fun c' h' => same_funs c c' /\ exists ps',
    cache_rep h' c' ps' (take (Z.to_nat (max_size c) - 1) es)).
  { destruct (0 <=? Z.of_nat (length es) - max_size c) eqn:Hle; zbool.
    - rewrite i32_small by (unfold INT_MIN, INT_MAX; lia).
      eapply wp_mono; [by apply wp_evict|]. simpl. intros c' h' [Hr' Hs]. split; [done|].
      eexists. replace (Z.to_nat (max_size c) - 1)%nat
        with (length es - Z.to_nat (Z.of_nat (length es) - max_size c + 1))%nat by lia. exact Hr'.
    - apply wp_ret. split; [done|]. exists ps. rewrite take_ge by lia. done. }
  intros c1 h1 [Hs (ps1 & Hr1)]. destruct Hs as (Hmx & Hkd & Hkf & Hvd & Hvf).
  unfold lru_set. set (es1 := take (Z.to_nat (max_size c) - 1) es) in *.
  set (k' := dup_with (key_dup_func c) k) in *. set (v' := dup_with (value_dup_func c) v).
  assert (Hlen1 : (length es1 < Z.to_nat (max_size c))%nat) by (subst es1; rewrite length_take; lia).
  pose proof (cache_rep_length _ _ _ _ Hr1) as Hl1.
  assert (Habs1 : forall e, e ∈ es1 -> repr e.1 <> repr k').
  { intros e He. unfold k'. rewrite Hdup. apply (lru_find_None _ _ Habs).
    eapply elem_of_take in He as (i & He & _). by eapply list_elem_of_lookup_2. }
  destruct Hr1 as [Hl Hfr Hfd Hnd He Hdom Hk Ht Hm1].
  apply wp_bind. unfold kr_cache_node_new, wp at 1.
  set (p := fresh (dom (cnodes h1))).
  assert (Hp : cnodes h1 !! p = None) by (apply not_elem_of_dom, is_fresh).
  rewrite Hkd, Hvd. fold (dup_with (key_dup_func c) k). fold (dup_with (value_dup_func c) v).
  fold k' v'.
  apply wp_bind, wp_on_list. simpl. eapply wp_mono;
    [apply (wp_add_head _ _ _ p Hl); rewrite (rep_len _ _ _ Hl); unfold UINT_MAX; lia|].
  simpl. intros l' s' (lp & Hlp & [Hl' Hsm _] & Hf').
  apply wp_bind. eapply wp_read_cnode; [simpl; apply lookup_insert_eq|]. cbn [ckey].
  apply wp_bind. unfold kr_hashtable_replace.
  assert (Hsz : Z.of_nat (base.size (table_of ps1 es1)) < MAX_ENTRIES)
    by (rewrite table_of_size by done; unfold MAX_ENTRIES; lia).
  destruct (insert_internal_spec key_hash_func key_equal_func repr _ _ k' (head l') true Ht Hsz)
    as (t' & -> & Ht' & _). unfold lift, wp at 1. apply wp_ret.
  split; [done|]. exists ((lp, p) :: ps1).
  assert (Hpn : p ∉ ps1.*2).
  { intros Hin. apply list_elem_of_fmap in Hin as (q & -> & [i Hq]%list_elem_of_lookup).
    destruct (Forall2_lookup_l _ _ _ _ _ He Hq) as (e & _ & n & Hq' & _). congruence. }
  split; simpl; try done.
  - by destruct Hsm as (_ & -> & _).
  - by rewrite Hf'.
  - by apply NoDup_cons.
  - constructor.
    + eexists. simpl. rewrite lookup_insert_eq. done.
    + eapply entries_frame; [exact He|]. intros q Hq. simpl.
      rewrite lookup_insert_ne; [done|]. by intros ->.
  - intros q Hq. destruct (decide (q = p)) as [->|Hne]; [by left|]. right.
    rewrite lookup_insert_ne in Hq by done. by apply Hdom.
  - apply NoDup_cons. split; [|done]. intros (e & Heq & He')%list_elem_of_fmap.
    by apply (Habs1 e He').
  - rewrite table_of_absent in Ht' by done. simpl in Ht'. rewrite (rep_head _ _ _ Hl') in Ht'. exact Ht'.
  - unfold MAX_ENTRIES. lia.
Qed.

(** What [kr_cache_set_max_size] evicts: the difference of the two maxima, however few the
    entries are. *)
Lemma wp_resize h c ps es n :
  cache_rep h c ps es -> bounded c es -> 1 <= n <= MAX_ENTRIES ->
  wp (kr_cache_set_max_size key_hash_func key_equal_func c n) h (fun c' h' =>
    same_funs (with_max c n) c' /\ exists ps', cache_rep h' c' ps' (take (length es - Z.to_nat (max_size c - n)) es)).
Proof.
  intros Hr [Hmax Hm] Hn. unfold MAX_ENTRIES in *.
  assert (Hr' : cache_rep h (with_max c n) ps es) by (destruct Hr; by split).
  unfold kr_cache_set_max_size. destruct (n <? max_size c) eqn:Hlt; zbool.
  - rewrite u32_small, i32_small by (unfold UINT_MAX, INT_MIN, INT_MAX; lia).
    eapply wp_mono; [by apply wp_evict|]. simpl. intros c' h' [Hr2 Hs]. split; [done|].
    by eexists.
  - apply wp_ret. split; [done|]. exists ps. rewrite take_ge by lia. done.
Qed.

(** * Runs of operations

    [CFetch] is the use of krdata/kr_hdi_cache.c: a value is stored when [get] finds
    none. *)
Inductive cop :=
  | CGet (k : K) (now : Z)
  | CFetch (k : K) (v : V) (now : Z)
  | CResize (n : Z).

Definition run_cop (o : cop) c : M (heap K V) (option V * T_KRCache K V) :=
  match o with
  | CGet k now => kr_cache_get key_hash_func key_equal_func c k now
  | CFetch k v now =>
      '(r, c) ← kr_cache_get key_hash_func key_equal_func c k now;
      match r with
      | Some _ => mret (r, c)
      | None => c ← kr_cache_set key_hash_func key_equal_func c k v; mret (None, c)
      end
  | CResize n => c ← kr_cache_set_max_size key_hash_func key_equal_func c n; mret (None, c)
  end.

Fixpoint run_cops (os : list cop) c : M (heap K V) (list (option V) * T_KRCache K V) :=
  match os with
  | [] => mret ([], c)
  | o :: os' => '(r, c) ← run_cop o c; '(rs, c) ← run_cops os' c; mret (r :: rs, c)
  end.

Context (kdup : option (K -> K)) (vdup : option (V -> V)).

(** With a new maximum the entries used last stay, as many as it allows. *)
Definition lru_resize (new : Z) es : list (K * V) := take (Z.to_nat new) es.

(** The specification runs on the maximum and the entries. *)
Definition spec_cop (o : cop) (st : Z * list (K * V)) : option V * (Z * list (K * V)) :=
  let '(max, es) := st in
  match o with
  | CGet k _ => let '(r, es) := lru_get k es in (r, (max, es))
  | CFetch k v _ =>
      match lru_get k es with
      | (Some x, es) => (Some x, (max, es))
      | (None, es) => (None, (max, lru_set max (dup_with kdup k) (dup_with vdup v) es))
      end
  | CResize n => (None, (n, lru_resize n es))
  end.
Fixpoint spec_cops (os : list cop) (st : Z * list (K * V)) : list (option V) * (Z * list (K * V)) :=
  match os with
  | [] => ([], st)
  | o :: os' => let '(r, st) := spec_cop o st in let '(rs, st) := spec_cops os' st in (r :: rs, st)
  end.

(** The sizes asked for; a smaller one is asked for when the cache is full. *)
Definition cop_ok (o : cop) (st : Z * list (K * V)) : Prop :=
  match o with
  | CResize n => 1 <= n <= MAX_ENTRIES /\ (n < st.1 -> Z.of_nat (length st.2) = st.1)
  | _ => True
  end.
Fixpoint cops_ok (os : list cop) (st : Z * list (K * V)) : Prop :=
  match os with
  | [] => True
  | o :: os' => cop_ok o st /\ cops_ok os' (spec_cop o st).2
  end.

(** The cache holds the entries of the specification. *)
Definition cache_is h c (st : Z * list (K * V)) : Prop :=
  (exists ps, cache_rep h c ps st.2) /\ bounded c st.2 /\ max_size c = st.1 /\
  key_dup_func c = kdup /\ value_dup_func c = vdup.

Lemma lru_get_length k es : length (lru_get k es).2 = length es.
Proof.
  unfold lru_get. destruct (lru_find k es) as [[i e]|] eqn:Hf; [|done].
  destruct (lru_find_Some _ _ _ _ Hf) as (es1 & es2 & -> & <- & _ & ->).
  simpl. rewrite !length_app. simpl. lia.
Qed.

Lemma wp_cop o h c st :
  (forall k, repr (dup_with kdup k) = repr k) -> cache_is h c st -> cop_ok o st ->
  wp (run_cop o c) h (fun r h' => r.1 = (spec_cop o st).1 /\ cache_is h' r.2 (spec_cop o st).2).
Proof.
  intros Hdup ([ps Hr] & [Hb1 Hb2] & Hmx & Hkd & Hvd) Hsz. destruct st as [max es].
  simpl in Hmx, Hr, Hb1.
  assert (Hget : forall k now, wp (kr_cache_get key_hash_func key_equal_func c k now) h
    (fun r h' => r.1 = (lru_get k es).1 /\ cache_is h' r.2 (max, (lru_get k es).2))).
  { intros k now. eapply wp_mono; [by eapply wp_get|]. intros [r c'] h' (Hr1 & Hs & ps' & Hr2).
    simpl in *. destruct Hs as (Hs1 & Hs2 & Hs3 & Hs4 & Hs5). split; [done|]. split; [by exists ps'|].
    split; [split; simpl; rewrite ?lru_get_length; lia|]. simpl. split_and!; congruence. }
  destruct o as [k now|k v now|n]; simpl.
  - eapply wp_mono; [apply Hget|]. intros r h' [-> Hc]. by destruct (lru_get k es).
  - apply wp_bind. eapply wp_mono; [apply Hget|]. intros [r c'] h' [Hr1 Hc]. simpl in Hr1.
    destruct (lru_get k es) as [r' es'] eqn:Hg. simpl in *. subst r'.
    destruct r as [x|]; [by apply wp_ret|].
    assert (lru_find k es = None /\ es' = es) as [Hf ->].
    { unfold lru_get in Hg. destruct (lru_find k es) as [[]|]; by simplify_eq. }
    destruct Hc as ([ps' Hr'] & Hb & Hmx' & Hkd' & Hvd'). simpl in *. subst.
    apply wp_bind. eapply wp_mono; [eapply wp_set; [done|done|by rewrite Hkd'|done]|].
    intros c2 h2 [(Hs1 & Hs2 & Hs3 & Hs4 & Hs5) (ps2 & Hr2)]. apply wp_ret. simpl.
    split; [done|]. rewrite Hkd', Hvd', Hmx' in Hr2. split; [by exists ps2|].
    destruct Hb as [Hb3 Hb4]. split; [|simpl; split_and!; congruence].
    split; rewrite Hs1; [|done]. unfold lru_set. simpl. rewrite length_take. lia.
  - destruct Hsz as [Hn Hfull]. apply wp_bind.
    eapply wp_mono; [by eapply wp_resize|]. intros c' h' [(Hs1 & Hs2 & Hs3 & Hs4 & Hs5) (ps' & Hr')].
    apply wp_ret. split; [done|]. rewrite Hmx in Hr', Hb1. simpl in Hfull, Hb2.
    assert (Htake : take (length es - Z.to_nat (max - n)) es = lru_resize n es).
    { unfold lru_resize. destruct (Z.lt_ge_cases n max) as [Hlt|Hge]; [f_equal; specialize (Hfull Hlt); lia|].
      rewrite !take_ge by lia. done. }
    rewrite Htake in Hr'. split; [by exists ps'|]. simpl in *. split; [|split_and!; congruence].
    split; rewrite Hs1; [|done]. unfold lru_resize. rewrite length_take. lia.
Qed.

Lemma wp_cops os h c st :
  (forall k, repr (dup_with kdup k) = repr k) -> cache_is h c st -> cops_ok os st ->
  wp (run_cops os c) h (fun r h' => r.1 = (spec_cops os st).1 /\ cache_is h' r.2 (spec_cops os st).2).
Proof.
  intros Hdup. revert h c st. induction os as [|o os IH]; intros h c st Hc Hsz; [by apply wp_ret|].
  destruct Hsz as [Ho Hos]. simpl. apply wp_bind.
  eapply wp_mono; [by apply (wp_cop o h c st)|]. intros [r c1] h1 [Hr1 Hc1].
  apply wp_bind. eapply wp_mono; [by apply IH|]. intros [rs c2] h2 [Hr2 Hc2]. simpl in *.
  destruct (spec_cop o st) as [r' st1]. simpl in *. destruct (spec_cops os st1) as [rs' st2].
  simpl in *. apply wp_ret. subst. done.
Qed.

Lemma new_is max kf vf h : 1 <= max <= MAX_ENTRIES -> freed (lists h) = [] -> cnodes h = ∅ ->
  exists c, kr_cache_new max kdup kf vdup vf = Ok (Some c) /\ cache_is h c (max, []).
Proof.
  intros Hmax Hfd Hcn. destruct (new_full_spec (K:=K) (V:=ptr) key_hash_func repr false false)
    as (t & Ht & Hrep & _). unfold kr_cache_new.
  assert (max <=? 0 = false) as -> by (apply Z.leb_gt; lia).
  unfold kr_hashtable_new. rewrite Ht. simpl. eexists. split; [done|].
  split; [|split; [split; simpl; lia|done]].
  exists []. split; simpl; try done; try constructor; simpl; try done; try constructor.
  rewrite Hcn. intros p [? Hp]. by rewrite lookup_empty in Hp.
Qed.

(** C26. A cache made by [kr_cache_new] and used as kr_hdi_cache.c does, a value being
    stored only when [get] has found none, is a least-recently-used cache, as long as its
    maximum is made smaller only when it is full ([kr_cache_shrink_evicts] is the other
    case): over any such run of operations its results are those of the specification on a
    sequence of entries, the last used first, and at the end its list, its table and its
    nodes hold exactly the entries of that sequence, no more than the maximum. *)
Theorem kr_cache_is_lru max kf vf os h :
  1 <= max <= MAX_ENTRIES -> (forall k, repr (dup_with kdup k) = repr k) -> cops_ok os (max, []) ->
  freed (lists h) = [] -> cnodes h = ∅ ->
  exists c c' h', kr_cache_new max kdup kf vdup vf = Ok (Some c) /\
    run_cops os c h = Ok ((spec_cops os (max, [])).1, c', h') /\
    cache_is h' c' (spec_cops os (max, [])).2.
Proof.
  intros Hmax Hdup Hsz Hfd Hcn. destruct (new_is max kf vf h Hmax Hfd Hcn) as (c & Hnew & Hc).
  destruct (wp_elim _ _ _ (wp_cops os h c _ Hdup Hc Hsz)) as ([rs c'] & h' & Hrun & Hrs & Hc').
  simpl in Hrs. subst rs. by exists c, c', h'.
Qed.

(** Made smaller when it is not full, a cache loses entries that it has room for: it evicts
    as many of the oldest as the two maxima differ by, all of them when there are no more. *)
Theorem kr_cache_shrink_evicts h c max es n :
  cache_is h c (max, es) -> 1 <= n <= max ->
  exists c' h', kr_cache_set_max_size key_hash_func key_equal_func c n h = Ok (c', h') /\
    cache_is h' c' (n, take (length es - Z.to_nat (max - n)) es) /\
    (Z.of_nat (length es) <= max - n -> cache_is h' c' (n, [])).
Proof.
  intros ([ps Hr] & [Hb1 Hb2] & Hmx & Hkd & Hvd) Hn. simpl in *. subst max. unfold MAX_ENTRIES in *.
  destruct (wp_elim _ _ _ (wp_resize h c ps es n Hr ltac:(by split) ltac:(unfold MAX_ENTRIES; lia))) as (c' & h' & E & Hs & ps' & Hr').
  destruct Hs as (Hs1 & Hs2 & Hs3 & Hs4 & Hs5). simpl in *. exists c', h'. split; [done|].
  assert (Hc : cache_is h' c' (n, take (length es - Z.to_nat (max_size c - n)) es)).
  { split; [by exists ps'|]. split; [|simpl; split_and!; congruence].
    split; rewrite Hs1; [simpl; rewrite length_take; lia|unfold MAX_ENTRIES; lia]. }
  split; [done|]. intros Hfew. by replace (length es - Z.to_nat (max_size c - n))%nat with 0%nat in Hc by lia.
Qed.

End Rep.

Arguments cop K V : clear implicits.

(** Storing a key that is already there leaves the old node in the list, without an
    entry of the table; when that node becomes the oldest one, evicting it removes the
    live entry of the key: here the entry just read by [get] is lost. *)
Theorem kr_cache_overwrite_loses_entry (v1 v2 v3 v4 now : Z) :
  exists c h,
    kr_cache_new 2 None false None false = Ok (Some c) /\
    (c ← kr_cache_set kr_int_hash (Some kr_int_equal) c 1 v1;
     c ← kr_cache_set kr_int_hash (Some kr_int_equal) c 1 v2;
     c ← kr_cache_set kr_int_hash (Some kr_int_equal) c 2 v3;
     '(r1, c) ← kr_cache_get kr_int_hash (Some kr_int_equal) c 1 now;
     c ← kr_cache_set kr_int_hash (Some kr_int_equal) c 3 v4;
     '(r2, c) ← kr_cache_get kr_int_hash (Some kr_int_equal) c 1 now;
     mret (r1, r2, kr_list_length (list_ c), kr_cache_get_size c))
      (mkHeap (mkStore ∅ []) ∅ []) = Ok ((Some v2, None, 3, 2), h).
Proof. do 2 eexists. split; [by vm_compute|]. vm_compute. reflexivity. Qed.

Lemma kr_cache_is_lru_witness :
  let os := [CFetch "a" 1 0; CFetch "b" 2 0; CGet "a" 5; CFetch "c" 3 6; CGet "b" 7; CGet "a" 8;
             CResize 1; CGet "a" 9; CGet "c" 9] in
  (spec_cops (fun s : string => s) None None os (2, [])).1 =
    [None; None; Some 1; None; None; Some 1; None; Some 1; None] /\
  exists c c' h', kr_cache_new 2 None false None false = Ok (Some c) /\
    run_cops kr_string_hash (Some kr_string_equal) os c (mkHeap (mkStore ∅ []) ∅ []) =
      Ok ((spec_cops (fun s : string => s) None None os (2, [])).1, c', h') /\
    cache_is kr_string_hash (fun s : string => s) None None h' c'
      (spec_cops (fun s : string => s) None None os (2, [])).2.
Proof.
  split; [by vm_compute|].
  apply (kr_cache_is_lru kr_string_hash (Some kr_string_equal) (fun s : string => s) None None
           2 false false); [unfold MAX_ENTRIES; lia|done| |done|done].
  vm_compute. repeat split; intros H; discriminate H.
Defined.

(** Four places, two entries, and two places. *)
Lemma kr_cache_shrink_evicts_witness :
  let os := [CFetch "a" 1 0; CFetch "b" 2 0] in
  exists c c' h' c2 h2, kr_cache_new 4 None false None false = Ok (Some c) /\
    run_cops kr_string_hash (Some kr_string_equal) os c (mkHeap (mkStore ∅ []) ∅ []) = Ok ([None; None], c', h') /\
    kr_cache_set_max_size kr_string_hash (Some kr_string_equal) c' 2 h' = Ok (c2, h2) /\
    cache_is kr_string_hash (fun s : string => s) None None h2 c2 (2, []).
Proof.
  intros os. destruct (new_is kr_string_hash (fun s : string => s) None None 4 false false (mkHeap (V:=Z) (mkStore ∅ []) ∅ []))
    as (c & Hnew & Hc); [unfold MAX_ENTRIES; lia|done|done|].
  destruct (wp_elim _ _ _ (wp_cops kr_string_hash (Some kr_string_equal) (fun s : string => s) None None os _ c _ ltac:(done) Hc ltac:(done)))
    as ([rs c'] & h' & Hrun & Hrs & Hc'). simpl in Hrs. subst rs.
  destruct (kr_cache_shrink_evicts kr_string_hash (Some kr_string_equal) (fun s : string => s) None None h' c' 4 [("b", 2); ("a", 1)] 2)
    as (c2 & h2 & E & _ & Hfew); [exact Hc'|done|].
  exists c, c', h', c2, h2. split; [exact Hnew|]. split; [exact Hrun|]. split; [exact E|]. by apply Hfew.
Defined.
