(* ===== verification/KrDb.v ===== *)
(** The in-memory database of krdb/: tables that keep their last records in a ring of
    slots, hash indexes from the values of a field to lists of records
    (kr_db_kernel.c, kr_db_kernel.h), and the entry points of kr_db.c.

    Records are addressed by table and slot; the key of an entry of a hash table is,
    as in the code, a pointer to a field of a record, and the hash and equality
    functions read what the field holds when they are called.  The tables are those of
    KrHashtable.  Lists of records, tables and indexes are sequences with the
    operations that KrList shows its lists to have; lists of records are objects of the
    heap.  The slot of a record is computed as the code computes its address, as an
    offset in bytes of 32 bits.  The bytes of a field are the value last written to it
    ([keyptr], with its type): an insertion that would write a record between two others,
    or a value over the bytes of another field, leaves the model by a fault.  The rows of
    the configuration tables and the mapping functions of the loaded module are arguments.
    Names, locks, printing and the destruction of tables are not modelled. *)

From S2P Require Import Prelude KrString KrHashtable KrTypes KrHashset.
Local Open Scope Z_scope.
#[local] Notation length := List.length.

(** * Data *)

Definition ptr := positive.

(** The address of a record: the table whose buffer holds it, and its slot. *)
Definition recptr : Type := ptr * nat.

Record T_KRFieldDef := mkFieldDef { fd_id : Z; fd_type : E_KRType; fd_length : Z; fd_offset : Z }.

(** A slot of the buffer: zeroed memory has no table. *)
Record T_KRRecord := mkRecord { ptTable : option ptr; pRecBuf : list keyptr }.

Inductive E_KRIndexType := KR_INDEXTYPE_TABLE | KR_INDEXTYPE_DB | KR_INDEXTYPE_OTHER.

Record T_KRIndex := mkIndex {
  iIndexId : Z;
  eIndexType : E_KRIndexType;
  iIndexFieldId : Z;
  iSortFieldId : Z;
  pHashTable : ptr
}.

(** A [const void *] key: a field of a record, or a value elsewhere (the argument of a
    search). *)
Inductive keyref := KRef (r : recptr) (fld : Z) | KVal (c : keyptr).

#[export] Instance keyref_eq_dec : EqDecision keyref.
Proof. solve_decision. Defined.

(** [kr_list_add_sorted] hands its last argument, the address of [iSortFieldId] of the
    index, to the comparison function; [kr_db_field_compare] takes an [int] there.  The
    [int] that it finds, which the layout of memory decides. *)
Class SortArgument := sort_argument : ptr -> Z.

Section KrDb.
Context {Data : Type} {SA : SortArgument}.

Record T_KRTable := mkTable {
  iTableId : Z;
  pMapFuncPre : option (Data -> Data);
  pMapFunc : Data -> Z -> Z -> keyptr;
  lSizeKeepValue : Z;
  iRecordSize : Z;
  pRecordBuff : list T_KRRecord;
  ptFieldDef : list T_KRFieldDef;
  uiRecordLoc : Z;
  uiRecordNum : Z;
  pIndexList : list ptr
}.

(** A hash table with the type its functions are chosen by. *)
Record htable := mkHt { ht_type : E_KRType; ht_table : T_KRHashTable (K:=keyref) (V:=ptr) }.

(** The database and its heap. *)
Record T_KRDB := mkDB {
  tables : gmap ptr T_KRTable;
  indexes : gmap ptr T_KRIndex;
  hts : gmap ptr htable;
  reclists : gmap ptr (list recptr);
  pTableList : list ptr;
  pDBIndexList : list ptr
}.

Definition set_tables (h : T_KRDB) (x : gmap ptr T_KRTable) : T_KRDB :=
  mkDB x (indexes h) (hts h) (reclists h) (pTableList h) (pDBIndexList h).
Definition set_hts (h : T_KRDB) (x : gmap ptr htable) : T_KRDB :=
  mkDB (tables h) (indexes h) x (reclists h) (pTableList h) (pDBIndexList h).
Definition set_reclists (h : T_KRDB) (x : gmap ptr (list recptr)) : T_KRDB :=
  mkDB (tables h) (indexes h) (hts h) x (pTableList h) (pDBIndexList h).

Definition set_buff (t : T_KRTable) (b : list T_KRRecord) : T_KRTable :=
  mkTable (iTableId t) (pMapFuncPre t) (pMapFunc t) (lSizeKeepValue t) (iRecordSize t) b
    (ptFieldDef t) (uiRecordLoc t) (uiRecordNum t) (pIndexList t).
Definition set_loc_num (t : T_KRTable) (loc num : Z) : T_KRTable :=
  mkTable (iTableId t) (pMapFuncPre t) (pMapFunc t) (lSizeKeepValue t) (iRecordSize t)
    (pRecordBuff t) (ptFieldDef t) loc num (pIndexList t).
Definition set_index_list (t : T_KRTable) (l : list ptr) : T_KRTable :=
  mkTable (iTableId t) (pMapFuncPre t) (pMapFunc t) (lSizeKeepValue t) (iRecordSize t)
    (pRecordBuff t) (ptFieldDef t) (uiRecordLoc t) (uiRecordNum t) l.

Definition get_state : M T_KRDB T_KRDB := fun h => Ok (h, h).
Definition put_state (h : T_KRDB) : M T_KRDB unit := fun _ => Ok (tt, h).

Definition read_table (p : ptr) : M T_KRDB T_KRTable := fun h =>
  match tables h !! p with Some t => Ok (t, h) | None => Fault BadPointer end.
Definition write_table (p : ptr) (f : T_KRTable -> T_KRTable) : M T_KRDB unit := fun h =>
  match tables h !! p with
  | Some t => Ok (tt, set_tables h (<[p := f t]> (tables h)))
  | None => Fault BadPointer
  end.
Definition read_index (p : ptr) : M T_KRDB T_KRIndex := fun h =>
  match indexes h !! p with Some i => Ok (i, h) | None => Fault BadPointer end.
Definition read_reclist (p : ptr) : M T_KRDB (list recptr) := fun h =>
  match reclists h !! p with Some l => Ok (l, h) | None => Fault BadPointer end.
Definition write_reclist (p : ptr) (l : list recptr) : M T_KRDB unit := fun h =>
  Ok (tt, set_reclists h (<[p := l]> (reclists h))).

(** * Records and their fields *)

Definition record_at (h : T_KRDB) (r : recptr) : res T_KRRecord :=
  t ← of_option BadPointer (tables h !! r.1); of_option OutOfBounds (pRecordBuff t !! r.2).

(** The table a record names. *)
Definition record_table (h : T_KRDB) (r : recptr) : res (ptr * T_KRTable) :=
  rc ← record_at h r;
  p ← of_option NullDeref (ptTable rc);
  t ← of_option BadPointer (tables h !! p);
  Ok (p, t).

Definition nth_field {A} (l : list A) (fld : Z) : res A :=
  if fld <? 0 then Fault OutOfBounds else of_option OutOfBounds (l !! Z.to_nat fld).

Definition kr_get_field_def (h : T_KRDB) (r : recptr) (fld : Z) : res T_KRFieldDef :=
  '(_, t) ← record_table h r; nth_field (ptFieldDef t) fld.
Definition kr_get_field_type (h : T_KRDB) (r : recptr) (fld : Z) : res E_KRType :=
  d ← kr_get_field_def h r fld; Ok (fd_type d).
Definition kr_get_field_length (h : T_KRDB) (r : recptr) (fld : Z) : res Z :=
  d ← kr_get_field_def h r fld; Ok (fd_length d).

(** The address of a field, [pRecBuf] plus the offset of its definition. *)
Definition kr_get_field_value (h : T_KRDB) (r : recptr) (fld : Z) : res keyref :=
  _ ← kr_get_field_def h r fld; Ok (KRef r fld).

(** What a key points to. *)
Definition content (h : T_KRDB) (k : keyref) : option keyptr :=
  match k with
  | KVal c => Some c
  | KRef r fld =>
      match record_at h r with
      | Ok rc => match nth_field (pRecBuf rc) fld with Ok c => Some c | Fault _ => None end
      | Fault _ => None
      end
  end.
Definition deref (h : T_KRDB) (k : keyref) : res keyptr := of_option BadPointer (content h k).

(** The comparison of a sorted list: the types compared are both of the first record;
    the differences are converted to [int]. *)
Definition compare_values (ty : E_KRType) (v1 v2 : keyptr) : res Z :=
  match ty, v1, v2 with
  | KR_TYPE_INT, KeyInt a, KeyInt b => Ok (i32 (a - b))
  | KR_TYPE_LONG, KeyLong a, KeyLong b => Ok (i32 (i64 (a - b)))
  | KR_TYPE_DOUBLE, KeyDouble a, KeyDouble b => d_to_i32 (d_sub a b)
  | KR_TYPE_STRING, KeyString a, KeyString b => Ok (strcmp a b)
  | KR_TYPE_POINTER, KeyPointer a, KeyPointer b => Ok (i32 (i32 a - i32 b))
  | (KR_TYPE_INT | KR_TYPE_LONG | KR_TYPE_DOUBLE | KR_TYPE_STRING | KR_TYPE_POINTER), _, _ =>
      Fault TypePun
  | _, _, _ => Ok 0
  end.

Definition kr_db_field_compare (h : T_KRDB) (r1 r2 : recptr) (fld : Z) : res Z :=
  ty ← kr_get_field_type h r1 fld;
  p1 ← kr_get_field_value h r1 fld; p2 ← kr_get_field_value h r2 fld;
  v1 ← deref h p1; v2 ← deref h p2;
  compare_values ty v1 v2.

(** * Look-ups by id *)

Definition kr_get_table (h : T_KRDB) (id : Z) : option ptr :=
  List.find (fun p => match tables h !! p with Some t => iTableId t =? id | None => false end)
    (pTableList h).
Definition find_index (h : T_KRDB) (l : list ptr) (id : Z) : option ptr :=
  List.find (fun p => match indexes h !! p with Some i => iIndexId i =? id | None => false end) l.
Definition kr_get_table_index (h : T_KRDB) (t : T_KRTable) (id : Z) : option ptr :=
  find_index h (pIndexList t) id.
Definition kr_get_db_index (h : T_KRDB) (id : Z) : option ptr := find_index h (pDBIndexList h) id.

(** * The hash tables

    The functions of a type on what the keys point to.  A pointer that leads nowhere,
    or to a value of another type, is never passed to a table: the operations read the
    key first. *)

Definition key_hash_of (h : T_KRDB) (ty : E_KRType) (k : keyref) : Z :=
  match content h k with Some c => set_hash ty c | None => 0 end.
Definition key_equal_of (h : T_KRDB) (ty : E_KRType) : option (keyref -> keyref -> bool) :=
  Some (fun a b =>
    match content h a, content h b with
    | Some x, Some y => set_equal_fun ty x y
    | None, None => true
    | _, _ => false
    end).

Definition read_ht (p : ptr) : M T_KRDB htable := fun h =>
  match hts h !! p with Some t => Ok (t, h) | None => Fault BadPointer end.
Definition read_key (ty : E_KRType) (k : keyref) : M T_KRDB unit := fun h =>
  match deref h k with
  | Ok c => match read_element ty c with Ok _ => Ok (tt, h) | Fault f => Fault f end
  | Fault f => Fault f
  end.

Definition ht_lookup (p : ptr) (k : keyref) : M T_KRDB (option ptr) :=
  t ← read_ht p;
  read_key (ht_type t) k;;
  h ← get_state;
  lift (kr_hashtable_lookup (key_hash_of h (ht_type t)) (key_equal_of h (ht_type t))
          (Some (ht_table t)) k).

Definition ht_replace (p : ptr) (k : keyref) (v : option ptr) : M T_KRDB unit :=
  t ← read_ht p;
  read_key (ht_type t) k;;
  h ← get_state;
  '(t', _) ← lift (kr_hashtable_replace (key_hash_of h (ht_type t)) (key_equal_of h (ht_type t))
                     (ht_table t) k v);
  put_state (set_hts h (<[p := mkHt (ht_type t) t']> (hts h))).

Definition ht_remove (p : ptr) (k : keyref) : M T_KRDB unit :=
  t ← read_ht p;
  read_key (ht_type t) k;;
  h ← get_state;
  '(_, t', _) ← lift (kr_hashtable_remove (key_hash_of h (ht_type t)) (key_equal_of h (ht_type t))
                        (Some (ht_table t)) k);
  t' ← lift (of_option NullDeref t');
  put_state (set_hts h (<[p := mkHt (ht_type t) t']> (hts h))).

(** * Index maintenance *)

(** [kr_list_add_sorted], from the tail: after the last record that is not greater. *)
Fixpoint add_sorted_rev (cmp : recptr -> res Z) (r : recptr) (l : list recptr) : res (list recptr) :=
  match l with
  | [] => Ok [r]
  | w :: l' =>
      c ← cmp w;
      if 0 <=? c then Ok (r :: l) else (l'' ← add_sorted_rev cmp r l'; Ok (w :: l''))
  end.
Definition list_add_sorted (cmp : recptr -> res Z) (r : recptr) (l : list recptr)
    : res (list recptr) := l' ← add_sorted_rev cmp r (reverse l); Ok (reverse l').

(** [kr_list_remove]: the first node with the pointer. *)
Fixpoint list_remove (r : recptr) (l : list recptr) : list recptr :=
  match l with
  | [] => []
  | w :: l' => if bool_decide (w = r) then l' else w :: list_remove r l'
  end.

Definition new_reclist : M T_KRDB ptr := fun h =>
  let p := fresh (dom (reclists h)) in Ok (p, set_reclists h (<[p := []]> (reclists h))).

Definition kr_rebuild_index_ins (krindex : ptr) (krrecord : recptr) : M T_KRDB unit :=
  ix ← read_index krindex;
  h ← get_state;
  key ← lift (kr_get_field_value h krrecord (iIndexFieldId ix));
  found ← ht_lookup (pHashTable ix) key;
  pRecList ← match found with Some p => mret p | None => new_reclist end;
  l ← read_reclist pRecList;
  h ← get_state;
  l ← (if 0 <=? iSortFieldId ix
       then lift (list_add_sorted (fun w => kr_db_field_compare h krrecord w (sort_argument krindex))
                    krrecord l)
       else mret (l ++ [krrecord]));
  write_reclist pRecList l;;
  ht_replace (pHashTable ix) key (Some pRecList).

Definition kr_rebuild_index_del (krindex : ptr) (krrecord : recptr) : M T_KRDB unit :=
  ix ← read_index krindex;
  h ← get_state;
  key ← lift (kr_get_field_value h krrecord (iIndexFieldId ix));
  found ← ht_lookup (pHashTable ix) key;
  (* kr_list_length dereferences the list, NULL or not *)
  pRecList ← lift (of_option NullDeref found);
  l ← read_reclist pRecList;
  write_reclist pRecList (list_remove krrecord l);;
  match last (list_remove krrecord l) with
  | Some ptRecord =>
      h ← get_state;
      '(t1, _) ← lift (record_table h krrecord);
      '(t2, tb2) ← lift (record_table h ptRecord);
      newIndex ← (if bool_decide (t1 = t2) then mret ix
                  else p ← lift (of_option NullDeref (kr_get_table_index h tb2 (iIndexId ix)));
                       read_index p);
      key ← lift (kr_get_field_value h ptRecord (iIndexFieldId newIndex));
      ht_replace (pHashTable newIndex) key (Some pRecList)
  | None =>
      h ← get_state;
      put_state (set_reclists h (delete pRecList (reclists h)));;
      ht_remove (pHashTable ix) key
  end.

(** [kr_list_foreach] over the indexes of a table. *)
Fixpoint foreach_index (f : ptr -> M T_KRDB unit) (l : list ptr) : M T_KRDB unit :=
  match l with
  | [] => mret tt
  | p :: l' => f p;; foreach_index f l'
  end.

Definition kr_insert_record (krrecord : recptr) (krtable : ptr) : M T_KRDB Z :=
  t ← read_table krtable;
  foreach_index (fun p => kr_rebuild_index_ins p krrecord) (pIndexList t);;
  t ← read_table krtable;
  let num := u32 (uiRecordNum t + 1) in
  let num := if lSizeKeepValue t <? num then u32 (lSizeKeepValue t) else num in
  if lSizeKeepValue t =? 0 then fail DivByZero
  else
    write_table krtable (fun t =>
      set_loc_num t (u32 (Z.rem (u32 (uiRecordLoc t + 1)) (lSizeKeepValue t))) num);;
    mret 0.

(** The test that the unsigned number is negative is never true. *)
Definition kr_delete_record (krrecord : recptr) (krtable : ptr) : M T_KRDB unit :=
  t ← read_table krtable;
  foreach_index (fun p => kr_rebuild_index_del p krrecord) (pIndexList t);;
  write_table krtable (fun t => set_loc_num t (uiRecordLoc t) (u32 (uiRecordNum t - 1))).

(** * The bytes of a record *)

(** [sizeof(T_KRRecord)] *)
Definition RECORD_HEADER : Z := 16.

(** A string is followed by its zero. *)
Definition field_size (ty : E_KRType) (len : Z) : Z :=
  match ty with KR_TYPE_STRING => len + 1 | _ => len end.

(** The bytes that writing a value takes. *)
Definition value_size (c : keyptr) : Z :=
  match c with
  | KeyInt _ => 4
  | KeyLong _ | KeyDouble _ | KeyPointer _ => 8
  | KeyString s => Z.of_nat (String.length s) + 1
  end.

(** The slot that [&pRecordBuff[uiRecordLoc * iRecordSize]] is, by the unsigned product. *)
Definition record_slot (t : T_KRTable) : res nat :=
  let offset := u32 (uiRecordLoc t * iRecordSize t) in
  if iRecordSize t <? RECORD_HEADER then Fault OutOfBounds
  else if offset mod iRecordSize t =? 0 then Ok (Z.to_nat (offset / iRecordSize t))
  else Fault TypePun.

(** The fields lie behind each other, and within [size] bytes. *)
Fixpoint fields_apart (size from : Z) (defs : list T_KRFieldDef) : bool :=
  match defs with
  | [] => from <=? size
  | d :: defs' =>
      let bytes := field_size (fd_type d) (fd_length d) in
      (from <=? fd_offset d) && (0 <=? bytes) && fields_apart size (fd_offset d + bytes) defs'
  end.

Definition value_fits (d : T_KRFieldDef) (c : keyptr) : bool :=
  value_size c <=? field_size (fd_type d) (fd_length d).

(** * Insertion *)

(** What the module's function makes of every field. *)
Definition assigned (t : T_KRTable) (msg : Data) : list keyptr :=
  let data := match pMapFuncPre t with Some f => f msg | None => msg end in
  imap (fun i d => pMapFunc t data (Z.of_nat i) (fd_length d)) (ptFieldDef t).

(** The values are the contents of the fields when no write reaches another field. *)
Definition kr_assign_field_value (t : T_KRTable) (msg : Data) : res (list keyptr) :=
  if fields_apart (iRecordSize t - RECORD_HEADER) 0 (ptFieldDef t) &&
     forallb (fun x => value_fits x.1 x.2) (zip (ptFieldDef t) (assigned t msg))
  then Ok (assigned t msg) else Fault TypePun.

Definition write_record (r : recptr) (rc : T_KRRecord) : M T_KRDB unit :=
  write_table r.1 (fun t => set_buff t (<[r.2 := rc]> (pRecordBuff t))).

Definition kr_create_record_from_data (krtable : ptr) (data : Data) : M T_KRDB recptr :=
  t ← read_table krtable;
  slot ← lift (record_slot t);
  let ptRecord := (krtable, slot) in
  h ← get_state;
  rc ← lift (record_at h ptRecord);
  match ptTable rc with Some p => kr_delete_record ptRecord p | None => mret tt end;;
  fs ← lift (kr_assign_field_value t data);
  write_record ptRecord (mkRecord (Some krtable) fs);;
  mret ptRecord.

(** [None]: there is no such table. *)
Definition kr_db_insert (iTableId : Z) (ptReqData : Data) : M T_KRDB (option recptr) :=
  h ← get_state;
  match kr_get_table h iTableId with
  | None => mret None
  | Some ptTable =>
      ptRecord ← kr_create_record_from_data ptTable ptReqData;
      rc ← kr_insert_record ptRecord ptTable;
      if negb (rc =? 0) then mret None else mret (Some ptRecord)
  end.

(** * Selection *)

Definition kr_get_record_list (ix : T_KRIndex) (key : keyref) : M T_KRDB (option ptr) :=
  ht_lookup (pHashTable ix) key.

Definition kr_db_select (iTableId iIndexId : Z) (key : keyref) : M T_KRDB (option ptr) :=
  h ← get_state;
  match kr_get_table h iTableId with
  | None => mret None
  | Some p =>
      t ← read_table p;
      match kr_get_table_index h t iIndexId with
      | None => mret None
      | Some ix => ix ← read_index ix; kr_get_record_list ix key
      end
  end.

(** * Creation *)

(** A row of the cursor on the fields of a table, on its indexes, on the tables. *)
Record field_row := mkFieldRow { fr_id : Z; fr_type : E_KRType; fr_length : Z }.
Record index_row := mkIndexRow {
  ir_id : Z; ir_type : E_KRIndexType; ir_field : Z; ir_sort : Z
}.
Record table_row := mkTableRow {
  tr_id : Z; tr_keep : Z; tr_field_cnt : Z;
  tr_fields : list field_row; tr_indexes : list index_row;
  tr_map_pre : option (Data -> Data); tr_map : option (Data -> Z -> Z -> keyptr);
  tr_map_post : bool
}.

(** [_kr_db_load_field_def]: the numbers of a row are [long], those of a definition [int]
    and, for the offset, [size_t]. *)
Fixpoint load_fields (rows : list field_row) (offset : Z) : list T_KRFieldDef :=
  match rows with
  | [] => []
  | r :: rows' =>
      mkFieldDef (i32 (fr_id r)) (fr_type r) (i32 (fr_length r)) offset ::
      load_fields rows' (u64 (offset + field_size (fr_type r) (i32 (fr_length r))))
  end.

Definition empty_field_def : T_KRFieldDef := mkFieldDef 0 KR_TYPE_UNKNOWN 0 0.

(** The array has room for [cnt] definitions. *)
Definition _kr_db_load_field_def (rows : list field_row) (cnt : Z) : res (list T_KRFieldDef) :=
  if cnt <? Z.of_nat (length rows) then Fault OutOfBounds
  else Ok (load_fields rows 0 ++ replicate (Z.to_nat cnt - length rows) empty_field_def).

Definition KR_MEMALIGN (size : Z) : Z := Z.land (size + 15) (Z.lnot 15).

(** The sum is an [int]. *)
Definition record_size (defs : list T_KRFieldDef) : Z :=
  i32 (KR_MEMALIGN (i32 (foldl (fun s d => i32 (s + field_size (fd_type d) (fd_length d)))
                           RECORD_HEADER defs))).

Definition kr_create_table (row : table_row) (map_func : Data -> Z -> Z -> keyptr)
    : M T_KRDB ptr := 
  defs ← lift (_kr_db_load_field_def (tr_fields row) (tr_field_cnt row));
  h ← get_state;
  let p := fresh (dom (tables h)) in
  let t := mkTable (tr_id row) (tr_map_pre row) map_func (tr_keep row) (record_size defs)
             (replicate (Z.to_nat (tr_keep row)) (mkRecord None [])) defs 0 0 [] in
  put_state (mkDB (<[p := t]> (tables h)) (indexes h) (hts h) (reclists h)
               (pTableList h ++ [p]) (pDBIndexList h));;
  mret p.

(** The hash table of a new index. *)
Definition new_ht (ty : E_KRType) : M T_KRDB ptr :=
  t ← lift kr_hashtable_new;
  h ← get_state;
  let p := fresh (dom (hts h)) in
  put_state (set_hts h (<[p := mkHt ty t]> (hts h)));;
  mret p.

Definition add_index (krtable : ptr) (ix : T_KRIndex) (to_db : bool) : M T_KRDB ptr :=
  h ← get_state;
  let p := fresh (dom (indexes h)) in
  put_state (mkDB (tables h) (<[p := ix]> (indexes h)) (hts h) (reclists h) (pTableList h)
               (if to_db then pDBIndexList h ++ [p] else pDBIndexList h));;
  write_table krtable (fun t => set_index_list t (pIndexList t ++ [p]));;
  mret p.

Definition kr_create_index (krtable : ptr) (row : index_row) : M T_KRDB (option ptr) :=
  t ← read_table krtable;
  d ← lift (nth_field (ptFieldDef t) (ir_field row));
  let index q := mkIndex (ir_id row) (ir_type row) (ir_field row) (ir_sort row) q in
  match ir_type row with
  | KR_INDEXTYPE_TABLE =>
      q ← new_ht (fd_type d);
      p ← add_index krtable (index q) false;
      mret (Some p)
  | KR_INDEXTYPE_DB =>
      h ← get_state;
      match kr_get_db_index h (ir_id row) with
      | Some ptDBIndex =>
          dbix ← read_index ptDBIndex;
          p ← add_index krtable (index (pHashTable dbix)) false;
          mret (Some p)
      | None =>
          q ← new_ht (fd_type d);
          p ← add_index krtable (index q) true;
          mret (Some p)
      end
  | KR_INDEXTYPE_OTHER => mret None
  end.

(** The loop stops at an index that cannot be made, without an error. *)
Fixpoint _kr_db_build_index (krtable : ptr) (rows : list index_row) : M T_KRDB Z :=
  match rows with
  | [] => mret 0
  | r :: rows' =>
      p ← kr_create_index krtable r;
      match p with
      | None => mret 0
      | Some _ => _kr_db_build_index krtable rows'
      end
  end.

Definition kr_create_db : T_KRDB := mkDB ∅ ∅ ∅ ∅ [] [].

(** The loop over the tables: [false] when a mapping function is missing. *)
Fixpoint startup_tables (rows : list table_row) : M T_KRDB bool :=
  match rows with
  | [] => mret true
  | r :: rows' =>
      match tr_map_pre r, tr_map r, tr_map_post r with
      | Some _, Some f, true =>
          p ← kr_create_table r f;
          rc ← _kr_db_build_index p (tr_indexes r);
          if negb (rc =? 0) then mret false else startup_tables rows'
      | _, _, _ => mret false
      end
  end.

Definition kr_db_startup (rows : list table_row) : res (option T_KRDB) :=
  '(ok, h) ← startup_tables rows kr_create_db;
  Ok (if (ok : bool) then Some h else None).

End KrDb.

(** * Hash tables whose keys are read in memory

    A table keeps what it holds while its keys lead to the same values. *)

Section RepExt.
Context {K V C : Type} `{Countable C}.

Lemma hashtable_rep_ext (hash1 hash2 : K -> Z) (repr1 repr2 : K -> C)
    (t : T_KRHashTable (K:=K) (V:=V)) m :
  hashtable_rep hash1 repr1 t m ->
  (forall c k v, m !! c = Some (k, v) -> repr2 k = c /\ hash2 k = hash1 k) ->
  hashtable_rep hash2 repr2 t m.
Proof.
  intros (n & [Hsh [Hlen Hrange Hlive Hcomp Huniq] Hsz Hlv Hoc] & Hload & Hmax) Hext.
  assert (Hhv : forall c k v, m !! c = Some (k, v) -> hash_value hash2 k = hash_value hash1 k).
  { intros c k v Hm. unfold hash_value. by rewrite (proj2 (Hext c k v Hm)). }
  exists n. split; [|done]. split; try done. split; try done.
  - intros i nd Hi Hl. destruct (Hlive i nd Hi Hl) as (k & Hk & Hh & Hm & Hp).
    exists k. rewrite (Hhv _ _ _ Hm). rewrite (proj1 (Hext _ _ _ Hm)). by split_and!.
  - intros c k v Hm. destruct (Hcomp c k v Hm) as (_ & i & Hi).
    split; [by apply (Hext c k v)|]. exists i. by rewrite (Hhv _ _ _ Hm).
  - intros i j nd1 nd2 k1 k2 Hi Hj Hl1 Hl2 Hk1 Hk2 Heq.
    apply (Huniq i j nd1 nd2 k1 k2); try done.
    destruct (Hlive i nd1 Hi Hl1) as (k1' & Hk1' & _ & Hm1 & _).
    destruct (Hlive j nd2 Hj Hl2) as (k2' & Hk2' & _ & Hm2 & _).
    rewrite Hk1 in Hk1'. rewrite Hk2 in Hk2'. simplify_eq.
    pose proof (proj1 (Hext _ _ _ Hm1)). pose proof (proj1 (Hext _ _ _ Hm2)). congruence.
Qed.

End RepExt.

Section Lemmas.
Context {Data : Type} {SA : SortArgument}.
Implicit Types (h : T_KRDB (Data:=Data)) (t : T_KRTable (Data:=Data)) (r : recptr) (k : keyref)
  (c : keyptr) (q : ptr) (l : list recptr).

#[local] Instance db_keys h ty : exact_type ty = true ->
  HashKeys (key_hash_of h ty) (key_equal_of h ty) (content h).
Proof.
  intros Hty. split.
  - intros k1 k2. simpl. pose proof (set_keys ty Hty) as HK.
    destruct (content h k1) as [x|], (content h k2) as [y|];
      [|by rewrite bool_decide_false|by rewrite bool_decide_false|by rewrite bool_decide_true].
    pose proof (keys_equal (hash_func:=set_hash ty) (repr:=fun k : keyptr => k) x y) as He.
    unfold set_equal, set_equal_fun in *.
    destruct (kr_get_equal_func ty) as [f|] eqn:Hf; [|by destruct ty]. rewrite He.
    apply bool_decide_ext. naive_solver.
  - intros k1 k2 He. unfold key_hash_of. by rewrite He.
Qed.

(** The value of a record that a hash table indexes: that of the field of the index its
    table has on it. *)
Definition index_on h q t : option T_KRIndex :=
  list_find (fun ix => pHashTable ix = q) (omap (fun p => indexes h !! p) (pIndexList t)) ≫=
    fun x => Some x.2.

Definition key_ref h q r : option keyref :=
  t ← tables h !! r.1; ix ← index_on h q t; Some (KRef r (iIndexFieldId ix)).
Definition key_of h q r : option keyptr := k ← key_ref h q r; content h k.

(** The records of [l] with a value. *)
Definition records_of h q c l : list recptr := filter (fun r => key_of h q r = Some c) l.

(** No index on the table sorts its lists. *)
Definition unsorted h q : Prop :=
  forall p t ix, tables h !! p = Some t -> index_on h q t = Some ix -> iSortFieldId ix < 0.

(** [own]: the table and the value each list of records is for. *)
Definition same_records h q (rs l : list recptr) : Prop :=
  rs ≡ₚ l /\ (unsorted h q -> rs = l).

Definition entry_ok h (own : ptr -> option (ptr * keyptr)) q l (oc : option keyptr)
    (e : option (keyref * option ptr)) : Prop :=
  match e with
  | Some (k, v) =>
      exists c lp rs r, oc = Some c /\ v = Some lp /\ own lp = Some (q, c) /\
        reclists h !! lp = Some rs /\ rs <> [] /\ r ∈ rs /\ key_ref h q r = Some k /\
        same_records h q rs (records_of h q c l)
  | None => forall c, oc = Some c -> records_of h q c l = []
  end.

(** The hash table [q] indexes the records [l], in their order. *)
Definition ht_ok h own q (l : list recptr) : Prop :=
  exists ty T m, hts h !! q = Some (mkHt ty T) /\ exact_type ty = true /\
    hashtable_rep (key_hash_of h ty) (content h) T m /\
    (forall oc, entry_ok h own q l oc (m !! oc)) /\
    (forall r c, key_of h q r = Some c -> r ∈ l -> key_type c = ty).


(** * What does not change

    [same_view]: two states with the same indexes and tables that differ at most in
    their counters. *)
Definition view t :=
  (iTableId t, lSizeKeepValue t, pRecordBuff t, ptFieldDef t, pIndexList t, pMapFuncPre t, pMapFunc t).

Lemma view_fields t t' : view t' = view t ->
  iTableId t' = iTableId t /\ lSizeKeepValue t' = lSizeKeepValue t /\
  pRecordBuff t' = pRecordBuff t /\ ptFieldDef t' = ptFieldDef t /\ pIndexList t' = pIndexList t.
Proof. unfold view. intros H. injection H. auto 10. Qed.

Record same_view h h' : Prop := {
  sv_indexes : indexes h' = indexes h;
  sv_lists : pTableList h' = pTableList h;
  sv_dblists : pDBIndexList h' = pDBIndexList h;
  sv_tables : forall p, view <$> tables h' !! p = view <$> tables h !! p
}.

Lemma same_view_refl h : same_view h h.
Proof. by split. Qed.
Lemma same_view_trans h1 h2 h3 : same_view h1 h2 -> same_view h2 h3 -> same_view h1 h3.
Proof. intros [] []. split; etransitivity; eauto. Qed.
Lemma same_view_sym h1 h2 : same_view h1 h2 -> same_view h2 h1.
Proof. by intros []. Qed.
Lemma set_hts_view h x : same_view h (set_hts h x).
Proof. by split. Qed.
Lemma set_reclists_view h x : same_view h (set_reclists h x).
Proof. by split. Qed.

Lemma same_view_table h h' p t : same_view h h' -> tables h !! p = Some t ->
  exists t', tables h' !! p = Some t' /\ view t' = view t.
Proof.
  intros Hv Ht. pose proof (sv_tables _ _ Hv p) as Hp. rewrite Ht in Hp.
  destruct (tables h' !! p) as [t'|]; [|done]. exists t'. split; [done|]. by apply (inj Some) in Hp.
Qed.

Lemma same_view_none h h' p : same_view h h' -> tables h !! p = None -> tables h' !! p = None.
Proof.
  intros Hv Ht. pose proof (sv_tables _ _ Hv p) as Hp. rewrite Ht in Hp.
  by destruct (tables h' !! p).
Qed.

Lemma record_at_view h h' r : same_view h h' -> record_at h' r = record_at h r.
Proof.
  intros Hv. unfold record_at. destruct (tables h !! r.1) as [t|] eqn:Ht.
  - destruct (same_view_table _ _ _ _ Hv Ht) as (t' & -> & (_ & _ & Hb & _)%view_fields). simpl. by rewrite Hb.
  - by rewrite (same_view_none _ _ _ Hv Ht).
Qed.

Lemma content_view h h' k : same_view h h' -> content h' k = content h k.
Proof. intros Hv. destruct k; [|done]. simpl. by rewrite (record_at_view _ _ _ Hv). Qed.

Lemma index_on_view h h' q t t' : same_view h h' -> view t' = view t ->
  index_on h' q t' = index_on h q t.
Proof.
  intros Hv (_ & _ & _ & _ & Hi)%view_fields. unfold index_on. by rewrite (sv_indexes _ _ Hv), Hi.
Qed.

Lemma key_ref_view h h' q r : same_view h h' -> key_ref h' q r = key_ref h q r.
Proof.
  intros Hv. unfold key_ref. destruct (tables h !! r.1) as [t|] eqn:Ht.
  - destruct (same_view_table _ _ _ _ Hv Ht) as (t' & -> & Hvt). simpl.
    by rewrite (index_on_view _ _ _ _ _ Hv Hvt).
  - by rewrite (same_view_none _ _ _ Hv Ht).
Qed.

Lemma key_of_view h h' q r : same_view h h' -> key_of h' q r = key_of h q r.
Proof.
  intros Hv. unfold key_of. rewrite (key_ref_view _ _ _ _ Hv).
  destruct (key_ref h q r); [|done]. simpl. by apply content_view.
Qed.

Lemma records_of_view h h' q c l : same_view h h' -> records_of h' q c l = records_of h q c l.
Proof.
  intros Hv. unfold records_of. apply list_filter_iff. intros r. by rewrite (key_of_view _ _ _ _ Hv).
Qed.

Lemma unsorted_view h h' q : same_view h h' -> unsorted h q -> unsorted h' q.
Proof.
  intros Hv Hu p t' ix Ht' Hix.
  destruct (same_view_table _ _ _ _ (same_view_sym _ _ Hv) Ht') as (t & Ht & Hvt).
  apply (Hu p t ix Ht). by rewrite (index_on_view _ _ _ _ _ (same_view_sym _ _ Hv) Hvt).
Qed.

(** A table of which nothing changed, in a state with the same view. *)
Lemma ht_ok_other h h' own own' q l :
  same_view h h' -> hts h' !! q = hts h !! q ->
  (forall lp c, own lp = Some (q, c) -> own' lp = Some (q, c) /\ reclists h' !! lp = reclists h !! lp) ->
  ht_ok h own q l -> ht_ok h' own' q l.
Proof.
  intros Hv Hq Hown (ty & t & m & Ht & Hty & Hrep & He & Htk). exists ty, t, m.
  split; [by rewrite Hq|]. split; [done|]. split; [|split].
  - eapply hashtable_rep_ext; [exact Hrep|]. intros oc k v Hm.
    destruct Hrep as (n & Hok & _). destruct (no_complete _ _ _ _ _ (tk_nodes _ _ _ _ _ Hok) _ _ _ Hm) as [Hc _].
    unfold key_hash_of. by rewrite (content_view _ _ _ Hv).
  - intros oc. specialize (He oc). destruct (m !! oc) as [[k v]|]; simpl in *.
    + destruct He as (c & lp & rs & r & -> & -> & Ho & Hrs & Hne & Hin & Hk & Hp & Hu).
      destruct (Hown _ _ Ho) as [Ho' Hl']. exists c, lp, rs, r. rewrite Hl'.
      rewrite (key_ref_view _ _ _ _ Hv). unfold same_records. rewrite (records_of_view _ _ _ _ _ Hv).
      split_and!; try done. intros Hun. apply Hu. by apply (unsorted_view _ _ _ (same_view_sym _ _ Hv)).
    + intros c Hc. rewrite (records_of_view _ _ _ _ _ Hv). by apply He.
  - intros r c Hk. rewrite (key_of_view _ _ _ _ Hv) in Hk. by apply Htk.
Qed.

(** * The operations on a hash table *)

Lemma read_key_ok h ty k c : exact_type ty = true -> content h k = Some c -> key_type c = ty ->
  read_key ty k h = Ok (tt, h).
Proof.
  intros Hty Hc Hk. unfold read_key, deref. rewrite Hc. simpl. by rewrite read_element_ok.
Qed.

Lemma ht_lookup_spec h q ty T m k c :
  hts h !! q = Some (mkHt ty T) -> exact_type ty = true ->
  hashtable_rep (key_hash_of h ty) (content h) T m -> content h k = Some c -> key_type c = ty ->
  ht_lookup q k h = Ok (m !! Some c ≫= snd, h).
Proof.
  intros Hq Hty Hrep Hc Hk. unfold ht_lookup, mbind, M_bind, read_ht. rewrite Hq. simpl.
  rewrite (read_key_ok h ty k c) by done. simpl.
  pose proof (db_keys h ty Hty) as HK.
  unfold lift. rewrite (lookup_spec _ _ (content h) _ m k Hrep), Hc. done.
Qed.

Lemma ht_replace_spec h q ty T m k c v :
  hts h !! q = Some (mkHt ty T) -> exact_type ty = true ->
  hashtable_rep (key_hash_of h ty) (content h) T m -> content h k = Some c -> key_type c = ty ->
  Z.of_nat (base.size m) < MAX_ENTRIES ->
  exists T', ht_replace q k v h = Ok (tt, set_hts h (<[q := mkHt ty T']> (hts h))) /\
    hashtable_rep (key_hash_of h ty) (content h) T' (<[Some c := (k, v)]> m).
Proof.
  intros Hq Hty Hrep Hc Hk Hsz. unfold ht_replace, mbind, M_bind, read_ht. rewrite Hq. simpl.
  rewrite (read_key_ok h ty k c) by done. simpl.
  pose proof (db_keys h ty Hty) as HK.
  destruct (insert_internal_spec (key_hash_of h ty) (key_equal_of h ty) (content h) T m k v true
              Hrep Hsz) as (T' & Hi & Hrep' & _).
  unfold lift, kr_hashtable_replace. rewrite Hi. exists T'. split; [done|].
  rewrite Hc in Hrep'. unfold kept_key in Hrep'. by destruct (m !! Some c) as [[]|].
Qed.

Lemma ht_remove_spec h q ty T m k c :
  hts h !! q = Some (mkHt ty T) -> exact_type ty = true ->
  hashtable_rep (key_hash_of h ty) (content h) T m -> content h k = Some c -> key_type c = ty ->
  exists T', ht_remove q k h = Ok (tt, set_hts h (<[q := mkHt ty T']> (hts h))) /\
    hashtable_rep (key_hash_of h ty) (content h) T' (delete (Some c) m).
Proof.
  intros Hq Hty Hrep Hc Hk. unfold ht_remove, mbind, M_bind, read_ht. rewrite Hq. simpl.
  rewrite (read_key_ok h ty k c) by done. simpl.
  pose proof (db_keys h ty Hty) as HK.
  destruct (remove_internal_spec (key_hash_of h ty) (key_equal_of h ty) (content h) T m k true
              Hrep) as (T' & Hi & Hrep' & _).
  unfold lift, kr_hashtable_remove. rewrite Hi. exists T'. split; [done|]. by rewrite Hc in Hrep'.
Qed.

End Lemmas.

(** * The shape of a database

    Indexes are on fields of the tables, of the types of their hash tables; two indexes
    of a table have different ids and tables; indexes that share a hash table have one
    id, and sort by fields of one type. *)

Section Shape.
Context {Data : Type} {SA : SortArgument}.
Implicit Types (h : T_KRDB (Data:=Data)) (t : T_KRTable (Data:=Data)) (r : recptr) (k : keyref)
  (c : keyptr) (q : ptr) (l : list recptr) (ix : T_KRIndex).

Definition has_index h (p : ptr) t (ixp : ptr) ix : Prop :=
  tables h !! p = Some t /\ ixp ∈ pIndexList t /\ indexes h !! ixp = Some ix.

Record shape h : Prop := {
  sh_index : forall p t ixp, tables h !! p = Some t -> ixp ∈ pIndexList t ->
    exists ix, indexes h !! ixp = Some ix;
  sh_field : forall p t ixp ix, has_index h p t ixp ix ->
    exists d x, 0 <= iIndexFieldId ix /\ ptFieldDef t !! Z.to_nat (iIndexFieldId ix) = Some d /\
      exact_type (fd_type d) = true /\ hts h !! pHashTable ix = Some x /\ ht_type x = fd_type d;
  sh_nodup : forall p t, tables h !! p = Some t -> NoDup (pIndexList t);
  sh_distinct : forall p t i1 i2 ix1 ix2, has_index h p t i1 ix1 -> has_index h p t i2 ix2 ->
    pHashTable ix1 = pHashTable ix2 \/ iIndexId ix1 = iIndexId ix2 -> i1 = i2;
  sh_share : forall p1 t1 i1 ix1 p2 t2 i2 ix2, has_index h p1 t1 i1 ix1 -> has_index h p2 t2 i2 ix2 ->
    pHashTable ix1 = pHashTable ix2 ->
    iIndexId ix1 = iIndexId ix2;
  sh_unsorted : forall p t ixp ix, has_index h p t ixp ix -> iSortFieldId ix < 0
}.

(** A record in use: its fields have the types of their definitions. *)
Definition rec_ok h r : Prop :=
  exists t fs, tables h !! r.1 = Some t /\ record_at h r = Ok (mkRecord (Some r.1) fs) /\
    Forall2 (fun f d => key_type f = fd_type d) fs (ptFieldDef t).

Lemma index_on_Some h q t ix : index_on h q t = Some ix ->
  exists ixp, ixp ∈ pIndexList t /\ indexes h !! ixp = Some ix /\ pHashTable ix = q.
Proof.
  unfold index_on. destruct (list_find _ _) as [[i ix']|] eqn:Hf; [|done]. intros [= ->].
  apply list_find_Some in Hf as (Hi & Hq & _).
  apply list_elem_of_lookup_2, list_elem_of_omap in Hi as (ixp & Hin & Hx). by exists ixp.
Qed.

Lemma index_on_in h p t ixp ix : shape h -> has_index h p t ixp ix ->
  index_on h (pHashTable ix) t = Some ix.
Proof.
  intros Hsh (Ht & Hin & Hix). unfold index_on.
  destruct (list_find (fun ix0 => pHashTable ix0 = pHashTable ix)
              (omap (fun p => indexes h !! p) (pIndexList t))) as [[i ix']|] eqn:Hf.
  - apply list_find_Some in Hf as (Hi & Hq & _).
    apply list_elem_of_lookup_2, list_elem_of_omap in Hi as (ixp' & Hin' & Hx). simpl.
    assert (ixp' = ixp) as -> by (eapply (sh_distinct _ Hsh p t); [done|done|by left]).
    by rewrite Hix in Hx.
  - apply list_find_None in Hf. rewrite Forall_forall in Hf.
    destruct (Hf ix); [|done]. apply list_elem_of_omap. by exists ixp.
Qed.

Lemma nth_field_ok {A} (l : list A) (fld : Z) x : 0 <= fld -> l !! Z.to_nat fld = Some x ->
  nth_field l fld = Ok x.
Proof. intros H0 Hx. unfold nth_field. rewrite Hx. by assert (fld <? 0 = false) as -> by lia. Qed.

Lemma rec_ok_table h r : rec_ok h r -> exists t, tables h !! r.1 = Some t /\ record_table h r = Ok (r.1, t).
Proof.
  intros (t & fs & Ht & Hr & _). exists t. split; [done|]. unfold record_table. rewrite Hr. simpl.
  by rewrite Ht.
Qed.

Lemma rec_ok_field h r t fld d : rec_ok h r -> tables h !! r.1 = Some t -> 0 <= fld ->
  ptFieldDef t !! Z.to_nat fld = Some d ->
  kr_get_field_value h r fld = Ok (KRef r fld) /\ kr_get_field_type h r fld = Ok (fd_type d) /\
  exists c, content h (KRef r fld) = Some c /\ key_type c = fd_type d.
Proof.
  intros Hok Ht H0 Hd. destruct (rec_ok_table _ _ Hok) as (t' & Ht' & Hrt).
  rewrite Ht in Ht'. injection Ht' as <-.
  assert (Hdef : kr_get_field_def h r fld = Ok d).
  { unfold kr_get_field_def. rewrite Hrt. simpl. by apply nth_field_ok. }
  unfold kr_get_field_value, kr_get_field_type. rewrite Hdef. split; [done|]. split; [done|].
  destruct Hok as (t' & fs & Ht' & Hr & Hfs). rewrite Ht in Ht'. injection Ht' as <-.
  destruct (Forall2_lookup_r _ _ _ _ _ Hfs Hd) as (c & Hc & Hck). exists c. split; [|done].
  simpl. rewrite Hr. simpl. by rewrite (nth_field_ok _ _ _ H0 Hc).
Qed.

(** The key of a record in use. *)
Lemma rec_key h p t ixp ix r : shape h -> has_index h p t ixp ix -> rec_ok h r -> r.1 = p ->
  exists c x, kr_get_field_value h r (iIndexFieldId ix) = Ok (KRef r (iIndexFieldId ix)) /\
    content h (KRef r (iIndexFieldId ix)) = Some c /\
    key_ref h (pHashTable ix) r = Some (KRef r (iIndexFieldId ix)) /\
    key_of h (pHashTable ix) r = Some c /\
    hts h !! pHashTable ix = Some x /\ key_type c = ht_type x /\ exact_type (ht_type x) = true.
Proof.
  intros Hsh Hi Hok Hp. pose proof Hi as (Ht & _ & _).
  destruct (sh_field _ Hsh _ _ _ _ Hi) as (d & x & H0 & Hd & Hex & Hx & Hxt). subst p.
  destruct (rec_ok_field h r t _ d Hok Ht H0 Hd) as (Hv & _ & c & Hc & Hct). exists c, x.
  assert (Hk : key_ref h (pHashTable ix) r = Some (KRef r (iIndexFieldId ix))).
  { unfold key_ref. rewrite Ht. simpl. by rewrite (index_on_in _ _ _ _ _ Hsh Hi). }
  split; [done|]. split; [done|]. split; [done|]. split; [unfold key_of; by rewrite Hk|].
  split; [done|]. by rewrite Hxt.
Qed.

Lemma list_remove_perm r l : r ∈ l -> l ≡ₚ r :: list_remove r l.
Proof.
  induction l as [|w l IH]; intros Hin; [by apply not_elem_of_nil in Hin|]. simpl.
  case_bool_decide as Hw; [by subst|]. apply elem_of_cons in Hin as [->|Hin]; [done|].
  rewrite (IH Hin) at 1. apply Permutation_swap.
Qed.

Lemma list_remove_filter r l : NoDup l -> list_remove r l = filter (fun w => w <> r) l.
Proof.
  induction l as [|w l IH]; intros Hnd; [done|]. apply NoDup_cons in Hnd as [Hw Hnd]. simpl.
  case_bool_decide as Heq.
  - subst w. rewrite filter_cons_False by naive_solver. symmetry.
    clear IH Hnd. induction l as [|x l IH]; [done|].
    rewrite filter_cons_True by set_solver. f_equal. apply IH. set_solver.
  - rewrite filter_cons_True by done. by rewrite IH.
Qed.

End Shape.

(** * Maintenance keeps the indexes right *)

Section Maintain.
Context {Data : Type} {SA : SortArgument}.
Implicit Types (h : T_KRDB (Data:=Data)) (t : T_KRTable (Data:=Data)) (r : recptr) (k : keyref)
  (c : keyptr) (q : ptr) (l : list recptr) (ix : T_KRIndex) (own : ptr -> option (ptr * keyptr)).

Definition own_ok h own : Prop := forall lp qc, own lp = Some qc -> is_Some (reclists h !! lp).

(** Hash tables keep their types. *)
Definition hts_kept h h' : Prop :=
  forall q, ht_type <$> hts h' !! q = ht_type <$> hts h !! q.

(** What a step on the hash table [q] leaves of the others. *)
Record step_on q h h' own own' : Prop := {
  so_view : same_view h h';
  so_tables : tables h' = tables h;
  so_kept : hts_kept h h';
  so_own : own_ok h' own';
  so_others : forall q' l', q' <> q -> ht_ok h own q' l' -> ht_ok h' own' q' l'
}.

Lemma entry_records h own q l oc k v c : entry_ok h own q l oc (Some (k, v)) -> oc = Some c ->
  exists w, w ∈ l /\ key_of h q w = Some c.
Proof.
  intros (c' & lp & rs & w & -> & _ & _ & _ & _ & Hin & _ & Hp & _) [= ->].
  rewrite Hp in Hin. apply list_elem_of_filter in Hin as [Hw Hl]. by exists w.
Qed.

Lemma entries_size h own q l (m : gmap (option keyptr) (keyref * option ptr)) :
  (forall oc, entry_ok h own q l oc (m !! oc)) -> (base.size m <= length l)%nat.
Proof.
  intros He. rewrite <- length_map_to_list, <- (length_fmap fst), <- (length_fmap (key_of h q) l).
  apply submseteq_length, NoDup_submseteq; [apply NoDup_fst_map_to_list|].
  intros oc ([oc' [k v]] & -> & Hin)%list_elem_of_fmap. apply elem_of_map_to_list in Hin.
  specialize (He oc'). rewrite Hin in He. destruct He as (c & lp & rs & w & He). simpl.
  destruct He as (-> & Hr). destruct (entry_records h own q l (Some c) k v c) as (w' & Hl & Hk).
  - exists c, lp, rs, w. by split.
  - done.
  - rewrite <- Hk. by apply list_elem_of_fmap_2.
Qed.

(** An entry for another value does not see a record that comes or goes. *)
Lemma entry_ok_frame h h' own own' q l l' oc e c :
  same_view h h' -> oc <> Some c ->
  (forall lp qc, own lp = Some qc -> qc <> (q, c) -> own' lp = Some qc /\ reclists h' !! lp = reclists h !! lp) ->
  (forall c', c' <> c -> records_of h q c' l' = records_of h q c' l) ->
  entry_ok h own q l oc e -> entry_ok h' own' q l' oc e.
Proof.
  intros Hv Hne Hown Hl He. destruct e as [[k v]|]; simpl in *.
  - destruct He as (c' & lp & rs & w & -> & -> & Ho & Hrs & Hn & Hin & Hk & Hp & Hu).
    assert (Hc : c' <> c) by congruence.
    destruct (Hown _ _ Ho) as [Ho' Hl']; [congruence|].
    exists c', lp, rs, w. rewrite Hl', (key_ref_view _ _ _ _ Hv). unfold same_records.
    rewrite (records_of_view _ _ _ _ _ Hv), Hl by done. split_and!; try done.
    intros Hun. apply Hu. by apply (unsorted_view _ _ _ (same_view_sym _ _ Hv)).
  - intros c' ->. rewrite (records_of_view _ _ _ _ _ Hv), Hl by congruence. by apply He.
Qed.

Lemma records_of_app_other h q c c' l r :
  key_of h q r = Some c -> c' <> c -> records_of h q c' (l ++ [r]) = records_of h q c' l.
Proof.
  intros Hk Hne. unfold records_of. rewrite filter_app, filter_cons_False by congruence.
  by rewrite app_nil_r.
Qed.
Lemma records_of_app h q c l r :
  key_of h q r = Some c -> records_of h q c (l ++ [r]) = records_of h q c l ++ [r].
Proof. intros Hk. unfold records_of. by rewrite filter_app, filter_cons_True. Qed.

(** The step on [q] and on its list [lp]. *)
Lemma step_on_intro q c (lp : ptr) x h h' own own' :
  same_view h h' -> tables h' = tables h -> hts h' = <[q := x]> (hts h) -> ht_type <$> hts h !! q = Some (ht_type x) ->
  (forall lp', lp' <> lp -> reclists h' !! lp' = reclists h !! lp' /\ own' lp' = own lp') ->
  (own' lp <> None -> is_Some (reclists h' !! lp)) ->
  (own lp = None \/ own lp = Some (q, c)) -> own_ok h own ->
  step_on q h h' own own'.
Proof.
  intros Hv Htb Hh Hx Ho Hl Hlp Hok. split; [done|done| | |].
  - intros q'. rewrite Hh. destruct (decide (q' = q)) as [->|Hne].
    + by rewrite lookup_insert_eq, Hx.
    + by rewrite lookup_insert_ne.
  - intros lp' qc Hqc. destruct (decide (lp' = lp)) as [->|Hne]; [apply Hl; congruence|].
    destruct (Ho _ Hne) as [-> Heq]. rewrite Heq in Hqc. by eapply Hok.
  - intros q' l' Hq' Ht. eapply ht_ok_other; [done| |intros lp' c' Hc'|exact Ht].
    + by rewrite Hh, lookup_insert_ne.
    + assert (Hne : lp' <> lp) by (intros ->; destruct Hlp; congruence).
      destruct (Ho _ Hne) as [-> ->]. done.
Qed.

Lemma key_of_index h q w c : key_of h q w = Some c ->
  exists t ix ixp, has_index h w.1 t ixp ix /\ pHashTable ix = q.
Proof.
  unfold key_of, key_ref. destruct (tables h !! w.1) as [t|] eqn:Ht; [|done]. simpl.
  destruct (index_on h q t) as [ix|] eqn:Hon; [|done]. intros _.
  destruct (index_on_Some _ _ _ _ Hon) as (ixp & Hin & Hx & Hq). by exists t, ix, ixp.
Qed.

Lemma find_table_index h (p : ptr) t (ixp : ptr) ix : shape h -> has_index h p t ixp ix ->
  find_index h (pIndexList t) (iIndexId ix) = Some ixp.
Proof.
  intros Hsh Hi. pose proof Hi as (Ht & Hin & Hix). unfold find_index.
  destruct (List.find _ _) as [i'|] eqn:Hf.
  - apply List.find_some in Hf as [Hin' Heq]. apply list_elem_of_In in Hin'.
    destruct (indexes h !! i') as [ix'|] eqn:Hix'; [|done]. zbool. f_equal.
    by apply (sh_distinct _ Hsh p t i' ixp ix' ix); [| |by right].
  - apply list_elem_of_In in Hin. pose proof (List.find_none _ _ Hf _ Hin) as Hn. simpl in Hn.
    rewrite Hix in Hn. zbool. done.
Qed.

Lemma key_of_ref h q r k c : key_ref h q r = Some k -> content h k = Some c -> key_of h q r = Some c.
Proof. intros Hk Hc. unfold key_of. by rewrite Hk. Qed.

(** The end of an insertion: the record enters the list, the list enters the table. *)
Lemma ins_store h own q l (p : ptr) t (ixp : ptr) ix r c (x : htable)
    (m : gmap (option keyptr) (keyref * option ptr)) (lp : ptr) (rs : list recptr) :
  shape h -> has_index h p t ixp ix -> pHashTable ix = q -> rec_ok h r -> r.1 = p ->
  (forall w, w ∈ l -> rec_ok h w) ->
  hts h !! q = Some x -> exact_type (ht_type x) = true -> key_type c = ht_type x ->
  hashtable_rep (key_hash_of h (ht_type x)) (content h) (ht_table x) m ->
  Z.of_nat (base.size m) < MAX_ENTRIES ->
  key_ref h q r = Some (KRef r (iIndexFieldId ix)) ->
  content h (KRef r (iIndexFieldId ix)) = Some c ->
  reclists h !! lp = Some rs -> own lp = Some (q, c) -> own_ok h own ->
  same_records h q rs (records_of h q c l) ->
  (forall oc, oc <> Some c -> entry_ok h own q l oc (m !! oc)) ->
  (forall w c, key_of h q w = Some c -> w ∈ l -> key_type c = ht_type x) ->
  exists h', 
    (l ← read_reclist lp;
     h ← get_state;
     l ← (if 0 <=? iSortFieldId ix
          then lift (list_add_sorted (fun w => kr_db_field_compare h r w (sort_argument ixp)) r l)
          else mret (l ++ [r]));
     write_reclist lp l;;
     ht_replace (pHashTable ix) (KRef r (iIndexFieldId ix)) (Some lp)) h = Ok (tt, h') /\
    step_on q h h' own own /\ ht_ok h' own q (l ++ [r]).
Proof.
  intros Hsh Hi Hq Hr Hp Hl Hx Hex Hct Hrep Hsz Hkr Hc Hlp Hown Hok [Hperm Hun] He Htl.
  assert (Hk : key_of h q r = Some c) by by eapply key_of_ref.
  assert (Hrs : exists rs', (if 0 <=? iSortFieldId ix
      then lift (list_add_sorted (fun w => kr_db_field_compare h r w (sort_argument ixp)) r rs)
      else mret (rs ++ [r])) h = Ok (rs', h) /\ same_records h q rs' (records_of h q c (l ++ [r]))).
  { unfold same_records. rewrite (records_of_app _ _ _ _ _ Hk).
    pose proof (sh_unsorted _ Hsh _ _ _ _ Hi) as Hs.
    assert ((0 <=? iSortFieldId ix) = false) as -> by lia.
    exists (rs ++ [r]). split; [done|]. split; [by rewrite Hperm|]. intros Hu. by rewrite Hun. }
  destruct Hrs as (rs' & Hadd & Hsame).
  set (h1 := set_reclists h (<[lp := rs']> (reclists h))).
  assert (Hv1 : same_view h h1) by by split.
  destruct x as [ty T]. simpl in *.
  assert (Hrep1 : hashtable_rep (key_hash_of h1 ty) (content h1) T m) by exact Hrep.
  destruct (ht_replace_spec h1 q ty T m (KRef r (iIndexFieldId ix)) c (Some lp)) as (T' & Hrepl & Hrep');
    [done..|].
  exists (set_hts h1 (<[q := mkHt ty T']> (hts h1))). split.
  - unfold mbind at 1, M_bind at 1, read_reclist. rewrite Hlp. cbv beta iota.
    unfold mbind at 1, M_bind at 1, get_state. cbv beta iota.
    unfold mbind at 1, M_bind at 1. rewrite Hadd. cbv beta iota.
    unfold mbind at 1, M_bind at 1, write_reclist. cbv beta iota. rewrite Hq. exact Hrepl.
  - set (h2 := set_hts h1 _). assert (Hv2 : same_view h h2) by by split. split.
    + apply (step_on_intro q c lp (mkHt ty T')); try done; [by rewrite Hx| | |by right].
      * intros lp' Hne. simpl. by rewrite lookup_insert_ne.
      * simpl. by rewrite lookup_insert_eq.
    + exists ty, T', (<[Some c := (KRef r (iIndexFieldId ix), Some lp)]> m).
      split; [simpl; by rewrite lookup_insert_eq|]. split; [done|]. split; [exact Hrep'|]. split.
      * intros oc. destruct (decide (oc = Some c)) as [->|Hne].
        -- rewrite lookup_insert_eq. exists c, lp, rs', r. simpl. rewrite lookup_insert_eq.
           destruct Hsame as [Hp2 Hu2].
           assert (r ∈ rs') by (rewrite Hp2, (records_of_app _ _ _ _ _ Hk); set_solver).
           split_and!; try done; intros ->; set_solver.
        -- rewrite lookup_insert_ne by done.
           eapply (entry_ok_frame h h2 own own q l (l ++ [r]) oc _ c); try done.
           ++ intros lp' qc Hqc Hne'. split; [done|]. simpl.
              rewrite lookup_insert_ne; [done|]. intros ->. congruence.
           ++ intros c' Hc'. by apply (records_of_app_other h q c c' l r).
           ++ by apply He.
      * intros w c' Hkw. rewrite (key_of_view _ _ _ _ Hv2) in Hkw.
        intros [Hw|Hw%list_elem_of_singleton]%elem_of_app; [by eapply Htl|]. subst w. congruence.
Qed.

(** A new list is one no table has. *)
Lemma new_reclist_ok h own : own_ok h own ->
  exists lp h', new_reclist h = Ok (lp, h') /\ h' = set_reclists h (<[lp := []]> (reclists h)) /\
    own lp = None.
Proof.
  intros Hok. pose proof (is_fresh (dom (reclists h))) as Hf. apply not_elem_of_dom in Hf.
  eexists _, _. split; [done|]. split; [done|].
  destruct (own (fresh (dom (reclists h)))) as [qc|] eqn:Ho; [|done].
  destruct (Hok _ _ Ho) as [y Hy]. by rewrite Hf in Hy.
Qed.

(** The shape depends on the indexes, the definitions of the fields and the index lists
    of the tables, and the types of the hash tables. *)
Record same_schema h h' : Prop := {
  ss_indexes : indexes h' = indexes h;
  ss_tables : forall p t', tables h' !! p = Some t' -> exists t, tables h !! p = Some t /\
    ptFieldDef t' = ptFieldDef t /\ pIndexList t' = pIndexList t
}.

Lemma shape_schema h h' : same_schema h h' -> hts_kept h h' -> shape h -> shape h'.
Proof.
  intros [Hix Hv] Hk [H1 H2 H3 H4 H5 H6].
  assert (Hb : forall p t ixp ix, has_index h' p t ixp ix ->
    exists t', has_index h p t' ixp ix /\ ptFieldDef t = ptFieldDef t').
  { intros p t ixp ix (Ht & Hin & Hx). destruct (Hv _ _ Ht) as (t' & Ht' & Hd & Hi).
    exists t'. split; [|done]. rewrite Hi in Hin. rewrite Hix in Hx. done. }
  split.
  - intros p t ixp Ht Hin. destruct (Hv _ _ Ht) as (t' & Ht' & _ & Hi). rewrite Hix.
    apply (H1 p t'); [done|]. by rewrite <- Hi.
  - intros p t ixp ix Hi. destruct (Hb _ _ _ _ Hi) as (t' & Hi' & Hd).
    destruct (H2 _ _ _ _ Hi') as (d & x & H0 & Hd' & Hex & Hx & Hxt). rewrite <- Hd in Hd'.
    specialize (Hk (pHashTable ix)). rewrite Hx in Hk. simpl in Hk.
    destruct (hts h' !! pHashTable ix) as [x'|]; [|done]. injection Hk as Hk.
    exists d, x'. split_and!; try done. congruence.
  - intros p t Ht. destruct (Hv _ _ Ht) as (t' & Ht' & _ & ->). by apply (H3 p).
  - intros p t i1 i2 ix1 ix2 Hi1 Hi2 He.
    destruct (Hb _ _ _ _ Hi1) as (t1 & Hi1' & _). destruct (Hb _ _ _ _ Hi2) as (t2 & Hi2' & _).
    destruct Hi1' as [Ht1 Hi1'], Hi2' as [Ht2 Hi2']. rewrite Ht1 in Ht2. injection Ht2 as <-.
    by apply (H4 p t1 i1 i2 ix1 ix2).
  - intros p1 t1 i1 ix1 p2 t2 i2 ix2 Hi1 Hi2 Hq.
    destruct (Hb _ _ _ _ Hi1) as (t1' & Hi1' & _). destruct (Hb _ _ _ _ Hi2) as (t2' & Hi2' & _).
    by apply (H5 p1 t1' i1 ix1 p2 t2' i2 ix2).
  - intros p t ixp ix Hi. destruct (Hb _ _ _ _ Hi) as (t' & Hi' & _). by apply (H6 p t' ixp).
Qed.

Lemma shape_view h h' : same_view h h' -> hts_kept h h' -> shape h -> shape h'.
Proof.
  intros Hv. apply shape_schema. split; [apply Hv|]. intros p t' Ht'.
  destruct (same_view_table _ _ _ _ (same_view_sym _ _ Hv) Ht') as (t & Ht & Hvt).
  apply view_fields in Hvt as (_ & _ & _ & Hd & Hi). by exists t.
Qed.

Lemma rec_ok_view h h' r : same_view h h' -> rec_ok h r -> rec_ok h' r.
Proof.
  intros Hv (t & fs & Ht & Hr & Hf). destruct (same_view_table _ _ _ _ Hv Ht) as (t' & Ht' & Hvt).
  apply view_fields in Hvt as (_ & _ & _ & Hd & _). exists t', fs. rewrite (record_at_view _ _ _ Hv), Hd.
  done.
Qed.

Lemma has_index_view h h' p t ixp ix : same_view h h' -> has_index h p t ixp ix ->
  exists t', has_index h' p t' ixp ix.
Proof.
  intros Hv (Ht & Hin & Hx). destruct (same_view_table _ _ _ _ Hv Ht) as (t' & Ht' & Hvt).
  apply view_fields in Hvt as (_ & _ & _ & _ & Hi). exists t'. split; [done|]. rewrite Hi.
  split; [done|]. by rewrite (sv_indexes _ _ Hv).
Qed.

Lemma ins_spec h own l (p : ptr) t (ixp : ptr) ix r :
  shape h -> has_index h p t ixp ix -> rec_ok h r -> r.1 = p ->
  (forall w, w ∈ l -> rec_ok h w) -> own_ok h own -> Z.of_nat (length l) < MAX_ENTRIES ->
  ht_ok h own (pHashTable ix) l ->
  exists h' own', kr_rebuild_index_ins ixp r h = Ok (tt, h') /\
    step_on (pHashTable ix) h h' own own' /\ ht_ok h' own' (pHashTable ix) (l ++ [r]).
Proof.
  intros Hsh Hi Hr Hp Hl Hok Hlen (ty & T & m & Hq & Hex & Hrep & He & Htl).
  destruct (rec_key h p t ixp ix r Hsh Hi Hr Hp) as (c & x & Hv & Hc & Hkr & Hk & Hx & Hct & _).
  rewrite Hq in Hx. injection Hx as <-. simpl in Hct.
  pose proof (entries_size h own _ l m He) as Hsz.
  unfold kr_rebuild_index_ins. pose proof Hi as (Ht & Hin & Hix).
  unfold mbind at 1, M_bind at 1, read_index. rewrite Hix. cbv beta iota.
  unfold mbind at 1, M_bind at 1, get_state. cbv beta iota.
  unfold mbind at 1, M_bind at 1, lift at 1. rewrite Hv. cbv beta iota.
  unfold mbind at 1, M_bind at 1.
  rewrite (ht_lookup_spec h _ ty T m _ c Hq Hex Hrep Hc Hct). cbv beta iota.
  pose proof (He (Some c)) as Hec. destruct (m !! Some c) as [[k0 v0]|] eqn:Hm.
  - destruct Hec as (c' & lp & rs & w & [= <-] & -> & Ho & Hrs & _ & _ & _ & Hsame).
    simpl. unfold mbind at 1, M_bind at 1, mret, M_ret. cbv beta iota.
    destruct (ins_store h own (pHashTable ix) l p t ixp ix r c (mkHt ty T) m lp rs) as (h' & Hrun & Hs & Hh');
      try done; [simpl; lia|].
    by exists h', own.
  - simpl. unfold mbind at 1, M_bind at 1.
    destruct (new_reclist_ok h own Hok) as (lp & h1 & -> & -> & Hlp). cbv beta iota.
    set (h1 := set_reclists h (<[lp := []]> (reclists h))).
    assert (Hv1 : same_view h h1) by by split.
    set (own1 := fun x => if decide (x = lp) then Some (pHashTable ix, c) else own x).
    assert (Ho1 : own1 lp = Some (pHashTable ix, c)) by (unfold own1; by rewrite decide_True).
    assert (Hon : forall lp', lp' <> lp -> own1 lp' = own lp')
      by (intros; unfold own1; by rewrite decide_False).
    assert (Hs1 : step_on (pHashTable ix) h h1 own own1).
    { apply (step_on_intro _ c lp (mkHt ty T)); try done; [by rewrite insert_id|by rewrite Hq| | |by left].
      - intros lp' Hne. simpl. rewrite lookup_insert_ne by done. by rewrite Hon.
      - simpl. by rewrite lookup_insert_eq. }
    destruct (ins_store h1 own1 (pHashTable ix) l p t ixp ix r c (mkHt ty T) m lp [])
      as (h' & Hrun & Hs & Hh'); try done.
    + by eapply shape_view; [| |exact Hsh]; [done|apply Hs1].
    + simpl. lia.
    + simpl. by rewrite lookup_insert_eq.
    + apply Hs1.
    + rewrite (records_of_view _ _ _ _ _ Hv1). rewrite (Hec c eq_refl). done.
    + intros oc Hne. eapply (entry_ok_frame h h1 own own1 _ l l oc _ c); try done; try apply He.
      intros lp' qc Hqc Hne'. assert (lp' <> lp) by (intros ->; congruence).
      rewrite Hon by done. simpl. by rewrite lookup_insert_ne.
    + exists h', own1. split; [exact Hrun|]. split; [|done].
      destruct Hs as [A1 A0 A2 A3 A4], Hs1 as [B1 B0 B2 B3 B4].
      split; [by eapply same_view_trans|by rewrite A0| | |].
      * intros q'. by rewrite A2.
      * done.
      * intros q' l' Hq' Hl'. by apply A4, B4.
Qed.

Lemma records_of_remove h q c l r :
  key_of h q r = Some c -> NoDup l -> records_of h q c (list_remove r l) = list_remove r (records_of h q c l).
Proof.
  intros Hk Hnd. rewrite list_remove_filter by done. unfold records_of.
  rewrite list_remove_filter by by apply NoDup_filter.
  rewrite !list_filter_filter. apply list_filter_iff. tauto.
Qed.
Lemma records_of_remove_other h q c c' l r :
  key_of h q r = Some c -> c' <> c -> NoDup l -> records_of h q c' (list_remove r l) = records_of h q c' l.
Proof.
  intros Hk Hne Hnd. rewrite list_remove_filter by done. unfold records_of.
  rewrite list_filter_filter. apply list_filter_iff. intros w. split; [tauto|].
  intros Hw. split; [done|]. intros ->. congruence.
Qed.

Lemma list_remove_sub r w l : w ∈ list_remove r l -> w ∈ l.
Proof.
  induction l as [|x l IH]; simpl; [done|]. case_bool_decide; set_solver.
Qed.

(** The index of the table of another record of the list. *)
Lemma new_index_spec h (p : ptr) t (ixp : ptr) ix r w c :
  shape h -> has_index h p t ixp ix -> r.1 = p -> rec_ok h r -> rec_ok h w ->
  key_of h (pHashTable ix) w = Some c ->
  exists t2 ix2 i2, has_index h w.1 t2 i2 ix2 /\ pHashTable ix2 = pHashTable ix /\
    forall {B} (K : T_KRIndex -> M (T_KRDB (Data:=Data)) B),
    ('(t1, _) ← lift (record_table h r);
     '(t2, tb2) ← lift (record_table h w);
     newIndex ← (if bool_decide (t1 = t2) then mret ix
                 else p ← lift (of_option NullDeref (kr_get_table_index h tb2 (iIndexId ix)));
                      read_index p);
     K newIndex) h = K ix2 h.
Proof.
  intros Hsh Hi Hp Hr Hw Hk. destruct (key_of_index h _ w c Hk) as (t2 & ix2 & i2 & Hi2 & Hq2).
  destruct (rec_ok_table _ _ Hr) as (t' & Ht' & Hrt). destruct (rec_ok_table _ _ Hw) as (t2' & Ht2' & Hwt).
  pose proof Hi2 as (Ht2 & Hin2 & Hx2). rewrite Ht2 in Ht2'. injection Ht2' as <-.
  exists t2, ix2, i2. split; [done|]. split; [done|]. intros B K.
  unfold mbind, M_bind, lift. rewrite Hrt, Hwt. case_bool_decide as Heq.
  - assert (ix2 = ix) as ->; [|done]. pose proof Hi as (Ht & Hin & Hx).
    rewrite <- Heq, Hp, Ht in Ht2. injection Ht2 as <-.
    assert (i2 = ixp) as ->; [|congruence].
    by apply (sh_distinct _ Hsh p t i2 ixp ix2 ix); [|done|left].
  - assert (Hid : iIndexId ix2 = iIndexId ix) by by apply (sh_share _ Hsh _ _ _ _ _ _ _ _ Hi2 Hi Hq2).
    unfold kr_get_table_index. rewrite <- Hid, (find_table_index _ _ _ _ _ Hsh Hi2). simpl.
    unfold read_index. by rewrite Hx2.
Qed.

Lemma same_records_remove h q r c rs l :
  key_of h q r = Some c -> NoDup l -> r ∈ l -> same_records h q rs (records_of h q c l) ->
  same_records h q (list_remove r rs) (records_of h q c (list_remove r l)).
Proof.
  intros Hk Hnd Hin [Hp Hu]. rewrite (records_of_remove _ _ _ _ _ Hk Hnd).
  assert (Hrc : r ∈ records_of h q c l) by by apply list_elem_of_filter.
  assert (Hrs : r ∈ rs) by by rewrite Hp.
  split; [|intros Hun; by rewrite Hu].
  pose proof (list_remove_perm r rs Hrs). pose proof (list_remove_perm r _ Hrc).
  apply (Permutation_cons_inv (a:=r)). by rewrite <- H, <- H0.
Qed.

Lemma del_spec h own l (p : ptr) t (ixp : ptr) ix r :
  shape h -> has_index h p t ixp ix -> rec_ok h r -> r.1 = p -> NoDup l -> r ∈ l ->
  (forall w, w ∈ l -> rec_ok h w) -> own_ok h own -> Z.of_nat (length l) < MAX_ENTRIES ->
  ht_ok h own (pHashTable ix) l ->
  exists h' own', kr_rebuild_index_del ixp r h = Ok (tt, h') /\
    step_on (pHashTable ix) h h' own own' /\ ht_ok h' own' (pHashTable ix) (list_remove r l).
Proof.
  intros Hsh Hi Hr Hp Hnd Hrl Hl Hok Hlen (ty & T & m & Hq & Hex & Hrep & He & Htl).
  destruct (rec_key h p t ixp ix r Hsh Hi Hr Hp) as (c & x & Hv & Hc & Hkr & Hk & Hx & Hct & _).
  rewrite Hq in Hx. injection Hx as <-. simpl in Hct.
  pose proof (entries_size h own _ l m He) as Hsz.
  pose proof (He (Some c)) as Hec. destruct (m !! Some c) as [[k0 v0]|] eqn:Hm.
  2: { specialize (Hec c eq_refl). assert (Hin : r ∈ records_of h (pHashTable ix) c l)
         by by apply list_elem_of_filter. rewrite Hec in Hin. by apply not_elem_of_nil in Hin. }
  destruct Hec as (c' & lp & rs & w0 & [= <-] & -> & Ho & Hrs & _ & _ & _ & Hsame).
  pose proof (same_records_remove _ _ _ _ _ _ Hk Hnd Hrl Hsame) as Hsame'.
  unfold kr_rebuild_index_del. pose proof Hi as (Ht & Hin & Hix).
  unfold mbind at 1, M_bind at 1, read_index at 1. rewrite Hix. cbv beta iota.
  unfold mbind at 1, M_bind at 1, get_state at 1. cbv beta iota.
  unfold mbind at 1, M_bind at 1, lift at 1. rewrite Hv. cbv beta iota.
  unfold mbind at 1, M_bind at 1.
  rewrite (ht_lookup_spec h _ ty T m _ c Hq Hex Hrep Hc Hct), Hm. cbv beta iota.
  simpl of_option. unfold mbind at 1, M_bind at 1, lift at 1. cbv beta iota.
  unfold mbind at 1, M_bind at 1, read_reclist at 1. rewrite Hrs. cbv beta iota.
  unfold mbind at 1, M_bind at 1, write_reclist at 1. cbv beta iota.
  set (h1 := set_reclists h (<[lp := list_remove r rs]> (reclists h))).
  assert (Hv1 : same_view h h1) by by split.
  assert (Hsh1 : shape h1) by by (eapply shape_view; [| |exact Hsh]).
  assert (Hother : forall h' own' oc e, same_view h h' -> oc <> Some c ->
    (forall lp', lp' <> lp -> reclists h' !! lp' = reclists h !! lp' /\ own' lp' = own lp') ->
    entry_ok h own (pHashTable ix) l oc e ->
    entry_ok h' own' (pHashTable ix) (list_remove r l) oc e).
  { intros h' own' oc e Hv' Hne Hlp' He'.
    eapply (entry_ok_frame h h' own own' _ l _ oc _ c); try done.
    - intros lp' qc Hqc Hne'. assert (Hn : lp' <> lp) by (intros ->; congruence).
      destruct (Hlp' _ Hn) as [-> ->]. done.
    - intros c' Hc'. by apply (records_of_remove_other h _ c c'). }
  assert (Htl' : forall w c, key_of h (pHashTable ix) w = Some c -> w ∈ list_remove r l -> key_type c = ty)
    by (intros w c' Hkw Hw%list_remove_sub; by eapply Htl).
  destruct (last (list_remove r rs)) as [w|] eqn:Hlast.
  - assert (Hw : w ∈ list_remove r rs) by by apply last_Some_elem_of.
    pose proof Hw as Hwl. rewrite (proj1 Hsame') in Hwl.
    apply list_elem_of_filter in Hwl as [Hkw Hwl%list_remove_sub].
    unfold mbind at 1, M_bind at 1, get_state at 1. cbv beta iota.
    destruct (new_index_spec h1 p t ixp ix r w c) as (t2 & ix2 & i2 & Hi2 & Hq2 & HK);
      try done; [by apply Hl|]. rewrite HK, Hq2. clear HK.
    destruct (rec_key h1 w.1 t2 i2 ix2 w Hsh1 Hi2 (Hl _ Hwl) eq_refl)
      as (c2 & x2 & Hv2 & Hc2 & Hkr2 & Hk2 & _).
    rewrite Hq2 in Hk2, Hkr2. assert (c2 = c) as ->.
    { pose proof (key_of_view _ _ (pHashTable ix) w Hv1). congruence. }
    destruct (ht_replace_spec h1 _ ty T m (KRef w (iIndexFieldId ix2)) c (Some lp) Hq Hex Hrep Hc2 Hct ltac:(lia))
      as (T' & Hrepl & Hrep').
    exists (set_hts h1 (<[pHashTable ix := mkHt ty T']> (hts h1))), own. split; [|split].
    + unfold mbind at 1, M_bind at 1, lift at 1. by rewrite Hv2.
    + apply (step_on_intro _ c lp (mkHt ty T')); try done; [by rewrite Hq| | |by right].
      * intros lp' Hne. simpl. by rewrite lookup_insert_ne.
      * simpl. by rewrite lookup_insert_eq.
    + eexists ty, T', _. split; [simpl; by rewrite lookup_insert_eq|]. split; [done|].
      split; [exact Hrep'|]. split; [|done].
      intros oc. destruct (decide (oc = Some c)) as [->|Hne].
      * rewrite lookup_insert_eq. exists c, lp, (list_remove r rs), w. simpl.
        rewrite lookup_insert_eq. split_and!; try done. intros Heq. rewrite Heq in Hw. by apply not_elem_of_nil in Hw.
      * rewrite lookup_insert_ne by done. apply Hother; try done.
        intros lp' Hne'. simpl. by rewrite lookup_insert_ne.
  - apply last_None in Hlast.
    unfold mbind at 1, M_bind at 1, get_state at 1. cbv beta iota.
    unfold mbind at 1, M_bind at 1, put_state at 1. cbv beta iota.
    set (h2 := set_reclists h1 (delete lp (reclists h1))).
    destruct (ht_remove_spec h2 _ ty T m (KRef r (iIndexFieldId ix)) c Hq Hex Hrep Hc Hct) as (T' & Hrem & Hrep').
    set (own' := fun x => if decide (x = lp) then None else own x).
    assert (Hlp' : forall lp', lp' <> lp ->
      reclists (set_hts h2 (<[pHashTable ix := mkHt ty T']> (hts h2))) !! lp' = reclists h !! lp' /\
      own' lp' = own lp').
    { intros lp' Hne. simpl. rewrite lookup_delete_ne, lookup_insert_ne by done.
      unfold own'. by rewrite decide_False. }
    exists (set_hts h2 (<[pHashTable ix := mkHt ty T']> (hts h2))), own'. split; [exact Hrem|]. split.
    + apply (step_on_intro _ c lp (mkHt ty T')); try done; [by rewrite Hq| |by right].
      unfold own'. by rewrite decide_True.
    + eexists ty, T', _. split; [simpl; by rewrite lookup_insert_eq|]. split; [done|].
      split; [exact Hrep'|]. split; [|done].
      intros oc. destruct (decide (oc = Some c)) as [->|Hne].
      * rewrite lookup_delete_eq. intros c' [= <-].
        destruct Hsame' as [Hp' _]. rewrite Hlast in Hp'. by apply Permutation_nil in Hp'.
      * rewrite lookup_delete_ne by done. by apply Hother.
Qed.

End Maintain.

(** * The loops over the indexes of a table *)

Section Loops.
Context {Data : Type} {SA : SortArgument}.
Implicit Types (h : T_KRDB (Data:=Data)) (t : T_KRTable (Data:=Data)) (r w : recptr)
  (c : keyptr) (q : ptr) (l : list recptr) (ix : T_KRIndex) (own : ptr -> option (ptr * keyptr)).

(** What a maintenance step on one index does, for a record of the table [p]. *)
Definition maintains (F : ptr -> M (T_KRDB (Data:=Data)) unit) (p : ptr) r l l' : Prop :=
  forall h own t ixp ix, shape h -> has_index h p t ixp ix -> rec_ok h r ->
    (forall w, w ∈ l -> rec_ok h w) -> own_ok h own -> ht_ok h own (pHashTable ix) l ->
    exists h' own', F ixp h = Ok (tt, h') /\ step_on (pHashTable ix) h h' own own' /\
      ht_ok h' own' (pHashTable ix) l'.

Lemma foreach_index_spec F (p : ptr) r l l' t (ps : list ptr) h own :
  maintains F p r l l' -> shape h -> tables h !! p = Some t -> ps ⊆ pIndexList t -> NoDup ps ->
  rec_ok h r -> (forall w, w ∈ l -> rec_ok h w) -> own_ok h own ->
  (forall ixp ix, ixp ∈ ps -> indexes h !! ixp = Some ix -> ht_ok h own (pHashTable ix) l) ->
  exists h' own', foreach_index F ps h = Ok (tt, h') /\ same_view h h' /\ tables h' = tables h /\
    hts_kept h h' /\ own_ok h' own' /\
    (forall ixp ix, ixp ∈ ps -> indexes h !! ixp = Some ix -> ht_ok h' own' (pHashTable ix) l') /\
    (forall q l0, (forall ixp ix, ixp ∈ ps -> indexes h !! ixp = Some ix -> pHashTable ix <> q) ->
       ht_ok h own q l0 -> ht_ok h' own' q l0).
Proof.
  intros HF. revert h own t. induction ps as [|ixp ps IH]; intros h own t Hsh Ht Hps Hnd Hr Hl Hok Hq.
  { exists h, own. do 5 (split; [done|]).
    split; [intros ? ? Hin; by apply not_elem_of_nil in Hin|]. done. }
  apply NoDup_cons in Hnd as [Hnin Hnd].
  destruct (sh_index _ Hsh p t ixp Ht) as [ix Hix]; [apply Hps; by left|].
  assert (Hi : has_index h p t ixp ix) by (split; [done|]; split; [apply Hps; by left|done]).
  destruct (HF h own t ixp ix Hsh Hi Hr Hl Hok) as (h1 & own1 & Hrun & [Hv Htb Hk Hok1 Hoth] & Hht1);
    [apply (Hq ixp ix); [by left|done]|].
  destruct (same_view_table _ _ _ _ Hv Ht) as (t1 & Ht1 & Hvt).
  apply view_fields in Hvt as (_ & _ & _ & _ & Hil).
  assert (Hne : forall ixp' ix', ixp' ∈ ps -> indexes h !! ixp' = Some ix' -> pHashTable ix' <> pHashTable ix).
  { intros ixp' ix' Hin Hix' Heq. apply Hnin.
    assert (ixp' = ixp) as <-; [|done].
    apply (sh_distinct _ Hsh p t ixp' ixp ix' ix); [|done|by left].
    split; [done|]. split; [apply Hps; by right|done]. }
  destruct (IH h1 own1 t1) as (h2 & own2 & Hrun2 & Hv2 & Htb2 & Hk2 & Hok2 & Hall & Hoth2); try done.
  - by eapply shape_view.
  - rewrite Hil. set_solver.
  - by eapply rec_ok_view.
  - intros w Hw. eapply rec_ok_view; [done|by apply Hl].
  - intros ixp' ix' Hin Hix'. rewrite (sv_indexes _ _ Hv) in Hix'.
    apply Hoth; [by eapply Hne|]. apply (Hq ixp' ix'); [by right|done].
  - exists h2, own2. split; [simpl; unfold mbind, M_bind; by rewrite Hrun|].
    split; [by eapply same_view_trans|]. split; [by rewrite Htb2|]. split; [intros q; by rewrite Hk2|].
    split; [done|].
    rewrite (sv_indexes _ _ Hv) in Hall, Hoth2. split.
    + intros ixp' ix' [->|Hin]%elem_of_cons Hix'.
      * rewrite Hix in Hix'. injection Hix' as <-. apply Hoth2; [|done].
        intros ixp' ix' Hin Hix'. by eapply Hne.
      * by apply (Hall ixp').
    + intros q l0 Hnq H0. apply Hoth2; [intros ixp' ix' Hin Hix'; apply (Hnq ixp' ix'); [by right|done]|].
      apply Hoth; [|done]. intros ->. apply (Hnq ixp ix); [by left|done|done].
Qed.

(** A record without a value for a table does not matter to it. *)
Lemma ht_ok_irrelevant h own q l l' :
  (forall c, records_of h q c l' = records_of h q c l) ->
  (forall w c, key_of h q w = Some c -> w ∈ l' -> w ∈ l) ->
  ht_ok h own q l -> ht_ok h own q l'.
Proof.
  intros Hl Hin (ty & T & m & Hq & Hex & Hrep & He & Ht). exists ty, T, m.
  split; [done|]. split; [done|]. split; [done|]. split; [|intros w c Hk Hw; eapply Ht; eauto].
  intros oc. specialize (He oc). destruct (m !! oc) as [[k v]|]; simpl in *.
  - destruct He as (c & lp & rs & w & He). exists c, lp, rs, w. unfold same_records. by rewrite Hl.
  - intros c Hc. rewrite Hl. by apply He.
Qed.

Lemma no_index_no_key h (p : ptr) t q r : tables h !! p = Some t -> r.1 = p ->
  (forall ixp ix, ixp ∈ pIndexList t -> indexes h !! ixp = Some ix -> pHashTable ix <> q) ->
  key_of h q r = None.
Proof.
  intros Ht Hp Hn. destruct (key_of h q r) as [c|] eqn:Hk; [|done].
  destruct (key_of_index _ _ _ _ Hk) as (t' & ix & ixp & (Ht' & Hin & Hx) & Hq).
  rewrite Hp, Ht in Ht'. injection Ht' as <-. by destruct (Hn ixp ix).
Qed.

(** The whole loop: every hash table goes from [l] to [l']. *)
Lemma foreach_table_spec F (p : ptr) r l l' t h own :
  maintains F p r l l' -> shape h -> tables h !! p = Some t -> r.1 = p ->
  rec_ok h r -> (forall w, w ∈ l -> rec_ok h w) -> own_ok h own ->
  (forall q c, key_of h q r = None -> records_of h q c l' = records_of h q c l) ->
  (forall w, w ∈ l' -> w = r \/ w ∈ l) ->
  (forall q, is_Some (hts h !! q) -> ht_ok h own q l) ->
  exists h' own', foreach_index F (pIndexList t) h = Ok (tt, h') /\ same_view h h' /\ tables h' = tables h /\
    hts_kept h h' /\ own_ok h' own' /\ forall q, is_Some (hts h' !! q) -> ht_ok h' own' q l'.
Proof.
  intros HF Hsh Ht Hp Hr Hl Hok Hirr Hin Hq.
  destruct (foreach_index_spec F p r l l' t (pIndexList t) h own)
    as (h' & own' & Hrun & Hv & Htb & Hk & Hok' & Hall & Hoth);
    try done.
  - by eapply sh_nodup.
  - intros ixp ix Hi Hix. apply Hq. destruct (sh_field _ Hsh p t ixp ix) as (d & x & _ & _ & _ & Hx & _); [done|].
    by eexists.
  - exists h', own'. do 5 (split; [done|]). intros q Hqs.
    assert (Hqs0 : is_Some (hts h !! q)).
    { specialize (Hk q). destruct (hts h' !! q), (hts h !! q); simpl in *; done. }
    destruct (decide (Exists (fun ixp => pHashTable <$> indexes h !! ixp = Some q) (pIndexList t))) as [He|He].
    + apply Exists_exists in He as (ixp & Hi & (ix & Hix & ->)%fmap_Some). by eapply Hall.
    + assert (Hn : forall ixp ix, ixp ∈ pIndexList t -> indexes h !! ixp = Some ix -> pHashTable ix <> q).
      { intros ixp ix Hi Hix Heq. apply He, Exists_exists. exists ixp. split; [done|]. by rewrite Hix, <- Heq. }
      apply Hoth; [done|]. pose proof (no_index_no_key h p t q r Ht Hp Hn) as Hkn.
      eapply ht_ok_irrelevant; [intros c; by apply Hirr| |by apply Hq].
      intros w c Hkw Hw. destruct (Hin w Hw) as [->|]; [congruence|done].
Qed.

End Loops.
