(* ===== verification/KrDbWindow.v ===== *)
(** What the database of KrDb keeps and finds: the invariant of its tables, rings and
    indexes, that the creation functions establish it and insertion keeps it, and what
    it means for the records a table keeps (its last ones) and for the lists that a
    selection returns (the kept records of the key). *)

From S2P Require Import Prelude KrString KrHashtable KrTypes KrHashset KrDb.
Local Open Scope Z_scope.
#[local] Notation length := List.length.

(** * The ring

    The slots in use, from the oldest record to the last: [num] slots up to [loc]. *)

Definition ring (loc num keep : Z) : list nat :=
  (fun j : nat => Z.to_nat ((loc - num + Z.of_nat j) `mod` keep)) <$> seq 0 (Z.to_nat num).

Lemma ring_cons loc num keep : 0 < num ->
  ring loc num keep = Z.to_nat ((loc - num) `mod` keep) :: ring loc (num - 1) keep.
Proof.
  intros Hn. unfold ring. replace (Z.to_nat num) with (S (Z.to_nat (num - 1))) by lia.
  simpl. f_equal; [f_equal; f_equal; lia|].
  rewrite <- fmap_S_seq, <- list_fmap_compose. apply list_fmap_ext. intros i j _. simpl.
  f_equal. f_equal. lia.
Qed.

Lemma ring_snoc loc num keep : 0 <= num < keep -> 0 <= loc < keep ->
  ring ((loc + 1) `mod` keep) (num + 1) keep = ring loc num keep ++ [Z.to_nat loc].
Proof.
  intros Hn Hl. unfold ring. replace (Z.to_nat (num + 1)) with (Z.to_nat num + 1)%nat by lia.
  rewrite seq_app, fmap_app. simpl. f_equal.
  - apply list_fmap_ext. intros i j _. f_equal.
    replace ((loc + 1) `mod` keep - (num + 1) + Z.of_nat j)
      with ((loc + 1) `mod` keep + (Z.of_nat j - num - 1)) by lia.
    rewrite Zplus_mod_idemp_l. f_equal. lia.
  - do 2 f_equal. rewrite Z2Nat.id by lia.
    replace ((loc + 1) mod keep - (num + 1) + num) with ((loc + 1) mod keep - 1) by lia.
    rewrite Zminus_mod_idemp_l. replace (loc + 1 - 1) with loc by lia. by apply Z.mod_small.
Qed.

Lemma ring_loc loc num keep : 0 <= num <= keep -> 0 <= loc < keep ->
  Z.to_nat loc ∈ ring loc num keep -> num = keep.
Proof.
  intros Hn Hl (j & Hj & Hin%elem_of_seq)%list_elem_of_fmap.
  assert (Hm : loc = (loc - num + Z.of_nat j) `mod` keep).
  { apply (f_equal Z.of_nat) in Hj. rewrite Z2Nat.id in Hj by lia.
    rewrite Z2Nat.id in Hj; [done|]. apply Z.mod_pos_bound. lia. }
  pose proof (Z_div_mod_eq_full (loc - num + Z.of_nat j) keep) as Hd. rewrite <- Hm in Hd.
  assert (num - Z.of_nat j = keep * - ((loc - num + Z.of_nat j) / keep)) by lia.
  assert (- ((loc - num + Z.of_nat j) / keep) = 1) by nia. lia.
Qed.

Lemma ring_full loc keep : 0 <= loc < keep ->
  ring loc keep keep = Z.to_nat loc :: ring loc (keep - 1) keep.
Proof.
  intros Hl. rewrite ring_cons by lia. do 2 f_equal.
  replace (loc - keep) with (loc + (-1) * keep) by lia. rewrite Z_mod_plus_full.
  by apply Z.mod_small.
Qed.

(** * The invariant *)

Section Inv.
Context {Data : Type} {SA : SortArgument}.
Implicit Types (h : T_KRDB (Data:=Data)) (t : T_KRTable (Data:=Data)) (r w : recptr)
  (c : keyptr) (q : ptr) (ix : T_KRIndex) (own : ptr -> option (ptr * keyptr))
  (order : list recptr) (pend : option recptr).

(** The slots of the table [p] among the records [order]. *)
Definition slots (p : ptr) order : list nat := snd <$> filter (fun r => r.1 = p) order.

(** [pend]: the record being inserted, no longer indexed or not yet. *)
Record table_ok pend order (p : ptr) t : Prop := {
  to_keep : 1 <= lSizeKeepValue t <= INT_MAX;
  to_buff : length (pRecordBuff t) = Z.to_nat (lSizeKeepValue t);
  to_loc : 0 <= uiRecordLoc t < lSizeKeepValue t;
  to_num : 0 <= uiRecordNum t <= lSizeKeepValue t;
  to_slots : slots p order = ring (uiRecordLoc t) (uiRecordNum t) (lSizeKeepValue t);
  to_free : forall i rc, pRecordBuff t !! i = Some rc -> (p, i) ∉ order -> Some (p, i) <> pend ->
    ptTable rc = None;
  to_map : forall msg i d, ptFieldDef t !! i = Some d ->
    key_type (pMapFunc t msg (Z.of_nat i) (fd_length d)) = fd_type d;
  to_fits : forall msg i d, ptFieldDef t !! i = Some d ->
    value_fits d (pMapFunc t msg (Z.of_nat i) (fd_length d)) = true;
  to_bytes : RECORD_HEADER <= iRecordSize t /\ lSizeKeepValue t * iRecordSize t <= UINT_MAX;
  to_apart : fields_apart (iRecordSize t - RECORD_HEADER) 0 (ptFieldDef t) = true
}.

(** [order]: the records in use, in the order of their insertion. *)
Record db_inv h own pend order : Prop := {
  di_shape : shape h;
  di_own : own_ok h own;
  di_hts : forall q, is_Some (hts h !! q) -> ht_ok h own q order;
  di_nodup : NoDup order;
  di_rec : forall r, r ∈ order \/ pend = Some r -> rec_ok h r;
  di_table : forall p t, tables h !! p = Some t -> table_ok pend order p t
}.

(** The values kept, with their tables. *)
Definition fields_of h r : list keyptr := match record_at h r with Ok rc => pRecBuf rc | Fault _ => [] end.
Definition values h order : list (ptr * list keyptr) := (fun r => (r.1, fields_of h r)) <$> order.

Lemma slots_app p order1 order2 : slots p (order1 ++ order2) = slots p order1 ++ slots p order2.
Proof. unfold slots. by rewrite filter_app, fmap_app. Qed.

Lemma elem_of_slots p i order : i ∈ slots p order <-> (p, i) ∈ order.
Proof.
  unfold slots. rewrite list_elem_of_fmap. split.
  - intros ([p' i'] & -> & [Hp Hin]%list_elem_of_filter). simpl in *. by subst.
  - intros Hin. exists (p, i). split; [done|]. by apply list_elem_of_filter.
Qed.

Lemma values_view h h' order : same_view h h' -> values h' order = values h order.
Proof.
  intros Hv. unfold values. apply list_fmap_ext. intros i r _. unfold fields_of.
  by rewrite (record_at_view _ _ _ Hv).
Qed.

(** * A slot is written *)

Definition set_slot h r (rc : T_KRRecord) : T_KRDB (Data:=Data) :=
  match tables h !! r.1 with
  | Some t => set_tables h (<[r.1 := set_buff t (<[r.2 := rc]> (pRecordBuff t))]> (tables h))
  | None => h
  end.

Lemma record_at_set_slot h r rc w : w <> r -> record_at (set_slot h r rc) w = record_at h w.
Proof.
  intros Hne. unfold set_slot. destruct (tables h !! r.1) as [t|] eqn:Ht; [|done].
  unfold record_at. simpl. destruct (decide (w.1 = r.1)) as [Heq|Hn].
  - rewrite Heq, lookup_insert_eq, Ht. simpl. rewrite list_lookup_insert_ne; [done|].
    intros Hs. apply Hne. by apply injective_projections.
  - by rewrite lookup_insert_ne.
Qed.

Lemma record_at_set_slot_eq h r rc t : tables h !! r.1 = Some t ->
  (r.2 < length (pRecordBuff t))%nat -> record_at (set_slot h r rc) r = Ok rc.
Proof.
  intros Ht Hl. unfold set_slot. rewrite Ht. unfold record_at. simpl. rewrite lookup_insert_eq.
  simpl. by rewrite list_lookup_insert_eq.
Qed.

Lemma table_set_slot h r rc p t : tables h !! p = Some t ->
  exists t', tables (set_slot h r rc) !! p = Some t' /\ pIndexList t' = pIndexList t /\
    ptFieldDef t' = ptFieldDef t.
Proof.
  intros Ht. unfold set_slot. destruct (tables h !! r.1) as [tr|] eqn:Hr; [|by exists t]. simpl.
  destruct (decide (p = r.1)) as [->|Hne].
  - rewrite lookup_insert_eq. rewrite Ht in Hr. injection Hr as <-. by eexists.
  - rewrite lookup_insert_ne by done. by exists t.
Qed.

Lemma table_set_slot_none h r rc p : tables h !! p = None -> tables (set_slot h r rc) !! p = None.
Proof.
  intros Ht. unfold set_slot. destruct (tables h !! r.1) as [tr|] eqn:Hr; [|done]. simpl.
  rewrite lookup_insert_ne; [done|]. intros Heq. congruence.
Qed.

Lemma key_ref_set_slot h r rc q w : key_ref (set_slot h r rc) q w = key_ref h q w.
Proof.
  unfold key_ref. destruct (tables h !! w.1) as [t|] eqn:Ht.
  - destruct (table_set_slot h r rc _ _ Ht) as (t' & -> & Hi & _). simpl. unfold index_on. rewrite Hi.
    unfold set_slot. by destruct (tables h !! r.1).
  - by rewrite table_set_slot_none.
Qed.

Lemma content_set_slot h r rc w fld : w <> r -> content (set_slot h r rc) (KRef w fld) = content h (KRef w fld).
Proof. intros Hne. simpl. by rewrite record_at_set_slot. Qed.

Lemma key_of_set_slot h r rc q w : w <> r -> key_of (set_slot h r rc) q w = key_of h q w.
Proof.
  intros Hne. unfold key_of. rewrite key_ref_set_slot. unfold key_ref.
  destruct (tables h !! w.1); [|done]. simpl. destruct (index_on h q _); [|done]. simpl.
  by rewrite record_at_set_slot.
Qed.

Lemma records_of_set_slot h r rc q c l : r ∉ l -> records_of (set_slot h r rc) q c l = records_of h q c l.
Proof.
  intros Hr. unfold records_of. induction l as [|w l IH]; [done|]. apply not_elem_of_cons in Hr as [Hne Hr].
  rewrite !filter_cons, IH by done. by rewrite key_of_set_slot.
Qed.

Lemma unsorted_set_slot h r rc q : unsorted (set_slot h r rc) q -> unsorted h q.
Proof.
  intros Hu p t ix Ht Hix. destruct (table_set_slot h r rc _ _ Ht) as (t' & Ht' & Hi & _).
  apply (Hu p t' ix Ht'). unfold index_on in *. rewrite Hi. unfold set_slot.
  by destruct (tables h !! r.1).
Qed.

(** No hash table holds a key in the slot, nor a list the record. *)
Lemma ht_ok_set_slot h own r rc q l : r ∉ l -> ht_ok h own q l -> ht_ok (set_slot h r rc) own q l.
Proof.
  intros Hr (ty & T & m & Hq & Hex & Hrep & He & Htl). exists ty, T, m.
  assert (Hh : hts (set_slot h r rc) = hts h /\ reclists (set_slot h r rc) = reclists h)
    by (unfold set_slot; by destruct (tables h !! r.1)).
  destruct Hh as [Hh1 Hh2]. rewrite Hh1. split; [done|]. split; [done|].
  split; [|split].
  - eapply hashtable_rep_ext; [exact Hrep|]. intros oc k v Hm. specialize (He oc). rewrite Hm in He.
    destruct He as (c & lp & rs & w & -> & _ & _ & _ & _ & Hin & Hk & Hp & _).
    destruct Hrep as (n & Hok & _).
    destruct (no_complete _ _ _ _ _ (KrHashtable.tk_nodes _ _ _ _ _ Hok) _ _ _ Hm) as [Hc _].
    assert (Hw : w <> r).
    { intros ->. rewrite Hp in Hin. by apply list_elem_of_filter in Hin as [_ ?]. }
    assert (Hck : content (set_slot h r rc) k = content h k).
    { unfold key_ref in Hk. destruct (tables h !! w.1); [|done]. simpl in Hk.
      destruct (index_on h q _); [|done]. injection Hk as <-. by apply content_set_slot. }
    unfold key_hash_of. rewrite Hck. done.
  - intros oc. specialize (He oc). destruct (m !! oc) as [[k v]|]; simpl in *.
    + destruct He as (c & lp & rs & w & -> & -> & Ho & Hrs & Hne & Hin & Hk & Hp & Hu).
      exists c, lp, rs, w. unfold same_records. rewrite Hh2, key_ref_set_slot, records_of_set_slot by done.
      split_and!; try done. intros Hun. apply Hu. by eapply unsorted_set_slot.
    + intros c Hc. rewrite records_of_set_slot by done. by apply He.
  - intros w c Hk Hw. assert (w <> r) by (intros ->; done). rewrite key_of_set_slot in Hk by done.
    by eapply Htl.
Qed.

Lemma shape_set_slot h r rc : shape h -> shape (set_slot h r rc).
Proof.
  apply shape_schema.
  - split; [unfold set_slot; by destruct (tables h !! r.1)|]. intros p t' Ht'.
    destruct (tables h !! p) as [t|] eqn:Ht.
    + destruct (table_set_slot h r rc _ _ Ht) as (t2 & Ht2 & Hi & Hd). exists t. by simplify_eq.
    + by rewrite (table_set_slot_none _ _ _ _ Ht) in Ht'.
  - intros q. unfold set_slot. by destruct (tables h !! r.1).
Qed.

Lemma rec_ok_set_slot h r rc w : w <> r -> rec_ok h w -> rec_ok (set_slot h r rc) w.
Proof.
  intros Hne (t & fs & Ht & Hr & Hf). destruct (table_set_slot h r rc _ _ Ht) as (t' & Ht' & _ & Hd).
  exists t', fs. rewrite record_at_set_slot, Hd by done. done.
Qed.

(** * Removal of the oldest record *)

Fixpoint drop_first (p : ptr) (l : list (ptr * list keyptr)) : list (ptr * list keyptr) :=
  match l with
  | [] => []
  | x :: l' => if bool_decide (x.1 = p) then l' else x :: drop_first p l'
  end.

Lemma values_list_remove h p s order tl :
  slots p order = s :: tl ->
  values h (list_remove (p, s) order) = drop_first p (values h order) /\
  slots p (list_remove (p, s) order) = tl.
Proof.
  unfold slots. induction order as [|[p' s'] order IH]; [done|]. rewrite filter_cons. simpl.
  case_decide as Hp; simpl in *.
  - subst p'. intros [= -> Htl]. by rewrite !bool_decide_true.
  - intros Hs. rewrite !bool_decide_false by congruence. destruct (IH Hs) as [IH1 IH2].
    unfold values in *. csimpl. rewrite IH1, filter_cons. by rewrite decide_False.
Qed.

Lemma slots_remove_other p p' s order : p' <> p -> slots p' (list_remove (p, s) order) = slots p' order.
Proof.
  intros Hne. unfold slots. f_equal. induction order as [|[p0 s0] order IH]; [done|]. simpl.
  case_bool_decide as Heq.
  - injection Heq as -> ->. rewrite filter_cons_False; [done|]. simpl. congruence.
  - rewrite !filter_cons, IH. done.
Qed.

Lemma elem_of_list_remove r w order : NoDup order -> w ∈ list_remove r order <-> w <> r /\ w ∈ order.
Proof. intros Hnd. rewrite list_remove_filter by done. by rewrite list_elem_of_filter. Qed.

(** * Insertion *)

Lemma u32_keep n t : 0 <= n <= lSizeKeepValue t -> lSizeKeepValue t <= INT_MAX -> u32 n = n.
Proof. intros. apply u32_small. unfold INT_MAX, UINT_MAX in *. lia. Qed.

(** The address of the next record is that of its slot, and its fields are as the mapping
    function made them. *)
Lemma record_slot_ok pend order p t : table_ok pend order p t ->
  record_slot t = Ok (Z.to_nat (uiRecordLoc t)).
Proof.
  intros Hok. destruct (to_bytes _ _ _ _ Hok) as [Hsz Hb]. pose proof (to_loc _ _ _ _ Hok) as Hl.
  unfold record_slot. unfold RECORD_HEADER in *. rewrite (proj2 (Z.ltb_ge _ _)) by lia.
  rewrite u32_small by nia. rewrite Z_mod_mult, Z.eqb_refl, Z.div_mul by lia. done.
Qed.

Lemma kr_assign_field_value_ok pend order p t msg : table_ok pend order p t ->
  kr_assign_field_value t msg = Ok (assigned t msg).
Proof.
  intros Hok. unfold kr_assign_field_value. rewrite (to_apart _ _ _ _ Hok). simpl.
  rewrite (proj2 (forallb_forall _ _)); [done|]. intros [d c] Hin%list_elem_of_In. simpl.
  apply list_elem_of_lookup in Hin as [i Hi]. apply lookup_zip_Some in Hi as [Hd Hc].
  unfold assigned in Hc. rewrite list_lookup_imap, Hd in Hc. injection Hc as <-.
  by apply (to_fits _ _ _ _ Hok).
Qed.

(** The counters of one table. *)
Definition set_counters h (p : ptr) (loc num : Z) : T_KRDB (Data:=Data) :=
  match tables h !! p with
  | Some t => set_tables h (<[p := set_loc_num t loc num]> (tables h))
  | None => h
  end.

Lemma set_counters_view h p loc num : same_view h (set_counters h p loc num).
Proof.
  unfold set_counters. destruct (tables h !! p) as [t|] eqn:Ht; [|by split]. split; try done.
  intros p'. simpl. destruct (decide (p' = p)) as [->|Hne].
  - rewrite lookup_insert_eq, Ht. done.
  - by rewrite lookup_insert_ne.
Qed.

Lemma ht_ok_view h h' own q l : same_view h h' -> hts h' = hts h -> reclists h' = reclists h ->
  ht_ok h own q l -> ht_ok h' own q l.
Proof. intros Hv Hh Hr. apply ht_ok_other; [done|by rewrite Hh|by rewrite Hr]. Qed.

(** The counters after maintenance are those before it. *)
Lemma maintains_insert (p : ptr) r l : r.1 = p -> Z.of_nat (length l) < MAX_ENTRIES ->
  maintains (Data:=Data) (fun ixp => kr_rebuild_index_ins ixp r) p r l (l ++ [r]).
Proof. intros Hp Hlen h own t ixp ix Hsh Hi Hr Hl Hok Hht. by eapply ins_spec. Qed.

Lemma maintains_delete (p : ptr) r l : r.1 = p -> Z.of_nat (length l) < MAX_ENTRIES ->
  NoDup l -> r ∈ l ->
  maintains (Data:=Data) (fun ixp => kr_rebuild_index_del ixp r) p r l (list_remove r l).
Proof. intros Hp Hlen Hnd Hrl h own t ixp ix Hsh Hi Hr Hl Hok Hht. by eapply del_spec. Qed.

(** ** The slot of the new record is free when its table is not full, and holds its
    oldest record when it is. *)

Lemma free_or_oldest h own order p t :
  db_inv h own None order -> tables h !! p = Some t ->
  let r := (p, Z.to_nat (uiRecordLoc t)) in
  if uiRecordNum t =? lSizeKeepValue t
  then r ∈ order /\ exists tl, slots p order = r.2 :: tl /\
         tl = ring (uiRecordLoc t) (uiRecordNum t - 1) (lSizeKeepValue t)
  else r ∉ order.
Proof.
  intros Hi Ht r. pose proof (di_table _ _ _ _ Hi p t Ht) as [Hk Hb Hl Hn Hs Hf Hm _ _ _].
  destruct (uiRecordNum t =? lSizeKeepValue t) eqn:Hfull; zbool.
  - assert (Hsl : slots p order = r.2 :: ring (uiRecordLoc t) (uiRecordNum t - 1) (lSizeKeepValue t)).
    { rewrite Hs, Hfull. by apply ring_full. }
    split; [|by eexists]. apply elem_of_slots. rewrite Hsl. by left.
  - intros Hin%elem_of_slots. rewrite Hs in Hin. apply Hfull. by eapply ring_loc.
Qed.

(** The state once the oldest record, if the table is full, is out of the indexes. *)
Lemma evict_spec h own order p t :
  db_inv h own None order -> tables h !! p = Some t -> Z.of_nat (length order) < MAX_ENTRIES ->
  let r := (p, Z.to_nat (uiRecordLoc t)) in
  let full := uiRecordNum t =? lSizeKeepValue t in
  let order1 := if full then list_remove r order else order in
  let num1 := if full then uiRecordNum t - 1 else uiRecordNum t in
  exists h0 h1 own1,
    (rc ← lift (record_at h r);
     match ptTable rc with Some p => kr_delete_record r p | None => mret tt end) h = Ok (tt, h1) /\
    same_view h h0 /\ tables h0 = tables h /\ h1 = set_counters h0 p (uiRecordLoc t) num1 /\
    hts_kept h h1 /\ own_ok h1 own1 /\
    (forall q, is_Some (hts h1 !! q) -> ht_ok h1 own1 q order1).
Proof.
  intros Hi Ht Hlen r full order1 num1. pose proof Hi as [Hsh Hok Hhts Hnd Hrec Htab].
  pose proof (Htab p t Ht) as [Hk Hb Hl Hn Hs Hf Hm _ _ _].
  pose proof (free_or_oldest h own order p t Hi Ht) as Hfo. fold r in Hfo. cbv zeta in Hfo.
  subst full order1 num1. destruct (uiRecordNum t =? lSizeKeepValue t) eqn:Hfull; zbool.
  - destruct Hfo as [Hin _]. destruct (Hrec r) as (t' & fs & Ht' & Hr & _); [by left|].
    unfold mbind at 1, M_bind at 1, lift. rewrite Hr. cbv beta iota. cbn [ptTable]. cbv beta iota.
    change (r.1) with p. unfold kr_delete_record, mbind at 1, M_bind at 1, read_table. rewrite Ht.
    cbv beta iota.
    destruct (foreach_table_spec (fun ixp => kr_rebuild_index_del ixp r) p r order
                (list_remove r order) t h own)
      as (h0 & own1 & Hrun & Hv & Htb & Hkept & Hok1 & Hall); try done.
    + by apply maintains_delete.
    + apply Hrec. by left.
    + intros w Hw. apply Hrec. by left.
    + intros q c Hkn. rewrite list_remove_filter by done. unfold records_of.
      rewrite list_filter_filter. apply list_filter_iff. intros w. split; [tauto|].
      intros Hw. split; [done|]. intros ->. congruence.
    + intros w Hw%list_remove_sub. by right.
    + unfold mbind at 1, M_bind at 1. rewrite Hrun. cbv beta iota. unfold write_table.
      rewrite Htb, Ht, (u32_keep _ t) by lia.
      set (h1 := set_counters h0 p (uiRecordLoc t) (uiRecordNum t - 1)).
      assert (Hh1 : h1 = set_tables h0 (<[p := set_loc_num t (uiRecordLoc t) (uiRecordNum t - 1)]> (tables h0)))
        by (unfold h1, set_counters; by rewrite Htb, Ht).
      exists h0, h1, own1. rewrite Htb in Hh1. rewrite <- Hh1.
      assert (Hv1 : same_view h0 h1) by apply set_counters_view.
      do 4 (split; [done|]). rewrite Hh1. split; [exact Hkept|]. split; [exact Hok1|].
      rewrite <- Hh1. intros q Hq. eapply (ht_ok_view h0); [done|by rewrite Hh1|by rewrite Hh1|].
      apply Hall. by rewrite Hh1 in Hq.
  - assert (Hlt : (r.2 < length (pRecordBuff t))%nat) by (rewrite Hb; simpl; lia).
    destruct (lookup_lt_is_Some_2 _ _ Hlt) as [rc Hrc].
    unfold mbind at 1, M_bind at 1, lift, record_at. simpl fst. rewrite Ht. simpl. simpl in Hrc.
    rewrite Hrc. simpl. rewrite (Hf _ _ Hrc); [|done|done].
    assert (Hh : set_counters h p (uiRecordLoc t) (uiRecordNum t) = h).
    { unfold set_counters. rewrite Ht. unfold set_tables. rewrite insert_id by (rewrite Ht; by destruct t).
      by destruct h. }
    exists h, h, own. rewrite Hh. do 5 (split; [done|]). done.
Qed.

(** What insertion never changes: all but the counters and the records. *)
Definition static t :=
  (iTableId t, pMapFuncPre t, pMapFunc t, lSizeKeepValue t, ptFieldDef t, pIndexList t).
Record same_static h h' : Prop := {
  st_indexes : indexes h' = indexes h;
  st_list : pTableList h' = pTableList h;
  st_kept : hts_kept h h';
  st_tables : forall p, static <$> tables h' !! p = static <$> tables h !! p
}.

Lemma same_static_refl h : same_static h h.
Proof. by split. Qed.
Lemma same_static_trans h1 h2 h3 : same_static h1 h2 -> same_static h2 h3 -> same_static h1 h3.
Proof.
  intros [? ? Hk1 Ht1] [? ? Hk2 Ht2].
  split; [congruence|congruence|intros q; by rewrite Hk2|intros p; by rewrite Ht2].
Qed.

Lemma same_view_static h h' : same_view h h' -> hts_kept h h' -> same_static h h'.
Proof.
  intros Hv Hk. split; [apply Hv|apply Hv|done|]. intros p.
  pose proof (sv_tables _ _ Hv p) as Hp.
  destruct (tables h' !! p) as [t'|], (tables h !! p) as [t|]; try done. simpl in *.
  apply (inj Some) in Hp. unfold view in Hp. unfold static. injection Hp as ???????. congruence.
Qed.

Lemma set_slot_static h r rc : same_static h (set_slot h r rc).
Proof.
  unfold set_slot. destruct (tables h !! r.1) as [t|] eqn:Ht; [|by split]. split; try done.
  intros p. simpl. destruct (decide (p = r.1)) as [->|Hne].
  - rewrite lookup_insert_eq, Ht. done.
  - by rewrite lookup_insert_ne.
Qed.

Lemma static_fields t t' : static t' = static t ->
  iTableId t' = iTableId t /\ lSizeKeepValue t' = lSizeKeepValue t /\ ptFieldDef t' = ptFieldDef t /\
  pIndexList t' = pIndexList t /\ (forall msg, assigned t' msg = assigned t msg).
Proof.
  unfold static, assigned. intros H. injection H as -> -> -> -> -> ->. done.
Qed.

Lemma same_static_table h h' p t : same_static h h' -> tables h !! p = Some t ->
  exists t', tables h' !! p = Some t' /\ static t' = static t.
Proof.
  intros Hs Ht. pose proof (st_tables _ _ Hs p) as Hp. rewrite Ht in Hp.
  destruct (tables h' !! p) as [t'|]; [|done]. exists t'. split; [done|]. by apply (inj Some) in Hp.
Qed.

(** ** The record is written and enters the indexes *)

Lemma assigned_typed order p t msg : table_ok None order p t ->
  Forall2 (fun f d => key_type f = fd_type d) (assigned t msg) (ptFieldDef t).
Proof.
  intros Hok. unfold assigned. set (data := match pMapFuncPre t with Some f => f msg | None => msg end).
  apply Forall2_same_length_lookup_2; [by rewrite length_imap|].
  intros i f d Hf Hd. rewrite list_lookup_imap, Hd in Hf. injection Hf as <-.
  by apply (to_map _ _ _ _ Hok).
Qed.

Lemma write_spec h1 own1 order1 p t1 fs :
  let r := (p, Z.to_nat (uiRecordLoc t1)) in
  shape h1 -> own_ok h1 own1 -> (forall q, is_Some (hts h1 !! q) -> ht_ok h1 own1 q order1) ->
  (forall w, w ∈ order1 -> rec_ok h1 w) -> NoDup order1 -> r ∉ order1 ->
  Z.of_nat (length order1) < MAX_ENTRIES ->
  tables h1 !! p = Some t1 -> 0 <= uiRecordLoc t1 < lSizeKeepValue t1 ->
  length (pRecordBuff t1) = Z.to_nat (lSizeKeepValue t1) -> lSizeKeepValue t1 <= INT_MAX ->
  0 <= uiRecordNum t1 < lSizeKeepValue t1 ->
  Forall2 (fun f d => key_type f = fd_type d) fs (ptFieldDef t1) ->
  let h2 := set_slot h1 r (mkRecord (Some p) fs) in
  exists h3 own3,
    kr_insert_record r p h2 =
      Ok (0, set_counters h3 p ((uiRecordLoc t1 + 1) `mod` lSizeKeepValue t1) (uiRecordNum t1 + 1)) /\
    same_view h2 h3 /\ tables h3 = tables h2 /\ hts_kept h2 h3 /\ own_ok h3 own3 /\
    (forall q, is_Some (hts h3 !! q) -> ht_ok h3 own3 q (order1 ++ [r])) /\
    (forall w, w ∈ order1 ++ [r] -> rec_ok h2 w).
Proof.
  intros r Hsh Hok Hht Hrec Hnd Hr Hlen Ht Hloc Hbuf Hkeep Hnum Hfs h2.
  assert (Ht2 : tables h2 !! p = Some (set_buff t1 (<[r.2 := mkRecord (Some p) fs]> (pRecordBuff t1)))).
  { unfold h2, set_slot. simpl fst. rewrite Ht. simpl. by rewrite lookup_insert_eq. }
  set (t2 := set_buff t1 (<[r.2 := mkRecord (Some p) fs]> (pRecordBuff t1))) in *.
  assert (Hrecs : forall w, w ∈ order1 ++ [r] -> rec_ok h2 w).
  { intros w [Hw|Hw%list_elem_of_singleton]%elem_of_app.
    - apply rec_ok_set_slot; [by intros ->|by apply Hrec].
    - subst w. exists t2, fs. split; [done|]. split; [|done].
      apply (record_at_set_slot_eq h1 r _ t1 Ht). rewrite Hbuf. simpl. lia. }
  assert (Hh2 : hts h2 = hts h1 /\ reclists h2 = reclists h1)
    by (unfold h2, set_slot; by destruct (tables h1 !! r.1)).
  destruct Hh2 as [Hh2 Hl2].
  destruct (foreach_table_spec (fun ixp => kr_rebuild_index_ins ixp r) p r order1
              (order1 ++ [r]) t2 h2 own1)
    as (h3 & own3 & Hrun & Hv & Htb & Hkept & Hok3 & Hall); try done.
  - by apply maintains_insert.
  - by apply shape_set_slot.
  - apply Hrecs. apply elem_of_app. right. by apply list_elem_of_singleton.
  - intros w Hw. apply Hrecs, elem_of_app. by left.
  - intros lp qc Hqc. rewrite Hl2. by eapply Hok.
  - intros q c Hk. unfold records_of. rewrite filter_app, filter_cons_False by congruence.
    by rewrite app_nil_r.
  - intros w [Hw|Hw%list_elem_of_singleton]%elem_of_app; [by right|by left].
  - intros q Hq. rewrite Hh2 in Hq. apply ht_ok_set_slot; [done|by apply Hht].
  - exists h3, own3. split; [|done].
    unfold kr_insert_record, mbind at 1, M_bind at 1, read_table at 1. rewrite Ht2. cbv beta iota.
    unfold mbind at 1, M_bind at 1. rewrite Hrun. cbv beta iota.
    unfold mbind at 1, M_bind at 1, read_table at 1. rewrite Htb, Ht2. cbv beta iota.
    subst t2. simpl. rewrite (u32_keep (uiRecordNum t1 + 1) t1) by lia.
    assert ((lSizeKeepValue t1 <? uiRecordNum t1 + 1) = false) as -> by lia.
    assert ((lSizeKeepValue t1 =? 0) = false) as -> by lia.
    unfold mbind, M_bind, write_table. rewrite Htb, Ht2. unfold mret, M_ret.
    unfold set_counters. rewrite Htb, Ht2. simpl.
    rewrite (u32_keep (uiRecordLoc t1 + 1) t1) by lia. rewrite Z.rem_mod_nonneg by lia.
    pose proof (Z.mod_pos_bound (uiRecordLoc t1 + 1) (lSizeKeepValue t1)).
    rewrite (u32_keep _ t1) by lia. done.
Qed.

Lemma set_counters_table h p loc num p' :
  tables (set_counters h p loc num) !! p' =
  if decide (p' = p) then (fun t => set_loc_num t loc num) <$> tables h !! p' else tables h !! p'.
Proof.
  unfold set_counters. destruct (tables h !! p) as [t|] eqn:Ht; simpl.
  - case_decide as Hp; [subst; by rewrite lookup_insert_eq, Ht|by rewrite lookup_insert_ne].
  - case_decide as Hp; [subst; by rewrite Ht|done].
Qed.

Lemma set_slot_table h r rc p :
  tables (set_slot h r rc) !! p =
  if decide (p = r.1) then (fun t => set_buff t (<[r.2 := rc]> (pRecordBuff t))) <$> tables h !! p
  else tables h !! p.
Proof.
  unfold set_slot. destruct (tables h !! r.1) as [t|] eqn:Ht; simpl.
  - case_decide as Hp; [subst; by rewrite lookup_insert_eq, Ht|by rewrite lookup_insert_ne].
  - case_decide as Hp; [subst; by rewrite Ht|done].
Qed.

(** The tables after an insertion: only the one inserted into changed. *)
Lemma insert_tables h h0 h3 p t loc num loc' num' r fs :
  tables h !! p = Some t -> tables h0 = tables h -> r.1 = p ->
  tables h3 = tables (set_slot (set_counters h0 p loc num) r (mkRecord (Some p) fs)) ->
  forall p', tables (set_counters h3 p loc' num') !! p' =
    if decide (p' = p)
    then Some (set_loc_num (set_buff t (<[r.2 := mkRecord (Some p) fs]> (pRecordBuff t))) loc' num')
    else tables h !! p'.
Proof.
  intros Ht Hh0 Hr Hh3 p'. rewrite set_counters_table, Hh3, set_slot_table, set_counters_table, Hh0, Hr.
  case_decide as Hp; [|done]. subst p'. by rewrite Ht.
Qed.

Lemma table_ok_insert pend order order1 p t r fs :
  let full := uiRecordNum t =? lSizeKeepValue t in
  let num1 := if full then uiRecordNum t - 1 else uiRecordNum t in
  table_ok None order p t -> r = (p, Z.to_nat (uiRecordLoc t)) ->
  slots p order1 = ring (uiRecordLoc t) num1 (lSizeKeepValue t) ->
  (forall i, (p, i) <> r -> (p, i) ∈ order -> (p, i) ∈ order1) ->
  table_ok pend (order1 ++ [r]) p
    (set_loc_num (set_buff t (<[r.2 := mkRecord (Some p) fs]> (pRecordBuff t)))
       ((uiRecordLoc t + 1) `mod` lSizeKeepValue t) (num1 + 1)).
Proof.
  intros full num1 [Hk Hb Hl Hn Hs Hf Hm Hfit Hby Hap] Hr Hsl Hin.
  assert (Hn1 : 0 <= num1 < lSizeKeepValue t)
    by (subst num1 full; destruct (uiRecordNum t =? lSizeKeepValue t) eqn:Heq; zlia).
  split; simpl; try done; try lia.
  - by rewrite length_insert.
  - apply Z.mod_pos_bound. lia.
  - rewrite slots_app, Hsl, ring_snoc by done. unfold slots. subst r.
    rewrite filter_cons_True by done. done.
  - intros i rc Hi Hni _. rewrite elem_of_app, list_elem_of_singleton in Hni.
    assert (Hne : (p, i) <> r) by tauto.
    rewrite list_lookup_insert_ne in Hi.
    + apply (Hf i rc Hi); [|done]. intros Ho. apply Hni. left. by apply Hin.
    + intros Heq. apply Hne. rewrite Hr in Heq |- *. simpl in Heq. by subst i.
Qed.

Lemma values_app h order1 order2 : values h (order1 ++ order2) = values h order1 ++ values h order2.
Proof. apply fmap_app. Qed.

Lemma values_frame h h' order : (forall w, w ∈ order -> record_at h' w = record_at h w) ->
  values h' order = values h order.
Proof.
  intros Hw. unfold values. apply list_fmap_ext. intros i r Hi. unfold fields_of.
  rewrite Hw; [done|]. by eapply list_elem_of_lookup_2.
Qed.

(** What an insertion does to the values kept. *)
Definition spec_insert (keep : Z) (p : ptr) (v : list keyptr) (l : list (ptr * list keyptr)) :=
  (if Z.of_nat (length (filter (fun x => x.1 = p) l)) =? keep then drop_first p l else l) ++ [(p, v)].

Lemma slots_length h p order : length (filter (fun x => x.1 = p) (values h order)) = length (slots p order).
Proof.
  unfold values, slots. rewrite length_fmap. induction order as [|r order IH]; [done|].
  csimpl. rewrite !filter_cons. simpl. case_decide; simpl; by rewrite IH.
Qed.

Lemma ring_length loc num keep : length (ring loc num keep) = Z.to_nat num.
Proof. unfold ring. by rewrite length_fmap, length_seq. Qed.

Lemma insert_spec h own order p t tid msg :
  db_inv h own None order -> kr_get_table h tid = Some p -> tables h !! p = Some t ->
  Z.of_nat (length order) < MAX_ENTRIES ->
  exists r h' own' order', kr_db_insert tid msg h = Ok (Some r, h') /\ r.1 = p /\
    db_inv h' own' None order' /\ same_static h h' /\
    values h' order' = spec_insert (lSizeKeepValue t) p (assigned t msg) (values h order) /\
    last order' = Some r /\ (forall w, w ∈ order' -> w = r \/ w ∈ order).
Proof.
  intros Hi Hp Ht Hlen. set (r := (p, Z.to_nat (uiRecordLoc t))).
  pose proof (evict_spec h own order p t Hi Ht Hlen) as Hev. cbv zeta in Hev.
  pose proof (free_or_oldest h own order p t Hi Ht) as Hfo. cbv zeta in Hfo. fold r in Hev, Hfo.
  pose proof Hi as [Hsh Hok Hhts Hnd Hrec Htab]. pose proof (Htab p t Ht) as Htok.
  pose proof Htok as [Hk Hb Hl Hn Hs Hf Hm _ _ _].
  set (full := uiRecordNum t =? lSizeKeepValue t) in *.
  set (order1 := if full then list_remove r order else order) in *.
  set (num1 := if full then uiRecordNum t - 1 else uiRecordNum t) in *.
  destruct Hev as (h0 & h1 & own1 & Hrun1 & Hv0 & Htb0 & Hh1 & Hkept1 & Hok1 & Hall1).
  assert (Hin1 : forall w, w ∈ order1 <-> w <> r /\ w ∈ order).
  { intros w. subst order1. destruct full; [by apply elem_of_list_remove|].
    split; [|tauto]. intros Hw. split; [by intros ->|done]. }
  assert (Hnd1 : NoDup order1).
  { subst order1. destruct full; [|done]. rewrite list_remove_filter by done. by apply NoDup_filter. }
  assert (Hsl1 : slots p order1 = ring (uiRecordLoc t) num1 (lSizeKeepValue t) /\
    values h order1 = (if full then drop_first p (values h order) else values h order)).
  { subst order1 num1. destruct full; [|done]. destruct Hfo as [_ (tl & Hsl & Htl)].
    destruct (values_list_remove h p (Z.to_nat (uiRecordLoc t)) order tl Hsl) as [H1 H2].
    fold r in H1, H2. split; [by rewrite H2|done]. }
  destruct Hsl1 as [Hsl1 Hval1].
  assert (Hv1 : same_view h h1) by (rewrite Hh1; eapply same_view_trans; [done|apply set_counters_view]).
  assert (Ht1 : tables h1 !! p = Some (set_loc_num t (uiRecordLoc t) num1)).
  { rewrite Hh1, set_counters_table, decide_True, Htb0, Ht by done. done. }
  assert (Hn1 : 0 <= num1 < lSizeKeepValue t)
    by (subst num1 full; destruct (uiRecordNum t =? lSizeKeepValue t) eqn:Heq; zlia).
  assert (Hlen1 : (length order1 <= length order)%nat).
  { subst order1. destruct full; [|done]. rewrite list_remove_filter by done. apply length_filter. }
  destruct (write_spec h1 own1 order1 p (set_loc_num t (uiRecordLoc t) num1) (assigned t msg))
    as (h3 & own3 & Hrun3 & Hv3 & Htb3 & Hkept3 & Hok3 & Hall3 & Hrec3); try done.
  - by eapply shape_view.
  - intros w Hw. eapply rec_ok_view; [done|]. apply Hrec. left. by apply Hin1 in Hw as [_ ?].
  - intros Hr. by apply Hin1 in Hr as [? _].
  - lia.
  - simpl. lia.
  - exact (assigned_typed order p t msg Htok).
  - simpl in Hrun3, Hall3, Hrec3. fold r in Hrun3, Hall3, Hrec3, Hv3, Htb3, Hkept3.
    set (h2 := set_slot h1 r (mkRecord (Some p) (assigned t msg))) in *.
    set (h4 := set_counters h3 p _ _) in *.
    assert (Hv4 : same_view h3 h4) by apply set_counters_view.
    assert (Hh4 : hts h4 = hts h3 /\ reclists h4 = reclists h3)
      by (unfold h4, set_counters; by destruct (tables h3 !! p)).
    destruct Hh4 as [Hh4 Hl4].
    assert (Htabs : forall p', tables h4 !! p' = if decide (p' = p)
      then Some (set_loc_num (set_buff t (<[r.2 := mkRecord (Some p) (assigned t msg)]> (pRecordBuff t)))
             ((uiRecordLoc t + 1) `mod` lSizeKeepValue t) (num1 + 1))
      else tables h !! p').
    { apply (insert_tables h h0 h3 p t (uiRecordLoc t) num1 _ _ r); try done. by rewrite Htb3, <- Hh1. }
    assert (Hstat : same_static h h4).
    { eapply same_static_trans; [by apply (same_view_static h h1)|].
      eapply same_static_trans; [apply (set_slot_static h1 r)|].
      eapply same_static_trans; [by apply (same_view_static _ h3)|].
      apply same_view_static; [done|]. intros q. by rewrite Hh4. }
    exists r, h4, own3, (order1 ++ [r]). split; [|split; [done|split; [|split; [done|split; [|split]]]]].
    + unfold kr_db_insert, mbind at 1, M_bind at 1, get_state. rewrite Hp.
      unfold kr_create_record_from_data, mbind, M_bind in *. unfold read_table at 1. rewrite Ht.
      rewrite (record_slot_ok _ _ _ _ Htok). unfold lift at 1.
      unfold get_state. fold r. destruct (lift (record_at h r) h) as [[rc h'']|]; [|done].
      rewrite Hrun1. rewrite (kr_assign_field_value_ok _ _ _ _ msg Htok). unfold lift at 1. unfold write_record, write_table. simpl fst. rewrite Ht1. simpl snd.
      assert (Hset : set_tables h1 (<[p := set_buff (set_loc_num t (uiRecordLoc t) num1)
        (<[r.2 := mkRecord (Some p) (assigned t msg)]>
           (pRecordBuff (set_loc_num t (uiRecordLoc t) num1)))]> (tables h1)) = h2).
      { unfold h2, set_slot. simpl fst. by rewrite Ht1. }
      simpl in Hset |- *. rewrite Hset. unfold mret at 1, M_ret at 1. rewrite Hrun3. done.
    + split.
      * apply (shape_view h3); [done|intros q; by rewrite Hh4|].
        apply (shape_view h2); [done|done|]. apply shape_set_slot. by apply (shape_view h).
      * intros lp qc Hqc. rewrite Hl4. by eapply Hok3.
      * intros q Hq. rewrite Hh4 in Hq. by eapply ht_ok_view; [done|done|done|apply Hall3].
      * apply NoDup_app. split; [done|]. split; [|apply NoDup_singleton].
        intros w Hw ->%list_elem_of_singleton. by apply Hin1 in Hw as [? _].
      * intros w [Hw|]; [|done]. eapply rec_ok_view; [exact Hv4|]. eapply rec_ok_view; [exact Hv3|].
        by apply Hrec3.
      * intros p' t' Ht'. rewrite Htabs in Ht'. case_decide as Hpp.
        -- subst p'. injection Ht' as <-. apply (table_ok_insert None order order1 p t r); try done.
           intros i Hne Ho. by apply Hin1.
        -- pose proof (Htab p' t' Ht') as [Hk' Hb' Hl' Hn' Hs' Hf' Hm' Hfit' Hby' Hap'].
           assert (Hso : slots p' (order1 ++ [r]) = slots p' order).
           { rewrite slots_app. unfold slots at 2. rewrite filter_cons_False by (simpl; congruence).
             simpl. rewrite app_nil_r. subst order1. destruct full; [|done].
             by apply slots_remove_other. }
           split; try done; [by rewrite Hso|]. intros i rc Hir Hni _. apply (Hf' i rc Hir); [|done].
           intros Ho. apply Hni, elem_of_app. left. apply Hin1. split; [|done]. unfold r. congruence.
    + rewrite values_app. unfold spec_insert. rewrite slots_length, Hs, ring_length, Z2Nat.id by lia.
      fold full. rewrite <- Hval1. f_equal.
      * apply values_frame. intros w Hw. rewrite (record_at_view _ _ _ Hv4), (record_at_view _ _ _ Hv3).
        unfold h2. rewrite record_at_set_slot by (by apply Hin1 in Hw as [? _]).
        by apply record_at_view.
      * unfold values. simpl. unfold fields_of.
        rewrite (record_at_view _ _ _ Hv4), (record_at_view _ _ _ Hv3). unfold h2.
        rewrite (record_at_set_slot_eq h1 r _ _ Ht1); [done|]. simpl. rewrite Hb. lia.
    + by rewrite last_snoc.
    + intros w [Hw|Hw%list_elem_of_singleton]%elem_of_app; [|by left].
      right. by apply Hin1 in Hw as [_ ?].
Qed.

(** * Selection *)

Lemma select_spec h own order tid (p : ptr) t (ixp : ptr) ix k c :
  db_inv h own None order -> kr_get_table h tid = Some p -> has_index h p t ixp ix ->
  content h k = Some c -> (forall x, hts h !! pHashTable ix = Some x -> key_type c = ht_type x) ->
  exists found, kr_db_select tid (iIndexId ix) k h = Ok (found, h) /\
    match found with
    | Some lp => exists rs, reclists h !! lp = Some rs /\ rs <> [] /\
        same_records h (pHashTable ix) rs (records_of h (pHashTable ix) c order)
    | None => records_of h (pHashTable ix) c order = []
    end.
Proof.
  intros Hi Hp Hix Hc Hty. pose proof Hix as (Ht & Hin & Hx).
  destruct (sh_field _ (di_shape _ _ _ _ Hi) _ _ _ _ Hix) as (d & x & _ & _ & _ & Hq & _).
  destruct (di_hts _ _ _ _ Hi (pHashTable ix)) as (ty & T & m & HqT & Hex & Hrep & He & _); [by eexists|].
  rewrite HqT in Hq. injection Hq as <-. specialize (Hty _ HqT). simpl in Hty.
  exists (m !! Some c ≫= snd). split.
  - unfold kr_db_select, mbind at 1, M_bind at 1, get_state. rewrite Hp.
    unfold mbind at 1, M_bind at 1, read_table. rewrite Ht. unfold kr_get_table_index.
    rewrite (find_table_index h p t ixp ix (di_shape _ _ _ _ Hi) Hix).
    unfold mbind at 1, M_bind at 1, read_index. rewrite Hx. unfold kr_get_record_list.
    by apply (ht_lookup_spec h _ ty T m k c).
  - specialize (He (Some c)). destruct (m !! Some c) as [[k0 v]|]; simpl in *.
    + destruct He as (c' & lp & rs & w & [= <-] & -> & _ & Hrs & Hne & _ & _ & Hsame). simpl.
      by exists rs.
    + by apply He.
Qed.

(** * Capacity *)

Definition keeps h : gmap ptr Z := lSizeKeepValue <$> tables h.
Definition capacity h : nat := sum_list ((fun x : ptr * Z => Z.to_nat x.2) <$> map_to_list (keeps h)).

Lemma keeps_static h h' : same_static h h' -> keeps h' = keeps h.
Proof.
  intros Hs. apply map_eq. intros p. unfold keeps. rewrite !lookup_fmap.
  pose proof (st_tables _ _ Hs p) as Hp.
  destruct (tables h' !! p) as [t'|], (tables h !! p) as [t|]; try done. simpl in *.
  apply (inj Some) in Hp. by destruct (static_fields _ _ Hp) as (_ & -> & _).
Qed.

Lemma order_capacity h own order : db_inv h own None order -> (length order <= capacity h)%nat.
Proof.
  intros Hi. set (all := map_to_list (keeps h) ≫= fun x => pair x.1 <$> seq 0 (Z.to_nat x.2)).
  assert (Hall : length all = capacity h).
  { unfold all, capacity. induction (map_to_list (keeps h)) as [|x l IH]; [done|].
    csimpl. rewrite length_app, IH, length_fmap, length_seq. done. }
  rewrite <- Hall. apply submseteq_length, NoDup_submseteq; [apply (di_nodup _ _ _ _ Hi)|].
  intros [p i] Hr. destruct (di_rec _ _ _ _ Hi (p, i)) as (t & fs & Ht & Hrec & _); [by left|].
  simpl in Ht.
  apply list_elem_of_bind. exists (p, lSizeKeepValue t). split.
  - apply list_elem_of_fmap. exists i. split; [done|]. apply elem_of_seq. split; [lia|].
    simpl in *. unfold record_at in Hrec. simpl in Hrec. rewrite Ht in Hrec. simpl in Hrec.
    destruct (pRecordBuff t !! i) as [rc|] eqn:Hrc; [|done].
    rewrite <- (to_buff _ _ _ _ (di_table _ _ _ _ Hi p t Ht)). by eapply lookup_lt_Some.
  - apply elem_of_map_to_list. unfold keeps. by rewrite lookup_fmap, Ht.
Qed.

(** * Runs of insertions *)

Fixpoint insert_all (os : list (Z * Data)) : M (T_KRDB (Data:=Data)) (list (option recptr)) :=
  match os with
  | [] => mret []
  | o :: os' => r ← kr_db_insert o.1 o.2; rs ← insert_all os'; mret (r :: rs)
  end.

(** The values of one table, and the last [n] elements of a list. *)
Definition table_values (p : ptr) (l : list (ptr * list keyptr)) : list (list keyptr) :=
  snd <$> filter (fun x => x.1 = p) l.
Definition lastn {A} (n : nat) (l : list A) : list A := drop (length l - n) l.

Lemma table_values_drop_first p l :
  table_values p (drop_first p l) = tail (table_values p l).
Proof.
  unfold table_values. induction l as [|x l IH]; [done|]. simpl. rewrite filter_cons.
  case_bool_decide as Hp; case_decide; try done. rewrite filter_cons. by rewrite decide_False.
Qed.
Lemma table_values_drop_first_other p p' l : p' <> p ->
  table_values p' (drop_first p l) = table_values p' l.
Proof.
  intros Hne. unfold table_values. induction l as [|x l IH]; [done|]. simpl.
  case_bool_decide as Hp; rewrite !filter_cons; [by rewrite decide_False by congruence|].
  case_decide; csimpl; by rewrite IH.
Qed.

Lemma table_values_insert keep p p' v l : 1 <= keep ->
  Z.of_nat (length (table_values p l)) <= keep ->
  table_values p' (spec_insert keep p v l) =
  if decide (p' = p) then lastn (Z.to_nat keep) (table_values p l ++ [v]) else table_values p' l.
Proof.
  intros Hk Hl. unfold spec_insert.
  assert (Hlen : length (filter (fun x => x.1 = p) l) = length (table_values p l))
    by (unfold table_values; by rewrite length_fmap). rewrite Hlen.
  assert (Happ : forall l1, table_values p' (l1 ++ [(p, v)]) =
    if decide (p' = p) then table_values p' l1 ++ [v] else table_values p' l1).
  { intros l1. unfold table_values. rewrite filter_app, filter_cons. simpl.
    rewrite (decide_ext (p = p') (p' = p)) by naive_solver.
    case_decide; rewrite fmap_app; [done|]. by rewrite app_nil_r. }
  rewrite Happ. case_decide as Hp.
  - subst p'. unfold lastn. rewrite length_app. simpl.
    destruct (Z.of_nat (length (table_values p l)) =? keep) eqn:Hf; zbool.
    + rewrite table_values_drop_first.
      replace (length (table_values p l) + 1 - Z.to_nat keep)%nat with 1%nat by lia.
      destruct (table_values p l); [simpl in *; lia|done].
    + by replace (length (table_values p l) + 1 - Z.to_nat keep)%nat with 0%nat by lia.
  - destruct (_ =? keep); [|done]. by apply table_values_drop_first_other.
Qed.

Lemma lastn_app {A} n (l1 l2 : list A) : lastn n (lastn n l1 ++ l2) = lastn n (l1 ++ l2).
Proof.
  unfold lastn. rewrite !length_app, length_drop.
  destruct (decide (length l1 <= n)%nat) as [Hle|Hgt].
  - replace (length l1 - n)%nat with 0%nat by lia. by rewrite drop_0, Nat.sub_0_r.
  - rewrite !drop_app, !length_drop, drop_drop. f_equal; f_equal; lia.
Qed.

Lemma lastn_length {A} n (l : list A) : (length (lastn n l) <= n)%nat.
Proof. unfold lastn. rewrite length_drop. lia. Qed.

Lemma kr_get_table_static h h' tid p : same_static h h' -> 
  kr_get_table h tid = Some p -> kr_get_table h' tid = Some p.
Proof.
  intros Hs. unfold kr_get_table. rewrite (st_list _ _ Hs).
  induction (pTableList h) as [|p' l IH]; [done|]. simpl.
  pose proof (st_tables _ _ Hs p') as Hp'.
  destruct (tables h !! p') as [t|], (tables h' !! p') as [t'|]; try done.
  simpl in Hp'. apply (inj Some), static_fields in Hp' as (-> & _). by destruct (iTableId t =? tid).
Qed.

Lemma kr_get_table_Some h tid p : kr_get_table h tid = Some p ->
  exists t, tables h !! p = Some t /\ iTableId t = tid.
Proof.
  intros [_ H]%List.find_some. destruct (tables h !! p) as [t|]; [|done]. exists t. by zbool.
Qed.

(** The data inserted into a table. *)
Definition data_of (tid : Z) (os : list (Z * Data)) : list Data := snd <$> filter (fun o => o.1 = tid) os.

Lemma insert_all_spec os h own order :
  db_inv h own None order -> Z.of_nat (capacity h) < MAX_ENTRIES ->
  (forall o, o ∈ os -> is_Some (kr_get_table h o.1)) ->
  exists rs h' own' order', insert_all os h = Ok (rs, h') /\ db_inv h' own' None order' /\
    same_static h h' /\
    forall tid p t, kr_get_table h tid = Some p -> tables h !! p = Some t ->
      Z.of_nat (length (table_values p (values h order))) <= lSizeKeepValue t ->
      table_values p (values h' order') =
      lastn (Z.to_nat (lSizeKeepValue t))
        (table_values p (values h order) ++ (assigned t <$> data_of tid os)).
Proof.
  revert h own order. induction os as [|o os IH]; intros h own order Hi Hcap Hos.
  { exists [], h, own, order. split; [done|]. split; [done|]. split; [by split|].
    intros tid p t _ _ Hl. simpl. rewrite app_nil_r. unfold lastn.
    by replace (_ - _)%nat with 0%nat by lia. }
  destruct (Hos o) as [p0 Hp0]; [by left|]. destruct (kr_get_table_Some _ _ _ Hp0) as (t0 & Ht0 & Hid0).
  pose proof (order_capacity _ _ _ Hi) as Hoc.
  destruct (insert_spec h own order p0 t0 o.1 o.2 Hi Hp0 Ht0) as
    (r & h1 & own1 & order1 & Hrun & _ & Hi1 & Hs1 & Hv1 & _); [lia|].
  destruct (IH h1 own1 order1) as (rs & h' & own' & order' & Hrun' & Hi' & Hs' & Hv'); try done.
  - unfold capacity in *. by rewrite (keeps_static _ _ Hs1).
  - intros o' Ho'. destruct (Hos o') as [p' Hp']; [by right|]. exists p'.
    by eapply kr_get_table_static.
  - exists (Some r :: rs), h', own', order'. split.
    { simpl. unfold mbind, M_bind. by rewrite Hrun, Hrun'. }
    split; [done|]. split; [by eapply same_static_trans|].
    intros tid p t Hp Ht Hl. destruct (same_static_table _ _ _ _ Hs1 Ht) as (t1 & Ht1 & Hst).
    apply static_fields in Hst as (_ & Hk1 & _ & _ & Ha1).
    pose proof (to_keep _ _ _ _ (di_table _ _ _ _ Hi p t Ht)) as Hkp.
    pose proof (to_keep _ _ _ _ (di_table _ _ _ _ Hi p0 t0 Ht0)) as Hkp0.
    assert (Hl0 : Z.of_nat (length (table_values p0 (values h order))) <= lSizeKeepValue t0).
    { unfold table_values. rewrite length_fmap, slots_length.
      pose proof (di_table _ _ _ _ Hi p0 t0 Ht0) as [_ _ _ Hn Hs _ _].
      rewrite Hs, ring_length. lia. }
    assert (Hstep : table_values p (values h1 order1) =
      lastn (Z.to_nat (lSizeKeepValue t)) (table_values p (values h order) ++
        (assigned t <$> data_of tid [o]))).
    { rewrite Hv1, table_values_insert by (done || lia). unfold data_of.
      rewrite filter_cons, filter_nil. case_decide as Hpp.
      - subst p0. rewrite Ht in Ht0. injection Ht0 as <-.
        destruct (kr_get_table_Some _ _ _ Hp) as (t' & Ht' & Hid). rewrite Ht in Ht'. injection Ht' as <-.
        by rewrite decide_True by congruence.
      - rewrite decide_False.
        + simpl. rewrite app_nil_r. unfold lastn. by replace (_ - _)%nat with 0%nat by lia.
        + intros Heq. rewrite Heq, Hp in Hp0. congruence. }
    rewrite (Hv' tid p t1); [|by eapply kr_get_table_static|done|].
    + rewrite Hstep, Hk1, lastn_app, <- app_assoc. f_equal. f_equal.
      change (o :: os) with ([o] ++ os). unfold data_of. rewrite filter_app, !fmap_app. f_equal.
      apply list_fmap_ext. intros i x _. apply Ha1.
    + rewrite Hk1, Hstep. pose proof (lastn_length (Z.to_nat (lSizeKeepValue t))
        (table_values p (values h order) ++ (assigned t <$> data_of tid [o]))). lia.
Qed.

End Inv.

(** * Creation

    [dbty]: the type of the fields indexed by a database-wide index, by its id.  A
    database in the making has no records. *)

Section Setup.
Context {Data : Type} {SA : SortArgument} (dbty : Z -> E_KRType).
Implicit Types (h : T_KRDB (Data:=Data)) (t : T_KRTable (Data:=Data)) (ix : T_KRIndex) (q : ptr).

Record setup h : Prop := {
  se_hts : forall q x, hts h !! q = Some x -> exact_type (ht_type x) = true /\
    forall hash (repr : keyref -> option keyptr), hashtable_rep hash repr (ht_table x) ∅;
  se_shape : shape h;
  se_tables : forall p t, tables h !! p = Some t -> table_ok None [] p t;
  se_db : forall i, i ∈ pDBIndexList h -> exists p t ix, has_index h p t i ix /\
    eIndexType ix = KR_INDEXTYPE_DB;
  se_type : forall p t i ix x, has_index h p t i ix -> eIndexType ix = KR_INDEXTYPE_DB ->
    hts h !! pHashTable ix = Some x -> ht_type x = dbty (iIndexId ix);
  se_private : forall p1 t1 i1 ix1 p2 t2 i2 ix2, has_index h p1 t1 i1 ix1 -> has_index h p2 t2 i2 ix2 ->
    pHashTable ix1 = pHashTable ix2 ->
    (p1 = p2 /\ i1 = i2) \/ (eIndexType ix1 = KR_INDEXTYPE_DB /\ eIndexType ix2 = KR_INDEXTYPE_DB)
}.

Lemma setup_inv h : setup h -> db_inv h (fun _ => None) None [].
Proof.
  intros [Hh Hs Ht _ _ _]. split; try done.
  - intros q [x Hx]. destruct x as [ty T]. destruct (Hh q _ Hx) as [Hex Hrep]. exists ty, T, ∅.
    split; [done|]. split; [done|]. split; [apply Hrep|]. split.
    + intros oc. by rewrite lookup_empty.
    + intros r c _ Hin. by apply not_elem_of_nil in Hin.
  - constructor.
  - intros r [Hin|Hin]; [by apply not_elem_of_nil in Hin|done].
Qed.

Lemma empty_no_index p t i ix : ~ has_index (Data:=Data) kr_create_db p t i ix.
Proof. intros [H _]. simpl in H. by rewrite lookup_empty in H. Qed.

Lemma setup_create_db : setup kr_create_db.
Proof.
  split.
  - simpl. intros q x Hx. by rewrite lookup_empty in Hx.
  - split; intros; try by match goal with
      | H : has_index _ _ _ _ _ |- _ => destruct (empty_no_index _ _ _ _ H)
      | H : tables kr_create_db !! _ = Some _ |- _ => simpl in H; rewrite lookup_empty in H
      end.
  - simpl. intros p t Ht. by rewrite lookup_empty in Ht.
  - intros i Hi. by apply not_elem_of_nil in Hi.
  - intros p t i ix x H. by destruct (empty_no_index _ _ _ _ H).
  - intros p1 t1 i1 ix1 p2 t2 i2 ix2 H. by destruct (empty_no_index _ _ _ _ H).
Qed.

Lemma new_ht_spec h ty : exists q x, new_ht ty h = Ok (q, set_hts h (<[q := x]> (hts h))) /\
  hts h !! q = None /\ ht_type x = ty /\
  forall hash (repr : keyref -> option keyptr), hashtable_rep hash repr (ht_table x) ∅.
Proof.
  destruct (new_full_spec (K:=keyref) (V:=ptr) (fun _ => 0) (fun _ => @None keyptr) false false)
    as (T & HT & Hrep & _).
  exists (fresh (dom (hts h))), (mkHt ty T). split; [|split; [|split; [done|]]].
  - unfold new_ht, mbind, M_bind, lift, kr_hashtable_new. rewrite HT. done.
  - apply not_elem_of_dom, is_fresh.
  - intros hash repr. eapply hashtable_rep_ext; [exact Hrep|]. intros c k v Hm.
    by rewrite lookup_empty in Hm.
Qed.

(** An index enters the list of its table; [q] may be a new hash table. *)
Lemma add_index_setup h h1 p t q x d ix to_db :
  setup h -> tables h !! p = Some t ->
  tables h1 = tables h -> indexes h1 = indexes h -> pDBIndexList h1 = pDBIndexList h ->
  pTableList h1 = pTableList h ->
  (forall q', q' <> q -> hts h1 !! q' = hts h !! q') -> hts h1 !! q = Some x ->
  (forall hash (repr : keyref -> option keyptr), hashtable_rep hash repr (ht_table x) ∅) ->
  (forall x0, hts h !! q = Some x0 -> x0 = x) ->
  pHashTable ix = q -> 0 <= iIndexFieldId ix ->
  ptFieldDef t !! Z.to_nat (iIndexFieldId ix) = Some d -> exact_type (fd_type d) = true ->
  ht_type x = fd_type d ->
  (forall i ix', has_index h p t i ix' -> iIndexId ix' <> iIndexId ix) ->
  (eIndexType ix = KR_INDEXTYPE_DB -> fd_type d = dbty (iIndexId ix)) -> iSortFieldId ix < 0 ->
  (forall p2 t2 i2 ix2, has_index h p2 t2 i2 ix2 -> pHashTable ix2 = q ->
     eIndexType ix = KR_INDEXTYPE_DB /\ eIndexType ix2 = KR_INDEXTYPE_DB /\ iIndexId ix2 = iIndexId ix) ->
  (to_db = true -> eIndexType ix = KR_INDEXTYPE_DB) ->
  exists i h', add_index p ix to_db h1 = Ok (i, h') /\ setup h' /\
    indexes h !! i = None /\ indexes h' = <[i := ix]> (indexes h) /\
    tables h' = <[p := set_index_list t (pIndexList t ++ [i])]> (tables h) /\
    pTableList h' = pTableList h.
Proof.
  intros [Hh Hsh Htab Hdb Hty Hpriv] Ht Ht1 Hi1 Hd1 Hl1 Hqo Hq Hrep Hq0 Hix H0 Hd Hex Hxt Hid HDB Hsort Hshare Hto.
  set (i := fresh (dom (indexes h1))).
  assert (Hfresh : indexes h !! i = None) by (rewrite <- Hi1; apply not_elem_of_dom, is_fresh).
  eexists i, _. split.
  { unfold add_index, mbind, M_bind, get_state, put_state, write_table. simpl. rewrite Ht1, Ht. done. }
  fold i. rewrite Hi1.
  set (t' := set_index_list t (pIndexList t ++ [i])).
  set (h' := set_tables _ _).
  assert (Hti : tables h' = <[p := t']> (tables h)) by (unfold h'; simpl; done).
  assert (Hii : indexes h' = <[i := ix]> (indexes h)) by done.
  assert (Hhi : hts h' = hts h1) by done.
  assert (Hold : forall p2 t2 i2 ix2, has_index h p2 t2 i2 ix2 -> i2 <> i).
  { intros p2 t2 i2 ix2 (_ & _ & Hx2) ->. congruence. }
  assert (Hnin : forall p2 t2, tables h !! p2 = Some t2 -> i ∉ pIndexList t2).
  { intros p2 t2 Ht2 Hin. destruct (sh_index _ Hsh _ _ _ Ht2 Hin) as [ix2 Hx2]. congruence. }
  assert (Hinv : forall p2 t2 i2 ix2, has_index h' p2 t2 i2 ix2 ->
    (i2 = i /\ p2 = p /\ ix2 = ix /\ t2 = t') \/
    (i2 <> i /\ exists t0, has_index h p2 t0 i2 ix2 /\ ptFieldDef t2 = ptFieldDef t0 /\ (p2 <> p -> t2 = t0))).
  { intros p2 t2 i2 ix2 (Ht2 & Hin2 & Hx2). rewrite Hti in Ht2. rewrite Hii in Hx2.
    destruct (decide (i2 = i)) as [->|Hne].
    - rewrite lookup_insert_eq in Hx2. injection Hx2 as <-. left.
      destruct (decide (p2 = p)) as [->|Hnp].
      + rewrite lookup_insert_eq in Ht2. by injection Ht2 as <-.
      + rewrite lookup_insert_ne in Ht2 by done. by destruct (Hnin _ _ Ht2).
    - rewrite lookup_insert_ne in Hx2 by done. right. split; [done|].
      destruct (decide (p2 = p)) as [->|Hnp].
      + rewrite lookup_insert_eq in Ht2. injection Ht2 as <-. exists t. split; [|done].
        split; [done|]. split; [|done]. simpl in Hin2.
        apply elem_of_app in Hin2 as [?|?%list_elem_of_singleton]; done.
      + rewrite lookup_insert_ne in Ht2 by done. by exists t2. }
  assert (Hkeep : forall q' x', hts h !! q' = Some x' -> hts h' !! q' = Some x').
  { intros q' x' Hx'. rewrite Hhi. destruct (decide (q' = q)) as [->|Hne]; [|by rewrite Hqo].
    by rewrite Hq, (Hq0 _ Hx'). }
  assert (Hhts' : forall q' x', hts h' !! q' = Some x' -> q' = q /\ x' = x \/ hts h !! q' = Some x').
  { intros q' x' Hx'. rewrite Hhi in Hx'. destruct (decide (q' = q)) as [->|Hne].
    - left. rewrite Hq in Hx'. by injection Hx' as <-.
    - right. by rewrite <- Hqo. }
  split; [|do 3 (split; [done|]); exact Hl1].
  split.
  - intros q' x' [[-> ->]|Hx']%Hhts'; [|by apply (Hh q')]. split; [congruence|done].
  - split.
    + intros p2 t2 i2 Ht2 Hin2. rewrite Hii. destruct (decide (i2 = i)) as [->|Hne];
        [rewrite lookup_insert_eq; by eexists|]. rewrite lookup_insert_ne by done.
      rewrite Hti in Ht2. destruct (decide (p2 = p)) as [->|Hnp].
      * rewrite lookup_insert_eq in Ht2. injection Ht2 as <-. simpl in Hin2.
        apply elem_of_app in Hin2 as [Hin2|?%list_elem_of_singleton]; [|done].
        by apply (sh_index _ Hsh p t).
      * rewrite lookup_insert_ne in Ht2 by done. by apply (sh_index _ Hsh p2 t2).
    + intros p2 t2 i2 ix2 [(-> & -> & -> & ->)|(Hne & t0 & Hi0 & -> & _)]%Hinv.
      * exists d, x. rewrite Hix. by rewrite Hhi.
      * destruct (sh_field _ Hsh _ _ _ _ Hi0) as (d0 & x0 & A & B & C & D & E). exists d0, x0.
        split_and!; try done. by apply Hkeep.
    + intros p2 t2 Ht2. rewrite Hti in Ht2. destruct (decide (p2 = p)) as [->|Hnp].
      * rewrite lookup_insert_eq in Ht2. injection Ht2 as <-. simpl. apply NoDup_app.
        split; [by apply (sh_nodup _ Hsh p)|]. split; [|apply NoDup_singleton].
        intros j Hj ->%list_elem_of_singleton. by apply (Hnin p t).
      * rewrite lookup_insert_ne in Ht2 by done. by apply (sh_nodup _ Hsh p2).
    + intros p2 t2 i2 i3 ix2 ix3 H2 H3 Heq.
      destruct (Hinv _ _ _ _ H2) as [(-> & -> & -> & _)|(Hn2 & t0 & Hi0 & _ & _)],
        (Hinv _ _ _ _ H3) as [(-> & Hp3 & -> & _)|(Hn3 & t3 & Hi3 & _ & _)]; try done.
      * exfalso. destruct Hi3 as [Ht3 Hi3]. rewrite Ht in Ht3. injection Ht3 as <-.
        apply (Hid i3 ix3 (conj Ht Hi3)). destruct Heq as [Heq|Heq]; [|done].
        by apply (Hshare p t i3 ix3); [done|congruence].
      * exfalso. subst p2. destruct Hi0 as [Ht0 Hi0]. rewrite Ht in Ht0. injection Ht0 as <-.
        apply (Hid i2 ix2 (conj Ht Hi0)). destruct Heq as [Heq|Heq]; [|done].
        by apply (Hshare p t i2 ix2); [done|congruence].
      * destruct Hi0 as [Ht0 Hi0], Hi3 as [Ht3 Hi3]. rewrite Ht0 in Ht3. injection Ht3 as <-.
        by apply (sh_distinct _ Hsh p2 t0 i2 i3 ix2 ix3).
    + intros p2 t2 i2 ix2 p3 t3 i3 ix3 H2 H3 Heq.
      destruct (Hinv _ _ _ _ H2) as [(-> & -> & -> & ->)|(Hn2 & t0 & Hi0 & _ & _)],
        (Hinv _ _ _ _ H3) as [(-> & -> & -> & ->)|(Hn3 & t0' & Hi3 & _ & _)].
      * done.
      * by destruct (Hshare _ _ _ _ Hi3) as (A & B & C); [congruence|].
      * by destruct (Hshare _ _ _ _ Hi0) as (A & B & C); [congruence|].
      * by apply (sh_share _ Hsh _ _ _ _ _ _ _ _ Hi0 Hi3).
    + intros p2 t2 i2 ix2 [(-> & -> & -> & ->)|(Hne & t0 & Hi0 & _ & _)]%Hinv; [done|].
      by apply (sh_unsorted _ Hsh _ _ _ _ Hi0).
  - intros p2 t2 Ht2. rewrite Hti in Ht2. destruct (decide (p2 = p)) as [->|Hnp].
    + rewrite lookup_insert_eq in Ht2. injection Ht2 as <-. destruct (Htab p t Ht). by split.
    + rewrite lookup_insert_ne in Ht2 by done. by apply Htab.
  - assert (Hlist : pDBIndexList h' = if to_db then pDBIndexList h ++ [i] else pDBIndexList h)
      by (simpl; by rewrite Hd1).
    assert (Hnew : has_index h' p t' i ix).
    { split; [by rewrite Hti, lookup_insert_eq|]. split; [|by rewrite Hii, lookup_insert_eq].
      simpl. apply elem_of_app. right. by apply list_elem_of_singleton. }
    assert (Hup : forall p2 t2 i2 ix2, has_index h p2 t2 i2 ix2 -> exists t3, has_index h' p2 t3 i2 ix2).
    { intros p2 t2 i2 ix2 Hi2. pose proof (Hold _ _ _ _ Hi2) as Hne. destruct Hi2 as (Ht2 & Hin2 & Hx2).
      destruct (decide (p2 = p)) as [->|Hnp].
      - rewrite Ht in Ht2. injection Ht2 as <-. exists t'. split; [by rewrite Hti, lookup_insert_eq|].
        split; [simpl; apply elem_of_app; by left|by rewrite Hii, lookup_insert_ne].
      - exists t2. split; [by rewrite Hti, lookup_insert_ne|]. split; [done|].
        by rewrite Hii, lookup_insert_ne. }
    intros i2 Hin2. rewrite Hlist in Hin2.
    assert (i2 ∈ pDBIndexList h \/ (to_db = true /\ i2 = i)) as [Hin|[Htd ->]].
    { destruct to_db; [|by left]. apply elem_of_app in Hin2 as [|?%list_elem_of_singleton]; auto. }
    + destruct (Hdb i2 Hin) as (p2 & t2 & ix2 & Hi2 & HD). destruct (Hup _ _ _ _ Hi2) as [t3 Ht3].
      by exists p2, t3, ix2.
    + exists p, t', ix. split; [done|]. by apply Hto.
  - intros p2 t2 i2 ix2 x2 [(-> & -> & -> & ->)|(Hne & t0 & Hi0 & _ & _)]%Hinv HD Hx2.
    + rewrite Hhi, Hix, Hq in Hx2. injection Hx2 as <-. rewrite Hxt. by apply HDB.
    + destruct (sh_field _ Hsh _ _ _ _ Hi0) as (_ & x0 & _ & _ & _ & Hx0 & _).
      rewrite (Hkeep _ _ Hx0) in Hx2. injection Hx2 as <-. by eapply Hty.
  - intros p2 t2 i2 ix2 p3 t3 i3 ix3 H2 H3 Heq.
    destruct (Hinv _ _ _ _ H2) as [(-> & -> & -> & ->)|(Hn2 & t0 & Hi0 & _ & _)],
      (Hinv _ _ _ _ H3) as [(-> & -> & -> & ->)|(Hn3 & t0' & Hi3 & _ & _)].
    + by left.
    + destruct (Hshare _ _ _ _ Hi3) as (A & B & C); [congruence|]. by right.
    + destruct (Hshare _ _ _ _ Hi0) as (A & B & C); [congruence|]. by right.
    + by apply (Hpriv _ _ _ _ _ _ _ _ Hi0 Hi3).
Qed.

(** What the rows on the indexes of a table must satisfy, given its fields. *)
Record index_row_ok (defs : list T_KRFieldDef) (row : index_row) : Prop := {
  io_type : ir_type row <> KR_INDEXTYPE_OTHER;
  io_field : 0 <= ir_field row;
  io_def : exists d, defs !! Z.to_nat (ir_field row) = Some d /\ exact_type (fd_type d) = true /\
    (ir_type row = KR_INDEXTYPE_DB -> fd_type d = dbty (ir_id row));
  io_sort : ir_sort row < 0
}.

(** A new index, and that only its table changed. *)
Definition index_added h p t row i h' : Prop :=
  indexes h !! i = None /\
  (exists q, indexes h' = <[i := mkIndex (ir_id row) (ir_type row) (ir_field row) (ir_sort row) q]> (indexes h)) /\
  tables h' = <[p := set_index_list t (pIndexList t ++ [i])]> (tables h) /\
  pTableList h' = pTableList h.

Lemma create_index_setup h p t row :
  setup h -> tables h !! p = Some t -> index_row_ok (ptFieldDef t) row ->
  (forall i ix, has_index h p t i ix -> iIndexId ix <> ir_id row) ->
  exists i h', kr_create_index p row h = Ok (Some i, h') /\ setup h' /\ index_added h p t row i h'.
Proof.
  intros Hs Ht [Hty H0 (d & Hd & Hex & HDB) Hsort] Hid.
  set (index q := mkIndex (ir_id row) (ir_type row) (ir_field row) (ir_sort row) q).
  unfold kr_create_index, mbind at 1, M_bind at 1, read_table. rewrite Ht.
  unfold mbind at 1, M_bind at 1, lift at 1. rewrite (nth_field_ok _ _ d) by done. fold index.
  (* a new hash table *)
  assert (Hnew : forall to_db, (to_db = true -> ir_type row = KR_INDEXTYPE_DB) ->
    exists i h', (q ← new_ht (fd_type d); p0 ← add_index p (index q) to_db; mret (Some p0)) h =
      Ok (Some i, h') /\ setup h' /\ index_added h p t row i h').
  { intros to_db Hto. destruct (new_ht_spec h (fd_type d)) as (q & x & Hq & Hnone & Hxt & Hrep).
    destruct (add_index_setup h (set_hts h (<[q := x]> (hts h))) p t q x d (index q) to_db)
      as (i & h' & Hadd & Hs' & Hi & Hix & Htb & Hl); try done.
    - intros q' Hne. simpl. by rewrite lookup_insert_ne.
    - simpl. by rewrite lookup_insert_eq.
    - intros x0 Hx0. congruence.
    - intros p2 t2 i2 ix2 Hi2 Heq. exfalso.
      destruct (sh_field _ (se_shape _ Hs) _ _ _ _ Hi2) as (_ & x2 & _ & _ & _ & Hx2 & _). congruence.
    - exists i, h'. split; [unfold mbind, M_bind; rewrite Hq, Hadd; done|]. split; [done|].
      split; [done|]. split; [by eexists|done]. }
  destruct (ir_type row) eqn:Hrt; [by apply Hnew| |done].
  unfold mbind at 1, M_bind at 1, get_state.
  destruct (kr_get_db_index h (ir_id row)) as [j|] eqn:Hj; [|by apply Hnew].
  unfold kr_get_db_index, find_index in Hj. apply List.find_some in Hj as [Hin Hjx].
  apply list_elem_of_In in Hin. destruct (se_db _ Hs j Hin) as (pj & tj & ixj & Hxj & HDj).
  pose proof Hxj as (_ & _ & Hix). rewrite Hix in Hjx. zbool.
  destruct (sh_field _ (se_shape _ Hs) _ _ _ _ Hxj) as (dj & x & _ & _ & Hexj & Hx & Hxd).
  pose proof (se_type _ Hs _ _ _ _ _ Hxj HDj Hx) as Htj.
  destruct (se_hts _ Hs _ _ Hx) as [_ Hrep].
  pose proof (HDB eq_refl) as HDt.
  destruct (add_index_setup h h p t (pHashTable ixj) x d (index (pHashTable ixj)) false)
    as (i & h' & Hadd & Hs' & Hi & Hix' & Htb & Hl); try done.
  - intros x0 Hx0. congruence.
  - congruence.
  - intros p2 t2 i2 ix2 Hi2 Heq. split; [done|].
    pose proof (sh_share _ (se_shape _ Hs) _ _ _ _ _ _ _ _ Hi2 Hxj Heq) as Hids.
    split; [|simpl; congruence].
    destruct (se_private _ Hs _ _ _ _ _ _ _ _ Hi2 Hxj Heq) as [[-> ->]|[? ?]]; [|done].
    destruct Hi2 as (_ & _ & Hx2). congruence.
  - exists i, h'. split.
    { unfold mbind at 1, M_bind at 1, read_index. rewrite Hix. unfold mbind, M_bind.
      unfold index in Hadd. by rewrite Hadd. }
    split; [done|]. split; [done|]. split; [exists (pHashTable ixj); rewrite Hrt; exact Hix'|done].
Qed.

Definition made_index h t (row : index_row) : Prop :=
  exists i q, i ∈ pIndexList t /\
    indexes h !! i = Some (mkIndex (ir_id row) (ir_type row) (ir_field row) (ir_sort row) q).

Lemma build_index_setup h p t rows :
  setup h -> tables h !! p = Some t -> Forall (index_row_ok (ptFieldDef t)) rows ->
  NoDup (ir_id <$> rows) ->
  (forall i ix row, has_index h p t i ix -> row ∈ rows -> iIndexId ix <> ir_id row) ->
  exists h' t', _kr_db_build_index p rows h = Ok (0, h') /\ setup h' /\
    (forall p', p' <> p -> tables h' !! p' = tables h !! p') /\
    tables h' !! p = Some t' /\ (exists l, t' = set_index_list t (pIndexList t ++ l)) /\
    pTableList h' = pTableList h /\ indexes h ⊆ indexes h' /\
    (forall row, row ∈ rows -> made_index h' t' row).
Proof.
  revert h t. induction rows as [|row rows IH]; intros h t Hs Ht Hok Hnd Hid.
  { exists h, t. split; [done|]. split; [done|]. split; [done|]. split; [done|].
    split; [exists []; rewrite app_nil_r; by destruct t|]. split; [done|]. split; [done|].
    intros row Hin. by apply not_elem_of_nil in Hin. }
  apply Forall_cons in Hok as [Hrow Hok]. csimpl in Hnd. apply NoDup_cons in Hnd as [Hnin Hnd].
  destruct (create_index_setup h p t row Hs Ht Hrow) as (i & h1 & Hrun & Hs1 & Hi & (q & Hix) & Htb & Hl).
  { intros i ix Hi. apply (Hid i ix row Hi). by left. }
  set (t1 := set_index_list t (pIndexList t ++ [i])) in *.
  destruct (IH h1 t1) as (h' & t' & Hrun' & Hs' & Hoth & Ht' & (l & Htl) & Hl' & Hsub & Hmade); try done.
  - by rewrite Htb, lookup_insert_eq.
  - intros j ixj row' (_ & Hin & Hx) Hrow'. simpl in Hin. rewrite Hix in Hx.
    destruct (decide (j = i)) as [->|Hne].
    + rewrite lookup_insert_eq in Hx. injection Hx as <-. simpl. intros Heq. apply Hnin.
      rewrite Heq. by apply list_elem_of_fmap_2.
    + rewrite lookup_insert_ne in Hx by done. apply (Hid j ixj row'); [|by right].
      split; [done|]. split; [|done].
      apply elem_of_app in Hin as [?|?%list_elem_of_singleton]; done.
  - exists h', t'. split; [simpl; unfold mbind, M_bind; by rewrite Hrun|]. split; [done|].
    split; [intros p' Hp'; rewrite Hoth, Htb, lookup_insert_ne by done; done|]. split; [done|].
    split; [exists ([i] ++ l); rewrite Htl; simpl; by rewrite <- app_assoc|].
    split; [by rewrite Hl'|]. split.
    { etransitivity; [|exact Hsub]. rewrite Hix. by apply insert_subseteq. }
    intros row' [->|Hin]%elem_of_cons; [|by apply Hmade]. exists i, q. split.
    + rewrite Htl. simpl. rewrite <- app_assoc. set_solver.
    + eapply lookup_weaken; [|exact Hsub]. by rewrite Hix, lookup_insert_eq.
Qed.

(** The bytes of the fields of a row, and what the layout computes from them when they do
    not go beyond an [int]. *)
Definition fields_total (rows : list field_row) : Z :=
  foldr (fun fr s => field_size (fr_type fr) (fr_length fr) + s) 0 rows.

Definition lengths_ok (rows : list field_row) : Prop :=
  Forall (fun fr => 0 <= fr_length fr) rows /\ RECORD_HEADER + fields_total rows + 15 <= INT_MAX.

Lemma field_size_length ty n : n <= field_size ty n.
Proof. destruct ty; simpl; lia. Qed.

Lemma fields_total_nonneg rows : Forall (fun fr => 0 <= fr_length fr) rows -> 0 <= fields_total rows.
Proof.
  unfold fields_total. induction 1 as [|fr rows H _ IH]; simpl; [lia|].
  pose proof (field_size_length (fr_type fr) (fr_length fr)). lia.
Qed.

(** By induction on the fields, from an offset on. *)
Definition layout_from (rows : list field_row) (off : Z) : Prop :=
  Forall (fun fr => 0 <= fr_length fr) rows /\ 0 <= off /\ off + fields_total rows <= INT_MAX.

Lemma lengths_layout rows : lengths_ok rows -> layout_from rows 0.
Proof. unfold lengths_ok, layout_from, RECORD_HEADER. intros []. split_and!; [done|lia|lia]. Qed.

Lemma layout_cons fr rows off : layout_from (fr :: rows) off ->
  i32 (fr_length fr) = fr_length fr /\ 0 <= fr_length fr /\
  u64 (off + field_size (fr_type fr) (fr_length fr)) = off + field_size (fr_type fr) (fr_length fr) /\
  layout_from rows (off + field_size (fr_type fr) (fr_length fr)).
Proof.
  intros ([H0 Hl]%Forall_cons & Hoff & Ht). pose proof (fields_total_nonneg _ Hl) as Hnn.
  pose proof (field_size_length (fr_type fr) (fr_length fr)) as Hsz. unfold layout_from.
  unfold fields_total in *. simpl in Ht. unfold INT_MAX in *.
  split_and!; try done; try lia.
  - apply i32_small. unfold INT_MAX, INT_MIN. lia.
  - apply wrapu_small. lia.
Qed.

Lemma load_fields_cons fr rows off : layout_from (fr :: rows) off ->
  load_fields (fr :: rows) off =
  mkFieldDef (i32 (fr_id fr)) (fr_type fr) (fr_length fr) off ::
  load_fields rows (off + field_size (fr_type fr) (fr_length fr)).
Proof. intros (E & _ & H & _)%layout_cons. simpl. by rewrite E, H. Qed.

Lemma fields_apart_load rows off size : layout_from rows off -> off + fields_total rows <= size ->
  fields_apart size off (load_fields rows off) = true.
Proof.
  revert off. induction rows as [|fr rows IH]; intros off Hl Hs.
  - simpl in *. lia.
  - rewrite (load_fields_cons _ _ _ Hl). destruct (layout_cons _ _ _ Hl) as (_ & H0 & _ & Hl').
    pose proof (field_size_length (fr_type fr) (fr_length fr)).
    simpl in Hs |- *. rewrite (proj2 (Z.leb_le _ _)), (proj2 (Z.leb_le 0 _)), IH by (done || lia). done.
Qed.

Lemma foldl_sizes rows off s : layout_from rows off -> 0 <= s -> s + fields_total rows <= INT_MAX ->
  foldl (fun s d => i32 (s + field_size (fd_type d) (fd_length d))) s (load_fields rows off) =
  s + fields_total rows.
Proof.
  revert off s. induction rows as [|fr rows IH]; intros off s Hl Hs Ht; [simpl; lia|].
  rewrite (load_fields_cons _ _ _ Hl). pose proof Hl as ([_ Hnn]%Forall_cons & _).
  apply fields_total_nonneg in Hnn. destruct (layout_cons _ _ _ Hl) as (_ & H0 & _ & Hl').
  pose proof (field_size_length (fr_type fr) (fr_length fr)). simpl in Ht |- *.
  rewrite i32_small by (unfold INT_MIN, INT_MAX in *; lia). rewrite IH by (done || lia). lia.
Qed.

Lemma KR_MEMALIGN_spec n : n <= KR_MEMALIGN n < n + 16 /\ (16 | KR_MEMALIGN n).
Proof.
  assert (KR_MEMALIGN n = (n + 15) / 16 * 16) as ->.
  { unfold KR_MEMALIGN. rewrite <- Z.ldiff_land. change 15 with (Z.ones 4) at 2.
    by rewrite Z.ldiff_ones_r, Z.shiftl_mul_pow2, Z.shiftr_div_pow2 by lia. }
  split; [|by exists ((n + 15) / 16)]. pose proof (Z_div_mod_eq_full (n + 15) 16).
  pose proof (Z.mod_pos_bound (n + 15) 16). lia.
Qed.

Lemma record_size_ok rows : lengths_ok rows ->
  record_size (load_fields rows 0) = KR_MEMALIGN (RECORD_HEADER + fields_total rows) /\
  RECORD_HEADER + fields_total rows <= record_size (load_fields rows 0).
Proof.
  intros Hok. pose proof Hok as [Hl Ht]. pose proof (fields_total_nonneg _ Hl).
  unfold record_size, RECORD_HEADER in *.
  rewrite foldl_sizes by (first [by apply lengths_layout|unfold INT_MAX in *; lia]).
  pose proof (KR_MEMALIGN_spec (16 + fields_total rows)) as [Hm _].
  rewrite (i32_small (16 + _)) by (unfold INT_MIN, INT_MAX in *; lia).
  rewrite i32_small by (unfold INT_MIN, INT_MAX in *; lia). lia.
Qed.

(** What the row of a table must satisfy: the mapping functions are there and write
    values of the types of the fields, which fit them; a record is not longer than an
    [int], and all those of the table than an [unsigned int]; the indexes are on fields
    of the exact types. *)
Record table_row_ok (row : table_row (Data:=Data)) : Prop := {
  ro_pre : is_Some (tr_map_pre row);
  ro_map : is_Some (tr_map row);
  ro_post : tr_map_post row = true;
  ro_keep : 1 <= tr_keep row <= INT_MAX;
  ro_cnt : tr_field_cnt row = Z.of_nat (length (tr_fields row));
  ro_typed : forall f msg i fr, tr_map row = Some f -> tr_fields row !! i = Some fr ->
    key_type (f msg (Z.of_nat i) (fr_length fr)) = fr_type fr /\
    value_size (f msg (Z.of_nat i) (fr_length fr)) <= field_size (fr_type fr) (fr_length fr);
  ro_lengths : lengths_ok (tr_fields row);
  ro_bytes : tr_keep row * record_size (load_fields (tr_fields row) 0) <= UINT_MAX;
  ro_index : Forall (index_row_ok (load_fields (tr_fields row) 0)) (tr_indexes row);
  ro_ids : NoDup (ir_id <$> tr_indexes row)
}.

(** A table made from a row. *)
Definition describes t (row : table_row (Data:=Data)) : Prop :=
  iTableId t = tr_id row /\ lSizeKeepValue t = tr_keep row /\
  ptFieldDef t = load_fields (tr_fields row) 0 /\ pMapFuncPre t = tr_map_pre row /\
  Some (pMapFunc t) = tr_map row.

Lemma load_fields_lookup rows off i d : layout_from rows off -> load_fields rows off !! i = Some d ->
  exists fr, rows !! i = Some fr /\ fd_type d = fr_type fr /\ fd_length d = fr_length fr.
Proof.
  revert off i. induction rows as [|fr rows IH]; intros off [|i] Hl Hd; try done;
    rewrite (load_fields_cons _ _ _ Hl) in Hd; simpl in *.
  - injection Hd as <-. by exists fr.
  - eapply IH; [|exact Hd]. by apply layout_cons in Hl as (_ & _ & _ & ?).
Qed.

Lemma load_fields_length rows off : length (load_fields rows off) = length rows.
Proof. revert off. induction rows as [|fr rows IH]; intros off; [done|]. simpl. by rewrite IH. Qed.

Lemma create_table_setup h row f : setup h -> table_row_ok row -> tr_map row = Some f ->
  exists p t h', kr_create_table row f h = Ok (p, h') /\ setup h' /\ tables h !! p = None /\
    tables h' = <[p := t]> (tables h) /\ describes t row /\ pIndexList t = [] /\
    pTableList h' = pTableList h ++ [p] /\ indexes h' = indexes h.
Proof.
  intros [Hh Hsh Htab Hdb Hty Hpriv] [Hpre Hmap Hpost Hk Hcnt Htyp Hlen Hbytes Hix Hids] Hf.
  set (p := fresh (dom (tables h))).
  assert (Hp : tables h !! p = None) by apply not_elem_of_dom, is_fresh.
  set (defs := load_fields (tr_fields row) 0).
  set (t := mkTable (tr_id row) (tr_map_pre row) f (tr_keep row) (record_size defs)
             (replicate (Z.to_nat (tr_keep row)) (mkRecord None [])) defs 0 0 []).
  set (h' := mkDB (<[p := t]> (tables h)) (indexes h) (hts h) (reclists h)
               (pTableList h ++ [p]) (pDBIndexList h)).
  exists p, t, h'. split; [|split; [|do 5 (split; [done|]); done]].
  { unfold kr_create_table, mbind, M_bind, _kr_db_load_field_def. rewrite Hcnt.
    rewrite Z.ltb_irrefl. rewrite Nat2Z.id, Nat.sub_diag, app_nil_r. done. }
  assert (Hinv : forall p2 t2 i ix, has_index h' p2 t2 i ix -> has_index h p2 t2 i ix).
  { intros p2 t2 i ix (Ht2 & Hin & Hx). simpl in Ht2, Hx. destruct (decide (p2 = p)) as [->|Hne].
    - rewrite lookup_insert_eq in Ht2. injection Ht2 as <-. by apply not_elem_of_nil in Hin.
    - by rewrite lookup_insert_ne in Ht2. }
  split.
  - exact Hh.
  - split.
    + intros p2 t2 i Ht2 Hin. simpl in *. destruct (decide (p2 = p)) as [->|Hne].
      * rewrite lookup_insert_eq in Ht2. injection Ht2 as <-. by apply not_elem_of_nil in Hin.
      * rewrite lookup_insert_ne in Ht2 by done. by apply (sh_index _ Hsh p2 t2).
    + intros p2 t2 i ix Hi%Hinv. by apply (sh_field _ Hsh _ _ _ _ Hi).
    + intros p2 t2 Ht2. simpl in *. destruct (decide (p2 = p)) as [->|Hne].
      * rewrite lookup_insert_eq in Ht2. injection Ht2 as <-. constructor.
      * rewrite lookup_insert_ne in Ht2 by done. by apply (sh_nodup _ Hsh p2).
    + intros p2 t2 i1 i2 ix1 ix2 H1%Hinv H2%Hinv. by apply (sh_distinct _ Hsh _ _ _ _ _ _ H1 H2).
    + intros p1 t1 i1 ix1 p2 t2 i2 ix2 H1%Hinv H2%Hinv. by apply (sh_share _ Hsh _ _ _ _ _ _ _ _ H1 H2).
    + intros p2 t2 i ix Hi%Hinv. by apply (sh_unsorted _ Hsh _ _ _ _ Hi).
  - intros p2 t2 Ht2. simpl in *. destruct (decide (p2 = p)) as [->|Hne].
    + rewrite lookup_insert_eq in Ht2. injection Ht2 as <-. split; simpl; try done; try lia.
      * by rewrite length_replicate.
      * intros i rc Hi _ _. apply lookup_replicate in Hi as [-> _]. done.
      * intros msg i d Hd.
        destruct (load_fields_lookup _ _ _ _ (lengths_layout _ Hlen) Hd) as (fr & Hfr & -> & ->).
        by apply Htyp.
      * intros msg i d Hd. unfold value_fits.
        destruct (load_fields_lookup _ _ _ _ (lengths_layout _ Hlen) Hd) as (fr & Hfr & -> & ->).
        apply Z.leb_le. by apply (Htyp f msg i fr).
      * destruct (record_size_ok _ Hlen) as [_ Hsz]. fold defs in Hsz, Hbytes.
        pose proof (fields_total_nonneg _ (proj1 Hlen)). lia.
      * apply fields_apart_load; [by apply lengths_layout|].
        destruct (record_size_ok _ Hlen) as [_ Hsz]. fold defs in Hsz. lia.
    + rewrite lookup_insert_ne in Ht2 by done. by apply Htab.
  - intros i Hi. destruct (Hdb i Hi) as (p2 & t2 & ix & (Ht2 & Hin & Hx) & HD). exists p2, t2, ix.
    split; [|done]. split; [|done]. simpl. rewrite lookup_insert_ne; [done|]. intros <-. congruence.
  - intros p2 t2 i ix x Hi%Hinv. by apply (Hty _ _ _ _ _ Hi).
  - intros p1 t1 i1 ix1 p2 t2 i2 ix2 H1%Hinv H2%Hinv. by apply (Hpriv _ _ _ _ _ _ _ _ H1 H2).
Qed.

(** The tables of a database correspond to the rows read. *)
Record made h (rows : list (table_row (Data:=Data))) : Prop := {
  ma_tables : Forall2 (fun p row => exists t, tables h !! p = Some t /\ describes t row /\
      forall ir, ir ∈ tr_indexes row -> made_index h t ir) (pTableList h) rows;
  ma_capacity : capacity h = sum_list ((fun r => Z.to_nat (tr_keep r)) <$> rows)
}.

Lemma capacity_keeps h h' : keeps h' = keeps h -> capacity h' = capacity h.
Proof. unfold capacity. by intros ->. Qed.

Lemma sum_list_perm (l1 l2 : list nat) : l1 ≡ₚ l2 -> sum_list l1 = sum_list l2.
Proof. induction 1; simpl; lia. Qed.

Lemma capacity_insert h h' p t : tables h !! p = None -> tables h' = <[p := t]> (tables h) ->
  capacity h' = (Z.to_nat (lSizeKeepValue t) + capacity h)%nat.
Proof.
  intros Hp Hh. unfold capacity, keeps. rewrite Hh, fmap_insert.
  rewrite (sum_list_perm _ ((fun x : ptr * Z => Z.to_nat x.2) <$>
    ((p, lSizeKeepValue t) :: map_to_list (lSizeKeepValue <$> tables h)))); [done|].
  apply fmap_Permutation, map_to_list_insert. by rewrite lookup_fmap, Hp.
Qed.

Lemma startup_setup rows : forall h done, setup h -> made h done -> Forall table_row_ok rows ->
  exists h', startup_tables rows h = Ok (true, h') /\ setup h' /\ made h' (done ++ rows).
Proof.
  induction rows as [|row rows IH]; intros h dn Hs Hm Hok.
  { exists h. rewrite app_nil_r. done. }
  apply Forall_cons in Hok as [Hrow Hok]. pose proof Hrow as [[pre Hpre] [f Hf] Hpost Hk Hcnt Htyp Hlen Hby Hix Hids].
  destruct (create_table_setup h row f Hs Hrow Hf) as (p & t & h1 & Hrun1 & Hs1 & Hp & Htb1 & Hd & Hnil & Hl1 & Hix1).
  assert (Ht1 : tables h1 !! p = Some t) by by rewrite Htb1, lookup_insert_eq.
  destruct (build_index_setup h1 p t (tr_indexes row) Hs1 Ht1) as (h2 & t2 & Hrun2 & Hs2 & Hoth & Ht2 & (l & Htl) & Hl2 & Hsub & Hmade).
  { destruct Hd as (_ & _ & -> & _). done. }
  { done. }
  { intros i ix r (_ & Hin & _). rewrite Hnil in Hin.
    by apply not_elem_of_nil in Hin. }
  destruct (IH h2 (dn ++ [row]) Hs2) as (h3 & Hrun3 & Hs3 & Hm3); [|done|].
  - destruct Hm as [Hmt Hmc]. split.
    + rewrite Hl2, Hl1. apply Forall2_app.
      * eapply Forall2_impl; [exact Hmt|]. intros p' r' (t' & Ht' & Hd' & Hm'). exists t'. split; [|split; [done|]].
        -- rewrite Hoth, Htb1, lookup_insert_ne; [done| |]; intros ->; congruence.
        -- intros ir Hir. destruct (Hm' ir Hir) as (i & q & Hin & Hx). exists i, q. split; [done|].
           eapply lookup_weaken; [|exact Hsub]. by rewrite Hix1.
      * apply Forall2_cons. split; [|constructor]. exists t2. split; [done|]. split; [by rewrite Htl|done].
    + rewrite fmap_app.
      rewrite (capacity_keeps h1 h2), (capacity_insert h h1 p t Hp Htb1), Hmc.
      * destruct Hd as (_ & -> & _). rewrite sum_list_with_app. simpl. lia.
      * apply map_eq. intros p'. unfold keeps. rewrite !lookup_fmap.
        destruct (decide (p' = p)) as [->|Hne]; [by rewrite Ht2, Ht1, Htl|by rewrite Hoth].
  - exists h3. rewrite <- app_assoc in Hm3. split; [|done]. simpl. rewrite Hpre, Hf, Hpost.
    unfold mbind, M_bind. rewrite Hrun1, Hrun2. done.
Qed.

Lemma made_get_table h rows row : made h rows -> NoDup (tr_id <$> rows) -> row ∈ rows ->
  exists p t, kr_get_table h (tr_id row) = Some p /\ tables h !! p = Some t /\ describes t row /\
    forall ir, ir ∈ tr_indexes row -> made_index h t ir.
Proof.
  intros [Hm _] Hnd Hin. unfold kr_get_table. induction Hm as [|p r ps rows (t & Ht & Hd & Hmi) _ IH].
  { by apply not_elem_of_nil in Hin. }
  csimpl in Hnd. apply NoDup_cons in Hnd as [Hnin Hnd]. simpl. rewrite Ht.
  pose proof Hd as (Hid & _). rewrite Hid. apply elem_of_cons in Hin as [->|Hin].
  - rewrite Z.eqb_refl. by exists p, t.
  - destruct (tr_id r =? tr_id row) eqn:He; [|by apply IH]. zbool. destruct Hnin. rewrite He.
    by apply list_elem_of_fmap_2.
Qed.

Lemma kr_db_startup_setup rows : Forall table_row_ok rows ->
  exists h, kr_db_startup rows = Ok (Some h) /\ setup h /\ made h rows.
Proof.
  intros Hok. destruct (startup_setup rows kr_create_db [] setup_create_db) as (h & Hrun & Hs & Hm).
  { split; [constructor|]. unfold capacity, keeps. simpl. by rewrite fmap_empty, map_to_list_empty. }
  { done. }
  exists h. unfold kr_db_startup. rewrite Hrun. done.
Qed.

End Setup.
