(* ===== verification/KrDbRun.v ===== *)
(** What a started database does: the layout of its records, the records a table keeps
    after any run of insertions, and what a selection then finds.  The statements are
    about kr_db_startup, kr_db_insert and kr_db_select of KrDb, from the rows of the
    configuration on; the invariants are those of KrDbWindow. *)

From S2P Require Import Prelude KrString KrHashtable KrTypes KrHashset KrDb KrDbWindow.
Local Open Scope Z_scope.
#[local] Notation length := List.length.

Section Run.
Context {Data : Type} {SA : SortArgument} (dbty : Z -> E_KRType).
Implicit Types (h : T_KRDB (Data:=Data)) (t : T_KRTable (Data:=Data)) (r w : recptr)
  (order : list recptr) (row : table_row (Data:=Data)).

(** The fields of a record in its slot, and the records a table keeps, oldest first. *)
Definition kept h (p : ptr) : list (list keyptr) :=
  match tables h !! p with
  | Some t => (fun i => fields_of h (p, i)) <$> ring (uiRecordLoc t) (uiRecordNum t) (lSizeKeepValue t)
  | None => []
  end.

(** What the mapping functions of a row make of a message. *)
Definition row_record row (msg : Data) : list keyptr :=
  match tr_map row with
  | Some f => imap (fun i fr => f (match tr_map_pre row with Some g => g msg | None => msg end)
                          (Z.of_nat i) (fr_length fr)) (tr_fields row)
  | None => []
  end.

Lemma table_values_kept h own order p t : db_inv h own None order -> tables h !! p = Some t ->
  table_values p (values h order) = kept h p.
Proof.
  intros Hi Ht. unfold kept. rewrite Ht. rewrite <- (to_slots _ _ _ _ (di_table _ _ _ _ Hi p t Ht)).
  unfold table_values, values, slots. clear Hi Ht. induction order as [|r order IH]; [done|]. csimpl.
  rewrite !filter_cons. simpl. case_decide as Hp; csimpl; rewrite IH; [|done].
  subst p. by destruct r.
Qed.

Lemma load_fields_imap {B} (g : nat -> Z -> B) rows off : layout_from rows off ->
  imap (fun i d => g i (fd_length d)) (load_fields rows off) = imap (fun i fr => g i (fr_length fr)) rows.
Proof.
  revert g off. induction rows as [|fr rows IH]; intros g off Hl; [done|].
  rewrite (load_fields_cons _ _ _ Hl). simpl. f_equal. apply (IH (fun i => g (S i))).
  by apply layout_cons in Hl as (_ & _ & _ & ?).
Qed.

Lemma assigned_describes t row msg : describes t row -> lengths_ok (tr_fields row) ->
  assigned t msg = row_record row msg.
Proof.
  intros (_ & _ & Hf & Hpre & Hmap) Hl. unfold assigned, row_record. rewrite Hf, Hpre, <- Hmap.
  exact (load_fields_imap (fun i l => pMapFunc t _ (Z.of_nat i) l) _ _ (lengths_layout _ Hl)).
Qed.

(** What is supposed of the configuration and of the messages. *)
Record run_ok (rows : list (table_row (Data:=Data))) (os : list (Z * Data)) : Prop := {
  rk_rows : Forall (table_row_ok dbty) rows;
  rk_ids : NoDup (tr_id <$> rows);
  rk_keeps : Z.of_nat (sum_list ((fun row => Z.to_nat (tr_keep row)) <$> rows)) < MAX_ENTRIES;
  rk_known : Forall (fun o => o.1 ∈ tr_id <$> rows) os
}.

Lemma run_spec rows os : run_ok rows os ->
  exists h0 rs h own order, kr_db_startup rows = Ok (Some h0) /\ insert_all os h0 = Ok (rs, h) /\
    setup dbty h0 /\ same_static h0 h /\ db_inv h own None order /\
    forall row, row ∈ rows -> exists p t0 t, kr_get_table h (tr_id row) = Some p /\
      tables h0 !! p = Some t0 /\ tables h !! p = Some t /\ static t = static t0 /\ describes t0 row /\
      (forall ir, ir ∈ tr_indexes row -> made_index h0 t0 ir) /\
      table_values p (values h order) =
        lastn (Z.to_nat (tr_keep row)) (row_record row <$> data_of (tr_id row) os).
Proof.
  intros [Hrows Hids Hkeeps Hos].
  destruct (kr_db_startup_setup dbty rows Hrows) as (h0 & Hrun & Hs & Hm).
  destruct (insert_all_spec os h0 (fun _ => None) []) as (rs & h & own & order & Hins & Hi & Hst & Hv).
  - by eapply setup_inv.
  - by rewrite (ma_capacity _ _ Hm).
  - intros o Ho. rewrite Forall_forall in Hos. apply Hos, list_elem_of_fmap in Ho as (row & -> & Hin).
    destruct (made_get_table _ _ _ Hm Hids Hin) as (p & t & Hp & _). by eexists.
  - exists h0, rs, h, own, order. do 5 (split; [done|]). intros row Hin.
    destruct (made_get_table _ _ _ Hm Hids Hin) as (p & t0 & Hp & Ht0 & Hd & Hix).
    destruct (same_static_table _ _ _ _ Hst Ht0) as (t & Ht & Hst').
    exists p, t0, t. split; [by eapply kr_get_table_static|]. do 5 (split; [done|]).
    rewrite (Hv _ _ _ Hp Ht0).
    + pose proof Hd as (_ & Hk & _). rewrite Hk. simpl. f_equal. apply list_fmap_ext.
      intros i m _. apply assigned_describes; [done|]. rewrite Forall_forall in Hrows.
      by apply ro_lengths with dbty, Hrows.
    + simpl. rewrite Forall_forall in Hrows. pose proof (ro_keep _ _ (Hrows _ Hin)) as Hkr.
      destruct Hd as (_ & -> & _). lia.
Qed.


(** * Selection by an index of the table *)

(** No other table shares a hash table that is not of a database-wide index. *)
Lemma records_of_table h own order p t i ix c :
  db_inv h own None order -> has_index h p t i ix ->
  (forall p2 t2 i2 ix2, has_index h p2 t2 i2 ix2 -> pHashTable ix2 = pHashTable ix -> p2 = p) ->
  0 <= iIndexFieldId ix ->
  fields_of h <$> records_of h (pHashTable ix) c order =
  filter (fun v => v !! Z.to_nat (iIndexFieldId ix) = Some c) (table_values p (values h order)).
Proof.
  intros Hi Hix Hpriv H0. pose proof (di_shape _ _ _ _ Hi) as Hsh.
  assert (Hrec : forall r, r ∈ order -> rec_ok h r) by (intros r Hr; apply (di_rec _ _ _ _ Hi); by left).
  clear Hi. unfold records_of, table_values, values.
  induction order as [|r order IH]; [done|]. csimpl. rewrite !filter_cons. simpl.
  assert (Hkey : key_of h (pHashTable ix) r = Some c <->
    r.1 = p /\ fields_of h r !! Z.to_nat (iIndexFieldId ix) = Some c).
  { pose proof Hix as (Ht & _). split.
    - intros Hk. destruct (key_of_index _ _ _ _ Hk) as (t2 & ix2 & i2 & Hi2 & Hq2).
      pose proof (Hpriv _ _ _ _ Hi2 Hq2) as Hp. split; [done|].
      unfold key_of, key_ref in Hk. rewrite Hp, Ht in Hk. simpl in Hk.
      rewrite (index_on_in _ _ _ _ _ Hsh Hix) in Hk. simpl in Hk.
      unfold fields_of. destruct (record_at h r) as [rc|]; [|done].
      unfold nth_field in Hk. rewrite (proj2 (Z.ltb_ge _ _) H0) in Hk.
      by destruct (pRecBuf rc !! _); simplify_eq/=.
    - intros [Hp Hf]. unfold key_of, key_ref. rewrite Hp, Ht. simpl.
      rewrite (index_on_in _ _ _ _ _ Hsh Hix). simpl. unfold fields_of in Hf.
      destruct (record_at h r) as [rc|]; [|done].
      by rewrite (nth_field_ok _ _ _ H0 Hf). }
  specialize (IH (fun w Hw => Hrec w (list_elem_of_further _ _ _ Hw))).
  destruct (decide (r.1 = p)) as [Hp|Hp].
  - csimpl. rewrite filter_cons, (decide_ext _ _ _ _ Hkey).
    destruct (decide (fields_of h r !! Z.to_nat (iIndexFieldId ix) = Some c)) as [Hf|Hf].
    + rewrite decide_True by done. csimpl. by rewrite IH.
    + rewrite decide_False by naive_solver. exact IH.
  - rewrite decide_False by naive_solver. exact IH.
Qed.

Lemma has_index_static h h' p t' i ix : same_static h h' -> has_index h' p t' i ix ->
  exists t, has_index h p t i ix /\ static t' = static t.
Proof.
  intros Hs (Ht & Hin & Hix). pose proof (st_tables _ _ Hs p) as Hp. rewrite Ht in Hp. simpl in Hp.
  destruct (tables h !! p) as [t|] eqn:Ht0; [|done]. apply (inj Some) in Hp.
  pose proof Hp as (_ & _ & _ & Hl & _)%static_fields. exists t. split; [|done].
  rewrite (st_indexes _ _ Hs) in Hix. by rewrite Hl in Hin.
Qed.

Lemma made_index_static h h' p t t' (ir : index_row) : same_static h h' ->
  tables h' !! p = Some t' -> static t' = static t -> made_index h t ir ->
  exists i ix, has_index h' p t' i ix /\ iIndexId ix = ir_id ir /\ eIndexType ix = ir_type ir /\
    iIndexFieldId ix = ir_field ir /\ iSortFieldId ix = ir_sort ir.
Proof.
  intros Hs Ht' Hst (i & q & Hin & Hix). 
  exists i, (mkIndex (ir_id ir) (ir_type ir) (ir_field ir) (ir_sort ir) q). split; [|done].
  split; [done|]. pose proof Hst as (_ & _ & _ & -> & _)%static_fields.
  split; [done|]. by rewrite (st_indexes _ _ Hs).
Qed.

(** The values that a search is for, among the records of a table. *)
Definition having (fld : Z) (c : keyptr) (l : list (list keyptr)) : list (list keyptr) :=
  filter (fun v => v !! Z.to_nat fld = Some c) l.


(** * The layout of the records *)

Definition field_end (d : T_KRFieldDef) : Z := fd_offset d + field_size (fd_type d) (fd_length d).

Lemma load_fields_bounds rows off i d : layout_from rows off -> load_fields rows off !! i = Some d ->
  off <= fd_offset d /\ fd_offset d <= field_end d /\ field_end d <= off + fields_total rows.
Proof.
  revert off i. induction rows as [|fr rows IH]; intros off i Hl Hd; [done|].
  rewrite (load_fields_cons _ _ _ Hl) in Hd. pose proof Hl as ([_ Hnn]%Forall_cons & _).
  apply fields_total_nonneg in Hnn. destruct (layout_cons _ _ _ Hl) as (_ & H0 & _ & Hl').
  pose proof (field_size_length (fr_type fr) (fr_length fr)).
  destruct i as [|i]; simpl in Hd |- *.
  - injection Hd as <-. unfold field_end. simpl. lia.
  - destruct (IH _ i Hl' Hd) as (A & B & C). lia.
Qed.

Lemma load_fields_ordered rows off i j d1 d2 : layout_from rows off ->
  (i < j)%nat -> load_fields rows off !! i = Some d1 -> load_fields rows off !! j = Some d2 ->
  field_end d1 <= fd_offset d2.
Proof.
  revert off i j. induction rows as [|fr rows IH]; intros off i j Hl Hij H1 H2; [done|].
  rewrite (load_fields_cons _ _ _ Hl) in H1, H2. destruct (layout_cons _ _ _ Hl) as (_ & _ & _ & Hl').
  destruct j as [|j]; [lia|]. simpl in H2. destruct i as [|i]; simpl in H1.
  - injection H1 as <-. unfold field_end. simpl. by destruct (load_fields_bounds _ _ _ _ Hl' H2).
  - apply (IH _ i j Hl'); [lia|done|done].
Qed.

(** The layout of a record: with lengths that are not negative and together fit an [int],
    every field lies after the header and before the end of the slot, two fields never
    overlap, and the size of a slot is the next multiple of 16, so that the slots of the
    buffer stay aligned. *)
Theorem kr_db_record_layout rows : lengths_ok rows ->
  let defs := load_fields rows 0 in
  let size := record_size defs in
  (forall i d, defs !! i = Some d ->
     RECORD_HEADER <= RECORD_HEADER + fd_offset d /\ RECORD_HEADER + field_end d <= size) /\
  (forall i j d1 d2, (i < j)%nat -> defs !! i = Some d1 -> defs !! j = Some d2 ->
     field_end d1 <= fd_offset d2) /\
  (16 | size) /\ size < RECORD_HEADER + fields_total rows + 16.
Proof.
  intros Hok defs size. pose proof (lengths_layout _ Hok) as Hl.
  destruct (record_size_ok _ Hok) as [Heq Hsz]. fold defs in Heq, Hsz. fold size in Heq, Hsz.
  destruct (KR_MEMALIGN_spec (RECORD_HEADER + fields_total rows)) as [Hb Hdiv].
  rewrite <- Heq in Hb, Hdiv. split; [|split; [|split; [done|lia]]].
  - intros i d Hd. destruct (load_fields_bounds rows 0 i d Hl Hd) as (A & B & C). lia.
  - intros i j d1 d2. by apply load_fields_ordered.
Qed.

(** The address of a slot is a product of 32 bits: in a table of 4 GiB or more the first
    record beyond them is written over the first record of the table. *)
Theorem kr_db_address_wraps t : RECORD_HEADER <= iRecordSize t ->
  uiRecordLoc t * iRecordSize t = 2 ^ 32 -> record_slot t = Ok 0%nat.
Proof.
  intros Hsz Heq. unfold record_slot. rewrite Heq. unfold RECORD_HEADER in *.
  rewrite (proj2 (Z.ltb_ge _ _)) by lia. change (u32 (2 ^ 32)) with 0.
  by rewrite Z.mod_0_l, Z.div_0_l by lia.
Qed.

End Run.

(** * Sorted indexes *)

(** Adding a record to a sorted index whose list for the key of the record is not
    empty: the comparison function reads the definition of a field at the number that is
    made of the address of the sort field's number, outside the definitions of the table
    unless that address happens to be small. *)
Theorem kr_db_sorted_index_faults {Data} {SA : SortArgument} (h : T_KRDB (Data:=Data)) ixp ix r k lp l p t :
  indexes h !! ixp = Some ix -> 0 <= iSortFieldId ix ->
  kr_get_field_value h r (iIndexFieldId ix) = Ok k ->
  ht_lookup (pHashTable ix) k h = Ok (Some lp, h) -> reclists h !! lp = Some l -> l <> [] ->
  record_table h r = Ok (p, t) -> ~ 0 <= sort_argument ixp < Z.of_nat (length (ptFieldDef t)) ->
  kr_rebuild_index_ins ixp r h = Fault OutOfBounds.
Proof.
  intros Hix Hs Hk Hlk Hl Hne Ht Hfld. unfold kr_rebuild_index_ins, mbind, M_bind, read_index, get_state.
  rewrite Hix, Hk. unfold lift at 1. rewrite Hlk. unfold mret at 1, M_ret, read_reclist. rewrite Hl.
  assert ((0 <=? iSortFieldId ix) = true) as -> by lia. unfold lift, list_add_sorted.
  assert (Hrev : reverse l <> []) by (intros E; apply Hne; by apply (inj reverse); rewrite E).
  destruct (reverse l) as [|w l']; [done|]. simpl.
  assert (Hn : nth_field (ptFieldDef t) (sort_argument ixp) = Fault OutOfBounds).
  { unfold nth_field. destruct (sort_argument ixp <? 0) eqn:E; [done|]. zbool.
    by rewrite lookup_ge_None_2 by lia. }
  unfold kr_db_field_compare, kr_get_field_type, kr_get_field_def. rewrite Ht. simpl. by rewrite Hn.
Qed.

(** * An example: two tables that share a database-wide index *)

Definition example_map (msg i len : Z) : keyptr :=
  match i with 0 => KeyInt (msg mod 3) | _ => KeyLong msg end.
Definition example_table (id keep : Z) (ixs : list index_row) : table_row (Data:=Z) :=
  mkTableRow id keep 2 [mkFieldRow 1 KR_TYPE_INT 4; mkFieldRow 2 KR_TYPE_LONG 8] ixs
    (Some (fun m => m)) (Some example_map) true.
Definition example_shared : index_row := mkIndexRow 20 KR_INDEXTYPE_DB 0 (-1).
Definition example_index : index_row := mkIndexRow 10 KR_INDEXTYPE_TABLE 0 (-1).
Definition example_rows : list (table_row (Data:=Z)) :=
  [example_table 1 3 [example_index; example_shared]; example_table 2 1 [example_shared]].
Definition example_layout : SortArgument := fun _ => 6299312.
#[local] Existing Instance example_layout.
Definition example_inserts : list (Z * Z) := [(1, 1); (2, 7); (1, 4); (1, 5); (1, 10)].

Lemma example_table_ok id keep ixs : 1 <= keep <= 100 ->
  Forall (index_row_ok (fun _ => KR_TYPE_INT)
    (load_fields [mkFieldRow 1 KR_TYPE_INT 4; mkFieldRow 2 KR_TYPE_LONG 8] 0)) ixs ->
  NoDup (ir_id <$> ixs) -> table_row_ok (fun _ => KR_TYPE_INT) (example_table id keep ixs).
Proof.
  intros Hk Hix Hnd. split; try done; try by eexists.
  - simpl. unfold INT_MAX. lia.
  - intros f msg i fr [= <-] Hi. destruct i as [|[|i]]; simpl in *; simplify_eq/=; split; done.
  - by split; [repeat constructor|].
  - assert (Hs : record_size (load_fields (tr_fields (example_table id keep ixs)) 0) = 32)
      by (by vm_compute). rewrite Hs. simpl. unfold UINT_MAX. lia.
Qed.

Lemma example_index_ok ir : ir = example_index \/ ir = example_shared ->
  index_row_ok (fun _ => KR_TYPE_INT)
    (load_fields [mkFieldRow 1 KR_TYPE_INT 4; mkFieldRow 2 KR_TYPE_LONG 8] 0) ir.
Proof. intros [->| ->]; split; try done; by eexists. Qed.

Lemma example_ok : run_ok (fun _ => KR_TYPE_INT) example_rows example_inserts.
Proof.
  split.
  - repeat apply Forall_cons_2; [| |constructor].
    all: apply example_table_ok; [lia| |by apply (bool_decide_unpack _)].
    all: repeat apply Forall_cons_2; try constructor; apply example_index_ok; auto.
  - by apply (bool_decide_unpack _).
  - by vm_compute.
  - apply (bool_decide_unpack _). by vm_compute.
Qed.



Lemma kr_db_record_layout_witness :
  let defs := load_fields [mkFieldRow 1 KR_TYPE_STRING 20; mkFieldRow 2 KR_TYPE_INT 4] 0 in
  (16 | record_size defs) /\ record_size defs = 48 /\
  forall d1 d2, defs !! 0%nat = Some d1 -> defs !! 1%nat = Some d2 -> field_end d1 <= fd_offset d2.
Proof.
  destruct (kr_db_record_layout [mkFieldRow 1 KR_TYPE_STRING 20; mkFieldRow 2 KR_TYPE_INT 4])
    as (_ & Hord & Hdiv & _).
  - by split; [repeat constructor|].
  - split; [exact Hdiv|]. split; [by vm_compute|]. intros d1 d2. apply Hord. lia.
Defined.

(** One sorted index, and two records with the same key. *)
Definition example_sorted : list (table_row (Data:=Z)) :=
  [example_table 1 3 [mkIndexRow 10 KR_INDEXTYPE_TABLE 0 1]].

Lemma kr_db_sorted_index_faults_witness :
  exists h0 r h ixp, kr_db_startup example_sorted = Ok (Some h0) /\
    kr_db_insert 1 1 h0 = Ok (Some r, h) /\ kr_rebuild_index_ins ixp r h = Fault OutOfBounds /\
    kr_db_insert 1 4 h = Fault OutOfBounds.
Proof.
  eexists _, _, _, 1%positive. split; [vm_compute; reflexivity|]. split; [vm_compute; reflexivity|].
  split; [|by vm_compute].
  eapply kr_db_sorted_index_faults; try (vm_compute; reflexivity).
  - vm_compute. discriminate.
  - discriminate.
  - intros [_ Hlt]. vm_compute in Hlt. discriminate.
Defined.

(** A table of records of 64 KiB, behind the last that the first 4 GiB have room for. *)
Definition example_large : T_KRTable (Data:=Z) :=
  mkTable 1 None example_map 100000 65536 [] [] 65536 65536 [].

Lemma kr_db_address_wraps_witness : record_slot example_large = Ok 0%nat.
Proof. by apply (kr_db_address_wraps example_large). Defined.
