(* ===== verification/KrDym.v ===== *)
(** The parameters the rules run on: the definitions in shared memory (krparam/kr_shm.c,
    two sections, one active) and what is made of them for a thread
    (krparam/kr_dym.c and kr_dym_set.c, kr_dym_sdi.c, kr_dym_ddi.c, kr_dym_hdi.c,
    kr_dym_rule.c, kr_dym_group.c): sets, data items, rules and groups with their
    calculators.

    The items point to their definitions in the shared memory, whose sections the loads
    write again and again: what they read there is followed through the pointers, by any
    sequence of loads, checks and uses (kr_dym_reflects_active).

    A table of items is a map from ids, as KrHashtable shows its hash table to be.  A
    second item of an id would free the first and leave the key of its entry in freed
    memory; this is a [BadPointer] here.  The sets and the objects of the calculators
    are in one store.  The rows of the configuration cursors, the outcome of the loads
    (KrShm) and the functions of the data module are arguments.  Names and descriptions,
    which only the JSON of a definition shows, are in KrShm. *)

From S2P Require Import Prelude KrString KrHashtable KrTypes KrHashset KrJson KrCalcTree KrCalcJson KrDb.
Local Open Scope Z_scope.
#[local] Notation length := List.length.

(** * Definitions (kr_shm_set.h, kr_shm_sdi.h, ...) *)

Record T_KRShmSetDef := mkSetDef { st_id : Z; st_name : string; st_type : E_KRType }.

Inductive E_KRLocProp := KR_LOC_ABSOLUTE | KR_LOC_RELATIVE | KR_LOC_OTHER.

#[export] Instance E_KRLocProp_eq_dec : EqDecision E_KRLocProp.
Proof. solve_decision. Defined.

Record T_KRShmSDIDef := mkSDIDef {
  lSdiId : Z;
  caSdiValueType : E_KRType;
  caSdiAggrFunc : string;
  sdi_datasrc : Z;
  sdi_index : Z;
  sdi_field : Z;
  sdi_location : Z;
  caLocationProperty : E_KRLocProp;
  caSdiFilterFormat : E_KRCalcFormat;
  caSdiFilterString : string
}.

Inductive E_KRDDIStatisticsType :=
  | KR_DDI_STATISTICS_INCLUDE | KR_DDI_STATISTICS_EXCLUDE | KR_DDI_STATISTICS_OTHER.

#[export] Instance E_KRDDIStatisticsType_eq_dec : EqDecision E_KRDDIStatisticsType.
Proof. solve_decision. Defined.

Inductive E_KRDDIMethod :=
  | KR_DDI_METHOD_SUM | KR_DDI_METHOD_MIN | KR_DDI_METHOD_MAX | KR_DDI_METHOD_COUNT
  | KR_DDI_METHOD_CON_INC | KR_DDI_METHOD_CON_DEC | KR_DDI_METHOD_CNT_DIS
  | KR_DDI_METHOD_OTHER.

Record T_KRShmDDIDef := mkDDIDef {
  lDdiId : Z;
  caDdiValueType : E_KRType;
  caDdiAggrFunc : string;
  ddi_datasrc : Z;
  ddi_index : Z;
  ddi_field : Z;
  ddi_stype : E_KRDDIStatisticsType;
  ddi_value : Z;
  ddi_method : E_KRDDIMethod;
  caDdiFilterFormat : E_KRCalcFormat;
  caDdiFilterString : string
}.

Inductive E_KRHDIStatisticsType :=
  | KR_HDI_STATISTICS_DAY | KR_HDI_STATISTICS_MONTH | KR_HDI_STATISTICS_FLAG
  | KR_HDI_STATISTICS_OTHER.

Record T_KRShmHDIDef := mkHDIDef {
  lHdiId : Z;
  caHdiValueType : E_KRType;
  caHdiAggrFunc : string;
  hdi_index : Z;
  hdi_stype : E_KRHDIStatisticsType;
  hdi_value : Z
}.

Record T_KRShmRuleDef := mkRuleDef {
  rd_id : Z; lRuleDatasrc : Z; caRuleCalcFormat : E_KRCalcFormat; caRuleCalcString : string;
  rd_weight : Z
}.

(** The definitions of one kind, with the time they were loaded. *)
Record T_KRShm (D : Type) := mkShm { shm_defs : list D; tLastLoadTime : Z }.
Arguments mkShm {D}.
Arguments shm_defs {D}.
Arguments tLastLoadTime {D}.

Record T_KRShmGroupDef := mkGroupDef {
  gd_id : Z; caGroupCalcFormat : E_KRCalcFormat; caGroupCalcString : string;
  stShmRule : T_KRShm T_KRShmRuleDef
}.

(** * The shared memory (kr_shm.c) *)

Record shm_section := mkSection {
  stShmSet : T_KRShm T_KRShmSetDef;
  stShmSDI : T_KRShm T_KRShmSDIDef;
  stShmDDI : T_KRShm T_KRShmDDIDef;
  stShmHDI : T_KRShm T_KRShmHDIDef;
  stShmGroup : T_KRShm T_KRShmGroupDef
}.

Definition N_MAX_SEC : Z := 2.

Record T_KRShareMem := mkShareMem { nSecId : Z; shm_time : Z; sections : list shm_section }.

Definition empty_section : shm_section :=
  mkSection (mkShm [] 0) (mkShm [] 0) (mkShm [] 0) (mkShm [] 0) (mkShm [] 0).

(** What the loads from the database give: the return code, and what they wrote. *)
Record shm_loads := mkLoads {
  load_set : Z * T_KRShm T_KRShmSetDef;
  load_sdi : Z * T_KRShm T_KRShmSDIDef;
  load_ddi : Z * T_KRShm T_KRShmDDIDef;
  load_hdi : Z * T_KRShm T_KRShmHDIDef;
  load_group : Z * T_KRShm T_KRShmGroupDef;
  load_time : Z
}.

Definition kr_shm_switch (shm : T_KRShareMem) : Z * T_KRShareMem :=
  let n := Z.rem (nSecId shm + 1) N_MAX_SEC in (n, mkShareMem n (shm_time shm) (sections shm)).

Definition set_section (shm : T_KRShareMem) (n : Z) (s : shm_section) : res T_KRShareMem :=
  match sections shm !! Z.to_nat n with
  | Some _ => Ok (mkShareMem (nSecId shm) (shm_time shm) (<[Z.to_nat n := s]> (sections shm)))
  | None => Fault OutOfBounds
  end.

(** The section that is not active is overwritten, as far as the loads go. *)
Definition kr_shm_load (l : shm_loads) (shm : option T_KRShareMem) : res (Z * option T_KRShareMem) :=
  match shm with
  | None => Ok (-1, None)
  | Some shm =>
      let back := Z.rem (nSecId shm + 1) N_MAX_SEC in
      s ← of_option OutOfBounds (sections shm !! Z.to_nat back);
      let s := mkSection (load_set l).2 (stShmSDI s) (stShmDDI s) (stShmHDI s) (stShmGroup s) in
      if negb ((load_set l).1 =? 0)
      then shm ← set_section shm back s; Ok (-1, Some shm)
      else
      let s := mkSection (stShmSet s) (load_sdi l).2 (stShmDDI s) (stShmHDI s) (stShmGroup s) in
      if negb ((load_sdi l).1 =? 0)
      then shm ← set_section shm back s; Ok (-1, Some shm)
      else
      let s := mkSection (stShmSet s) (stShmSDI s) (load_ddi l).2 (stShmHDI s) (stShmGroup s) in
      if negb ((load_ddi l).1 =? 0)
      then shm ← set_section shm back s; Ok (-1, Some shm)
      else
      let s := mkSection (stShmSet s) (stShmSDI s) (stShmDDI s) (load_hdi l).2 (stShmGroup s) in
      if negb ((load_hdi l).1 =? 0)
      then shm ← set_section shm back s; Ok (-1, Some shm)
      else
      let s := mkSection (stShmSet s) (stShmSDI s) (stShmDDI s) (stShmHDI s) (load_group l).2 in
      shm ← set_section shm back s;
      if negb ((load_group l).1 =? 0) then Ok (-1, Some shm)
      else
        let '(n, shm) := kr_shm_switch (mkShareMem (nSecId shm) (load_time l) (sections shm)) in
        Ok (n, Some shm)
  end.

Definition kr_shm_create (l : shm_loads) : res (option T_KRShareMem) :=
  '(rc, shm) ← kr_shm_load l (Some (mkShareMem 0 0 [empty_section; empty_section]));
  Ok (if rc <? 0 then None else shm).

(** The active section. *)
Definition active (shm : T_KRShareMem) : res shm_section :=
  of_option OutOfBounds (sections shm !! Z.to_nat (nSecId shm)).

(** * Pointers to definitions

    An item does not hold its definition: it points into a section of the shared memory,
    which a later load may overwrite.  A pointer is the number of the section and that of
    the definition there; to a rule, the pointer to its group and the number of the rule.
    Behind the definitions of a section there are zeros, or what was read before a load
    failed, which are no definitions here: a fault. *)

Definition defptr : Type := Z * nat.
Definition ruleptr : Type := defptr * nat.

Definition shm_def {D} (part : shm_section -> T_KRShm D) (shm : T_KRShareMem) (p : defptr) : res D :=
  sec ← of_option OutOfBounds (sections shm !! Z.to_nat p.1);
  of_option OutOfBounds (shm_defs (part sec) !! p.2).

Definition set_def : T_KRShareMem -> defptr -> res T_KRShmSetDef := shm_def stShmSet.
Definition sdi_def : T_KRShareMem -> defptr -> res T_KRShmSDIDef := shm_def stShmSDI.
Definition ddi_def : T_KRShareMem -> defptr -> res T_KRShmDDIDef := shm_def stShmDDI.
Definition hdi_def : T_KRShareMem -> defptr -> res T_KRShmHDIDef := shm_def stShmHDI.
Definition group_def : T_KRShareMem -> defptr -> res T_KRShmGroupDef := shm_def stShmGroup.
Definition rule_def (shm : T_KRShareMem) (p : ruleptr) : res T_KRShmRuleDef :=
  g ← group_def shm p.1; of_option OutOfBounds (shm_defs (stShmRule g) !! p.2).

(** * The items of a thread *)

Record T_KRSet := mkSet {
  ptShmSetDef : defptr; lSetId : Z; set_eValueType : E_KRType; ptHashSet : addr
}.

Record T_KRSDI := mkSDI {
  ptShmSDIDef : defptr;
  lSDIId : Z;
  ptSDICalc : option T_KRCalc;
  sdi_eValueType : E_KRType;
  SDIAggrFunc : option string;
  sdi_ptCurrRec : option recptr;
  sdi_eValueInd : E_KRValueInd;
  sdi_uValue : U_KRValue addr;
  sdi_ptRelated : gset recptr
}.

Record T_KRDDI := mkDDI {
  ptShmDDIDef : defptr;
  lDDIId : Z;
  ptDDICalc : option T_KRCalc;
  ddi_eValueType : E_KRType;
  DDIAggrFunc : option string;
  ddi_ptCurrRec : option recptr;
  ddi_eValueInd : E_KRValueInd;
  ddi_uValue : U_KRValue addr;
  ddi_ptRelated : gset recptr
}.

(** [hdi_eValueInd] is [None] for the 0 that [calloc] leaves, which is no indicator. *)
Record T_KRHDI := mkHDI {
  ptShmHDIDef : defptr;
  lHDIId : Z;
  hdi_eValueType : E_KRType;
  HDIAggrFunc : option string;
  hdi_ptCurrRec : option recptr;
  hdi_eValueInd : option E_KRValueInd;
  hdi_uValue : U_KRValue addr
}.

Record T_KRRule := mkRule {
  ptShmRuleDef : ruleptr;
  lRuleId : Z;
  lRuleWeight : Z;
  ptRuleCalc : option T_KRCalc;
  bViolated : bool;
  rule_ptRelated : gset recptr
}.

Record T_KRRuleList := mkRuleList {
  lRuleCnt : Z;
  rules : list T_KRRule;
  rules_tConstructTime : Z;
  lFiredRules : Z;
  lFiredWeights : Z
}.

Record T_KRGroup := mkGroup {
  ptShmGroupDef : defptr;
  lGroupId : Z;
  ptGroupCalc : T_KRCalc;
  ptRuleList : T_KRRuleList
}.

Record T_KRGroupList := mkGroupList {
  lGroupCnt : Z; groups : list T_KRGroup; groups_tConstructTime : Z
}.

(** A table of items, with the load time of their definitions. *)
Record T_KRItems (I : Type) := mkItems { items_ : gmap Z I; tConstructTime : Z }.
Arguments mkItems {I}.
Arguments items_ {I}.
Arguments tConstructTime {I}.

Record T_KRDynamicMem := mkDym {
  settable : option (T_KRItems T_KRSet);
  sditable : T_KRItems T_KRSDI;
  dditable : T_KRItems T_KRDDI;
  hditable : T_KRItems T_KRHDI;
  grouplist : option T_KRGroupList
}.

(** The rows of the cursor on the elements of a set: [None] is an error of a fetch. *)
Record set_cursor := mkCursor { cur_open : bool; cur_rows : list (option string); cur_close : bool }.

(** * Construction *)

Section KrDym.
Context (regcomp : string -> bool).
Context (kr_calc_parse_flex : T_KRCalc -> M objs (Z * T_KRCalc)).
(** The symbols of the data module. *)
Context (module_symbol : string -> bool).
(** The cursor on the elements of a set. *)
Context (set_cur : Z -> set_cursor).

#[local] Abbreviation calc_construct := (kr_calc_construct regcomp kr_calc_parse_flex).

(** The aggregation function a definition names: [None] for an error. *)
Definition aggr_symbol (name : string) : option (option string) :=
  if String.eqb name "" then Some None
  else if module_symbol name then Some (Some name) else None.

(** The tables of the four kinds: the items made one by one, all destroyed at the first
    that cannot be made. *)
Fixpoint destruct_all {I} (destruct : I -> M objs unit) (l : list I) : M objs unit :=
  match l with
  | [] => mret tt
  | i :: l' => destruct i;; destruct_all destruct l'
  end.
Definition items_destroy {I} (destruct : I -> M objs unit) (t : gmap Z I) : M objs unit :=
  destruct_all destruct (snd <$> map_to_list t).

Fixpoint items_construct {D I} (construct : D -> M objs (option I)) (key : I -> Z)
    (destruct : I -> M objs unit) (defs : list D) (t : gmap Z I) : M objs (option (gmap Z I)) :=
  match defs with
  | [] => mret (Some t)
  | d :: defs' =>
      i ← construct d;
      match i with
      | None => items_destroy destruct t;; mret None
      | Some i =>
          match t !! key i with
          | Some _ => fail BadPointer
          | None => items_construct construct key destruct defs' (<[key i := i]> t)
          end
      end
  end.

(** The definitions with the pointers to them, from the address of the first. *)
Definition pointed {P D} (base : P) (defs : list D) : list (P * nat * D) :=
  imap (fun i d => ((base, i), d)) defs.

(** From the section [sec]. *)
Definition table_construct {D I} (construct : defptr * D -> M objs (option I)) (key : I -> Z)
    (destruct : I -> M objs unit) (sec : Z) (shm : T_KRShm D) : M objs (option (T_KRItems I)) :=
  t ← items_construct construct key destruct (pointed sec (shm_defs shm)) ∅;
  mret (option_map (fun t => mkItems t (tLastLoadTime shm)) t).

(** ** Sets *)

(** [nRet] is that of the last element. *)
Fixpoint set_load_loop (rows : list (option string)) (krhashset : T_KRHashSet) (nRet : Z)
    : res (Z * T_KRHashSet) :=
  match rows with
  | [] => Ok (nRet, krhashset)
  | None :: _ => Ok (-1, krhashset)
  | Some v :: rows' =>
      let v := kr_string_rtrim v in
      '(nRet, krhashset) ←
        match hs_type krhashset with
        | KR_TYPE_INT => '(rc, s, _) ← kr_hashset_add krhashset (KeyInt (atoi v)); Ok (rc, s)
        | KR_TYPE_LONG => '(rc, s, _) ← kr_hashset_add krhashset (KeyLong (atol v)); Ok (rc, s)
        | KR_TYPE_DOUBLE => '(rc, s, _) ← kr_hashset_add krhashset (KeyDouble (atof v)); Ok (rc, s)
        | KR_TYPE_STRING => '(rc, s, _) ← kr_hashset_add krhashset (KeyString v); Ok (rc, s)
        | _ => Ok (-1, krhashset)
        end;
      if negb (nRet =? 0) then Ok (nRet, krhashset) else set_load_loop rows' krhashset nRet
  end.

Definition kr_set_load (krhashset : T_KRHashSet) (set_id : Z) : res (Z * T_KRHashSet) :=
  let cur := set_cur (i32 set_id) in
  if negb (cur_open cur) then Ok (-1, krhashset)
  else
    '(nRet, krhashset) ← set_load_loop (cur_rows cur) krhashset 0;
    if negb (cur_close cur) then Ok (-1, krhashset) else Ok (nRet, krhashset).

(** A set that could not be loaded is destroyed. *)
Definition kr_set_construct (x : defptr * T_KRShmSetDef) : M objs (option T_KRSet) :=
  let d := x.2 in
  hs ← lift (kr_hashset_create (st_name d) (st_type d));
  '(rc, hs) ← lift (kr_set_load hs (st_id d));
  if negb (rc =? 0) then _ ← lift (kr_hashset_destroy (Some hs)); mret None
  else p ← alloc_obj (OSet hs); mret (Some (mkSet x.1 (st_id d) (st_type d) p)).

Definition kr_set_destruct (s : T_KRSet) : M objs unit := free_object (Some (ptHashSet s)).
Definition kr_set_table_construct : Z -> T_KRShm T_KRShmSetDef -> M objs (option (T_KRItems T_KRSet)) :=
  table_construct kr_set_construct lSetId kr_set_destruct.
Definition kr_set_table_destruct (t : T_KRItems T_KRSet) : M objs unit :=
  items_destroy kr_set_destruct (items_ t).

(** ** Static data items *)

(** A calculator that cannot be made is no error. *)
Definition kr_sdi_construct (x : defptr * T_KRShmSDIDef) : M objs (option T_KRSDI) :=
  let '(p, d) := x in
  krcalc ← calc_construct (caSdiFilterFormat d) (caSdiFilterString d);
  match aggr_symbol (caSdiAggrFunc d) with
  | None => mret None
  | Some f =>
      mret (Some (mkSDI p (lSdiId d) krcalc (caSdiValueType d) f None KR_VALUE_UNSET KRZero ∅))
  end.

Definition kr_sdi_init (i : T_KRSDI) : res T_KRSDI :=
  _ ← (if ty_eq (sdi_eValueType i) KR_TYPE_STRING then get_s (sdi_uValue i) else Ok None);
  Ok (mkSDI (ptShmSDIDef i) (lSDIId i) (ptSDICalc i) (sdi_eValueType i) (SDIAggrFunc i)
        (sdi_ptCurrRec i) KR_VALUE_UNSET KRZero ∅).

Definition kr_sdi_destruct (i : T_KRSDI) : M objs unit := kr_calc_destruct (ptSDICalc i).
Definition kr_sdi_table_construct : Z -> T_KRShm T_KRShmSDIDef -> M objs (option (T_KRItems T_KRSDI)) :=
  table_construct kr_sdi_construct lSDIId kr_sdi_destruct.
Definition kr_sdi_table_destruct (t : T_KRItems T_KRSDI) : M objs unit :=
  items_destroy kr_sdi_destruct (items_ t).

(** [kr_hashtable_foreach] of the initialisation of an item. *)
Fixpoint init_all {I} (init : I -> res I) (l : list (Z * I)) : res (list (Z * I)) :=
  match l with
  | [] => Ok []
  | (k, i) :: l' => i ← init i; l' ← init_all init l'; Ok ((k, i) :: l')
  end.
Definition items_init {I} (init : I -> res I) (t : T_KRItems I) : res (T_KRItems I) :=
  l ← init_all init (map_to_list (items_ t)); Ok (mkItems (list_to_map l) (tConstructTime t)).
Definition kr_sdi_table_init : T_KRItems T_KRSDI -> res (T_KRItems T_KRSDI) := items_init kr_sdi_init.

(** An [int] id, looked up as a [long]. *)
Definition kr_sdi_lookup (t : T_KRItems T_KRSDI) (id : Z) : option T_KRSDI := items_ t !! id.

(** ** Dynamic data items *)

Definition kr_ddi_construct (x : defptr * T_KRShmDDIDef) : M objs (option T_KRDDI) :=
  let '(p, d) := x in
  krcalc ← calc_construct (caDdiFilterFormat d) (caDdiFilterString d);
  match aggr_symbol (caDdiAggrFunc d) with
  | None => mret None
  | Some f =>
      mret (Some (mkDDI p (lDdiId d) krcalc (caDdiValueType d) f None KR_VALUE_UNSET KRZero ∅))
  end.

Definition kr_ddi_init (i : T_KRDDI) : res T_KRDDI :=
  _ ← (if ty_eq (ddi_eValueType i) KR_TYPE_STRING then get_s (ddi_uValue i) else Ok None);
  Ok (mkDDI (ptShmDDIDef i) (lDDIId i) (ptDDICalc i) (ddi_eValueType i) (DDIAggrFunc i)
        (ddi_ptCurrRec i) KR_VALUE_UNSET KRZero ∅).

Definition kr_ddi_destruct (i : T_KRDDI) : M objs unit := kr_calc_destruct (ptDDICalc i).
Definition kr_ddi_table_construct : Z -> T_KRShm T_KRShmDDIDef -> M objs (option (T_KRItems T_KRDDI)) :=
  table_construct kr_ddi_construct lDDIId kr_ddi_destruct.
Definition kr_ddi_table_destruct (t : T_KRItems T_KRDDI) : M objs unit :=
  items_destroy kr_ddi_destruct (items_ t).
Definition kr_ddi_table_init : T_KRItems T_KRDDI -> res (T_KRItems T_KRDDI) := items_init kr_ddi_init.
Definition kr_ddi_lookup (t : T_KRItems T_KRDDI) (id : Z) : option T_KRDDI := items_ t !! id.

(** ** Historical data items *)

Definition kr_hdi_construct (x : defptr * T_KRShmHDIDef) : M objs (option T_KRHDI) :=
  let '(p, d) := x in
  match aggr_symbol (caHdiAggrFunc d) with
  | None => mret None
  | Some f => mret (Some (mkHDI p (lHdiId d) (caHdiValueType d) f None None KRZero))
  end.

Definition kr_hdi_init (i : T_KRHDI) : res T_KRHDI :=
  _ ← (if ty_eq (hdi_eValueType i) KR_TYPE_STRING then get_s (hdi_uValue i) else Ok None);
  Ok (mkHDI (ptShmHDIDef i) (lHDIId i) (hdi_eValueType i) (HDIAggrFunc i) (hdi_ptCurrRec i)
        (Some KR_VALUE_UNSET) KRZero).

Definition kr_hdi_destruct (i : T_KRHDI) : M objs unit := mret tt.
Definition kr_hdi_table_construct : Z -> T_KRShm T_KRShmHDIDef -> M objs (option (T_KRItems T_KRHDI)) :=
  table_construct kr_hdi_construct lHDIId kr_hdi_destruct.
Definition kr_hdi_table_destruct (t : T_KRItems T_KRHDI) : M objs unit :=
  items_destroy kr_hdi_destruct (items_ t).
Definition kr_hdi_table_init : T_KRItems T_KRHDI -> res (T_KRItems T_KRHDI) := items_init kr_hdi_init.
Definition kr_hdi_lookup (t : T_KRItems T_KRHDI) (id : Z) : option T_KRHDI := items_ t !! id.

(** ** Rules *)

Definition kr_rule_construct (x : ruleptr * T_KRShmRuleDef) : M objs (option T_KRRule) :=
  let '(p, d) := x in
  krcalc ← calc_construct (caRuleCalcFormat d) (caRuleCalcString d);
  mret (Some (mkRule p (rd_id d) (rd_weight d) krcalc false ∅)).

Definition kr_rule_init (r : T_KRRule) : T_KRRule :=
  mkRule (ptShmRuleDef r) (lRuleId r) (lRuleWeight r) (ptRuleCalc r) false ∅.

Definition kr_rule_destruct (r : T_KRRule) : M objs unit := kr_calc_destruct (ptRuleCalc r).

(** The list of the items made one by one. *)
Fixpoint list_construct {D I} (construct : D -> M objs (option I)) (destruct : I -> M objs unit)
    (defs : list D) (l : list I) : M objs (option (list I)) :=
  match defs with
  | [] => mret (Some l)
  | d :: defs' =>
      i ← construct d;
      match i with
      | None => destruct_all destruct l;; mret None
      | Some i => list_construct construct destruct defs' (l ++ [i])
      end
  end.

Definition kr_rule_list_construct (group : defptr) (shm : T_KRShm T_KRShmRuleDef) : M objs (option T_KRRuleList) :=
  let cnt := Z.of_nat (length (shm_defs shm)) in
  if cnt <=? 0 then mret None
  else
    l ← list_construct kr_rule_construct kr_rule_destruct (pointed group (shm_defs shm)) [];
    mret (option_map (fun l => mkRuleList cnt l (tLastLoadTime shm) 0 0) l).

Definition kr_rule_list_init (l : T_KRRuleList) : T_KRRuleList :=
  mkRuleList (lRuleCnt l) (map kr_rule_init (rules l)) (rules_tConstructTime l) 0 0.
Definition kr_rule_list_destruct (l : T_KRRuleList) : M objs unit :=
  destruct_all kr_rule_destruct (rules l).
Definition kr_rule_lookup (l : T_KRRuleList) (id : Z) : option T_KRRule :=
  List.find (fun r => lRuleId r =? id) (rules l).

(** ** Groups *)

Definition kr_group_construct (x : defptr * T_KRShmGroupDef) : M objs (option T_KRGroup) :=
  let '(p, d) := x in
  krcalc ← calc_construct (caGroupCalcFormat d) (caGroupCalcString d);
  match krcalc with
  | None => mret None
  | Some krcalc =>
      l ← kr_rule_list_construct p (stShmRule d);
      mret (option_map (fun l => mkGroup p (gd_id d) krcalc l) l)
  end.

Definition kr_group_init (g : T_KRGroup) : T_KRGroup :=
  mkGroup (ptShmGroupDef g) (lGroupId g) (ptGroupCalc g) (kr_rule_list_init (ptRuleList g)).
Definition kr_group_destruct (g : T_KRGroup) : M objs unit :=
  kr_rule_list_destruct (ptRuleList g);; kr_calc_destruct (Some (ptGroupCalc g)).

Definition kr_group_list_construct (sec : Z) (shm : T_KRShm T_KRShmGroupDef) : M objs (option T_KRGroupList) :=
  let cnt := Z.of_nat (length (shm_defs shm)) in
  if cnt <=? 0 then mret None
  else
    l ← list_construct kr_group_construct kr_group_destruct (pointed sec (shm_defs shm)) [];
    mret (option_map (fun l => mkGroupList cnt l (tLastLoadTime shm)) l).

Definition kr_group_list_init (l : T_KRGroupList) : T_KRGroupList :=
  mkGroupList (lGroupCnt l) (map kr_group_init (groups l)) (groups_tConstructTime l).
Definition kr_group_list_destruct (l : T_KRGroupList) : M objs unit :=
  destruct_all kr_group_destruct (groups l).
Definition kr_group_lookup (l : T_KRGroupList) (id : Z) : option T_KRGroup :=
  List.find (fun g => lGroupId g =? id) (groups l).

(** * The dynamic memory (kr_dym.c) *)

(** What was made before an error is not released. *)
Definition kr_dym_construct (ptShm : T_KRShareMem) : M objs (option T_KRDynamicMem) :=
  sec ← lift (active ptShm);
  sets ← kr_set_table_construct (nSecId ptShm) (stShmSet sec);
  match sets with None => mret None | Some sets =>
  sdis ← kr_sdi_table_construct (nSecId ptShm) (stShmSDI sec);
  match sdis with None => mret None | Some sdis =>
  ddis ← kr_ddi_table_construct (nSecId ptShm) (stShmDDI sec);
  match ddis with None => mret None | Some ddis =>
  hdis ← kr_hdi_table_construct (nSecId ptShm) (stShmHDI sec);
  match hdis with None => mret None | Some hdis =>
  gl ← kr_group_list_construct (nSecId ptShm) (stShmGroup sec);
  match gl with None => mret None | Some gl =>
  mret (Some (mkDym (Some sets) sdis ddis hdis (Some gl)))
  end end end end end.

Definition kr_dym_init (ptDyn : T_KRDynamicMem) : res T_KRDynamicMem :=
  sdis ← kr_sdi_table_init (sditable ptDyn);
  ddis ← kr_ddi_table_init (dditable ptDyn);
  hdis ← kr_hdi_table_init (hditable ptDyn);
  gl ← of_option NullDeref (grouplist ptDyn);
  Ok (mkDym (settable ptDyn) sdis ddis hdis (Some (kr_group_list_init gl))).

Definition kr_dym_destruct (ptDyn : T_KRDynamicMem) : M objs unit :=
  sets ← lift (of_option NullDeref (settable ptDyn));
  kr_set_table_destruct sets;;
  kr_sdi_table_destruct (sditable ptDyn);;
  kr_ddi_table_destruct (dditable ptDyn);;
  kr_hdi_table_destruct (hditable ptDyn);;
  gl ← lift (of_option NullDeref (grouplist ptDyn));
  kr_group_list_destruct gl.

(** One table: [None] when it could not be made again. *)
Definition reload {D T} (construct : T_KRShm D -> M objs (option T)) (destruct : T -> M objs unit)
    (time : T -> Z) (shm : T_KRShm D) (t : T) : M objs (option T) :=
  if negb (time t =? tLastLoadTime shm) then
    t' ← construct shm;
    match t' with
    | Some t' => destruct t;; mret (Some t')
    | None => mret None
    end
  else mret (Some t).

(** The tables already made again stay when one cannot be. *)
Definition kr_dym_check (ptDyn : T_KRDynamicMem) (ptShm : T_KRShareMem)
    : M objs (Z * T_KRDynamicMem) :=
  sec ← lift (active ptShm);
  sets ← lift (of_option NullDeref (settable ptDyn));
  sets ← reload (kr_set_table_construct (nSecId ptShm)) kr_set_table_destruct tConstructTime (stShmSet sec) sets;
  match sets with None => mret (-1, ptDyn) | Some sets =>
  let ptDyn := mkDym (Some sets) (sditable ptDyn) (dditable ptDyn) (hditable ptDyn)
                 (grouplist ptDyn) in
  sdis ← reload (kr_sdi_table_construct (nSecId ptShm)) kr_sdi_table_destruct tConstructTime (stShmSDI sec)
           (sditable ptDyn);
  match sdis with None => mret (-1, ptDyn) | Some sdis =>
  let ptDyn := mkDym (settable ptDyn) sdis (dditable ptDyn) (hditable ptDyn) (grouplist ptDyn) in
  ddis ← reload (kr_ddi_table_construct (nSecId ptShm)) kr_ddi_table_destruct tConstructTime (stShmDDI sec)
           (dditable ptDyn);
  match ddis with None => mret (-1, ptDyn) | Some ddis =>
  let ptDyn := mkDym (settable ptDyn) (sditable ptDyn) ddis (hditable ptDyn) (grouplist ptDyn) in
  hdis ← reload (kr_hdi_table_construct (nSecId ptShm)) kr_hdi_table_destruct tConstructTime (stShmHDI sec)
           (hditable ptDyn);
  match hdis with None => mret (-1, ptDyn) | Some hdis =>
  let ptDyn := mkDym (settable ptDyn) (sditable ptDyn) (dditable ptDyn) hdis (grouplist ptDyn) in
  gl ← lift (of_option NullDeref (grouplist ptDyn));
  gl ← reload (kr_group_list_construct (nSecId ptShm)) kr_group_list_destruct groups_tConstructTime
         (stShmGroup sec) gl;
  match gl with None => mret (-1, ptDyn) | Some gl =>
  mret (0, mkDym (settable ptDyn) (sditable ptDyn) (dditable ptDyn) (hditable ptDyn) (Some gl))
  end end end end end.

End KrDym.

(** * The release of trees

    The store only shrinks, and a tree with a node whose object is gone faults. *)

Definition freed_kind (k : E_KRCalcKind) : bool :=
  match k with
  | KR_CALCKIND_MINT | KR_CALCKIND_MFLOAT | KR_CALCKIND_MSTRING | KR_CALCKIND_SET
  | KR_CALCKIND_REGEX => true
  | _ => false
  end.
Definition node_frees (p : addr) (n : T_KRCalcNode) : bool :=
  freed_kind (kind n) && match value n with KRPointer (Some q) => bool_decide (q = p) | _ => false end.
Fixpoint frees (p : addr) (t : T_KRCalcTree) : bool :=
  match t with Tree n cs => existsb (frees p) cs || node_frees p n end.
Definition calc_frees (p : addr) (c : option T_KRCalc) : bool :=
  match c with
  | Some c => match calc_tree c with Some t => frees p t | None => false end
  | None => false
  end.

(** A release that runs to its end only takes objects away; one of something gone
    cannot end. *)
Definition shrinks {A} (m : M objs A) : Prop := forall os a os', m os = Ok (a, os') -> os' ⊆ os.
Definition needs {A} (p : addr) (m : M objs A) : Prop := forall os, os !! p = None ->
  exists f, m os = Fault f.

Lemma shrinks_ret {A} (a : A) : shrinks (mret a).
Proof. by intros os a' os' [= _ <-]. Qed.
Lemma shrinks_bind {A B} (m : M objs A) (k : A -> M objs B) :
  shrinks m -> (forall a, shrinks (k a)) -> shrinks (m ≫= k).
Proof.
  intros Hm Hk os b os'. unfold mbind, M_bind. destruct (m os) as [[a os1]|] eqn:Hrun; [|done].
  intros Hrun'. etransitivity; [by eapply Hk|by eapply Hm].
Qed.
Lemma shrinks_lift {A} (r : res A) : shrinks (lift r).
Proof. intros os a os'. unfold lift. destruct r; [|done]. by intros [= _ <-]. Qed.
Lemma needs_bind_l {A B} p (m : M objs A) (k : A -> M objs B) : needs p m -> needs p (m ≫= k).
Proof. intros Hm os Hp. unfold mbind, M_bind. destruct (Hm os Hp) as [f ->]. by exists f. Qed.
Lemma needs_bind_r {A B} p (m : M objs A) (k : A -> M objs B) :
  shrinks m -> (forall a, needs p (k a)) -> needs p (m ≫= k).
Proof.
  intros Hm Hk os Hp. unfold mbind, M_bind. destruct (m os) as [[a os1]|f] eqn:Hrun; [|by exists f].
  apply Hk. destruct (os1 !! p) as [o|] eqn:Ho; [|done].
  pose proof (lookup_weaken _ _ _ _ Ho (Hm _ _ _ Hrun)). congruence.
Qed.

Create HintDb krfree.
#[export] Hint Resolve shrinks_ret shrinks_bind shrinks_lift needs_bind_l : krfree.

Lemma free_object_shrinks q : shrinks (free_object q).
Proof.
  intros os a os'. unfold free_object. destruct q as [q|]; [|by intros [= _ <-]].
  destruct (os !! q); [|done]. intros [= _ <-]. apply delete_subseteq.
Qed.
#[export] Hint Resolve free_object_shrinks : krfree.

Lemma free_node_shrinks cs n d : shrinks (_kr_calc_tree_free cs n d).
Proof. unfold _kr_calc_tree_free. destruct (kind n); eauto 6 with krfree. Qed.

Lemma free_node_needs p cs n d : node_frees p n = true -> needs p (_kr_calc_tree_free cs n d).
Proof.
  unfold node_frees. intros [Hk Hv]%andb_true_iff os Hp.
  destruct (value n) as [| | | | | | |[q|]] eqn:Hval; try done. case_bool_decide; [subst q|done].
  exists BadPointer. unfold _kr_calc_tree_free, mbind, M_bind, lift. rewrite Hval. simpl.
  unfold free_object. destruct (kind n); try done; by rewrite Hp.
Qed.

#[local] Abbreviation free_tree t d :=
  (kr_calc_tree_traverse t d None (Some _kr_calc_tree_free)).
#[local] Abbreviation free_trees l d := (traverse_children l d None (Some _kr_calc_tree_free)).

Lemma free_node_rc cs n d os rc n' d' os' :
  _kr_calc_tree_free cs n d os = Ok (rc, n', d', os') -> rc = 0.
Proof.
  unfold _kr_calc_tree_free, mbind, M_bind, lift.
  destruct (kind n); try (by intros [=]); destruct (get_p (value n)); try done;
    destruct (free_object _ os) as [[]|]; by intros [=].
Qed.

Definition free_ok {A} (r : res (Z * A * unit * objs)) (os : objs) : Prop :=
  match r with Ok (rc, _, _, os') => rc = 0 /\ os' ⊆ os | Fault _ => True end.

Lemma free_trees_ok l d os : Forall (fun c => forall d os, free_ok (free_tree c d os) os) l ->
  free_ok (free_trees l d os) os.
Proof.
  intros Hl. revert d os. induction Hl as [|c l Hc _ IH]; intros d os; [done|]. simpl.
  unfold mbind, M_bind. specialize (Hc d os).
  destruct (free_tree c d os) as [[[[rc c'] d1] os1]|]; [|done]. destruct Hc as [-> H1]. simpl.
  specialize (IH d1 os1). destruct (free_trees l d1 os1) as [[[[rc2 l'] d2] os2]|]; [|done].
  destruct IH as [-> H2]. split; [done|]. by etransitivity.
Qed.

Lemma free_tree_ok t d os : free_ok (free_tree t d os) os.
Proof.
  revert d os. induction t as [n cs IH] using tree_rose_ind. intros d os. rewrite traverse_Tree.
  pose proof (free_trees_ok cs d os IH) as Hcs. unfold mbind, M_bind.
  destruct (free_trees cs d os) as [[[[rc l] d1] os1]|]; [|done]. destruct Hcs as [-> H1]. simpl.
  destruct (_kr_calc_tree_free l n d1 os1) as [[[[rc2 n2] d2] os2]|] eqn:Hn; [|done].
  rewrite (free_node_rc _ _ _ _ _ _ _ _ Hn). simpl. split; [done|].
  etransitivity; [|exact H1]. by eapply free_node_shrinks.
Qed.

Lemma sub_none (os os' : objs) p : os' ⊆ os -> os !! p = None -> os' !! p = None.
Proof.
  intros Hs Hp. destruct (os' !! p) as [o|] eqn:Ho; [|done].
  pose proof (lookup_weaken _ _ _ _ Ho Hs). congruence.
Qed.

Lemma free_tree_needs p t d : frees p t = true -> needs p (free_tree t d).
Proof.
  revert d. induction t as [n cs IH] using tree_rose_ind. intros d Hf os Hp. rewrite traverse_Tree.
  simpl in Hf. apply orb_true_iff in Hf.
  assert (Hcs : existsb (frees p) cs = true -> exists f, free_trees cs d os = Fault f).
  { clear Hf. revert d os Hp. induction IH as [|c cs Hc _ IHl]; intros d os Hp Hf; [done|].
    simpl in Hf |- *. unfold mbind, M_bind. pose proof (free_tree_ok c d os) as Hok.
    destruct (free_tree c d os) as [[[[rc c'] d1] os1]|f] eqn:Hrun; [|by exists f].
    destruct Hok as [-> Hs]. simpl. apply orb_true_iff in Hf as [Hf|Hf].
    - destruct (Hc d Hf os Hp) as [f Hf']. congruence.
    - destruct (IHl d1 os1 (sub_none _ _ _ Hs Hp) Hf) as [f ->]. by exists f. }
  unfold mbind, M_bind. pose proof (free_trees_ok cs d os) as Hok.
  destruct (free_trees cs d os) as [[[[rc l] d1] os1]|f] eqn:Hrun; [|by exists f].
  destruct Hok as [-> Hs]; [by apply Forall_forall; intros; apply free_tree_ok|]. simpl.
  destruct Hf as [Hf|Hf]; [by destruct (Hcs Hf)|].
  destruct (free_node_needs p l n d1 Hf os1 (sub_none _ _ _ Hs Hp)) as [f ->]. by exists f.
Qed.

Lemma calc_destruct_shrinks c : shrinks (kr_calc_destruct c).
Proof.
  unfold kr_calc_destruct, kr_calc_tree_free. destruct c as [c|]; [|apply shrinks_ret].
  destruct (calc_tree c) as [t|]; [|apply shrinks_ret]. intros os a os'.
  unfold mbind, M_bind. pose proof (free_tree_ok t tt os) as Hok.
  destruct (free_tree t tt os) as [[[[rc t'] d] os1]|]; [|done]. destruct Hok as [_ Hs].
  by intros [= _ <-].
Qed.
Lemma calc_destruct_needs p c : calc_frees p c = true -> needs p (kr_calc_destruct c).
Proof.
  unfold calc_frees, kr_calc_destruct, kr_calc_tree_free. destruct c as [c|]; [|done].
  destruct (calc_tree c) as [t|]; [|done]. intros Hf. apply needs_bind_l. by apply free_tree_needs.
Qed.

Lemma destruct_all_shrinks {I} (destruct : I -> M objs unit) l :
  (forall i, shrinks (destruct i)) -> shrinks (destruct_all destruct l).
Proof. intros Hd. induction l as [|i l IH]; simpl; [apply shrinks_ret|]. by apply shrinks_bind. Qed.
Lemma destruct_all_needs {I} (destruct : I -> M objs unit) p l i :
  (forall i, shrinks (destruct i)) -> i ∈ l -> needs p (destruct i) -> needs p (destruct_all destruct l).
Proof.
  intros Hd Hin Hn. induction l as [|j l IH]; [by apply not_elem_of_nil in Hin|]. simpl.
  apply elem_of_cons in Hin as [<-|Hin]; [by apply needs_bind_l|].
  apply needs_bind_r; [done|]. intros _. by apply IH.
Qed.
#[export] Hint Resolve calc_destruct_shrinks destruct_all_shrinks : krfree.

Lemma rule_list_destruct_shrinks l : shrinks (kr_rule_list_destruct l).
Proof. apply destruct_all_shrinks. intros r. apply calc_destruct_shrinks. Qed.
Lemma group_destruct_shrinks g : shrinks (kr_group_destruct g).
Proof.
  apply shrinks_bind; [apply rule_list_destruct_shrinks|]. intros _. apply calc_destruct_shrinks.
Qed.
Lemma group_destruct_needs p g :
  calc_frees p (Some (ptGroupCalc g)) = true \/
  (exists r, r ∈ rules (ptRuleList g) /\ calc_frees p (ptRuleCalc r) = true) ->
  needs p (kr_group_destruct g).
Proof.
  intros [Hf|(r & Hr & Hf)].
  - apply needs_bind_r; [apply rule_list_destruct_shrinks|]. intros _. by apply calc_destruct_needs.
  - apply needs_bind_l, (destruct_all_needs _ _ _ r); [|done|by apply calc_destruct_needs].
    intros y. apply calc_destruct_shrinks.
Qed.

(** A set of the set table in the calculator of an item, of a rule or of a group. *)
Definition shares_set (ptDyn : T_KRDynamicMem) (p : addr) : Prop :=
  (exists sets id s, settable ptDyn = Some sets /\ items_ sets !! id = Some s /\ ptHashSet s = p) /\
  ((exists id i, items_ (sditable ptDyn) !! id = Some i /\ calc_frees p (ptSDICalc i) = true) \/
   (exists id i, items_ (dditable ptDyn) !! id = Some i /\ calc_frees p (ptDDICalc i) = true) \/
   (exists gl g, grouplist ptDyn = Some gl /\ g ∈ groups gl /\
      (calc_frees p (Some (ptGroupCalc g)) = true \/
       exists r, r ∈ rules (ptRuleList g) /\ calc_frees p (ptRuleCalc r) = true))).

Lemma items_destroy_needs {I} (destruct : I -> M objs unit) p (t : gmap Z I) id i :
  (forall i, shrinks (destruct i)) -> t !! id = Some i -> needs p (destruct i) ->
  needs p (items_destroy destruct t).
Proof.
  intros Hd Hi Hn. apply (destruct_all_needs _ _ _ i); [done| |done].
  apply list_elem_of_fmap. exists (id, i). split; [done|]. by apply elem_of_map_to_list.
Qed.

Lemma set_destroyed sets id s os a os' :
  items_ sets !! id = Some s -> kr_set_table_destruct sets os = Ok (a, os') ->
  os' !! ptHashSet s = None.
Proof.
  intros Hs. unfold kr_set_table_destruct, items_destroy.
  assert (Hin : s ∈ snd <$> map_to_list (items_ sets)).
  { apply list_elem_of_fmap. exists (id, s). split; [done|]. by apply elem_of_map_to_list. }
  clear Hs. revert Hin os. generalize (snd <$> map_to_list (items_ sets)) as l.
  induction l as [|s' l IH]; intros Hin os; [by apply not_elem_of_nil in Hin|]. simpl.
  unfold mbind, M_bind. destruct (kr_set_destruct s' os) as [[[] os1]|] eqn:Hrun; [|done].
  apply elem_of_cons in Hin as [<-|Hin]; [|by apply IH].
  unfold kr_set_destruct, free_object in Hrun. destruct (os !! ptHashSet s) eqn:Ho; [|done].
  injection Hrun as <-. intros Hrest. assert (Hsub : os' ⊆ delete (ptHashSet s) os).
  { eapply (destruct_all_shrinks kr_set_destruct); [|exact Hrest]. intros i. apply free_object_shrinks. }
  eapply sub_none; [exact Hsub|]. apply lookup_delete_eq.
Qed.

(** A thread's parameters cannot be released once a calculator has evaluated a set:
    evaluation stores the address of the set of the set table in the node, and the
    release frees it with the set table and again with the tree.  So [kr_dym_destruct]
    faults whenever an item, a rule or a group shares a set. *)
Theorem kr_dym_destruct_double_free ptDyn p os :
  shares_set ptDyn p -> exists f, kr_dym_destruct ptDyn os = Fault f.
Proof.
  intros [(sets & id & s & Hsets & Hs & <-) Hshare]. unfold kr_dym_destruct. rewrite Hsets. simpl.
  unfold mbind at 1, M_bind at 1, lift at 1. unfold mbind at 1, M_bind at 1.
  destruct (kr_set_table_destruct sets os) as [[[] os1]|f] eqn:Hrun; [|by exists f].
  pose proof (set_destroyed _ _ _ _ _ _ Hs Hrun) as Hgone. revert os1 Hgone Hrun.
  set (p := ptHashSet s) in *. intros os1 Hgone _. revert os1 Hgone.
  change (needs p (kr_sdi_table_destruct (sditable ptDyn);; kr_ddi_table_destruct (dditable ptDyn);;
    kr_hdi_table_destruct (hditable ptDyn);;
    (gl ← lift (of_option NullDeref (grouplist ptDyn)); kr_group_list_destruct gl))).
  destruct Hshare as [(i & x & Hx & Hf)|[(i & x & Hx & Hf)|(gl & g & Hgl & Hg & Hf)]].
  - apply needs_bind_l. apply (items_destroy_needs _ _ _ i x); [|done|].
    + intros y. apply calc_destruct_shrinks.
    + by apply calc_destruct_needs.
  - apply needs_bind_r; [apply destruct_all_shrinks; intros y; apply calc_destruct_shrinks|intros _].
    apply needs_bind_l. apply (items_destroy_needs _ _ _ i x); [|done|].
    + intros y. apply calc_destruct_shrinks.
    + by apply calc_destruct_needs.
  - do 2 (apply needs_bind_r; [apply destruct_all_shrinks; intros y; apply calc_destruct_shrinks|intros _]).
    apply needs_bind_r; [apply destruct_all_shrinks; intros y; apply shrinks_ret|intros _].
    rewrite Hgl. change (needs p (kr_group_list_destruct gl)).
    apply (destruct_all_needs _ _ _ g); [intros y; apply group_destruct_shrinks|done|].
    by apply group_destruct_needs.
Qed.

(** * Initialisation *)

Lemma init_all_lookup {I} (init : I -> res I) l l' k i :
  init_all init l = Ok l' -> NoDup l.*1 -> (k, i) ∈ l -> exists i', init i = Ok i' /\ (k, i') ∈ l' .
Proof.
  revert l'. induction l as [|[k0 i0] l IH]; intros l' Hl Hnd Hin; [by apply elem_of_nil in Hin|].
  simpl in Hl. apply res_bind_Ok in Hl as (i1 & Hi1 & Hl). apply res_bind_Ok in Hl as (l1 & Hl1 & [= <-]).
  apply NoDup_cons in Hnd as [_ Hnd]. apply elem_of_cons in Hin as [[= -> ->]|Hin].
  - exists i1. split; [done|by left].
  - destruct (IH _ Hl1 Hnd Hin) as (i' & Hi' & Hin'). exists i'. split; [done|by right].
Qed.
Lemma init_all_keys {I} (init : I -> res I) l l' : init_all init l = Ok l' -> l'.*1 = l.*1.
Proof.
  revert l'. induction l as [|[k0 i0] l IH]; intros l' Hl; simpl in Hl; [by injection Hl as <-|].
  apply res_bind_Ok in Hl as (i1 & Hi1 & Hl). apply res_bind_Ok in Hl as (l1 & Hl1 & [= <-]).
  simpl. f_equal. by apply IH.
Qed.
(** Initialisation of a table of items initialises every item. *)
Lemma items_init_lookup {I} (init : I -> res I) t t' k i :
  items_init init t = Ok t' -> items_ t !! k = Some i ->
  exists i', init i = Ok i' /\ items_ t' !! k = Some i'.
Proof.
  intros Ht Hi. unfold items_init in Ht. apply res_bind_Ok in Ht as (l & Hl & [= <-]).
  destruct (init_all_lookup _ _ _ k i Hl) as (i' & Hi' & Hin);
    [apply NoDup_fst_map_to_list|by apply elem_of_map_to_list|].
  exists i'. split; [done|]. simpl. apply elem_of_list_to_map_1; [|done].
  rewrite (init_all_keys _ _ _ Hl). apply NoDup_fst_map_to_list.
Qed.

Lemma items_init_none {I} (init : I -> res I) t t' k :
  items_init init t = Ok t' -> items_ t !! k = None -> items_ t' !! k = None.
Proof.
  intros Ht Hi. unfold items_init in Ht. apply res_bind_Ok in Ht as (l & Hl & [= <-]).
  simpl. apply not_elem_of_list_to_map_1. change (fst <$> l) with (l.*1). rewrite (init_all_keys _ _ _ Hl).
  intros Hin. apply list_elem_of_fmap in Hin as ([k' i] & -> & Hin). apply elem_of_map_to_list in Hin. cbn in Hi. congruence.
Qed.
Lemma items_init_time {I} (init : I -> res I) t t' : items_init init t = Ok t' -> tConstructTime t' = tConstructTime t.
Proof. intros Ht. unfold items_init in Ht. by apply res_bind_Ok in Ht as (l & _ & [= <-]). Qed.

(** * What is made of the definitions

    What stays of an item while it is used: the pointer to its definition, and what was
    copied from the definition when it was made. *)

Definition set_fixed (i : T_KRSet) := (ptShmSetDef i, (lSetId i, set_eValueType i)).
Definition sdi_fixed (i : T_KRSDI) := (ptShmSDIDef i, (lSDIId i, sdi_eValueType i)).
Definition ddi_fixed (i : T_KRDDI) := (ptShmDDIDef i, (lDDIId i, ddi_eValueType i)).
Definition hdi_fixed (i : T_KRHDI) := (ptShmHDIDef i, (lHDIId i, hdi_eValueType i)).
Definition rule_fixed (r : T_KRRule) := (ptShmRuleDef r, (lRuleId r, lRuleWeight r)).
Definition rules_fixed (l : T_KRRuleList) := (lRuleCnt l, rule_fixed <$> rules l).
Definition group_fixed (g : T_KRGroup) := (ptShmGroupDef g, (lGroupId g, rules_fixed (ptRuleList g))).
Definition groups_fixed (l : T_KRGroupList) :=
  (groups_tConstructTime l, (lGroupCnt l, group_fixed <$> groups l)).
Definition items_fixed {I X} (f : I -> X) (t : T_KRItems I) := (tConstructTime t, f <$> items_ t).

(** The same of a definition. *)
Definition set_copy (d : T_KRShmSetDef) := (st_id d, st_type d).
Definition sdi_copy (d : T_KRShmSDIDef) := (lSdiId d, caSdiValueType d).
Definition ddi_copy (d : T_KRShmDDIDef) := (lDdiId d, caDdiValueType d).
Definition hdi_copy (d : T_KRShmHDIDef) := (lHdiId d, caHdiValueType d).
Definition rule_copy (d : T_KRShmRuleDef) := (rd_id d, rd_weight d).
Definition group_copy (p : defptr) (d : T_KRShmGroupDef) :=
  (gd_id d, (Z.of_nat (length (shm_defs (stShmRule d))),
             (fun x => (x.1, rule_copy x.2)) <$> pointed p (shm_defs (stShmRule d)))).

(** Two states of the parameters of a thread between which items were only used: handling a
    message is such a use (KrUse). *)
Record used (d d' : T_KRDynamicMem) : Prop := {
  us_sets : items_fixed set_fixed <$> settable d' = items_fixed set_fixed <$> settable d;
  us_sdis : items_fixed sdi_fixed (sditable d') = items_fixed sdi_fixed (sditable d);
  us_ddis : items_fixed ddi_fixed (dditable d') = items_fixed ddi_fixed (dditable d);
  us_hdis : items_fixed hdi_fixed (hditable d') = items_fixed hdi_fixed (hditable d);
  us_groups : groups_fixed <$> grouplist d' = groups_fixed <$> grouplist d
}.

Lemma items_init_fixed {I X} (init : I -> res I) (f : I -> X) t t' :
  (forall i i', init i = Ok i' -> f i' = f i) -> items_init init t = Ok t' ->
  items_fixed f t' = items_fixed f t.
Proof.
  intros Hf Ht. unfold items_fixed. f_equal; [by eapply items_init_time|]. apply map_eq. intros k.
  rewrite !lookup_fmap. destruct (items_ t !! k) as [i|] eqn:Hi.
  - destruct (items_init_lookup _ _ _ _ _ Ht Hi) as (i' & Hi' & ->). simpl. f_equal. by apply Hf.
  - by rewrite (items_init_none _ _ _ _ Ht Hi).
Qed.

(** The initialisation before a message is a use. *)
Lemma dym_init_used d d' : kr_dym_init d = Ok d' -> used d d'.
Proof.
  unfold kr_dym_init. intros Hi. apply res_bind_Ok in Hi as (sdis & Hs & Hi).
  apply res_bind_Ok in Hi as (ddis & Hd & Hi). apply res_bind_Ok in Hi as (hdis & Hh & Hi).
  apply res_bind_Ok in Hi as (gl & Hg & [= <-]). apply of_option_Ok in Hg.
  split; cbn [settable sditable dditable hditable grouplist].
  - done.
  - apply (items_init_fixed kr_sdi_init); [|done]. intros i i' Hii. unfold kr_sdi_init in Hii.
    by apply res_bind_Ok in Hii as (_ & _ & [= <-]).
  - apply (items_init_fixed kr_ddi_init); [|done]. intros i i' Hii. unfold kr_ddi_init in Hii.
    by apply res_bind_Ok in Hii as (_ & _ & [= <-]).
  - apply (items_init_fixed kr_hdi_init); [|done]. intros i i' Hii. unfold kr_hdi_init in Hii.
    by apply res_bind_Ok in Hii as (_ & _ & [= <-]).
  - rewrite Hg. simpl. f_equal. unfold groups_fixed, kr_group_list_init. simpl. do 2 f_equal.
    rewrite <- list_fmap_compose. apply list_fmap_ext. intros k g _. unfold group_fixed, rules_fixed. simpl.
    do 3 f_equal. rewrite <- list_fmap_compose. by apply list_fmap_ext.
Qed.

(** ** Tables

    A table made of a list: one item for each element, under its id, with what [X] says
    is fixed of it. *)

Section Tables.
Context {D I X : Type} (idD : D -> Z) (fixed : I -> X) (goal : D -> X).

Definition table_of (defs : list D) (t : gmap Z I) : Prop :=
  NoDup (idD <$> defs) /\
  forall id, match t !! id with
             | Some i => exists d, d ∈ defs /\ idD d = id /\ fixed i = goal d
             | None => id ∉ (idD <$> defs)
             end.

Context (construct : D -> M objs (option I)) (key : I -> Z) (destruct : I -> M objs unit).
Context (construct_ok : forall d os i os',
  construct d os = Ok (Some i, os') -> fixed i = goal d /\ key i = idD d).

Lemma items_construct_ok dn defs t os t' os' : table_of dn t ->
  items_construct construct key destruct defs t os = Ok (Some t', os') -> table_of (dn ++ defs) t'.
Proof.
  revert dn t os. induction defs as [|d defs IH]; intros dn t os [Hnd Ht]; simpl.
  { intros [= <- _]. by rewrite app_nil_r. }
  unfold mbind at 1, M_bind at 1. destruct (construct d os) as [[[i|] os1]|] eqn:Hrun; [| |done].
  2:{ unfold mbind, M_bind. by destruct (items_destroy destruct t os1) as [[]|]. }
  destruct (construct_ok _ _ _ _ Hrun) as [HP Hk]. rewrite Hk.
  destruct (t !! idD d) eqn:Hfree; [done|]. intros Hrest.
  pose proof (Ht (idD d)) as Hnew. rewrite Hfree in Hnew.
  replace (dn ++ d :: defs) with ((dn ++ [d]) ++ defs) by by rewrite <- app_assoc.
  eapply IH; [|exact Hrest]. split.
  - rewrite fmap_app. apply NoDup_app. split; [done|]. split; [|apply NoDup_singleton].
    intros x Hx ->%list_elem_of_singleton. done.
  - intros id. destruct (decide (id = idD d)) as [->|Hne].
    + rewrite lookup_insert_eq. exists d. split; [|done]. apply elem_of_app. right. by left.
    + rewrite lookup_insert_ne by done. specialize (Ht id). destruct (t !! id) as [i'|].
      * destruct Ht as (d' & Hd' & Hid & HP'). exists d'. split; [|done]. apply elem_of_app. by left.
      * rewrite fmap_app. intros [Hx|Hx]%elem_of_app; [done|]. by apply list_elem_of_singleton in Hx.
Qed.

Lemma list_construct_ok defs l os l' os' dn : fixed <$> l = goal <$> dn ->
  list_construct construct destruct defs l os = Ok (Some l', os') -> fixed <$> l' = goal <$> (dn ++ defs).
Proof.
  revert dn l os. induction defs as [|d defs IH]; intros dn l os Hl; simpl.
  { intros [= <- _]. by rewrite app_nil_r. }
  unfold mbind at 1, M_bind at 1. destruct (construct d os) as [[[i|] os1]|] eqn:Hrun; [| |done].
  2:{ unfold mbind, M_bind. by destruct (destruct_all destruct l os1) as [[]|]. }
  destruct (construct_ok _ _ _ _ Hrun) as [HP _]. intros Hrest.
  replace (dn ++ d :: defs) with ((dn ++ [d]) ++ defs) by by rewrite <- app_assoc.
  eapply IH; [|exact Hrest]. rewrite !fmap_app, Hl. simpl. by rewrite HP.
Qed.

Lemma table_of_fixed defs (t t' : gmap Z I) : fixed <$> t' = fixed <$> t ->
  table_of defs t -> table_of defs t'.
Proof.
  intros Hf [Hnd Ht]. split; [done|]. intros id. specialize (Ht id).
  assert (Hid : fixed <$> t' !! id = fixed <$> t !! id) by by rewrite <- !lookup_fmap, Hf.
  destruct (t !! id) as [i|], (t' !! id) as [i'|]; try done.
  destruct Ht as (d & Hd & Hk & Hg). exists d. split_and!; [done|done|]. simpl in Hid. congruence.
Qed.
End Tables.

Lemma pointed_elem {P D} (base : P) (defs : list D) x :
  x ∈ pointed base defs -> exists i d, x = ((base, i), d) /\ defs !! i = Some d.
Proof.
  intros [i Hi]%list_elem_of_lookup. unfold pointed in Hi. rewrite list_lookup_imap in Hi.
  apply fmap_Some in Hi as (d & Hd & ->). by exists i, d.
Qed.
Lemma pointed_fmap {P D B} (base : P) (defs : list D) (f : D -> B) :
  (fun x => f x.2) <$> pointed base defs = f <$> defs.
Proof.
  apply list_eq. intros i. unfold pointed. rewrite list_lookup_fmap, list_lookup_imap, list_lookup_fmap.
  by destruct (defs !! i).
Qed.

(** Made of the definitions of a section: the table, or the list, has their load time, and
    its items point to them. *)
Definition table_in {D I C} (copy : D -> Z * C) (fixed : I -> defptr * (Z * C)) (n : Z)
    (part : T_KRShm D) (t : T_KRItems I) : Prop :=
  tConstructTime t = tLastLoadTime part /\
  table_of (fun x => (copy x.2).1) fixed (fun x => (x.1, copy x.2)) (pointed n (shm_defs part)) (items_ t).
Definition groups_in (n : Z) (part : T_KRShm T_KRShmGroupDef) (l : T_KRGroupList) : Prop :=
  groups_fixed l = (tLastLoadTime part, (Z.of_nat (length (shm_defs part)),
    (fun x => (x.1, group_copy x.1 x.2)) <$> pointed n (shm_defs part))).

(** Read through the pointers: every item leads to the definition it was made of, and
    there is one for each definition. *)
Definition table_leads {D I C} (def : defptr -> res D) (copy : D -> Z * C)
    (fixed : I -> defptr * (Z * C)) (part : T_KRShm D) (t : T_KRItems I) : Prop :=
  tConstructTime t = tLastLoadTime part /\ NoDup ((fun d => (copy d).1) <$> shm_defs part) /\
  forall id, match items_ t !! id with
             | Some i => exists d, d ∈ shm_defs part /\ def (fixed i).1 = Ok d /\
                 (copy d).1 = id /\ (fixed i).2 = copy d
             | None => id ∉ ((fun d => (copy d).1) <$> shm_defs part)
             end.
Definition rule_leads (shm : T_KRShareMem) (d : T_KRShmRuleDef) (r : T_KRRule) : Prop :=
  rule_def shm (ptShmRuleDef r) = Ok d /\ lRuleId r = rd_id d /\ lRuleWeight r = rd_weight d.
Definition group_leads (shm : T_KRShareMem) (d : T_KRShmGroupDef) (g : T_KRGroup) : Prop :=
  group_def shm (ptShmGroupDef g) = Ok d /\ lGroupId g = gd_id d /\
  Forall2 (rule_leads shm) (shm_defs (stShmRule d)) (rules (ptRuleList g)) /\
  lRuleCnt (ptRuleList g) = Z.of_nat (length (shm_defs (stShmRule d))).
Definition groups_lead (shm : T_KRShareMem) (part : T_KRShm T_KRShmGroupDef) (l : T_KRGroupList) : Prop :=
  groups_tConstructTime l = tLastLoadTime part /\ Forall2 (group_leads shm) (shm_defs part) (groups l) /\
  lGroupCnt l = Z.of_nat (length (shm_defs part)).

(** A condition on each of the five parts of the parameters of a thread. *)
Record conditions := mkConditions {
  on_sets : T_KRItems T_KRSet -> Prop;
  on_sdis : T_KRItems T_KRSDI -> Prop;
  on_ddis : T_KRItems T_KRDDI -> Prop;
  on_hdis : T_KRItems T_KRHDI -> Prop;
  on_groups : T_KRGroupList -> Prop
}.
Definition meets (Q : conditions) (d : T_KRDynamicMem) : Prop :=
  (exists sets, settable d = Some sets /\ on_sets Q sets) /\ on_sdis Q (sditable d) /\
  on_ddis Q (dditable d) /\ on_hdis Q (hditable d) /\
  (exists gl, grouplist d = Some gl /\ on_groups Q gl).

Definition parts_in (n : Z) (sec : shm_section) : conditions := {|
  on_sets := table_in set_copy set_fixed n (stShmSet sec);
  on_sdis := table_in sdi_copy sdi_fixed n (stShmSDI sec);
  on_ddis := table_in ddi_copy ddi_fixed n (stShmDDI sec);
  on_hdis := table_in hdi_copy hdi_fixed n (stShmHDI sec);
  on_groups := groups_in n (stShmGroup sec)
|}.
Definition parts_lead (shm : T_KRShareMem) (sec : shm_section) : conditions := {|
  on_sets := table_leads (set_def shm) set_copy set_fixed (stShmSet sec);
  on_sdis := table_leads (sdi_def shm) sdi_copy sdi_fixed (stShmSDI sec);
  on_ddis := table_leads (ddi_def shm) ddi_copy ddi_fixed (stShmDDI sec);
  on_hdis := table_leads (hdi_def shm) hdi_copy hdi_fixed (stShmHDI sec);
  on_groups := groups_lead shm (stShmGroup sec)
|}.

(** The parameters of a thread point into section [n], which holds [sec]; and, read
    through the shared memory, they are those of [sec]. *)
Definition made_in (n : Z) (sec : shm_section) : T_KRDynamicMem -> Prop := meets (parts_in n sec).
Definition reflects (shm : T_KRShareMem) (sec : shm_section) : T_KRDynamicMem -> Prop :=
  meets (parts_lead shm sec).

Lemma table_in_leads {D I C} (part : shm_section -> T_KRShm D) (copy : D -> Z * C)
    (fixed : I -> defptr * (Z * C)) shm n sec t :
  sections shm !! Z.to_nat n = Some sec -> table_in copy fixed n (part sec) t ->
  table_leads (shm_def part shm) copy fixed (part sec) t.
Proof.
  intros Hsec [Htime [Hnd Ht]]. rewrite (pointed_fmap n _ (fun d => (copy d).1)) in Hnd.
  split; [done|]. split; [done|]. intros id. specialize (Ht id).
  rewrite (pointed_fmap n _ (fun d => (copy d).1)) in Ht. destruct (items_ t !! id) as [i|]; [|done].
  destruct Ht as (x & Hx & Hid & Hi). apply pointed_elem in Hx as (k & d & -> & Hk). simpl in *.
  exists d. split; [by eapply list_elem_of_lookup_2|]. rewrite Hi. split_and!; [|done|done].
  unfold shm_def. simpl. rewrite Hsec. simpl. by rewrite Hk.
Qed.

Lemma groups_in_lead shm n sec l : sections shm !! Z.to_nat n = Some sec ->
  groups_in n (stShmGroup sec) l -> groups_lead shm (stShmGroup sec) l.
Proof.
  intros Hsec Hl. unfold groups_in, groups_fixed in Hl. injection Hl as Ht Hc Hg.
  split; [done|]. split; [|done]. apply Forall2_same_length_lookup_2.
  { apply (f_equal length) in Hg. unfold pointed in Hg. by rewrite !length_fmap, length_imap in Hg. }
  intros k d g Hd Hk. apply (f_equal (.!! k)) in Hg. unfold pointed in Hg.
  rewrite !list_lookup_fmap, list_lookup_imap, Hd, Hk in Hg. simpl in Hg.
  unfold group_fixed, rules_fixed, group_copy in Hg. injection Hg as Hp Hid Hcnt Hr.
  assert (Hdef : group_def shm (ptShmGroupDef g) = Ok d).
  { rewrite Hp. unfold group_def, shm_def. simpl. rewrite Hsec. simpl. by rewrite Hd. }
  split_and!; [done|done| |done]. apply Forall2_same_length_lookup_2.
  { apply (f_equal length) in Hr. unfold pointed in Hr. by rewrite !length_fmap, length_imap in Hr. }
  intros m rd r Hrd Hm. apply (f_equal (.!! m)) in Hr. unfold pointed in Hr.
  rewrite !list_lookup_fmap, list_lookup_imap, Hrd, Hm in Hr. simpl in Hr.
  unfold rule_fixed, rule_copy in Hr. injection Hr as Hrp Hri Hrw. split_and!; [|done|done].
  unfold rule_def. rewrite Hrp. simpl. rewrite <- Hp, Hdef. simpl. by rewrite Hrd.
Qed.

Lemma made_in_reflects shm n sec d : sections shm !! Z.to_nat n = Some sec ->
  made_in n sec d -> reflects shm sec d.
Proof.
  intros Hsec ((sets & Hs & H1) & H2 & H3 & H4 & (gl & Hg & H5)). split_and!.
  - exists sets. split; [done|]. by apply (table_in_leads stShmSet _ _ _ n).
  - by apply (table_in_leads stShmSDI _ _ _ n).
  - by apply (table_in_leads stShmDDI _ _ _ n).
  - by apply (table_in_leads stShmHDI _ _ _ n).
  - exists gl. split; [done|]. by apply (groups_in_lead _ n).
Qed.

(** ** The constructors *)

Section Constructors.
Context (regcomp : string -> bool).
Context (kr_calc_parse_flex : T_KRCalc -> M objs (Z * T_KRCalc)).
Context (module_symbol : string -> bool).
Context (set_cur : Z -> set_cursor).

#[local] Abbreviation sdi_construct := (kr_sdi_construct regcomp kr_calc_parse_flex module_symbol).
#[local] Abbreviation ddi_construct := (kr_ddi_construct regcomp kr_calc_parse_flex module_symbol).
#[local] Abbreviation hdi_construct := (kr_hdi_construct module_symbol).
#[local] Abbreviation rule_construct := (kr_rule_construct regcomp kr_calc_parse_flex).
#[local] Abbreviation group_construct := (kr_group_construct regcomp kr_calc_parse_flex).
#[local] Abbreviation rule_list_construct := (kr_rule_list_construct regcomp kr_calc_parse_flex).
#[local] Abbreviation group_list_construct := (kr_group_list_construct regcomp kr_calc_parse_flex).
#[local] Abbreviation dym_construct := (kr_dym_construct regcomp kr_calc_parse_flex module_symbol set_cur).
#[local] Abbreviation dym_check := (kr_dym_check regcomp kr_calc_parse_flex module_symbol set_cur).

Lemma set_construct_ok x os i os' : kr_set_construct set_cur x os = Ok (Some i, os') ->
  set_fixed i = (x.1, set_copy x.2) /\ lSetId i = (set_copy x.2).1.
Proof.
  unfold kr_set_construct. unfold mbind, M_bind, lift.
  destruct (kr_hashset_create _ _) as [hs|]; [|done]. simpl.
  destruct (kr_set_load set_cur hs _) as [[rc hs']|]; [|done]. destruct (negb (rc =? 0)).
  - by destruct (kr_hashtable_destroy (hs_set hs')).
  - unfold alloc_obj. intros [= <- _]. done.
Qed.
Lemma sdi_construct_ok x os i os' : sdi_construct x os = Ok (Some i, os') ->
  sdi_fixed i = (x.1, sdi_copy x.2) /\ lSDIId i = (sdi_copy x.2).1.
Proof.
  destruct x as [p d]. unfold kr_sdi_construct, mbind, M_bind.
  destruct (kr_calc_construct _ _ _ _ os) as [[c os1]|]; [|done].
  destruct (aggr_symbol _ _); [|done]. by intros [= <- _].
Qed.
Lemma ddi_construct_ok x os i os' : ddi_construct x os = Ok (Some i, os') ->
  ddi_fixed i = (x.1, ddi_copy x.2) /\ lDDIId i = (ddi_copy x.2).1.
Proof.
  destruct x as [p d]. unfold kr_ddi_construct, mbind, M_bind.
  destruct (kr_calc_construct _ _ _ _ os) as [[c os1]|]; [|done].
  destruct (aggr_symbol _ _); [|done]. by intros [= <- _].
Qed.
Lemma hdi_construct_ok x os i os' : hdi_construct x os = Ok (Some i, os') ->
  hdi_fixed i = (x.1, hdi_copy x.2) /\ lHDIId i = (hdi_copy x.2).1.
Proof.
  destruct x as [p d]. unfold kr_hdi_construct.
  destruct (aggr_symbol _ _); [|done]. by intros [= <- _].
Qed.
Lemma rule_construct_ok x os i os' : rule_construct x os = Ok (Some i, os') ->
  rule_fixed i = (x.1, rule_copy x.2) /\ lRuleId i = (rule_copy x.2).1.
Proof.
  destruct x as [p d]. unfold kr_rule_construct, mbind, M_bind.
  destruct (kr_calc_construct _ _ _ _ os) as [[c os1]|]; [|done]. by intros [= <- _].
Qed.

Lemma rule_list_construct_ok p shm os l os' : rule_list_construct p shm os = Ok (Some l, os') ->
  rules_fixed l = (Z.of_nat (length (shm_defs shm)),
    (fun x => (x.1, rule_copy x.2)) <$> pointed p (shm_defs shm)).
Proof.
  unfold kr_rule_list_construct. destruct (_ <=? 0); [done|]. unfold mbind, M_bind.
  destruct (list_construct _ _ _ _ os) as [[[l1|] os1]|] eqn:Hrun; [|done|done].
  intros [= <- _]. unfold rules_fixed. simpl. f_equal.
  apply (list_construct_ok (fun x => (rule_copy x.2).1) _ (fun x => (x.1, rule_copy x.2)) _ lRuleId _
    rule_construct_ok (pointed p (shm_defs shm)) [] os l1 os1 []) in Hrun; [done|reflexivity].
Qed.
Lemma group_construct_ok x os i os' : group_construct x os = Ok (Some i, os') ->
  group_fixed i = (x.1, group_copy x.1 x.2) /\ lGroupId i = (group_copy x.1 x.2).1.
Proof.
  destruct x as [p d]. unfold kr_group_construct, mbind, M_bind.
  destruct (kr_calc_construct _ _ _ _ os) as [[[c|] os1]|]; [|done|done].
  destruct (rule_list_construct _ _ _) as [[[l|] os2]|] eqn:Hrun; [|done|done].
  intros [= <- _]. split; [|done]. unfold group_fixed. simpl. f_equal. unfold group_copy. f_equal.
  by eapply rule_list_construct_ok.
Qed.
Lemma group_list_construct_ok n shm os l os' : group_list_construct n shm os = Ok (Some l, os') ->
  groups_in n shm l.
Proof.
  unfold kr_group_list_construct. destruct (_ <=? 0); [done|]. unfold mbind, M_bind.
  destruct (list_construct _ _ _ _ os) as [[[l1|] os1]|] eqn:Hrun; [|done|done].
  intros [= <- _]. unfold groups_in, groups_fixed. simpl. do 2 f_equal.
  apply (list_construct_ok (fun x => (group_copy x.1 x.2).1) _ (fun x => (x.1, group_copy x.1 x.2)) _ lGroupId _
    group_construct_ok (pointed n (shm_defs shm)) [] os l1 os1 []) in Hrun; [done|reflexivity].
Qed.

Lemma table_construct_ok {D I C} (construct : defptr * D -> M objs (option I)) key destruct
    (copy : D -> Z * C) (fixed : I -> defptr * (Z * C)) n shm os t os' :
  (forall x os i os', construct x os = Ok (Some i, os') ->
     fixed i = (x.1, copy x.2) /\ key i = (copy x.2).1) ->
  table_construct construct key destruct n shm os = Ok (Some t, os') -> table_in copy fixed n shm t.
Proof.
  intros Hc. unfold table_construct, mbind, M_bind.
  destruct (items_construct _ _ _ _ _ _) as [[[t1|] os1]|] eqn:Hrun; [|done|done].
  intros [= <- _]. split; [done|]. simpl.
  apply (items_construct_ok (fun x => (copy x.2).1) fixed (fun x => (x.1, copy x.2)) construct key destruct Hc
    [] _ ∅ os t1 os1); [|done].
  split; [constructor|]. intros id. rewrite lookup_empty. apply not_elem_of_nil.
Qed.

Lemma set_table_ok n shm os t os' : kr_set_table_construct set_cur n shm os = Ok (Some t, os') ->
  table_in set_copy set_fixed n shm t.
Proof. by apply table_construct_ok, set_construct_ok. Qed.
Lemma sdi_table_ok n shm os t os' : kr_sdi_table_construct regcomp kr_calc_parse_flex module_symbol n shm os = Ok (Some t, os') ->
  table_in sdi_copy sdi_fixed n shm t.
Proof. by apply table_construct_ok, sdi_construct_ok. Qed.
Lemma ddi_table_ok n shm os t os' : kr_ddi_table_construct regcomp kr_calc_parse_flex module_symbol n shm os = Ok (Some t, os') ->
  table_in ddi_copy ddi_fixed n shm t.
Proof. by apply table_construct_ok, ddi_construct_ok. Qed.
Lemma hdi_table_ok n shm os t os' : kr_hdi_table_construct module_symbol n shm os = Ok (Some t, os') ->
  table_in hdi_copy hdi_fixed n shm t.
Proof. by apply table_construct_ok, hdi_construct_ok. Qed.

(** ** Making the parameters again *)

Lemma dym_construct_ok shm os dyn os' : dym_construct shm os = Ok (Some dyn, os') ->
  exists sec, active shm = Ok sec /\ made_in (nSecId shm) sec dyn.
Proof.
  unfold kr_dym_construct. unfold mbind at 1, M_bind at 1, lift at 1.
  destruct (active shm) as [sec|]; [|done]. intros Hrun. exists sec. split; [done|]. revert Hrun.
  unfold mbind, M_bind.
  destruct (kr_set_table_construct _ _ _ _) as [[[sets|] os1]|] eqn:H1; [|done|done].
  destruct (kr_sdi_table_construct _ _ _ _ _ _) as [[[sdis|] os2]|] eqn:H2; [|done|done].
  destruct (kr_ddi_table_construct _ _ _ _ _ _) as [[[ddis|] os3]|] eqn:H3; [|done|done].
  destruct (kr_hdi_table_construct _ _ _ _) as [[[hdis|] os4]|] eqn:H4; [|done|done].
  destruct (group_list_construct _ _ _) as [[[gl|] os5]|] eqn:H5; [|done|done].
  intros [= <- _]. split_and!; cbn.
  - exists sets. split; [done|]. by eapply set_table_ok.
  - by eapply sdi_table_ok.
  - by eapply ddi_table_ok.
  - by eapply hdi_table_ok.
  - exists gl. split; [done|]. by eapply group_list_construct_ok.
Qed.

(** What a check leaves of a condition [B] on the tables: a table is made again of the
    active section, or it has the section's load time already. *)
Definition refreshed (n : Z) (sec : shm_section) (B : conditions) : conditions := {|
  on_sets t := on_sets (parts_in n sec) t \/ on_sets B t /\ tConstructTime t = tLastLoadTime (stShmSet sec);
  on_sdis t := on_sdis (parts_in n sec) t \/ on_sdis B t /\ tConstructTime t = tLastLoadTime (stShmSDI sec);
  on_ddis t := on_ddis (parts_in n sec) t \/ on_ddis B t /\ tConstructTime t = tLastLoadTime (stShmDDI sec);
  on_hdis t := on_hdis (parts_in n sec) t \/ on_hdis B t /\ tConstructTime t = tLastLoadTime (stShmHDI sec);
  on_groups t := on_groups (parts_in n sec) t \/
    on_groups B t /\ groups_tConstructTime t = tLastLoadTime (stShmGroup sec)
|}.
Definition implies (B Q : conditions) : Prop :=
  (forall t, on_sets B t -> on_sets Q t) /\ (forall t, on_sdis B t -> on_sdis Q t) /\
  (forall t, on_ddis B t -> on_ddis Q t) /\ (forall t, on_hdis B t -> on_hdis Q t) /\
  (forall t, on_groups B t -> on_groups Q t).

Lemma meets_implies B Q d : implies B Q -> meets B d -> meets Q d.
Proof.
  intros (I1 & I2 & I3 & I4 & I5) ((sets & Hs & H1) & H2 & H3 & H4 & (gl & Hg & H5)).
  split_and!; eauto.
Qed.

Lemma reload_ok {D T} (construct : T_KRShm D -> M objs (option T)) destruct time (P B : T -> Prop) shm t os r os' :
  (forall os t' os', construct shm os = Ok (Some t', os') -> P t') -> B t ->
  reload construct destruct time shm t os = Ok (r, os') ->
  from_option (fun t' => P t' \/ B t' /\ time t' = tLastLoadTime shm) True r.
Proof.
  intros HP HB. unfold reload. destruct (negb (time t =? tLastLoadTime shm)) eqn:Htime.
  - unfold mbind, M_bind. destruct (construct shm os) as [[[t'|] os1]|] eqn:Hrun; [| |done].
    + destruct (destruct t os1) as [[]|]; [|done]. intros [= <- _]. left. by eapply HP.
    + by intros [= <- _].
  - intros [= <- _]. right. split; [done|]. apply negb_false_iff in Htime. lia.
Qed.

(** A check that returns 0 leaves every table refreshed; one that does not leaves those
    it came to refreshed and the others as they were. *)
Lemma dym_check_gen B dyn shm sec os rc dyn' os' :
  active shm = Ok sec -> meets B dyn -> implies (refreshed (nSecId shm) sec B) B ->
  dym_check dyn shm os = Ok (rc, dyn', os') ->
  meets B dyn' /\ (rc = 0 -> meets (refreshed (nSecId shm) sec B) dyn').
Proof.
  intros Hact ((sets & Hs & B1) & B2 & B3 & B4 & (gl & Hg & B5)) (I1 & I2 & I3 & I4 & I5).
  set (R := refreshed (nSecId shm) sec B) in *.
  unfold kr_dym_check. rewrite Hact, Hs. unfold mbind, M_bind. cbn -[reload].
  destruct (reload (kr_set_table_construct _ _) _ _ _ _ os) as [[r1 os1]|] eqn:H1; [|done].
  apply (reload_ok _ _ _ _ _ _ _ _ _ _ (set_table_ok (nSecId shm) (stShmSet sec)) B1) in H1.
  destruct r1 as [sets'|]; [cbn [from_option] in H1; fold (on_sets R sets') in H1|by intros [= <- <- _]; split; [split_and!; eauto|]].
  destruct (reload (kr_sdi_table_construct _ _ _ _) _ _ _ _ os1) as [[r2 os2]|] eqn:H2; [|done].
  apply (reload_ok _ _ _ _ _ _ _ _ _ _ (sdi_table_ok (nSecId shm) (stShmSDI sec)) B2) in H2.
  destruct r2 as [sdis'|]; [fold (on_sdis R sdis') in H2|by intros [= <- <- _]; split; [split_and!; eauto|]].
  destruct (reload (kr_ddi_table_construct _ _ _ _) _ _ _ _ os2) as [[r3 os3]|] eqn:H3; [|done].
  apply (reload_ok _ _ _ _ _ _ _ _ _ _ (ddi_table_ok (nSecId shm) (stShmDDI sec)) B3) in H3.
  destruct r3 as [ddis'|]; [fold (on_ddis R ddis') in H3|by intros [= <- <- _]; split; [split_and!; eauto|]].
  destruct (reload (kr_hdi_table_construct _ _) _ _ _ _ os3) as [[r4 os4]|] eqn:H4; [|done].
  apply (reload_ok _ _ _ _ _ _ _ _ _ _ (hdi_table_ok (nSecId shm) (stShmHDI sec)) B4) in H4.
  destruct r4 as [hdis'|]; [fold (on_hdis R hdis') in H4|by intros [= <- <- _]; split; [split_and!; eauto|]].
  rewrite Hg. cbn -[reload].
  destruct (reload (group_list_construct _) _ _ _ _ os4) as [[r5 os5]|] eqn:H5; [|done].
  apply (reload_ok _ _ _ _ _ _ _ _ _ _ (group_list_construct_ok (nSecId shm) (stShmGroup sec)) B5) in H5.
  destruct r5 as [gl'|]; [fold (on_groups R gl') in H5|by intros [= <- <- _]; split; [split_and!; eauto|]].
  intros [= <- <- _]. split; [split_and!; eauto|]. intros _. split_and!; eauto.
Qed.

(** A table that has the load time of the active section was made of it. *)
Definition trusted (n : Z) (sec : shm_section) : conditions := {|
  on_sets t := tConstructTime t = tLastLoadTime (stShmSet sec) -> on_sets (parts_in n sec) t;
  on_sdis t := tConstructTime t = tLastLoadTime (stShmSDI sec) -> on_sdis (parts_in n sec) t;
  on_ddis t := tConstructTime t = tLastLoadTime (stShmDDI sec) -> on_ddis (parts_in n sec) t;
  on_hdis t := tConstructTime t = tLastLoadTime (stShmHDI sec) -> on_hdis (parts_in n sec) t;
  on_groups t := groups_tConstructTime t = tLastLoadTime (stShmGroup sec) -> on_groups (parts_in n sec) t
|}.

Lemma dym_check_made dyn shm sec os dyn' os' :
  active shm = Ok sec -> meets (trusted (nSecId shm) sec) dyn ->
  dym_check dyn shm os = Ok (0, dyn', os') -> made_in (nSecId shm) sec dyn'.
Proof.
  intros Hact Hd Hrun. eapply dym_check_gen in Hrun as [_ Hr]; [|exact Hact|exact Hd|].
  - eapply meets_implies; [|exact (Hr eq_refl)]. split_and!; intros t [Ht|[Ht Htime]]; [done|by apply Ht|..];
      [done|by apply Ht|done|by apply Ht|done|by apply Ht|done|by apply Ht].
  - split_and!; intros t [Ht|[Ht _]] ?; [done|by apply Ht|..];
      [done|by apply Ht|done|by apply Ht|done|by apply Ht|done|by apply Ht].
Qed.

(** Two sections of which no part was loaded at the same time; and one all of whose parts
    were loaded later than those of another. *)
Definition parts_times (s : shm_section) : list Z :=
  [tLastLoadTime (stShmSet s); tLastLoadTime (stShmSDI s); tLastLoadTime (stShmDDI s);
   tLastLoadTime (stShmHDI s); tLastLoadTime (stShmGroup s)].
Definition times_differ (s s' : shm_section) : Prop := Forall2 (fun t t' => t <> t') (parts_times s) (parts_times s').
Definition later (s s' : shm_section) : Prop := Forall2 Z.lt (parts_times s) (parts_times s').

Lemma made_in_time n sec d : made_in n sec d ->
  (forall sets, settable d = Some sets -> tConstructTime sets = tLastLoadTime (stShmSet sec)) /\
  tConstructTime (sditable d) = tLastLoadTime (stShmSDI sec) /\
  tConstructTime (dditable d) = tLastLoadTime (stShmDDI sec) /\
  tConstructTime (hditable d) = tLastLoadTime (stShmHDI sec) /\
  (forall gl, grouplist d = Some gl -> groups_tConstructTime gl = tLastLoadTime (stShmGroup sec)).
Proof.
  intros ((sets & Hs & [H1 _]) & [H2 _] & [H3 _] & [H4 _] & (gl & Hg & H5)). split_and!; try done.
  - intros s. rewrite Hs. by intros [= <-].
  - intros l. rewrite Hg. intros [= <-]. by injection H5.
Qed.

Lemma made_in_trusted n0 sec0 n sec d : times_differ sec0 sec -> made_in n0 sec0 d -> meets (trusted n sec) d.
Proof.
  intros Ht Hd. destruct (made_in_time _ _ _ Hd) as (T1 & T2 & T3 & T4 & T5).
  destruct Hd as ((sets & Hs & _) & _ & _ & _ & (gl & Hg & _)). specialize (T1 _ Hs). specialize (T5 _ Hg).
  unfold times_differ, parts_times in Ht. rewrite !Forall2_cons in Ht. destruct Ht as (D1 & D2 & D3 & D4 & D5 & _).
  split_and!; cbn; [exists sets; split; [done|]..| | | |exists gl; split; [done|]]; intros Heq; exfalso; congruence.
Qed.

(** A check of parameters that have the load times of the active section does nothing. *)
Lemma dym_check_same n sec0 shm sec dyn os :
  made_in n sec0 dyn -> active shm = Ok sec -> parts_times sec0 = parts_times sec ->
  dym_check dyn shm os = Ok (0, dyn, os).
Proof.
  intros Hd Hact Heq. destruct (made_in_time _ _ _ Hd) as (T1 & T2 & T3 & T4 & T5).
  destruct Hd as ((sets & Hs & _) & _ & _ & _ & (gl & Hg & _)). specialize (T1 _ Hs). specialize (T5 _ Hg).
  injection Heq as E1 E2 E3 E4 E5. unfold kr_dym_check. rewrite Hact, Hs. unfold mbind, M_bind, reload. cbn.
  rewrite T1, E1, Z.eqb_refl, T2, E2, Z.eqb_refl, T3, E3, Z.eqb_refl, T4, E4, Z.eqb_refl, Hg. cbn.
  rewrite T5, E5, Z.eqb_refl. cbn. destruct dyn; cbn in *. by subst.
Qed.

End Constructors.
(** * The two sections *)

Definition loaded (l : shm_loads) : shm_section :=
  mkSection (load_set l).2 (load_sdi l).2 (load_ddi l).2 (load_hdi l).2 (load_group l).2.
Definition loads_ok (l : shm_loads) : bool :=
  ((load_set l).1 =? 0) && ((load_sdi l).1 =? 0) && ((load_ddi l).1 =? 0) &&
  ((load_hdi l).1 =? 0) && ((load_group l).1 =? 0).

Lemma shm_load_spec (l : shm_loads) (shm : T_KRShareMem) :
  nSecId shm = 0 \/ nSecId shm = 1 -> length (sections shm) = 2%nat ->
  exists rc shm', kr_shm_load l (Some shm) = Ok (rc, Some shm') /\
    length (sections shm') = 2%nat /\
    sections shm' !! Z.to_nat (nSecId shm) = sections shm !! Z.to_nat (nSecId shm) /\
    (if loads_ok l then rc = 1 - nSecId shm /\ nSecId shm' = rc /\ active shm' = Ok (loaded l)
     else rc = -1 /\ nSecId shm' = nSecId shm /\ active shm' = active shm).
Proof.
  destruct shm as [n time secs]. simpl. intros Hn Hl.
  destruct secs as [|s0 [|s1 [|]]]; try done. clear Hl.
  destruct l as [[r1 x1] [r2 x2] [r3 x3] [r4 x4] [r5 x5] tm]. unfold loads_ok, loaded, kr_shm_load.
  simpl. destruct Hn as [-> | ->]; simpl;
    (destruct (r1 =? 0); simpl; [|eexists _, _; split; [done|]; done]);
    (destruct (r2 =? 0); simpl; [|eexists _, _; split; [done|]; done]);
    (destruct (r3 =? 0); simpl; [|eexists _, _; split; [done|]; done]);
    (destruct (r4 =? 0); simpl; [|eexists _, _; split; [done|]; done]);
    (destruct (r5 =? 0); simpl; [|eexists _, _; split; [done|]; done]);
    eexists _, _; (split; [done|]); done.
Qed.

(** The double buffer of the shared memory: a load never writes the active section;
    when all its parts succeed it makes the other section active, holding exactly what
    was loaded, and otherwise returns -1 with the active section as it was, so that a
    failed reload changes nothing that is in use. *)
Theorem kr_shm_load_double_buffer (l : shm_loads) (shm : T_KRShareMem) :
  nSecId shm = 0 \/ nSecId shm = 1 -> length (sections shm) = 2%nat ->
  exists rc shm', kr_shm_load l (Some shm) = Ok (rc, Some shm') /\
    length (sections shm') = 2%nat /\
    sections shm' !! Z.to_nat (nSecId shm) = sections shm !! Z.to_nat (nSecId shm) /\
    (if loads_ok l then rc = 1 - nSecId shm /\ nSecId shm' = rc /\ active shm' = Ok (loaded l)
     else rc = -1 /\ nSecId shm' = nSecId shm /\ active shm' = active shm).
Proof. apply shm_load_spec. Qed.

(** * A thread and the loads

    Loads of the configuration, checks and uses of a thread's parameters, in any order.  A
    load that succeeds is later than the one it follows; the cursor on the elements of sets
    and the functions of the data module may be others at every check. *)

Definition two_sections (shm : T_KRShareMem) : Prop :=
  (nSecId shm = 0 \/ nSecId shm = 1) /\ length (sections shm) = 2%nat.

Inductive thread_step : T_KRShareMem * T_KRDynamicMem -> T_KRShareMem * T_KRDynamicMem -> Prop :=
  | step_load l shm rc shm' dyn : kr_shm_load l (Some shm) = Ok (rc, Some shm') ->
      (forall sec, loads_ok l = true -> active shm = Ok sec -> later sec (loaded l)) ->
      thread_step (shm, dyn) (shm', dyn)
  | step_check regcomp flex symbol set_cur shm dyn os rc dyn' os' :
      kr_dym_check regcomp flex symbol set_cur dyn shm os = Ok (rc, dyn', os') ->
      thread_step (shm, dyn) (shm, dyn')
  | step_use shm dyn dyn' : used dyn dyn' -> thread_step (shm, dyn) (shm, dyn').

(** Every table is of the active section, or of an earlier load. *)
Definition current (n : Z) (sec : shm_section) : conditions := {|
  on_sets t := on_sets (parts_in n sec) t \/ tConstructTime t < tLastLoadTime (stShmSet sec);
  on_sdis t := on_sdis (parts_in n sec) t \/ tConstructTime t < tLastLoadTime (stShmSDI sec);
  on_ddis t := on_ddis (parts_in n sec) t \/ tConstructTime t < tLastLoadTime (stShmDDI sec);
  on_hdis t := on_hdis (parts_in n sec) t \/ tConstructTime t < tLastLoadTime (stShmHDI sec);
  on_groups t := on_groups (parts_in n sec) t \/ groups_tConstructTime t < tLastLoadTime (stShmGroup sec)
|}.

Lemma current_trusted n sec : implies (current n sec) (trusted n sec).
Proof. split_and!; intros t [Ht|Ht] Heq; (done || lia). Qed.
Lemma current_refreshed n sec : implies (refreshed n sec (current n sec)) (current n sec).
Proof. split_and!; intros t [Ht|[Ht _]]; (by left) || done. Qed.
Lemma parts_in_current n sec : implies (parts_in n sec) (current n sec).
Proof. split_and!; intros t Ht; by left. Qed.
Lemma current_later n sec n' sec' : later sec sec' -> implies (current n sec) (current n' sec').
Proof.
  unfold later, parts_times. rewrite !Forall2_cons. intros (L1 & L2 & L3 & L4 & L5 & _).
  split_and!; intros t Ht; right; cbn in Ht; destruct Ht as [Ht|Ht]; try lia.
  1-4: destruct Ht as [-> _]; lia.
  injection Ht. lia.
Qed.

Lemma table_in_fixed {D I C} (copy : D -> Z * C) (fixed : I -> defptr * (Z * C)) n part t t' :
  items_fixed fixed t = items_fixed fixed t' -> table_in copy fixed n part t -> table_in copy fixed n part t'.
Proof.
  intros Hf [Htime Ht]. injection Hf as Ht' Hi. split; [by rewrite <- Ht'|]. by eapply table_of_fixed.
Qed.
(** A condition on what stays of the items. *)
Definition stable (Q : conditions) : Prop :=
  (forall t t', items_fixed set_fixed t = items_fixed set_fixed t' -> on_sets Q t -> on_sets Q t') /\
  (forall t t', items_fixed sdi_fixed t = items_fixed sdi_fixed t' -> on_sdis Q t -> on_sdis Q t') /\
  (forall t t', items_fixed ddi_fixed t = items_fixed ddi_fixed t' -> on_ddis Q t -> on_ddis Q t') /\
  (forall t t', items_fixed hdi_fixed t = items_fixed hdi_fixed t' -> on_hdis Q t -> on_hdis Q t') /\
  (forall t t', groups_fixed t = groups_fixed t' -> on_groups Q t -> on_groups Q t').

Lemma used_meets Q d d' : stable Q -> used d d' -> meets Q d -> meets Q d'.
Proof.
  intros (F1 & F2 & F3 & F4 & F5) [U1 U2 U3 U4 U5] ((sets & Hs & H1) & H2 & H3 & H4 & (gl & Hg & H5)).
  rewrite Hs in U1. apply fmap_Some in U1 as (sets' & Hs' & U1).
  rewrite Hg in U5. apply fmap_Some in U5 as (gl' & Hg' & U5). split_and!; eauto.
Qed.
Lemma parts_in_stable n sec : stable (parts_in n sec).
Proof.
  split_and!; intros t t' Hf; [by apply table_in_fixed..|]. cbn. unfold groups_in. by rewrite Hf.
Qed.
Lemma current_stable n sec : stable (current n sec).
Proof.
  destruct (parts_in_stable n sec) as (F1 & F2 & F3 & F4 & F5).
  split_and!; (intros t t' Hf [Ht|Ht]; [left; eauto|right; apply (f_equal fst) in Hf; cbn in Ht, Hf |- *; lia]).
Qed.
Lemma used_made n sec d d' : used d d' -> made_in n sec d -> made_in n sec d'.
Proof. apply used_meets, parts_in_stable. Qed.

Definition thread_ok (s : T_KRShareMem * T_KRDynamicMem) : Prop :=
  two_sections s.1 /\ exists sec, active s.1 = Ok sec /\ meets (current (nSecId s.1) sec) s.2.

Lemma thread_step_ok s s' : thread_step s s' -> thread_ok s -> thread_ok s'.
Proof.
  intros Hstep. destruct Hstep as [l shm rc shm' dyn Hl Hlater|regcomp flex symbol set_cur shm dyn os rc dyn' os' Hc|shm dyn dyn' Hu];
    intros [[Hn H2] (sec & Hact & Hd)]; cbn [fst snd] in *.
  - destruct (shm_load_spec l shm Hn H2) as (rc1 & shm1 & Hl' & H2' & _ & Hcase).
    rewrite Hl in Hl'. injection Hl' as <- <-. destruct (loads_ok l).
    + destruct Hcase as (-> & Hn' & Ha'). split; [split; [cbn [fst snd]; lia|done]|].
      exists (loaded l). split; [done|]. eapply meets_implies; [|exact Hd]. apply current_later. by apply Hlater.
    + destruct Hcase as (-> & Hn' & Ha'). split; [split; [cbn [fst snd]; lia|done]|].
      exists sec. cbn [fst snd]. by rewrite Ha', Hn'.
  - split; [done|]. exists sec. split; [done|].
    eapply dym_check_gen in Hc as [H _]; [exact H|done|done|apply current_refreshed].
  - split; [done|]. exists sec. split; [done|]. by apply (used_meets _ dyn); [apply current_stable|..].
Qed.

Lemma thread_run_ok s s' : rtc thread_step s s' -> thread_ok s -> thread_ok s'.
Proof. intros Hrun. induction Hrun as [s|s s1 s2 Hs _ IH]; [done|]. intros H. apply IH. by eapply thread_step_ok. Qed.

Lemma thread_starts regcomp flex symbol set_cur shm os dyn os' : two_sections shm ->
  kr_dym_construct regcomp flex symbol set_cur shm os = Ok (Some dyn, os') -> thread_ok (shm, dyn).
Proof.
  intros H2 Hc. split; [done|]. apply dym_construct_ok in Hc as (sec & Hsec & Hd). exists sec. split; [done|].
  eapply meets_implies; [apply parts_in_current|done].
Qed.

Lemma thread_checked regcomp flex symbol set_cur shm dyn os dyn' os' : thread_ok (shm, dyn) ->
  kr_dym_check regcomp flex symbol set_cur dyn shm os = Ok (0, dyn', os') ->
  exists sec, active shm = Ok sec /\ made_in (nSecId shm) sec dyn'.
Proof.
  intros [_ (sec & Hact & Hd)] Hk. exists sec. split; [done|].
  eapply dym_check_made; [done| |exact Hk]. eapply meets_implies; [apply current_trusted|done].
Qed.

(** One load leaves what the pointers into the active section lead to. *)
Lemma made_in_loaded l shm sec dyn : two_sections shm -> active shm = Ok sec -> made_in (nSecId shm) sec dyn ->
  exists rc shm', kr_shm_load l (Some shm) = Ok (rc, Some shm') /\ reflects shm' sec dyn.
Proof.
  intros [Hn Hlen] Hact Hm. destruct (shm_load_spec l shm Hn Hlen) as (rc & shm' & Hl & _ & Hkeep & _).
  exists rc, shm'. split; [done|]. apply (made_in_reflects _ (nSecId shm)); [|done].
  rewrite Hkeep. by apply of_option_Ok in Hact.
Qed.

(** C14. What a thread uses is the active configuration.  Its parameters were made of it; then
    the configuration was loaded, with and without success, each successful load in a
    later second than the one before, the parameters were checked, and they were used, any
    number of times in any order.  After a check that succeeds every set, data item, rule
    and group points into the active section and leads to the definition it was made of,
    there is one for each definition, and it has that definition's id and type or weight;
    and a load that comes then leaves it so, since it writes the other section. *)
Theorem kr_dym_reflects_active regcomp flex symbol set_cur shm0 os0 dyn0 os1 shm dyn
    regcomp' flex' symbol' set_cur' os dyn' os' :
  two_sections shm0 -> kr_dym_construct regcomp flex symbol set_cur shm0 os0 = Ok (Some dyn0, os1) ->
  rtc thread_step (shm0, dyn0) (shm, dyn) ->
  kr_dym_check regcomp' flex' symbol' set_cur' dyn shm os = Ok (0, dyn', os') ->
  exists sec, active shm = Ok sec /\ reflects shm sec dyn' /\
    forall l, exists rc shm', kr_shm_load l (Some shm) = Ok (rc, Some shm') /\ reflects shm' sec dyn'.
Proof.
  intros H2 Hc Hrun Hk. pose proof (thread_run_ok _ _ Hrun (thread_starts _ _ _ _ _ _ _ _ H2 Hc)) as H1.
  destruct (thread_checked _ _ _ _ _ _ _ _ _ H1 Hk) as (sec & Hact & Hm). exists sec. split; [done|].
  split; [apply (made_in_reflects _ (nSecId shm)); [by apply of_option_Ok in Hact|done]|].
  intros l. apply made_in_loaded; [by destruct H1|done|done].
Qed.

(** A configuration loaded again within the second of the load before is not noticed: the
    check of parameters made before compares the times only, succeeds and leaves them. *)
Theorem kr_dym_check_same_second regcomp flex symbol set_cur n sec0 shm sec dyn os :
  made_in n sec0 dyn -> active shm = Ok sec -> parts_times sec0 = parts_times sec ->
  kr_dym_check regcomp flex symbol set_cur dyn shm os = Ok (0, dyn, os).
Proof. apply dym_check_same. Qed.

(** Two loads overwrite what is in use: the second writes the section that was active before
    the first, where the parameters of a thread that has not checked them since point.  A
    message that a thread of a pool handles meanwhile is decided by definitions of both. *)
Theorem kr_shm_two_loads l1 l2 shm : two_sections shm -> loads_ok l1 = true -> loads_ok l2 = true ->
  exists rc1 shm1 rc2 shm2, kr_shm_load l1 (Some shm) = Ok (rc1, Some shm1) /\
    kr_shm_load l2 (Some shm1) = Ok (rc2, Some shm2) /\
    forall D (part : shm_section -> T_KRShm D) k,
      shm_def part shm2 (nSecId shm, k) = of_option OutOfBounds (shm_defs (part (loaded l2)) !! k).
Proof.
  intros [Hn H2] H1 Hl2. destruct (shm_load_spec l1 shm Hn H2) as (rc1 & shm1 & Hr1 & Hlen1 & _ & Hc1).
  rewrite H1 in Hc1. destruct Hc1 as (-> & Hn1 & _).
  destruct (shm_load_spec l2 shm1) as (rc2 & shm2 & Hr2 & _ & _ & Hc2); [lia|done|].
  rewrite Hl2 in Hc2. destruct Hc2 as (-> & Hn2 & Ha2). exists (1 - nSecId shm), shm1, (1 - nSecId shm1), shm2.
  do 2 (split; [done|]). intros D part k. unfold shm_def. cbn [fst snd].
  apply of_option_Ok in Ha2. rewrite Hn2, Hn1 in Ha2. replace (1 - (1 - nSecId shm)) with (nSecId shm) in Ha2 by lia.
  by rewrite Ha2.
Qed.

(** * Examples *)

(** A parser of the other format that makes a constant. *)
Definition example_parse (c : T_KRCalc) : M objs (Z * T_KRCalc) :=
  mret (0, mkCalc (calc_format c) (calc_string c) (Some (kr_calc_tree_new KR_CALCKIND_INT)) 0).
Definition example_cursor (id : Z) : set_cursor := mkCursor true [Some "7 "; Some "8"] true.
Definition example_section (time : Z) (datasrc : Z) : shm_section :=
  mkSection (mkShm [mkSetDef 1 "s" KR_TYPE_INT] time)
    (mkShm [mkSDIDef 5 KR_TYPE_INT "" datasrc 1 2 0 KR_LOC_ABSOLUTE KR_CALCFORMAT_FLEX "1"] time)
    (mkShm [] time) (mkShm [] time)
    (mkShm [mkGroupDef 1 KR_CALCFORMAT_FLEX "1" (mkShm [mkRuleDef 3 1 KR_CALCFORMAT_FLEX "1" 10] time)] time).
Definition example_shm (n : Z) : T_KRShareMem :=
  mkShareMem n 0 [example_section 100 1; example_section 200 2].
#[local] Abbreviation example_construct :=
  (kr_dym_construct (fun _ => true) example_parse (fun _ => false) example_cursor).
#[local] Abbreviation example_check :=
  (kr_dym_check (fun _ => true) example_parse (fun _ => false) example_cursor).
Definition example_dym : T_KRDynamicMem * objs :=
  match example_construct (example_shm 0) ∅ with
  | Ok (Some d, os) => (d, os)
  | _ => (mkDym None (mkItems ∅ 0) (mkItems ∅ 0) (mkItems ∅ 0) None, ∅)
  end.
(** A load makes the other section active, the parameters are used, and a second load
    overwrites the section they point into; then they are checked. *)
Definition example_loads (time datasrc : Z) : shm_loads :=
  let s := example_section time datasrc in
  mkLoads (0, stShmSet s) (0, stShmSDI s) (0, stShmDDI s) (0, stShmHDI s) (0, stShmGroup s) time.
Definition example_load (l : shm_loads) (shm : T_KRShareMem) : T_KRShareMem :=
  match kr_shm_load l (Some shm) with Ok (_, Some shm') => shm' | _ => shm end.
Definition example_shm1 : T_KRShareMem := example_load (example_loads 300 7) (example_shm 0).
Definition example_shm2 : T_KRShareMem := example_load (example_loads 400 8) example_shm1.
Definition example_used : T_KRDynamicMem :=
  match kr_dym_init example_dym.1 with Ok d => d | _ => example_dym.1 end.
Definition example_dym2 : T_KRDynamicMem * objs :=
  match example_check example_used example_shm2 example_dym.2 with
  | Ok (0, d, os) => (d, os)
  | _ => example_dym
  end.

Lemma kr_dym_reflects_active_witness :
  example_check example_used example_shm2 example_dym.2 = Ok (0, example_dym2.1, example_dym2.2) /\
  reflects example_shm2 (example_section 400 8) example_dym2.1.
Proof.
  assert (Hk : example_check example_used example_shm2 example_dym.2 = Ok (0, example_dym2.1, example_dym2.2))
    by (vm_compute; reflexivity).
  split; [exact Hk|].
  destruct (kr_dym_reflects_active (fun _ => true) example_parse (fun _ => false) example_cursor (example_shm 0) ∅
    example_dym.1 example_dym.2 example_shm2 example_used (fun _ => true) example_parse (fun _ => false)
    example_cursor example_dym.2 example_dym2.1 example_dym2.2)
    as (sec & Hact & Hr & _); [split; [by left|reflexivity]|vm_compute; reflexivity| |exact Hk|].
  - eapply rtc_l; [apply (step_load (example_loads 300 7) _ 1 example_shm1)|].
    + reflexivity.
    + intros sec _ [= <-]. repeat constructor.
    + eapply rtc_l; [apply (step_use _ _ example_used), dym_init_used; vm_compute; reflexivity|].
      apply rtc_once, (step_load (example_loads 400 8) _ 0 example_shm2); [reflexivity|].
      intros sec _ [= <-]. repeat constructor.
  - vm_compute in Hact. injection Hact as <-. exact Hr.
Defined.

Lemma kr_shm_two_loads_witness :
  sdi_def (example_shm 0) (0, 0%nat) = Ok (mkSDIDef 5 KR_TYPE_INT "" 1 1 2 0 KR_LOC_ABSOLUTE KR_CALCFORMAT_FLEX "1") /\
  sdi_def example_shm2 (0, 0%nat) = Ok (mkSDIDef 5 KR_TYPE_INT "" 8 1 2 0 KR_LOC_ABSOLUTE KR_CALCFORMAT_FLEX "1").
Proof.
  split; [reflexivity|].
  destruct (kr_shm_two_loads (example_loads 300 7) (example_loads 400 8) (example_shm 0))
    as (rc1 & shm1 & rc2 & shm2 & H1 & H2 & Hdef); [split; [by left|reflexivity]|reflexivity..|].
  assert (E1 : shm1 = example_shm1) by (vm_compute in H1; injection H1 as _ <-; reflexivity). subst shm1.
  assert (E2 : shm2 = example_shm2) by (vm_compute in H2; injection H2 as _ <-; reflexivity). subst shm2.
  exact (Hdef _ stShmSDI 0%nat).
Defined.

(** The set 1 is in the table and in the calculator of the item 5, as an evaluation
    leaves it. *)
Definition sharing_dym : T_KRDynamicMem :=
  mkDym (Some (mkItems {[1 := mkSet (0, 0%nat) 1 KR_TYPE_INT 1%positive]} 0))
    (mkItems {[5 := mkSDI (0, 0%nat) 5
        (Some (mkCalc KR_CALCFORMAT_FLEX "C_2 @@ P_1" (Some (Tree
           (mkNode KR_CALCKIND_LOGIC (Some KR_CALCOP_BL) 0 KR_TYPE_BOOL KR_VALUE_UNSET KRZero)
           [kr_calc_tree_new KR_CALCKIND_CID;
            Tree (mkNode KR_CALCKIND_SET None 1 KR_TYPE_POINTER KR_VALUE_SETED (KRPointer (Some 1%positive))) []])) 0))
        KR_TYPE_INT None None KR_VALUE_UNSET KRZero ∅]} 0)
    (mkItems ∅ 0) (mkItems ∅ 0) (Some (mkGroupList 0 [] 0)).

Lemma kr_dym_destruct_double_free_witness :
  shares_set sharing_dym 1%positive /\
  exists f, kr_dym_destruct sharing_dym {[1%positive := ORegex ""]} = Fault f.
Proof.
  assert (H : shares_set sharing_dym 1%positive).
  { split.
    - eexists _, 1, _. split; [reflexivity|]. by split.
    - left. eexists 5, _. by split. }
  split; [exact H|]. exact (kr_dym_destruct_double_free sharing_dym 1%positive _ H).
Defined.

Lemma kr_shm_load_double_buffer_witness :
  exists rc shm', kr_shm_load (mkLoads (0, mkShm [] 1) (0, mkShm [] 1) (0, mkShm [] 1) (0, mkShm [] 1)
      (-1, mkShm [] 1) 1) (Some (example_shm 1)) = Ok (rc, Some shm') /\
    rc = -1 /\ active shm' = active (example_shm 1).
Proof.
  destruct (kr_shm_load_double_buffer (mkLoads (0, mkShm [] 1) (0, mkShm [] 1) (0, mkShm [] 1)
    (0, mkShm [] 1) (-1, mkShm [] 1) 1) (example_shm 1)) as (rc & shm' & H & _ & _ & Hrc & _ & Ha).
  - by right.
  - reflexivity.
  - by exists rc, shm'.
Defined.
