(* ===== verification/KrShm.v ===== *)
(** The loads of the definitions from the configuration database
    (krparam/kr_shm_set.c, kr_shm_sdi.c, kr_shm_ddi.c, kr_shm_hdi.c, kr_shm_rule.c,
    kr_shm_group.c), the sections they fill (kr_shm.c) and their descriptions.

    A definition is what the code keeps of it: numbers and arrays of characters, which
    [strncpy] fills and may leave without a null byte.  KrDym has the definitions as its
    thread reads them; [set_view] to [group_view] read them so, and [None] is an array
    without an end or a letter that is no type.

    The cursors are generated code over the configuration database; they are arguments:
    what opening, each fetch and closing give, and the time when the last fetch is done.
    The parts of a row are C strings. *)

From S2P Require Import Prelude KrString KrHashtable KrTypes KrHashset KrJson KrCalcTree KrCalcJson KrDb KrDym.
From Stdlib Require Import Ascii String.
Local Open Scope Z_scope.
#[local] Notation length := List.length.

(** * Arrays of characters *)

Definition strncpy (s : string) (n : nat) : list ascii :=
  let l := list_ascii_of_string s in take n l ++ replicate (n - length l) zero.

(** The string an array holds. *)
Fixpoint c_string (l : list ascii) : res string :=
  match l with
  | [] => Fault OutOfBounds
  | c :: l' => if bool_decide (c = zero) then Ok EmptyString else s ← c_string l'; Ok (String c s)
  end.

(** What every load does with a text of a row. *)
Definition text (s : string) (n : nat) : list ascii := strncpy (kr_string_rtrim s) n.

(** * Cursors *)

Definition KR_DBOK : Z := 0.
Definition KR_DBOKWITHINFO : Z := 1.
Definition KR_DBNOTFOUND : Z := 100.

Record cursor (R : Type) := mkCur {
  cur_open : Z; cur_fetch : nat -> Z * R; cur_close : Z; cur_time : Z
}.
Arguments mkCur {R}.
Arguments cur_open {R}.
Arguments cur_fetch {R}.
Arguments cur_close {R}.
Arguments cur_time {R}.

(** The definitions of one kind: their number, their array, the time of the load. *)
Record shm (D : Type) := mkDefs { lDefCnt : Z; stShmDef : list D; loadTime : Z }.
Arguments mkDefs {D}.
Arguments lDefCnt {D}.
Arguments stShmDef {D}.
Arguments loadTime {D}.

Definition N_MAX_SET_NUM : Z := 500.
Definition N_MAX_SDI_NUM : Z := 500.
Definition N_MAX_DDI_NUM : Z := 500.
Definition N_MAX_HDI_NUM : Z := 500.
Definition N_MAX_RULE_NUM : Z := 20.
Definition N_MAX_GROUP_NUM : Z := 20.

(** * The loop of a load

    [fill] makes the definition of a row, and tells whether the load goes on. *)

Section Load.
Context {R D : Type} (fill : R -> res (D * bool)) (most : Z) (cur : cursor R).

Fixpoint fetch_loop (fuel : nat) (iCnt : Z) (ptShm : shm D) : res (Z * shm D) :=
  match fuel with
  | O => Fault NoFuel
  | S fuel' =>
      let '(iResult, row) := cur_fetch cur (Z.to_nat iCnt) in
      if negb (iResult =? KR_DBNOTFOUND) && negb (iResult =? KR_DBOK) && negb (iResult =? KR_DBOKWITHINFO)
      then Ok (-1, ptShm)
      else if iResult =? KR_DBNOTFOUND then Ok (0, ptShm)
      else if most <=? iCnt then Ok (-1, ptShm)
      else
        '(def, ok) ← fill row;
        _ ← of_option OutOfBounds (stShmDef ptShm !! Z.to_nat iCnt);
        let defs := <[Z.to_nat iCnt := def]> (stShmDef ptShm) in
        if ok : bool
        then fetch_loop fuel' (iCnt + 1) (mkDefs (lDefCnt ptShm + 1) defs (loadTime ptShm))
        else Ok (-1, mkDefs (lDefCnt ptShm) defs (loadTime ptShm))
  end.

(** At most one fetch more than there is room for. *)
Definition load (ptShm : shm D) : res (Z * shm D) :=
  if negb (cur_open cur =? KR_DBOK) then Ok (-1, ptShm)
  else
    '(nRet, ptShm) ← fetch_loop (S (Z.to_nat most)) 0 ptShm;
    let ptShm := mkDefs (lDefCnt ptShm) (stShmDef ptShm) (cur_time cur) in
    if negb (cur_close cur =? KR_DBOK) then Ok (-1, ptShm) else Ok (nRet, ptShm).
End Load.

(** * Sets (kr_shm_set.c) *)

Module Set_.
Record T_SetDefCur := mkRow {
  lOutSetId : Z; caOutSetName : string; caOutSetDesc : string; caOutSetUsage : string;
  caOutSetType : string; caOutElementType : string; lOutElementLength : Z
}.
Record T_KRShmSetDef := mkDef {
  lSetId : Z; caSetName : list ascii; caSetDesc : list ascii; caSetUsage : list ascii;
  caSetType : list ascii; caElementType : list ascii; lElementLength : Z
}.
Definition set_zero_def : T_KRShmSetDef :=
  mkDef 0 (replicate 31 zero) (replicate 101 zero) (replicate 3 zero) (replicate 2 zero) (replicate 2 zero) 0.
Definition set_fill (r : T_SetDefCur) : T_KRShmSetDef :=
  mkDef (lOutSetId r) (text (caOutSetName r) 31) (text (caOutSetDesc r) 101) (text (caOutSetUsage r) 3)
    (text (caOutSetType r) 2) (text (caOutElementType r) 2) (lOutElementLength r).
Definition kr_shm_set_load (cur : cursor T_SetDefCur) (ptShmSet : shm T_KRShmSetDef) : res (Z * shm T_KRShmSetDef) :=
  load (fun r => Ok (set_fill r, true)) N_MAX_SET_NUM cur ptShmSet.
Definition kr_shm_set_info (d : T_KRShmSetDef) : res cJSON :=
  let set := cJSON_AddNumberToObject cJSON_CreateObject "id" (d_of_Z (lSetId d)) in
  s ← c_string (caSetName d); let set := cJSON_AddStringToObject set "name" s in
  s ← c_string (caSetDesc d); let set := cJSON_AddStringToObject set "desc" s in
  s ← c_string (caSetUsage d); let set := cJSON_AddStringToObject set "usage" s in
  s ← c_string (caSetType d); let set := cJSON_AddStringToObject set "type" s in
  s ← c_string (caElementType d); let set := cJSON_AddStringToObject set "ele_type" s in
  Ok (cJSON_AddNumberToObject set "ele_length" (d_of_Z (lElementLength d))).
End Set_.

(** * Static data items (kr_shm_sdi.c) *)

Module Sdi.
Record T_SdiCur := mkRow {
  lOutSdiId : Z; caOutSdiName : string; caOutSdiDesc : string; caOutSdiType : string;
  caOutSdiValueType : string; caOutSdiAggrFunc : string; caOutSdiFreeFunc : string;
  lOutStatisticsDatasrc : Z; lOutStatisticsIndex : Z; lOutStatisticsField : Z;
  lOutStatisticsLocation : Z; caOutLocationProperty : string; caOutSdiFilterFormat : string;
  caOutSdiFilterString : string
}.
Record T_KRShmSDIDef := mkDef {
  lSdiId : Z; caSdiName : list ascii; caSdiDesc : list ascii; caSdiType : list ascii;
  caSdiValueType : list ascii; caSdiAggrFunc : list ascii; caSdiFreeFunc : list ascii;
  lStatisticsDatasrc : Z; lStatisticsIndex : Z; lStatisticsField : Z; lStatisticsLocation : Z;
  caLocationProperty : list ascii; caSdiFilterFormat : list ascii; caSdiFilterString : list ascii
}.
Definition sdi_zero_def : T_KRShmSDIDef :=
  mkDef 0 (replicate 31 zero) (replicate 101 zero) (replicate 2 zero) (replicate 2 zero) (replicate 51 zero)
    (replicate 51 zero) 0 0 0 0 (replicate 2 zero) (replicate 2 zero) (replicate 501 zero).
Definition sdi_fill (r : T_SdiCur) : T_KRShmSDIDef :=
  mkDef (lOutSdiId r) (text (caOutSdiName r) 31) (text (caOutSdiDesc r) 101) (text (caOutSdiType r) 2)
    (text (caOutSdiValueType r) 2) (text (caOutSdiAggrFunc r) 51) (text (caOutSdiFreeFunc r) 51)
    (lOutStatisticsDatasrc r) (lOutStatisticsIndex r) (lOutStatisticsField r) (lOutStatisticsLocation r)
    (text (caOutLocationProperty r) 2) (text (caOutSdiFilterFormat r) 2) (text (caOutSdiFilterString r) 501).
Definition kr_shm_sdi_load (cur : cursor T_SdiCur) (ptShmSDI : shm T_KRShmSDIDef) : res (Z * shm T_KRShmSDIDef) :=
  load (fun r => Ok (sdi_fill r, true)) N_MAX_SDI_NUM cur ptShmSDI.
Definition kr_shm_sdi_info (d : T_KRShmSDIDef) : res cJSON :=
  let sdi := cJSON_AddNumberToObject cJSON_CreateObject "id" (d_of_Z (lSdiId d)) in
  s ← c_string (caSdiName d); let sdi := cJSON_AddStringToObject sdi "name" s in
  s ← c_string (caSdiDesc d); let sdi := cJSON_AddStringToObject sdi "desc" s in
  s ← c_string (caSdiType d); let sdi := cJSON_AddStringToObject sdi "type" s in
  s ← c_string (caSdiValueType d); let sdi := cJSON_AddStringToObject sdi "value_type" s in
  s ← c_string (caSdiAggrFunc d); let sdi := cJSON_AddStringToObject sdi "aggr_func" s in
  let sdi := cJSON_AddNumberToObject sdi "datasrc" (d_of_Z (lStatisticsDatasrc d)) in
  let sdi := cJSON_AddNumberToObject sdi "index" (d_of_Z (lStatisticsIndex d)) in
  let sdi := cJSON_AddNumberToObject sdi "field" (d_of_Z (lStatisticsField d)) in
  let sdi := cJSON_AddNumberToObject sdi "location" (d_of_Z (lStatisticsLocation d)) in
  s ← c_string (caLocationProperty d); let sdi := cJSON_AddStringToObject sdi "location_property" s in
  s ← c_string (caSdiFilterFormat d); let sdi := cJSON_AddStringToObject sdi "filter_format" s in
  s ← c_string (caSdiFilterString d); Ok (cJSON_AddStringToObject sdi "filter_string" s).
End Sdi.

(** * Dynamic data items (kr_shm_ddi.c) *)

Module Ddi.
Record T_DdiCur := mkRow {
  lOutDdiId : Z; caOutDdiName : string; caOutDdiDesc : string; caOutDdiType : string;
  caOutDdiValueType : string; caOutDdiAggrFunc : string; caOutDdiFreeFunc : string;
  lOutStatisticsDatasrc : Z; lOutStatisticsIndex : Z; lOutStatisticsField : Z;
  caOutStatisticsType : string; lOutStatisticsValue : Z; lOutStatisticsCount : Z;
  caOutStatisticsMethod : string; caOutDdiFilterFormat : string; caOutDdiFilterString : string
}.
Record T_KRShmDDIDef := mkDef {
  lDdiId : Z; caDdiName : list ascii; caDdiDesc : list ascii; caDdiType : list ascii;
  caDdiValueType : list ascii; caDdiAggrFunc : list ascii; caDdiFreeFunc : list ascii;
  lStatisticsDatasrc : Z; lStatisticsIndex : Z; lStatisticsField : Z; caStatisticsType : list ascii;
  lStatisticsValue : Z; lStatisticsCount : Z; caStatisticsMethod : list ascii;
  caDdiFilterFormat : list ascii; caDdiFilterString : list ascii
}.
Definition ddi_zero_def : T_KRShmDDIDef :=
  mkDef 0 (replicate 31 zero) (replicate 101 zero) (replicate 2 zero) (replicate 2 zero) (replicate 51 zero)
    (replicate 51 zero) 0 0 0 (replicate 2 zero) 0 0 (replicate 2 zero) (replicate 2 zero) (replicate 501 zero).
Definition ddi_fill (r : T_DdiCur) : T_KRShmDDIDef :=
  mkDef (lOutDdiId r) (text (caOutDdiName r) 31) (text (caOutDdiDesc r) 101) (text (caOutDdiType r) 2)
    (text (caOutDdiValueType r) 2) (text (caOutDdiAggrFunc r) 51) (text (caOutDdiFreeFunc r) 51)
    (lOutStatisticsDatasrc r) (lOutStatisticsIndex r) (lOutStatisticsField r) (text (caOutStatisticsType r) 2)
    (lOutStatisticsValue r) (lOutStatisticsCount r) (text (caOutStatisticsMethod r) 2)
    (text (caOutDdiFilterFormat r) 2) (text (caOutDdiFilterString r) 501).
Definition kr_shm_ddi_load (cur : cursor T_DdiCur) (ptShmDDI : shm T_KRShmDDIDef) : res (Z * shm T_KRShmDDIDef) :=
  load (fun r => Ok (ddi_fill r, true)) N_MAX_DDI_NUM cur ptShmDDI.
Definition kr_shm_ddi_info (d : T_KRShmDDIDef) : res cJSON :=
  let ddi := cJSON_AddNumberToObject cJSON_CreateObject "id" (d_of_Z (lDdiId d)) in
  s ← c_string (caDdiName d); let ddi := cJSON_AddStringToObject ddi "name" s in
  s ← c_string (caDdiDesc d); let ddi := cJSON_AddStringToObject ddi "desc" s in
  s ← c_string (caDdiType d); let ddi := cJSON_AddStringToObject ddi "type" s in
  s ← c_string (caDdiValueType d); let ddi := cJSON_AddStringToObject ddi "value_type" s in
  s ← c_string (caDdiAggrFunc d); let ddi := cJSON_AddStringToObject ddi "aggr_func" s in
  let ddi := cJSON_AddNumberToObject ddi "datasrc" (d_of_Z (lStatisticsDatasrc d)) in
  let ddi := cJSON_AddNumberToObject ddi "index" (d_of_Z (lStatisticsIndex d)) in
  let ddi := cJSON_AddNumberToObject ddi "field" (d_of_Z (lStatisticsField d)) in
  s ← c_string (caStatisticsType d); let ddi := cJSON_AddStringToObject ddi "statictics_type" s in
  let ddi := cJSON_AddNumberToObject ddi "statictics_value" (d_of_Z (lStatisticsValue d)) in
  let ddi := cJSON_AddNumberToObject ddi "statictics_count" (d_of_Z (lStatisticsCount d)) in
  s ← c_string (caStatisticsMethod d); let ddi := cJSON_AddStringToObject ddi "statictics_method" s in
  s ← c_string (caDdiFilterFormat d); let ddi := cJSON_AddStringToObject ddi "filter_format" s in
  s ← c_string (caDdiFilterString d); Ok (cJSON_AddStringToObject ddi "filter_string" s).
End Ddi.

(** * Historical data items (kr_shm_hdi.c) *)

Module Hdi.
Record T_HdiCur := mkRow {
  lOutHdiId : Z; caOutHdiName : string; caOutHdiDesc : string; caOutHdiType : string;
  caOutHdiValueType : string; caOutHdiAggrFunc : string; caOutHdiFreeFunc : string;
  lOutStatisticsDatasrc : Z; lOutStatisticsIndex : Z; caOutStatisticsType : string;
  lOutStatisticsValue : Z; caOutStatisticsMethod : string
}.
Record T_KRShmHDIDef := mkDef {
  lHdiId : Z; caHdiName : list ascii; caHdiDesc : list ascii; caHdiType : list ascii;
  caHdiValueType : list ascii; caHdiAggrFunc : list ascii; caHdiFreeFunc : list ascii;
  lStatisticsDatasrc : Z; lStatisticsIndex : Z; caStatisticsType : list ascii; lStatisticsValue : Z;
  caStatisticsMethod : list ascii
}.
Definition hdi_zero_def : T_KRShmHDIDef :=
  mkDef 0 (replicate 31 zero) (replicate 101 zero) (replicate 2 zero) (replicate 2 zero) (replicate 51 zero)
    (replicate 51 zero) 0 0 (replicate 2 zero) 0 (replicate 2 zero).
Definition hdi_fill (r : T_HdiCur) : T_KRShmHDIDef :=
  mkDef (lOutHdiId r) (text (caOutHdiName r) 31) (text (caOutHdiDesc r) 101) (text (caOutHdiType r) 2)
    (text (caOutHdiValueType r) 2) (text (caOutHdiAggrFunc r) 51) (text (caOutHdiFreeFunc r) 51)
    (lOutStatisticsDatasrc r) (lOutStatisticsIndex r) (text (caOutStatisticsType r) 2) (lOutStatisticsValue r)
    (text (caOutStatisticsMethod r) 2).
Definition kr_shm_hdi_load (cur : cursor T_HdiCur) (ptShmHDI : shm T_KRShmHDIDef) : res (Z * shm T_KRShmHDIDef) :=
  load (fun r => Ok (hdi_fill r, true)) N_MAX_HDI_NUM cur ptShmHDI.
Definition kr_shm_hdi_info (d : T_KRShmHDIDef) : res cJSON :=
  let hdi := cJSON_AddNumberToObject cJSON_CreateObject "id" (d_of_Z (lHdiId d)) in
  s ← c_string (caHdiName d); let hdi := cJSON_AddStringToObject hdi "name" s in
  s ← c_string (caHdiDesc d); let hdi := cJSON_AddStringToObject hdi "desc" s in
  s ← c_string (caHdiType d); let hdi := cJSON_AddStringToObject hdi "type" s in
  s ← c_string (caHdiValueType d); let hdi := cJSON_AddStringToObject hdi "value_type" s in
  s ← c_string (caHdiAggrFunc d); let hdi := cJSON_AddStringToObject hdi "aggr_func" s in
  let hdi := cJSON_AddNumberToObject hdi "datasrc" (d_of_Z (lStatisticsDatasrc d)) in
  let hdi := cJSON_AddNumberToObject hdi "index" (d_of_Z (lStatisticsIndex d)) in
  s ← c_string (caStatisticsType d); let hdi := cJSON_AddStringToObject hdi "statictics_type" s in
  let hdi := cJSON_AddNumberToObject hdi "statictics_value" (d_of_Z (lStatisticsValue d)) in
  s ← c_string (caStatisticsMethod d); Ok (cJSON_AddStringToObject hdi "statictics_method" s).
End Hdi.

(** * Rules (kr_shm_rule.c) *)

Module Rule.
Record T_RuleCur := mkRow {
  lOutRuleId : Z; caOutRuleName : string; caOutRuleDesc : string; lOutRuleDatasrc : Z;
  caOutRuleCalcFormat : string; caOutRuleCalcString : string; caOutRuleType : string;
  caOutRuleFunc : string; lOutRuleWeight : Z
}.
Record T_KRShmRuleDef := mkDef {
  lRuleId : Z; caRuleName : list ascii; caRuleDesc : list ascii; lRuleDatasrc : Z;
  caRuleCalcFormat : list ascii; caRuleCalcString : list ascii; caRuleType : list ascii;
  caRuleFunc : list ascii; lRuleWeight : Z
}.
Definition rule_zero_def : T_KRShmRuleDef :=
  mkDef 0 (replicate 31 zero) (replicate 101 zero) 0 (replicate 2 zero) (replicate 501 zero) (replicate 2 zero)
    (replicate 51 zero) 0.
Definition rule_fill (r : T_RuleCur) : T_KRShmRuleDef :=
  mkDef (lOutRuleId r) (text (caOutRuleName r) 31) (text (caOutRuleDesc r) 101) (lOutRuleDatasrc r)
    (text (caOutRuleCalcFormat r) 2) (text (caOutRuleCalcString r) 501) (text (caOutRuleType r) 2)
    (text (caOutRuleFunc r) 51) (lOutRuleWeight r).
(** The cursor of a group. *)
Definition kr_shm_rule_load (curs : Z -> cursor T_RuleCur) (ptShmRule : shm T_KRShmRuleDef) (lGroupId : Z)
    : res (Z * shm T_KRShmRuleDef) :=
  load (fun r => Ok (rule_fill r, true)) N_MAX_RULE_NUM (curs lGroupId) ptShmRule.
Definition kr_shm_rule_info (d : T_KRShmRuleDef) : res cJSON :=
  let rule := cJSON_AddNumberToObject cJSON_CreateObject "id" (d_of_Z (lRuleId d)) in
  s ← c_string (caRuleName d); let rule := cJSON_AddStringToObject rule "name" s in
  s ← c_string (caRuleDesc d); let rule := cJSON_AddStringToObject rule "desc" s in
  let rule := cJSON_AddNumberToObject rule "datasrc" (d_of_Z (lRuleDatasrc d)) in
  s ← c_string (caRuleType d); let rule := cJSON_AddStringToObject rule "type" s in
  s ← c_string (caRuleFunc d); let rule := cJSON_AddStringToObject rule "func" s in
  let rule := cJSON_AddNumberToObject rule "weight" (d_of_Z (lRuleWeight d)) in
  s ← c_string (caRuleCalcFormat d); let rule := cJSON_AddStringToObject rule "calc_format" s in
  s ← c_string (caRuleCalcString d); Ok (cJSON_AddStringToObject rule "calc_string" s).
End Rule.

(** The array of a kind after [memset]. *)
Definition zero_shm {D} (most : Z) (d : D) : shm D := mkDefs 0 (replicate (Z.to_nat most) d) 0.

(** * Groups (kr_shm_group.c) *)

Module Group.
Record T_GroupCur := mkRow {
  lOutGroupId : Z; caOutGroupName : string; caOutGroupDesc : string; caOutGroupCalcFormat : string;
  caOutGroupCalcString : string; caOutGroupFunc : string; lOutGroupBlockLeft : Z;
  lOutGroupBlockRight : Z; lOutGroupAlertLeft : Z; lOutGroupAlertRight : Z
}.
Record T_KRShmGroupDef := mkDef {
  lGroupId : Z; caGroupName : list ascii; caGroupDesc : list ascii; caGroupCalcFormat : list ascii;
  caGroupCalcString : list ascii; caGroupFunc : list ascii; lGroupBlockLeft : Z; lGroupBlockRight : Z;
  lGroupAlertLeft : Z; lGroupAlertRight : Z; stShmRule : shm Rule.T_KRShmRuleDef
}.
Definition zero_rules : shm Rule.T_KRShmRuleDef := zero_shm N_MAX_RULE_NUM Rule.rule_zero_def.
Definition group_zero_def : T_KRShmGroupDef :=
  mkDef 0 (replicate 31 zero) (replicate 101 zero) (replicate 2 zero) (replicate 501 zero) (replicate 51 zero)
    0 0 0 0 zero_rules.
Definition with_rules (r : T_GroupCur) (rules : shm Rule.T_KRShmRuleDef) : T_KRShmGroupDef :=
  mkDef (lOutGroupId r) (text (caOutGroupName r) 31) (text (caOutGroupDesc r) 101) (text (caOutGroupCalcFormat r) 2)
    (text (caOutGroupCalcString r) 501) (text (caOutGroupFunc r) 51) (lOutGroupBlockLeft r) (lOutGroupBlockRight r)
    (lOutGroupAlertLeft r) (lOutGroupAlertRight r) rules.
(** The load stops when the rules of a group cannot be loaded. *)
Definition group_fill (curs : Z -> cursor Rule.T_RuleCur) (r : T_GroupCur) : res (T_KRShmGroupDef * bool) :=
  '(rc, rules) ← Rule.kr_shm_rule_load curs zero_rules (lOutGroupId r);
  Ok (with_rules r rules, rc =? 0).
Definition kr_shm_group_load (curs : Z -> cursor Rule.T_RuleCur) (cur : cursor T_GroupCur) (ptShmGroup : shm T_KRShmGroupDef)
    : res (Z * shm T_KRShmGroupDef) :=
  load (group_fill curs) N_MAX_GROUP_NUM cur ptShmGroup.
Definition kr_shm_group_info (d : T_KRShmGroupDef) : res cJSON :=
  let group := cJSON_AddNumberToObject cJSON_CreateObject "id" (d_of_Z (lGroupId d)) in
  s ← c_string (caGroupName d); let group := cJSON_AddStringToObject group "name" s in
  s ← c_string (caGroupDesc d); let group := cJSON_AddStringToObject group "desc" s in
  s ← c_string (caGroupFunc d); let group := cJSON_AddStringToObject group "func" s in
  s ← c_string (caGroupCalcFormat d); let group := cJSON_AddStringToObject group "calc_format" s in
  s ← c_string (caGroupCalcString d); Ok (cJSON_AddStringToObject group "calc_string" s).
End Group.

(** * The sections (kr_shm.c) *)

Record section := mkSec {
  stShmSet : shm Set_.T_KRShmSetDef; stShmSDI : shm Sdi.T_KRShmSDIDef; stShmDDI : shm Ddi.T_KRShmDDIDef;
  stShmHDI : shm Hdi.T_KRShmHDIDef; stShmGroup : shm Group.T_KRShmGroupDef
}.
Record T_KRShareMem := mkMem { nSecId : Z; tLastLoadTime : Z; sections : list section }.

(** What the configuration database answers during one load, and its time. *)
Record config := mkConfig {
  dbsSetDefCur : cursor Set_.T_SetDefCur; dbsSdiCur : cursor Sdi.T_SdiCur; dbsDdiCur : cursor Ddi.T_DdiCur;
  dbsHdiCur : cursor Hdi.T_HdiCur; dbsRuleCur : Z -> cursor Rule.T_RuleCur; dbsGroupCur : cursor Group.T_GroupCur;
  now : Z
}.

Definition kr_shm_switch (m : T_KRShareMem) : Z * T_KRShareMem :=
  let n := Z.rem (nSecId m + 1) N_MAX_SEC in (n, mkMem n (tLastLoadTime m) (sections m)).

(** One kind: [memset], the load, and whether it succeeded. *)
Definition load_kind {D} (most : Z) (d : D) (kr_load : shm D -> res (Z * shm D)) : res (Z * shm D) :=
  kr_load (zero_shm most d).
Definition put (m : T_KRShareMem) (n : Z) (s : section) : T_KRShareMem :=
  mkMem (nSecId m) (tLastLoadTime m) (<[Z.to_nat n := s]> (sections m)).

Definition kr_shm_load (db : config) (m : option T_KRShareMem) : res (Z * option T_KRShareMem) :=
  match m with
  | None => Ok (-1, None)
  | Some m =>
      let back := Z.rem (nSecId m + 1) N_MAX_SEC in
      s ← of_option OutOfBounds (sections m !! Z.to_nat back);
      '(rc, x) ← load_kind N_MAX_SET_NUM Set_.set_zero_def (Set_.kr_shm_set_load (dbsSetDefCur db));
      let s := mkSec x (stShmSDI s) (stShmDDI s) (stShmHDI s) (stShmGroup s) in
      if negb (rc =? 0) then Ok (-1, Some (put m back s)) else
      '(rc, x) ← load_kind N_MAX_SDI_NUM Sdi.sdi_zero_def (Sdi.kr_shm_sdi_load (dbsSdiCur db));
      let s := mkSec (stShmSet s) x (stShmDDI s) (stShmHDI s) (stShmGroup s) in
      if negb (rc =? 0) then Ok (-1, Some (put m back s)) else
      '(rc, x) ← load_kind N_MAX_DDI_NUM Ddi.ddi_zero_def (Ddi.kr_shm_ddi_load (dbsDdiCur db));
      let s := mkSec (stShmSet s) (stShmSDI s) x (stShmHDI s) (stShmGroup s) in
      if negb (rc =? 0) then Ok (-1, Some (put m back s)) else
      '(rc, x) ← load_kind N_MAX_HDI_NUM Hdi.hdi_zero_def (Hdi.kr_shm_hdi_load (dbsHdiCur db));
      let s := mkSec (stShmSet s) (stShmSDI s) (stShmDDI s) x (stShmGroup s) in
      if negb (rc =? 0) then Ok (-1, Some (put m back s)) else
      '(rc, x) ← load_kind N_MAX_GROUP_NUM Group.group_zero_def (Group.kr_shm_group_load (dbsRuleCur db) (dbsGroupCur db));
      let s := mkSec (stShmSet s) (stShmSDI s) (stShmDDI s) (stShmHDI s) x in
      if negb (rc =? 0) then Ok (-1, Some (put m back s)) else
      let '(n, m) := kr_shm_switch (mkMem (nSecId m) (now db) (sections (put m back s))) in
      Ok (n, Some m)
  end.

Definition zero_section : section :=
  mkSec (zero_shm N_MAX_SET_NUM Set_.set_zero_def) (zero_shm N_MAX_SDI_NUM Sdi.sdi_zero_def) (zero_shm N_MAX_DDI_NUM Ddi.ddi_zero_def)
    (zero_shm N_MAX_HDI_NUM Hdi.hdi_zero_def) (zero_shm N_MAX_GROUP_NUM Group.group_zero_def).
Definition kr_shm_create (db : config) : res (option T_KRShareMem) :=
  '(rc, m) ← kr_shm_load db (Some (mkMem 0 0 [zero_section; zero_section]));
  Ok (if rc <? 0 then None else m).

Definition kr_shm_info (m : T_KRShareMem) : res cJSON :=
  s ← of_option OutOfBounds (sections m !! Z.to_nat (nSecId m));
  let j := cJSON_AddNumberToObject cJSON_CreateObject "current_secid" (d_of_Z (nSecId m)) in
  let j := cJSON_AddNumberToObject j "set_load_time" (d_of_Z (loadTime (stShmSet s))) in
  let j := cJSON_AddNumberToObject j "sdi_load_time" (d_of_Z (loadTime (stShmSDI s))) in
  let j := cJSON_AddNumberToObject j "ddi_load_time" (d_of_Z (loadTime (stShmDDI s))) in
  let j := cJSON_AddNumberToObject j "hdi_load_time" (d_of_Z (loadTime (stShmHDI s))) in
  Ok (cJSON_AddNumberToObject j "group_load_time" (d_of_Z (loadTime (stShmGroup s)))).

(** * Definitions as a thread reads them *)

Definition read_text (l : list ascii) : option string :=
  match c_string l with Ok s => Some s | Fault _ => None end.
Definition first_letter (l : list ascii) : ascii := default zero (head l).

(** The letters of kr_types.h, kr_calc.h and krdata. *)
Definition type_letter (c : ascii) : option E_KRType :=
  if bool_decide (c = "B"%char) then Some KR_TYPE_BOOL
  else if bool_decide (c = "C"%char) then Some KR_TYPE_CHAR
  else if bool_decide (c = "I"%char) then Some KR_TYPE_INT
  else if bool_decide (c = "L"%char) then Some KR_TYPE_LONG
  else if bool_decide (c = "D"%char) then Some KR_TYPE_DOUBLE
  else if bool_decide (c = "S"%char) then Some KR_TYPE_STRING
  else if bool_decide (c = "P"%char) then Some KR_TYPE_POINTER
  else if bool_decide (c = "U"%char) then Some KR_TYPE_UNKNOWN
  else None.
Definition format_letter (c : ascii) : E_KRCalcFormat :=
  if bool_decide (c = "F"%char) then KR_CALCFORMAT_FLEX
  else if bool_decide (c = "J"%char) then KR_CALCFORMAT_JSON else KR_CALCFORMAT_OTHER.
Definition location_letter (c : ascii) : E_KRLocProp :=
  if bool_decide (c = "0"%char) then KR_LOC_ABSOLUTE
  else if bool_decide (c = "1"%char) then KR_LOC_RELATIVE else KR_LOC_OTHER.
Definition ddi_letter (c : ascii) : E_KRDDIStatisticsType :=
  if bool_decide (c = "I"%char) then KR_DDI_STATISTICS_INCLUDE
  else if bool_decide (c = "E"%char) then KR_DDI_STATISTICS_EXCLUDE else KR_DDI_STATISTICS_OTHER.
Definition method_letter (c : ascii) : E_KRDDIMethod :=
  if bool_decide (c = "0"%char) then KR_DDI_METHOD_SUM
  else if bool_decide (c = "1"%char) then KR_DDI_METHOD_MIN
  else if bool_decide (c = "2"%char) then KR_DDI_METHOD_MAX
  else if bool_decide (c = "3"%char) then KR_DDI_METHOD_COUNT
  else if bool_decide (c = "4"%char) then KR_DDI_METHOD_CON_INC
  else if bool_decide (c = "5"%char) then KR_DDI_METHOD_CON_DEC
  else if bool_decide (c = "6"%char) then KR_DDI_METHOD_CNT_DIS else KR_DDI_METHOD_OTHER.
Definition hdi_letter (c : ascii) : E_KRHDIStatisticsType :=
  if bool_decide (c = "0"%char) then KR_HDI_STATISTICS_DAY
  else if bool_decide (c = "1"%char) then KR_HDI_STATISTICS_MONTH
  else if bool_decide (c = "2"%char) then KR_HDI_STATISTICS_FLAG else KR_HDI_STATISTICS_OTHER.

Definition set_view (d : Set_.T_KRShmSetDef) : option KrDym.T_KRShmSetDef :=
  name ← read_text (Set_.caSetName d);
  ty ← type_letter (first_letter (Set_.caElementType d));
  Some (mkSetDef (Set_.lSetId d) name ty).
Definition sdi_view (d : Sdi.T_KRShmSDIDef) : option KrDym.T_KRShmSDIDef :=
  ty ← type_letter (first_letter (Sdi.caSdiValueType d));
  func ← read_text (Sdi.caSdiAggrFunc d);
  filter ← read_text (Sdi.caSdiFilterString d);
  Some (mkSDIDef (Sdi.lSdiId d) ty func (Sdi.lStatisticsDatasrc d) (Sdi.lStatisticsIndex d) (Sdi.lStatisticsField d)
    (Sdi.lStatisticsLocation d) (location_letter (first_letter (Sdi.caLocationProperty d)))
    (format_letter (first_letter (Sdi.caSdiFilterFormat d))) filter).
Definition ddi_view (d : Ddi.T_KRShmDDIDef) : option KrDym.T_KRShmDDIDef :=
  ty ← type_letter (first_letter (Ddi.caDdiValueType d));
  func ← read_text (Ddi.caDdiAggrFunc d);
  filter ← read_text (Ddi.caDdiFilterString d);
  Some (mkDDIDef (Ddi.lDdiId d) ty func (Ddi.lStatisticsDatasrc d) (Ddi.lStatisticsIndex d) (Ddi.lStatisticsField d)
    (ddi_letter (first_letter (Ddi.caStatisticsType d))) (Ddi.lStatisticsValue d)
    (method_letter (first_letter (Ddi.caStatisticsMethod d)))
    (format_letter (first_letter (Ddi.caDdiFilterFormat d))) filter).
Definition hdi_view (d : Hdi.T_KRShmHDIDef) : option KrDym.T_KRShmHDIDef :=
  ty ← type_letter (first_letter (Hdi.caHdiValueType d));
  func ← read_text (Hdi.caHdiAggrFunc d);
  Some (mkHDIDef (Hdi.lHdiId d) ty func (Hdi.lStatisticsIndex d) (hdi_letter (first_letter (Hdi.caStatisticsType d)))
    (Hdi.lStatisticsValue d)).
Definition rule_view (d : Rule.T_KRShmRuleDef) : option KrDym.T_KRShmRuleDef :=
  s ← read_text (Rule.caRuleCalcString d);
  Some (mkRuleDef (Rule.lRuleId d) (Rule.lRuleDatasrc d) (format_letter (first_letter (Rule.caRuleCalcFormat d))) s
    (Rule.lRuleWeight d)).

(** The definitions that are counted. *)
Definition counted {D} (x : shm D) : list D := take (Z.to_nat (lDefCnt x)) (stShmDef x).
Definition shm_view {D E} (v : D -> option E) (x : shm D) : option (T_KRShm E) :=
  defs ← mapM v (counted x); Some (mkShm defs (loadTime x)).
Definition group_view (d : Group.T_KRShmGroupDef) : option KrDym.T_KRShmGroupDef :=
  s ← read_text (Group.caGroupCalcString d);
  rules ← shm_view rule_view (Group.stShmRule d);
  Some (mkGroupDef (Group.lGroupId d) (format_letter (first_letter (Group.caGroupCalcFormat d))) s rules).
Definition section_view (s : section) : option shm_section :=
  sets ← shm_view set_view (stShmSet s);
  sdis ← shm_view sdi_view (stShmSDI s);
  ddis ← shm_view ddi_view (stShmDDI s);
  hdis ← shm_view hdi_view (stShmHDI s);
  groups ← shm_view group_view (stShmGroup s);
  Some (mkSection sets sdis ddis hdis groups).

(** * What a load leaves *)

Definition row_code (z : Z) : Prop := z = KR_DBOK \/ z = KR_DBOKWITHINFO.

Section LoadSpec.
Context {R D : Type} (fill : R -> res (D * bool)) (most : Z) (cur : cursor R).

(** The rows of the first fetches, and a cursor that ends after [n] of them. *)
Definition fetched (rows : list R) : Prop :=
  forall k row, rows !! k = Some row -> row_code (cur_fetch cur k).1 /\ (cur_fetch cur k).2 = row.
Definition ended (n : nat) : Prop :=
  cur_open cur = KR_DBOK /\ (cur_fetch cur n).1 = KR_DBNOTFOUND /\ cur_close cur = KR_DBOK.

(** A section of the array holds what rows make. *)
Definition made (rows : list R) (defs : list D) : Prop := Forall2 (fun r d => fill r = Ok (d, true)) rows defs.

(** Why a load stops before the cursor ends: no room, or a definition that cannot be made. *)
Definition stuck (n : nat) : Prop := row_code (cur_fetch cur n).1 ->
  n = Z.to_nat most \/ exists d, fill (cur_fetch cur n).2 = Ok (d, false).

Definition loop_post (i : nat) (x : shm D) (rc : Z) (x' : shm D) : Prop :=
  exists rows, (i + length rows <= Z.to_nat most)%nat /\
    (forall k row, rows !! k = Some row -> row_code (cur_fetch cur (i + k)).1 /\ (cur_fetch cur (i + k)).2 = row) /\
    (rc = 0 <-> (cur_fetch cur (i + length rows)).1 = KR_DBNOTFOUND) /\ (rc = 0 \/ rc = -1) /\
    stuck (i + length rows) /\ lDefCnt x' = lDefCnt x + Z.of_nat (length rows) /\ loadTime x' = loadTime x /\
    length (stShmDef x') = Z.to_nat most /\ take i (stShmDef x') = take i (stShmDef x) /\
    made rows (take (length rows) (drop i (stShmDef x'))).

Lemma loop_stop i x rc : (i <= Z.to_nat most)%nat -> length (stShmDef x) = Z.to_nat most ->
  (rc = 0 <-> (cur_fetch cur i).1 = KR_DBNOTFOUND) -> (rc = 0 \/ rc = -1) -> stuck i -> loop_post i x rc x.
Proof.
  intros Hi Hl Hrc Hc Hs. exists []. simpl. rewrite Nat.add_0_r, Z.add_0_r. split_and!; try done. constructor.
Qed.

Lemma row_code_cases z : row_code z \/ z = KR_DBNOTFOUND \/
  (negb (z =? KR_DBNOTFOUND) && negb (z =? KR_DBOK) && negb (z =? KR_DBOKWITHINFO) = true /\ z <> KR_DBNOTFOUND).
Proof.
  unfold row_code. destruct (Z.eqb_spec z KR_DBNOTFOUND); [by right; left|].
  destruct (Z.eqb_spec z KR_DBOK); [by left; left|]. destruct (Z.eqb_spec z KR_DBOKWITHINFO); [by left; right|].
  by right; right.
Qed.

Lemma row_code_go z : row_code z ->
  negb (z =? KR_DBNOTFOUND) && negb (z =? KR_DBOK) && negb (z =? KR_DBOKWITHINFO) = false /\ (z =? KR_DBNOTFOUND) = false.
Proof. by intros [-> | ->]. Qed.

Lemma loop_next i x x1 rc x' r d : cur_fetch cur i = (x1, r) -> row_code x1 -> fill r = Ok (d, true) ->
  (i < Z.to_nat most)%nat -> length (stShmDef x) = Z.to_nat most ->
  loop_post (S i) (mkDefs (lDefCnt x + 1) (<[i := d]> (stShmDef x)) (loadTime x)) rc x' -> loop_post i x rc x'.
Proof.
  intros E Hc Hf Hi Hl (rows & Hn & Hrows & Hrc & Hrc' & Hs & Hcnt & Ht & Hlen & Htake & Hm). cbn in *. exists (r :: rows). simpl length.
  rewrite <- plus_n_Sm. split_and!; [lia| |done|done|done|lia|done|done| |].
  - intros [|k] row; simpl.
    + intros [= <-]. rewrite Nat.add_0_r, E. done.
    + rewrite <- plus_n_Sm. apply (Hrows k).
  - apply (f_equal (take i)) in Htake. rewrite !take_take, Nat.min_l in Htake by lia. rewrite Htake.
    by rewrite take_insert_ge by lia.
  - assert (Hd : stShmDef x' !! i = Some d).
    { rewrite <- (lookup_take_lt _ (S i)) by lia. rewrite Htake, lookup_take_lt by lia. apply list_lookup_insert_eq. lia. }
    rewrite (drop_S _ d) by done. simpl. by constructor.
Qed.

Hypothesis fill_total : forall r, exists d ok, fill r = Ok (d, ok).
Hypothesis most_pos : 0 <= most.

Lemma fetch_loop_spec fuel i x : (fuel + i)%nat = S (Z.to_nat most) -> (i <= Z.to_nat most)%nat ->
  length (stShmDef x) = Z.to_nat most ->
  exists rc x', fetch_loop fill most cur fuel (Z.of_nat i) x = Ok (rc, x') /\ loop_post i x rc x'.
Proof.
  revert i x. induction fuel as [|fuel IH]; intros i x Hi Hle Hl; simpl.
  { lia. }
  rewrite Nat2Z.id. destruct (cur_fetch cur i) as [z r] eqn:E.
  destruct (row_code_cases z) as [Hz|[->|[Hz Hne]]].
  - destruct (row_code_go z Hz) as [-> ->]. destruct (Z.leb_spec most (Z.of_nat i)).
    + eexists _, _. split; [done|]. apply loop_stop; [done|done| |by right|by left; lia]. rewrite E. split; [done|]. simpl.
      intros ->. by destruct Hz.
    + destruct (fill_total r) as (d & ok & Hf). rewrite Hf. cbn.
      destruct (stShmDef x !! i) eqn:Hlk; [|apply lookup_ge_None in Hlk; lia]. cbn. destruct ok.
      * replace (Z.of_nat i + 1) with (Z.of_nat (S i)) by lia.
        destruct (IH (S i) (mkDefs (lDefCnt x + 1) (<[i := d]> (stShmDef x)) (loadTime x))) as (rc & x' & Hrun & Hp).
        { lia. } { lia. } { cbn. by rewrite length_insert. }
        rewrite Hrun. exists rc, x'. split; [done|]. by eapply loop_next; [done..|lia|done|].
      * eexists _, _. split; [done|]. exists []. simpl. rewrite Nat.add_0_r, Z.add_0_r.
        rewrite length_insert. split_and!; try done; [|by right| |by rewrite take_insert_ge by lia|constructor].
        { rewrite E. split; [done|]. simpl. intros ->. by destruct Hz. }
        intros _. right. exists d. by rewrite E.
  - eexists _, _. split; [done|]. apply loop_stop; [done|done| |by left|].
    { by rewrite E. } unfold stuck. rewrite E. by intros [|].
  - rewrite Hz. eexists _, _. split; [done|]. apply loop_stop; [done|done| |by right|].
    { rewrite E. by split. } unfold stuck. rewrite E. simpl. intros Hc. destruct (row_code_go z Hc). congruence.
Qed.

(** A load ends after as many rows as there are, or as there is room for; it succeeds when
    the cursor ended, and then holds the definition of each row in order. *)
Definition load_post (rc : Z) (x' : shm D) : Prop :=
  exists rows, (length rows <= Z.to_nat most)%nat /\ fetched rows /\ (rc = 0 \/ rc = -1) /\
    (cur_open cur = KR_DBOK -> stuck (length rows)) /\
    (rc = 0 <-> ended (length rows)) /\ lDefCnt x' = Z.of_nat (length rows) /\
    (cur_open cur = KR_DBOK -> loadTime x' = cur_time cur) /\
    length (stShmDef x') = Z.to_nat most /\ made rows (counted x').

Lemma load_spec x : length (stShmDef x) = Z.to_nat most -> lDefCnt x = 0 ->
  exists rc x', load fill most cur x = Ok (rc, x') /\ load_post rc x'.
Proof.
  intros Hl H0. unfold load, load_post, ended. destruct (Z.eqb_spec (cur_open cur) KR_DBOK) as [Ho|Ho]; cbn [negb].
  - destruct (fetch_loop_spec (S (Z.to_nat most)) 0 x) as (rc & x' & Hrun & Hp); [lia|lia|done|].
    destruct Hp as (rows & Hn & Hrows & Hrc & Hrc' & Hs & Hcnt & Ht & Hlen & _ & Hm).
    change (Z.of_nat 0) with 0 in Hrun. simpl plus in *. rewrite drop_0 in Hm. rewrite H0, Z.add_0_l in Hcnt.
    rewrite Hrun. cbn -[Z.of_nat].
    assert (Hmade : made rows (take (Z.to_nat (lDefCnt x')) (stShmDef x'))) by by rewrite Hcnt, Nat2Z.id.
    destruct (Z.eqb_spec (cur_close cur) KR_DBOK) as [Hcl|Hcl]; cbn [negb];
      eexists _, _; (split; [done|]); exists rows; unfold counted; cbn [lDefCnt stShmDef loadTime]; split_and!; try done; try naive_solver.
  - eexists _, _. split; [done|]. exists []. unfold counted. rewrite H0.
    split_and!; [simpl; lia|done|by right|done|naive_solver|done|done|done|constructor].
Qed.

(** All the rows of a cursor that ends within the room are loaded. *)
Lemma load_post_complete rc x' rows : load_post rc x' -> fetched rows -> ended (length rows) ->
  (length rows <= Z.to_nat most)%nat -> Forall (fun r => exists d, fill r = Ok (d, true)) rows -> rc = 0.
Proof.
  intros (rows' & Hn & Hf & Hrc & Hs & He & _) Hr [Ho [Hend Hc]] Hl Hfill. apply He.
  destruct (Nat.lt_trichotomy (length rows') (length rows)) as [Hlt|[Heq|Hlt]].
  - destruct (lookup_lt_is_Some_2 _ _ Hlt) as [r Hk]. destruct (Hr _ _ Hk) as [Hcode Hrow].
    destruct (Hs Ho Hcode) as [Hm|[d Hd]]; [lia|]. rewrite Hrow in Hd.
    apply (Forall_lookup_1 _ _ _ _ Hfill) in Hk as [d' Hd']. congruence.
  - by rewrite Heq.
  - destruct (lookup_lt_is_Some_2 _ _ Hlt) as [r Hk]. destruct (Hf _ _ Hk) as [Hcode _]. rewrite Hend in Hcode.
    by destruct Hcode.
Qed.
End LoadSpec.

(** A cursor that ends within the room, all of whose rows can be made into definitions. *)
Definition answers {R} (Q : R -> Prop) (most : Z) (cur : cursor R) : Prop := exists rows,
  (length rows <= Z.to_nat most)%nat /\ fetched cur rows /\ ended cur (length rows) /\ Forall Q rows.
(** Definitions that are the rows of such a cursor. *)
Definition holds {R D} (P : R -> D -> Prop) (most : Z) (cur : cursor R) (x : shm D) : Prop := exists rows,
  (length rows <= Z.to_nat most)%nat /\ fetched cur rows /\ ended cur (length rows) /\
  lDefCnt x = Z.of_nat (length rows) /\ loadTime x = cur_time cur /\ Forall2 P rows (counted x).

Lemma kind_spec {R D} (fill : R -> res (D * bool)) (P : R -> D -> Prop) (Q : R -> Prop) most cur d0 : 0 <= most ->
  (forall r, exists d ok, fill r = Ok (d, ok)) -> (forall r d, fill r = Ok (d, true) -> P r d) ->
  (forall r, Q r <-> exists d, fill r = Ok (d, true)) ->
  exists rc x, load fill most cur (zero_shm most d0) = Ok (rc, x) /\ (rc = 0 \/ rc = -1) /\
    (rc = 0 <-> answers Q most cur) /\ (rc = 0 -> holds P most cur x).
Proof.
  intros Hm Ht HP HQ. destruct (load_spec fill most cur Ht Hm (zero_shm most d0)) as (rc & x & Hrun & Hp).
  { apply length_replicate. } { done. }
  exists rc, x. pose proof Hp as (rows & Hn & Hf & Hrc & Hs & He & Hcnt & Htime & _ & Hmade).
  split_and!; [done|done| |].
  - split.
    + intros H0. exists rows. split_and!; [done|done|by apply He|]. apply Forall2_Forall_l with (P := fun r d => fill r = Ok (d, true)) (k := counted x).
      * done.
      * apply Forall_forall. intros d _ r Hd. apply HQ. eauto.
    + intros (rows' & Hn' & Hf' & He' & HQ'). eapply (load_post_complete fill); [exact Hp|done..|].
      eapply Forall_impl; [exact HQ'|]. intros r. apply HQ.
  - intros H0. exists rows. split_and!; [done|done|by apply He|done| |].
    + apply Htime. by apply He.
    + eapply Forall2_impl; [exact Hmade|]. apply HP.
Qed.

(** The kinds whose definitions are made of a row alone. *)
Lemma plain_spec {R D} (fill : R -> D) most cur d0 : 0 <= most ->
  exists rc x, load (fun r => Ok (fill r, true)) most cur (zero_shm most d0) = Ok (rc, x) /\ (rc = 0 \/ rc = -1) /\
    (rc = 0 <-> answers (fun _ => True) most cur) /\ (rc = 0 -> holds (fun r d => d = fill r) most cur x).
Proof. intros Hm. apply kind_spec; [done|eauto|by intros r d [= <-]|]. split; eauto. Qed.

Definition rules_answer (curs : Z -> cursor Rule.T_RuleCur) (r : Group.T_GroupCur) : Prop :=
  answers (fun _ => True) N_MAX_RULE_NUM (curs (Group.lOutGroupId r)).
Definition rules_hold (curs : Z -> cursor Rule.T_RuleCur) (r : Group.T_GroupCur) (rules : shm Rule.T_KRShmRuleDef) : Prop :=
  holds (fun r d => d = Rule.rule_fill r) N_MAX_RULE_NUM (curs (Group.lOutGroupId r)) rules.
Definition group_holds (curs : Z -> cursor Rule.T_RuleCur) (r : Group.T_GroupCur) (d : Group.T_KRShmGroupDef) : Prop :=
  exists rules, rules_hold curs r rules /\ d = Group.with_rules r rules.

Lemma group_spec curs cur d0 :
  exists rc x, Group.kr_shm_group_load curs cur (zero_shm N_MAX_GROUP_NUM d0) = Ok (rc, x) /\ (rc = 0 \/ rc = -1) /\
    (rc = 0 <-> answers (rules_answer curs) N_MAX_GROUP_NUM cur) /\
    (rc = 0 -> holds (group_holds curs) N_MAX_GROUP_NUM cur x).
Proof.
  assert (Hrules : forall r, exists rc x, Rule.kr_shm_rule_load curs Group.zero_rules (Group.lOutGroupId r) = Ok (rc, x) /\
    (rc = 0 \/ rc = -1) /\ (rc = 0 <-> rules_answer curs r) /\ (rc = 0 -> rules_hold curs r x)).
  { intros r. by apply plain_spec. }
  apply kind_spec; [done| | |]; unfold Group.group_fill.
  - intros r. destruct (Hrules r) as (rc & x & -> & _). cbn. eauto.
  - intros r d. destruct (Hrules r) as (rc & x & -> & _ & _ & Hh). cbn. destruct (Z.eqb_spec rc 0); intros [= <-].
    exists x. auto.
  - intros r. destruct (Hrules r) as (rc & x & -> & _ & <- & _). cbn. destruct (Z.eqb_spec rc 0); naive_solver.
Qed.

(** A configuration that can be loaded, and a section that holds it. *)
Record config_answers (db : config) : Prop := {
  an_set : answers (fun _ => True) N_MAX_SET_NUM (dbsSetDefCur db);
  an_sdi : answers (fun _ => True) N_MAX_SDI_NUM (dbsSdiCur db);
  an_ddi : answers (fun _ => True) N_MAX_DDI_NUM (dbsDdiCur db);
  an_hdi : answers (fun _ => True) N_MAX_HDI_NUM (dbsHdiCur db);
  an_group : answers (rules_answer (dbsRuleCur db)) N_MAX_GROUP_NUM (dbsGroupCur db)
}.
Record section_holds (db : config) (s : section) : Prop := {
  ho_set : holds (fun r d => d = Set_.set_fill r) N_MAX_SET_NUM (dbsSetDefCur db) (stShmSet s);
  ho_sdi : holds (fun r d => d = Sdi.sdi_fill r) N_MAX_SDI_NUM (dbsSdiCur db) (stShmSDI s);
  ho_ddi : holds (fun r d => d = Ddi.ddi_fill r) N_MAX_DDI_NUM (dbsDdiCur db) (stShmDDI s);
  ho_hdi : holds (fun r d => d = Hdi.hdi_fill r) N_MAX_HDI_NUM (dbsHdiCur db) (stShmHDI s);
  ho_group : holds (group_holds (dbsRuleCur db)) N_MAX_GROUP_NUM (dbsGroupCur db) (stShmGroup s)
}.

Definition section_at (m : T_KRShareMem) (n : Z) : option section := sections m !! Z.to_nat n.

Lemma put_other m s n : n = 0 \/ n = 1 -> section_at (put m (1 - n) s) n = section_at m n.
Proof. unfold section_at, put. cbn. by intros [-> | ->]; apply list_lookup_insert_ne. Qed.
Lemma put_same m s n : n = 0 \/ n = 1 -> length (sections m) = 2%nat -> section_at (put m n s) n = Some s.
Proof. unfold section_at, put. cbn. intros [-> | ->] Hl; apply list_lookup_insert_eq; rewrite Hl; lia. Qed.

(** The definitions that the loads of a configuration leave in a section. *)
Record loaded_by (db : config) (s : section) : Prop := {
  lo_set : load_kind N_MAX_SET_NUM Set_.set_zero_def (Set_.kr_shm_set_load (dbsSetDefCur db)) = Ok (0, stShmSet s);
  lo_sdi : load_kind N_MAX_SDI_NUM Sdi.sdi_zero_def (Sdi.kr_shm_sdi_load (dbsSdiCur db)) = Ok (0, stShmSDI s);
  lo_ddi : load_kind N_MAX_DDI_NUM Ddi.ddi_zero_def (Ddi.kr_shm_ddi_load (dbsDdiCur db)) = Ok (0, stShmDDI s);
  lo_hdi : load_kind N_MAX_HDI_NUM Hdi.hdi_zero_def (Hdi.kr_shm_hdi_load (dbsHdiCur db)) = Ok (0, stShmHDI s);
  lo_group : load_kind N_MAX_GROUP_NUM Group.group_zero_def (Group.kr_shm_group_load (dbsRuleCur db) (dbsGroupCur db)) =
    Ok (0, stShmGroup s)
}.

(** What [kr_shm_load] gives. *)
Definition load_outcome (db : config) (m : T_KRShareMem) (rc : Z) (m' : T_KRShareMem) : Prop :=
  length (sections m') = 2%nat /\ section_at m' (nSecId m) = section_at m (nSecId m) /\
  ((config_answers db /\ rc = 1 - nSecId m /\ nSecId m' = rc /\ tLastLoadTime m' = now db /\
      exists s, section_at m' rc = Some s /\ section_holds db s /\ loaded_by db s) \/
   (~ config_answers db /\ rc = -1 /\ nSecId m' = nSecId m /\ tLastLoadTime m' = tLastLoadTime m)).

Lemma outcome_fail db m s : ~ config_answers db -> nSecId m = 0 \/ nSecId m = 1 -> length (sections m) = 2%nat ->
  load_outcome db m (-1) (put m (1 - nSecId m) s).
Proof.
  intros Hdb Hn Hl. split_and!; [by cbn; rewrite length_insert|by apply put_other|]. by right.
Qed.

Lemma shm_load_outcome db m : nSecId m = 0 \/ nSecId m = 1 -> length (sections m) = 2%nat ->
  exists rc m', kr_shm_load db (Some m) = Ok (rc, Some m') /\ load_outcome db m rc m'.
Proof.
  intros Hn Hl. assert (Hback : Z.rem (nSecId m + 1) N_MAX_SEC = 1 - nSecId m) by by destruct Hn as [-> | ->].
  unfold kr_shm_load. rewrite Hback.
  destruct (sections m !! Z.to_nat (1 - nSecId m)) as [s0|] eqn:E; [|apply lookup_ge_None in E; lia]. cbn [of_option mbind res_bind].
  pose proof (plain_spec Set_.set_fill N_MAX_SET_NUM (dbsSetDefCur db) Set_.set_zero_def) as (r1 & x1 & L1 & _ & A1 & H1); [done|].
  pose proof (plain_spec Sdi.sdi_fill N_MAX_SDI_NUM (dbsSdiCur db) Sdi.sdi_zero_def) as (r2 & x2 & L2 & _ & A2 & H2); [done|].
  pose proof (plain_spec Ddi.ddi_fill N_MAX_DDI_NUM (dbsDdiCur db) Ddi.ddi_zero_def) as (r3 & x3 & L3 & _ & A3 & H3); [done|].
  pose proof (plain_spec Hdi.hdi_fill N_MAX_HDI_NUM (dbsHdiCur db) Hdi.hdi_zero_def) as (r4 & x4 & L4 & _ & A4 & H4); [done|].
  pose proof (group_spec (dbsRuleCur db) (dbsGroupCur db) Group.group_zero_def) as (r5 & x5 & L5 & _ & A5 & H5).
  unfold load_kind, Set_.kr_shm_set_load, Sdi.kr_shm_sdi_load, Ddi.kr_shm_ddi_load, Hdi.kr_shm_hdi_load.
  assert (Hfail : forall s, ~ config_answers db ->
    exists rc m', Ok (-1, Some (put m (1 - nSecId m) s)) = Ok (rc, Some m') /\ load_outcome db m rc m').
  { intros s Hdb. eexists _, _. split; [done|]. by apply outcome_fail. }
  rewrite L1. cbn [mbind res_bind]. destruct (Z.eqb_spec r1 0) as [->|N1]; cbn [negb]; [|apply Hfail; intros []; naive_solver].
  rewrite L2. cbn [mbind res_bind]. destruct (Z.eqb_spec r2 0) as [->|N2]; cbn [negb]; [|apply Hfail; intros []; naive_solver].
  rewrite L3. cbn [mbind res_bind]. destruct (Z.eqb_spec r3 0) as [->|N3]; cbn [negb]; [|apply Hfail; intros []; naive_solver].
  rewrite L4. cbn [mbind res_bind]. destruct (Z.eqb_spec r4 0) as [->|N4]; cbn [negb]; [|apply Hfail; intros []; naive_solver].
  rewrite L5. cbn [mbind res_bind]. destruct (Z.eqb_spec r5 0) as [->|N5]; cbn [negb]; [|apply Hfail; intros []; naive_solver].
  clear Hfail. cbn [stShmSet stShmSDI stShmDDI stShmHDI stShmGroup]. set (s := mkSec x1 x2 x3 x4 x5).
  unfold kr_shm_switch. cbn [nSecId]. rewrite Hback. eexists _, _. split; [done|].
  split; [by cbn; rewrite length_insert|]. split; [by apply (put_other m)|].
  left. split_and!; [split; naive_solver|done..|]. exists s. split.
  - apply (put_same m); [|done]. lia.
  - split; [split; cbn; naive_solver|by split].
Qed.

(** * The definitions of a thread, from the rows *)

(** A text that its array has room for. *)
Definition room (s : string) (n : nat) : bool :=
  forallb (fun c => negb (bool_decide (c = zero))) (list_ascii_of_string (kr_string_rtrim s)) &&
  (String.length (kr_string_rtrim s) <? n)%nat.
Definition letter (s : string) : ascii :=
  match kr_string_rtrim s with String c _ => c | EmptyString => zero end.

Lemma length_list_ascii s : length (list_ascii_of_string s) = String.length s.
Proof. induction s; simpl; congruence. Qed.

Lemma first_letter_text s n : first_letter (text s (S n)) = letter s.
Proof. unfold first_letter, text, strncpy, letter. by destruct (kr_string_rtrim s). Qed.

Lemma c_string_array s n : forallb (fun c => negb (bool_decide (c = zero))) (list_ascii_of_string s) = true ->
  c_string (list_ascii_of_string s ++ replicate (S n) zero) = Ok s.
Proof.
  induction s as [|c s IH]; simpl; [done|]. intros [Hc Hs]%andb_true_iff. destruct (bool_decide (c = zero)); [done|].
  simpl in IH. by rewrite (IH Hs).
Qed.

Lemma read_text_text s n : room s n = true -> read_text (text s n) = Some (kr_string_rtrim s).
Proof.
  unfold room, read_text, text, strncpy. intros [Hz Hl]%andb_true_iff. apply Nat.ltb_lt in Hl.
  rewrite take_ge by (rewrite length_list_ascii; lia). rewrite length_list_ascii.
  replace (n - String.length (kr_string_rtrim s))%nat with (S (n - S (String.length (kr_string_rtrim s)))) by lia.
  by rewrite c_string_array.
Qed.

(** A text that fills its array is never the string that the array holds. *)
Lemma c_string_full s n : forallb (fun c => negb (bool_decide (c = zero))) (list_ascii_of_string (kr_string_rtrim s)) = true ->
  (n <= String.length (kr_string_rtrim s))%nat -> c_string (text s n) = Fault OutOfBounds.
Proof.
  unfold text, strncpy. generalize (kr_string_rtrim s) as t. intros t Hz Hl.
  rewrite length_list_ascii. replace (n - String.length t)%nat with 0%nat by lia. rewrite app_nil_r.
  revert n Hl Hz. induction t as [|c t IH]; intros n Hl; simpl in *; [by replace n with 0%nat by lia|].
  intros [Hc Hz]%andb_true_iff. destruct n as [|n]; [done|]. simpl. destruct (bool_decide (c = zero)); [done|].
  by rewrite IH by (lia || done).
Qed.

Definition set_row (r : Set_.T_SetDefCur) : option KrDym.T_KRShmSetDef :=
  ty ← type_letter (letter (Set_.caOutElementType r));
  Some (mkSetDef (Set_.lOutSetId r) (kr_string_rtrim (Set_.caOutSetName r)) ty).
Definition sdi_row (r : Sdi.T_SdiCur) : option KrDym.T_KRShmSDIDef :=
  ty ← type_letter (letter (Sdi.caOutSdiValueType r));
  Some (mkSDIDef (Sdi.lOutSdiId r) ty (kr_string_rtrim (Sdi.caOutSdiAggrFunc r)) (Sdi.lOutStatisticsDatasrc r)
    (Sdi.lOutStatisticsIndex r) (Sdi.lOutStatisticsField r) (Sdi.lOutStatisticsLocation r)
    (location_letter (letter (Sdi.caOutLocationProperty r))) (format_letter (letter (Sdi.caOutSdiFilterFormat r)))
    (kr_string_rtrim (Sdi.caOutSdiFilterString r))).
Definition ddi_row (r : Ddi.T_DdiCur) : option KrDym.T_KRShmDDIDef :=
  ty ← type_letter (letter (Ddi.caOutDdiValueType r));
  Some (mkDDIDef (Ddi.lOutDdiId r) ty (kr_string_rtrim (Ddi.caOutDdiAggrFunc r)) (Ddi.lOutStatisticsDatasrc r)
    (Ddi.lOutStatisticsIndex r) (Ddi.lOutStatisticsField r) (ddi_letter (letter (Ddi.caOutStatisticsType r)))
    (Ddi.lOutStatisticsValue r) (method_letter (letter (Ddi.caOutStatisticsMethod r)))
    (format_letter (letter (Ddi.caOutDdiFilterFormat r))) (kr_string_rtrim (Ddi.caOutDdiFilterString r))).
Definition hdi_row (r : Hdi.T_HdiCur) : option KrDym.T_KRShmHDIDef :=
  ty ← type_letter (letter (Hdi.caOutHdiValueType r));
  Some (mkHDIDef (Hdi.lOutHdiId r) ty (kr_string_rtrim (Hdi.caOutHdiAggrFunc r)) (Hdi.lOutStatisticsIndex r)
    (hdi_letter (letter (Hdi.caOutStatisticsType r))) (Hdi.lOutStatisticsValue r)).
Definition rule_row (r : Rule.T_RuleCur) : option KrDym.T_KRShmRuleDef :=
  Some (mkRuleDef (Rule.lOutRuleId r) (Rule.lOutRuleDatasrc r) (format_letter (letter (Rule.caOutRuleCalcFormat r)))
    (kr_string_rtrim (Rule.caOutRuleCalcString r)) (Rule.lOutRuleWeight r)).
Definition group_row (r : Group.T_GroupCur) (rules : T_KRShm KrDym.T_KRShmRuleDef) : KrDym.T_KRShmGroupDef :=
  mkGroupDef (Group.lOutGroupId r) (format_letter (letter (Group.caOutGroupCalcFormat r)))
    (kr_string_rtrim (Group.caOutGroupCalcString r)) rules.

(** Rows whose texts fit where a thread reads them, of a type there is. *)
Definition set_fits (r : Set_.T_SetDefCur) : bool :=
  room (Set_.caOutSetName r) 31 && bool_decide (is_Some (set_row r)).
Definition sdi_fits (r : Sdi.T_SdiCur) : bool :=
  room (Sdi.caOutSdiAggrFunc r) 51 && room (Sdi.caOutSdiFilterString r) 501 && bool_decide (is_Some (sdi_row r)).
Definition ddi_fits (r : Ddi.T_DdiCur) : bool :=
  room (Ddi.caOutDdiAggrFunc r) 51 && room (Ddi.caOutDdiFilterString r) 501 && bool_decide (is_Some (ddi_row r)).
Definition hdi_fits (r : Hdi.T_HdiCur) : bool :=
  room (Hdi.caOutHdiAggrFunc r) 51 && bool_decide (is_Some (hdi_row r)).
Definition rule_fits (r : Rule.T_RuleCur) : bool := room (Rule.caOutRuleCalcString r) 501.
Definition group_fits (r : Group.T_GroupCur) : bool := room (Group.caOutGroupCalcString r) 501.

Ltac view_row :=
  intros [Hfit [e Hrow]%bool_decide_eq_true]%andb_true_iff; exists e; split; [|done]; revert Hrow;
  repeat match goal with H : _ && _ = true |- _ => apply andb_true_iff in H as [? ?] end;
  unfold set_view, sdi_view, ddi_view, hdi_view, set_row, sdi_row, ddi_row, hdi_row; cbn;
  rewrite ?first_letter_text, ?read_text_text by done; done.

Lemma set_view_row r : set_fits r = true -> exists e, set_view (Set_.set_fill r) = Some e /\ set_row r = Some e.
Proof. view_row. Qed.
Lemma sdi_view_row r : sdi_fits r = true -> exists e, sdi_view (Sdi.sdi_fill r) = Some e /\ sdi_row r = Some e.
Proof. view_row. Qed.
Lemma ddi_view_row r : ddi_fits r = true -> exists e, ddi_view (Ddi.ddi_fill r) = Some e /\ ddi_row r = Some e.
Proof. view_row. Qed.
Lemma hdi_view_row r : hdi_fits r = true -> exists e, hdi_view (Hdi.hdi_fill r) = Some e /\ hdi_row r = Some e.
Proof. view_row. Qed.
Lemma rule_view_row r : rule_fits r = true -> exists e, rule_view (Rule.rule_fill r) = Some e /\ rule_row r = Some e.
Proof.
  intros Hr. eexists. split; [|done]. unfold rule_view. cbn. by rewrite first_letter_text, read_text_text.
Qed.

(** The rows that a thread reads in a section. *)
Definition holds_rows {R E} (P : R -> E -> Prop) (most : Z) (cur : cursor R) (x : T_KRShm E) : Prop := exists rows,
  (length rows <= Z.to_nat most)%nat /\ fetched cur rows /\ ended cur (length rows) /\
  KrDym.tLastLoadTime x = cur_time cur /\ Forall2 P rows (shm_defs x).
Definition cursor_fits {R} (fits : R -> bool) (cur : cursor R) : Prop :=
  forall k, row_code (cur_fetch cur k).1 -> fits (cur_fetch cur k).2 = true.

Lemma fetched_fits {R} (fits : R -> bool) cur rows : cursor_fits fits cur -> fetched cur rows ->
  Forall (fun r => fits r = true) rows.
Proof.
  intros Hc Hf. apply Forall_lookup. intros k r Hk. destruct (Hf _ _ Hk) as [Hcode <-]. by apply Hc.
Qed.

Lemma view_list {R D E} (P : R -> D -> Prop) (P' : R -> E -> Prop) (v : D -> option E) (fits : R -> bool) rows defs :
  (forall r d, P r d -> fits r = true -> exists e, v d = Some e /\ P' r e) ->
  Forall (fun r => fits r = true) rows -> Forall2 P rows defs ->
  exists es, mapM v defs = Some es /\ Forall2 P' rows es.
Proof.
  intros Hv Hfits H. induction H as [|r d rows defs HP _ IH]; [by exists []|].
  apply Forall_cons in Hfits as [Hr Hfits]. destruct (Hv _ _ HP Hr) as (e & He & HP').
  destruct (IH Hfits) as (es & Hes & HPs). exists (e :: es). split; [|by constructor].
  simpl. rewrite He. cbn. by rewrite Hes.
Qed.

Lemma view_holds {R D E} (P : R -> D -> Prop) (P' : R -> E -> Prop) (v : D -> option E) (fits : R -> bool) most cur x :
  (forall r d, P r d -> fits r = true -> exists e, v d = Some e /\ P' r e) ->
  cursor_fits fits cur -> holds P most cur x -> exists y, shm_view v x = Some y /\ holds_rows P' most cur y.
Proof.
  intros Hv Hc (rows & Hn & Hf & He & _ & Ht & HP).
  destruct (view_list P P' v fits rows (counted x) Hv) as (es & Hes & HPs); [by eapply fetched_fits|done|].
  unfold shm_view. rewrite Hes. exists (mkShm es (loadTime x)). split; [done|]. by exists rows.
Qed.

Lemma view_plain {R D E} (fill : R -> D) (row : R -> option E) (v : D -> option E) (fits : R -> bool) most cur x :
  (forall r, fits r = true -> exists e, v (fill r) = Some e /\ row r = Some e) ->
  cursor_fits fits cur -> holds (fun r d => d = fill r) most cur x ->
  exists y, shm_view v x = Some y /\ holds_rows (fun r e => row r = Some e) most cur y.
Proof. intros Hv. apply view_holds. intros r d -> Hr. by apply Hv. Qed.

Definition rules_rows (curs : Z -> cursor Rule.T_RuleCur) (r : Group.T_GroupCur) (x : T_KRShm KrDym.T_KRShmRuleDef) : Prop :=
  holds_rows (fun r e => rule_row r = Some e) N_MAX_RULE_NUM (curs (Group.lOutGroupId r)) x.
Record section_rows (db : config) (s : shm_section) : Prop := {
  ro_set : holds_rows (fun r e => set_row r = Some e) N_MAX_SET_NUM (dbsSetDefCur db) (KrDym.stShmSet s);
  ro_sdi : holds_rows (fun r e => sdi_row r = Some e) N_MAX_SDI_NUM (dbsSdiCur db) (KrDym.stShmSDI s);
  ro_ddi : holds_rows (fun r e => ddi_row r = Some e) N_MAX_DDI_NUM (dbsDdiCur db) (KrDym.stShmDDI s);
  ro_hdi : holds_rows (fun r e => hdi_row r = Some e) N_MAX_HDI_NUM (dbsHdiCur db) (KrDym.stShmHDI s);
  ro_group : holds_rows (fun r e => exists rules, rules_rows (dbsRuleCur db) r rules /\ e = group_row r rules)
               N_MAX_GROUP_NUM (dbsGroupCur db) (KrDym.stShmGroup s)
}.
Record config_fits (db : config) : Prop := {
  fi_set : cursor_fits set_fits (dbsSetDefCur db); fi_sdi : cursor_fits sdi_fits (dbsSdiCur db);
  fi_ddi : cursor_fits ddi_fits (dbsDdiCur db); fi_hdi : cursor_fits hdi_fits (dbsHdiCur db);
  fi_rule : forall id, cursor_fits rule_fits (dbsRuleCur db id); fi_group : cursor_fits group_fits (dbsGroupCur db)
}.

Lemma group_view_row curs r d : (forall id, cursor_fits rule_fits (curs id)) -> group_holds curs r d ->
  group_fits r = true ->
  exists e, group_view d = Some e /\ exists rules, rules_rows curs r rules /\ e = group_row r rules.
Proof.
  intros Hf (rules & Hr & ->) Hg. destruct (view_plain _ _ _ _ _ _ _ rule_view_row (Hf (Group.lOutGroupId r)) Hr) as (y & V & HR).
  exists (group_row r y). split; [|by exists y]. unfold group_view. cbn.
  by rewrite first_letter_text, (read_text_text _ _ Hg), V.
Qed.

Lemma section_viewed db s : config_fits db -> section_holds db s ->
  exists t, section_view s = Some t /\ section_rows db t.
Proof.
  intros Hf Hh.
  destruct (view_plain _ _ _ _ _ _ _ set_view_row (fi_set _ Hf) (ho_set _ _ Hh)) as (y1 & V1 & R1).
  destruct (view_plain _ _ _ _ _ _ _ sdi_view_row (fi_sdi _ Hf) (ho_sdi _ _ Hh)) as (y2 & V2 & R2).
  destruct (view_plain _ _ _ _ _ _ _ ddi_view_row (fi_ddi _ Hf) (ho_ddi _ _ Hh)) as (y3 & V3 & R3).
  destruct (view_plain _ _ _ _ _ _ _ hdi_view_row (fi_hdi _ Hf) (ho_hdi _ _ Hh)) as (y4 & V4 & R4).
  destruct (view_holds _ _ _ _ _ _ _ (fun r d => group_view_row _ r d (fi_rule _ Hf)) (fi_group _ Hf) (ho_group _ _ Hh))
    as (y5 & V5 & R5).
  unfold section_view. rewrite V1, V2, V3, V4, V5. eexists. split; [done|]. by split.
Qed.

(** * The loads of KrDym *)

(** The outcome of one load, as KrDym takes it. *)
Definition kind_viewed {D E} (v : D -> option E) (r : res (Z * shm D)) (p : Z * T_KRShm E) : Prop :=
  exists x, r = Ok (p.1, x) /\ (p.1 = 0 -> shm_view v x = Some p.2).
Record loads_viewed (db : config) (l : shm_loads) : Prop := {
  vi_set : kind_viewed set_view (load_kind N_MAX_SET_NUM Set_.set_zero_def (Set_.kr_shm_set_load (dbsSetDefCur db))) (load_set l);
  vi_sdi : kind_viewed sdi_view (load_kind N_MAX_SDI_NUM Sdi.sdi_zero_def (Sdi.kr_shm_sdi_load (dbsSdiCur db))) (load_sdi l);
  vi_ddi : kind_viewed ddi_view (load_kind N_MAX_DDI_NUM Ddi.ddi_zero_def (Ddi.kr_shm_ddi_load (dbsDdiCur db))) (load_ddi l);
  vi_hdi : kind_viewed hdi_view (load_kind N_MAX_HDI_NUM Hdi.hdi_zero_def (Hdi.kr_shm_hdi_load (dbsHdiCur db))) (load_hdi l);
  vi_group : kind_viewed group_view (load_kind N_MAX_GROUP_NUM Group.group_zero_def
               (Group.kr_shm_group_load (dbsRuleCur db) (dbsGroupCur db))) (load_group l);
  vi_time : load_time l = now db
}.

(** The memory of KrDym is that of the code, as far as the active section goes. *)
Definition shm_related (m : T_KRShareMem) (a : KrDym.T_KRShareMem) : Prop :=
  (nSecId m = 0 \/ nSecId m = 1) /\ length (sections m) = 2%nat /\ length (KrDym.sections a) = 2%nat /\
  KrDym.nSecId a = nSecId m /\
  exists s t, section_at m (nSecId m) = Some s /\ section_view s = Some t /\ active a = Ok t.

Lemma viewed_ok {D E} (v : D -> option E) r p (A : Prop) rc x : r = Ok (rc, x) -> (rc = 0 <-> A) ->
  kind_viewed v r p -> (p.1 = 0 <-> A).
Proof. intros -> HA (x' & [= <- _] & _). done. Qed.

Lemma loads_ok_iff db l : loads_viewed db l -> loads_ok l = true <-> config_answers db.
Proof.
  intros [V1 V2 V3 V4 V5 _].
  destruct (plain_spec Set_.set_fill N_MAX_SET_NUM (dbsSetDefCur db) Set_.set_zero_def) as (r1 & x1 & L1 & _ & A1 & _); [done|].
  destruct (plain_spec Sdi.sdi_fill N_MAX_SDI_NUM (dbsSdiCur db) Sdi.sdi_zero_def) as (r2 & x2 & L2 & _ & A2 & _); [done|].
  destruct (plain_spec Ddi.ddi_fill N_MAX_DDI_NUM (dbsDdiCur db) Ddi.ddi_zero_def) as (r3 & x3 & L3 & _ & A3 & _); [done|].
  destruct (plain_spec Hdi.hdi_fill N_MAX_HDI_NUM (dbsHdiCur db) Hdi.hdi_zero_def) as (r4 & x4 & L4 & _ & A4 & _); [done|].
  destruct (group_spec (dbsRuleCur db) (dbsGroupCur db) Group.group_zero_def) as (r5 & x5 & L5 & _ & A5 & _).
  apply (viewed_ok _ _ _ _ _ _ L1 A1) in V1. apply (viewed_ok _ _ _ _ _ _ L2 A2) in V2.
  apply (viewed_ok _ _ _ _ _ _ L3 A3) in V3. apply (viewed_ok _ _ _ _ _ _ L4 A4) in V4.
  apply (viewed_ok _ _ _ _ _ _ L5 A5) in V5.
  unfold loads_ok. rewrite !andb_true_iff, !Z.eqb_eq, V1, V2, V3, V4, V5. split.
  - intros [[[[]]]]. by split.
  - by intros [].
Qed.

Lemma viewed_same {D E} (v : D -> option E) r p x : r = Ok (0, x) -> kind_viewed v r p -> shm_view v x = Some p.2.
Proof. intros -> (x' & [= H <-] & Hv). by apply Hv. Qed.

Lemma loaded_view db l s : loads_viewed db l -> loaded_by db s -> section_view s = Some (loaded l).
Proof.
  intros [V1 V2 V3 V4 V5 _] [L1 L2 L3 L4 L5]. unfold section_view, loaded.
  by rewrite (viewed_same _ _ _ _ L1 V1), (viewed_same _ _ _ _ L2 V2), (viewed_same _ _ _ _ L3 V3),
    (viewed_same _ _ _ _ L4 V4), (viewed_same _ _ _ _ L5 V5).
Qed.

Lemma kr_shm_load_related db l m a : shm_related m a -> loads_viewed db l ->
  exists rc m' a', kr_shm_load db (Some m) = Ok (rc, Some m') /\ KrDym.kr_shm_load l (Some a) = Ok (rc, Some a') /\
    shm_related m' a'.
Proof.
  intros (Hn & Hl & Hla & Hid & s & t & Hs & Hv & Ha) Hdb.
  destruct (shm_load_outcome db m Hn Hl) as (rc & m' & Hrun & Hl' & Hold & Hout).
  destruct (shm_load_spec l a) as (rca & a' & Hruna & Hla' & _ & Houta); [by rewrite Hid|done|].
  pose proof (loads_ok_iff db l Hdb) as Hok. exists rc, m', a'. split; [done|].
  destruct Hout as [(Hc & -> & Hn' & _ & s' & Hs' & _ & Hload)|(Hc & -> & Hn' & _)].
  - apply Hok in Hc. rewrite Hc, Hid in Houta. destruct Houta as (-> & Hna & Hact).
    split; [done|]. split_and!; [lia|done|done|congruence|].
    exists s', (loaded l). rewrite Hn'. split_and!; [done|by apply (loaded_view db)|done].
  - destruct (loads_ok l); [by destruct Hc; apply Hok|]. destruct Houta as (-> & Hna & Hact).
    split; [done|]. split_and!; [by rewrite Hn'|done|done|congruence|].
    exists s, t. rewrite Hn', Hold, Hact. done.
Qed.

(** C15. What is configured is what runs: when every cursor ends within the limits and the
    rows fit, a load makes the other section active; the definitions a thread reads there
    are the rows of each table in order, the groups with the rules of their cursor; and
    parameters that a check then brings up to date are made of these. *)
Theorem kr_configuration_in_use regcomp flex symbol set_cur db l m a :
  shm_related m a -> loads_viewed db l -> config_answers db -> config_fits db ->
  exists m' a' sec, kr_shm_load db (Some m) = Ok (1 - nSecId m, Some m') /\
    KrDym.kr_shm_load l (Some a) = Ok (1 - nSecId m, Some a') /\ nSecId m' = 1 - nSecId m /\
    active a' = Ok sec /\ section_rows db sec /\
    forall n0 sec0 dyn os dyn' os', made_in n0 sec0 dyn -> times_differ sec0 sec ->
      kr_dym_check regcomp flex symbol set_cur dyn a' os = Ok (0, dyn', os') -> reflects a' sec dyn'.
Proof.
  intros Hrel Hdb Hans Hfits. destruct (kr_shm_load_related db l m a Hrel Hdb) as (rc & m' & a' & Hrun & Hruna & Hrel').
  destruct Hrel as (Hn & Hl & _). destruct (shm_load_outcome db m Hn Hl) as (rc1 & m1 & Hrun1 & _ & _ & Hout).
  rewrite Hrun in Hrun1. injection Hrun1 as <- <-.
  destruct Hout as [(_ & -> & Hn' & _ & s & Hs & Hh & _)|(Hc & _)]; [|done].
  destruct (section_viewed db s Hfits Hh) as (sec & Hsec & Hrows).
  destruct Hrel' as (_ & _ & _ & _ & s' & t & Hs' & Ht & Hact). rewrite Hn', Hs in Hs'. injection Hs' as <-.
  rewrite Hsec in Ht. injection Ht as <-. exists m', a', sec. split_and!; try done.
  intros n0 sec0 dyn os dyn' os' Hr Htimes Hk. apply (made_in_reflects _ (KrDym.nSecId a')).
  - by apply of_option_Ok in Hact.
  - eapply dym_check_made; [done| |exact Hk]. by eapply made_in_trusted.
Qed.

(** * Runs *)

(** Loads one after the other, with what each returns. *)
Fixpoint run_loads {L S} (load : L -> option S -> res (Z * option S)) (ls : list L) (s : option S) : res (list Z * option S) :=
  match ls with
  | [] => Ok ([], s)
  | l :: ls' => '(rc, s) ← load l s; '(rcs, s) ← run_loads load ls' s; Ok (rc :: rcs, s)
  end.

(** KrDym's shared memory is the code's: any sequence of loads, whatever the cursors of
    each configuration answer, returns the same on both and leaves active sections with the
    same definitions. *)
Theorem kr_shm_refines dbs ls m a : shm_related m a -> Forall2 loads_viewed dbs ls ->
  exists rcs m' a', run_loads kr_shm_load dbs (Some m) = Ok (rcs, Some m') /\
    run_loads KrDym.kr_shm_load ls (Some a) = Ok (rcs, Some a') /\ shm_related m' a'.
Proof.
  intros Hrel Hls. revert m a Hrel. induction Hls as [|db l dbs ls Hl _ IH]; intros m a Hrel; [by exists [], m, a|].
  destruct (kr_shm_load_related db l m a Hrel Hl) as (rc & m1 & a1 & E & Ea & Hrel1).
  destruct (IH m1 a1 Hrel1) as (rcs & m' & a' & Es & Eas & Hrel'). exists (rc :: rcs), m', a'. cbn [run_loads].
  rewrite E, Ea. cbn [mbind res_bind]. by rewrite Es, Eas.
Qed.

(** The last of the configurations that answered is in the active section. *)
Definition holds_last (dbs : list config) (m : T_KRShareMem) : Prop :=
  (nSecId m = 0 \/ nSecId m = 1) /\ length (sections m) = 2%nat /\
  exists before db after s, dbs = before ++ db :: after /\ config_answers db /\
    Forall (fun d => ~ config_answers d) after /\ section_at m (nSecId m) = Some s /\ section_holds db s.

Lemma holds_last_next dbs m db : holds_last dbs m ->
  exists rc m', kr_shm_load db (Some m) = Ok (rc, Some m') /\ holds_last (dbs ++ [db]) m'.
Proof.
  intros (Hn & Hl & before & d & after & s & -> & Hd & Hafter & Hs & Hh).
  destruct (shm_load_outcome db m Hn Hl) as (rc & m' & Hrun & Hl' & Hold & Hout). exists rc, m'. split; [done|].
  destruct Hout as [(Hc & -> & Hn' & _ & s' & Hs' & Hh' & _)|(Hc & -> & Hn' & _)]; (split; [lia|split; [done|]]).
  - exists (before ++ d :: after), db, [], s'. rewrite Hn'. by split_and!.
  - exists before, d, (after ++ [db]), s. rewrite Hn', Hold. split_and!; try done; [by rewrite <- app_assoc|].
    apply Forall_app. by split; [|constructor].
Qed.

(** C16. The double buffer: the memory is created only from a configuration that answers (its
    cursors end without an error, within the limits, for the rules of each group too); then
    after any sequence of loads the active section holds the rows of the last configuration
    that answered, whatever the failed loads wrote. *)
Theorem kr_shm_keeps_last db dbs m0 : kr_shm_create db = Ok (Some m0) ->
  exists rcs m, run_loads kr_shm_load dbs (Some m0) = Ok (rcs, Some m) /\ holds_last (db :: dbs) m.
Proof.
  intros Hc. assert (H0 : holds_last [db] m0).
  { unfold kr_shm_create in Hc. destruct (shm_load_outcome db (mkMem 0 0 [zero_section; zero_section])) as
      (rc & m & Hrun & Hl & _ & Hout); [by left|done|]. rewrite Hrun in Hc. cbn in Hc.
    destruct Hout as [(Ha & -> & Hn & _ & s & Hs & Hh & _)|(_ & -> & _)]; [|done]. injection Hc as <-.
    split; [right; by rewrite Hn|]. split; [done|]. exists [], db, [], s. by rewrite Hn. }
  clear Hc. change (db :: dbs) with ([db] ++ dbs). revert m0 H0. generalize [db]. induction dbs as [|d dbs IH]; intros done_ m H.
  { exists [], m. by rewrite app_nil_r. }
  destruct (holds_last_next _ _ d H) as (rc & m1 & E & H1). destruct (IH _ _ H1) as (rcs & m2 & Es & H2).
  exists (rc :: rcs), m2. cbn [run_loads]. rewrite E. cbn [mbind res_bind]. rewrite Es. split; [done|]. by rewrite <- app_assoc in H2.
Qed.

Lemma info_bind l (k : string -> res cJSON) : c_string l = Fault OutOfBounds -> c_string l ≫= k = Fault OutOfBounds.
Proof. by intros ->. Qed.

(** A set whose type has two characters, which the table of sets has room for, is described
    by reading past its array. *)
Theorem kr_shm_set_info_overreads r : set_fits r = true ->
  room (Set_.caOutSetDesc r) 101 = true -> room (Set_.caOutSetUsage r) 3 = true ->
  room (Set_.caOutSetType r) 3 = true -> String.length (kr_string_rtrim (Set_.caOutSetType r)) = 2%nat ->
  Set_.kr_shm_set_info (Set_.set_fill r) = Fault OutOfBounds.
Proof.
  intros [Hname _]%andb_true_iff Hdesc Husage [Hz _]%andb_true_iff Hl.
  assert (Hread : forall s n, room s n = true -> c_string (text s n) = Ok (kr_string_rtrim s)).
  { intros s n Hr. pose proof (read_text_text s n Hr) as H. unfold read_text in H. by destruct (c_string _); [injection H as ->|]. }
  unfold Set_.kr_shm_set_info. cbn [Set_.set_fill Set_.caSetName Set_.caSetDesc Set_.caSetUsage Set_.caSetType].
  rewrite (Hread _ 31%nat Hname), (Hread _ 101%nat Hdesc), (Hread _ 3%nat Husage). cbn [mbind res_bind].
  rewrite (c_string_full _ 2%nat Hz) by lia. done.
Qed.

(** * Descriptions *)

Definition add_field (j : cJSON) (f : string * (Z + string)) : cJSON :=
  match f.2 with
  | inl z => cJSON_AddNumberToObject j f.1 (d_of_Z z)
  | inr s => cJSON_AddStringToObject j f.1 (kr_string_rtrim s)
  end.
Definition describe (fields : list (string * (Z + string))) : cJSON := foldl add_field cJSON_CreateObject fields.

Lemma c_string_text s n : room s n = true -> c_string (text s n) = Ok (kr_string_rtrim s).
Proof.
  intros Hr. pose proof (read_text_text s n Hr) as H. unfold read_text in H.
  destruct (c_string _); [injection H as ->|]; done.
Qed.

Ltac describe_row H :=
  rewrite !andb_true_iff in H; destruct_and? H; cbn -[d_of_Z]; rewrite !c_string_text by done; done.

(** The description of a definition that was loaded has the numbers and the trimmed texts
    of its row, when the texts fit their arrays. *)
Theorem kr_shm_item_info_describes :
  (forall r, room (Sdi.caOutSdiName r) 31 && room (Sdi.caOutSdiDesc r) 101 && room (Sdi.caOutSdiType r) 2 &&
     room (Sdi.caOutSdiValueType r) 2 && room (Sdi.caOutSdiAggrFunc r) 51 && room (Sdi.caOutLocationProperty r) 2 &&
     room (Sdi.caOutSdiFilterFormat r) 2 && room (Sdi.caOutSdiFilterString r) 501 = true ->
   Sdi.kr_shm_sdi_info (Sdi.sdi_fill r) = Ok (describe
     [("id", inl (Sdi.lOutSdiId r)); ("name", inr (Sdi.caOutSdiName r)); ("desc", inr (Sdi.caOutSdiDesc r));
      ("type", inr (Sdi.caOutSdiType r)); ("value_type", inr (Sdi.caOutSdiValueType r));
      ("aggr_func", inr (Sdi.caOutSdiAggrFunc r)); ("datasrc", inl (Sdi.lOutStatisticsDatasrc r));
      ("index", inl (Sdi.lOutStatisticsIndex r)); ("field", inl (Sdi.lOutStatisticsField r));
      ("location", inl (Sdi.lOutStatisticsLocation r)); ("location_property", inr (Sdi.caOutLocationProperty r));
      ("filter_format", inr (Sdi.caOutSdiFilterFormat r)); ("filter_string", inr (Sdi.caOutSdiFilterString r))]%string)) /\
  (forall r, room (Ddi.caOutDdiName r) 31 && room (Ddi.caOutDdiDesc r) 101 && room (Ddi.caOutDdiType r) 2 &&
     room (Ddi.caOutDdiValueType r) 2 && room (Ddi.caOutDdiAggrFunc r) 51 && room (Ddi.caOutStatisticsType r) 2 &&
     room (Ddi.caOutStatisticsMethod r) 2 && room (Ddi.caOutDdiFilterFormat r) 2 &&
     room (Ddi.caOutDdiFilterString r) 501 = true ->
   Ddi.kr_shm_ddi_info (Ddi.ddi_fill r) = Ok (describe
     [("id", inl (Ddi.lOutDdiId r)); ("name", inr (Ddi.caOutDdiName r)); ("desc", inr (Ddi.caOutDdiDesc r));
      ("type", inr (Ddi.caOutDdiType r)); ("value_type", inr (Ddi.caOutDdiValueType r));
      ("aggr_func", inr (Ddi.caOutDdiAggrFunc r)); ("datasrc", inl (Ddi.lOutStatisticsDatasrc r));
      ("index", inl (Ddi.lOutStatisticsIndex r)); ("field", inl (Ddi.lOutStatisticsField r));
      ("statictics_type", inr (Ddi.caOutStatisticsType r)); ("statictics_value", inl (Ddi.lOutStatisticsValue r));
      ("statictics_count", inl (Ddi.lOutStatisticsCount r)); ("statictics_method", inr (Ddi.caOutStatisticsMethod r));
      ("filter_format", inr (Ddi.caOutDdiFilterFormat r)); ("filter_string", inr (Ddi.caOutDdiFilterString r))]%string)) /\
  (forall r, room (Hdi.caOutHdiName r) 31 && room (Hdi.caOutHdiDesc r) 101 && room (Hdi.caOutHdiType r) 2 &&
     room (Hdi.caOutHdiValueType r) 2 && room (Hdi.caOutHdiAggrFunc r) 51 && room (Hdi.caOutStatisticsType r) 2 &&
     room (Hdi.caOutStatisticsMethod r) 2 = true ->
   Hdi.kr_shm_hdi_info (Hdi.hdi_fill r) = Ok (describe
     [("id", inl (Hdi.lOutHdiId r)); ("name", inr (Hdi.caOutHdiName r)); ("desc", inr (Hdi.caOutHdiDesc r));
      ("type", inr (Hdi.caOutHdiType r)); ("value_type", inr (Hdi.caOutHdiValueType r));
      ("aggr_func", inr (Hdi.caOutHdiAggrFunc r)); ("datasrc", inl (Hdi.lOutStatisticsDatasrc r));
      ("index", inl (Hdi.lOutStatisticsIndex r)); ("statictics_type", inr (Hdi.caOutStatisticsType r));
      ("statictics_value", inl (Hdi.lOutStatisticsValue r)); ("statictics_method", inr (Hdi.caOutStatisticsMethod r))]%string)) /\
  (forall r, room (Rule.caOutRuleName r) 31 && room (Rule.caOutRuleDesc r) 101 && room (Rule.caOutRuleType r) 2 &&
     room (Rule.caOutRuleFunc r) 51 && room (Rule.caOutRuleCalcFormat r) 2 && room (Rule.caOutRuleCalcString r) 501 = true ->
   Rule.kr_shm_rule_info (Rule.rule_fill r) = Ok (describe
     [("id", inl (Rule.lOutRuleId r)); ("name", inr (Rule.caOutRuleName r)); ("desc", inr (Rule.caOutRuleDesc r));
      ("datasrc", inl (Rule.lOutRuleDatasrc r)); ("type", inr (Rule.caOutRuleType r)); ("func", inr (Rule.caOutRuleFunc r));
      ("weight", inl (Rule.lOutRuleWeight r)); ("calc_format", inr (Rule.caOutRuleCalcFormat r));
      ("calc_string", inr (Rule.caOutRuleCalcString r))]%string)) /\
  (forall r rules, room (Group.caOutGroupName r) 31 && room (Group.caOutGroupDesc r) 101 && room (Group.caOutGroupFunc r) 51 &&
     room (Group.caOutGroupCalcFormat r) 2 && room (Group.caOutGroupCalcString r) 501 = true ->
   Group.kr_shm_group_info (Group.with_rules r rules) = Ok (describe
     [("id", inl (Group.lOutGroupId r)); ("name", inr (Group.caOutGroupName r)); ("desc", inr (Group.caOutGroupDesc r));
      ("func", inr (Group.caOutGroupFunc r)); ("calc_format", inr (Group.caOutGroupCalcFormat r));
      ("calc_string", inr (Group.caOutGroupCalcString r))]%string)).
Proof.
  split_and!.
  - intros r H. unfold Sdi.kr_shm_sdi_info, Sdi.sdi_fill. describe_row H.
  - intros r H. unfold Ddi.kr_shm_ddi_info, Ddi.ddi_fill. describe_row H.
  - intros r H. unfold Hdi.kr_shm_hdi_info, Hdi.hdi_fill. describe_row H.
  - intros r H. unfold Rule.kr_shm_rule_info, Rule.rule_fill. describe_row H.
  - intros r rules H. unfold Group.kr_shm_group_info, Group.with_rules. describe_row H.
Qed.

(** * Examples *)

(** The outcomes of the loads, as KrDym takes them. *)
Definition view_kind {D E} (v : D -> option E) (r : res (Z * shm D)) : Z * T_KRShm E :=
  match r with Ok (rc, x) => (rc, default (mkShm [] 0) (shm_view v x)) | Fault _ => (-1, mkShm [] 0) end.
Definition view_loads (db : config) : shm_loads :=
  mkLoads
    (view_kind set_view (load_kind N_MAX_SET_NUM Set_.set_zero_def (Set_.kr_shm_set_load (dbsSetDefCur db))))
    (view_kind sdi_view (load_kind N_MAX_SDI_NUM Sdi.sdi_zero_def (Sdi.kr_shm_sdi_load (dbsSdiCur db))))
    (view_kind ddi_view (load_kind N_MAX_DDI_NUM Ddi.ddi_zero_def (Ddi.kr_shm_ddi_load (dbsDdiCur db))))
    (view_kind hdi_view (load_kind N_MAX_HDI_NUM Hdi.hdi_zero_def (Hdi.kr_shm_hdi_load (dbsHdiCur db))))
    (view_kind group_view (load_kind N_MAX_GROUP_NUM Group.group_zero_def (Group.kr_shm_group_load (dbsRuleCur db) (dbsGroupCur db))))
    (now db).

Lemma view_kind_ok {D E} (v : D -> option E) r rc x y : r = Ok (rc, x) -> shm_view v x = Some y ->
  kind_viewed v r (view_kind v r).
Proof. intros -> Hv. exists x. unfold view_kind. cbn. by rewrite Hv. Qed.
Lemma view_kind_fail {D E} (v : D -> option E) r rc x : r = Ok (rc, x) -> rc <> 0 -> kind_viewed v r (view_kind v r).
Proof. intros -> Hrc. by exists x. Qed.

Lemma view_loads_ok db : config_answers db -> config_fits db -> loads_viewed db (view_loads db).
Proof.
  intros Hans Hfits. destruct (shm_load_outcome db (mkMem 0 0 [zero_section; zero_section])) as (rc & m & _ & _ & _ & Hout); [by left|done|].
  destruct Hout as [(_ & _ & _ & _ & s & _ & Hh & [L1 L2 L3 L4 L5])|[Hc _]]; [|done].
  destruct (section_viewed db s Hfits Hh) as (t & Ht & _). unfold section_view in Ht.
  destruct (shm_view set_view _) as [y1|] eqn:V1; [|done]. destruct (shm_view sdi_view _) as [y2|] eqn:V2; [|done].
  destruct (shm_view ddi_view _) as [y3|] eqn:V3; [|done]. destruct (shm_view hdi_view _) as [y4|] eqn:V4; [|done].
  destruct (shm_view group_view _) as [y5|] eqn:V5; [|done].
  split; [by eapply view_kind_ok..|done].
Qed.

Definition list_cursor {R} (rows : list R) (blank : R) (time : Z) : cursor R :=
  mkCur KR_DBOK (fun k => match rows !! k with Some r => (KR_DBOK, r) | None => (KR_DBNOTFOUND, blank) end) KR_DBOK time.

Lemma list_cursor_answers {R} (Q : R -> Prop) most rows blank time : (length rows <= Z.to_nat most)%nat -> Forall Q rows ->
  answers Q most (list_cursor rows blank time).
Proof.
  intros Hl HQ. exists rows. split; [done|]. split; [|split; [|done]].
  - intros k r Hk. cbn. rewrite Hk. split; [by left|done].
  - split_and!; [done| |done]. cbn. by rewrite lookup_ge_None_2 by lia.
Qed.
Lemma list_cursor_fits {R} (fits : R -> bool) rows blank time : forallb fits rows = true -> cursor_fits fits (list_cursor rows blank time).
Proof.
  intros H k. cbn. destruct (rows !! k) as [r|] eqn:E; [|by intros [|]]. intros _.
  by eapply (forallb_forall fits rows), list_elem_of_In, list_elem_of_lookup_2.
Qed.

Definition set_blank : Set_.T_SetDefCur := Set_.mkRow 0 "" "" "" "" "" 0.
Definition sdi_blank : Sdi.T_SdiCur := Sdi.mkRow 0 "" "" "" "" "" "" 0 0 0 0 "" "" "".
Definition ddi_blank : Ddi.T_DdiCur := Ddi.mkRow 0 "" "" "" "" "" "" 0 0 0 "" 0 0 "" "" "".
Definition hdi_blank : Hdi.T_HdiCur := Hdi.mkRow 0 "" "" "" "" "" "" 0 0 "" 0 "".
Definition rule_blank : Rule.T_RuleCur := Rule.mkRow 0 "" "" 0 "" "" "" "" 0.
Definition group_blank : Group.T_GroupCur := Group.mkRow 0 "" "" "" "" "" 0 0 0 0.

Definition ex_config (time : Z) : config :=
  mkConfig (list_cursor [Set_.mkRow 1 "s  " "a set" "1" "1" "I" 4] set_blank time)
    (list_cursor [Sdi.mkRow 5 "last  " "" "1" "I" "" "" 2 1 2 0 "0" "F" "1  "] sdi_blank time)
    (list_cursor [] ddi_blank time) (list_cursor [] hdi_blank time)
    (fun id => list_cursor (if id =? 1 then [Rule.mkRow 3 "big" "" 1 "F" "1" "1" "" 10] else []) rule_blank time)
    (list_cursor [Group.mkRow 1 "all" "" "F" "1 " "" 0 0 0 0] group_blank time) time.

Lemma ex_config_answers time : config_answers (ex_config time).
Proof.
  split; apply list_cursor_answers; cbn; try lia; repeat constructor.
  apply list_cursor_answers; [vm_compute; lia|repeat constructor].
Qed.
Lemma ex_config_fits time : config_fits (ex_config time).
Proof.
  split; [..|intros id|]; apply list_cursor_fits; try (vm_compute; reflexivity).
  by destruct (id =? 1).
Qed.

(** A configuration whose cursor on the groups cannot be read. *)
Definition ex_broken : config :=
  mkConfig (dbsSetDefCur (ex_config 8)) (dbsSdiCur (ex_config 8)) (dbsDdiCur (ex_config 8)) (dbsHdiCur (ex_config 8))
    (dbsRuleCur (ex_config 8)) (mkCur KR_DBOK (fun _ => (-1, group_blank)) KR_DBOK 8) 8.

Definition ex_memory : T_KRShareMem := mkMem 0 0 [zero_section; zero_section].
Lemma ex_related : shm_related ex_memory (mkShareMem 0 0 [empty_section; empty_section]).
Proof.
  split_and!; [by left|done..|]. exists zero_section, empty_section. split_and!; [done| |done].
  unfold section_view, zero_section, zero_shm, shm_view, counted. cbn -[replicate]. done.
Qed.

#[local] Abbreviation ex_check :=
  (kr_dym_check (fun _ => true) example_parse (fun _ => false) example_cursor).
Definition ex_loaded : KrDym.T_KRShareMem :=
  match KrDym.kr_shm_load (view_loads (ex_config 7)) (Some (mkShareMem 0 0 [empty_section; empty_section])) with
  | Ok (_, Some a) => a
  | _ => mkShareMem 0 0 []
  end.
Definition ex_checked : T_KRDynamicMem * objs :=
  match ex_check example_dym.1 ex_loaded example_dym.2 with
  | Ok (0, d, os) => (d, os)
  | _ => example_dym
  end.

(** The parameters of an example of KrDym, brought up to date after the load. *)
Lemma kr_configuration_in_use_witness :
  exists a' sec, KrDym.kr_shm_load (view_loads (ex_config 7)) (Some (mkShareMem 0 0 [empty_section; empty_section])) =
      Ok (1, Some a') /\ active a' = Ok sec /\ section_rows (ex_config 7) sec /\
    ex_check example_dym.1 a' example_dym.2 = Ok (0, ex_checked.1, ex_checked.2) /\
    (made_in 0 (example_section 100 1) example_dym.1 -> reflects a' sec ex_checked.1).
Proof.
  destruct (kr_configuration_in_use (fun _ => true) example_parse (fun _ => false) example_cursor (ex_config 7)
    (view_loads (ex_config 7)) ex_memory _ ex_related (view_loads_ok _ (ex_config_answers 7) (ex_config_fits 7))
    (ex_config_answers 7) (ex_config_fits 7)) as (m' & a' & sec & _ & Ha & _ & Hact & Hrows & Hcheck).
  exists a', sec. assert (E : a' = ex_loaded).
  { assert (E : KrDym.kr_shm_load (view_loads (ex_config 7)) (Some (mkShareMem 0 0 [empty_section; empty_section])) =
      Ok (1, Some ex_loaded)) by (vm_compute; reflexivity). congruence. }
  assert (Hk : ex_check example_dym.1 ex_loaded example_dym.2 = Ok (0, ex_checked.1, ex_checked.2))
    by (vm_compute; reflexivity).
  rewrite E in *. split; [done|]. split; [done|]. split; [done|]. split; [done|].
  intros Hr. eapply Hcheck; [exact Hr| |exact Hk].
  assert (Hsec : active ex_loaded = Ok sec) by done. vm_compute in Hsec. injection Hsec as <-.
  repeat constructor; discriminate.
Defined.

Lemma kr_shm_refines_witness :
  exists rcs m' a', run_loads kr_shm_load [ex_config 7; ex_broken; ex_config 9] (Some ex_memory) = Ok (rcs, Some m') /\
    run_loads KrDym.kr_shm_load [view_loads (ex_config 7); view_loads ex_broken; view_loads (ex_config 9)]
      (Some (mkShareMem 0 0 [empty_section; empty_section])) = Ok (rcs, Some a') /\ shm_related m' a'.
Proof.
  assert (Hb : loads_viewed ex_broken (view_loads ex_broken)).
  { destruct (view_loads_ok (ex_config 8) (ex_config_answers 8) (ex_config_fits 8)) as [V1 V2 V3 V4 _ _].
    split; [exact V1|exact V2|exact V3|exact V4| |reflexivity].
    eapply view_kind_fail; [reflexivity|done]. }
  apply kr_shm_refines; [exact ex_related|].
  constructor; [apply view_loads_ok; [apply ex_config_answers|apply ex_config_fits]|].
  constructor; [exact Hb|]. constructor; [|constructor].
  apply view_loads_ok; [apply ex_config_answers|apply ex_config_fits].
Defined.

Lemma create_answers db : config_answers db -> exists m, kr_shm_create db = Ok (Some m).
Proof.
  intros Hdb. unfold kr_shm_create. destruct (shm_load_outcome db ex_memory) as (rc & m & Hrun & _ & _ & Hout); [by left|done|].
  unfold ex_memory in Hrun. rewrite Hrun. destruct Hout as [(_ & -> & _)|(Hc & _)]; [|done]. by exists m.
Qed.

Lemma kr_shm_keeps_last_witness :
  exists m0 rcs m, kr_shm_create (ex_config 7) = Ok (Some m0) /\
    run_loads kr_shm_load [ex_config 8; ex_broken] (Some m0) = Ok (rcs, Some m) /\
    holds_last [ex_config 7; ex_config 8; ex_broken] m.
Proof.
  destruct (create_answers (ex_config 7) (ex_config_answers 7)) as [m0 H0].
  destruct (kr_shm_keeps_last (ex_config 7) [ex_config 8; ex_broken] m0 H0) as (rcs & m & Hrun & Hm).
  by exists m0, rcs, m.
Defined.

Lemma kr_shm_set_info_overreads_witness :
  Set_.kr_shm_set_info (Set_.set_fill (Set_.mkRow 1 "s" "" "" "01" "S" 4)) = Fault OutOfBounds.
Proof. apply kr_shm_set_info_overreads; vm_compute; reflexivity. Defined.
