(* ===== verification/KrData.v ===== *)
(** Data retrieval (krdata/): the values a rule names are computed from the records of
    the database, from sets and from the historical data of the configuration database
    (kr_data.c, kr_set.c, kr_sdi.c, kr_sdi_func.c, kr_ddi.c, kr_ddi_func.c, kr_hdi.c,
    kr_hdi_func.c, kr_hdi_cache.c, and the state part of kr_context.c).

    The context is the state: the database (only read), the parameters of the thread,
    the record being examined and the scratch fields the items use.  The definitions of
    the items are read through their pointers in the shared memory, which stays as it is
    while a message is handled.  A calculator calls
    back into this file, and its callbacks may evaluate other calculators; the nesting
    is bounded by fuel.  An item that depends on itself never ends in the code; the
    fuel is enough for every other.

    The functions of the data module, the queries on the configuration database, local
    time and the clock are arguments.  The JSON dump of a context is not modelled. *)

From S2P Require Import Prelude KrString KrHashtable KrTypes KrHashset KrList KrCache.
From S2P Require Import KrCalcTree KrCalcJson KrDb KrDym.
From stdpp Require Import pretty.
From Stdlib Require Import SpecFloat.
Local Open Scope Z_scope.
#[local] Notation length := List.length.

(** * Data *)

Record T_KRHDICacheValue := mkCacheValue {
  cv_id : Z; cv_type : E_KRType; caDate : string; cv_ind : E_KRValueInd; cv_value : U_KRValue addr
}.

(** The cache of historical data: from keys to tables of cached values, by item. *)
Record hdi_cache := mkHdiCache {
  hc_cache : T_KRCache string KrDb.ptr;
  hc_heap : KrCache.heap string KrDb.ptr;
  hc_tables : gmap KrDb.ptr (T_KRHashTable (K:=Z) (V:=KrDb.ptr));
  hc_values : gmap KrDb.ptr T_KRHDICacheValue
}.

Section KrData.
Context {Data : Type} {SA : SortArgument}.

Record T_KRContext := mkContext {
  ptKRDB : T_KRDB (Data:=Data);
  ptHDICache : option hdi_cache;
  objects : objs;
  ptDym : T_KRDynamicMem;
  ptCurrRec : option recptr;
  ptGroup : option nat;
  eKeyType : E_KRType;
  pKeyValue : option keyref;
  ptRecList : option KrDb.ptr;
  ptRecord : option recptr
}.

Definition with_dym (c : T_KRContext) (d : T_KRDynamicMem) : T_KRContext :=
  mkContext (ptKRDB c) (ptHDICache c) (objects c) d (ptCurrRec c) (ptGroup c) (eKeyType c)
    (pKeyValue c) (ptRecList c) (ptRecord c).
Definition with_record (c : T_KRContext) (r : option recptr) : T_KRContext :=
  mkContext (ptKRDB c) (ptHDICache c) (objects c) (ptDym c) (ptCurrRec c) (ptGroup c) (eKeyType c)
    (pKeyValue c) (ptRecList c) r.
Definition with_key (c : T_KRContext) (ty : E_KRType) (k : keyref) (l : option KrDb.ptr) : T_KRContext :=
  mkContext (ptKRDB c) (ptHDICache c) (objects c) (ptDym c) (ptCurrRec c) (ptGroup c) ty
    (Some k) l (ptRecord c).
Definition with_group (c : T_KRContext) (g : option nat) : T_KRContext :=
  mkContext (ptKRDB c) (ptHDICache c) (objects c) (ptDym c) (ptCurrRec c) g (eKeyType c)
    (pKeyValue c) (ptRecList c) (ptRecord c).
Definition with_cache (c : T_KRContext) (h : option hdi_cache) : T_KRContext :=
  mkContext (ptKRDB c) h (objects c) (ptDym c) (ptCurrRec c) (ptGroup c) (eKeyType c)
    (pKeyValue c) (ptRecList c) (ptRecord c).
Definition with_currec (c : T_KRContext) (r : option recptr) : T_KRContext :=
  mkContext (ptKRDB c) (ptHDICache c) (objects c) (ptDym c) r (ptGroup c) (eKeyType c)
    (pKeyValue c) (ptRecList c) (ptRecord c).

(** [kr_context_clean] *)
Definition kr_context_clean (c : T_KRContext) : res T_KRContext :=
  d ← kr_dym_init (ptDym c);
  Ok (mkContext (ptKRDB c) (ptHDICache c) (objects c) d None None KR_TYPE_UNKNOWN None None None).

(** * Access to the state *)

Definition gets {A} (f : T_KRContext -> res A) : M T_KRContext A := fun c =>
  match f c with Ok a => Ok (a, c) | Fault e => Fault e end.
Definition modify (f : T_KRContext -> T_KRContext) : M T_KRContext unit := fun c => Ok (tt, f c).

Definition with_sdis (c : T_KRContext) (t : T_KRItems T_KRSDI) : T_KRContext :=
  with_dym c (mkDym (settable (ptDym c)) t (dditable (ptDym c)) (hditable (ptDym c)) (grouplist (ptDym c))).
Definition with_ddis (c : T_KRContext) (t : T_KRItems T_KRDDI) : T_KRContext :=
  with_dym c (mkDym (settable (ptDym c)) (sditable (ptDym c)) t (hditable (ptDym c)) (grouplist (ptDym c))).
Definition with_hdis (c : T_KRContext) (t : T_KRItems T_KRHDI) : T_KRContext :=
  with_dym c (mkDym (settable (ptDym c)) (sditable (ptDym c)) (dditable (ptDym c)) t (grouplist (ptDym c))).

(** An item is reached by the pointer of its table. *)
Definition read_sdi (id : Z) : M T_KRContext T_KRSDI :=
  gets (fun c => of_option BadPointer (items_ (sditable (ptDym c)) !! id)).
Definition write_sdi (id : Z) (i : T_KRSDI) : M T_KRContext unit :=
  modify (fun c => with_sdis c (mkItems (<[id := i]> (items_ (sditable (ptDym c))))
                                  (tConstructTime (sditable (ptDym c))))).
Definition read_ddi (id : Z) : M T_KRContext T_KRDDI :=
  gets (fun c => of_option BadPointer (items_ (dditable (ptDym c)) !! id)).
Definition write_ddi (id : Z) (i : T_KRDDI) : M T_KRContext unit :=
  modify (fun c => with_ddis c (mkItems (<[id := i]> (items_ (dditable (ptDym c))))
                                  (tConstructTime (dditable (ptDym c))))).
Definition read_hdi (id : Z) : M T_KRContext T_KRHDI :=
  gets (fun c => of_option BadPointer (items_ (hditable (ptDym c)) !! id)).
Definition write_hdi (id : Z) (i : T_KRHDI) : M T_KRContext unit :=
  modify (fun c => with_hdis c (mkItems (<[id := i]> (items_ (hditable (ptDym c))))
                                  (tConstructTime (hditable (ptDym c))))).

Definition curr_rec : M T_KRContext recptr := gets (fun c => of_option NullDeref (ptCurrRec c)).
Definition rec_ : M T_KRContext recptr := gets (fun c => of_option NullDeref (ptRecord c)).
Definition table_of_rec (r : recptr) : M T_KRContext (T_KRTable (Data:=Data)) :=
  gets (fun c => '(_, t) ← record_table (ptKRDB c) r; Ok t).
Definition field_type (r : recptr) (fld : Z) : M T_KRContext E_KRType :=
  gets (fun c => kr_get_field_type (ptKRDB c) r fld).

(** What the pointer to a field leads to. *)
Definition field_content (r : recptr) (fld : Z) : M T_KRContext keyptr :=
  gets (fun c => k ← kr_get_field_value (ptKRDB c) r fld; deref (ptKRDB c) k).

Definition KR_FIELDNO_TRANSTIME : Z := 1.
Definition kr_get_transtime (r : recptr) : M T_KRContext Z :=
  v ← field_content r KR_FIELDNO_TRANSTIME;
  match v with KeyLong l => mret l | _ => fail TypePun end.

(** A pointer to a field, as a calculator reads it.  An address in a record is none of
    the calculator's objects. *)
Definition key_valptr (k : keyptr) : res (option (valptr addr)) :=
  match k with
  | KeyInt i => Ok (Some (VInt i))
  | KeyLong l => Ok (Some (VLong l))
  | KeyDouble d => Ok (Some (VDouble d))
  | KeyString s => Ok (Some (VString s))
  | KeyPointer _ => Fault BadPointer
  end.

(** * Sets (kr_set.c) *)

Definition kr_set_lookup (aid : Z) : M T_KRContext (option T_KRSet) :=
  gets (fun c => Ok (t ← settable (ptDym c); items_ t !! aid)).
Definition kr_set_get_type (aid : Z) : M T_KRContext E_KRType :=
  s ← kr_set_lookup aid;
  mret (match s with Some s => set_eValueType s | None => KR_TYPE_UNKNOWN end).
Definition kr_set_get_value (aid : Z) : M T_KRContext (option (valptr addr)) :=
  s ← kr_set_lookup aid;
  mret (match s with Some s => Some (VPointer (ptHashSet s)) | None => None end).

(** * Types of the items *)

Definition kr_sdi_get_type (sid : Z) : M T_KRContext E_KRType :=
  gets (fun c => Ok (match kr_sdi_lookup (sditable (ptDym c)) sid with
                     | Some i => sdi_eValueType i | None => KR_TYPE_UNKNOWN end)).
Definition kr_ddi_get_type (did : Z) : M T_KRContext E_KRType :=
  gets (fun c => Ok (match kr_ddi_lookup (dditable (ptDym c)) did with
                     | Some i => ddi_eValueType i | None => KR_TYPE_UNKNOWN end)).
Definition kr_hdi_get_type (hid : Z) : M T_KRContext E_KRType :=
  gets (fun c => Ok (match kr_hdi_lookup (hditable (ptDym c)) hid with
                     | Some i => hdi_eValueType i | None => KR_TYPE_UNKNOWN end)).

Definition kr_data_get_type (kind : E_KRCalcKind) (id : Z) : M T_KRContext E_KRType :=
  match kind with
  | KR_CALCKIND_CID => r ← curr_rec; field_type r id
  | KR_CALCKIND_FID => r ← rec_; field_type r id
  | KR_CALCKIND_SET => kr_set_get_type id
  | KR_CALCKIND_SID => kr_sdi_get_type id
  | KR_CALCKIND_DID => kr_ddi_get_type id
  | KR_CALCKIND_HID => kr_hdi_get_type id
  | _ => mret KR_TYPE_UNKNOWN
  end.

(** * Evaluation

    [get_value] is the callback [kr_data_get_value], whose nesting is bounded. *)

Section Items.
(** The shared memory, where the definitions of the items are. *)
Context (shm : T_KRShareMem).
Context (regexec : string -> string -> bool).
Context (sdi_func ddi_func hdi_func : string -> Z -> M T_KRContext Z).
Context (get_value : E_KRCalcKind -> Z -> M T_KRContext (option (valptr addr))).

Definition eval_calc (krcalc : option T_KRCalc) : M T_KRContext (Z * T_KRCalc) :=
  krcalc ← lift (of_option NullDeref krcalc);
  kr_calc_eval (fun c p => objects c !! p) regexec kr_data_get_type get_value krcalc.

(** A calculator's value is set and true. *)
Definition calc_true (krcalc : T_KRCalc) : res bool :=
  i ← kr_calc_ind krcalc;
  match i with
  | KR_VALUE_SETED => v ← kr_calc_value krcalc; b ← get_b v; Ok (negb (b =? 0))
  | KR_VALUE_UNSET => Ok false
  end.

(** The filter of an item on the record: [None] is the error return. *)
Definition filter_result (rc : Z) (krcalc : T_KRCalc) : res (option bool) :=
  if negb (rc =? 0) then Ok None
  else
    ty ← kr_calc_type krcalc;
    if negb (ty_eq ty KR_TYPE_BOOL) then Ok None else b ← calc_true krcalc; Ok (Some b).

(** The index an item is computed on: the key of the current record and its list. *)
Definition set_key (index : Z) : M T_KRContext bool :=
  cur ← curr_rec;
  t ← table_of_rec cur;
  c ← gets Ok;
  match kr_get_table_index (ptKRDB c) t (i32 index) with
  | None => mret false
  | Some p =>
      ix ← gets (fun c => of_option BadPointer (indexes (ptKRDB c) !! p));
      ty ← field_type cur (iIndexFieldId ix);
      k ← gets (fun c => kr_get_field_value (ptKRDB c) cur (iIndexFieldId ix));
      l ← gets (fun c => '(l, _) ← kr_get_record_list ix k (ptKRDB c); Ok l);
      modify (fun c => with_key c ty k l);;
      mret true
  end.

(** The nodes of the list of the context, from its tail. *)
Definition list_nodes : M T_KRContext (list recptr) :=
  gets (fun c =>
    p ← of_option NullDeref (ptRecList c);
    l ← of_option BadPointer (reclists (ptKRDB c) !! p);
    Ok (reverse l)).

(** ** Static items *)

Definition sdi_with_calc (i : T_KRSDI) (c : T_KRCalc) : T_KRSDI :=
  mkSDI (ptShmSDIDef i) (lSDIId i) (Some c) (sdi_eValueType i) (SDIAggrFunc i) (sdi_ptCurrRec i)
    (sdi_eValueInd i) (sdi_uValue i) (sdi_ptRelated i).
Definition sdi_with_value (i : T_KRSDI) (v : U_KRValue addr) (r : recptr) : T_KRSDI :=
  mkSDI (ptShmSDIDef i) (lSDIId i) (ptSDICalc i) (sdi_eValueType i) (SDIAggrFunc i) (sdi_ptCurrRec i)
    KR_VALUE_SETED v ({[r]} ∪ sdi_ptRelated i).
Definition sdi_with_rec (i : T_KRSDI) (r : option recptr) : T_KRSDI :=
  mkSDI (ptShmSDIDef i) (lSDIId i) (ptSDICalc i) (sdi_eValueType i) (SDIAggrFunc i) r
    (sdi_eValueInd i) (sdi_uValue i) (sdi_ptRelated i).

(** A field read at a type: [None] for the types that are not supported. *)
Definition typed_value (ty : E_KRType) (v : keyptr) : res (option (U_KRValue addr)) :=
  match ty with
  | KR_TYPE_INT => match v with KeyInt i => Ok (Some (KRInt i)) | _ => Fault TypePun end
  | KR_TYPE_LONG => match v with KeyLong l => Ok (Some (KRLong l)) | _ => Fault TypePun end
  | KR_TYPE_DOUBLE => match v with KeyDouble d => Ok (Some (KRDouble d)) | _ => Fault TypePun end
  | KR_TYPE_STRING => match v with KeyString s => Ok (Some (KRString (Some s))) | _ => Fault TypePun end
  | _ => Ok None
  end.

(** The loop of [kr_sdi_aggr_func]; [ptRecord] is read again after the evaluation, which
    may have changed it. *)
Fixpoint sdi_aggr_loop (id : Z) (nodes : list recptr) (iAbsLoc iRelLoc : Z) : M T_KRContext Z :=
  match nodes with
  | [] => mret 0
  | node :: nodes' =>
      modify (fun c => with_record c (Some node));;
      let iAbsLoc := i32 (iAbsLoc + 1) in
      krsdi ← read_sdi id;
      def ← lift (sdi_def shm (ptShmSDIDef krsdi));
      if bool_decide (caLocationProperty def = KR_LOC_ABSOLUTE) && negb (sdi_location def =? iAbsLoc)
      then sdi_aggr_loop id nodes' iAbsLoc iRelLoc
      else
      r ← rec_;
      t ← table_of_rec r;
      if negb (iTableId t =? sdi_datasrc def) then sdi_aggr_loop id nodes' iAbsLoc iRelLoc
      else
      '(rc, krcalc) ← eval_calc (ptSDICalc krsdi);
      krsdi ← read_sdi id;
      write_sdi id (sdi_with_calc krsdi krcalc);;
      ok ← lift (filter_result rc krcalc);
      match ok with
      | None => mret (-1)
      | Some false => sdi_aggr_loop id nodes' iAbsLoc iRelLoc
      | Some true =>
          let iRelLoc := i32 (iRelLoc + 1) in
          if bool_decide (caLocationProperty def = KR_LOC_RELATIVE) && negb (sdi_location def =? iRelLoc)
          then sdi_aggr_loop id nodes' iAbsLoc iRelLoc
          else
          r ← rec_;
          val ← field_content r (i32 (sdi_field def));
          v ← lift (typed_value (sdi_eValueType krsdi) val);
          match v with
          | None => mret (-1)
          | Some v =>
              krsdi ← read_sdi id;
              write_sdi id (sdi_with_value krsdi v r);;
              mret 0
          end
      end
  end.

Definition kr_sdi_aggr_func (id : Z) : M T_KRContext Z :=
  nodes ← list_nodes; sdi_aggr_loop id nodes (-1) (-1).

Definition kr_sdi_compute (id : Z) : M T_KRContext Z :=
  krsdi ← read_sdi id;
  krsdi ← lift (kr_sdi_init krsdi);
  write_sdi id krsdi;;
  def ← lift (sdi_def shm (ptShmSDIDef krsdi));
  ok ← set_key (sdi_index def);
  if negb (ok : bool) then mret 0
  else
    rc ← match SDIAggrFunc krsdi with None => kr_sdi_aggr_func id | Some f => sdi_func f id end;
    if negb (rc =? 0) then mret (-1) else mret 0.

(** The value of an item that is set. *)
Definition item_value (i : E_KRValueInd) (v : U_KRValue addr) (ty : E_KRType)
    : M T_KRContext (option (valptr addr)) :=
  match i with
  | KR_VALUE_SETED => lift (kr_get_value v ty)
  | KR_VALUE_UNSET => mret None
  end.

Definition kr_sdi_get_value (sid : Z) : M T_KRContext (option (valptr addr)) :=
  c ← gets Ok;
  match kr_sdi_lookup (sditable (ptDym c)) sid with
  | None => mret None
  | Some krsdi =>
      if bool_decide (sdi_ptCurrRec krsdi <> ptCurrRec c) then
        _ ← kr_sdi_compute sid;
        krsdi ← read_sdi sid;
        match sdi_eValueInd krsdi with
        | KR_VALUE_UNSET => mret None
        | KR_VALUE_SETED =>
            c ← gets Ok;
            write_sdi sid (sdi_with_rec krsdi (ptCurrRec c));;
            item_value (sdi_eValueInd krsdi) (sdi_uValue krsdi) (sdi_eValueType krsdi)
        end
      else item_value (sdi_eValueInd krsdi) (sdi_uValue krsdi) (sdi_eValueType krsdi)
  end.

(** ** Dynamic items *)

Definition ddi_with_calc (i : T_KRDDI) (c : T_KRCalc) : T_KRDDI :=
  mkDDI (ptShmDDIDef i) (lDDIId i) (Some c) (ddi_eValueType i) (DDIAggrFunc i) (ddi_ptCurrRec i)
    (ddi_eValueInd i) (ddi_uValue i) (ddi_ptRelated i).
Definition ddi_with_value (i : T_KRDDI) (v : U_KRValue addr) (r : recptr) : T_KRDDI :=
  mkDDI (ptShmDDIDef i) (lDDIId i) (ptDDICalc i) (ddi_eValueType i) (DDIAggrFunc i) (ddi_ptCurrRec i)
    (ddi_eValueInd i) v ({[r]} ∪ ddi_ptRelated i).
Definition ddi_with_ind (i : T_KRDDI) (x : E_KRValueInd) : T_KRDDI :=
  mkDDI (ptShmDDIDef i) (lDDIId i) (ptDDICalc i) (ddi_eValueType i) (DDIAggrFunc i) (ddi_ptCurrRec i)
    x (ddi_uValue i) (ddi_ptRelated i).
Definition ddi_with_rec (i : T_KRDDI) (r : option recptr) : T_KRDDI :=
  mkDDI (ptShmDDIDef i) (lDDIId i) (ptDDICalc i) (ddi_eValueType i) (DDIAggrFunc i) r
    (ddi_eValueInd i) (ddi_uValue i) (ddi_ptRelated i).

(** The aggregation method, at the type of the item: [None] is the error return. *)
Definition ddi_method_value (m : E_KRDDIMethod) (ty : E_KRType) (u st : U_KRValue addr)
    : res (option (U_KRValue addr)) :=
  match m with
  | KR_DDI_METHOD_SUM =>
      match ty with
      | KR_TYPE_INT => a ← get_i u; b ← get_i st; Ok (Some (KRInt (i32 (a + b))))
      | KR_TYPE_LONG => a ← get_l u; b ← get_l st; Ok (Some (KRLong (i64 (a + b))))
      | KR_TYPE_DOUBLE => a ← get_d u; b ← get_d st; Ok (Some (KRDouble (d_add a b)))
      | _ => Ok None
      end
  | KR_DDI_METHOD_MIN =>
      match ty with
      | KR_TYPE_INT => a ← get_i u; b ← get_i st; Ok (Some (KRInt (if a <? b then a else b)))
      | KR_TYPE_LONG => a ← get_l u; b ← get_l st; Ok (Some (KRLong (if a <? b then a else b)))
      | KR_TYPE_DOUBLE => a ← get_d u; b ← get_d st; Ok (Some (KRDouble (if d_lt a b then a else b)))
      | _ => Ok None
      end
  | KR_DDI_METHOD_MAX =>
      match ty with
      | KR_TYPE_INT => a ← get_i u; b ← get_i st; Ok (Some (KRInt (if b <? a then a else b)))
      | KR_TYPE_LONG => a ← get_l u; b ← get_l st; Ok (Some (KRLong (if b <? a then a else b)))
      | KR_TYPE_DOUBLE => a ← get_d u; b ← get_d st; Ok (Some (KRDouble (if d_lt b a then a else b)))
      | _ => Ok None
      end
  | KR_DDI_METHOD_COUNT =>
      match ty with
      | KR_TYPE_INT => a ← get_i u; Ok (Some (KRInt (i32 (a + 1))))
      | KR_TYPE_LONG => a ← get_l u; Ok (Some (KRLong (i64 (a + 1))))
      | KR_TYPE_DOUBLE => a ← get_d u; Ok (Some (KRDouble (d_add a (d_of_Z 1))))
      | _ => Ok None
      end
  | KR_DDI_METHOD_CON_INC | KR_DDI_METHOD_CON_DEC | KR_DDI_METHOD_CNT_DIS => Ok (Some u)
  | KR_DDI_METHOD_OTHER => Ok None
  end.

Fixpoint ddi_aggr_loop (id : Z) (nodes : list recptr) : M T_KRContext Z :=
  match nodes with
  | [] => mret 0
  | node :: nodes' =>
      modify (fun c => with_record c (Some node));;
      krddi ← read_ddi id;
      def ← lift (ddi_def shm (ptShmDDIDef krddi));
      c ← gets Ok;
      if bool_decide (ddi_stype def = KR_DDI_STATISTICS_EXCLUDE) && bool_decide (ptRecord c = ptCurrRec c)
      then ddi_aggr_loop id nodes'
      else
      r ← rec_;
      t ← table_of_rec r;
      if negb (iTableId t =? ddi_datasrc def) then ddi_aggr_loop id nodes'
      else
      cur ← curr_rec;
      tCurrTransTime ← kr_get_transtime cur;
      tRecTransTime ← kr_get_transtime r;
      if ddi_value def <? i64 (tCurrTransTime - tRecTransTime) then ddi_aggr_loop id nodes'
      else
      '(rc, krcalc) ← eval_calc (ptDDICalc krddi);
      krddi ← read_ddi id;
      write_ddi id (ddi_with_calc krddi krcalc);;
      ok ← lift (filter_result rc krcalc);
      match ok with
      | None => mret (-1)
      | Some false => ddi_aggr_loop id nodes'
      | Some true =>
          r ← rec_;
          ty ← field_type r (i32 (ddi_field def));
          val ← field_content r (i32 (ddi_field def));
          stValue ← lift (typed_value ty val);
          match stValue with
          | None => mret (-1)
          | Some stValue =>
              krddi ← read_ddi id;
              v ← lift (ddi_method_value (ddi_method def) (ddi_eValueType krddi) (ddi_uValue krddi) stValue);
              match v with
              | None => mret (-1)
              | Some v => write_ddi id (ddi_with_value krddi v r);; ddi_aggr_loop id nodes'
              end
          end
      end
  end.

Definition kr_ddi_aggr_func (id : Z) : M T_KRContext Z :=
  nodes ← list_nodes;
  rc ← ddi_aggr_loop id nodes;
  if negb (rc =? 0) then mret rc
  else krddi ← read_ddi id; write_ddi id (ddi_with_ind krddi KR_VALUE_SETED);; mret 0.

Definition kr_ddi_compute (id : Z) : M T_KRContext Z :=
  krddi ← read_ddi id;
  krddi ← lift (kr_ddi_init krddi);
  write_ddi id krddi;;
  def ← lift (ddi_def shm (ptShmDDIDef krddi));
  ok ← set_key (ddi_index def);
  if negb (ok : bool) then mret 0
  else
    rc ← match DDIAggrFunc krddi with None => kr_ddi_aggr_func id | Some f => ddi_func f id end;
    if negb (rc =? 0) then mret (-1) else mret 0.

Definition kr_ddi_get_value (did : Z) : M T_KRContext (option (valptr addr)) :=
  c ← gets Ok;
  match kr_ddi_lookup (dditable (ptDym c)) did with
  | None => mret None
  | Some krddi =>
      if bool_decide (ddi_ptCurrRec krddi <> ptCurrRec c) then
        _ ← kr_ddi_compute did;
        krddi ← read_ddi did;
        match ddi_eValueInd krddi with
        | KR_VALUE_UNSET => mret None
        | KR_VALUE_SETED =>
            c ← gets Ok;
            write_ddi did (ddi_with_rec krddi (ptCurrRec c));;
            item_value (ddi_eValueInd krddi) (ddi_uValue krddi) (ddi_eValueType krddi)
        end
      else item_value (ddi_eValueInd krddi) (ddi_uValue krddi) (ddi_eValueType krddi)
  end.

(** ** Historical items *)

Context (localtime : Z -> Z * Z * Z).
Context (dbsHdiDaySel dbsHdiMonSel : string -> Z -> string -> string -> Z).
Context (dbsHdiFlagSel : string -> Z -> Z * string).
Context (now : Z).

Definition KR_DBOK : Z := 0.
Definition KR_DBNOTFOUND : Z := 100.
Definition db_error (rc : Z) : bool := negb (rc =? KR_DBOK) && negb (rc =? KR_DBNOTFOUND).

(** [kr_ttime_to_date] (kr_datetime.c): local time as [%04d%02d%02d]. *)
Definition kr_ttime_to_date (t : Z) : string :=
  let '(tm_year, tm_mon, tm_mday) := localtime t in
  (print_padded 4 (tm_year + 1900) ++ print_padded 2 (tm_mon + 1) ++ print_padded 2 tm_mday)%string.

(** [%lf]: six decimals, rounded to nearest, ties to even. *)
Definition print_double (d : double) : string :=
  match d with
  | S754_nan => "nan"%string
  | S754_infinity s => if s then "-inf"%string else "inf"%string
  | S754_zero s => if s then "-0.000000"%string else "0.000000"%string
  | S754_finite s m e =>
      let n := Z.pos m * 10 ^ 6 in
      let q := if 0 <=? e then n * 2 ^ e
               else let k := 2 ^ (- e) in
                    let q := n / k in let r := n `mod` k in
                    if (k <? 2 * r) || ((k =? 2 * r) && Z.odd q) then q + 1 else q in
      ((if s then "-" else "") ++ pretty (q / 10 ^ 6) ++ "." ++ print_padded 6 (q `mod` 10 ^ 6))%string
  end.

Definition KR_HDI_OBJECT_LEN : nat := 30.

(** The key as the object of a query: [None] for a type that is not supported. *)
Definition data_object (ty : E_KRType) (k : keyptr) : res (option string) :=
  match ty with
  | KR_TYPE_INT => match k with KeyInt i => Ok (Some (cut_at KR_HDI_OBJECT_LEN (pretty i))) | _ => Fault TypePun end
  | KR_TYPE_LONG => match k with KeyLong l => Ok (Some (cut_at KR_HDI_OBJECT_LEN (pretty l))) | _ => Fault TypePun end
  | KR_TYPE_DOUBLE => match k with KeyDouble d => Ok (Some (cut_at KR_HDI_OBJECT_LEN (print_double d))) | _ => Fault TypePun end
  | KR_TYPE_STRING => match k with KeyString s => Ok (Some (cut_at KR_HDI_OBJECT_LEN s)) | _ => Fault TypePun end
  | _ => Ok None
  end.

Definition hdi_with_value (i : T_KRHDI) (v : U_KRValue addr) : T_KRHDI :=
  mkHDI (ptShmHDIDef i) (lHDIId i) (hdi_eValueType i) (HDIAggrFunc i) (hdi_ptCurrRec i)
    (Some KR_VALUE_SETED) v.
Definition hdi_with_rec (i : T_KRHDI) (r : option recptr) : T_KRHDI :=
  mkHDI (ptShmHDIDef i) (lHDIId i) (hdi_eValueType i) (HDIAggrFunc i) r (hdi_eValueInd i) (hdi_uValue i).

(** The query's result is not read (its use is commented out): the value is that of
    [dValue], 0. *)
Definition zero_value (ty : E_KRType) : option (U_KRValue addr) :=
  match ty with
  | KR_TYPE_INT => Some (KRInt 0)
  | KR_TYPE_LONG => Some (KRLong 0)
  | KR_TYPE_DOUBLE => Some (KRDouble d_zero)
  | _ => None
  end.

Definition set_hdi (id : Z) (v : option (U_KRValue addr)) : M T_KRContext Z :=
  match v with
  | None => mret (-1)
  | Some v => krhdi ← read_hdi id; write_hdi id (hdi_with_value krhdi v);; mret 0
  end.

Definition kr_hdi_aggr_day (id : Z) (object : string) : M T_KRContext Z :=
  krhdi ← read_hdi id;
  cur ← curr_rec;
  tEndTime ← kr_get_transtime cur;
  def ← lift (hdi_def shm (ptShmHDIDef krhdi));
  let tBeginTime := i64 (tEndTime - hdi_value def) in
  if db_error (dbsHdiDaySel object (lHDIId krhdi) (kr_ttime_to_date tBeginTime) (kr_ttime_to_date tEndTime))
  then mret (-1) else set_hdi id (zero_value (hdi_eValueType krhdi)).

(** The first six bytes of the dates. *)
Definition kr_hdi_aggr_mon (id : Z) (object : string) : M T_KRContext Z :=
  krhdi ← read_hdi id;
  cur ← curr_rec;
  tEndTime ← kr_get_transtime cur;
  def ← lift (hdi_def shm (ptShmHDIDef krhdi));
  let tBeginTime := i64 (tEndTime - hdi_value def) in
  if db_error (dbsHdiMonSel object (lHDIId krhdi) (cut_at 6 (kr_ttime_to_date tBeginTime))
                 (cut_at 6 (kr_ttime_to_date tEndTime)))
  then mret (-1) else set_hdi id (zero_value (hdi_eValueType krhdi)).

Definition kr_hdi_aggr_flag (id : Z) (object : string) : M T_KRContext Z :=
  krhdi ← read_hdi id;
  let '(rc, flag) := dbsHdiFlagSel object (lHDIId krhdi) in
  if db_error rc then mret (-1)
  else set_hdi id (match hdi_eValueType krhdi with
                   | KR_TYPE_INT => Some (KRInt (atoi flag))
                   | KR_TYPE_LONG => Some (KRLong (atol flag))
                   | KR_TYPE_DOUBLE => Some (KRDouble (atof flag))
                   | KR_TYPE_STRING => Some (KRString (Some flag))
                   | _ => None
                   end).

(** The return codes of the three are logged only. *)
Definition kr_hdi_aggr_func (id : Z) : M T_KRContext Z :=
  krhdi ← read_hdi id;
  k ← gets (fun c => match eKeyType c with
                     | KR_TYPE_INT | KR_TYPE_LONG | KR_TYPE_DOUBLE | KR_TYPE_STRING =>
                         k ← of_option NullDeref (pKeyValue c); v ← deref (ptKRDB c) k;
                         data_object (eKeyType c) v
                     | _ => Ok None
                     end);
  match k with
  | None => mret (-1)
  | Some caDataObject =>
      def ← lift (hdi_def shm (ptShmHDIDef krhdi));
      match hdi_stype def with
      | KR_HDI_STATISTICS_DAY => _ ← kr_hdi_aggr_day id caDataObject; mret 0
      | KR_HDI_STATISTICS_MONTH => _ ← kr_hdi_aggr_mon id caDataObject; mret 0
      | KR_HDI_STATISTICS_FLAG => _ ← kr_hdi_aggr_flag id caDataObject; mret 0
      | KR_HDI_STATISTICS_OTHER => mret (-1)
      end
  end.

Definition kr_hdi_compute (id : Z) : M T_KRContext Z :=
  krhdi ← read_hdi id;
  krhdi ← lift (kr_hdi_init krhdi);
  write_hdi id krhdi;;
  def ← lift (hdi_def shm (ptShmHDIDef krhdi));
  ok ← set_key (hdi_index def);
  if negb (ok : bool) then mret 0
  else
    rc ← match HDIAggrFunc krhdi with None => kr_hdi_aggr_func id | Some f => hdi_func f id end;
    if negb (rc =? 0) then mret (-1) else mret 0.

(** ** The cache of historical data (kr_hdi_cache.c) *)

Definition kr_hdi_cache_value_new (hid : Z) : T_KRHDICacheValue :=
  mkCacheValue hid KR_TYPE_UNKNOWN "" KR_VALUE_UNSET KRZero.

(** An evicted entry's table is destroyed, with its values. *)
Fixpoint free_tables (l : list (KrCache.release (K:=string) (V:=KrDb.ptr)))
    (ts : gmap KrDb.ptr (T_KRHashTable (K:=Z) (V:=KrDb.ptr)))
    : gmap KrDb.ptr (T_KRHashTable (K:=Z) (V:=KrDb.ptr)) :=
  match l with
  | [] => ts
  | ValueFree p :: l' => free_tables l' (delete p ts)
  | KeyFree _ :: l' => free_tables l' ts
  end.

(** The value of an item under a key, made when there is none.  The values of a table
    that was destroyed stay in the store, where nothing leads to them. *)
Definition kr_hdi_cache_get (h : hdi_cache) (key : string) (hid : Z) : res (KrDb.ptr * hdi_cache) :=
  '(found, c, hp) ← kr_cache_get kr_string_hash (Some kr_string_equal) (hc_cache h) key now (hc_heap h);
  '(node, h) ←
    match found with
    | Some node => Ok (node, mkHdiCache c hp (hc_tables h) (hc_values h))
    | None =>
        t ← kr_hashtable_new_full false true;
        let node := fresh (dom (hc_tables h)) in
        '(c, hp) ← kr_cache_set kr_string_hash (Some kr_string_equal) c key node
                     (KrCache.mkHeap (lists hp) (cnodes hp) []);
        Ok (node, mkHdiCache c hp (<[node := t]> (free_tables (released hp) (hc_tables h))) (hc_values h))
    end;
  t ← of_option BadPointer (hc_tables h !! node);
  v ← (match found with
       | Some _ => kr_hashtable_lookup kr_long_hash (Some kr_long_equal) (Some t) hid
       | None => Ok None
       end);
  match v with
  | Some v => Ok (v, h)
  | None =>
      let v := fresh (dom (hc_values h)) in
      '(t, _) ← kr_hashtable_replace kr_long_hash (Some kr_long_equal) t hid (Some v);
      Ok (v, mkHdiCache (hc_cache h) (hc_heap h) (<[node := t]> (hc_tables h))
               (<[v := kr_hdi_cache_value_new hid]> (hc_values h)))
  end.

Definition kr_hdi_cache_create (cache_size : Z) : res (option hdi_cache) :=
  c ← kr_cache_new cache_size (Some kr_string_dup) true None true;
  Ok (option_map (fun c => mkHdiCache c (KrCache.mkHeap (mkStore ∅ []) ∅ []) ∅ ∅) c).

(** The types whose values are copied between an item and the cache. *)
Definition copied_type (ty : E_KRType) : bool :=
  match ty with KR_TYPE_INT | KR_TYPE_LONG | KR_TYPE_DOUBLE | KR_TYPE_STRING => true | _ => false end.
Definition copy_value (ty : E_KRType) (from to : U_KRValue addr) : res (U_KRValue addr) :=
  match ty with
  | KR_TYPE_INT => i ← get_i from; Ok (KRInt i)
  | KR_TYPE_LONG => l ← get_l from; Ok (KRLong l)
  | KR_TYPE_DOUBLE => d ← get_d from; Ok (KRDouble d)
  | KR_TYPE_STRING => s ← get_s from; s ← of_option NullDeref s; Ok (KRString (Some s))
  | _ => Ok to
  end.

(** The key of the cache is read before the item sets the key of its own index. *)
Definition kr_hdi_get_value_from_cache (id : Z) : M T_KRContext unit :=
  krhdi ← read_hdi id;
  h ← gets (fun c => of_option NullDeref (ptHDICache c));
  key ← gets (fun c => k ← of_option NullDeref (pKeyValue c); v ← deref (ptKRDB c) k;
                       match v with KeyString s => Ok s | _ => Fault TypePun end);
  '(p, h) ← lift (kr_hdi_cache_get h key (lHDIId krhdi));
  modify (fun c => with_cache c (Some h));;
  cv ← lift (of_option BadPointer (hc_values h !! p));
  if bool_decide (cv_ind cv = KR_VALUE_SETED) && (0 <=? strcmp (caDate cv) "00000000") then
    v ← lift (copy_value (hdi_eValueType krhdi) (cv_value cv) (hdi_uValue krhdi));
    write_hdi id (hdi_with_value krhdi v)
  else
    _ ← kr_hdi_compute id;
    krhdi ← read_hdi id;
    if bool_decide (hdi_eValueInd krhdi <> Some KR_VALUE_SETED) then mret tt
    else
      cur ← curr_rec;
      tTransTime ← kr_get_transtime cur;
      h ← gets (fun c => of_option NullDeref (ptHDICache c));
      cv ← lift (of_option BadPointer (hc_values h !! p));
      v ← lift (copy_value (hdi_eValueType krhdi) (hdi_uValue krhdi) (cv_value cv));
      let cv := mkCacheValue (cv_id cv) (hdi_eValueType krhdi) (kr_ttime_to_date tTransTime)
                  KR_VALUE_SETED v in
      modify (fun c => with_cache c (Some (mkHdiCache (hc_cache h) (hc_heap h) (hc_tables h)
                                             (<[p := cv]> (hc_values h))))).

Definition kr_hdi_get_value (hid : Z) : M T_KRContext (option (valptr addr)) :=
  c ← gets Ok;
  match kr_hdi_lookup (hditable (ptDym c)) hid with
  | None => mret None
  | Some krhdi =>
      ok ← (if bool_decide (hdi_ptCurrRec krhdi <> ptCurrRec c) then
              ok ← match ptHDICache c with
                   | Some _ => kr_hdi_get_value_from_cache hid;; mret true
                   | None => rc ← kr_hdi_compute hid; mret (rc =? 0)
                   end;
              if negb (ok : bool) then mret false
              else
                krhdi ← read_hdi hid; c ← gets Ok;
                write_hdi hid (hdi_with_rec krhdi (ptCurrRec c));; mret true
            else mret true);
      if negb (ok : bool) then mret None
      else
        krhdi ← read_hdi hid;
        match hdi_eValueInd krhdi with
        | Some KR_VALUE_SETED => lift (kr_get_value (hdi_uValue krhdi) (hdi_eValueType krhdi))
        | _ => mret None
        end
  end.

End Items.

(** * The callback (kr_data.c) *)

Section DataValue.
Context (shm : T_KRShareMem).
Context (regexec : string -> string -> bool).
Context (sdi_func ddi_func hdi_func : string -> Z -> M T_KRContext Z).
Context (localtime : Z -> Z * Z * Z).
Context (dbsHdiDaySel dbsHdiMonSel : string -> Z -> string -> string -> Z).
Context (dbsHdiFlagSel : string -> Z -> Z * string).
Context (now : Z).

Fixpoint kr_data_get_value (fuel : nat) (kind : E_KRCalcKind) (id : Z)
    : M T_KRContext (option (valptr addr)) :=
  match fuel with
  | O => fail NoFuel
  | S n =>
      match kind with
      | KR_CALCKIND_CID => r ← curr_rec; v ← field_content r id; lift (key_valptr v)
      | KR_CALCKIND_FID => r ← rec_; v ← field_content r id; lift (key_valptr v)
      | KR_CALCKIND_SET => kr_set_get_value id
      | KR_CALCKIND_SID => kr_sdi_get_value shm regexec sdi_func (kr_data_get_value n) id
      | KR_CALCKIND_DID => kr_ddi_get_value shm regexec ddi_func (kr_data_get_value n) id
      | KR_CALCKIND_HID => kr_hdi_get_value shm hdi_func localtime dbsHdiDaySel dbsHdiMonSel dbsHdiFlagSel now id
      | _ => mret None
      end
  end.

(** The evaluation of a calculator in a context. *)
Definition calc_eval (fuel : nat) (krcalc : option T_KRCalc) : M T_KRContext (Z * T_KRCalc) :=
  eval_calc regexec (kr_data_get_value fuel) krcalc.

End DataValue.
End KrData.

Arguments T_KRContext Data : clear implicits.
