(* ===== verification/KrDataSpec.v ===== *)
(** What the data items compute (krdata/kr_sdi.c, kr_sdi_func.c, kr_ddi.c, kr_ddi_func.c):
    the record a static item takes its value from, the aggregation of a dynamic item, and
    what happens when the slot of a record is used again.

    The filter of an item is met through an interface: evaluated with [ptRecord] on a
    record of the item's source it answers [p] of the record, and leaves alone what the
    loop of the item reads.  A context predicate [J] says what filters rely on. *)

From S2P Require Import Prelude KrHashtable KrTypes KrHashset KrCalcTree KrCalcJson.
From S2P Require Import KrDb KrDbWindow KrDbRun KrDym KrData.
Local Open Scope Z_scope.
#[local] Notation length := List.length.
#[local] Arguments read_sdi : simpl never.
#[local] Arguments write_sdi : simpl never.
#[local] Arguments read_ddi : simpl never.
#[local] Arguments write_ddi : simpl never.
#[local] Arguments eval_calc : simpl never.
#[local] Arguments list_nodes : simpl never.
#[local] Arguments set_key : simpl never.

(** * Values of fields *)

(** The union and the pointer a field's value makes. *)
Definition key_union (v : keyptr) : U_KRValue addr :=
  match v with
  | KeyInt i => KRInt i | KeyLong l => KRLong l | KeyDouble d => KRDouble d
  | KeyString s => KRString (Some s) | KeyPointer _ => KRZero
  end.
Definition key_value (v : keyptr) : option (valptr addr) :=
  match v with
  | KeyInt i => Some (VInt i) | KeyLong l => Some (VLong l) | KeyDouble d => Some (VDouble d)
  | KeyString s => Some (VString s) | KeyPointer _ => None
  end.

Lemma typed_value_key v : copied_type (key_type v) = true ->
  typed_value (key_type v) v = Ok (Some (key_union v)).
Proof. by destruct v. Qed.
Lemma get_value_key v : copied_type (key_type v) = true ->
  kr_get_value (key_union v) (key_type v) = Ok (key_value v).
Proof. by destruct v. Qed.

(** * Positions in lists *)

Definition nth_z {A} (l : list A) (n : Z) : option A := if n <? 0 then None else l !! Z.to_nat n.

Lemma nth_z_nil {A} n : nth_z (A:=A) [] n = None.
Proof. unfold nth_z. by destruct (n <? 0). Qed.
Lemma nth_z_cons {A} (x : A) l n : nth_z (x :: l) n = if n =? 0 then Some x else nth_z l (n - 1).
Proof.
  unfold nth_z. destruct (Z.eqb_spec n 0) as [->|Hn]; [done|].
  destruct (Z.ltb_spec n 0), (Z.ltb_spec (n - 1) 0); try lia; [done|].
  by replace (Z.to_nat n) with (S (Z.to_nat (n - 1))) by lia.
Qed.

Section DataSpec.
Context {Data : Type} {SA : SortArgument}.
#[local] Abbreviation ctx := (T_KRContext Data).
Context (h : T_KRDB (Data:=Data)) (cur : recptr).

(** * What the database holds *)

Definition of_source (tid : Z) (r : recptr) : bool :=
  match record_table h r with Ok (_, t) => iTableId t =? tid | Fault _ => false end.
Definition field_at (r : recptr) (fld : Z) : res keyptr :=
  k ← kr_get_field_value h r fld; deref h k.
Definition trans_time (r : recptr) : option Z :=
  match field_at r KR_FIELDNO_TRANSTIME with Ok (KeyLong l) => Some l | _ => None end.

(** The records with the key of the current record, from the last one inserted;
    [None] when the table of the current record has no such index. *)
Definition nodes_of (index : Z) : res (option (list recptr)) :=
  '(_, t) ← record_table h cur;
  match kr_get_table_index h t (i32 index) with
  | None => Ok None
  | Some p =>
      ix ← of_option BadPointer (indexes h !! p);
      _ ← kr_get_field_type h cur (iIndexFieldId ix);
      k ← kr_get_field_value h cur (iIndexFieldId ix);
      '(l, _) ← kr_get_record_list ix k h;
      q ← of_option NullDeref l;
      l ← of_option BadPointer (reclists h !! q);
      Ok (Some (reverse l))
  end.

(** * The interface of filters *)

(** What a filter may rely on, kept by what the items do to the context. *)
Class Ambient (J : ctx -> Prop) := {
  amb_record c r : J c -> J (with_record c r);
  amb_key c ty k l : J c -> J (with_key c ty k l);
  amb_sdi c t : J c -> J (with_sdis c t);
  amb_ddi c t : J c -> J (with_ddis c t)
}.

Context (regexec : string -> string -> bool).
Context (get_value : E_KRCalcKind -> Z -> M ctx (option (valptr addr))).
Context (J : ctx -> Prop) {AJ : Ambient J}.

(** The filter [k] answers [p] on every record of [D], again and again ([K]), and keeps
    [view]. *)
Definition decides {A} (view : ctx -> A) (K : T_KRCalc -> Prop) (D : recptr -> Prop)
    (p : recptr -> bool) : Prop :=
  forall c r k, J c -> ptKRDB c = h -> ptCurrRec c = Some cur -> ptRecord c = Some r -> D r -> K k ->
  exists k' c', eval_calc regexec get_value (Some k) c = Ok (0, k', c') /\ J c' /\ K k' /\
    (ptKRDB c' = h /\ ptCurrRec c' = Some cur /\ ptRecord c' = Some r /\ view c' = view c) /\
    filter_result 0 k' = Ok (Some (p r)).

(** * The index of an item *)

Lemma set_key_spec c index nodes : ptKRDB c = h -> ptCurrRec c = Some cur ->
  nodes_of index = Ok (Some nodes) ->
  exists ty k l, set_key index c = Ok (true, with_key c ty k l) /\
    list_nodes (with_key c ty k l) = Ok (nodes, with_key c ty k l).
Proof.
  intros Hdb Hcur Hn. unfold nodes_of in Hn.
  apply res_bind_Ok in Hn as ([q t] & Ht & Hn). simpl in Hn.
  destruct (kr_get_table_index h t (i32 index)) as [p|] eqn:Hp; [|done].
  apply res_bind_Ok in Hn as (ix & Hix & Hn). apply of_option_Ok in Hix.
  apply res_bind_Ok in Hn as (ty & Hty & Hn). apply res_bind_Ok in Hn as (k & Hk & Hn).
  apply res_bind_Ok in Hn as ([l h'] & Hl & Hn). simpl in Hn.
  apply res_bind_Ok in Hn as (lp & Hlp & Hn). apply of_option_Ok in Hlp as ->.
  apply res_bind_Ok in Hn as (rl & Hrl & [= <-]). apply of_option_Ok in Hrl.
  exists ty, k, (Some lp). unfold set_key, mbind, M_bind, curr_rec, table_of_rec, field_type, gets, modify.
  rewrite Hcur. simpl. rewrite Hdb, Ht. simpl. rewrite Hdb, Hp. simpl. rewrite Hdb, Hix. simpl.
  rewrite Hdb, Hty. simpl. rewrite Hdb, Hk. simpl. rewrite Hdb, Hl. split; [done|].
  unfold list_nodes, gets. simpl. by rewrite Hdb, Hrl.
Qed.

Lemma set_key_none c index : ptKRDB c = h -> ptCurrRec c = Some cur ->
  nodes_of index = Ok None -> set_key index c = Ok (false, c).
Proof.
  intros Hdb Hcur Hn. unfold nodes_of in Hn.
  apply res_bind_Ok in Hn as ([q t] & Ht & Hn). simpl in Hn.
  destruct (kr_get_table_index h t (i32 index)) as [p|] eqn:Hp.
  { repeat (apply res_bind_Ok in Hn as ([] & _ & Hn); simpl in Hn); done. }
  unfold set_key, mbind, M_bind, curr_rec, table_of_rec, gets. rewrite Hcur. simpl.
  rewrite Hdb, Ht. simpl. by rewrite Hdb, Hp.
Qed.

(** * Items

    The two kinds of items are reached, filtered and rewritten alike. *)

Class ItemAccess (I : Type) := {
  ia_view : ctx -> option I;
  ia_read : M ctx I;
  ia_write : I -> M ctx unit;
  ia_calc : I -> option T_KRCalc;
  ia_with_calc : I -> T_KRCalc -> I;
  ia_read_view c i : ia_view c = Some i -> ia_read c = Ok (i, c);
  ia_write_view c i : J c -> exists c', ia_write i c = Ok (tt, c') /\ ia_view c' = Some i /\ J c' /\
    ptKRDB c' = ptKRDB c /\ ptCurrRec c' = ptCurrRec c /\ ptRecord c' = ptRecord c;
  ia_view_record c r : ia_view (with_record c r) = ia_view c;
  ia_view_key c ty k l : ia_view (with_key c ty k l) = ia_view c;
  ia_calc_with i k : ia_calc (ia_with_calc i k) = Some k;
  ia_with_calc_same i k : ia_calc i = Some k -> ia_with_calc i k = i
}.

Section Items.
Context {I : Type} {IA : ItemAccess I} (K : T_KRCalc -> Prop) (p : recptr -> bool).
Context (D : recptr -> Prop) (HD : decides ia_view K D p).

Record at_item (c : ctx) (i : I) : Prop := {
  at_db : ptKRDB c = h;
  at_cur : ptCurrRec c = Some cur;
  at_J : J c;
  at_view : ia_view c = Some i;
  at_calc : exists k, ia_calc i = Some k /\ K k
}.

Lemma read_item_spec c i : at_item c i -> ia_read c = Ok (i, c).
Proof. intros Hc. by apply ia_read_view, at_view. Qed.

Lemma write_item_spec c i i' k : at_item c i -> ia_calc i' = Some k -> K k ->
  exists c', ia_write i' c = Ok (tt, c') /\ at_item c' i' /\ ptRecord c' = ptRecord c.
Proof.
  intros [Hdb Hcur HJ Hi _] Hk HK.
  destruct (ia_write_view c i' HJ) as (c' & Hw & Hv & HJ' & Hdb' & Hcur' & Hr').
  exists c'. split; [done|]. split; [|done]. split; [congruence|congruence|done|done|by exists k].
Qed.

Lemma at_item_record c i r : at_item c i -> at_item (with_record c r) i.
Proof.
  intros [Hdb Hcur HJ Hi Hk]. split; [done|done|by apply amb_record|by rewrite ia_view_record|done].
Qed.
Lemma at_item_key c i ty k l : at_item c i -> at_item (with_key c ty k l) i.
Proof.
  intros [Hdb Hcur HJ Hi Hk]. split; [done|done|by apply amb_key|by rewrite ia_view_key|done].
Qed.

(** An item is itself with its calculator. *)
Lemma at_item_eta c i : at_item c i -> exists k, K k /\ at_item c (ia_with_calc i k).
Proof.
  intros Hc. destruct (at_calc _ _ Hc) as (k & Hk & HK). exists k. split; [done|].
  by rewrite ia_with_calc_same.
Qed.

(** The filter on the record under evaluation: filtered out, or taken further. *)
Lemma filter_step_spec c i r (skip : M ctx Z) (take : I -> M ctx Z) :
  at_item c i -> ptRecord c = Some r -> D r ->
  exists c' k, K k /\ at_item c' (ia_with_calc i k) /\ ptRecord c' = Some r /\
    ('(rc, krcalc) ← eval_calc regexec get_value (ia_calc i);
     x ← ia_read;
     ia_write (ia_with_calc x krcalc);;
     ok ← lift (filter_result rc krcalc);
     match ok with
     | None => mret (-1)
     | Some false => skip
     | Some true => take x
     end) c = (if p r then take i else skip) c'.
Proof.
  intros Hc Hr Hin. pose proof Hc as [Hdb Hcur HJ Hi (k & Hk & HK)].
  destruct (HD c r k HJ Hdb Hcur Hr Hin HK) as (k' & c' & Hev & HJ' & HK' & (Hdb' & Hcur' & Hr' & Hv) & Hf).
  assert (Hc' : at_item c' i) by (split; [done|done|done|by rewrite Hv|by exists k]).
  destruct (write_item_spec c' i (ia_with_calc i k') k' Hc' (ia_calc_with _ _) HK') as (c'' & Hw & Hc'' & Hr'').
  exists c'', k'. do 2 (split; [done|]). split; [congruence|]. unfold mbind, M_bind.
  rewrite Hk, Hev, (read_item_spec _ _ Hc'), Hw, Hf. simpl. by destruct (p r).
Qed.
End Items.

Lemma table_of_rec_spec c r q t : ptKRDB c = h -> record_table h r = Ok (q, t) ->
  table_of_rec r c = Ok (t, c).
Proof. intros Hdb Ht. unfold table_of_rec, gets. by rewrite Hdb, Ht. Qed.

Lemma field_at_content c r fld : ptKRDB c = h -> field_content r fld c =
  match field_at r fld with Ok v => Ok (v, c) | Fault e => Fault e end.
Proof.
  intros Hdb. unfold field_content, field_at, gets. rewrite Hdb.
  by destruct (kr_get_field_value h r fld).
Qed.

(** * Static items *)

Section StaticItems.
Context (shm : T_KRShareMem).
Context (id : Z) (K : T_KRCalc -> Prop) (p : recptr -> bool).

(** A record the item may take. *)
Definition candidate (tid : Z) (r : recptr) : bool := of_source tid r && p r.

(** The record taken, when the location counts from [na] for all records and from [nr]
    for candidates. *)
Definition pick_from (def : T_KRShmSDIDef) (nodes : list recptr) (na nr : Z) : option recptr :=
  let cand := candidate (sdi_datasrc def) in
  match caLocationProperty def with
  | KR_LOC_ABSOLUTE => r ← nth_z nodes na; if cand r then Some r else None
  | KR_LOC_RELATIVE => nth_z (List.filter cand nodes) nr
  | KR_LOC_OTHER => head (List.filter cand nodes)
  end.

(** From the last record inserted: the record at the location when it is a candidate, or
    the candidate at the location, or the first candidate. *)
Definition sdi_pick (def : T_KRShmSDIDef) (nodes : list recptr) : option recptr :=
  pick_from def nodes (sdi_location def) (sdi_location def).

Definition sdi_view (c : ctx) : option T_KRSDI := items_ (sditable (ptDym c)) !! id.
#[local] Program Instance sdi_access : ItemAccess T_KRSDI := {|
  ia_view := sdi_view;
  ia_read := read_sdi id;
  ia_write := write_sdi id;
  ia_calc := ptSDICalc;
  ia_with_calc := sdi_with_calc
|}.
Next Obligation. unfold sdi_view. intros c i Hi. unfold read_sdi, gets. by rewrite Hi. Qed.
Next Obligation.
  intros c i HJ. eexists. split; [reflexivity|]. unfold sdi_view. simpl. rewrite lookup_insert_eq.
  split; [done|]. split; [by apply amb_sdi|done].
Qed.
Next Obligation. done. Qed.
Next Obligation. done. Qed.
Next Obligation. done. Qed.
Next Obligation. intros i k Hk. destruct i; simpl in *. by subst. Qed.

#[local] Abbreviation at_sdi := (at_item (I:=T_KRSDI) K).

Lemma read_sdi_spec c i : at_sdi c i -> read_sdi id c = Ok (i, c).
Proof. apply (read_item_spec (IA:=sdi_access) K). Qed.
Lemma write_sdi_spec c i i' k : at_sdi c i -> ptSDICalc i' = Some k -> K k ->
  exists c', write_sdi id i' c = Ok (tt, c') /\ at_sdi c' i' /\ ptRecord c' = ptRecord c.
Proof. apply (write_item_spec (IA:=sdi_access) K). Qed.

(** The item after the search. *)
Definition sdi_after (def : T_KRShmSDIDef) (i i' : T_KRSDI) (o : option recptr) : Prop := exists k, K k /\
  match o with
  | None => i' = sdi_with_calc i k
  | Some r => exists v, field_at r (i32 (sdi_field def)) = Ok v /\
      i' = sdi_with_value (sdi_with_calc i k) (key_union v) r
  end.

(** Every candidate has a value of the item's type in the field. *)
Definition sdi_typed (def : T_KRShmSDIDef) (i : T_KRSDI) (nodes : list recptr) : Prop := forall r, r ∈ nodes ->
  candidate (sdi_datasrc def) r = true ->
  exists v, field_at r (i32 (sdi_field def)) = Ok v /\
    key_type v = sdi_eValueType i /\ copied_type (key_type v) = true.

(** What a record that is not taken changes. *)
Lemma pick_from_cons def r nodes na nr :
  pick_from def (r :: nodes) na nr =
    let taken := candidate (sdi_datasrc def) r in
    match caLocationProperty def with
    | KR_LOC_ABSOLUTE => if na =? 0 then if taken then Some r else None else pick_from def nodes (na - 1) nr
    | KR_LOC_RELATIVE => if taken then if nr =? 0 then Some r else pick_from def nodes na (nr - 1)
                         else pick_from def nodes na nr
    | KR_LOC_OTHER => if taken then Some r else pick_from def nodes na nr
    end.
Proof.
  unfold pick_from. destruct (caLocationProperty def); simpl;
    destruct (candidate (sdi_datasrc def) r) eqn:Hc; rewrite ?nth_z_cons; try done;
    (destruct (na =? 0); [simpl; by rewrite Hc|done]).
Qed.

(** Past its location an absolute item takes nothing. *)
Lemma pick_absolute_past def nodes na nr : caLocationProperty def = KR_LOC_ABSOLUTE -> na < 0 ->
  pick_from def nodes na nr = None.
Proof.
  intros H Hn. unfold pick_from, nth_z. rewrite H. by destruct (Z.ltb_spec na 0); [|lia].
Qed.
(** Only absolute locations count all records, and only relative ones the candidates. *)
Lemma pick_from_na def nodes na na' nr : caLocationProperty def <> KR_LOC_ABSOLUTE ->
  pick_from def nodes na nr = pick_from def nodes na' nr.
Proof. intros H. unfold pick_from. by destruct (caLocationProperty def). Qed.
Lemma pick_from_nr def nodes na nr nr' : caLocationProperty def <> KR_LOC_RELATIVE ->
  pick_from def nodes na nr = pick_from def nodes na nr'.
Proof. intros H. unfold pick_from. by destruct (caLocationProperty def). Qed.

Lemma nth_z_in {A} (l : list A) n x : nth_z l n = Some x -> x ∈ l.
Proof. unfold nth_z. destruct (n <? 0); [done|]. apply list_elem_of_lookup_2. Qed.

(** The record that is picked is a candidate of the list. *)
Lemma pick_from_in def nodes na nr r : pick_from def nodes na nr = Some r ->
  r ∈ nodes /\ candidate (sdi_datasrc def) r = true.
Proof.
  assert (Hf : forall x, x ∈ List.filter (candidate (sdi_datasrc def)) nodes ->
    x ∈ nodes /\ candidate (sdi_datasrc def) x = true)
    by (intros x Hx; by apply list_elem_of_In, filter_In in Hx as [Hx%list_elem_of_In ?]).
  unfold pick_from. destruct (caLocationProperty def); intros Hp.
  - apply bind_Some in Hp as (x & Hx & Hp). destruct (candidate _ x) eqn:Hcx; [|done].
    injection Hp as ->. by apply nth_z_in in Hx.
  - by apply Hf, (nth_z_in _ _ _ Hp).
  - by apply Hf, head_Some_elem_of.
Qed.

Context (D : recptr -> Prop) (HD : decides sdi_view K D p).

(** The value that is taken. *)
Definition sdi_take (def : T_KRShmSDIDef) (krsdi : T_KRSDI) : M ctx Z :=
  r ← rec_;
  val ← field_content r (i32 (sdi_field def));
  v ← lift (typed_value (sdi_eValueType krsdi) val);
  match v with
  | None => mret (-1)
  | Some v => krsdi ← read_sdi id; write_sdi id (sdi_with_value krsdi v r);; mret 0
  end.

Lemma sdi_take_spec def c i k r v : at_sdi c (sdi_with_calc i k) -> K k -> ptRecord c = Some r ->
  field_at r (i32 (sdi_field def)) = Ok v -> key_type v = sdi_eValueType i ->
  copied_type (key_type v) = true ->
  exists c' i', sdi_take def i c = Ok (0, c') /\ at_sdi c' i' /\ sdi_after def i i' (Some r).
Proof.
  intros Hc HK Hr Hv Hty Hcp. unfold sdi_take, mbind, M_bind, rec_, gets. rewrite Hr. cbn [of_option].
  rewrite (field_at_content c r _ (at_db _ _ _ Hc)), Hv. unfold lift. rewrite <- Hty, typed_value_key by done.
  rewrite (read_sdi_spec _ _ Hc).
  destruct (write_sdi_spec c _ (sdi_with_value (sdi_with_calc i k) (key_union v) r) k Hc eq_refl HK)
    as (c' & -> & Hc' & _).
  eexists _, _. split; [reflexivity|]. split; [done|]. exists k. split; [done|]. by exists v.
Qed.

(** The step of the loop on the record under evaluation: filtered out, or taken further. *)
Lemma sdi_step_spec def c i r q t (skip : M ctx Z) (take : T_KRSDI -> M ctx Z) :
  at_sdi c i -> ptRecord c = Some r -> record_table h r = Ok (q, t) ->
  (of_source (sdi_datasrc def) r = true -> D r) ->
  exists c' k, K k /\ at_sdi c' (sdi_with_calc i k) /\ ptRecord c' = Some r /\
    (r ← rec_; t ← table_of_rec r;
     if negb (iTableId t =? sdi_datasrc def) then skip
     else
       '(rc, krcalc) ← eval_calc regexec get_value (ptSDICalc i);
       krsdi ← read_sdi id;
       write_sdi id (sdi_with_calc krsdi krcalc);;
       ok ← lift (filter_result rc krcalc);
       match ok with
       | None => mret (-1)
       | Some false => skip
       | Some true => take krsdi
       end) c = (if candidate (sdi_datasrc def) r then take i else skip) c'.
Proof.
  intros Hc Hr Ht Hin. unfold candidate, of_source in *. rewrite Ht in *.
  unfold mbind at 1, M_bind at 1, rec_, gets. rewrite Hr. cbn [of_option].
  unfold mbind at 1, M_bind at 1. rewrite (table_of_rec_spec c r q t (at_db _ _ _ Hc) Ht).
  destruct (iTableId t =? sdi_datasrc def) eqn:Hsrc; cbn [negb andb].
  - apply (filter_step_spec (IA:=sdi_access) K p D HD c i r skip take Hc Hr (Hin eq_refl)).
  - destruct (at_item_eta (IA:=sdi_access) _ _ _ Hc) as (k & HK & Hck). by exists c, k.
Qed.

Lemma sdi_loop_spec def nodes : forall c i a rl,
  at_sdi c i -> sdi_def shm (ptShmSDIDef i) = Ok def -> sdi_typed def i nodes ->
  (forall r, r ∈ nodes -> exists q t, record_table h r = Ok (q, t)) ->
  (forall r, r ∈ nodes -> of_source (sdi_datasrc def) r = true -> D r) ->
  -1 <= rl <= a -> a + Z.of_nat (length nodes) <= INT_MAX ->
  exists c' i', sdi_aggr_loop shm regexec get_value id nodes a rl c = Ok (0, c') /\ at_sdi c' i' /\
    sdi_after def i i' (pick_from def nodes (sdi_location def - a - 1)
                      (sdi_location def - rl - 1)).
Proof.
  induction nodes as [|r nodes IH]; intros c i a rl Hc Hdef Hty Htab HDn Hrl Ha.
  { destruct (at_calc _ _ _ Hc) as (k & Hk & HK). exists c, i. split; [done|]. split; [done|].
    exists k. split; [done|]. destruct i; simpl in *; subst. unfold pick_from; simpl.
    by destruct caLocationProperty; rewrite ?nth_z_nil. }
  assert (Hsub : forall r', r' ∈ nodes -> r' ∈ r :: nodes) by (intros; by right).
  assert (Hty' : sdi_typed def i nodes) by (intros r' Hr'; apply Hty; auto).
  assert (Htab' : forall r', r' ∈ nodes -> exists q t, record_table h r' = Ok (q, t)) by auto.
  assert (HDn' : forall r', r' ∈ nodes -> of_source (sdi_datasrc def) r' = true -> D r') by auto.
  simpl length in Ha. rewrite pick_from_cons. cbn zeta.
  assert (Hcr : at_sdi (with_record c (Some r)) i) by by apply (at_item_record (IA:=sdi_access)).
  simpl sdi_aggr_loop. unfold mbind at 1, M_bind at 1, modify at 1.
  unfold mbind at 1, M_bind at 1. rewrite (read_sdi_spec _ _ Hcr). unfold mbind at 1, M_bind at 1, lift at 1. rewrite Hdef.
  rewrite (i32_small (a + 1)) by (unfold INT_MIN, INT_MAX in *; lia).
  replace (sdi_location def - a - 1) with (sdi_location def - (a + 1)) by lia.
  assert (Hskip : forall c' k rl', at_sdi c' (sdi_with_calc i k) -> -1 <= rl' <= a + 1 ->
    exists c'' i', sdi_aggr_loop shm regexec get_value id nodes (a + 1) rl' c' = Ok (0, c'') /\
      at_sdi c'' i' /\ sdi_after def i i' (pick_from def nodes (sdi_location def - (a + 1) - 1)
                                       (sdi_location def - rl' - 1))).
  { intros c' k rl' Hc' Hrl'. apply (IH c' (sdi_with_calc i k) (a + 1) rl' Hc' Hdef); try done; lia. }
  destruct (Htab r) as (q & t & Ht); [by left|].
  destruct (sdi_step_spec def _ i r q t (sdi_aggr_loop shm regexec get_value id nodes (a + 1) rl)
    (fun krsdi => if bool_decide (caLocationProperty def = KR_LOC_RELATIVE) &&
        negb (sdi_location def =? i32 (rl + 1))
      then sdi_aggr_loop shm regexec get_value id nodes (a + 1) (i32 (rl + 1))
      else sdi_take def krsdi) Hcr eq_refl Ht) as (c1 & k & HK & Hc1 & Hr1 & Hrun);
    [by apply HDn; left|].
  assert (Htake : candidate (sdi_datasrc def) r = true ->
    exists c' i', sdi_take def i c1 = Ok (0, c') /\ at_sdi c' i' /\ sdi_after def i i' (Some r)).
  { intros Hcand. destruct (Hty r) as (v & Hv & Hvt & Hcp); [by left|done|].
    by apply (sdi_take_spec def c1 i k r v Hc1 HK). }
  destruct (bool_decide_reflect (caLocationProperty def = KR_LOC_ABSOLUTE)) as [Habs|Habs];
    [destruct (Z.eqb_spec (sdi_location def) (a + 1)) as [Hloc|Hloc]|]; cbn [negb andb].
  2:{ rewrite Habs. destruct (Z.eqb_spec (sdi_location def - (a + 1)) 0); [lia|].
      destruct (at_item_eta (IA:=sdi_access) _ _ _ Hcr) as (k0 & HK0 & Hc0).
      apply (Hskip _ k0 rl Hc0). lia. }
  all: setoid_rewrite Hrun; clear Hrun.
  all: destruct (candidate (sdi_datasrc def) r) eqn:Hcand.
  - rewrite Habs. rewrite (bool_decide_false (KR_LOC_ABSOLUTE = _)) by done. cbn [andb].
    destruct (Z.eqb_spec (sdi_location def - (a + 1)) 0); [|lia]. by apply Htake.
  - destruct (Hskip c1 k rl Hc1) as (c' & i' & Hrun & Hc' & Hi'); [lia|].
    exists c', i'. split; [done|]. split; [done|]. rewrite Habs.
    destruct (Z.eqb_spec (sdi_location def - (a + 1)) 0); [|lia].
    by rewrite pick_absolute_past in Hi' by (done || lia).
  - destruct (bool_decide_reflect (caLocationProperty def = KR_LOC_RELATIVE)) as [Hrel|Hrel]; cbn [andb].
    + rewrite Hrel, i32_small by (unfold INT_MIN, INT_MAX in *; lia).
      destruct (Z.eqb_spec (sdi_location def) (rl + 1)) as [Hloc|Hloc]; cbn [negb].
      * destruct (Z.eqb_spec (sdi_location def - rl - 1) 0); [by apply Htake|lia].
      * destruct (Z.eqb_spec (sdi_location def - rl - 1) 0); [lia|].
        rewrite (pick_from_na _ _ (sdi_location def - (a + 1)) (sdi_location def - (a + 1) - 1)) by done.
        replace (sdi_location def - rl - 1 - 1) with (sdi_location def - (rl + 1) - 1) by lia.
        apply (Hskip c1 k _ Hc1). lia.
    + destruct (caLocationProperty def); try done. by apply Htake.
  - rewrite (pick_from_na _ _ (sdi_location def - (a + 1)) (sdi_location def - (a + 1) - 1)) by done.
    destruct (caLocationProperty def); try done; apply (Hskip c1 k _ Hc1); lia.
Qed.

Context (sdi_func : string -> Z -> M ctx Z).

(** The computation of an item whose value is to be computed. *)
Lemma sdi_compute_spec def c i i0 nodes : at_sdi c i -> sdi_def shm (ptShmSDIDef i) = Ok def ->
  kr_sdi_init i = Ok i0 -> SDIAggrFunc i = None ->
  nodes_of (sdi_index def) = Ok (Some nodes) -> sdi_typed def i nodes ->
  (forall r, r ∈ nodes -> exists q t, record_table h r = Ok (q, t)) ->
  (forall r, r ∈ nodes -> of_source (sdi_datasrc def) r = true -> D r) ->
  Z.of_nat (length nodes) <= INT_MAX ->
  exists c' i', kr_sdi_compute shm regexec sdi_func get_value id c = Ok (0, c') /\ at_sdi c' i' /\
    sdi_after def i0 i' (sdi_pick def nodes).
Proof.
  intros Hc Hp Hi0 Hf Hn Hty Htab HDn Hlen.
  assert (Hdef : ptShmSDIDef i0 = ptShmSDIDef i /\ sdi_eValueType i0 = sdi_eValueType i /\
    ptSDICalc i0 = ptSDICalc i /\ SDIAggrFunc i0 = None).
  { unfold kr_sdi_init in Hi0. apply res_bind_Ok in Hi0 as (? & _ & [= <-]). by rewrite <- Hf. }
  destruct Hdef as (Hdef & Hti & Hci & Hf0).
  unfold kr_sdi_compute, mbind, M_bind. rewrite (read_sdi_spec _ _ Hc). unfold lift. rewrite Hi0.
  destruct (at_calc _ _ _ Hc) as (k0 & Hk0 & HK0). simpl in Hk0.
  destruct (write_sdi_spec c i i0 k0 Hc) as (c1 & -> & Hc1 & _); [by rewrite Hci|done|].
  rewrite Hdef, Hp. destruct (set_key_spec c1 _ nodes (at_db _ _ _ Hc1) (at_cur _ _ _ Hc1) Hn)
    as (ty & k & l & -> & Hl). cbn [negb]. rewrite Hf0. unfold kr_sdi_aggr_func, mbind, M_bind. rewrite Hl.
  pose proof (at_item_key (IA:=sdi_access) K c1 i0 ty k l Hc1) as Hck.
  destruct (sdi_loop_spec def nodes _ i0 (-1) (-1) Hck) as (c' & i' & -> & Hc' & Hi'); try done; try lia.
  { by rewrite Hdef. }
  { unfold sdi_typed. rewrite Hti. exact Hty. }
  exists c', i'. split; [done|]. split; [done|]. unfold sdi_pick.
  by replace (sdi_location def - -1 - 1) with (sdi_location def) in Hi' by lia.
Qed.

(** C4. The value of a static item that was not computed on the current record: among
    the records with the current record's key in the item's index, from the last one
    inserted, the one at the location (an absolute location counts every record, a
    relative one those of the source that pass the filter; any other property takes
    the first that passes).  The value is that record's field; the record alone is
    related to the item, which remembers the current record.  With no such record the
    item has no value. *)
Theorem kr_sdi_get_value_picks def c i i0 nodes :
  at_sdi c i -> sdi_def shm (ptShmSDIDef i) = Ok def -> sdi_ptCurrRec i <> Some cur -> kr_sdi_init i = Ok i0 -> SDIAggrFunc i = None ->
  nodes_of (sdi_index def) = Ok (Some nodes) -> sdi_typed def i nodes ->
  (forall r, r ∈ nodes -> exists q t, record_table h r = Ok (q, t)) ->
  (forall r, r ∈ nodes -> of_source (sdi_datasrc def) r = true -> D r) ->
  Z.of_nat (length nodes) <= INT_MAX ->
  exists c' i', at_sdi c' i' /\
    match sdi_pick def nodes with
    | Some r => exists v, field_at r (i32 (sdi_field def)) = Ok v /\
        kr_sdi_get_value shm regexec sdi_func get_value id c = Ok (key_value v, c') /\
        sdi_ptRelated i' = {[r]} /\ sdi_ptCurrRec i' = Some cur
    | None => kr_sdi_get_value shm regexec sdi_func get_value id c = Ok (None, c') /\
        sdi_ptRelated i' = ∅ /\ sdi_ptCurrRec i' = sdi_ptCurrRec i
    end.
Proof.
  intros Hc Hp Hcur Hi0 Hf Hn Hty Htab HDn Hlen.
  destruct (sdi_compute_spec def c i i0 nodes) as (c1 & i1 & Hrun & Hc1 & (k & HK & Hi1)); try done.
  unfold kr_sdi_init in Hi0. apply res_bind_Ok in Hi0 as (x & _ & Hi0). injection Hi0 as Hi0.
  unfold kr_sdi_get_value, mbind, M_bind, gets, kr_sdi_lookup.
  pose proof (at_view _ _ _ Hc : sdi_view c = Some i) as Hview. unfold sdi_view in Hview.
  rewrite Hview, bool_decide_true by (by rewrite (at_cur _ _ _ Hc)).
  rewrite Hrun, (read_sdi_spec _ _ Hc1).
  destruct (sdi_pick def nodes) as [r|] eqn:Hpick.
  - destruct Hi1 as (v & Hv & ->). cbn [sdi_eValueInd sdi_with_value].
    destruct (write_sdi_spec c1 _ (sdi_with_rec (sdi_with_value (sdi_with_calc i0 k)
      (key_union v) r) (ptCurrRec c1)) k Hc1 eq_refl HK) as (c2 & -> & Hc2 & _).
    eexists c2, _. split; [exact Hc2|]. exists v. split; [done|].
    assert (Hvt : key_type v = sdi_eValueType i /\ copied_type (key_type v) = true).
    { destruct (pick_from_in _ _ _ _ _ Hpick) as [Hin Hcand].
      destruct (Hty r Hin Hcand) as (v' & Hv' & Ht & Hcp). rewrite Hv in Hv'. by injection Hv' as ->. }
    destruct Hvt as [Hvt Hcp]. subst i0. simpl. rewrite (at_cur _ _ _ Hc1), union_empty_r_L. split; [|done].
    unfold lift. by rewrite <- Hvt, get_value_key.
  - subst i1 i0. simpl. eexists c1, _. split; [exact Hc1|]. by repeat split.
Qed.

End StaticItems.

(** * Dynamic items *)

Section DynamicItems.
Context (shm : T_KRShareMem).
Context (id : Z) (K : T_KRCalc -> Prop) (p : recptr -> bool).

Definition ddi_view (c : ctx) : option T_KRDDI := items_ (dditable (ptDym c)) !! id.
#[local] Program Instance ddi_access : ItemAccess T_KRDDI := {|
  ia_view := ddi_view;
  ia_read := read_ddi id;
  ia_write := write_ddi id;
  ia_calc := ptDDICalc;
  ia_with_calc := ddi_with_calc
|}.
Next Obligation. unfold ddi_view. intros c i Hi. unfold read_ddi, gets. by rewrite Hi. Qed.
Next Obligation.
  intros c i HJ. eexists. split; [reflexivity|]. unfold ddi_view. simpl. rewrite lookup_insert_eq.
  split; [done|]. split; [by apply amb_ddi|done].
Qed.
Next Obligation. done. Qed.
Next Obligation. done. Qed.
Next Obligation. done. Qed.
Next Obligation. intros i k Hk. destruct i; simpl in *. by subst. Qed.

#[local] Abbreviation at_ddi := (at_item (I:=T_KRDDI) K).

Lemma read_ddi_spec c i : at_ddi c i -> read_ddi id c = Ok (i, c).
Proof. apply (read_item_spec (IA:=ddi_access) K). Qed.
Lemma write_ddi_spec c i i' k : at_ddi c i -> ptDDICalc i' = Some k -> K k ->
  exists c', write_ddi id i' c = Ok (tt, c') /\ at_ddi c' i' /\ ptRecord c' = ptRecord c.
Proof. apply (write_item_spec (IA:=ddi_access) K). Qed.

(** The records the item counts: of its source, not older than its span, passing the
    filter, and without the current record when it is excluded. *)
Definition in_span (def : T_KRShmDDIDef) (r : recptr) : bool :=
  match trans_time cur, trans_time r with
  | Some a, Some b => i64 (a - b) <=? ddi_value def
  | _, _ => false
  end.
Definition counts (def : T_KRShmDDIDef) (r : recptr) : bool :=
  negb (bool_decide (ddi_stype def = KR_DDI_STATISTICS_EXCLUDE) && bool_decide (r = cur)) &&
  of_source (ddi_datasrc def) r && in_span def r && p r.

(** ** Aggregation of integers *)

(** The width of the item's type, and the number in a value of a type. *)
Definition int_width (ty : E_KRType) : option Z :=
  match ty with KR_TYPE_INT => Some 32 | KR_TYPE_LONG => Some 64 | _ => None end.
Definition read_number (ty : E_KRType) (u : U_KRValue addr) : res Z :=
  match ty with KR_TYPE_INT => get_i u | KR_TYPE_LONG => get_l u | _ => Fault TypePun end.
Definition number (v : keyptr) : Z := match v with KeyInt z | KeyLong z => z | _ => 0 end.

Definition method_step (m : E_KRDDIMethod) (w acc v : Z) : Z :=
  match m with
  | KR_DDI_METHOD_SUM => wraps w (acc + v)
  | KR_DDI_METHOD_COUNT => wraps w (acc + 1)
  | KR_DDI_METHOD_MIN => Z.min acc v
  | KR_DDI_METHOD_MAX => Z.max acc v
  | _ => acc
  end.

(** What the methods compute, from 0. *)
Definition ddi_total (m : E_KRDDIMethod) (w : Z) (vs : list Z) : Z :=
  match m with
  | KR_DDI_METHOD_SUM => wraps w (foldr Z.add 0 vs)
  | KR_DDI_METHOD_COUNT => wraps w (Z.of_nat (length vs))
  | KR_DDI_METHOD_MIN => foldr Z.min 0 vs
  | KR_DDI_METHOD_MAX => foldr Z.max 0 vs
  | _ => 0
  end.

Lemma wraps_0 w : 0 < w -> wraps w 0 = 0.
Proof. intros Hw. apply wraps_small; [done|]. pose proof (Z.pow_pos_nonneg 2 (w - 1)). lia. Qed.

Lemma fold_sum w vs a : 0 < w ->
  fold_left (fun acc v => wraps w (acc + v)) vs (wraps w a) = wraps w (a + foldr Z.add 0 vs).
Proof.
  intros Hw. revert a. induction vs as [|v vs IH]; intros a; simpl; [f_equal; lia|].
  rewrite wraps_add_l, IH. f_equal. lia.
Qed.
Lemma fold_count w (vs : list Z) a : 0 < w ->
  fold_left (fun acc _ => wraps w (acc + 1)) vs (wraps w a) = wraps w (a + Z.of_nat (length vs)).
Proof.
  intros Hw. revert a. induction vs as [|v vs IH]; intros a; simpl; [f_equal; lia|].
  rewrite wraps_add_l, IH. f_equal. lia.
Qed.
Lemma method_total m w vs : 0 < w -> fold_left (method_step m w) vs 0 = ddi_total m w vs.
Proof.
  intros Hw. destruct m; cbv [method_step ddi_total].
  - pose proof (fold_sum w vs 0 Hw) as H. by rewrite wraps_0 in H.
  - apply fold_symmetric; intros; lia.
  - apply fold_symmetric; intros; lia.
  - pose proof (fold_count w vs 0 Hw) as H. by rewrite wraps_0 in H.
  - by induction vs.
  - by induction vs.
  - by induction vs.
  - by induction vs.
Qed.

(** One record's value enters the aggregate. *)
Lemma method_value_step m ty w u a v : int_width ty = Some w -> read_number ty u = Ok a ->
  key_type v = ty -> m <> KR_DDI_METHOD_OTHER ->
  exists u', ddi_method_value m ty u (key_union v) = Ok (Some u') /\
    read_number ty u' = Ok (method_step m w a (number v)).
Proof.
  intros Hw Hu Hv Hm. destruct ty; try done; injection Hw as <-; destruct v; try done;
    destruct m; try done; simpl in *; rewrite ?Hu; simpl; eexists; (split; [reflexivity|]); simpl;
    try done; f_equal; case_match; zlia.
Qed.

Lemma read_number_value ty w u a : int_width ty = Some w -> read_number ty u = Ok a ->
  kr_get_value u ty = Ok (Some (if ty_eq ty KR_TYPE_INT then VInt a else VLong a)).
Proof. intros Hw Hu. destruct ty; try done; simpl in *; by rewrite Hu. Qed.

(** ** The loop *)

Context (D : recptr -> Prop) (HD : decides ddi_view K D p).

(** Every record the item counts has an integer of the item's type in the field. *)
Definition ddi_typed (def : T_KRShmDDIDef) (ty : E_KRType) (nodes : list recptr) : Prop :=
  forall r, r ∈ nodes -> counts def r = true ->
  exists v, field_at r (i32 (ddi_field def)) = Ok v /\ key_type v = ty /\
    kr_get_field_type h r (i32 (ddi_field def)) = Ok ty.

(** The numbers of the records the item counts. *)
Definition counted (def : T_KRShmDDIDef) (nodes : list recptr) : list Z :=
  map (fun r => match field_at r (i32 (ddi_field def)) with Ok v => number v | Fault _ => 0 end)
    (List.filter (counts def) nodes).

(** The item during the search: what it was made of, and the aggregate [a]. *)
Record ddi_state (i : T_KRDDI) (a : Z) (rel : gset recptr) (i' : T_KRDDI) : Prop := {
  ds_def : ptShmDDIDef i' = ptShmDDIDef i;
  ds_type : ddi_eValueType i' = ddi_eValueType i;
  ds_rec : ddi_ptCurrRec i' = ddi_ptCurrRec i;
  ds_ind : ddi_eValueInd i' = ddi_eValueInd i;
  ds_value : read_number (ddi_eValueType i) (ddi_uValue i') = Ok a;
  ds_related : ddi_ptRelated i' = rel
}.
Lemma ddi_state_calc i a rel i' k : ddi_state i a rel i' -> ddi_state i a rel (ddi_with_calc i' k).
Proof. by intros []. Qed.
Lemma ddi_state_value i a rel i' u b r : ddi_state i a rel i' ->
  read_number (ddi_eValueType i) u = Ok b -> ddi_state i b ({[r]} ∪ rel) (ddi_with_value i' u r).
Proof. intros [] Hb. split; try done. simpl. congruence. Qed.

(** What the loop finds out about a record before its filter is evaluated. *)
Definition eligible (def : T_KRShmDDIDef) (r : recptr) : bool :=
  negb (bool_decide (ddi_stype def = KR_DDI_STATISTICS_EXCLUDE) && bool_decide (r = cur)) &&
  of_source (ddi_datasrc def) r && in_span def r.

Lemma counts_eligible def r : counts def r = eligible def r && p r.
Proof. done. Qed.

(** The transaction times that decide the span. *)
Definition timed (r : recptr) : Prop := exists z, trans_time r = Some z.

Lemma kr_get_transtime_spec c r : ptKRDB c = h -> timed r ->
  exists z, trans_time r = Some z /\ kr_get_transtime r c = Ok (z, c).
Proof.
  intros Hdb [z Hz]. exists z. split; [done|]. unfold kr_get_transtime, mbind, M_bind.
  rewrite (field_at_content c r _ Hdb). unfold trans_time in Hz.
  destruct (field_at r KR_FIELDNO_TRANSTIME) as [[]|]; try done. by injection Hz as ->.
Qed.

(** A counted record is added to the aggregate. *)
Definition ddi_take (def : T_KRShmDDIDef) (cont : M ctx Z) : M ctx Z :=
  r ← rec_;
  ty ← field_type r (i32 (ddi_field def));
  val ← field_content r (i32 (ddi_field def));
  stValue ← lift (typed_value ty val);
  match stValue with
  | None => mret (-1)
  | Some stValue =>
      krddi ← read_ddi id;
      v ← lift (ddi_method_value (ddi_method def) (ddi_eValueType krddi) (ddi_uValue krddi) stValue);
      match v with
      | None => mret (-1)
      | Some v => write_ddi id (ddi_with_value krddi v r);; cont
      end
  end.

Lemma ddi_take_spec def c i i1 a rel r v w cont : at_ddi c i1 -> ddi_state i a rel i1 ->
  ptRecord c = Some r -> int_width (ddi_eValueType i) = Some w ->
  ddi_method def <> KR_DDI_METHOD_OTHER ->
  field_at r (i32 (ddi_field def)) = Ok v -> key_type v = ddi_eValueType i ->
  kr_get_field_type h r (i32 (ddi_field def)) = Ok (ddi_eValueType i) ->
  exists c' i', ddi_take def cont c = cont c' /\ at_ddi c' i' /\
    ddi_state i (method_step (ddi_method def) w a (number v)) ({[r]} ∪ rel) i'.
Proof.
  intros Hc Hst Hr Hw Hm Hv Hvt Hft. unfold ddi_take, mbind, M_bind, rec_, field_type, gets.
  rewrite Hr. cbn [of_option]. rewrite (at_db _ _ _ Hc), Hft, (field_at_content c r _ (at_db _ _ _ Hc)), Hv.
  unfold lift at 1. rewrite <- Hvt, typed_value_key by (rewrite Hvt; by destruct (ddi_eValueType i)).
  rewrite (read_ddi_spec _ _ Hc), (ds_type _ _ _ _ Hst).
  destruct (method_value_step _ _ _ _ _ v Hw (ds_value _ _ _ _ Hst) Hvt Hm) as (u & Hu & Hru).
  unfold lift. rewrite Hu. destruct (at_calc _ _ _ Hc) as (k & Hk & HK).
  destruct (write_ddi_spec c i1 (ddi_with_value i1 u r) k Hc Hk HK) as (c' & -> & Hc' & _).
  exists c', (ddi_with_value i1 u r). split; [done|]. split; [done|]. by eapply ddi_state_value.
Qed.

(** The step of the loop on a record: skipped, or taken further. *)
Lemma ddi_step_spec def c i r q t (skip : M ctx Z) (take : T_KRDDI -> M ctx Z) :
  at_ddi c i -> ptRecord c = Some r -> record_table h r = Ok (q, t) -> timed cur -> timed r ->
  (eligible def r = true -> D r) ->
  exists c' k, K k /\ at_ddi c' (ddi_with_calc i k) /\ ptRecord c' = Some r /\
    (c ← gets Ok;
     if bool_decide (ddi_stype def = KR_DDI_STATISTICS_EXCLUDE) &&
        bool_decide (ptRecord c = ptCurrRec c) then skip
     else
     r ← rec_; t ← table_of_rec r;
     if negb (iTableId t =? ddi_datasrc def) then skip
     else
     cur ← curr_rec;
     tCurrTransTime ← kr_get_transtime cur;
     tRecTransTime ← kr_get_transtime r;
     if ddi_value def <? i64 (tCurrTransTime - tRecTransTime) then skip
     else
       '(rc, krcalc) ← eval_calc regexec get_value (ptDDICalc i);
       krddi ← read_ddi id;
       write_ddi id (ddi_with_calc krddi krcalc);;
       ok ← lift (filter_result rc krcalc);
       match ok with
       | None => mret (-1)
       | Some false => skip
       | Some true => take krddi
       end) c = (if counts def r then take i else skip) c'.
Proof.
  intros Hc Hr Ht Hcurt Hrt Hin. rewrite counts_eligible. unfold eligible, in_span, of_source in *.
  rewrite Ht in *. destruct (at_item_eta (IA:=ddi_access) _ _ _ Hc) as (k & HK & Hck).
  destruct (kr_get_transtime_spec c cur (at_db _ _ _ Hc) Hcurt) as (x & Hx & Hgx).
  destruct (kr_get_transtime_spec c r (at_db _ _ _ Hc) Hrt) as (y & Hy & Hgy). rewrite Hx, Hy in *.
  unfold mbind at 1, M_bind at 1, gets at 1. rewrite Hr, (at_cur _ _ _ Hc).
  rewrite (bool_decide_ext (Some r = Some cur) (r = cur)) by (split; congruence).
  destruct (bool_decide _ && bool_decide (r = cur)); cbn [negb andb] in *; [by exists c, k|].
  unfold mbind at 1, M_bind at 1, rec_, gets at 1. rewrite Hr. cbn [of_option].
  unfold mbind at 1, M_bind at 1. rewrite (table_of_rec_spec c r q t (at_db _ _ _ Hc) Ht).
  destruct (iTableId t =? ddi_datasrc def); cbn [negb andb] in *; [|by exists c, k].
  unfold mbind at 1, M_bind at 1, curr_rec, gets at 1. rewrite (at_cur _ _ _ Hc). cbn [of_option].
  unfold mbind at 1, M_bind at 1. rewrite Hgx. unfold mbind at 1, M_bind at 1. rewrite Hgy.
  rewrite Z.ltb_antisym. destruct (i64 (x - y) <=? ddi_value def); cbn [negb andb] in *;
    [|by exists c, k].
  apply (filter_step_spec (IA:=ddi_access) K p D HD c i r skip take Hc Hr (Hin eq_refl)).
Qed.

Lemma ddi_loop_spec def i w nodes : ddi_def shm (ptShmDDIDef i) = Ok def -> forall c i1 a rel,
  at_ddi c i1 -> ddi_state i a rel i1 ->
  int_width (ddi_eValueType i) = Some w -> ddi_method def <> KR_DDI_METHOD_OTHER ->
  ddi_typed def (ddi_eValueType i) nodes ->
  (forall r, r ∈ nodes -> exists q t, record_table h r = Ok (q, t)) ->
  timed cur -> (forall r, r ∈ nodes -> timed r) ->
  (forall r, r ∈ nodes -> eligible def r = true -> D r) ->
  exists c' i' rel', ddi_aggr_loop shm regexec get_value id nodes c = Ok (0, c') /\ at_ddi c' i' /\
    ddi_state i (fold_left (method_step (ddi_method def) w) (counted def nodes) a)
      rel' i' /\
    forall r, r ∈ rel' <-> r ∈ List.filter (counts def) nodes \/ r ∈ rel.
Proof.
  intros Hp. induction nodes as [|r nodes IH]; intros c i1 a rel Hc Hst Hw Hm Hty Htab Hcurt Htime HDn.
  { exists c, i1, rel. do 3 (split; [done|]). intros r. simpl. rewrite elem_of_nil. naive_solver. }
  assert (Hsub : forall r', r' ∈ nodes -> r' ∈ r :: nodes) by (intros; by right).
  destruct (Htab r) as (q & t & Ht); [by left|].
  destruct (ddi_step_spec def (with_record c (Some r)) i1 r q t (ddi_aggr_loop shm regexec get_value id nodes)
    (fun _ => ddi_take def (ddi_aggr_loop shm regexec get_value id nodes))) as (c1 & k & HK & Hc1 & Hr1 & Hrun);
    try done.
  { by apply (at_item_record (IA:=ddi_access)). }
  { apply Htime. by left. }
  { apply HDn. by left. }
  simpl ddi_aggr_loop. unfold mbind at 1, M_bind at 1, modify at 1.
  unfold mbind at 1, M_bind at 1. rewrite (read_ddi_spec _ i1) by by apply (at_item_record (IA:=ddi_access)).
  unfold mbind at 1, M_bind at 1, lift at 1. rewrite (ds_def _ _ _ _ Hst), Hp.
  setoid_rewrite Hrun. clear Hrun.
  assert (Hnext : forall c' i' a' rel', at_ddi c' i' -> ddi_state i a' rel' i' ->
    exists c'' i'' rel'', ddi_aggr_loop shm regexec get_value id nodes c' = Ok (0, c'') /\ at_ddi c'' i'' /\
      ddi_state i (fold_left (method_step (ddi_method def) w) (counted def nodes) a')
        rel'' i'' /\
      forall r, r ∈ rel'' <-> r ∈ List.filter (counts def) nodes \/ r ∈ rel').
  { intros c' i' a' rel' Hc' Hst'. apply (IH c' i' a' rel' Hc' Hst' Hw Hm); auto.
    intros r' Hr'. apply Hty. auto. }
  unfold counted. simpl List.filter. destruct (counts def r) eqn:Hcnt.
  - destruct (Hty r) as (v & Hv & Hvt & Hft); [by left|done|].
    destruct (ddi_take_spec def c1 i (ddi_with_calc i1 k) a rel r v w (ddi_aggr_loop shm regexec get_value id nodes)
      Hc1 (ddi_state_calc _ _ _ _ k Hst) Hr1 Hw Hm Hv Hvt Hft) as (c2 & i2 & -> & Hc2 & Hst2).
    destruct (Hnext _ _ _ _ Hc2 Hst2) as (c3 & i3 & rel3 & -> & Hc3 & Hst3 & Hrel).
    exists c3, i3, rel3. do 2 (split; [done|]). simpl map. rewrite Hv. split; [exact Hst3|].
    intros r'. rewrite Hrel, elem_of_union, elem_of_singleton, elem_of_cons. naive_solver.
  - apply (Hnext _ _ _ _ Hc1). by apply ddi_state_calc.
Qed.

Context (ddi_func : string -> Z -> M ctx Z).

Lemma ddi_compute_spec def c i i0 w nodes : at_ddi c i -> ddi_def shm (ptShmDDIDef i) = Ok def ->
  kr_ddi_init i = Ok i0 -> DDIAggrFunc i = None ->
  int_width (ddi_eValueType i) = Some w -> ddi_method def <> KR_DDI_METHOD_OTHER ->
  nodes_of (ddi_index def) = Ok (Some nodes) ->
  ddi_typed def (ddi_eValueType i) nodes ->
  (forall r, r ∈ nodes -> exists q t, record_table h r = Ok (q, t)) ->
  timed cur -> (forall r, r ∈ nodes -> timed r) ->
  (forall r, r ∈ nodes -> eligible def r = true -> D r) ->
  exists c' i' rel, kr_ddi_compute shm regexec ddi_func get_value id c = Ok (0, c') /\
    at_ddi c' (ddi_with_ind i' KR_VALUE_SETED) /\
    ddi_state i0 (ddi_total (ddi_method def) w (counted def nodes)) rel i' /\
    forall r, r ∈ rel <-> r ∈ nodes /\ counts def r = true.
Proof.
  intros Hc Hp Hi0 Hf Hw Hm Hn Hty Htab Hcurt Htime HDn.
  assert (Hdef : ptShmDDIDef i0 = ptShmDDIDef i /\ ddi_eValueType i0 = ddi_eValueType i /\
    ptDDICalc i0 = ptDDICalc i /\ DDIAggrFunc i0 = None /\ ddi_state i0 0 ∅ i0).
  { unfold kr_ddi_init in Hi0. apply res_bind_Ok in Hi0 as (? & _ & [= <-]). do 4 (split; [done|]).
    split; try done. simpl. by destruct (ddi_eValueType i). }
  destruct Hdef as (Hdef & Hti & Hci & Hf0 & Hst0).
  unfold kr_ddi_compute, mbind, M_bind. rewrite (read_ddi_spec _ _ Hc). unfold lift. rewrite Hi0.
  destruct (at_calc _ _ _ Hc) as (k0 & Hk0 & HK0). simpl in Hk0.
  destruct (write_ddi_spec c i i0 k0 Hc) as (c1 & -> & Hc1 & _); [by rewrite Hci|done|].
  rewrite Hdef, Hp. destruct (set_key_spec c1 _ nodes (at_db _ _ _ Hc1) (at_cur _ _ _ Hc1) Hn)
    as (ty & k & l & -> & Hl). cbn [negb]. rewrite Hf0. unfold kr_ddi_aggr_func, mbind, M_bind. rewrite Hl.
  pose proof (at_item_key (IA:=ddi_access) K c1 i0 ty k l Hc1) as Hck.
  rewrite <- Hdef, <- Hti in *.
  destruct (ddi_loop_spec def i0 w nodes Hp _ i0 0 ∅ Hck Hst0) as (c2 & i2 & rel & -> & Hc2 & Hst2 & Hrel); try done.
  cbn [negb Z.eqb]. rewrite (read_ddi_spec _ _ Hc2). destruct (at_calc _ _ _ Hc2) as (k2 & Hk2 & HK2).
  destruct (write_ddi_spec c2 i2 (ddi_with_ind i2 KR_VALUE_SETED) k2 Hc2 Hk2 HK2) as (c3 & -> & Hc3 & _).
  exists c3, i2, rel. split; [done|]. split; [done|]. split.
  - by rewrite <- method_total by by destruct (ddi_eValueType i0); try done; injection Hw as <-.
  - intros r. rewrite Hrel, list_elem_of_In, filter_In, <- list_elem_of_In. set_solver.
Qed.

(** C5. The value of a dynamic item of an integer type that was not computed on the
    current record: over the records with the current record's key in the item's index
    that are of the item's source, not older than its span and accepted by its filter
    (the current record left out when the item excludes it), the sum or the number
    modulo the width of the type, or the least or greatest together with 0.  Exactly
    the records counted are related to the item. *)
Theorem kr_ddi_get_value_aggregates def c i i0 w nodes :
  at_ddi c i -> ddi_def shm (ptShmDDIDef i) = Ok def -> ddi_ptCurrRec i <> Some cur -> kr_ddi_init i = Ok i0 -> DDIAggrFunc i = None ->
  int_width (ddi_eValueType i) = Some w -> ddi_method def <> KR_DDI_METHOD_OTHER ->
  nodes_of (ddi_index def) = Ok (Some nodes) ->
  ddi_typed def (ddi_eValueType i) nodes ->
  (forall r, r ∈ nodes -> exists q t, record_table h r = Ok (q, t)) ->
  timed cur -> (forall r, r ∈ nodes -> timed r) ->
  (forall r, r ∈ nodes -> eligible def r = true -> D r) ->
  exists c' i', at_ddi c' i' /\
    (let total := ddi_total (ddi_method def) w (counted def nodes) in
     kr_ddi_get_value shm regexec ddi_func get_value id c =
       Ok (Some (if ty_eq (ddi_eValueType i) KR_TYPE_INT then VInt total else VLong total), c')) /\
    ddi_ptCurrRec i' = Some cur /\
    forall r, r ∈ ddi_ptRelated i' <-> r ∈ nodes /\ counts def r = true.
Proof.
  intros Hc Hp Hcur Hi0 Hf Hw Hm Hn Hty Htab Hcurt Htime HDn.
  destruct (ddi_compute_spec def c i i0 w nodes) as (c1 & i1 & rel & Hrun & Hc1 & Hst & Hrel); try done.
  assert (Hti : ddi_eValueType i0 = ddi_eValueType i).
  { unfold kr_ddi_init in Hi0. by apply res_bind_Ok in Hi0 as (? & _ & [= <-]). }
  pose proof (at_view _ _ _ Hc : ddi_view c = Some i) as Hview. unfold ddi_view in Hview.
  unfold kr_ddi_get_value, mbind, M_bind, gets, kr_ddi_lookup.
  rewrite Hview, bool_decide_true by (by rewrite (at_cur _ _ _ Hc)).
  rewrite Hrun, (read_ddi_spec _ _ Hc1). cbn [ddi_eValueInd ddi_with_ind].
  destruct (at_calc _ _ _ Hc1) as (k & Hk & HK).
  destruct (write_ddi_spec c1 _ (ddi_with_rec (ddi_with_ind i1 KR_VALUE_SETED) (ptCurrRec c1)) k Hc1 Hk HK)
    as (c2 & -> & Hc2 & _).
  eexists c2, _. split; [exact Hc2|]. rewrite (at_cur _ _ _ Hc1).
  split; [|split; [done|]; simpl; by rewrite (ds_related _ _ _ _ Hst)].
  pose proof (ds_value _ _ _ _ Hst) as Hv. rewrite Hti in Hv. simpl.
  rewrite (ds_type _ _ _ _ Hst), Hti. unfold lift. by rewrite (read_number_value _ _ _ _ Hw Hv).
Qed.
End DynamicItems.

End DataSpec.

(** * A slot that is used again *)

Section SlotReuse.
Context {Data : Type} {SA : SortArgument}.
#[local] Abbreviation ctx := (T_KRContext Data).

(** C39. The items remember the address of the record they were computed on, which
    [kr_context_clean] does not reset while it clears their values.  When a later record
    is written to the same slot, its items are taken for computed: they have no value,
    whatever the database holds, and nothing is computed. *)
Theorem kr_item_slot_reused shm regexec sdi_func ddi_func get_value (c c1 c2 : ctx) id r :
  kr_context_clean c = Ok c1 -> ptDym c2 = ptDym c1 -> ptCurrRec c2 = Some r ->
  (forall i, items_ (sditable (ptDym c)) !! id = Some i -> sdi_ptCurrRec i = Some r ->
     kr_sdi_get_value shm regexec sdi_func get_value id c2 = Ok (None, c2)) /\
  (forall i, items_ (dditable (ptDym c)) !! id = Some i -> ddi_ptCurrRec i = Some r ->
     kr_ddi_get_value shm regexec ddi_func get_value id c2 = Ok (None, c2)).
Proof.
  intros Hclean Hdym Hcur. unfold kr_context_clean in Hclean.
  apply res_bind_Ok in Hclean as (d & Hd & [= <-]). simpl in Hdym.
  unfold kr_dym_init in Hd. apply res_bind_Ok in Hd as (sdis & Hs & Hd).
  apply res_bind_Ok in Hd as (ddis & Hdd & Hd). apply res_bind_Ok in Hd as (hdis & _ & Hd).
  apply res_bind_Ok in Hd as (gl & _ & [= <-]). split; intros i Hi Hr.
  - destruct (items_init_lookup _ _ _ _ _ Hs Hi) as (i' & Hi' & Hin').
    unfold kr_sdi_init in Hi'. apply res_bind_Ok in Hi' as (? & _ & [= <-]).
    unfold kr_sdi_get_value, mbind, M_bind, gets, kr_sdi_lookup. rewrite Hdym. simpl. rewrite Hin'.
    by rewrite bool_decide_false by (simpl; rewrite Hr, Hcur; auto).
  - destruct (items_init_lookup _ _ _ _ _ Hdd Hi) as (i' & Hi' & Hin').
    unfold kr_ddi_init in Hi'. apply res_bind_Ok in Hi' as (? & _ & [= <-]).
    unfold kr_ddi_get_value, mbind, M_bind, gets, kr_ddi_lookup. rewrite Hdym. simpl. rewrite Hin'.
    by rewrite bool_decide_false by (simpl; rewrite Hr, Hcur; auto).
Qed.
End SlotReuse.

(** * An example

    The database of KrDbRun after its five insertions: the records 10, 4 (table 1) and 7
    (table 2) have the key of the last one, 10, in the shared index. *)

#[local] Existing Instance example_layout.
Definition item_db : option (recptr * T_KRDB (Data:=Z)) :=
  match kr_db_startup example_rows with
  | Ok (Some h) =>
      match insert_all example_inserts h with
      | Ok (rs, h) => match last rs with Some (Some r) => Some (r, h) | _ => None end
      | _ => None
      end
  | _ => None
  end.
Definition item_heap : T_KRDB (Data:=Z) :=
  match item_db with Some (_, h) => h | None => mkDB ∅ ∅ ∅ ∅ [] [] end.
Definition item_cur : recptr := match item_db with Some (r, _) => r | None => inhabitant end.
Definition item_nodes : list recptr := [(1, 0%nat); (1, 1%nat); (2, 0%nat)]%positive.

(** [F_1 op n] *)
Definition field_test (o : E_KRCalcOp) (n : Z) : T_KRCalc :=
  mkCalc KR_CALCFORMAT_FLEX "" (Some (Tree
    (mkNode KR_CALCKIND_LOGIC (Some o) 0 KR_TYPE_BOOL KR_VALUE_UNSET KRZero)
    [Tree (mkNode KR_CALCKIND_FID None 1 KR_TYPE_UNKNOWN KR_VALUE_UNSET KRZero) [];
     Tree (mkNode KR_CALCKIND_INT None 0 KR_TYPE_INT KR_VALUE_SETED (KRInt n)) []])) 0.

Definition item_context (d : T_KRDynamicMem) (r : option recptr) : T_KRContext Z :=
  mkContext item_heap None ∅ d (Some item_cur) None KR_TYPE_UNKNOWN None None r.
Definition no_items : T_KRDynamicMem :=
  mkDym None (mkItems ∅ 0) (mkItems ∅ 0) (mkItems ∅ 0) (Some (mkGroupList 0 [] 0)).

(** The definitions in the first section of the shared memory. *)
Definition item_sdidef : T_KRShmSDIDef :=
  mkSDIDef 5 KR_TYPE_LONG "" 1 20 1 0 KR_LOC_RELATIVE KR_CALCFORMAT_FLEX "".
Definition slot_sdidef : T_KRShmSDIDef :=
  mkSDIDef 5 KR_TYPE_LONG "" 2 20 1 0 KR_LOC_RELATIVE KR_CALCFORMAT_FLEX "".
Definition item_ddidef : T_KRShmDDIDef :=
  mkDDIDef 6 KR_TYPE_LONG "" 1 20 1 KR_DDI_STATISTICS_INCLUDE 100 KR_DDI_METHOD_SUM KR_CALCFORMAT_FLEX "".
Definition item_shm : T_KRShareMem :=
  mkShareMem 0 0 [mkSection (mkShm [] 0) (mkShm [item_sdidef; slot_sdidef] 0) (mkShm [item_ddidef] 0)
                    (mkShm [] 0) (mkShm [] 0); empty_section].

#[local] Abbreviation item_value_cb :=
  (kr_data_get_value (Data:=Z) item_shm (fun _ _ => false) (fun _ _ => fail BadPointer) (fun _ _ => fail BadPointer)
     (fun _ _ => fail BadPointer) (fun _ => (0, 0, 0)) (fun _ _ _ _ => 0) (fun _ _ _ _ => 0)
     (fun _ _ => (0, ""%string)) 0 1).

(** The calculator after its evaluation on a record. *)
Definition evaluated (k : T_KRCalc) (r : recptr) : T_KRCalc :=
  match eval_calc (fun _ _ => false) item_value_cb (Some k) (item_context no_items (Some r)) with
  | Ok (_, k', _) => k'
  | Fault _ => k
  end.

Ltac field_test_decides :=
  let c := fresh in let Hdb := fresh in let Hcur := fresh in let Hr := fresh in
  let HD := fresh in let HK := fresh in
  intros c r k _ Hdb Hcur Hr HD HK; destruct c as [? ? ? ? ? ? ? ? ? ?]; simpl in Hdb, Hcur, Hr; subst;
  repeat (apply elem_of_cons in HD as [->|HD]); try (by apply elem_of_nil in HD);
  repeat (apply elem_of_cons in HK as [->|HK]); try (by apply elem_of_nil in HK);
  (eexists _, _; split; [vm_compute; reflexivity|]; split; [done|];
   split; [vm_compute; repeat (first [by left|right])|]; split; [by repeat split|reflexivity]).

#[local] Instance ambient_any : Ambient (Data:=Z) (fun _ => True).
Proof. by split. Qed.

Definition below (r : recptr) : bool := bool_decide (r = (1%positive, 1%nat)).

Definition item_sdi : T_KRSDI :=
  mkSDI (0, 0%nat) 5
    (Some (field_test KR_CALCOP_LT 10)) KR_TYPE_LONG None None KR_VALUE_UNSET KRZero ∅.
Definition item_dym : T_KRDynamicMem :=
  mkDym None (mkItems {[5 := item_sdi]} 0) (mkItems ∅ 0) (mkItems ∅ 0) (Some (mkGroupList 0 [] 0)).
Definition item_records : list recptr := [(1, 0%nat); (1, 1%nat)]%positive.
Definition below_calcs : list T_KRCalc :=
  field_test KR_CALCOP_LT 10 :: map (evaluated (field_test KR_CALCOP_LT 10)) item_records.

Lemma below_decides {A} (view : T_KRContext Z -> A) :
  decides item_heap item_cur (fun _ _ => false) item_value_cb (fun _ => True) view
    (fun k => k ∈ below_calcs) (fun r => r ∈ item_records) below.
Proof. field_test_decides. Qed.

Lemma item_at_sdi : at_item item_heap item_cur (fun _ => True) (IA := sdi_access _ 5)
  (fun k => k ∈ below_calcs) (item_context item_dym None) item_sdi.
Proof. split; [done..|]. exists (field_test KR_CALCOP_LT 10). split; [done|by left]. Qed.

Lemma item_tables r : r ∈ item_nodes -> exists q t, record_table item_heap r = Ok (q, t).
Proof.
  intros Hr. assert (H : match record_table item_heap r with Ok _ => true | Fault _ => false end = true).
  { revert r Hr. apply Forall_forall. repeat constructor; vm_compute; reflexivity. }
  destruct (record_table item_heap r) as [[q t]|]; [by eexists _, _|done].
Qed.
Lemma item_sources r : r ∈ item_nodes -> of_source item_heap 1 r = true -> r ∈ item_records.
Proof.
  intros Hr. assert (H : implb (of_source item_heap 1 r) (bool_decide (r ∈ item_records)) = true).
  { revert r Hr. apply Forall_forall. repeat constructor; vm_compute; reflexivity. }
  intros Hs. rewrite Hs in H. by apply bool_decide_eq_true in H.
Qed.
Definition long_field (r : recptr) : bool :=
  match field_at item_heap r 1, kr_get_field_type item_heap r 1 with
  | Ok (KeyLong _), Ok KR_TYPE_LONG => true
  | _, _ => false
  end.
Lemma item_fields r : r ∈ item_nodes -> exists v, field_at item_heap r 1 = Ok v /\
  key_type v = KR_TYPE_LONG /\ kr_get_field_type item_heap r 1 = Ok KR_TYPE_LONG.
Proof.
  intros Hr. assert (H : long_field r = true).
  { revert r Hr. apply Forall_forall. repeat constructor; vm_compute; reflexivity. }
  unfold long_field in H. destruct (field_at item_heap r 1) as [v|]; [|done].
  exists v. split; [done|]. by destruct v, (kr_get_field_type item_heap r 1) as [[]|].
Qed.

(** The first of the records of table 1 below 10, from the last one inserted. *)
Lemma kr_sdi_get_value_picks_witness : exists c',
  kr_sdi_get_value item_shm (fun _ _ => false) (fun _ _ => fail BadPointer) item_value_cb 5
    (item_context item_dym None) = Ok (Some (VLong 4), c').
Proof.
  destruct (kr_sdi_get_value_picks item_heap item_cur (fun _ _ => false) item_value_cb (fun _ => True) item_shm 5
    (fun k => k ∈ below_calcs) below (fun r => r ∈ item_records) (below_decides _)
    (fun _ _ => fail BadPointer) item_sdidef (item_context item_dym None) item_sdi item_sdi item_nodes item_at_sdi
    eq_refl)
    as (c' & i' & _ & Hrun); [discriminate|reflexivity|reflexivity|vm_compute; reflexivity| | | |vm_compute; discriminate|].
  - intros r Hr _. destruct (item_fields r Hr) as (v & Hv & Ht & _). exists v.
    split; [exact Hv|]. split; [exact Ht|]. rewrite Ht. reflexivity.
  - apply item_tables.
  - apply item_sources.
  - assert (Hp : sdi_pick item_heap below item_sdidef item_nodes = Some (1%positive, 1%nat))
      by (vm_compute; reflexivity).
    rewrite Hp in Hrun. destruct Hrun as (v & Hv & Hrun & _). exists c'. rewrite Hrun.
    assert (Hv4 : field_at item_heap (1%positive, 1%nat) 1 = Ok (KeyLong 4)) by (vm_compute; reflexivity).
    change (field_at item_heap (1%positive, 1%nat) 1 = Ok v) in Hv. rewrite Hv4 in Hv. by injection Hv as <-.
Defined.

Definition item_ddi : T_KRDDI :=
  mkDDI (0, 0%nat) 6
    (Some (field_test KR_CALCOP_LT 100)) KR_TYPE_LONG None None KR_VALUE_UNSET KRZero ∅.
Definition item_dym_ddi : T_KRDynamicMem :=
  mkDym None (mkItems ∅ 0) (mkItems {[6 := item_ddi]} 0) (mkItems ∅ 0) (Some (mkGroupList 0 [] 0)).
Definition all_calcs : list T_KRCalc :=
  field_test KR_CALCOP_LT 100 :: map (evaluated (field_test KR_CALCOP_LT 100)) item_records.
Definition everything (r : recptr) : bool := true.

Lemma everything_decides {A} (view : T_KRContext Z -> A) :
  decides item_heap item_cur (fun _ _ => false) item_value_cb (fun _ => True) view
    (fun k => k ∈ all_calcs) (fun r => r ∈ item_records) everything.
Proof. field_test_decides. Qed.

Lemma item_at_ddi : at_item item_heap item_cur (fun _ => True) (IA := ddi_access _ 6)
  (fun k => k ∈ all_calcs) (item_context item_dym_ddi None) item_ddi.
Proof. split; [done..|]. exists (field_test KR_CALCOP_LT 100). split; [done|by left]. Qed.

Lemma item_timed r : r ∈ item_nodes -> timed item_heap r.
Proof.
  intros Hr. destruct (item_fields r Hr) as (v & Hv & Ht & _). destruct v as [|l| | |]; try discriminate Ht.
  exists l. unfold trans_time. change (field_at item_heap r KR_FIELDNO_TRANSTIME) with (field_at item_heap r 1).
  rewrite Hv. reflexivity.
Qed.

(** The sum over the records of table 1. *)
Lemma kr_ddi_get_value_aggregates_witness : exists c',
  kr_ddi_get_value item_shm (fun _ _ => false) (fun _ _ => fail BadPointer) item_value_cb 6
    (item_context item_dym_ddi None) = Ok (Some (VLong 14), c').
Proof.
  destruct (kr_ddi_get_value_aggregates item_heap item_cur (fun _ _ => false) item_value_cb (fun _ => True) item_shm 6
    (fun k => k ∈ all_calcs) everything (fun r => r ∈ item_records) (everything_decides _)
    (fun _ _ => fail BadPointer) item_ddidef (item_context item_dym_ddi None) item_ddi item_ddi 64 item_nodes
    item_at_ddi eq_refl)
    as (c' & i' & _ & Hrun & _);
    [discriminate|reflexivity|reflexivity|reflexivity|discriminate|vm_compute; reflexivity| | | | | |].
  - intros r Hr _. destruct (item_fields r Hr) as (v & Hv & Ht & Hf). exists v.
    split; [exact Hv|]. split; [exact Ht|exact Hf].
  - apply item_tables.
  - apply item_timed. by left.
  - apply item_timed.
  - intros r Hr He. apply item_sources; [exact Hr|]. unfold eligible in He.
    apply andb_true_iff in He as [He _]. apply andb_true_iff in He as [_ He]. exact He.
  - exists c'. assert (Htot : ddi_total KR_DDI_METHOD_SUM 64
      (counted item_heap item_cur everything item_ddidef item_nodes) = 14) by (vm_compute; reflexivity).
    change (ddi_method item_ddidef) with KR_DDI_METHOD_SUM in Hrun. rewrite Htot in Hrun. exact Hrun.
Defined.

(** Table 2 keeps one record.  An item computed on one record of it has no value on the
    next one, which takes the same slot. *)
Definition slot_sdi : T_KRSDI :=
  mkSDI (0, 1%nat) 5
    (Some (field_test KR_CALCOP_LT 100)) KR_TYPE_LONG None None KR_VALUE_UNSET KRZero ∅.
#[local] Abbreviation slot_value :=
  (kr_sdi_get_value item_shm (fun _ _ => false) (fun _ _ => fail BadPointer) item_value_cb 5).
(** The context after a record of table 2 is inserted. *)
Definition slot_event (msg : Z) (c : T_KRContext Z) : option (T_KRContext Z) :=
  match kr_db_insert 2 msg (ptKRDB c) with
  | Ok (r, h) => Some (mkContext h None ∅ (ptDym c) r None KR_TYPE_UNKNOWN None None None)
  | Fault _ => None
  end.
Definition slot_start : option (T_KRContext Z) :=
  match kr_db_startup example_rows with
  | Ok (Some h) =>
      Some (mkContext h None ∅ (mkDym None (mkItems {[5 := slot_sdi]} 0) (mkItems ∅ 0) (mkItems ∅ 0)
              (Some (mkGroupList 0 [] 0))) None None KR_TYPE_UNKNOWN None None None)
  | _ => None
  end.

(** The item is computed on the first record (7), the context is cleaned, and a second
    record arrives: the contexts after the three steps. *)
Definition slot_run : option (T_KRContext Z * T_KRContext Z * T_KRContext Z) :=
  c0 ← slot_start;
  c1 ← slot_event 7 c0;
  match slot_value c1 with
  | Ok (Some (VLong 7), c1) =>
      match kr_context_clean c1 with
      | Ok c2 => c3 ← slot_event 10 c2; Some (c1, c2, c3)
      | Fault _ => None
      end
  | _ => None
  end.

(** The item remembers the slot, and the next record has it. *)
Definition slot_same (x : T_KRContext Z * T_KRContext Z * T_KRContext Z) : bool :=
  let '(c1, c2, c3) := x in
  match items_ (sditable (ptDym c1)) !! 5 with
  | Some i => bool_decide (sdi_ptCurrRec i = ptCurrRec c3)
  | None => false
  end && bool_decide (is_Some (ptCurrRec c3)).

Lemma slot_run_clean c1 c2 c3 : slot_run = Some (c1, c2, c3) ->
  kr_context_clean c1 = Ok c2 /\ ptDym c3 = ptDym c2.
Proof.
  unfold slot_run. intros (c0 & _ & H)%bind_Some. apply bind_Some in H as (d1 & _ & H).
  destruct (slot_value d1) as [[[[]|] d1']|]; try discriminate. destruct l as [|l|]; try discriminate.
  do 3 (destruct l as [l|l|]; try discriminate).
  destruct (kr_context_clean d1') as [d2|] eqn:Hc; [|discriminate].
  apply bind_Some in H as (d3 & H3 & [= <- <- <-]). split; [exact Hc|]. unfold slot_event in H3.
  destruct (kr_db_insert 2 10 _) as [[r h]|]; [injection H3 as <-; reflexivity|discriminate].
Qed.

Lemma kr_item_slot_reused_witness : exists c1 c2 c3, slot_run = Some (c1, c2, c3) /\
  slot_value c3 = Ok (None, c3).
Proof.
  assert (Hrun : match slot_run with Some x => slot_same x | None => false end = true)
    by (vm_compute; reflexivity).
  destruct slot_run as [[[c1 c2] c3]|] eqn:Hs; [|discriminate Hrun]. exists c1, c2, c3. split; [reflexivity|].
  unfold slot_same in Hrun. apply andb_true_iff in Hrun as [Hi [r Hr]%bool_decide_eq_true].
  destruct (items_ (sditable (ptDym c1)) !! 5) as [i|] eqn:Hit; [|discriminate Hi].
  apply bool_decide_eq_true in Hi. destruct (slot_run_clean _ _ _ Hs) as [Hc Hd].
  destruct (kr_item_slot_reused item_shm (fun _ _ => false) (fun _ _ => fail BadPointer) (fun _ _ => fail BadPointer)
    item_value_cb c1 c2 c3 5 r Hc Hd Hr) as [Hsdi _].
  apply (Hsdi i Hit). rewrite Hi. exact Hr.
Defined.

(** * The type of a field, remembered *)

Section StaleType.
Context {Data : Type} {SA : SortArgument}.
#[local] Abbreviation ctx := (T_KRContext Data).
Context (shm : T_KRShareMem).
Context (regexec : string -> string -> bool).
Context (sdi_func ddi_func hdi_func : string -> Z -> M ctx Z).
Context (localtime : Z -> Z * Z * Z).
Context (dbsHdiDaySel dbsHdiMonSel : string -> Z -> string -> string -> Z).
Context (dbsHdiFlagSel : string -> Z -> Z * string).
Context (now : Z).
#[local] Abbreviation value_cb fuel := (kr_data_get_value shm regexec sdi_func ddi_func hdi_func localtime
  dbsHdiDaySel dbsHdiMonSel dbsHdiFlagSel now fuel).

(** The current record of [c] has the value [v] in the field [fld]. *)
Record current_field (c : ctx) (fld : Z) (v : keyptr) : Prop := {
  cf_cur : exists r, ptCurrRec c = Some r /\ field_at (ptKRDB c) r fld = Ok v /\
    kr_get_field_type (ptKRDB c) r fld = Ok (key_type v);
  cf_type : copied_type (key_type v) = true
}.

Lemma current_type c fld v : current_field c fld v ->
  kr_data_get_type KR_CALCKIND_CID fld c = Ok (key_type v, c).
Proof.
  intros [(r & Hr & _ & Ht) _]. unfold kr_data_get_type, mbind, M_bind, curr_rec, field_type, gets.
  rewrite Hr. simpl. by rewrite Ht.
Qed.
Lemma current_value c fld v n : current_field c fld v ->
  value_cb (S n) KR_CALCKIND_CID fld c = Ok (key_value v, c).
Proof.
  intros [(r & Hr & Hv & _) Hcp]. simpl. unfold mbind, M_bind, curr_rec, gets. rewrite Hr. cbn [of_option].
  rewrite (field_at_content (ptKRDB c) c r fld eq_refl), Hv. unfold lift. by destruct v.
Qed.
Lemma extern_value_key v : copied_type (key_type v) = true -> exists x, key_value v = Some x /\
  forall ty, copied_type ty = true ->
    extern_value ty x = if ty_eq ty (key_type v) then Ok (Some (key_union v)) else Fault TypePun.
Proof. intros Hv. destruct v; try done; eexists; (split; [reflexivity|]); intros []; done. Qed.

Lemma eval_extern_cid n c v status fuel : kind n = KR_CALCKIND_CID -> current_field c (id n) v ->
  copied_type (type n) = true \/ type n = KR_TYPE_UNKNOWN ->
  let ty := if ty_eq (type n) KR_TYPE_UNKNOWN then key_type v else type n in
  _kr_calc_tree_eval_extern kr_data_get_type (value_cb (S fuel)) [] n status c =
    if ty_eq ty (key_type v)
    then Ok (0, mkNode (kind n) (op n) (id n) ty KR_VALUE_SETED (key_union v), status, c)
    else Fault TypePun.
Proof.
  intros Hk Hv Hty ty. destruct (extern_value_key v (cf_type _ _ _ Hv)) as (x & Hx & He).
  unfold _kr_calc_tree_eval_extern, mbind, M_bind. cbn [kind id type op set_ind set_type].
  assert (Hcp : copied_type ty = true).
  { unfold ty. destruct Hty as [Hty| ->]; [|exact (cf_type _ _ _ Hv)].
    destruct (ty_eq (type n) KR_TYPE_UNKNOWN) eqn:E; [exact (cf_type _ _ _ Hv)|done]. }
  assert (Hget : (if ty_eq (type n) KR_TYPE_UNKNOWN then kr_data_get_type (kind n) (id n) else mret (type n)) c
    = Ok (ty, c)).
  { unfold ty. rewrite Hk. destruct (ty_eq (type n) KR_TYPE_UNKNOWN); [by apply current_type|done]. }
  rewrite Hget. clearbody ty. assert (ty_eq ty KR_TYPE_UNKNOWN = false) as -> by by destruct ty.
  rewrite Hk, (current_value _ _ _ _ Hv), Hx. cbn [kind_eq bool_decide decide].
  change (kind_eq KR_CALCKIND_CID KR_CALCKIND_SET) with false. cbn match. unfold lift.
  rewrite (He ty Hcp). destruct (ty_eq ty (key_type v)); [|done]. unfold mret, M_ret, set_ind, set_value, set_type.
  cbn [kind op id type]. by rewrite Hk.
Qed.

(** A calculator asks for the type of a field of the current record once: the type
    stays in its node.  Evaluated on a record of another table whose field has another
    type, it reads the value at the type of the first. *)
Theorem kr_calc_field_type_stale c1 c2 n v1 v2 status fuel :
  kind n = KR_CALCKIND_CID -> type n = KR_TYPE_UNKNOWN ->
  current_field c1 (id n) v1 -> current_field c2 (id n) v2 -> key_type v1 <> key_type v2 ->
  exists n', _kr_calc_tree_eval_extern kr_data_get_type (value_cb (S fuel)) [] n status c1 =
      Ok (0, n', status, c1) /\ ind n' = KR_VALUE_SETED /\ value n' = key_union v1 /\
    _kr_calc_tree_eval_extern kr_data_get_type (value_cb (S fuel)) [] n' status c2 = Fault TypePun.
Proof.
  intros Hk Ht H1 H2 Hne. rewrite (eval_extern_cid n c1 v1) by auto.
  rewrite Ht. change (ty_eq KR_TYPE_UNKNOWN KR_TYPE_UNKNOWN) with true. cbn match.
  assert (ty_eq (key_type v1) (key_type v1) = true) as -> by by apply bool_decide_eq_true.
  eexists. do 3 (split; [reflexivity|]). cbn [kind op id type].
  rewrite (eval_extern_cid _ c2 v2); [|exact Hk|exact H2|left; exact (cf_type _ _ _ H1)].
  cbn [type]. assert (ty_eq (key_type v1) KR_TYPE_UNKNOWN = false) as -> by by destruct v1.
  by assert (ty_eq (key_type v1) (key_type v2) = false) as -> by by apply bool_decide_eq_false.
Qed.
End StaleType.

(** Two tables whose first fields are an integer and a string. *)
Definition stale_rows : list (table_row (Data:=Z)) :=
  [mkTableRow 1 2 1 [mkFieldRow 1 KR_TYPE_INT 4] [] (Some (fun m => m)) (Some (fun m _ _ => KeyInt m)) true;
   mkTableRow 2 2 1 [mkFieldRow 1 KR_TYPE_STRING 8] [] (Some (fun m => m)) (Some (fun m _ _ => KeyString "x")) true].
(** The context on a record of a table. *)
Definition stale_context (table : Z) : option (T_KRContext Z) :=
  match kr_db_startup stale_rows with
  | Ok (Some h) =>
      match kr_db_insert table 7 h with
      | Ok (Some r, h) => Some (mkContext h None ∅ no_items (Some r) None KR_TYPE_UNKNOWN None None None)
      | _ => None
      end
  | _ => None
  end.

Definition stale_check (table : Z) (v : keyptr) : bool :=
  match stale_context table with
  | Some c =>
      match ptCurrRec c with
      | Some r => match field_at (ptKRDB c) r 0, kr_get_field_type (ptKRDB c) r 0 with
                  | Ok w, Ok ty => bool_decide (w = v) && bool_decide (ty = key_type v)
                  | _, _ => false
                  end
      | None => false
      end
  | None => false
  end.
Lemma stale_field table v : copied_type (key_type v) = true -> stale_check table v = true ->
  exists c, stale_context table = Some c /\ current_field c 0 v.
Proof.
  unfold stale_check. intros Hv H. destruct (stale_context table) as [c|]; [|discriminate H].
  destruct (ptCurrRec c) as [r|] eqn:Hr; [|discriminate H].
  destruct (field_at _ r 0) as [w|] eqn:Hw; [|discriminate H].
  destruct (kr_get_field_type _ r 0) as [ty|] eqn:Hty; [|discriminate H].
  apply andb_true_iff in H as [->%bool_decide_eq_true ->%bool_decide_eq_true].
  exists c. split; [reflexivity|]. split; [by exists r|exact Hv].
Qed.

Lemma kr_calc_field_type_stale_witness : exists c1 c2 n n',
  stale_context 1 = Some c1 /\ stale_context 2 = Some c2 /\
  _kr_calc_tree_eval_extern kr_data_get_type item_value_cb [] n 0 c1 = Ok (0, n', 0, c1) /\
  _kr_calc_tree_eval_extern kr_data_get_type item_value_cb [] n' 0 c2 = Fault TypePun.
Proof.
  destruct (stale_field 1 (KeyInt 7) eq_refl) as (c1 & Hc1 & H1); [vm_compute; reflexivity|].
  destruct (stale_field 2 (KeyString "x") eq_refl) as (c2 & Hc2 & H2); [vm_compute; reflexivity|].
  destruct (kr_calc_field_type_stale item_shm (fun _ _ => false) (fun _ _ => fail BadPointer) (fun _ _ => fail BadPointer)
     (fun _ _ => fail BadPointer) (fun _ => (0, 0, 0)) (fun _ _ _ _ => 0) (fun _ _ _ _ => 0)
     (fun _ _ => (0, ""%string)) 0 c1 c2
     (mkNode KR_CALCKIND_CID None 0 KR_TYPE_UNKNOWN KR_VALUE_UNSET KRZero) (KeyInt 7) (KeyString "x") 0 0
     eq_refl eq_refl H1 H2) as (n' & Hn1 & _ & _ & Hn2); [discriminate|].
  exists c1, c2, (mkNode KR_CALCKIND_CID None 0 KR_TYPE_UNKNOWN KR_VALUE_UNSET KRZero), n'.
  split; [exact Hc1|]. split; [exact Hc2|]. split; [exact Hn1|exact Hn2].
Defined.
