(* ===== verification/KrProtocol.v ===== *)
(** The messages of the server and the shell (krserver/kr_server_protocol.c,
    krshell/kr_shell_protocol.c, which has the same text) and the reads and writes of
    krutils/kr_net.c that carry them.

    Bytes are integers from 0 to 255.  A buffer is the array of the C structure with the
    number of its bytes in use; every copy into it or out of it is checked against its
    length.  The message type is no part of the format. *)

From S2P Require Import Prelude.
Local Open Scope Z_scope.
#[local] Notation length := List.length.

(** * Memory *)

Definition is_byte (b : Z) : Prop := 0 <= b < 256.
Definition size_of (l : list Z) : Z := Z.of_nat (length l).

(** [n] bytes of an array from an offset, and bytes written over an array. *)
Definition mem_read (l : list Z) (off n : Z) : res (list Z) :=
  if (off <? 0) || (n <? 0) || (size_of l <? off + n) then Fault OutOfBounds
  else Ok (take (Z.to_nat n) (drop (Z.to_nat off) l)).
Definition memcpy (dst : list Z) (off : Z) (src : list Z) : res (list Z) :=
  if (off <? 0) || (size_of dst <? off + size_of src) then Fault OutOfBounds
  else Ok (take (Z.to_nat off) dst ++ src ++ drop (Z.to_nat off + length src) dst).

Definition zero_bytes (n : Z) : list Z := replicate (Z.to_nat n) 0.

(** ** Numbers on four bytes *)

Definition kr_get_u32 (buf : list Z) : res Z :=
  match buf with
  | b0 :: b1 :: b2 :: b3 :: _ =>
      Ok (Z.lor (Z.lor (Z.lor (u32 (Z.shiftl b0 24)) (u32 (Z.shiftl b1 16))) (u32 (Z.shiftl b2 8))) b3)
  | _ => Fault OutOfBounds
  end.
Definition kr_put_u32 (val : Z) : list Z :=
  [u8 (Z.land (Z.shiftr val 24) 255); u8 (Z.land (Z.shiftr val 16) 255);
   u8 (Z.land (Z.shiftr val 8) 255); u8 (Z.land val 255)].

(** * Messages *)

Inductive E_KRMsgType := KR_MSGTYPE_SUCCESS | KR_MSGTYPE_ERROR.

Definition KR_MSGID_LEN : Z := 16.
Definition KR_METHOD_LEN : Z := 20.
Definition KR_DATASRC_LEN : Z := 4.
Definition KR_MSGLEN_LEN : Z := 4.
Definition KR_MSGHEADER_LEN : Z := 44.
Definition KR_BUFFER_MAX_LEN : Z := 16384.

Record T_KRBuffer := mkBuffer { buf_size : Z; buf_data : list Z }.

(** [msgbuf] is [None] for [NULL]. *)
Record T_KRMessage := mkMessage {
  msgtype : E_KRMsgType;
  msgid : list Z;
  method : list Z;
  datasrc : Z;
  msglen : Z;
  msgbuf : option (list Z)
}.

Definition kr_message_alloc : T_KRMessage :=
  mkMessage KR_MSGTYPE_SUCCESS (zero_bytes 31) (zero_bytes 21) 0 0 None.
Definition new_buffer : T_KRBuffer := mkBuffer 0 (zero_bytes KR_BUFFER_MAX_LEN).

(** 0 when a message was taken off the buffer, 1 and 2 when its header or its body is not
    complete.  (The test that the length, a [size_t], is negative is never true.) *)
Definition kr_message_parse (krbuf : T_KRBuffer) (krmsg : T_KRMessage)
    : res (Z * T_KRBuffer * T_KRMessage) :=
  if buf_size krbuf <? KR_MSGHEADER_LEN then Ok (1, krbuf, krmsg)
  else
    l ← mem_read (buf_data krbuf) (KR_MSGHEADER_LEN - KR_MSGLEN_LEN) KR_MSGLEN_LEN;
    len ← kr_get_u32 l;
    if buf_size krbuf <? KR_MSGHEADER_LEN + len then Ok (2, krbuf, krmsg)
    else
      let p := 0 in
      bytes ← mem_read (buf_data krbuf) p KR_MSGID_LEN;
      id ← memcpy (msgid krmsg) 0 bytes;
      let p := p + KR_MSGID_LEN in
      bytes ← mem_read (buf_data krbuf) p KR_METHOD_LEN;
      meth ← memcpy (method krmsg) 0 bytes;
      let p := p + KR_METHOD_LEN in
      bytes ← mem_read (buf_data krbuf) p 4; src ← kr_get_u32 bytes;
      let p := p + KR_DATASRC_LEN in
      bytes ← mem_read (buf_data krbuf) p 4; len ← kr_get_u32 bytes;
      let p := p + KR_MSGLEN_LEN in
      body ← mem_read (buf_data krbuf) p len;
      let p := p + len in
      rest ← mem_read (buf_data krbuf) p (buf_size krbuf - KR_MSGHEADER_LEN - len);
      buff ← memcpy (zero_bytes KR_BUFFER_MAX_LEN) 0 rest;
      d ← memcpy (buf_data krbuf) 0 buff;
      Ok (0, mkBuffer (buf_size krbuf - KR_MSGHEADER_LEN - len) d,
          mkMessage (msgtype krmsg) id meth (i32 src) len (Some body)).

(** The body: [msglen] bytes of [msgbuf], which may be [NULL] when there are none. *)
Definition message_body (krmsg : T_KRMessage) : res (list Z) :=
  match msgbuf krmsg with
  | Some b => mem_read b 0 (msglen krmsg)
  | None => if msglen krmsg =? 0 then Ok [] else Fault NullDeref
  end.

Definition kr_message_dump (krmsg : T_KRMessage) (krbuf : T_KRBuffer) : res (Z * T_KRBuffer) :=
  let p := 0 in
  bytes ← mem_read (msgid krmsg) 0 KR_MSGID_LEN;
  d ← memcpy (buf_data krbuf) p bytes;
  let p := p + KR_MSGID_LEN in
  bytes ← mem_read (method krmsg) 0 KR_METHOD_LEN;
  d ← memcpy d p bytes;
  let p := p + KR_METHOD_LEN in
  d ← memcpy d p (kr_put_u32 (u32 (datasrc krmsg)));
  let p := p + KR_DATASRC_LEN in
  d ← memcpy d p (kr_put_u32 (u32 (msglen krmsg)));
  let p := p + KR_MSGLEN_LEN in
  body ← message_body krmsg;
  d ← memcpy d p body;
  let size := KR_MSGHEADER_LEN + msglen krmsg in
  Ok (i32 size, mkBuffer size d).

(** * Sockets (kr_net.c)

    A socket is what the calls on it give, one after the other. *)

Inductive read_event := RBytes (l : list Z) | RAgain | RError.
Inductive write_event := WBytes (n : nat) | WAgain | WError.

(** [read]: at most [count] bytes of what is there; the rest stays.  A socket that has
    nothing more is at its end. *)
Definition read_once (count : Z) (s : list read_event) : Z * list Z * bool * list read_event :=
  match s with
  | [] => (0, [], false, [])
  | RAgain :: s' => (-1, [], true, s')
  | RError :: s' => (-1, [], false, s')
  | RBytes l :: s' =>
      let got := take (Z.to_nat count) l in
      let rest := drop (Z.to_nat count) l in
      (size_of got, got, false, match rest with [] => s' | _ => RBytes rest :: s' end)
  end.

(** The return code, the bytes read, and the socket. *)
Fixpoint kr_net_read (fuel : nat) (s : list read_event) (buf : list Z) (count totlen : Z)
    : res (Z * list Z * list read_event) :=
  if totlen =? count then Ok (totlen, buf, s)
  else
    match fuel with
    | O => Fault NoFuel
    | S n =>
        let '(nread, got, again, s) := read_once (u64 (count - totlen)) s in
        if nread =? 0 then Ok (totlen, buf, s)
        else if nread =? -1 then
          if (again : bool) then kr_net_read n s buf count totlen else Ok (-1, buf, s)
        else kr_net_read n s (buf ++ got) count (totlen + nread)
    end.

(** What each [write] takes; the bytes written so far come first. *)
Fixpoint kr_net_write (fuel : nat) (w : list write_event) (out buf : list Z) (count totlen : Z)
    : res (Z * list Z * list write_event) :=
  if totlen =? count then Ok (totlen, out, w)
  else
    match fuel with
    | O => Fault NoFuel
    | S n =>
        match w with
        | [] | WBytes O :: _ => Ok (totlen, out, tail w)
        | WAgain :: w' => kr_net_write n w' out buf count totlen
        | WError :: w' => Ok (-1, out, w')
        | WBytes k :: w' =>
            let k := Z.min (Z.of_nat k) (count - totlen) in
            bytes ← mem_read buf totlen k;
            kr_net_write n w' (out ++ bytes) buf count (totlen + k)
        end
    end.

(** * The format of a message *)

Lemma size_of_app a b : size_of (a ++ b) = size_of a + size_of b.
Proof. unfold size_of. rewrite length_app. lia. Qed.
Lemma size_of_nonneg l : 0 <= size_of l.
Proof. unfold size_of. lia. Qed.
Lemma size_of_nil : size_of [] = 0.
Proof. done. Qed.
Lemma size_of_cons b l : size_of (b :: l) = 1 + size_of l.
Proof. unfold size_of. simpl. lia. Qed.
Lemma size_of_zero_bytes n : 0 <= n -> size_of (zero_bytes n) = n.
Proof. intros. unfold size_of, zero_bytes. rewrite length_replicate. lia. Qed.
Create Rewrite HintDb krbytes.
#[export] Hint Rewrite size_of_app size_of_nil size_of_cons : krbytes.

(** Reads and writes at an offset that ends a known prefix. *)
Lemma mem_read_eq l a b c off n :
  l = a ++ b ++ c -> size_of a = off -> size_of b = n -> mem_read l off n = Ok b.
Proof.
  intros -> <- <-. unfold mem_read.
  pose proof (size_of_nonneg a). pose proof (size_of_nonneg b). pose proof (size_of_nonneg c).
  rewrite !size_of_app.
  rewrite (proj2 (Z.ltb_ge _ _)) by lia. rewrite (proj2 (Z.ltb_ge (size_of b) 0)) by lia.
  rewrite (proj2 (Z.ltb_ge _ (size_of a + size_of b))) by lia. cbn [orb].
  unfold size_of. rewrite !Nat2Z.id, (drop_app_length a), (take_app_length b). done.
Qed.
Lemma memcpy_eq l a b c src off :
  l = a ++ b ++ c -> size_of a = off -> size_of b = size_of src -> memcpy l off src = Ok (a ++ src ++ c).
Proof.
  intros -> <- Hb. unfold memcpy.
  pose proof (size_of_nonneg a). pose proof (size_of_nonneg src). pose proof (size_of_nonneg c).
  rewrite !size_of_app.
  rewrite (proj2 (Z.ltb_ge _ _)) by lia.
  rewrite (proj2 (Z.ltb_ge _ (size_of a + size_of src))) by lia. cbn [orb].
  unfold size_of in *. rewrite Nat2Z.id, (take_app_length a), (app_assoc a b c).
  by rewrite (drop_app_length' (a ++ b)) by (rewrite length_app; lia).
Qed.

Lemma lor_disjoint a b k : 0 <= k -> 0 <= b < 2 ^ k -> Z.lor (Z.shiftl a k) b = a * 2 ^ k + b.
Proof.
  intros Hk Hb. pose proof (Z.add_lor_land (Z.shiftl a k) b) as H.
  assert (Z.land (Z.shiftl a k) b = 0) as E.
  { apply Z.bits_inj'. intros n Hn. rewrite Z.land_spec, Z.bits_0, Z.shiftl_spec by lia.
    destruct (Z.lt_ge_cases n k).
    - by rewrite Z.testbit_neg_r by lia.
    - rewrite <- (Z.mod_small b (2 ^ k)) by done. rewrite Z.mod_pow2_bits_high by lia. apply andb_false_r. }
  rewrite E in H. rewrite <- Z.shiftl_mul_pow2 by lia. lia.
Qed.

(** Bytes of the network are big-endian. *)
Lemma kr_get_put_u32 v r : 0 <= v < 2 ^ 32 -> kr_get_u32 (kr_put_u32 v ++ r) = Ok v.
Proof.
  intros Hv. unfold kr_put_u32. cbn [app kr_get_u32]. f_equal.
  assert (Hb : forall k, u8 (Z.land (Z.shiftr v k) 255) = Z.shiftr v k mod 256).
  { intros k. change 255 with (Z.ones 8). rewrite Z.land_ones by lia. unfold wrapu. by rewrite Zmod_mod. }
  pose proof (Hb 0) as H0. rewrite Z.shiftr_0_r in H0.
  rewrite H0, !Hb, !Z.shiftr_div_pow2 by lia. clear H0 Hb.
  set (b3 := v / 2 ^ 24 mod 256). set (b2 := v / 2 ^ 16 mod 256). set (b1 := v / 2 ^ 8 mod 256).
  set (b0 := v mod 256).
  assert (0 <= b3 < 256) by (apply Z.mod_pos_bound; lia).
  assert (0 <= b2 < 256) by (apply Z.mod_pos_bound; lia).
  assert (0 <= b1 < 256) by (apply Z.mod_pos_bound; lia).
  assert (0 <= b0 < 256) by (apply Z.mod_pos_bound; lia).
  assert (v = b3 * 2 ^ 24 + b2 * 2 ^ 16 + b1 * 2 ^ 8 + b0) as Hsum.
  { unfold b3, b2, b1, b0. Z.to_euclidean_division_equations. lia. }
  rewrite !(wrapu_small 32) by (rewrite Z.shiftl_mul_pow2 by lia; lia).
  rewrite <- !Z.lor_assoc.
  rewrite (lor_disjoint b1 b0 8), (lor_disjoint b2 _ 16), (lor_disjoint b3 _ 24) by lia. lia.
Qed.
Lemma size_of_put_u32 v : size_of (kr_put_u32 v) = 4.
Proof. done. Qed.
#[export] Hint Rewrite size_of_put_u32 : krbytes.

(** What a message is on the network: sixteen and twenty bytes of names, the source, the
    length of the body, the body. *)
Record frame := mkFrame { f_id : list Z; f_method : list Z; f_src : Z; f_body : list Z }.
Definition header (f : frame) : list Z :=
  f_id f ++ f_method f ++ kr_put_u32 (u32 (f_src f)) ++ kr_put_u32 (size_of (f_body f)).
Definition encode (f : frame) : list Z := header f ++ f_body f.

(** A frame that the length field can describe; one that fits a buffer. *)
Record frame_wf (f : frame) : Prop := {
  wf_id : size_of (f_id f) = KR_MSGID_LEN;
  wf_method : size_of (f_method f) = KR_METHOD_LEN;
  wf_src : INT_MIN <= f_src f <= INT_MAX;
  wf_body : size_of (f_body f) < 2 ^ 32
}.
Definition fits (f : frame) : Prop := size_of (f_body f) <= KR_BUFFER_MAX_LEN - KR_MSGHEADER_LEN.

(** The message that is made of a frame, and the frame that is made of a message. *)
Definition received (f : frame) : T_KRMessage :=
  mkMessage KR_MSGTYPE_SUCCESS (f_id f ++ zero_bytes 15) (f_method f ++ zero_bytes 1) (f_src f)
    (size_of (f_body f)) (Some (f_body f)).
Definition frame_of (m : T_KRMessage) : frame :=
  mkFrame (take 16 (msgid m)) (take 20 (method m)) (datasrc m)
    (match msgbuf m with Some b => take (Z.to_nat (msglen m)) b | None => [] end).

(** The arrays of the structure, and a body of [msglen] bytes. *)
Record message_ok (m : T_KRMessage) : Prop := {
  ok_id : size_of (msgid m) = 31;
  ok_method : size_of (method m) = 21;
  ok_src : INT_MIN <= datasrc m <= INT_MAX;
  ok_len : 0 <= msglen m < 2 ^ 32;
  ok_body : match msgbuf m with Some b => msglen m <= size_of b | None => msglen m = 0 end
}.

(** The bytes in use of a buffer. *)
Definition holds (b : T_KRBuffer) (l : list Z) : Prop :=
  exists t, buf_data b = l ++ t /\ size_of (l ++ t) = KR_BUFFER_MAX_LEN /\ buf_size b = size_of l.

Lemma size_of_take n (l : list Z) : 0 <= n <= size_of l -> size_of (take (Z.to_nat n) l) = n.
Proof. intros H. unfold size_of in *. rewrite length_take. lia. Qed.

Lemma size_of_header f : frame_wf f -> size_of (header f) = KR_MSGHEADER_LEN.
Proof.
  intros Hf. unfold header. autorewrite with krbytes.
  rewrite (wf_id f Hf), (wf_method f Hf). done.
Qed.
Lemma holds_new : holds new_buffer [].
Proof. exists (zero_bytes KR_BUFFER_MAX_LEN). split_and!; [done| |done]. by apply size_of_zero_bytes. Qed.

Lemma frame_of_wf m : message_ok m -> frame_wf (frame_of m).
Proof.
  intros Hm. pose proof (ok_id m Hm). pose proof (ok_method m Hm). pose proof (ok_len m Hm).
  pose proof (ok_body m Hm) as Hb.
  split; simpl.
  - apply (size_of_take 16). lia.
  - apply (size_of_take 20). lia.
  - apply (ok_src m Hm).
  - destruct (msgbuf m); [rewrite size_of_take; lia|]. done.
Qed.
Lemma frame_of_len m : message_ok m -> size_of (f_body (frame_of m)) = msglen m.
Proof.
  intros Hm. pose proof (ok_len m Hm). pose proof (ok_body m Hm) as Hb. simpl.
  destruct (msgbuf m); [rewrite size_of_take; lia|]. by rewrite Hb.
Qed.

Lemma received_ok f : frame_wf f -> message_ok (received f).
Proof.
  intros Hf. pose proof (size_of_nonneg (f_body f)). split; simpl.
  - rewrite size_of_app, (wf_id f Hf). done.
  - rewrite size_of_app, (wf_method f Hf). done.
  - apply (wf_src f Hf).
  - pose proof (wf_body f Hf). lia.
  - done.
Qed.
Lemma frame_of_received f : frame_wf f -> frame_of (received f) = f.
Proof.
  intros Hf. destruct f as [id meth src body]. unfold frame_of, received. simpl.
  pose proof (wf_id _ Hf) as H1. pose proof (wf_method _ Hf) as H2. unfold size_of in *. simpl in *.
  rewrite Nat2Z.id, firstn_all. f_equal.
  - apply take_app_length'. unfold KR_MSGID_LEN in *. lia.
  - apply take_app_length'. unfold KR_METHOD_LEN in *. lia.
Qed.

(** An array of [n] bytes that starts with [a]; a write at the end of [a] extends it. *)
Definition starts (a : list Z) (n : Z) (d : list Z) : Prop := exists t, d = a ++ t /\ size_of d = n.

Lemma memcpy_starts a n d src off :
  starts a n d -> size_of a = off -> size_of a + size_of src <= n ->
  exists d', memcpy d off src = Ok d' /\ starts (a ++ src) n d'.
Proof.
  intros (t & -> & <-) Ha Hn. autorewrite with krbytes in Hn.
  assert (Hl : (length src <= length t)%nat) by (unfold size_of in *; lia).
  exists (a ++ src ++ drop (length src) t). split.
  - rewrite <- (take_drop (length src) t) at 1. apply (memcpy_eq _ a (take (length src) t)); [done|done|].
    unfold size_of. rewrite length_take. lia.
  - exists (drop (length src) t). rewrite app_assoc. split; [done|].
    autorewrite with krbytes. unfold size_of in *. rewrite length_drop. lia.
Qed.

Lemma mem_read_take l n m : 0 <= n <= size_of l -> m = Z.to_nat n -> mem_read l 0 n = Ok (take m l).
Proof.
  intros Hn ->. apply (mem_read_eq _ [] _ (drop (Z.to_nat n) l)); [|done|].
  - by rewrite app_nil_l, take_drop.
  - by apply size_of_take.
Qed.

Lemma message_body_ok m : message_ok m -> message_body m = Ok (f_body (frame_of m)).
Proof.
  intros Hm. pose proof (ok_len m Hm). pose proof (ok_body m Hm) as Hb. unfold message_body. simpl.
  destruct (msgbuf m) as [b|].
  - apply mem_read_take; [lia|done].
  - by rewrite Hb.
Qed.

(** [kr_message_dump] writes the frame of the message, when the buffer is long enough. *)
Lemma kr_message_dump_spec m l b :
  message_ok m -> fits (frame_of m) -> holds b l ->
  exists b', kr_message_dump m b = Ok (KR_MSGHEADER_LEN + msglen m, b') /\ holds b' (encode (frame_of m)).
Proof.
  intros Hm Hfit (t & Hd & Hn & Hs).
  pose proof (frame_of_wf m Hm) as Hf. pose proof (frame_of_len m Hm) as Hlen.
  pose proof (ok_id m Hm) as Hid. pose proof (ok_method m Hm) as Hme. pose proof (ok_len m Hm).
  unfold fits in Hfit. rewrite Hlen in Hfit.
  pose proof (wf_id _ Hf) as H16. pose proof (wf_method _ Hf) as H20. cbn [f_id f_method frame_of] in H16, H20.
  unfold KR_BUFFER_MAX_LEN, KR_MSGHEADER_LEN, KR_MSGID_LEN, KR_METHOD_LEN in *.
  unfold kr_message_dump, KR_MSGHEADER_LEN, KR_MSGID_LEN, KR_METHOD_LEN, KR_DATASRC_LEN, KR_MSGLEN_LEN.
  assert (S0 : starts [] 16384 (buf_data b)) by (rewrite Hd; by exists (l ++ t)).
  rewrite (mem_read_take _ 16 16), (mem_read_take _ 20 20) by first [done|lia]. cbn [mbind res_bind].
  destruct (memcpy_starts _ _ _ (take 16 (msgid m)) 0 S0) as (d1 & -> & S1); [done|rewrite H16; done|].
  cbn [mbind res_bind].
  destruct (memcpy_starts _ _ _ (take 20 (method m)) (0 + 16) S1) as (d2 & -> & S2);
    [autorewrite with krbytes; lia..|]. cbn [mbind res_bind].
  destruct (memcpy_starts _ _ _ (kr_put_u32 (u32 (datasrc m))) (0 + 16 + 20) S2) as (d3 & -> & S3);
    [autorewrite with krbytes; lia..|]. cbn [mbind res_bind].
  destruct (memcpy_starts _ _ _ (kr_put_u32 (u32 (msglen m))) (0 + 16 + 20 + 4) S3) as (d4 & -> & S4);
    [autorewrite with krbytes; lia..|]. cbn [mbind res_bind].
  rewrite (message_body_ok m Hm). cbn [mbind res_bind].
  destruct (memcpy_starts _ _ _ (f_body (frame_of m)) (0 + 16 + 20 + 4 + 4) S4) as (d5 & -> & S5);
    [autorewrite with krbytes; lia..|]. cbn [mbind res_bind].
  eexists. split; [rewrite i32_small by (unfold INT_MIN, INT_MAX; lia); done|].
  destruct S5 as (t' & Ht & Hn'). exists t'. simpl buf_data. simpl buf_size.
  assert (Henc : ((([] ++ take 16 (msgid m)) ++ take 20 (method m)) ++ kr_put_u32 (u32 (datasrc m))) ++
    kr_put_u32 (u32 (msglen m)) = header (frame_of m)).
  { unfold header. rewrite Hlen, (u32_small (msglen m)) by (unfold UINT_MAX; lia).
    cbn [app f_src f_id f_method frame_of]. by rewrite <- !app_assoc. }
  rewrite Henc in Ht. change (header (frame_of m) ++ f_body (frame_of m)) with (encode (frame_of m)) in Ht.
  rewrite <- Ht. split_and!; [done|exact Hn'|].
  unfold encode. rewrite size_of_app, size_of_header, Hlen by done. done.
Qed.

(** ** Parsing *)

Lemma parse_short m b l : holds b l -> size_of l < KR_MSGHEADER_LEN -> kr_message_parse b m = Ok (1, b, m).
Proof. intros (t & _ & _ & Hs) Hl. unfold kr_message_parse. rewrite Hs. by rewrite (proj2 (Z.ltb_lt _ _) Hl). Qed.

(** The length field of a header, which need not have its body behind it. *)
Lemma header_len f b x :
  frame_wf f -> holds b (header f ++ x) ->
  mem_read (buf_data b) (KR_MSGHEADER_LEN - KR_MSGLEN_LEN) KR_MSGLEN_LEN = Ok (kr_put_u32 (size_of (f_body f))) /\
  kr_get_u32 (kr_put_u32 (size_of (f_body f))) = Ok (size_of (f_body f)).
Proof.
  intros Hf (t & Hd & Hn & Hs). split.
  - apply (mem_read_eq _ (f_id f ++ f_method f ++ kr_put_u32 (u32 (f_src f))) _ (x ++ t)).
    + rewrite Hd. unfold header. by rewrite <- !app_assoc.
    + autorewrite with krbytes. rewrite (wf_id f Hf), (wf_method f Hf). done.
    + done.
  - rewrite <- (app_nil_r (kr_put_u32 _)). apply kr_get_put_u32.
    pose proof (wf_body f Hf). pose proof (size_of_nonneg (f_body f)). lia.
Qed.

Lemma parse_partial f m b x :
  frame_wf f -> holds b (header f ++ x) -> size_of x < size_of (f_body f) ->
  kr_message_parse b m = Ok (2, b, m).
Proof.
  intros Hf Hb Hx. destruct (header_len f b x Hf Hb) as [E1 E2]. destruct Hb as (t & Hd & Hn & Hs).
  rewrite size_of_app, (size_of_header f Hf) in Hs. pose proof (size_of_nonneg x).
  unfold kr_message_parse. rewrite Hs. rewrite (proj2 (Z.ltb_ge _ _)) by lia.
  rewrite E1. cbn [mbind res_bind]. rewrite E2. cbn [mbind res_bind].
  by rewrite (proj2 (Z.ltb_lt _ _)) by lia.
Qed.

Lemma i32_u32 z : INT_MIN <= z <= INT_MAX -> i32 (u32 z) = z.
Proof.
  intros Hz. unfold wraps, wrapu, INT_MIN, INT_MAX in *.
  rewrite Zplus_mod_idemp_l, Z.mod_small; lia.
Qed.

(** A complete frame is taken off the buffer. *)
Lemma parse_complete f b r :
  frame_wf f -> holds b (encode f ++ r) ->
  exists b', kr_message_parse b kr_message_alloc = Ok (0, b', received f) /\ holds b' r.
Proof.
  intros Hf Hb. unfold encode in Hb. rewrite <- app_assoc in Hb.
  destruct (header_len f b _ Hf Hb) as [E1 E2]. destruct Hb as (t & Hd & Hn & Hs).
  pose proof (wf_id f Hf) as H16. pose proof (wf_method f Hf) as H20. pose proof (wf_body f Hf).
  pose proof (size_of_header f Hf) as Hh. pose proof (size_of_nonneg (f_body f)). pose proof (size_of_nonneg r).
  assert (Hsz : size_of (header f ++ f_body f ++ r) = 44 + size_of (f_body f) + size_of r).
  { rewrite !size_of_app, Hh. unfold KR_MSGHEADER_LEN. lia. }
  rewrite Hsz in Hs. rewrite size_of_app, Hsz in Hn. pose proof (size_of_nonneg t).
  unfold kr_message_parse. rewrite Hs, (proj2 (Z.ltb_ge _ KR_MSGHEADER_LEN)) by (unfold KR_MSGHEADER_LEN; lia).
  rewrite E1. cbn [mbind res_bind]. rewrite E2. cbn [mbind res_bind].
  unfold KR_MSGHEADER_LEN, KR_MSGID_LEN, KR_METHOD_LEN, KR_DATASRC_LEN, KR_MSGLEN_LEN.
  unfold KR_BUFFER_MAX_LEN, KR_MSGHEADER_LEN, KR_MSGID_LEN, KR_METHOD_LEN in *.
  rewrite (proj2 (Z.ltb_ge _ _)) by lia.
  unfold header in Hd. rewrite <- !app_assoc in Hd.
  rewrite (mem_read_eq (buf_data b) [] (f_id f) _ 0 16 Hd) by done. cbn [mbind res_bind].
  cbn [msgid method kr_message_alloc].
  rewrite (memcpy_eq (zero_bytes 31) [] (zero_bytes 16) (zero_bytes 15)) by (rewrite ?H16; done).
  cbn [mbind res_bind].
  rewrite (mem_read_eq (buf_data b) (f_id f) (f_method f) _ (0 + 16) 20 Hd) by done. cbn [mbind res_bind].
  rewrite (memcpy_eq (zero_bytes 21) [] (zero_bytes 20) (zero_bytes 1)) by (rewrite ?H20; done).
  cbn [mbind res_bind].
  rewrite (mem_read_eq (buf_data b) (f_id f ++ f_method f) (kr_put_u32 (u32 (f_src f)))
    (kr_put_u32 (size_of (f_body f)) ++ f_body f ++ r ++ t) (0 + 16 + 20) 4)
    by (rewrite ?Hd, <- ?app_assoc; autorewrite with krbytes; rewrite ?H16, ?H20; done).
  cbn [mbind res_bind]. rewrite <- (app_nil_r (kr_put_u32 (u32 _))), kr_get_put_u32
    by (pose proof (wrapu_range 32 (f_src f)); lia).
  cbn [mbind res_bind].
  rewrite (mem_read_eq (buf_data b) (f_id f ++ f_method f ++ kr_put_u32 (u32 (f_src f)))
    (kr_put_u32 (size_of (f_body f))) (f_body f ++ r ++ t) (0 + 16 + 20 + 4) 4)
    by (rewrite ?Hd, <- ?app_assoc; autorewrite with krbytes; rewrite ?H16, ?H20; done).
  cbn [mbind res_bind]. rewrite E2. cbn [mbind res_bind].
  rewrite (mem_read_eq (buf_data b) (header f) (f_body f) (r ++ t) (0 + 16 + 20 + 4 + 4) (size_of (f_body f)))
    by (rewrite ?Hd, ?Hh; unfold header; rewrite <- ?app_assoc; done).
  cbn [mbind res_bind].
  rewrite (mem_read_eq (buf_data b) (header f ++ f_body f) r t)
    by (rewrite ?Hd, ?size_of_app, ?Hh; unfold header; rewrite <- ?app_assoc; first [done|lia]).
  cbn [mbind res_bind].
  destruct (memcpy_starts [] 16384 (zero_bytes 16384) r 0) as (d1 & -> & (t1 & Ht1 & Hn1));
    [by exists (zero_bytes 16384)|done|rewrite size_of_nil; lia|].
  cbn [mbind res_bind].
  rewrite (memcpy_eq (buf_data b) [] (buf_data b) [] d1 0).
  - cbn [mbind res_bind]. eexists. split; [|].
    + rewrite i32_u32 by apply (wf_src f Hf). unfold received. done.
    + exists t1. simpl buf_data. simpl buf_size. rewrite app_nil_r. cbn [app] in *.
      rewrite Ht1 in Hn1 |- *. split_and!; [done|exact Hn1|lia].
  - by rewrite app_nil_r.
  - done.
  - rewrite Hd, Hn1. unfold header. autorewrite with krbytes. rewrite H16, H20. lia.
Qed.

(** ** Frames in a stream *)

Definition stream (fs : list frame) : list Z := concat (map encode fs).

Lemma encode_nonempty f : frame_wf f -> encode f <> [].
Proof.
  intros Hf E. pose proof (size_of_header f Hf) as Hh. unfold encode in E.
  apply app_eq_nil in E as [E _]. by rewrite E in Hh.
Qed.
Lemma size_of_encode f : frame_wf f -> size_of (encode f) = KR_MSGHEADER_LEN + size_of (f_body f).
Proof. intros Hf. unfold encode. by rewrite size_of_app, size_of_header. Qed.

(** [l] holds no complete frame of the frames to come. *)
Definition incomplete (l : list Z) (fs : list frame) : Prop :=
  match fs with [] => l = [] | f :: _ => exists y, y <> [] /\ encode f = l ++ y end.

(** Bytes that start a stream of frames hold a complete frame or are a part of one. *)
Lemma stream_cases l z fs :
  l ++ z = stream fs ->
  incomplete l fs \/ exists f fs' r, fs = f :: fs' /\ l = encode f ++ r /\ r ++ z = stream fs'.
Proof.
  intros E. destruct fs as [|f fs]; simpl in *.
  - left. by apply app_eq_nil in E as [-> _].
  - apply app_eq_inv in E as [(k & -> & E)|(k & E & ->)].
    + right. by exists f, fs, k.
    + destruct k as [|b k]; [|left; by exists (b :: k)].
      right. exists f, fs, []. rewrite app_nil_r in *. by rewrite E.
Qed.

Lemma incomplete_parse m b l f fs :
  frame_wf f -> holds b l -> incomplete l (f :: fs) ->
  exists ret, kr_message_parse b m = Ok (ret, b, m) /\ 0 < ret.
Proof.
  intros Hf Hb (y & Hy & E).
  destruct (Z.lt_ge_cases (size_of l) KR_MSGHEADER_LEN) as [Hs|Hs].
  - exists 1. split; [by eapply parse_short|done].
  - exists 2. split; [|done]. pose proof (size_of_header f Hf) as Hh.
    unfold encode in E. apply app_eq_inv in E as [(k & E & ->)|(k & -> & E)].
    + pose proof (size_of_nonneg k). rewrite E, size_of_app in Hh.
      destruct k; [|rewrite size_of_cons in Hh; pose proof (size_of_nonneg k); lia].
      rewrite app_nil_r in E. rewrite app_nil_l in Hy. rewrite <- (app_nil_r l), <- E in Hb.
      apply (parse_partial f m b []); [done|done|].
      destruct (f_body f) as [|z body]; [done|].
      rewrite size_of_cons, size_of_nil. pose proof (size_of_nonneg body). lia.
    + apply (parse_partial f m b k); [done|done|]. rewrite E, size_of_app.
      destruct y as [|z y]; [done|]. rewrite size_of_cons. pose proof (size_of_nonneg y). lia.
Qed.

Lemma incomplete_room l fs :
  Forall frame_wf fs -> Forall fits fs -> incomplete l fs -> size_of l < KR_BUFFER_MAX_LEN.
Proof.
  intros Hf Hfit Hi. destruct fs as [|f fs]; simpl in Hi; [by subst|].
  apply Forall_cons in Hf as [Hf _]. apply Forall_cons in Hfit as [Hfit _].
  destruct Hi as (y & Hy & E). pose proof (size_of_encode f Hf) as Hs. rewrite E, size_of_app in Hs.
  unfold fits in Hfit. destruct y as [|b y]; [done|]. rewrite size_of_cons in Hs.
  pose proof (size_of_nonneg y). lia.
Qed.

(** Bytes added to a buffer with room for them. *)
Lemma holds_add b l x :
  holds b l -> size_of l + size_of x <= KR_BUFFER_MAX_LEN ->
  exists d, memcpy (buf_data b) (buf_size b) x = Ok d /\ holds (mkBuffer (buf_size b + size_of x) d) (l ++ x).
Proof.
  intros (t & Hd & Hn & Hs) Hroom.
  destruct (memcpy_starts l KR_BUFFER_MAX_LEN (buf_data b) x (buf_size b)) as (d & E & t' & -> & Hn').
  - exists t. by rewrite Hd.
  - by rewrite Hs.
  - done.
  - exists ((l ++ x) ++ t'). split; [done|]. exists t'. split_and!; [done|done|].
    rewrite size_of_app. simpl. lia.
Qed.

(** ** Writing everything *)

(** A socket that goes on taking bytes, at least [n]. *)
Definition progress (e : write_event) : bool := match e with WBytes (S _) | WAgain => true | _ => false end.
Definition takes (e : write_event) : bool := match e with WBytes (S _) => true | _ => false end.
Definition ready (w : list write_event) (n : Z) : Prop :=
  forallb progress w = true /\ n <= Z.of_nat (List.length (List.filter takes w)).

Lemma kr_net_write_all fuel w out a b c n :
  ready w n -> size_of b <= n -> (List.length w < fuel)%nat ->
  exists w', kr_net_write fuel w out (a ++ b ++ c) (size_of a + size_of b) (size_of a)
               = Ok (size_of a + size_of b, out ++ b, w') /\ ready w' (n - size_of b).
Proof.
  revert w out a b n. induction fuel as [|fuel IH]; intros w out a b n [Hw Hn] Hb Hf; [lia|].
  cbn [kr_net_write]. destruct b as [|x b].
  { rewrite size_of_nil, Z.add_0_r, Z.eqb_refl, app_nil_r, Z.sub_0_r. by exists w. }
  pose proof (size_of_nonneg b) as Hbn. rewrite size_of_cons in *.
  rewrite (proj2 (Z.eqb_neq _ _)) by lia.
  destruct w as [|e w]; cbn [forallb List.filter List.length] in *; [lia|].
  apply andb_true_iff in Hw as [He Hw].
  destruct e as [[|k]| |]; cbn [progress takes List.length] in *; try done.
  - set (m := Z.min (Z.of_nat (S k)) (size_of a + (1 + size_of b) - size_of a)).
    assert (1 <= m <= 1 + size_of b) by lia.
    rewrite <- (take_drop (Z.to_nat m) (x :: b)).
    assert (Hs1 : size_of (take (Z.to_nat m) (x :: b)) = m).
    { apply size_of_take. rewrite size_of_cons. lia. }
    assert (Hs2 : size_of (drop (Z.to_nat m) (x :: b)) = 1 + size_of b - m).
    { pose proof (size_of_app (take (Z.to_nat m) (x :: b)) (drop (Z.to_nat m) (x :: b))) as E.
      rewrite take_drop, size_of_cons in E. lia. }
    set (b1 := take _ _) in *. set (b2 := drop _ _) in *.
    rewrite (mem_read_eq _ a b1 (b2 ++ c)) by (rewrite <- ?app_assoc; done).
    cbn [mbind res_bind].
    destruct (IH w (out ++ b1) (a ++ b1) b2 (n - m)) as (w' & E & Hr); [split; [done|lia]|lia|lia|].
    exists w'. rewrite size_of_app, Hs1, Hs2, <- !app_assoc in E.
    replace (size_of a + m + (1 + size_of b - m)) with (size_of a + (1 + size_of b)) in E by lia.
    rewrite <- app_assoc. rewrite E. split; [done|]. rewrite Hs2 in Hr.
    replace (n - (1 + size_of b)) with (n - m - (1 + size_of b - m)) by lia. done.
  - specialize (IH w out a (x :: b) n). rewrite size_of_cons in IH. apply IH; [split; [done|lia]|lia|lia].
Qed.

(** ** Reading what arrives *)

(** The bytes of a socket that gives no error, and the reads it takes to have them at
    most. *)
Definition bytes_of (s : list read_event) : list Z :=
  concat (map (fun e => match e with RBytes l => l | _ => [] end) s).
Definition work (s : list read_event) : nat :=
  list_sum (map (fun e => match e with RBytes l => List.length l | _ => 1%nat end) s).
Definition sound (s : list read_event) : Prop :=
  Forall (fun e => match e with RBytes l => l <> [] | RAgain => True | RError => False end) s.

Lemma read_once_spec count s :
  sound s -> 0 < count ->
  (s = [] /\ read_once count s = (0, [], false, [])) \/
  (exists s', s = RAgain :: s' /\ read_once count s = (-1, [], true, s')) \/
  (exists got s', read_once count s = (size_of got, got, false, s') /\ 0 < size_of got <= count /\
     bytes_of s = got ++ bytes_of s' /\ sound s' /\ (work s' < work s)%nat).
Proof.
  intros Hs Hc. destruct s as [|e s]; [by left|]. right.
  apply Forall_cons in Hs as [He Hs]. destruct e as [l| |]; [|by left; exists s|done]. right.
  assert (Hl : 0 < size_of l).
  { destruct l; [done|]. rewrite size_of_cons. pose proof (size_of_nonneg l). lia. }
  assert (Hsum : size_of (take (Z.to_nat count) l) + size_of (drop (Z.to_nat count) l) = size_of l)
    by (by rewrite <- size_of_app, take_drop).
  assert (Hgot : 0 < size_of (take (Z.to_nat count) l) <= count).
  { unfold size_of in *. rewrite length_take in *. lia. }
  pose proof (take_drop (Z.to_nat count) l) as Htd. destruct Hgot.
  cbn [read_once]. set (got := take _ l) in *. set (rest := drop _ l) in *. clearbody got rest. subst l.
  destruct rest as [|b rest].
  - exists got, s. split_and!; try done.
    + unfold bytes_of. simpl. by rewrite ?app_nil_r.
    + unfold work, size_of in *. simpl in *. rewrite ?app_nil_r in *. lia.
  - exists got, (RBytes (b :: rest) :: s). split_and!; try done; try lia.
    + unfold bytes_of. simpl. by rewrite <- app_assoc.
    + by constructor.
    + unfold work, size_of in *. simpl in *. rewrite length_app in *. simpl in *. lia.
Qed.

Lemma work_none s : sound s -> (work s <= 0)%nat -> bytes_of s = [].
Proof.
  intros Hs Hw. destruct s as [|e s]; [done|]. apply Forall_cons in Hs as [He _].
  unfold work in Hw. destruct e as [l| |]; simpl in *; [|lia|done].
  destruct l; [done|simpl in Hw; lia].
Qed.

(** [kr_net_read] has the bytes it asks for when they arrive. *)
Lemma kr_net_read_all fuel s buf count totlen a z :
  sound s -> bytes_of s = a ++ z -> size_of a = count - totlen -> count - totlen < 2 ^ 63 ->
  (work s < fuel)%nat ->
  exists s', kr_net_read fuel s buf count totlen = Ok (count, buf ++ a, s') /\ sound s' /\ bytes_of s' = z /\
    (work s' <= work s)%nat.
Proof.
  revert s buf totlen a. induction fuel as [|fuel IH]; intros s buf totlen a Hs Eb Ha Hc Hf; [lia|].
  cbn [kr_net_read]. pose proof (size_of_nonneg a).
  destruct (Z.eqb_spec totlen count) as [->|Hne].
  { assert (a = []) as -> by (destruct a; [done|rewrite size_of_cons in Ha; pose proof (size_of_nonneg a); lia]).
    exists s. by rewrite app_nil_r. }
  rewrite (wrapu_small 64) by lia.
  destruct (read_once_spec (count - totlen) s Hs) as
    [[-> E]|[(s' & -> & E)|(got & s' & E & Hgot & Eb' & Hs' & Hw)]]; [lia|..]; rewrite E.
  - symmetry in Eb. apply app_eq_nil in Eb as [-> _]. change (size_of []) with 0 in Ha. lia.
  - cbn [Z.eqb]. apply Forall_cons in Hs as [_ Hs].
    destruct (IH s' buf totlen a) as (s'' & -> & Hs2 & Hb2 & Hw2); try done.
    + unfold work in Hf. simpl in Hf. unfold work. lia.
    + exists s''. split_and!; try done. unfold work in *. simpl. lia.
  - rewrite !(proj2 (Z.eqb_neq _ _)) by lia.
    rewrite Eb' in Eb. apply app_eq_inv in Eb as [(y & Eg & Ez)|(y & -> & Ez)].
    + assert (y = []) as ->.
      { destruct y; [done|]. rewrite Eg, size_of_app, size_of_cons in Hgot. pose proof (size_of_nonneg y). lia. }
      rewrite app_nil_r in Eg. rewrite app_nil_l in Ez. subst got z.
      destruct (IH s' (buf ++ a) (totlen + size_of a) []) as (s'' & -> & Hs2 & Hb2 & Hw2); try done; try lia.
      { rewrite size_of_nil. lia. }
      rewrite app_nil_r. exists s''. split_and!; try done. lia.
    + rewrite size_of_app in *.
      destruct (IH s' (buf ++ got) (totlen + size_of got) y) as (s'' & -> & Hs2 & Hb2 & Hw2); try done; try lia.
      rewrite <- app_assoc. exists s''. split_and!; try done. lia.
Qed.

(** C21. A message that is dumped and parsed again is the message, as far as the format
    carries it: the first sixteen and twenty bytes of its names, its source and its body.
    Its type is not carried: what is parsed is a success.  Dumping what was parsed gives the
    same bytes. *)
Theorem kr_message_roundtrip m :
  message_ok m -> fits (frame_of m) ->
  exists b b', kr_message_dump m new_buffer = Ok (KR_MSGHEADER_LEN + msglen m, b) /\
    kr_message_parse b kr_message_alloc = Ok (0, b', received (frame_of m)) /\ buf_size b' = 0 /\
    msgtype (received (frame_of m)) = KR_MSGTYPE_SUCCESS /\ frame_of (received (frame_of m)) = frame_of m /\
    exists b2, kr_message_dump (received (frame_of m)) new_buffer = Ok (KR_MSGHEADER_LEN + msglen m, b2) /\
      take (Z.to_nat (buf_size b2)) (buf_data b2) = take (Z.to_nat (buf_size b)) (buf_data b).
Proof.
  intros Hm Hfit. pose proof (frame_of_wf m Hm) as Hf. pose proof (frame_of_len m Hm) as Hlen.
  pose proof (frame_of_received _ Hf) as Hback.
  destruct (kr_message_dump_spec m [] new_buffer Hm Hfit holds_new) as (b & Hd & Hb).
  destruct (parse_complete (frame_of m) b [] Hf) as (b' & Hp & t & _ & _ & Hs); [by rewrite app_nil_r|].
  destruct (kr_message_dump_spec (received (frame_of m)) [] new_buffer) as (b2 & Hd2 & Hb2);
    [by apply received_ok|by rewrite Hback|by apply holds_new|].
  exists b, b'. split_and!; try done. exists b2. cbn [msglen received] in Hd2. rewrite Hlen in Hd2. split; [done|].
  rewrite Hback in Hb2. destruct Hb as (t1 & -> & _ & ->). destruct Hb2 as (t2 & -> & _ & ->).
  unfold size_of. by rewrite Nat2Z.id, !take_app_length.
Qed.

(** A message whose body is longer than the buffer has room for is written over its end. *)
Lemma kr_message_dump_overflow m :
  message_ok m -> ~ fits (frame_of m) -> kr_message_dump m new_buffer = Fault OutOfBounds.
Proof.
  intros Hm Hfit. pose proof (frame_of_wf m Hm) as Hf. pose proof (frame_of_len m Hm) as Hlen.
  pose proof (ok_id m Hm) as Hid. pose proof (ok_method m Hm) as Hme. pose proof (ok_len m Hm).
  unfold fits in Hfit. rewrite Hlen in Hfit.
  pose proof (wf_id _ Hf) as H16. pose proof (wf_method _ Hf) as H20. cbn [f_id f_method frame_of] in H16, H20.
  unfold KR_BUFFER_MAX_LEN, KR_MSGHEADER_LEN, KR_MSGID_LEN, KR_METHOD_LEN in *.
  unfold kr_message_dump, KR_MSGHEADER_LEN, KR_MSGID_LEN, KR_METHOD_LEN, KR_DATASRC_LEN, KR_MSGLEN_LEN.
  assert (S0 : starts [] 16384 (buf_data new_buffer)) by (by exists (zero_bytes 16384)).
  rewrite (mem_read_take _ 16 16), (mem_read_take _ 20 20) by first [done|lia]. cbn [mbind res_bind].
  destruct (memcpy_starts _ _ _ (take 16 (msgid m)) 0 S0) as (d1 & -> & S1); [done|rewrite H16; done|].
  cbn [mbind res_bind].
  destruct (memcpy_starts _ _ _ (take 20 (method m)) (0 + 16) S1) as (d2 & -> & S2);
    [autorewrite with krbytes; lia..|]. cbn [mbind res_bind].
  destruct (memcpy_starts _ _ _ (kr_put_u32 (u32 (datasrc m))) (0 + 16 + 20) S2) as (d3 & -> & S3);
    [autorewrite with krbytes; lia..|]. cbn [mbind res_bind].
  destruct (memcpy_starts _ _ _ (kr_put_u32 (u32 (msglen m))) (0 + 16 + 20 + 4) S3) as (d4 & -> & S4);
    [autorewrite with krbytes; lia..|]. cbn [mbind res_bind].
  rewrite (message_body_ok m Hm). cbn [mbind res_bind].
  destruct S4 as (t & _ & Hn). unfold memcpy.
  rewrite Hlen, Hn, (proj2 (Z.ltb_lt _ (0 + 16 + 20 + 4 + 4 + msglen m))) by lia. done.
Qed.

Definition example_message : T_KRMessage :=
  mkMessage KR_MSGTYPE_ERROR (replicate 31 65) (replicate 20 66 ++ [0]) (-3) 5 (Some [1; 2; 3; 4; 5; 6]).

Lemma kr_message_roundtrip_witness :
  exists b b', kr_message_dump example_message new_buffer = Ok (KR_MSGHEADER_LEN + msglen example_message, b) /\
    kr_message_parse b kr_message_alloc = Ok (0, b', received (frame_of example_message)) /\ buf_size b' = 0 /\
    msgtype (received (frame_of example_message)) = KR_MSGTYPE_SUCCESS /\
    frame_of (received (frame_of example_message)) = frame_of example_message /\
    exists b2, kr_message_dump (received (frame_of example_message)) new_buffer
                 = Ok (KR_MSGHEADER_LEN + msglen example_message, b2) /\
      take (Z.to_nat (buf_size b2)) (buf_data b2) = take (Z.to_nat (buf_size b)) (buf_data b).
Proof. apply (kr_message_roundtrip example_message); [split; vm_compute; try done; by split|done]. Defined.
