(* ===== verification/KrServer.v ===== *)
(** The server's side of the network (krserver/kr_server_network.c) and the shell's client
    (krshell/kr_shell_client.c), over the messages of KrProtocol.

    The engine is reached through an interface, [KREngine]; its context is the first part
    of the state and the server the second.  The server holds its sockets, the list of its
    clients, and the clients that the event loop hands to [kr_server_on_read], by
    descriptor.  Handlers run one after the other, in any order. *)

From S2P Require Import Prelude KrProtocol.
Local Open Scope Z_scope.
#[local] Notation length := List.length.

(** * The engine, seen from the server *)

(** [kr_engine_run]'s argument; the callback has its data already. *)
Record T_KREngineArg (O : Type) := mkArg {
  apply : T_KRMessage;
  reply : T_KRMessage;
  cb_func : T_KRMessage -> T_KRMessage -> M O unit
}.
Arguments mkArg {O}. Arguments apply {O}. Arguments reply {O}. Arguments cb_func {O}.

Class KREngine (C : Type) := kr_engine_run : forall O, T_KREngineArg O -> M (C * O) Z.

(** The engine answers [inmsg] with [outmsg] from [c] to [c']: it gives both to the
    callback, once. *)
Definition serves `{KREngine C} (c : C) (inmsg outmsg : T_KRMessage) (c' : C) : Prop :=
  forall O (cb : T_KRMessage -> T_KRMessage -> M O unit) o,
    kr_engine_run O (mkArg inmsg kr_message_alloc cb) (c, o) =
      match cb inmsg outmsg o with Ok (_, o') => Ok (0, (c', o')) | Fault e => Fault e end.

(** * The server *)

Record socket := mkSocket { s_in : list read_event; s_out : list Z; s_writes : list write_event }.
Record T_KRClient := mkClient { inbuf : T_KRBuffer; inmsg : option T_KRMessage }.
Record T_KRServer := mkServer {
  sockets : gmap Z socket;
  clients : list Z;
  registered : gmap Z T_KRClient
}.

Definition with_socket (fd : Z) (k : socket) (s : T_KRServer) : T_KRServer :=
  mkServer (<[fd := k]> (sockets s)) (clients s) (registered s).
Definition with_client (fd : Z) (k : T_KRClient) (s : T_KRServer) : T_KRServer :=
  mkServer (sockets s) (clients s) (<[fd := k]> (registered s)).

Definition get_socket (fd : Z) : M T_KRServer socket := fun s =>
  match sockets s !! fd with Some k => Ok (k, s) | None => Fault BadPointer end.
Definition get_client (fd : Z) : M T_KRServer T_KRClient := fun s =>
  match registered s !! fd with Some k => Ok (k, s) | None => Fault BadPointer end.
Definition set_socket (fd : Z) (k : socket) : M T_KRServer unit := fun s => Ok (tt, with_socket fd k s).
Definition set_client (fd : Z) (k : T_KRClient) : M T_KRServer unit := fun s => Ok (tt, with_client fd k s).

(** [kr_list_remove] of the first client with the descriptor. *)
Fixpoint remove_fd (fd : Z) (l : list Z) : list Z :=
  match l with [] => [] | x :: l' => if x =? fd then l' else x :: remove_fd fd l' end.
Definition kr_client_free (fd : Z) : M T_KRServer unit := fun s =>
  Ok (tt, mkServer (sockets s) (remove_fd fd (clients s)) (delete fd (registered s))).
Definition kr_client_alloc : T_KRClient := mkClient new_buffer None.

Definition kr_server_write_resp (fd : Z) (inmsg outmsg : T_KRMessage) : M T_KRServer unit :=
  d ← lift (kr_message_dump outmsg new_buffer);
  k ← get_socket fd;
  w ← lift (kr_net_write (S (List.length (s_writes k))) (s_writes k) [] (buf_data d.2) (buf_size d.2) 0);
  set_socket fd (mkSocket (s_in k) (s_out k ++ w.1.2) w.2).

Section Server.
Context `{KREngine C}.
#[local] Abbreviation state := (C * T_KRServer)%type.

(** A computation of the server alone. *)
Definition srv {A} (m : M T_KRServer A) : M state A := fun '(c, s) =>
  match m s with Ok (a, s') => Ok (a, (c, s')) | Fault e => Fault e end.

Definition kr_server_process_input_message (inmsg : T_KRMessage) (fd : Z) : M state Z :=
  kr_engine_run T_KRServer (mkArg inmsg kr_message_alloc (kr_server_write_resp fd)).

Fixpoint process_loop (fuel : nat) (fd : Z) : M state unit :=
  k ← srv (get_client fd);
  if buf_size (inbuf k) =? 0 then mret tt
  else
    match fuel with
    | O => fail NoFuel
    | S n =>
        let m := match inmsg k with None => kr_message_alloc | Some m => m end in
        r ← srv (lift (kr_message_parse (inbuf k) m));
        let '(ret, b, m) := r in
        srv (set_client fd (mkClient b (Some m)));;
        if ret <? 0 then srv (kr_client_free fd)
        else if ret >? 0 then mret tt
        else
          kr_server_process_input_message m fd;;
          k ← srv (get_client fd);
          srv (set_client fd (mkClient (inbuf k) None));;
          process_loop n fd
    end.
Definition kr_server_process_input_buffer (fd : Z) : M state unit :=
  k ← srv (get_client fd); process_loop (Z.to_nat (buf_size (inbuf k))) fd.

Definition kr_server_on_read (fd : Z) : M state unit :=
  k ← srv (get_client fd);
  let b := inbuf k in
  let readlen := KR_BUFFER_MAX_LEN - buf_size b in
  x ← srv (get_socket fd);
  let '(nread, got, again, rest) := read_once readlen (s_in x) in
  srv (set_socket fd (mkSocket rest (s_out x) (s_writes x)));;
  if (nread =? -1) && negb again then srv (kr_client_free fd)
  else if (nread =? 0) then srv (kr_client_free fd)
  else
    let nread := if nread =? -1 then 0 else nread in
    if nread =? 0 then mret tt
    else
      d ← srv (lift (memcpy (buf_data b) (buf_size b) got));
      srv (set_client fd (mkClient (mkBuffer (buf_size b + nread) d) (inmsg k)));;
      kr_server_process_input_buffer fd.

(** The connection that was accepted, and whether the event loop takes its descriptor. *)
Definition kr_server_on_connect (cfd : option Z) (created : bool) : M state unit :=
  match cfd with
  | None => mret tt
  | Some fd =>
      srv (set_client fd kr_client_alloc);;
      if negb created then srv (kr_client_free fd)
      else srv (fun s => Ok (tt, mkServer (sockets s) (clients s ++ [fd]) (registered s)))
  end.

Definition kr_server_network_shutdown : M state unit :=
  srv (fun s => Ok (tt, mkServer (sockets s) [] (registered s))).

(** What the event loop reports: a connection, a client that can be read. *)
Inductive event := Connect (cfd : option Z) (created : bool) | Readable (fd : Z).
Definition dispatch (e : event) : M state unit :=
  match e with
  | Connect cfd created => kr_server_on_connect cfd created
  | Readable fd => fun s => match registered s.2 !! fd with Some _ => kr_server_on_read fd s | None => Ok (tt, s) end
  end.
Fixpoint serve (es : list event) : M state unit :=
  match es with [] => mret tt | e :: es' => dispatch e;; serve es' end.

End Server.

(** * What the clients get *)

Section ServerLemmas.
Context `{KREngine C}.
#[local] Abbreviation state := (C * T_KRServer)%type.

(** [I]: the contexts from which the engine answers the frames of [P]; its answers fit. *)
Context (I : C -> Prop) (P : frame -> Prop).
Context (engine_answers : forall c f, I c -> P f -> exists m c',
  serves c (received f) m c' /\ I c' /\ message_ok m /\ fits (frame_of m)).

(** What the engine answered, one after the other: the client, its request, the reply. *)
Inductive answered (c : C) : list (Z * frame * T_KRMessage) -> C -> Prop :=
  | answered_nil : answered c [] c
  | answered_snoc h fd f m c1 c2 : answered c h c1 -> serves c1 (received f) m c2 ->
      message_ok m -> fits (frame_of m) -> answered c (h ++ [(fd, f, m)]) c2.

Definition of_client (fd : Z) (h : list (Z * frame * T_KRMessage)) : list (frame * T_KRMessage) :=
  omap (fun '(x, f, m) => if (x : Z) =? fd then Some (f, m) else None) h.
Definition requests (fd : Z) h : list frame := map fst (of_client fd h).
Definition replies (fd : Z) h : list frame := map (fun p => frame_of (snd p)) (of_client fd h).

Lemma answered_app c h1 c1 h2 c2 : answered c h1 c1 -> answered c1 h2 c2 -> answered c (h1 ++ h2) c2.
Proof.
  intros H1 H2. induction H2 as [|h fd f m c2 c3 H2 IH Hs Hm Hf]; [by rewrite app_nil_r|].
  rewrite app_assoc. by econstructor.
Qed.
Lemma answered_in c h c' fd f m : answered c h c' -> (fd, f, m) ∈ h ->
  message_ok m /\ fits (frame_of m) /\ exists h1 c1 c2, answered c h1 c1 /\ serves c1 (received f) m c2.
Proof.
  intros Ha Hin. induction Ha as [|h fd' f' m' c1 c2 Ha IH Hs Hm Hf]; [by apply not_elem_of_nil in Hin|].
  apply elem_of_app in Hin as [Hin|Hin]; [by apply IH|]. apply list_elem_of_singleton in Hin. simplify_eq.
  split; [done|]. split; [done|]. by exists h, c1, c2.
Qed.
Lemma of_client_app fd h1 h2 : of_client fd (h1 ++ h2) = of_client fd h1 ++ of_client fd h2.
Proof. apply omap_app. Qed.
Lemma requests_app fd h1 h2 : requests fd (h1 ++ h2) = requests fd h1 ++ requests fd h2.
Proof. unfold requests. by rewrite of_client_app, map_app. Qed.
Lemma replies_app fd h1 h2 : replies fd (h1 ++ h2) = replies fd h1 ++ replies fd h2.
Proof. unfold replies. by rewrite of_client_app, map_app. Qed.

(** A frame that the server can take and the engine answers. *)
Definition acceptable (f : frame) : Prop := frame_wf f /\ fits f /\ P f.
Lemma acceptable_wf fs : Forall acceptable fs -> Forall frame_wf fs /\ Forall fits fs.
Proof. intros Hf. split; eapply Forall_impl; try exact Hf; unfold acceptable; naive_solver. Qed.

(** What a socket takes: a reply for each frame to come. *)
Definition reply_room (w : list write_event) (n : nat) : Prop := ready w (KR_BUFFER_MAX_LEN * Z.of_nat n).

(** A reply is written whole. *)
Lemma write_resp_spec fd im m x s n :
  message_ok m -> fits (frame_of m) -> sockets s !! fd = Some x -> reply_room (s_writes x) (S n) ->
  exists w, kr_server_write_resp fd im m s =
    Ok (tt, with_socket fd (mkSocket (s_in x) (s_out x ++ encode (frame_of m)) w) s) /\ reply_room w n.
Proof.
  intros Hm Hfit Hx Hr. pose proof (frame_of_wf m Hm) as Hf.
  destruct (kr_message_dump_spec m [] new_buffer Hm Hfit holds_new) as (b & E & (t & Hd & Hn & Hs)).
  unfold kr_server_write_resp, lift. unfold mbind, M_bind. rewrite E. cbn [snd].
  unfold get_socket. rewrite Hx.
  pose proof (size_of_encode _ Hf) as Hse. unfold fits, reply_room, KR_BUFFER_MAX_LEN in *.
  destruct (kr_net_write_all (S (length (s_writes x))) (s_writes x) [] [] (encode (frame_of m)) t
    (16384 * Z.of_nat (S n))) as (w & Ew & Hw); [done|lia|lia|].
  rewrite size_of_nil, Z.add_0_l in Ew. cbn [app] in Ew. rewrite Hd, Hs, Ew.
  exists w. split; [done|]. destruct Hw as [Hw1 Hw2]. split; [done|]. lia.
Qed.

Definition put (fd : Z) (k : T_KRClient) (x : socket) (s : T_KRServer) : T_KRServer :=
  mkServer (<[fd := x]> (sockets s)) (clients s) (<[fd := k]> (registered s)).

(** From [c] and [s], with [l] in the buffer of [fd] and the frames [fs] to come, the
    server has answered the first of the frames and a part of the next is left. *)
Definition progressed (fd : Z) c s x l fs (c' : C) (s' : T_KRServer) : Prop :=
  exists h fs' l' k' x', s' = put fd k' x' s /\
    answered c h c' /\ I c' /\ Forall (fun p => p.1.1 = fd) h /\
    fs = requests fd h ++ fs' /\ l = stream (requests fd h) ++ l' /\ incomplete l' fs' /\
    holds (inbuf k') l' /\ (inmsg k' = None \/ inmsg k' = Some kr_message_alloc) /\
    s_in x' = s_in x /\ s_out x' = s_out x ++ stream (replies fd h) /\
    reply_room (s_writes x') (List.length fs').

Lemma progressed_none fd c s k x l fs :
  I c -> incomplete l fs -> holds (inbuf k) l -> (inmsg k = None \/ inmsg k = Some kr_message_alloc) ->
  sockets s !! fd = Some x -> reply_room (s_writes x) (List.length fs) ->
  progressed fd c s x l fs c (with_client fd k s).
Proof.
  intros HI Hi Hb Hm Hx Hr. exists [], fs, l, k, x. split_and!; try done.
  - unfold put, with_client. by rewrite (insert_id (sockets s)) by done.
  - constructor.
  - by rewrite app_nil_r.
Qed.

Lemma incomplete_nil fs : Forall acceptable fs -> incomplete [] fs.
Proof.
  intros Hfs. destruct fs as [|f fs]; [done|]. exists (encode f). split; [|done].
  apply Forall_cons in Hfs as [[Hf _] _]. by apply encode_nonempty.
Qed.

Lemma stream_app fs gs : stream (fs ++ gs) = stream fs ++ stream gs.
Proof. unfold stream. by rewrite map_app, concat_app. Qed.

Lemma progressed_cons fd c s x r f m c1 k1 x1 fs c' s' :
  serves c (received f) m c1 -> message_ok m -> fits (frame_of m) ->
  s_in x1 = s_in x -> s_out x1 = s_out x ++ encode (frame_of m) ->
  progressed fd c1 (put fd k1 x1 s) x1 r fs c' s' ->
  progressed fd c s x (encode f ++ r) (f :: fs) c' s'.
Proof.
  intros Hs Hmok Hmfit Hin Hout (h & fs' & l' & k' & x' & -> & Ha & HI & Hfd & -> & -> & Hi & Hb & Hm & Hin' & Hout' & Hr).
  exists ((fd, f, m) :: h), fs', l', k', x'. split_and!; try done.
  - unfold put. cbn. by rewrite !insert_insert_eq.
  - change ((fd, f, m) :: h) with ([(fd, f, m)] ++ h). eapply answered_app; [|done].
    by apply (answered_snoc c [] fd f m c c1); [constructor|..].
  - by constructor.
  - unfold requests at 1, of_client. cbn. by rewrite Z.eqb_refl.
  - unfold requests at 1, of_client. cbn. rewrite Z.eqb_refl. cbn. by rewrite <- app_assoc.
  - by rewrite Hin'.
  - rewrite Hout', Hout. unfold replies at 2, of_client. cbn. rewrite Z.eqb_refl. cbn. by rewrite <- app_assoc.
Qed.

(** The buffer of a client: every complete frame in it is served and answered in order,
    and the part of the next stays. *)
Lemma process_loop_spec fuel fd c s k x l z fs :
  I c -> registered s !! fd = Some k -> sockets s !! fd = Some x ->
  holds (inbuf k) l -> (inmsg k = None \/ inmsg k = Some kr_message_alloc) ->
  l ++ z = stream fs -> Forall acceptable fs -> reply_room (s_writes x) (List.length fs) ->
  size_of l <= Z.of_nat fuel ->
  exists c' s', process_loop fuel fd (c, s) = Ok (tt, (c', s')) /\ progressed fd c s x l fs c' s'.
Proof.
  revert c s k x l fs. induction fuel as [|fuel IH]; intros c s k x l fs HI Hk Hx Hb Hm El Hfs Hr Hfuel.
  all: cbn [process_loop]; unfold mbind at 1, M_bind at 1, srv at 1, get_client at 1; rewrite Hk;
    destruct Hb as (t & Hd & Hn & Hs); rewrite Hs.
  all: assert (Hb : holds (inbuf k) l) by (by exists t).
  all: destruct (Z.eqb_spec (size_of l) 0) as [H0|H0].
  { assert (l = []) as -> by (destruct l; [done|rewrite size_of_cons in H0; pose proof (size_of_nonneg l); lia]).
    exists c, (with_client fd k s). split; [|by apply progressed_none; auto using incomplete_nil].
    unfold with_client. destruct s. cbn in *. by rewrite insert_id by done. }
  { pose proof (size_of_nonneg l). lia. }
  { assert (l = []) as -> by (destruct l; [done|rewrite size_of_cons in H0; pose proof (size_of_nonneg l); lia]).
    exists c, (with_client fd k s). split; [|by apply progressed_none; auto using incomplete_nil].
    unfold with_client. destruct s. cbn in *. by rewrite insert_id by done. }
  replace (match inmsg k with Some m => m | None => kr_message_alloc end) with kr_message_alloc
    by (by destruct Hm as [-> | ->]).
  unfold mbind at 1, M_bind at 1, srv at 1, lift at 1.
  destruct (stream_cases l z fs El) as [Hi|(f & fs' & r & -> & -> & Er)].
  - destruct fs as [|f fs]; [by cbn in Hi; subst|].
    apply Forall_cons in Hfs as [[Hf [_ _]] Hfs'].
    destruct (incomplete_parse kr_message_alloc (inbuf k) l f fs Hf Hb Hi) as (ret & -> & Hret).
    unfold mbind at 1, M_bind at 1, srv at 1, set_client at 1.
    rewrite (proj2 (Z.ltb_ge _ _)) by lia. rewrite (proj2 (Z.gtb_lt _ _)) by lia.
    eexists c, _. split; [reflexivity|]. apply progressed_none; cbn; auto.
  - apply Forall_cons in Hfs as [[Hf [Hfit HP]] Hfs'].
    destruct (parse_complete f (inbuf k) r Hf Hb) as (b & -> & Hb').
    unfold mbind at 1, M_bind at 1, srv at 1, set_client at 1. cbn [Z.ltb Z.gtb Z.compare].
    destruct (engine_answers c f HI HP) as (m & c1 & Hserve & HI1 & Hmok & Hmfit).
    unfold mbind at 1, M_bind at 1, kr_server_process_input_message at 1. rewrite Hserve.
    destruct (write_resp_spec fd (received f) m x (with_client fd (mkClient b (Some (received f))) s)
      (List.length fs')) as (w & -> & Hw); try done.
    unfold mbind at 1, M_bind at 1, srv at 1, get_client at 1, with_socket at 1.
    cbn [registered]. unfold with_client at 1. cbn [registered]. rewrite lookup_insert_eq.
    unfold mbind at 1, M_bind at 1, srv at 1, set_client at 1.
    set (s1 := with_client fd _ _). set (x1 := mkSocket _ _ w) in s1. cbn [inbuf] in s1.
    set (k1 := mkClient b None) in s1.
    assert (Hs1 : s1 = put fd k1 x1 s)
      by (unfold s1, put, with_client, with_socket; cbn [sockets clients registered]; by rewrite insert_insert_eq).
    destruct (IH c1 s1 k1 x1 r fs') as (c' & s' & Hrun & Hp); try done.
    + rewrite Hs1. apply lookup_insert_eq.
    + rewrite Hs1. apply lookup_insert_eq.
    + by left.
    + rewrite size_of_app, size_of_encode in Hfuel by done. unfold KR_MSGHEADER_LEN in *.
      pose proof (size_of_nonneg (f_body f)). lia.
    + exists c', s'. split; [exact Hrun|]. rewrite Hs1 in Hp.
      by eapply (progressed_cons fd c s x r f m c1 k1 x1).
Qed.

(** What was read goes to the end of the buffer, which is then served. *)
Lemma on_read_bytes fd (c : C) s k x l got s' :
  registered s !! fd = Some k -> sockets s !! fd = Some x -> holds (inbuf k) l ->
  read_once (KR_BUFFER_MAX_LEN - size_of l) (s_in x) = (size_of got, got, false, s') ->
  0 < size_of got <= KR_BUFFER_MAX_LEN - size_of l ->
  exists d, holds (mkBuffer (size_of l + size_of got) d) (l ++ got) /\
    kr_server_on_read fd (c, s) = process_loop (Z.to_nat (size_of l + size_of got)) fd
      (c, put fd (mkClient (mkBuffer (size_of l + size_of got) d) (inmsg k))
            (mkSocket s' (s_out x) (s_writes x)) s).
Proof.
  intros Hk Hx Hb Hro Hgot. destruct (holds_add (inbuf k) l got Hb) as (d & Ed & Hb'); [lia|].
  destruct Hb as (t & Hd & Hn & Hs). rewrite Hs in Ed, Hb'. exists d. split; [done|].
  unfold kr_server_on_read. unfold mbind at 1, M_bind at 1, srv at 1, get_client at 1. rewrite Hk.
  cbv zeta. rewrite Hs. unfold mbind at 1, M_bind at 1, srv at 1, get_socket at 1. rewrite Hx, Hro.
  unfold mbind at 1, M_bind at 1, srv at 1, set_socket at 1.
  rewrite !(proj2 (Z.eqb_neq (size_of got) (-1))) by lia. cbn [andb].
  rewrite (proj2 (Z.eqb_neq (size_of got) 0)) by lia.
  unfold mbind at 1, M_bind at 1, srv at 1, lift at 1. rewrite Ed.
  unfold mbind at 1, M_bind at 1, srv at 1, set_client at 1.
  unfold kr_server_process_input_buffer, mbind at 1, M_bind at 1, srv at 1, get_client at 1.
  unfold with_client at 1. cbn [registered]. rewrite lookup_insert_eq. done.
Qed.

(** One call of [kr_server_on_read]: a client at its end is dropped; otherwise what was
    read is served. *)
Lemma on_read_spec fd c s k x l rest fs :
  I c -> registered s !! fd = Some k -> sockets s !! fd = Some x ->
  holds (inbuf k) l -> (inmsg k = None \/ inmsg k = Some kr_message_alloc) -> incomplete l fs ->
  sound (s_in x) -> l ++ bytes_of (s_in x) ++ rest = stream fs -> Forall acceptable fs ->
  reply_room (s_writes x) (List.length fs) ->
  (s_in x = [] /\ kr_server_on_read fd (c, s) =
     Ok (tt, (c, mkServer (<[fd := x]> (sockets s)) (remove_fd fd (clients s)) (delete fd (registered s))))) \/
  exists got y c' s', bytes_of (s_in x) = got ++ bytes_of (s_in y) /\ sound (s_in y) /\
    (work (s_in y) < work (s_in x))%nat /\ s_out y = s_out x /\
    kr_server_on_read fd (c, s) = Ok (tt, (c', s')) /\
    progressed fd c s y (l ++ got) fs c' s'.
Proof.
  intros HI Hk Hx Hb Hm Hi Hin Es Hfs Hr.
  destruct (acceptable_wf fs Hfs) as [Hwf Hfit]. pose proof (incomplete_room l fs Hwf Hfit Hi) as Hroom.
  pose proof Hb as (t & Hd & Hn & Hs).
  assert (Hstart : kr_server_on_read fd (c, s) =
    let '(nread, got, again, rest) := read_once (KR_BUFFER_MAX_LEN - size_of l) (s_in x) in
    (srv (set_socket fd (mkSocket rest (s_out x) (s_writes x)));;
     if (nread =? -1) && negb again then srv (kr_client_free fd)
     else if (nread =? 0) then srv (kr_client_free fd)
     else
       if (if nread =? -1 then 0 else nread) =? 0 then mret tt
       else
         d ← srv (lift (memcpy (buf_data (inbuf k)) (size_of l) got));
         srv (set_client fd (mkClient (mkBuffer (size_of l + (if nread =? -1 then 0 else nread)) d) (inmsg k)));;
         kr_server_process_input_buffer fd) (c, s)).
  { unfold kr_server_on_read. unfold mbind at 1, M_bind at 1, srv at 1, get_client at 1. rewrite Hk.
    cbv zeta. rewrite Hs.
    unfold mbind at 1, M_bind at 1, srv at 1, get_socket at 1. rewrite Hx.
    by destruct (read_once _ _) as [[[nread got] again] rest']. }
  destruct (read_once_spec (KR_BUFFER_MAX_LEN - size_of l) (s_in x) Hin) as
    [[E Hro]|[(s' & E & Hro)|(got & s' & Hro & Hgot & Eb & Hin' & Hw)]]; [lia|..].
  - left. split; [done|]. rewrite Hstart, Hro.
    unfold mbind at 1, M_bind at 1, srv at 1, set_socket at 1. cbn [Z.eqb andb].
    unfold srv, kr_client_free, with_socket. cbn [sockets clients registered].
    rewrite <- E. by destruct x.
  - right. set (y := mkSocket s' (s_out x) (s_writes x)).
    exists [], y, c, (with_client fd k (with_socket fd y s)). split_and!; try done.
    + by rewrite E.
    + rewrite E in Hin. by apply Forall_cons in Hin as [_ Hin].
    + rewrite E. unfold work. simpl. lia.
    + rewrite Hstart, Hro.
      unfold mbind at 1, M_bind at 1, srv at 1, set_socket at 1. cbn [Z.eqb andb negb].
      unfold with_client, with_socket. cbn [sockets clients registered]. by rewrite (insert_id (registered s)).
    + rewrite app_nil_r.
      exists [], fs, l, k, y. split_and!; try done; [constructor|by rewrite app_nil_r].
  - right. set (y := mkSocket s' (s_out x) (s_writes x)).
    destruct (on_read_bytes fd c s k x l got s' Hk Hx Hb Hro Hgot) as (d & Hb' & ->).
    set (k1 := mkClient _ _).
    destruct (process_loop_spec (Z.to_nat (size_of l + size_of got)) fd c (put fd k1 y s) k1 y (l ++ got)
      (bytes_of s' ++ rest) fs) as (c' & s'' & Hok & Hp); try done.
    + apply lookup_insert_eq.
    + apply lookup_insert_eq.
    + by rewrite <- app_assoc, <- Es, Eb, <- app_assoc.
    + rewrite size_of_app. pose proof (size_of_nonneg l). lia.
    + exists got, y, c', s''. split_and!; try done.
      destruct Hp as (h & fs' & l' & k' & x' & -> & Hp). exists h, fs', l', k', x'. split; [|done].
      unfold put. cbn [sockets clients registered]. by rewrite !insert_insert_eq.
Qed.

(** ** Whole runs *)

(** The descriptors that connections take, and the times a client was reported after it. *)
Definition opens (es : list event) : list Z :=
  omap (fun e => match e with Connect (Some fd) _ => Some fd | _ => None end) es.
Definition count_read (fd : Z) (a : option nat) (e : event) : option nat :=
  match e with
  | Connect (Some x) true => if x =? fd then Some O else a
  | Readable x => if x =? fd then S <$> a else a
  | _ => a
  end.
Definition reads_of (fd : Z) (es : list event) : option nat := fold_left (count_read fd) es None.

(** The sockets at first: what each client sends is a part of a stream of acceptable
    frames, however it is cut, and it takes the replies. *)
Definition well_connected (s0 : T_KRServer) (frames : Z -> list frame) : Prop :=
  registered s0 = ∅ /\
  forall fd x0, sockets s0 !! fd = Some x0 ->
    sound (s_in x0) /\ (exists rest, bytes_of (s_in x0) ++ rest = stream (frames fd)) /\
    Forall acceptable (frames fd) /\ reply_room (s_writes x0) (List.length (frames fd)).

(** How a client stands after the events [es] and the answers [h]. *)
Definition accounted (frames : Z -> list frame) es h (s : T_KRServer) (fd : Z) (x0 : socket) : Prop :=
  exists x fs', sockets s !! fd = Some x /\ frames fd = requests fd h ++ fs' /\
    s_out x = s_out x0 ++ stream (replies fd h) /\ reply_room (s_writes x) (List.length fs') /\
    match reads_of fd es with
    | None => s_in x = s_in x0 /\ requests fd h = [] /\ registered s !! fd = None
    | Some n => exists l, bytes_of (s_in x0) = stream (requests fd h) ++ l ++ bytes_of (s_in x) /\
        incomplete l fs' /\ sound (s_in x) /\ (work (s_in x) <= work (s_in x0) - n)%nat /\
        match registered s !! fd with
        | Some k => holds (inbuf k) l /\ (inmsg k = None \/ inmsg k = Some kr_message_alloc)
        | None => s_in x = []
        end
    end.
Definition run_inv (s0 : T_KRServer) c0 frames es h c s : Prop :=
  answered c0 h c /\ I c /\
  (forall fd x0, sockets s0 !! fd = Some x0 -> accounted frames es h s fd x0) /\
  (forall fd k, registered s !! fd = Some k -> is_Some (sockets s0 !! fd)).

Lemma of_client_other fd fd' h : fd <> fd' -> Forall (fun p => p.1.1 = fd) h -> of_client fd' h = [].
Proof.
  intros Hne Hh. induction Hh as [|[[x f] m] h Hx Hh IH]; [done|]. cbn in *. subst x.
  unfold of_client in *. cbn. by rewrite (proj2 (Z.eqb_neq _ _)) by done.
Qed.
Lemma reads_snoc fd es e : reads_of fd (es ++ [e]) = count_read fd (reads_of fd es) e.
Proof. unfold reads_of. by rewrite fold_left_app. Qed.
Lemma opens_snoc es e : opens (es ++ [e]) = opens es ++ opens [e].
Proof. apply omap_app. Qed.
Lemma reads_opens fd es n : reads_of fd es = Some n -> fd ∈ opens es.
Proof.
  revert n. induction es as [|e es IH] using rev_ind; intros n Hn; [done|].
  rewrite reads_snoc in Hn. rewrite opens_snoc. apply elem_of_app.
  destruct e as [[x|] [|]|x]; cbn in *; try (left; by eapply IH).
  - destruct (Z.eqb_spec x fd); [right; subst; apply list_elem_of_here|left; by eapply IH].
  - left. destruct (x =? fd); [|by eapply IH]. destruct (reads_of fd es); [by eapply IH|done].
Qed.

(** Another client's progress leaves a client as it was. *)
Lemma accounted_frame frames es e h h' s s' fd fd' x0 :
  fd <> fd' -> Forall (fun p => p.1.1 = fd) h' ->
  count_read fd' (reads_of fd' es) e = reads_of fd' es ->
  sockets s' !! fd' = sockets s !! fd' -> registered s' !! fd' = registered s !! fd' ->
  accounted frames es h s fd' x0 -> accounted frames (es ++ [e]) (h ++ h') s' fd' x0.
Proof.
  intros Hne Hh' He Hs Hr (x & fs' & Hx & Hfr & Hout & Hroom & Ha).
  assert (Eq : requests fd' (h ++ h') = requests fd' h)
    by (rewrite requests_app; unfold requests; rewrite (of_client_other fd fd' h') by done; apply app_nil_r).
  assert (Ep : replies fd' (h ++ h') = replies fd' h)
    by (rewrite replies_app; unfold replies; rewrite (of_client_other fd fd' h') by done; apply app_nil_r).
  exists x, fs'. rewrite reads_snoc, He, Eq, Ep, Hs, Hr. by split_and!.
Qed.

(** A step changes nothing of a client that it is not about. *)
Lemma accounted_same frames es e h s fd x0 :
  count_read fd (reads_of fd es) e = reads_of fd es ->
  accounted frames es h s fd x0 -> accounted frames (es ++ [e]) h s fd x0.
Proof. intros He Ha. unfold accounted in *. by rewrite reads_snoc, He. Qed.

Section Run.
Context (s0 : T_KRServer) (c0 : C) (frames : Z -> list frame).
Context (Hwell : well_connected s0 frames).

Lemma connect_step es h c s fd b :
  run_inv s0 c0 frames es h c s -> fd ∉ opens es -> is_Some (sockets s0 !! fd) ->
  exists s', dispatch (Connect (Some fd) b) (c, s) = Ok (tt, (c, s')) /\
    run_inv s0 c0 frames (es ++ [Connect (Some fd) b]) h c s'.
Proof.
  intros (Hans & HI & Hacc & Hreg) Hfd [x0 Hx0].
  assert (Hnone : reads_of fd es = None).
  { destruct (reads_of fd es) eqn:E; [|done]. by apply reads_opens in E. }
  assert (Hr : registered s !! fd = None).
  { destruct (Hacc fd x0 Hx0) as (x & fs' & _ & _ & _ & _ & Ha). rewrite Hnone in Ha. naive_solver. }
  destruct b.
  - eexists. split; [reflexivity|]. split; [done|]. split; [done|]. split.
    + intros fd' x0' Hx0'. destruct (decide (fd = fd')) as [<-|Hne].
      * destruct (Hacc fd x0' Hx0') as (x & fs' & Hx & Hfr & Hout & Hroom & Ha).
        rewrite Hnone in Ha. destruct Ha as (Hin & Hreq & _).
        destruct (proj2 Hwell fd x0' Hx0') as (Hsound & Hrest & Hok & _).
        exists x, fs'. split_and!; try done. rewrite reads_snoc. cbn [count_read]. rewrite Z.eqb_refl.
        exists []. rewrite Hreq, Hin. cbn [registered with_client]. rewrite lookup_insert_eq.
        rewrite Hfr, Hreq in Hok. split_and!; try done; [by apply incomplete_nil|lia|apply holds_new|by left].
      * rewrite <- (app_nil_r h). eapply (accounted_frame frames es _ h [] s _ fd fd'); try done.
        -- cbn. by rewrite (proj2 (Z.eqb_neq _ _)) by done.
        -- cbn. by rewrite lookup_insert_ne.
        -- by apply Hacc.
    + intros fd' k'. cbn. destruct (decide (fd = fd')) as [<-|Hne]; [by exists x0|].
      rewrite lookup_insert_ne by done. apply Hreg.
  - eexists. split; [reflexivity|]. split; [done|]. split; [done|].
    unfold with_client. cbn [sockets clients registered].
    assert (Hdel : forall k, delete fd (<[fd:=k]> (registered s)) = registered s)
      by (intros k; by apply delete_insert_id).
    split; [|intros fd' k'; cbn; rewrite Hdel; apply Hreg].
    intros fd' x0' Hx0'. rewrite <- (app_nil_r h).
    destruct (Hacc fd' x0' Hx0') as (x & fs' & Ha). exists x, fs'.
    rewrite reads_snoc. cbn [count_read registered sockets]. by rewrite app_nil_r, Hdel.
Qed.

Lemma readable_step es h c s fd :
  run_inv s0 c0 frames es h c s ->
  exists h' c' s', dispatch (Readable fd) (c, s) = Ok (tt, (c', s')) /\
    run_inv s0 c0 frames (es ++ [Readable fd]) (h ++ h') c' s'.
Proof.
  intros (Hans & HI & Hacc & Hreg). cbn [dispatch snd].
  assert (Hothers : forall fd', fd <> fd' -> count_read fd' (reads_of fd' es) (Readable fd) = reads_of fd' es)
    by (intros fd' Hne; cbn; by rewrite (proj2 (Z.eqb_neq _ _)) by done).
  destruct (registered s !! fd) as [k|] eqn:Hk.
  2:{ exists [], c, s. rewrite app_nil_r. split; [done|]. split; [done|]. split; [done|]. split; [|done].
      intros fd' x0 Hx0. destruct (decide (fd = fd')) as [<-|Hne]; [|by apply accounted_same; auto].
      destruct (Hacc fd x0 Hx0) as (x & fs' & Hx & Hfr & Hout & Hroom & Ha).
      exists x, fs'. split_and!; try done. rewrite reads_snoc. cbn [count_read]. rewrite Z.eqb_refl.
      destruct (reads_of fd es) as [n|]; [|done]. cbn. destruct Ha as (l & Hl & Hi & Hs & Hw & Hc).
      exists l. rewrite Hk in Hc |- *. split_and!; try done. rewrite Hc. unfold work. simpl. lia. }
  destruct (Hreg fd k Hk) as [x0 Hx0].
  destruct (Hacc fd x0 Hx0) as (x & fs & Hx & Hfr & Hout & Hroom & Ha).
  destruct (reads_of fd es) as [n|] eqn:Hn; [|naive_solver].
  destruct Ha as (l & Hl & Hi & Hs & Hw & Hc). rewrite Hk in Hc. destruct Hc as [Hb Hm].
  destruct (proj2 Hwell fd x0 Hx0) as (_ & (rest & Hrest) & Hok & _).
  assert (Hstr : l ++ bytes_of (s_in x) ++ rest = stream fs).
  { rewrite Hl, Hfr, stream_app, <- !app_assoc in Hrest. by apply app_inv_head in Hrest. }
  assert (Hfs : Forall acceptable fs) by (rewrite Hfr in Hok; by apply Forall_app in Hok as [_ Hok]).
  destruct (on_read_spec fd c s k x l rest fs) as
    [[Hend ->]|(got & y & c' & s' & Hgot & Hsy & Hwy & Houty & -> & Hp)]; try done.
  - eexists [], c, _. rewrite app_nil_r. split; [reflexivity|]. split; [done|]. split; [done|]. split.
    + intros fd' x0' Hx0'. destruct (decide (fd = fd')) as [<-|Hne].
      * assert (x0' = x0) as -> by congruence. exists x, fs. rewrite reads_snoc, Hn. cbn. rewrite lookup_insert_eq, Z.eqb_refl, lookup_delete_eq.
        split_and!; try done. exists l. split_and!; try done. rewrite Hend. unfold work. simpl. lia.
      * rewrite <- (app_nil_r h).
        eapply (accounted_frame frames es _ h [] s _ fd fd'); try done; [by apply Hothers|..|by apply Hacc]; cbn.
        -- by rewrite lookup_insert_ne.
        -- by rewrite lookup_delete_ne.
    + intros fd' k'. cbn. intros Hk'. apply lookup_delete_Some in Hk' as [_ Hk']. by eapply Hreg.
  - destruct Hp as (h' & fs' & l' & k' & x' & -> & Ha & HI' & Hfd & Efs & El & Hi' & Hb' & Hm' & Hin' & Hout' & Hroom').
    exists h', c', (put fd k' x' s). split; [done|]. split; [by eapply answered_app|]. split; [done|]. split.
    + intros fd' x0' Hx0'. destruct (decide (fd = fd')) as [<-|Hne].
      * assert (x0' = x0) as -> by congruence. exists x', fs'. rewrite reads_snoc, Hn. cbn. rewrite !lookup_insert_eq, Z.eqb_refl.
        rewrite requests_app, replies_app, !stream_app, Hin'. split_and!; try done.
        -- by rewrite Hfr, <- app_assoc, <- Efs.
        -- by rewrite Hout', Houty, Hout, <- app_assoc.
        -- exists l'. split_and!; try done; [|lia].
           rewrite Hl, Hgot, (app_assoc l got), El. by rewrite <- !app_assoc.
      * eapply (accounted_frame frames es _ h h' s _ fd fd'); try done; [by apply Hothers|..|by apply Hacc]; cbn;
          by rewrite lookup_insert_ne.
    + intros fd' k''. cbn. destruct (decide (fd = fd')) as [<-|Hne]; [by exists x0|].
      rewrite lookup_insert_ne by done. apply Hreg.
Qed.

Lemma serve_snoc es e (st : state) : serve (es ++ [e]) st = (serve es;; dispatch e) st.
Proof.
  revert st. induction es as [|e' es IH]; intros st; cbn [app serve].
  - unfold mbind, M_bind, mret, M_ret. by destruct (dispatch e st) as [[[] st']|].
  - unfold mbind, M_bind in *. destruct (dispatch e' st) as [[[] st']|]; [|done]. by rewrite IH.
Qed.

Lemma serve_inv es :
  I c0 -> NoDup (opens es) -> Forall (fun fd => is_Some (sockets s0 !! fd)) (opens es) ->
  exists h c s, serve es (c0, s0) = Ok (tt, (c, s)) /\ run_inv s0 c0 frames es h c s.
Proof.
  intros HI. induction es as [|e es IH] using rev_ind; intros Hnd Hsome.
  - exists [], c0, s0. split; [done|]. destruct Hwell as [Hreg Hw]. split; [constructor|]. split; [done|]. split.
    + intros fd x0 Hx0. destruct (Hw fd x0 Hx0) as (Hs & Hr & Hok & Hroom).
      exists x0, (frames fd). split_and!; try done; [by rewrite app_nil_r|].
      cbn. by rewrite Hreg, lookup_empty.
    + intros fd k. by rewrite Hreg, lookup_empty.
  - rewrite opens_snoc in Hnd, Hsome. apply NoDup_app in Hnd as (Hnd & Hfresh & _).
    apply Forall_app in Hsome as [Hsome Hlast].
    destruct (IH Hnd Hsome) as (h & c & s & Hrun & Hinv).
    rewrite serve_snoc. unfold mbind, M_bind. rewrite Hrun.
    destruct e as [[fd|] b|fd].
    + destruct (connect_step es h c s fd b Hinv) as (s' & -> & Hinv').
      * intros Hin. eapply Hfresh; [done|]. cbn. apply list_elem_of_here.
      * by apply Forall_cons in Hlast as [Hl _].
      * by exists h, c, s'.
    + exists h, c, s. split; [done|]. destruct Hinv as (Ha & Hc & Hacc & Hr).
      split; [done|]. split; [done|]. split; [|done]. intros fd x0 Hx0. apply accounted_same; auto.
    + destruct (readable_step es h c s fd Hinv) as (h' & c' & s' & -> & Hinv'). by exists (h ++ h'), c', s'.
Qed.

End Run.

(** C6. Whatever the order in which the event loop reports connections and clients, and
    however the network cuts what they send: the server runs, the requests it has taken
    from a client are the first of what the client sends, in order, the bytes it has
    written to the client are the replies of the engine to exactly these, in order, and a
    client that was reported often enough has had every complete request answered.  The
    engine answers the requests of all clients one after the other. *)
Theorem kr_server_serves s0 c0 frames es :
  I c0 -> well_connected s0 frames ->
  NoDup (opens es) -> Forall (fun fd => is_Some (sockets s0 !! fd)) (opens es) ->
  exists h c s, serve es (c0, s0) = Ok (tt, (c, s)) /\ answered c0 h c /\
    forall fd x0, sockets s0 !! fd = Some x0 ->
      exists x fs', sockets s !! fd = Some x /\ frames fd = requests fd h ++ fs' /\
        s_out x = s_out x0 ++ stream (replies fd h) /\
        forall n, reads_of fd es = Some n -> (work (s_in x0) <= n)%nat ->
          exists l, bytes_of (s_in x0) = stream (requests fd h) ++ l /\ incomplete l fs'.
Proof.
  intros HI Hw Hnd Hsome.
  destruct (serve_inv s0 c0 frames Hw es HI Hnd Hsome) as (h & c & s & Hrun & Ha & _ & Hacc & _).
  exists h, c, s. split; [done|]. split; [done|]. intros fd x0 Hx0.
  destruct (Hacc fd x0 Hx0) as (x & fs' & Hx & Hfr & Hout & _ & Hc).
  exists x, fs'. split_and!; try done. intros n Hn Hle. rewrite Hn in Hc.
  destruct Hc as (l & Hl & Hi & Hs & Hwk & _). exists l. split; [|done].
  rewrite Hl, (work_none (s_in x)) by (done || lia). by rewrite app_nil_r.
Qed.

End ServerLemmas.

(** * Requests that are too large *)

(** A client whose buffer is full is dropped whatever it sends: there is no room left, so
    that [read] gives 0. *)
Lemma on_read_full `{KREngine C} fd (c : C) s k x l e es :
  registered s !! fd = Some k -> sockets s !! fd = Some x -> holds (inbuf k) l ->
  size_of l = KR_BUFFER_MAX_LEN -> s_in x = RBytes e :: es -> e <> [] ->
  kr_server_on_read fd (c, s) =
    Ok (tt, (c, mkServer (<[fd := x]> (sockets s)) (remove_fd fd (clients s)) (delete fd (registered s)))).
Proof.
  intros Hk Hx (t & Hd & Hn & Hs) Hl Hin He. unfold kr_server_on_read.
  unfold mbind at 1, M_bind at 1, srv at 1, get_client at 1. rewrite Hk. cbv zeta. rewrite Hs, Hl.
  unfold mbind at 1, M_bind at 1, srv at 1, get_socket at 1. rewrite Hx, Hin.
  rewrite Z.sub_diag. cbn [read_once]. rewrite take_0, drop_0. destruct e as [|z e]; [done|].
  unfold mbind at 1, M_bind at 1, srv at 1, set_socket at 1. cbn [size_of].
  unfold srv, kr_client_free, with_socket. cbn. rewrite <- Hin. by destruct x.
Qed.

Lemma process_incomplete `{KREngine C} n fd (c : C) s k l f fs :
  registered s !! fd = Some k -> holds (inbuf k) l -> 0 < size_of l -> inmsg k = None ->
  frame_wf f -> incomplete l (f :: fs) ->
  process_loop (S n) fd (c, s) =
    Ok (tt, (c, with_client fd (mkClient (inbuf k) (Some kr_message_alloc)) s)).
Proof.
  intros Hk Hb Hl Hm Hf Hi. destruct (incomplete_parse kr_message_alloc (inbuf k) l f fs Hf Hb Hi) as (ret & E & Hr).
  destruct Hb as (t & _ & _ & Hs). cbn [process_loop].
  unfold mbind at 1, M_bind at 1, srv at 1, get_client at 1. rewrite Hk, Hs, Hm.
  rewrite (proj2 (Z.eqb_neq _ _)) by lia.
  unfold mbind at 1, M_bind at 1, srv at 1, lift at 1. rewrite E.
  unfold mbind at 1, M_bind at 1, srv at 1, set_client at 1.
  rewrite (proj2 (Z.ltb_ge _ _)), (proj2 (Z.gtb_lt _ _)) by lia. done.
Qed.

Lemma on_read_large `{KREngine C} fd (c : C) s x f got rest :
  registered s !! fd = Some kr_client_alloc -> sockets s !! fd = Some x -> frame_wf f ->
  encode f = got ++ rest -> rest <> [] -> size_of got = KR_BUFFER_MAX_LEN -> s_in x = [RBytes (got ++ rest)] ->
  exists b, holds b got /\ kr_server_on_read fd (c, s) =
    Ok (tt, (c, put fd (mkClient b (Some kr_message_alloc)) (mkSocket [RBytes rest] (s_out x) (s_writes x)) s)).
Proof.
  intros Hk Hx Hf He Hrest Hgot Hin.
  assert (Hn : Z.to_nat KR_BUFFER_MAX_LEN = length got) by (unfold size_of in Hgot; lia).
  destruct (on_read_bytes fd c s kr_client_alloc x [] got [RBytes rest] Hk Hx holds_new) as (d & Hb & ->).
  { rewrite size_of_nil, Z.sub_0_r, Hin. cbn [read_once].
    rewrite Hn, take_app_length, drop_app_length. by destruct rest. }
  { rewrite Hgot, size_of_nil. unfold KR_BUFFER_MAX_LEN. lia. }
  rewrite app_nil_l in Hb. set (b := mkBuffer _ _) in *. exists b. split; [done|].
  assert (Hpos : 0 < size_of got) by (rewrite Hgot; unfold KR_BUFFER_MAX_LEN; lia).
  clearbody b. clear Hgot Hn Hin.
  replace (Z.to_nat (size_of [] + size_of got)) with (S (Z.to_nat (size_of got - 1))) by (rewrite size_of_nil; lia).
  rewrite (process_incomplete _ fd c _ (mkClient b None) got f []); try done.
  - unfold put, with_client. cbn [sockets clients registered inbuf]. by rewrite insert_insert_eq.
  - apply lookup_insert_eq.
  - by exists rest.
Qed.

(** A client that sends one request with a body longer than 16340 bytes is dropped with no
    reply. *)
Lemma kr_server_drops_large `{KREngine C} fd (c : C) s x f :
  frame_wf f -> ~ fits f -> registered s !! fd = None ->
  sockets s !! fd = Some x -> s_in x = [RBytes (encode f)] ->
  exists s', serve [Connect (Some fd) true; Readable fd; Readable fd] (c, s) = Ok (tt, (c, s')) /\
    registered s' = registered s /\ s_out <$> sockets s' !! fd = Some (s_out x).
Proof.
  intros Hf Hfit Hr Hx Hin. pose proof (size_of_encode f Hf) as Hsz. unfold fits in Hfit.
  assert (exists got rest, encode f = got ++ rest /\ rest <> [] /\ size_of got = KR_BUFFER_MAX_LEN)
    as (got & rest & Henc & Hrest & Hgot).
  { exists (take (Z.to_nat KR_BUFFER_MAX_LEN) (encode f)), (drop (Z.to_nat KR_BUFFER_MAX_LEN) (encode f)).
    assert (Hg : size_of (take (Z.to_nat KR_BUFFER_MAX_LEN) (encode f)) = KR_BUFFER_MAX_LEN)
      by (apply size_of_take; unfold KR_BUFFER_MAX_LEN, KR_MSGHEADER_LEN in *; lia).
    split_and!; [by rewrite take_drop| |done].
    intros E. rewrite <- (take_drop (Z.to_nat KR_BUFFER_MAX_LEN) (encode f)), E, app_nil_r, Hg in Hsz.
    unfold KR_BUFFER_MAX_LEN, KR_MSGHEADER_LEN in *. lia. }
  rewrite Henc in Hin.
  set (s1 := mkServer (sockets s) (clients s ++ [fd]) (<[fd := kr_client_alloc]> (registered s))).
  assert (Hs1 : registered s1 !! fd = Some kr_client_alloc) by apply lookup_insert_eq.
  destruct (on_read_large fd c s1 x f got rest Hs1 Hx Hf Henc Hrest Hgot Hin) as (b & Hb & Hread).
  assert (Hconn : dispatch (Connect (Some fd) true) (c, s) = Ok (tt, (c, s1))) by reflexivity.
  eexists. cbn [serve]. unfold mbind at 1, M_bind at 1. rewrite Hconn.
  unfold mbind at 1, M_bind at 1. cbn [dispatch snd]. rewrite Hs1, Hread.
  unfold mbind at 1, M_bind at 1. cbn [snd registered put]. rewrite lookup_insert_eq.
  rewrite (on_read_full fd c _ (mkClient b (Some kr_message_alloc)) (mkSocket [RBytes rest] (s_out x) (s_writes x))
    got rest []); [|apply lookup_insert_eq|apply lookup_insert_eq|exact Hb|exact Hgot|done|done].
  split; [reflexivity|]. cbn [registered sockets put s1].
  rewrite lookup_insert_eq, !insert_insert_eq. split; [by apply delete_insert_id|done].
Qed.

(** * An example: an engine that counts its requests, two clients *)

#[local] Instance counting_engine : KREngine Z := fun O a '(n, o) =>
  match cb_func a (apply a)
          (mkMessage (msgtype (reply a)) (msgid (reply a)) (method (reply a)) (datasrc (reply a)) 1 (Some [u8 n])) o with
  | Ok (_, o') => Ok (0, (n + 1, o'))
  | Fault e => Fault e
  end.

Lemma counting_answers (n : Z) (f : frame) : True -> True -> exists m n',
  serves n (received f) m n' /\ True /\ message_ok m /\ fits (frame_of m).
Proof.
  intros _ _. exists (mkMessage KR_MSGTYPE_SUCCESS (zero_bytes 31) (zero_bytes 21) 0 1 (Some [u8 n])), (n + 1).
  split; [done|]. split; [done|]. split; [|done]. split; vm_compute; try done; by split.
Qed.

Definition example_frame (b : Z) : frame := mkFrame (replicate 16 b) (replicate 20 b) b [b; b; b].
Definition example_socket (l : list read_event) : socket := mkSocket l [] (repeat (WBytes 9) 40000).
Definition example_server : T_KRServer :=
  mkServer {[3 := example_socket [RBytes (take 50 (stream [example_frame 1; example_frame 2]));
                                  RAgain; RBytes (drop 50 (stream [example_frame 1; example_frame 2]))];
             4 := example_socket [RBytes (encode (example_frame 5) ++ [7; 7])]]} [] ∅.
Definition example_stream (fd : Z) : list frame :=
  if fd =? 3 then [example_frame 1; example_frame 2] else [example_frame 5; example_frame 7].
Definition example_events : list event :=
  [Connect (Some 3) true; Readable 3; Connect (Some 4) true; Readable 4; Readable 3; Connect None true] ++
  repeat (Readable 3) 100.

Lemma kr_server_serves_witness :
  exists h c s, serve example_events (0, example_server) = Ok (tt, (c, s)) /\ answered 0 h c /\
    forall fd x0, sockets example_server !! fd = Some x0 ->
      exists x fs', sockets s !! fd = Some x /\ example_stream fd = requests fd h ++ fs' /\
        s_out x = s_out x0 ++ stream (replies fd h) /\
        forall n, reads_of fd example_events = Some n -> (work (s_in x0) <= n)%nat ->
          exists l, bytes_of (s_in x0) = stream (requests fd h) ++ l /\ incomplete l fs'.
Proof.
  apply (kr_server_serves (fun _ => True) (fun _ => True) counting_answers example_server 0 example_stream example_events).
  - done.
  - split; [done|]. intros fd x0 Hx0. unfold example_server in Hx0. cbn [sockets] in Hx0.
    apply lookup_insert_Some in Hx0 as [[<- <-]|[Hne Hx0]].
    + split; [|split; [|split]].
      * repeat constructor; vm_compute; done.
      * exists []. vm_compute. reflexivity.
      * repeat constructor; vm_compute; done.
      * split; vm_compute; done.
    + apply lookup_singleton_Some in Hx0 as [<- <-]. split; [|split; [|split]].
      * repeat constructor; vm_compute; done.
      * exists (drop 2 (encode (example_frame 7))). vm_compute. reflexivity.
      * repeat constructor; vm_compute; done.
      * split; vm_compute; done.
  - apply (bool_decide_unpack _). vm_compute. exact Logic.I.
  - repeat constructor; eexists; reflexivity.
Defined.
