(* ===== verification/KrShell.v ===== *)
(** The shell's client (krshell/kr_shell_client.c): one request, one reply.

    A client is its socket.  The text of a request is what the caller made of its JSON. *)

From S2P Require Import Prelude KrString KrHashtable KrTypes KrHashset KrJson KrProtocol KrServer.
Local Open Scope Z_scope.
#[local] Notation length := List.length.

(** The copy of a C string ends with a null. *)
Definition strcpy (dst : list Z) (s : string) : res (list Z) := memcpy dst 0 (string_bytes s ++ [0]).

(** The reads and writes of the client: what the socket gives, in order. *)
Definition net_read (k : socket) (count : Z) : res (Z * list Z * socket) :=
  r ← kr_net_read (S (work (s_in k) + List.length (s_in k))) (s_in k) [] count 0;
  Ok (r.1.1, r.1.2, mkSocket r.2 (s_out k) (s_writes k)).
Definition net_write (k : socket) (buf : list Z) (count : Z) : res (Z * socket) :=
  r ← kr_net_write (S (List.length (s_writes k))) (s_writes k) [] buf count 0;
  Ok (r.1.1, mkSocket (s_in k) (s_out k ++ r.1.2) r.2).

Definition kr_client_read_message (k : socket) : res (option T_KRMessage * socket) :=
  let krmsg := kr_message_alloc in
  r ← net_read k KR_MSGHEADER_LEN;
  let '(readLen, got, k) := r in
  d ← memcpy (buf_data new_buffer) 0 got;
  if readLen <=? 0 then Ok (None, k)
  else
    let size := readLen in
    l ← mem_read d (KR_MSGHEADER_LEN - KR_MSGLEN_LEN) KR_MSGLEN_LEN;
    msglen ← kr_get_u32 l;
    r ← net_read k (i32 msglen);
    let '(readLen, got, k) := r in
    d ← memcpy d size got;
    if negb (u64 readLen =? msglen) then Ok (None, k)
    else
      p ← kr_message_parse (mkBuffer (size + readLen) d) krmsg;
      Ok (Some p.2, k).

Definition kr_client_write_message (k : socket) (krmsg : T_KRMessage) : res (Z * socket) :=
  d ← kr_message_dump krmsg new_buffer;
  if d.1 <=? 0 then Ok (-1, k)
  else
    w ← net_write k (buf_data d.2) (i32 (buf_size d.2));
    let writeLen := w.1 in
    Ok (if writeLen <? 0 then -1 else if writeLen =? 0 then 0 else writeLen, w.2).

Definition kr_client_apply (k : socket) (method_ : string) (datasrc_ msglen_ : Z) (msgbuf_ : option (list Z))
    : res (option T_KRMessage * socket) :=
  let apply := kr_message_alloc in
  id ← strcpy (msgid apply) "0001";
  meth ← strcpy (method apply) method_;
  let apply := mkMessage (msgtype apply) id meth datasrc_ (u64 msglen_) msgbuf_ in
  w ← kr_client_write_message k apply;
  if w.1 <=? 0 then Ok (None, w.2)
  else kr_client_read_message w.2.

(** ** The requests *)

Section Requests.
Context (k : socket).
#[local] Abbreviation answer := (res (option T_KRMessage * socket)).

(** A request whose body is the text of an object with numbers or a string. *)
Definition add_field (json : cJSON) (f : string * (Z + string)) : cJSON :=
  match f.2 with
  | inl z => cJSON_AddNumberToObject json f.1 (d_of_Z z)
  | inr s => cJSON_AddStringToObject json f.1 s
  end.
Definition apply_json (meth : string) (datasrc : Z) (fields : list (string * (Z + string))) : answer :=
  let json := foldl add_field cJSON_CreateObject fields in
  msgbuf ← cJSON_PrintUnformatted json;
  msgbuf ← of_option NullDeref msgbuf;
  kr_client_apply k meth datasrc (Z.of_nat (String.length msgbuf)) (Some (string_bytes msgbuf ++ [0])).

Definition kr_client_info : answer := kr_client_apply k "info_engine" 0 0 None.
Definition kr_client_info_log : answer := kr_client_apply k "info_log" 0 0 None.
Definition kr_client_set_logpath (log_path : string) : answer :=
  apply_json "set_logpath" 0 [("log_path"%string, inr log_path)].
Definition kr_client_set_logname (log_name : string) : answer :=
  apply_json "set_logname" 0 [("log_name"%string, inr log_name)].
Definition kr_client_set_loglevel (log_level : Z) : answer :=
  apply_json "set_loglevel" 0 [("log_level"%string, inl log_level)].
Definition kr_client_info_krdb : answer := kr_client_apply k "info_krdb" 0 0 None.
Definition kr_client_info_table (table_id : Z) : answer := kr_client_apply k "info_table" table_id 0 None.
Definition kr_client_info_index (table_id index_id : Z) : answer :=
  apply_json "info_index" table_id [("index_id"%string, inl index_id)].
Definition kr_client_list_index_key : answer := kr_client_apply k "list_index_key" 0 0 None.
Definition kr_client_reload_param : answer := kr_client_apply k "reload_param" 0 0 None.
Definition kr_client_info_param : answer := kr_client_apply k "info_param" 0 0 None.
Definition kr_client_info_group (group_id : Z) : answer :=
  apply_json "info_group" 0 [("group_id"%string, inl group_id)].
Definition kr_client_info_group_rule (group_id rule_id : Z) : answer :=
  apply_json "info_rule" 0 [("group_id"%string, inl group_id); ("rule_id"%string, inl rule_id)].
Definition kr_client_info_set (set_id : Z) : answer := apply_json "info_set" 0 [("set_id"%string, inl set_id)].
Definition kr_client_info_sdi (sdi_id : Z) : answer := apply_json "info_sdi" 0 [("sdi_id"%string, inl sdi_id)].
Definition kr_client_info_ddi (ddi_id : Z) : answer := apply_json "info_ddi" 0 [("ddi_id"%string, inl ddi_id)].
Definition kr_client_info_hdi (hdi_id : Z) : answer := apply_json "info_hdi" 0 [("hdi_id"%string, inl hdi_id)].
Definition kr_client_insert_event (table_id : Z) (event : string) : answer :=
  kr_client_apply k "insert_event" table_id (Z.of_nat (String.length event)) (Some (string_bytes event ++ [0])).
Definition kr_client_detect_event (table_id : Z) (event : string) : answer :=
  kr_client_apply k "detect_event" table_id (Z.of_nat (String.length event)) (Some (string_bytes event ++ [0])).
End Requests.

(** [kr_client_apply_file], over the lines of the file: 0, or -1 at the first request
    without a reply. *)
Fixpoint kr_client_apply_file (k : socket) (method_ : string) (table_id : Z) (lines : list string) : res (Z * socket) :=
  match lines with
  | [] => Ok (0, k)
  | line :: lines' =>
      if (match line with String a _ => Ascii.eqb a (Ascii.ascii_of_nat 32) | _ => false end) then kr_client_apply_file k method_ table_id lines'
      else
        r ← kr_client_apply k method_ table_id (Z.of_nat (String.length line)) (Some (string_bytes line ++ [0]));
        match r.1 with
        | None => Ok (-1, r.2)
        | Some _ => kr_client_apply_file r.2 method_ table_id lines'
        end
  end.

(** * What a request gets *)

Lemma string_bytes_size s : size_of (string_bytes s) = Z.of_nat (String.length s).
Proof. induction s as [|a s IH]; [done|]. cbn [string_bytes String.length]. rewrite size_of_cons, IH. lia. Qed.

(** The body that the shell sends is the text of its fields, as a value of JSON. *)
Definition field_json (f : string * (Z + string)) : string * json :=
  (f.1, match f.2 with inl z => JInt z | inr s => JStr s end).
Definition fields_json (fields : list (string * (Z + string))) : json := JObj (map field_json fields).
Definition body_of (fields : list (string * (Z + string))) : list Z := json_text (fields_json fields).

Lemma add_fields_item fields : forall l,
  Forall (fun f => json_ok (field_json f).2) fields ->
  foldl add_field (item_of (JObj l)) fields = item_of (JObj (l ++ map field_json fields)).
Proof.
  induction fields as [|f fields IH]; intros l Hok; [by rewrite app_nil_r|].
  apply Forall_cons in Hok as [Hf Hok]. cbn [foldl map].
  assert (E : add_field (item_of (JObj l)) f = item_of (JObj (l ++ [field_json f]))).
  { unfold add_field, field_json in *. destruct f as [n [z|t]]; cbn [fst snd] in *.
    - unfold cJSON_AddNumberToObject, cJSON_CreateNumber. rewrite to_int_of_Z by done.
      cbn. by rewrite map_app.
    - cbn. by rewrite map_app. }
  rewrite E, (IH _ Hok), <- app_assoc. done.
Qed.

Lemma apply_json_body k meth src fields :
  json_ok (fields_json fields) ->
  apply_json k meth src fields =
    kr_client_apply k meth src (size_of (body_of fields)) (Some (body_of fields ++ [0])).
Proof.
  intros Hok. unfold apply_json, body_of. change cJSON_CreateObject with (item_of (JObj [])).
  rewrite add_fields_item. 2:{ unfold fields_json in Hok. cbn [json_ok] in Hok. apply fold_Forall in Hok.
    apply Forall_map in Hok. apply (Forall_impl _ _ _ Hok). intros f [_ Hf]. exact Hf. }
  cbn [app]. fold (fields_json fields). rewrite (print_text _ Hok). cbn [mbind res_bind of_option].
  rewrite string_bytes_string by apply json_text_range. by rewrite bytes_string_length.
Qed.

(** A string copied into an array of zeros. *)
Definition padded (n : Z) (s : string) : list Z :=
  string_bytes s ++ zero_bytes (n - Z.of_nat (String.length s)).

Lemma zero_bytes_app m n : 0 <= m -> 0 <= n -> zero_bytes (m + n) = zero_bytes m ++ zero_bytes n.
Proof. intros. unfold zero_bytes. by rewrite Z2Nat.inj_add, replicate_add. Qed.

Lemma strcpy_spec n s :
  Z.of_nat (String.length s) < n -> strcpy (zero_bytes n) s = Ok (padded n s).
Proof.
  intros Hs. unfold strcpy, padded. set (m := Z.of_nat (String.length s)) in *.
  rewrite (memcpy_eq (zero_bytes n) [] (zero_bytes (m + 1)) (zero_bytes (n - m - 1))).
  - f_equal. rewrite app_nil_l, <- app_assoc. f_equal.
    change [0] with (zero_bytes 1). rewrite <- zero_bytes_app by lia. f_equal. lia.
  - rewrite app_nil_l, <- zero_bytes_app by lia. f_equal. lia.
  - done.
  - rewrite size_of_zero_bytes, size_of_app, string_bytes_size by lia. done.
Qed.
Lemma size_of_padded n s : Z.of_nat (String.length s) <= n -> size_of (padded n s) = n.
Proof. intros. unfold padded. rewrite size_of_app, string_bytes_size, size_of_zero_bytes; lia. Qed.

(** The message of a request, and its frame. *)
Definition request (meth : string) (src : Z) (body rest : list Z) : T_KRMessage :=
  mkMessage KR_MSGTYPE_SUCCESS (padded 31 "0001") (padded 21 meth) src (size_of body) (Some (body ++ rest)).
Definition request_frame (meth : string) (src : Z) (body : list Z) : frame :=
  mkFrame (take 16 (padded 31 "0001")) (take 20 (padded 21 meth)) src body.

Lemma request_ok meth src body rest :
  Z.of_nat (String.length meth) <= 20 -> INT_MIN <= src <= INT_MAX -> size_of body < 2 ^ 32 ->
  message_ok (request meth src body rest) /\ frame_of (request meth src body rest) = request_frame meth src body.
Proof.
  intros Hm Hs Hb. pose proof (size_of_nonneg body). pose proof (size_of_nonneg rest). split.
  - split; cbn [msgid method datasrc msglen msgbuf request]; try done.
    + by apply size_of_padded; lia.
    + rewrite size_of_app. lia.
  - unfold frame_of, request, request_frame. cbn. unfold size_of. by rewrite Nat2Z.id, take_app_length.
Qed.

Lemma net_read_all k a z :
  sound (s_in k) -> bytes_of (s_in k) = a ++ z -> size_of a < 2 ^ 63 ->
  exists k', net_read k (size_of a) = Ok (size_of a, a, k') /\ sound (s_in k') /\ bytes_of (s_in k') = z /\
    s_out k' = s_out k /\ s_writes k' = s_writes k.
Proof.
  intros Hs Hb Ha. unfold net_read.
  destruct (kr_net_read_all (S (work (s_in k) + length (s_in k))) (s_in k) [] (size_of a) 0 a z)
    as (s' & -> & Hs' & Hb' & _); try done; try lia.
  cbn [mbind res_bind fst snd]. eexists. split; [reflexivity|]. by split_and!.
Qed.

(** The reply that arrives is read, whatever comes after it. *)
Lemma read_message_spec k f z :
  frame_wf f -> fits f -> sound (s_in k) -> bytes_of (s_in k) = encode f ++ z ->
  exists k', kr_client_read_message k = Ok (Some (received f), k') /\ bytes_of (s_in k') = z /\ sound (s_in k') /\
    s_out k' = s_out k.
Proof.
  intros Hf Hfit Hs Hb. unfold encode in Hb. rewrite <- app_assoc in Hb.
  pose proof (size_of_header f Hf) as Hh. pose proof (size_of_nonneg (f_body f)). pose proof (wf_body f Hf).
  unfold fits in Hfit.
  destruct (net_read_all k (header f) (f_body f ++ z) Hs Hb) as (k1 & E1 & Hs1 & Hb1 & Ho1 & _);
    [rewrite Hh; done|].
  destruct (net_read_all k1 (f_body f) z Hs1 Hb1) as (k2 & E2 & Hs2 & Hb2 & Ho2 & _);
    [unfold KR_BUFFER_MAX_LEN, KR_MSGHEADER_LEN in *; lia|].
  unfold kr_client_read_message. rewrite Hh in E1. rewrite E1. cbn [mbind res_bind].
  destruct (holds_add new_buffer [] (header f) holds_new) as (d1 & Ed1 & Hd1); [by rewrite Hh|].
  change (buf_size new_buffer) with 0 in Ed1, Hd1. rewrite Ed1. cbn [mbind res_bind].
  rewrite Hh, app_nil_l in Hd1. change (KR_MSGHEADER_LEN <=? 0) with false. cbn iota.
  destruct (header_len f (mkBuffer (0 + KR_MSGHEADER_LEN) d1) [] Hf) as [El1 El2]; [by rewrite app_nil_r|].
  cbn [buf_data] in El1. rewrite El1. cbn [mbind res_bind]. rewrite El2. cbn [mbind res_bind].
  rewrite i32_small by (unfold KR_BUFFER_MAX_LEN, KR_MSGHEADER_LEN, INT_MIN, INT_MAX in *; lia).
  rewrite E2. cbn [mbind res_bind].
  destruct (holds_add _ (header f) (f_body f) Hd1) as (d2 & Ed2 & Hd2); [lia|].
  cbn [buf_data buf_size] in Ed2, Hd2. rewrite Z.add_0_l in Ed2, Hd2. rewrite Ed2. cbn [mbind res_bind].
  rewrite (wrapu_small 64) by (unfold KR_BUFFER_MAX_LEN, KR_MSGHEADER_LEN in *; lia).
  rewrite Z.eqb_refl. cbn [negb].
  destruct (parse_complete f (mkBuffer (KR_MSGHEADER_LEN + size_of (f_body f)) d2) [] Hf) as (b' & -> & _).
  { rewrite app_nil_r. exact Hd2. }
  cbn [mbind res_bind snd]. exists k2. split_and!; try done. by rewrite Ho2.
Qed.

Lemma write_message_spec k m :
  message_ok m -> fits (frame_of m) -> ready (s_writes k) KR_BUFFER_MAX_LEN ->
  exists w n, kr_client_write_message k m =
    Ok (n, mkSocket (s_in k) (s_out k ++ encode (frame_of m)) w) /\ 0 < n.
Proof.
  intros Hm Hfit Hr. pose proof (frame_of_wf m Hm) as Hf. pose proof (size_of_encode _ Hf) as Hse.
  pose proof (ok_len m Hm). pose proof (frame_of_len m Hm) as Hlen. unfold fits in Hfit.
  destruct (kr_message_dump_spec m [] new_buffer Hm Hfit holds_new) as (b & E & (t & Hd & Hn & Hs)).
  unfold kr_client_write_message. rewrite E. cbn [mbind res_bind fst snd].
  rewrite (proj2 (Z.leb_gt _ _)) by (unfold KR_MSGHEADER_LEN; lia).
  unfold net_write. rewrite Hs, i32_small
    by (unfold KR_BUFFER_MAX_LEN, KR_MSGHEADER_LEN, INT_MIN, INT_MAX in *; lia).
  destruct (kr_net_write_all (S (length (s_writes k))) (s_writes k) [] [] (encode (frame_of m)) t
    KR_BUFFER_MAX_LEN) as (w & Ew & Hw); [done|lia|lia|].
  rewrite size_of_nil, Z.add_0_l in Ew. cbn [app] in Ew. rewrite Hd, Ew. cbn [mbind res_bind fst snd].
  exists w, (size_of (encode (frame_of m))). unfold KR_MSGHEADER_LEN in *.
  rewrite (proj2 (Z.ltb_ge _ _)), (proj2 (Z.eqb_neq _ _)) by lia. split; [done|lia].
Qed.

Lemma apply_spec k meth src body rest g z :
  Z.of_nat (String.length meth) <= 20 -> INT_MIN <= src <= INT_MAX -> fits (request_frame meth src body) ->
  ready (s_writes k) KR_BUFFER_MAX_LEN ->
  frame_wf g -> fits g -> sound (s_in k) -> bytes_of (s_in k) = encode g ++ z ->
  exists k', kr_client_apply k meth src (size_of body) (Some (body ++ rest)) = Ok (Some (received g), k') /\
    s_out k' = s_out k ++ encode (request_frame meth src body) /\ bytes_of (s_in k') = z.
Proof.
  intros Hm Hs Hfit Hr Hg Hgfit Hin Hb. pose proof (size_of_nonneg body). unfold fits in Hfit. cbn [f_body request_frame] in Hfit.
  destruct (request_ok meth src body rest Hm Hs) as [Hok Hfr];
    [unfold KR_BUFFER_MAX_LEN, KR_MSGHEADER_LEN in *; lia|].
  unfold kr_client_apply. cbn [msgid method kr_message_alloc msgtype].
  rewrite (strcpy_spec 31) by (cbn [String.length]; lia). cbn [mbind res_bind].
  rewrite (strcpy_spec 21) by lia. cbn [mbind res_bind].
  rewrite (wrapu_small 64) by (unfold KR_BUFFER_MAX_LEN, KR_MSGHEADER_LEN in *; lia).
  change (mkMessage _ _ _ _ _ _) with (request meth src body rest).
  destruct (write_message_spec k (request meth src body rest)) as (w & n & -> & Hn);
    [done|by rewrite Hfr|done|].
  cbn [mbind res_bind fst snd]. rewrite (proj2 (Z.leb_gt _ _)) by lia.
  destruct (read_message_spec (mkSocket (s_in k) (s_out k ++ encode (frame_of (request meth src body rest))) w) g z
    Hg Hgfit Hin Hb) as (k' & -> & Hb' & _ & Ho).
  exists k'. split; [done|]. rewrite Ho. by rewrite <- Hfr.
Qed.

(** * A request from end to end *)

Section EndToEnd.
Context `{KREngine C} (I : C -> Prop) (P : frame -> Prop).
Context (engine_answers : forall c f, I c -> P f -> exists m c',
  serves c (received f) m c' /\ I c' /\ message_ok m /\ fits (frame_of m)).

Lemma of_client_one fd f m h : of_client fd h = [(f, m)] -> (fd, f, m) ∈ h.
Proof.
  intros E. assert (Hin : (f, m) ∈ of_client fd h) by (rewrite E; apply list_elem_of_here).
  unfold of_client in Hin. apply list_elem_of_omap in Hin as ([[x f'] m'] & Hin & Hx).
  destruct (Z.eqb_spec x fd) as [->|]; by simplify_eq.
Qed.

(** C7. The shell makes a request of at most twenty characters of method and 16340 bytes
    of body; the server has it delivered in any pieces, among those of other clients, and
    what it writes is delivered to the shell in any pieces.  Then the shell has sent the
    bytes that the server was given, and the reply it returns has the names, the source and
    the body of the engine's reply, and is a success whatever the engine replied. *)
Theorem kr_request_answered s0 c0 frames es fd x0 n meth src body rest :
  I c0 -> well_connected P s0 frames -> NoDup (opens es) ->
  Forall (fun fd => is_Some (sockets s0 !! fd)) (opens es) ->
  sockets s0 !! fd = Some x0 -> s_out x0 = [] -> frames fd = [request_frame meth src body] ->
  bytes_of (s_in x0) = encode (request_frame meth src body) ->
  reads_of fd es = Some n -> (work (s_in x0) <= n)%nat -> Z.of_nat (String.length meth) <= 20 ->
  exists c s x h c1 m c2, serve es (c0, s0) = Ok (tt, (c, s)) /\ sockets s !! fd = Some x /\
    answered c0 h c1 /\ serves c1 (received (request_frame meth src body)) m c2 /\
    forall k, ready (s_writes k) KR_BUFFER_MAX_LEN -> sound (s_in k) -> bytes_of (s_in k) = s_out x ->
      exists r k', kr_client_apply k meth src (size_of body) (Some (body ++ rest)) = Ok (Some r, k') /\
        s_out k' = s_out k ++ bytes_of (s_in x0) /\ frame_of r = frame_of m /\
        msgtype r = KR_MSGTYPE_SUCCESS.
Proof.
  intros HI Hw Hnd Hsome Hx0 Hout0 Hfr Hbytes Hn Hle Hm.
  destruct (serve_inv I P engine_answers s0 c0 frames Hw es HI Hnd Hsome) as (h & c & s & Hrun & Ha & _ & Hacc & _).
  destruct (Hacc fd x0 Hx0) as (x & fs' & Hx & Hfs & Hout & _ & Hc). rewrite Hn in Hc.
  destruct Hc as (l & Hl & Hi & Hs & Hwk & _).
  rewrite (work_none (s_in x)) in Hl by (done || lia). rewrite app_nil_r, Hbytes in Hl. rewrite Hfr in Hfs.
  destruct (proj2 Hw fd x0 Hx0) as (_ & _ & Hok & _). rewrite Hfr in Hok.
  apply Forall_cons in Hok as [(Hwf & Hfit & _) _].
  assert (Hreq : requests fd h = [request_frame meth src body]).
  { destruct (requests fd h) as [|g gs] eqn:E.
    - exfalso. cbn [app stream map concat] in *. subst fs' l. destruct Hi as (y & Hy & Ey).
      apply Hy. apply (app_inv_head (encode (request_frame meth src body))). by rewrite app_nil_r.
    - cbn [app] in Hfs. injection Hfs as <- Hgs. symmetry in Hgs. apply app_eq_nil in Hgs as [-> _]. done. }
  unfold requests in Hreq. destruct (of_client fd h) as [|[f m] [|]] eqn:Eh; try done. cbn in Hreq. injection Hreq as ->.
  destruct (answered_in c0 h c fd _ m Ha (of_client_one fd _ m h Eh)) as (Hmok & Hmfit & h1 & c1 & c2 & Ha1 & Hserve).
  exists c, s, x, h1, c1, m, c2. split_and!; try done. intros k Hr Hin Hb.
  rewrite Hout, Hout0 in Hb. unfold replies in Hb. rewrite Eh in Hb. cbn [app map snd stream concat] in Hb.
  pose proof (wf_src _ Hwf) as Hsrc. cbn [f_src request_frame] in Hsrc.
  destruct (apply_spec k meth src body rest (frame_of m) [] Hm Hsrc Hfit Hr) as (k' & E & Ho & _);
    [by apply frame_of_wf|done|done|done|].
  exists (received (frame_of m)), k'. split_and!; try done; [by rewrite Ho, Hbytes|].
  by apply frame_of_received, frame_of_wf.
Qed.

End EndToEnd.

(** ** An example: the engine of KrServer, a request in three pieces *)

Definition example_request : list Z := encode (request_frame "info_log" 7 [1; 2; 3]).
Definition example_input : socket :=
  mkSocket [RBytes (take 10 example_request); RAgain; RBytes (drop 10 example_request)] [] (repeat (WBytes 9) 40000).
Definition example_shell_server : T_KRServer := mkServer {[3 := example_input]} [] ∅.

Lemma kr_request_answered_witness :
  exists c s x h c1 m c2,
    serve (H := counting_engine) (Connect (Some 3) true :: repeat (Readable 3) 50) (0, example_shell_server)
      = Ok (tt, (c, s)) /\ sockets s !! 3 = Some x /\
    answered (H := counting_engine) 0 h c1 /\
    serves (H := counting_engine) c1 (received (request_frame "info_log" 7 [1; 2; 3])) m c2 /\
    forall k, ready (s_writes k) KR_BUFFER_MAX_LEN -> sound (s_in k) -> bytes_of (s_in k) = s_out x ->
      exists r k', kr_client_apply k "info_log" 7 (size_of [1; 2; 3]) (Some ([1; 2; 3] ++ [0])) = Ok (Some r, k') /\
        s_out k' = s_out k ++ bytes_of (s_in example_input) /\ frame_of r = frame_of m /\
        msgtype r = KR_MSGTYPE_SUCCESS.
Proof.
  apply (kr_request_answered (H := counting_engine) (fun _ => True) (fun _ => True) counting_answers
    example_shell_server 0 (fun _ => [request_frame "info_log" 7 [1; 2; 3]]) _ 3 example_input 50).
  - done.
  - split; [done|]. intros fd x0 Hx0. unfold example_shell_server in Hx0. cbn [sockets] in Hx0.
    apply lookup_singleton_Some in Hx0 as [<- <-].
    split; [|split; [|split]].
    + repeat constructor; vm_compute; done.
    + exists []. vm_compute. reflexivity.
    + repeat constructor; vm_compute; done.
    + split; vm_compute; done.
  - apply (bool_decide_unpack _). vm_compute. exact Logic.I.
  - repeat constructor. eexists; reflexivity.
  - reflexivity.
  - reflexivity.
  - reflexivity.
  - vm_compute. reflexivity.
  - vm_compute. reflexivity.
  - apply (bool_decide_unpack _). vm_compute. exact Logic.I.
  - vm_compute. discriminate.
Defined.
