(* ===== verification/KrMessage.v ===== *)
(** The messages of the coordinator (krcoordi/kr_message.c): a header of eighty printed
    characters, then the body.

    A message keeps the arrays of the C structure.  Its header is printed with the widths of
    the fields, and what does not fit is cut at the end; the reader takes the fields by their
    places, so that the names arrive with the blanks they were padded with. *)

From S2P Require Import Prelude KrString KrHashtable KrTypes KrHashset KrJson KrProtocol KrServer KrShell.
From stdpp Require Import pretty.
From Stdlib Require Import Ascii String.
Local Open Scope Z_scope.
#[local] Notation length := List.length.

(** * Data *)

Definition KR_MSGTYPE_LEN : Z := 4.
Definition KR_MSGID_LEN : Z := 16.
Definition KR_SERVERID_LEN : Z := 26.
Definition KR_CLIENTID_LEN : Z := 26.
Definition KR_DATASRC_LEN : Z := 4.
Definition KR_MSGLEN_LEN : Z := 4.
Definition KR_MSGHEADER_LEN : Z := 80.

Definition KR_MSGTYPE_ERROR : Z := -1.
Definition KR_MSGTYPE_SUCCESS : Z := 0.
Definition KR_MSGTYPE_SVRON : Z := 1.
Definition KR_MSGTYPE_SVROFF : Z := 2.
Definition KR_MSGTYPE_CLION : Z := 3.
Definition KR_MSGTYPE_CLIOFF : Z := 4.
Definition KR_MSGTYPE_INSERT_EVENT : Z := 50.
Definition KR_MSGTYPE_DETECT_EVENT : Z := 60.

(** [msgbuf] is [None] for [NULL]. *)
Record T_KRMessage := mkMessage {
  fd : Z;
  msgtype : Z;
  msgid : list Z;
  serverid : list Z;
  clientid : list Z;
  datasrc : Z;
  msglen : Z;
  msgbuf : option (list Z)
}.

Definition kr_message_alloc : T_KRMessage :=
  mkMessage 0 0 (zero_bytes (KR_MSGID_LEN + 1)) (zero_bytes (KR_SERVERID_LEN + 1)) (zero_bytes (KR_CLIENTID_LEN + 1)) 0 0 None.

(** * The header *)

(** The string in an array. *)
Definition c_text (l : list Z) : string := bytes_string (cut_null l).

(** [memset], [memcpy] of [n] bytes at [off] and [atoi]. *)
Definition number_at (msghead : list Z) (off n : Z) : res Z :=
  bytes ← mem_read msghead off n;
  buff ← memcpy (zero_bytes (KR_MSGHEADER_LEN + 1)) 0 bytes;
  Ok (atoi (c_text buff)).
Definition kr_message_head_parse (msghead : list Z) (krmsg : T_KRMessage) : res T_KRMessage :=
  let p := 0 in
  ty ← number_at msghead p KR_MSGTYPE_LEN;
  let p := p + KR_MSGTYPE_LEN in
  bytes ← mem_read msghead p KR_MSGID_LEN;
  id ← memcpy (msgid krmsg) 0 bytes;
  let p := p + KR_MSGID_LEN in
  bytes ← mem_read msghead p KR_SERVERID_LEN;
  sid ← memcpy (serverid krmsg) 0 bytes;
  let p := p + KR_SERVERID_LEN in
  bytes ← mem_read msghead p KR_CLIENTID_LEN;
  cid ← memcpy (clientid krmsg) 0 bytes;
  let p := p + KR_CLIENTID_LEN in
  src ← number_at msghead p KR_DATASRC_LEN;
  let p := p + KR_DATASRC_LEN in
  len ← number_at msghead p KR_MSGLEN_LEN;
  Ok (mkMessage (fd krmsg) ty id sid cid src len (msgbuf krmsg)).

(** The formats [%4d] and [%16s]: blanks on the left. *)
Definition pad (n : Z) (l : list Z) : list Z := replicate (Z.to_nat n - length l) 32 ++ l.
Definition print_d (n z : Z) : list Z := pad n (string_bytes (pretty z)).
Definition print_s (n : Z) (l : list Z) : list Z := pad n (cut_null l).

(** An empty name is printed as a dash. *)
Definition dashed (l : list Z) : list Z := match l with 0 :: l' => 45 :: l' | _ => l end.
Definition head_text (krmsg : T_KRMessage) : list Z :=
  print_d KR_MSGTYPE_LEN (msgtype krmsg) ++ print_s KR_MSGID_LEN (msgid krmsg) ++
  print_s KR_SERVERID_LEN (serverid krmsg) ++ print_s KR_CLIENTID_LEN (clientid krmsg) ++
  print_d KR_DATASRC_LEN (datasrc krmsg) ++ print_d KR_MSGLEN_LEN (msglen krmsg).

(** The message, whose names are changed, and the array that [snprintf] fills. *)
Definition kr_message_head_dump (krmsg : T_KRMessage) : T_KRMessage * list Z :=
  let krmsg := mkMessage (fd krmsg) (msgtype krmsg) (dashed (msgid krmsg)) (dashed (serverid krmsg))
                 (dashed (clientid krmsg)) (datasrc krmsg) (msglen krmsg) (msgbuf krmsg) in
  (krmsg, take (Z.to_nat KR_MSGHEADER_LEN) (head_text krmsg) ++ [0]).

(** * Reading and writing *)

(** The body is read when the header is complete; its array has the length the header
    tells. *)
Definition kr_message_read (fd : Z) (k : socket) : res (option T_KRMessage * socket) :=
  r ← net_read k KR_MSGHEADER_LEN;
  let '(readLen, got, k) := r in
  msghead ← memcpy (zero_bytes (KR_MSGHEADER_LEN + 1)) 0 got;
  if readLen <=? 0 then Ok (None, k)
  else
    let krmsg := kr_message_alloc in
    let krmsg := mkMessage fd (msgtype krmsg) (msgid krmsg) (serverid krmsg) (clientid krmsg) (datasrc krmsg)
                   (msglen krmsg) (msgbuf krmsg) in
    krmsg ← kr_message_head_parse msghead krmsg;
    if (readLen =? KR_MSGHEADER_LEN) && (0 <? msglen krmsg) then
      r ← net_read k (msglen krmsg);
      let '(readLen, got, k) := r in
      if negb (readLen =? msglen krmsg) then Ok (None, k)
      else Ok (Some (mkMessage fd (msgtype krmsg) (msgid krmsg) (serverid krmsg) (clientid krmsg) (datasrc krmsg)
                       (msglen krmsg) (Some got)), k)
    else Ok (Some krmsg, k).

(** [write] from [NULL] is an error of the call. *)
Definition kr_message_write (k : socket) (krmsg : T_KRMessage) : res (Z * T_KRMessage * socket) :=
  let '(krmsg, msghead) := kr_message_head_dump krmsg in
  w ← net_write k msghead KR_MSGHEADER_LEN;
  let '(writeLen, k) := w in
  if writeLen <? 0 then Ok (-1, krmsg, k)
  else if writeLen =? 0 then Ok (0, krmsg, k)
  else if (writeLen =? KR_MSGHEADER_LEN) && (0 <? msglen krmsg) then
    w ← match msgbuf krmsg with
        | Some b => net_write k b (msglen krmsg)
        | None => Ok (-1, k)
        end;
    let '(writeLen, k) := w in
    Ok (if negb (writeLen =? msglen krmsg) then -1 else writeLen, krmsg, k)
  else Ok (writeLen, krmsg, k).

(** * What is on the network *)

Definition int_fits (z : Z) : Prop := -999 <= z <= 9999.
Definition name_fits (n : Z) (l : list Z) : Prop :=
  size_of l = n + 1 /\ size_of (cut_null (dashed l)) <= n.

(** A message whose fields have the widths of the header, with its body. *)
Record header_fits (m : T_KRMessage) : Prop := {
  hf_type : int_fits (msgtype m);
  hf_msgid : name_fits KR_MSGID_LEN (msgid m);
  hf_serverid : name_fits KR_SERVERID_LEN (serverid m);
  hf_clientid : name_fits KR_CLIENTID_LEN (clientid m);
  hf_datasrc : int_fits (datasrc m)
}.
Definition body_of (m : T_KRMessage) : list Z :=
  match msgbuf m with Some b => take (Z.to_nat (msglen m)) b | None => [] end.
Definition body_ok (m : T_KRMessage) : Prop :=
  0 < msglen m -> exists b, msgbuf m = Some b /\ msglen m <= size_of b.

Definition wire_head (m : T_KRMessage) : list Z := head_text (kr_message_head_dump m).1.
Definition wire (m : T_KRMessage) : list Z := wire_head m ++ body_of m.

(** What the reader makes of it. *)
Definition field (n : Z) (l : list Z) : list Z := print_s n (dashed l) ++ [0].
Definition passed (fd : Z) (m : T_KRMessage) : T_KRMessage :=
  mkMessage fd (msgtype m) (field KR_MSGID_LEN (msgid m)) (field KR_SERVERID_LEN (serverid m))
    (field KR_CLIENTID_LEN (clientid m)) (datasrc m) (msglen m)
    (if 0 <? msglen m then Some (body_of m) else None).

(** ** Numbers *)

Definition number_check (z : Z) : bool :=
  let t := print_d 4 z in
  (length t =? 4)%nat && forallb (fun b => negb (b =? 0)) t && (atoi (bytes_string t) =? z).
Lemma numbers_checked : forallb (fun n => number_check (Z.of_nat n - 999)) (seq 0 (Z.to_nat 10999)) = true.
Proof. vm_compute. reflexivity. Qed.
Lemma number_printed z : int_fits z -> number_check z = true.
Proof.
  intros Hz. unfold int_fits in Hz. pose proof numbers_checked as Hall. rewrite forallb_forall in Hall.
  specialize (Hall (Z.to_nat (z + 999))). rewrite Z2Nat.id in Hall by lia.
  replace (z + 999 - 999) with z in Hall by lia. apply Hall, in_seq. lia.
Qed.
Lemma print_d_spec z : int_fits z ->
  size_of (print_d 4 z) = 4 /\ Forall (fun b => b <> 0) (print_d 4 z) /\ atoi (bytes_string (print_d 4 z)) = z.
Proof.
  intros [[Hl Hz]%andb_true_iff Ha]%number_printed%andb_true_iff. apply Nat.eqb_eq in Hl. apply Z.eqb_eq in Ha.
  split_and!; [unfold size_of; by rewrite Hl| |done]. rewrite forallb_forall in Hz. apply Forall_forall.
  intros b Hb ->. apply list_elem_of_In, Hz in Hb. done.
Qed.

Lemma cut_null_zeros l n : Forall (fun b => b <> 0) l -> cut_null (l ++ replicate n 0) = l.
Proof.
  intros Hl. destruct n as [|n].
  - rewrite app_nil_r. induction Hl as [|b l Hb _ IH]; [done|]. cbn [cut_null]. by rewrite (proj2 (Z.eqb_neq _ _) Hb), IH.
  - induction Hl as [|b l Hb _ IH]; [done|]. cbn [cut_null app]. by rewrite (proj2 (Z.eqb_neq _ _) Hb), IH.
Qed.
Lemma cut_null_nonzero l : Forall (fun b => b <> 0) (cut_null l).
Proof.
  induction l as [|b l IH]; [constructor|]. cbn [cut_null]. destruct (Z.eqb_spec b 0); [constructor|by constructor].
Qed.
Lemma cut_null_dashed l : Forall (fun b => b <> 0) (cut_null (dashed l)).
Proof. apply cut_null_nonzero. Qed.

Lemma number_at_spec a z c off : size_of a = off -> int_fits z -> number_at (a ++ print_d 4 z ++ c) off 4 = Ok z.
Proof.
  intros Ha Hz. destruct (print_d_spec z Hz) as (Hl & Hn & Hv). unfold number_at.
  rewrite (mem_read_eq _ a (print_d 4 z) c off 4) by done. cbn [mbind res_bind].
  rewrite (memcpy_eq (zero_bytes (KR_MSGHEADER_LEN + 1)) [] (zero_bytes 4) (zero_bytes 77)) by (by rewrite ?Hl).
  cbn [mbind res_bind app]. unfold c_text, zero_bytes. rewrite cut_null_zeros by done. by rewrite Hv.
Qed.

(** ** Names *)

Lemma size_of_pad n l : 0 <= n -> size_of l <= n -> size_of (pad n l) = n.
Proof. intros Hn Hl. unfold pad, size_of in *. rewrite length_app, length_replicate. lia. Qed.
Lemma field_spec n l : 0 < n -> name_fits n l ->
  size_of (print_s n (dashed l)) = n /\ Forall (fun b => b <> 0) (print_s n (dashed l)) /\
  size_of (field n l) = n + 1 /\ dashed (field n l) = field n l /\ cut_null (field n l) = print_s n (dashed l).
Proof.
  intros Hn [Hl Hs]. assert (Hsize : size_of (print_s n (dashed l)) = n) by (apply size_of_pad; lia).
  assert (Hnz : Forall (fun b => b <> 0) (print_s n (dashed l))).
  { apply Forall_app. split; [by apply Forall_replicate|apply cut_null_nonzero]. }
  split_and!; try done.
  - unfold field. rewrite size_of_app, Hsize. done.
  - unfold field. destruct (print_s n (dashed l)) as [|b t]; [unfold size_of in Hsize; cbn in Hsize; lia|].
    inversion Hnz as [|? ? Hb _]; subst. cbn [app dashed]. by destruct b.
  - by apply (cut_null_zeros _ 1).
Qed.
Lemma print_s_field n l : 0 < n -> name_fits n l -> print_s n (dashed (field n l)) = print_s n (dashed l).
Proof.
  intros Hn Hl. destruct (field_spec n l Hn Hl) as (Hs & _ & _ & -> & Hc). unfold print_s at 1. rewrite Hc.
  unfold pad. rewrite (proj2 (Nat.sub_0_le _ _)); [done|]. unfold size_of in Hs. lia.
Qed.
Lemma field_fits n l : 0 < n -> name_fits n l -> name_fits n (field n l).
Proof.
  intros Hn Hl. destruct (field_spec n l Hn Hl) as (Hs & _ & Hf & Hd & Hc). split; [done|]. rewrite Hd, Hc. lia.
Qed.

(** A name copied from the header into its array of zeros. *)
Lemma name_at_spec n a l c off : 0 < n -> size_of a = off -> name_fits n l ->
  (bytes ← mem_read (a ++ print_s n (dashed l) ++ c) off n; memcpy (zero_bytes (n + 1)) 0 bytes) = Ok (field n l).
Proof.
  intros Hn Ha Hl. destruct (field_spec n l Hn Hl) as (Hs & _).
  rewrite (mem_read_eq _ a (print_s n (dashed l)) c off n) by done. cbn [mbind res_bind].
  rewrite (memcpy_eq (zero_bytes (n + 1)) [] (zero_bytes n) (zero_bytes 1)); [done|by rewrite <- zero_bytes_app by lia|done|].
  rewrite size_of_zero_bytes; lia.
Qed.

(** ** The header, parsed *)

Lemma head_parse_spec fd0 ty id sid cid src len rest :
  int_fits ty -> name_fits KR_MSGID_LEN id -> name_fits KR_SERVERID_LEN sid -> name_fits KR_CLIENTID_LEN cid ->
  int_fits src -> int_fits len ->
  kr_message_head_parse
    (print_d KR_MSGTYPE_LEN ty ++ print_s KR_MSGID_LEN (dashed id) ++ print_s KR_SERVERID_LEN (dashed sid) ++
     print_s KR_CLIENTID_LEN (dashed cid) ++ print_d KR_DATASRC_LEN src ++ print_d KR_MSGLEN_LEN len ++ rest)
    (mkMessage fd0 0 (zero_bytes 17) (zero_bytes 27) (zero_bytes 27) 0 0 None) =
  Ok (mkMessage fd0 ty (field KR_MSGID_LEN id) (field KR_SERVERID_LEN sid) (field KR_CLIENTID_LEN cid) src len None).
Proof.
  intros Hty Hid Hsid Hcid Hsrc Hlen.
  destruct (print_d_spec ty Hty) as (Ht & _). destruct (print_d_spec src Hsrc) as (Hs & _).
  destruct (field_spec KR_MSGID_LEN id ltac:(done) Hid) as (Hi & _).
  destruct (field_spec KR_SERVERID_LEN sid ltac:(done) Hsid) as (Hsi & _).
  destruct (field_spec KR_CLIENTID_LEN cid ltac:(done) Hcid) as (Hci & _).
  unfold KR_MSGTYPE_LEN, KR_DATASRC_LEN, KR_MSGLEN_LEN in *.
  set (A := print_d 4 ty) in *. set (B := print_s KR_MSGID_LEN (dashed id)) in *.
  set (C := print_s KR_SERVERID_LEN (dashed sid)) in *. set (D := print_s KR_CLIENTID_LEN (dashed cid)) in *.
  set (E := print_d 4 src) in *.
  unfold kr_message_head_parse, KR_MSGTYPE_LEN, KR_DATASRC_LEN, KR_MSGLEN_LEN. cbn [msgid serverid clientid fd msgbuf].
  set (L := _ ++ _).
  assert (E1 : number_at L 0 4 = Ok ty) by (by apply (number_at_spec [])). rewrite E1. cbn [mbind res_bind].
  pose proof (name_at_spec KR_MSGID_LEN A id (C ++ D ++ E ++ print_d 4 len ++ rest) (0 + 4) ltac:(done) Ht Hid) as E2.
  change (mem_read _ (0 + 4) KR_MSGID_LEN) with (mem_read L (0 + 4) KR_MSGID_LEN) in E2.
  destruct (mem_read L (0 + 4) KR_MSGID_LEN) as [b2|]; [|done]. cbn [mbind res_bind] in E2 |- *.
  change (KR_MSGID_LEN + 1) with 17 in E2. rewrite E2. cbn [mbind res_bind].
  pose proof (name_at_spec KR_SERVERID_LEN (A ++ B) sid (D ++ E ++ print_d 4 len ++ rest) (0 + 4 + KR_MSGID_LEN) ltac:(done)
    ltac:(rewrite size_of_app; unfold KR_MSGID_LEN in *; lia) Hsid) as E3.
  rewrite <- app_assoc in E3. change (mem_read _ (0 + 4 + KR_MSGID_LEN) KR_SERVERID_LEN) with (mem_read L (0 + 4 + KR_MSGID_LEN) KR_SERVERID_LEN) in E3.
  destruct (mem_read L (0 + 4 + KR_MSGID_LEN) KR_SERVERID_LEN) as [b3|]; [|done]. cbn [mbind res_bind] in E3 |- *.
  change (KR_SERVERID_LEN + 1) with 27 in E3. rewrite E3. cbn [mbind res_bind].
  set (off := 0 + 4 + KR_MSGID_LEN + KR_SERVERID_LEN).
  pose proof (name_at_spec KR_CLIENTID_LEN (A ++ B ++ C) cid (E ++ print_d 4 len ++ rest) off ltac:(done)
    ltac:(rewrite !size_of_app; unfold off, KR_MSGID_LEN, KR_SERVERID_LEN in *; lia) Hcid) as E4.
  rewrite <- !app_assoc in E4. change (mem_read _ off KR_CLIENTID_LEN) with (mem_read L off KR_CLIENTID_LEN) in E4.
  destruct (mem_read L off KR_CLIENTID_LEN) as [b4|]; [|done]. cbn [mbind res_bind] in E4 |- *.
  change (KR_CLIENTID_LEN + 1) with 27 in E4. rewrite E4. cbn [mbind res_bind].
  assert (E5 : number_at L (off + KR_CLIENTID_LEN) 4 = Ok src).
  { replace L with ((A ++ B ++ C ++ D) ++ E ++ print_d 4 len ++ rest) by (unfold L; by rewrite <- !app_assoc).
    apply number_at_spec; [|done]. rewrite !size_of_app. unfold off, KR_MSGID_LEN, KR_SERVERID_LEN, KR_CLIENTID_LEN in *. lia. }
  rewrite E5. cbn [mbind res_bind].
  assert (E6 : number_at L (off + KR_CLIENTID_LEN + 4) 4 = Ok len).
  { replace L with ((A ++ B ++ C ++ D ++ E) ++ print_d 4 len ++ rest) by (unfold L; by rewrite <- !app_assoc).
    apply number_at_spec; [|done]. rewrite !size_of_app. unfold off, KR_MSGID_LEN, KR_SERVERID_LEN, KR_CLIENTID_LEN in *. lia. }
  by rewrite E6.
Qed.

(** The text of a header before its last field. *)
Definition head_front (m : T_KRMessage) : list Z :=
  print_d KR_MSGTYPE_LEN (msgtype m) ++ print_s KR_MSGID_LEN (dashed (msgid m)) ++
  print_s KR_SERVERID_LEN (dashed (serverid m)) ++ print_s KR_CLIENTID_LEN (dashed (clientid m)) ++
  print_d KR_DATASRC_LEN (datasrc m).
Lemma wire_head_front m : wire_head m = head_front m ++ print_d KR_MSGLEN_LEN (msglen m).
Proof. unfold wire_head, head_front, head_text, kr_message_head_dump. cbn. by rewrite <- !app_assoc. Qed.
Lemma size_of_front m : header_fits m -> size_of (head_front m) = 76.
Proof.
  intros [Hty Hid Hsid Hcid Hsrc]. unfold head_front, KR_MSGTYPE_LEN, KR_DATASRC_LEN. rewrite !size_of_app.
  rewrite (proj1 (print_d_spec _ Hty)), (proj1 (print_d_spec _ Hsrc)).
  by rewrite (proj1 (field_spec KR_MSGID_LEN _ ltac:(done) Hid)), (proj1 (field_spec KR_SERVERID_LEN _ ltac:(done) Hsid)),
    (proj1 (field_spec KR_CLIENTID_LEN _ ltac:(done) Hcid)).
Qed.
Lemma head_dump_spec m : header_fits m ->
  (kr_message_head_dump m).2 = head_front m ++ take 4 (print_d KR_MSGLEN_LEN (msglen m)) ++ [0].
Proof.
  intros Hm. pose proof (size_of_front m Hm) as Hf. change (kr_message_head_dump m).2 with (take 80 (wire_head m) ++ [0]).
  rewrite wire_head_front. unfold size_of in Hf. rewrite take_app, (take_ge (head_front m)) by lia.
  replace (80 - length (head_front m))%nat with 4%nat by lia. by rewrite <- app_assoc.
Qed.

(** * Messages are passed on *)

(** A message as the sender keeps it: the names are dashed where they were empty. *)
Definition sent (m : T_KRMessage) : T_KRMessage := (kr_message_head_dump m).1.

Lemma net_write_all k a b n :
  ready (s_writes k) n -> size_of a <= n ->
  exists w, net_write k (a ++ b) (size_of a) = Ok (size_of a, mkSocket (s_in k) (s_out k ++ a) w) /\
    ready w (n - size_of a).
Proof.
  intros Hr Ha. unfold net_write.
  destruct (kr_net_write_all (S (length (s_writes k))) (s_writes k) [] [] a b n) as (w & E & Hw); [done|done|lia|].
  rewrite size_of_nil, Z.add_0_l in E. cbn [app] in E. rewrite E. by exists w.
Qed.

(** The header that is written: what does not fit is cut at its end. *)
Definition cut_head (m : T_KRMessage) : list Z := head_front m ++ take 4 (print_d KR_MSGLEN_LEN (msglen m)).
Lemma size_of_cut_head m : header_fits m -> size_of (cut_head m) = KR_MSGHEADER_LEN.
Proof.
  intros Hm. unfold cut_head. rewrite size_of_app, size_of_front by done. unfold size_of. rewrite length_take.
  unfold print_d, pad, KR_MSGLEN_LEN. rewrite length_app, length_replicate. unfold KR_MSGHEADER_LEN. lia.
Qed.
Lemma cut_head_fits m : int_fits (msglen m) -> cut_head m = wire_head m.
Proof.
  intros Hl. destruct (print_d_spec _ Hl) as (Hs & _). unfold cut_head. rewrite take_ge; [by rewrite wire_head_front|].
  unfold size_of, KR_MSGLEN_LEN in *. lia.
Qed.

(** The header and the body are written whole. *)
Lemma message_write_spec k m :
  header_fits m -> body_ok m -> ready (s_writes k) (KR_MSGHEADER_LEN + Z.max 0 (msglen m)) ->
  exists w n, kr_message_write k m = Ok (n, sent m, mkSocket (s_in k) (s_out k ++ cut_head m ++ body_of m) w) /\ 0 < n.
Proof.
  intros Hm Hbody Hr1. pose proof (size_of_cut_head m Hm) as Hh.
  unfold kr_message_write. rewrite (surjective_pairing (kr_message_head_dump m)), head_dump_spec, app_assoc by done.
  fold (cut_head m).
  destruct (net_write_all k (cut_head m) [0] _ Hr1) as (w & E & Hw); [lia|]. rewrite Hh in E. rewrite E.
  cbn [mbind res_bind]. change (KR_MSGHEADER_LEN <? 0) with false. change (KR_MSGHEADER_LEN =? 0) with false.
  change (KR_MSGHEADER_LEN =? KR_MSGHEADER_LEN) with true. cbn [andb].
  change (msglen (kr_message_head_dump m).1) with (msglen m). change (msgbuf (kr_message_head_dump m).1) with (msgbuf m).
  unfold body_of. destruct (Z.ltb_spec 0 (msglen m)) as [Hpos|Hneg].
  - destruct (Hbody Hpos) as (b & Eb & Hb). rewrite Eb.
    assert (Hs : size_of (take (Z.to_nat (msglen m)) b) = msglen m) by (apply size_of_take; lia).
    set (k1 := mkSocket _ _ w).
    destruct (net_write_all k1 (take (Z.to_nat (msglen m)) b) (drop (Z.to_nat (msglen m)) b) _ Hw) as (w' & E' & _).
    { rewrite Hs, Hh. lia. }
    rewrite take_drop, Hs in E'. rewrite E'. cbn [mbind res_bind]. rewrite Z.eqb_refl. cbn [negb].
    exists w', (msglen m). split; [|done]. unfold k1. cbn [s_in s_out]. by rewrite <- app_assoc.
  - exists w, KR_MSGHEADER_LEN. split; [|done].
    assert ((match msgbuf m with Some b => take (Z.to_nat (msglen m)) b | None => [] end) = []) as ->.
    { destruct (msgbuf m); [|done]. by replace (Z.to_nat (msglen m)) with 0%nat by lia. }
    by rewrite app_nil_r.
Qed.

(** What is read of a header that ends with [len], and of the bytes that follow it. *)
Definition read_as (fd : Z) (m : T_KRMessage) (len : Z) (b : list Z) : T_KRMessage :=
  mkMessage fd (msgtype m) (field KR_MSGID_LEN (msgid m)) (field KR_SERVERID_LEN (serverid m))
    (field KR_CLIENTID_LEN (clientid m)) (datasrc m) len (if 0 <? len then Some b else None).
Lemma message_read_spec fd0 k m len b z :
  header_fits m -> int_fits len -> size_of b = Z.max 0 len -> sound (s_in k) ->
  bytes_of (s_in k) = (head_front m ++ print_d KR_MSGLEN_LEN len) ++ b ++ z ->
  exists k', kr_message_read fd0 k = Ok (Some (read_as fd0 m len b), k') /\ bytes_of (s_in k') = z /\ sound (s_in k') /\
    s_out k' = s_out k /\ s_writes k' = s_writes k.
Proof.
  intros Hm Hlen Hs' Hs Hb. pose proof (size_of_front m Hm) as Hf. destruct (print_d_spec _ Hlen) as (Hl & _).
  set (h := head_front m ++ print_d KR_MSGLEN_LEN len) in *.
  assert (Hh : size_of h = KR_MSGHEADER_LEN) by (unfold h, KR_MSGLEN_LEN; rewrite size_of_app, Hf, Hl; done).
  destruct (net_read_all k h (b ++ z) Hs Hb) as (k1 & E1 & Hs1 & Hb1 & Ho1 & Hw1); [by rewrite Hh|].
  unfold kr_message_read. rewrite Hh in E1. rewrite E1. cbn [mbind res_bind].
  rewrite (memcpy_eq (zero_bytes (KR_MSGHEADER_LEN + 1)) [] (zero_bytes 80) [0]) by (by rewrite ?Hh).
  cbn [mbind res_bind]. change (KR_MSGHEADER_LEN <=? 0) with false.
  assert (Hp : kr_message_head_parse ([] ++ h ++ [0]) (mkMessage fd0 0 (zero_bytes 17) (zero_bytes 27) (zero_bytes 27) 0 0 None) =
    Ok (mkMessage fd0 (msgtype m) (field KR_MSGID_LEN (msgid m)) (field KR_SERVERID_LEN (serverid m))
          (field KR_CLIENTID_LEN (clientid m)) (datasrc m) len None)).
  { unfold h, head_front. rewrite <- !app_assoc. destruct Hm. by apply head_parse_spec. }
  cbn [kr_message_alloc msgtype msgid serverid clientid datasrc msglen msgbuf].
  change (zero_bytes (KR_MSGID_LEN + 1)) with (zero_bytes 17). change (zero_bytes (KR_SERVERID_LEN + 1)) with (zero_bytes 27).
  change (zero_bytes (KR_CLIENTID_LEN + 1)) with (zero_bytes 27). rewrite Hp. cbn [mbind res_bind msglen].
  change (KR_MSGHEADER_LEN =? KR_MSGHEADER_LEN) with true. cbn [andb]. unfold read_as.
  destruct (Z.ltb_spec 0 len) as [Hpos|Hneg].
  - unfold int_fits in Hlen. replace (Z.max 0 len) with len in Hs' by lia.
    destruct (net_read_all k1 b z Hs1 Hb1) as (k2 & E2 & Hs2 & Hb2 & Ho2 & Hw2); [lia|].
    rewrite Hs' in E2. rewrite E2. cbn [mbind res_bind]. rewrite Z.eqb_refl. cbn [negb].
    exists k2. split_and!; [done..| |]; congruence.
  - exists k1. split_and!; try done. rewrite Hb1. destruct b; [done|]. rewrite size_of_cons in Hs'. pose proof (size_of_nonneg b). lia.
Qed.

Lemma body_size m : body_ok m -> size_of (body_of m) = Z.max 0 (msglen m).
Proof.
  intros Hb. unfold body_of. destruct (Z.ltb_spec 0 (msglen m)) as [Hpos|Hneg].
  - destruct (Hb Hpos) as (b & -> & Hs). rewrite size_of_take; lia.
  - destruct (msgbuf m); [replace (Z.to_nat (msglen m)) with 0%nat by lia|]; unfold size_of; rewrite ?take_0; cbn [List.length]; lia.
Qed.

Lemma passed_fits fd0 m : header_fits m -> header_fits (passed fd0 m).
Proof. intros [Hty Hid Hsid Hcid Hsrc]. by constructor; cbn; [|apply field_fits..|]. Qed.
Lemma passed_wire fd0 m : header_fits m -> body_ok m ->
  head_front (passed fd0 m) = head_front m /\ body_of (passed fd0 m) = body_of m /\ body_ok (passed fd0 m) /\
  sent (passed fd0 m) = passed fd0 m.
Proof.
  intros [Hty Hid Hsid Hcid Hsrc] Hb. pose proof (body_size m Hb) as Hs. split_and!.
  - unfold head_front, passed. cbn [msgtype msgid serverid clientid datasrc]. by rewrite !print_s_field by done.
  - unfold passed. unfold body_of at 1. cbn [msgbuf msglen]. destruct (Z.ltb_spec 0 (msglen m)) as [Hpos|Hneg].
    + apply take_ge. unfold size_of in Hs. lia.
    + destruct (body_of m); [done|]. rewrite size_of_cons in Hs. pose proof (size_of_nonneg l). lia.
  - unfold body_ok, passed. cbn [msgbuf msglen]. intros Hpos. rewrite (proj2 (Z.ltb_lt _ _) Hpos).
    exists (body_of m). split; [done|]. lia.
  - unfold sent, kr_message_head_dump, passed. cbn.
    destruct (field_spec KR_MSGID_LEN _ ltac:(done) Hid) as (_ & _ & _ & -> & _).
    destruct (field_spec KR_SERVERID_LEN _ ltac:(done) Hsid) as (_ & _ & _ & -> & _).
    by destruct (field_spec KR_CLIENTID_LEN _ ltac:(done) Hcid) as (_ & _ & _ & -> & _).
Qed.

(** C22. A message whose fields have the widths of the header is read as it was written, with
    its names padded, however the network cuts it; and written again it is the same bytes, so
    that the coordinator passes messages on unchanged. *)
Theorem kr_message_relayed fd0 k k2 k3 m z :
  header_fits m -> int_fits (msglen m) -> body_ok m ->
  ready (s_writes k) (KR_MSGHEADER_LEN + Z.max 0 (msglen m)) ->
  ready (s_writes k3) (KR_MSGHEADER_LEN + Z.max 0 (msglen m)) ->
  sound (s_in k2) -> bytes_of (s_in k2) = wire m ++ z ->
  exists w n k2' w3 n3,
    kr_message_write k m = Ok (n, sent m, mkSocket (s_in k) (s_out k ++ wire m) w) /\ 0 < n /\
    kr_message_read fd0 k2 = Ok (Some (passed fd0 m), k2') /\ bytes_of (s_in k2') = z /\
    kr_message_write k3 (passed fd0 m) = Ok (n3, passed fd0 m, mkSocket (s_in k3) (s_out k3 ++ wire m) w3) /\ 0 < n3.
Proof.
  intros Hm Hlen Hb Hr Hr3 Hs Hin. pose proof (cut_head_fits m Hlen) as Hc. unfold wire in *. rewrite <- app_assoc in Hin.
  destruct (message_write_spec k m Hm Hb Hr) as (w & n & E & Hn). rewrite Hc in E.
  destruct (message_read_spec fd0 k2 m (msglen m) (body_of m) z Hm Hlen (body_size m Hb) Hs) as (k2' & E2 & Hz & _).
  { by rewrite <- wire_head_front. }
  destruct (passed_wire fd0 m Hm Hb) as (Hf & Hbo & Hbok & Hsent).
  destruct (message_write_spec k3 (passed fd0 m) (passed_fits fd0 m Hm) Hbok Hr3) as (w3 & n3 & E3 & Hn3).
  rewrite Hbo, Hsent, cut_head_fits, (wire_head_front (passed fd0 m)), Hf in E3 by done.
  change (msglen (passed fd0 m)) with (msglen m) in E3. rewrite <- wire_head_front in E3.
  exists w, n, k2', w3, n3. by split_and!.
Qed.

(** ** A length of five digits *)

Lemma pretty_go_app x : forall s, pretty_N_go x s = (pretty_N_go x "" ++ s)%string.
Proof.
  induction (N.lt_wf_0 x) as [x _ IH]. intros s. destruct (decide (0 < x)%N) as [Hx|Hx].
  - rewrite (pretty_N_go_step x s), (pretty_N_go_step x "") by done.
    rewrite (IH (x / 10)%N (N.div_lt x 10 Hx eq_refl) (String _ s)).
    rewrite (IH (x / 10)%N (N.div_lt x 10 Hx eq_refl) (String _ "")). by rewrite string_app_assoc.
  - assert (x = 0%N) as -> by lia. by rewrite !pretty_N_go_0.
Qed.
Lemma pretty_digit n : 10 <= n -> exists c, string_bytes (pretty n) = string_bytes (pretty (n / 10)) ++ [c].
Proof.
  intros Hn. assert (H : forall n : N, (10 <= n)%N -> exists c, string_bytes (pretty n) = string_bytes (pretty (n / 10)%N) ++ [c]).
  { clear n Hn. intros n Hn. assert (0 < n)%N by lia. unfold pretty, pretty_N. rewrite decide_False by lia.
    rewrite decide_False by (pose proof (N.div_le_lower_bound n 10 1); lia).
    rewrite pretty_N_go_step, pretty_go_app by done. exists (uchar (pretty_N_char (n mod 10))).
    assert (Happ : forall a c, string_bytes (a ++ String c "") = string_bytes a ++ [uchar c]).
    { intros a c. induction a as [|x a IH]; simpl; [by rewrite nat_of_ascii_uchar|]. by rewrite IH. }
    apply Happ. }
  destruct (H (Z.to_N n) ltac:(lia)) as [c Hc]. exists c.
  assert (Hp : forall z, 0 <= z -> pretty z = pretty (Z.to_N z)) by (intros [|p|p] ?; [done|done|lia]).
  rewrite !Hp by (try apply Z.div_pos; lia). by rewrite Hc, Z2N.inj_div by lia.
Qed.
Lemma four_digits_checked :
  forallb (fun n => (length (string_bytes (pretty (Z.of_nat n + 1000)%Z)) =? 4)%nat) (seq 0 (Z.to_nat 9000)) = true.
Proof. vm_compute. reflexivity. Qed.
Lemma print_four n : 1000 <= n < 10000 -> print_d 4 n = string_bytes (pretty n) /\ length (string_bytes (pretty n)) = 4%nat.
Proof.
  intros Hn. pose proof four_digits_checked as Hall. rewrite forallb_forall in Hall. specialize (Hall (Z.to_nat (n - 1000))).
  rewrite Z2Nat.id in Hall by lia. replace (n - 1000 + 1000) with n in Hall by lia.
  specialize (Hall ltac:(apply in_seq; lia)). apply Nat.eqb_eq in Hall. split; [|done].
  unfold print_d, pad. by rewrite Hall.
Qed.
(** The four characters that are left of a longer number, and the number they are. *)
Lemma long_digits n : 10000 <= n -> exists k, 1 <= k /\ 1000 <= n / 10 ^ k < 10000 /\
  exists rest, string_bytes (pretty n) = print_d 4 (n / 10 ^ k) ++ rest /\ (1 <= length rest)%nat.
Proof.
  induction (Z.lt_wf 0 n) as [n _ IH]. intros Hn. destruct (pretty_digit n) as [c Hc]; [lia|].
  destruct (Z.lt_ge_cases (n / 10) 10000) as [Hq|Hq].
  - assert (1000 <= n / 10) by (apply Z.div_le_lower_bound; lia). exists 1. change (10 ^ 1) with 10.
    destruct (print_four (n / 10)) as [-> _]; [lia|]. split; [lia|]. split; [lia|]. by exists [c].
  - destruct (IH (n / 10)) as (k & Hk & Hr & rest & E & _); [split; [lia|by apply Z.div_lt; lia]|done|].
    rewrite Z.div_div, <- Z.pow_succ_r, <- Z.add_1_l in Hr, E by lia. exists (1 + k). split; [lia|]. split; [done|].
    exists (rest ++ [c]). rewrite Hc, E, app_assoc. split; [done|]. rewrite length_app. simpl. lia.
Qed.
Lemma long_length_cut n : 10000 <= n -> exists k, 1 <= k /\ 1000 <= n / 10 ^ k < 10000 /\
  take 4 (print_d 4 n) = print_d 4 (n / 10 ^ k).
Proof.
  intros Hn. destruct (long_digits n Hn) as (k & Hk & Hr & rest & E & _). exists k. split; [done|]. split; [done|].
  destruct (print_four _ Hr) as [E4 Hl]. unfold print_d at 1, pad. rewrite E, E4.
  rewrite (proj2 (Nat.sub_0_le _ _)) by (rewrite length_app, Hl; lia). cbn [replicate app]. by rewrite take_app_length'.
Qed.

(** C40. A body of ten thousand bytes or more is not passed on: its length does not fit the
    field of four characters and is cut to its first four digits, and the reader takes as many
    bytes as these say (a tenth, a hundredth, ... of the length) for the body, and the rest of
    it for the next message. *)
Theorem kr_message_long_body_cut fd0 k k2 m z :
  header_fits m -> 10000 <= msglen m -> body_ok m ->
  ready (s_writes k) (KR_MSGHEADER_LEN + msglen m) ->
  sound (s_in k2) ->
  exists d w n written, 1 <= d /\ 1000 <= msglen m / 10 ^ d < 10000 /\
    kr_message_write k m = Ok (n, sent m, mkSocket (s_in k) (s_out k ++ written) w) /\ 0 < n /\
    (bytes_of (s_in k2) = written ++ z ->
     exists k2', kr_message_read fd0 k2 = Ok (Some (read_as fd0 m (msglen m / 10 ^ d) (take (Z.to_nat (msglen m / 10 ^ d)) (body_of m))), k2') /\
       bytes_of (s_in k2') = drop (Z.to_nat (msglen m / 10 ^ d)) (body_of m) ++ z).
Proof.
  intros Hm Hlen Hb Hr Hs. replace (msglen m) with (Z.max 0 (msglen m)) in Hr by lia.
  destruct (message_write_spec k m Hm Hb Hr) as (w & n & E & Hn).
  destruct (long_length_cut _ Hlen) as (d & Hd & Hq & Hcut).
  exists d, w, n, (cut_head m ++ body_of m). split_and!; [lia..|done|done|]. intros Hin.
  pose proof (body_size m Hb) as Hsize.
  assert (msglen m / 10 ^ d <= msglen m) by (apply Z.div_le_upper_bound; [lia|]; pose proof (Z.pow_pos_nonneg 10 d); nia).
  destruct (message_read_spec fd0 k2 m (msglen m / 10 ^ d) (take (Z.to_nat (msglen m / 10 ^ d)) (body_of m))
    (drop (Z.to_nat (msglen m / 10 ^ d)) (body_of m) ++ z)) as (k2' & E2 & Hz & _); try done.
  - unfold int_fits. lia.
  - rewrite size_of_take by lia. lia.
  - rewrite Hin. unfold cut_head, KR_MSGLEN_LEN. rewrite Hcut.
    rewrite !app_assoc. f_equal. rewrite <- !app_assoc. f_equal. f_equal. by rewrite take_drop.
  - exists k2'. by split.
Qed.

(** * Messages as they are read *)

(** An array of bytes that ends with a null; a name without one, that it has room for. *)
Definition bytes (l : list Z) : Prop := Forall (fun b => 0 <= b < 256) l.
Definition array_ok (n : nat) (l : list Z) : Prop := exists a, l = a ++ [0] /\ length a = n /\ bytes a.
Definition name_ok (n : nat) (i : string) : Prop :=
  (String.length i <= n)%nat /\ Forall (fun b => b <> 0) (string_bytes i).

(** A body that is there has its length; a header that ends early has none. *)
Definition body_held (m : T_KRMessage) : Prop := forall b, msgbuf m = Some b -> msglen m <= size_of b.
Record message_ok (m : T_KRMessage) : Prop := {
  mo_msgid : array_ok 16 (msgid m);
  mo_serverid : array_ok 26 (serverid m);
  mo_clientid : array_ok 26 (clientid m);
  mo_type : int_fits (msgtype m);
  mo_datasrc : int_fits (datasrc m);
  mo_msglen : int_fits (msglen m);
  mo_body : body_held m
}.
Lemma cut_null_bytes l : bytes l -> bytes (cut_null l).
Proof. induction 1 as [|b l Hb _ IH]; cbn [cut_null]; [constructor|]. destruct (b =? 0); by constructor. Qed.
Lemma c_text_ok n l : array_ok n l -> name_ok n (c_text l).
Proof.
  intros (a & -> & <- & Ha). unfold c_text. split.
  - rewrite bytes_string_length. clear. induction a as [|b a IH]; [done|]. cbn [app cut_null]. destruct (b =? 0); cbn [List.length]; lia.
  - rewrite string_bytes_string; [apply cut_null_nonzero|]. apply cut_null_bytes, Forall_app. split; [done|]. by repeat constructor.
Qed.
Lemma c_text_name i l : Forall (fun b => b <> 0) (string_bytes i) -> c_text (string_bytes i ++ [0] ++ l) = i.
Proof.
  intros Hi. unfold c_text. assert (cut_null (string_bytes i ++ [0] ++ l) = string_bytes i) as ->; [|apply bytes_string_bytes].
  induction Hi as [|b t Hb _ IH]; [done|].
  change ((b :: t) ++ [0] ++ l) with (b :: (t ++ [0] ++ l)). cbn [cut_null]. by rewrite (proj2 (Z.eqb_neq _ _) Hb), IH.
Qed.

(** ** Numbers of four characters *)

Lemma digit_range c : numeric_char c = true -> 48 <= uchar c <= 57.
Proof. destruct c as [[] [] [] [] [] [] [] []]; vm_compute; (done || by intros [=]). Qed.
Lemma read_digits_bound s : forall acc n, 0 <= acc ->
  0 <= (read_digits acc n s).1.1 < (acc + 1) * 10 ^ Z.of_nat (String.length s).
Proof.
  induction s as [|c s IH]; intros acc n Hacc; cbn [read_digits String.length]; [cbn; lia|].
  assert (Hp : 0 < 10 ^ Z.of_nat (String.length s)) by (apply Z.pow_pos_nonneg; lia).
  rewrite Nat2Z.inj_succ, Z.pow_succ_r by lia. destruct (numeric_char c) eqn:Hc; [|cbn; nia].
  apply digit_range in Hc. specialize (IH (acc * 10 + (uchar c - 48)) (n + 1) ltac:(lia)).
  set (r := read_digits _ _ s) in *. set (q := 10 ^ _) in *. clearbody r q. nia.
Qed.
Lemma ltrim_length s : (String.length (kr_string_ltrim s) <= String.length s)%nat.
Proof. induction s as [|c s IH]; cbn; [done|]. destruct (isspace c); cbn in *; lia. Qed.
Lemma read_digits_short s k : (String.length s <= k)%nat -> 0 <= (read_digits 0 0 s).1.1 < 10 ^ Z.of_nat k.
Proof.
  intros Hs. pose proof (read_digits_bound s 0 0 ltac:(lia)) as H.
  assert (10 ^ Z.of_nat (String.length s) <= 10 ^ Z.of_nat k) by (apply Z.pow_le_mono_r; lia). lia.
Qed.
Lemma atoi_short s : (String.length s <= 4)%nat -> int_fits (atoi s).
Proof.
  intros Hs. assert (H : -999 <= atol s <= 9999).
  { assert (Hv : forall neg x, let v := (read_digits 0 0 x).1.1 in
      0 <= v <= 999 \/ neg = false /\ 0 <= v <= 9999 ->
      -999 <= (let '(v, _, _) := read_digits 0 0 x in Z.max LONG_MIN (Z.min LONG_MAX (if neg : bool then - v else v))) <= 9999).
    { intros neg x. destruct (read_digits 0 0 x) as [[v ?] ?]. cbn [fst]. unfold LONG_MIN, LONG_MAX. destruct neg; lia. }
    unfold atol, read_sign. pose proof (ltrim_length s) as Hl. destruct (kr_string_ltrim s) as [|c t]; [done|].
    cbn [String.length] in Hl. pose proof (read_digits_short t 3 ltac:(lia)) as H3.
    pose proof (read_digits_short (String c t) 4 ltac:(cbn; lia)) as H4. change (10 ^ Z.of_nat 3) with 1000 in H3.
    change (10 ^ Z.of_nat 4) with 10000 in H4.
    destruct (Ascii.eqb c "-"); [|destruct (Ascii.eqb c "+")]; [apply (Hv true)|apply (Hv false)..]; lia. }
  unfold int_fits, atoi. rewrite i32_small; unfold INT_MIN, INT_MAX; lia.
Qed.

(** ** Every socket *)

Lemma number_at_runs a b c off n : size_of a = off -> size_of b = n -> 0 <= n <= 4 ->
  exists z, number_at (a ++ b ++ c) off n = Ok z /\ int_fits z.
Proof.
  intros Ha Hb Hn. unfold number_at. rewrite (mem_read_eq _ a b c off n) by done. cbn [mbind res_bind].
  rewrite (memcpy_eq (zero_bytes (KR_MSGHEADER_LEN + 1)) [] (zero_bytes n) (zero_bytes (81 - n))); [| |done|].
  - eexists. split; [reflexivity|]. apply atoi_short. cbn [app]. unfold c_text. rewrite bytes_string_length.
    assert (H : (length (cut_null (b ++ zero_bytes (81 - n))) <= length b)%nat).
    { clear. induction b as [|x b IH]; [unfold zero_bytes; by destruct (Z.to_nat (81 - n))|]. cbn [app cut_null]. destruct (x =? 0); cbn [List.length]; lia. }
    unfold size_of in Hb. lia.
  - cbn [app]. rewrite <- zero_bytes_app by lia. f_equal. unfold KR_MSGHEADER_LEN. lia.
  - rewrite size_of_zero_bytes; lia.
Qed.
Lemma name_at_runs n a b c off k : size_of a = off -> size_of b = n -> n = Z.of_nat k -> bytes b ->
  exists l, (bytes ← mem_read (a ++ b ++ c) off n; memcpy (zero_bytes (n + 1)) 0 bytes) = Ok l /\ array_ok k l.
Proof.
  intros Ha Hb Hn Hby. rewrite (mem_read_eq _ a b c off n) by done. cbn [mbind res_bind].
  rewrite (memcpy_eq (zero_bytes (n + 1)) [] (zero_bytes n) (zero_bytes 1)); [|by rewrite <- zero_bytes_app by lia|done|].
  - eexists. split; [reflexivity|]. exists b. split_and!; [done| |done]. unfold size_of in Hb. lia.
  - rewrite size_of_zero_bytes; lia.
Qed.
Lemma cut_three (l : list Z) off n : 0 <= off -> 0 <= n -> off + n <= size_of l ->
  exists a b c, l = a ++ b ++ c /\ size_of a = off /\ size_of b = n.
Proof.
  intros Ho Hn Hl. exists (take (Z.to_nat off) l), (take (Z.to_nat n) (drop (Z.to_nat off) l)), (drop (Z.to_nat n) (drop (Z.to_nat off) l)).
  rewrite !take_drop. unfold size_of in *. rewrite !length_take, length_drop. split_and!; [done|lia..].
Qed.
Lemma number_runs l off : 0 <= off -> off + 4 <= size_of l -> exists z, number_at l off 4 = Ok z /\ int_fits z.
Proof. intros Ho Hl. destruct (cut_three l off 4 Ho ltac:(lia) Hl) as (a & b & c & -> & Ha & Hb). by apply number_at_runs. Qed.
Lemma name_runs l off k : bytes l -> 0 <= off -> off + Z.of_nat k <= size_of l -> exists r,
  (bytes ← mem_read l off (Z.of_nat k); memcpy (zero_bytes (Z.of_nat k + 1)) 0 bytes) = Ok r /\ array_ok k r.
Proof.
  intros Hby Ho Hl. destruct (cut_three l off (Z.of_nat k) Ho ltac:(lia) Hl) as (a & b & c & -> & Ha & Hb).
  apply Forall_app in Hby as [_ [Hby _]%Forall_app]. by apply name_at_runs.
Qed.

(** Whatever the header holds, it is parsed. *)
Lemma head_parse_runs l fd0 : bytes l -> size_of l = 81 ->
  exists m, kr_message_head_parse l (mkMessage fd0 0 (zero_bytes 17) (zero_bytes 27) (zero_bytes 27) 0 0 None) = Ok m /\ message_ok m.
Proof.
  intros Hby Hl. unfold kr_message_head_parse, KR_MSGTYPE_LEN, KR_MSGID_LEN, KR_SERVERID_LEN, KR_CLIENTID_LEN, KR_DATASRC_LEN, KR_MSGLEN_LEN.
  cbn [msgid serverid clientid fd msgbuf]. cbv zeta.
  destruct (number_runs l 0) as (ty & E1 & Hty); [lia..|]. rewrite E1. cbn [mbind res_bind].
  destruct (name_runs l (0 + 4) 16) as (id & E2 & Hid); [done|lia..|]. change (Z.of_nat 16) with 16 in E2. change (16 + 1) with 17 in E2.
  destruct (mem_read l (0 + 4) 16) as [b2|]; [|done]. cbn [mbind res_bind] in E2 |- *. rewrite E2. cbn [mbind res_bind].
  destruct (name_runs l (0 + 4 + 16) 26) as (sid & E3 & Hsid); [done|lia..|]. change (Z.of_nat 26) with 26 in E3. change (26 + 1) with 27 in E3.
  destruct (mem_read l (0 + 4 + 16) 26) as [b3|]; [|done]. cbn [mbind res_bind] in E3 |- *. rewrite E3. cbn [mbind res_bind].
  destruct (name_runs l (0 + 4 + 16 + 26) 26) as (cid & E4 & Hcid); [done|lia..|]. change (Z.of_nat 26) with 26 in E4. change (26 + 1) with 27 in E4.
  destruct (mem_read l (0 + 4 + 16 + 26) 26) as [b4|]; [|done]. cbn [mbind res_bind] in E4 |- *. rewrite E4. cbn [mbind res_bind].
  destruct (number_runs l (0 + 4 + 16 + 26 + 26)) as (src & E5 & Hsrc); [lia..|]. rewrite E5. cbn [mbind res_bind].
  destruct (number_runs l (0 + 4 + 16 + 26 + 26 + 4)) as (len & E6 & Hlen); [lia..|]. rewrite E6. cbn [mbind res_bind].
  eexists. split; [reflexivity|]. by constructor.
Qed.

Definition byte_input (s : list read_event) : Prop := Forall (fun e => match e with RBytes l => bytes l | _ => True end) s.

Lemma net_read_fuel fuel s : forall buf count totlen,
  bytes buf -> byte_input s -> (work s + List.length s < fuel)%nat -> totlen = size_of buf -> 0 <= totlen <= count -> count < 2 ^ 63 ->
  exists n got s', kr_net_read fuel s buf count totlen = Ok (n, got, s') /\ size_of got <= count /\ (n = -1 \/ n = size_of got) /\
    bytes got /\ byte_input s'.
Proof.
  revert s. induction fuel as [|fuel IH]; intros s buf count totlen Hbuf Hin Hf Ht Hc Hb; [lia|]. cbn [kr_net_read].
  destruct (Z.eqb_spec totlen count) as [Heq|Hne]; [exists totlen, buf, s; split_and!; [done|lia|lia|done..]|].
  rewrite (wrapu_small 64) by lia.
  destruct s as [|e s]; [exists totlen, buf, []; split_and!; [done|lia|lia|done..]|].
  apply Forall_cons in Hin as [He Hin]. destruct e as [l| |]; cbn [read_once].
  - set (got := take (Z.to_nat (count - totlen)) l).
    pose proof (size_of_nonneg got) as Hg. assert (Hgc : size_of got <= count - totlen).
    { unfold got, size_of. rewrite length_take. lia. }
    assert (Hrest : byte_input (match drop (Z.to_nat (count - totlen)) l with [] => s | _ => RBytes (drop (Z.to_nat (count - totlen)) l) :: s end)).
    { destruct (drop (Z.to_nat (count - totlen)) l) eqn:Ed; [done|]. constructor; [|done]. rewrite <- Ed. by apply Forall_drop. }
    assert (Hgb : bytes got) by (by apply Forall_take).
    destruct (Z.eqb_spec (size_of got) 0) as [Hz|Hz]; [exists totlen, buf; eexists; split_and!; [done|lia|lia|done..]|].
    rewrite (proj2 (Z.eqb_neq (size_of got) (-1))) by lia.
    apply IH; try lia; [apply Forall_app; by split|done| |rewrite size_of_app; lia].
    assert (Hl : (length got + length (drop (Z.to_nat (count - totlen)) l) = length l)%nat).
    { unfold got. rewrite length_take, length_drop. lia. }
    assert (Hw : (work (RBytes l :: s) = length l + work s)%nat) by done. cbn [List.length] in Hf. unfold size_of in Hz.
    destruct (drop (Z.to_nat (count - totlen)) l) as [|x t]; [lia|].
    assert (Hw' : (work (RBytes (x :: t) :: s) = length (x :: t) + work s)%nat) by done. cbn [List.length] in *. lia.
  - apply IH; try done. change (work (RAgain :: s)) with (S (work s)) in Hf. cbn [List.length] in Hf. lia.
  - exists (-1), buf, s. split_and!; [done|lia|by left|done..].
Qed.
Lemma net_read_runs k count : byte_input (s_in k) -> 0 <= count < 2 ^ 63 ->
  exists n got k', net_read k count = Ok (n, got, k') /\ size_of got <= count /\ (n = -1 \/ n = size_of got) /\
    bytes got /\ byte_input (s_in k').
Proof.
  intros Hin Hc. unfold net_read. destruct (net_read_fuel (S (work (s_in k) + length (s_in k))) (s_in k) [] count 0) as (n & got & s' & -> & H1 & H2 & H3 & H4);
    [constructor|done|cbn; lia|done|lia..|]. exists n, got, (mkSocket s' (s_out k) (s_writes k)). by split_and!.
Qed.

(** Whatever a socket gives, the reader ends, and what it makes is in order. *)
Lemma message_read_runs fd0 k : byte_input (s_in k) -> exists r k', kr_message_read fd0 k = Ok (r, k') /\ forall m, r = Some m -> message_ok m.
Proof.
  intros Hin. unfold kr_message_read.
  destruct (net_read_runs k KR_MSGHEADER_LEN Hin) as (n & got & k1 & -> & Hg & _ & Hgb & Hin1); [done|]. cbn [mbind res_bind].
  assert (Hh : exists h, memcpy (zero_bytes (KR_MSGHEADER_LEN + 1)) 0 got = Ok h /\ size_of h = 81 /\ bytes h).
  { pose proof (size_of_nonneg got). unfold KR_MSGHEADER_LEN in *.
    rewrite (memcpy_eq (zero_bytes (80 + 1)) [] (zero_bytes (size_of got)) (zero_bytes (81 - size_of got))); [| |done|].
    - eexists. split; [done|]. split; [rewrite !size_of_app, size_of_nil, size_of_zero_bytes; lia|].
      apply Forall_app. split; [constructor|]. apply Forall_app. split; [done|]. by apply Forall_replicate.
    - cbn [app]. rewrite <- zero_bytes_app by lia. f_equal. lia.
    - rewrite size_of_zero_bytes; lia. }
  destruct Hh as (h & -> & Hh & Hhb). cbn [mbind res_bind]. destruct (n <=? 0); [by exists None, k1|].
  destruct (head_parse_runs h fd0 Hhb Hh) as (m & E & Hm). cbn [kr_message_alloc msgtype msgid serverid clientid datasrc msglen msgbuf].
  change (zero_bytes (KR_MSGID_LEN + 1)) with (zero_bytes 17). change (zero_bytes (KR_SERVERID_LEN + 1)) with (zero_bytes 27).
  change (zero_bytes (KR_CLIENTID_LEN + 1)) with (zero_bytes 27). rewrite E. cbn [mbind res_bind].
  destruct (_ && (0 <? msglen m)) eqn:Hb; [|by exists (Some m), k1; split; [|intros ? [= <-]]].
  apply andb_true_iff in Hb as [_ Hpos%Z.ltb_lt]. pose proof (mo_msglen _ Hm) as Hlen. unfold int_fits in Hlen.
  destruct (net_read_runs k1 (msglen m) Hin1) as (n2 & body & k2 & -> & _ & Hn2 & _); [lia|]. cbn [mbind res_bind].
  destruct (Z.eqb_spec n2 (msglen m)) as [->|]; cbn [negb]; [|by exists None, k2].
  eexists _, k2. split; [reflexivity|]. intros ? [= <-]. destruct Hm. constructor; try done. intros b. cbn. intros [= <-]. lia.
Qed.

(** * Examples *)

Definition example_id (n : Z) (s : string) : list Z := string_bytes s ++ zero_bytes (n + 1 - Z.of_nat (String.length s)).
Definition example_message (body : list Z) : T_KRMessage :=
  mkMessage 0 KR_MSGTYPE_DETECT_EVENT (example_id 16 "0001") (example_id 26 "") (example_id 26 "client") 7
    (size_of body) (Some body).
Definition writable : list write_event := replicate 12000 (WBytes 20000).
Lemma writable_ready n : n <= 12000 -> ready writable n.
Proof. intros Hn. split; [vm_compute; reflexivity|]. apply (Z.le_trans _ 12000); [done|]. by vm_compute. Qed.
Lemma example_fits body : header_fits (example_message body).
Proof. by split; vm_compute. Qed.

Lemma kr_message_relayed_witness : exists k2',
  kr_message_read 5 (mkSocket [RBytes (take 30 (wire (example_message [1; 2; 3]))); RAgain; RBytes (drop 30 (wire (example_message [1; 2; 3])))] [] [])
    = Ok (Some (passed 5 (example_message [1; 2; 3])), k2') /\ bytes_of (s_in k2') = [].
Proof.
  destruct (kr_message_relayed 5 (mkSocket [] [] writable)
    (mkSocket [RBytes (take 30 (wire (example_message [1; 2; 3]))); RAgain; RBytes (drop 30 (wire (example_message [1; 2; 3])))] [] [])
    (mkSocket [] [] writable) (example_message [1; 2; 3]) [])
    as (w & n & k2' & w3 & n3 & _ & _ & E & Hz & _).
  - apply example_fits.
  - by unfold int_fits.
  - intros _. by eexists.
  - by apply writable_ready.
  - by apply writable_ready.
  - by repeat constructor.
  - by vm_compute.
  - exists k2'. by split.
Defined.

Lemma kr_message_long_body_cut_witness : exists k2' written,
  kr_message_read 5 (mkSocket [RBytes written] [] []) = Ok (Some (read_as 5 (example_message (zero_bytes 10000)) 1000 (zero_bytes 1000)), k2') /\
  bytes_of (s_in k2') = zero_bytes 9000.
Proof.
  pose proof (example_fits (zero_bytes 10000)) as Hfit. pose proof (size_of_zero_bytes 10000 ltac:(done)) as Hz.
  remember (zero_bytes 10000) as body eqn:Hbody. set (m := example_message body). set (k2 := mkSocket [RBytes (cut_head m ++ body_of m)] [] []).
  destruct (kr_message_long_body_cut 5 (mkSocket [] [] writable) k2 m []) as (d & w & n & written & Hd & Hq & E & _ & H).
  - exact Hfit.
  - change (msglen m) with (size_of body). lia.
  - intros _. eexists. split; [reflexivity|]. change (msglen m) with (size_of body). lia.
  - apply writable_ready. change (msglen m) with (size_of body). unfold KR_MSGHEADER_LEN. lia.
  - constructor; [|constructor]. intros H. apply (f_equal size_of) in H.
    rewrite size_of_app, size_of_cut_head in H by exact Hfit. pose proof (size_of_nonneg (body_of m)).
    rewrite size_of_nil in H. unfold KR_MSGHEADER_LEN in H. lia.
  - assert (Hw : written = cut_head m ++ body_of m).
    { destruct (message_write_spec (mkSocket [] [] writable) m Hfit) as (w' & n' & E' & _).
      - intros _. eexists. split; [reflexivity|]. change (msglen m) with (size_of body). lia.
      - apply writable_ready. change (msglen m) with (size_of body). unfold KR_MSGHEADER_LEN. lia.
      - rewrite E in E'. by injection E'. }
    specialize (H ltac:(rewrite app_nil_r, Hw; unfold k2, bytes_of; cbn [s_in map concat]; apply app_nil_r)).
    destruct H as (k2' & E2 & Hrest).
    assert (Hb : body_of m = body) by (unfold body_of; change (msgbuf m) with (Some body); change (msglen m) with (size_of body); apply take_ge; unfold size_of; lia).
    change (msglen m) with (size_of body) in E2, Hrest, Hq. rewrite Hb, Hz in E2, Hrest. rewrite Hz in Hq.
    assert (Hd1 : 10000 / 10 ^ d = 1000).
    { destruct (Z.eq_dec d 1) as [->|Hne]; [done|]. pose proof (Z.pow_le_mono_r 10 2 d).
      pose proof (Z.div_le_compat_l 10000 (10 ^ 2) (10 ^ d)). change (10000 / 10 ^ 2) with 100 in *. lia. }
    rewrite Hd1 in E2, Hrest. rewrite Hbody in E2, Hrest.
    unfold zero_bytes in E2, Hrest. rewrite take_replicate in E2. rewrite drop_replicate, app_nil_r in Hrest.
    exists k2', (cut_head m ++ body_of m). split; [exact E2|exact Hrest].
Defined.
