(* ===== verification/KrDate.v ===== *)
(** Dates and times as texts (krutils/kr_datetime.c), on checked memory.

    [mktime] and [localtime] are those of a zone that is [offset] seconds ahead of UTC all
    year, over the proleptic Gregorian calendar; the texts are eight or fourteen characters
    in arrays of the caller, a function's argument and its result in different ones.  First
    the calendar, where dates and days are one to one, then the functions, then what they
    compute: times (adding seconds, intervals), days, months, the ends of months, and what
    the code does with days and months that are none. *)

From S2P Require Import Prelude KrString KrHashtable KrTypes KrHashset KrJson KrData KrProtocol.
From stdpp Require Import pretty.
From Stdlib Require Import Ascii String.
Local Open Scope Z_scope.
#[local] Notation length := List.length.

(** * The calendar of the C library

    Days are counted from 1970-01-01, months from 0. *)

Definition leap (y : Z) : bool := (y `mod` 4 =? 0) && negb (y `mod` 100 =? 0) || (y `mod` 400 =? 0).
Definition month_days (l : bool) (m : Z) : Z :=
  if m =? 1 then if l then 29 else 28
  else if (m =? 3) || (m =? 5) || (m =? 8) || (m =? 10) then 30 else 31.
(** The days of a year before a month. *)
Fixpoint days_before (l : bool) (m : nat) : Z :=
  match m with O => 0 | S m' => days_before l m' + month_days l (Z.of_nat m') end.

Definition EPOCH : Z := 719162.
Definition ERA : Z := 146097.
(** The days before a year since the first of year 1, and those to a date. *)
Definition year_start (y : Z) : Z := 365 * (y - 1) + (y - 1) / 4 - (y - 1) / 100 + (y - 1) / 400.
Definition days_of (y m d : Z) : Z := year_start y + days_before (leap y) (Z.to_nat m) + (d - 1) - EPOCH.

(** The month and the day in it of a day of a year. *)
Fixpoint month_of (l : bool) (m : Z) (fuel : nat) (day : Z) : Z * Z :=
  match fuel with
  | O => (m, day + 1)
  | S fuel' => if day <? month_days l m then (m, day + 1) else month_of l (m + 1) fuel' (day - month_days l m)
  end.
(** The year of a day of a cycle. *)
Definition year_of (r : Z) : Z := (r - r / 1460 + r / 36524 - r / 146096) / 365.
(** A day as a date, by cycles of 400 years. *)
Definition date_of (n : Z) : Z * Z * Z :=
  let z := n + EPOCH in
  let era := z / ERA in
  let r := z `mod` ERA in
  let yoe := year_of r in
  let y := yoe + 1 + 400 * era in
  let '(m, d) := month_of (leap y) 0 11 (r - (365 * yoe + yoe / 4 - yoe / 100)) in
  (y, m, d).

Record tm := mkTm { tm_year : Z; tm_mon : Z; tm_mday : Z; tm_hour : Z; tm_min : Z; tm_sec : Z }.

Section Zone.
Context (offset : Z).

(** [mktime] takes fields out of their range. *)
Definition mktime (t : tm) : Z :=
  days_of (tm_year t + 1900 + tm_mon t / 12) (tm_mon t `mod` 12) (tm_mday t) * 86400 +
  tm_hour t * 3600 + tm_min t * 60 + tm_sec t - offset.
(** [NULL] when the year is no [int]. *)
Definition localtime (t : Z) : option tm :=
  let '(y, m, d) := date_of ((t + offset) / 86400) in
  let s := (t + offset) `mod` 86400 in
  if (INT_MIN <=? y - 1900) && (y - 1900 <=? INT_MAX)
  then Some (mkTm (y - 1900) m d (s / 3600) ((s / 60) `mod` 60) (s `mod` 60)) else None.

(** * kr_datetime.c *)

(** An array of [n] characters and a null, [memset] and [memcpy] from [off]. *)
Definition part (text : list Z) (off n : Z) : res (list Z) :=
  bytes ← mem_read text off n; memcpy (zero_bytes (n + 1)) 0 bytes.
Definition c_str (l : list Z) : string := bytes_string (cut_null l).
Definition sprintf (dst : list Z) (s : string) : res (list Z) := memcpy dst 0 (string_bytes s ++ [0]).

Definition print_date (t : tm) : string :=
  (print_padded 4 (tm_year t + 1900) ++ print_padded 2 (tm_mon t + 1) ++ print_padded 2 (tm_mday t))%string.
Definition print_time (t : tm) : string :=
  (print_date t ++ print_padded 2 (tm_hour t) ++ print_padded 2 (tm_min t) ++ print_padded 2 (tm_sec t))%string.

(** The fields of a date, at one second after midnight, and of a time. *)
Definition date_tm (caYear caMonth caDay : list Z) : tm :=
  mkTm (atoi (c_str caYear) - 1900) (atoi (c_str caMonth) - 1) (atoi (c_str caDay)) 0 0 1.
Definition parse_date (pcaDate : list Z) : res tm :=
  caYear ← part pcaDate 0 4; caMonth ← part pcaDate 4 2; caDay ← part pcaDate 6 2;
  Ok (date_tm caYear caMonth caDay).
Definition parse_time (pcaTime : list Z) : res tm :=
  year ← part pcaTime 0 4; month ← part pcaTime 4 2; day ← part pcaTime 6 2;
  hour ← part pcaTime 8 2; minute ← part pcaTime 10 2; second ← part pcaTime 12 2;
  Ok (mkTm (atoi (c_str year) - 1900) (atoi (c_str month) - 1) (atoi (c_str day))
        (atoi (c_str hour)) (atoi (c_str minute)) (atoi (c_str second))).

Definition kr_time_system (now : Z) (pcaSysTime : list Z) : res (option (list Z)) :=
  if now =? -1 then Ok None
  else match localtime now with
       | None => Ok None
       | Some t => l ← sprintf pcaSysTime (print_time t); Ok (Some l)
       end.

Definition kr_date_isvalid (pcaDate : list Z) : res bool :=
  t ← parse_date pcaDate; Ok (negb (mktime t =? -1)).

Definition kr_date_isleap (pcaDate : list Z) : res bool :=
  caYear ← part pcaDate 0 4;
  let iYear := atoi (c_str caYear) in
  Ok ((Z.rem iYear 4 =? 0) && negb (Z.rem iYear 100 =? 0) || (Z.rem iYear 400 =? 0)).

Definition kr_date_getmonthend (pcaDate : list Z) : res (option (list Z)) :=
  caYear ← part pcaDate 0 4; caMonth ← part pcaDate 4 2;
  let put (s : string) : res (option (list Z)) := l ← memcpy pcaDate 6 (string_bytes s); Ok (Some l) in
  let m := atoi (c_str caMonth) in
  if (m =? 1) || (m =? 3) || (m =? 5) || (m =? 7) || (m =? 8) || (m =? 10) || (m =? 12) then put "31"%string
  else if (m =? 4) || (m =? 6) || (m =? 9) || (m =? 11) then put "30"%string
  else if m =? 2 then l ← kr_date_isleap caYear; put (if (l : bool) then "29"%string else "28"%string)
  else Ok None.

(** The day goes down until the date is one. *)
Fixpoint addmonth_loop (fuel : nat) (caYear caMonth caDay pcaEnd : list Z) : res (option (list Z)) :=
  match fuel with
  | O => Fault NoFuel
  | S fuel' =>
      let t := date_tm caYear caMonth caDay in
      pcaEnd ← sprintf pcaEnd (c_str caYear ++ c_str caMonth ++ c_str caDay);
      let tTimeVal := mktime t in
      if tTimeVal =? -1 then Ok None
      else match localtime tTimeVal with
           | None => Ok None
           | Some ptTm =>
               caBufTmp ← sprintf (zero_bytes 9) (print_date ptTm);
               end8 ← mem_read pcaEnd 0 8; tmp8 ← mem_read caBufTmp 0 8;
               if bool_decide (end8 = tmp8) then Ok (Some pcaEnd)
               else
                 caDay ← sprintf caDay (print_padded 2 (atol (c_str caDay) - 1));
                 addmonth_loop fuel' caYear caMonth caDay pcaEnd
           end
  end.
Definition kr_date_addmonth (pcaBegin : list Z) (iMonths : Z) (pcaEnd : list Z) : res (option (list Z)) :=
  caYear ← part pcaBegin 0 4; caMonth ← part pcaBegin 4 2;
  first ← of_option OutOfBounds (pcaBegin !! 6%nat);
  caDay ← (if first =? 0 then sprintf (zero_bytes 3) "01" else part pcaBegin 6 2);
  let lValue := i64 (atol (c_str caYear) * 12 + atol (c_str caMonth) + iMonths - 1) in
  caYear ← sprintf caYear (print_padded 4 (i32 (Z.quot lValue 12)));
  caMonth ← sprintf caMonth (print_padded 2 (i32 (Z.rem lValue 12 + 1)));
  pcaEnd ← addmonth_loop 112 caYear caMonth caDay pcaEnd;
  match pcaEnd with
  | None => Ok None
  | Some pcaEnd =>
      if first =? 0 then pcaEnd ← memcpy pcaEnd 6 [0]; Ok (Some pcaEnd) else Ok (Some pcaEnd)
  end.

Definition kr_date_addday (pcaBegin : list Z) (iDays : Z) (pcaEnd : list Z) : res (option (list Z)) :=
  t ← parse_date pcaBegin;
  let tTimeNow := mktime t in
  if tTimeNow =? -1 then Ok None
  else
    t ← of_option NullDeref (localtime (i64 (tTimeNow + i32 (iDays * (24 * 60 * 60)))));
    l ← sprintf pcaEnd (print_date t); Ok (Some l).

Definition kr_time_addsec (pcaBegin : list Z) (iSecs : Z) (pcaEnd : list Z) : res (option (list Z)) :=
  t ← parse_time pcaBegin;
  let lTime := mktime t in
  if lTime =? -1 then Ok None
  else
    t ← of_option NullDeref (localtime (i64 (lTime + iSecs)));
    l ← sprintf pcaEnd (print_time t); Ok (Some l).

Definition kr_time_interval (pcaBegin pcaEnd : list Z) : res Z :=
  b ← parse_time pcaBegin; e ← parse_time pcaEnd; Ok (i64 (mktime e - mktime b)).

Definition kr_time_to_ttime (pcaTime : list Z) : res Z := t ← parse_time pcaTime; Ok (mktime t).

Definition kr_ttime_to_date (lTime : Z) (pcaDate : list Z) : res (list Z) :=
  t ← of_option NullDeref (localtime lTime); sprintf pcaDate (print_date t).
End Zone.

(** * The calendar: dates and days are one to one *)

Fixpoint all_from (f : Z -> bool) (n : nat) (z : Z) : bool :=
  match n with O => true | S n' => f z && all_from f n' (z + 1) end.
Lemma all_from_spec f n z i : all_from f n z = true -> z <= i < z + Z.of_nat n -> f i = true.
Proof.
  revert z. induction n as [|n IH]; intros z; [lia|]. cbn [all_from]. intros [Hz Hn]%andb_true_iff Hi.
  destruct (Z.eq_dec z i) as [<-|Hne]; [done|]. apply (IH (z + 1)); [done|lia].
Qed.

Definition valid_date (y m d : Z) : bool := (0 <=? m) && (m <? 12) && (1 <=? d) && (d <=? month_days (leap y) m).

Lemma year_start_era y k : year_start (y + 400 * k) = year_start y + ERA * k.
Proof.
  unfold year_start, ERA. replace (y + 400 * k - 1) with (y - 1 + (100 * k) * 4) by lia.
  rewrite Z.div_add by lia. replace (y - 1 + (100 * k) * 4) with (y - 1 + (4 * k) * 100) by lia.
  rewrite Z.div_add by lia. replace (y - 1 + (4 * k) * 100) with (y - 1 + k * 400) by lia.
  rewrite Z.div_add by lia. lia.
Qed.
Lemma leap_era y k : leap (y + 400 * k) = leap y.
Proof.
  unfold leap. replace (y + 400 * k) with (y + (100 * k) * 4) at 1 by lia.
  replace (y + 400 * k) with (y + (4 * k) * 100) at 1 by lia. replace (y + 400 * k) with (y + k * 400) by lia.
  by rewrite !Z.mod_add by lia.
Qed.

(** The days of a cycle grow with the years, which are checked at both ends. *)
Definition years_check (y : Z) : bool :=
  (year_of (year_start (y + 1)) =? y) && (year_of (year_start (y + 2) - 1) =? y) &&
  (year_start (y + 2) =? year_start (y + 1) + 365 + Z.b2z (leap (y + 1))).
Lemma years_checked : all_from years_check 400 0 = true.
Proof. vm_compute. reflexivity. Qed.
Lemma year_ok y : 0 <= y < 400 -> year_of (year_start (y + 1)) = y /\ year_of (year_start (y + 2) - 1) = y /\
  year_start (y + 2) = year_start (y + 1) + 365 + Z.b2z (leap (y + 1)).
Proof.
  intros Hy. pose proof (all_from_spec years_check 400 0 y years_checked ltac:(lia)) as H. unfold years_check in H.
  zbool. auto.
Qed.

Lemma year_of_next r : 0 <= r -> r + 1 < ERA -> year_of r <= year_of (r + 1).
Proof.
  unfold ERA. intros Hr Hn. apply Z.div_le_mono; [lia|].
  pose proof (Z_div_mod_eq_full r 1460). pose proof (Z_div_mod_eq_full (r + 1) 1460).
  pose proof (Z.mod_pos_bound r 1460 ltac:(lia)). pose proof (Z.mod_pos_bound (r + 1) 1460 ltac:(lia)).
  assert (r / 36524 <= (r + 1) / 36524) by (apply Z.div_le_mono; lia).
  destruct (Z.eq_dec r 146095) as [->|Hne]; [vm_compute; discriminate|].
  rewrite (Z.div_small r 146096), (Z.div_small (r + 1) 146096) by lia. lia.
Qed.
Lemma year_of_mono r r' : 0 <= r <= r' -> r' < ERA -> year_of r <= year_of r'.
Proof.
  intros Hr Hr'. replace r' with (r + Z.of_nat (Z.to_nat (r' - r))) in * by lia. induction (Z.to_nat (r' - r)) as [|n IH].
  { by rewrite Z.add_0_r. }
  rewrite Nat2Z.inj_succ, <- Z.add_1_r, Z.add_assoc in *. etransitivity; [apply IH; lia|apply year_of_next; lia].
Qed.

Lemma year_start_mono y k : year_start y <= year_start (y + Z.of_nat k).
Proof.
  unfold year_start. pose proof (Z.div_le_mono (y - 1) (y + Z.of_nat k - 1) 4). 
  pose proof (Z_div_mod_eq_full (y - 1) 100). pose proof (Z_div_mod_eq_full (y + Z.of_nat k - 1) 100).
  pose proof (Z.mod_pos_bound (y - 1) 100). pose proof (Z.mod_pos_bound (y + Z.of_nat k - 1) 100).
  pose proof (Z.div_le_mono (y - 1) (y + Z.of_nat k - 1) 400). lia.
Qed.

Lemma year_bounds y : 0 <= y < 400 -> 0 <= year_start (y + 1) /\ year_start (y + 2) <= ERA.
Proof.
  intros Hy. pose proof (year_start_mono 1 (Z.to_nat y)) as H0. pose proof (year_start_mono (y + 2) (Z.to_nat (399 - y))) as H1.
  replace (1 + Z.of_nat (Z.to_nat y)) with (y + 1) in H0 by lia.
  replace (y + 2 + Z.of_nat (Z.to_nat (399 - y))) with 401 in H1 by lia. by split.
Qed.

Lemma year_of_iff r y : 0 <= r < ERA -> 0 <= y < 400 ->
  year_of r = y <-> year_start (y + 1) <= r < year_start (y + 2).
Proof.
  intros Hr Hy. destruct (year_ok y Hy) as (H1 & H2 & H3).
  destruct (year_bounds y Hy) as [Hs He].
  assert (Hb : 0 <= Z.b2z (leap (y + 1))) by (destruct (leap (y + 1)); simpl; lia). split.
  - intros <-. split.
    + destruct (Z.le_gt_cases (year_start (year_of r + 1)) r) as [|Hlt]; [done|].
      destruct (Z.eq_dec (year_of r) 0) as [E|E].
      * rewrite E in *. change (year_start (0 + 1)) with 0 in Hlt. lia.
      * destruct (year_ok (year_of r - 1)) as (_ & H4 & _); [lia|].
        replace (year_of r - 1 + 2) with (year_of r + 1) in H4 by lia.
        pose proof (year_of_mono r (year_start (year_of r + 1) - 1)). lia.
    + destruct (Z.lt_ge_cases r (year_start (year_of r + 2))) as [|Hge]; [done|].
      destruct (Z.eq_dec (year_of r) 399) as [E|E].
      * rewrite E in *. change (year_start (399 + 2)) with ERA in Hge. lia.
      * destruct (year_ok (year_of r + 1)) as (H4 & _ & _); [lia|].
        replace (year_of r + 1 + 1) with (year_of r + 2) in H4 by lia.
        pose proof (year_of_mono (year_start (year_of r + 2)) r). lia.
  - intros Hin. pose proof (year_of_mono (year_start (y + 1)) r). pose proof (year_of_mono r (year_start (y + 2) - 1)). lia.
Qed.
Lemma year_of_range r : 0 <= r < ERA -> 0 <= year_of r < 400.
Proof.
  intros Hr. pose proof (year_of_mono 0 r ltac:(lia) ltac:(lia)) as H0.
  pose proof (year_of_mono r (ERA - 1) ltac:(lia) ltac:(lia)) as H1.
  change (year_of 0) with 0 in H0. change (year_of (ERA - 1)) with 399 in H1. lia.
Qed.

(** A year, day by day and date by date. *)
Definition day_check (l : bool) (day : Z) : bool :=
  let '(m, d) := month_of l 0 11 day in
  (0 <=? m) && (m <? 12) && (1 <=? d) && (d <=? month_days l m) && (days_before l (Z.to_nat m) + (d - 1) =? day).
Definition date_check (l : bool) (m d : Z) : bool :=
  implb (d <=? month_days l m)
    (let day := days_before l (Z.to_nat m) + (d - 1) in
     let '(m', d') := month_of l 0 11 day in
     (0 <=? day) && (day <? 365 + Z.b2z l) && (m =? m') && (d =? d')).
Lemma days_checked : all_from (day_check true) 366 0 && all_from (day_check false) 365 0 = true.
Proof. vm_compute. reflexivity. Qed.
Lemma dates_checked l : all_from (fun m => all_from (date_check l m) 31 1) 12 0 = true.
Proof. destruct l; vm_compute; reflexivity. Qed.
Lemma date_ok l m d : 0 <= m < 12 -> 1 <= d <= 31 -> date_check l m d = true.
Proof.
  intros Hm Hd. refine (all_from_spec (date_check l m) 31 1 d _ _); [|lia].
  refine (all_from_spec (fun m => all_from (date_check l m) 31 1) 12 0 m (dates_checked l) _). lia.
Qed.

Lemma month_of_ok l day m d : 0 <= day < 365 + Z.b2z l -> month_of l 0 11 day = (m, d) ->
  0 <= m < 12 /\ 1 <= d <= month_days l m /\ days_before l (Z.to_nat m) + (d - 1) = day.
Proof.
  intros Hd H. pose proof days_checked as [Ht Hf]%andb_true_iff.
  assert (Hc : day_check l day = true).
  { destruct l; [apply (all_from_spec _ _ _ _ Ht)|apply (all_from_spec _ _ _ _ Hf)]; simpl in Hd; lia. }
  unfold day_check in Hc. rewrite H in Hc. zbool. lia.
Qed.
Lemma month_days_bound l m : 28 <= month_days l m <= 31.
Proof. unfold month_days. repeat case_match; lia. Qed.
Lemma month_of_date l m d : 0 <= m < 12 -> 1 <= d <= month_days l m ->
  let day := days_before l (Z.to_nat m) + (d - 1) in 0 <= day < 365 + Z.b2z l /\ month_of l 0 11 day = (m, d).
Proof.
  intros Hm Hd day. pose proof (month_days_bound l m).
  assert (Hc : date_check l m d = true) by (apply date_ok; lia).
  unfold date_check in Hc. rewrite (proj2 (Z.leb_le d _)) in Hc by lia. cbn [implb] in Hc. fold day in Hc. cbv zeta in Hc.
  destruct (month_of l 0 11 day) as [m' d']. zbool. split; [lia|congruence].
Qed.

Lemma valid_date_iff y m d : valid_date y m d = true <-> 0 <= m < 12 /\ 1 <= d <= month_days (leap y) m.
Proof. unfold valid_date. rewrite !andb_true_iff, !Z.leb_le, Z.ltb_lt. lia. Qed.

Lemma start_of_year y : 0 <= y < 400 -> 365 * y + y / 4 - y / 100 = year_start (y + 1).
Proof. intros Hy. unfold year_start. replace (y + 1 - 1) with y by lia. rewrite (Z.div_small y 400) by lia. lia. Qed.

Lemma days_of_date n y m d : date_of n = (y, m, d) -> valid_date y m d = true /\ days_of y m d = n.
Proof.
  unfold date_of, days_of. pose proof (Z_div_mod_eq_full (n + EPOCH) ERA) as Hz.
  pose proof (Z.mod_pos_bound (n + EPOCH) ERA ltac:(done)) as Hr.
  set (e := (n + EPOCH) / ERA) in *. set (r := (n + EPOCH) mod ERA) in *. cbv zeta.
  pose proof (year_of_range r Hr) as Hy. pose proof (proj1 (year_of_iff r _ Hr Hy) eq_refl) as Hin.
  destruct (year_ok _ Hy) as (_ & _ & Hl). rewrite (start_of_year _ Hy), leap_era.
  destruct (month_of _ _ _ _) as [m' d'] eqn:E. intros [= <- <- <-].
  apply month_of_ok in E as (Hm & Hd & Hday); [|lia].
  split; [apply valid_date_iff; by rewrite leap_era|]. rewrite leap_era, year_start_era. lia.
Qed.

Lemma date_of_days y m d : valid_date y m d = true -> date_of (days_of y m d) = (y, m, d).
Proof.
  intros [Hm Hd]%valid_date_iff. destruct (month_of_date _ m d Hm Hd) as [Hday Hof].
  remember (days_before (leap y) (Z.to_nat m) + (d - 1)) as day eqn:Eday.
  pose proof (Z_div_mod_eq_full (y - 1) 400) as Hz. pose proof (Z.mod_pos_bound (y - 1) 400 ltac:(lia)) as Hb.
  set (k := (y - 1) / 400) in *. set (y0 := (y - 1) mod 400) in *. assert (Hy : y = y0 + 1 + 400 * k) by lia.
  clearbody k y0. clear Hz. subst y. rewrite leap_era in *. destruct (year_ok y0 Hb) as (_ & _ & Hl).
  destruct (year_bounds y0 Hb) as [Hs He]. 
  assert (Hn : days_of (y0 + 1 + 400 * k) m d + EPOCH = year_start (y0 + 1) + day + k * ERA).
  { unfold days_of. rewrite year_start_era, (leap_era (y0 + 1)). lia. }
  unfold date_of. rewrite Hn.
  assert (Hr : 0 <= year_start (y0 + 1) + day < ERA) by lia.
  rewrite Z.div_add, Z.mod_add, Z.div_small, Z.mod_small, Z.add_0_l by done. cbv zeta.
  assert (E : year_of (year_start (y0 + 1) + day) = y0) by (apply year_of_iff; lia).
  rewrite E, (leap_era (y0 + 1)), (start_of_year y0 Hb). replace (year_start (y0 + 1) + day - year_start (y0 + 1)) with day by lia.
  by rewrite Hof.
Qed.

(** * Instants *)

Definition valid_tm (t : tm) : Prop :=
  valid_date (tm_year t + 1900) (tm_mon t) (tm_mday t) = true /\ 0 <= tm_hour t < 24 /\ 0 <= tm_min t < 60 /\
  0 <= tm_sec t < 60 /\ INT_MIN <= tm_year t <= INT_MAX.

Lemma mktime_split offset t : 0 <= tm_mon t < 12 -> mktime offset t + offset =
  days_of (tm_year t + 1900) (tm_mon t) (tm_mday t) * 86400 + (tm_hour t * 3600 + tm_min t * 60 + tm_sec t).
Proof. intros Hm. unfold mktime. rewrite Z.div_small, Z.mod_small, Z.add_0_r by done. lia. Qed.

Lemma clock_fields h mi s : 0 <= h < 24 -> 0 <= mi < 60 -> 0 <= s < 60 ->
  let c := h * 3600 + mi * 60 + s in 0 <= c < 86400 /\ c / 3600 = h /\ (c / 60) mod 60 = mi /\ c mod 60 = s.
Proof.
  intros Hh Hm Hs c. split_and!; [unfold c; lia..| | |].
  - symmetry. apply (Z.div_unique _ _ _ (mi * 60 + s)); unfold c; lia.
  - replace (c / 60) with (mi + h * 60).
    + rewrite Z.mod_add by done. by apply Z.mod_small.
    + apply (Z.div_unique _ _ _ s); unfold c; lia.
  - symmetry. apply (Z.mod_unique _ _ (h * 60 + mi)); unfold c; lia.
Qed.

Lemma localtime_mktime offset t : valid_tm t -> localtime offset (mktime offset t) = Some t.
Proof.
  intros (Hv & Hh & Hm & Hs & Hy). pose proof (proj1 (valid_date_iff _ _ _) Hv) as [Hmon _].
  destruct (clock_fields _ _ _ Hh Hm Hs) as (Hc & E1 & E2 & E3). unfold localtime. rewrite (mktime_split offset t Hmon).
  set (c := tm_hour t * 3600 + tm_min t * 60 + tm_sec t) in *. rewrite Z.add_comm, Z.div_add, Z.mod_add by done.
  rewrite Z.div_small, Z.mod_small, Z.add_0_l by done. rewrite (date_of_days _ _ _ Hv), E1, E2, E3.
  replace (tm_year t + 1900 - 1900) with (tm_year t) by lia.
  rewrite (proj2 (Z.leb_le _ _)), (proj2 (Z.leb_le _ _)) by lia. by destruct t.
Qed.

Lemma mktime_localtime offset n t : localtime offset n = Some t -> valid_tm t /\ mktime offset t = n.
Proof.
  unfold localtime. destruct (date_of _) as [[y m] d] eqn:E. cbv zeta. destruct (_ && _) eqn:Hy; [|done]. zbool.
  intros [= <-]. apply days_of_date in E as [Hv Hd].
  pose proof (Z_div_mod_eq_full (n + offset) 86400) as Hn. pose proof (Z.mod_pos_bound (n + offset) 86400 ltac:(done)) as Hc.
  set (c := (n + offset) mod 86400) in *. pose proof (Z_div_mod_eq_full c 3600). pose proof (Z_div_mod_eq_full c 60).
  pose proof (Z_div_mod_eq_full (c / 60) 60). pose proof (Z.mod_pos_bound c 60 ltac:(done)).
  pose proof (Z.mod_pos_bound (c / 60) 60 ltac:(done)).
  assert (Hh : c / 3600 = c / 60 / 60) by (rewrite Z.div_div by done; done).
  assert (0 <= c / 3600 < 24) by (split; [apply Z.div_pos; lia|apply Z.div_lt_upper_bound; lia]).
  pose proof (proj1 (valid_date_iff _ _ _) Hv) as [Hmon _]. split.
  - split_and!; cbn [tm_year tm_mon tm_mday tm_hour tm_min tm_sec]; try lia. by replace (y - 1900 + 1900) with y by lia.
  - pose proof (mktime_split offset (mkTm (y - 1900) m d (c / 3600) ((c / 60) mod 60) (c mod 60)) Hmon) as Hs.
    cbn [tm_year tm_mon tm_mday tm_hour tm_min tm_sec] in Hs. replace (y - 1900 + 1900) with y in Hs by lia. lia.
Qed.

(** * Texts *)

(** [n] characters that read as a number. *)
Definition number (n : Z) (p : list Z) (z : Z) : Prop :=
  size_of p = n /\ Forall (fun b => b <> 0) p /\ atoi (bytes_string p) = z /\ atol (bytes_string p) = z.
#[local] Abbreviation num n z := (string_bytes (print_padded n z)).
Definition num_check (n z : Z) : bool :=
  let p := num (Z.to_nat n) z in
  (size_of p =? n) && forallb (fun b => negb (b =? 0)) p && (atoi (bytes_string p) =? z) && (atol (bytes_string p) =? z).

Lemma num_check_ok n z : num_check n z = true -> number n (num (Z.to_nat n) z) z.
Proof.
  unfold num_check, number. cbv zeta. intros [[[H1 H2]%andb_true_iff H3]%andb_true_iff H4]%andb_true_iff. zbool.
  split_and!; try done. apply Forall_forall. intros b Hb ->. rewrite forallb_forall in H2.
  by apply list_elem_of_In, H2 in Hb.
Qed.
Lemma nums4_checked : all_from (num_check 4) (Z.to_nat 10000) 0 = true.
Proof. vm_compute. reflexivity. Qed.
Lemma nums2_checked : all_from (num_check 2) 109 (-9) = true.
Proof. vm_compute. reflexivity. Qed.
Lemma num4 z : 0 <= z <= 9999 -> number 4 (num 4 z) z.
Proof. intros Hz. apply (num_check_ok 4). refine (all_from_spec (num_check 4) (Z.to_nat 10000) 0 z nums4_checked _).
  rewrite Z2Nat.id by done. lia. Qed.
Lemma num2 z : -9 <= z <= 99 -> number 2 (num 2 z) z.
Proof. intros Hz. apply (num_check_ok 2). refine (all_from_spec (num_check 2) 109 (-9) z nums2_checked _). lia. Qed.

Lemma string_bytes_app a b : string_bytes (a ++ b)%string = string_bytes a ++ string_bytes b.
Proof.
  induction a as [|c a IH]; [done|]. change (String c a ++ b)%string with (String c (a ++ b)%string).
  by rewrite !string_bytes_cons, IH.
Qed.

Lemma part_number n z text a p c off : number n p z -> text = a ++ p ++ c -> size_of a = off -> part text off n = Ok (p ++ [0]).
Proof.
  intros (Hn & _) -> Ha. unfold part. rewrite (mem_read_eq _ a p c) by done. cbn [mbind res_bind].
  assert (0 <= n) by (rewrite <- Hn; apply size_of_nonneg).
  apply (memcpy_eq _ [] (replicate (length p) 0) [0]); [|done|].
  - unfold zero_bytes. rewrite <- Hn. unfold size_of. replace (Z.to_nat (Z.of_nat (length p) + 1)) with (length p + 1)%nat by lia.
    by rewrite replicate_add.
  - unfold size_of. by rewrite length_replicate.
Qed.
Lemma c_str_number n z p : number n p z -> c_str (p ++ [0]) = bytes_string p.
Proof. intros (_ & Hp & _). unfold c_str. by rewrite cut_null_plain. Qed.
Lemma atoi_number n z p : number n p z -> atoi (c_str (p ++ [0])) = z.
Proof. intros Hp. rewrite (c_str_number _ _ _ Hp). apply Hp. Qed.
Lemma size_number n z p : number n p z -> size_of p = n.
Proof. apply proj1. Qed.

Lemma sprintf_text dst s : Z.of_nat (String.length s) < size_of dst ->
  exists rest, sprintf dst s = Ok (string_bytes s ++ 0 :: rest) /\ size_of (string_bytes s ++ 0 :: rest) = size_of dst.
Proof.
  intros Hl. pose proof (string_bytes_length s) as Hlen. unfold size_of in Hl. exists (drop (S (String.length s)) dst). split.
  - unfold sprintf. rewrite (memcpy_eq dst [] (take (S (String.length s)) dst) (drop (S (String.length s)) dst)).
    + by rewrite <- app_assoc.
    + by rewrite app_nil_l, take_drop.
    + done.
    + autorewrite with krbytes. unfold size_of. rewrite length_take, Hlen. lia.
  - autorewrite with krbytes. unfold size_of. rewrite length_drop, Hlen. lia.
Qed.

(** Instants whose year has four digits. *)
Definition fits (t : tm) : Prop := valid_tm t /\ 0 <= tm_year t + 1900 <= 9999.

Lemma fits_bounds t : fits t -> 0 <= tm_year t + 1900 <= 9999 /\ 0 <= tm_mon t <= 11 /\ 1 <= tm_mday t <= 31 /\
  0 <= tm_hour t < 24 /\ 0 <= tm_min t < 60 /\ 0 <= tm_sec t < 60.
Proof.
  intros [(Hv & Hh & Hm & Hs & _) Hy]. apply valid_date_iff in Hv as [Hmon Hd].
  pose proof (month_days_bound (leap (tm_year t + 1900)) (tm_mon t)). lia.
Qed.

(** The numbers of a text of the form [%04d%02d%02d...]. *)
Section Fields.
Context (y m d : Z) (rest : list Z).
Hypothesis Hy : 0 <= y <= 9999.
Hypothesis Hm : -9 <= m <= 99.
Hypothesis Hd : -9 <= d <= 99.

Definition date_text : list Z := num 4 y ++ num 2 m ++ num 2 d.
Lemma part_year : part (date_text ++ rest) 0 4 = Ok (num 4 y ++ [0]).
Proof. apply (part_number _ y _ [] _ (num 2 m ++ num 2 d ++ rest)); [by apply num4| |done]. unfold date_text. by rewrite <- !app_assoc. Qed.
Lemma part_month : part (date_text ++ rest) 4 2 = Ok (num 2 m ++ [0]).
Proof.
  apply (part_number _ m _ (num 4 y) _ (num 2 d ++ rest)); [by apply num2| |].
  - unfold date_text. by rewrite <- !app_assoc.
  - by apply (size_number _ y), num4.
Qed.
Lemma size_year_month : size_of (num 4 y ++ num 2 m) = 6.
Proof. rewrite size_of_app, (size_number _ _ _ (num4 y Hy)), (size_number _ _ _ (num2 m Hm)). done. Qed.
Lemma part_day : part (date_text ++ rest) 6 2 = Ok (num 2 d ++ [0]).
Proof.
  apply (part_number _ d _ (num 4 y ++ num 2 m) _ rest); [by apply num2| |apply size_year_month].
  unfold date_text. by rewrite <- !app_assoc.
Qed.
Lemma size_date_text : size_of date_text = 8.
Proof. unfold date_text. rewrite app_assoc, size_of_app, size_year_month, (size_number _ _ _ (num2 d Hd)). done. Qed.
Lemma date_fields : date_tm (num 4 y ++ [0]) (num 2 m ++ [0]) (num 2 d ++ [0]) = mkTm (y - 1900) (m - 1) d 0 0 1.
Proof.
  unfold date_tm. by rewrite (atoi_number _ _ _ (num4 y Hy)), (atoi_number _ _ _ (num2 m Hm)), (atoi_number _ _ _ (num2 d Hd)).
Qed.
Lemma parse_date_text : parse_date (date_text ++ rest) = Ok (mkTm (y - 1900) (m - 1) d 0 0 1).
Proof. unfold parse_date. rewrite part_year, part_month, part_day. cbn [mbind res_bind]. by rewrite date_fields. Qed.
End Fields.

Lemma print_date_text t : string_bytes (print_date t) = date_text (tm_year t + 1900) (tm_mon t + 1) (tm_mday t).
Proof. unfold print_date, date_text. by rewrite !string_bytes_app. Qed.

Lemma parse_date_print t rest : fits t ->
  parse_date (string_bytes (print_date t) ++ rest) = Ok (mkTm (tm_year t) (tm_mon t) (tm_mday t) 0 0 1).
Proof.
  intros Hf. destruct (fits_bounds t Hf) as (Hy & Hm & Hd & _). rewrite print_date_text, parse_date_text by lia.
  do 2 f_equal; lia.
Qed.

Lemma size_print_date t : fits t -> size_of (string_bytes (print_date t)) = 8.
Proof. intros Hf. destruct (fits_bounds t Hf) as (Hy & Hm & Hd & _). rewrite print_date_text. apply size_date_text; lia. Qed.

Lemma parse_time_print t rest : fits t -> parse_time (string_bytes (print_time t) ++ rest) = Ok t.
Proof.
  intros Hf. destruct (fits_bounds t Hf) as (Hy & Hm & Hd & Hh & Hmi & Hs). pose proof (size_print_date t Hf) as Hsize.
  unfold print_time, parse_time. rewrite !string_bytes_app, <- !app_assoc.
  set (h := num 2 (tm_hour t)). set (mi := num 2 (tm_min t)). set (s := num 2 (tm_sec t)).
  assert (Nh : number 2 h (tm_hour t)) by (apply num2; lia). assert (Nm : number 2 mi (tm_min t)) by (apply num2; lia).
  assert (Ns : number 2 s (tm_sec t)) by (apply num2; lia).
  rewrite print_date_text in *. rewrite part_year, part_month, part_day by lia. cbn [mbind res_bind].
  set (a := date_text _ _ _) in *.
  rewrite (part_number 2 _ _ a h (mi ++ s ++ rest) 8 Nh) by done. cbn [mbind res_bind].
  rewrite (part_number 2 _ _ (a ++ h) mi (s ++ rest) 10 Nm) by
    (rewrite <- ?app_assoc, ?size_of_app, ?Hsize, ?(size_number _ _ _ Nh); done). cbn [mbind res_bind].
  rewrite (part_number 2 _ _ (a ++ h ++ mi) s rest 12 Ns) by
    (rewrite <- ?app_assoc, ?size_of_app, ?Hsize, ?(size_number _ _ _ Nh), ?(size_number _ _ _ Nm); done). cbn [mbind res_bind].
  rewrite (atoi_number _ _ _ Nh), (atoi_number _ _ _ Nm), (atoi_number _ _ _ Ns).
  pose proof (date_fields (tm_year t + 1900) (tm_mon t + 1) (tm_mday t) ltac:(lia) ltac:(lia) ltac:(lia)) as Hdate.
  unfold date_tm in Hdate. injection Hdate as -> -> ->. destruct t; cbn. do 2 f_equal; lia.
Qed.

Lemma length_print_date t : fits t -> String.length (print_date t) = 8%nat.
Proof. intros Hf. pose proof (size_print_date t Hf) as H. unfold size_of in H. rewrite string_bytes_length in H. lia. Qed.
Lemma length_print_time t : fits t -> String.length (print_time t) = 14%nat.
Proof.
  intros Hf. destruct (fits_bounds t Hf) as (_ & _ & _ & Hh & Hmi & Hs). pose proof (size_print_date t Hf) as Hd.
  enough (size_of (string_bytes (print_time t)) = 14) as H by (unfold size_of in H; rewrite string_bytes_length in H; lia).
  unfold print_time. rewrite !string_bytes_app, !size_of_app, Hd.
  rewrite !(fun z Hz => size_number _ _ _ (num2 z Hz)) by lia. done.
Qed.

(** * What the functions compute *)

Section Functions.
Context (offset : Z).
(** A zone is less than a day, and a whole number of minutes, from UTC. *)
Hypothesis offset_day : -86400 < offset < 86400.
Hypothesis offset_minutes : offset mod 60 = 0.

(** One second after a midnight is never the [-1] that stands for an error. *)
Lemma morning_some y m d : mktime offset (mkTm y m d 0 0 1) =? -1 = false.
Proof.
  apply Z.eqb_neq. unfold mktime. cbn [tm_year tm_mon tm_mday tm_hour tm_min tm_sec].
  pose proof (Z_div_mod_eq_full offset 60). lia.
Qed.

Lemma valid_morning y m d : valid_date y m d = true -> 0 <= y <= 9999 -> valid_tm (mkTm (y - 1900) m d 0 0 1).
Proof.
  intros Hv Hy. split_and!; cbn; try (unfold INT_MIN, INT_MAX; lia). by replace (y - 1900 + 1900) with y by lia.
Qed.

Lemma year_start_bounds y : 0 <= y <= 9999 -> -366 <= year_start y <= 3651694.
Proof.
  intros Hy. unfold year_start. pose proof (Z_div_mod_eq_full (y - 1) 4). pose proof (Z_div_mod_eq_full (y - 1) 100).
  pose proof (Z_div_mod_eq_full (y - 1) 400). pose proof (Z.mod_pos_bound (y - 1) 4 ltac:(done)).
  pose proof (Z.mod_pos_bound (y - 1) 100 ltac:(done)). pose proof (Z.mod_pos_bound (y - 1) 400 ltac:(done)). lia.
Qed.
Lemma mktime_bounds t : fits t -> - 2 ^ 60 < mktime offset t < 2 ^ 60.
Proof.
  intros Hf. destruct (fits_bounds t Hf) as (Hy & Hm & Hd & Hh & Hmi & Hs). pose proof (mktime_split offset t ltac:(lia)) as E.
  destruct Hf as [(Hv & _) _]. apply valid_date_iff in Hv as [Hmon Hday].
  destruct (month_of_date _ _ _ Hmon Hday) as [Hb _]. pose proof (year_start_bounds _ Hy).
  assert (0 <= Z.b2z (leap (tm_year t + 1900)) <= 1) by (destruct (leap _); simpl; lia).
  unfold days_of, EPOCH in E. lia.
Qed.

(** C36. Times: the time some seconds after a time is the instant that many seconds later,
    and the interval between both is that many seconds, whatever calendar lies between. *)
Theorem kr_time_addsec_interval t0 rest n buf t1 : fits t0 -> mktime offset t0 <> -1 ->
  localtime offset (mktime offset t0 + n) = Some t1 -> fits t1 -> 15 <= size_of buf ->
  let begin := string_bytes (print_time t0) ++ rest in
  exists rest1, let end_ := string_bytes (print_time t1) ++ 0 :: rest1 in
    kr_time_addsec offset begin n buf = Ok (Some end_) /\ size_of end_ = size_of buf /\
    kr_time_interval offset begin end_ = Ok n /\ kr_time_to_ttime offset end_ = Ok (mktime offset t0 + n).
Proof.
  intros H0 Hne Ht1 H1 Hbuf begin. pose proof (mktime_bounds t0 H0). pose proof (mktime_bounds t1 H1).
  destruct (mktime_localtime _ _ _ Ht1) as [_ E1].
  destruct (sprintf_text buf (print_time t1)) as (rest1 & Hs & Hsize); [rewrite length_print_time by done; lia|].
  exists rest1. unfold kr_time_addsec, kr_time_interval, kr_time_to_ttime, begin.
  rewrite !parse_time_print by done. cbn [mbind res_bind]. rewrite (proj2 (Z.eqb_neq _ _) Hne).
  rewrite wraps_small by lia. rewrite Ht1. cbn [of_option mbind res_bind]. rewrite Hs, E1. split_and!; try done.
  f_equal. rewrite wraps_small; lia.
Qed.

(** The system time, read back, is the system time. *)
Theorem kr_time_system_reads_back now t buf : now <> -1 -> localtime offset now = Some t -> fits t -> 15 <= size_of buf ->
  exists l, kr_time_system offset now buf = Ok (Some l) /\ kr_time_to_ttime offset l = Ok now.
Proof.
  intros Hne Ht Hf Hbuf. destruct (mktime_localtime _ _ _ Ht) as [_ E].
  destruct (sprintf_text buf (print_time t)) as (rest & Hs & _); [rewrite length_print_time by done; lia|].
  exists (string_bytes (print_time t) ++ 0 :: rest). unfold kr_time_system, kr_time_to_ttime.
  rewrite (proj2 (Z.eqb_neq _ _) Hne), Ht, Hs, parse_time_print by done. cbn [mbind res_bind]. by rewrite E.
Qed.

Lemma localtime_day n y m d : date_of n = (y, m, d) -> 0 <= y <= 9999 ->
  localtime offset (n * 86400 + 1 - offset) = Some (mkTm (y - 1900) m d 0 0 1).
Proof.
  intros E Hy. destruct (days_of_date _ _ _ _ E) as [Hv <-]. rewrite <- (localtime_mktime offset) by by apply valid_morning.
  f_equal. pose proof (proj1 (valid_date_iff _ _ _) Hv) as [Hm _].
  pose proof (mktime_split offset (mkTm (y - 1900) m d 0 0 1) Hm) as H. cbn [tm_year tm_mon tm_mday tm_hour tm_min tm_sec] in H.
  replace (y - 1900 + 1900) with y in H by lia. lia.
Qed.
Lemma mktime_day y m d : 0 <= m < 12 -> mktime offset (mkTm (y - 1900) m d 0 0 1) = days_of y m d * 86400 + 1 - offset.
Proof.
  intros Hm. pose proof (mktime_split offset (mkTm (y - 1900) m d 0 0 1) Hm) as H.
  cbn [tm_year tm_mon tm_mday tm_hour tm_min tm_sec] in H. replace (y - 1900 + 1900) with y in H by lia. lia.
Qed.

(** A date as a text; months are counted from 0 here, and from 1 in the text. *)
#[local] Abbreviation text_of y m d := (date_text y (m + 1) d).

(** Days: the date some days after a date, as long as the seconds of the days fit an
    [int] (24855 days, some 68 years) and the year has four digits. *)
Theorem kr_date_addday_shifts y m d rest n y' m' d' buf : valid_date y m d = true -> 0 <= y <= 9999 -> -24855 <= n <= 24855 ->
  date_of (days_of y m d + n) = (y', m', d') -> 0 <= y' <= 9999 -> 9 <= size_of buf ->
  exists rest', kr_date_addday offset (text_of y m d ++ rest) n buf = Ok (Some (text_of y' m' d' ++ 0 :: rest')).
Proof.
  intros Hv Hy Hn E Hy' Hbuf. pose proof (valid_morning _ _ _ Hv Hy) as Hm0. pose proof (proj1 (valid_date_iff _ _ _) Hv) as [Hm Hd].
  pose proof (month_days_bound (leap y) m). destruct (days_of_date _ _ _ _ E) as [Hv' _].
  pose proof (mktime_bounds (mkTm (y - 1900) m d 0 0 1)) as Hb. cbn in Hb. specialize (Hb ltac:(by split; [done|cbn; lia])).
  unfold kr_date_addday. rewrite parse_date_text by lia. cbn [mbind res_bind]. replace (m + 1 - 1) with m by lia.
  rewrite morning_some. rewrite (wraps_small 32) by (simpl; lia). rewrite wraps_small by lia. rewrite (mktime_day y m d Hm).
  replace (days_of y m d * 86400 + 1 - offset + n * (24 * 60 * 60)) with ((days_of y m d + n) * 86400 + 1 - offset) by lia.
  rewrite (localtime_day _ _ _ _ E Hy'). cbn [of_option mbind res_bind].
  set (t := mkTm (y' - 1900) m' d' 0 0 1). assert (Ht : fits t) by (split; [by apply valid_morning|cbn; lia]).
  destruct (sprintf_text buf (print_date t)) as (rest' & -> & _); [rewrite length_print_date by done; lia|].
  exists rest'. cbn [mbind res_bind]. rewrite print_date_text. unfold t. cbn [tm_year tm_mon tm_mday].
  by replace (y' - 1900 + 1900) with y' by lia.
Qed.

(** No text of digits is an invalid date: [mktime] takes days and months out of their
    range, and never gives [-1] for them. *)
Theorem kr_date_isvalid_always text : 8 <= size_of text -> kr_date_isvalid offset text = Ok true.
Proof.
  intros Hl. unfold kr_date_isvalid, parse_date. assert (Hp : forall off n, 0 <= off -> 0 <= n -> off + n <= 8 ->
    exists p, part text off n = Ok p).
  { intros off n Ho Hn Hon. unfold part, mem_read. rewrite (proj2 (Z.ltb_ge off 0)), (proj2 (Z.ltb_ge n 0)) by done.
    rewrite (proj2 (Z.ltb_ge (size_of text) _)) by lia. cbn [orb mbind res_bind]. unfold memcpy. cbn [Z.ltb orb].
    rewrite size_of_zero_bytes by lia. set (p := take _ _). assert (size_of p <= n).
    { unfold p, size_of. rewrite length_take. lia. }
    rewrite (proj2 (Z.ltb_ge (n + 1) _)) by lia. cbn. by eexists. }
  destruct (Hp 0 4) as [a ->]; [lia..|]. destruct (Hp 4 2) as [b ->]; [lia..|]. destruct (Hp 6 2) as [c ->]; [lia..|].
  cbn [mbind res_bind]. unfold date_tm. by rewrite morning_some.
Qed.

(** ** Months *)

Lemma c_str_print n k z : number k (num n z) z -> c_str (num n z ++ [0]) = print_padded n z.
Proof. intros H. by rewrite (c_str_number k z), bytes_string_bytes. Qed.

(** [sprintf] over a number of as many characters. *)
Lemma sprintf_number k n z z' : number k (num n z) z -> number k (num n z') z' ->
  sprintf (num n z ++ [0]) (print_padded n z') = Ok (num n z' ++ [0]).
Proof.
  intros H H'. unfold sprintf. rewrite (memcpy_eq _ [] (num n z ++ [0]) []); [by rewrite app_nil_r|by rewrite app_nil_r|done|].
  by rewrite !size_of_app, (size_number _ _ _ H), (size_number _ _ _ H').
Qed.

Lemma day_text_neq y m d y' m' d' : 0 <= y <= 9999 -> 0 <= y' <= 9999 -> -9 <= m <= 99 -> -9 <= m' <= 99 ->
  -9 <= d <= 99 -> -9 <= d' <= 99 -> d <> d' -> date_text y m d <> date_text y' m' d'.
Proof.
  intros Hy Hy' Hm Hm' Hd Hd' Hne E. pose proof (part_day y m d [] Hy Hm Hd) as P. pose proof (part_day y' m' d' [] Hy' Hm' Hd') as P'.
  rewrite E, P' in P. injection P as P. pose proof (atoi_number _ _ _ (num2 d Hd)) as A.
  rewrite <- P, (atoi_number _ _ _ (num2 d' Hd')) in A. done.
Qed.

Lemma mem_read_text y m d rest : 0 <= y <= 9999 -> -9 <= m <= 99 -> -9 <= d <= 99 ->
  mem_read (date_text y m d ++ rest) 0 8 = Ok (date_text y m d).
Proof. intros Hy Hm Hd. apply (mem_read_eq _ [] _ rest); [done|done|by apply size_date_text]. Qed.

(** One turn of the loop: the text of the date, and the date it is. *)
Lemma addmonth_turn fuel y m d y2 m2 d2 buf : 0 <= y <= 9999 -> 0 <= m < 12 -> -9 <= d <= 99 ->
  date_of (days_of y m d) = (y2, m2, d2) -> 0 <= y2 <= 9999 -> 9 <= size_of buf ->
  exists rest, size_of (text_of y m d ++ 0 :: rest) = size_of buf /\
    addmonth_loop offset (S fuel) (num 4 y ++ [0]) (num 2 (m + 1) ++ [0]) (num 2 d ++ [0]) buf =
    if bool_decide (text_of y m d = text_of y2 m2 d2) then Ok (Some (text_of y m d ++ 0 :: rest))
    else caDay ← sprintf (num 2 d ++ [0]) (print_padded 2 (d - 1));
         addmonth_loop offset fuel (num 4 y ++ [0]) (num 2 (m + 1) ++ [0]) caDay (text_of y m d ++ 0 :: rest).
Proof.
  intros Hy Hm Hd E Hy2 Hbuf. destruct (days_of_date _ _ _ _ E) as [Hv2 _].
  set (s := (print_padded 4 y ++ print_padded 2 (m + 1) ++ print_padded 2 d)%string).
  assert (Es : string_bytes s = text_of y m d) by (unfold s, date_text; by rewrite !string_bytes_app).
  assert (Hls : Z.of_nat (String.length s) = 8).
  { rewrite <- string_bytes_length, Es. apply (size_date_text y (m + 1) d); lia. }
  destruct (sprintf_text buf s) as (rest & Hs & Hsize); [lia|]. rewrite Es in Hs, Hsize.
  exists rest. split; [done|]. cbn [addmonth_loop].
  rewrite (c_str_print 4 4 y (num4 y Hy)), (c_str_print 2 2 (m + 1) (num2 (m + 1) ltac:(lia))), (c_str_print 2 2 d (num2 d Hd)).
  fold s. rewrite Hs. cbn [mbind res_bind]. rewrite date_fields by lia. replace (m + 1 - 1) with m by lia.
  rewrite morning_some. rewrite (mktime_day y m d Hm), (localtime_day _ _ _ _ E Hy2).
  set (t := mkTm (y2 - 1900) m2 d2 0 0 1). assert (Ht : fits t) by (split; [by apply valid_morning|cbn; lia]).
  destruct (sprintf_text (zero_bytes 9) (print_date t)) as (rest2 & Hs2 & _); [rewrite length_print_date by done; done|].
  rewrite print_date_text in Hs2. unfold t in Hs2. cbn [tm_year tm_mon tm_mday] in Hs2.
  replace (y2 - 1900 + 1900) with y2 in Hs2 by lia. fold t in Hs2. rewrite Hs2. cbn [mbind res_bind].
  pose proof (proj1 (valid_date_iff _ _ _) Hv2) as [Hm2 Hd2]. pose proof (month_days_bound (leap y2) m2).
  rewrite !mem_read_text by lia. cbn [mbind res_bind]. destruct (bool_decide _); [done|].
  destruct (num2 d Hd) as (_ & _ & _ & Ha). rewrite bytes_string_bytes in Ha. by rewrite Ha.
Qed.

Lemma days_of_next y m d : 0 <= m < 11 -> days_of y m d = days_of y (m + 1) (d - month_days (leap y) m).
Proof.
  intros Hm. unfold days_of. rewrite Z2Nat.inj_add by lia. change (Z.to_nat 1) with 1%nat. rewrite Nat.add_1_r. cbn [days_before].
  rewrite Z2Nat.id by lia. lia.
Qed.

(** The loop ends at the day itself, or at the end of the month. *)
Lemma addmonth_loop_ends y m : 0 <= y <= 9999 -> 0 <= m < 12 -> forall fuel d buf, (Z.to_nat d < fuel)%nat -> 1 <= d <= 31 -> 9 <= size_of buf ->
  exists rest, size_of (text_of y m d ++ 0 :: rest) = size_of buf /\
    addmonth_loop offset fuel (num 4 y ++ [0]) (num 2 (m + 1) ++ [0]) (num 2 d ++ [0]) buf =
    Ok (Some (text_of y m (Z.min d (month_days (leap y) m)) ++ 0 :: rest)).
Proof.
  intros Hy Hm. induction fuel as [|fuel IH]; intros d buf Hf Hd Hbuf; [lia|].
  pose proof (month_days_bound (leap y) m) as Hml. destruct (Z.le_gt_cases d (month_days (leap y) m)) as [Hle|Hgt].
  - rewrite Z.min_l by lia. destruct (addmonth_turn fuel y m d y m d buf) as (rest & Hs & ->); try lia.
    { apply date_of_days, valid_date_iff. lia. }
    exists rest. split; [done|]. by rewrite bool_decide_eq_true_2.
  - assert (Hm11 : m < 11) by (destruct (Z.eq_dec m 11) as [->|]; [|lia]; unfold month_days in Hgt; simpl in Hgt; lia).
    pose proof (month_days_bound (leap y) (m + 1)). set (d2 := d - month_days (leap y) m).
    destruct (addmonth_turn fuel y m d y (m + 1) d2 buf) as (rest & Hs & ->); try lia.
    { rewrite days_of_next by lia. apply date_of_days, valid_date_iff. unfold d2. lia. }
    rewrite bool_decide_eq_false_2 by (apply day_text_neq; unfold d2; lia).
    rewrite (sprintf_number 2 2 d (d - 1)) by (apply num2; lia). cbn [mbind res_bind].
    destruct (IH (d - 1) (text_of y m d ++ 0 :: rest)) as (rest' & Hs' & ->); [lia..|].
    exists rest'. split.
    + rewrite Hs in Hs'. rewrite <- Hs'. rewrite !size_of_app, !size_date_text by lia. done.
    + do 4 f_equal. rewrite !Z.min_r by lia. done.
Qed.

(** The months of the text, from its year and month. *)
Lemma addmonth_months y m n day buf : 0 <= y <= 9999 -> 0 <= m < 12 ->
  let v := 12 * y + m + n in let y' := v / 12 in let m' := v mod 12 in 0 <= y' <= 9999 ->
  (let lValue := i64 (atol (c_str (num 4 y ++ [0])) * 12 + atol (c_str (num 2 (m + 1) ++ [0])) + n - 1) in
   caYear ← sprintf (num 4 y ++ [0]) (print_padded 4 (i32 (Z.quot lValue 12)));
   caMonth ← sprintf (num 2 (m + 1) ++ [0]) (print_padded 2 (i32 (Z.rem lValue 12 + 1)));
   addmonth_loop offset 112 caYear caMonth day buf) =
  addmonth_loop offset 112 (num 4 y' ++ [0]) (num 2 (m' + 1) ++ [0]) day buf.
Proof.
  intros Hy Hm v y' m' Hy'. pose proof (Z_div_mod_eq_full v 12) as Hv. pose proof (Z.mod_pos_bound v 12 ltac:(done)) as Hm'.
  fold y' m' in Hv, Hm'. rewrite (c_str_number 4 y) by by apply num4. rewrite (c_str_number 2 (m + 1)) by (apply num2; lia).
  destruct (num4 y Hy) as (_ & _ & _ & ->). destruct (num2 (m + 1) ltac:(lia)) as (_ & _ & _ & ->).
  replace (y * 12 + (m + 1) + n - 1) with v by (unfold v; lia). cbv zeta. rewrite (wraps_small 64 v) by (simpl; lia).
  rewrite Z.quot_div_nonneg, Z.rem_mod_nonneg by lia. fold y' m'. rewrite !i32_small by (unfold INT_MIN, INT_MAX; lia).
  rewrite (sprintf_number 4 4 y y') by by apply num4. cbn [mbind res_bind].
  by rewrite (sprintf_number 2 2 (m + 1) (m' + 1)) by (apply num2; lia).
Qed.

Lemma seventh a b c rest : size_of a = 6 -> (a ++ b :: c ++ rest) !! 6%nat = Some b.
Proof. intros Ha. unfold size_of in Ha. apply list_lookup_middle. lia. Qed.

(** C37. Months: the date some months after a date has its day, or the last day of its month
    when that is earlier; a text without a day gives a text without a day. *)
Theorem kr_date_addmonth_clamps y m d rest n buf : valid_date y m d = true -> 0 <= y <= 9999 ->
  let v := 12 * y + m + n in let y' := v / 12 in let m' := v mod 12 in
  0 <= y' <= 9999 -> 9 <= size_of buf ->
  (exists rest', kr_date_addmonth offset (text_of y m d ++ rest) n buf =
     Ok (Some (text_of y' m' (Z.min d (month_days (leap y') m')) ++ 0 :: rest'))) /\
  (exists rest', kr_date_addmonth offset (num 4 y ++ num 2 (m + 1) ++ 0 :: rest) n buf =
     Ok (Some (num 4 y' ++ num 2 (m' + 1) ++ 0 :: rest'))).
Proof.
  intros [Hm Hd]%valid_date_iff Hy v y' m' Hy' Hbuf. pose proof (month_days_bound (leap y) m).
  pose proof (Z.mod_pos_bound v 12 ltac:(done)) as Hm'. fold m' in Hm'. split.
  - destruct (addmonth_loop_ends y' m' Hy' Hm' 112 d buf) as (rest' & _ & E); [lia..|]. exists rest'.
    rewrite <- (addmonth_months y m n _ buf Hy Hm Hy') in E. unfold kr_date_addmonth.
    rewrite part_year, part_month by lia. cbn [mbind res_bind].
    assert (Hday : exists b c, num 2 d = b :: c /\ b <> 0).
    { destruct (num2 d ltac:(lia)) as (Hs & Hp & _). destruct (num 2 d) as [|b c]; [done|]. exists b, c. by inversion Hp. }
    destruct Hday as (b & c & Eb & Hb).
    assert (E6 : (text_of y m d ++ rest) !! 6%nat = Some b).
    { unfold date_text. rewrite Eb. rewrite app_assoc, <- app_assoc. cbn [app]. apply seventh, size_year_month; lia. }
    rewrite E6. cbn [of_option mbind res_bind]. rewrite (proj2 (Z.eqb_neq b 0) Hb), part_day by lia. cbn [mbind res_bind].
    cbv zeta in E. fold v in E. fold y' m' in E. apply res_bind_Ok in E as (cy & -> & E). apply res_bind_Ok in E as (cm & Em & E).
    cbn [mbind res_bind]. rewrite Em. cbn [mbind res_bind]. by rewrite E.
  - destruct (addmonth_loop_ends y' m' Hy' Hm' 112 1 buf) as (rest' & _ & E); [lia..|]. exists (49 :: 0 :: rest').
    rewrite <- (addmonth_months y m n _ buf Hy Hm Hy') in E. unfold kr_date_addmonth.
    rewrite (part_number 4 y _ [] (num 4 y) (num 2 (m + 1) ++ 0 :: rest)) by first [by apply num4|done].
    rewrite (part_number 2 (m + 1) _ (num 4 y) (num 2 (m + 1)) (0 :: rest) 4) by
      first [apply num2; lia|done|by apply (size_number _ y), num4]. cbn [mbind res_bind].
    assert (E6 : (num 4 y ++ num 2 (m + 1) ++ 0 :: rest) !! 6%nat = Some 0).
    { rewrite app_assoc. apply (seventh _ 0 [] rest), size_year_month; lia. }
    rewrite E6. cbn [of_option mbind res_bind Z.eqb].
    change (sprintf (zero_bytes 3) "01") with (Ok (num 2 1 ++ [0])). cbn [mbind res_bind].
    cbv zeta in E. fold v in E. fold y' m' in E. apply res_bind_Ok in E as (cy & -> & E). apply res_bind_Ok in E as (cm & Em & E).
    cbn [mbind res_bind]. rewrite Em. cbn [mbind res_bind]. rewrite E. cbn [mbind res_bind].
    pose proof (month_days_bound (leap y') m'). rewrite Z.min_l by lia.
    rewrite (memcpy_eq _ (num 4 y' ++ num 2 (m' + 1)) [48] (49 :: 0 :: rest')); [|by unfold date_text; rewrite <- !app_assoc| |done].
    + by rewrite <- !app_assoc.
    + apply size_year_month; lia.
Qed.

(** ** The end of the loop of [kr_date_addmonth] *)

Lemma dvalue_upper s : forall acc, digits s = true -> (dvalue acc s < (acc + 1) * 10 ^ N.of_nat (String.length s))%N.
Proof.
  induction s as [|c s IH]; intros acc Hs; [simpl; lia|]. cbn [digits] in Hs. apply andb_true_iff in Hs as [Hc Hs].
  cbn [dvalue String.length]. specialize (IH (10 * acc + (N_of_ascii c - 48))%N Hs). rewrite Nat2N.inj_succ, N.pow_succ_r by lia.
  assert (N_of_ascii c - 48 <= 9)%N by (revert Hc; unfold uchar; lia). nia.
Qed.
Lemma length_padded z : (String.length (print_padded 2 z) <= 2)%nat -> -9 <= z <= 99.
Proof.
  destruct (Z.ltb_spec z 0) as [Hz|Hz].
  - unfold print_padded. rewrite (proj2 (Z.ltb_lt z 0) Hz). rewrite !string_length_app. intros Hl. simpl in Hl.
    destruct (pretty_value (Z.abs z)) as [Hv Hd]; [lia|]. pose proof (dvalue_upper _ 0 Hd) as Hu. rewrite Hv in Hu.
    assert (10 ^ N.of_nat (String.length (pretty (Z.abs z))) <= 10 ^ 1)%N by (apply N.pow_le_mono_r; lia).
    change (10 ^ 1)%N with 10%N in *. lia.
  - intros Hl. destruct (print_padded_value 2 z Hz) as [Hv Hd]. pose proof (dvalue_upper _ 0 Hd) as Hu. rewrite Hv in Hu.
    assert (10 ^ N.of_nat (String.length (print_padded 2 z)) <= 10 ^ 2)%N by (apply N.pow_le_mono_r; lia).
    change (10 ^ 2)%N with 100%N in *. lia.
Qed.

Lemma sprintf_day dst z : size_of dst = 3 ->
  sprintf dst (print_padded 2 z) = Fault OutOfBounds \/
  (-9 <= z <= 99 /\ sprintf dst (print_padded 2 z) = Ok (num 2 z ++ [0])).
Proof.
  intros Hl. unfold sprintf. destruct (Nat.le_gt_cases (String.length (print_padded 2 z)) 2) as [Hle|Hgt].
  - right. pose proof (length_padded z Hle) as Hz. split; [done|].
    rewrite (memcpy_eq dst [] dst []); [by rewrite app_nil_r|by rewrite app_nil_r|done|].
    by rewrite size_of_app, (size_number _ _ _ (num2 z Hz)).
  - left. unfold memcpy. rewrite size_of_app, Hl. unfold size_of at 1. rewrite string_bytes_length.
    rewrite (proj2 (Z.ltb_lt 3 _)); [done|]. unfold size_of. simpl. lia.
Qed.

Lemma memcpy_fuel dst off src : memcpy dst off src <> Fault NoFuel.
Proof. unfold memcpy. by destruct (_ || _). Qed.
Lemma mem_read_fuel l off n : mem_read l off n <> Fault NoFuel.
Proof. unfold mem_read. by destruct (_ || _). Qed.
Lemma bind_fuel {A B} (r : res A) (k : A -> res B) :
  r <> Fault NoFuel -> (forall a, r = Ok a -> k a <> Fault NoFuel) -> r ≫= k <> Fault NoFuel.
Proof. destruct r as [a|f]; cbn; [auto|congruence]. Qed.

(** A turn that goes on has put the day below in the array. *)
Lemma addmonth_step fuel caYear caMonth caDay buf : size_of caDay = 3 ->
  (forall z buf', -9 <= z <= 99 -> z = atol (c_str caDay) - 1 ->
     addmonth_loop offset fuel caYear caMonth (num 2 z ++ [0]) buf' <> Fault NoFuel) ->
  addmonth_loop offset (S fuel) caYear caMonth caDay buf <> Fault NoFuel.
Proof.
  intros Hl Hnext. cbn [addmonth_loop]. apply bind_fuel; [apply memcpy_fuel|]. intros buf1 _.
  destruct (_ =? -1); [done|]. destruct (localtime offset _) as [t|]; [|done].
  apply bind_fuel; [apply memcpy_fuel|]. intros tmp _. apply bind_fuel; [apply mem_read_fuel|]. intros e8 _.
  apply bind_fuel; [apply mem_read_fuel|]. intros t8 _. destruct (bool_decide _); [done|].
  destruct (sprintf_day caDay (atol (c_str caDay) - 1) Hl) as [-> | [Hz ->]]; [done|]. cbn [mbind res_bind]. by apply Hnext.
Qed.
Lemma addmonth_ends_from fuel caYear caMonth z buf : -9 <= z <= 99 -> (Z.to_nat (z + 10) <= fuel)%nat ->
  addmonth_loop offset fuel caYear caMonth (num 2 z ++ [0]) buf <> Fault NoFuel.
Proof.
  revert z buf. induction fuel as [|fuel IH]; intros z buf Hz Hf; [lia|]. apply addmonth_step.
  - by rewrite size_of_app, (size_number _ _ _ (num2 z Hz)).
  - intros z' buf' Hz'. rewrite (c_str_number _ _ _ (num2 z Hz)). destruct (num2 z Hz) as (_ & _ & _ & ->).
    intros ->. apply IH; lia.
Qed.

Lemma part_fuel text off n : part text off n <> Fault NoFuel.
Proof. apply bind_fuel; [apply mem_read_fuel|intros; apply memcpy_fuel]. Qed.
Lemma memcpy_size dst off src l : memcpy dst off src = Ok l -> size_of l = size_of dst.
Proof.
  unfold memcpy. destruct (_ || _) eqn:E; [done|]. intros [= <-]. zbool. unfold size_of in *.
  rewrite !length_app, length_take, length_drop. lia.
Qed.
Lemma part_size text off n l : 0 <= n -> part text off n = Ok l -> size_of l = n + 1.
Proof.
  intros Hn (b & _ & H)%res_bind_Ok. apply memcpy_size in H as ->. apply size_of_zero_bytes. lia.
Qed.

(** Whatever the text and the number of months, the loop that looks for the end of the
    month ends: its array of three characters stops it at the latest below minus nine. *)
Theorem kr_date_addmonth_ends text n buf : kr_date_addmonth offset text n buf <> Fault NoFuel.
Proof.
  unfold kr_date_addmonth. apply bind_fuel; [apply part_fuel|]. intros y _. apply bind_fuel; [apply part_fuel|]. intros m _.
  apply bind_fuel; [by destruct (text !! 6%nat)|]. intros first _.
  apply bind_fuel; [destruct (first =? 0); [apply memcpy_fuel|apply part_fuel]|]. intros day Hday.
  assert (Hs : size_of day = 3).
  { destruct (first =? 0); [|by apply (part_size text 6 2)]. vm_compute in Hday. by injection Hday as <-. }
  cbv zeta. apply bind_fuel; [apply memcpy_fuel|]. intros cy _. apply bind_fuel; [apply memcpy_fuel|]. intros cm _.
  apply bind_fuel.
  - apply addmonth_step; [done|]. intros z buf' Hz _. apply addmonth_ends_from; lia.
  - intros [l|] _; [|done]. destruct (first =? 0); [|done]. apply bind_fuel; [apply memcpy_fuel|done].
Qed.

(** ** A day that is none *)

Lemma year_start_next y : year_start (y + 1) = year_start y + 365 + Z.b2z (leap y).
Proof.
  pose proof (Z_div_mod_eq_full (y - 1) 400) as Hz. pose proof (Z.mod_pos_bound (y - 1) 400 ltac:(lia)) as Hb.
  set (k := (y - 1) / 400) in *. set (y0 := (y - 1) mod 400) in *. destruct (year_ok y0 Hb) as (_ & _ & H).
  replace (y + 1) with (y0 + 2 + 400 * k) by lia. replace y with (y0 + 1 + 400 * k) by lia.
  rewrite !year_start_era, leap_era. lia.
Qed.
Lemma days_before_december l : days_before l 11 = 334 + Z.b2z l.
Proof. by destruct l. Qed.
Lemma days_of_next_year y d : days_of (y + 1) 0 d = days_of y 11 (d + 31).
Proof.
  unfold days_of. rewrite year_start_next. change (days_before (leap y) (Z.to_nat 11)) with (days_before (leap y) 11).
  rewrite (days_before_december (leap y)). unfold Z.b2z. simpl. destruct (leap y); lia.
Qed.

(** The days before the first of a month are the last of the month before. *)
Lemma days_before_first y m d : 1 <= y -> 0 <= m < 12 -> -9 <= d <= 0 ->
  exists y2 m2 d2, date_of (days_of y m d) = (y2, m2, d2) /\ y - 1 <= y2 <= y /\ 1 <= d2.
Proof.
  intros Hy Hm Hd. destruct (Z.eq_dec m 0) as [->|Hne].
  - exists (y - 1), 11, (d + 31). split; [|lia]. replace y with (y - 1 + 1) at 1 by lia. rewrite days_of_next_year.
    apply date_of_days, valid_date_iff. change (month_days (leap (y - 1)) 11) with 31. lia.
  - pose proof (month_days_bound (leap y) (m - 1)). exists y, (m - 1), (d + month_days (leap y) (m - 1)). split; [|lia].
    pose proof (days_of_next y (m - 1) (d + month_days (leap y) (m - 1)) ltac:(lia)) as E.
    replace (m - 1 + 1) with m in E by lia. rewrite Z.add_simpl_r in E. rewrite <- E.
    apply date_of_days, valid_date_iff. lia.
Qed.

Lemma addmonth_loop_overflows y m : 1 <= y <= 9999 -> 0 <= m < 12 -> forall fuel d buf,
  (Z.to_nat (d + 9) < fuel)%nat -> -9 <= d <= 0 -> 9 <= size_of buf ->
  addmonth_loop offset fuel (num 4 y ++ [0]) (num 2 (m + 1) ++ [0]) (num 2 d ++ [0]) buf = Fault OutOfBounds.
Proof.
  intros Hy Hm. induction fuel as [|fuel IH]; intros d buf Hf Hd Hbuf; [lia|].
  destruct (days_before_first y m d) as (y2 & m2 & d2 & E & Hy2 & Hd2); [lia..|].
  destruct (days_of_date _ _ _ _ E) as [[Hm2 Hd2']%valid_date_iff _]. pose proof (month_days_bound (leap y2) m2).
  destruct (addmonth_turn fuel y m d y2 m2 d2 buf) as (rest & Hs & ->); [lia..|done|lia|lia|].
  rewrite bool_decide_eq_false_2 by (apply day_text_neq; lia). destruct (Z.eq_dec d (-9)) as [->|Hne]; [done|].
  rewrite (sprintf_number 2 2 d (d - 1)) by (apply num2; lia). cbn [mbind res_bind]. apply IH; lia.
Qed.

(** A date whose day is 00 makes the loop go below zero: it writes over the end of its
    array of the day. *)
Theorem kr_date_addmonth_day_zero y m rest n buf : 0 <= m < 12 -> 0 <= y <= 9999 ->
  1 <= (12 * y + m + n) / 12 <= 9999 -> 9 <= size_of buf ->
  kr_date_addmonth offset (text_of y m 0 ++ rest) n buf = Fault OutOfBounds.
Proof.
  intros Hm Hy Hy' Hbuf. pose proof (addmonth_loop_overflows _ _ Hy' (Z.mod_pos_bound (12 * y + m + n) 12 ltac:(done))
    112 0 buf ltac:(lia) ltac:(lia) Hbuf) as E. rewrite <- (addmonth_months y m n _ buf Hy Hm) in E by lia.
  unfold kr_date_addmonth. rewrite part_year, part_month by lia. cbn [mbind res_bind].
  assert (E6 : (text_of y m 0 ++ rest) !! 6%nat = Some 48).
  { unfold date_text. change (num 2 0) with [48; 48]. rewrite (app_assoc (num 4 y)), <- app_assoc.
    apply (seventh _ 48 [48] rest), size_year_month; lia. }
  rewrite E6. cbn [of_option mbind res_bind]. change (48 =? 0) with false. cbv iota. rewrite part_day by lia. cbn [mbind res_bind].
  cbv zeta in E. destruct (sprintf _ (print_padded 4 _)) as [cy|]; cbn [mbind res_bind] in *; [|congruence].
  destruct (sprintf _ (print_padded 2 _)) as [cm|]; cbn [mbind res_bind] in *; [|congruence]. by rewrite E.
Qed.
End Functions.

(** ** The end of a month *)

Lemma last_day y m : 0 <= m < 12 -> exists y2 m2, date_of (days_of y m (month_days (leap y) m) + 1) = (y2, m2, 1).
Proof.
  intros Hm. pose proof (month_days_bound (leap y) m). destruct (Z.eq_dec m 11) as [->|Hne].
  - exists (y + 1), 0. replace (days_of y 11 (month_days (leap y) 11) + 1) with (days_of (y + 1) 0 1).
    + apply date_of_days, valid_date_iff. pose proof (month_days_bound (leap (y + 1)) 0). lia.
    + rewrite days_of_next_year. change (month_days (leap y) 11) with 31. unfold days_of. lia.
  - exists y, (m + 1). replace (days_of y m (month_days (leap y) m) + 1) with (days_of y (m + 1) 1).
    + apply date_of_days, valid_date_iff. pose proof (month_days_bound (leap y) (m + 1)). lia.
    + pose proof (days_of_next y m (1 + month_days (leap y) m) ltac:(lia)) as E. rewrite Z.add_simpl_r in E. rewrite <- E.
      unfold days_of. lia.
Qed.

Lemma kr_date_isleap_text y rest : 0 <= y <= 9999 -> kr_date_isleap (num 4 y ++ rest) = Ok (leap y).
Proof.
  intros Hy. unfold kr_date_isleap. rewrite (part_number 4 y _ [] (num 4 y) rest) by first [by apply num4|done].
  cbn [mbind res_bind]. rewrite (atoi_number _ _ _ (num4 y Hy)). by rewrite !Z.rem_mod_nonneg by lia.
Qed.

(** The end of a month: the day the function writes over the text is of its month, and
    the day after it is the first of another. A month that is none gives no text. *)
Theorem kr_date_getmonthend_last y m a b rest : 0 <= y <= 9999 -> -10 <= m <= 98 ->
  let text := num 4 y ++ num 2 (m + 1) ++ a :: b :: rest in
  if (0 <=? m) && (m <? 12)
  then exists e y2 m2, kr_date_getmonthend text = Ok (Some (date_text y (m + 1) e ++ rest)) /\
    valid_date y m e = true /\ date_of (days_of y m e + 1) = (y2, m2, 1)
  else kr_date_getmonthend text = Ok None.
Proof.
  intros Hy Hm text. unfold kr_date_getmonthend, text. rewrite (part_number 4 y _ [] (num 4 y) _) by first [by apply num4|done].
  cbn [mbind res_bind]. rewrite (part_number 2 (m + 1) _ (num 4 y) _ (a :: b :: rest) 4) by
    first [apply num2; lia|done|by apply (size_number _ y), num4].
  cbn [mbind res_bind]. rewrite (atoi_number _ _ _ (num2 (m + 1) ltac:(lia))).
  assert (Hput : forall s, size_of (string_bytes s) = 2 ->
    memcpy (num 4 y ++ num 2 (m + 1) ++ a :: b :: rest) 6 (string_bytes s) = Ok (num 4 y ++ num 2 (m + 1) ++ string_bytes s ++ rest)).
  { intros s Hs. rewrite !(app_assoc (num 4 y)). apply (memcpy_eq _ _ [a; b]); [done|apply size_year_month; lia|by rewrite Hs]. }
  destruct (_ && _) eqn:E; zbool; cycle 1.
  { apply andb_false_iff in E. assert (m < 0 \/ 12 <= m) as Hout by (revert E; rewrite Z.leb_gt, Z.ltb_ge; lia).
    by rewrite !(fun k Hk => proj2 (Z.eqb_neq (m + 1) k) Hk) by lia. }
  exists (month_days (leap y) m). destruct (last_day y m) as (y2 & m2 & Hl); [lia|]. exists y2, m2.
  split; [|split; [apply valid_date_iff; pose proof (month_days_bound (leap y) m); lia|done]].
  rewrite kr_date_isleap_text by done. unfold date_text. cbn [mbind res_bind].
  assert (Hc : m = 0 \/ m = 1 \/ m = 2 \/ m = 3 \/ m = 4 \/ m = 5 \/ m = 6 \/ m = 7 \/ m = 8 \/ m = 9 \/ m = 10 \/ m = 11) by lia.
  destruct (leap y); rewrite !Hput by done; destruct_or! Hc; subst m; rewrite <- !app_assoc; reflexivity.
Qed.

(** ** The dates of the history items *)

(** The text that KrData computes with its argument [localtime] is the one written here. *)
Lemma kr_ttime_to_date_data offset n t buf : localtime offset n = Some t -> fits t -> 9 <= size_of buf ->
  let local n := match localtime offset n with Some t => (tm_year t, tm_mon t, tm_mday t) | None => (0, 0, 0) end in
  exists rest, kr_ttime_to_date offset n buf = Ok (string_bytes (KrData.kr_ttime_to_date local n) ++ 0 :: rest).
Proof.
  intros Ht Hf Hbuf local. destruct (sprintf_text buf (print_date t)) as (rest & Hs & _); [rewrite length_print_date by done; lia|].
  exists rest. unfold kr_ttime_to_date, KrData.kr_ttime_to_date, local. by rewrite Ht.
Qed.

(** * Concrete dates: eight hours ahead of UTC *)

#[local] Abbreviation at_ := string_bytes.

Lemma kr_date_isleap_test : kr_date_isleap (at_ "20010101") = Ok false /\ kr_date_isleap (at_ "20080101") = Ok true.
Proof. by vm_compute. Qed.
(** The seconds of 24856 days are over the greatest [int]: the date goes back. *)
Lemma kr_date_addday_overflows :
  kr_date_addday 28800 (at_ "20240101") 24855 (zero_bytes 9) = Ok (Some (at_ "20920119" ++ [0])) /\
  kr_date_addday 28800 (at_ "20240101") 24856 (zero_bytes 9) = Ok (Some (at_ "19551214" ++ [0])).
Proof. by vm_compute. Qed.

Lemma kr_time_addsec_interval_witness :
  let begin := at_ "20240228235950" in
  exists rest, let end_ := at_ "20240301000010" ++ 0 :: rest in
    kr_time_addsec 28800 begin 86420 (zero_bytes 15) = Ok (Some end_) /\ size_of end_ = 15 /\
    kr_time_interval 28800 begin end_ = Ok 86420 /\ kr_time_to_ttime 28800 end_ = Ok 1709222410.
Proof.
  refine (kr_time_addsec_interval 28800 _ (mkTm 124 1 28 23 59 50) [] 86420 (zero_bytes 15) (mkTm 124 2 1 0 0 10) _ _ _ _ _);
    [lia|by repeat split|by vm_compute|by vm_compute|by repeat split|by vm_compute].
Defined.

Lemma kr_date_addmonth_clamps_witness :
  (exists rest, kr_date_addmonth 28800 (at_ "20231231" ++ []) 2 (zero_bytes 9) = Ok (Some (at_ "20240229" ++ 0 :: rest))) /\
  (exists rest, kr_date_addmonth 28800 (at_ "202312" ++ [0]) 2 (zero_bytes 9) = Ok (Some (at_ "202402" ++ 0 :: rest))).
Proof.
  refine (kr_date_addmonth_clamps 28800 _ 2023 11 31 [] 2 (zero_bytes 9) _ _ _ _); by vm_compute.
Defined.
