(* ===== verification/KrDetect.v ===== *)
(** Detection (krengine/kr_engine_detect.c), the events of the engine
    (kr_engine_insert_event and kr_engine_detect_event of kr_engine_handle.c,
    kr_engine_handle of kr_engine.c) and the JSON dump of a context (kr_context.c).

    The first group whose calculator is true is the group of the record; its rules are
    then evaluated in their order.  Groups and rules are reached by their positions in
    the lists of the context.  Names are arguments of the dump, and the order in which
    hash tables are listed is that of the model's maps. *)

From S2P Require Import Prelude KrString KrHashtable KrTypes KrHashset KrJson KrCache KrCalcTree.
From S2P Require Import KrCalcJson KrDb KrDbRun KrDym KrData KrProtocol.
Local Open Scope Z_scope.
#[local] Notation length := List.length.

Section KrDetect.
Context {Data : Type} {SA : SortArgument}.
#[local] Abbreviation ctx := (T_KRContext Data).

(** The shared memory, where the definitions are. *)
Context (shm : T_KRShareMem).
(** [kr_calc_eval] in the context, with the callbacks of the data items. *)
Context (calc_eval : option T_KRCalc -> M ctx (Z * T_KRCalc)).

(** * The lists of the context *)

Definition read_groups : M ctx T_KRGroupList :=
  gets (fun c => of_option NullDeref (grouplist (ptDym c))).
Definition read_group (g : nat) : M ctx T_KRGroup :=
  gets (fun c => gl ← of_option NullDeref (grouplist (ptDym c));
                 of_option BadPointer (groups gl !! g)).
Definition write_group (g : nat) (x : T_KRGroup) : M ctx unit :=
  modify (fun c =>
    match grouplist (ptDym c) with
    | Some gl =>
        with_dym c (mkDym (settable (ptDym c)) (sditable (ptDym c)) (dditable (ptDym c))
          (hditable (ptDym c))
          (Some (mkGroupList (lGroupCnt gl) (<[g := x]> (groups gl)) (groups_tConstructTime gl))))
    | None => c
    end).
Definition read_rule (g r : nat) : M ctx T_KRRule :=
  x ← read_group g; lift (of_option BadPointer (rules (ptRuleList x) !! r)).

Definition with_rules (x : T_KRGroup) (l : T_KRRuleList) : T_KRGroup :=
  mkGroup (ptShmGroupDef x) (lGroupId x) (ptGroupCalc x) l.
Definition write_rule (g r : nat) (y : T_KRRule) : M ctx unit :=
  x ← read_group g;
  let l := ptRuleList x in
  write_group g (with_rules x (mkRuleList (lRuleCnt l) (<[r := y]> (rules l)) (rules_tConstructTime l)
                                 (lFiredRules l) (lFiredWeights l))).

Definition rule_with_calc (y : T_KRRule) (c : T_KRCalc) : T_KRRule :=
  mkRule (ptShmRuleDef y) (lRuleId y) (lRuleWeight y) (Some c) (bViolated y) (rule_ptRelated y).
Definition rule_violated (y : T_KRRule) : T_KRRule :=
  mkRule (ptShmRuleDef y) (lRuleId y) (lRuleWeight y) (ptRuleCalc y) true (rule_ptRelated y).

(** * Detection *)

(** Set, boolean and true. *)
Definition calc_fired (krcalc : T_KRCalc) : res bool :=
  i ← kr_calc_ind krcalc;
  ty ← kr_calc_type krcalc;
  if bool_decide (i = KR_VALUE_SETED) && ty_eq ty KR_TYPE_BOOL
  then v ← kr_calc_value krcalc; b ← get_b v; Ok (negb (b =? 0))
  else Ok false.

Definition kr_rule_detect (g r : nat) : M ctx Z :=
  krrule ← read_rule g r;
  let krrule := kr_rule_init krrule in
  write_rule g r krrule;;
  cur ← curr_rec;
  krtable ← table_of_rec cur;
  def ← lift (rule_def shm (ptShmRuleDef krrule));
  if negb (iTableId krtable =? lRuleDatasrc def) then mret 0
  else
    '(rc, krcalc) ← calc_eval (ptRuleCalc krrule);
    krrule ← read_rule g r;
    let krrule := rule_with_calc krrule krcalc in
    write_rule g r krrule;;
    if negb (rc =? 0) then mret (-1)
    else
      fired ← lift (calc_fired krcalc);
      if (fired : bool) then write_rule g r (rule_violated krrule);; mret 1 else mret 0.

(** The rules from the position [r] on. *)
Fixpoint rule_list_loop (g : nat) (rs : list nat) : M ctx Z :=
  match rs with
  | [] => mret 0
  | r :: rs' =>
      ret ← kr_rule_detect g r;
      if ret =? 1 then
        x ← read_group g;
        krrule ← read_rule g r;
        let l := ptRuleList x in
        write_group g (with_rules x (mkRuleList (lRuleCnt l) (rules l) (rules_tConstructTime l)
                                       (i64 (lFiredRules l + 1))
                                       (i64 (lFiredWeights l + lRuleWeight krrule))));;
        rule_list_loop g rs'
      else if negb (ret =? 0) then mret (-1)
      else rule_list_loop g rs'
  end.

Definition kr_rule_list_detect (g : nat) : M ctx Z :=
  x ← read_group g;
  let l := kr_rule_list_init (ptRuleList x) in
  write_group g (with_rules x l);;
  if lRuleCnt l =? 0 then mret 0
  else
    c ← gets Ok;
    match ptCurrRec c with
    | None => mret (-1)
    | Some _ => rule_list_loop g (seq 0 (length (rules l)))
    end.

Definition group_with_calc (x : T_KRGroup) (c : T_KRCalc) : T_KRGroup :=
  mkGroup (ptShmGroupDef x) (lGroupId x) c (ptRuleList x).

Definition kr_group_match (g : nat) : M ctx Z :=
  x ← read_group g;
  '(rc, krcalc) ← calc_eval (Some (ptGroupCalc x));
  x ← read_group g;
  write_group g (group_with_calc x krcalc);;
  if negb (rc =? 0) then mret (-1)
  else fired ← lift (calc_fired krcalc); mret (if (fired : bool) then 1 else 0).

Fixpoint group_list_loop (gs : list nat) : M ctx Z :=
  match gs with
  | [] => mret 0
  | g :: gs' =>
      ret ← kr_group_match g;
      if ret =? 1 then
        modify (fun c => with_group c (Some g));;
        rc ← kr_rule_list_detect g;
        if negb (rc =? 0) then mret (-1) else mret 0
      else if negb (ret =? 0) then mret (-1)
      else group_list_loop gs'
  end.

Definition kr_engine_detect : M ctx Z :=
  c ← gets Ok;
  match ptCurrRec c, grouplist (ptDym c) with
  | Some _, Some gl =>
      if lGroupCnt gl =? 0 then mret 0 else group_list_loop (seq 0 (length (groups gl)))
  | _, _ => mret (-1)
  end.

(** * The dump of a context (kr_context.c) *)

Context (field_name : Z -> Z -> string) (rule_name : Z -> string).

(** The value of a type added under a name; the address in a pointer field is not
    modelled. *)
Definition _set_cjson_field (ty : E_KRType) (name : string) (v : U_KRValue addr) (json : cJSON)
    : res cJSON :=
  match ty with
  | KR_TYPE_INT => i ← get_i v; Ok (cJSON_AddNumberToObject json name (d_of_Z i))
  | KR_TYPE_LONG => l ← get_l v; Ok (cJSON_AddNumberToObject json name (d_of_Z l))
  | KR_TYPE_DOUBLE => d ← get_d v; Ok (cJSON_AddNumberToObject json name d)
  | KR_TYPE_STRING => s ← get_s v; Ok (cJSON_AddStringToObject json name (default " "%string s))
  | KR_TYPE_POINTER => Fault BadPointer
  | _ => Ok json
  end.

Fixpoint record_fields (h : T_KRDB (Data:=Data)) (r : recptr) (tid : Z) (n : nat) (i : Z) (json : cJSON)
    : res cJSON :=
  match n with
  | O => Ok json
  | S n' =>
      ty ← kr_get_field_type h r i;
      k ← kr_get_field_value h r i;
      v ← deref h k;
      u ← typed_value ty v;
      json ← match u with Some u => _set_cjson_field ty (field_name tid i) u json | None => Ok json end;
      record_fields h r tid n' (i + 1) json
  end.
Definition _set_cjson_record (h : T_KRDB (Data:=Data)) (r : recptr) (json : cJSON) : res cJSON :=
  '(_, t) ← record_table h r;
  record_fields h r (iTableId t) (length (ptFieldDef t)) 0 json.

Fixpoint fold_res {A B} (f : A -> B -> res B) (l : list A) (b : B) : res B :=
  match l with [] => Ok b | a :: l' => b ← f a b; fold_res f l' b end.

Definition ind_code (i : E_KRValueInd) : Z :=
  match i with KR_VALUE_UNSET => 48 | KR_VALUE_SETED => 49 end.

Definition related (h : T_KRDB (Data:=Data)) (l : gset recptr) : res cJSON :=
  fold_res (fun r a => j ← _set_cjson_record h r cJSON_CreateObject; Ok (cJSON_AddItemToArray a j))
    (elements l) cJSON_CreateArray.

Definition item_json (lId : Z) (i : Z) (ty : E_KRType) (v : U_KRValue addr) : res cJSON :=
  _set_cjson_field ty "value" v
    (cJSON_AddNumberToObject (cJSON_AddNumberToObject cJSON_CreateObject "id" (d_of_Z lId))
       "valueind" (d_of_Z i)).

Definition _add_sdi (h : T_KRDB (Data:=Data)) (i : T_KRSDI) (sdis : cJSON) : res cJSON :=
  sdi ← item_json (lSDIId i) (ind_code (sdi_eValueInd i)) (sdi_eValueType i) (sdi_uValue i);
  rel ← related h (sdi_ptRelated i);
  Ok (cJSON_AddItemToArray sdis (cJSON_AddItemToObject sdi "related" rel)).
Definition _add_ddi (h : T_KRDB (Data:=Data)) (i : T_KRDDI) (ddis : cJSON) : res cJSON :=
  ddi ← item_json (lDDIId i) (ind_code (ddi_eValueInd i)) (ddi_eValueType i) (ddi_uValue i);
  rel ← related h (ddi_ptRelated i);
  Ok (cJSON_AddItemToArray ddis (cJSON_AddItemToObject ddi "related" rel)).
Definition _add_hdi (i : T_KRHDI) (hdis : cJSON) : res cJSON :=
  hdi ← item_json (lHDIId i) (match hdi_eValueInd i with Some x => ind_code x | None => 0 end)
          (hdi_eValueType i) (hdi_uValue i);
  Ok (cJSON_AddItemToArray hdis hdi).

Definition _add_rule (y : T_KRRule) (rules : cJSON) : res cJSON :=
  krcalc ← of_option NullDeref (ptRuleCalc y);
  def ← rule_def shm (ptShmRuleDef y);
  v ← kr_calc_value krcalc; b ← get_b v;
  Ok (cJSON_AddItemToArray rules
        (cJSON_AddNumberToObject
           (cJSON_AddStringToObject
              (cJSON_AddNumberToObject cJSON_CreateObject "id" (d_of_Z (lRuleId y)))
              "name" (rule_name (rd_id def)))
           "result" (d_of_Z b))).

Definition kr_context_dump_json (c : ctx) : res cJSON :=
  g ← of_option NullDeref (ptGroup c);
  gl ← of_option NullDeref (grouplist (ptDym c));
  krgroup ← of_option BadPointer (groups gl !! g);
  let alert := cJSON_AddNumberToObject cJSON_CreateObject "groupid" (d_of_Z (lGroupId krgroup)) in
  cur ← of_option NullDeref (ptCurrRec c);
  currec ← _set_cjson_record (ptKRDB c) cur cJSON_CreateObject;
  let alert := cJSON_AddItemToObject alert "currec" currec in
  rs ← fold_res _add_rule (rules (ptRuleList krgroup)) cJSON_CreateArray;
  let alert := cJSON_AddItemToObject alert "rules" rs in
  sdis ← fold_res (_add_sdi (ptKRDB c)) (snd <$> map_to_list (items_ (sditable (ptDym c)))) cJSON_CreateArray;
  ddis ← fold_res (_add_ddi (ptKRDB c)) (snd <$> map_to_list (items_ (dditable (ptDym c)))) cJSON_CreateArray;
  hdis ← fold_res _add_hdi (snd <$> map_to_list (items_ (hditable (ptDym c)))) cJSON_CreateArray;
  let datas := cJSON_AddItemToObject (cJSON_AddItemToObject (cJSON_AddItemToObject cJSON_CreateObject
                 "sdis" sdis) "ddis" ddis) "hdis" hdis in
  Ok (cJSON_AddItemToObject alert "datas" datas).

(** * Events *)

(** The type of a reply, and its text when it has one. *)
Definition reply : Type := E_KRMsgType * option cJSON.

Definition insert_current (datasrc : Z) (msg : Data) : M ctx bool := fun c =>
  match kr_db_insert datasrc msg (ptKRDB c) with
  | Ok (r, h) =>
      Ok (match r with Some _ => true | None => false end,
          mkContext h (ptHDICache c) (objects c) (ptDym c) r (ptGroup c) (eKeyType c)
            (pKeyValue c) (ptRecList c) (ptRecord c))
  | Fault f => Fault f
  end.

Definition kr_engine_insert_event (datasrc : Z) (msg : Data) : M ctx reply :=
  ok ← insert_current datasrc msg;
  if negb (ok : bool) then mret (KR_MSGTYPE_ERROR, None) else mret (KR_MSGTYPE_SUCCESS, None).

Definition kr_engine_detect_event (datasrc : Z) (msg : Data) : M ctx reply :=
  ok ← insert_current datasrc msg;
  if negb (ok : bool) then mret (KR_MSGTYPE_ERROR, None)
  else
    rc ← kr_engine_detect;
    if negb (rc =? 0) then mret (KR_MSGTYPE_ERROR, None)
    else j ← gets kr_context_dump_json; mret (KR_MSGTYPE_SUCCESS, Some j).

End KrDetect.

(** * What detection computes *)

Section DetectLemmas.
Context {Data : Type} {SA : SortArgument}.
#[local] Abbreviation ctx := (T_KRContext Data).
Context (shm : T_KRShareMem).
Context (calc_eval : option T_KRCalc -> M ctx (Z * T_KRCalc)).
Implicit Types (c : ctx).

Definition with_groups c (gl : option T_KRGroupList) : ctx :=
  with_dym c (mkDym (settable (ptDym c)) (sditable (ptDym c)) (dditable (ptDym c))
    (hditable (ptDym c)) gl).

(** [J]: what the calculators rely on, which the lists of groups are no part of. *)
Context (J : ctx -> Prop).
Context (J_groups : forall c gl g, J c -> J (with_group (with_groups c gl) g)).

(** What an evaluation leaves alone. *)
Definition keeps_groups c c' : Prop :=
  grouplist (ptDym c') = grouplist (ptDym c) /\ ptCurrRec c' = ptCurrRec c /\
  ptGroup c' = ptGroup c /\ ptKRDB c' = ptKRDB c.

(** The answer of a calculator wherever [J] holds. *)
Definition answers (k : T_KRCalc) (b : bool) : Prop := forall c, J c ->
  exists k' c', calc_eval (Some k) c = Ok (0, k', c') /\ J c' /\ keeps_groups c c' /\
    calc_fired k' = Ok b.

(** The state of the lists during detection. *)
Record at_groups c (gl : T_KRGroupList) (cur : recptr) (tid : Z) : Prop := {
  ag_list : grouplist (ptDym c) = Some gl;
  ag_cur : ptCurrRec c = Some cur;
  ag_tid : exists p t, record_table (ptKRDB c) cur = Ok (p, t) /\ iTableId t = tid;
  ag_J : J c
}.

Definition upd_group (gl : T_KRGroupList) (g : nat) (x : T_KRGroup) : T_KRGroupList :=
  mkGroupList (lGroupCnt gl) (<[g := x]> (groups gl)) (groups_tConstructTime gl).

Lemma J_with_groups c gl : J c -> J (with_groups c gl).
Proof. intros Hc. pose proof (J_groups c gl (ptGroup c) Hc) as H. by destruct c. Qed.

Lemma write_group_spec c gl cur tid g x : at_groups c gl cur tid ->
  exists c', write_group g x c = Ok (tt, c') /\ at_groups c' (upd_group gl g x) cur tid /\
    ptGroup c' = ptGroup c.
Proof.
  intros [Hl Hc Ht HJ]. exists (with_groups c (Some (upd_group gl g x))).
  split; [unfold write_group, modify; by rewrite Hl|]. split; [|done].
  split; [done|done|done|]. by apply J_with_groups.
Qed.

Lemma read_group_spec c gl cur tid g x : at_groups c gl cur tid -> groups gl !! g = Some x ->
  read_group g c = Ok (x, c).
Proof. intros [Hl _ _ _] Hx. unfold read_group, gets. rewrite Hl. simpl. by rewrite Hx. Qed.

Lemma read_rule_spec c gl cur tid g x r y : at_groups c gl cur tid -> groups gl !! g = Some x ->
  rules (ptRuleList x) !! r = Some y -> read_rule g r c = Ok (y, c).
Proof.
  intros Ha Hx Hy. unfold read_rule, mbind, M_bind. rewrite (read_group_spec _ _ _ _ _ _ Ha Hx).
  unfold lift. by rewrite Hy.
Qed.

Definition upd_rules (x : T_KRGroup) (ys : list T_KRRule) : T_KRGroup :=
  with_rules x (mkRuleList (lRuleCnt (ptRuleList x)) ys (rules_tConstructTime (ptRuleList x))
                  (lFiredRules (ptRuleList x)) (lFiredWeights (ptRuleList x))).

Lemma write_rule_spec c gl cur tid g x r y : at_groups c gl cur tid -> groups gl !! g = Some x ->
  exists c', write_rule g r y c = Ok (tt, c') /\
    at_groups c' (upd_group gl g (upd_rules x (<[r := y]> (rules (ptRuleList x))))) cur tid /\
    ptGroup c' = ptGroup c.
Proof.
  intros Ha Hx. unfold write_rule, mbind, M_bind. rewrite (read_group_spec _ _ _ _ _ _ Ha Hx).
  by apply write_group_spec.
Qed.

Lemma upd_group_lookup gl g x x0 : groups gl !! g = Some x0 -> groups (upd_group gl g x) !! g = Some x.
Proof. intros Hx. simpl. apply list_lookup_insert_eq. by eapply lookup_lt_Some. Qed.
Lemma upd_group_twice gl g x y : upd_group (upd_group gl g x) g y = upd_group gl g y.
Proof. unfold upd_group. simpl. by rewrite list_insert_insert_eq. Qed.

Lemma eval_spec c gl cur tid k b : at_groups c gl cur tid -> answers k b ->
  exists k' c', calc_eval (Some k) c = Ok (0, k', c') /\ at_groups c' gl cur tid /\
    ptGroup c' = ptGroup c /\ calc_fired k' = Ok b.
Proof.
  intros [Hl Hc Ht HJ] Hk. destruct (Hk c HJ) as (k' & c' & Hrun & HJ' & (H1 & H2 & H3 & H4) & Hf).
  exists k', c'. split; [done|]. split; [|done]. split; [congruence|congruence| |done].
  by rewrite H4.
Qed.

(** A rule has a definition; one that is evaluated has a calculator that answers. *)
Definition rule_answers (tid : Z) (y : T_KRRule) (b : bool) : Prop :=
  exists d, rule_def shm (ptShmRuleDef y) = Ok d /\
    if lRuleDatasrc d =? tid then exists k, ptRuleCalc y = Some k /\ answers k b else b = false.

(** A rule after its detection. *)
Definition rule_after (y : T_KRRule) (b : bool) (y' : T_KRRule) : Prop :=
  ptShmRuleDef y' = ptShmRuleDef y /\ lRuleId y' = lRuleId y /\ lRuleWeight y' = lRuleWeight y /\
  bViolated y' = b.

Lemma rule_detect_spec c gl cur tid g x r y b :
  at_groups c gl cur tid -> groups gl !! g = Some x -> rules (ptRuleList x) !! r = Some y ->
  rule_answers tid y b ->
  exists y' c', kr_rule_detect shm calc_eval g r c = Ok ((if b then 1 else 0), c') /\
    at_groups c' (upd_group gl g (upd_rules x (<[r := y']> (rules (ptRuleList x))))) cur tid /\
    ptGroup c' = ptGroup c /\ rule_after y b y'.
Proof.
  intros Ha Hx Hy Hans. set (ys := rules (ptRuleList x)) in *.
  assert (Hlen : (r < length ys)%nat) by by eapply lookup_lt_Some.
  unfold kr_rule_detect, mbind, M_bind. rewrite (read_rule_spec _ _ _ _ _ _ _ _ Ha Hx Hy).
  destruct (write_rule_spec c gl cur tid g x r (kr_rule_init y) Ha Hx) as (c1 & -> & Ha1 & Hg1).
  fold ys in Ha1. set (x1 := upd_rules x (<[r := kr_rule_init y]> ys)) in *.
  pose proof (upd_group_lookup gl g x1 x Hx) as Hx1.
  assert (Hy1 : rules (ptRuleList x1) !! r = Some (kr_rule_init y))
    by (simpl; by apply list_lookup_insert_eq).
  unfold curr_rec, gets, table_of_rec. rewrite (ag_cur _ _ _ _ Ha1). simpl of_option. cbv iota.
  destruct (ag_tid _ _ _ _ Ha1) as (p & t & Ht & Htid). unfold gets. rewrite Ht. simpl (mbind _ (Ok _)). cbv iota beta.
  destruct Hans as (d & Hd & Hans). unfold lift at 1.
  change (ptShmRuleDef (kr_rule_init y)) with (ptShmRuleDef y). rewrite Hd, Htid, Z.eqb_sym.
  destruct (lRuleDatasrc d =? tid); cbn [negb Z.eqb].
  2:{ subst b. exists (kr_rule_init y), c1. split; [done|]. split; [exact Ha1|]. by split. }
  destruct Hans as (k & Hk & Hans). change (ptRuleCalc (kr_rule_init y)) with (ptRuleCalc y). rewrite Hk.
  destruct (eval_spec _ _ _ _ k b Ha1 Hans) as (k' & c2 & -> & Ha2 & Hg2 & Hf).
  rewrite (read_rule_spec _ _ _ _ _ _ _ _ Ha2 Hx1 Hy1).
  destruct (write_rule_spec c2 _ cur tid g x1 r (rule_with_calc (kr_rule_init y) k') Ha2 Hx1)
    as (c3 & -> & Ha3 & Hg3).
  cbn [negb Z.eqb]. unfold lift. rewrite Hf.
  assert (Hstep : forall z, upd_group (upd_group gl g x1) g
      (upd_rules x1 (<[r := z]> (rules (ptRuleList x1)))) = upd_group gl g (upd_rules x (<[r := z]> ys))).
  { intros z. rewrite upd_group_twice. unfold x1, upd_rules. simpl. by rewrite list_insert_insert_eq. }
  rewrite Hstep in Ha3. destruct b.
  - set (x3 := upd_rules x (<[r := rule_with_calc (kr_rule_init y) k']> ys)) in *.
    destruct (write_rule_spec c3 _ cur tid g x3 r (rule_violated (rule_with_calc (kr_rule_init y) k'))
      Ha3 (upd_group_lookup gl g x3 x Hx)) as (c4 & -> & Ha4 & Hg4).
    eexists _, c4. split; [done|]. rewrite upd_group_twice in Ha4. unfold x3, upd_rules in Ha4. simpl in Ha4.
    rewrite list_insert_insert_eq in Ha4. split; [exact Ha4|]. split; [congruence|]. by split.
  - eexists _, c3. split; [done|]. split; [exact Ha3|]. split; [congruence|]. by split.
Qed.

Lemma kr_rule_init_answers tid y b : rule_answers tid (kr_rule_init y) b <-> rule_answers tid y b.
Proof. done. Qed.

(** The count and the weight of the rules that fired. *)
Definition fired_weights (l : list (T_KRRule * bool)) : Z :=
  foldr (fun (yb : T_KRRule * bool) s => (if yb.2 then lRuleWeight yb.1 else 0) + s) 0 l.
Definition fired_count (l : list (T_KRRule * bool)) : Z :=
  foldr (fun (yb : T_KRRule * bool) s => (if yb.2 then 1 else 0) + s) 0 l.

Definition set_fired (x : T_KRGroup) (ys : list T_KRRule) (n w : Z) : T_KRGroup :=
  with_rules x (mkRuleList (lRuleCnt (ptRuleList x)) ys (rules_tConstructTime (ptRuleList x)) n w).

Lemma rule_list_spec tid cur gl g x : forall (todo : list T_KRRule) (bs : list bool) dn c n w,
  at_groups c (upd_group gl g (set_fired x (dn ++ todo) n w)) cur tid -> groups gl !! g = Some x ->
  Forall2 (rule_answers tid) todo bs -> i64 n = n -> i64 w = w ->
  exists ys c', rule_list_loop shm calc_eval g (seq (length dn) (length todo)) c = Ok (0, c') /\
    Forall2 (fun yb y' => rule_after yb.1 yb.2 y') (zip todo bs) ys /\
    at_groups c' (upd_group gl g (set_fired x (dn ++ ys)
      (i64 (n + fired_count (zip todo bs))) (i64 (w + fired_weights (zip todo bs))))) cur tid /\
    ptGroup c' = ptGroup c.
Proof.
  induction todo as [|y todo IH]; intros bs dn c n w Ha Hx Hbs Hn Hw.
  { apply Forall2_nil_inv_l in Hbs as ->. exists [], c. split; [done|]. split; [by constructor|].
    simpl. rewrite !Z.add_0_r, Hn, Hw. done. }
  apply Forall2_cons_inv_l in Hbs as (b & bs' & Hb & Hbs & ->).
  set (x0 := set_fired x (dn ++ y :: todo) n w) in *.
  pose proof (upd_group_lookup gl g x0 x Hx) as Hx0.
  assert (Hy : rules (ptRuleList x0) !! length dn = Some y) by (simpl; by apply list_lookup_middle).
  destruct (rule_detect_spec c _ cur tid g x0 (length dn) y b Ha Hx0 Hy Hb)
    as (y' & c1 & Hrun & Ha1 & Hg1 & Haft).
  rewrite upd_group_twice in Ha1.
  assert (Hins : <[length dn := y']> (rules (ptRuleList x0)) = (dn ++ [y']) ++ todo).
  { simpl. rewrite <- app_assoc. replace (length dn) with (length dn + 0)%nat by lia. by rewrite insert_app_r. }
  rewrite Hins in Ha1.
  change (upd_rules x0 ((dn ++ [y']) ++ todo)) with (set_fired x ((dn ++ [y']) ++ todo) n w) in Ha1.
  assert (Hnext : exists c2 n2 w2, 
    at_groups c2 (upd_group gl g (set_fired x ((dn ++ [y']) ++ todo) n2 w2)) cur tid /\
    n2 = i64 (n + (if b then 1 else 0)) /\ w2 = i64 (w + (if b then lRuleWeight y else 0)) /\
    ptGroup c2 = ptGroup c /\
    rule_list_loop shm calc_eval g (seq (length dn) (length (y :: todo))) c =
      rule_list_loop shm calc_eval g (seq (length (dn ++ [y'])) (length todo)) c2).
  { rewrite length_app. simpl. rewrite Nat.add_1_r. unfold mbind, M_bind. rewrite Hrun.
    destruct b; cbn [Z.eqb Pos.eqb negb].
    - set (x1 := set_fired x ((dn ++ [y']) ++ todo) n w) in *.
      pose proof (upd_group_lookup gl g x1 x Hx) as Hx1.
      rewrite (read_group_spec _ _ _ _ _ _ Ha1 Hx1).
      assert (Hy1 : rules (ptRuleList x1) !! length dn = Some y').
      { simpl. rewrite <- app_assoc. by apply list_lookup_middle. }
      rewrite (read_rule_spec _ _ _ _ _ _ _ _ Ha1 Hx1 Hy1).
      destruct (write_group_spec c1 _ cur tid g (set_fired x1 (rules (ptRuleList x1))
        (i64 (lFiredRules (ptRuleList x1) + 1)) (i64 (lFiredWeights (ptRuleList x1) + lRuleWeight y'))) Ha1)
        as (c2 & Hw2 & Ha2 & Hg2).
      unfold set_fired at 1 in Hw2. rewrite Hw2. rewrite upd_group_twice in Ha2.
      eexists c2, _, _. split; [exact Ha2|]. split; [done|].
      destruct Haft as (_ & _ & -> & _). split; [done|]. split; [congruence|done].
    - exists c1, n, w. rewrite !Z.add_0_r, Hn, Hw. split; [done|]. done. }
  destruct Hnext as (c2 & n2 & w2 & Ha2 & Hn2 & Hw2 & Hg2 & ->).
  destruct (IH bs' (dn ++ [y']) c2 n2 w2 Ha2 Hx Hbs) as (ys & c3 & Hrun3 & Hys & Ha3 & Hg3).
  { rewrite Hn2. by apply wraps_wraps. }
  { rewrite Hw2. by apply wraps_wraps. }
  exists (y' :: ys), c3. split; [done|]. split; [by constructor|]. split; [|congruence].
  rewrite <- app_assoc in Ha3. rewrite Hn2, Hw2, !wraps_add_l, <- !Z.add_assoc in Ha3.
  exact Ha3.
Qed.

Lemma zip_init (ys : list T_KRRule) (bs : list bool) :
  zip (map kr_rule_init ys) bs = map (fun yb => (kr_rule_init yb.1, yb.2)) (zip ys bs).
Proof. revert bs. induction ys as [|y ys IH]; intros [|b bs]; try done. simpl. by rewrite <- IH. Qed.

Lemma rule_list_detect_spec c gl cur tid g x bs :
  at_groups c gl cur tid -> groups gl !! g = Some x ->
  lRuleCnt (ptRuleList x) = Z.of_nat (length (rules (ptRuleList x))) ->
  Forall2 (rule_answers tid) (rules (ptRuleList x)) bs ->
  let fired := zip (rules (ptRuleList x)) bs in
  exists ys c', kr_rule_list_detect shm calc_eval g c = Ok (0, c') /\
    Forall2 (fun yb y' => rule_after yb.1 yb.2 y') fired ys /\
    at_groups c' (upd_group gl g (set_fired x ys (i64 (fired_count fired)) (i64 (fired_weights fired))))
      cur tid /\ ptGroup c' = ptGroup c.
Proof.
  intros Ha Hx Hcnt Hans. cbv zeta. unfold kr_rule_list_detect, mbind at 1, M_bind at 1.
  rewrite (read_group_spec _ _ _ _ _ _ Ha Hx).
  set (l := kr_rule_list_init (ptRuleList x)).
  destruct (write_group_spec c gl cur tid g (with_rules x l) Ha) as (c1 & Hw & Ha1 & Hg1).
  unfold mbind at 1, M_bind at 1. rewrite Hw.
  assert (Hl : with_rules x l = set_fired x (map kr_rule_init (rules (ptRuleList x))) 0 0) by done.
  assert (Hlr : lRuleCnt l = Z.of_nat (length (rules (ptRuleList x)))) by done.
  assert (Hinit : forall bs, Forall2 (rule_answers tid) (rules (ptRuleList x)) bs ->
    Forall2 (rule_answers tid) (map kr_rule_init (rules (ptRuleList x))) bs).
  { intros bs' Hb. by apply Forall2_fmap_l. }
  pose proof (zip_init (rules (ptRuleList x)) bs) as Hzip.
  destruct (rules (ptRuleList x)) as [|y ys0] eqn:Hys.
  - apply Forall2_nil_inv_l in Hans as ->. rewrite Hlr. cbn [length Z.of_nat Z.eqb].
    exists [], c1. split; [done|]. split; [by constructor|]. rewrite Hl in Ha1. by split.
  - assert ((lRuleCnt l =? 0) = false) as -> by (rewrite Hlr; simpl; lia).
    unfold mbind at 1, M_bind at 1, gets at 1. rewrite (ag_cur _ _ _ _ Ha1). rewrite Hl in Ha1.
    assert (Hrl : rules l = map kr_rule_init (y :: ys0)) by (unfold l; simpl; by rewrite Hys).
    rewrite Hrl. destruct (rule_list_spec tid cur gl g x (map kr_rule_init (y :: ys0)) bs [] c1 0 0 Ha1 Hx
      (Hinit bs Hans) eq_refl eq_refl) as (zs & c2 & Hrun & Hzs & Ha2 & Hg2).
    exists zs, c2. split; [exact Hrun|]. rewrite Hzip in Hzs, Ha2.
    assert (Hcw : fired_count (map (fun yb => (kr_rule_init yb.1, yb.2)) (zip (y :: ys0) bs)) =
        fired_count (zip (y :: ys0) bs) /\
      fired_weights (map (fun yb => (kr_rule_init yb.1, yb.2)) (zip (y :: ys0) bs)) =
        fired_weights (zip (y :: ys0) bs)).
    { clear. induction (zip (y :: ys0) bs) as [|z zs IH]; [done|]. simpl.
      destruct IH as [-> ->]. done. }
    destruct Hcw as [Hc Hw']. rewrite Hc, Hw' in Ha2. split; [|by split; [|congruence]].
    apply Forall2_fmap_l in Hzs. exact Hzs.
Qed.

Lemma group_match_spec c gl cur tid g x b :
  at_groups c gl cur tid -> groups gl !! g = Some x -> answers (ptGroupCalc x) b ->
  exists k c', kr_group_match calc_eval g c = Ok ((if b then 1 else 0), c') /\
    at_groups c' (upd_group gl g (group_with_calc x k)) cur tid /\ ptGroup c' = ptGroup c.
Proof.
  intros Ha Hx Hans. unfold kr_group_match, mbind, M_bind. rewrite (read_group_spec _ _ _ _ _ _ Ha Hx).
  destruct (eval_spec _ _ _ _ _ b Ha Hans) as (k & c1 & -> & Ha1 & Hg1 & Hf).
  rewrite (read_group_spec _ _ _ _ _ _ Ha1 Hx).
  destruct (write_group_spec c1 gl cur tid g (group_with_calc x k) Ha1) as (c2 & -> & Ha2 & Hg2).
  exists k, c2. cbn [negb Z.eqb]. unfold lift. rewrite Hf. split; [done|]. split; [done|congruence].
Qed.

(** The rules of the group that is found. *)
Definition group_fired (x : T_KRGroup) (bs : list bool) (x' : T_KRGroup) : Prop :=
  let fired := zip (rules (ptRuleList x)) bs in
  ptShmGroupDef x' = ptShmGroupDef x /\ lGroupId x' = lGroupId x /\
  Forall2 (fun yb y' => rule_after yb.1 yb.2 y') fired (rules (ptRuleList x')) /\
  lFiredRules (ptRuleList x') = i64 (fired_count fired) /\
  lFiredWeights (ptRuleList x') = i64 (fired_weights fired).

Fixpoint first_true (vs : list bool) : option nat :=
  match vs with
  | [] => None
  | true :: _ => Some O
  | false :: vs' => S <$> first_true vs'
  end.

(** The outcome of the search from the state [gl0], whose groups before [j] were tried. *)
Definition found (gl : T_KRGroupList) (bss : nat -> list bool) (sel : option nat) (gr : option nat)
    (gl' : T_KRGroupList) (gr' : option nat) : Prop :=
  match sel with
  | None => gr' = gr /\ map ptRuleList (groups gl') = map ptRuleList (groups gl)
  | Some g => gr' = Some g /\
      (exists x x', groups gl !! g = Some x /\ groups gl' !! g = Some x' /\ group_fired x (bss g) x') /\
      forall i, i <> g -> ptRuleList <$> groups gl' !! i = ptRuleList <$> groups gl !! i
  end.

Lemma group_loop_spec gl cur tid vs bss :
  Forall2 (fun x v => answers (ptGroupCalc x) v) (groups gl) vs ->
  forall n j c gl1, (j + n = length (groups gl))%nat -> at_groups c gl1 cur tid ->
  length (groups gl1) = length (groups gl) ->
  (forall i, (j <= i)%nat -> groups gl1 !! i = groups gl !! i) ->
  (forall i, ptRuleList <$> groups gl1 !! i = ptRuleList <$> groups gl !! i) ->
  (forall g x, groups gl !! g = Some x -> Nat.add j <$> first_true (drop j vs) = Some g ->
     lRuleCnt (ptRuleList x) = Z.of_nat (length (rules (ptRuleList x))) /\
     Forall2 (rule_answers tid) (rules (ptRuleList x)) (bss g)) ->
  exists c' gl', group_list_loop shm calc_eval (seq j n) c = Ok (0, c') /\ at_groups c' gl' cur tid /\
    found gl bss (Nat.add j <$> first_true (drop j vs)) (ptGroup c) gl' (ptGroup c').
Proof.
  intros Hvs. induction n as [|n IH]; intros j c gl1 Hj Ha Hlen Hsame Hrules Hbss.
  { exists c, gl1. split; [done|]. split; [done|].
    rewrite drop_ge by (rewrite <- (Forall2_length _ _ _ Hvs); lia). split; [done|].
    apply list_eq. intros i. rewrite !list_lookup_fmap. apply Hrules. }
  assert (Hjl : (j < length (groups gl))%nat) by lia.
  destruct (lookup_lt_is_Some_2 (groups gl) j Hjl) as [x Hx].
  destruct (Forall2_lookup_l _ _ _ _ _ Hvs Hx) as (b & Hb & Hans).
  rewrite (drop_S vs b j Hb) in Hbss |- *. simpl seq. simpl group_list_loop.
  assert (Hx1 : groups gl1 !! j = Some x) by by rewrite Hsame.
  destruct (group_match_spec c gl1 cur tid j x b Ha Hx1 Hans) as (k & c1 & Hrun & Ha1 & Hg1).
  unfold mbind at 1, M_bind at 1. rewrite Hrun.
  assert (Hupd : forall i, i <> j -> groups (upd_group gl1 j (group_with_calc x k)) !! i = groups gl1 !! i)
    by (intros i Hi; simpl; by apply list_lookup_insert_ne).
  pose proof (upd_group_lookup gl1 j (group_with_calc x k) x Hx1) as Hxj.
  destruct b; cbn [Z.eqb Pos.eqb negb].
  - set (c2 := with_group c1 (Some j)).
    assert (Ha2 : at_groups c2 (upd_group gl1 j (group_with_calc x k)) cur tid).
    { destruct Ha1 as [Hl Hc Ht HJ]. split; [done|done|done|].
      pose proof (J_groups c1 (grouplist (ptDym c1)) (Some j) HJ) as H. by destruct c1 as [? ? ? [] ? ? ? ? ? ?]. }
    destruct (Hbss j x Hx) as [Hcnt Hr]; [simpl; f_equal; lia|].
    destruct (rule_list_detect_spec c2 _ cur tid j (group_with_calc x k) (bss j) Ha2 Hxj Hcnt Hr)
      as (ys & c3 & Hrun3 & Hys & Ha3 & Hg3).
    exists c3, (upd_group (upd_group gl1 j (group_with_calc x k)) j
      (set_fired (group_with_calc x k) ys (i64 (fired_count (zip (rules (ptRuleList x)) (bss j))))
         (i64 (fired_weights (zip (rules (ptRuleList x)) (bss j)))))).
    split; [unfold mbind, M_bind, modify; fold c2; by rewrite Hrun3|]. split; [exact Ha3|].
    simpl. rewrite Nat.add_0_r.
    split; [by rewrite Hg3|]. split.
    + exists x, (set_fired (group_with_calc x k) ys (i64 (fired_count (zip (rules (ptRuleList x)) (bss j))))
         (i64 (fired_weights (zip (rules (ptRuleList x)) (bss j))))).
      split; [done|]. split; [by apply (upd_group_lookup _ j _ _ Hxj)|]. by repeat split.
    + intros i Hi. rewrite <- Hrules. rewrite list_lookup_insert_ne by done. simpl.
      by rewrite list_lookup_insert_ne.
  - destruct (IH (S j) c1 (upd_group gl1 j (group_with_calc x k))) as (c' & gl' & Hrun' & Ha' & Hf).
    + lia.
    + done.
    + simpl. by rewrite length_insert.
    + intros i Hi. rewrite Hupd by lia. apply Hsame. lia.
    + intros i. destruct (decide (i = j)) as [->|Hi]; [by rewrite Hxj, <- Hrules, Hx1|].
      by rewrite Hupd.
    + intros g y Hy Hg. apply (Hbss g y Hy). rewrite <- Hg. simpl.
      destruct (first_true (drop (S j) vs)) as [i|]; [|done]. simpl. f_equal. lia.
    + exists c', gl'. split; [exact Hrun'|]. split; [done|]. rewrite Hg1 in Hf.
      cbn [first_true]. destruct (first_true (drop (S j) vs)) as [i|]; simpl in *; [|done].
      by replace (j + S i)%nat with (S (j + i)) by lia.
Qed.

Lemma engine_detect_spec c gl cur tid vs bss :
  at_groups c gl cur tid -> lGroupCnt gl = Z.of_nat (length (groups gl)) ->
  Forall2 (fun x v => answers (ptGroupCalc x) v) (groups gl) vs ->
  (forall g x, groups gl !! g = Some x -> first_true vs = Some g ->
     lRuleCnt (ptRuleList x) = Z.of_nat (length (rules (ptRuleList x))) /\
     Forall2 (rule_answers tid) (rules (ptRuleList x)) (bss g)) ->
  exists c' gl', kr_engine_detect shm calc_eval c = Ok (0, c') /\ at_groups c' gl' cur tid /\
    found gl bss (first_true vs) (ptGroup c) gl' (ptGroup c').
Proof.
  intros Ha Hcnt Hvs Hbss. unfold kr_engine_detect, mbind, M_bind, gets at 1.
  rewrite (ag_cur _ _ _ _ Ha), (ag_list _ _ _ _ Ha).
  destruct (Z.eqb_spec (lGroupCnt gl) 0) as [H0|H0].
  - exists c, gl. split; [done|]. split; [done|].
    assert (Hnil : groups gl = []) by (apply length_zero_iff_nil; lia).
    rewrite Hnil in Hvs. by apply Forall2_nil_inv_l in Hvs as ->.
  - destruct (group_loop_spec gl cur tid vs bss Hvs (length (groups gl)) 0 c gl)
      as (c' & gl' & Hrun & Ha' & Hf); try done.
    { intros g x Hx Hg. apply (Hbss g x Hx). rewrite <- Hg, drop_0. by destruct (first_true vs). }
    exists c', gl'. split; [exact Hrun|]. split; [done|].
    rewrite drop_0 in Hf. by destruct (first_true vs).
Qed.

(** C1. When every group calculator answers (group [g] with [vs !! g]) and the rules of
    the group that is found answer, detection succeeds; it makes the first group whose
    calculator is true the group of the context, marks exactly the rules of that group
    whose source is the record's and whose calculator is true, counts them and adds up
    their weights, and leaves the rules of every other group alone.  With no true group
    nothing but calculators is touched. *)
Theorem kr_engine_detect_selects c gl cur tid vs bss :
  at_groups c gl cur tid -> lGroupCnt gl = Z.of_nat (length (groups gl)) ->
  Forall2 (fun x v => answers (ptGroupCalc x) v) (groups gl) vs ->
  (forall g x, groups gl !! g = Some x -> first_true vs = Some g ->
     lRuleCnt (ptRuleList x) = Z.of_nat (length (rules (ptRuleList x))) /\
     Forall2 (rule_answers tid) (rules (ptRuleList x)) (bss g)) ->
  exists c' gl', kr_engine_detect shm calc_eval c = Ok (0, c') /\ at_groups c' gl' cur tid /\
    found gl bss (first_true vs) (ptGroup c) gl' (ptGroup c').
Proof. apply engine_detect_spec. Qed.

(** A record that falls in no group: detection succeeds, no group is set, and the
    event then dumps the context through the group's null pointer. *)
Theorem kr_engine_detect_event_ungrouped field_name rule_name datasrc msg c c1 gl cur tid vs :
  insert_current datasrc msg c = Ok (true, c1) -> ptGroup c1 = None ->
  at_groups c1 gl cur tid -> lGroupCnt gl = Z.of_nat (length (groups gl)) ->
  Forall2 (fun x v => answers (ptGroupCalc x) v) (groups gl) vs -> first_true vs = None ->
  (exists c', kr_engine_detect shm calc_eval c1 = Ok (0, c')) /\
  kr_engine_detect_event shm calc_eval field_name rule_name datasrc msg c = Fault NullDeref.
Proof.
  intros Hins Hg Ha Hcnt Hvs Hno.
  destruct (engine_detect_spec c1 gl cur tid vs (fun _ => []) Ha Hcnt Hvs) as (c' & gl' & Hrun & _ & Hf).
  { intros g x _ Hv. congruence. }
  split; [by exists c'|].
  unfold kr_engine_detect_event, mbind, M_bind. rewrite Hins. cbn [negb]. rewrite Hrun. cbn [negb Z.eqb].
  rewrite Hno in Hf. destruct Hf as [Hf _]. unfold gets, kr_context_dump_json. by rewrite Hf, Hg.
Qed.

End DetectLemmas.

(** * An example: one record, two groups *)

(** [C_0 > n] *)
Definition above (n : Z) : T_KRCalc :=
  mkCalc KR_CALCFORMAT_FLEX "" (Some (Tree
    (mkNode KR_CALCKIND_LOGIC (Some KR_CALCOP_GT) 0 KR_TYPE_BOOL KR_VALUE_UNSET KRZero)
    [Tree (mkNode KR_CALCKIND_CID None 0 KR_TYPE_UNKNOWN KR_VALUE_UNSET KRZero) [];
     Tree (mkNode KR_CALCKIND_INT None 0 KR_TYPE_INT KR_VALUE_SETED (KRInt n)) []])) 0.

(** A context whose current record is the one record of the table 1, with 2 in its
    first field. *)
#[local] Existing Instance example_layout.
Definition example_db : option (recptr * T_KRDB (Data:=Z)) :=
  match kr_db_startup example_rows with
  | Ok (Some h) => match kr_db_insert 1 2 h with Ok (Some r, h) => Some (r, h) | _ => None end
  | _ => None
  end.
(** The rules' definitions: those of group 2, and one of the source 1 for the others. *)
Definition example_rules : T_KRShm T_KRShmRuleDef :=
  mkShm [mkRuleDef 2 1 KR_CALCFORMAT_FLEX "" 10; mkRuleDef 3 1 KR_CALCFORMAT_FLEX "" 10;
         mkRuleDef 4 2 KR_CALCFORMAT_FLEX "" 10; mkRuleDef 5 1 KR_CALCFORMAT_FLEX "" 10] 0.
Definition detect_shm : T_KRShareMem :=
  mkShareMem 0 0 [mkSection (mkShm [] 0) (mkShm [] 0) (mkShm [] 0) (mkShm [] 0)
                    (mkShm [mkGroupDef 2 KR_CALCFORMAT_FLEX "" example_rules] 0); empty_section].
Definition example_group (id : Z) (k : T_KRCalc) (ys : list T_KRRule) : T_KRGroup :=
  mkGroup (0, 0%nat) id k
    (mkRuleList (Z.of_nat (length ys)) ys 0 0 0).
Definition example_rule (id : Z) (def : nat) (n : Z) : T_KRRule :=
  mkRule (0, 0%nat, def) id 10 (Some (above n)) false ∅.
Definition example_groups : T_KRGroupList :=
  mkGroupList 3
    [example_group 1 (above 5) [example_rule 1 0 0];
     example_group 2 (above 1) [example_rule 2 0 0; example_rule 3 1 8; example_rule 4 2 0; example_rule 5 3 1];
     example_group 3 (above 0) [example_rule 6 0 0]] 0.
Definition example_context (gl : T_KRGroupList) : option (recptr * T_KRContext Z) :=
  match example_db with
  | Some (r, h) =>
      Some (r, mkContext h None ∅ (mkDym None (mkItems ∅ 0) (mkItems ∅ 0) (mkItems ∅ 0) (Some gl))
                 (Some r) None KR_TYPE_UNKNOWN None None None)
  | None => None
  end.
#[local] Abbreviation example_eval :=
  (KrData.calc_eval (Data:=Z) detect_shm (fun _ _ => false) (fun _ _ => fail BadPointer) (fun _ _ => fail BadPointer)
     (fun _ _ => fail BadPointer) (fun _ => (0, 0, 0)) (fun _ _ _ _ => 0) (fun _ _ _ _ => 0)
     (fun _ _ => (0, ""%string)) 0 1).

(** The database and the current record are the example's. *)
Definition example_env (c : T_KRContext Z) : Prop :=
  Some (ptKRDB c, ptCurrRec c) = (fun rh => (rh.2, Some rh.1)) <$> example_db.

Ltac example_answer :=
  let c := fresh "c" in let Hc := fresh "Hc" in
  intros c Hc; destruct c as [h ca os d r g kt kv kl kr]; pose proof Hc as Hc0;
  unfold example_env in Hc; simpl in Hc; vm_compute in Hc; injection Hc as -> ->;
  eexists _, _; split; [vm_compute; reflexivity|]; split; [exact Hc0|]; split; [by repeat split|reflexivity].

Lemma example_5 : answers example_eval example_env (above 5) false.
Proof. example_answer. Qed.
Lemma example_8 : answers example_eval example_env (above 8) false.
Proof. example_answer. Qed.
Lemma example_1 : answers example_eval example_env (above 1) true.
Proof. example_answer. Qed.
Lemma example_0 : answers example_eval example_env (above 0) true.
Proof. example_answer. Qed.

Definition example_cur : recptr := match example_db with Some (r, _) => r | None => inhabitant end.

Lemma example_at gl : exists c, example_context gl = Some (example_cur, c) /\
  at_groups example_env c gl example_cur 1 /\ ptGroup c = None.
Proof.
  unfold example_context, example_cur. destruct example_db as [[r h]|] eqn:Hdb; [|by vm_compute in Hdb].
  eexists. split; [reflexivity|]. split; [|done]. split; [done|done| |unfold example_env; simpl; by rewrite Hdb].
  simpl. revert Hdb. vm_compute. intros [= <- <-]. eexists _, _. split; [reflexivity|done].
Qed.

Lemma kr_engine_detect_selects_witness :
  exists c c' gl', example_context example_groups = Some (example_cur, c) /\
    kr_engine_detect detect_shm example_eval c = Ok (0, c') /\ grouplist (ptDym c') = Some gl' /\
    ptGroup c' = Some 1%nat /\
    (exists x, groups gl' !! 1%nat = Some x /\ lGroupId x = 2 /\ lFiredWeights (ptRuleList x) = 20).
Proof.
  destruct (example_at example_groups) as (c & Hc & Ha & Hg).
  destruct (kr_engine_detect_selects detect_shm example_eval example_env (fun _ _ _ H => H) c example_groups example_cur 1
    [false; true; true] (fun _ => [true; false; false; true]) Ha eq_refl)
    as (c' & gl' & Hrun & Ha' & Hgr & (x & x' & Hx & Hx' & _ & Hid & _ & _ & Hw) & _).
  - repeat constructor; [apply example_5|apply example_1|apply example_0].
  - intros g x Hx [= <-]. injection Hx as <-. split; [done|]. repeat constructor.
    all: eexists; split; [reflexivity|].
    + eexists. split; [reflexivity|]. apply example_0.
    + eexists. split; [reflexivity|]. apply example_8.
    + reflexivity.
    + eexists. split; [reflexivity|]. apply example_1.
  - injection Hx as <-. exists c, c', gl'. split; [done|]. split; [done|].
    split; [exact (ag_list _ _ _ _ _ Ha')|]. split; [done|]. exists x'. split; [done|]. split; [done|]. by rewrite Hw.
Defined.

(** The context of [example_context] before its record is inserted. *)
Definition example_before (gl : T_KRGroupList) : option (T_KRContext Z) :=
  match kr_db_startup example_rows with
  | Ok (Some h) =>
      Some (mkContext h None ∅ (mkDym None (mkItems ∅ 0) (mkItems ∅ 0) (mkItems ∅ 0) (Some gl))
              None None KR_TYPE_UNKNOWN None None None)
  | _ => None
  end.

Lemma kr_engine_detect_event_ungrouped_witness :
  let gl := mkGroupList 1 [example_group 1 (above 5) [example_rule 1 0 0]] 0 in
  exists c, example_before gl = Some c /\
    kr_engine_detect_event detect_shm example_eval (fun _ _ => ""%string) (fun _ => ""%string) 1 2 c = Fault NullDeref.
Proof.
  set (gl := mkGroupList _ _ _). destruct (example_at gl) as (c & Hc & Ha & Hg).
  assert (Hb : exists b, example_before gl = Some b /\ insert_current 1 2 b = Ok (true, c)).
  { revert Hc. unfold example_context, example_before, example_cur, example_db.
    destruct (kr_db_startup example_rows) as [[h|]|]; [|done..].
    destruct (kr_db_insert 1 2 h) as [[[r|] h']|] eqn:Hi; [|done..]. intros [= <-].
    eexists. split; [reflexivity|]. unfold insert_current. simpl. by rewrite Hi. }
  destruct Hb as (b & Hb & Hins). exists b. split; [done|].
  destruct (kr_engine_detect_event_ungrouped detect_shm example_eval example_env (fun _ _ _ H => H)
    (fun _ _ => ""%string) (fun _ => ""%string) 1 2 b c gl example_cur 1 [false] Hins Hg Ha eq_refl)
    as [_ Hf]; [|done..].
  repeat constructor. apply example_5.
Defined.
