(* ===== verification/KrUse.v ===== *)
(** Handling an event is a use of the parameters: the evaluation of calculators
    (krcalc/kr_calc_tree.c), the data items (krdata) and detection
    (krengine/kr_engine_detect.c) change of an item, a rule or a group what they compute,
    and leave the pointer to its definition and what was copied from it (KrDym.used).

    A computation keeps a property of the state, and its results have another, when this
    holds of every run that ends without a fault. *)

From S2P Require Import Prelude KrString KrHashtable KrTypes KrHashset KrList KrCache KrCalcTree KrCalcJson.
From S2P Require Import KrDb KrDym KrData KrDetect.
Local Open Scope Z_scope.
#[local] Notation length := List.length.

Definition keeps {St A} (I : St -> Prop) (m : M St A) (Q : A -> Prop) : Prop :=
  forall s a s', I s -> m s = Ok (a, s') -> I s' /\ Q a.
Definition anything {A} (_ : A) : Prop := True.

Section Keeps.
Context {St : Type} (I : St -> Prop).

Lemma keeps_ret {A} (a : A) (Q : A -> Prop) : Q a -> keeps I (mret a) Q.
Proof. intros HQ s b s' Hs [= <- <-]. done. Qed.
Lemma keeps_fail {A} f (Q : A -> Prop) : keeps I (fail f) Q.
Proof. by intros s b s' Hs. Qed.
Lemma keeps_lift {A} (r : res A) : keeps I (lift r) (fun a => r = Ok a).
Proof. intros s b s' Hs. unfold lift. destruct r; [|done]. by intros [= <- <-]. Qed.
Lemma keeps_bind {A B} (m : M St A) (k : A -> M St B) Q R :
  keeps I m Q -> (forall a, Q a -> keeps I (k a) R) -> keeps I (m ≫= k) R.
Proof.
  intros Hm Hk s b s' Hs. unfold mbind, M_bind. destruct (m s) as [[a s1]|] eqn:Hrun; [|done].
  destruct (Hm _ _ _ Hs Hrun) as [Hs1 Ha]. by apply (Hk a Ha).
Qed.
Lemma keeps_any {A} (m : M St A) Q : keeps I m Q -> keeps I m anything.
Proof. intros Hm s a s' Hs Hrun. by destruct (Hm _ _ _ Hs Hrun). Qed.
Lemma keeps_state {A} (m : St -> M St A) Q : (forall s0, keeps I (m s0) Q) -> keeps I (fun s => m s s) Q.
Proof. intros Hm s a s' Hs Hrun. by eapply (Hm s). Qed.
End Keeps.

Ltac keep_step :=
  lazymatch goal with
  | |- keeps _ (mret _) _ => apply keeps_ret; exact Logic.I
  | |- keeps _ (fail _) _ => apply keeps_fail
  | |- keeps _ (lift _) anything => eapply keeps_any, keeps_lift
  | |- keeps _ (lift _ ≫= _) _ => eapply keeps_bind; [apply keeps_lift|intros ? ?; cbn beta in *]
  | |- keeps _ (match ?x with _ => _ end) _ => destruct x eqn:?
  end.

(** * Evaluation *)

Section Eval.
Context {St : Type} (I : St -> Prop).

Lemma keeps_traverse {D} (post : traverse_func (D:=D) (St:=St)) t d :
  (forall cs n d, keeps I (post cs n d) anything) ->
  keeps I (kr_calc_tree_traverse t d None (Some post)) anything.
Proof.
  intros Hp. revert d. induction t as [n cs IH] using tree_rose_ind. intros d s a s' Hs. rewrite traverse_Tree.
  assert (Hcs : forall l d, Forall (fun t => forall d, keeps I (kr_calc_tree_traverse t d None (Some post)) anything) l ->
    keeps I (traverse_children l d None (Some post)) anything).
  { clear -Hp. intros l d Hl. revert d. induction Hl as [|c l Hc _ IHl]; intros d; simpl; [by apply keeps_ret|].
    eapply keeps_bind; [apply Hc|]. intros [[rc c'] d'] _. destruct (negb _); [by apply keeps_ret|].
    eapply keeps_bind; [apply IHl|]. intros [[rc' l'] d''] _. by apply keeps_ret. }
  revert s a s' Hs. eapply keeps_bind; [by apply Hcs|]. intros [[rc l] d'] _.
  destruct (negb _); [by apply keeps_ret|]. eapply keeps_bind; [apply Hp|]. intros [[rc' n'] d''] _.
  destruct (negb _); by apply keeps_ret.
Qed.

Context (objects : St -> addr -> option calc_obj) (regexec : string -> string -> bool).
Context (get_type_cb : E_KRCalcKind -> Z -> M St E_KRType).
Context (get_value_cb : E_KRCalcKind -> Z -> M St (option (valptr addr))).
Context (type_keeps : forall k i, keeps I (get_type_cb k i) anything).
Context (value_keeps : forall k i, keeps I (get_value_cb k i) anything).

Lemma keeps_eval_node cs n d : keeps I (_kr_calc_tree_eval objects regexec get_type_cb get_value_cb cs n d) anything.
Proof.
  assert (Hext : keeps I (_kr_calc_tree_eval_extern get_type_cb get_value_cb cs n d) anything).
  { unfold _kr_calc_tree_eval_extern. cbv zeta. eapply keeps_bind.
    { destruct (ty_eq _ _); [apply type_keeps|by apply keeps_ret]. }
    intros ty _. destruct (ty_eq ty _); [by apply keeps_ret|]. eapply keeps_bind; [apply value_keeps|].
    intros [v|] _; repeat keep_step. }
  unfold _kr_calc_tree_eval. destruct (kind n); try exact Hext; try (by apply keeps_ret).
  all: unfold _kr_calc_tree_eval_rel, _kr_calc_tree_eval_arith; try by repeat keep_step.
  unfold _kr_calc_tree_eval_logic. apply (keeps_state _ (fun st => _)). intros st. repeat keep_step.
Qed.

Lemma keeps_calc_eval k : keeps I (kr_calc_eval objects regexec get_type_cb get_value_cb k) anything.
Proof.
  unfold kr_calc_eval. keep_step. eapply keeps_bind.
  { unfold kr_calc_tree_eval. apply keeps_traverse, keeps_eval_node. }
  intros [[rc t] st] _. repeat keep_step.
Qed.
End Eval.

(** * Uses *)

Lemma used_refl d : used d d.
Proof. done. Qed.
Lemma used_trans d1 d2 d3 : used d1 d2 -> used d2 d3 -> used d1 d3.
Proof. intros [] []. split; by etransitivity. Qed.

(** Writing an item that has what the item of the id has. *)
Lemma items_fixed_insert {J X} (f : J -> X) (t : T_KRItems J) id i :
  f <$> items_ t !! id = Some (f i) ->
  items_fixed f (mkItems (<[id := i]> (items_ t)) (tConstructTime t)) = items_fixed f t.
Proof.
  intros Hi. unfold items_fixed. simpl. f_equal. rewrite fmap_insert. apply insert_id. by rewrite lookup_fmap.
Qed.
Lemma items_fixed_lookup {J X} (f : J -> X) (t t' : T_KRItems J) id :
  items_fixed f t' = items_fixed f t -> f <$> items_ t' !! id = f <$> items_ t !! id.
Proof. intros [= _ Hi]. by rewrite <- !lookup_fmap, Hi. Qed.

Section Use.
Context {Data : Type} {SA : SortArgument}.
#[local] Abbreviation ctx := (T_KRContext Data).
Context (d0 : T_KRDynamicMem).

#[local] Abbreviation uses m := (keeps (fun c : ctx => used d0 (ptDym c)) m).

Definition sdi_at (id : Z) (i : T_KRSDI) : Prop := sdi_fixed <$> items_ (sditable d0) !! id = Some (sdi_fixed i).
Definition ddi_at (id : Z) (i : T_KRDDI) : Prop := ddi_fixed <$> items_ (dditable d0) !! id = Some (ddi_fixed i).
Definition hdi_at (id : Z) (i : T_KRHDI) : Prop := hdi_fixed <$> items_ (hditable d0) !! id = Some (hdi_fixed i).
Definition group_at (g : nat) (x : T_KRGroup) : Prop :=
  exists gl, grouplist d0 = Some gl /\ (groups_fixed gl).2.2 !! g = Some (group_fixed x).

Lemma uses_gets {A} (f : ctx -> res A) : uses (gets f) anything.
Proof. intros c a c' Hc. unfold gets. destruct (f c); [|done]. by intros [= _ <-]. Qed.
Lemma uses_modify (f : ctx -> ctx) : (forall c, ptDym (f c) = ptDym c) -> uses (modify f) anything.
Proof. intros Hf c a c' Hc [= _ <-]. by rewrite Hf. Qed.

Lemma uses_read_sdi id : uses (read_sdi id) (sdi_at id).
Proof.
  intros c i c' Hc. unfold read_sdi, gets. destruct (items_ _ !! id) eqn:Hi; [|done]. intros [= -> <-].
  split; [done|]. unfold sdi_at. rewrite <- (items_fixed_lookup _ _ _ id (us_sdis _ _ Hc)). by rewrite Hi.
Qed.
Lemma uses_read_ddi id : uses (read_ddi id) (ddi_at id).
Proof.
  intros c i c' Hc. unfold read_ddi, gets. destruct (items_ _ !! id) eqn:Hi; [|done]. intros [= -> <-].
  split; [done|]. unfold ddi_at. rewrite <- (items_fixed_lookup _ _ _ id (us_ddis _ _ Hc)). by rewrite Hi.
Qed.
Lemma uses_read_hdi id : uses (read_hdi id) (hdi_at id).
Proof.
  intros c i c' Hc. unfold read_hdi, gets. destruct (items_ _ !! id) eqn:Hi; [|done]. intros [= -> <-].
  split; [done|]. unfold hdi_at. rewrite <- (items_fixed_lookup _ _ _ id (us_hdis _ _ Hc)). by rewrite Hi.
Qed.

Lemma uses_write_sdi id i : sdi_at id i -> uses (write_sdi id i) anything.
Proof.
  intros Hi c a c' Hc [= _ <-]. split; [|done]. eapply used_trans; [exact Hc|].
  split; cbn; try done. apply items_fixed_insert. by rewrite (items_fixed_lookup _ _ _ id (us_sdis _ _ Hc)).
Qed.
Lemma uses_write_ddi id i : ddi_at id i -> uses (write_ddi id i) anything.
Proof.
  intros Hi c a c' Hc [= _ <-]. split; [|done]. eapply used_trans; [exact Hc|].
  split; cbn; try done. apply items_fixed_insert. by rewrite (items_fixed_lookup _ _ _ id (us_ddis _ _ Hc)).
Qed.
Lemma uses_write_hdi id i : hdi_at id i -> uses (write_hdi id i) anything.
Proof.
  intros Hi c a c' Hc [= _ <-]. split; [|done]. eapply used_trans; [exact Hc|].
  split; cbn; try done. apply items_fixed_insert. by rewrite (items_fixed_lookup _ _ _ id (us_hdis _ _ Hc)).
Qed.

(** Initialised, an item is at its place. *)
Lemma sdi_init_at id i i' : kr_sdi_init i = Ok i' -> sdi_at id i -> sdi_at id i'.
Proof. intros Hi. unfold kr_sdi_init in Hi. by apply res_bind_Ok in Hi as (_ & _ & [= <-]). Qed.
Lemma ddi_init_at id i i' : kr_ddi_init i = Ok i' -> ddi_at id i -> ddi_at id i'.
Proof. intros Hi. unfold kr_ddi_init in Hi. by apply res_bind_Ok in Hi as (_ & _ & [= <-]). Qed.
Lemma hdi_init_at id i i' : kr_hdi_init i = Ok i' -> hdi_at id i -> hdi_at id i'.
Proof. intros Hi. unfold kr_hdi_init in Hi. by apply res_bind_Ok in Hi as (_ & _ & [= <-]). Qed.
#[local] Hint Resolve sdi_init_at ddi_init_at hdi_init_at : core.

Ltac use_step :=
  lazymatch goal with
  | |- keeps _ (read_sdi _ ≫= _) _ => eapply keeps_bind; [apply uses_read_sdi|intros ? ?; cbn beta]
  | |- keeps _ (read_ddi _ ≫= _) _ => eapply keeps_bind; [apply uses_read_ddi|intros ? ?; cbn beta]
  | |- keeps _ (read_hdi _ ≫= _) _ => eapply keeps_bind; [apply uses_read_hdi|intros ? ?; cbn beta]
  | |- keeps _ (gets _) _ => apply uses_gets
  | |- keeps _ curr_rec _ => apply uses_gets
  | |- keeps _ rec_ _ => apply uses_gets
  | |- keeps _ (field_type _ _) _ => apply uses_gets
  | |- keeps _ (field_content _ _) _ => apply uses_gets
  | |- keeps _ (table_of_rec _) _ => apply uses_gets
  | |- keeps _ (modify _) _ => apply uses_modify; done
  | |- keeps _ (write_sdi _ _) _ => apply uses_write_sdi; eauto
  | |- keeps _ (write_ddi _ _) _ => apply uses_write_ddi; eauto
  | |- keeps _ (write_hdi _ _) _ => apply uses_write_hdi; eauto
  | |- keeps _ (lift _ ≫= _) _ => keep_step
  | |- keeps _ (_ ≫= _) _ => apply keeps_bind with (Q := anything); [|intros ? _; cbn beta]
  | _ => solve [eauto] || keep_step
  end.
Ltac use := cbv zeta; repeat (use_step; cbv zeta).

Lemma uses_transtime r : uses (kr_get_transtime r) anything.
Proof. unfold kr_get_transtime. use. Qed.
Lemma uses_get_type k i : uses (kr_data_get_type k i) anything.
Proof.
  unfold kr_data_get_type, kr_set_get_type, kr_set_lookup, kr_sdi_get_type, kr_ddi_get_type, kr_hdi_get_type. use.
Qed.
Lemma uses_set_key index : uses (set_key index) anything.
Proof. unfold set_key. use. Qed.
Lemma uses_list_nodes : uses list_nodes anything.
Proof. unfold list_nodes. use. Qed.
#[local] Hint Resolve uses_transtime uses_get_type uses_set_key uses_list_nodes : core.

(** ** Data items *)

Section Items.
Context (shm : T_KRShareMem) (regexec : string -> string -> bool).
Context (sdi_func ddi_func hdi_func : string -> Z -> M ctx Z).
Context (sdi_func_uses : forall f id, uses (sdi_func f id) anything).
Context (ddi_func_uses : forall f id, uses (ddi_func f id) anything).
Context (hdi_func_uses : forall f id, uses (hdi_func f id) anything).

Section GetValue.
Context (get_value : E_KRCalcKind -> Z -> M ctx (option (valptr addr))).
Context (get_value_uses : forall k id, uses (get_value k id) anything).

Lemma uses_eval_calc k : uses (eval_calc regexec get_value k) anything.
Proof. unfold eval_calc. use. apply keeps_calc_eval; auto. Qed.
#[local] Hint Resolve uses_eval_calc : core.

Lemma uses_sdi_loop id nodes a rl : uses (sdi_aggr_loop shm regexec get_value id nodes a rl) anything.
Proof. revert a rl. induction nodes as [|r nodes IH]; intros a rl; simpl; use. Qed.
Lemma uses_ddi_loop id nodes : uses (ddi_aggr_loop shm regexec get_value id nodes) anything.
Proof. induction nodes as [|r nodes IH]; simpl; use. Qed.
#[local] Hint Resolve uses_sdi_loop uses_ddi_loop : core.

Lemma uses_sdi_compute id : uses (kr_sdi_compute shm regexec sdi_func get_value id) anything.
Proof. unfold kr_sdi_compute, kr_sdi_aggr_func. use. Qed.
Lemma uses_ddi_compute id : uses (kr_ddi_compute shm regexec ddi_func get_value id) anything.
Proof. unfold kr_ddi_compute, kr_ddi_aggr_func. use. Qed.
#[local] Hint Resolve uses_sdi_compute uses_ddi_compute : core.

Lemma uses_item_value i v ty : uses (item_value i v ty) anything.
Proof. unfold item_value. use. Qed.
#[local] Hint Resolve uses_item_value : core.
Lemma uses_sdi_get_value id : uses (kr_sdi_get_value shm regexec sdi_func get_value id) anything.
Proof. unfold kr_sdi_get_value. use. Qed.
Lemma uses_ddi_get_value id : uses (kr_ddi_get_value shm regexec ddi_func get_value id) anything.
Proof. unfold kr_ddi_get_value. use. Qed.
End GetValue.

Context (localtime : Z -> Z * Z * Z).
Context (dbsHdiDaySel dbsHdiMonSel : string -> Z -> string -> string -> Z).
Context (dbsHdiFlagSel : string -> Z -> Z * string).
Context (now : Z).

Lemma uses_set_hdi id v : uses (set_hdi id v) anything.
Proof. unfold set_hdi. use. Qed.
#[local] Hint Resolve uses_set_hdi : core.
Lemma uses_hdi_compute id :
  uses (kr_hdi_compute shm hdi_func localtime dbsHdiDaySel dbsHdiMonSel dbsHdiFlagSel id) anything.
Proof. unfold kr_hdi_compute, kr_hdi_aggr_func, kr_hdi_aggr_day, kr_hdi_aggr_mon, kr_hdi_aggr_flag. use. Qed.
#[local] Hint Resolve uses_hdi_compute : core.
Lemma uses_hdi_cache id : uses (kr_hdi_get_value_from_cache shm hdi_func localtime dbsHdiDaySel dbsHdiMonSel
  dbsHdiFlagSel now id) anything.
Proof. unfold kr_hdi_get_value_from_cache. use. Qed.
#[local] Hint Resolve uses_hdi_cache : core.
Lemma uses_hdi_get_value id :
  uses (kr_hdi_get_value shm hdi_func localtime dbsHdiDaySel dbsHdiMonSel dbsHdiFlagSel now id) anything.
Proof. unfold kr_hdi_get_value. use. Qed.

Lemma uses_data_get_value fuel k id : uses (kr_data_get_value shm regexec sdi_func ddi_func hdi_func localtime
  dbsHdiDaySel dbsHdiMonSel dbsHdiFlagSel now fuel k id) anything.
Proof.
  revert k id. induction fuel as [|n IH]; intros k id; simpl; [use|].
  destruct k; use; auto using uses_sdi_get_value, uses_ddi_get_value, uses_hdi_get_value.
  unfold kr_set_get_value, kr_set_lookup. use.
Qed.
Lemma uses_calc_eval fuel k : uses (KrData.calc_eval shm regexec sdi_func ddi_func hdi_func localtime
  dbsHdiDaySel dbsHdiMonSel dbsHdiFlagSel now fuel k) anything.
Proof. apply uses_eval_calc, uses_data_get_value. Qed.
End Items.

(** ** Detection *)

Section Detection.
Context (shm : T_KRShareMem) (calc_eval : option T_KRCalc -> M ctx (Z * T_KRCalc)).
Context (calc_eval_uses : forall k, uses (calc_eval k) anything).

Definition rule_at (g r : nat) (y : T_KRRule) : Prop :=
  exists gl x, grouplist d0 = Some gl /\ groups gl !! g = Some x /\
    rule_fixed <$> rules (ptRuleList x) !! r = Some (rule_fixed y).

Lemma groups_fixed_lookup gl gl' g : groups_fixed gl' = groups_fixed gl ->
  group_fixed <$> groups gl' !! g = group_fixed <$> groups gl !! g.
Proof. intros [= _ _ Hg]. by rewrite <- !list_lookup_fmap, Hg. Qed.

Lemma used_groups (c : ctx) gl : used d0 (ptDym c) -> grouplist (ptDym c) = Some gl ->
  exists gl0, grouplist d0 = Some gl0 /\ groups_fixed gl = groups_fixed gl0.
Proof.
  intros [_ _ _ _ Hg] Hgl. rewrite Hgl in Hg. symmetry in Hg. apply fmap_Some in Hg as (gl0 & ? & ?). eauto.
Qed.

Lemma uses_read_groups : uses read_groups anything.
Proof. unfold read_groups. use. Qed.
Lemma uses_read_group g : uses (read_group g) (group_at g).
Proof.
  intros c x c' Hc. unfold read_group, gets. destruct (grouplist (ptDym c)) as [gl|] eqn:Hgl; [|done]. simpl.
  destruct (groups gl !! g) as [y|] eqn:Hg; [|done]. intros [= -> <-]. split; [done|].
  destruct (used_groups c gl Hc Hgl) as (gl0 & H0 & Hf). exists gl0. split; [done|]. cbn.
  rewrite list_lookup_fmap, <- (groups_fixed_lookup _ _ _ Hf), Hg. done.
Qed.
Lemma uses_write_group g x : group_at g x -> uses (write_group g x) anything.
Proof.
  intros (gl0 & H0 & Hx) c a c' Hc [= _ <-]. split; [|done].
  destruct (grouplist (ptDym c)) as [gl|] eqn:Hgl; [|done]. eapply used_trans; [exact Hc|].
  split; cbn; try done. rewrite Hgl. cbn. f_equal. unfold groups_fixed. cbn. do 2 f_equal.
  rewrite list_fmap_insert. apply list_insert_id. cbn in Hx.
  destruct (used_groups c gl Hc Hgl) as (gl1 & H1 & Hf). assert (gl1 = gl0) as -> by congruence.
  rewrite list_lookup_fmap, (groups_fixed_lookup _ _ _ Hf), <- list_lookup_fmap. exact Hx.
Qed.

Lemma rule_at_group g r x y : group_at g x -> rules (ptRuleList x) !! r = Some y -> rule_at g r y.
Proof.
  intros (gl & Hgl & Hx) Hy. cbn in Hx. rewrite list_lookup_fmap in Hx. apply fmap_Some in Hx as (x0 & Hx0 & Hf).
  exists gl, x0. do 2 (split; [done|]). injection Hf as _ _ _ Hr.
  by rewrite <- list_lookup_fmap, <- Hr, list_lookup_fmap, Hy.
Qed.
Lemma group_at_rules g x l : group_at g x -> rules_fixed l = rules_fixed (ptRuleList x) -> group_at g (with_rules x l).
Proof. intros (gl & Hgl & Hx) Hl. exists gl. split; [done|]. rewrite Hx. unfold group_fixed. cbn. by rewrite Hl. Qed.
Lemma group_at_rule g r x y t n w : group_at g x -> rule_at g r y ->
  group_at g (with_rules x (mkRuleList (lRuleCnt (ptRuleList x)) (<[r := y]> (rules (ptRuleList x))) t n w)).
Proof.
  intros Hg (gl & x0 & Hgl & Hx0 & Hy). pose proof Hg as (gl' & Hgl' & Hx). assert (gl' = gl) as -> by congruence.
  cbn in Hx. rewrite list_lookup_fmap, Hx0 in Hx. injection Hx as _ _ _ Hr.
  apply group_at_rules; [done|]. unfold rules_fixed. cbn. f_equal. rewrite list_fmap_insert. apply list_insert_id.
  by rewrite <- Hr, list_lookup_fmap.
Qed.

Lemma uses_read_rule g r : uses (read_rule g r) (rule_at g r).
Proof.
  unfold read_rule. eapply keeps_bind; [apply uses_read_group|]. intros x Hx c y c' Hc.
  unfold lift. destruct (rules (ptRuleList x) !! r) eqn:Hy; [|done]. intros [= -> <-].
  split; [done|]. by eapply rule_at_group.
Qed.
Lemma uses_write_rule g r y : rule_at g r y -> uses (write_rule g r y) anything.
Proof.
  intros Hy. unfold write_rule. eapply keeps_bind; [apply uses_read_group|]. intros x Hx.
  apply uses_write_group. by apply group_at_rule.
Qed.
#[local] Hint Resolve uses_write_rule : core.


#[local] Hint Resolve group_at_rules : core.
Ltac detect_step :=
  lazymatch goal with
  | |- keeps _ (read_rule _ _ ≫= _) _ => eapply keeps_bind; [apply uses_read_rule|intros ? ?; cbn beta]
  | |- keeps _ (read_group _ ≫= _) _ => eapply keeps_bind; [apply uses_read_group|intros ? ?; cbn beta]
  | |- keeps _ (write_rule _ _ _) _ => apply uses_write_rule; eauto
  | |- keeps _ (write_group _ _) _ => apply uses_write_group; eauto
  | _ => use_step
  end.
Ltac detect := cbv zeta; repeat (detect_step; cbv zeta).

Lemma uses_rule_detect g r : uses (kr_rule_detect shm calc_eval g r) anything.
Proof. unfold kr_rule_detect. detect. Qed.
#[local] Hint Resolve uses_rule_detect : core.
Lemma uses_rule_loop g rs : uses (rule_list_loop shm calc_eval g rs) anything.
Proof. induction rs as [|r rs IH]; simpl; detect. Qed.
#[local] Hint Resolve uses_rule_loop : core.
Lemma rule_list_init_fixed l : rules_fixed (kr_rule_list_init l) = rules_fixed l.
Proof.
  unfold rules_fixed, kr_rule_list_init. cbn. f_equal. rewrite <- list_fmap_compose. by apply list_fmap_ext.
Qed.
#[local] Hint Resolve rule_list_init_fixed : core.
Lemma uses_rule_list g : uses (kr_rule_list_detect shm calc_eval g) anything.
Proof. unfold kr_rule_list_detect. detect. Qed.
#[local] Hint Resolve uses_rule_list : core.
Lemma uses_group_match g : uses (kr_group_match calc_eval g) anything.
Proof. unfold kr_group_match. detect. Qed.
#[local] Hint Resolve uses_group_match : core.
Lemma uses_group_loop gs : uses (group_list_loop shm calc_eval gs) anything.
Proof. induction gs as [|g gs IH]; simpl; detect. Qed.
#[local] Hint Resolve uses_group_loop : core.
Lemma uses_engine_detect : uses (kr_engine_detect shm calc_eval) anything.
Proof. unfold kr_engine_detect. detect. Qed.
#[local] Hint Resolve uses_engine_detect : core.

Lemma uses_insert_current datasrc msg : uses (insert_current datasrc msg) anything.
Proof. intros c b c' Hc. unfold insert_current. destruct (kr_db_insert _ _ _) as [[r h]|]; [|done]. by intros [= _ <-]. Qed.
#[local] Hint Resolve uses_insert_current : core.
(** The two events of the engine. *)
Lemma uses_insert_event datasrc msg : uses (kr_engine_insert_event datasrc msg) anything.
Proof. unfold kr_engine_insert_event. detect. Qed.
Lemma uses_detect_event field_name rule_name datasrc msg :
  uses (kr_engine_detect_event shm calc_eval field_name rule_name datasrc msg) anything.
Proof. unfold kr_engine_detect_event. detect. Qed.
End Detection.
End Use.
