(* ===== verification/KrEngine.v ===== *)
(** The engine: the dispatch of messages to handlers (krengine/kr_engine.c), the handlers
    (kr_engine_handle.c, kr_server_handle.c), the descriptions they answer with
    (krdb/kr_db_api.c and the [..._info] functions of krparam), and the settings of the log
    (krutils/kr_log.c).

    What handling does to the parameters of a thread (KrUse) and a reload to the shared memory
    (KrDym) is put together for the messages an engine handles in its life.

    The body of a message is the array that was allocated for it.  A handler takes the
    request and the reply and gives the reply it leaves.  The text of JSON, the names of
    fields, tables and indexes, and the JSON of a definition of the shared memory, whose
    names and texts the model does not keep, are arguments. *)

From S2P Require Import Prelude KrString KrHashtable KrTypes KrHashset KrJson KrCalcTree.
From S2P Require Import KrCalcJson KrDb KrDbRun KrDym KrData KrProtocol KrServer KrShell KrDetect KrUse.
Local Open Scope Z_scope.
#[local] Notation length := List.length.

(** * The log (kr_log.c) *)

Definition KR_LOGFATAL : Z := 1.
Definition KR_LOGDEBUG : Z := 5.
Definition KR_LOGFILE_LEN : Z := 1024.
Record T_KRLog := mkLog { logpath : string; logname : string; loglevel : Z }.

Definition kr_log_dump_json (l : T_KRLog) : cJSON :=
  let log := cJSON_CreateObject in
  let log := cJSON_AddStringToObject log "path" (logpath l) in
  let log := cJSON_AddStringToObject log "name" (logname l) in
  cJSON_AddNumberToObject log "level" (d_of_Z (loglevel l)).

(** [strcpy] into an array of 1024 characters. *)
Definition log_copy (s : string) : res string :=
  if KR_LOGFILE_LEN <=? Z.of_nat (String.length s) then Fault OutOfBounds else Ok s.
Definition kr_log_set_path (path : string) (l : T_KRLog) : res T_KRLog :=
  path ← log_copy path; Ok (mkLog path (logname l) (loglevel l)).
Definition kr_log_set_name (name : string) (l : T_KRLog) : res T_KRLog :=
  name ← log_copy name; Ok (mkLog (logpath l) name (loglevel l)).
Definition kr_log_set_level (level : Z) (l : T_KRLog) : T_KRLog := mkLog (logpath l) (logname l) level.

(** * Bodies *)

(** The string at the start of an array: it ends at the first null, or past the array. *)
Fixpoint c_string (l : list Z) : res string :=
  match l with
  | [] => Fault OutOfBounds
  | b :: l' => if b =? 0 then Ok EmptyString
               else s ← c_string l'; Ok (String (Ascii.ascii_of_nat (Z.to_nat b)) s)
  end.

Definition reply_error (reply : T_KRMessage) : T_KRMessage :=
  mkMessage KR_MSGTYPE_ERROR (msgid reply) (method reply) (datasrc reply) (msglen reply) (msgbuf reply).
Definition reply_success (reply : T_KRMessage) : T_KRMessage :=
  mkMessage KR_MSGTYPE_SUCCESS (msgid reply) (method reply) (datasrc reply) (msglen reply) (msgbuf reply).
Definition reply_text (text : string) (reply : T_KRMessage) : T_KRMessage :=
  mkMessage KR_MSGTYPE_SUCCESS (msgid reply) (method reply) (datasrc reply)
    (Z.of_nat (String.length text) + 1) (Some (string_bytes text ++ [0])).

(** * The state *)

(** The bodies of events go to the mapping functions of the tables as they are. *)
#[local] Abbreviation Data := (option (list Z)).

Record T_KREngine {SA : SortArgument} := mkEngine {
  ctx : T_KRContext Data;
  ptShm : option T_KRShareMem;
  gstKRLog : T_KRLog
}.

(** What a name of the function table stands for. *)
Inductive handler :=
  | H_detect_event | H_insert_event | H_info | H_info_log | H_set_logpath | H_set_logname
  | H_set_loglevel | H_info_krdb | H_info_table | H_info_index | H_list_index_key | H_reload_param
  | H_info_param | H_info_group | H_info_rule | H_info_set | H_info_sdi | H_info_ddi | H_info_hdi
  | H_clion | H_clioff | H_heartbeat.

(** [kr_engine_register_default], then [kr_server_register_default]. *)
Definition kr_engine_register_default : list (fop (F:=handler)) :=
  [Register "detect_event" (Some H_detect_event); Register "insert_event" (Some H_insert_event);
   Register "info_engine" (Some H_info); Register "info_log" (Some H_info_log);
   Register "set_logpath" (Some H_set_logpath); Register "set_logname" (Some H_set_logname);
   Register "set_loglevel" (Some H_set_loglevel);
   Register "info_krdb" (Some H_info_krdb); Register "info_table" (Some H_info_table);
   Register "info_index" (Some H_info_index); Register "list_index_key" (Some H_list_index_key);
   Register "reload_param" (Some H_reload_param); Register "info_param" (Some H_info_param);
   Register "info_group" (Some H_info_group); Register "info_rule" (Some H_info_rule);
   Register "info_set" (Some H_info_set); Register "info_sdi" (Some H_info_sdi);
   Register "info_ddi" (Some H_info_ddi); Register "info_hdi" (Some H_info_hdi)].
Definition kr_server_register_default : list (fop (F:=handler)) :=
  [Register "cli_on" (Some H_clion); Register "cli_off" (Some H_clioff);
   Register "heart_beat" (Some H_heartbeat)].

(** What is not the program's, or not in the model. *)
Class Outside {SA : SortArgument} := mkOutside {
  (* kr_config.h *)
  VERSION : string; PACKAGE : string; PACKAGE_VERSION : string;
  PACKAGE_BUGREPORT : string; PACKAGE_URL : string;
  (* whether a file can be read *)
  access : string -> bool;
  (* names, modes, and the JSON of the definitions *)
  caDBName : string; caTableName : Z -> string; caIndexName : Z -> string;
  field_name : Z -> Z -> string; rule_name : Z -> string; eSizeKeepMode : Z -> Z;
  kr_shm_set_info : T_KRShmSetDef -> cJSON; kr_shm_sdi_info : T_KRShmSDIDef -> cJSON;
  kr_shm_ddi_info : T_KRShmDDIDef -> cJSON; kr_shm_hdi_info : T_KRShmHDIDef -> cJSON;
  kr_shm_group_info : T_KRShmGroupDef -> cJSON; kr_shm_rule_info : T_KRShmRuleDef -> cJSON;
  (* the evaluation of calculators, what the parameters are made from, the loads *)
  calc_eval : T_KRShareMem -> option T_KRCalc -> M (T_KRContext Data) (Z * T_KRCalc);
  regcomp : string -> bool;
  kr_calc_parse_flex : T_KRCalc -> M objs (Z * T_KRCalc);
  module_symbol : string -> bool;
  set_cur : Z -> set_cursor;
  loads : shm_loads
}.

Section KrEngine.
Context {SA : SortArgument}.
#[local] Abbreviation engine := (T_KREngine (SA := SA)).

Context {outside : Outside}.

Definition put_ctx (c : T_KRContext Data) (e : engine) : engine := mkEngine SA c (ptShm e) (gstKRLog e).
Definition put_log (l : T_KRLog) (e : engine) : engine := mkEngine SA (ctx e) (ptShm e) l.
Definition on_ctx {A} (m : M (T_KRContext Data) A) : M engine A := fun e =>
  match m (ctx e) with Ok (a, c) => Ok (a, put_ctx c e) | Fault f => Fault f end.
Definition asks {A} (f : engine -> res A) : M engine A := fun e =>
  match f e with Ok a => Ok (a, e) | Fault x => Fault x end.
Definition set_log (f : T_KRLog -> res T_KRLog) : M engine unit := fun e =>
  match f (gstKRLog e) with Ok l => Ok (tt, put_log l e) | Fault x => Fault x end.

Definition reply_json (json : cJSON) (reply : T_KRMessage) : res T_KRMessage :=
  text ← cJSON_PrintUnformatted json;
  text ← of_option NullDeref text;
  Ok (reply_text text reply).

(** * Descriptions (kr_db_api.c, krparam) *)

Definition list_length {A} (l : list A) : double := d_of_Z (Z.of_nat (length l)).

Definition kr_db_info (krdb : T_KRDB (Data:=Data)) : cJSON :=
  let db := cJSON_AddStringToObject cJSON_CreateObject "name" caDBName in
  let db := cJSON_AddNumberToObject db "table_number" (list_length (pTableList krdb)) in
  cJSON_AddNumberToObject db "index_number" (list_length (pDBIndexList krdb)).

Definition type_code (ty : E_KRType) : Z :=
  match ty with
  | KR_TYPE_BOOL => 66 | KR_TYPE_CHAR => 67 | KR_TYPE_INT => 73 | KR_TYPE_LONG => 76
  | KR_TYPE_DOUBLE => 68 | KR_TYPE_STRING => 83 | KR_TYPE_POINTER => 80 | KR_TYPE_UNKNOWN => 85
  end.
Definition index_type_code (ty : E_KRIndexType) : Z :=
  match ty with KR_INDEXTYPE_TABLE => 83 | KR_INDEXTYPE_DB => 77 | KR_INDEXTYPE_OTHER => 0 end.

Definition field_info (tid : Z) (f : T_KRFieldDef) : cJSON :=
  let field := cJSON_AddNumberToObject cJSON_CreateObject "id" (d_of_Z (fd_id f)) in
  let field := cJSON_AddStringToObject field "name" (field_name tid (fd_id f)) in
  let field := cJSON_AddNumberToObject field "type" (d_of_Z (type_code (fd_type f))) in
  cJSON_AddNumberToObject field "length" (d_of_Z (fd_length f)).

Definition kr_db_table_info (krtable : T_KRTable (Data:=Data)) : cJSON :=
  let id := iTableId krtable in
  let table := cJSON_AddNumberToObject cJSON_CreateObject "id" (d_of_Z id) in
  let table := cJSON_AddStringToObject table "name" (caTableName id) in
  let table := cJSON_AddNumberToObject table "size_keep_mode" (d_of_Z (eSizeKeepMode id)) in
  let table := cJSON_AddNumberToObject table "size_keep_value" (d_of_Z (lSizeKeepValue krtable)) in
  let table := cJSON_AddNumberToObject table "field_count" (list_length (ptFieldDef krtable)) in
  let table := cJSON_AddNumberToObject table "record_size" (d_of_Z (iRecordSize krtable)) in
  let table := cJSON_AddNumberToObject table "record_number" (d_of_Z (uiRecordNum krtable)) in
  let table := cJSON_AddNumberToObject table "record_location" (d_of_Z (uiRecordLoc krtable)) in
  cJSON_AddItemToObject table "fields"
    (foldl (fun fields f => cJSON_AddItemToArray fields (field_info id f)) cJSON_CreateArray (ptFieldDef krtable)).

Definition kr_db_index_info (krindex : T_KRIndex) : cJSON :=
  let index := cJSON_AddNumberToObject cJSON_CreateObject "id" (d_of_Z (iIndexId krindex)) in
  let index := cJSON_AddStringToObject index "name" (caIndexName (iIndexId krindex)) in
  let index := cJSON_AddNumberToObject index "type" (d_of_Z (index_type_code (eIndexType krindex))) in
  let index := cJSON_AddNumberToObject index "index_field_id" (d_of_Z (iIndexFieldId krindex)) in
  cJSON_AddNumberToObject index "sort_field_id" (d_of_Z (iSortFieldId krindex)).

Definition kr_shm_info (shm : T_KRShareMem) : res cJSON :=
  s ← active shm;
  let j := cJSON_AddNumberToObject cJSON_CreateObject "current_secid" (d_of_Z (nSecId shm)) in
  let j := cJSON_AddNumberToObject j "set_load_time" (d_of_Z (tLastLoadTime (stShmSet s))) in
  let j := cJSON_AddNumberToObject j "sdi_load_time" (d_of_Z (tLastLoadTime (stShmSDI s))) in
  let j := cJSON_AddNumberToObject j "ddi_load_time" (d_of_Z (tLastLoadTime (stShmDDI s))) in
  let j := cJSON_AddNumberToObject j "hdi_load_time" (d_of_Z (tLastLoadTime (stShmHDI s))) in
  Ok (cJSON_AddNumberToObject j "group_load_time" (d_of_Z (tLastLoadTime (stShmGroup s)))).

Definition kr_dym_info (dyn : T_KRDynamicMem) : res cJSON :=
  sets ← of_option NullDeref (settable dyn);
  gl ← of_option NullDeref (grouplist dyn);
  let j := cJSON_AddNumberToObject cJSON_CreateObject "set_construct_time" (d_of_Z (tConstructTime sets)) in
  let j := cJSON_AddNumberToObject j "sdi_construct_time" (d_of_Z (tConstructTime (sditable dyn))) in
  let j := cJSON_AddNumberToObject j "ddi_construct_time" (d_of_Z (tConstructTime (dditable dyn))) in
  let j := cJSON_AddNumberToObject j "hdi_construct_time" (d_of_Z (tConstructTime (hditable dyn))) in
  Ok (cJSON_AddNumberToObject j "group_construct_time" (d_of_Z (groups_tConstructTime gl))).

Definition with_def (def : cJSON) : cJSON := cJSON_AddItemToObject cJSON_CreateObject "def" def.
(** The definitions are read through the pointers of the items. *)
Definition kr_set_info (shm : T_KRShareMem) (i : T_KRSet) : res cJSON :=
  def ← set_def shm (ptShmSetDef i); Ok (with_def (kr_shm_set_info def)).
Definition kr_sdi_info (shm : T_KRShareMem) (i : T_KRSDI) : res cJSON :=
  def ← sdi_def shm (ptShmSDIDef i); Ok (with_def (kr_shm_sdi_info def)).
Definition kr_ddi_info (shm : T_KRShareMem) (i : T_KRDDI) : res cJSON :=
  def ← ddi_def shm (ptShmDDIDef i); Ok (with_def (kr_shm_ddi_info def)).
Definition kr_hdi_info (shm : T_KRShareMem) (i : T_KRHDI) : res cJSON :=
  def ← hdi_def shm (ptShmHDIDef i); Ok (with_def (kr_shm_hdi_info def)).
Definition kr_rule_info (shm : T_KRShareMem) (y : T_KRRule) : res cJSON :=
  def ← rule_def shm (ptShmRuleDef y); Ok (with_def (kr_shm_rule_info def)).
Definition kr_group_info (shm : T_KRShareMem) (x : T_KRGroup) : res cJSON :=
  def ← group_def shm (ptShmGroupDef x);
  rules ← fold_res (fun y rules => j ← kr_rule_info shm y; Ok (cJSON_AddItemToArray rules j))
            (rules (ptRuleList x)) cJSON_CreateArray;
  Ok (cJSON_AddItemToObject (with_def (kr_shm_group_info def)) "rules" rules).

(** * Handlers *)

(** A handler that answers with the JSON of the state, or with an error. *)
Definition answer (json : M engine (option cJSON)) (reply : T_KRMessage) : M engine T_KRMessage :=
  j ← json;
  match j with Some j => lift (reply_json j reply) | None => mret (reply_error reply) end.
(** A handler that reads the JSON of the request first. *)
Definition with_json (apply : T_KRMessage) (json : cJSON -> M engine (option cJSON)) (reply : T_KRMessage)
    : M engine T_KRMessage :=
  a ← lift (cJSON_Parse (msgbuf apply));
  match a with None => mret (reply_error reply) | Some a => answer (json a) reply end.

Definition dump_log : M engine (option cJSON) := asks (fun e => Ok (Some (kr_log_dump_json (gstKRLog e)))).

Definition kr_engine_info (apply reply : T_KRMessage) : M engine T_KRMessage :=
  let json := cJSON_AddStringToObject cJSON_CreateObject "version" VERSION in
  let json := cJSON_AddStringToObject json "package" PACKAGE in
  let json := cJSON_AddStringToObject json "package_version" PACKAGE_VERSION in
  let json := cJSON_AddStringToObject json "package_bugreport" PACKAGE_BUGREPORT in
  let json := cJSON_AddStringToObject json "package_url" PACKAGE_URL in
  answer (mret (Some json)) reply.

Definition kr_engine_info_log (apply reply : T_KRMessage) : M engine T_KRMessage := answer dump_log reply.

Definition kr_engine_set_logpath (apply : T_KRMessage) : T_KRMessage -> M engine T_KRMessage :=
  with_json apply (fun apply_json =>
    match cJSON_GetString apply_json "log_path" with
    | None => mret None
    | Some logpath =>
        if negb (access logpath) then mret None
        else set_log (kr_log_set_path logpath);; dump_log
    end).

Definition kr_engine_set_logname (apply : T_KRMessage) : T_KRMessage -> M engine T_KRMessage :=
  with_json apply (fun apply_json =>
    match cJSON_GetString apply_json "log_name" with
    | None => mret None
    | Some logname => set_log (kr_log_set_name logname);; dump_log
    end).

Definition get_int (json : cJSON) (name : string) : M engine Z := lift (d_to_i32 (cJSON_GetNumber json name)).

Definition kr_engine_set_loglevel (apply : T_KRMessage) : T_KRMessage -> M engine T_KRMessage :=
  with_json apply (fun apply_json =>
    loglevel ← get_int apply_json "log_level";
    if (loglevel <? KR_LOGFATAL) || (KR_LOGDEBUG <? loglevel) then mret None
    else set_log (fun l => Ok (kr_log_set_level loglevel l));; dump_log).

Definition kr_engine_info_krdb (apply reply : T_KRMessage) : M engine T_KRMessage :=
  answer (asks (fun e => Ok (Some (kr_db_info (ptKRDB (ctx e)))))) reply.

Definition table_of (datasrc : Z) : M engine (option (T_KRTable (Data:=Data))) :=
  asks (fun e => match kr_get_table (ptKRDB (ctx e)) datasrc with
                 | None => Ok None
                 | Some p => t ← of_option BadPointer (tables (ptKRDB (ctx e)) !! p); Ok (Some t)
                 end).
Definition kr_engine_info_table (apply reply : T_KRMessage) : M engine T_KRMessage :=
  answer (t ← table_of (datasrc apply); mret (kr_db_table_info <$> t)) reply.

Definition kr_engine_info_index (apply : T_KRMessage) : T_KRMessage -> M engine T_KRMessage :=
  with_json apply (fun apply_json =>
    index_id ← get_int apply_json "index_id";
    t ← table_of (datasrc apply);
    match t with
    | None => mret None
    | Some t =>
        asks (fun e => match kr_get_table_index (ptKRDB (ctx e)) t index_id with
                       | None => Ok None
                       | Some p => i ← of_option BadPointer (indexes (ptKRDB (ctx e)) !! p);
                                   Ok (Some (kr_db_index_info i))
                       end)
    end).

Definition kr_engine_list_index_key (apply reply : T_KRMessage) : M engine T_KRMessage :=
  mret (reply_text "list index key!" reply).

Definition info_param : M engine (option cJSON) := asks (fun e =>
  shm ← of_option NullDeref (ptShm e); shm ← kr_shm_info shm;
  dym ← kr_dym_info (ptDym (ctx e));
  Ok (Some (cJSON_AddItemToObject (cJSON_AddItemToObject cJSON_CreateObject "shm" shm) "dym" dym))).

Definition kr_engine_reload_param (apply reply : T_KRMessage) : M engine T_KRMessage :=
  answer (rc ← (fun e => match kr_shm_load loads (ptShm e) with
                         | Ok (rc, shm) => Ok (rc, mkEngine SA (ctx e) shm (gstKRLog e))
                         | Fault f => Fault f
                         end);
          if (rc <? 0)%Z then mret None else info_param) reply.

Definition kr_engine_info_param (apply reply : T_KRMessage) : M engine T_KRMessage := answer info_param reply.

Definition find_group (id : Z) : M engine (option T_KRGroup) := asks (fun e =>
  gl ← of_option NullDeref (grouplist (ptDym (ctx e))); Ok (kr_group_lookup gl id)).

(** The description of what was looked up. *)
Definition describe_found {A} (info : T_KRShareMem -> A -> res cJSON) (o : option A) : M engine (option cJSON) :=
  match o with
  | None => mret None
  | Some a => asks (fun e => shm ← of_option NullDeref (ptShm e); j ← info shm a; Ok (Some j))
  end.

Definition kr_engine_info_group (apply : T_KRMessage) : T_KRMessage -> M engine T_KRMessage :=
  with_json apply (fun apply_json =>
    id ← get_int apply_json "group_id"; g ← find_group id; describe_found kr_group_info g).

Definition kr_engine_info_rule (apply : T_KRMessage) : T_KRMessage -> M engine T_KRMessage :=
  with_json apply (fun apply_json =>
    group_id ← get_int apply_json "group_id";
    g ← find_group group_id;
    match g with
    | None => mret None
    | Some g => rule_id ← get_int apply_json "rule_id";
                describe_found kr_rule_info (kr_rule_lookup (ptRuleList g) rule_id)
    end).

(** An item of one of the tables of the parameters. *)
Definition info_item {A} (name : string) (find : T_KRDynamicMem -> Z -> res (option A))
    (info : T_KRShareMem -> A -> res cJSON) (apply_json : cJSON) : M engine (option cJSON) :=
  id ← get_int apply_json name;
  i ← asks (fun e => find (ptDym (ctx e)) id);
  describe_found info i.

Definition kr_engine_info_set (apply : T_KRMessage) : T_KRMessage -> M engine T_KRMessage :=
  with_json apply (info_item "set_id"
    (fun d id => t ← of_option NullDeref (settable d); Ok (items_ t !! id)) kr_set_info).

Definition kr_engine_info_sdi (apply : T_KRMessage) : T_KRMessage -> M engine T_KRMessage :=
  with_json apply (info_item "sdi_id" (fun d id => Ok (kr_sdi_lookup (sditable d) id)) kr_sdi_info).
Definition kr_engine_info_ddi (apply : T_KRMessage) : T_KRMessage -> M engine T_KRMessage :=
  with_json apply (info_item "ddi_id" (fun d id => Ok (kr_ddi_lookup (dditable d) id)) kr_ddi_info).
Definition kr_engine_info_hdi (apply : T_KRMessage) : T_KRMessage -> M engine T_KRMessage :=
  with_json apply (info_item "hdi_id" (fun d id => Ok (kr_hdi_lookup (hditable d) id)) kr_hdi_info).

(** An event: the type of its reply, and its JSON when it has one. *)
Definition event_reply (r : KrDetect.reply) (reply : T_KRMessage) : res T_KRMessage :=
  match r with
  | (KR_MSGTYPE_ERROR, _) => Ok (reply_error reply)
  | (KR_MSGTYPE_SUCCESS, None) => Ok (reply_success reply)
  | (KR_MSGTYPE_SUCCESS, Some json) => reply_json json reply
  end.
Definition insert_event (apply reply : T_KRMessage) : M engine T_KRMessage :=
  r ← on_ctx (kr_engine_insert_event (datasrc apply) (msgbuf apply)); lift (event_reply r reply).
Definition detect_event (apply reply : T_KRMessage) : M engine T_KRMessage :=
  shm ← asks (fun e => of_option NullDeref (ptShm e));
  r ← on_ctx (kr_engine_detect_event shm (calc_eval shm) field_name rule_name (datasrc apply) (msgbuf apply));
  lift (event_reply r reply).

Definition run_handler (h : handler) (apply reply : T_KRMessage) : M engine T_KRMessage :=
  match h with
  | H_detect_event => detect_event apply reply
  | H_insert_event => insert_event apply reply
  | H_info => kr_engine_info apply reply
  | H_info_log => kr_engine_info_log apply reply
  | H_set_logpath => kr_engine_set_logpath apply reply
  | H_set_logname => kr_engine_set_logname apply reply
  | H_set_loglevel => kr_engine_set_loglevel apply reply
  | H_info_krdb => kr_engine_info_krdb apply reply
  | H_info_table => kr_engine_info_table apply reply
  | H_info_index => kr_engine_info_index apply reply
  | H_list_index_key => kr_engine_list_index_key apply reply
  | H_reload_param => kr_engine_reload_param apply reply
  | H_info_param => kr_engine_info_param apply reply
  | H_info_group => kr_engine_info_group apply reply
  | H_info_rule => kr_engine_info_rule apply reply
  | H_info_set => kr_engine_info_set apply reply
  | H_info_sdi => kr_engine_info_sdi apply reply
  | H_info_ddi => kr_engine_info_ddi apply reply
  | H_info_hdi => kr_engine_info_hdi apply reply
  | H_clion | H_clioff | H_heartbeat => mret reply
  end.

(** * Dispatch (kr_engine.c, kr_context.c) *)

(** The parameters are checked; -1 when they cannot be reloaded. *)
Definition kr_context_set : M engine Z := fun e =>
  match ptShm e with
  | None => Fault NullDeref
  | Some shm =>
      match kr_dym_check regcomp kr_calc_parse_flex module_symbol set_cur
              (ptDym (ctx e)) shm (objects (ctx e)) with
      | Ok ((rc, d), os) =>
          let c := ctx e in
          Ok (if negb (rc =? 0) then -1 else 0,
              put_ctx (mkContext (ptKRDB c) (ptHDICache c) os d (ptCurrRec c) (ptGroup c) (eKeyType c)
                         (pKeyValue c) (ptRecList c) (ptRecord c)) e)
      | Fault f => Fault f
      end
  end.

Context (ptFuncTable : T_KRFuncTable (F:=handler)).

(** What the handler of the message makes of the reply. *)
Definition handle_message (apply reply : T_KRMessage) : M engine T_KRMessage :=
  rc ← kr_context_set;
  if negb (rc =? 0) then mret reply
  else
    name ← lift (c_string (method apply));
    h ← lift (kr_functable_search ptFuncTable name);
    match h with
    | None => mret reply
    | Some h => run_handler h apply reply
    end.

Definition kr_engine_handle {O} (a : T_KREngineArg O) : M (engine * O) Z := fun '(e, o) =>
  match handle_message (KrServer.apply a) (KrServer.reply a) e with
  | Ok (r, e) =>
      match cb_func a (KrServer.apply a) r o with
      | Ok (_, o) =>
          match kr_context_clean (ctx e) with
          | Ok c => Ok (0, (put_ctx c e, o))
          | Fault f => Fault f
          end
      | Fault f => Fault f
      end
  | Fault f => Fault f
  end.

(** [kr_engine_run] of an engine without a thread pool. *)
Definition run_without_pool {O} (a : T_KREngineArg O) : M (engine * O) Z := fun s =>
  match kr_engine_handle a s with Ok (_, s) => Ok (0, s) | Fault f => Fault f end.
#[local] Instance engine_run : KREngine engine := fun O => run_without_pool.

(** * Dispatch *)

Definition registrations : list (fop (F:=handler)) := kr_engine_register_default ++ kr_server_register_default.
Definition handler_of (name : string) : option handler := default None (foldl spec_fop ∅ registrations !! name).
(** The function table of an engine that was started under a server. *)
Definition started : Prop := exists name ft0,
  kr_functable_create name = Ok ft0 /\ run_fops registrations ft0 = Ok ptFuncTable.

Lemma search_handler name : started -> kr_functable_search ptFuncTable name = Ok (handler_of name).
Proof.
  intros (n & ft0 & Hc & Hr). apply functable_search_spec.
  destruct (functable_create_spec (F:=handler) n) as (ft1 & Hc' & Hrep).
  rewrite Hc in Hc'. injection Hc' as <-.
  destruct (run_fops_spec ft0 ∅ registrations Hrep) as (ft & Hr' & Hrep').
  - rewrite map_size_empty. vm_compute. done.
  - rewrite Hr in Hr'. by injection Hr' as <-.
Qed.

Lemma handle_message_known m e e1 name h :
  started -> kr_context_set e = Ok (0, e1) -> c_string (method m) = Ok name -> handler_of name = Some h ->
  handle_message m kr_message_alloc e = run_handler h m kr_message_alloc e1.
Proof.
  intros Hst Hset Hname Hh. unfold handle_message. unfold mbind at 1, M_bind at 1. rewrite Hset.
  cbn [Z.eqb negb]. unfold mbind at 1, M_bind at 1, lift at 1. rewrite Hname.
  unfold mbind at 1, M_bind at 1, lift at 1. by rewrite (search_handler name Hst), Hh.
Qed.
Lemma handle_message_refused m e e1 rc name :
  started -> kr_context_set e = Ok (rc, e1) -> c_string (method m) = Ok name ->
  rc <> 0 \/ handler_of name = None -> handle_message m kr_message_alloc e = Ok (kr_message_alloc, e1).
Proof.
  intros Hst Hset Hname Hor. unfold handle_message. unfold mbind at 1, M_bind at 1. rewrite Hset.
  destruct (Z.eqb_spec rc 0) as [->|Hne]; cbn [negb]; [|done]. destruct Hor as [?|Hh]; [done|].
  unfold mbind at 1, M_bind at 1, lift at 1. rewrite Hname.
  unfold mbind at 1, M_bind at 1, lift at 1. by rewrite (search_handler name Hst), Hh.
Qed.

Lemma engine_serves e m r e1 c :
  handle_message m kr_message_alloc e = Ok (r, e1) -> kr_context_clean (ctx e1) = Ok c ->
  serves e m r (put_ctx c e1).
Proof.
  intros Hh Hc O cb o. unfold kr_engine_run, engine_run, run_without_pool, kr_engine_handle. cbn [KrServer.apply KrServer.reply cb_func].
  rewrite Hh. destruct (cb m r o) as [[_ o']|]; [|done]. by rewrite Hc.
Qed.
Lemma engine_faults e m f O (cb : T_KRMessage -> T_KRMessage -> M O unit) o :
  handle_message m kr_message_alloc e = Fault f ->
  kr_engine_run O (mkArg m kr_message_alloc cb) (e, o) = Fault f.
Proof.
  intros Hh. unfold kr_engine_run, engine_run, run_without_pool, kr_engine_handle. cbn [KrServer.apply KrServer.reply].
  by rewrite Hh.
Qed.

(** ** Bodies without a null *)

Lemma c_string_unterminated l : Forall (fun b => b <> 0) l -> c_string l = Fault OutOfBounds.
Proof.
  intros Hl. induction Hl as [|b l Hb Hl IH]; [done|]. cbn [c_string].
  rewrite (proj2 (Z.eqb_neq _ _)) by done. by rewrite IH.
Qed.
Lemma c_string_terminated s r :
  Forall (fun b => b <> 0) (string_bytes s) -> c_string (string_bytes s ++ 0 :: r) = Ok s.
Proof.
  induction s as [|a s IH]; intros Hs; [done|]. cbn [string_bytes] in *.
  apply Forall_cons in Hs as [Ha Hs]. cbn [app c_string]. rewrite (proj2 (Z.eqb_neq _ _)) by done.
  rewrite (IH Hs). cbn [mbind res_bind]. by rewrite Nat2Z.id, Ascii.ascii_nat_embedding.
Qed.
Lemma method_text meth src body :
  Z.of_nat (String.length meth) <= 20 -> Forall (fun b => b <> 0) (string_bytes meth) ->
  c_string (method (received (request_frame meth src body))) = Ok meth.
Proof.
  intros Hm Hz. cbn [method received f_method request_frame].
  assert (Hp : take 20 (padded 21 meth) ++ zero_bytes 1 = string_bytes meth ++ 0 :: zero_bytes (20 - Z.of_nat (String.length meth))).
  { change (0 :: zero_bytes (20 - Z.of_nat (String.length meth))) with ([0] ++ zero_bytes (20 - Z.of_nat (String.length meth))).
    change [0] with (zero_bytes 1). rewrite <- zero_bytes_app by lia.
    assert (E : padded 21 meth = (string_bytes meth ++ zero_bytes (20 - Z.of_nat (String.length meth))) ++ zero_bytes 1).
    { unfold padded. rewrite <- app_assoc, <- zero_bytes_app by lia. do 2 f_equal. lia. }
    rewrite E, take_app_length'.
    - rewrite <- app_assoc, <- zero_bytes_app by lia. do 2 f_equal. lia.
    - pose proof (size_of_app (string_bytes meth) (zero_bytes (20 - Z.of_nat (String.length meth)))) as Hsz.
      rewrite string_bytes_size, size_of_zero_bytes in Hsz by lia. unfold size_of in Hsz. lia. }
  rewrite Hp. by apply c_string_terminated.
Qed.

(** A request whose body is the text of [fields], as the shell sends it. *)
Definition asked (meth : string) (src : Z) (fields : list (string * (Z + string))) : T_KRMessage :=
  received (request_frame meth src (body_of fields)).

(** The body is read as the item that the shell printed, up to its last byte. *)
Lemma with_json_asked meth src fields k r e :
  json_ok (fields_json fields) ->
  with_json (asked meth src fields) k r e = answer (k (item_of (fields_json fields))) r e.
Proof.
  intros Hok. unfold with_json, mbind, M_bind, lift, asked. cbn [msgbuf received f_body request_frame].
  rewrite <- (app_nil_r (body_of fields)). unfold body_of at 1. by rewrite parse_text.
Qed.

Lemma get_int_asked n name e : INT_MIN <= n <= INT_MAX ->
  get_int (item_of (fields_json [(name, inl n)])) name e = Ok (n, e).
Proof.
  intros Hn. unfold get_int, cJSON_GetNumber, cJSON_GetObjectItem. cbn.
  rewrite String.eqb_refl. cbn. unfold lift. by rewrite d_to_i32_of_Z.
Qed.

Lemma one_field_ok name x :
  forallb (fun b => negb (b =? 0)) (string_bytes name) = true ->
  json_ok (field_json (name, x)).2 -> json_ok (fields_json [(name, x)]).
Proof. intros Hn Hx. refine (conj (conj _ Hx) I). by apply plain_bool. Qed.

Lemma asked_method meth src fields :
  (String.length meth <=? 20)%nat && forallb (fun b => negb (b =? 0)) (string_bytes meth) = true ->
  c_string (method (asked meth src fields)) = Ok meth.
Proof.
  intros [Hl Hz]%andb_true_iff. apply Nat.leb_le in Hl. apply method_text; [lia|by apply plain_bool].
Qed.

(** The settings of the log, as a value of JSON. *)
Definition log_json (l : T_KRLog) : json :=
  JObj [("path"%string, JStr (logpath l)); ("name"%string, JStr (logname l)); ("level"%string, JInt (loglevel l))].
Definition log_ok (l : T_KRLog) : Prop :=
  plain (logpath l) /\ plain (logname l) /\ INT_MIN <= loglevel l <= INT_MAX.

Lemma log_json_ok l : log_ok l -> json_ok (log_json l) /\ kr_log_dump_json l = item_of (log_json l).
Proof.
  intros (Hp & Hn & Hl). split.
  - refine (conj (conj _ Hp) (conj (conj _ Hn) (conj (conj _ Hl) I))); by apply plain_bool.
  - unfold kr_log_dump_json, cJSON_AddNumberToObject, cJSON_CreateNumber. by rewrite to_int_of_Z.
Qed.

(** The reply with the settings of the log: a success whose body is their text. *)
Definition log_reply (l : T_KRLog) : T_KRMessage :=
  reply_text (bytes_string (json_text (log_json l))) kr_message_alloc.
Lemma answer_log l e : log_ok l -> gstKRLog e = l -> answer dump_log kr_message_alloc e = Ok (log_reply l, e).
Proof.
  intros Hl <-. destruct (log_json_ok _ Hl) as [Hok E]. unfold answer, dump_log, asks, mbind, M_bind, lift, reply_json.
  by rewrite E, (print_text _ Hok).
Qed.

(** The handlers that only describe the state. *)
Definition only_reads (h : handler) : bool :=
  match h with
  | H_info | H_info_log | H_info_krdb | H_info_table | H_info_index | H_list_index_key | H_info_param
  | H_info_group | H_info_rule | H_info_set | H_info_sdi | H_info_ddi | H_info_hdi
  | H_clion | H_clioff | H_heartbeat => true
  | _ => false
  end.
(** A computation that leaves the state as it is. *)
Definition pure_in {A} (m : M engine A) : Prop := forall e a e', m e = Ok (a, e') -> e' = e.
Lemma pure_ret {A} (a : A) : pure_in (mret a).
Proof. intros e b e' [= _ <-]. done. Qed.
Lemma pure_lift {A} (r : res A) : pure_in (lift r).
Proof. intros e b e' H. unfold lift in H. destruct r; [|done]. by injection H as _ <-. Qed.
Lemma pure_asks {A} (f : engine -> res A) : pure_in (asks f).
Proof. intros e b e' H. unfold asks in H. destruct (f e); [|done]. by injection H as _ <-. Qed.
Lemma pure_bind {A B} (m : M engine A) (k : A -> M engine B) :
  pure_in m -> (forall a, pure_in (k a)) -> pure_in (m ≫= k).
Proof.
  intros Hm Hk e b e' H. unfold mbind, M_bind in H. destruct (m e) as [[a e1]|] eqn:E; [|done].
  rewrite (Hk a e1 b e' H). by apply (Hm e a).
Qed.
Create HintDb krpure.
#[local] Hint Resolve pure_ret pure_lift pure_asks pure_bind : krpure.
Lemma pure_answer j r : pure_in j -> pure_in (answer j r).
Proof. intros Hj. unfold answer. apply pure_bind; [done|]. intros [a|]; auto with krpure. Qed.
Lemma pure_with_json m k r : (forall a, pure_in (k a)) -> pure_in (with_json m k r).
Proof.
  intros Hk. unfold with_json. apply pure_bind; [auto with krpure|]. intros [a|]; [|auto with krpure].
  by apply pure_answer.
Qed.
Lemma pure_describe {A} info (o : option A) : pure_in (describe_found info o).
Proof. destruct o; simpl; auto with krpure. Qed.
#[local] Hint Resolve pure_describe : krpure.
Lemma pure_info_item {A} name (find : T_KRDynamicMem -> Z -> res (option A)) info a : pure_in (info_item name find info a).
Proof. unfold info_item, get_int. auto with krpure. Qed.
Lemma only_reads_pure h m r : only_reads h = true -> pure_in (run_handler h m r).
Proof.
  intros Hh. destruct h; try discriminate Hh; cbn [run_handler];
    unfold kr_engine_info, kr_engine_info_log, kr_engine_info_krdb, kr_engine_info_table, kr_engine_info_param,
      kr_engine_list_index_key, kr_engine_info_index, kr_engine_info_group, kr_engine_info_rule,
      kr_engine_info_set, kr_engine_info_sdi, kr_engine_info_ddi, kr_engine_info_hdi,
      dump_log, info_param, table_of, find_group, get_int;
    try (apply pure_answer); try (apply pure_with_json; intros a); auto using pure_info_item with krpure.
  - apply pure_bind; [auto with krpure|]. intros z. apply pure_bind; [auto with krpure|].
    intros [t|]; auto with krpure.
  - apply pure_bind; [auto with krpure|]. intros z. apply pure_bind; [auto with krpure|].
    intros [t|]; auto with krpure.
Qed.

(** C11. The engine of a server answers a request through the handler that is registered
    under its method; a method that is not registered, and a request whose parameters
    cannot be checked, are answered with the reply as it was allocated, a success without
    a body; the requests for information leave the engine, but for its context, as it was. *)
Theorem kr_engine_dispatch e e1 rc m name :
  started -> kr_context_set e = Ok (rc, e1) -> c_string (method m) = Ok name ->
  (forall h r e2 c, rc = 0 -> handler_of name = Some h ->
     run_handler h m kr_message_alloc e1 = Ok (r, e2) -> kr_context_clean (ctx e2) = Ok c ->
     serves e m r (put_ctx c e2) /\ (only_reads h = true -> e2 = e1)) /\
  (forall c, rc <> 0 \/ handler_of name = None -> kr_context_clean (ctx e1) = Ok c ->
     serves e m kr_message_alloc (put_ctx c e1)).
Proof.
  intros Hst Hset Hname. split.
  - intros h r e2 c -> Hh Hr Hc. split; [|by intros Hp; apply (only_reads_pure h m _ Hp _ _ _ Hr)].
    apply engine_serves; [|done]. by rewrite (handle_message_known m e e1 name h).
  - intros c Hor Hc. apply engine_serves; [|done]. by apply (handle_message_refused m e e1 rc name).
Qed.

(** C13. What the shell asks for is what the engine does.  The body of a request is received
    without the null that ends a string, and the parser reads no further than its last
    byte; so a level of the log is set as it was asked and answered with the settings, a
    new name of the log too when it fits, and an item is looked up by its number. *)
Theorem kr_admin_request_understood e e1 c :
  started -> kr_context_set e = Ok (0, e1) -> kr_context_clean (ctx e1) = Ok c -> log_ok (gstKRLog e1) ->
  (forall k n, KR_LOGFATAL <= n <= KR_LOGDEBUG ->
     let l := kr_log_set_level n (gstKRLog e1) in
     kr_client_set_loglevel k n = kr_client_apply k "set_loglevel" 0 (size_of (body_of [("log_level"%string, inl n)]))
       (Some (body_of [("log_level"%string, inl n)] ++ [0])) /\
     serves e (asked "set_loglevel" 0 [("log_level"%string, inl n)]) (log_reply l) (put_ctx c (put_log l e1)) /\
     cJSON_Parse (msgbuf (log_reply l)) = Ok (Some (kr_log_dump_json l))) /\
  (forall k s, plain s -> Z.of_nat (String.length s) < KR_LOGFILE_LEN ->
     let l := mkLog (logpath (gstKRLog e1)) s (loglevel (gstKRLog e1)) in
     kr_client_set_logname k s = kr_client_apply k "set_logname" 0 (size_of (body_of [("log_name"%string, inr s)]))
       (Some (body_of [("log_name"%string, inr s)] ++ [0])) /\
     serves e (asked "set_logname" 0 [("log_name"%string, inr s)]) (log_reply l) (put_ctx c (put_log l e1))) /\
  (forall k id r, INT_MIN <= id <= INT_MAX ->
     match kr_sdi_lookup (sditable (ptDym (ctx e1))) id with
     | Some i => exists shm j, ptShm e1 = Some shm /\ kr_sdi_info shm i = Ok j /\ reply_json j kr_message_alloc = Ok r
     | None => r = reply_error kr_message_alloc
     end ->
     kr_client_info_sdi k id = kr_client_apply k "info_sdi" 0 (size_of (body_of [("sdi_id"%string, inl id)]))
       (Some (body_of [("sdi_id"%string, inl id)] ++ [0])) /\
     serves e (asked "info_sdi" 0 [("sdi_id"%string, inl id)]) r (put_ctx c e1)).
Proof.
  intros Hst Hset Hc Hlog.
  assert (Hserve : forall meth h fields r e2, handler_of meth = Some h -> c_string (method (asked meth 0 fields)) = Ok meth ->
    ctx e2 = ctx e1 -> run_handler h (asked meth 0 fields) kr_message_alloc e1 = Ok (r, e2) ->
    serves e (asked meth 0 fields) r (put_ctx c e2)).
  { intros meth h fields r e2 Hh Hm Hctx Hr. apply engine_serves; [|by rewrite Hctx].
    by rewrite (handle_message_known _ e e1 meth h Hst Hset Hm Hh). }
  split_and!.
  - intros k n Hn l. assert (Hi : INT_MIN <= n <= INT_MAX) by (unfold KR_LOGFATAL, KR_LOGDEBUG, INT_MIN, INT_MAX in *; lia).
    assert (Hok : json_ok (fields_json [("log_level"%string, inl n)])) by (by apply one_field_ok).
    assert (Hl : log_ok l) by (destruct Hlog as (Hpath & Hname & _); exact (conj Hpath (conj Hname Hi))).
    split; [by apply apply_json_body|]. split.
    + apply (Hserve _ H_set_loglevel); [done|by apply asked_method|done|]. cbn [run_handler]. unfold kr_engine_set_loglevel.
      rewrite with_json_asked by done. unfold answer. unfold mbind at 1, M_bind at 1. unfold mbind at 1, M_bind at 1.
      rewrite get_int_asked by done.
      rewrite (proj2 (Z.ltb_ge n KR_LOGFATAL)), (proj2 (Z.ltb_ge KR_LOGDEBUG n)) by lia. cbn [orb].
      exact (answer_log l (put_log l e1) Hl eq_refl).
    + destruct (log_json_ok l Hl) as [Hj ->]. cbn [msgbuf log_reply reply_text].
      apply parse_text_string; [done|apply ends_null].
  - intros k t Ht Hlen l.
    assert (Hok : json_ok (fields_json [("log_name"%string, inr t)])) by (by apply one_field_ok).
    assert (Hl : log_ok l) by (destruct Hlog as (Hpath & _ & Hlv); exact (conj Hpath (conj Ht Hlv))).
    split; [by apply apply_json_body|].
    apply (Hserve _ H_set_logname); [done|by apply asked_method|done|]. cbn [run_handler]. unfold kr_engine_set_logname.
    rewrite with_json_asked by done. unfold answer. unfold mbind at 1, M_bind at 1.
    change (cJSON_GetString _ "log_name") with (Some t). unfold mbind at 1, M_bind at 1.
    unfold set_log, kr_log_set_name, log_copy. rewrite (proj2 (Z.leb_gt _ _)) by done.
    exact (answer_log l (put_log l e1) Hl eq_refl).
  - intros k id r Hid Hr.
    assert (Hok : json_ok (fields_json [("sdi_id"%string, inl id)])) by (by apply one_field_ok).
    split; [by apply apply_json_body|].
    apply (Hserve _ H_info_sdi); [done|by apply asked_method|done|]. cbn [run_handler]. unfold kr_engine_info_sdi.
    rewrite with_json_asked by done. unfold answer, info_item. unfold mbind at 1, M_bind at 1. unfold mbind at 1, M_bind at 1.
    rewrite get_int_asked by done. unfold mbind at 1, M_bind at 1, asks at 1.
    destruct (kr_sdi_lookup _ id) as [i|]; cbn [describe_found].
    + destruct Hr as (shm & j & Hshm & Hj & Hr). unfold asks. rewrite Hshm. cbn [of_option mbind res_bind].
      rewrite Hj. cbn [mbind res_bind]. unfold lift. by rewrite Hr.
    + by rewrite Hr.
Qed.

(** A name of the log that does not fit is copied over the end of its array. *)
Lemma kr_engine_set_logname_overflow m j name r e :
  cJSON_Parse (msgbuf m) = Ok (Some j) ->
  cJSON_GetString j "log_name" = Some name -> KR_LOGFILE_LEN <= Z.of_nat (String.length name) ->
  kr_engine_set_logname m r e = Fault OutOfBounds.
Proof.
  intros Hp Hn Hlen. unfold kr_engine_set_logname, with_json.
  unfold mbind at 1, M_bind at 1, lift at 1. rewrite Hp.
  unfold answer, mbind, M_bind. rewrite Hn. unfold set_log, kr_log_set_name, log_copy.
  by rewrite (proj2 (Z.leb_le _ _)) by done.
Qed.

(** ** Reloading the parameters *)

Lemma context_set_same n e shm sec0 sec :
  ptShm e = Some shm -> active shm = Ok sec -> made_in n sec0 (ptDym (ctx e)) ->
  parts_times sec0 = parts_times sec -> kr_context_set e = Ok (0, e).
Proof.
  intros Hshm Hact Hr Ht. unfold kr_context_set. rewrite Hshm.
  rewrite (dym_check_same regcomp kr_calc_parse_flex module_symbol set_cur n sec0 shm sec _ _ Hr Hact Ht).
  unfold put_ctx. destruct e as [c s l]; destruct c; cbn in *. by subst.
Qed.
Lemma context_set_reflects n sec0 sec e shm e2 :
  ptShm e = Some shm -> active shm = Ok sec -> made_in n sec0 (ptDym (ctx e)) -> times_differ sec0 sec ->
  kr_context_set e = Ok (0, e2) -> reflects shm sec (ptDym (ctx e2)).
Proof.
  intros Hshm Hact Hr Ht. unfold kr_context_set. rewrite Hshm.
  destruct (kr_dym_check _ _ _ _ _ shm _) as [[[rc d] os]|] eqn:Hd; [|done].
  destruct (Z.eqb_spec rc 0) as [->|Hne]; cbn [negb]; [|done]. intros [= <-]. cbn [ptDym ctx put_ctx].
  apply (made_in_reflects _ (nSecId shm)); [by apply of_option_Ok in Hact|].
  eapply dym_check_made; [done| |exact Hd]. by eapply made_in_trusted.
Qed.
Lemma context_clean_used (c c' : T_KRContext Data) :
  kr_context_clean c = Ok c' -> used (ptDym c) (ptDym c').
Proof.
  intros Hc. unfold kr_context_clean in Hc. apply res_bind_Ok in Hc as (d & Hd & [= <-]).
  by apply dym_init_used.
Qed.

(** The description of the parameters: the times of the active section, and those of the
    section a thread's parameters were made of. *)
Definition param_json (n : Z) (sec sec0 : shm_section) : json :=
  JObj [("shm", JObj [("current_secid", JInt n); ("set_load_time", JInt (tLastLoadTime (stShmSet sec)));
          ("sdi_load_time", JInt (tLastLoadTime (stShmSDI sec))); ("ddi_load_time", JInt (tLastLoadTime (stShmDDI sec)));
          ("hdi_load_time", JInt (tLastLoadTime (stShmHDI sec))); ("group_load_time", JInt (tLastLoadTime (stShmGroup sec)))]);
        ("dym", JObj [("set_construct_time", JInt (tLastLoadTime (stShmSet sec0)));
          ("sdi_construct_time", JInt (tLastLoadTime (stShmSDI sec0))); ("ddi_construct_time", JInt (tLastLoadTime (stShmDDI sec0)));
          ("hdi_construct_time", JInt (tLastLoadTime (stShmHDI sec0)));
          ("group_construct_time", JInt (tLastLoadTime (stShmGroup sec0)))])]%string.
(** Times that are printed as integers: up to the year 2038. *)
Definition times_int (sec : shm_section) : Prop := Forall (fun t => INT_MIN <= t <= INT_MAX) (parts_times sec).

Lemma param_json_ok n sec sec0 : INT_MIN <= n <= INT_MAX -> times_int sec -> times_int sec0 ->
  json_ok (param_json n sec sec0).
Proof.
  unfold times_int, parts_times. rewrite !Forall_cons. intros Hn (T1 & T2 & T3 & T4 & T5 & _) (S1 & S2 & S3 & S4 & S5 & _).
  repeat first [assumption | exact I | by apply plain_bool | split].
Qed.

Lemma info_param_spec e shm sec n0 sec0 : ptShm e = Some shm -> active shm = Ok sec -> INT_MIN <= nSecId shm <= INT_MAX ->
  made_in n0 sec0 (ptDym (ctx e)) -> times_int sec -> times_int sec0 ->
  answer info_param kr_message_alloc e =
    Ok (reply_text (bytes_string (json_text (param_json (nSecId shm) sec sec0))) kr_message_alloc, e).
Proof.
  intros Hshm Hact Hn Hm Ht Ht0. pose proof (param_json_ok _ _ _ Hn Ht Ht0) as Hok.
  destruct (made_in_time _ _ _ Hm) as (M1 & M2 & M3 & M4 & M5).
  destruct Hm as ((sets & Hs & _) & _ & _ & _ & (gl & Hg & _)). specialize (M1 _ Hs). specialize (M5 _ Hg).
  unfold times_int, parts_times in Ht, Ht0. rewrite !Forall_cons in Ht, Ht0.
  destruct Ht as (T1 & T2 & T3 & T4 & T5 & _), Ht0 as (S1 & S2 & S3 & S4 & S5 & _).
  assert (E : info_param e = Ok (Some (item_of (param_json (nSecId shm) sec sec0)), e)).
  { unfold info_param, asks, kr_shm_info, kr_dym_info. rewrite Hshm. cbn [of_option mbind res_bind].
    rewrite Hact, Hs, Hg. cbn [of_option mbind res_bind]. rewrite M1, M2, M3, M4, M5.
    unfold cJSON_AddNumberToObject, cJSON_CreateNumber. by rewrite !to_int_of_Z. }
  unfold answer, mbind, M_bind, lift, reply_json. by rewrite E, (print_text _ Hok).
Qed.

(** C12. A request to reload the parameters, sent to an engine whose parameters were made of the
    active section.  When the loads succeed, the section that was not active becomes it,
    with what was loaded, and the reply describes it; the next message whose check
    succeeds is then handled with the parameters that were loaded, if they were loaded in
    another second than those of before (with the same times they are not noticed).  When
    a load fails the reply is an error, and the messages that follow are handled with the
    parameters of before.  In either case the parameters in use, which point into the
    shared memory, lead to the same definitions as before.  The times are those of up to
    2038. *)
Theorem kr_reload_takes_effect e shm sec0 c m :
  started -> ptShm e = Some shm -> two_sections shm -> active shm = Ok sec0 ->
  made_in (nSecId shm) sec0 (ptDym (ctx e)) ->
  c_string (method m) = Ok "reload_param"%string -> kr_context_clean (ctx e) = Ok c ->
  times_int sec0 -> times_int (loaded loads) ->
  exists r e' shm', serves e m r e' /\ ptShm e' = Some shm' /\ reflects shm' sec0 (ptDym (ctx e')) /\
    if loads_ok loads then
      r = reply_text (bytes_string (json_text (param_json (nSecId shm') (loaded loads) sec0))) kr_message_alloc /\
      nSecId shm' = 1 - nSecId shm /\ active shm' = Ok (loaded loads) /\
      (times_differ sec0 (loaded loads) -> forall e2, kr_context_set e' = Ok (0, e2) ->
         reflects shm' (loaded loads) (ptDym (ctx e2))) /\
      (parts_times sec0 = parts_times (loaded loads) -> kr_context_set e' = Ok (0, e'))
    else
      r = reply_error kr_message_alloc /\ kr_context_set e' = Ok (0, e').
Proof.
  intros Hst Hshm [Hn Hlen] Hact Hr Hname Hc Ht0 Ht.
  pose proof (context_set_same _ e shm sec0 sec0 Hshm Hact Hr eq_refl) as Hset.
  pose proof (used_made _ _ _ _ (context_clean_used _ _ Hc) Hr) as Hrc.
  pose proof (handle_message_known m e e "reload_param" H_reload_param Hst Hset Hname eq_refl) as Hh.
  destruct (shm_load_spec loads shm Hn Hlen) as (rc & shm' & Hload & _ & Hkeep & Hcase).
  assert (Hold : reflects shm' sec0 (ptDym c)).
  { apply (made_in_reflects _ (nSecId shm)); [|done]. rewrite Hkeep. by apply of_option_Ok in Hact. }
  set (e1 := mkEngine SA (ctx e) (Some shm') (gstKRLog e)).
  assert (Hrun : run_handler H_reload_param m kr_message_alloc e = if rc <? 0 then Ok (reply_error kr_message_alloc, e1)
    else answer info_param kr_message_alloc e1).
  { cbn [run_handler]. unfold kr_engine_reload_param, answer at 1. unfold mbind, M_bind. rewrite Hshm, Hload.
    fold e1. by destruct (rc <? 0). }
  rewrite Hrun in Hh. destruct (loads_ok loads).
  - destruct Hcase as (Hrc0 & Hsec & Hact'). rewrite (proj2 (Z.ltb_ge rc 0)) in Hh by lia.
    rewrite (info_param_spec e1 shm' (loaded loads) (nSecId shm) sec0 eq_refl Hact') in Hh;
      [|unfold INT_MIN, INT_MAX; lia|exact Hr|exact Ht|exact Ht0].
    eexists _, _, shm'. split; [apply (engine_serves _ _ _ _ c Hh Hc)|]. do 3 (split; [done|]).
    split; [congruence|]. split; [done|]. split.
    + intros Hd e2 He2. by eapply (context_set_reflects _ sec0 _ (put_ctx c e1) shm' e2 eq_refl Hact' Hrc Hd).
    + intros Heq. by apply (context_set_same (nSecId shm) _ shm' sec0 (loaded loads)).
  - destruct Hcase as (-> & _ & Hact'). eexists _, _, shm'. split; [apply (engine_serves _ _ _ _ c Hh Hc)|].
    do 3 (split; [done|]). apply (context_set_same (nSecId shm) _ shm' sec0 sec0); [done| |done|done].
    by rewrite Hact'.
Qed.

(** ** What handling a message does to the parameters *)

(** Calculators are evaluated as in KrData, and the functions of the data module leave the
    pointers to the definitions. *)
Definition calculates : Prop := exists regexec sdi_func ddi_func hdi_func localtime day mon flag now fuel,
  (forall d0 f id, keeps (fun c => used d0 (ptDym c)) (sdi_func f id) anything) /\
  (forall d0 f id, keeps (fun c => used d0 (ptDym c)) (ddi_func f id) anything) /\
  (forall d0 f id, keeps (fun c => used d0 (ptDym c)) (hdi_func f id) anything) /\
  forall shm k, calc_eval shm k =
    KrData.calc_eval shm regexec sdi_func ddi_func hdi_func localtime day mon flag now fuel k.

Lemma calculates_uses shm d0 k : calculates ->
  keeps (fun c => used d0 (ptDym c)) (calc_eval shm k) anything.
Proof.
  intros (regexec & f1 & f2 & f3 & lt & day & mon & flag & now & fuel & H1 & H2 & H3 & E). rewrite E.
  by apply uses_calc_eval.
Qed.

(** The shared memory stays, and the parameters are used. *)
Definition in_use_of (shm : T_KRShareMem) (d0 : T_KRDynamicMem) (e : engine) : Prop :=
  ptShm e = Some shm /\ used d0 (ptDym (ctx e)).

Lemma pure_keeps {A} I (m : M engine A) : pure_in m -> keeps I m anything.
Proof. intros Hm e a e' He Hrun. by rewrite (Hm _ _ _ Hrun). Qed.
Lemma keeps_on_ctx {A} shm d0 (m : M (T_KRContext Data) A) :
  keeps (fun c => used d0 (ptDym c)) m anything -> keeps (in_use_of shm d0) (on_ctx m) anything.
Proof.
  intros Hm e a e' [Hs Hd] Hrun. unfold on_ctx in Hrun. destruct (m (ctx e)) as [[b c]|] eqn:Hc; [|done].
  injection Hrun as _ <-. by destruct (Hm _ _ _ Hd Hc).
Qed.
Lemma keeps_set_log shm d0 f : keeps (in_use_of shm d0) (set_log f) anything.
Proof. intros e a e' [Hs Hd] Hrun. unfold set_log in Hrun. destruct (f _); [|done]. by injection Hrun as _ <-. Qed.
Lemma keeps_answer I j r : keeps I j anything -> keeps I (answer j r) anything.
Proof. intros Hj. unfold answer. eapply keeps_bind; [exact Hj|]. intros [a|] _; repeat keep_step. Qed.
Lemma keeps_with_json I m k r : (forall a, keeps I (k a) anything) -> keeps I (with_json m k r) anything.
Proof. intros Hk. unfold with_json. keep_step. destruct a as [a|]; [by apply keeps_answer|keep_step]. Qed.

(** Every handler but that of a reload uses the parameters. *)
Lemma run_handler_uses shm d0 h m r : calculates -> h <> H_reload_param ->
  keeps (in_use_of shm d0) (run_handler h m r) anything.
Proof.
  intros Hc Hh. destruct (only_reads h) eqn:Hr; [apply pure_keeps; by apply only_reads_pure|].
  assert (Hdump : keeps (in_use_of shm d0) dump_log anything) by (apply pure_keeps, pure_asks).
  assert (Hset : forall f, keeps (in_use_of shm d0) (set_log f;; dump_log) anything).
  { intros f. eapply keeps_bind; [apply keeps_set_log|]. by intros _ _. }
  assert (Hevent : forall r' r, keeps (in_use_of shm d0) (lift (event_reply r' r)) anything) by (intros; keep_step).
  destruct h; try discriminate Hr; try done; cbn [run_handler].
  - unfold detect_event. eapply keeps_bind; [apply pure_keeps, pure_asks|]. intros s _.
    eapply keeps_bind; [|by intros r' _]. apply keeps_on_ctx, uses_detect_event. intros k. by apply calculates_uses.
  - unfold insert_event. eapply keeps_bind; [|by intros r' _]. apply keeps_on_ctx, uses_insert_event.
  - apply keeps_with_json. intros a. destruct (cJSON_GetString _ _); [|keep_step]. destruct (negb _); [keep_step|apply Hset].
  - apply keeps_with_json. intros a. destruct (cJSON_GetString _ _); [apply Hset|keep_step].
  - apply keeps_with_json. intros a. unfold get_int. keep_step. destruct (_ || _); [keep_step|apply Hset].
Qed.

Lemma reload_step shm e m r r' e' : ptShm e = Some shm -> two_sections shm ->
  kr_engine_reload_param m r e = Ok (r', e') ->
  exists rc shm', kr_shm_load loads (Some shm) = Ok (rc, Some shm') /\ ptShm e' = Some shm' /\ ctx e' = ctx e.
Proof.
  intros Hshm [Hn H2] Hrun. destruct (shm_load_spec loads shm Hn H2) as (rc & shm' & Hl & _).
  exists rc, shm'. split; [done|]. unfold kr_engine_reload_param, answer in Hrun. unfold mbind, M_bind in Hrun.
  rewrite Hshm, Hl in Hrun. destruct (rc <? 0); [by injection Hrun as _ <-|].
  destruct (info_param _) as [[j e1]|] eqn:Hi; [|done]. apply pure_asks in Hi as ->.
  destruct j as [j|]; [|by injection Hrun as _ <-]. unfold lift in Hrun. destruct (reply_json j r); [|done].
  by injection Hrun as _ <-.
Qed.

(** What a run of a handler does to the shared memory and the parameters: nothing, a use,
    or a load. *)
Lemma run_handler_thread shm h m r e r' e' : calculates -> ptShm e = Some shm -> two_sections shm ->
  run_handler h m r e = Ok (r', e') ->
  exists shm', ptShm e' = Some shm' /\
    ((shm' = shm /\ used (ptDym (ctx e)) (ptDym (ctx e'))) \/
     (exists rc, kr_shm_load loads (Some shm) = Ok (rc, Some shm') /\ ptDym (ctx e') = ptDym (ctx e))).
Proof.
  intros Hc Hshm H2 Hrun. assert (Hh : h = H_reload_param \/ h <> H_reload_param) by (destruct h; auto; by right).
  destruct Hh as [->|Hh].
  - destruct (reload_step _ _ m _ _ _ Hshm H2 Hrun) as (rc & shm' & Hl & Hs & Hctx).
    exists shm'. split; [done|]. right. exists rc. by rewrite Hctx.
  - destruct (run_handler_uses shm (ptDym (ctx e)) h m r Hc Hh e r' e') as [[Hs Hu] _]; [|done|].
    { split; [done|apply used_refl]. }
    exists shm. split; [done|]. by left.
Qed.

Lemma context_set_step e rc e1 shm : ptShm e = Some shm -> kr_context_set e = Ok (rc, e1) ->
  ptShm e1 = Some shm /\ thread_step (shm, ptDym (ctx e)) (shm, ptDym (ctx e1)).
Proof.
  intros Hshm. unfold kr_context_set. rewrite Hshm.
  destruct (kr_dym_check _ _ _ _ _ shm _) as [[[rc' d] os]|] eqn:Hd; [|done]. intros [= _ <-].
  split; [done|]. by eapply step_check.
Qed.

Lemma handle_message_thread shm m r e r' e' : calculates -> ptShm e = Some shm -> two_sections shm ->
  (forall sec, loads_ok loads = true -> active shm = Ok sec -> later sec (loaded loads)) ->
  handle_message m r e = Ok (r', e') ->
  exists shm', ptShm e' = Some shm' /\ rtc thread_step (shm, ptDym (ctx e)) (shm', ptDym (ctx e')).
Proof.
  intros Hc Hshm H2 Hlater. unfold handle_message. unfold mbind at 1, M_bind at 1.
  destruct (kr_context_set e) as [[rc e1]|] eqn:Hset; [|done].
  destruct (context_set_step _ _ _ _ Hshm Hset) as [Hs1 Hstep].
  assert (Hdone : e' = e1 -> exists shm', ptShm e' = Some shm' /\ rtc thread_step (shm, ptDym (ctx e)) (shm', ptDym (ctx e'))).
  { intros ->. exists shm. split; [done|by apply rtc_once]. }
  destruct (negb (rc =? 0)); [intros [= _ <-]; by apply Hdone|].
  unfold mbind at 1, M_bind at 1, lift at 1. destruct (c_string _); [|done].
  unfold mbind at 1, M_bind at 1, lift at 1. destruct (kr_functable_search _ _) as [[h|]|]; [| |done].
  2:{ intros [= _ <-]. by apply Hdone. }
  intros Hrun. destruct (run_handler_thread _ _ _ _ _ _ _ Hc Hs1 H2 Hrun) as (shm' & Hs' & Hcase).
  exists shm'. split; [done|]. eapply rtc_l; [exact Hstep|]. apply rtc_once.
  destruct Hcase as [[-> Hu]|(rc' & Hl & ->)]; [by apply step_use|]. by eapply step_load.
Qed.

Lemma engine_handle_thread {O} (a : T_KREngineArg O) shm e o rc e' o' : calculates -> ptShm e = Some shm -> two_sections shm ->
  (forall sec, loads_ok loads = true -> active shm = Ok sec -> later sec (loaded loads)) ->
  kr_engine_handle a (e, o) = Ok (rc, (e', o')) ->
  exists shm', ptShm e' = Some shm' /\ rtc thread_step (shm, ptDym (ctx e)) (shm', ptDym (ctx e')).
Proof.
  intros Hc Hshm H2 Hlater. unfold kr_engine_handle.
  destruct (handle_message _ _ e) as [[r e1]|] eqn:Hrun; [|done].
  destruct (handle_message_thread _ _ _ _ _ _ Hc Hshm H2 Hlater Hrun) as (shm' & Hs' & Hsteps).
  destruct (cb_func a _ r o) as [[x o1]|]; [|done]. destruct (kr_context_clean (ctx e1)) as [c|] eqn:Hcl; [|done].
  intros [= _ <- _]. exists shm'. split; [done|]. eapply rtc_r; [exact Hsteps|]. by apply step_use, context_clean_used.
Qed.

End KrEngine.

(** * The life of an engine *)

Section Life.
Context {SA : SortArgument}.

(** A message is handled.  What is not the program's may be different every time; a load
    that succeeds is in a later second than the one before. *)
Inductive handles : T_KREngine (SA := SA) -> T_KREngine (SA := SA) -> Prop :=
  | handles_message (outside : Outside) ft O (a : T_KREngineArg O) o rc e e' o' :
      calculates ->
      (forall shm sec, ptShm e = Some shm -> loads_ok loads = true -> active shm = Ok sec -> later sec (loaded loads)) ->
      kr_engine_handle ft a (e, o) = Ok (rc, (e', o')) -> handles e e'.

Lemma handles_thread e e' shm : handles e e' -> ptShm e = Some shm -> thread_ok (shm, ptDym (ctx e)) ->
  exists shm', ptShm e' = Some shm' /\ thread_ok (shm', ptDym (ctx e')).
Proof.
  intros [outside ft O a o rc e0 e1 o' Hc Hlater Hrun] Hshm Hok. pose proof Hok as [H2 _].
  destruct (engine_handle_thread ft a shm e0 o rc e1 o' Hc Hshm H2) as (shm' & Hs' & Hsteps); [by eauto|done|].
  exists shm'. split; [done|]. by eapply thread_run_ok.
Qed.

(** C17. An engine works with the configuration that is active, all its life.  Its parameters are
    made of the shared memory; it handles any messages, events and reloads among them, each
    reload that succeeds in a later second than the one before, and none of them faults (a
    check that releases a set in use does: [kr_dym_destruct_double_free]).  When the check for the
    next message succeeds, every set, data item, rule and group of the parameters leads to
    its definition in the active configuration, and does so until the message is handled,
    whatever its handler, a reload included. *)
Theorem kr_engine_uses_active regcomp flex symbol set_cur shm0 os0 dyn0 os1 e0 e (outside : Outside) e1 :
  two_sections shm0 -> kr_dym_construct regcomp flex symbol set_cur shm0 os0 = Ok (Some dyn0, os1) ->
  ptShm e0 = Some shm0 -> ptDym (ctx e0) = dyn0 -> rtc handles e0 e ->
  calculates -> kr_context_set e = Ok (0, e1) ->
  exists shm sec, ptShm e1 = Some shm /\ active shm = Ok sec /\ reflects shm sec (ptDym (ctx e1)) /\
    forall h m r r' e2, run_handler h m r e1 = Ok (r', e2) ->
      exists shm', ptShm e2 = Some shm' /\ reflects shm' sec (ptDym (ctx e2)).
Proof.
  intros H2 Hc Hs0 <- Hrun Hcalc Hset.
  assert (Hok : exists shm, ptShm e = Some shm /\ thread_ok (shm, ptDym (ctx e))).
  { pose proof (thread_starts _ _ _ _ _ _ _ _ H2 Hc) as H0. clear Hc H2 Hset. revert shm0 Hs0 H0.
    induction Hrun as [e0|e0 e3 e Hstep _ IH]; intros shm0 Hs0 H0; [by exists shm0|].
    destruct (handles_thread _ _ _ Hstep Hs0 H0) as (shm' & Hs' & H'). by eapply IH. }
  destruct Hok as (shm & Hs & Hok). destruct (context_set_step _ _ _ _ Hs Hset) as [Hs1 _].
  assert (Hm : exists sec, active shm = Ok sec /\ made_in (nSecId shm) sec (ptDym (ctx e1))).
  { revert Hset. unfold kr_context_set. rewrite Hs.
    destruct (kr_dym_check _ _ _ _ _ shm _) as [[[rc d] os]|] eqn:Hd; [|done].
    destruct (Z.eqb_spec rc 0) as [->|Hne]; cbn [negb]; [|done]. intros [= <-]. by eapply thread_checked. }
  destruct Hm as (sec & Hact & Hm). destruct Hok as [Htwo _]. cbn [fst] in Htwo.
  assert (Hsec : sections shm !! Z.to_nat (nSecId shm) = Some sec) by by apply of_option_Ok in Hact.
  exists shm, sec. do 2 (split; [done|]). split; [by apply (made_in_reflects _ (nSecId shm))|].
  intros h m r r' e2 Hrh. destruct (run_handler_thread _ _ _ _ _ _ _ Hcalc Hs1 Htwo Hrh) as (shm' & Hs' & Hcase).
  exists shm'. split; [done|]. destruct Hcase as [[-> Hu]|(rc & Hl & ->)].
  - apply (made_in_reflects _ (nSecId shm)); [done|]. by eapply used_made.
  - destruct (made_in_loaded loads shm sec _ Htwo Hact Hm) as (rc1 & shm1 & Hl1 & Hr). rewrite Hl in Hl1. by injection Hl1 as <- <-.
Qed.
End Life.

(** * An example: an engine without tables *)

#[local] Existing Instance example_layout.
#[local] Instance example_outside : Outside := {|
  VERSION := "0"; PACKAGE := "krproject"; PACKAGE_VERSION := "0"; PACKAGE_BUGREPORT := ""; PACKAGE_URL := "";
  access := fun _ => true;
  caDBName := "KRDB"; caTableName := fun _ => ""%string; caIndexName := fun _ => ""%string;
  field_name := fun _ _ => ""%string; rule_name := fun _ => ""%string; eSizeKeepMode := fun _ => 48;
  kr_shm_set_info := fun _ => cJSON_CreateObject; kr_shm_sdi_info := fun _ => cJSON_CreateObject;
  kr_shm_ddi_info := fun _ => cJSON_CreateObject; kr_shm_hdi_info := fun _ => cJSON_CreateObject;
  kr_shm_group_info := fun _ => cJSON_CreateObject; kr_shm_rule_info := fun _ => cJSON_CreateObject;
  calc_eval := fun shm => KrData.calc_eval shm (fun _ _ => false) (fun _ _ => fail BadPointer) (fun _ _ => fail BadPointer)
    (fun _ _ => fail BadPointer) (fun _ => (0, 0, 0)) (fun _ _ _ _ => 0) (fun _ _ _ _ => 0)
    (fun _ _ => (0, ""%string)) 0 3;
  regcomp := fun _ => true;
  kr_calc_parse_flex := example_parse; module_symbol := fun _ => false; set_cur := example_cursor;
  loads := example_loads 300 7
|}.

Definition example_engine : T_KREngine :=
  mkEngine _ (mkContext (mkDB ∅ ∅ ∅ ∅ [] []) None example_dym.2 example_dym.1 None None KR_TYPE_UNKNOWN None None None)
    (Some (example_shm 0)) (mkLog "." "trace" 3).
Definition ask (name : string) : T_KRMessage := received (request_frame name 0 []).

Lemma example_started : exists ft, started ft.
Proof.
  destruct (functable_create_spec (F:=handler) "engine") as (ft0 & Hc & Hrep).
  destruct (run_fops_spec ft0 ∅ registrations Hrep) as (ft & Hr & _); [vm_compute; done|].
  by exists ft, "engine"%string, ft0.
Qed.
Lemma example_made : made_in 0 (example_section 100 1) (ptDym (ctx example_engine)).
Proof.
  destruct (dym_construct_ok (fun _ => true) example_parse (fun _ => false) example_cursor
    (example_shm 0) ∅ example_dym.1 example_dym.2) as (sec & [= <-] & Hr); [vm_compute; reflexivity|exact Hr].
Qed.
Lemma example_set : kr_context_set example_engine = Ok (0, example_engine).
Proof. exact (context_set_same 0 example_engine (example_shm 0) _ (example_section 100 1) eq_refl eq_refl example_made eq_refl). Qed.
Definition example_clean : T_KRContext (option (list Z)) :=
  match kr_context_clean (ctx example_engine) with Ok c => c | Fault _ => ctx example_engine end.
Lemma example_cleaned : kr_context_clean (ctx example_engine) = Ok example_clean.
Proof. vm_compute. reflexivity. Qed.

(** The description of a database without tables. *)
Definition example_text : string := bytes_string (json_text
  (JObj [("name", JStr "KRDB"); ("table_number", JInt 0); ("index_number", JInt 0)]%string)).
Definition example_reply : T_KRMessage := reply_text example_text kr_message_alloc.
Lemma kr_engine_dispatch_witness : exists ft, started ft /\
  serves (H := engine_run ft) example_engine (ask "info_krdb") example_reply (put_ctx example_clean example_engine) /\
  serves (H := engine_run ft) example_engine (ask "no_such_method") kr_message_alloc
    (put_ctx example_clean example_engine).
Proof.
  destruct example_started as [ft Hft]. exists ft. split; [done|]. split.
  - apply (kr_engine_dispatch ft example_engine example_engine 0 (ask "info_krdb") "info_krdb" Hft example_set
      eq_refl) with (h := H_info_krdb); [done|reflexivity|vm_compute; reflexivity|exact example_cleaned].
  - apply (kr_engine_dispatch ft example_engine example_engine 0 (ask "no_such_method") "no_such_method" Hft
      example_set eq_refl); [right; vm_compute; reflexivity|exact example_cleaned].
Defined.

Lemma kr_reload_takes_effect_witness : exists ft r e' shm', started ft /\
  serves (H := engine_run ft) example_engine (ask "reload_param") r e' /\ msgtype r = KR_MSGTYPE_SUCCESS /\
  reflects shm' (example_section 100 1) (ptDym (ctx e')) /\
  forall e2, kr_context_set e' = Ok (0, e2) -> reflects shm' (example_section 300 7) (ptDym (ctx e2)).
Proof.
  destruct example_started as [ft Hft].
  destruct (kr_reload_takes_effect ft example_engine (example_shm 0) (example_section 100 1) example_clean
    (ask "reload_param") Hft eq_refl) as (r & e' & shm' & Hs & _ & Hold & Hok & _ & _ & Hr & _).
  - split; [by left|reflexivity].
  - reflexivity.
  - exact example_made.
  - reflexivity.
  - exact example_cleaned.
  - repeat constructor; discriminate.
  - repeat constructor; discriminate.
  - exists ft, r, e', shm'. split; [done|]. split; [exact Hs|]. split; [by rewrite Hok|]. split; [exact Hold|].
    apply Hr. repeat constructor; discriminate.
Defined.

(** A reload, and the check for the next message. *)
Definition example_reloaded : T_KRMessage * T_KREngine :=
  match run_handler H_reload_param (ask "reload_param") kr_message_alloc example_engine with
  | Ok x => x
  | Fault _ => (kr_message_alloc, example_engine)
  end.
Definition example_next : T_KREngine := put_ctx example_clean example_reloaded.2.
Definition example_checked : T_KREngine :=
  match kr_context_set example_next with Ok (_, e) => e | Fault _ => example_next end.

Lemma example_calculates : calculates.
Proof.
  eexists (fun _ _ => false), (fun _ _ => fail BadPointer), (fun _ _ => fail BadPointer), (fun _ _ => fail BadPointer), _, _, _, _, _, _.
  split_and!; [intros; apply keeps_fail..|]. intros shm k. reflexivity.
Qed.
Lemma example_handles : handles example_engine example_next.
Proof.
  destruct example_started as [ft Hft].
  apply (handles_message example_outside ft unit (mkArg (ask "reload_param") kr_message_alloc (fun _ _ => mret tt)) tt 0 _ _ tt
    example_calculates).
  - intros shm sec [= <-] _ [= <-]. repeat constructor.
  - unfold kr_engine_handle. cbn [KrServer.apply KrServer.reply cb_func].
    rewrite (handle_message_known ft (ask "reload_param") _ _ "reload_param" H_reload_param Hft example_set eq_refl eq_refl).
    assert (E : run_handler H_reload_param (ask "reload_param") kr_message_alloc example_engine = Ok example_reloaded)
      by (vm_compute; reflexivity).
    rewrite E. unfold example_next. destruct example_reloaded as [r e1] eqn:He.
    assert (Hctx : ctx e1 = ctx example_engine).
    { change e1 with (r, e1).2. rewrite <- He. vm_compute. reflexivity. }
    cbn [mret M_ret snd]. rewrite Hctx, example_cleaned. reflexivity.
Qed.

Lemma kr_engine_uses_active_witness :
  handles example_engine example_next /\ kr_context_set example_next = Ok (0, example_checked) /\
  exists shm, ptShm example_checked = Some shm /\ reflects shm (example_section 300 7) (ptDym (ctx example_checked)).
Proof.
  assert (Hset : kr_context_set example_next = Ok (0, example_checked)) by (vm_compute; reflexivity).
  split; [exact example_handles|]. split; [exact Hset|].
  destruct (kr_engine_uses_active (fun _ => true) example_parse (fun _ => false) example_cursor (example_shm 0) ∅
    example_dym.1 example_dym.2 example_engine example_next example_outside example_checked)
    as (shm & sec & Hshm & Hact & Hr & _).
  - split; [by left|reflexivity].
  - vm_compute. reflexivity.
  - reflexivity.
  - reflexivity.
  - apply rtc_once, example_handles.
  - exact example_calculates.
  - exact Hset.
  - exists shm. split; [exact Hshm|]. assert (E : active shm = Ok (example_section 300 7)).
    { assert (Ha : option_map active (ptShm example_checked) = Some (Ok (example_section 300 7)))
        by (vm_compute; reflexivity).
      rewrite Hshm in Ha. by injection Ha. }
    rewrite E in Hact. injection Hact as <-. exact Hr.
Defined.

Definition example_named : T_KRLog := mkLog "." "audit" 3.
Lemma kr_admin_request_understood_witness : exists ft, started ft /\
  serves (H := engine_run ft) example_engine (asked "set_loglevel" 0 [("log_level"%string, inl 5)])
    (log_reply (mkLog "." "trace" 5)) (put_ctx example_clean (put_log (mkLog "." "trace" 5) example_engine)) /\
  serves (H := engine_run ft) example_engine (asked "set_logname" 0 [("log_name"%string, inr "audit"%string)])
    (log_reply example_named) (put_ctx example_clean (put_log example_named example_engine)).
Proof.
  destruct example_started as [ft Hft]. exists ft. split; [done|].
  destruct (kr_admin_request_understood ft example_engine example_engine example_clean Hft example_set example_cleaned)
    as (Hlevel & Hname & _).
  - split_and!; [by apply plain_bool|by apply plain_bool|done|done].
  - split.
    + destruct (Hlevel (mkSocket [] [] []) 5) as (_ & Hs & _); [done|exact Hs].
    + destruct (Hname (mkSocket [] [] []) "audit"%string) as [_ Hs]; [by apply plain_bool|done|exact Hs].
Defined.
