(* ===== verification/KrThreadpool.v ===== *)
(** The thread pool of krutils/kr_threadpool.c, over the bounded queue of KrQueue.

    The state of a pool holds its queue with the nodes of its list, and what each of its
    threads is doing.  A section between the lock and the unlock of the pool's mutex is one
    step; the length test of [kr_threadpool_add_task] is a step of its own, since it is made
    before the lock.  [pthread_cond_wait] and [pthread_cond_signal] are the standard's: a
    thread that waits is asleep, a signal wakes one thread if some are asleep, and threads
    may wake without a signal.  A task is a function of the context of the thread, of its
    argument and of the world [W] that the threads share, and runs in one step. *)

From S2P Require Import Prelude KrList KrQueue.
Local Open Scope Z_scope.
#[local] Notation length := List.length.

Section Pool.
Context {C A W : Type}.

(** * Data *)

(** [None] for the null pointers: the function, the argument, the context of a thread. *)
Record T_KRThreadPoolTask := mkTask {
  task_func : option (option C -> option A -> W -> Z * W);
  arg : option A
}.

Inductive TP_STATUS := TP_INITIALIZED | TP_SETED | TP_RUNNING | TP_SUSPEND | TP_FINALIZED.

(** Where a thread of [thread_func] is: not started, before the lock of
    [kr_threadpool_get_task], in [pthread_cond_wait], or with its task. *)
Inductive thread :=
  | Created
  | Looking (context : option C)
  | Asleep (context : option C)
  | Running (context : option C) (task : T_KRThreadPoolTask).

(** [initfunc] is applied to [initenv] already; [heap] holds the nodes of the queue, and
    [copies] counts the copies of tasks that are allocated; [released] tells that the pool
    and its mutex were freed. *)
Record T_KRThreadPool := mkPool {
  queue : kr_queue_t (V:=T_KRThreadPoolTask);
  heap : store (V:=T_KRThreadPoolTask);
  initfunc : option (option C);
  nthreads : Z;
  threads : list thread;
  status : TP_STATUS;
  copies : Z;
  released : bool
}.

(** * Operations *)

Definition on_queue {B} (f : kr_queue_t -> M store (B * kr_queue_t)) : M T_KRThreadPool B := fun tp =>
  match f (queue tp) (heap tp) with
  | Ok (b, q, h) =>
      Ok (b, mkPool q h (initfunc tp) (nthreads tp) (threads tp) (status tp) (copies tp) (released tp))
  | Fault e => Fault e
  end.

Definition with_threads (f : list thread -> list thread) (tp : T_KRThreadPool) : T_KRThreadPool :=
  mkPool (queue tp) (heap tp) (initfunc tp) (nthreads tp) (f (threads tp)) (status tp) (copies tp) (released tp).

Definition count_copy (n : Z) (tp : T_KRThreadPool) : T_KRThreadPool :=
  mkPool (queue tp) (heap tp) (initfunc tp) (nthreads tp) (threads tp) (status tp) (copies tp + n) (released tp).

Definition modify (f : T_KRThreadPool -> T_KRThreadPool) : M T_KRThreadPool unit :=
  fun tp => Ok (tt, f tp).
Definition gets {B} (f : T_KRThreadPool -> B) : M T_KRThreadPool B := fun tp => Ok (f tp, tp).

(** The copy is equal to the task, its argument included. *)
Definition kr_threadpool_dup_task (task : T_KRThreadPoolTask) : M T_KRThreadPool T_KRThreadPoolTask :=
  modify (count_copy 1);; mret task.

Definition kr_threadpool_free_task (task : T_KRThreadPoolTask) : M T_KRThreadPool unit :=
  modify (count_copy (-1)).

Definition kr_threadpool_create (nthreads hwm : Z) (init : option (option C)) : res T_KRThreadPool :=
  if nthreads <=? 0 then Fault AssertFailed
  else if hwm <=? 0 then Fault AssertFailed
  else Ok (mkPool (kr_queue_init hwm) (mkStore ∅ []) init nthreads [] TP_INITIALIZED 0 false).

(** The threads are created, and have not run yet. *)
Definition kr_threadpool_run (tp : T_KRThreadPool) : Z * T_KRThreadPool :=
  (0, mkPool (queue tp) (heap tp) (initfunc tp) (nthreads tp)
        (replicate (Z.to_nat (nthreads tp)) Created) TP_RUNNING (copies tp) (released tp)).

(** [pthread_mutex_lock] of a mutex that exists: the section up to the unlock is one step. *)
Definition pthread_mutex_lock : M T_KRThreadPool unit := fun tp =>
  if released tp then Fault BadPointer else Ok (tt, tp).

Definition wake (t : thread) : thread := match t with Asleep c => Looking c | _ => t end.

(** [pthread_cond_signal] that wakes the thread [w], and [pthread_cond_broadcast]. *)
Definition pthread_cond_signal (w : nat) : M T_KRThreadPool unit :=
  modify (with_threads (alter wake w)).
Definition pthread_cond_broadcast : M T_KRThreadPool unit := modify (with_threads (fmap wake)).

(** The test of the loop that precedes the lock. *)
Definition busy (tp : T_KRThreadPool) : bool := hwm (queue tp) <=? kr_queue_length (queue tp).

(** [kr_threadpool_add_task] from the lock on; the signal wakes [w]. *)
Definition kr_threadpool_add_task (task : T_KRThreadPoolTask) (w : nat) : M T_KRThreadPool Z :=
  pthread_mutex_lock;;
  task_copy ← kr_threadpool_dup_task task;
  r ← on_queue (fun q => kr_queue_push q task_copy);
  if negb (r =? 0) then mret (-1)
  else pthread_cond_signal w;; mret 0.

Fixpoint broadcast_loop (n : nat) (task : T_KRThreadPoolTask) : M T_KRThreadPool Z :=
  match n with
  | O => mret 0
  | S n' =>
      task_copy ← kr_threadpool_dup_task task;
      r ← on_queue (fun q => kr_queue_push q task_copy);
      if negb (r =? 0) then mret (-1) else broadcast_loop n' task
  end.

(** [kr_threadpool_broadcast_task] from the lock on. *)
Definition kr_threadpool_broadcast_task (task : T_KRThreadPoolTask) : M T_KRThreadPool Z :=
  pthread_mutex_lock;;
  n ← gets (fun tp => Z.to_nat (nthreads tp));
  r ← broadcast_loop n task;
  if negb (r =? 0) then mret (-1)
  else pthread_cond_broadcast;; mret 0.

(** One turn of [kr_threadpool_get_task]: [None] when the thread goes to sleep, and
    otherwise the task it returns. *)
Definition kr_threadpool_get_task : M T_KRThreadPool (option (option T_KRThreadPoolTask)) :=
  pthread_mutex_lock;;
  len ← gets (fun tp => kr_queue_length (queue tp));
  if len =? 0 then mret None
  else task ← on_queue kr_queue_pop; mret (Some task).

(** The steps of [thread_func] in thread [w]: the start, the search of a task (whose null
    result is followed by a dereference), and its execution. *)
Definition thread_start (w : nat) : M T_KRThreadPool unit :=
  context ← gets (fun tp => match initfunc tp with Some c => c | None => None end);
  modify (with_threads <[w := Looking context]>).

Definition thread_get (w : nat) (context : option C)
    : M T_KRThreadPool (option T_KRThreadPoolTask) :=
  t ← kr_threadpool_get_task;
  match t with
  | None => modify (with_threads <[w := Asleep context]>);; mret None
  | Some None => fail NullDeref
  | Some (Some task) => modify (with_threads <[w := Running context task]>);; mret (Some task)
  end.

Definition run_task (context : option C) (task : T_KRThreadPoolTask) (world : W) : W :=
  match task_func task with
  | Some f => (f context (arg task) world).2
  | None => world
  end.

Definition thread_finish (w : nat) (context : option C) (task : T_KRThreadPoolTask)
    : M T_KRThreadPool unit :=
  kr_threadpool_free_task task;;
  modify (with_threads <[w := Looking context]>).

Definition release (tp : T_KRThreadPool) : T_KRThreadPool :=
  mkPool (queue tp) (heap tp) (initfunc tp) (nthreads tp) (threads tp) (status tp) (copies tp) true.

(** The pool is freed whatever its detached threads do; the tasks of its queue are not. *)
Definition kr_threadpool_destroy : M T_KRThreadPool unit :=
  pthread_mutex_lock;;
  on_queue (fun q => kr_queue_fini q;; mret (tt, q));;
  modify release.

(** * The pool and its callers as a transition system *)

Variant call := AddTask (task : T_KRThreadPoolTask) | Broadcast (task : T_KRThreadPoolTask).

(** A thread that calls the pool: outside of it, in the loop that waits for room, or past
    this loop and before the lock. *)
Variant caller := Away | Waiting (c : call) | Inside (c : call).

(** [handed] and [finished] are the tasks that threads took and ran, [accepted] those that
    entered the queue, and [returned] what the calls returned, all in order. *)
Record system := mkSystem {
  tp : T_KRThreadPool;
  callers : list caller;
  world : W;
  accepted : list T_KRThreadPoolTask;
  handed : list T_KRThreadPoolTask;
  finished : list T_KRThreadPoolTask;
  returned : list (call * Z)
}.

Definition call_task (c : call) : T_KRThreadPoolTask :=
  match c with AddTask t => t | Broadcast t => t end.

Definition kr_threadpool_call (c : call) (w : nat) : M T_KRThreadPool Z :=
  match c with
  | AddTask t => kr_threadpool_add_task t w
  | Broadcast t => kr_threadpool_broadcast_task t
  end.

Definition asleep (t : thread) : bool := match t with Asleep _ => true | _ => false end.

(** A signal wakes a thread that is asleep, if there is one. *)
Definition can_wake (w : nat) (ths : list thread) : Prop :=
  existsb asleep ths = true -> exists c, ths !! w = Some (Asleep c).

Definition to_queue (p p' : T_KRThreadPool) (t : T_KRThreadPoolTask) : list T_KRThreadPoolTask :=
  replicate (Z.to_nat (kr_queue_length (queue p') - kr_queue_length (queue p))) t.

(** The steps of the threads of the pool. *)
Inductive thread_step : system -> system -> Prop :=
  | step_start w p cs x a h f r u p' :
      threads p !! w = Some Created ->
      thread_start w p = Ok (u, p') ->
      thread_step (mkSystem p cs x a h f r) (mkSystem p' cs x a h f r)
  | step_get w ctx p cs x a h f r t p' :
      threads p !! w = Some (Looking ctx) ->
      thread_get w ctx p = Ok (t, p') ->
      thread_step (mkSystem p cs x a h f r) (mkSystem p' cs x a (h ++ option_list t) f r)
  | step_finish w ctx t p cs x a h f r u p' :
      threads p !! w = Some (Running ctx t) ->
      thread_finish w ctx t p = Ok (u, p') ->
      thread_step (mkSystem p cs x a h f r)
                  (mkSystem p' cs (run_task ctx t x) a h (f ++ [t]) r).

(** The steps of the callers; a turn of a loop that still finds the queue full changes
    nothing, and is no step. *)
Inductive caller_step : system -> system -> Prop :=
  | step_call i c p cs x a h f r :
      cs !! i = Some Away ->
      caller_step (mkSystem p cs x a h f r) (mkSystem p (<[i := Waiting c]> cs) x a h f r)
  | step_enter i c p cs x a h f r :
      cs !! i = Some (Waiting c) -> busy p = false ->
      caller_step (mkSystem p cs x a h f r) (mkSystem p (<[i := Inside c]> cs) x a h f r)
  | step_return i c w p cs x a h f r z p' :
      cs !! i = Some (Inside c) -> can_wake w (threads p) ->
      kr_threadpool_call c w p = Ok (z, p') ->
      caller_step (mkSystem p cs x a h f r)
                  (mkSystem p' (<[i := Away]> cs) x (a ++ to_queue p p' (call_task c)) h f
                            (r ++ [(c, z)])).

(** A thread that wakes without a signal. *)
Inductive spurious_step : system -> system -> Prop :=
  | step_spurious w p cs x a h f r :
      spurious_step (mkSystem p cs x a h f r)
                    (mkSystem (with_threads (alter wake w) p) cs x a h f r).

Definition step (s s' : system) : Prop :=
  thread_step s s' \/ caller_step s s' \/ spurious_step s s'.

(** A pool that was created and run, with [n] callers. *)
Definition running_pool (threads hwm : Z) (init : option (option C)) (n : nat) (x : W)
    : res system :=
  p ← kr_threadpool_create threads hwm init;
  mret (mkSystem (kr_threadpool_run p).2 (replicate n Away) x [] [] [] []).

(** * Lists of threads *)

Definition awake (t : thread) : bool :=
  match t with Created | Looking _ => true | _ => false end.
Definition task_of (t : thread) : list T_KRThreadPoolTask :=
  match t with Running _ k => [k] | _ => [] end.
Definition running (ths : list thread) : list T_KRThreadPoolTask := ths ≫= task_of.
Definition count (f : thread -> bool) (ths : list thread) : nat := length (List.filter f ths).

Lemma count_threads_insert f ths w x y :
  ths !! w = Some y -> (count f (<[w:=x]> ths) + Nat.b2n (f y) = count f ths + Nat.b2n (f x))%nat.
Proof.
  revert w. unfold count. induction ths as [|z ths IH]; intros [|w] Hw; simplify_eq/=.
  - destruct (f x), (f y); simpl; lia.
  - specialize (IH _ Hw). destruct (f z); simpl; lia.
Qed.

Lemma running_insert ths w x y :
  ths !! w = Some y -> running (<[w:=x]> ths) ++ task_of y ≡ₚ running ths ++ task_of x.
Proof.
  revert w. unfold running. induction ths as [|z ths IH]; intros [|w] Hw; simplify_eq/=.
  - destruct x, y; simpl; rewrite ?app_nil_r; try done; solve_Permutation.
  - rewrite <- !(assoc_L (++)). f_equiv. by apply IH.
Qed.

Lemma count_asleep_exists ths : count asleep ths <> 0%nat <-> existsb asleep ths = true.
Proof.
  unfold count. induction ths as [|t ths IH]; simpl; [done|]. destruct (asleep t); simpl; [|done].
  split; [done|]. intros _. lia.
Qed.

Lemma alter_wake (ths : list thread) (w : nat) c :
  ths !! w = Some (Asleep c) -> alter wake w ths = <[w := Looking c]> ths.
Proof.
  intros Hw. apply list_eq. intros i. destruct (decide (i = w)) as [->|Hi].
  - rewrite list_lookup_alter_eq, Hw, list_lookup_insert_eq; [done|]. by eapply lookup_lt_Some.
  - rewrite list_lookup_alter_ne, list_lookup_insert_ne; done.
Qed.

Lemma alter_wake_not (ths : list thread) (w : nat) :
  (forall c, ths !! w <> Some (Asleep c)) -> alter wake w ths = ths.
Proof.
  intros Hw. apply list_eq. intros i. destruct (decide (i = w)) as [->|Hi].
  - rewrite list_lookup_alter_eq. destruct (ths !! w) as [[]|] eqn:E; try done. by destruct (Hw _ eq_refl).
  - by rewrite list_lookup_alter_ne.
Qed.

Lemma running_wake ths : running (wake <$> ths) = running ths.
Proof.
  induction ths as [|t ths IH]; [done|].
  change (task_of (wake t) ++ running (wake <$> ths) = task_of t ++ running ths).
  rewrite IH. by destruct t.
Qed.

Lemma asleep_wake ths : count asleep (wake <$> ths) = 0%nat.
Proof. induction ths as [|t ths IH]; [done|]. unfold count in *. by destruct t. Qed.

Lemma running_alter (ths : list thread) (w : nat) : running (alter wake w ths) ≡ₚ running ths.
Proof.
  destruct (ths !! w) as [t|] eqn:E.
  - destruct t as [| |c|].
    1-2,4: rewrite alter_wake_not; [done|congruence].
    rewrite (alter_wake _ _ _ E). pose proof (running_insert ths w (Looking c) _ E) as H.
    simpl in H. by rewrite !app_nil_r in H.
  - rewrite alter_wake_not; [done|congruence].
Qed.

(** * The queue of a pool *)

(** The queue of the pool holds the tasks [vs], within its high water mark. *)
Record pool_rep (hw : Z) (p : T_KRThreadPool) (vs : list T_KRThreadPoolTask) : Prop := {
  pool_queue : queue_rep (heap p) (queue p) vs;
  pool_hwm : hwm (queue p) = hw;
  pool_alive : released p = false;
  pool_room : Z.of_nat (length vs) <= hw;
  pool_uint : 0 <= hw <= UINT_MAX
}.

(** What calls leave alone. *)
Definition same_pool (p p' : T_KRThreadPool) : Prop :=
  initfunc p' = initfunc p /\ nthreads p' = nthreads p.

Lemma queue_rep_length (h : store) (q : kr_queue_t (V:=T_KRThreadPoolTask)) vs :
  queue_rep h q vs -> kr_queue_length q = Z.of_nat (length vs).
Proof.
  intros (ps & Hr & <- & _). unfold kr_queue_length, kr_list_length.
  by rewrite (rep_len _ _ _ Hr), length_fmap.
Qed.

Lemma pool_busy hw p vs :
  pool_rep hw p vs -> busy p = (hw <=? Z.of_nat (length vs)).
Proof. intros [Hq Hh _ _ _]. unfold busy. by rewrite Hh, (queue_rep_length _ _ _ Hq). Qed.

Lemma push_spec hw p vs t :
  pool_rep hw p vs ->
  exists z p', on_queue (fun q => kr_queue_push q t) p = Ok (z, p') /\
    same_pool p p' /\ threads p' = threads p /\ copies p' = copies p /\
    (Z.of_nat (length vs) < hw /\ z = 0 /\ pool_rep hw p' (vs ++ [t]) \/
     Z.of_nat (length vs) = hw /\ z = -1 /\ pool_rep hw p' vs).
Proof.
  intros [Hq Hh Ha Hr Hu]. pose proof (wp_run_qop _ _ _ (Push t) Hq) as Hp.
  rewrite Hh in Hp. specialize (Hp Hu). unfold wp, run_qop, on_queue in *.
  unfold mbind, M_bind in Hp. destruct (kr_queue_push _ _ _) as [[[z q] h]|]; [|done].
  simpl in Hp. destruct Hp as (Hz & Hrep & Hhw & _).
  exists z, (mkPool q h (initfunc p) (nthreads p) (threads p) (status p) (copies p) (released p)).
  split_and!; [done..|]. simpl in Hrep.
  destruct (hw <=? Z.of_nat (length vs)) eqn:E; zbool; simpl in Hz, Hrep.
  - right. injection Hz as ->. split_and!; [lia|done|]. constructor; simpl; congruence || lia || done.
  - left. injection Hz as ->. split_and!; [lia|done|].
    constructor; simpl; try (congruence || lia || done). rewrite length_app. simpl. lia.
Qed.

Lemma pop_spec hw p t vs :
  pool_rep hw p (t :: vs) ->
  exists p', on_queue kr_queue_pop p = Ok (Some t, p') /\
    same_pool p p' /\ threads p' = threads p /\ copies p' = copies p /\ pool_rep hw p' vs.
Proof.
  intros [Hq Hh Ha Hr Hu]. pose proof (wp_run_qop _ _ _ Pop Hq) as Hp.
  rewrite Hh in Hp. specialize (Hp Hu). unfold wp, run_qop, on_queue in *.
  unfold mbind, M_bind in Hp. destruct (kr_queue_pop _ _) as [[[z q] h]|]; [|done].
  simpl in Hp. destruct Hp as (Hz & Hrep & Hhw & _). injection Hz as ->.
  exists (mkPool q h (initfunc p) (nthreads p) (threads p) (status p) (copies p) (released p)).
  split_and!; [done..|]. constructor; simpl in *; congruence || lia || done.
Qed.

Ltac inv_pool := match goal with H : pool_rep _ _ _ |- _ => destruct H end.

Lemma pool_rep_ext hw p p' vs :
  queue p' = queue p -> heap p' = heap p -> released p' = released p ->
  pool_rep hw p vs -> pool_rep hw p' vs.
Proof. intros H1 H2 H3 []. constructor; congruence. Qed.

Lemma lock_spec hw p vs : pool_rep hw p vs -> pthread_mutex_lock p = Ok (tt, p).
Proof. intros []. unfold pthread_mutex_lock. by rewrite pool_alive0. Qed.

(** A copy of the task is made and offered to the queue. *)
Lemma offer_spec hw p vs t :
  pool_rep hw p vs ->
  exists z p',
    (task_copy ← kr_threadpool_dup_task t; on_queue (fun q => kr_queue_push q task_copy)) p
      = Ok (z, p') /\
    same_pool p p' /\ threads p' = threads p /\ copies p' = copies p + 1 /\
    (Z.of_nat (length vs) < hw /\ z = 0 /\ pool_rep hw p' (vs ++ [t]) \/
     Z.of_nat (length vs) = hw /\ z = -1 /\ pool_rep hw p' vs).
Proof.
  intros Hp. apply (pool_rep_ext hw p (count_copy 1 p)) in Hp; [|done..].
  by apply (push_spec _ _ _ t) in Hp.
Qed.

(** What a call does once it has the lock: [k] copies enter the queue. *)
Record call_outcome (hw : Z) (c : call) (w : nat) (p : T_KRThreadPool) (vs : list T_KRThreadPoolTask)
    (z : Z) (p' : T_KRThreadPool) (k : nat) : Prop := {
  out_same : same_pool p p';
  out_rep : pool_rep hw p' (vs ++ replicate k (call_task c));
  out_code : z = 0 /\ copies p' = copies p + Z.of_nat k \/
             z = -1 /\ copies p' = copies p + Z.of_nat k + 1 /\ threads p' = threads p /\
             Z.of_nat (length vs + k) = hw;
  out_add : match c with
            | AddTask _ => if z =? 0 then k = 1%nat /\ threads p' = alter wake w (threads p)
                           else k = 0%nat
            | Broadcast _ => z = 0 -> k = Z.to_nat (nthreads p) /\ threads p' = wake <$> threads p
            end
}.

Lemma add_task_spec hw p vs t w :
  pool_rep hw p vs ->
  exists z p' k, kr_threadpool_add_task t w p = Ok (z, p') /\
    call_outcome hw (AddTask t) w p vs z p' k.
Proof.
  intros Hp. unfold kr_threadpool_add_task. unfold mbind at 1, M_bind at 1.
  rewrite (lock_spec _ _ _ Hp). destruct (offer_spec _ _ _ t Hp) as (z & p' & E & Hs & Ht & Hc & Hz).
  unfold mbind, M_bind in *.
  destruct (kr_threadpool_dup_task t p) as [[t' p1]|] eqn:Ed; [|done].
  injection Ed as <- <-. rewrite E.
  destruct Hz as [(Hl & -> & Hr)|(Hl & -> & Hr)]; simpl.
  - eexists 0, _, 1%nat. split; [done|]. constructor; simpl; [done| |auto|by rewrite Ht].
    by eapply pool_rep_ext, Hr.
  - exists (-1), p', 0%nat. split; [done|]. constructor; simpl; [done| |right; split_and!; [done|lia|done|lia]|done].
    by rewrite app_nil_r.
Qed.

Lemma broadcast_loop_spec hw n p vs t :
  pool_rep hw p vs ->
  exists z p' k, broadcast_loop n t p = Ok (z, p') /\
    same_pool p p' /\ threads p' = threads p /\ pool_rep hw p' (vs ++ replicate k t) /\
    (z = 0 /\ k = n /\ copies p' = copies p + Z.of_nat k \/
     z = -1 /\ copies p' = copies p + Z.of_nat k + 1 /\ Z.of_nat (length vs + k) = hw).
Proof.
  revert p vs. induction n as [|n IH]; intros p vs Hp; cbn [broadcast_loop].
  { exists 0, p, 0%nat. rewrite app_nil_r. split_and!; [done..|]. left. split_and!; [done..|simpl; lia]. }
  destruct (offer_spec _ _ _ t Hp) as (z & p' & E & Hs & Ht & Hc & Hz).
  unfold mbind, M_bind in *.
  destruct (kr_threadpool_dup_task t p) as [[t' p1]|] eqn:Ed; [|done].
  injection Ed as <- <-. rewrite E.
  destruct Hz as [(Hl & -> & Hr)|(Hl & -> & Hr)]; simpl.
  - destruct (IH _ _ Hr) as (z & p2 & k & E2 & Hs2 & Ht2 & Hr2 & Hz). rewrite E2.
    exists z, p2, (S k). rewrite <- app_assoc in Hr2. unfold same_pool in *.
    split_and!; [done|intuition congruence..|congruence|done|].
    rewrite length_app in Hz. simpl in Hz.
    destruct Hz as [(-> & -> & ?)|(-> & ? & ?)]; [left|right]; split_and!; done || lia.
  - exists (-1), p', 0%nat. rewrite app_nil_r. split_and!; [done..|]. right. simpl. split_and!; [done|lia..].
Qed.

Lemma call_spec hw c w p vs :
  pool_rep hw p vs ->
  exists z p' k, kr_threadpool_call c w p = Ok (z, p') /\ call_outcome hw c w p vs z p' k.
Proof.
  intros Hp. destruct c as [t|t]; [by apply add_task_spec|]. simpl.
  unfold kr_threadpool_broadcast_task. unfold mbind at 1, M_bind at 1.
  rewrite (lock_spec _ _ _ Hp). unfold mbind, M_bind, gets.
  destruct (broadcast_loop_spec _ (Z.to_nat (nthreads p)) _ _ t Hp)
    as (z & p' & k & E & Hs & Ht & Hr & Hz). rewrite E.
  destruct Hz as [(-> & -> & ?)|(-> & ? & ?)]; simpl.
  - eexists 0, _, (Z.to_nat (nthreads p)). split; [done|]. constructor; simpl; [done| |auto|by rewrite Ht].
    by eapply pool_rep_ext, Hr.
  - exists (-1), p', k. split; [done|]. constructor; simpl; try done. right. by split_and!.
Qed.

Lemma thread_get_spec hw p vs w ctx :
  pool_rep hw p vs ->
  exists p', same_pool p p' /\ copies p' = copies p /\
    match vs with
    | [] => thread_get w ctx p = Ok (None, p') /\ pool_rep hw p' [] /\
            threads p' = <[w := Asleep ctx]> (threads p)
    | t :: vs' => thread_get w ctx p = Ok (Some t, p') /\ pool_rep hw p' vs' /\
            threads p' = <[w := Running ctx t]> (threads p)
    end.
Proof.
  intros Hp. unfold thread_get, kr_threadpool_get_task.
  pose proof (queue_rep_length _ _ _ (pool_queue _ _ _ Hp)) as Hlen.
  unfold mbind, M_bind, gets. rewrite (lock_spec _ _ _ Hp), Hlen. destruct vs as [|t vs]; simpl.
  - eexists. split_and!; [| |done| |]; [done|done| |done]. by eapply pool_rep_ext, Hp.
  - destruct (pop_spec _ _ _ _ Hp) as (p' & E & Hs & Ht & Hc & Hr). rewrite E. simpl.
    eexists. split_and!; [| |done| |]; [done|done| |by simpl; rewrite Ht]. by eapply pool_rep_ext, Hr.
Qed.

(** * The invariant *)

Definition failed_calls (r : list (call * Z)) : nat :=
  length (List.filter (fun x => negb (x.2 =? 0)) r).
Definition broadcast_done (x : call * Z) : Prop :=
  match x.1 with Broadcast _ => x.2 = 0 | AddTask _ => True end.
Definition add_done (x : call * Z) : Prop :=
  match x.1 with AddTask _ => x.2 = 0 | Broadcast _ => True end.

(** No wake-up is lost: threads sleep only if those awake suffice for the queue. *)
Definition enough_awake (ths : list thread) (vs : list T_KRThreadPoolTask) : Prop :=
  count asleep ths = 0%nat \/ (length vs <= count awake ths)%nat.

Record inv (hw : Z) (s : system) (vs : list T_KRThreadPoolTask) : Prop := {
  inv_pool : pool_rep hw (tp s) vs;
  inv_fifo : accepted s = handed s ++ vs;
  inv_run : handed s ≡ₚ finished s ++ running (threads (tp s));
  inv_copies : copies (tp s) = Z.of_nat (length vs + length (running (threads (tp s)))
                                         + failed_calls (returned s));
  inv_wake : Forall broadcast_done (returned s) -> enough_awake (threads (tp s)) vs;
  inv_one : (length (callers s) <= 1)%nat ->
    Forall add_done (returned s) /\
    (forall c, Inside c ∈ callers s -> Z.of_nat (length vs) < hw)
}.

Lemma running_put (ths : list thread) (w : nat) x y :
  ths !! w = Some y -> task_of y = [] -> running (<[w:=x]> ths) ≡ₚ task_of x ++ running ths.
Proof.
  intros Hw Hy. pose proof (running_insert ths w x y Hw) as H. rewrite Hy, app_nil_r in H.
  rewrite H. apply Permutation_app_comm.
Qed.

Lemma enough_awake_put (ths : list thread) (w : nat) x y vs :
  ths !! w = Some y -> asleep x = false -> awake y = false \/ awake x = true ->
  enough_awake ths vs -> enough_awake (<[w:=x]> ths) vs.
Proof.
  intros Hw Hx Hy He. pose proof (count_threads_insert asleep _ _ x _ Hw) as H1.
  pose proof (count_threads_insert awake _ _ x _ Hw) as H2. unfold enough_awake in *.
  rewrite Hx in H1. destruct Hy as [Hy|Hy]; rewrite Hy in H2; simpl in *.
  - destruct He; [left|right]; lia.
  - destruct He; [left; lia|right]. destruct (awake y); simpl in *; lia.
Qed.

Lemma thread_step_inv hw s s' vs :
  thread_step s s' -> inv hw s vs -> exists vs', inv hw s' vs'.
Proof.
  intros Hs [Hp Hf Hr Hc Hw Ho]. destruct Hs as [w p cs x a h f r u p' Hth E
    |w ctx p cs x a h f r t p' Hth E|w ctx t p cs x a h f r u p' Hth E]; simpl in *.
  - injection E as <- <-. exists vs. constructor; simpl; try done.
    + by eapply pool_rep_ext, Hp.
    + rewrite (running_put _ _ _ _ Hth); done.
    + by rewrite (running_put _ _ _ _ Hth).
    + intros Hb. eapply enough_awake_put; [done..|by right|by apply Hw].
  - destruct (thread_get_spec _ _ _ w ctx Hp) as (p2 & _ & Hc2 & Hout). destruct vs as [|v vs].
    + destruct Hout as (E2 & Hr2 & Ht2). rewrite E in E2. injection E2 as -> ->.
      exists []. constructor; simpl; rewrite ?app_nil_r, ?Ht2 in *; try done.
      * by rewrite (running_put _ _ _ _ Hth).
      * by rewrite Hc2, Hc, (running_put _ _ _ _ Hth).
      * intros _. right. simpl. lia.
    + destruct Hout as (E2 & Hr2 & Ht2). rewrite E in E2. injection E2 as -> ->.
      exists vs. constructor; simpl; rewrite ?Ht2 in *; try done.
      * by rewrite Hf, <- (assoc_L (++)).
      * rewrite (running_put _ _ _ _ Hth), Hr by done. simpl. solve_Permutation.
      * rewrite Hc2, Hc, (running_put _ _ _ _ Hth) by done. simpl. lia.
      * intros Hb. pose proof (count_threads_insert asleep _ _ (Running ctx v) _ Hth) as H1.
        pose proof (count_threads_insert awake _ _ (Running ctx v) _ Hth) as H2. simpl in *.
        destruct (Hw Hb) as [H|H]; [left|right]; simpl in *; lia.
      * intros Hl. destruct (Ho Hl) as [? Hin]. split; [done|]. intros c Hc3.
        specialize (Hin c Hc3). simpl in Hin. lia.
  - injection E as <- <-. exists vs.
    pose proof (running_insert (threads p) w (Looking ctx) _ Hth) as Hrun.
    simpl in Hrun. rewrite app_nil_r in Hrun.
    constructor; simpl; try done.
    + by eapply pool_rep_ext, Hp.
    + rewrite Hr, <- Hrun. solve_Permutation.
    + rewrite Hc, <- Hrun, length_app. simpl. lia.
    + intros Hb. eapply enough_awake_put; [done..|by right|by apply Hw].
Qed.

Lemma spurious_step_inv hw s s' vs : spurious_step s s' -> inv hw s vs -> inv hw s' vs.
Proof.
  intros [w p cs x a h f r] [Hp Hf Hr Hc Hw Ho]. simpl in *. constructor; simpl; try done.
  - by eapply pool_rep_ext, Hp.
  - by rewrite running_alter.
  - by rewrite running_alter.
  - intros Hb. specialize (Hw Hb). destruct (threads p !! w) as [[| |c|]|] eqn:E.
    3: { rewrite (alter_wake _ _ _ E). eapply enough_awake_put; [done..|by left|done]. }
    all: rewrite alter_wake_not; [done|congruence].
Qed.

Lemma call_wakes hw c w p vs z p' k :
  can_wake w (threads p) -> call_outcome hw c w p vs z p' k -> broadcast_done (c, z) ->
  enough_awake (threads p) vs ->
  enough_awake (threads p') (vs ++ replicate k (call_task c)).
Proof.
  intros Hcan [_ _ Hcode Hadd] Hb He. destruct c as [t|t].
  - destruct Hcode as [[-> _]|(-> & _ & Ht & _)]; simpl in Hadd.
    + destruct Hadd as [-> ->]. unfold enough_awake. rewrite length_app. simpl.
      destruct (decide (count asleep (threads p) = 0%nat)) as [H0|H0].
      * left. rewrite alter_wake_not; [done|]. intros c E.
        pose proof (count_threads_insert asleep _ _ (Looking c) _ E). simpl in *. lia.
      * destruct Hcan as [c E]; [by apply count_asleep_exists|]. rewrite (alter_wake _ _ _ E).
        pose proof (count_threads_insert awake _ _ (Looking c) _ E) as Hcnt. simpl in *.
        destruct He as [He|He]; [done|]. right. lia.
    + by rewrite Hadd, app_nil_r, Ht.
  - unfold broadcast_done in Hb. simpl in Hb. subst z. destruct (Hadd eq_refl) as [_ ->]. left. apply asleep_wake.
Qed.

Lemma to_queue_spec hw p p' vs k t :
  pool_rep hw p vs -> pool_rep hw p' (vs ++ replicate k t) -> to_queue p p' t = replicate k t.
Proof.
  intros [H1 _ _ _ _] [H2 _ _ _ _]. unfold to_queue.
  rewrite (queue_rep_length _ _ _ H1), (queue_rep_length _ _ _ H2), length_app, length_replicate.
  f_equal. lia.
Qed.

Lemma one_caller (cs : list caller) (i : nat) y x :
  (length cs <= 1)%nat -> cs !! i = Some y -> <[i := x]> cs = [x] /\ cs = [y].
Proof. destruct cs as [|z [|]], i; simpl; intros; simplify_eq; done || lia. Qed.

Lemma caller_step_inv hw s s' vs :
  caller_step s s' -> inv hw s vs -> exists vs', inv hw s' vs'.
Proof.
  intros Hs [Hp Hf Hr Hc Hw Ho]. destruct Hs as [i c p cs x a h f r Hi
    |i c p cs x a h f r Hi Hbusy|i c w p cs x a h f r z p' Hi Hcan E]; simpl in *.
  - exists vs. constructor; simpl; try done. rewrite length_insert. intros Hl.
    destruct (one_caller _ _ _ (Waiting c) Hl Hi) as [-> ->]. split; [by apply Ho|].
    intros c' Hin. by apply list_elem_of_singleton in Hin.
  - exists vs. constructor; simpl; try done. rewrite length_insert. intros Hl. split; [by apply Ho|].
    intros _ _. rewrite (pool_busy _ _ _ Hp) in Hbusy. zlia.
  - destruct (call_spec _ c w _ _ Hp) as (z2 & p2 & k & E2 & Hout). rewrite E in E2.
    injection E2 as <- <-. pose proof Hout as [_ Hrep Hcode Hadd].
    assert (Hrun : running (threads p') ≡ₚ running (threads p)).
    { destruct Hcode as [[-> _]|(-> & _ & -> & _)]; [|done]. destruct c; simpl in Hadd.
      - destruct Hadd as [_ ->]. apply running_alter.
      - destruct (Hadd eq_refl) as [_ ->]. by rewrite running_wake. }
    exists (vs ++ replicate k (call_task c)). constructor; simpl.
    + done.
    + by rewrite Hf, (to_queue_spec _ _ _ _ _ _ Hp Hrep), (assoc_L (++)).
    + by rewrite Hrun.
    + rewrite Hrun, length_app, length_replicate. unfold failed_calls in *.
      rewrite List.filter_app, length_app. simpl.
      destruct Hcode as [[-> ->]|(-> & -> & _ & _)]; simpl; lia.
    + intros Hb. apply Forall_app in Hb as [Hb Hb2]. eapply call_wakes; [done..| |by apply Hw].
      by apply (Forall_singleton broadcast_done) in Hb2.
    + rewrite length_insert. intros Hl. destruct (one_caller _ _ _ Away Hl Hi) as [-> ->].
      destruct (Ho Hl) as [Hall Hin]. split.
      * apply Forall_app. split; [done|]. apply Forall_singleton. destruct c as [t|t]; [|done].
        specialize (Hin (AddTask t) (list_elem_of_here _ _)). unfold add_done. simpl in *.
        destruct Hcode as [[-> _]|(-> & _ & _ & Hfull)]; [done|]. simpl in Hadd. lia.
      * intros c' Hc'. by apply list_elem_of_singleton in Hc'.
Qed.

Lemma step_inv hw s s' vs : step s s' -> inv hw s vs -> exists vs', inv hw s' vs'.
Proof.
  intros [Hs|[Hs|Hs]] Hi; [by eapply thread_step_inv|by eapply caller_step_inv|].
  exists vs. by eapply spurious_step_inv.
Qed.

Lemma running_replicate n : running (replicate n Created) = [].
Proof. induction n; [done|]. done. Qed.

Lemma reachable_inv n hw init k x s0 s :
  running_pool n hw init k x = Ok s0 -> hw <= UINT_MAX -> rtc step s0 s ->
  exists vs, inv hw s vs.
Proof.
  intros E Hu Hs. assert (Hi : exists vs, inv hw s0 vs).
  { unfold running_pool, kr_threadpool_create in E. simpl in E.
    destruct (n <=? 0) eqn:?, (hw <=? 0) eqn:?; try done. zbool. injection E as <-.
    exists []. constructor; simpl; rewrite ?running_replicate; try done.
    - constructor; simpl; try done; try lia. exists []. split_and!; [apply list_rep_nil|done..].
    - intros _. right. simpl. lia. }
  clear E. induction Hs as [|s1 s2 s3 Hstep _ IH]; [done|]. apply IH. destruct Hi as [vs Hi].
  by eapply step_inv.
Qed.

Lemma callers_length n hw init k x s0 s :
  running_pool n hw init k x = Ok s0 -> rtc step s0 s -> length (callers s) = k.
Proof.
  intros E Hs. assert (H0 : length (callers s0) = k).
  { unfold running_pool, kr_threadpool_create in E. simpl in E.
    destruct (n <=? 0), (hw <=? 0); try done. injection E as <-. apply length_replicate. }
  clear E. induction Hs as [|s1 s2 s3 Hstep _ IH]; [done|]. apply IH. rewrite <- H0.
  destruct Hstep as [[]|[[]|[]]]; simpl; rewrite ?length_insert; done.
Qed.

Lemma threads_length n hw init k x s0 s :
  running_pool n hw init k x = Ok s0 -> rtc step s0 s -> hw <= UINT_MAX ->
  (0 < length (threads (tp s)))%nat.
Proof.
  intros E Hs Hu. assert (H0 : (0 < length (threads (tp s0)))%nat).
  { unfold running_pool, kr_threadpool_create in E. simpl in E.
    destruct (n <=? 0) eqn:?, (hw <=? 0); try done. zbool. injection E as <-. simpl.
    rewrite length_replicate. lia. }
  destruct (reachable_inv _ _ _ _ _ _ _ E Hu (rtc_refl _ _)) as [vs Hi].
  clear E. revert vs Hi. induction Hs as [|s1 s2 s3 Hstep _ IH]; intros vs Hi; [done|].
  destruct (step_inv _ _ _ _ Hstep Hi) as [vs2 Hi2]. eapply IH, Hi2.
  clear IH Hi2. destruct Hi as [Hp _ _ _ _ _]. revert H0 Hp.
  destruct Hstep as [[w p cs y a h f r u p' _ E|w ctx p cs y a h f r t p' _ E
    |w ctx t p cs y a h f r u p' _ E]|[[i c p cs y a h f r _|i c p cs y a h f r _ _|i c w p cs y a h f r z p' _ _ E]|[]]]; simpl; intros H0 Hp; try done.
  - injection E as <- <-. simpl. by rewrite length_insert.
  - destruct (thread_get_spec _ _ _ w ctx Hp) as (p2 & _ & _ & Hout).
    destruct vs; destruct Hout as (E2 & _ & Ht); rewrite E in E2; injection E2 as -> ->;
      by rewrite Ht, length_insert.
  - injection E as <- <-. simpl. by rewrite length_insert.
  - destruct (call_spec _ c w _ _ Hp) as (z2 & p2 & k2 & E2 & [_ _ Hc Ha]).
    rewrite E in E2. injection E2 as <- <-.
    destruct Hc as [[-> _]|(-> & _ & -> & _)]; [|done]. destruct c; simpl in Ha.
    + destruct Ha as [_ ->]. by rewrite length_alter.
    + destruct (Ha eq_refl) as [_ ->]. by rewrite length_fmap.
  - by rewrite length_alter.
Qed.

Lemma threads_number n hw init k x s0 s :
  running_pool n hw init k x = Ok s0 -> hw <= UINT_MAX -> rtc step s0 s -> nthreads (tp s) = n /\ 0 < n.
Proof.
  intros E Hu Hs. assert (H0 : nthreads (tp s0) = n /\ 0 < n).
  { unfold running_pool, kr_threadpool_create in E. simpl in E.
    destruct (n <=? 0) eqn:?, (hw <=? 0); try done. zbool. injection E as <-. simpl. lia. }
  destruct (reachable_inv _ _ _ _ _ _ _ E Hu (rtc_refl _ _)) as [vs Hi].
  clear E. revert vs Hi. induction Hs as [|s1 s2 s3 Hstep _ IH]; intros vs Hi; [done|].
  destruct (step_inv _ _ _ _ Hstep Hi) as [vs2 Hi2]. eapply IH, Hi2.
  clear IH Hi2. destruct Hi as [Hp _ _ _ _ _]. revert H0 Hp.
  destruct Hstep as [[w p cs y a h f r u p' _ E|w ctx p cs y a h f r t p' _ E
    |w ctx t p cs y a h f r u p' _ E]|[[i c p cs y a h f r _|i c p cs y a h f r _ _|i c w p cs y a h f r z p' _ _ E]|[]]]; simpl; intros H0 Hp; try done.
  - by injection E as <- <-.
  - destruct (thread_get_spec _ _ _ w ctx Hp) as (p2 & [_ Hn] & _ & Hout).
    destruct vs; destruct Hout as (E2 & _); rewrite E in E2; injection E2 as -> ->; by rewrite Hn.
  - by injection E as <- <-.
  - destruct (call_spec _ c w _ _ Hp) as (z2 & p2 & k2 & E2 & [[_ Hn] _ _ _]).
    rewrite E in E2. injection E2 as <- <-. by rewrite Hn.
Qed.

(** * The threads alone, with no call and no wake-up without a signal *)

Definition is_created (t : thread) : bool := match t with Created => true | _ => false end.
Definition is_looking (t : thread) : bool := match t with Looking _ => true | _ => false end.

Definition measure (s : system) : nat :=
  3 * Z.to_nat (kr_queue_length (queue (tp s))) + 2 * length (running (threads (tp s)))
  + count is_looking (threads (tp s)) + 2 * count is_created (threads (tp s)).

Lemma thread_step_keeps s s' :
  thread_step s s' -> accepted s' = accepted s /\ returned s' = returned s.
Proof. by destruct 1. Qed.

Lemma count_put f (ths : list thread) (w : nat) x y :
  ths !! w = Some y -> count f (<[w:=x]> ths) = (count f ths + Nat.b2n (f x) - Nat.b2n (f y))%nat.
Proof. intros Hw. pose proof (count_threads_insert f _ _ x _ Hw). lia. Qed.

Lemma count_pos f (ths : list thread) (w : nat) y :
  ths !! w = Some y -> (Nat.b2n (f y) <= count f ths)%nat.
Proof. intros Hw. destruct (f y) eqn:E; [|simpl; lia]. unfold count. simpl.
  assert (Hin : In y (List.filter f ths)).
  { apply List.filter_In. split; [|done]. by apply list_elem_of_In, list_elem_of_lookup_2 with w. }
  destruct (List.filter f ths); [done|simpl; lia].
Qed.

Lemma thread_step_measure hw s s' vs :
  inv hw s vs -> thread_step s s' -> (measure s' < measure s)%nat.
Proof.
  intros [Hp _ _ _ _ _] Hs. unfold measure.
  destruct Hs as [w p cs x a h f r u p' Hth E
    |w ctx p cs x a h f r t p' Hth E|w ctx t p cs x a h f r u p' Hth E]; simpl in *;
    pose proof (count_pos is_created _ _ _ Hth); pose proof (count_pos is_looking _ _ _ Hth);
    rewrite (queue_rep_length _ _ _ (pool_queue _ _ _ Hp)).
  - injection E as <- <-. simpl. rewrite !(count_put _ _ _ _ _ Hth).
    rewrite (running_put _ _ _ _ Hth) by done.
    rewrite (queue_rep_length _ _ _ (pool_queue _ _ _ Hp)). simpl in *. lia.
  - destruct (thread_get_spec _ _ _ w ctx Hp) as (p2 & _ & _ & Hout).
    destruct vs; destruct Hout as (E2 & Hp2 & Ht); rewrite E in E2; injection E2 as -> ->;
      rewrite Ht, !(count_put _ _ _ _ _ Hth), (running_put _ _ _ _ Hth) by done;
      rewrite (queue_rep_length _ _ _ (pool_queue _ _ _ Hp2)); simpl in *; lia.
  - injection E as <- <-. simpl. rewrite !(count_put _ _ _ _ _ Hth).
    pose proof (running_insert (threads p) w (Looking ctx) _ Hth) as Hrun.
    simpl in Hrun. rewrite app_nil_r in Hrun. rewrite <- Hrun, length_app.
    rewrite (queue_rep_length _ _ _ (pool_queue _ _ _ Hp)). simpl in *. lia.
Qed.

(** A thread can make a step, unless all of them are asleep. *)
Lemma thread_progress hw s vs :
  inv hw s vs -> (exists s', thread_step s s') \/ Forall (fun t => asleep t = true) (threads (tp s)).
Proof.
  intros [Hp _ _ _ _ _]. destruct (decide (Forall (fun t => asleep t = true) (threads (tp s))))
    as [Hall|Hall]; [by right|left].
  apply not_Forall_Exists in Hall; [|intros ?; apply _]. apply Exists_exists in Hall as (t & Hin & Ht).
  apply list_elem_of_lookup in Hin as [w Hw]. destruct s as [p cs x a h f r]. simpl in *.
  destruct t as [|ctx|ctx|ctx t]; [| |done|].
  - eexists. by eapply step_start.
  - destruct (thread_get_spec _ _ _ w ctx Hp) as (p' & _ & _ & Hout).
    destruct vs; destruct Hout as (E & _); eexists; by eapply step_get.
  - eexists. by eapply step_finish.
Qed.

Lemma all_asleep ths :
  Forall (fun t => asleep t = true) ths ->
  count asleep ths = length ths /\ count awake ths = 0%nat /\ running ths = [].
Proof.
  unfold count, running. induction 1 as [|t ths Ht _ (IH1 & IH2 & IH3)]; [done|]. simpl.
  destruct t; try done. simpl. split_and!; [lia|lia|done].
Qed.

(** When all the threads sleep the queue is empty and all that it took has run. *)
Lemma asleep_done hw s vs :
  inv hw s vs -> Forall broadcast_done (returned s) -> (0 < length (threads (tp s)))%nat ->
  Forall (fun t => asleep t = true) (threads (tp s)) -> finished s ≡ₚ accepted s.
Proof.
  intros [_ Hf Hr _ Hw _] Hb Hl Hall. destruct (all_asleep _ Hall) as (H1 & H2 & H3).
  destruct (Hw Hb) as [H|H]; [lia|]. rewrite H2 in H. destruct vs; [|simpl in H; lia].
  by rewrite Hf, app_nil_r, Hr, H3, app_nil_r.
Qed.

(** * A broadcast that does not fit *)

(** The threads all sleep, and callers would wait for room. *)
Definition stuck (s : system) : Prop :=
  Forall (fun t => asleep t = true) (threads (tp s)) /\ busy (tp s) = true /\
  forall c, Inside c ∉ callers s.

Lemma stuck_step s s' :
  thread_step s s' \/ caller_step s s' -> stuck s -> stuck s' /\ finished s' = finished s /\ returned s' = returned s.
Proof.
  intros Hs (Hall & Hbusy & Hin). destruct Hs as [Hs|Hs].
  - exfalso. rewrite Forall_forall in Hall.
    destruct Hs as [w p cs x a h f r u p' Hth E|w ctx p cs x a h f r t p' Hth E
      |w ctx t p cs x a h f r u p' Hth E]; simpl in *;
      apply list_elem_of_lookup_2 in Hth; by specialize (Hall _ Hth).
  - destruct Hs as [i c p cs x a h f r Hi|i c p cs x a h f r Hi Hb|i c w p cs x a h f r z p' Hi Hc E];
      simpl in *.
    + split_and!; [|done..]. split_and!; [done..|]. simpl. intros c' Hc'.
      apply list_elem_of_lookup in Hc' as [j Hj].
      apply list_lookup_insert_Some in Hj as [(_ & ? & _)|[_ Hj]]; [done|].
      by eapply Hin, list_elem_of_lookup_2.
    + congruence.
    + apply list_elem_of_lookup_2 in Hi. by apply Hin in Hi.
Qed.

Lemma stuck_run s s' :
  rtc (fun a b => thread_step a b \/ caller_step a b) s s' -> stuck s ->
  stuck s' /\ finished s' = finished s /\ returned s' = returned s.
Proof.
  induction 1 as [|s1 s2 s3 Hst _ IH]; [done|]. intros H1.
  destruct (stuck_step _ _ Hst H1) as (H2 & Hf & Hr). destruct (IH H2) as (H3 & Hf2 & Hr2).
  split_and!; [done|congruence..].
Qed.

(** * Properties *)

(** C32. Whatever its threads and its callers do, in any order, the pool hands out the
    tasks in the order in which they entered the queue, each once, and every task handed
    out has run or is running; the queue stays within its high water mark.  The copies of
    tasks that are allocated are those of the queue, those that run, and one for each call
    that failed; and no call of [kr_threadpool_add_task] fails when there is one caller. *)
Theorem kr_threadpool_fifo (n hw : Z) (init : option (option C)) (k : nat) (x : W) (s0 s : system) :
  running_pool n hw init k x = Ok s0 -> hw <= UINT_MAX -> rtc step s0 s ->
  exists vs, queue_rep (heap (tp s)) (queue (tp s)) vs /\ Z.of_nat (length vs) <= hw /\
    accepted s = handed s ++ vs /\
    handed s ≡ₚ finished s ++ running (threads (tp s)) /\
    copies (tp s) = Z.of_nat (length vs + length (running (threads (tp s)))
                              + failed_calls (returned s)) /\
    ((k <= 1)%nat -> Forall add_done (returned s)).
Proof.
  intros E Hu Hs. destruct (reachable_inv _ _ _ _ _ _ _ E Hu Hs) as [vs [Hp Hf Hr Hc _ Ho]].
  exists vs. pose proof (callers_length _ _ _ _ _ _ _ E Hs) as Hk. destruct Hp.
  split_and!; [done..|]. intros Hk1. apply Ho. lia.
Qed.

(** C33. If no broadcast has failed, then the threads of the pool, left to themselves, run
    every task that entered the queue: their steps end after at most [measure] of them,
    and until all the tasks have run one of the threads can make a step. *)
Theorem kr_threadpool_drains (n hw : Z) (init : option (option C)) (k : nat) (x : W) (s0 s : system) :
  running_pool n hw init k x = Ok s0 -> hw <= UINT_MAX -> rtc step s0 s ->
  Forall broadcast_done (returned s) ->
  (forall m s', nsteps thread_step m s s' -> (m <= measure s)%nat) /\
  (forall s', rtc thread_step s s' ->
     finished s' ≡ₚ accepted s \/ exists s2, thread_step s' s2).
Proof.
  intros E Hu Hs Hb. destruct (reachable_inv _ _ _ _ _ _ _ E Hu Hs) as [vs Hi]. split.
  - intros m s' Hm. clear E Hs Hb. revert vs Hi.
    induction Hm as [|m s1 s2 s3 Hst _ IH]; intros vs Hi; [lia|].
    pose proof (thread_step_measure _ _ _ _ Hi Hst).
    destruct (thread_step_inv _ _ _ _ Hst Hi) as [vs2 Hi2]. specialize (IH _ Hi2). lia.
  - intros s' Hr. assert (rtc step s0 s').
    { eapply rtc_trans; [exact Hs|]. eapply rtc_subrel, Hr. by left. }
    assert (accepted s' = accepted s /\ returned s' = returned s) as [Ha Hret].
    { clear -Hr. induction Hr as [|s1 s2 s3 Hst _ [IH1 IH2]]; [done|].
      destruct (thread_step_keeps _ _ Hst). split; congruence. }
    destruct (reachable_inv _ _ _ _ _ _ _ E Hu H) as [vs2 Hi2].
    destruct (thread_progress _ _ _ Hi2) as [?|Hall]; [by right|left].
    rewrite <- Ha. eapply asleep_done; [done|by rewrite Hret| |done]. by eapply threads_length.
Qed.

(** C38. A pool can be stopped for good.  Let it have more threads than its high water mark,
    at a moment of any run when all its threads sleep and one caller is past the test of
    [kr_threadpool_broadcast_task].  Then the call returns [-1] with the queue full and no
    thread woken, and as long as no thread wakes by itself nothing happens any more: the
    threads go on sleeping, no task runs, no call returns, and the queue stays full, so that
    every further call waits. *)
Theorem kr_threadpool_broadcast_stuck (n hw : Z) (init : option (option C)) (k : nat) (x : W)
    (t : T_KRThreadPoolTask) (i : nat) (s0 s : system) :
  running_pool n hw init k x = Ok s0 -> hw <= UINT_MAX -> hw < n -> rtc step s0 s ->
  Forall (fun th => asleep th = true) (threads (tp s)) ->
  callers s !! i = Some (Inside (Broadcast t)) ->
  (forall j c, callers s !! j = Some (Inside c) -> j = i) ->
  exists p, (forall w, kr_threadpool_call (Broadcast t) w (tp s) = Ok (-1, p)) /\
    let s1 := mkSystem p (<[i := Away]> (callers s)) (world s) (accepted s ++ to_queue (tp s) p t)
                (handed s) (finished s) (returned s ++ [(Broadcast t, -1)]) in
    step s s1 /\
    forall s', rtc (fun a b => thread_step a b \/ caller_step a b) s1 s' ->
      finished s' = finished s /\ busy (tp s') = true /\
      Forall (fun th => asleep th = true) (threads (tp s')) /\
      returned s' = returned s ++ [(Broadcast t, -1)].
Proof.
  intros E Hu Hn Hs Hall Hi Hone. destruct (reachable_inv _ _ _ _ _ _ _ E Hu Hs) as [vs Hinv].
  destruct (threads_number _ _ _ _ _ _ _ E Hu Hs) as [Hnt Hpos]. pose proof (inv_pool _ _ _ Hinv) as Hp.
  destruct (call_spec _ (Broadcast t) 0 _ _ Hp) as (z & p & m & E2 & [_ Hrep Hcode Hout]). simpl in Hout, Hrep.
  assert (Hfull : z = -1 /\ threads p = threads (tp s) /\ Z.of_nat (length vs + m) = hw).
  { destruct Hcode as [[-> _]|(-> & _ & -> & Hm)]; [|done]. exfalso.
    destruct (Hout eq_refl) as [-> _]. pose proof (pool_room _ _ _ Hrep) as Hroom.
    rewrite length_app, length_replicate, Hnt in Hroom. lia. }
  destruct Hfull as (-> & Ht & Hm). exists p. split; [intros w; exact E2|]. intros s1. split.
  - destruct s as [q cs y a h f r]. right. left. apply (step_return i (Broadcast t) 0); [done| |exact E2].
    intros Hex. apply existsb_exists in Hex as (th & Hin & _). simpl in Hall, Hin.
    cbn [tp]. destruct (threads q) as [|[| |c|] ths]; [done| | |by exists c|];
      by apply Forall_cons in Hall as [H0 _].
  - assert (Hstuck : stuck s1).
    { split_and!; simpl.
      - by rewrite Ht.
      - rewrite (pool_busy _ _ _ Hrep), length_app, length_replicate. apply Z.leb_le. lia.
      - intros c Hin. apply list_elem_of_lookup in Hin as [j Hj].
        apply list_lookup_insert_Some in Hj as [(_ & ? & _)|[Hne Hj]]; [done|]. by apply Hone in Hj. }
    intros s' Hr. by destruct (stuck_run _ _ Hr Hstuck) as ((Hth & Hbusy & _) & Hf & Hret).
Qed.

(** With two callers the length can be tested by both before either has the lock: the
    second task is refused, and neither run nor freed. *)
Lemma kr_threadpool_two_callers (x : W) (t1 t2 : T_KRThreadPoolTask) :
  exists s0 s, running_pool 1 1 None 2 x = Ok s0 /\ rtc step s0 s /\
    returned s = [(AddTask t1, 0); (AddTask t2, -1)] /\ accepted s = [t1] /\ copies (tp s) = 2.
Proof.
  eexists _, _. split; [reflexivity|]. split.
  - eapply rtc_l; [right; left; by apply (step_call 0 (AddTask t1))|].
    eapply rtc_l; [right; left; by apply (step_call 1 (AddTask t2))|].
    eapply rtc_l; [right; left; by apply (step_enter 0 (AddTask t1))|].
    eapply rtc_l; [right; left; by apply (step_enter 1 (AddTask t2))|].
    eapply rtc_l; [right; left; by apply (step_return 0 (AddTask t1) 0)|].
    eapply rtc_l; [right; left; by apply (step_return 1 (AddTask t2) 0)|].
    apply rtc_refl.
  - done.
Qed.

(** [kr_threadpool_destroy] succeeds in every state, with all the threads that it leaves:
    the next turn of any of them takes the mutex of the pool that was freed. *)
Lemma kr_threadpool_destroy_running (n hw : Z) (init : option (option C)) (k : nat) (x : W)
    (s0 s : system) :
  running_pool n hw init k x = Ok s0 -> hw <= UINT_MAX -> rtc step s0 s ->
  exists p, kr_threadpool_destroy (tp s) = Ok (tt, p) /\ threads p = threads (tp s) /\
    (0 < length (threads p))%nat /\ forall w ctx, thread_get w ctx p = Fault BadPointer.
Proof.
  intros E Hu Hs. destruct (reachable_inv _ _ _ _ _ _ _ E Hu Hs) as [vs [Hp _ _ _ _ _]].
  pose proof (threads_length _ _ _ _ _ _ _ E Hs Hu) as Hl.
  destruct (pool_queue _ _ _ Hp) as (ps & Hq & _ & _).
  pose proof (wp_destroy _ _ _ Hq) as Hd. unfold wp in Hd.
  unfold kr_threadpool_destroy. unfold mbind at 1, M_bind at 1. rewrite (lock_spec _ _ _ Hp).
  unfold on_queue, kr_queue_fini, mbind, M_bind.
  destruct (kr_list_destroy (list_ (queue (tp s))) (heap (tp s))) as [[u h]|]; [|done].
  simpl. eexists. split_and!; done.
Qed.

End Pool.

(** A pool of two threads with a queue of one place, whose world is the list of the
    arguments that ran: one task is added and run, another is in the queue. *)
Definition example_task (n : Z) : T_KRThreadPoolTask (C:=unit) (A:=Z) (W:=list Z) :=
  mkTask (Some (fun _ a w => (0, w ++ option_list a))) (Some n).

(** The state that a step of a concrete run reaches, evaluated. *)
Ltac evaluated :=
  match goal with |- rtc step ?s _ =>
    let s' := eval vm_compute in s in replace s with s' by (vm_compute; reflexivity) end.

Lemma example_run :
  exists s0 s, running_pool 2 1 None 1 [] = Ok s0 /\ rtc step s0 s /\
    returned s = [(AddTask (example_task 7), 0); (AddTask (example_task 8), 0)] /\
    accepted s = [example_task 7; example_task 8] /\ world s = [7].
Proof.
  eexists _, _. split; [vm_compute; reflexivity|]. split.
  - eapply rtc_l; [left; by eapply (step_start 1)|]; evaluated.
    eapply rtc_l; [right; left; by apply (step_call 0 (AddTask (example_task 7)))|]; evaluated.
    eapply rtc_l; [right; left; by apply (step_enter 0 (AddTask (example_task 7)))|]; evaluated.
    eapply rtc_l; [right; left; by apply (step_return 0 (AddTask (example_task 7)) 0)|]; evaluated.
    eapply rtc_l; [left; by eapply (step_get 1)|]; evaluated.
    eapply rtc_l; [right; left; by apply (step_call 0 (AddTask (example_task 8)))|]; evaluated.
    eapply rtc_l; [left; by eapply (step_finish 1 None (example_task 7))|]; evaluated.
    eapply rtc_l; [right; left; by apply (step_enter 0 (AddTask (example_task 8)))|]; evaluated.
    eapply rtc_l; [right; left; by apply (step_return 0 (AddTask (example_task 8)) 0)|]; evaluated.
    apply rtc_refl.
  - split_and!; reflexivity.
Qed.

Lemma kr_threadpool_fifo_witness :
  exists s0 s, running_pool 2 1 None 1 [] = Ok s0 /\ rtc step s0 s /\
    accepted s = [example_task 7; example_task 8] /\
    exists vs, queue_rep (heap (tp s)) (queue (tp s)) vs /\ Z.of_nat (length vs) <= 1 /\
      accepted s = handed s ++ vs /\
      handed s ≡ₚ finished s ++ running (threads (tp s)) /\
      copies (tp s) = Z.of_nat (length vs + length (running (threads (tp s)))
                                + failed_calls (returned s)) /\
      ((1 <= 1)%nat -> Forall add_done (returned s)).
Proof.
  destruct example_run as (s0 & s & E & Hs & _ & Ha & _). exists s0, s.
  split; [exact E|]. split; [exact Hs|]. split; [exact Ha|].
  apply (kr_threadpool_fifo 2 1 None 1 [] s0 s E); [done|exact Hs].
Defined.

Lemma kr_threadpool_drains_witness :
  exists s0 s, running_pool 2 1 None 1 [] = Ok s0 /\ rtc step s0 s /\
    (forall m s', nsteps thread_step m s s' -> (m <= measure s)%nat) /\
    (forall s', rtc thread_step s s' ->
       finished s' ≡ₚ [example_task 7; example_task 8] \/ exists s2, thread_step s' s2).
Proof.
  destruct example_run as (s0 & s & E & Hs & Hr & Ha & _). exists s0, s.
  split; [exact E|]. split; [exact Hs|]. rewrite <- Ha.
  apply (kr_threadpool_drains 2 1 None 1 [] s0 s E); [done|exact Hs|].
  rewrite Hr. by repeat constructor.
Defined.

(** A pool of two threads that went to sleep, and a caller that broadcasts. *)
Lemma example_asleep :
  exists s0 s, running_pool 2 1 None 1 [] = Ok s0 /\ rtc step s0 s /\ finished s = [] /\ returned s = [] /\
    Forall (fun th => asleep th = true) (threads (tp s)) /\ callers s = [Inside (Broadcast (example_task 7))].
Proof.
  eexists _, _. split; [vm_compute; reflexivity|]. split.
  - eapply rtc_l; [left; by eapply (step_start 0)|]; evaluated.
    eapply rtc_l; [left; by eapply (step_get 0)|]; evaluated.
    eapply rtc_l; [left; by eapply (step_start 1)|]; evaluated.
    eapply rtc_l; [left; by eapply (step_get 1)|]; evaluated.
    eapply rtc_l; [right; left; by apply (step_call 0 (Broadcast (example_task 7)))|]; evaluated.
    eapply rtc_l; [right; left; by apply (step_enter 0 (Broadcast (example_task 7)))|]; evaluated.
    apply rtc_refl.
  - split_and!; [reflexivity..| |reflexivity]. by repeat constructor.
Qed.

Lemma kr_threadpool_broadcast_stuck_witness :
  exists s0 s s1, running_pool 2 1 None 1 [] = Ok s0 /\ rtc step s0 s /\ step s s1 /\
    forall s', rtc (fun a b => thread_step a b \/ caller_step a b) s1 s' ->
      finished s' = [] /\ busy (tp s') = true /\
      Forall (fun th => asleep th = true) (threads (tp s')) /\
      returned s' = [(Broadcast (example_task 7), -1)].
Proof.
  destruct example_asleep as (s0 & s & E & Hs & Hf & Hr & Hall & Hc).
  destruct (kr_threadpool_broadcast_stuck 2 1 None 1 [] (example_task 7) 0 s0 s E) as (p & _ & H1 & H2);
    [done|done|exact Hs|exact Hall|by rewrite Hc|intros [|j] c Hj; [done|by rewrite Hc in Hj]|].
  exists s0, s. eexists. split; [exact E|]. split; [exact Hs|]. split; [exact H1|].
  intros s' Hs'. destruct (H2 s' Hs') as (A1 & A2 & A3 & A4). rewrite Hf in A1. rewrite Hr in A4.
  split; [exact A1|]. split; [exact A2|]. split; [exact A3|exact A4].
Defined.
