(* ===== verification/KrSkiplist.v ===== *)
(** The skip list of krutils/kr_skiplist.c, on a store of nodes.

    A node has an array of forward pointers; [kr_skiplist_create_node] allocates
    [level * sizeof(T_KRSkipListNode)] bytes for it, the room of three pointers for each
    level, all null.  A read or a write out of the array is a fault.  The levels of new
    nodes come from the random numbers of the C library, an argument. *)

From S2P Require Import Prelude.
From stdpp Require Import sorting.
From Stdlib Require Import Sorted.
Local Open Scope Z_scope.
#[local] Notation length := List.length.

Definition ptr := positive.
Definition ZSKIPLIST_MAXLEVEL : nat := 12.
Definition ZSKIPLIST_BRANCHING : Z := 4.

Section Skiplist.
Context {V : Type}.

(** * Data *)

(** The value of the header is [NULL]. *)
Record T_KRSkipListNode := mkNode { key : Z; value : option V; forward : list (option ptr) }.

Record T_KRSkipList := mkList {
  header : ptr;
  length_ : Z;
  level : nat;
  compare_func : V -> V -> Z
}.

(** The allocated nodes, and the number of arrays of forward pointers. *)
Record store := mkStore { nodes : gmap ptr T_KRSkipListNode; arrays : Z }.

Definition read_node (p : ptr) : M store T_KRSkipListNode := fun s =>
  match nodes s !! p with Some n => Ok (n, s) | None => Fault BadPointer end.

Definition write_node (p : ptr) (n : T_KRSkipListNode) : M store unit := fun s =>
  match nodes s !! p with
  | Some _ => Ok (tt, mkStore (<[p := n]> (nodes s)) (arrays s))
  | None => Fault BadPointer
  end.

(** [p->forward[i]], read and written. *)
Definition forward_at (p : ptr) (i : nat) : M store (option ptr) :=
  n ← read_node p;
  lift (of_option OutOfBounds (forward n !! i)).

Definition set_forward (p : ptr) (i : nat) (q : option ptr) : M store unit :=
  n ← read_node p;
  if decide (i < length (forward n))%nat
  then write_node p (mkNode (key n) (value n) (<[i := q]> (forward n)))
  else fail OutOfBounds.

Definition kr_skiplist_create_node (level : nat) (k : Z) (v : option V) : M store ptr := fun s =>
  let p := fresh (dom (nodes s)) in
  Ok (p, mkStore (<[p := mkNode k v (replicate (3 * level) None)]> (nodes s)) (arrays s + 1)).

(** [kr_free] of the node alone, and with its array. *)
Definition free_header (p : ptr) : M store unit := fun s =>
  match nodes s !! p with
  | Some _ => Ok (tt, mkStore (delete p (nodes s)) (arrays s))
  | None => Fault BadPointer
  end.

Definition kr_skiplist_free_node (p : ptr) : M store unit := fun s =>
  match nodes s !! p with
  | Some _ => Ok (tt, mkStore (delete p (nodes s)) (arrays s - 1))
  | None => Fault BadPointer
  end.

(** * Operations *)

Fixpoint clear_forward (p : ptr) (i n : nat) : M store unit :=
  match n with
  | O => mret tt
  | S n' => set_forward p i None;; clear_forward p (S i) n'
  end.

Definition kr_skiplist_create (compare_func : V -> V -> Z) : M store T_KRSkipList :=
  header ← kr_skiplist_create_node ZSKIPLIST_MAXLEVEL 0 None;
  clear_forward header 0 ZSKIPLIST_MAXLEVEL;;
  mret (mkList header 0 1 compare_func).

Fixpoint free_loop (fuel : nat) (node : option ptr) : M store unit :=
  match node with
  | None => mret tt
  | Some p =>
      match fuel with
      | O => fail NoFuel
      | S fuel' =>
          next ← forward_at p 0;
          kr_skiplist_free_node p;;
          free_loop fuel' next
      end
  end.

Definition kr_skiplist_free (krsl : T_KRSkipList) : M store unit :=
  node ← forward_at (header krsl) 0;
  free_header (header krsl);;
  free_loop (Z.to_nat (length_ krsl)) node.

(** [random] gives the numbers of the generator for a seed. *)
Fixpoint random_loop (fuel : nat) (random : nat -> Z) (level : nat) : nat :=
  match fuel with
  | O => level
  | S fuel' =>
      if (level <? ZSKIPLIST_MAXLEVEL)%nat
         && (random (level - 1)%nat `rem` ZSKIPLIST_BRANCHING =? 0)
      then random_loop fuel' random (S level) else level
  end.

Definition kr_skiplist_random_level (random : Z -> nat -> Z) (time : Z) (k : Z) : nat :=
  random_loop ZSKIPLIST_MAXLEVEL (random (u32 (time + k))) 1.

(** The inner loop of the searches: from [x], along level [i], while the next node is
    [before] the place. *)
Fixpoint walk (fuel : nat) (before : T_KRSkipListNode -> res bool) (i : nat) (x : ptr)
    : M store ptr :=
  f ← forward_at x i;
  match f with
  | None => mret x
  | Some p =>
      n ← read_node p;
      b ← lift (before n);
      if b : bool then
        match fuel with
        | O => fail NoFuel
        | S fuel' => walk fuel' before i p
        end
      else mret x
  end.

(** The outer loop over the levels [i - 1], ..., [0]; it fills [update]. *)
Fixpoint descend (fuel : nat) (before : T_KRSkipListNode -> res bool) (i : nat) (x : ptr)
    (update : list (option ptr)) : M store (ptr * list (option ptr)) :=
  match i with
  | O => mret (x, update)
  | S i' =>
      x ← walk fuel before i' x;
      if decide (i' < length update)%nat
      then descend fuel before i' x (<[i' := Some x]> update)
      else fail OutOfBounds
  end.

Definition node_before (krsl : T_KRSkipList) (k : Z) (v : V) (n : T_KRSkipListNode) : res bool :=
  if key n <? k then Ok true
  else if key n =? k then
    match value n with
    | Some w => Ok (compare_func krsl w v <? 0)
    | None => Fault NullDeref
    end
  else Ok false.

(** The entries of [update] that were not written are [None]. *)
Definition kr_skiplist_lookup_internal (krsl : T_KRSkipList) (k : Z) (v : V)
    : M store (option ptr * list (option ptr)) :=
  '(x, update) ← descend (Z.to_nat (length_ krsl)) (node_before krsl k v) (level krsl)
                   (header krsl) (replicate ZSKIPLIST_MAXLEVEL None);
  f ← forward_at x 0;
  mret (f, update).

(** [x && key == x->key && !compare_func(x->value, value)] *)
Definition is_found (krsl : T_KRSkipList) (k : Z) (v : V) (x : option ptr) : M store bool :=
  match x with
  | None => mret false
  | Some p =>
      n ← read_node p;
      if k =? key n then
        match value n with
        | Some w => mret (compare_func krsl w v =? 0)
        | None => fail NullDeref
        end
      else mret false
  end.

Definition update_at (update : list (option ptr)) (i : nat) : M store ptr :=
  match update !! i with
  | Some (Some p) => mret p
  | Some None => fail BadPointer
  | None => fail OutOfBounds
  end.

(** [for (i = krsl->level; i < level; i++) update[i] = krsl->header] *)
Fixpoint fill_header (update : list (option ptr)) (h : ptr) (i n : nat) : list (option ptr) :=
  match n with
  | O => update
  | S n' => fill_header (<[i := Some h]> update) h (S i) n'
  end.

Fixpoint link_loop (x : ptr) (update : list (option ptr)) (i n : nat) : M store unit :=
  match n with
  | O => mret tt
  | S n' =>
      u ← update_at update i;
      f ← forward_at u i;
      set_forward x i f;;
      set_forward u i (Some x);;
      link_loop x update (S i) n'
  end.

Definition kr_skiplist_insert (random : Z -> nat -> Z) (time : Z) (krsl : T_KRSkipList) (k : Z)
    (v : V) : M store (option ptr * T_KRSkipList) :=
  '(x, update) ← kr_skiplist_lookup_internal krsl k v;
  found ← is_found krsl k v x;
  if found : bool then
    match x with
    | None => fail NullDeref
    | Some p =>
        n ← read_node p;
        write_node p (mkNode (key n) (Some v) (forward n));;
        mret (x, krsl)
    end
  else
    let lv := kr_skiplist_random_level random time k in
    let '(update, lv') :=
      if (level krsl <? lv)%nat
      then (fill_header update (header krsl) (level krsl) (lv - level krsl), lv)
      else (update, level krsl) in
    x ← kr_skiplist_create_node lv k (Some v);
    link_loop x update 0 lv;;
    mret (Some x, mkList (header krsl) (u32 (length_ krsl + 1)) lv' (compare_func krsl)).

Fixpoint unlink_loop (x : ptr) (update : list (option ptr)) (i n : nat) : M store unit :=
  match n with
  | O => mret tt
  | S n' =>
      u ← update_at update i;
      f ← forward_at u i;
      (if decide (f = Some x) then
         g ← forward_at x i;
         set_forward u i g
       else mret tt);;
      unlink_loop x update (S i) n'
  end.

(** [while (krsl->level > 1 && header->forward[krsl->level - 1] == NULL) krsl->level--] *)
Fixpoint lower_level (h : ptr) (lv : nat) : M store nat :=
  match lv with
  | S (S _ as lv') =>
      f ← forward_at h lv';
      match f with
      | None => lower_level h lv'
      | Some _ => mret lv
      end
  | _ => mret lv
  end.

Definition kr_skiplist_delete (krsl : T_KRSkipList) (k : Z) (v : V) : M store (Z * T_KRSkipList) :=
  '(x, update) ← kr_skiplist_lookup_internal krsl k v;
  found ← is_found krsl k v x;
  if found : bool then
    match x with
    | None => fail NullDeref
    | Some p =>
        unlink_loop p update 0 (level krsl);;
        kr_skiplist_free_node p;;
        lv ← lower_level (header krsl) (level krsl);
        mret (0, mkList (header krsl) (u32 (length_ krsl - 1)) lv (compare_func krsl))
    end
  else mret (-1, krsl).

(** [None] is the null pointer. *)
Definition kr_skiplist_lookup (krsl : T_KRSkipList) (k : Z) (v : V) : M store (option V) :=
  '(x, _) ← kr_skiplist_lookup_internal krsl k v;
  found ← is_found krsl k v x;
  if found : bool then
    match x with
    | None => fail NullDeref
    | Some p => n ← read_node p; mret (value n)
    end
  else mret None.

Fixpoint foreach_loop {A} (fuel : nat) (func : option V -> A -> A) (node : option ptr) (data : A)
    : M store A :=
  match node with
  | None => mret data
  | Some p =>
      match fuel with
      | O => fail NoFuel
      | S fuel' =>
          n ← read_node p;
          next ← forward_at p 0;
          foreach_loop fuel' func next (func (value n) data)
      end
  end.

Definition kr_skiplist_foreach {A} (krsl : T_KRSkipList) (func : option V -> A -> A) (data : A)
    : M store A :=
  node ← forward_at (header krsl) 0;
  foreach_loop (Z.to_nat (length_ krsl)) func node data.

Fixpoint descend_key (fuel : nat) (k : Z) (i : nat) (x : ptr) : M store ptr :=
  match i with
  | O => mret x
  | S i' => x ← walk fuel (fun n => Ok (key n <? k)) i' x; descend_key fuel k i' x
  end.

Definition kr_skiplist_lookup_cycle (krsl : T_KRSkipList) (k : Z) : M store (option V) :=
  x ← descend_key (Z.to_nat (length_ krsl)) k (level krsl) (header krsl);
  f ← forward_at x 0;
  match f with
  | Some p => n ← read_node p; mret (value n)
  | None =>
      f0 ← forward_at (header krsl) 0;
      match f0 with
      | Some p => n ← read_node p; mret (value n)
      | None => mret None
      end
  end.

(** * The shape of the store *)

(** A node of the list, visible at the levels from [a_lo] up to [a_hi] (excluded); a node
    that is being linked or unlinked is not visible at all of its levels yet. *)
Record anode := mkA {
  a_ptr : ptr; a_key : Z; a_val : option V; a_lo : nat; a_hi : nat; a_alloc : nat
}.

Definition vis (i : nat) (n : anode) : bool := (a_lo n <=? i)%nat && (i <? a_hi n)%nat.
Definition next_at (i : nat) (b : list anode) : option ptr := a_ptr <$> List.find (vis i) b.

Definition node_ok (m : gmap ptr T_KRSkipListNode) (n : anode) (b : list anode) : Prop :=
  exists fw, m !! a_ptr n = Some (mkNode (a_key n) (a_val n) fw) /\ length fw = a_alloc n /\
    forall i, vis i n = true -> fw !! i = Some (next_at i b).

Fixpoint seg (m : gmap ptr T_KRSkipListNode) (ps : list anode) : Prop :=
  match ps with [] => True | n :: ps' => node_ok m n ps' /\ seg m ps' end.

(** [u] is the last node of [l] that is visible at level [i]. *)
Definition is_last (i : nat) (l : list anode) (u : anode) : Prop :=
  exists a c, l = a ++ u :: c /\ vis i u = true /\ Forall (fun n => vis i n = false) c.

Lemma find_app {A} (f : A -> bool) a b :
  List.find f (a ++ b) = match List.find f a with Some x => Some x | None => List.find f b end.
Proof. induction a as [|x a IH]; simpl; [done|]. by destruct (f x). Qed.

Lemma find_none {A} (f : A -> bool) a : Forall (fun n => f n = false) a -> List.find f a = None.
Proof. induction 1 as [|x a Hx _ IH]; simpl; [done|]. by rewrite Hx. Qed.

Lemma existsb_false {A} (f : A -> bool) a : existsb f a = false <-> Forall (fun n => f n = false) a.
Proof.
  induction a as [|x a IH]; simpl; [done|]. rewrite orb_false_iff, Forall_cons, IH. done.
Qed.

Lemma find_split {A} (f : A -> bool) a :
  match List.find f a with
  | None => Forall (fun n => f n = false) a
  | Some x => exists a1 a2, a = a1 ++ x :: a2 /\ f x = true /\ Forall (fun n => f n = false) a1
  end.
Proof.
  induction a as [|y a IH]; simpl; [done|]. destruct (f y) eqn:E.
  - by exists [], a.
  - destruct (List.find f a); [|by constructor].
    destruct IH as (a1 & a2 & -> & ? & ?). exists (y :: a1), a2. split_and!; [done..|by constructor].
Qed.

Lemma next_skip i c b : Forall (fun n => vis i n = false) c -> next_at i (c ++ b) = next_at i b.
Proof. intros H. unfold next_at. by rewrite find_app, find_none. Qed.

Lemma next_here i x b : vis i x = true -> next_at i (x :: b) = Some (a_ptr x).
Proof. intros H. unfold next_at. simpl. by rewrite H. Qed.

Lemma next_hidden i x b : vis i x = false -> next_at i (x :: b) = next_at i b.
Proof. intros H. unfold next_at. simpl. by rewrite H. Qed.

(** Two lists with the same pointers and the same visibility at [i] look the same. *)
Lemma next_change i a x y b :
  a_ptr x = a_ptr y -> vis i x = vis i y -> next_at i (a ++ x :: b) = next_at i (a ++ y :: b).
Proof.
  intros Hp Hv. unfold next_at. rewrite !find_app. destruct (List.find (vis i) a); [done|]. simpl.
  rewrite Hv. destruct (vis i y); simpl; congruence.
Qed.

Lemma next_before i a u b b' : vis i u = true -> next_at i (a ++ u :: b) = next_at i (a ++ u :: b').
Proof.
  intros Hv. unfold next_at. rewrite !find_app. destruct (List.find (vis i) a); [done|]. simpl.
  by rewrite Hv.
Qed.

Lemma seg_app m a b : seg m (a ++ b) -> seg m b.
Proof. induction a; simpl; [done|]. intros [_ ?]. auto. Qed.

Lemma seg_in m a x b : seg m (a ++ x :: b) -> node_ok m x b.
Proof. intros H. by apply seg_app in H as [? _]. Qed.

Lemma node_frame m n b p q :
  p <> a_ptr n -> node_ok m n b -> node_ok (<[p := q]> m) n b.
Proof. intros Hp (fw & ? & ?). exists fw. by rewrite lookup_insert_ne. Qed.

Lemma seg_frame m b p q : p ∉ a_ptr <$> b -> seg m b -> seg (<[p := q]> m) b.
Proof.
  induction b as [|n b IH]; simpl; [done|]. intros Hp [? ?]. apply not_elem_of_cons in Hp as [? ?].
  split; [by apply node_frame|auto].
Qed.

Lemma seg_delete m b p : p ∉ a_ptr <$> b -> seg m b -> seg (delete p m) b.
Proof.
  induction b as [|n b IH]; simpl; [done|]. intros Hp [(fw & ? & ?) ?].
  apply not_elem_of_cons in Hp as [? ?]. split; [|auto]. exists fw. by rewrite lookup_delete_ne.
Qed.

(** * Access to the store *)

Lemma read_node_ok s n b : node_ok (nodes s) n b ->
  exists fw, read_node (a_ptr n) s = Ok (mkNode (a_key n) (a_val n) fw, s).
Proof. intros (fw & H & _). exists fw. unfold read_node. by rewrite H. Qed.

Lemma forward_at_ok s n b i :
  node_ok (nodes s) n b -> vis i n = true -> forward_at (a_ptr n) i s = Ok (next_at i b, s).
Proof.
  intros (fw & H & _ & Hf) Hi. unfold forward_at, mbind, M_bind, read_node, lift.
  rewrite H. simpl. by rewrite (Hf _ Hi).
Qed.

Lemma set_forward_ok s n b i q :
  node_ok (nodes s) n b -> (i < a_alloc n)%nat ->
  exists fw, nodes s !! a_ptr n = Some (mkNode (a_key n) (a_val n) fw) /\
    set_forward (a_ptr n) i q s = Ok (tt, mkStore
      (<[a_ptr n := mkNode (a_key n) (a_val n) (<[i := q]> fw)]> (nodes s)) (arrays s)).
Proof.
  intros (fw & H & Hl & _) Hi. exists fw. split; [done|].
  unfold set_forward, mbind, M_bind, read_node, write_node. rewrite H. simpl.
  rewrite decide_True by lia. by rewrite H.
Qed.

Lemma vis_alloc m n b i : node_ok m n b -> vis i n = true -> (i < a_alloc n)%nat.
Proof. intros (fw & _ & <- & H) Hi. by eapply lookup_lt_Some, H. Qed.

(** * The searches *)

Section Search.
Context (before : T_KRSkipListNode -> res bool) (P : anode -> bool).
Hypothesis before_ok : forall n fw, a_val n <> None ->
  before (mkNode (a_key n) (a_val n) fw) = Ok (P n).

(** [L] is the part before the place and [G] the part after it. *)
Definition splits (c G : list anode) : Prop :=
  Forall (fun n => a_val n <> None /\ P n = true) c /\
  Forall (fun n => a_val n <> None /\ P n = false) G.

Lemma walk_spec i s G : forall c x fuel,
  seg (nodes s) (x :: c ++ G) -> vis i x = true -> splits c G -> (length c <= fuel)%nat ->
  exists y, is_last i (x :: c) y /\ walk fuel before i (a_ptr x) s = Ok (a_ptr y, s).
Proof.
  intros c. induction c as [c IH] using (induction_ltof1 _ (@length _)).
  intros x fuel Hseg Hx [Hc HG] Hfuel. pose proof Hseg as [Hok Hrest].
  pose proof (find_split (vis i) c) as Hfind. destruct (List.find (vis i) c) as [n|] eqn:E.
  - destruct Hfind as (c1 & c2 & -> & Hn & Hc1). rewrite <- (assoc_L (++)) in *. simpl in *.
    apply Forall_app in Hc as [_ Hc]. apply Forall_cons in Hc as [[Hval HP] Hc2].
    rewrite length_app in Hfuel. simpl in Hfuel. destruct fuel as [|fuel]; [lia|].
    pose proof (seg_app _ _ _ Hrest) as Hseg2.
    destruct (IH c2) with (x := n) (fuel := fuel) as (y & (a & b & Hab & Hy & Hb) & Ew);
      [unfold ltof; rewrite length_app; simpl; lia|done..|lia|].
    exists y. split.
    + exists (x :: c1 ++ a), b. simpl. rewrite <- (assoc_L (++)), <- Hab. done.
    + cbn [walk]. unfold mbind at 1, M_bind at 1.
      rewrite (forward_at_ok _ _ _ _ Hok Hx), next_skip, next_here by done.
      unfold mbind, M_bind. destruct (read_node_ok _ _ _ (proj1 Hseg2)) as [fw ->].
      unfold lift. rewrite before_ok by done. by rewrite HP.
  - exists x. split; [by exists [], c|]. destruct fuel; cbn [walk];
      unfold mbind at 1, M_bind at 1; rewrite (forward_at_ok _ _ _ _ Hok Hx), next_skip by done;
      unfold next_at; pose proof (find_split (vis i) G) as HfG;
      destruct (List.find (vis i) G) as [n|]; try done; simpl;
      destruct HfG as (g1 & g2 & -> & Hn & _); apply Forall_app in HG as [_ HG];
      apply Forall_cons in HG as [[Hval HP] _];
      apply seg_app, seg_app in Hrest as [Hokn _]; unfold mbind, M_bind;
      destruct (read_node_ok _ _ _ Hokn) as [fw ->]; unfold lift;
      by rewrite before_ok, HP by done.
Qed.

Definition regular (n : anode) : Prop := a_lo n = 0%nat /\ (0 < a_hi n)%nat.

Lemma vis_down i n : regular n -> vis (S i) n = true -> vis i n = true.
Proof.
  intros [Hlo _]. unfold vis. rewrite Hlo. intros H. apply andb_true_iff in H as [_ H].
  apply Nat.ltb_lt in H. apply andb_true_iff. split; [done|]. apply Nat.ltb_lt. lia.
Qed.

Lemma descend_spec s G fuel L : forall i x a c update,
  seg (nodes s) (L ++ G) -> L = a ++ x :: c -> (forall i', i = S i' -> vis i' x = true) ->
  Forall regular L -> splits (tail L) G -> (length (tail L) <= fuel)%nat ->
  (i <= length update)%nat ->
  exists y update', descend fuel before i (a_ptr x) update s = Ok (a_ptr y, update', s) /\
    length update' = length update /\
    (forall j, (j < i)%nat -> exists u, is_last j L u /\ update' !! j = Some (Some (a_ptr u))) /\
    (forall j, (i <= j)%nat -> update' !! j = update !! j) /\
    match i with O => y = x | S _ => is_last 0 L y end.
Proof.
  induction i as [|i IH]; intros x a c update Hseg HL Hx Hreg Hsp Hfuel Hlen.
  { exists x, update. split_and!; try done. lia. }
  assert (Hsx : seg (nodes s) (x :: c ++ G)).
  { rewrite HL, <- (assoc_L (++)) in Hseg. by apply seg_app in Hseg. }
  destruct Hsp as [Hs1 Hs2].
  assert (Hc : Forall (fun n => a_val n <> None /\ P n = true) c /\ (length c <= fuel)%nat).
  { rewrite HL in Hs1, Hfuel. destruct a as [|z a]; simpl in *; [done|].
    apply Forall_app in Hs1 as [_ Hs1]. apply Forall_cons in Hs1 as [_ ?].
    rewrite length_app in Hfuel. simpl in Hfuel. split; [done|lia]. }
  destruct (walk_spec i s G c x fuel Hsx (Hx i eq_refl)) as (y & (a2 & c2 & Hac & Hy & Hc2) & Ew);
    [by split; [apply Hc|]|apply Hc|].
  assert (HL2 : L = (a ++ a2) ++ y :: c2) by (rewrite HL, Hac; apply (assoc_L (++))).
  destruct (IH y (a ++ a2) c2 (<[i := Some (a_ptr y)]> update))
    as (z & update' & Ed & Hl & Hlt & Hge & Hz); [done|done| |done|by split|done|rewrite length_insert; lia|].
  { intros i' ->. apply vis_down; [|done]. rewrite HL2 in Hreg. apply Forall_app in Hreg as [_ Hreg].
    by apply Forall_cons in Hreg as [? _]. }
  assert (Hlast : is_last i L y) by by (exists (a ++ a2), c2).
  exists z, update'. cbn [descend]. unfold mbind, M_bind. rewrite Ew, decide_True by lia.
  rewrite length_insert in Hl. split_and!; [done|done| | |].
  - intros j Hj. destruct (decide (j = i)) as [->|Hne]; [|apply Hlt; lia].
    exists y. split; [done|]. rewrite Hge by lia. apply list_lookup_insert_eq. lia.
  - intros j Hj. rewrite Hge, list_lookup_insert_ne by lia. done.
  - destruct i; [by subst|done].
Qed.

End Search.

(** * Links *)

Definition ptrs (ps : list anode) : list ptr := a_ptr <$> ps.

(** The node [x] with the levels from [lo] to [hi]. *)
Definition at_levels (x : anode) (lo hi : nat) : anode :=
  mkA (a_ptr x) (a_key x) (a_val x) lo hi (a_alloc x).

Lemma node_ok_levels m x lo hi b :
  node_ok m x b -> (forall i, (lo <= i < hi)%nat -> vis i x = true) ->
  node_ok m (at_levels x lo hi) b.
Proof.
  intros (fw & H1 & H2 & H3) Hv. exists fw. split_and!; [done|done|]. intros i Hi. apply H3, Hv.
  unfold vis in Hi. simpl in Hi. apply andb_true_iff in Hi as [H4 H5].
  apply Nat.leb_le in H4. apply Nat.ltb_lt in H5. lia.
Qed.

Lemma node_ok_next m n b b' :
  node_ok m n b -> (forall j, vis j n = true -> next_at j b = next_at j b') -> node_ok m n b'.
Proof.
  intros (fw & H1 & H2 & H3) Hb. exists fw. split_and!; [done|done|]. intros i Hi.
  by rewrite H3, Hb.
Qed.

(** A node that no level shows can be put in the list and taken out of it. *)
Lemma seg_hidden m x b : forall a,
  (forall i, vis i x = false) -> node_ok m x b ->
  seg m (a ++ x :: b) <-> seg m (a ++ b).
Proof.
  intros a Hx Hok. induction a as [|n a IH]; simpl.
  { split; [by intros [_ ?]|done]. }
  rewrite IH. assert (Hn : forall i, next_at i (a ++ x :: b) = next_at i (a ++ b)).
  { intros i. unfold next_at. rewrite !find_app. destruct (List.find (vis i) a); [done|].
    simpl. by rewrite Hx. }
  unfold node_ok. by setoid_rewrite Hn.
Qed.

(** One link: the array of [u], the last node before [x] that level [i] shows, is set to
    the node that follows [u] once [x] is changed into [y] at level [i]. *)
Lemma seg_relink m u c x y g i ku fw : forall a,
  seg m (a ++ u :: c ++ x :: g) -> NoDup (ptrs (a ++ u :: c ++ x :: g)) ->
  vis i u = true -> Forall (fun n => vis i n = false) c ->
  m !! a_ptr u = Some (mkNode ku (a_val u) fw) ->
  a_ptr y = a_ptr x -> (forall j, j <> i -> vis j y = vis j x) -> node_ok m y g ->
  seg (<[a_ptr u := mkNode ku (a_val u) (<[i := next_at i (y :: g)]> fw)]> m) (a ++ u :: c ++ y :: g).
Proof.
  intros a Hseg Hnd Hu Hc Hm Hp Hv Hy. set (m' := <[_ := _]> m).
  assert (Hpos : seg m' (y :: g) /\ a_ptr u ∉ ptrs (c ++ y :: g) /\ a_ptr u ∉ ptrs a).
  { unfold ptrs in *. rewrite !fmap_app, !fmap_cons, !fmap_app, !fmap_cons in *. rewrite Hp.
    apply NoDup_app in Hnd as (_ & Ha & Hnd). apply NoDup_cons in Hnd as [Hu' _].
    split_and!; [|done|].
    - apply seg_app in Hseg as [_ Hseg]. apply seg_app in Hseg as [_ Hseg]. split.
      + apply node_frame; [|done]. rewrite Hp. set_solver.
      + apply seg_frame; [|done]. set_solver.
    - intros Hin. apply (Ha _ Hin). set_solver. }
  destruct Hpos as (Hyg & Hnu & Hna).
  assert (Hcy : seg m' (c ++ y :: g)).
  { apply seg_app in Hseg as [_ Hseg]. clear -Hc Hp Hv Hyg Hseg Hnu. induction c as [|n c IH]; [done|].
    apply Forall_cons in Hc as [Hn Hc]. destruct Hseg as [Hok Hseg]. simpl in *.
    apply not_elem_of_cons in Hnu as [Hne Hnu]. split; [|by apply IH].
    apply node_frame; [done|]. eapply node_ok_next; [exact Hok|]. intros j Hj. apply next_change; [done|].
    symmetry. apply Hv. congruence. }
  assert (Huy : seg m' (u :: c ++ y :: g)).
  { split; [|done]. apply seg_app in Hseg as [(fw' & Hm' & Hl & Hf) _]. rewrite Hm in Hm'.
    injection Hm' as -> <-. eexists. unfold m'. rewrite lookup_insert_eq.
    split_and!; [done|by rewrite length_insert|]. intros j Hj. destruct (decide (j = i)) as [->|Hne].
    - rewrite list_lookup_insert_eq, next_skip; [done|done|]. by eapply lookup_lt_Some, Hf.
    - rewrite list_lookup_insert_ne by done. rewrite (Hf _ Hj). f_equal.
      apply next_change; [done|]. symmetry. by apply Hv. }
  clear Hcy Hyg. induction a as [|n a IH]; [done|]. destruct Hseg as [Hok Hseg]. simpl in *.
  apply NoDup_cons in Hnd as [_ Hnd]. apply not_elem_of_cons in Hna as [Hne Hna].
  split; [|by apply IH]. apply node_frame; [done|]. eapply node_ok_next; [exact Hok|].
  intros j Hj. destruct (decide (j = i)) as [->|Hji]; [by apply next_before|].
  rewrite !(cons_middle u), !(assoc_L (++)). apply next_change; [done|]. symmetry. by apply Hv.
Qed.

Lemma seg_put m nd x g : forall a,
  seg m (a ++ x :: g) -> NoDup (ptrs (a ++ x :: g)) -> node_ok (<[a_ptr x := nd]> m) x g ->
  seg (<[a_ptr x := nd]> m) (a ++ x :: g).
Proof.
  induction a as [|n a IH]; simpl; intros [Hok Hseg] Hnd Hx; apply NoDup_cons in Hnd as [Hn Hnd].
  - split; [done|]. by apply seg_frame.
  - split; [|by apply IH]. apply node_frame; [|done]. intros Heq. apply Hn. rewrite <- Heq.
    unfold ptrs. rewrite fmap_app. set_solver.
Qed.

Lemma vis_levels i x lo hi : vis i (at_levels x lo hi) = (lo <=? i)%nat && (i <? hi)%nat.
Proof. done. Qed.

Lemma vis_levels_ne j i x lo hi lo' hi' :
  j <> i -> (lo' <= lo /\ lo <= S lo' /\ (lo' < lo -> lo' = i) /\
             hi <= hi' /\ hi' <= S hi /\ (hi < hi' -> hi = i))%nat ->
  vis j (at_levels x lo' hi') = vis j (at_levels x lo hi).
Proof.
  intros Hj H. rewrite !vis_levels. destruct (lo' <=? j)%nat eqn:E1, (lo <=? j)%nat eqn:E2,
    (j <? hi')%nat eqn:E3, (j <? hi)%nat eqn:E4; simpl; try done; exfalso;
    repeat match goal with
    | H : (_ <=? _)%nat = true |- _ => apply Nat.leb_le in H
    | H : (_ <=? _)%nat = false |- _ => apply Nat.leb_gt in H
    | H : (_ <? _)%nat = true |- _ => apply Nat.ltb_lt in H
    | H : (_ <? _)%nat = false |- _ => apply Nat.ltb_ge in H
    end; lia.
Qed.

Lemma ptrs_change h a x y g :
  a_ptr x = a_ptr y -> ptrs (h :: a ++ x :: g) = ptrs (h :: a ++ y :: g).
Proof. intros H. unfold ptrs. by rewrite !fmap_cons, !fmap_app, !fmap_cons, H. Qed.

Lemma ptrs_middle h a x g : ptrs (h :: a ++ x :: g) ≡ₚ a_ptr x :: ptrs (h :: a ++ g).
Proof.
  unfold ptrs. rewrite !fmap_cons, !fmap_app, !fmap_cons. rewrite <- Permutation_middle.
  apply Permutation_swap.
Qed.

Lemma update_at_ok update i p s : update !! i = Some (Some p) -> update_at update i s = Ok (p, s).
Proof. intros H. unfold update_at. by rewrite H. Qed.

(** Two stores with the same nodes allocated. *)
Definition same_nodes (s s' : store) : Prop :=
  dom (nodes s') = dom (nodes s) /\ arrays s' = arrays s.

Lemma same_nodes_put s p n :
  p ∈ dom (nodes s) -> same_nodes s (mkStore (<[p := n]> (nodes s)) (arrays s)).
Proof. intros H. split; [|done]. simpl. rewrite dom_insert_L. set_solver. Qed.

Lemma same_nodes_trans s1 s2 s3 : same_nodes s1 s2 -> same_nodes s2 s3 -> same_nodes s1 s3.
Proof. intros [? ?] [? ?]. split; congruence. Qed.

(** The body of the loop of [kr_skiplist_insert]. *)
Lemma link_step s L x G j u :
  seg (nodes s) (L ++ at_levels x 0 j :: G) -> NoDup (ptrs (L ++ x :: G)) ->
  is_last j L u -> (j < a_alloc x)%nat ->
  exists s', (f ← forward_at (a_ptr u) j;
              set_forward (a_ptr x) j f;; set_forward (a_ptr u) j (Some (a_ptr x))) s = Ok (tt, s') /\
    seg (nodes s') (L ++ at_levels x 0 (S j) :: G) /\ same_nodes s s'.
Proof.
  intros Hseg Hnd (a & c & -> & Hu & Hc) Hj. set (x0 := at_levels x 0 j) in *.
  set (x1 := at_levels x 0 (S j)). rewrite <- (assoc_L (++)) in *. simpl in *.
  assert (Hnd0 : NoDup (ptrs (a ++ u :: c ++ x0 :: G))).
  { revert Hnd. unfold ptrs. by rewrite !fmap_app, !fmap_cons, !fmap_app, !fmap_cons. }
  assert (Hx0 : vis j x0 = false).
  { unfold x0. rewrite vis_levels. apply andb_false_iff. right. apply Nat.ltb_ge. lia. }
  pose proof (seg_in _ _ _ _ Hseg) as Hoku.
  assert (Hokx : node_ok (nodes s) x0 G).
  { apply seg_app in Hseg as [_ Hseg]. by apply seg_in in Hseg. }
  unfold mbind, M_bind. rewrite (forward_at_ok _ _ _ _ Hoku Hu), next_skip, next_hidden by done.
  destruct (set_forward_ok s x0 G j (next_at j G) Hokx Hj) as (fx & Hfx & Ex).
  change (a_ptr x0) with (a_ptr x) in *. rewrite Ex.
  set (s1 := mkStore _ _). assert (Hseg1 : seg (nodes s1) (a ++ u :: c ++ x0 :: G)).
  { assert (Hl : a ++ u :: c ++ x0 :: G = (a ++ u :: c) ++ x0 :: G) by by rewrite <- (assoc_L (++)).
    rewrite Hl in *. apply (seg_put _ _ x0); [done|done|]. clear Hl.
    destruct Hokx as (fx' & Hfx' & Hl & Hf). change (a_ptr x0) with (a_ptr x) in *.
    rewrite Hfx in Hfx'. injection Hfx' as <-. eexists. rewrite lookup_insert_eq.
    split_and!; [done|by rewrite length_insert|]. intros i Hi.
    rewrite list_lookup_insert_ne by congruence. by apply Hf. }
  assert (Hokx1 : node_ok (nodes s1) x1 G).
  { destruct Hokx as (fx' & Hfx' & Hl & Hf). change (a_ptr x0) with (a_ptr x) in *.
    rewrite Hfx in Hfx'. injection Hfx' as <-. eexists. simpl. rewrite lookup_insert_eq.
    split_and!; [done|by rewrite length_insert|]. intros i Hi.
    destruct (decide (i = j)) as [->|Hne]; [apply list_lookup_insert_eq; simpl in *; lia|].
    rewrite list_lookup_insert_ne by done. apply Hf. rewrite <- Hi. symmetry.
    apply (vis_levels_ne _ j); [done|lia]. }
  destruct (set_forward_ok s1 u (c ++ x0 :: G) j (Some (a_ptr x)) (seg_in _ _ _ _ Hseg1))
    as (fu & Hfu & Eu); [by eapply vis_alloc|]. rewrite Eu. eexists. split; [done|]. split.
  - assert (Hn : Some (a_ptr x) = next_at j (x1 :: G)).
    { symmetry. apply (next_here j x1). unfold x1. rewrite vis_levels. apply Nat.ltb_lt. lia. }
    rewrite Hn.
    apply (seg_relink (nodes s1) u c x0 x1); try done.
    intros i Hi. apply (vis_levels_ne _ j); [done|lia].
  - eapply same_nodes_trans; apply same_nodes_put; by eapply elem_of_dom_2.
Qed.

Lemma link_loop_spec L x G update : forall n j s,
  seg (nodes s) (L ++ at_levels x 0 j :: G) -> NoDup (ptrs (L ++ x :: G)) ->
  (j + n <= a_alloc x)%nat ->
  (forall i, (i < j + n)%nat -> exists u, is_last i L u /\ update !! i = Some (Some (a_ptr u))) ->
  exists s', link_loop (a_ptr x) update j n s = Ok (tt, s') /\
    seg (nodes s') (L ++ at_levels x 0 (j + n) :: G) /\ same_nodes s s'.
Proof.
  induction n as [|n IH]; intros j s Hseg Hnd Hj Hup; cbn [link_loop].
  { exists s. rewrite Nat.add_0_r. split_and!; [done|done|done]. }
  destruct (Hup j) as (u & Hu & Eu); [lia|].
  destruct (link_step _ _ _ _ _ _ Hseg Hnd Hu) as (s1 & E1 & Hseg1 & Hs1); [lia|].
  destruct (IH (S j) s1) as (s2 & E2 & Hseg2 & Hs2); [done|done|lia|intros i Hi; apply Hup; lia|].
  exists s2. rewrite Nat.add_succ_r. split_and!; [|done|by eapply same_nodes_trans].
  unfold mbind, M_bind in *. rewrite (update_at_ok _ _ _ _ Eu).
  destruct (forward_at (a_ptr u) j s) as [[f s0]|]; [|done].
  destruct (set_forward (a_ptr x) j f s0) as [[[] s0']|]; [|done]. by rewrite E1.
Qed.

(** The body of the loop of [kr_skiplist_delete]. *)
Lemma unlink_step s L x G j h u :
  seg (nodes s) (L ++ at_levels x j h :: G) -> NoDup (ptrs (L ++ x :: G)) -> is_last j L u ->
  exists s', (f ← forward_at (a_ptr u) j;
              if decide (f = Some (a_ptr x)) then
                g ← forward_at (a_ptr x) j; set_forward (a_ptr u) j g
              else mret tt) s = Ok (tt, s') /\
    seg (nodes s') (L ++ at_levels x (S j) h :: G) /\ same_nodes s s'.
Proof.
  intros Hseg Hnd (a & c & -> & Hu & Hc). set (x0 := at_levels x j h) in *.
  set (x1 := at_levels x (S j) h). rewrite <- (assoc_L (++)) in *. simpl in *.
  assert (Hnd0 : NoDup (ptrs (a ++ u :: c ++ x0 :: G))).
  { revert Hnd. unfold ptrs. by rewrite !fmap_app, !fmap_cons, !fmap_app, !fmap_cons. }
  pose proof (seg_in _ _ _ _ Hseg) as Hoku.
  assert (Hokx : node_ok (nodes s) x0 G).
  { apply seg_app in Hseg as [_ Hseg]. by apply seg_in in Hseg. }
  assert (Hokx1 : node_ok (nodes s) x1 G).
  { apply (node_ok_levels _ x0 (S j) h _ Hokx). intros i Hi. unfold x0. rewrite vis_levels.
    apply andb_true_iff. split; [apply Nat.leb_le|apply Nat.ltb_lt]; lia. }
  unfold mbind, M_bind. rewrite (forward_at_ok _ _ _ _ Hoku Hu), next_skip by done.
  destruct (vis j x0) eqn:Hx.
  - rewrite next_here, decide_True by done.
    change (a_ptr x) with (a_ptr x0). rewrite (forward_at_ok _ _ _ _ Hokx Hx).
    destruct (set_forward_ok s u (c ++ x0 :: G) j (next_at j G) (seg_in _ _ _ _ Hseg))
      as (fu & Hfu & ->); [by eapply vis_alloc|]. eexists. split; [done|]. split.
    + assert (Hn : next_at j G = next_at j (x1 :: G)).
      { symmetry. apply next_hidden. unfold x1. rewrite vis_levels.
        apply andb_false_iff. left. apply Nat.leb_gt. lia. }
      rewrite Hn. apply (seg_relink (nodes s) u c x0 x1); try done.
      intros i Hi. symmetry. apply (vis_levels_ne _ j); [done|lia].
    + apply same_nodes_put. by eapply elem_of_dom_2.
  - rewrite next_hidden, decide_False; [| |done].
    + exists s. split_and!; [done| |done].
      assert (Hv : forall i, vis i x0 = vis i x1).
      { intros i. destruct (decide (i = j)) as [->|Hne];
          [|apply (vis_levels_ne _ j); [done|lia]].
        rewrite Hx. symmetry. unfold x1. rewrite vis_levels. apply andb_false_iff. left.
        apply Nat.leb_gt. lia. }
      assert (Hall : forall b, seg (nodes s) (b ++ x0 :: G) -> seg (nodes s) (b ++ x1 :: G)).
      { induction b as [|n b IH]; simpl; intros [Hok Hs]; [done|]. split; [|by apply IH].
        eapply node_ok_next; [exact Hok|]. intros i _. by apply next_change. }
      specialize (Hall (a ++ u :: c)). rewrite <- !(assoc_L (++)) in Hall. by apply Hall.
    + unfold next_at. intros Hf. pose proof (find_split (vis j) G) as HG.
      destruct (List.find (vis j) G) as [n|]; [|done]. injection Hf as Hf.
      destruct HG as (g1 & g2 & -> & _). unfold ptrs in Hnd.
      rewrite fmap_app, fmap_cons, fmap_app, fmap_cons in Hnd.
      apply NoDup_app in Hnd as (_ & _ & Hnd). apply NoDup_cons in Hnd as [_ Hnd].
      apply NoDup_app in Hnd as (_ & _ & Hnd). apply NoDup_cons in Hnd as [Hin _].
      apply Hin. rewrite <- Hf, fmap_app, fmap_cons. set_solver.
Qed.

Lemma unlink_loop_spec L x G h update : forall n j s,
  seg (nodes s) (L ++ at_levels x j h :: G) -> NoDup (ptrs (L ++ x :: G)) ->
  (forall i, (i < j + n)%nat -> exists u, is_last i L u /\ update !! i = Some (Some (a_ptr u))) ->
  exists s', unlink_loop (a_ptr x) update j n s = Ok (tt, s') /\
    seg (nodes s') (L ++ at_levels x (j + n) h :: G) /\ same_nodes s s'.
Proof.
  induction n as [|n IH]; intros j s Hseg Hnd Hup; cbn [unlink_loop].
  { exists s. rewrite Nat.add_0_r. by split_and!. }
  destruct (Hup j) as (u & Hu & Eu); [lia|].
  destruct (unlink_step _ _ _ _ _ _ _ Hseg Hnd Hu) as (s1 & E1 & Hseg1 & Hs1).
  destruct (IH (S j) s1) as (s2 & E2 & Hseg2 & Hs2); [done|done|intros i Hi; apply Hup; lia|].
  exists s2. rewrite Nat.add_succ_r. split_and!; [|done|by eapply same_nodes_trans].
  unfold mbind, M_bind in *. rewrite (update_at_ok _ _ _ _ Eu).
  destruct (forward_at (a_ptr u) j s) as [[f s0]|]; [|done]. by rewrite E1.
Qed.

(** * The skip list *)

(** [ps] are the nodes in order, all but the header. *)
Definition hdr (l : T_KRSkipList) : anode := mkA (header l) 0 None 0 ZSKIPLIST_MAXLEVEL (3 * ZSKIPLIST_MAXLEVEL).

Definition precedes (compare : V -> V -> Z) (k : Z) (v : V) (k' : Z) (v' : V) : bool :=
  (k <? k') || (k =? k') && (compare v v' <? 0).

Definition entry_lt (compare : V -> V -> Z) (e e' : Z * V) : Prop :=
  precedes compare e.1 e.2 e'.1 e'.2 = true.

(** The entry of a node, and a node of the list of level [lv]. *)
Definition node_of (lv : nat) (n : anode) (e : Z * V) : Prop :=
  a_key n = e.1 /\ a_val n = Some e.2 /\ a_lo n = 0%nat /\ (0 < a_hi n <= lv)%nat /\
  (a_hi n <= a_alloc n)%nat.

(** The store holds the list of the entries [es], and nothing else. *)
Record skip_rep (s : store) (l : T_KRSkipList) (ps : list anode) (es : list (Z * V)) : Prop := {
  rep_seg : seg (nodes s) (hdr l :: ps);
  rep_nodup : NoDup (ptrs (hdr l :: ps));
  rep_dom : dom (nodes s) = list_to_set (ptrs (hdr l :: ps));
  rep_arrays : arrays s = Z.of_nat (S (length ps));
  rep_len : length_ l = Z.of_nat (length es);
  rep_level : (1 <= level l <= ZSKIPLIST_MAXLEVEL)%nat;
  rep_nodes : Forall2 (node_of (level l)) ps es;
  rep_sorted : StronglySorted (entry_lt (compare_func l)) es
}.

End Skiplist.

(** A comparison function that orders its values. *)
Class Comparison {V} (compare : V -> V -> Z) : Prop := {
  compare_swap : forall a b, compare a b < 0 <-> compare b a > 0;
  compare_trans : forall a b c, compare a b < 0 -> compare b c < 0 -> compare a c < 0;
  compare_equal : forall a b c, compare a b = 0 -> (compare a c < 0 <-> compare b c < 0)
}.

(** * The sorted list that a skip list is *)

Section Spec.
Context {V : Type} (c : V -> V -> Z).

(** The entry that a search for [k] and [v] finds. *)
Definition same (k : Z) (v : V) (e : Z * V) : bool := (k =? e.1) && (c e.2 v =? 0).

Fixpoint spec_insert (k : Z) (v : V) (es : list (Z * V)) : list (Z * V) :=
  match es with
  | [] => [(k, v)]
  | e :: es' =>
      if precedes c e.1 e.2 k v then e :: spec_insert k v es'
      else if same k v e then (k, v) :: es'
      else (k, v) :: es
  end.

Definition spec_delete (k : Z) (v : V) (es : list (Z * V)) : list (Z * V) :=
  List.filter (fun e => negb (same k v e)) es.

Definition spec_lookup (k : Z) (v : V) (es : list (Z * V)) : option V :=
  snd <$> List.find (same k v) es.

(** The first entry at or after the key, and the first of all when there is none. *)
Definition spec_cycle (k : Z) (es : list (Z * V)) : option V :=
  match List.find (fun e => k <=? e.1) es with
  | Some e => Some e.2
  | None => snd <$> head es
  end.

Context `{!Comparison c}.

Lemma precedes_iff k v k' v' :
  precedes c k v k' v' = true <-> k < k' \/ k = k' /\ c v v' < 0.
Proof.
  unfold precedes. rewrite orb_true_iff, andb_true_iff, Z.ltb_lt, Z.eqb_eq, Z.ltb_lt. done.
Qed.

Lemma same_iff k v e : same k v e = true <-> k = e.1 /\ c e.2 v = 0.
Proof. unfold same. by rewrite andb_true_iff, !Z.eqb_eq. Qed.

#[local] Instance entry_lt_trans : Transitive (entry_lt c).
Proof.
  intros [k1 v1] [k2 v2] [k3 v3]. unfold entry_lt. rewrite !precedes_iff. simpl.
  intros [?|[-> ?]] [?|[-> ?]]; [left; lia..|]. right. split; [done|]. by eapply compare_trans.
Qed.

Lemma same_lt k v e e' : same k v e = true -> entry_lt c e e' -> entry_lt c (k, v) e'.
Proof.
  unfold entry_lt. rewrite same_iff, !precedes_iff. intros [-> He] [?|[-> ?]]; [by left|right].
  split; [done|]. by apply (compare_equal _ _ e'.2 He).
Qed.

Lemma not_before_lt k v e :
  precedes c e.1 e.2 k v = false -> same k v e = false -> entry_lt c (k, v) e.
Proof.
  intros H1 H2. unfold entry_lt. rewrite precedes_iff. simpl.
  apply not_true_iff_false in H1, H2. rewrite precedes_iff in H1. rewrite same_iff in H2.
  destruct (Z.lt_trichotomy k e.1) as [?|[->|?]]; [by left| |tauto]. right. split; [done|].
  apply compare_swap. destruct (Z.lt_trichotomy (c e.2 v) 0) as [?|[?|?]]; [tauto|tauto|lia].
Qed.

Lemma lt_not_same k v e : entry_lt c (k, v) e -> same k v e = false.
Proof.
  unfold entry_lt. intros H. apply not_true_iff_false. rewrite same_iff.
  apply precedes_iff in H. simpl in H. intros [? ?]. destruct H as [?|[_ H]]; [lia|].
  apply compare_swap in H. lia.
Qed.

Lemma before_not_same k v e : precedes c e.1 e.2 k v = true -> same k v e = false.
Proof.
  rewrite precedes_iff. intros H. apply not_true_iff_false. rewrite same_iff. intros [? ?]. lia.
Qed.

(** A sorted list is cut in two by a property of its smaller elements. *)
Lemma sorted_split (f : Z * V -> bool) es :
  StronglySorted (entry_lt c) es -> (forall e e', entry_lt c e e' -> f e' = true -> f e = true) ->
  exists es1 es2, es = es1 ++ es2 /\ Forall (fun e => f e = true) es1 /\
    Forall (fun e => f e = false) es2.
Proof.
  intros Hs Hf. induction Hs as [|e es _ IH Hall]; [by exists [], []|].
  destruct (f e) eqn:E.
  - destruct IH as (es1 & es2 & -> & H1 & H2). exists (e :: es1), es2. split_and!; [done|by constructor|done].
  - exists [], (e :: es). split_and!; [done|done|]. constructor; [done|].
    eapply Forall_impl; [exact Hall|]. intros e' He. apply not_true_iff_false. intros E'.
    rewrite (Hf _ _ He E') in E. done.
Qed.

(** The list cut at the place of [k] and [v]. *)
Record cut (k : Z) (v : V) (es es1 es2 : list (Z * V)) : Prop := {
  cut_app : es = es1 ++ es2;
  cut_lt : Forall (fun e => entry_lt c e (k, v)) es1;
  cut_ge : Forall (fun e => precedes c e.1 e.2 k v = false) es2;
  cut_rest : Forall (fun e => entry_lt c (k, v) e) (tail es2)
}.

Lemma cut_exists k v es :
  StronglySorted (entry_lt c) es -> exists es1 es2, cut k v es es1 es2.
Proof.
  intros Hs. destruct (sorted_split (fun e => precedes c e.1 e.2 k v) es Hs)
    as (es1 & es2 & -> & H1 & H2).
  { intros e e' He He'. apply (entry_lt_trans _ _ (k, v) He He'). }
  exists es1, es2. split; [done..|]. apply StronglySorted_app_1_r in Hs.
  destruct Hs as [|e es2 _ Hall]; [constructor|]. simpl. apply Forall_cons in H2 as [He _].
  eapply Forall_impl; [exact Hall|]. intros e' Hee. destruct (same k v e) eqn:Es.
  - by eapply same_lt.
  - eapply entry_lt_trans; [by apply not_before_lt|done].
Qed.

Definition is_same (k : Z) (v : V) (es2 : list (Z * V)) : bool :=
  match es2 with e :: _ => same k v e | [] => false end.

Lemma cut_insert k v es es1 es2 :
  cut k v es es1 es2 ->
  spec_insert k v es = es1 ++ (k, v) :: if is_same k v es2 then tail es2 else es2.
Proof.
  intros [-> H1 H2 _]. induction H1 as [|e es1 He _ IH]; simpl; [|unfold entry_lt in He; simpl in He; by rewrite He, IH].
  destruct es2 as [|e es2]; [done|]. apply Forall_cons in H2 as [H2 _]. simpl. rewrite H2.
  by destruct (same k v e).
Qed.

Lemma filter_none es1 k v :
  Forall (fun e => same k v e = false) es1 -> spec_delete k v es1 = es1.
Proof. induction 1 as [|e es He _ IH]; [done|]. unfold spec_delete in *. simpl. by rewrite He, IH. Qed.

Lemma cut_not_same k v es es1 es2 :
  cut k v es es1 es2 ->
  Forall (fun e => same k v e = false) es1 /\ Forall (fun e => same k v e = false) (tail es2).
Proof.
  intros [_ H1 _ H3]. split; (eapply Forall_impl; [eassumption|]); intros e He.
  - by apply before_not_same.
  - by apply lt_not_same.
Qed.

Lemma cut_delete k v es es1 es2 :
  cut k v es es1 es2 ->
  spec_delete k v es = es1 ++ if is_same k v es2 then tail es2 else es2.
Proof.
  intros Hc. destruct (cut_not_same _ _ _ _ _ Hc) as [H1 H2]. rewrite (cut_app _ _ _ _ _ Hc).
  unfold spec_delete in *. rewrite List.filter_app. fold (spec_delete k v es1).
  rewrite (filter_none _ _ _ H1). f_equal. destruct es2 as [|e es2]; [done|]. simpl in *.
  pose proof (filter_none _ _ _ H2) as E. unfold spec_delete in E. rewrite E.
  by destruct (same k v e).
Qed.

Lemma cut_lookup k v es es1 es2 :
  cut k v es es1 es2 ->
  spec_lookup k v es = if is_same k v es2 then snd <$> head es2 else None.
Proof.
  intros Hc. destruct (cut_not_same _ _ _ _ _ Hc) as [H1 H2]. rewrite (cut_app _ _ _ _ _ Hc).
  unfold spec_lookup. rewrite find_app, (find_none _ _ H1). destruct es2 as [|e es2]; [done|].
  simpl in *. destruct (same k v e); [done|]. by rewrite (find_none _ _ H2).
Qed.

(** Insertion and deletion keep the list sorted. *)
Lemma sorted_insert k v es :
  StronglySorted (entry_lt c) es -> StronglySorted (entry_lt c) (spec_insert k v es).
Proof.
  intros Hs. destruct (cut_exists k v es Hs) as (es1 & es2 & Hc). rewrite (cut_insert _ _ _ _ _ Hc).
  destruct Hc as [-> H1 H2 H3]. apply StronglySorted_app in Hs as (H12 & Hs1 & Hs2).
  rewrite Forall_forall in H1. apply StronglySorted_app_2; [|done|].
  - intros e e' He He'. apply elem_of_cons in He' as [->|He']; [by apply H1|]. apply H12; [done|].
    destruct (is_same k v es2), es2; try done. by right.
  - destruct es2 as [|e es2]; [by repeat constructor|]. simpl in *.
    apply Forall_cons in H2 as [He _]. pose proof Hs2 as Hs2'. inversion Hs2' as [|? ? Hs3 Hall]; subst.
    destruct (same k v e) eqn:E; constructor; try done. constructor; [|done].
    by apply not_before_lt.
Qed.

Lemma sorted_delete k v es :
  StronglySorted (entry_lt c) es -> StronglySorted (entry_lt c) (spec_delete k v es).
Proof.
  unfold spec_delete. induction 1 as [|e es _ IH Hall]; [constructor|]. simpl.
  destruct (negb (same k v e)); [|done]. constructor; [done|]. rewrite Forall_forall in *.
  intros e' He'. apply Hall. apply list_elem_of_In, List.filter_In in He' as [He' _].
  by apply list_elem_of_In.
Qed.

(** The elements after each operation. *)
Lemma elem_of_insert k v es e :
  StronglySorted (entry_lt c) es ->
  e ∈ spec_insert k v es <-> e = (k, v) \/ e ∈ es /\ same k v e = false.
Proof.
  intros Hs. destruct (cut_exists k v es Hs) as (es1 & es2 & Hc).
  destruct (cut_not_same _ _ _ _ _ Hc) as [H1 H2]. rewrite (cut_insert _ _ _ _ _ Hc).
  rewrite (cut_app _ _ _ _ _ Hc). rewrite Forall_forall in H1, H2.
  destruct es2 as [|e2 es2]; simpl in *; rewrite !elem_of_app, !elem_of_cons.
  - rewrite elem_of_nil. naive_solver.
  - destruct (same k v e2) eqn:E2; rewrite ?elem_of_cons;
      split; intuition (subst; eauto; congruence).
Qed.

Lemma elem_of_delete k v es e : e ∈ spec_delete k v es <-> e ∈ es /\ same k v e = false.
Proof.
  unfold spec_delete. rewrite !list_elem_of_In, List.filter_In, negb_true_iff. done.
Qed.

Lemma insert_filter (f : Z * V -> bool) k v es :
  StronglySorted (entry_lt c) es -> f (k, v) = false -> (forall e, e ∈ es -> same k v e = false) ->
  List.filter f (spec_insert k v es) = List.filter f es /\
  length (spec_insert k v es) = S (length es).
Proof.
  intros Hs Hf Hn. destruct (cut_exists k v es Hs) as (es1 & es2 & Hc).
  rewrite (cut_insert _ _ _ _ _ Hc). pose proof (cut_app _ _ _ _ _ Hc) as ->.
  assert (is_same k v es2 = false) as ->.
  { destruct es2 as [|e es2]; [done|]. apply Hn, elem_of_app. right. left. }
  rewrite !List.filter_app, !length_app. simpl. rewrite Hf. split; [done|lia].
Qed.

Lemma lookup_elem k v es :
  match spec_lookup k v es with
  | Some w => exists e, e ∈ es /\ same k v e = true /\ e.2 = w
  | None => forall e, e ∈ es -> same k v e = false
  end.
Proof.
  unfold spec_lookup. pose proof (find_split (same k v) es) as H.
  destruct (List.find (same k v) es) as [e|]; simpl.
  - destruct H as (a1 & a2 & -> & He & _). exists e. split; [|done]. apply elem_of_app. right. left.
  - intros e He. rewrite Forall_forall in H. by apply H.
Qed.

(** The entry that the cyclic search finds, which stays the same when others leave. *)
Definition cycle_entry (k : Z) (es : list (Z * V)) : option (Z * V) :=
  match List.find (fun e => k <=? e.1) es with Some e => Some e | None => head es end.

Lemma cycle_entry_value k es : spec_cycle k es = snd <$> cycle_entry k es.
Proof. unfold spec_cycle, cycle_entry. by destruct (List.find _ es). Qed.

Lemma cycle_entry_elem k es e : cycle_entry k es = Some e -> e ∈ es.
Proof.
  unfold cycle_entry. pose proof (find_split (fun e => k <=? e.1) es) as H.
  destruct (List.find _ es) as [e'|].
  - intros [= ->]. destruct H as (a1 & a2 & -> & _). apply elem_of_app. right. left.
  - destruct es; [done|]. intros [= ->]. left.
Qed.

Lemma find_filter {A} (p f : A -> bool) l x :
  List.find p l = Some x -> f x = true -> List.find p (List.filter f l) = Some x.
Proof.
  induction l as [|y l IH]; simpl; [done|]. destruct (p y) eqn:Ep.
  - intros [= ->] Hf. rewrite Hf. simpl. by rewrite Ep.
  - intros Hx Hf. destruct (f y); simpl; [rewrite Ep|]; by apply IH.
Qed.

Lemma cycle_entry_filter (f : Z * V -> bool) k es e :
  cycle_entry k es = Some e -> f e = true -> cycle_entry k (List.filter f es) = Some e.
Proof.
  unfold cycle_entry. pose proof (find_split (fun e => k <=? e.1) es) as H.
  destruct (List.find (fun e => k <=? e.1) es) as [e'|] eqn:E.
  - intros [= ->] Hf. by rewrite (find_filter _ f _ _ E Hf).
  - destruct es as [|e0 es]; [done|]. intros [= ->] Hf. simpl. rewrite Hf.
    rewrite find_none; [done|]. apply Forall_cons in H as [He H]. constructor; [done|].
    rewrite Forall_forall in *. intros x Hx. apply H.
    apply list_elem_of_In, List.filter_In in Hx as [Hx _]. by apply list_elem_of_In.
Qed.

End Spec.

(** * The operations refine the sorted list *)

Section Refine.
Context {V : Type}.
Implicit Types (l : T_KRSkipList (V:=V)) (ps : list (anode (V:=V))) (s : store (V:=V))
  (y : anode (V:=V)) (P : anode (V:=V) -> bool).

Lemma nodes_regular lv ps (es : list (Z * V)) : Forall2 (node_of lv) ps es -> Forall regular ps.
Proof. induction 1 as [|n e ps es (_ & _ & H1 & H2 & _) _ IH]; constructor; [|done]. split; [done|lia]. Qed.

Lemma regular_vis_0 (n : anode (V:=V)) : regular n -> vis 0 n = true.
Proof. intros [H1 H2]. unfold vis. rewrite H1. simpl. by apply Nat.ltb_lt. Qed.

Lemma regular_next_0 (ps : list (anode (V:=V))) : Forall regular ps -> next_at 0 ps = a_ptr <$> head ps.
Proof. destruct 1 as [|n ps Hn _]; [done|]. by rewrite next_here by by apply regular_vis_0. Qed.

Lemma hdr_vis (l : T_KRSkipList (V:=V)) i : (i < ZSKIPLIST_MAXLEVEL)%nat -> vis i (hdr l) = true.
Proof. intros H. unfold vis. simpl. by apply Nat.ltb_lt. Qed.

Lemma splits_nodes lv ps1 ps2 (es1 es2 : list (Z * V)) (P : anode -> bool) (f : Z * V -> bool) :
  (forall n e, node_of lv n e -> P n = f e) ->
  Forall2 (node_of lv) ps1 es1 -> Forall2 (node_of lv) ps2 es2 ->
  Forall (fun e => f e = true) es1 -> Forall (fun e => f e = false) es2 -> splits P ps1 ps2.
Proof.
  intros HP H1 H2 Hf1 Hf2.
  assert (H : forall b ps es, Forall2 (node_of lv) ps es -> Forall (fun e => f e = b) es ->
    Forall (fun n => a_val n <> None /\ P n = b) ps).
  { induction 1 as [|n e ps es Hn _ IH]; intros Hf; constructor; apply Forall_cons in Hf as [He Hf].
    - rewrite (HP _ _ Hn). split; [|done]. destruct Hn as (_ & -> & _). done.
    - by apply IH. }
  split; by eapply H.
Qed.

(** The searches from the header. *)
Lemma search_spec before P s (l : T_KRSkipList (V:=V)) ps1 ps2 es :
  (forall n fw, a_val n <> None -> before (mkNode (a_key n) (a_val n) fw) = Ok (P n)) ->
  skip_rep s l (ps1 ++ ps2) es -> splits P ps1 ps2 ->
  exists (y : anode (V:=V)) update,
    descend (Z.to_nat (length_ l)) before (level l) (header l) (replicate ZSKIPLIST_MAXLEVEL None) s
      = Ok (a_ptr y, update, s) /\
    forward_at (a_ptr y) 0 s = Ok (a_ptr <$> head ps2, s) /\
    length update = ZSKIPLIST_MAXLEVEL /\
    (forall j, (j < level l)%nat ->
       exists u, is_last j (hdr l :: ps1) u /\ update !! j = Some (Some (a_ptr u))).
Proof.
  intros Hb [Hseg _ _ _ Hlen Hlv Hn _] Hsp. pose proof (nodes_regular _ _ _ Hn) as Hreg.
  apply Forall_app in Hreg as [Hreg1 Hreg2].
  assert (Hl : length es = (length ps1 + length ps2)%nat).
  { rewrite <- (Forall2_length _ _ _ Hn), length_app. done. }
  destruct (descend_spec before P Hb s ps2 (Z.to_nat (length_ l)) (hdr l :: ps1) (level l) (hdr l) [] ps1
    (replicate ZSKIPLIST_MAXLEVEL None)) as (y & update & E & H1 & H2 & _ & H3); try done.
  - intros i' Hi. apply hdr_vis. unfold ZSKIPLIST_MAXLEVEL in *. lia.
  - constructor; [|done]. split; [done|]. simpl. unfold ZSKIPLIST_MAXLEVEL. lia.
  - simpl. lia.
  - rewrite length_replicate. lia.
  - exists y, update. rewrite length_replicate in H1. split_and!; try done.
    destruct (level l) as [|lv]; [lia|]. destruct H3 as (a & c & Ha & Hy & Hc).
    assert (Hok : node_ok (nodes s) y (c ++ ps2)).
    { change (hdr l :: ps1 ++ ps2) with ((hdr l :: ps1) ++ ps2) in Hseg.
      rewrite Ha, <- (assoc_L (++)) in Hseg. by apply seg_in in Hseg. }
    rewrite (forward_at_ok _ _ _ _ Hok Hy), next_skip, regular_next_0 by done. done.
Qed.

(** The nodes cut at the place of an entry. *)
Definition entry_before (c : V -> V -> Z) (k : Z) (v : V) (n : anode) : bool :=
  match a_val n with Some w => precedes c (a_key n) w k v | None => false end.

Lemma node_before_ok (l : T_KRSkipList (V:=V)) k v n fw :
  a_val n <> None ->
  node_before l k v (mkNode (a_key n) (a_val n) fw) = Ok (entry_before (compare_func l) k v n).
Proof.
  intros Hn. unfold node_before, entry_before, precedes. simpl.
  destruct (a_val n); [|done]. destruct (a_key n <? k); [done|]. by destruct (a_key n =? k).
Qed.

Lemma lookup_internal_spec s (l : T_KRSkipList (V:=V)) ps1 ps2 es k v es1 es2 :
  skip_rep s l (ps1 ++ ps2) es -> cut (compare_func l) k v es es1 es2 ->
  Forall2 (node_of (level l)) ps1 es1 -> Forall2 (node_of (level l)) ps2 es2 ->
  exists update, kr_skiplist_lookup_internal l k v s = Ok (a_ptr <$> head ps2, update, s) /\
    length update = ZSKIPLIST_MAXLEVEL /\
    (forall j, (j < level l)%nat ->
       exists u, is_last j (hdr l :: ps1) u /\ update !! j = Some (Some (a_ptr u))).
Proof.
  intros Hrep [_ Hlt Hge _] Hn1 Hn2.
  destruct (search_spec (node_before l k v) (entry_before (compare_func l) k v) s l ps1 ps2 es)
    as (y & update & E & Ef & H1 & H2); [by apply node_before_ok|done| |].
  { apply (splits_nodes (level l) _ _ es1 es2 _ (fun e => precedes (compare_func l) e.1 e.2 k v));
      [|done..]. intros n e (Hk & Hv & _). unfold entry_before. by rewrite Hv, Hk. }
  exists update. unfold kr_skiplist_lookup_internal, mbind, M_bind. rewrite E, Ef. done.
Qed.

Lemma is_found_spec s (l : T_KRSkipList (V:=V)) ps1 ps2 es k v es2 :
  skip_rep s l (ps1 ++ ps2) es -> Forall2 (node_of (level l)) ps2 es2 ->
  is_found l k v (a_ptr <$> head ps2) s = Ok (is_same (compare_func l) k v es2, s).
Proof.
  intros [[_ Hseg] _ _ _ _ _ _ _] Hn. apply seg_app in Hseg.
  destruct Hn as [|n e ps2 es2 (Hk & Hv & _) _]; [done|]. simpl.
  destruct Hseg as [Hok _]. unfold mbind, M_bind.
  destruct (read_node_ok _ _ _ Hok) as [fw ->]. simpl. unfold same. rewrite Hk, Hv.
  by destruct (k =? e.1).
Qed.

(** The cut of the list with the nodes of its two parts. *)
Lemma rep_cut s (l : T_KRSkipList (V:=V)) ps es k v :
  Comparison (compare_func l) -> skip_rep s l ps es ->
  exists es1 es2 ps1 ps2, cut (compare_func l) k v es es1 es2 /\ ps = ps1 ++ ps2 /\
    Forall2 (node_of (level l)) ps1 es1 /\ Forall2 (node_of (level l)) ps2 es2.
Proof.
  intros Hc Hrep. destruct (cut_exists (compare_func l) k v es (rep_sorted _ _ _ _ Hrep))
    as (es1 & es2 & Hcut). pose proof (rep_nodes _ _ _ _ Hrep) as Hn.
  rewrite (cut_app _ _ _ _ _ _ Hcut) in Hn. apply Forall2_app_inv_r in Hn as (ps1 & ps2 & ? & ? & ->).
  by exists es1, es2, ps1, ps2.
Qed.

Lemma skip_lookup_spec s (l : T_KRSkipList (V:=V)) ps es k v :
  Comparison (compare_func l) -> skip_rep s l ps es ->
  kr_skiplist_lookup l k v s = Ok (spec_lookup (compare_func l) k v es, s).
Proof.
  intros Hc Hrep. destruct (rep_cut s l ps es k v Hc Hrep) as (es1 & es2 & ps1 & ps2 & Hcut & -> & Hn1 & Hn2).
  destruct (lookup_internal_spec _ _ _ _ _ _ _ _ _ Hrep Hcut Hn1 Hn2) as (update & E & _).
  unfold kr_skiplist_lookup, mbind, M_bind. rewrite E, (is_found_spec _ _ _ _ _ _ _ _ Hrep Hn2).
  rewrite (cut_lookup _ _ _ _ _ _ Hcut). destruct Hn2 as [|n e ps2 es2 Hn Hn2]; [done|]. simpl.
  destruct (same _ k v e); [|done]. destruct (rep_seg _ _ _ _ Hrep) as [_ Hseg].
  apply seg_app in Hseg as [Hok _]. destruct (read_node_ok _ _ _ Hok) as [fw ->]. simpl.
  by destruct Hn as (_ & -> & _).
Qed.

(** ** Insertion *)

Lemma random_level_bounds random time k :
  (1 <= kr_skiplist_random_level random time k <= ZSKIPLIST_MAXLEVEL)%nat.
Proof.
  unfold kr_skiplist_random_level. generalize (random (u32 (time + k))) as r. intros r.
  assert (H : forall fuel lv, (1 <= lv <= ZSKIPLIST_MAXLEVEL)%nat ->
    (1 <= random_loop fuel r lv <= ZSKIPLIST_MAXLEVEL)%nat).
  { induction fuel as [|fuel IH]; intros lv Hlv; [done|]. simpl. destruct (_ && _) eqn:E; [|done].
    apply andb_true_iff in E as [E _]. apply Nat.ltb_lt in E. apply IH. lia. }
  apply H. unfold ZSKIPLIST_MAXLEVEL. lia.
Qed.

Lemma fill_header_spec h : forall n i update,
  length (fill_header update h i n) = length update /\
  forall j, (j < length update)%nat -> fill_header update h i n !! j =
    if decide (i <= j < i + n)%nat then Some (Some h) else update !! j.
Proof.
  induction n as [|n IH]; intros i update; simpl.
  { split; [done|]. intros j _. by rewrite decide_False by lia. }
  destruct (IH (S i) (<[i := Some h]> update)) as [Hl Hj]. rewrite length_insert in *.
  split; [done|]. intros j Hlt. rewrite Hj by done. destruct (decide (j = i)) as [->|Hne].
  - rewrite decide_False, decide_True by lia. by apply list_lookup_insert_eq.
  - rewrite list_lookup_insert_ne by done. repeat case_decide; done || lia.
Qed.

(** The value of a node changes. *)
Lemma seg_value m p k w w' lo hi al fw g : forall a,
  seg m (a ++ mkA p k w lo hi al :: g) -> NoDup (ptrs (a ++ mkA p k w lo hi al :: g)) ->
  m !! p = Some (mkNode k w fw) ->
  seg (<[p := mkNode (V:=V) k w' fw]> m) (a ++ mkA p k w' lo hi al :: g).
Proof.
  induction a as [|n a IH]; simpl; intros [Hok Hseg] Hnd Hm; apply NoDup_cons in Hnd as [Hn Hnd].
  - split; [|by apply seg_frame]. destruct Hok as (fw' & Hm' & Hl & Hf). simpl in *.
    rewrite Hm in Hm'. injection Hm' as <-. exists fw. simpl. by rewrite lookup_insert_eq.
  - split; [|by apply IH]. apply node_frame.
    + intros Heq. apply Hn. rewrite <- Heq. unfold ptrs. rewrite fmap_app. set_solver.
    + eapply node_ok_next; [exact Hok|]. intros i _. by apply next_change.
Qed.

Lemma node_of_level lv lv' n (e : Z * V) : (lv <= lv')%nat -> node_of lv n e -> node_of lv' n e.
Proof. intros Hl (? & ? & ? & ? & ?). split_and!; try done; lia. Qed.

Lemma create_node_spec s lv k (v : option V) :
  exists p, p ∉ dom (nodes s) /\
    kr_skiplist_create_node lv k v s = Ok (p,
      mkStore (<[p := mkNode k v (replicate (3 * lv) None)]> (nodes s)) (arrays s + 1)).
Proof. exists (fresh (dom (nodes s))). split; [apply is_fresh|done]. Qed.

(** The list with a node more, before its levels are linked. *)
Lemma seg_create s p k (v : V) lv (L G : list anode) :
  seg (nodes s) (L ++ G) -> p ∉ ptrs (L ++ G) ->
  seg (<[p := mkNode k (Some v) (replicate (3 * lv) None)]> (nodes s))
      (L ++ at_levels (mkA p k (Some v) 0 lv (3 * lv)) 0 0 :: G).
Proof.
  intros Hseg Hp. apply seg_hidden; [|..].
  - intros i. rewrite vis_levels. apply andb_false_iff. right. by apply Nat.ltb_ge; lia.
  - exists (replicate (3 * lv) None). simpl. rewrite lookup_insert_eq. split_and!; [done|apply length_replicate|].
    intros i Hi. rewrite vis_levels in Hi. apply andb_true_iff in Hi as [_ Hi].
    apply Nat.ltb_lt in Hi. lia.
  - by apply seg_frame.
Qed.

Lemma found_head l ps2 es2 k v :
  Forall2 (node_of (level l)) ps2 es2 -> is_same (compare_func l) k v es2 = true ->
  exists n e ps3 es3, ps2 = n :: ps3 /\ es2 = e :: es3 /\ node_of (level l) n e /\
    Forall2 (node_of (level l)) ps3 es3 /\ e.1 = k.
Proof.
  intros [|n e ps3 es3 Hn Hns]; [done|]. simpl. rewrite same_iff. intros [He _].
  exists n, e, ps3, es3. by split_and!.
Qed.

(** [kr_skiplist_insert] on a value that is in the list. *)
Lemma insert_found s l ps1 n ps3 es1 e es3 k v :
  Comparison (compare_func l) ->
  skip_rep s l (ps1 ++ n :: ps3) (es1 ++ e :: es3) ->
  Forall2 (node_of (level l)) ps1 es1 -> node_of (level l) n e ->
  Forall2 (node_of (level l)) ps3 es3 -> e.1 = k ->
  StronglySorted (entry_lt (compare_func l)) (es1 ++ (k, v) :: es3) ->
  exists fw, read_node (a_ptr n) s = Ok (mkNode k (Some e.2) fw, s) /\
    skip_rep (mkStore (<[a_ptr n := mkNode k (Some v) fw]> (nodes s)) (arrays s)) l
      (ps1 ++ mkA (a_ptr n) k (Some v) (a_lo n) (a_hi n) (a_alloc n) :: ps3) (es1 ++ (k, v) :: es3).
Proof.
  intros Hc [Hseg Hnd Hdom Harr Hlen Hlv Hn Hs] Hn1 Hne Hn3 He Hs'.
  change (hdr l :: ps1 ++ n :: ps3) with ((hdr l :: ps1) ++ n :: ps3) in Hseg.
  pose proof (seg_in _ _ _ _ Hseg) as (fw & Hfw & _). pose proof Hne as (Hk & Hv & Hrest).
  rewrite Hk, Hv, He in Hfw. exists fw. split; [unfold read_node; by rewrite Hfw|].
  destruct n as [p kn vn lo hi al]. cbn [a_ptr a_key a_val a_lo a_hi a_alloc] in *. subst kn vn k.
  constructor; cbn [nodes arrays]; try done.
  - by apply (seg_value _ p e.1 (Some e.2) (Some v) lo hi al fw ps3 (hdr l :: ps1)).
  - rewrite (ptrs_change _ ps1 _ (mkA p e.1 (Some e.2) lo hi al)); done.
  - rewrite dom_insert_L, Hdom, (ptrs_change _ ps1 _ (mkA p e.1 (Some v) lo hi al)) by done.
    apply subseteq_union_1_L, singleton_subseteq_l, elem_of_list_to_set.
    rewrite ptrs_middle. by left.
  - rewrite Harr, !length_app. done.
  - rewrite Hlen, !length_app. done.
  - apply Forall2_app; [done|]. by constructor.
Qed.

(** [kr_skiplist_insert] of a new value: the node is made and linked. *)
Lemma insert_new s l ps1 ps2 es es1 es2 k v lv update :
  skip_rep s l (ps1 ++ ps2) es -> es = es1 ++ es2 ->
  Forall2 (node_of (level l)) ps1 es1 -> Forall2 (node_of (level l)) ps2 es2 ->
  StronglySorted (entry_lt (compare_func l)) (es1 ++ (k, v) :: es2) ->
  (1 <= lv <= ZSKIPLIST_MAXLEVEL)%nat -> Z.of_nat (length es) < UINT_MAX ->
  (forall i, (i < lv)%nat ->
     exists u, is_last i (hdr l :: ps1) u /\ update !! i = Some (Some (a_ptr u))) ->
  exists p n s', (x ← kr_skiplist_create_node lv k (Some v);
                  link_loop x update 0 lv;; mret x) s = Ok (p, s') /\
    skip_rep s' (mkList (header l) (u32 (length_ l + 1)) (Nat.max lv (level l)) (compare_func l))
      (ps1 ++ n :: ps2) (es1 ++ (k, v) :: es2).
Proof.
  intros [Hseg Hnd Hdom Harr Hlen Hlv Hn Hs] -> Hn1 Hn2 Hs' Hlv' Hmax Hup.
  destruct (create_node_spec s lv k (Some v)) as (p & Hp & Ec).
  set (n := mkA p k (Some v) 0 lv (3 * lv)). set (s1 := mkStore _ _) in Ec.
  assert (Hp' : p ∉ ptrs (hdr l :: ps1 ++ ps2)).
  { rewrite Hdom in Hp. by rewrite elem_of_list_to_set in Hp. }
  pose proof (seg_create s p k v lv (hdr l :: ps1) ps2 Hseg Hp') as Hseg1. fold n in Hseg1.
  assert (Hnd1 : NoDup (ptrs ((hdr l :: ps1) ++ n :: ps2))).
  { change (NoDup (ptrs (hdr l :: ps1 ++ n :: ps2))). rewrite ptrs_middle. by constructor. }
  destruct (link_loop_spec (hdr l :: ps1) n ps2 update lv 0 s1 Hseg1 Hnd1) as (s2 & El & Hseg2 & Hd & Ha);
    [simpl; lia|done|].
  exists p, n, s2. split.
  { unfold mbind, M_bind. rewrite Ec. simpl in El. by rewrite El. }
  constructor; cbn [header length_ level compare_func]; try done.
  - change (dom (nodes s2) = list_to_set (ptrs (hdr l :: ps1 ++ n :: ps2))). rewrite Hd. unfold s1. cbn [nodes].
    rewrite dom_insert_L, Hdom. apply set_eq. intros q.
    rewrite elem_of_union, elem_of_singleton, !elem_of_list_to_set, ptrs_middle, elem_of_cons. done.
  - rewrite Ha. simpl. rewrite Harr, !length_app. simpl. lia.
  - rewrite Hlen, !length_app in *. simpl in *. rewrite u32_small by lia. lia.
  - simpl in *. lia.
  - assert (Hmono : forall qs fs, Forall2 (node_of (level l)) qs fs ->
      Forall2 (node_of (V:=V) (Nat.max lv (level l))) qs fs).
    { intros qs fs Hq. eapply Forall2_impl; [exact Hq|]. intros a b. apply node_of_level. lia. }
    apply Forall2_app; [by apply Hmono|]. constructor; [|by apply Hmono].
    split_and!; simpl; try done; lia.
Qed.

Lemma skip_insert_spec random time s l ps es k v :
  Comparison (compare_func l) -> skip_rep s l ps es -> Z.of_nat (length es) < UINT_MAX ->
  exists p l' s' ps', kr_skiplist_insert random time l k v s = Ok (Some p, l', s') /\
    skip_rep s' l' ps' (spec_insert (compare_func l) k v es) /\
    compare_func l' = compare_func l.
Proof.
  intros Hc Hrep Hmax.
  destruct (rep_cut s l ps es k v Hc Hrep) as (es1 & es2 & ps1 & ps2 & Hcut & -> & Hn1 & Hn2).
  destruct (lookup_internal_spec _ _ _ _ _ _ _ _ _ Hrep Hcut Hn1 Hn2) as (update & E & Hul & Hup).
  pose proof (sorted_insert (compare_func l) k v es (rep_sorted _ _ _ _ Hrep)) as Hs'.
  rewrite (cut_insert _ _ _ _ _ _ Hcut) in *. unfold kr_skiplist_insert.
  unfold mbind at 1, M_bind at 1. rewrite E. unfold mbind at 1, M_bind at 1.
  rewrite (is_found_spec _ _ _ _ _ _ _ _ Hrep Hn2).
  destruct (is_same (compare_func l) k v es2) eqn:Hsame.
  - destruct (found_head _ _ _ _ _ Hn2 Hsame) as (n & e & ps3 & es3 & -> & -> & Hne & Hn3 & He).
    pose proof Hrep as Hrep'. rewrite (cut_app _ _ _ _ _ _ Hcut) in Hrep'.
    destruct (insert_found s l ps1 n ps3 es1 e es3 k v Hc Hrep' Hn1 Hne Hn3 He Hs')
      as (fw & Er & Hr). simpl. unfold mbind, M_bind. rewrite Er. unfold write_node.
    unfold read_node in Er. destruct (nodes s !! a_ptr n); [|done].
    eexists _, _, _, _. split; [done|]. by split.
  - pose proof (random_level_bounds random time k) as Hb.
    set (lv := kr_skiplist_random_level random time k) in *.
    set (update' := if (level l <? lv)%nat
      then fill_header update (header l) (level l) (lv - level l) else update).
    destruct (insert_new s l ps1 ps2 es es1 es2 k v lv update' Hrep (cut_app _ _ _ _ _ _ Hcut)
      Hn1 Hn2 Hs' Hb Hmax) as (p & n & s' & El & Hr).
    { intros i Hi. unfold update'. destruct (level l <? lv)%nat eqn:Hlt.
      - apply Nat.ltb_lt in Hlt.
        destruct (fill_header_spec (header l) (lv - level l) (level l) update) as [_ Hfill].
        rewrite Hfill by lia. case_decide; [|apply Hup; lia].
        exists (hdr l). split; [|done]. exists [], ps1. split_and!; [done|apply hdr_vis; lia|].
        eapply Forall2_Forall_l; [exact Hn1|]. apply Forall_true. intros e n' (_ & _ & _ & Hh & _).
        unfold vis. apply andb_false_iff. right. apply Nat.ltb_ge. lia.
      - apply Nat.ltb_ge in Hlt. apply Hup. lia. }
    exists p, (mkList (header l) (u32 (length_ l + 1)) (Nat.max lv (level l)) (compare_func l)), s', (ps1 ++ n :: ps2).
    split_and!; [|done|done]. unfold mbind, M_bind in *.
    assert (Hmx : (if (level l <? lv)%nat then lv else level l) = Nat.max lv (level l)).
    { destruct (level l <? lv)%nat eqn:Hlt; [apply Nat.ltb_lt in Hlt|apply Nat.ltb_ge in Hlt]; lia. }
    rewrite <- Hmx. unfold update' in El. destruct (level l <? lv)%nat;
      (destruct (kr_skiplist_create_node lv k (Some v) s) as [[x s1]|]; [|done]);
      (destruct (link_loop x _ 0 lv s1) as [[[] s2]|]; [|done]); by injection El as -> ->.
Qed.

(** ** Deletion *)

Lemma lower_level_spec s h ps : forall lv,
  (forall i, (i < lv)%nat -> forward_at h i s = Ok (next_at i ps, s)) ->
  Forall (fun n => a_lo n = 0%nat /\ (a_hi n <= lv)%nat) ps -> (1 <= lv)%nat ->
  exists lv', lower_level h lv s = Ok (lv', s) /\ (1 <= lv' <= lv)%nat /\
    Forall (fun n => (a_hi n <= lv')%nat) ps.
Proof.
  induction lv as [|[|lv] IH]; intros Hf Hps H1; [lia| |].
  { exists 1%nat. split_and!; try done. eapply Forall_impl; [exact Hps|]. by intros n [_ ?]. }
  simpl. unfold mbind at 1, M_bind at 1. rewrite Hf by lia. unfold next_at.
  pose proof (find_split (vis (S lv)) ps) as Hfind. destruct (List.find (vis (S lv)) ps) as [n|]; simpl.
  - exists (S (S lv)). split_and!; try done. eapply Forall_impl; [exact Hps|]. by intros ? [_ ?].
  - destruct IH as (lv' & E & Hlv & Hps'); [intros i Hi; apply Hf; lia| |lia|].
    + apply Forall_forall. intros n Hn. rewrite Forall_forall in Hps, Hfind.
      destruct (Hps n Hn) as [Hlo Hhi]. split; [done|]. specialize (Hfind n Hn).
      unfold vis in Hfind. rewrite Hlo in Hfind. simpl in Hfind. apply Nat.ltb_ge in Hfind. lia.
    + exists lv'. split_and!; [done|lia..|done].
Qed.

Lemma nodes_lower lv lv' ps (es : list (Z * V)) :
  Forall2 (node_of lv) ps es -> Forall (fun n => (a_hi n <= lv')%nat) ps ->
  Forall2 (node_of lv') ps es.
Proof.
  induction 1 as [|n e ps es Hn _ IH]; intros Hps; [done|]. apply Forall_cons in Hps as [Hh Hps].
  constructor; [|by apply IH]. destruct Hn as (? & ? & ? & ? & ?). split_and!; try done; lia.
Qed.

(** The node [n] is unlinked, freed, and the level lowered. *)
Lemma delete_found s l ps1 n ps3 es1 e es3 update :
  skip_rep s l (ps1 ++ n :: ps3) (es1 ++ e :: es3) ->
  Forall2 (node_of (level l)) ps1 es1 -> node_of (level l) n e ->
  Forall2 (node_of (level l)) ps3 es3 ->
  StronglySorted (entry_lt (compare_func l)) (es1 ++ es3) ->
  Z.of_nat (length (es1 ++ e :: es3)) <= UINT_MAX ->
  (forall i, (i < level l)%nat ->
     exists u, is_last i (hdr l :: ps1) u /\ update !! i = Some (Some (a_ptr u))) ->
  exists lv s', (unlink_loop (a_ptr n) update 0 (level l);; kr_skiplist_free_node (a_ptr n);;
                 lower_level (header l) (level l)) s = Ok (lv, s') /\
    skip_rep s' (mkList (header l) (u32 (length_ l - 1)) lv (compare_func l))
      (ps1 ++ ps3) (es1 ++ es3).
Proof.
  intros [Hseg Hnd Hdom Harr Hlen Hlv Hn Hs] Hn1 Hne Hn3 Hs' Hmax Hup.
  change (hdr l :: ps1 ++ n :: ps3) with ((hdr l :: ps1) ++ n :: ps3) in Hseg.
  pose proof Hne as (_ & _ & Hlo & Hhi & _).
  assert (Hn0 : at_levels n 0 (a_hi n) = n) by (destruct n; simpl in *; by subst).
  rewrite <- Hn0 in Hseg.
  destruct (unlink_loop_spec (hdr l :: ps1) n ps3 (a_hi n) update (level l) 0 s Hseg Hnd Hup)
    as (s1 & Eu & Hseg1 & Hd1 & Ha1).
  set (x := at_levels n (0 + level l) (a_hi n)) in *.
  assert (Hx : forall i, vis i x = false).
  { intros i. unfold x. rewrite vis_levels. destruct (i <? a_hi n)%nat eqn:Hi; [|by apply andb_false_r].
    apply Nat.ltb_lt in Hi. apply andb_false_iff. left. apply Nat.leb_gt. lia. }
  apply seg_hidden in Hseg1; [|done|by apply seg_in in Hseg1].
  pose proof Hnd as Hnd2. rewrite ptrs_middle in Hnd2. apply NoDup_cons in Hnd2 as [Hnin Hnd2].
  pose proof (seg_delete _ _ (a_ptr n) Hnin Hseg1) as Hseg2.
  assert (Hin : a_ptr n ∈ dom (nodes s1)).
  { rewrite Hd1, Hdom. apply elem_of_list_to_set. rewrite ptrs_middle. by left. }
  set (s2 := mkStore (delete (a_ptr n) (nodes s1)) (arrays s1 - 1)).
  assert (Ef : kr_skiplist_free_node (a_ptr n) s1 = Ok (tt, s2)).
  { unfold kr_skiplist_free_node. apply elem_of_dom in Hin as [? ->]. done. }
  pose proof (Forall2_app Hn1 Hn3) as Hn13.
  destruct (lower_level_spec s2 (header l) (ps1 ++ ps3) (level l)) as (lv & El & Hlv' & Hhi').
  { intros i Hi. destruct Hseg2 as [Hok _].
    apply (forward_at_ok s2 (hdr l) (ps1 ++ ps3) i Hok). apply hdr_vis. lia. }
  { eapply Forall2_Forall_l; [exact Hn13|]. apply Forall_true. intros ? ? (_ & _ & ? & ? & _). split; [done|lia]. }
  { lia. }
  exists lv, s2. split.
  { unfold mbind, M_bind. rewrite Eu, Ef. done. }
  constructor; cbn [header length_ level compare_func]; try done.
  - change (dom (nodes s2) = list_to_set (ptrs (hdr l :: ps1 ++ ps3))). unfold s2. cbn [nodes].
    rewrite dom_delete_L, Hd1, Hdom. apply set_eq. intros q.
    rewrite elem_of_difference, elem_of_singleton, !elem_of_list_to_set, ptrs_middle, elem_of_cons.
    split; [tauto|]. intros Hq. split; [by right|]. by intros ->.
  - unfold s2. cbn [arrays]. rewrite Ha1, Harr, !length_app. simpl. lia.
  - rewrite Hlen, !length_app in *. simpl in *. rewrite u32_small by lia. lia.
  - lia.
  - by apply (nodes_lower (level l)).
Qed.

Lemma skip_delete_spec s l ps es k v :
  Comparison (compare_func l) -> skip_rep s l ps es -> Z.of_nat (length es) <= UINT_MAX ->
  exists l' s' ps', kr_skiplist_delete l k v s =
      Ok (if existsb (same (compare_func l) k v) es then 0 else -1, l', s') /\
    skip_rep s' l' ps' (spec_delete (compare_func l) k v es) /\ compare_func l' = compare_func l.
Proof.
  intros Hc Hrep Hmax.
  destruct (rep_cut s l ps es k v Hc Hrep) as (es1 & es2 & ps1 & ps2 & Hcut & -> & Hn1 & Hn2).
  destruct (lookup_internal_spec _ _ _ _ _ _ _ _ _ Hrep Hcut Hn1 Hn2) as (update & E & _ & Hup).
  pose proof (sorted_delete (compare_func l) k v es (rep_sorted _ _ _ _ Hrep)) as Hs'.
  assert (Hex : existsb (same (compare_func l) k v) es = is_same (compare_func l) k v es2).
  { destruct (cut_not_same _ _ _ _ _ _ Hcut) as [H1 H2]. rewrite (cut_app _ _ _ _ _ _ Hcut).
    rewrite existsb_app, (proj2 (existsb_false _ _)) by done. simpl.
    destruct es2 as [|e es2]; [done|]. simpl in *. rewrite (proj2 (existsb_false _ _)) by done.
    apply orb_false_r. }
  rewrite (cut_delete _ _ _ _ _ _ Hcut) in *. rewrite Hex. unfold kr_skiplist_delete.
  unfold mbind at 1, M_bind at 1. rewrite E. unfold mbind at 1, M_bind at 1.
  rewrite (is_found_spec _ _ _ _ _ _ _ _ Hrep Hn2).
  destruct (is_same (compare_func l) k v es2) eqn:Hsame.
  - destruct (found_head _ _ _ _ _ Hn2 Hsame) as (n & e & ps3 & es3 & -> & -> & Hne & Hn3 & He).
    pose proof Hrep as Hrep'. rewrite (cut_app _ _ _ _ _ _ Hcut) in Hrep', Hmax.
    destruct (delete_found s l ps1 n ps3 es1 e es3 update Hrep' Hn1 Hne Hn3 Hs' Hmax Hup)
      as (lv & s' & El & Hr).
    eexists _, s', _. split_and!; [|exact Hr|done]. simpl. unfold mbind, M_bind in *.
    destruct (unlink_loop (a_ptr n) update 0 (level l) s) as [[[] s1]|]; [|done].
    destruct (kr_skiplist_free_node (a_ptr n) s1) as [[[] s2]|]; [|done]. by rewrite El.
  - exists l, s, (ps1 ++ ps2). rewrite <- (cut_app _ _ _ _ _ _ Hcut). by split_and!.
Qed.

(** ** The searches of consistent hashing, and the traversals *)

Lemma descend_key_eq k fuel s : forall i x update (y : ptr) update' s',
  descend fuel (fun n => Ok (key n <? k)) i x update s = Ok (y, update', s') ->
  descend_key (V:=V) fuel k i x s = Ok (y, s').
Proof.
  intros i. revert s. induction i as [|i IH]; intros s x update y update' s'; simpl.
  { by intros [= -> -> ->]. }
  unfold mbind, M_bind. destruct (walk _ _ i x s) as [[z s1]|]; [|done]. case_decide; [|done]. apply IH.
Qed.

Lemma first_value s l ps es p :
  skip_rep s l ps es -> forward_at (header l) 0 s = Ok (a_ptr <$> head ps, s) /\
  (a_ptr <$> head ps = Some p -> (n ← read_node p; mret (value n)) s = Ok (snd <$> head es, s)).
Proof.
  intros [[Hok Hseg] _ _ _ _ _ Hn _]. split.
  - rewrite <- (regular_next_0 ps) by by eapply nodes_regular.
    apply (forward_at_ok s (hdr l) ps 0 Hok). by apply hdr_vis; unfold ZSKIPLIST_MAXLEVEL; lia.
  - destruct Hn as [|n e ps es (_ & Hv & _) _]; [done|]. simpl. intros [= <-].
    destruct Hseg as [Hokn _]. unfold mbind, M_bind.
    destruct (read_node_ok _ _ _ Hokn) as [fw ->]. simpl. by rewrite Hv.
Qed.

Lemma cycle_spec s l ps es k :
  Comparison (compare_func l) -> skip_rep s l ps es ->
  kr_skiplist_lookup_cycle l k s = Ok (spec_cycle k es, s).
Proof.
  intros Hc Hrep.
  destruct (sorted_split (compare_func l) (fun e => e.1 <? k) es (rep_sorted _ _ _ _ Hrep))
    as (es1 & es2 & Hes & H1 & H2).
  { intros e e' He He'. apply precedes_iff in He. zbool. apply Z.ltb_lt. lia. }
  pose proof (rep_nodes _ _ _ _ Hrep) as Hn. rewrite Hes in Hn.
  apply Forall2_app_inv_r in Hn as (ps1 & ps2 & Hn1 & Hn2 & ->).
  destruct (search_spec (fun n => Ok (key n <? k)) (fun n => a_key n <? k) s l ps1 ps2 es)
    as (y & update & E & Ef & _); [done|done| |].
  { apply (splits_nodes (level l) _ _ es1 es2 _ (fun e => e.1 <? k)); [|done..].
    by intros n e (-> & _). }
  unfold kr_skiplist_lookup_cycle. unfold mbind at 1, M_bind at 1.
  rewrite (descend_key_eq _ _ _ _ _ _ _ _ _ E). unfold mbind at 1, M_bind at 1. rewrite Ef.
  unfold spec_cycle. rewrite Hes at 1. rewrite find_app, find_none.
  2: { eapply Forall_impl; [exact H1|]. intros e He. simpl in He. zbool. apply Z.leb_gt. lia. }
  clear E Ef. revert H2 Hes Hrep. destruct Hn2 as [|n e ps2 es2 Hne Hn2]; intros H2 Hes Hrep; simpl.
  - destruct (first_value s l _ es 1%positive Hrep) as [Hf _]. unfold mbind at 1, M_bind at 1. rewrite Hf.
    destruct (a_ptr <$> head (ps1 ++ [])) as [p|] eqn:Hp.
    + destruct (first_value s l _ es p Hrep) as [_ Hv]. rewrite (Hv Hp), Hes. done.
    + rewrite app_nil_r in Hp. rewrite Hes. by destruct Hn1.
  - apply Forall_cons in H2 as [He _]. assert (k <=? e.1 = true) as -> by (zbool; apply Z.leb_le; lia).
    destruct (rep_seg _ _ _ _ Hrep) as [_ Hseg]. apply seg_app in Hseg as [Hok _].
    unfold mbind, M_bind. destruct (read_node_ok _ _ _ Hok) as [fw ->]. simpl.
    by destruct Hne as (_ & -> & _).
Qed.

Lemma foreach_loop_spec {A} (func : option V -> A -> A) lv s : forall ps es fuel data,
  seg (nodes s) ps -> Forall2 (node_of lv) ps es -> (length ps <= fuel)%nat ->
  foreach_loop fuel func (a_ptr <$> head ps) data s =
    Ok (foldl (fun a e => func (Some e.2) a) data es, s).
Proof.
  intros ps es fuel data Hseg Hn. revert fuel data.
  induction Hn as [|n e ps es Hne Hn IH]; intros fuel data Hf; [by destruct fuel|].
  destruct fuel as [|fuel]; simpl in Hf; [lia|]. destruct Hseg as [Hok Hseg]. simpl.
  unfold mbind, M_bind. destruct (read_node_ok _ _ _ Hok) as [fw ->].
  rewrite (forward_at_ok _ _ _ 0 Hok), (regular_next_0 ps).
  - destruct Hne as (_ & Hv & _). simpl. rewrite Hv. apply IH; [done|lia].
  - by eapply nodes_regular.
  - apply regular_vis_0. destruct Hne as (_ & _ & ? & ? & _). split; [done|lia].
Qed.

Lemma skip_foreach_spec {A} s l ps es (func : option V -> A -> A) data :
  skip_rep s l ps es ->
  kr_skiplist_foreach l func data s = Ok (foldl (fun a e => func (Some e.2) a) data es, s).
Proof.
  intros Hrep. unfold kr_skiplist_foreach. unfold mbind at 1, M_bind at 1.
  rewrite (proj1 (first_value s l ps es 1%positive Hrep)). destruct Hrep as [[_ Hseg] _ _ _ Hlen _ Hn _].
  eapply foreach_loop_spec; [done..|]. rewrite Hlen, Nat2Z.id, (Forall2_length _ _ _ Hn). lia.
Qed.

(** ** Creation and release *)

Lemma clear_forward_spec p (w : T_KRSkipListNode) a : forall n i,
  (i + n <= 3 * ZSKIPLIST_MAXLEVEL)%nat -> forward w = replicate (3 * ZSKIPLIST_MAXLEVEL) None ->
  clear_forward (V:=V) p i n (mkStore {[p := w]} a) = Ok (tt, mkStore {[p := w]} a).
Proof.
  induction n as [|n IH]; intros i Hi Hw; [done|]. cbn [clear_forward].
  unfold mbind, M_bind. unfold set_forward, read_node, write_node, mbind, M_bind. cbn [nodes].
  rewrite lookup_singleton_eq, Hw, length_replicate, decide_True by lia. cbn [nodes arrays].
  rewrite lookup_singleton_eq, insert_singleton_eq.
  assert (mkNode (key w) (value w) (<[i:=None]> (replicate (3 * ZSKIPLIST_MAXLEVEL) None)) = w) as ->.
  { rewrite list_insert_id; [by rewrite <- Hw; destruct w|]. apply lookup_replicate. split; [done|lia]. }
  apply IH; [lia|done].
Qed.

Lemma create_spec (c : V -> V -> Z) :
  exists l s, kr_skiplist_create c (mkStore ∅ 0) = Ok (l, s) /\ skip_rep s l [] [] /\
    compare_func l = c.
Proof.
  destruct (create_node_spec (mkStore ∅ 0) ZSKIPLIST_MAXLEVEL 0 None) as (p & _ & Ec).
  exists (mkList p 0 1 c), (mkStore {[p := mkNode 0 None (replicate (3 * ZSKIPLIST_MAXLEVEL) None)]} 1).
  split.
  { unfold kr_skiplist_create. unfold mbind at 1, M_bind at 1. rewrite Ec. cbn [nodes arrays].
    rewrite insert_empty. unfold mbind, M_bind. rewrite clear_forward_spec; [done|unfold ZSKIPLIST_MAXLEVEL; lia|done]. }
  split; [|done]. constructor; cbn [nodes arrays header length_ level compare_func].
  - split; [|done]. exists (replicate (3 * ZSKIPLIST_MAXLEVEL) None). cbn [a_ptr hdr].
    split; [apply lookup_singleton_eq|]. split; [done|]. intros i Hi. unfold vis in Hi.
    simpl a_lo in Hi. simpl a_hi in Hi. apply andb_true_iff in Hi as [_ Hi]. apply Nat.ltb_lt in Hi.
    apply lookup_replicate. unfold ZSKIPLIST_MAXLEVEL in *. split; [done|lia].
  - apply NoDup_singleton.
  - rewrite dom_singleton_L. simpl. set_solver.
  - done.
  - done.
  - unfold ZSKIPLIST_MAXLEVEL. lia.
  - constructor.
  - constructor.
Qed.

Lemma free_loop_spec lv : forall ps (es : list (Z * V)) fuel s,
  seg (nodes s) ps -> NoDup (ptrs ps) -> dom (nodes s) = list_to_set (ptrs ps) ->
  Forall2 (node_of lv) ps es -> (length ps <= fuel)%nat ->
  free_loop fuel (a_ptr <$> head ps) s = Ok (tt, mkStore ∅ (arrays s - Z.of_nat (length ps))).
Proof.
  intros ps es fuel s Hseg Hnd Hdom Hn. revert fuel s Hseg Hnd Hdom.
  induction Hn as [|n e ps es Hne Hn IH]; intros fuel s Hseg Hnd Hdom Hf.
  { apply dom_empty_inv_L in Hdom. destruct s as [m a]. simpl in *. subst.
    rewrite Z.sub_0_r. by destruct fuel. }
  destruct fuel as [|fuel]; simpl in Hf; [lia|]. destruct Hseg as [Hok Hseg].
  apply NoDup_cons in Hnd as [Hnin Hnd]. cbn [free_loop head fmap option_fmap option_map].
  unfold mbind, M_bind. rewrite (forward_at_ok _ _ _ 0 Hok).
  2: { apply regular_vis_0. destruct Hne as (_ & _ & ? & ? & _). split; [done|lia]. }
  rewrite regular_next_0 by by eapply nodes_regular.
  unfold kr_skiplist_free_node. destruct Hok as (fw & -> & _). rewrite IH; simpl.
  - do 3 f_equal. lia.
  - by apply seg_delete.
  - done.
  - simpl in Hdom. rewrite dom_delete_L, Hdom. set_solver.
  - lia.
Qed.

(** [kr_skiplist_free] frees every node; the array of the header stays. *)
Lemma kr_skiplist_free_leaks s l ps es :
  skip_rep s l ps es -> kr_skiplist_free l s = Ok (tt, mkStore ∅ 1).
Proof.
  intros Hrep. unfold kr_skiplist_free, mbind, M_bind.
  rewrite (proj1 (first_value s l ps es 1%positive Hrep)).
  destruct Hrep as [[(fw & Hh & _) Hseg] Hnd Hdom Harr Hlen _ Hn _].
  apply NoDup_cons in Hnd as [Hnin Hnd]. unfold free_header. simpl in Hh. rewrite Hh.
  rewrite (free_loop_spec (level l) ps es); simpl.
  - do 3 f_equal. lia.
  - by apply seg_delete.
  - done.
  - simpl in Hdom. rewrite dom_delete_L, Hdom. simpl in Hnin. set_solver.
  - done.
  - rewrite Hlen, Nat2Z.id, (Forall2_length _ _ _ Hn). lia.
Qed.

End Refine.

(** * Series of calls *)

Section Series.
Context {V : Type}.

Variant sop :=
  | Insert (time k : Z) (v : V)
  | Delete (k : Z) (v : V)
  | Lookup (k : Z) (v : V)
  | LookupCycle (k : Z)
  | Foreach.
Variant sret := RInserted (b : bool) | RCode (z : Z) | RValue (v : option V) | RValues (vs : list (option V)).

Definition run_sop (random : Z -> nat -> Z) (o : sop) (l : T_KRSkipList (V:=V))
    : M store (sret * T_KRSkipList) :=
  match o with
  | Insert time k v =>
      '(x, l) ← kr_skiplist_insert random time l k v; mret (RInserted (bool_decide (x <> None)), l)
  | Delete k v => '(z, l) ← kr_skiplist_delete l k v; mret (RCode z, l)
  | Lookup k v => w ← kr_skiplist_lookup l k v; mret (RValue w, l)
  | LookupCycle k => w ← kr_skiplist_lookup_cycle l k; mret (RValue w, l)
  | Foreach => vs ← kr_skiplist_foreach l (fun v vs => vs ++ [v]) []; mret (RValues vs, l)
  end.

Fixpoint run_sops (random : Z -> nat -> Z) (os : list sop) (l : T_KRSkipList (V:=V))
    : M store (list sret * T_KRSkipList) :=
  match os with
  | [] => mret ([], l)
  | o :: os' =>
      '(r, l) ← run_sop random o l;
      '(rs, l) ← run_sops random os' l; mret (r :: rs, l)
  end.

Definition spec_sop (c : V -> V -> Z) (o : sop) (es : list (Z * V)) : sret * list (Z * V) :=
  match o with
  | Insert _ k v => (RInserted true, spec_insert c k v es)
  | Delete k v => (RCode (if existsb (same c k v) es then 0 else -1), spec_delete c k v es)
  | Lookup k v => (RValue (spec_lookup c k v es), es)
  | LookupCycle k => (RValue (spec_cycle k es), es)
  | Foreach => (RValues ((fun e => Some e.2) <$> es), es)
  end.

Fixpoint spec_sops (c : V -> V -> Z) (os : list sop) (es : list (Z * V)) : list sret * list (Z * V) :=
  match os with
  | [] => ([], es)
  | o :: os' =>
      let '(r, es) := spec_sop c o es in
      let '(rs, es) := spec_sops c os' es in (r :: rs, es)
  end.

Lemma foldl_snoc {A B} (f : A -> B) (es : list A) acc :
  foldl (fun a e => a ++ [f e]) acc es = acc ++ (f <$> es).
Proof.
  revert acc. induction es as [|e es IH]; intros acc; simpl; [by rewrite app_nil_r|].
  by rewrite IH, <- (assoc_L (++)).
Qed.

Lemma spec_sop_length c o (es : list (Z * V)) :
  (length (spec_sop c o es).2 <= S (length es))%nat.
Proof.
  destruct o; simpl; try lia.
  - induction es as [|e es IH]; simpl; [done|]. destruct (precedes _ _ _ _ _); simpl; [lia|].
    destruct (same _ _ _ _); simpl; lia.
  - unfold spec_delete. pose proof (List.filter_length_le (fun e => negb (same c k v e)) es). lia.
Qed.

Lemma run_sop_spec random (o : sop) (s : store) (l : T_KRSkipList (V:=V)) ps es :
  Comparison (compare_func l) -> skip_rep s l ps es -> Z.of_nat (length es) < UINT_MAX ->
  exists l' s' ps', run_sop random o l s = Ok ((spec_sop (compare_func l) o es).1, l', s') /\
    skip_rep s' l' ps' (spec_sop (compare_func l) o es).2 /\ compare_func l' = compare_func l.
Proof.
  intros Hc Hrep Hmax. destruct o as [time k v|k v|k v|k|]; simpl; unfold mbind, M_bind.
  - destruct (skip_insert_spec random time s l ps es k v Hc Hrep Hmax) as (p & l' & s' & ps' & E & Hr).
    rewrite E. by exists l', s', ps'.
  - destruct (skip_delete_spec s l ps es k v Hc Hrep) as (l' & s' & ps' & E & Hr); [lia|].
    rewrite E. by exists l', s', ps'.
  - rewrite (skip_lookup_spec _ _ _ _ _ _ Hc Hrep). by exists l, s, ps.
  - rewrite (cycle_spec _ _ _ _ _ Hc Hrep). by exists l, s, ps.
  - rewrite (skip_foreach_spec _ _ _ _ _ _ Hrep), (foldl_snoc (fun e => Some e.2)). by exists l, s, ps.
Qed.

Lemma run_sops_spec random (os : list sop) : forall (s : store) (l : T_KRSkipList (V:=V)) ps es,
  Comparison (compare_func l) -> skip_rep s l ps es ->
  Z.of_nat (length es + length os) <= UINT_MAX ->
  exists l' s' ps', run_sops random os l s = Ok ((spec_sops (compare_func l) os es).1, l', s') /\
    skip_rep s' l' ps' (spec_sops (compare_func l) os es).2.
Proof.
  induction os as [|o os IH]; intros s l ps es Hc Hrep Hmax; simpl.
  { by exists l, s, ps. }
  simpl in Hmax. destruct (run_sop_spec random o s l ps es Hc Hrep) as (l' & s' & ps' & E & Hr & Hcl); [lia|].
  pose proof (spec_sop_length (compare_func l) o es) as Hl.
  destruct (spec_sop (compare_func l) o es) as [r es']. simpl in *.
  destruct (IH s' l' ps' es') as (l2 & s2 & ps2 & E2 & Hr2); [by rewrite Hcl|done|lia|].
  rewrite Hcl in *. destruct (spec_sops (compare_func l) os es') as [rs es2]. simpl in *.
  exists l2, s2, ps2. unfold mbind, M_bind. by rewrite E, E2.
Qed.

(** C34. A new skip list behaves, for any series of calls and whatever the random levels of
    its nodes, as the list of its entries sorted by key and value: an insertion replaces an
    equal entry, the cyclic search gives the first entry at or after the key, or the first
    of all, a traversal visits them in order.  No call faults on the arrays of pointers, and
    the nodes allocated are those of the entries and the header. *)
Theorem kr_skiplist_refines_sorted (c : V -> V -> Z) (random : Z -> nat -> Z) (os : list sop) :
  Comparison c -> Z.of_nat (length os) <= UINT_MAX ->
  wp (l ← kr_skiplist_create c; run_sops random os l) (mkStore ∅ 0) (fun r s =>
    r.1 = (spec_sops c os []).1 /\ exists ps, skip_rep s r.2 ps (spec_sops c os []).2).
Proof.
  intros Hc Hmax. destruct (create_spec c) as (l & s & E & Hrep & <-).
  destruct (run_sops_spec random os s l [] [] Hc Hrep Hmax) as (l' & s' & ps' & E2 & Hr).
  unfold wp, mbind, M_bind. rewrite E, E2. simpl. split; [done|]. by exists ps'.
Qed.

End Series.
Arguments sop : clear implicits.
Arguments sret : clear implicits.

#[global] Instance sub_comparison : Comparison Z.sub.
Proof. split; lia. Qed.

(** The generator counts up from its seed. *)
Lemma kr_skiplist_refines_sorted_witness :
  wp (l ← kr_skiplist_create Z.sub;
      run_sops (fun seed n => seed + Z.of_nat n)
        [Insert 0 20 7; Insert 0 10 5; Insert 0 20 6; Insert 0 10 5; Foreach; LookupCycle 11;
         LookupCycle 21; Lookup 20 7; Delete 20 7; Delete 20 7; Foreach] l) (mkStore ∅ 0)
    (fun r s =>
       r.1 = [RInserted true; RInserted true; RInserted true; RInserted true;
              RValues [Some 5; Some 6; Some 7]; RValue (Some 6); RValue (Some 5);
              RValue (Some 7); RCode 0; RCode (-1); RValues [Some 5; Some 6]] /\
       exists ps, skip_rep s r.2 ps [(10, 5); (20, 6)]).
Proof.
  apply (kr_skiplist_refines_sorted (V:=Z) Z.sub (fun seed n => seed + Z.of_nat n)
    [Insert 0 20 7; Insert 0 10 5; Insert 0 20 6; Insert 0 10 5; Foreach; LookupCycle 11;
     LookupCycle 21; Lookup 20 7; Delete 20 7; Delete 20 7; Foreach]).
  - apply sub_comparison.
  - unfold UINT_MAX. simpl. lia.
Defined.
