(* ===== verification/KrNtree.v ===== *)
(** N-ary trees (krutils/kr_ntree.c, kr_ntree.h).

    The nodes live in a store and are reached by their address, [None] for [NULL]; each has
    the addresses of its parent, its siblings and its first child.  [D] is the type of the
    [void *] data, which only comparison for equality looks at.  The operations are here;
    what they do to a forest is in KrForest.v, what the walks over a tree visit in
    KrTraverse.v. *)

From S2P Require Import Prelude.
Local Open Scope Z_scope.
#[local] Notation length := List.length.

Definition ptr := positive.

(** * Flags and orders *)

Definition KR_TRAVERSE_LEAVES : Z := 1.
Definition KR_TRAVERSE_NON_LEAVES : Z := 2.
Definition KR_TRAVERSE_ALL : Z := Z.lor KR_TRAVERSE_LEAVES KR_TRAVERSE_NON_LEAVES.
Definition KR_TRAVERSE_MASK : Z := 3.
Definition KR_TRAVERSE_LEAFS : Z := KR_TRAVERSE_LEAVES.
Definition KR_TRAVERSE_NON_LEAFS : Z := KR_TRAVERSE_NON_LEAVES.

Definition KR_IN_ORDER : Z := 0.
Definition KR_PRE_ORDER : Z := 1.
Definition KR_POST_ORDER : Z := 2.
Definition KR_LEVEL_ORDER : Z := 3.

(** [flags & bit]. *)
Definition has (flags bit : Z) : bool := negb (Z.land flags bit =? 0).

Section KrNtree.
Context {D : Type} `{EqDecision D}.

(** * Data *)

Record T_KRNTree := mkNTree {
  data : D;
  next : option ptr;
  prev : option ptr;
  parent : option ptr;
  children : option ptr
}.
#[local] Abbreviation store := (gmap ptr T_KRNTree).

Definition read (p : ptr) : M store T_KRNTree := fun s =>
  match s !! p with Some n => Ok (n, s) | None => Fault BadPointer end.
Definition write (p : ptr) (f : T_KRNTree -> T_KRNTree) : M store unit := fun s =>
  match s !! p with Some n => Ok (tt, <[p := f n]> s) | None => Fault BadPointer end.
Definition free (p : ptr) : M store unit := fun s =>
  match s !! p with Some _ => Ok (tt, delete p s) | None => Fault BadPointer end.
Definition set_next (x : option ptr) (n : T_KRNTree) : T_KRNTree := mkNTree (data n) x (prev n) (parent n) (children n).
Definition set_prev (x : option ptr) (n : T_KRNTree) : T_KRNTree := mkNTree (data n) (next n) x (parent n) (children n).
Definition set_parent (x : option ptr) (n : T_KRNTree) : T_KRNTree := mkNTree (data n) (next n) (prev n) x (children n).
Definition set_children (x : option ptr) (n : T_KRNTree) : T_KRNTree := mkNTree (data n) (next n) (prev n) (parent n) x.

(** The loops take at most one step for each node of the store, and one to stop; where a
    function and its loop over the children call each other a node takes two. *)
Definition fuel_of (s : store) : nat := S (S (2 * base.size s)).
Definition fueled {A} (f : nat -> M store A) : M store A := fun s => f (fuel_of s) s.

Definition KR_NTREE_IS_ROOT (n : T_KRNTree) : bool :=
  bool_decide (parent n = None) && bool_decide (prev n = None) && bool_decide (next n = None).
Definition KR_NTREE_IS_LEAF (n : T_KRNTree) : bool := bool_decide (children n = None).

(** * Walks along one pointer *)

(** [while (node->f) node = node->f]. *)
Fixpoint last_along (f : T_KRNTree -> option ptr) (fuel : nat) (p : ptr) : M store ptr :=
  match fuel with
  | O => fail NoFuel
  | S fuel =>
      n ← read p;
      match f n with None => mret p | Some q => last_along f fuel q end
  end.

Definition kr_ntree_last_child (node : option ptr) : M store (option ptr) :=
  match node with
  | None => mret None
  | Some p =>
      n ← read p;
      match children n with
      | None => mret None
      | Some c => l ← fueled (fun fuel => last_along next fuel c); mret (Some l)
      end
  end.

Definition kr_ntree_get_root (node : option ptr) : M store (option ptr) :=
  match node with
  | None => mret None
  | Some p => r ← fueled (fun fuel => last_along parent fuel p); mret (Some r)
  end.

Definition kr_ntree_last_sibling (node : option ptr) : M store (option ptr) :=
  match node with
  | None => mret None
  | Some p => r ← fueled (fun fuel => last_along next fuel p); mret (Some r)
  end.

Definition kr_ntree_first_sibling (node : option ptr) : M store (option ptr) :=
  match node with
  | None => mret None
  | Some p =>
      n ← read p;
      match parent n with
      | Some q => m ← read q; mret (children m)
      | None => r ← fueled (fun fuel => last_along prev fuel p); mret (Some r)
      end
  end.

(** [while (descendant)]. *)
Fixpoint ancestor_loop (node : ptr) (fuel : nat) (descendant : option ptr) : M store bool :=
  match fuel with
  | O => fail NoFuel
  | S fuel =>
      match descendant with
      | None => mret false
      | Some p =>
          n ← read p;
          if bool_decide (parent n = Some node) then mret true else ancestor_loop node fuel (parent n)
      end
  end.
Definition kr_ntree_is_ancestor (node descendant : option ptr) : M store bool :=
  match node, descendant with
  | Some node, Some _ => fueled (fun fuel => ancestor_loop node fuel descendant)
  | _, _ => mret false
  end.

Fixpoint depth_loop (depth : Z) (fuel : nat) (node : option ptr) : M store Z :=
  match fuel with
  | O => fail NoFuel
  | S fuel =>
      match node with
      | None => mret depth
      | Some p => n ← read p; depth_loop (u32 (depth + 1)) fuel (parent n)
      end
  end.
Definition kr_ntree_depth (node : option ptr) : M store Z := fueled (fun fuel => depth_loop 0 fuel node).

(** [while ((n-- > 0) && node) node = node->next]; [n] is unsigned. *)
Fixpoint nth_loop (fuel : nat) (n : Z) (node : option ptr) : M store (option ptr) :=
  match fuel with
  | O => fail NoFuel
  | S fuel =>
      if 0 <? n then
        match node with
        | None => mret None
        | Some p => m ← read p; nth_loop fuel (n - 1) (next m)
        end
      else mret node
  end.
Definition kr_ntree_nth_child (node : option ptr) (n : Z) : M store (option ptr) :=
  match node with
  | None => mret None
  | Some p =>
      m ← read p;
      match children m with
      | None => mret None
      | Some c => fueled (fun fuel => nth_loop fuel n (Some c))
      end
  end.

Fixpoint count_loop (n : Z) (fuel : nat) (node : option ptr) : M store Z :=
  match fuel with
  | O => fail NoFuel
  | S fuel =>
      match node with
      | None => mret n
      | Some p => m ← read p; count_loop (u32 (n + 1)) fuel (next m)
      end
  end.
Definition kr_ntree_n_children (node : option ptr) : M store Z :=
  match node with
  | None => mret 0
  | Some p => m ← read p; fueled (fun fuel => count_loop 0 fuel (children m))
  end.

(** The first child that the test accepts. *)
Fixpoint find_loop (accept : ptr -> T_KRNTree -> bool) (n : Z) (fuel : nat) (node : option ptr) : M store (option (ptr * Z)) :=
  match fuel with
  | O => fail NoFuel
  | S fuel =>
      match node with
      | None => mret None
      | Some p =>
          m ← read p;
          if accept p m then mret (Some (p, n)) else find_loop accept (u32 (n + 1)) fuel (next m)
      end
  end.

Definition kr_ntree_find_child (node : option ptr) (flags : Z) (x : D) : M store (option ptr) :=
  match node with
  | None => mret None
  | Some p =>
      if KR_TRAVERSE_MASK <? flags then mret None
      else
        m ← read p;
        r ← fueled (fun fuel => find_loop (fun _ c => bool_decide (data c = x) &&
               (if KR_NTREE_IS_LEAF c then has flags KR_TRAVERSE_LEAFS else has flags KR_TRAVERSE_NON_LEAFS)) 0 fuel (children m));
        mret (fst <$> r)
  end.

Definition kr_ntree_child_index (node : option ptr) (x : D) : M store Z :=
  match node with
  | None => mret (-1)
  | Some p =>
      m ← read p;
      r ← fueled (fun fuel => find_loop (fun _ c => bool_decide (data c = x)) 0 fuel (children m));
      mret (match r with Some (_, n) => i32 n | None => -1 end)
  end.

(** The two first tests are the wrong way round. *)
Definition kr_ntree_child_position (node child : option ptr) : M store Z :=
  if bool_decide (node <> None) then mret (-1)
  else if bool_decide (child <> None) then mret (-1)
  else
    c ← match child with Some p => read p | None => fail NullDeref end;
    if bool_decide (parent c <> node) then mret (-1)
    else
      m ← match node with Some p => read p | None => fail NullDeref end;
      r ← fueled (fun fuel => find_loop (fun q _ => bool_decide (Some q = child)) 0 fuel (children m));
      mret (match r with Some (_, n) => i32 n | None => -1 end).

(** * Changes *)

Definition kr_ntree_new (x : D) : M store ptr := fun s =>
  let p := fresh (dom s) in Ok (p, <[p := mkNTree x None None None None]> s).

Definition kr_ntree_unlink (node : option ptr) : M store unit :=
  match node with
  | None => mret tt
  | Some p =>
      n ← read p;
      match prev n with
      | Some q => write q (set_next (next n))
      | None => match parent n with Some q => write q (set_children (next n)) | None => mret tt end
      end;;
      write p (set_parent None);;
      n ← read p;
      match next n with
      | Some q => write q (set_prev (prev n));; write p (set_next None)
      | None => mret tt
      end;;
      write p (set_prev None)
  end.

(** [node], then [kr_ntrees_free] of its siblings. *)
Fixpoint kr_ntrees_free (fuel : nat) (node : option ptr) : M store unit :=
  match fuel with
  | O => fail NoFuel
  | S fuel =>
      match node with
      | None => mret tt
      | Some p =>
          n ← read p;
          match children n with Some c => kr_ntrees_free fuel (Some c) | None => mret tt end;;
          free p;;
          kr_ntrees_free fuel (next n)
      end
  end.
Definition kr_ntree_destroy (root : option ptr) : M store unit :=
  match root with
  | None => mret tt
  | Some p =>
      n ← read p;
      (if KR_NTREE_IS_ROOT n then mret tt else kr_ntree_unlink root);;
      fueled (fun fuel => kr_ntrees_free fuel root)
  end.

(** The node is put under a parent only when it is a root. *)
Definition if_root (par node : option ptr) (f : ptr -> ptr -> M store unit) : M store (option ptr) :=
  match par, node with
  | Some q, Some p => n ← read p; if KR_NTREE_IS_ROOT n then f q p;; mret node else mret node
  | _, _ => mret node
  end.

Definition kr_ntree_insert_before (par sibling node : option ptr) : M store (option ptr) :=
  if_root par node (fun q p =>
    match sibling with
    | Some b =>
        m ← read b;
        if bool_decide (parent m <> Some q) then mret tt
        else
          write p (set_parent (Some q));;
          m ← read b;
          match prev m with
          | Some a =>
              write p (set_prev (Some a));;
              write a (set_next (Some p));;
              write p (set_next (Some b));;
              write b (set_prev (Some p))
          | None =>
              write q (set_children (Some p));;
              write p (set_next (Some b));;
              write b (set_prev (Some p))
          end
    | None =>
        write p (set_parent (Some q));;
        m ← read q;
        match children m with
        | Some c =>
            a ← fueled (fun fuel => last_along next fuel c);
            write p (set_prev (Some a));;
            write a (set_next (Some p))
        | None => write q (set_children (Some p))
        end
    end).

Definition kr_ntree_insert_after (par sibling node : option ptr) : M store (option ptr) :=
  if_root par node (fun q p =>
    match sibling with
    | Some a =>
        m ← read a;
        if bool_decide (parent m <> Some q) then mret tt
        else
          write p (set_parent (Some q));;
          m ← read a;
          match next m with Some b => write b (set_prev (Some p)) | None => mret tt end;;
          m ← read a;
          write p (set_next (next m));;
          write p (set_prev (Some a));;
          write a (set_next (Some p))
    | None =>
        write p (set_parent (Some q));;
        m ← read q;
        match children m with
        | Some c => write p (set_next (Some c));; write c (set_prev (Some p))
        | None => mret tt
        end;;
        write q (set_children (Some p))
    end).

Definition kr_ntree_prepend (par node : option ptr) : M store (option ptr) :=
  match par with
  | None => mret node
  | Some q => m ← read q; kr_ntree_insert_before par (children m) node
  end.
Definition kr_ntree_append (par node : option ptr) : M store (option ptr) := kr_ntree_insert_before par None node.

Definition kr_ntree_insert (par : option ptr) (position : Z) (node : option ptr) : M store (option ptr) :=
  match par, node with
  | Some _, Some p =>
      n ← read p;
      if negb (KR_NTREE_IS_ROOT n) then mret node
      else if 0 <? position then b ← kr_ntree_nth_child par position; kr_ntree_insert_before par b node
      else if position =? 0 then kr_ntree_prepend par node
      else kr_ntree_append par node
  | _, _ => mret node
  end.

(** [while (child)], with the last child seen. *)
Fixpoint reverse_loop (fuel : nat) (last child : option ptr) : M store (option ptr) :=
  match fuel with
  | O => fail NoFuel
  | S fuel =>
      match child with
      | None => mret last
      | Some p =>
          n ← read p;
          write p (set_next (prev n));;
          write p (set_prev (next n));;
          reverse_loop fuel (Some p) (next n)
      end
  end.
Definition kr_ntree_reverse_children (node : option ptr) : M store unit :=
  match node with
  | None => mret tt
  | Some p =>
      n ← read p;
      l ← fueled (fun fuel => reverse_loop fuel None (children n));
      write p (set_children l)
  end.

(** * Copies *)

Fixpoint copy_deep (copy_func : D -> D) (fuel : nat) (p : ptr) : M store ptr :=
  match fuel with
  | O => fail NoFuel
  | S fuel =>
      n ← read p;
      new_node ← kr_ntree_new (copy_func (data n));
      child ← kr_ntree_last_child (Some p);
      copy_children copy_func fuel new_node child;;
      mret new_node
  end
with copy_children (copy_func : D -> D) (fuel : nat) (new_node : ptr) (child : option ptr) : M store unit :=
  match fuel with
  | O => fail NoFuel
  | S fuel =>
      match child with
      | None => mret tt
      | Some c =>
          new_child ← copy_deep copy_func fuel c;
          kr_ntree_prepend (Some new_node) (Some new_child);;
          n ← read c;
          copy_children copy_func fuel new_node (prev n)
      end
  end.

Definition kr_ntree_copy (node : option ptr) : M store (option ptr) :=
  match node with
  | None => mret None
  | Some p => q ← fueled (fun fuel => copy_deep (fun x => x) fuel p); mret (Some q)
  end.
Definition kr_ntree_copy_deep (node : option ptr) (copy_func : option (D -> D)) : M store (option ptr) :=
  match copy_func, node with
  | None, _ => kr_ntree_copy node
  | Some _, None => mret None
  | Some f, Some p => q ← fueled (fun fuel => copy_deep f fuel p); mret (Some q)
  end.

(** * Traversals

    The tree is only read.  The function that is called has a state of its own; it answers
    whether the traversal stops. *)

Section Traverse.
Context {A : Type} (s : store) (func : ptr -> T_KRNTree -> A -> bool * A).

Definition node_at (p : ptr) : res T_KRNTree := of_option BadPointer (s !! p).
Definition call (flags bit : Z) (p : ptr) (n : T_KRNTree) (a : A) : bool * A :=
  if has flags bit then func p n a else (false, a).

(** One node, then the loop over children of the three orders.  [depth] is [None] in the
    functions that have none. *)
Definition sunk (depth : option Z) : option Z := (fun d => u32 (d - 1)) <$> depth.
Definition at_bottom (depth : option Z) : bool := bool_decide (depth = Some 0).

Fixpoint kr_ntree_traverse_pre_order (flags : Z) (depth : option Z) (fuel : nat) (p : ptr) (a : A) : res (bool * A) :=
  match fuel with
  | O => Fault NoFuel
  | S fuel =>
      n ← node_at p;
      match children n with
      | Some c =>
          let '(stop, a) := call flags KR_TRAVERSE_NON_LEAFS p n a in
          if stop then Ok (true, a)
          else
            let depth := sunk depth in
            if at_bottom depth then Ok (false, a) else pre_order_loop flags depth fuel (Some c) a
      | None => Ok (call flags KR_TRAVERSE_LEAFS p n a)
      end
  end
with pre_order_loop (flags : Z) (depth : option Z) (fuel : nat) (child : option ptr) (a : A) : res (bool * A) :=
  match fuel with
  | O => Fault NoFuel
  | S fuel =>
      match child with
      | None => Ok (false, a)
      | Some c =>
          n ← node_at c;
          '(stop, a) ← kr_ntree_traverse_pre_order flags depth fuel c a;
          if (stop : bool) then Ok (true, a) else pre_order_loop flags depth fuel (next n) a
      end
  end.

Fixpoint kr_ntree_traverse_post_order (flags : Z) (depth : option Z) (fuel : nat) (p : ptr) (a : A) : res (bool * A) :=
  match fuel with
  | O => Fault NoFuel
  | S fuel =>
      n ← node_at p;
      match children n with
      | Some c =>
          let depth := sunk depth in
          '(stop, a) ← (if at_bottom depth then Ok (false, a) else post_order_loop flags depth fuel (Some c) a);
          if (stop : bool) then Ok (true, a) else Ok (call flags KR_TRAVERSE_NON_LEAFS p n a)
      | None => Ok (call flags KR_TRAVERSE_LEAFS p n a)
      end
  end
with post_order_loop (flags : Z) (depth : option Z) (fuel : nat) (child : option ptr) (a : A) : res (bool * A) :=
  match fuel with
  | O => Fault NoFuel
  | S fuel =>
      match child with
      | None => Ok (false, a)
      | Some c =>
          n ← node_at c;
          '(stop, a) ← kr_ntree_traverse_post_order flags depth fuel c a;
          if (stop : bool) then Ok (true, a) else post_order_loop flags depth fuel (next n) a
      end
  end.

Fixpoint kr_ntree_traverse_in_order (flags : Z) (depth : option Z) (fuel : nat) (p : ptr) (a : A) : res (bool * A) :=
  match fuel with
  | O => Fault NoFuel
  | S fuel =>
      n ← node_at p;
      match children n with
      | Some c =>
          let depth := sunk depth in
          if at_bottom depth then Ok (call flags KR_TRAVERSE_NON_LEAFS p n a)
          else
            m ← node_at c;
            '(stop, a) ← kr_ntree_traverse_in_order flags depth fuel c a;
            if (stop : bool) then Ok (true, a)
            else
              let '(stop, a) := call flags KR_TRAVERSE_NON_LEAFS p n a in
              if stop then Ok (true, a) else in_order_loop flags depth fuel (next m) a
      | None => Ok (call flags KR_TRAVERSE_LEAFS p n a)
      end
  end
with in_order_loop (flags : Z) (depth : option Z) (fuel : nat) (child : option ptr) (a : A) : res (bool * A) :=
  match fuel with
  | O => Fault NoFuel
  | S fuel =>
      match child with
      | None => Ok (false, a)
      | Some c =>
          n ← node_at c;
          '(stop, a) ← kr_ntree_traverse_in_order flags depth fuel c a;
          if (stop : bool) then Ok (true, a) else in_order_loop flags depth fuel (next n) a
      end
  end.

(** The answer, whether there are more levels, and the state. *)
Fixpoint kr_ntree_traverse_level (flags level : Z) (fuel : nat) (p : ptr) (more_levels : bool) (a : A) : res (bool * bool * A) :=
  match fuel with
  | O => Fault NoFuel
  | S fuel =>
      n ← node_at p;
      if level =? 0 then
        match children n with
        | Some _ => let '(stop, a) := call flags KR_TRAVERSE_NON_LEAFS p n a in Ok (stop, true, a)
        | None => let '(stop, a) := call flags KR_TRAVERSE_LEAFS p n a in Ok (stop, more_levels, a)
        end
      else level_loop flags level fuel (children n) more_levels a
  end
with level_loop (flags level : Z) (fuel : nat) (node : option ptr) (more_levels : bool) (a : A) : res (bool * bool * A) :=
  match fuel with
  | O => Fault NoFuel
  | S fuel =>
      match node with
      | None => Ok (false, more_levels, a)
      | Some c =>
          '(stop, more_levels, a) ← kr_ntree_traverse_level flags (u32 (level - 1)) fuel c more_levels a;
          if (stop : bool) then Ok (true, more_levels, a)
          else n ← node_at c; level_loop flags level fuel (next n) more_levels a
      end
  end.

(** The levels: at most one for each node. *)
Fixpoint levels_loop (flags depth : Z) (p : ptr) (fuel : nat) (level : Z) (a : A) : res (bool * A) :=
  match fuel with
  | O => Fault NoFuel
  | S fuel =>
      if level =? depth then Ok (false, a)
      else
        '(stop, more_levels, a) ← kr_ntree_traverse_level flags level (fuel_of s) p false a;
        if (stop : bool) then Ok (true, a)
        else if (more_levels : bool) then levels_loop flags depth p fuel (u32 (level + 1)) a
        else Ok (false, a)
  end.
Definition kr_ntree_depth_traverse_level (flags depth : Z) (p : ptr) (a : A) : res (bool * A) :=
  levels_loop flags depth p (fuel_of s) 0 a.

Definition kr_ntree_traverse (root : option ptr) (order flags depth : Z) (a : A) : res A :=
  match root with
  | None => Ok a
  | Some p =>
      if KR_LEVEL_ORDER <? order then Ok a
      else if KR_TRAVERSE_MASK <? flags then Ok a
      else if negb (depth =? -1) && (depth <? 0) then Ok a
      else
        let d := if depth <? 0 then None else Some depth in
        let run r := snd <$> (r : res (bool * A)) in
        if order =? KR_PRE_ORDER then run (kr_ntree_traverse_pre_order flags d (fuel_of s) p a)
        else if order =? KR_POST_ORDER then run (kr_ntree_traverse_post_order flags d (fuel_of s) p a)
        else if order =? KR_IN_ORDER then run (kr_ntree_traverse_in_order flags d (fuel_of s) p a)
        else if order =? KR_LEVEL_ORDER then run (kr_ntree_depth_traverse_level flags (u32 depth) p a)
        else Ok a
  end.

(** [kr_ntree_children_foreach]; the answers of the function are not looked at. *)
Fixpoint foreach_loop (flags : Z) (fuel : nat) (node : option ptr) (a : A) : res A :=
  match fuel with
  | O => Fault NoFuel
  | S fuel =>
      match node with
      | None => Ok a
      | Some c =>
          n ← node_at c;
          let bit := if KR_NTREE_IS_LEAF n then KR_TRAVERSE_LEAFS else KR_TRAVERSE_NON_LEAFS in
          foreach_loop flags fuel (next n) (call flags bit c n a).2
      end
  end.
Definition kr_ntree_children_foreach (node : option ptr) (flags : Z) (a : A) : res A :=
  match node with
  | None => Ok a
  | Some p =>
      if KR_TRAVERSE_MASK <? flags then Ok a
      else n ← node_at p; foreach_loop flags (fuel_of s) (children n) a
  end.
End Traverse.

(** [d[0]] is [x], the state is [d[1]]. *)
Definition kr_ntree_find_func (x : D) (p : ptr) (n : T_KRNTree) (d : option ptr) : bool * option ptr :=
  if bool_decide (x <> data n) then (false, d) else (true, Some p).
Definition kr_ntree_find (s : store) (root : option ptr) (order flags : Z) (x : D) : res (option ptr) :=
  match root with
  | None => Ok None
  | Some _ =>
      if KR_LEVEL_ORDER <? order then Ok None
      else if KR_TRAVERSE_MASK <? flags then Ok None
      else kr_ntree_traverse s (kr_ntree_find_func x) root order flags (-1) None
  end.

Fixpoint kr_ntree_max_height_at (s : store) (fuel : nat) (p : ptr) : res Z :=
  match fuel with
  | O => Fault NoFuel
  | S fuel => n ← node_at s p; h ← height_loop s fuel (children n) 0; Ok (u32 (h + 1))
  end
with height_loop (s : store) (fuel : nat) (child : option ptr) (max_height : Z) : res Z :=
  match fuel with
  | O => Fault NoFuel
  | S fuel =>
      match child with
      | None => Ok max_height
      | Some c =>
          tmp_height ← kr_ntree_max_height_at s fuel c;
          n ← node_at s c;
          height_loop s fuel (next n) (if max_height <? tmp_height then tmp_height else max_height)
      end
  end.
Definition kr_ntree_max_height (s : store) (root : option ptr) : res Z :=
  match root with None => Ok 0 | Some p => kr_ntree_max_height_at s (fuel_of s) p end.

Fixpoint kr_ntree_count_func (s : store) (flags : Z) (fuel : nat) (p : ptr) (n : Z) : res Z :=
  match fuel with
  | O => Fault NoFuel
  | S fuel =>
      m ← node_at s p;
      match children m with
      | Some c => nodes_loop s flags fuel (Some c) (if has flags KR_TRAVERSE_NON_LEAFS then u32 (n + 1) else n)
      | None => Ok (if has flags KR_TRAVERSE_LEAFS then u32 (n + 1) else n)
      end
  end
with nodes_loop (s : store) (flags : Z) (fuel : nat) (child : option ptr) (n : Z) : res Z :=
  match fuel with
  | O => Fault NoFuel
  | S fuel =>
      match child with
      | None => Ok n
      | Some c =>
          n ← kr_ntree_count_func s flags fuel c n;
          m ← node_at s c;
          nodes_loop s flags fuel (next m) n
      end
  end.
Definition kr_ntree_n_nodes (s : store) (root : option ptr) (flags : Z) : res Z :=
  match root with
  | None => Ok 0
  | Some p => if KR_TRAVERSE_MASK <? flags then Ok 0 else kr_ntree_count_func s flags (fuel_of s) p 0
  end.

End KrNtree.

