(* ===== verification/KrForest.v ===== *)
(** Forests: what the operations of krutils/kr_ntree.c do.

    The abstract value of a store of nodes is a forest: the data of each node with the list
    of its children.  [ntree_rep] says that the pointers of a store are those of a forest;
    every operation that changes nodes keeps it and does to the forest what its name says
    ([op_ok]), and so does every series of operations. *)

From S2P Require Import Prelude KrNtree.
Local Open Scope Z_scope.
#[local] Notation length := List.length.

Section Forest.
Context {D : Type} `{EqDecision D}.
#[local] Abbreviation node := (T_KRNTree (D:=D)).
#[local] Abbreviation nstore := (gmap ptr (T_KRNTree (D:=D))).
#[local] Abbreviation forest := (gmap ptr (D * list ptr)).
Implicit Types (s : nstore) (m : forest) (p q c : ptr) (a b l : list ptr).

Definition kids m q : list ptr := match m !! q with Some (_, l) => l | None => [] end.
Definition child m c q : Prop := c ∈ kids m q.

(** A store is a forest when the nodes have the data and the children of the forest, the
    pointers agree with the order of the children, and no node is below itself. *)
Record ntree_rep s m : Prop := {
  nt_node : forall p n, s !! p = Some n -> exists l, m !! p = Some (data n, l) /\ children n = head l;
  nt_dom : forall p, is_Some (m !! p) -> is_Some (s !! p);
  nt_links : forall q a c b, kids m q = a ++ c :: b ->
    exists n, s !! c = Some n /\ parent n = Some q /\ prev n = last a /\ next n = head b;
  nt_root : forall p n, s !! p = Some n -> (forall q, ~ child m p q) -> parent n = None /\ prev n = None /\ next n = None;
  nt_nodup : forall q, NoDup (kids m q);
  nt_wf : forall p, Acc (child m) p
}.

Definition root m p : Prop := is_Some (m !! p) /\ forall q, ~ child m p q.

Lemma child_split m c q : child m c q -> exists a b, kids m q = a ++ c :: b.
Proof. intros H. by apply list_elem_of_split in H. Qed.
Lemma child_parent s m c q : ntree_rep s m -> child m c q -> exists n, s !! c = Some n /\ parent n = Some q.
Proof.
  intros Hr Hc. destruct (child_split _ _ _ Hc) as (a & b & E).
  destruct (nt_links _ _ Hr _ _ _ _ E) as (n & H & Hp & _). by exists n.
Qed.
Lemma one_parent s m c q q' : ntree_rep s m -> child m c q -> child m c q' -> q = q'.
Proof.
  intros Hr H H'. destruct (child_parent _ _ _ _ Hr H) as (n & E & Hp), (child_parent _ _ _ _ Hr H') as (n' & E' & Hp'). congruence.
Qed.
Lemma parent_child s m c q n : ntree_rep s m -> s !! c = Some n -> parent n = Some q -> child m c q.
Proof.
  intros Hr Hc Hp. destruct (decide (c ∈ kids m q)) as [|Hno]; [done|].
  destruct (nt_root _ _ Hr c n Hc) as (Hp' & _); [|congruence]. intros q' Hq'.
  destruct (child_parent _ _ _ _ Hr Hq') as (n' & E & Hp'). apply Hno. by assert (q' = q) as <- by congruence.
Qed.
Lemma root_parent s m p n : ntree_rep s m -> s !! p = Some n -> (root m p <-> parent n = None).
Proof.
  intros Hr Hp. split.
  - intros [_ H]. by destruct (nt_root _ _ Hr p n Hp H).
  - intros Hn. split; [destruct (nt_node _ _ Hr p n Hp) as (l & -> & _); by eexists|].
    intros q Hq. destruct (child_parent _ _ _ _ Hr Hq) as (n' & E & Hp'). congruence.
Qed.
Lemma is_root_spec s m p n : ntree_rep s m -> s !! p = Some n -> (KR_NTREE_IS_ROOT n = true <-> root m p).
Proof.
  intros Hr Hp. rewrite (root_parent s m p n) by done. unfold KR_NTREE_IS_ROOT. rewrite !andb_true_iff, !bool_decide_eq_true.
  split; [tauto|]. intros Hn. pose proof (proj2 (root_parent s m p n Hr Hp) Hn) as [_ H].
  destruct (nt_root _ _ Hr p n Hp H) as (? & ? & ?). done.
Qed.
Lemma child_irrefl s m p : ntree_rep s m -> ~ child m p p.
Proof. intros Hr. induction (nt_wf _ _ Hr p) as [p _ IH]. intros H. by apply (IH p H). Qed.
Lemma kids_dom m q : kids m q <> [] -> is_Some (m !! q).
Proof. unfold kids. destruct (m !! q); [by eexists|done]. Qed.

(** ** Lists with a marked element *)

Lemma cons_split (a b a' b' : list ptr) p c : a ++ p :: b = a' ++ c :: b' ->
  (exists a2, a = a' ++ c :: a2 /\ b' = a2 ++ p :: b) \/ (a = a' /\ p = c /\ b = b') \/
  (exists b2, b = b2 ++ c :: b' /\ a' = a ++ p :: b2).
Proof.
  revert a'. induction a as [|x a IH]; intros [|y a'] E; cbn in E; injection E as -> E.
  - right. left. by subst.
  - right. right. exists a'. by subst.
  - left. exists a. by subst.
  - destruct (IH _ E) as [(a2 & -> & ->)|[(-> & -> & ->)|(b2 & -> & ->)]]; [left; by exists a2|right; by left|right; right; by exists b2].
Qed.
Lemma app_split (a b a' b' : list ptr) c : a ++ b = a' ++ c :: b' ->
  (exists a2, a = a' ++ c :: a2 /\ b' = a2 ++ b) \/ (exists b2, b = b2 ++ c :: b' /\ a' = a ++ b2).
Proof.
  revert a'. induction a as [|x a IH]; intros a' E; cbn in E.
  - right. by exists a'.
  - destruct a' as [|y a']; cbn in E; injection E as -> E; [left; exists a; by subst|].
    destruct (IH _ E) as [(a2 & -> & ->)|(b2 & -> & ->)]; [left; by exists a2|right; by exists b2].
Qed.
Lemma last_in (a : list ptr) x : last a = Some x -> x ∈ a.
Proof. intros [a' ->]%last_Some. apply elem_of_app. right. by left. Qed.
Lemma head_in (b : list ptr) x : head b = Some x -> x ∈ b.
Proof. destruct b; [done|]. intros [= ->]. by left. Qed.
Lemma last_mid (a b : list ptr) x : last (a ++ x :: b) = match last b with Some y => Some y | None => Some x end.
Proof. rewrite last_app_cons. by rewrite last_cons. Qed.

(** ** A root becomes a child *)

Definition with_kids q l m : forest := alter (fun x => (x.1, l)) q m.
Lemma kids_same q l m : is_Some (m !! q) -> kids (with_kids q l m) q = l.
Proof. intros [[d k] E]. unfold kids, with_kids. by rewrite lookup_alter_eq, E. Qed.
Lemma kids_other q l m q' : q' <> q -> kids (with_kids q l m) q' = kids m q'.
Proof. intros H. unfold kids, with_kids. by rewrite lookup_alter_ne by done. Qed.
Lemma with_kids_lookup q l m p : with_kids q l m !! p = (fun x => if decide (p = q) then (x.1, l) else x) <$> m !! p.
Proof.
  unfold with_kids. destruct (decide (p = q)) as [->|H].
  - rewrite lookup_alter_eq. by destruct (m !! q).
  - rewrite lookup_alter_ne by done. by destruct (m !! p).
Qed.

(** The nodes when [p] is put between [a] and [b] under [q], and when it is taken out. *)
Definition linked q p a b (x : ptr) (n : node) : node :=
  mkNTree (data n)
    (if decide (x = p) then head b else if decide (last a = Some x) then Some p else next n)
    (if decide (x = p) then last a else if decide (head b = Some x) then Some p else prev n)
    (if decide (x = p) then Some q else parent n)
    (if decide (x = q) then head (a ++ p :: b) else children n).
Definition unlinked q p a b (x : ptr) (n : node) : node :=
  mkNTree (data n)
    (if decide (x = p) then None else if decide (last a = Some x) then head b else next n)
    (if decide (x = p) then None else if decide (head b = Some x) then last a else prev n)
    (if decide (x = p) then None else parent n)
    (if decide (x = q) then head (a ++ b) else children n).

Definition above m : relation ptr := rtc (fun c q => child m c q).

Lemma wf_insert m q p a b : (forall x, Acc (child m) x) -> kids m q = a ++ b -> is_Some (m !! q) -> ~ above m q p ->
  forall x, Acc (child (with_kids q (a ++ p :: b) m)) x.
Proof.
  intros Hwf Hk Hq Habove.
  assert (Hnew : forall c x, child (with_kids q (a ++ p :: b) m) c x -> child m c x \/ (c = p /\ x = q)).
  { intros c x. unfold child. destruct (decide (x = q)) as [->|Hne]; [|rewrite kids_other by done; by left].
    rewrite kids_same, Hk by done. rewrite elem_of_app, elem_of_cons. intros [|[->|]]; [left|by right|left]; apply elem_of_app; auto. }
  assert (Hbelow : forall x, above m x p -> Acc (child (with_kids q (a ++ p :: b) m)) x).
  { intros x. induction (Hwf x) as [x _ IH]. intros Hx. constructor. intros c [Hc|[-> ->]]%Hnew; [|done].
    apply (IH c Hc). by eapply rtc_l. }
  intros x. induction (Hwf x) as [x _ IH]. constructor. intros c [Hc|[-> ->]]%Hnew; [by apply IH|]. by apply Hbelow.
Qed.

Lemma rep_link s m q p a b s' :
  ntree_rep s m -> is_Some (m !! q) -> root m p -> kids m q = a ++ b -> ~ above m q p ->
  (forall x, s' !! x = linked q p a b x <$> s !! x) -> ntree_rep s' (with_kids q (a ++ p :: b) m).
Proof.
  intros Hr Hq [Hp Hroot] Hk Hab Hs.
  assert (Hpa : p ∉ a) by (intros H; apply (Hroot q); unfold child; rewrite Hk; apply elem_of_app; auto).
  assert (Hpb : p ∉ b) by (intros H; apply (Hroot q); unfold child; rewrite Hk; apply elem_of_app; auto).
  pose proof (nt_nodup _ _ Hr q) as Hnd. rewrite Hk in Hnd. apply NoDup_app in Hnd as (Hna & Hdis & Hnb).
  constructor.
  - intros x n Hx. rewrite Hs in Hx. apply fmap_Some in Hx as (n0 & Hx & ->).
    destruct (nt_node _ _ Hr x n0 Hx) as (l & Hm & Hc). rewrite with_kids_lookup, Hm. cbn.
    destruct (decide (x = q)) as [->|]; [by exists (a ++ p :: b)|by exists l].
  - intros x Hx. rewrite Hs, fmap_is_Some. apply (nt_dom _ _ Hr). rewrite with_kids_lookup in Hx. by rewrite fmap_is_Some in Hx.
  - intros q' a' c b' E. destruct (decide (q' = q)) as [->|Hne].
    2:{ rewrite kids_other in E by done. destruct (nt_links _ _ Hr _ _ _ _ E) as (n & Hc & Hpa' & Hpr & Hne').
        assert (Hcq : child m c q') by (unfold child; rewrite E; apply elem_of_app; right; by left).
        assert (Hnq : ~ child m c q) by (intros H; apply Hne; by eapply one_parent).
        exists (linked q p a b c n). rewrite Hs, Hc. split; [done|]. cbn.
        rewrite !(decide_False (P:=c = p)) by (intros ->; by destruct (Hroot q')).
        rewrite (decide_False (P:=last a = Some c)) by (intros H; apply Hnq; unfold child; rewrite Hk; apply elem_of_app; left; by apply last_in).
        rewrite (decide_False (P:=head b = Some c)) by (intros H; apply Hnq; unfold child; rewrite Hk; apply elem_of_app; right; by apply head_in).
        done. }
    rewrite kids_same in E by done. destruct (cons_split _ _ _ _ _ _ E) as [(a2 & -> & ->)|[(-> & -> & ->)|(b2 & -> & ->)]].
    + destruct (nt_links _ _ Hr q a' c (a2 ++ b)) as (n & Hc & Hpar & Hpr & Hne); [by rewrite Hk, <- app_assoc|].
      exists (linked q p (a' ++ c :: a2) b c n). rewrite Hs, Hc. split; [done|]. cbn.
      rewrite !(decide_False (P:=c = p)) by (intros ->; apply Hpa; apply elem_of_app; right; by left).
      rewrite (decide_False (P:=head b = Some c)).
      2:{ intros H. apply (Hdis c); [apply elem_of_app; right; by left|by apply head_in]. }
      split_and!; [done|done|]. rewrite last_mid. destruct (last a2) as [y|] eqn:El.
      * apply last_in in El. rewrite decide_False. { rewrite Hne. by destruct a2 as [|z a2]; [apply not_elem_of_nil in El|]. }
        intros [= ->]. apply NoDup_app in Hna as (_ & _ & [Hn _]%NoDup_cons). done.
      * apply last_None in El as ->. by rewrite decide_True.
    + destruct (nt_dom _ _ Hr c Hp) as [n Hn]. exists (linked q c a' b' c n). rewrite Hs, Hn. split; [done|]. cbn.
      by rewrite !decide_True by done.
    + destruct (nt_links _ _ Hr q (a ++ b2) c b') as (n & Hc & Hpar & Hpr & Hne); [by rewrite Hk, <- app_assoc|].
      exists (linked q p a (b2 ++ c :: b') c n). rewrite Hs, Hc. split; [done|]. cbn.
      rewrite !(decide_False (P:=c = p)) by (intros ->; apply Hpb; apply elem_of_app; right; by left).
      rewrite (decide_False (P:=last a = Some c)).
      2:{ intros H%last_in. apply (Hdis c H). apply elem_of_app. right. by left. }
      split_and!; [done| |done]. destruct b2 as [|z b2]; cbn [app head].
      * by rewrite decide_True, last_mid.
      * rewrite decide_False. { by rewrite Hpr, !last_app_cons. }
        intros [= ->]. cbn in Hnb. apply NoDup_cons in Hnb as [Hn _]. apply Hn. apply elem_of_app. right. by left.
  - intros x n Hx Hno. rewrite Hs in Hx. apply fmap_Some in Hx as (n0 & Hx & ->).
    assert (Hxq : x ∉ a ++ p :: b) by (intros H; apply (Hno q); unfold child; by rewrite kids_same).
    rewrite elem_of_app, elem_of_cons in Hxq.
    destruct (nt_root _ _ Hr x n0 Hx) as (H1 & H2 & H3).
    { intros q' Hq'. destruct (decide (q' = q)) as [->|Hne].
      - unfold child in Hq'. rewrite Hk, elem_of_app in Hq'. tauto.
      - apply (Hno q'). unfold child. by rewrite kids_other. }
    cbn. rewrite !(decide_False (P:=x = p)) by tauto.
    rewrite (decide_False (P:=last a = Some x)) by (intros H%last_in; tauto).
    by rewrite (decide_False (P:=head b = Some x)) by (intros H%head_in; tauto).
  - intros x. destruct (decide (x = q)) as [->|Hne]; [|rewrite kids_other by done; apply Hr].
    rewrite kids_same by done. apply NoDup_app. split_and!; [done| |by constructor].
    intros y Hy [->|Hy']%elem_of_cons; [done|]. by apply (Hdis y).
  - apply wf_insert; [apply Hr|done..].
Qed.

(** ** A child becomes a root *)

Lemma rep_unlink s m q p a b s' :
  ntree_rep s m -> kids m q = a ++ p :: b ->
  (forall x, s' !! x = unlinked q p a b x <$> s !! x) -> ntree_rep s' (with_kids q (a ++ b) m).
Proof.
  intros Hr Hk Hs. assert (Hq : is_Some (m !! q)) by (apply kids_dom; rewrite Hk; by destruct a).
  assert (Hpq : child m p q) by (unfold child; rewrite Hk; apply elem_of_app; right; by left).
  pose proof (nt_nodup _ _ Hr q) as Hnd. rewrite Hk in Hnd. apply NoDup_app in Hnd as (Hna & Hdis & [Hpb Hnb]%NoDup_cons).
  assert (Hpa : p ∉ a) by (intros H; apply (Hdis p H); by left).
  assert (Hin : forall c, c ∈ a ++ b -> child m c q /\ c <> p).
  { intros c. rewrite elem_of_app. intros H. split; [|intros ->; tauto]. unfold child. rewrite Hk, elem_of_app, elem_of_cons. tauto. }
  assert (Hback : forall c x, child (with_kids q (a ++ b) m) c x -> child m c x).
  { intros c x. unfold child. destruct (decide (x = q)) as [->|Hne]; [|by rewrite kids_other].
    rewrite kids_same by done. intros H. by apply Hin. }
  constructor.
  - intros x n Hx. rewrite Hs in Hx. apply fmap_Some in Hx as (n0 & Hx & ->).
    destruct (nt_node _ _ Hr x n0 Hx) as (l & Hm & Hc). rewrite with_kids_lookup, Hm. cbn.
    destruct (decide (x = q)) as [->|]; [by exists (a ++ b)|by exists l].
  - intros x Hx. rewrite Hs, fmap_is_Some. apply (nt_dom _ _ Hr). rewrite with_kids_lookup in Hx. by rewrite fmap_is_Some in Hx.
  - intros q' a' c b' E. destruct (decide (q' = q)) as [->|Hne].
    2:{ rewrite kids_other in E by done. destruct (nt_links _ _ Hr _ _ _ _ E) as (n & Hc & Hpa' & Hpr & Hne').
        assert (Hcq : child m c q') by (unfold child; rewrite E; apply elem_of_app; right; by left).
        assert (Hnq : ~ child m c q) by (intros H; apply Hne; by eapply one_parent).
        exists (unlinked q p a b c n). rewrite Hs, Hc. split; [done|]. cbn.
        rewrite !(decide_False (P:=c = p)) by (intros ->; by apply Hnq).
        rewrite (decide_False (P:=last a = Some c)) by (intros H%last_in; apply Hnq, Hin; apply elem_of_app; by left).
        by rewrite (decide_False (P:=head b = Some c)) by (intros H%head_in; apply Hnq, Hin; apply elem_of_app; by right). }
    rewrite kids_same in E by done. destruct (app_split _ _ _ _ _ E) as [(a2 & -> & ->)|(b2 & -> & ->)].
    + destruct (nt_links _ _ Hr q a' c (a2 ++ p :: b)) as (n & Hc & Hpar & Hpr & Hne); [by rewrite Hk, <- app_assoc|].
      exists (unlinked q p (a' ++ c :: a2) b c n). rewrite Hs, Hc. split; [done|]. cbn.
      rewrite !(decide_False (P:=c = p)) by (intros ->; apply Hpa; apply elem_of_app; right; by left).
      rewrite (decide_False (P:=head b = Some c)).
      2:{ intros H%head_in. apply (Hdis c); [apply elem_of_app; right; by left|by right]. }
      split_and!; [done|done|]. rewrite last_mid. destruct (last a2) as [y|] eqn:El.
      * apply last_in in El. rewrite decide_False. { rewrite Hne. by destruct a2 as [|z a2]; [apply not_elem_of_nil in El|]. }
        intros [= ->]. apply NoDup_app in Hna as (_ & _ & [Hn _]%NoDup_cons). done.
      * apply last_None in El as ->. by rewrite decide_True.
    + destruct (nt_links _ _ Hr q (a ++ p :: b2) c b') as (n & Hc & Hpar & Hpr & Hne); [by rewrite Hk, <- app_assoc|].
      exists (unlinked q p a (b2 ++ c :: b') c n). rewrite Hs, Hc. split; [done|]. cbn.
      rewrite !(decide_False (P:=c = p)) by (intros ->; apply Hpb; apply elem_of_app; right; by left).
      rewrite (decide_False (P:=last a = Some c)).
      2:{ intros H%last_in. apply (Hdis c H). right. apply elem_of_app. right. by left. }
      split_and!; [done| |done]. destruct b2 as [|z b2]; cbn [app head].
      * by rewrite decide_True, app_nil_r.
      * rewrite decide_False. { by rewrite Hpr, !last_app_cons. }
        intros [= ->]. cbn in Hnb. apply NoDup_cons in Hnb as [Hn _]. apply Hn. apply elem_of_app. right. by left.
  - intros x n Hx Hno. rewrite Hs in Hx. apply fmap_Some in Hx as (n0 & Hx & ->). cbn.
    destruct (decide (x = p)) as [->|Hxp]; [done|].
    assert (Hxq : x ∉ a ++ b) by (intros H; apply (Hno q); unfold child; by rewrite kids_same).
    rewrite elem_of_app in Hxq.
    rewrite (decide_False (P:=last a = Some x)) by (intros H%last_in; tauto).
    rewrite (decide_False (P:=head b = Some x)) by (intros H%head_in; tauto).
    apply (nt_root _ _ Hr x n0 Hx). intros q' Hq'. destruct (decide (q' = q)) as [->|Hne].
    + unfold child in Hq'. rewrite Hk, elem_of_app, elem_of_cons in Hq'. tauto.
    + apply (Hno q'). unfold child. by rewrite kids_other.
  - intros x. destruct (decide (x = q)) as [->|Hne]; [|rewrite kids_other by done; apply Hr].
    rewrite kids_same by done. apply NoDup_app. split_and!; [done| |done]. intros y Hy Hy'. apply (Hdis y Hy). by right.
  - intros x. induction (nt_wf _ _ Hr x) as [x _ IH]. constructor. intros c Hc. by apply IH, Hback.
Qed.

(** ** The children in the other order, a new node, and fewer nodes *)

Definition reversed q l (x : ptr) (n : node) : node :=
  mkNTree (data n) (if decide (x ∈ l) then prev n else next n) (if decide (x ∈ l) then next n else prev n)
    (parent n) (if decide (x = q) then last l else children n).
Lemma rep_reverse s m q s' :
  ntree_rep s m -> is_Some (m !! q) -> (forall x, s' !! x = reversed q (kids m q) x <$> s !! x) ->
  ntree_rep s' (with_kids q (reverse (kids m q)) m).
Proof.
  intros Hr Hq Hs.
  assert (Hsame : forall c x, child (with_kids q (reverse (kids m q)) m) c x <-> child m c x).
  { intros c x. unfold child. destruct (decide (x = q)) as [->|Hne]; [|by rewrite kids_other].
    rewrite kids_same by done. apply elem_of_reverse. }
  constructor.
  - intros x n Hx. rewrite Hs in Hx. apply fmap_Some in Hx as (n0 & Hx & ->).
    destruct (nt_node _ _ Hr x n0 Hx) as (l & Hm & Hc). rewrite with_kids_lookup, Hm. cbn.
    destruct (decide (x = q)) as [->|]; [exists (reverse (kids m q)); by rewrite head_reverse|by exists l].
  - intros x Hx. rewrite Hs, fmap_is_Some. apply (nt_dom _ _ Hr). rewrite with_kids_lookup in Hx. by rewrite fmap_is_Some in Hx.
  - intros q' a c b E. destruct (decide (q' = q)) as [->|Hne].
    + rewrite kids_same in E by done. apply (f_equal reverse) in E.
      rewrite reverse_involutive, reverse_app, reverse_cons, <- app_assoc in E. cbn in E.
      destruct (nt_links _ _ Hr q _ _ _ E) as (n & Hc & Hpa & Hpr & Hne). exists (reversed q (kids m q) c n).
      rewrite Hs, Hc. split; [done|]. cbn. rewrite !decide_True by (rewrite E; apply elem_of_app; right; by left).
      rewrite head_reverse in Hne. rewrite last_reverse in Hpr. by rewrite Hpr, Hne.
    + rewrite kids_other in E by done. destruct (nt_links _ _ Hr _ _ _ _ E) as (n & Hc & Hpa & Hpr & Hne').
      exists (reversed q (kids m q) c n). rewrite Hs, Hc. split; [done|]. cbn.
      destruct (decide (c ∈ kids m q)) as [H|]; [|done]. destruct Hne.
      apply (one_parent s m c); [done| |done]. unfold child. rewrite E. apply elem_of_app. right. by left.
  - intros x n Hx Hno. rewrite Hs in Hx. apply fmap_Some in Hx as (n0 & Hx & ->). cbn.
    assert (Hno' : forall q', ~ child m x q') by (intros q' H; by apply (Hno q'), Hsame).
    rewrite !decide_False by (apply (Hno' q)). by apply (nt_root _ _ Hr x n0 Hx).
  - intros x. destruct (decide (x = q)) as [->|Hne]; [|rewrite kids_other by done; apply Hr].
    rewrite kids_same by done. rewrite reverse_Permutation. apply Hr.
  - intros x. induction (nt_wf _ _ Hr x) as [x _ IH]. constructor. intros c Hc. by apply IH, Hsame.
Qed.

Lemma rep_new s m p (d : D) : ntree_rep s m -> s !! p = None ->
  ntree_rep (<[p := mkNTree d None None None None]> s) (<[p := (d, [])]> m).
Proof.
  intros Hr Hp. assert (Hmp : m !! p = None).
  { destruct (m !! p) eqn:E; [|done]. destruct (nt_dom _ _ Hr p) as [? ?]; [by eexists|congruence]. }
  assert (Hk : forall q, kids (<[p := (d, [])]> m) q = kids m q).
  { intros q. unfold kids. destruct (decide (q = p)) as [->|Hne]; [by rewrite lookup_insert_eq, Hmp|by rewrite lookup_insert_ne]. }
  constructor.
  - intros x n. destruct (decide (x = p)) as [->|Hne].
    + rewrite lookup_insert_eq. intros [= <-]. exists []. by rewrite lookup_insert_eq.
    + rewrite lookup_insert_ne by done. intros Hx. rewrite lookup_insert_ne by done. by apply Hr.
  - intros x. destruct (decide (x = p)) as [->|Hne]; [rewrite !lookup_insert_eq; by eexists|rewrite !lookup_insert_ne by done; apply Hr].
  - intros q a c b E. rewrite Hk in E. destruct (nt_links _ _ Hr _ _ _ _ E) as (n & Hc & H). exists n. split; [|done].
    rewrite lookup_insert_ne; [done|]. intros <-. congruence.
  - intros x n. destruct (decide (x = p)) as [->|Hne].
    + rewrite lookup_insert_eq. by intros [= <-].
    + rewrite lookup_insert_ne by done. intros Hx Hno. apply (nt_root _ _ Hr x n Hx). intros q Hq. apply (Hno q). unfold child. by rewrite Hk.
  - intros q. rewrite Hk. apply Hr.
  - intros x. induction (nt_wf _ _ Hr x) as [x _ IH]. constructor. intros c Hc. apply IH. unfold child in *. by rewrite Hk in Hc.
Qed.

(** Removal of nodes that are the whole of some trees. *)
Definition without (xs : list ptr) {B} (m : gmap ptr B) : gmap ptr B := filter (fun x => x.1 ∉ xs) m.
Lemma without_lookup xs {B} (m : gmap ptr B) p : without xs m !! p = if decide (p ∈ xs) then None else m !! p.
Proof.
  unfold without. destruct (decide (p ∈ xs)) as [Hp|Hp].
  - apply map_lookup_filter_None. right. intros x _. cbn. tauto.
  - destruct (m !! p) as [x|] eqn:E.
    + by apply map_lookup_filter_Some.
    + apply map_lookup_filter_None. by left.
Qed.
Lemma rep_without s m xs : ntree_rep s m ->
  (forall c q, child m c q -> (c ∈ xs <-> q ∈ xs)) -> ntree_rep (without xs s) (without xs m).
Proof.
  intros Hr Hx.
  assert (Hk : forall q, kids (without xs m) q = if decide (q ∈ xs) then [] else kids m q).
  { intros q. unfold kids. rewrite without_lookup. by destruct (decide (q ∈ xs)). }
  constructor.
  - intros p n. rewrite without_lookup. destruct (decide (p ∈ xs)) as [|Hp]; [done|]. intros Hn.
    rewrite without_lookup, decide_False by done. by apply Hr.
  - intros p. rewrite !without_lookup. destruct (decide (p ∈ xs)); [by intros []|]. apply Hr.
  - intros q a c b E. rewrite Hk in E. destruct (decide (q ∈ xs)) as [|Hq]; [by destruct a|].
    destruct (nt_links _ _ Hr _ _ _ _ E) as (n & Hc & H). exists n. split; [|done]. rewrite without_lookup, decide_False; [done|].
    rewrite (Hx c q); [done|]. unfold child. rewrite E. apply elem_of_app. right. by left.
  - intros p n. rewrite without_lookup. destruct (decide (p ∈ xs)) as [|Hp]; [done|]. intros Hn Hno.
    apply (nt_root _ _ Hr p n Hn). intros q Hq. apply (Hno q). unfold child. rewrite Hk. rewrite decide_False; [done|].
    by rewrite <- (Hx p q).
  - intros q. rewrite Hk. destruct (decide (q ∈ xs)); [constructor|apply Hr].
  - intros p. induction (nt_wf _ _ Hr p) as [p _ IH]. constructor. intros c Hc. apply IH. unfold child in *. rewrite Hk in Hc.
    destruct (decide (p ∈ xs)); [by apply not_elem_of_nil in Hc|done].
Qed.

(** * Operations on a store that is a forest *)

Lemma alter_at (f : node -> node) p s x : alter f p s !! x = (fun n => if decide (x = p) then f n else n) <$> s !! x.
Proof.
  destruct (decide (x = p)) as [->|H].
  - rewrite lookup_alter_eq. by destruct (s !! p).
  - rewrite lookup_alter_ne by done. by destruct (s !! x).
Qed.
Lemma bind_read {B} p (k : node -> M nstore B) s n : s !! p = Some n -> (read p ≫= k) s = k n s.
Proof. intros E. unfold read, mbind, M_bind. by rewrite E. Qed.
Lemma bind_ret {A B} (x : A) (k : A -> M nstore B) s : (mret x ≫= k) s = k x s.
Proof. done. Qed.
Lemma write_alter p (f : node -> node) s : is_Some (s !! p) -> write p f s = Ok (tt, alter f p s).
Proof.
  intros [n E]. unfold write. rewrite E. do 2 f_equal. apply map_eq. intros x. rewrite alter_at.
  destruct (decide (x = p)) as [->|Hne]; [by rewrite lookup_insert_eq, E|rewrite lookup_insert_ne by done; by destruct (s !! x)].
Qed.
Lemma bind_write {B} p f (k : unit -> M nstore B) s : is_Some (s !! p) -> (write p f ≫= k) s = k tt (alter f p s).
Proof. intros Hs. unfold mbind, M_bind. by rewrite write_alter. Qed.
Lemma alter_some f p s x : is_Some (s !! x) -> is_Some (alter f p s !! x).
Proof. intros H. rewrite alter_at. by apply fmap_is_Some. Qed.
#[local] Hint Resolve alter_some : core.

(** Two stores are compared address by address. *)
Ltac nt_point x :=
  repeat match goal with |- context [alter _ _ _ !! x] => rewrite alter_at end;
  let n := fresh "n" in let En := fresh "En" in
  match goal with |- context [?s !! x] => destruct (s !! x) as [n|] eqn:En; [|reflexivity] end; cbn; f_equal;
  repeat match goal with |- context [decide ?P] => destruct (decide P) end;
  subst; try congruence; unfold set_prev, set_next, set_parent, set_children; cbn;
  try match goal with H : forall n, _ = Some n -> children n = _ |- _ => pose proof (H _ En) end;
  cbn in *; try reflexivity; try congruence; try (destruct n; cbn in *; congruence).

Lemma node_in s m p n : ntree_rep s m -> s !! p = Some n -> is_Some (m !! p).
Proof. intros Hr Hp. destruct (nt_node _ _ Hr p n Hp) as (l & -> & _). by eexists. Qed.
Lemma node_children s m p n : ntree_rep s m -> s !! p = Some n -> children n = head (kids m p).
Proof. intros Hr Hp. destruct (nt_node _ _ Hr p n Hp) as (l & E & Hc). unfold kids. by rewrite E. Qed.
Lemma kids_size s m q : ntree_rep s m -> (length (kids m q) <= base.size s)%nat.
Proof.
  intros Hr. rewrite <- (size_list_to_set (C:=gset ptr) (kids m q)) by apply Hr. rewrite <- (size_dom (D:=gset ptr) s).
  apply subseteq_size. intros c Hc. apply elem_of_list_to_set in Hc. apply elem_of_dom.
  destruct (child_parent s m c q Hr Hc) as (n & -> & _). by eexists.
Qed.
Lemma child_some s m c q : ntree_rep s m -> child m c q -> is_Some (s !! c).
Proof. intros Hr Hc. destruct (child_parent _ _ _ _ Hr Hc) as (n & -> & _). by eexists. Qed.

Lemma unlink_run s m p : ntree_rep s m -> is_Some (m !! p) ->
  (root m p /\ kr_ntree_unlink (Some p) s = Ok (tt, s)) \/
  exists q a b s', kids m q = a ++ p :: b /\ kr_ntree_unlink (Some p) s = Ok (tt, s') /\
    forall x, s' !! x = unlinked q p a b x <$> s !! x.
Proof.
  intros Hr Hp. destruct (nt_dom _ _ Hr p Hp) as [n En]. unfold kr_ntree_unlink. rewrite (bind_read _ _ _ _ En).
  destruct (parent n) as [q|] eqn:Epar.
  - right. pose proof (parent_child s m p q n Hr En Epar) as Hc. destruct (child_split _ _ _ Hc) as (a & b & Ek).
    destruct (nt_links _ _ Hr _ _ _ _ Ek) as (n' & En' & _ & Eprev & Enext). assert (n' = n) as -> by congruence.
    assert (Hq : is_Some (s !! q)).
    { apply (nt_dom _ _ Hr), kids_dom. rewrite Ek. by destruct a. }
    assert (Hpq : p <> q) by (intros ->; by apply (child_irrefl s m q)).
    pose proof (nt_nodup _ _ Hr q) as Hnd. rewrite Ek in Hnd. apply NoDup_app in Hnd as (Hna & Hdis & [Hpb Hnb]%NoDup_cons).
    assert (Hpa : p ∉ a) by (intros H; apply (Hdis p H); by left).
    assert (Hin : forall c, c ∈ a \/ c ∈ b -> is_Some (s !! c) /\ c <> q /\ c <> p).
    { intros c Hor. assert (Hcq : child m c q) by (unfold child; rewrite Ek, elem_of_app, elem_of_cons; tauto).
      split_and!; [by eapply child_some|intros ->; by apply (child_irrefl s m q)|intros ->; tauto]. }
    destruct (nt_node _ _ Hr p n En) as (lp & _ & _).
    pose proof (fun nq (H : s !! q = Some nq) => node_children s m q nq Hr H) as Hcq. rewrite Ek in Hcq.
    exists q, a, b. rewrite Eprev, Enext.
    destruct (last a) as [y|] eqn:Ela.
    + pose proof (last_in _ _ Ela) as Hy. destruct (Hin y (or_introl Hy)) as (Hys & Hyq & Hyp).
      rewrite (bind_write y) by done. rewrite (bind_write p) by auto.
      erewrite bind_read by (rewrite !alter_at, En; reflexivity). cbn. rewrite (decide_False (P:=p = y)), decide_True by done. cbn.
      rewrite Enext, Eprev.
      destruct (head b) as [z|] eqn:Ehb.
      * pose proof (head_in _ _ Ehb) as Hz. destruct (Hin z (or_intror Hz)) as (Hzs & Hzq & Hzp).
        assert (Hyz : y <> z) by (intros ->; apply (Hdis z Hy); by right).
        eexists. split; [done|]. split.
        { unfold mbind, M_bind. rewrite write_alter by auto. cbn. rewrite write_alter by auto. cbn. by rewrite write_alter by auto. }
        intros x. unfold unlinked. rewrite Ela, Ehb. destruct a; [done|]. nt_point x.
      * eexists. split; [done|]. split.
        { unfold mbind, M_bind. cbn. by rewrite write_alter by auto. }
        intros x. unfold unlinked. rewrite Ela, Ehb. destruct a; [done|]. nt_point x.
    + apply last_None in Ela as ->. cbn [app] in *.
      rewrite (bind_write q) by done. rewrite (bind_write p) by auto.
      erewrite bind_read by (rewrite !alter_at, En; reflexivity). cbn. rewrite (decide_False (P:=p = q)), decide_True by done. cbn.
      rewrite Enext, Eprev.
      destruct (head b) as [z|] eqn:Ehb.
      * pose proof (head_in _ _ Ehb) as Hz. destruct (Hin z (or_intror Hz)) as (Hzs & Hzq & Hzp).
        eexists. split; [done|]. split.
        { unfold mbind, M_bind. rewrite write_alter by auto. cbn. rewrite write_alter by auto. cbn. by rewrite write_alter by auto. }
        intros x. unfold unlinked. rewrite Ehb. cbn [app last]. nt_point x.
      * eexists. split; [done|]. split.
        { unfold mbind, M_bind. cbn. by rewrite write_alter by auto. }
        intros x. unfold unlinked. rewrite Ehb. cbn [app last]. nt_point x.
  - left. pose proof (proj2 (root_parent s m p n Hr En) Epar) as Hroot. split; [done|].
    destruct (nt_root _ _ Hr p n En (proj2 Hroot)) as (_ & Eprev & Enext). rewrite Eprev, bind_ret.
    rewrite (bind_write p) by auto. erewrite bind_read by (rewrite !alter_at, En; reflexivity). cbn.
    rewrite decide_True by done. cbn. rewrite Enext, bind_ret. rewrite write_alter by auto.
    do 2 f_equal. apply map_eq. intros x. rewrite !alter_at. destruct (decide (x = p)) as [->|]; [|by destruct (s !! x)].
    rewrite En. cbn. f_equal. destruct n; cbn in *; by subst.
Qed.

(** A list of nodes linked by [next]. *)
Definition chained s l : Prop := forall a c b, l = a ++ c :: b -> exists n, s !! c = Some n /\ next n = head b.
Lemma kids_chained s m q : ntree_rep s m -> chained s (kids m q).
Proof. intros Hr a c b E. destruct (nt_links _ _ Hr _ _ _ _ E) as (n & ? & _ & _ & ?). by exists n. Qed.
Lemma chained_alter s l f p : chained s l -> (forall n, next (f n) = next n) -> chained (alter f p s) l.
Proof.
  intros Hl Hf a c b E. destruct (Hl _ _ _ E) as (n & En & Hn). rewrite alter_at, En. cbn.
  eexists. split; [done|]. destruct (decide (c = p)); [by rewrite Hf|done].
Qed.
Lemma last_along_next s l : chained s l -> forall b a c fuel, l = a ++ c :: b -> (length b < fuel)%nat ->
  exists z, last_along next fuel c s = Ok (z, s) /\ last (c :: b) = Some z.
Proof.
  intros Hl. induction b as [|y b IH]; intros a c [|fuel] E Hf; cbn [List.length] in Hf; try lia; cbn [last_along];
    destruct (Hl _ _ _ E) as (n & En & Enext); rewrite (bind_read _ _ _ _ En), Enext; cbn [head].
  - by exists c.
  - destruct (IH (a ++ [c]) y fuel) as (z & Ez & Hz); [by rewrite <- app_assoc|lia|]. exists z. split; [exact Ez|]. by rewrite last_cons, Hz.
Qed.
Lemma fueled_last_along s c b : chained s (c :: b) -> (length b <= base.size s)%nat ->
  exists z, fueled (fun fuel => last_along next fuel c) s = Ok (z, s) /\ last (c :: b) = Some z.
Proof. intros Hl Hs. unfold fueled, fuel_of. apply (last_along_next s (c :: b) Hl b [] c); [done|lia]. Qed.

(** The calls that insert run the change only for a root under a parent. *)
Lemma if_root_run s m q p f : ntree_rep s m -> is_Some (m !! p) ->
  (root m p /\ exists n, s !! p = Some n /\ parent n = None /\ prev n = None /\ next n = None /\
     if_root (Some q) (Some p) f s = match f q p s with Ok (_, s') => Ok (Some p, s') | Fault e => Fault e end) \/
  (~ root m p /\ if_root (Some q) (Some p) f s = Ok (Some p, s)).
Proof.
  intros Hr Hp. destruct (nt_dom _ _ Hr p Hp) as [n En]. unfold if_root. rewrite (bind_read _ _ _ _ En).
  pose proof (is_root_spec s m p n Hr En) as Hir. destruct (KR_NTREE_IS_ROOT n).
  - left. assert (Hroot : root m p) by (by apply Hir). split; [done|]. exists n.
    destruct (nt_root _ _ Hr p n En (proj2 Hroot)) as (? & ? & ?). by split_and!.
  - right. split; [|done]. intros Hroot. by apply Hir in Hroot.
Qed.
Lemma insert_facts s m q p a b : ntree_rep s m -> root m p -> kids m q = a ++ b -> ~ above m q p ->
  p <> q /\ forall c, c ∈ a \/ c ∈ b -> is_Some (s !! c) /\ c <> q /\ c <> p /\ exists n, s !! c = Some n /\ parent n = Some q.
Proof.
  intros Hr [_ Hroot] Hk Hab. split; [intros ->; by apply Hab|]. intros c Hor.
  assert (Hc : child m c q) by (unfold child; rewrite Hk, elem_of_app; tauto).
  split_and!; [by eapply child_some|intros ->; by apply (child_irrefl s m q)|intros ->; by apply (Hroot q)|by apply (child_parent s m)].
Qed.

(** What is inserted where: [sibling] is the child that follows. *)
Lemma insert_before_run s m q p a b : ntree_rep s m -> is_Some (m !! q) -> root m p -> kids m q = a ++ b -> ~ above m q p ->
  exists s', kr_ntree_insert_before (Some q) (head b) (Some p) s = Ok (Some p, s') /\
    forall x, s' !! x = linked q p a b x <$> s !! x.
Proof.
  intros Hr Hq Hroot Hk Hab. destruct (insert_facts s m q p a b Hr Hroot Hk Hab) as [Hpq Hin].
  destruct (nt_dom _ _ Hr q Hq) as [nq Eq]. pose proof (node_children s m q nq Hr Eq) as Hcq. rewrite Hk in Hcq.
  assert (Hcq' : forall n, s !! q = Some n -> children n = head (a ++ b)) by (intros n E; congruence).
  pose proof (nt_nodup _ _ Hr q) as Hnd. rewrite Hk in Hnd. apply NoDup_app in Hnd as (Hna & Hdis & Hnb).
  unfold kr_ntree_insert_before.
  match goal with |- context [if_root _ _ ?f] => destruct (if_root_run s m q p f Hr (proj1 Hroot))
    as [(_ & n & En & Hn1 & Hn2 & Hn3 & ->)|[Hno _]]; [|by destruct Hno] end. cbv beta.
  assert (Hps : is_Some (s !! p)) by (by eexists). assert (Hqs : is_Some (s !! q)) by (by eexists).
  destruct b as [|z b]; cbn [head].
  - rewrite (bind_write p) by done. erewrite bind_read by (rewrite !alter_at, Eq; reflexivity).
    rewrite decide_False by done. rewrite app_nil_r in *. destruct a as [|c a]; rewrite Hcq; cbn [head app].
    + unfold mbind, M_bind. rewrite write_alter by auto. eexists. split; [reflexivity|]. intros x. unfold linked. cbn [app last head]. nt_point x.
    + destruct (fueled_last_along (alter (set_parent (Some q)) p s) c a) as (y & Ey & Hy).
      { apply chained_alter; [|done]. rewrite <- Hk. by eapply kids_chained. }
      { pose proof (kids_size s m q Hr) as Hs. rewrite Hk in Hs. cbn in Hs. rewrite <- (size_dom (D:=gset ptr)), dom_alter_L, size_dom. lia. }
      rewrite (bind_ok _ _ _ _ _ Ey). destruct (Hin y) as (Hys & Hyq & Hyp & _); [left; by apply last_in|].
      rewrite (bind_write p) by auto. rewrite write_alter by auto. eexists. split; [reflexivity|].
      intros x. unfold linked. rewrite Hy. cbn [app head]. nt_point x.
  - destruct (Hin z) as (Hzs & Hzq & Hzp & nz & Ez & Hzpar); [right; by left|].
    destruct (nt_links _ _ Hr q a z b Hk) as (nz' & Ez' & _ & Hzprev & Hznext). assert (nz' = nz) as -> by congruence.
    rewrite (bind_read _ _ _ _ Ez). rewrite bool_decide_eq_false_2 by (intros H; by apply H).
    rewrite (bind_write p) by done. erewrite bind_read by (rewrite !alter_at, Ez; reflexivity).
    rewrite decide_False by done. rewrite Hzprev. destruct (last a) as [y|] eqn:Ela.
    + destruct (Hin y) as (Hys & Hyq & Hyp & _); [left; by apply last_in|].
      assert (Hyz : y <> z) by (intros ->; apply (Hdis z); [by apply last_in|by left]).
      rewrite (bind_write p) by auto. rewrite (bind_write y) by auto. rewrite (bind_write p) by auto.
      rewrite write_alter by auto. eexists. split; [reflexivity|].
      intros x. unfold linked. rewrite Ela. cbn [app head]. destruct a as [|c a]; [done|]. cbn [app head] in *. nt_point x.
    + apply last_None in Ela as ->. rewrite (bind_write q) by auto. rewrite (bind_write p) by auto.
      rewrite write_alter by auto. eexists. split; [reflexivity|].
      intros x. unfold linked. cbn [app head last] in *. nt_point x.
Qed.
Lemma insert_after_run s m q p a b : ntree_rep s m -> is_Some (m !! q) -> root m p -> kids m q = a ++ b -> ~ above m q p ->
  (a = [] \/ last a <> None) ->
  exists s', kr_ntree_insert_after (Some q) (last a) (Some p) s = Ok (Some p, s') /\
    forall x, s' !! x = linked q p a b x <$> s !! x.
Proof.
  intros Hr Hq Hroot Hk Hab _. destruct (insert_facts s m q p a b Hr Hroot Hk Hab) as [Hpq Hin].
  destruct (nt_dom _ _ Hr q Hq) as [nq Eq]. pose proof (node_children s m q nq Hr Eq) as Hcq. rewrite Hk in Hcq.
  assert (Hcq' : forall n, s !! q = Some n -> children n = head (a ++ b)) by (intros n E; congruence).
  pose proof (nt_nodup _ _ Hr q) as Hnd. rewrite Hk in Hnd. apply NoDup_app in Hnd as (Hna & Hdis & Hnb).
  unfold kr_ntree_insert_after.
  match goal with |- context [if_root _ _ ?f] => destruct (if_root_run s m q p f Hr (proj1 Hroot))
    as [(_ & n & En & Hn1 & Hn2 & Hn3 & ->)|[Hno _]]; [|by destruct Hno] end. cbv beta.
  assert (Hps : is_Some (s !! p)) by (by eexists). assert (Hqs : is_Some (s !! q)) by (by eexists).
  destruct (last a) as [y|] eqn:Ela.
  - destruct (Hin y) as (Hys & Hyq & Hyp & ny & Ey & Hypar); [left; by apply last_in|].
    pose proof Ela as [a0 ->]%last_Some. rewrite <- app_assoc in Hk. cbn in Hk.
    destruct (nt_links _ _ Hr q a0 y b Hk) as (ny' & Ey' & _ & Hyprev & Hynext). assert (ny' = ny) as -> by congruence.
    rewrite (bind_read _ _ _ _ Ey). rewrite bool_decide_eq_false_2 by (intros H; by apply H).
    rewrite (bind_write p) by done. erewrite bind_read by (rewrite !alter_at, Ey; reflexivity).
    rewrite decide_False by done. rewrite Hynext. destruct b as [|z b]; cbn [head].
    + rewrite bind_ret. erewrite bind_read by (rewrite !alter_at, Ey; reflexivity). rewrite decide_False by done.
      rewrite (bind_write p) by auto. rewrite (bind_write p) by auto. rewrite write_alter by auto.
      eexists. split; [reflexivity|]. intros x. unfold linked. rewrite Ela. rewrite app_nil_r in *.
      destruct a0 as [|c0 a0]; cbn [app head] in *; nt_point x.
    + destruct (Hin z) as (Hzs & Hzq & Hzp & _); [right; by left|].
      assert (Hyz : y <> z) by (intros ->; apply (Hdis z); [by apply last_in|by left]).
      rewrite (bind_write z) by auto. erewrite bind_read by (rewrite !alter_at, Ey; reflexivity).
      rewrite !decide_False by done.
      rewrite (bind_write p) by auto. rewrite (bind_write p) by auto. rewrite write_alter by auto.
      eexists. split; [reflexivity|]. intros x. unfold linked. rewrite Ela.
      destruct a0 as [|c0 a0]; cbn [app head] in *; nt_point x.
  - apply last_None in Ela as ->. cbn [app] in *. rewrite (bind_write p) by done.
    erewrite bind_read by (rewrite !alter_at, Eq; reflexivity). rewrite decide_False by done.
    rewrite Hcq. destruct b as [|z b]; cbn [head].
    + rewrite bind_ret. rewrite write_alter by auto. eexists. split; [reflexivity|].
      intros x. unfold linked. cbn [app head last] in *. nt_point x.
    + destruct (Hin z) as (Hzs & Hzq & Hzp & _); [right; by left|].
      unfold mbind, M_bind. rewrite !write_alter by auto. eexists. split; [reflexivity|].
      intros x. unfold linked. cbn [app head last] in *. nt_point x.
Qed.

Lemma reverse_run s m q : ntree_rep s m -> is_Some (m !! q) ->
  exists s', kr_ntree_reverse_children (Some q) s = Ok (tt, s') /\ forall x, s' !! x = reversed q (kids m q) x <$> s !! x.
Proof.
  intros Hr Hq. destruct (nt_dom _ _ Hr q Hq) as [nq Eq]. pose proof (node_children s m q nq Hr Eq) as Hcq.
  unfold kr_ntree_reverse_children. rewrite (bind_read _ _ _ _ Eq), Hcq.
  set (turned a x (n : node) := mkNTree (data n) (if decide (x ∈ (a : list ptr)) then prev n else next n)
    (if decide (x ∈ a) then next n else prev n) (parent n) (children n)).
  assert (Hloop : forall b a fuel s0, kids m q = a ++ b -> (length b < fuel)%nat ->
    (forall x, s0 !! x = turned a x <$> s !! x) ->
    exists s', reverse_loop fuel (last a) (head b) s0 = Ok (last (kids m q), s') /\ forall x, s' !! x = turned (kids m q) x <$> s !! x).
  { induction b as [|c b IH]; intros a [|fuel] s0 Hk Hf Hs0; cbn [List.length] in Hf; try lia; cbn [reverse_loop head].
    - rewrite app_nil_r in Hk. rewrite <- Hk in *. by exists s0.
    - destruct (nt_links _ _ Hr _ _ _ _ Hk) as (n & En & _ & Eprev & Enext).
      pose proof (nt_nodup _ _ Hr q) as Hnd. rewrite Hk in Hnd. apply NoDup_app in Hnd as (_ & Hdis & [Hcb _]%NoDup_cons).
      assert (Hca : c ∉ a) by (intros H; apply (Hdis c H); by left).
      assert (Ec : s0 !! c = Some n).
      { rewrite Hs0, En. cbn. unfold turned. rewrite !(decide_False (P:=c ∈ a)) by done. by destruct n. }
      rewrite (bind_read _ _ _ _ Ec). rewrite (bind_write c) by (by eexists). rewrite (bind_write c) by (apply alter_some; by eexists).
      rewrite Enext. replace (Some c) with (last (a ++ [c])) by apply last_snoc.
      apply IH; [by rewrite <- app_assoc|lia|]. intros x. rewrite !alter_at, Hs0. destruct (s !! x) as [n0|] eqn:E0; [|done]. cbn. f_equal.
      unfold turned, set_prev, set_next. destruct (decide (x = c)) as [->|Hne].
      + rewrite !(decide_False (P:=c ∈ a)) by done. rewrite !decide_True by (apply elem_of_app; right; by left). cbn. congruence.
      + destruct (decide (x ∈ a)) as [Hxa|Hxa].
        * by rewrite !decide_True by (apply elem_of_app; by left).
        * by rewrite !(decide_False (P:=x ∈ a ++ [c])) by (rewrite elem_of_app, list_elem_of_singleton; tauto). }
  pose proof (kids_size s m q Hr) as Hsz.
  destruct (Hloop (kids m q) [] (fuel_of s) s) as (s1 & E1 & Hs1); [done|unfold fuel_of; lia| |].
  { intros x. unfold turned. destruct (s !! x) as [[]|]; [|done]. cbn. by rewrite !(decide_False (P:=x ∈ [])) by apply not_elem_of_nil. }
  cbn [last] in E1. rewrite (bind_ok _ _ _ (last (kids m q)) s1) by exact E1.
  rewrite write_alter by (rewrite Hs1, Eq; by eexists). eexists. split; [reflexivity|].
  intros x. rewrite alter_at, Hs1. destruct (s !! x) as [n0|]; [|done]. cbn. f_equal. unfold reversed, turned, set_children.
  by destruct (decide (x = q)).
Qed.

(** * Trees *)

Inductive tree := Tree (p : ptr) (d : D) (cs : list tree).
Definition root_of (t : tree) : ptr := let 'Tree p _ _ := t in p.
Definition cs_of (t : tree) : list tree := let 'Tree _ _ cs := t in cs.
Fixpoint addrs (t : tree) : list ptr := match t with Tree p _ cs => p :: concat (map addrs cs) end.
Definition all_addrs (ts : list tree) : list ptr := concat (map addrs ts).

Lemma tree_induction (P : tree -> Prop) : (forall p d cs, Forall P cs -> P (Tree p d cs)) -> forall t, P t.
Proof.
  intros H. fix IH 1. intros [p d cs]. apply H. induction cs as [|t cs IHc]; constructor; [apply IH|exact IHc].
Qed.

(** The tree of a node of a forest. *)
Inductive tree_of m : tree -> Prop :=
  tree_of_node p d cs : m !! p = Some (d, map root_of cs) -> Forall (tree_of m) cs -> tree_of m (Tree p d cs).

Lemma tree_exists s m p : ntree_rep s m -> is_Some (m !! p) -> exists t, tree_of m t /\ root_of t = p.
Proof.
  intros Hr. induction (nt_wf _ _ Hr p) as [p _ IH]. intros [[d l] E].
  assert (Hl : forall k, (forall c, c ∈ k -> c ∈ l) -> exists cs, map root_of cs = k /\ Forall (tree_of m) cs).
  { induction k as [|c k IHk]; intros Hk; [by exists []|].
    destruct (IHk) as (cs & Hcs & Hf); [intros x Hx; apply Hk; by right|].
    assert (Hc : child m c p) by (unfold child, kids; rewrite E; apply Hk; by left).
    destruct (IH c Hc) as (t & Ht & Hroot).
    { destruct (child_some s m c p Hr Hc) as [n En]. by eapply node_in. }
    exists (t :: cs). cbn. rewrite Hroot, Hcs. split; [done|by constructor]. }
  destruct (Hl l) as (cs & Hcs & Hf); [done|]. exists (Tree p d cs). split; [|done]. constructor; [by rewrite Hcs|done].
Qed.

Lemma above_addrs m t : tree_of m t -> forall x, x ∈ addrs t <-> above m x (root_of t).
Proof.
  induction t as [p d cs IH] using tree_induction. inversion 1 as [? ? ? E Hcs]; subst. intros x. cbn [addrs root_of].
  rewrite elem_of_cons. split.
  - intros [->|Hx]; [apply rtc_refl|]. apply list_elem_of_In, in_concat in Hx as (l & Hl & Hx).
    apply in_map_iff in Hl as (t & <- & Ht). apply list_elem_of_In in Ht, Hx. rewrite Forall_forall in IH, Hcs.
    apply rtc_r with (root_of t); [by apply (IH t Ht (Hcs t Ht))|]. unfold child, kids. rewrite E. apply list_elem_of_fmap. by exists t.
  - intros Hx. apply rtc_inv_r in Hx as [->|(y & Hxy & Hy)]; [by left|]. right. unfold child, kids in Hy. rewrite E in Hy.
    apply list_elem_of_fmap in Hy as (t & -> & Ht). rewrite Forall_forall in IH, Hcs.
    apply list_elem_of_In, in_concat. exists (addrs t). split; [apply in_map; by apply list_elem_of_In|].
    apply list_elem_of_In. by apply (IH t Ht (Hcs t Ht)).
Qed.

Lemma above_chain s m x y z : ntree_rep s m -> above m x y -> above m x z -> above m y z \/ above m z y.
Proof.
  intros Hr Hxy. revert z. induction Hxy as [x|x w y Hxw Hwy IH]; intros z Hxz; [by left|].
  apply rtc_inv in Hxz as [<-|(w' & Hw' & Hz)]; [right; by eapply rtc_l|].
  apply IH. by rewrite (one_parent s m x w w' Hr Hxw Hw').
Qed.
Lemma above_acyclic s m x y : ntree_rep s m -> above m x y -> child m y x -> False.
Proof.
  intros Hr. revert x. induction (nt_wf _ _ Hr y) as [y _ IH]. intros x Hxy Hyx.
  apply rtc_inv_r in Hxy as [->|(w & Hxw & Hw)]; [by apply (child_irrefl s m y)|].
  apply (IH w Hw y); [|done]. by eapply rtc_l.
Qed.

Lemma elem_all_addrs ts x : x ∈ all_addrs ts <-> exists t, t ∈ ts /\ x ∈ addrs t.
Proof.
  unfold all_addrs. split.
  - intros H. apply list_elem_of_In, in_concat in H as (l & Hl & Hx). apply in_map_iff in Hl as (t & <- & Ht).
    exists t. split; by apply list_elem_of_In.
  - intros (t & Ht & Hx). apply list_elem_of_In, in_concat. exists (addrs t). split; [apply in_map|]; by apply list_elem_of_In.
Qed.
Lemma root_in t : root_of t ∈ addrs t.
Proof. destruct t. by left. Qed.

Lemma addrs_nodup s m t : ntree_rep s m -> tree_of m t -> NoDup (addrs t).
Proof.
  intros Hr. induction t as [p d cs IH] using tree_induction. inversion 1 as [? ? ? E Hcs]; subst. cbn [addrs].
  assert (Hchild : forall t, t ∈ cs -> child m (root_of t) p).
  { intros t Ht. unfold child, kids. rewrite E. apply list_elem_of_fmap. by exists t. }
  constructor.
  - intros Hp. apply (elem_all_addrs cs) in Hp as (t & Ht & Hx). rewrite Forall_forall in Hcs.
    apply (above_addrs m t (Hcs t Ht)) in Hx. by apply (above_acyclic s m p (root_of t)), Hchild.
  - pose proof (nt_nodup _ _ Hr p) as Hnd. unfold kids in Hnd. rewrite E in Hnd. clear E H.
    induction cs as [|t cs IHc]; [constructor|]. cbn [map concat] in *.
    apply Forall_cons in IH as [IHt IH], Hcs as [Ht Hcs]. apply NoDup_cons in Hnd as [Hno Hnd].
    apply NoDup_app. split_and!; [by apply IHt| |apply IHc; [done|done| |done]; intros; apply Hchild; by right].
    intros x Hx Hx'. apply (elem_all_addrs cs) in Hx' as (t' & Ht' & Hx'). rewrite Forall_forall in Hcs.
    assert (Hne : root_of t <> root_of t').
    { intros Heq. apply Hno. rewrite Heq. apply list_elem_of_fmap. by exists t'. }
    apply (above_addrs m t Ht) in Hx. apply (above_addrs m t' (Hcs t' Ht')) in Hx'.
    assert (Hc : child m (root_of t) p) by (apply Hchild; by left). assert (Hc' : child m (root_of t') p) by (apply Hchild; by right).
    assert (Hcase : forall y z, above m y z -> y <> z -> child m y p -> child m z p -> False).
    { intros y z Hyz Hyz' Hy Hz. apply rtc_inv in Hyz as [->|(w & Hw & Hwz)]; [done|].
      rewrite (one_parent s m y w p Hr Hw Hy) in Hwz. by apply (above_acyclic s m p z). }
    destruct (above_chain s m x (root_of t) (root_of t') Hr Hx Hx') as [H|H]; [by apply (Hcase _ _ H)|].
    apply (Hcase _ _ H); [by apply not_eq_sym|done|done].
Qed.

Lemma addrs_in s m t x : ntree_rep s m -> tree_of m t -> x ∈ addrs t -> is_Some (s !! x).
Proof.
  intros Hr Ht Hx. apply (above_addrs m t Ht) in Hx. apply rtc_inv in Hx as [->|(w & Hw & _)]; [|by eapply child_some].
  inversion Ht as [p d cs E _]; subst. cbn. apply (nt_dom _ _ Hr). by eexists.
Qed.
Lemma addrs_size s m t : ntree_rep s m -> tree_of m t -> (length (addrs t) <= base.size s)%nat.
Proof.
  intros Hr Ht. rewrite <- (size_list_to_set (C:=gset ptr) (addrs t)) by (by eapply addrs_nodup).
  rewrite <- (size_dom (D:=gset ptr) s). apply subseteq_size. intros c Hc. apply elem_of_list_to_set in Hc.
  apply elem_of_dom. by eapply addrs_in.
Qed.

(** ** Trees of linked nodes

    Siblings with their trees, as the pointers of the store have them. *)
Inductive linked_trees s : option ptr -> option ptr -> list tree -> Prop :=
| linked_nil par pr : linked_trees s par pr []
| linked_cons par pr p d cs ts n :
    s !! p = Some n -> data n = d -> children n = head (map root_of cs) -> next n = head (map root_of ts) ->
    parent n = par -> prev n = pr ->
    linked_trees s (Some p) None cs -> linked_trees s par (Some p) ts -> linked_trees s par pr (Tree p d cs :: ts).

Lemma linked_kids s m p : ntree_rep s m -> forall cs a, Forall (tree_of m) cs -> kids m p = a ++ map root_of cs ->
  linked_trees s (Some p) (last a) cs.
Proof.
  intros Hr. assert (H : forall t, tree_of m t -> forall a ts q, kids m q = a ++ root_of t :: map root_of ts ->
    linked_trees s (Some q) (Some (root_of t)) ts -> linked_trees s (Some q) (last a) (t :: ts)).
  { intros t. induction t as [c d cs IH] using tree_induction. inversion 1 as [? ? ? E Hcs]; subst. intros a ts q Hq Hts.
    destruct (nt_links _ _ Hr _ _ _ _ Hq) as (n & En & Hpar & Hprev & Hnext). cbn [root_of] in En, Hts.
    destruct (nt_node _ _ Hr c n En) as (l & El & Hch). rewrite E in El. injection El as Ed <-.
    apply linked_cons with n; try done. clear - IH Hcs E Hr.
    assert (Hk : kids m c = [] ++ map root_of cs) by (unfold kids; by rewrite E). change None with (last (A:=ptr) []).
    revert Hk. generalize ([] : list ptr) as k. clear E. induction cs as [|t cs IHcs]; intros k Hk; [constructor|].
    apply Forall_cons in IH as [IHt IH], Hcs as [Ht Hcs]. apply IHt; [done|done|].
    replace (Some (root_of t)) with (last (k ++ [root_of t])) by apply last_snoc. apply IHcs; [done|done|]. by rewrite <- app_assoc. }
  intros cs. induction cs as [|t cs IH]; intros a Hf Hk; [constructor|]. apply Forall_cons in Hf as [Ht Hf].
  apply (H t Ht); [done|]. replace (Some (root_of t)) with (last (a ++ [root_of t])) by apply last_snoc.
  apply IH; [done|]. by rewrite <- app_assoc.
Qed.
Lemma linked_tree s m t : ntree_rep s m -> tree_of m t -> exists n,
  s !! root_of t = Some n /\ children n = head (map root_of (cs_of t)) /\ linked_trees s (Some (root_of t)) None (cs_of t).
Proof.
  intros Hr Ht. inversion Ht as [p d cs E Hcs]; subst. cbn [root_of cs_of].
  destruct (nt_dom _ _ Hr p) as [n En]; [by eexists|]. exists n. split; [done|].
  assert (Hk : kids m p = map root_of cs) by (unfold kids; by rewrite E). split; [by rewrite (node_children s m p n Hr En), Hk|].
  by apply (linked_kids s m p Hr cs []).
Qed.
Lemma linked_root s m t : ntree_rep s m -> tree_of m t -> root m (root_of t) -> linked_trees s None None [t].
Proof.
  intros Hr Ht Hroot. destruct (linked_tree s m t Hr Ht) as (n & En & Hc & Hl). destruct t as [p d cs]. cbn [root_of cs_of] in *.
  destruct (nt_root _ _ Hr p n En (proj2 Hroot)) as (Hpar & Hprev & Hnext).
  inversion Ht as [? ? ? E _]; subst. destruct (nt_node _ _ Hr p n En) as (l & El & _). rewrite E in El. injection El as Ed _.
  apply linked_cons with n; try done. constructor.
Qed.
Lemma linked_frame s s' par pr ts : linked_trees s par pr ts -> (forall x, x ∈ all_addrs ts -> s' !! x = s !! x) -> linked_trees s' par pr ts.
Proof.
  induction 1 as [|par pr p d cs ts n En Hd Hc Hn Hp Hpr Hcs IHcs Hts IHts]; intros Hsame; [constructor|].
  apply linked_cons with n; try done.
  - rewrite Hsame; [done|]. by left.
  - apply IHcs. intros x Hx. apply Hsame. apply elem_of_app. left. by right.
  - apply IHts. intros x Hx. apply Hsame. apply elem_of_app. by right.
Qed.

Lemma all_addrs_cons p d cs ts : all_addrs (Tree p d cs :: ts) = p :: all_addrs cs ++ all_addrs ts.
Proof. done. Qed.

Lemma without_nil {B} (m : gmap ptr B) : without [] m = m.
Proof. apply map_eq. intros x. rewrite without_lookup. by rewrite decide_False by apply not_elem_of_nil. Qed.
Lemma ntrees_free_run : forall fuel s par pr ts, linked_trees s par pr ts -> NoDup (all_addrs ts) -> (length (all_addrs ts) < fuel)%nat ->
  kr_ntrees_free fuel (head (map root_of ts)) s = Ok (tt, without (all_addrs ts) s).
Proof.
  induction fuel as [|fuel IH]; intros s par pr ts Hl Hnd Hf; [lia|]. destruct ts as [|[p d cs] ts]; cbn [map head kr_ntrees_free].
  { change (all_addrs []) with (@nil ptr). by rewrite without_nil. }
  inversion Hl as [|? ? ? ? ? ? n En Hd Hc Hn Hp Hpr Hcs Hts]; subst. cbn [root_of]. rewrite (bind_read _ _ _ _ En).
  rewrite all_addrs_cons in Hnd, Hf. cbn [List.length] in Hf. rewrite length_app in Hf.
  apply NoDup_cons in Hnd as [Hp1 Hnd]. apply NoDup_app in Hnd as (Hnd1 & Hdis & Hnd2). rewrite elem_of_app in Hp1.
  assert (E1 : (match children n with Some c => kr_ntrees_free fuel (Some c) | None => mret tt end) s = Ok (tt, without (all_addrs cs) s)).
  { pose proof (IH s (Some p) None cs Hcs Hnd1 ltac:(lia)) as E. rewrite Hc. destruct cs as [|c cs]; cbn [map head] in *; [|exact E].
    change (all_addrs []) with (@nil ptr). by rewrite without_nil. }
  rewrite (bind_ok _ _ _ _ _ E1). set (s1 := without (all_addrs cs) s).
  assert (Ep : s1 !! p = Some n) by (unfold s1; rewrite without_lookup, decide_False; tauto).
  rewrite (bind_ok _ _ _ tt (delete p s1)) by (unfold free; by rewrite Ep). rewrite Hn.
  rewrite (IH (delete p s1) (parent n) (Some p) ts); [|apply (linked_frame s); [done|]|done|lia].
  - do 2 f_equal. apply map_eq. intros x. unfold s1. rewrite !without_lookup, all_addrs_cons.
    destruct (decide (x = p)) as [->|Hxp].
    + rewrite lookup_delete_eq. rewrite (decide_True (P:=p ∈ p :: _)) by (by left). by destruct (decide _).
    + rewrite lookup_delete_ne by done. rewrite without_lookup.
      destruct (decide (x ∈ all_addrs ts)), (decide (x ∈ all_addrs cs)), (decide (x ∈ p :: all_addrs cs ++ all_addrs ts)) as [Hin|Hno]; try done;
        rewrite elem_of_cons, elem_of_app in *; tauto.
  - intros x Hx. rewrite lookup_delete_ne by (intros <-; tauto). unfold s1. rewrite without_lookup, decide_False; [done|].
    intros Hx'. by apply (Hdis x).
Qed.

(** A node is destroyed with all that is below it, wherever it stands. *)
Lemma destroy_root s m t : ntree_rep s m -> tree_of m t -> root m (root_of t) ->
  kr_ntree_destroy (Some (root_of t)) s = Ok (tt, without (addrs t) s) /\ ntree_rep (without (addrs t) s) (without (addrs t) m).
Proof.
  intros Hr Ht Hroot. destruct (linked_tree s m t Hr Ht) as (n & En & _). unfold kr_ntree_destroy. rewrite (bind_read _ _ _ _ En).
  rewrite (proj2 (is_root_spec s m _ n Hr En)) by done. rewrite bind_ret. unfold fueled.
  assert (Ha : all_addrs [t] = addrs t) by (unfold all_addrs; cbn; apply app_nil_r). split.
  - rewrite <- Ha. apply (ntrees_free_run (fuel_of s) s None None [t]); [by eapply linked_root|rewrite Ha; by eapply addrs_nodup|].
    rewrite Ha. pose proof (addrs_size s m t Hr Ht). unfold fuel_of. lia.
  - apply rep_without; [done|]. intros c q Hc. rewrite !(above_addrs m t Ht). split.
    + intros H. apply rtc_inv in H as [->|(w & Hw & Hwt)]; [by destruct (proj2 Hroot q)|]. by rewrite (one_parent s m c q w Hr Hc Hw).
    + intros H. by eapply rtc_l.
Qed.

(** * Series of operations *)

Inductive op :=
  | OpNew (d : D)
  | OpUnlink (node : option ptr)
  | OpInsertBefore (par sibling node : option ptr)
  | OpInsertAfter (par sibling node : option ptr)
  | OpPrepend (par node : option ptr)
  | OpAppend (par node : option ptr)
  | OpInsert (par : option ptr) (position : Z) (node : option ptr)
  | OpReverse (node : option ptr)
  | OpDestroy (node : option ptr).

Definition run_op (o : op) : M nstore unit :=
  match o with
  | OpNew d => kr_ntree_new d;; mret tt
  | OpUnlink p => kr_ntree_unlink p
  | OpInsertBefore q b p => kr_ntree_insert_before q b p;; mret tt
  | OpInsertAfter q a p => kr_ntree_insert_after q a p;; mret tt
  | OpPrepend q p => kr_ntree_prepend q p;; mret tt
  | OpAppend q p => kr_ntree_append q p;; mret tt
  | OpInsert q n p => kr_ntree_insert q n p;; mret tt
  | OpReverse p => kr_ntree_reverse_children p
  | OpDestroy p => kr_ntree_destroy p
  end.
Fixpoint run_ops (os : list op) : M nstore unit :=
  match os with [] => mret tt | o :: os => run_op o;; run_ops os end.

(** What they do to a forest. *)
Definition is_root m p : bool := bool_decide (is_Some (m !! p)) && bool_decide (map_Forall (fun _ x => p ∉ x.2) m).
Lemma is_root_iff m p : is_root m p = true <-> root m p.
Proof.
  unfold is_root, root, child, kids. rewrite andb_true_iff, !bool_decide_eq_true. split; intros [H1 H2]; (split; [done|]).
  - intros q. destruct (m !! q) as [[d l]|] eqn:E; [by apply (H2 q (d, l))|apply not_elem_of_nil].
  - intros q [d l] E. specialize (H2 q). by rewrite E in H2.
Qed.

Fixpoint put_before (y p : ptr) l : list ptr :=
  match l with [] => [p] | x :: l => if decide (x = y) then p :: x :: l else x :: put_before y p l end.
Fixpoint put_after (y p : ptr) l : list ptr :=
  match l with [] => [p] | x :: l => if decide (x = y) then x :: p :: l else x :: put_after y p l end.
Definition place (par node : option ptr) (f : ptr -> list ptr -> list ptr) m : forest :=
  match par, node with
  | Some q, Some p => if is_root m p then with_kids q (f p (kids m q)) m else m
  | _, _ => m
  end.
Definition cut p m : forest := (fun x => (x.1, filter (fun c => c <> p) x.2)) <$> m.
Fixpoint descend m (fuel : nat) p : list ptr :=
  match fuel with O => [] | S fuel => p :: concat (map (descend m fuel) (kids m p)) end.
Definition below m p : list ptr := descend m (base.size m) p.

Definition spec_op (o : op) m : forest :=
  match o with
  | OpNew d => <[fresh (dom m) := (d, [])]> m
  | OpUnlink (Some p) => cut p m
  | OpInsertBefore q (Some y) p => place q p (fun p l => if decide (y ∈ l) then put_before y p l else l) m
  | OpInsertAfter q (Some y) p => place q p (fun p l => if decide (y ∈ l) then put_after y p l else l) m
  | OpInsertAfter q None p | OpPrepend q p => place q p (fun p l => p :: l) m
  | OpInsertBefore q None p | OpAppend q p => place q p (fun p l => l ++ [p]) m
  | OpInsert q n p => place q p (fun p l => if n <? 0 then l ++ [p] else take (Z.to_nat n) l ++ p :: drop (Z.to_nat n) l) m
  | OpReverse (Some p) => with_kids p (reverse (kids m p)) m
  | OpDestroy (Some p) => without (below m p) (cut p m)
  | OpUnlink None | OpReverse None | OpDestroy None => m
  end.
Fixpoint spec_ops (os : list op) m : forest := match os with [] => m | o :: os => spec_ops os (spec_op o m) end.

(** Addresses of nodes, and no tree under a node of its own. *)
Definition known m (o : option ptr) : Prop := match o with Some p => is_Some (m !! p) | None => True end.
Definition apart m (par node : option ptr) : Prop :=
  match par, node with Some q, Some p => root m p -> ~ above m q p | _, _ => True end.
Definition legal m (o : op) : Prop :=
  match o with
  | OpNew _ => True
  | OpUnlink p | OpReverse p | OpDestroy p => known m p
  | OpInsertBefore q y p | OpInsertAfter q y p => known m q /\ known m y /\ known m p /\ apart m q p
  | OpPrepend q p | OpAppend q p | OpInsert q _ p => known m q /\ known m p /\ apart m q p
  end.
Fixpoint legal_ops m (os : list op) : Prop := match os with [] => True | o :: os => legal m o /\ legal_ops (spec_op o m) os end.

(** ** Each operation *)

Lemma rep_dom s m : ntree_rep s m -> dom s = dom m.
Proof.
  intros Hr. apply set_eq. intros x. rewrite !elem_of_dom. split; [|apply (nt_dom _ _ Hr)].
  intros [n En]. by eapply node_in.
Qed.
Lemma with_kids_self q m : with_kids q (kids m q) m = m.
Proof.
  apply map_eq. intros x. rewrite with_kids_lookup. destruct (m !! x) as [[d l]|] eqn:E; [|done]. cbn. f_equal.
  destruct (decide (x = q)) as [->|]; [|done]. unfold kids. by rewrite E.
Qed.
Lemma cut_root m p : (forall q, ~ child m p q) -> cut p m = m.
Proof.
  intros H. apply map_eq. intros x. unfold cut. rewrite lookup_fmap. destruct (m !! x) as [[d l]|] eqn:E; [|done]. cbn. do 2 f_equal.
  specialize (H x). unfold child, kids in H. rewrite E in H. clear E. induction l as [|y l IH]; [done|].
  rewrite not_elem_of_cons in H. rewrite filter_cons_True by (intros E; by apply (proj1 H)). f_equal. apply IH, H.
Qed.
Lemma cut_child s m q p a b : ntree_rep s m -> kids m q = a ++ p :: b -> cut p m = with_kids q (a ++ b) m.
Proof.
  intros Hr Hk. assert (Hnone : forall l, p ∉ l -> filter (fun c => c <> p) l = l).
  { intros l. induction l as [|y l IH]; intros H; [done|]. rewrite not_elem_of_cons in H.
    rewrite filter_cons_True by (intros E; by apply (proj1 H)). f_equal. apply IH, H. }
  apply map_eq. intros x. unfold cut. rewrite lookup_fmap, with_kids_lookup.
  destruct (m !! x) as [[d l]|] eqn:E; [|done]. cbn. f_equal. destruct (decide (x = q)) as [->|Hne].
  - unfold kids in Hk. rewrite E in Hk. subst l. pose proof (nt_nodup _ _ Hr q) as Hnd. unfold kids in Hnd. rewrite E in Hnd.
    apply NoDup_app in Hnd as (_ & Hdis & [Hpb _]%NoDup_cons). f_equal.
    rewrite filter_app, filter_cons_False by (intros H; by apply H). assert (Hpa : p ∉ a) by (intros H; apply (Hdis p H); by left). by rewrite (Hnone a Hpa), (Hnone b Hpb).
  - f_equal. apply Hnone. intros Hp. apply Hne. apply (one_parent s m p x q Hr); unfold child.
    + unfold kids. by rewrite E.
    + rewrite Hk. apply elem_of_app. right. by left.
Qed.

Lemma unlink_ok s m p : ntree_rep s m -> is_Some (m !! p) ->
  exists s', kr_ntree_unlink (Some p) s = Ok (tt, s') /\ ntree_rep s' (cut p m) /\ root (cut p m) p.
Proof.
  intros Hr Hp. destruct (unlink_run s m p Hr Hp) as [[Hroot E]|(q & a & b & s' & Hk & E & Hs)].
  - exists s. rewrite cut_root by apply Hroot. by split_and!.
  - exists s'. rewrite (cut_child s m q p a b Hr Hk). split; [done|]. pose proof (rep_unlink s m q p a b s' Hr Hk Hs) as Hr'. split; [done|].
    assert (Hps : exists n, s !! p = Some n) by (apply (nt_dom _ _ Hr) in Hp as [n ?]; by exists n). destruct Hps as [n En].
    apply (root_parent s' _ p (unlinked q p a b p n) Hr'); [by rewrite Hs, En|]. cbn. by rewrite decide_True.
Qed.

(** A call that inserts: nothing happens to a node that is not a root, or without a parent. *)
Definition placed m (q p : option ptr) : Prop := exists q' p', q = Some q' /\ p = Some p' /\ root m p'.
Lemma if_root_skip s m (q p : option ptr) f : ntree_rep s m -> known m p -> ~ placed m q p -> if_root q p f s = Ok (p, s).
Proof.
  intros Hr Hp Hno. destruct q as [q|], p as [p|]; [|done..].
  destruct (if_root_run s m q p f Hr Hp) as [[Hroot _]|[_ E]]; [|done]. destruct Hno. by exists q, p.
Qed.
Lemma place_ok s m (q p : option ptr) (run : M nstore (option ptr)) f : ntree_rep s m -> apart m q p ->
  (~ placed m q p -> run s = Ok (p, s)) ->
  (forall q' p', q = Some q' -> p = Some p' -> root m p' -> ~ above m q' p' ->
    exists s', run s = Ok (Some p', s') /\ ntree_rep s' (with_kids q' (f p' (kids m q')) m)) ->
  exists s', (run;; mret tt) s = Ok (tt, s') /\ ntree_rep s' (place q p f m).
Proof.
  intros Hr Hap Hno Hyes. unfold mbind, M_bind, place.
  destruct q as [q|]; [|rewrite Hno by (by intros (? & ? & ? & _)); by exists s].
  destruct p as [p|]; [|rewrite Hno by (by intros (? & ? & _ & ? & _)); by exists s].
  pose proof (is_root_iff m p) as Hi. destruct (is_root m p).
  - assert (Hp : root m p) by (by apply Hi). destruct (Hyes q p eq_refl eq_refl Hp (Hap Hp)) as (s' & -> & Hs). by exists s'.
  - rewrite Hno; [by exists s|]. intros (? & ? & _ & [= <-] & Hp). by apply Hi in Hp.
Qed.

Lemma put_before_split y p a b : y ∉ a -> put_before y p (a ++ y :: b) = a ++ p :: y :: b.
Proof.
  induction a as [|x a IH]; cbn; intros H; [by rewrite decide_True|]. rewrite not_elem_of_cons in H.
  rewrite decide_False by (intros E; by apply (proj1 H)). f_equal. apply IH, H.
Qed.
Lemma put_after_split y p a b : y ∉ a -> put_after y p (a ++ y :: b) = a ++ y :: p :: b.
Proof.
  induction a as [|x a IH]; cbn; intros H; [by rewrite decide_True|]. rewrite not_elem_of_cons in H.
  rewrite decide_False by (intros E; by apply (proj1 H)). f_equal. apply IH, H.
Qed.
Lemma split_fresh s m q y : ntree_rep s m -> y ∈ kids m q -> exists a b, kids m q = a ++ y :: b /\ y ∉ a.
Proof.
  intros Hr Hy. destruct (child_split m y q Hy) as (a & b & E). exists a, b. split; [done|].
  pose proof (nt_nodup _ _ Hr q) as Hnd. rewrite E in Hnd. apply NoDup_app in Hnd as (_ & Hdis & _). intros H. apply (Hdis y H). by left.
Qed.

Lemma insert_before_link s m q p a b : ntree_rep s m -> is_Some (m !! q) -> root m p -> ~ above m q p -> kids m q = a ++ b ->
  exists s', kr_ntree_insert_before (Some q) (head b) (Some p) s = Ok (Some p, s') /\ ntree_rep s' (with_kids q (a ++ p :: b) m).
Proof.
  intros Hr Hq Hp Hab Hk. destruct (insert_before_run s m q p a b Hr Hq Hp Hk Hab) as (s' & E & Hs). exists s'. split; [done|].
  by apply (rep_link s m).
Qed.
Lemma insert_after_link s m q p a b : ntree_rep s m -> is_Some (m !! q) -> root m p -> ~ above m q p -> kids m q = a ++ b ->
  exists s', kr_ntree_insert_after (Some q) (last a) (Some p) s = Ok (Some p, s') /\ ntree_rep s' (with_kids q (a ++ p :: b) m).
Proof.
  intros Hr Hq Hp Hab Hk. destruct (insert_after_run s m q p a b Hr Hq Hp Hk Hab) as (s' & E & Hs).
  { destruct a as [|x a]; [by left|]. right. by rewrite last_cons; destruct (last a). }
  exists s'. split; [done|]. by apply (rep_link s m).
Qed.

(** A sibling that is not a child of the parent: nothing happens. *)
Lemma other_parent s m q y : ntree_rep s m -> is_Some (m !! y) -> y ∉ kids m q -> exists n, s !! y = Some n /\ bool_decide (parent n <> Some q) = true.
Proof.
  intros Hr Hy Hno. destruct (nt_dom _ _ Hr y Hy) as [n En]. exists n. split; [done|]. apply bool_decide_eq_true. intros Hp.
  by apply Hno, (parent_child s m y q n).
Qed.

Lemma insert_before_ok s m (q y p : option ptr) : ntree_rep s m -> legal m (OpInsertBefore q y p) ->
  exists s', run_op (OpInsertBefore q y p) s = Ok (tt, s') /\ ntree_rep s' (spec_op (OpInsertBefore q y p) m).
Proof.
  intros Hr (Hq & Hy & Hp & Hap). destruct y as [y|]; cbn [run_op spec_op];
    (apply place_ok; [done..|by apply if_root_skip|]); intros q' p' -> -> Hroot Hab.
  - destruct (decide (y ∈ kids m q')) as [Hin|Hin].
    + destruct (split_fresh s m q' y Hr Hin) as (a & b & E & Ha). rewrite E, put_before_split by done.
      by apply (insert_before_link s m q' p' a (y :: b)).
    + rewrite with_kids_self. exists s. split; [|done]. unfold kr_ntree_insert_before.
      match goal with |- context [if_root _ _ ?f] => destruct (if_root_run s m q' p' f Hr Hp) as [(_ & n & _ & _ & _ & _ & ->)|[Hno _]]; [|by destruct Hno] end.
      cbv beta. destruct (other_parent s m q' y Hr Hy Hin) as (ny & Ey & Eb). by rewrite (bind_read _ _ _ _ Ey), Eb.
  - by apply (insert_before_link s m q' p' (kids m q') []); rewrite ?app_nil_r.
Qed.
Lemma insert_after_ok s m (q y p : option ptr) : ntree_rep s m -> legal m (OpInsertAfter q y p) ->
  exists s', run_op (OpInsertAfter q y p) s = Ok (tt, s') /\ ntree_rep s' (spec_op (OpInsertAfter q y p) m).
Proof.
  intros Hr (Hq & Hy & Hp & Hap). destruct y as [y|]; cbn [run_op spec_op];
    (apply place_ok; [done..|by apply if_root_skip|]); intros q' p' -> -> Hroot Hab.
  - destruct (decide (y ∈ kids m q')) as [Hin|Hin].
    + destruct (split_fresh s m q' y Hr Hin) as (a & b & E & Ha). rewrite E, put_after_split by done.
      replace (Some y) with (last (a ++ [y])) by apply last_snoc. change (a ++ y :: p' :: b) with (a ++ [y] ++ p' :: b). rewrite app_assoc.
      apply (insert_after_link s m q' p' (a ++ [y]) b); try done. by rewrite <- app_assoc.
    + rewrite with_kids_self. exists s. split; [|done]. unfold kr_ntree_insert_after.
      match goal with |- context [if_root _ _ ?f] => destruct (if_root_run s m q' p' f Hr Hp) as [(_ & n & _ & _ & _ & _ & ->)|[Hno _]]; [|by destruct Hno] end.
      cbv beta. destruct (other_parent s m q' y Hr Hy Hin) as (ny & Ey & Eb). by rewrite (bind_read _ _ _ _ Ey), Eb.
  - by apply (insert_after_link s m q' p' [] (kids m q')).
Qed.

Lemma nth_loop_run s l : chained s l -> forall fuel b a n, l = a ++ b -> (length b < fuel)%nat ->
  nth_loop fuel n (head b) s = Ok (b !! Z.to_nat n, s).
Proof.
  intros Hl. induction fuel as [|fuel IH]; intros b a n E Hf; [lia|]. cbn [nth_loop]. destruct (0 <? n) eqn:En.
  - apply Z.ltb_lt in En. destruct b as [|c b]; [done|]. cbn [head]. destruct (Hl _ _ _ E) as (nc & Ec & Enext).
    rewrite (bind_read _ _ _ _ Ec), Enext. cbn [List.length] in Hf.
    rewrite (IH b (a ++ [c]) (n - 1)) by (rewrite <- ?app_assoc; done || lia).
    by replace (Z.to_nat n) with (S (Z.to_nat (n - 1))) by lia.
  - apply Z.ltb_ge in En. replace (Z.to_nat n) with 0%nat by lia. by destruct b.
Qed.
Lemma nth_child_run s m q n : ntree_rep s m -> is_Some (m !! q) ->
  kr_ntree_nth_child (Some q) n s = Ok (kids m q !! Z.to_nat n, s).
Proof.
  intros Hr Hq. destruct (nt_dom _ _ Hr q Hq) as [nq Eq]. unfold kr_ntree_nth_child. rewrite (bind_read _ _ _ _ Eq).
  rewrite (node_children s m q nq Hr Eq). pose proof (kids_size s m q Hr) as Hs. pose proof (kids_chained s m q Hr) as Hc.
  destruct (kids m q) as [|c k] eqn:Ek; [done|]. cbn [head]. unfold fueled. rewrite <- Ek in *.
  replace (Some c) with (head (kids m q)) by (by rewrite Ek). apply (nth_loop_run s _ Hc _ _ []); [done|unfold fuel_of; lia].
Qed.
Lemma head_drop l k : head (drop k l) = l !! k.
Proof. revert k. induction l as [|x l IH]; intros [|k]; [done..|apply IH]. Qed.

Lemma prepend_link s m q p : ntree_rep s m -> is_Some (m !! q) -> root m p -> ~ above m q p ->
  exists s', kr_ntree_prepend (Some q) (Some p) s = Ok (Some p, s') /\ ntree_rep s' (with_kids q (p :: kids m q) m).
Proof.
  intros Hr Hq Hp Hab. destruct (nt_dom _ _ Hr q Hq) as [nq Eq]. unfold kr_ntree_prepend. rewrite (bind_read _ _ _ _ Eq).
  rewrite (node_children s m q nq Hr Eq). by apply (insert_before_link s m q p []).
Qed.
Lemma prepend_skip s m (q p : option ptr) : ntree_rep s m -> known m q -> known m p -> ~ placed m q p -> kr_ntree_prepend q p s = Ok (p, s).
Proof.
  intros Hr Hq Hp Hno. destruct q as [q|]; [|done]. destruct (nt_dom _ _ Hr q Hq) as [nq Eq]. unfold kr_ntree_prepend.
  rewrite (bind_read _ _ _ _ Eq). by eapply if_root_skip.
Qed.
Lemma prepend_ok s m (q p : option ptr) : ntree_rep s m -> legal m (OpPrepend q p) ->
  exists s', run_op (OpPrepend q p) s = Ok (tt, s') /\ ntree_rep s' (spec_op (OpPrepend q p) m).
Proof.
  intros Hr (Hq & Hp & Hap). apply place_ok; [done..|by apply prepend_skip|]. intros q' p' -> -> Hroot Hab. by apply prepend_link.
Qed.
Lemma append_ok s m (q p : option ptr) : ntree_rep s m -> legal m (OpAppend q p) ->
  exists s', run_op (OpAppend q p) s = Ok (tt, s') /\ ntree_rep s' (spec_op (OpAppend q p) m).
Proof. intros Hr (Hq & Hp & Hap). by apply (insert_before_ok s m q None p Hr). Qed.

Lemma insert_ok s m (q : option ptr) n (p : option ptr) : ntree_rep s m -> legal m (OpInsert q n p) ->
  exists s', run_op (OpInsert q n p) s = Ok (tt, s') /\ ntree_rep s' (spec_op (OpInsert q n p) m).
Proof.
  intros Hr (Hq & Hp & Hap). cbn [run_op spec_op]. apply place_ok; [done..| |].
  - intros Hno. unfold kr_ntree_insert. destruct q as [q|], p as [p|]; try done. destruct (nt_dom _ _ Hr p Hp) as [np Ep].
    rewrite (bind_read _ _ _ _ Ep). pose proof (is_root_spec s m p np Hr Ep) as Hi. destruct (KR_NTREE_IS_ROOT np); [|done].
    destruct Hno. exists q, p. split_and!; [done|done|by apply Hi].
  - intros q' p' -> -> Hroot Hab. unfold kr_ntree_insert. destruct (nt_dom _ _ Hr p' Hp) as [np Ep].
    rewrite (bind_read _ _ _ _ Ep). rewrite (proj2 (is_root_spec s m p' np Hr Ep) Hroot). cbn [negb].
    destruct (Z.ltb_spec n 0) as [Hn|Hn].
    + rewrite (proj2 (Z.ltb_ge 0 n)), (proj2 (Z.eqb_neq n 0)) by lia.
      apply (insert_before_link s m q' p' (kids m q') []); rewrite ?app_nil_r; done.
    + destruct (Z.ltb_spec 0 n) as [Hn0|Hn0].
      * rewrite (bind_ok _ _ _ _ _ (nth_child_run s m q' n Hr Hq)). rewrite <- head_drop.
        apply insert_before_link; try done. by rewrite take_drop.
      * assert (n = 0) as -> by lia. rewrite Z.eqb_refl. by apply prepend_link.
Qed.

(** ** The nodes below a node *)

Lemma descend_addrs m t : tree_of m t -> forall fuel, (length (addrs t) <= fuel)%nat -> descend m fuel (root_of t) = addrs t.
Proof.
  induction t as [p d cs IH] using tree_induction. inversion 1 as [? ? ? E Hcs]; subst. intros [|fuel] Hf; cbn [addrs List.length] in Hf; [lia|].
  cbn [descend root_of addrs]. unfold kids. rewrite E. f_equal. assert (Hle : (length (concat (map addrs cs)) <= fuel)%nat) by lia. clear Hf E H.
  induction cs as [|t cs IHc]; [done|]. cbn [map concat] in *. rewrite length_app in Hle.
  apply Forall_cons in IH as [IHt IH], Hcs as [Ht Hcs]. rewrite IHt by (done || lia). f_equal. apply IHc; done || lia.
Qed.
Lemma filter_id p l : p ∉ l -> filter (fun c => c <> p) l = l.
Proof.
  induction l as [|y l IH]; intros H; [done|]. rewrite not_elem_of_cons in H.
  rewrite filter_cons_True by (intros E; by apply (proj1 H)). f_equal. apply IH, H.
Qed.
Lemma tree_of_cut m p t : tree_of m t -> p ∉ all_addrs (cs_of t) -> tree_of (cut p m) t.
Proof.
  induction t as [x d cs IH] using tree_induction. inversion 1 as [? ? ? E Hcs]; subst. cbn [cs_of]. intros Hp. constructor.
  - unfold cut. rewrite lookup_fmap, E. cbn. do 2 f_equal. apply filter_id. intros Hin. apply list_elem_of_fmap in Hin as (t & -> & Ht).
    apply Hp, elem_all_addrs. exists t. split; [done|apply root_in].
  - rewrite Forall_forall in *. intros t Ht. apply IH; [done|by apply Hcs|]. intros Hin. apply Hp, elem_all_addrs. exists t. split; [done|].
    destruct t. by right.
Qed.
Lemma below_addrs s m t : ntree_rep s m -> tree_of m t -> below m (root_of t) = addrs t.
Proof.
  intros Hr Ht. apply descend_addrs; [done|]. rewrite <- (size_dom (D:=gset ptr) m), <- (rep_dom s m Hr), size_dom. by eapply addrs_size.
Qed.

Lemma destroy_ok s m p : ntree_rep s m -> is_Some (m !! p) ->
  exists s', kr_ntree_destroy (Some p) s = Ok (tt, s') /\ ntree_rep s' (without (below m p) (cut p m)).
Proof.
  intros Hr Hp. destruct (tree_exists s m p Hr Hp) as (t & Ht & <-). rewrite (below_addrs s m t Hr Ht).
  destruct (unlink_ok s m (root_of t) Hr Hp) as (s1 & E1 & Hr1 & Hroot).
  assert (Ht1 : tree_of (cut (root_of t) m) t).
  { apply tree_of_cut; [done|]. pose proof (addrs_nodup s m t Hr Ht) as Hnd. destruct t as [p d cs]. by apply NoDup_cons in Hnd as [? _]. }
  destruct (destroy_root s1 _ t Hr1 Ht1 Hroot) as [E2 Hr2]. exists (without (addrs t) s1). split; [|done]. rewrite <- E2.
  destruct (nt_dom _ _ Hr _ Hp) as [n En]. unfold kr_ntree_destroy at 1. rewrite (bind_read _ _ _ _ En).
  pose proof (is_root_spec s m _ n Hr En) as Hi. destruct (KR_NTREE_IS_ROOT n) eqn:Er.
  - rewrite (cut_root m) in * by apply Hi, eq_refl. assert (s1 = s) as ->.
    { destruct (unlink_run s m (root_of t) Hr Hp) as [[_ E]|(q & a & b & s' & Hk & _)]; [congruence|].
      destruct (proj2 (proj1 Hi eq_refl) q). unfold child. rewrite Hk, elem_of_app. right. by left. }
    unfold kr_ntree_destroy. by rewrite (bind_read _ _ _ _ En), Er.
  - rewrite (bind_ok _ _ _ _ _ E1). destruct (nt_dom _ _ Hr1 _ (proj1 Hroot)) as [n1 En1]. unfold kr_ntree_destroy.
    rewrite (bind_read _ _ _ _ En1). by rewrite (proj2 (is_root_spec s1 _ _ n1 Hr1 En1)).
Qed.

(** Every legal operation ends well and does to the forest what it should. *)
Lemma op_ok s m o : ntree_rep s m -> legal m o -> exists s', run_op o s = Ok (tt, s') /\ ntree_rep s' (spec_op o m).
Proof.
  intros Hr. destruct o as [d|p|q y p|q y p|q p|q p|q n p|p|p]; intros Hl.
  - eexists. split; [reflexivity|]. cbn [spec_op]. rewrite <- (rep_dom s m Hr). apply rep_new; [done|]. apply not_elem_of_dom, is_fresh.
  - destruct p as [p|]; [|by exists s]. destruct (unlink_ok s m p Hr Hl) as (s' & E & Hs & _). exists s'. split; [exact E|exact Hs].
  - exact (insert_before_ok s m _ _ _ Hr Hl).
  - exact (insert_after_ok s m _ _ _ Hr Hl).
  - exact (prepend_ok s m _ _ Hr Hl).
  - exact (append_ok s m _ _ Hr Hl).
  - exact (insert_ok s m _ _ _ Hr Hl).
  - destruct p as [p|]; [|by exists s]. destruct (reverse_run s m p Hr Hl) as (s' & E & Hs). exists s'. split; [exact E|]. exact (rep_reverse s m p s' Hr Hl Hs).
  - destruct p as [p|]; [|by exists s]. exact (destroy_ok s m p Hr Hl).
Qed.
Lemma rep_empty : ntree_rep ∅ ∅.
Proof.
  constructor.
  - intros p n E. by rewrite lookup_empty in E.
  - intros p [x E]. by rewrite lookup_empty in E.
  - intros q a c b E. unfold kids in E. rewrite lookup_empty in E. by destruct a.
  - intros p n E. by rewrite lookup_empty in E.
  - intros q. unfold kids. rewrite lookup_empty. constructor.
  - intros p. constructor. intros c Hc. unfold child, kids in Hc. rewrite lookup_empty in Hc. by apply not_elem_of_nil in Hc.
Qed.

Lemma ops_ok os : forall s m, ntree_rep s m -> legal_ops m os -> exists s', run_ops os s = Ok (tt, s') /\ ntree_rep s' (spec_ops os m).
Proof.
  induction os as [|o os IH]; intros s m Hr Hl; [by exists s|]. destruct Hl as [Ho Hos].
  destruct (op_ok s m o Hr Ho) as (s1 & E1 & Hr1). destruct (IH s1 _ Hr1 Hos) as (s2 & E2 & Hr2).
  exists s2. split; [|done]. cbn [run_ops]. by rewrite (bind_ok _ _ _ _ _ E1).
Qed.
Lemma root_above m q p : root m q -> above m q p -> q = p.
Proof. intros [_ Hq] H. apply rtc_inv in H as [->|(w & Hw & _)]; [done|]. by destruct (Hq w). Qed.

(** C30. From no nodes at all, every series of operations whose arguments are nodes, and that
    never puts a tree below one of its own nodes, ends well; the store then is the forest
    that the operations on lists of children give, with all its pointers in order and no
    cycle. *)
Theorem kr_ntree_refines_forest (os : list op) : legal_ops ∅ os ->
  exists s, run_ops os ∅ = Ok (tt, s) /\ ntree_rep s (spec_ops os ∅).
Proof. intros Hl. apply (ops_ok os ∅ ∅ rep_empty Hl). Qed.


(** The guards of the position of a child are the wrong way round: of nodes that are there it
    never gives a position, of two [NULL]s it reads a field. *)
Lemma kr_ntree_child_position_never s (p c : option ptr) : kr_ntree_child_position p c s =
  if decide (p = None /\ c = None) then Fault NullDeref else Ok (-1, s).
Proof. by destruct p, c. Qed.
End Forest.

(** * An example *)

(** Four nodes: the first has the second and the third below it, the second the fourth. *)
Definition ex_ops : list (op (D:=Z)) :=
  [OpNew 10; OpNew 20; OpNew 30; OpNew 40; OpAppend (Some 2%positive) (Some 4%positive);
   OpAppend (Some 1%positive) (Some 3%positive); OpInsert (Some 1%positive) 0 (Some 2%positive)].
Definition ex_forest : gmap ptr (Z * list ptr) := spec_ops ex_ops ∅.
Definition ex_tree : tree (D:=Z) :=
  Tree 1%positive 10 [Tree 2%positive 20 [Tree 4%positive 40 []]; Tree 3%positive 30 []].
Definition ex_store : gmap ptr (T_KRNTree (D:=Z)) := match run_ops ex_ops ∅ with Ok (_, s) => s | Fault _ => ∅ end.

Lemma ex_apart (m : gmap ptr (Z * list ptr)) (q p : ptr) : is_root m q = true -> q <> p -> apart m (Some q) (Some p).
Proof. intros Hq Hne _ H. by apply Hne, (root_above m), H; apply is_root_iff. Qed.
Lemma ex_known (m : gmap ptr (Z * list ptr)) (p : ptr) : bool_decide (is_Some (m !! p)) = true -> known m (Some p).
Proof. apply bool_decide_eq_true. Qed.
Lemma ex_legal : legal_ops ∅ ex_ops.
Proof.
  unfold ex_ops. cbn [legal_ops legal].
  repeat match goal with
  | |- _ /\ _ => split
  | |- True => exact I
  | |- known _ _ => apply ex_known; vm_compute; reflexivity
  | |- apart _ _ _ => apply ex_apart; [vm_compute; reflexivity|done]
  end.
Qed.
Lemma ex_position : kr_ntree_child_position (Some 1%positive) (Some 3%positive) ex_store = Ok (-1, ex_store) /\ kids ex_forest 1%positive = [2; 3]%positive.
Proof. by split; [|vm_compute]. Qed.
Lemma ex_rep : ntree_rep ex_store ex_forest.
Proof. destruct (ops_ok ex_ops ∅ ∅ rep_empty ex_legal) as (s & E & Hs). unfold ex_store. rewrite E. exact Hs. Qed.
Lemma ex_tree_of : tree_of ex_forest ex_tree.
Proof. repeat (constructor; [vm_compute; reflexivity|]); repeat constructor; vm_compute; reflexivity. Qed.
Lemma ex_size : Z.of_nat (base.size ex_store) < UINT_MAX.
Proof. vm_compute. reflexivity. Qed.

Lemma kr_ntree_refines_forest_witness : exists s, run_ops ex_ops ∅ = Ok (tt, s) /\ ntree_rep s ex_forest.
Proof. exact (kr_ntree_refines_forest ex_ops ex_legal). Defined.

