(* ===== verification/KrTraverse.v ===== *)
(** The traversals of krutils/kr_ntree.c.

    On a store that is a forest, the four orders are lists of the nodes of a tree, cut at a
    depth; a traversal calls its function along that list, a search stops at the first node
    it wants. *)

From S2P Require Import Prelude KrNtree KrForest.
Local Open Scope Z_scope.
#[local] Notation length := List.length.

Section Forest.
Context {D : Type} `{EqDecision D}.
#[local] Abbreviation node := (T_KRNTree (D:=D)).
#[local] Abbreviation nstore := (gmap ptr (T_KRNTree (D:=D))).
#[local] Abbreviation forest := (gmap ptr (D * list ptr)).
#[local] Abbreviation tree := (tree (D:=D)).
Implicit Types (s : nstore) (m : forest) (p q c : ptr) (a b l : list ptr) (t : tree) (cs ts : list tree).

(** * What a traversal visits

    The nodes that a traversal of a tree visits, in order; [k] is how many levels it goes
    below the root, [None] for all of them. *)

Fixpoint pre_order (k : option nat) (t : tree) : list ptr :=
  match t with Tree p _ cs => p :: match k with Some O => [] | _ => concat (map (pre_order (pred <$> k)) cs) end end.
Fixpoint post_order (k : option nat) (t : tree) : list ptr :=
  match t with Tree p _ cs => match k with Some O => [] | _ => concat (map (post_order (pred <$> k)) cs) end ++ [p] end.
Fixpoint in_order (k : option nat) (t : tree) : list ptr :=
  match t with Tree p _ cs =>
    match k, map (in_order (pred <$> k)) cs with
    | Some O, _ | _, [] => [p]
    | _, first :: rest => first ++ p :: concat rest
    end
  end.
Fixpoint at_level (i : nat) (t : tree) : list ptr :=
  match t with Tree p _ cs => match i with O => [p] | S i => concat (map (at_level i) cs) end end.
Definition level_order (k : nat) (t : tree) : list ptr := concat (map (fun i => at_level i t) (seq 0 k)).

(** The nodes down to a depth, in an order: the root is at the depth 1, and the depth -1 is
    no limit. *)
Definition in_order_of (order depth : Z) (limit : option nat) (t : tree) : list ptr :=
  if order =? KR_IN_ORDER then in_order limit t
  else if order =? KR_PRE_ORDER then pre_order limit t
  else if order =? KR_POST_ORDER then post_order limit t
  else level_order (if depth <? 0 then length (addrs t) else Z.to_nat depth) t.
Definition visited (order depth : Z) (t : tree) : list ptr :=
  if depth =? 0 then []
  else in_order_of order depth (if depth <? 0 then None else Some (Z.to_nat (depth - 1))) t.

Lemma concat_sub (f : tree -> list ptr) cs x : Forall (fun t => x ∈ f t -> x ∈ addrs t) cs ->
  x ∈ concat (map f cs) -> x ∈ all_addrs cs.
Proof.
  intros Hf Hx. apply list_elem_of_In, in_concat in Hx as (l & Hl & Hx). apply in_map_iff in Hl as (t & <- & Ht).
  apply elem_all_addrs. apply list_elem_of_In in Ht, Hx. exists t. split; [done|]. rewrite Forall_forall in Hf. by apply Hf.
Qed.
Lemma pre_sub t : forall k x, x ∈ pre_order k t -> x ∈ addrs t.
Proof.
  induction t as [p d cs IH] using tree_induction. intros k x Hx. cbn [pre_order addrs] in *. rewrite elem_of_cons in *.
  destruct Hx as [->|Hx]; [by left|]. right. destruct k as [[|k]|]; [by apply not_elem_of_nil in Hx|..];
    (eapply concat_sub, Hx; eapply Forall_impl; [exact IH|cbn; eauto]).
Qed.
Lemma post_sub t : forall k x, x ∈ post_order k t -> x ∈ addrs t.
Proof.
  induction t as [p d cs IH] using tree_induction. intros k x Hx. cbn [post_order addrs] in *. rewrite elem_of_cons, elem_of_app, list_elem_of_singleton in *.
  destruct Hx as [Hx|Hx]; [right|by left]. destruct k as [[|k]|]; [by apply not_elem_of_nil in Hx|..];
    (eapply concat_sub, Hx; eapply Forall_impl; [exact IH|cbn; eauto]).
Qed.
Lemma in_order_sub t : forall k x, x ∈ in_order k t -> x ∈ addrs t.
Proof.
  induction t as [p d cs IH] using tree_induction. intros k x Hx. cbn [in_order addrs] in *. rewrite elem_of_cons.
  assert (Hall : x = p \/ x ∈ concat (map (in_order (pred <$> k)) cs)).
  { destruct k as [[|k]|], cs as [|t cs]; cbn [map concat] in *; set_solver. }
  destruct Hall as [->|H]; [by left|]. right. eapply concat_sub, H. eapply Forall_impl; [exact IH|cbn; eauto].
Qed.
Lemma level_sub t : forall i x, x ∈ at_level i t -> x ∈ addrs t.
Proof.
  induction t as [p d cs IH] using tree_induction. intros i x Hx. destruct i as [|i]; cbn [at_level addrs] in *.
  { apply list_elem_of_singleton in Hx as ->. by left. }
  apply elem_of_cons. right. eapply concat_sub, Hx. eapply Forall_impl; [exact IH|cbn; eauto].
Qed.

Lemma at_level_deep t : forall i, at_level i t <> [] -> (i < length (addrs t))%nat.
Proof.
  induction t as [p d cs IH] using tree_induction. intros [|i] H; cbn [addrs at_level List.length] in *; [lia|].
  assert (exists t, t ∈ cs /\ at_level i t <> []) as (t & Ht & Hi).
  { clear IH. induction cs as [|t cs IHc]; [done|]. cbn in H. destruct (at_level i t) eqn:E.
    - destruct (IHc H) as (t' & Ht' & H'). exists t'. split; [by right|done].
    - exists t. split; [by left|]. by rewrite E. }
  rewrite Forall_forall in IH. specialize (IH t Ht i Hi). apply list_elem_of_split in Ht as (c1 & c2 & ->).
  rewrite map_app, concat_app, length_app. cbn. rewrite length_app. lia.
Qed.
Lemma at_level_next t : forall i, at_level i t = [] -> at_level (S i) t = [].
Proof.
  induction t as [p d cs IH] using tree_induction. intros [|i] H; [done|]. cbn [at_level] in *. clear - IH H.
  induction cs as [|t cs IHc]; [done|]. cbn [map concat] in *. apply app_eq_nil in H as [H1 H2]. apply Forall_cons in IH as [IH1 IH2].
  rewrite (IHc IH2 H2), app_nil_r. by apply IH1.
Qed.
Lemma at_levels_done t i n : at_level i t = [] -> concat (map (fun i => at_level i t) (seq i n)) = [].
Proof. revert i. induction n as [|n IH]; intros i H; [done|]. cbn [seq map concat]. rewrite H. by apply IH, at_level_next. Qed.


(** A limit that no node reaches is no limit. *)
Lemma concat_same (f g : tree -> list ptr) cs : Forall (fun t => f t = g t) cs -> concat (map f cs) = concat (map g cs).
Proof. induction 1 as [|t cs E _ IH]; [done|]. cbn. by rewrite E, IH. Qed.
Lemma below_short p d cs k (P : nat -> tree -> Prop) : Forall (fun t => forall k, (length (addrs t) <= S k)%nat -> P k t) cs ->
  (length (addrs (Tree p d cs)) <= S (S k))%nat -> Forall (P k) cs.
Proof.
  cbn [addrs List.length]. change (concat (map addrs cs)) with (all_addrs cs). rewrite !Forall_forall. intros IH Hl t Ht.
  apply (IH t Ht). apply list_elem_of_split in Ht as (c1 & c2 & ->). unfold all_addrs in Hl.
  rewrite map_app, concat_app, length_app in Hl. cbn in Hl. rewrite length_app in Hl. lia.
Qed.
Lemma short_leaf p d (cs : list tree) : (length (addrs (Tree p d cs)) <= 1)%nat -> cs = [].
Proof. destruct cs as [|[q e ds] cs]; [done|]. cbn. lia. Qed.
Lemma pre_all t : forall k, (length (addrs t) <= S k)%nat -> pre_order (Some k) t = pre_order None t.
Proof.
  induction t as [p d cs IH] using tree_induction. intros [|k] Hk; [by rewrite (short_leaf p d cs Hk)|].
  cbn [pre_order]. f_equal. apply concat_same. by apply (below_short p d cs k (fun k t => pre_order (Some k) t = pre_order None t)).
Qed.
Lemma post_all t : forall k, (length (addrs t) <= S k)%nat -> post_order (Some k) t = post_order None t.
Proof.
  induction t as [p d cs IH] using tree_induction. intros [|k] Hk; [by rewrite (short_leaf p d cs Hk)|].
  cbn [post_order]. f_equal. apply concat_same. by apply (below_short p d cs k (fun k t => post_order (Some k) t = post_order None t)).
Qed.
Lemma in_all t : forall k, (length (addrs t) <= S k)%nat -> in_order (Some k) t = in_order None t.
Proof.
  induction t as [p d cs IH] using tree_induction. intros [|k] Hk; [by rewrite (short_leaf p d cs Hk)|].
  cbn [in_order]. pose proof (below_short p d cs k (fun k t => in_order (Some k) t = in_order None t) IH Hk) as Hf.
  destruct cs as [|c cs]; [done|]. cbn [map fmap option_fmap option_map pred]. apply Forall_cons in Hf as [Hc Hf]. rewrite Hc. do 2 f_equal. by apply concat_same.
Qed.
Lemma level_all t k : (length (addrs t) <= k)%nat -> level_order k t = level_order (length (addrs t)) t.
Proof.
  intros Hk. unfold level_order. replace k with (length (addrs t) + (k - length (addrs t)))%nat at 1 by lia.
  rewrite seq_app, map_app, concat_app. rewrite (at_levels_done t (0 + length (addrs t))); [apply app_nil_r|].
  destruct (at_level (0 + length (addrs t)) t) eqn:E; [done|]. pose proof (at_level_deep t (length (addrs t))). cbn in E. rewrite E in H.
  specialize (H ltac:(done)). lia.
Qed.


Section Visits.
Context {A : Type} (s : nstore) (func : ptr -> node -> A -> bool * A) (flags : Z).

(** The function is called for the nodes of the kind asked for, until it says to stop. *)
Fixpoint visit_all (l : list ptr) (a : A) : bool * A :=
  match l with
  | [] => (false, a)
  | p :: l =>
      match s !! p with
      | Some n =>
          let bit := if KR_NTREE_IS_LEAF n then KR_TRAVERSE_LEAFS else KR_TRAVERSE_NON_LEAFS in
          let '(stop, a) := if has flags bit then func p n a else (false, a) in
          if stop then (true, a) else visit_all l a
      | None => (false, a)
      end
  end.
Lemma visit_app l l' (a : A) : Forall (fun p => is_Some (s !! p)) l ->
  visit_all (l ++ l') a = let '(stop, a) := visit_all l a in if stop then (true, a) else visit_all l' a.
Proof.
  intros Hl. revert a. induction Hl as [|p l [n En] Hl IH]; intros a; [done|]. cbn [visit_all app]. rewrite En.
  destruct (if has flags _ then _ else _) as [[] a']; [done|]. apply IH.
Qed.
Lemma visit_one p n (a : A) : s !! p = Some n ->
  visit_all [p] a = call func flags (if KR_NTREE_IS_LEAF n then KR_TRAVERSE_LEAFS else KR_TRAVERSE_NON_LEAFS) p n a.
Proof. intros En. cbn [visit_all]. rewrite En. unfold call. destruct (if has flags _ then _ else _) as [[] a']; done. Qed.

(** A node with its tree. *)
Definition linked_node (t : tree) : Prop := exists n,
  s !! root_of t = Some n /\ children n = head (map root_of (cs_of t)) /\ linked_trees s (Some (root_of t)) None (cs_of t).
Lemma linked_head par pr t ts : linked_trees s par pr (t :: ts) -> linked_node t /\ linked_trees s par (Some (root_of t)) ts /\
  exists n, s !! root_of t = Some n /\ next n = head (map root_of ts).
Proof.
  inversion 1 as [|? ? p d cs ? n En Hd Hc Hn Hp Hpr Hcs Hts]; subst. cbn [root_of cs_of].
  split; [by exists n|]. split; [done|]. by exists n.
Qed.
Lemma linked_in ts : forall par pr, linked_trees s par pr ts -> Forall (fun p => is_Some (s !! p)) (all_addrs ts).
Proof.
  intros par pr. induction 1 as [|par pr p d cs ts n En Hd Hc Hn Hp Hpr Hcs IHcs Hts IHts]; [constructor|].
  rewrite all_addrs_cons. constructor; [by eexists|]. by apply Forall_app.
Qed.
Lemma linked_node_in t : linked_node t -> Forall (fun p => is_Some (s !! p)) (addrs t).
Proof. destruct t as [p d cs]. intros (n & En & _ & Hl). constructor; [by eexists|]. by eapply linked_in. Qed.

Lemma known_sub t l : linked_node t -> (forall x, x ∈ l -> x ∈ addrs t) -> Forall (fun p => is_Some (s !! p)) l.
Proof. intros Ht Hl. pose proof (linked_node_in t Ht) as Hf. rewrite Forall_forall in *. auto. Qed.

(** What a limit counts down: how many levels are left below the node. *)
Definition left_below (depth : option Z) : option nat := (fun d => Z.to_nat (u32 (d - 1))) <$> depth.
Definition counter (depth : option Z) : Prop := forall d, depth = Some d -> 0 <= d < 2 ^ 32.
Lemma sunk_bottom depth : counter depth -> left_below depth = Some O -> at_bottom (sunk depth) = true.
Proof.
  unfold left_below, at_bottom, sunk. destruct depth as [d|]; [|done]. cbn. intros Hd [= E]. apply bool_decide_eq_true. f_equal.
  pose proof (Z.mod_pos_bound (d - 1) (2 ^ 32) eq_refl). unfold wrapu in *. lia.
Qed.
Lemma sunk_left depth : counter depth -> left_below depth <> Some O ->
  at_bottom (sunk depth) = false /\ left_below (sunk depth) = pred <$> left_below depth /\ counter (sunk depth).
Proof.
  unfold left_below, at_bottom, sunk, counter. destruct depth as [d|]; cbn; [|intros; by split_and!]. intros Hd Hne.
  pose proof (Z.mod_pos_bound (d - 1) (2 ^ 32) eq_refl) as Hb. unfold wrapu in *. set (e := (d - 1) mod 2 ^ 32) in *.
  assert (e <> 0) by (intros E; apply Hne; by rewrite E). split_and!.
  - apply bool_decide_eq_false. congruence.
  - f_equal. rewrite (Z.mod_small (e - 1)) by lia. lia.
  - intros x [= <-]. lia.
Qed.

Lemma leaf_of t n : s !! root_of t = Some n -> children n = head (map root_of (cs_of t)) ->
  KR_NTREE_IS_LEAF n = match cs_of t with [] => true | _ => false end.
Proof. intros _ E. unfold KR_NTREE_IS_LEAF. rewrite E. by destruct (cs_of t). Qed.
Lemma node_at_ok p n {B} (k : node -> res B) : s !! p = Some n -> (node_at s p ≫= k) = k n.
Proof. intros E. unfold node_at. by rewrite E. Qed.

(** A function and its loop over siblings: each node costs at most two steps. *)
Definition runs_as (node_run loop_run : option Z -> nat -> ptr -> A -> res (bool * A))
    (order : option nat -> tree -> list ptr) (fuel : nat) : Prop :=
  (forall t depth (a : A), linked_node t -> counter depth -> (2 * length (addrs t) <= fuel)%nat ->
     node_run depth fuel (root_of t) a = Ok (visit_all (order (left_below depth) t) a)) /\
  (forall t ts par pr depth (a : A), linked_trees s par pr (t :: ts) -> counter depth -> (2 * length (all_addrs (t :: ts)) + 1 <= fuel)%nat ->
     loop_run depth fuel (root_of t) a = Ok (visit_all (concat (map (order (left_below depth)) (t :: ts))) a)).
Lemma runs_O node_run loop_run order : runs_as node_run loop_run order O.
Proof. split; [intros [p d cs]|intros [p d cs]]; intros; cbn [addrs List.length] in *; lia. Qed.

(** The loop is the same for the three orders. *)
Lemma loop_step (node_run loop_run : option Z -> nat -> ptr -> A -> res (bool * A)) (loop : option Z -> nat -> option ptr -> A -> res (bool * A)) order fuel :
  (forall k t x, x ∈ order k t -> x ∈ addrs t) ->
  (forall depth fuel (a : A), loop depth (S fuel) None a = Ok (false, a)) ->
  (forall depth fuel c (a : A), loop depth (S fuel) (Some c) a =
     (n ← node_at s c; '(stop, x) ← node_run depth fuel c a; if (stop : bool) then Ok (true, x) else loop depth fuel (next n) x)) ->
  (forall depth fuel c (a : A), loop_run depth fuel c a = loop depth fuel (Some c) a) ->
  runs_as node_run loop_run order fuel ->
  forall t ts par pr depth (a : A), linked_trees s par pr (t :: ts) -> counter depth -> (2 * length (all_addrs (t :: ts)) + 1 <= S fuel)%nat ->
     loop_run depth (S fuel) (root_of t) a = Ok (visit_all (concat (map (order (left_below depth)) (t :: ts))) a).
Proof.
  intros Hsub Hnone Hsome Hlr [IHn IHl] t ts par pr depth a Hl Hc Hf. destruct (linked_head par pr t ts Hl) as (Ht & Hts & n & En & Hn).
  assert (Hlen : (length (all_addrs (t :: ts)) = length (addrs t) + length (all_addrs ts))%nat) by (unfold all_addrs; cbn; apply length_app).
  rewrite Hlr, Hsome, (node_at_ok _ n) by done. rewrite IHn by (done || lia). cbn [mbind].
  cbn [map concat]. rewrite visit_app by (eapply known_sub; [exact Ht|apply Hsub]).
  unfold mbind, res_bind. destruct (visit_all (order (left_below depth) t) a) as [[] a1]; [done|]. rewrite Hn.
  destruct ts as [|t' ts]; cbn [map head].
  - destruct fuel; [destruct t as [p d cs]; cbn [addrs List.length] in *; lia|]. by rewrite Hnone.
  - rewrite <- Hlr. assert (length (addrs t) <> 0)%nat by (by destruct t). rewrite (IHl t' ts par _ depth a1 Hts Hc); [done|lia].
Qed.

Lemma pre_eq depth fuel p (x : A) : kr_ntree_traverse_pre_order s func flags depth (S fuel) p x =
  n ← node_at s p;
  match children n with
  | Some c =>
      let '(stop, x) := call func flags KR_TRAVERSE_NON_LEAFS p n x in
      if stop then Ok (true, x)
      else if at_bottom (sunk depth) then Ok (false, x) else pre_order_loop s func flags (sunk depth) fuel (Some c) x
  | None => Ok (call func flags KR_TRAVERSE_LEAFS p n x)
  end.
Proof. done. Qed.
Lemma post_eq depth fuel p (x : A) : kr_ntree_traverse_post_order s func flags depth (S fuel) p x =
  n ← node_at s p;
  match children n with
  | Some c =>
      '(stop, x) ← (if at_bottom (sunk depth) then Ok (false, x) else post_order_loop s func flags (sunk depth) fuel (Some c) x);
      if (stop : bool) then Ok (true, x) else Ok (call func flags KR_TRAVERSE_NON_LEAFS p n x)
  | None => Ok (call func flags KR_TRAVERSE_LEAFS p n x)
  end.
Proof. done. Qed.
Lemma in_eq depth fuel p (x : A) : kr_ntree_traverse_in_order s func flags depth (S fuel) p x =
  n ← node_at s p;
  match children n with
  | Some c =>
      if at_bottom (sunk depth) then Ok (call func flags KR_TRAVERSE_NON_LEAFS p n x)
      else
        m ← node_at s c;
        '(stop, x) ← kr_ntree_traverse_in_order s func flags (sunk depth) fuel c x;
        if (stop : bool) then Ok (true, x)
        else
          let '(stop, x) := call func flags KR_TRAVERSE_NON_LEAFS p n x in
          if stop then Ok (true, x) else in_order_loop s func flags (sunk depth) fuel (next m) x
  | None => Ok (call func flags KR_TRAVERSE_LEAFS p n x)
  end.
Proof. done. Qed.

Lemma pre_run fuel : runs_as (kr_ntree_traverse_pre_order s func flags) (fun d f c => pre_order_loop s func flags d f (Some c)) pre_order fuel.
Proof.
  induction fuel as [|fuel IH]; [apply runs_O|]. split.
  - intros [p d cs] depth a (n & En & Hch & Hl) Hc Hf. pose proof (leaf_of (Tree p d cs) n En Hch) as Hleaf.
    cbn [root_of cs_of] in *. rewrite pre_eq. cbn [pre_order visit_all]. rewrite (node_at_ok _ n), En, Hch by done.
    destruct cs as [|c cs]; cbn [map head] in *; rewrite Hleaf; unfold call.
    + destruct (if has flags _ then _ else _) as [[] a1]; by destruct (left_below depth) as [[|]|].
    + destruct (if has flags _ then _ else _) as [[] a1]; [done|].
      destruct (decide (left_below depth = Some O)) as [E|E].
      * by rewrite (sunk_bottom depth Hc E), E.
      * destruct (sunk_left depth Hc E) as (-> & Eb & Hc'). cbn [addrs List.length] in Hf. change (concat (map addrs (c :: cs))) with (all_addrs (c :: cs)) in Hf.
        rewrite (proj2 IH c cs (Some p) None (sunk depth) a1 Hl Hc') by lia. rewrite Eb. by destruct (left_below depth) as [[|]|].
  - apply (loop_step (kr_ntree_traverse_pre_order s func flags) (fun d f c => pre_order_loop s func flags d f (Some c)) (pre_order_loop s func flags));
      [intros k t; apply pre_sub|done|done|done|exact IH].
Qed.
Lemma post_run fuel : runs_as (kr_ntree_traverse_post_order s func flags) (fun d f c => post_order_loop s func flags d f (Some c)) post_order fuel.
Proof.
  induction fuel as [|fuel IH]; [apply runs_O|]. split.
  - intros [p d cs] depth a (n & En & Hch & Hl) Hc Hf. pose proof (leaf_of (Tree p d cs) n En Hch) as Hleaf.
    pose proof (linked_in cs _ _ Hl) as Hin. cbn [root_of cs_of] in *. rewrite post_eq. cbn [post_order]. rewrite (node_at_ok _ n), Hch by done.
    destruct cs as [|c cs]; cbn [head map] in *.
    + destruct (left_below depth) as [[|]|]; cbn [concat app]; by rewrite (visit_one p n), Hleaf.
    + destruct (decide (left_below depth = Some O)) as [E|E].
      * rewrite (sunk_bottom depth Hc E), E. cbn [app]. by rewrite (visit_one p n), Hleaf.
      * destruct (sunk_left depth Hc E) as (-> & Eb & Hc'). cbn [addrs List.length] in Hf. change (concat (map addrs (c :: cs))) with (all_addrs (c :: cs)) in Hf.
        rewrite (proj2 IH c cs (Some p) None (sunk depth) a Hl Hc') by lia. rewrite Eb.
        replace (match left_below depth with Some O => [] | _ => concat _ end) with (concat (map (post_order (pred <$> left_below depth)) (c :: cs)))
          by (by destruct (left_below depth) as [[|]|]).
        rewrite visit_app. { unfold mbind, res_bind. destruct (visit_all (concat _) a) as [[] a1]; [done|]. by rewrite (visit_one p n), Hleaf. }
        rewrite Forall_forall in *. intros x Hx. apply Hin. eapply concat_sub, Hx. apply Forall_forall. intros t _. apply post_sub.
  - apply (loop_step (kr_ntree_traverse_post_order s func flags) (fun d f c => post_order_loop s func flags d f (Some c)) (post_order_loop s func flags));
      [intros k t; apply post_sub|done|done|done|exact IH].
Qed.
Lemma in_run fuel : runs_as (kr_ntree_traverse_in_order s func flags) (fun d f c => in_order_loop s func flags d f (Some c)) in_order fuel.
Proof.
  induction fuel as [|fuel IH]; [apply runs_O|]. split.
  - intros [p d cs] depth a (n & En & Hch & Hl) Hc Hf. pose proof (leaf_of (Tree p d cs) n En Hch) as Hleaf.
    cbn [root_of cs_of] in *. rewrite in_eq. cbn [in_order]. rewrite (node_at_ok _ n), Hch by done.
    destruct cs as [|c cs]; cbn [head map] in *.
    + destruct (left_below depth) as [[|]|]; by rewrite (visit_one p n), Hleaf.
    + destruct (decide (left_below depth = Some O)) as [E|E].
      * rewrite (sunk_bottom depth Hc E), E. by rewrite (visit_one p n), Hleaf.
      * destruct (sunk_left depth Hc E) as (-> & Eb & Hc'). destruct (linked_head _ _ _ _ Hl) as (Ht & Hts & m & Em & Hm).
        assert (Hlen : (length (addrs (Tree p d (c :: cs))) = S (length (addrs c) + length (all_addrs cs)))%nat) by (cbn; by rewrite length_app).
        rewrite Hlen in Hf. rewrite (node_at_ok _ m) by done. rewrite (proj1 IH c (sunk depth) a Ht Hc') by lia. rewrite Eb.
        replace (match left_below depth with Some O => [p] | _ => _ end)
          with (in_order (pred <$> left_below depth) c ++ p :: concat (map (in_order (pred <$> left_below depth)) cs))
          by (by destruct (left_below depth) as [[|]|]).
        rewrite visit_app by (eapply known_sub; [exact Ht|apply in_order_sub]).
        unfold mbind, res_bind. destruct (visit_all (in_order _ c) a) as [[] a1]; [done|]. cbn [visit_all]. rewrite En, Hleaf. unfold call.
        destruct (if has flags _ then _ else _) as [[] a2]; [done|]. rewrite Hm. destruct cs as [|c' cs]; cbn [map head].
        { destruct fuel; [lia|done]. }
        rewrite (proj2 IH c' cs (Some p) _ (sunk depth) a2 Hts Hc'), Eb; [done|]. destruct c; cbn [addrs List.length] in Hf; lia.
  - apply (loop_step (kr_ntree_traverse_in_order s func flags) (fun d f c => in_order_loop s func flags d f (Some c)) (in_order_loop s func flags));
      [intros k t; apply in_order_sub|done|done|done|exact IH].
Qed.

(** ** One level *)

Lemma level_eq level fuel p more (x : A) : kr_ntree_traverse_level s func flags level (S fuel) p more x =
  n ← node_at s p;
  if level =? 0 then
    match children n with
    | Some _ => let '(stop, x) := call func flags KR_TRAVERSE_NON_LEAFS p n x in Ok (stop, true, x)
    | None => let '(stop, x) := call func flags KR_TRAVERSE_LEAFS p n x in Ok (stop, more, x)
    end
  else level_loop s func flags level fuel (children n) more x.
Proof. done. Qed.
Lemma level_loop_eq level fuel c more (x : A) : level_loop s func flags level (S fuel) (Some c) more x =
  '(stop, more, x) ← kr_ntree_traverse_level s func flags (u32 (level - 1)) fuel c more x;
  if (stop : bool) then Ok (true, more, x)
  else n ← node_at s c; level_loop s func flags level fuel (next n) more x.
Proof. done. Qed.

(** The answer says whether there are nodes on the next level, unless the function stopped. *)
Definition level_result (r : res (bool * bool * A)) (l l' : list ptr) (more : bool) (a : A) : Prop :=
  exists more', r = Ok ((visit_all l a).1, more', (visit_all l a).2) /\
    ((visit_all l a).1 = false -> more' = more || negb (bool_decide (l' = []))).
Lemma nil_app_bool l l' : negb (bool_decide (l ++ l' = [])) = negb (bool_decide (l = [])) || negb (bool_decide (l' = [])).
Proof. destruct l, l'; done. Qed.
Lemma at_level_head t ts : concat (map (at_level O) (t :: ts)) <> [].
Proof. by destruct t. Qed.

Lemma level_run fuel :
  (forall t i more (a : A), linked_node t -> (2 * length (addrs t) <= fuel)%nat -> Z.of_nat i < 2 ^ 32 ->
     level_result (kr_ntree_traverse_level s func flags (Z.of_nat i) fuel (root_of t) more a) (at_level i t) (at_level (S i) t) more a) /\
  (forall ts par pr i more (a : A), linked_trees s par pr ts -> (2 * length (all_addrs ts) + 1 <= fuel)%nat -> Z.of_nat (S i) < 2 ^ 32 ->
     level_result (level_loop s func flags (Z.of_nat (S i)) fuel (head (map root_of ts)) more a)
       (concat (map (at_level i) ts)) (concat (map (at_level (S i)) ts)) more a).
Proof.
  induction fuel as [|fuel [IHn IHl]]; [split; [intros [p d cs]|]; intros; cbn [addrs List.length] in *; lia|]. split.
  - intros [p d cs] i more a (n & En & Hch & Hl) Hf Hi. pose proof (leaf_of (Tree p d cs) n En Hch) as Hleaf.
    cbn [root_of cs_of addrs List.length] in *. change (concat (map addrs cs)) with (all_addrs cs) in Hf.
    rewrite level_eq, (node_at_ok _ n) by done. destruct i as [|i].
    + change (Z.of_nat 0 =? 0) with true. cbv iota. change (at_level 0 (Tree p d cs)) with [p].
      unfold level_result. rewrite (visit_one p n), Hleaf, Hch by done. unfold call.
      destruct cs as [|c cs]; cbn [map head]; destruct (if has flags _ then _ else _) as [stop x]; cbn; eexists; (split; [reflexivity|intros ->]);
        rewrite ?orb_false_r; try done. rewrite bool_decide_eq_false_2 by (by destruct c). by destruct more.
    + rewrite (proj2 (Z.eqb_neq (Z.of_nat (S i)) 0)) by lia. rewrite Hch. apply (IHl cs (Some p) None); [done|lia|done].
  - intros ts par pr i more a Hl Hf Hi. destruct ts as [|t ts].
    + exists more. split; [done|]. intros _. cbn. by destruct more.
    + destruct (linked_head par pr t ts Hl) as (Ht & Hts & n & En & Hn). cbn [map head]. rewrite level_loop_eq.
      replace (u32 (Z.of_nat (S i) - 1)) with (Z.of_nat i) by (rewrite wrapu_small by lia; lia).
      assert (Hlen : (length (all_addrs (t :: ts)) = length (addrs t) + length (all_addrs ts))%nat) by (unfold all_addrs; cbn; apply length_app).
      assert (length (addrs t) <> 0)%nat by (by destruct t).
      destruct (IHn t i more a Ht) as (more1 & E1 & Hm1); [lia|lia|]. rewrite E1. unfold mbind, res_bind. cbn [concat].
      unfold level_result. rewrite visit_app by (eapply known_sub; [exact Ht|apply level_sub]).
      destruct (visit_all (at_level i t) a) as [[] a1]; cbn [fst snd] in *; [eexists; by split|].
      rewrite Hm1 by done. unfold node_at. rewrite En. cbn [of_option]. rewrite Hn.
      destruct (IHl ts par _ i (more || negb (bool_decide (at_level (S i) t = []))) a1 Hts) as (more2 & E2 & Hm2); [lia|lia|].
      exists more2. split; [exact E2|]. intros E. rewrite (Hm2 E), nil_app_bool. symmetry. apply orb_assoc.
Qed.

(** ** All levels *)

Lemma levels_run t depth : linked_node t -> (length (addrs t) <= base.size s)%nat -> Z.of_nat (base.size s) < 2 ^ 32 - 1 -> 0 <= depth < 2 ^ 32 ->
  forall fuel i (a : A), at_level i t <> [] -> (length (addrs t) < fuel + i)%nat -> Z.of_nat i <= depth ->
  levels_loop s func flags depth (root_of t) fuel (Z.of_nat i) a =
    Ok (visit_all (concat (map (fun i => at_level i t) (seq i (Z.to_nat depth - i)))) a).
Proof.
  intros Ht Hs Hsz Hd. induction fuel as [|fuel IH]; intros i a Hi Hf Hid; pose proof (at_level_deep t i Hi) as Hdeep; [lia|].
  cbn [levels_loop]. destruct (Z.eqb_spec (Z.of_nat i) depth) as [<-|Hne].
  - by replace (Z.to_nat (Z.of_nat i) - i)%nat with O by lia.
  - replace (Z.to_nat depth - i)%nat with (S (Z.to_nat depth - S i)) by lia. cbn [seq map concat].
    destruct (proj1 (level_run (fuel_of s)) t i false a Ht) as (more & E & Hm); [unfold fuel_of; lia|lia|]. rewrite E. unfold mbind, res_bind.
    rewrite visit_app by (eapply known_sub; [exact Ht|apply level_sub]).
    destruct (visit_all (at_level i t) a) as [[] a1]; cbn [fst snd] in *; [done|]. rewrite Hm by done. cbn [orb].
    destruct (bool_decide_reflect (at_level (S i) t = [])) as [En|En]; cbn [negb].
    + by rewrite at_levels_done.
    + replace (u32 (Z.of_nat i + 1)) with (Z.of_nat (S i)) by (rewrite wrapu_small by lia; lia). apply IH; [done|lia|lia].
Qed.

(** The counter of the three orders: a depth of [0] wraps. *)
Lemma limit_left t (order : option nat -> tree -> list ptr) depth : (length (addrs t) <= base.size s)%nat -> Z.of_nat (base.size s) < 2 ^ 32 - 1 ->
  (forall k, (length (addrs t) <= S k)%nat -> order (Some k) t = order None t) -> 0 <= depth < 2 ^ 31 ->
  order (left_below (Some depth)) t = order (if depth <=? 0 then None else Some (Z.to_nat (depth - 1))) t.
Proof.
  intros Ht Hs Hall Hd. unfold left_below. cbn [fmap option_fmap option_map]. destruct (Z.leb_spec depth 0).
  - assert (depth = 0) as -> by lia. apply Hall. change (u32 (0 - 1)) with 4294967295. lia.
  - by rewrite wrapu_small by lia.
Qed.

Lemma traverse_run t order depth (a : A) : linked_node t -> (length (addrs t) <= base.size s)%nat -> Z.of_nat (base.size s) < 2 ^ 32 - 1 ->
  0 <= order <= KR_LEVEL_ORDER -> flags <= KR_TRAVERSE_MASK -> -1 <= depth < 2 ^ 31 ->
  kr_ntree_traverse s func (Some (root_of t)) order flags depth a = Ok (visit_all (in_order_of order depth (if depth <=? 0 then None else Some (Z.to_nat (depth - 1))) t) a).2.
Proof.
  intros Ht Hs Hsz Ho Hfl Hd. unfold kr_ntree_traverse. rewrite (proj2 (Z.ltb_ge KR_LEVEL_ORDER order)) by lia.
  rewrite (proj2 (Z.ltb_ge KR_TRAVERSE_MASK flags)) by lia.
  assert (negb (depth =? -1) && (depth <? 0) = false) as ->.
  { destruct (Z.eqb_spec depth (-1)); [done|]. cbn. apply Z.ltb_ge. lia. }
  set (dd := if depth <? 0 then None else Some depth).
  assert (Hcnt : counter dd). { unfold dd, counter. destruct (Z.ltb_spec depth 0); [done|]. intros x [= <-]. lia. }
  assert (Hfuel : (2 * length (addrs t) <= fuel_of s)%nat) by (unfold fuel_of; lia).
  assert (Hlim : forall ord : option nat -> tree -> list ptr, (forall k, (length (addrs t) <= S k)%nat -> ord (Some k) t = ord None t) ->
    ord (left_below dd) t = ord (if depth <=? 0 then None else Some (Z.to_nat (depth - 1))) t).
  { intros ord Hall. unfold dd. destruct (Z.ltb_spec depth 0); [by rewrite (proj2 (Z.leb_le depth 0)) by lia|]. apply limit_left; done || lia. }
  unfold in_order_of. assert (order = 0 \/ order = 1 \/ order = 2 \/ order = 3) as [-> | [-> | [-> | ->]]] by (unfold KR_LEVEL_ORDER in Ho; lia); cbv [KR_IN_ORDER KR_PRE_ORDER KR_POST_ORDER KR_LEVEL_ORDER]; cbn [Z.eqb Pos.eqb].
  - rewrite (proj1 (in_run (fuel_of s)) t dd a Ht Hcnt Hfuel). rewrite (Hlim in_order); [done|]. intros k. apply in_all.
  - rewrite (proj1 (pre_run (fuel_of s)) t dd a Ht Hcnt Hfuel). rewrite (Hlim pre_order); [done|]. intros k. apply pre_all.
  - rewrite (proj1 (post_run (fuel_of s)) t dd a Ht Hcnt Hfuel). rewrite (Hlim post_order); [done|]. intros k. apply post_all.
  - unfold kr_ntree_depth_traverse_level. change 0 with (Z.of_nat 0) at 1.
    rewrite (levels_run t (u32 depth) Ht Hs Hsz); [|apply wrapu_range; lia|by destruct t|unfold fuel_of; lia|apply wrapu_range; lia].
    cbn. do 3 f_equal. rewrite Nat.sub_0_r. change (concat _) with (level_order (Z.to_nat (u32 depth)) t). destruct (Z.ltb_spec depth 0).
    + assert (depth = -1) as -> by lia. change (u32 (-1)) with 4294967295. apply level_all. lia.
    + by rewrite wrapu_small by lia.
Qed.
End Visits.

(** C31. A traversal calls the function for the nodes of the tree in the order asked for, down
    to the depth asked for (1 or more, or -1 for all of them), for the kind of nodes that the
    flags name, each once, until the function says to stop; what it answers is the state that
    the calls leave. *)
Theorem kr_ntree_traverse_visits {A} s m t (func : ptr -> node -> A -> bool * A) order flags depth (x : A) :
  ntree_rep s m -> tree_of m t -> Z.of_nat (base.size s) < UINT_MAX ->
  0 <= order <= KR_LEVEL_ORDER -> flags <= KR_TRAVERSE_MASK -> depth = -1 \/ 1 <= depth <= INT_MAX ->
  kr_ntree_traverse s func (Some (root_of t)) order flags depth x = Ok (visit_all s func flags (visited order depth t) x).2.
Proof.
  intros Hr Ht Hs Ho Hf Hd. unfold UINT_MAX, INT_MAX in *. unfold visited. rewrite (proj2 (Z.eqb_neq depth 0)) by lia.
  rewrite (traverse_run s func flags t); try done; try lia.
  - destruct Hd as [->|Hd]; [done|]. by rewrite (proj2 (Z.leb_gt depth 0)), (proj2 (Z.ltb_ge depth 0)) by lia.
  - exact (linked_tree s m t Hr Ht).
  - by eapply addrs_size.
Qed.

(** The depth [0] is below every node, but the counter of three of the orders is unsigned and
    is decremented before it is tested: with this depth they visit the whole tree, and only
    the order by levels visits nothing. *)
Theorem kr_ntree_traverse_depth_zero {A} s m t (func : ptr -> node -> A -> bool * A) order flags (x : A) :
  ntree_rep s m -> tree_of m t -> Z.of_nat (base.size s) < UINT_MAX ->
  0 <= order <= KR_LEVEL_ORDER -> flags <= KR_TRAVERSE_MASK ->
  kr_ntree_traverse s func (Some (root_of t)) order flags 0 x =
    Ok (visit_all s func flags (if order =? KR_LEVEL_ORDER then [] else visited order (-1) t) x).2.
Proof.
  intros Hr Ht Hs Ho Hf. unfold UINT_MAX, INT_MAX in *. rewrite (traverse_run s func flags t); try done; try lia.
  - unfold visited, in_order_of.
    assert (order = 0 \/ order = 1 \/ order = 2 \/ order = 3) as [-> | [-> | [-> | ->]]] by (unfold KR_LEVEL_ORDER in Ho; lia); done.
  - exact (linked_tree s m t Hr Ht).
  - by eapply addrs_size.
Qed.

(** A search is a traversal that stops at the first node of its kind with the data. *)
Definition wanted s flags (x : D) p : bool :=
  match s !! p with
  | Some n => has flags (if KR_NTREE_IS_LEAF n then KR_TRAVERSE_LEAFS else KR_TRAVERSE_NON_LEAFS) && bool_decide (data n = x)
  | None => false
  end.
Lemma visit_find s flags (x : D) l : Forall (fun p => is_Some (s !! p)) l ->
  (visit_all s (kr_ntree_find_func x) flags l None).2 = find (wanted s flags x) l.
Proof.
  induction 1 as [|p l [n En] _ IH]; [done|]. cbn [visit_all find]. unfold wanted. rewrite En.
  destruct (has flags _); cbn [andb]; [|exact IH]. unfold kr_ntree_find_func.
  destruct (decide (data n = x)) as [<-|Hne].
  - rewrite bool_decide_eq_false_2 by (intros H; by apply H). by rewrite bool_decide_eq_true_2.
  - rewrite bool_decide_eq_true_2 by (intros H; by apply Hne). rewrite bool_decide_eq_false_2 by done. exact IH.
Qed.
Lemma visited_sub order depth t x : x ∈ visited order depth t -> x ∈ addrs t.
Proof.
  unfold visited, in_order_of. destruct (depth =? 0); [by intros ?%not_elem_of_nil|].
  destruct (order =? _); [apply in_order_sub|]. destruct (order =? _); [apply pre_sub|].
  destruct (order =? _); [apply post_sub|]. unfold level_order. intros H. apply list_elem_of_In, in_concat in H as (l & Hl & Hx).
  apply in_map_iff in Hl as (i & <- & _). apply list_elem_of_In in Hx. by eapply level_sub.
Qed.

(** A search finds the first node, in the order of the traversal, that is of the kind
    asked for and has the data, and [NULL] when there is none. *)
Theorem kr_ntree_find_first s m t order flags (x : D) : ntree_rep s m -> tree_of m t -> Z.of_nat (base.size s) < UINT_MAX ->
  0 <= order <= KR_LEVEL_ORDER -> flags <= KR_TRAVERSE_MASK ->
  kr_ntree_find s (Some (root_of t)) order flags x = Ok (find (wanted s flags x) (visited order (-1) t)).
Proof.
  intros Hr Ht Hs Ho Hf. unfold kr_ntree_find. rewrite (proj2 (Z.ltb_ge KR_LEVEL_ORDER order)) by lia.
  rewrite (proj2 (Z.ltb_ge KR_TRAVERSE_MASK flags)) by lia. rewrite <- visit_find.
  - unfold visited. apply (traverse_run s _ flags t); try done; try lia; [exact (linked_tree s m t Hr Ht)|by eapply addrs_size].
  - apply (known_sub s t); [exact (linked_tree s m t Hr Ht)|]. intros y. apply visited_sub.
Qed.

(** * Copies

    The same tree at other addresses, with the function applied to the data. *)

Inductive copied (f : D -> D) : tree -> tree -> Prop :=
  copied_node p d cs p' cs' : Forall2 (copied f) cs cs' -> copied f (Tree p d cs) (Tree p' (f d) cs').

(** Nothing of a forest changes but the children of [nn], and its roots stay roots. *)
Definition grows (nn : option ptr) m m' : Prop :=
  (forall x v, nn <> Some x -> m !! x = Some v -> m' !! x = Some v) /\ forall x, root m x -> root m' x.
Lemma grows_trans nn m m' m'' : grows nn m m' -> grows nn m' m'' -> grows nn m m''.
Proof. intros [H1 H2] [H3 H4]. split; [intros x v Hx Hv; by apply H3, H1|intros x Hx; by apply H4, H2]. Qed.
Lemma grows_all nn m m' : grows None m m' -> grows nn m m'.
Proof. intros [H1 H2]. split; [intros x v _; by apply H1|done]. Qed.
Lemma tree_grows nn m m' t : grows nn m m' -> (forall x, nn = Some x -> x ∉ addrs t) -> tree_of m t -> tree_of m' t.
Proof.
  intros [Hg _]. induction t as [p d cs IH] using tree_induction. intros Hn. inversion 1 as [? ? ? E Hcs]; subst. constructor.
  - apply Hg; [|done]. intros ->. apply (Hn p eq_refl). by left.
  - rewrite Forall_forall in *. intros t Ht. apply IH; [done| |by apply Hcs]. intros x -> Hx. apply (Hn x eq_refl).
    right. apply (elem_all_addrs cs). by exists t.
Qed.
Lemma kids_grows nn m m' q : grows nn m m' -> is_Some (m !! q) -> nn <> Some q -> kids m' q = kids m q.
Proof. intros [Hg _] [v E] Hq. unfold kids. by rewrite (Hg q v Hq E), E. Qed.
Lemma root_not_in m t x : tree_of m t -> root m x -> x <> root_of t -> x ∉ addrs t.
Proof. intros Ht Hx Hne H. apply Hne, (root_above m); [done|]. by apply (above_addrs m t Ht). Qed.

Lemma last_child_run s m p : ntree_rep s m -> is_Some (m !! p) -> kr_ntree_last_child (Some p) s = Ok (last (kids m p), s).
Proof.
  intros Hr Hp. destruct (nt_dom _ _ Hr p Hp) as [n En]. unfold kr_ntree_last_child. rewrite (bind_read _ _ _ _ En).
  rewrite (node_children s m p n Hr En). pose proof (kids_chained s m p Hr) as Hc. pose proof (kids_size s m p Hr) as Hs.
  destruct (kids m p) as [|c b]; [done|]. cbn [head List.length] in *. destruct (fueled_last_along s c b Hc) as (z & Ez & Hz); [lia|].
  rewrite (bind_ok _ _ _ _ _ Ez). by rewrite Hz.
Qed.

(** [new] are the copies that are already below [nn], those of the children after [ts]. *)
Definition copies_ok (f : D -> D) (fuel : nat) : Prop :=
  (forall t s m, ntree_rep s m -> tree_of m t -> (2 * length (addrs t) <= fuel)%nat ->
     exists s' m' t', copy_deep f fuel (root_of t) s = Ok (root_of t', s') /\ ntree_rep s' m' /\ grows None m m' /\
       tree_of m' t' /\ copied f t t' /\ root m' (root_of t') /\ m !! root_of t' = None) /\
  (forall ts k nn dn new s m p, ntree_rep s m -> kids m p = map root_of ts ++ k -> Forall (tree_of m) ts -> p <> nn ->
     root m nn -> m !! nn = Some (dn, map root_of new) -> Forall (tree_of m) new -> (2 * length (all_addrs ts) + 1 <= fuel)%nat ->
     exists s' m' new', copy_children f fuel nn (last (map root_of ts)) s = Ok (tt, s') /\ ntree_rep s' m' /\ grows (Some nn) m m' /\
       m' !! nn = Some (dn, map root_of (new' ++ new)) /\ Forall (tree_of m') (new' ++ new) /\ Forall2 (copied f) ts new').

Lemma copy_deep_eq f fuel p : copy_deep f (S fuel) p =
  (n ← read p; new_node ← kr_ntree_new (f (data n)); child ← kr_ntree_last_child (Some p); copy_children f fuel new_node child;; mret new_node : M nstore ptr).
Proof. done. Qed.
Lemma copy_children_eq f fuel nn c : copy_children f (S fuel) nn (Some c) =
  (new_child ← copy_deep f fuel c; kr_ntree_prepend (Some nn) (Some new_child);; n ← read c; copy_children f fuel nn (prev n) : M nstore unit).
Proof. done. Qed.

Lemma new_grows m p (d : D) : m !! p = None -> grows None m (<[p := (d, [])]> m).
Proof.
  intros Hp. split.
  - intros x v _ E. by rewrite lookup_insert_ne by congruence.
  - intros x [[v E] Hx]. split; [rewrite lookup_insert_ne by congruence; by exists v|]. intros q. unfold child, kids.
    destruct (decide (q = p)) as [->|Hne]; [rewrite lookup_insert_eq; apply not_elem_of_nil|rewrite lookup_insert_ne by done; apply Hx].
Qed.
Lemma link_grows m nn p : is_Some (m !! nn) -> forall m0, (forall x, root m0 x -> root m x /\ x <> p) -> grows (Some nn) m0 m ->
  grows (Some nn) m0 (with_kids nn (p :: kids m nn) m).
Proof.
  intros Hn m0 Hroots [Hg _]. split.
  - intros x v Hx E. rewrite with_kids_lookup, (Hg x v Hx E). cbn. by rewrite decide_False by (intros ->; by apply Hx).
  - intros x Hx. destruct (Hroots x Hx) as [[Hs Hc] Hne]. split; [rewrite with_kids_lookup; by apply fmap_is_Some|].
    intros q. unfold child. destruct (decide (q = nn)) as [->|Hq]; [|rewrite kids_other by done; apply Hc].
    rewrite kids_same by done. intros [->|H]%elem_of_cons; [done|]. by apply (Hc nn).
Qed.

(** One child more is copied and put in front. *)
Lemma copy_child f fuel t ts k nn dn new s m p : copies_ok f fuel ->
  ntree_rep s m -> kids m p = map root_of (ts ++ [t]) ++ k -> tree_of m t -> p <> nn -> root m nn ->
  m !! nn = Some (dn, map root_of new) -> Forall (tree_of m) new -> (2 * length (addrs t) <= fuel)%nat ->
  exists s' m' t' n, (new_child ← copy_deep f fuel (root_of t); kr_ntree_prepend (Some nn) (Some new_child);; read (root_of t)) s = Ok (n, s') /\
    prev n = last (map root_of ts) /\ ntree_rep s' m' /\ grows (Some nn) m m' /\ kids m' p = map root_of ts ++ root_of t :: k /\
    m' !! nn = Some (dn, map root_of (t' :: new)) /\ Forall (tree_of m') (t' :: new) /\ copied f t t' /\ root m' nn.
Proof.
  intros [IHn _] Hr Hk Ht Hpn Hnn Enn Hnew Hf. rewrite map_app, <- app_assoc in Hk. cbn [map app] in Hk.
  destruct (IHn t s m Hr Ht Hf) as (s1 & m1 & t' & E1 & Hr1 & Hg1 & Ht' & Hc & Hroot' & Hfresh).
  pose proof (proj2 Hg1 nn Hnn) as Hnn1. assert (Enn1 : m1 !! nn = Some (dn, map root_of new)) by (by apply Hg1).
  assert (Hne : nn <> root_of t') by congruence.
  destruct (prepend_link s1 m1 nn (root_of t') Hr1 (proj1 Hnn1) Hroot') as (s2 & E2 & Hr2).
  { intros H. apply Hne. by apply (root_above m1). }
  set (m2 := with_kids nn (root_of t' :: kids m1 nn) m1) in *.
  assert (Hg2 : grows (Some nn) m m2).
  { apply link_grows; [by eexists| |by apply grows_all]. intros x Hx. split; [by apply Hg1|]. intros ->. destruct Hx as [[v E] _]. congruence. }
  assert (Hg12 : forall x v, Some nn <> Some x -> m1 !! x = Some v -> m2 !! x = Some v).
  { intros x v Hx E. unfold m2. rewrite with_kids_lookup, E. cbn. by rewrite decide_False by congruence. }
  assert (Hp : is_Some (m !! p)) by (apply kids_dom; rewrite Hk; by destruct ts).
  assert (Hk2 : kids m2 p = map root_of ts ++ root_of t :: k) by (rewrite (kids_grows (Some nn) m m2) by (done || congruence); done).
  destruct (nt_links _ _ Hr2 _ _ _ _ Hk2) as (n & En & _ & Hprev & _). exists s2, m2, t', n.
  assert (Hkn : kids m1 nn = map root_of new) by (unfold kids; by rewrite Enn1).
  assert (Em2 : m2 !! nn = Some (dn, map root_of (t' :: new))).
  { unfold m2. rewrite with_kids_lookup, Enn1. cbn. by rewrite decide_True, Hkn. }
  split_and!; try done.
  - rewrite (bind_ok _ _ _ _ _ E1), (bind_ok _ _ _ _ _ E2). unfold read. by rewrite En.
  - assert (Hstay : forall x, root m1 x -> x <> root_of t' -> root m2 x).
    { intros x [[v E] Hx] Hxt. split; [unfold m2; rewrite with_kids_lookup, E; by eexists|]. intros q. unfold child.
      destruct (decide (q = nn)) as [->|Hq]; [|unfold m2; rewrite kids_other by done; apply Hx].
      unfold kids. rewrite Em2. intros [->|H]%elem_of_cons; [done|]. apply (Hx nn). unfold child. by rewrite Hkn. }
    assert (Hmono : forall t0, tree_of m1 t0 -> root_of t0 <> nn -> tree_of m2 t0).
    { intros t0 Ht0 Hn0. induction t0 as [q d cs IH] using tree_induction. inversion Ht0 as [? ? ? E Hcs]; subst. constructor.
      - apply Hg12; [|done]. intros [= ->]. done.
      - rewrite Forall_forall in *. intros t1 Ht1. apply IH; [done|by apply Hcs|]. intros H. apply (proj2 Hnn1 q).
        unfold child, kids. rewrite E. rewrite <- H. apply list_elem_of_fmap. by exists t1. }
    constructor; [by apply Hmono, not_eq_sym|]. rewrite Forall_forall in *. intros t0 Ht0. apply Hmono.
    + apply (tree_grows None m m1); [done|done|by apply Hnew].
    + intros H. apply (proj2 Hnn nn). unfold child, kids. rewrite Enn, <- H. apply list_elem_of_fmap. by exists t0.
  - apply Hg2. done.
Qed.

Lemma copy_ok f fuel : copies_ok f fuel.
Proof.
  induction fuel as [|fuel IH]; [split; [intros [p d cs]|]; intros; cbn [addrs List.length] in *; lia|]. split.
  - intros t s m Hr Ht Hf. destruct t as [p d cs]. inversion Ht as [? ? ? E Hcs]; subst. cbn [root_of addrs List.length] in *.
    change (concat (map addrs cs)) with (all_addrs cs) in Hf.
    destruct (nt_dom _ _ Hr p) as [n En]; [by eexists|]. assert (data n = d) as <-.
    { destruct (nt_node _ _ Hr p n En) as (l & El & _). rewrite E in El. congruence. }
    set (nn := fresh (dom s)). assert (Hs : s !! nn = None) by apply not_elem_of_dom, is_fresh.
    assert (Hm : m !! nn = None). { apply not_elem_of_dom. rewrite <- (rep_dom s m Hr). apply is_fresh. }
    pose proof (rep_new s m nn (f (data n)) Hr Hs) as Hr0. pose proof (new_grows m nn (f (data n)) Hm) as Hg0.
    set (s0 := <[nn := _]> s) in *. set (m0 := <[nn := _]> m) in *.
    assert (Hpn : p <> nn) by congruence. assert (Hk : kids m0 p = map root_of cs) by (unfold kids; by rewrite (proj1 Hg0 p _ ltac:(done) E)).
    assert (Hroot : root m0 nn).
    { split; [unfold m0; rewrite lookup_insert_eq; by eexists|]. intros q Hq. unfold child, kids, m0 in Hq.
      destruct (decide (q = nn)) as [->|Hne]; [rewrite lookup_insert_eq in Hq; by apply not_elem_of_nil in Hq|].
      rewrite lookup_insert_ne in Hq by done. destruct (child_some s m nn q Hr Hq) as [? ?]. congruence. }
    rewrite copy_deep_eq, (bind_read _ _ _ _ En). rewrite (bind_ok _ _ _ nn s0) by done.
    rewrite (bind_ok _ _ _ _ _ (last_child_run s0 m0 p Hr0 ltac:(eexists; by apply Hg0))). rewrite Hk.
    destruct (proj2 IH cs [] nn (f (data n)) [] s0 m0 p) as (s' & m' & new & E1 & Hr' & Hg' & En' & Ht' & Hc); try done.
    { by rewrite app_nil_r. }
    { eapply Forall_impl; [exact Hcs|]. intros t. by apply (tree_grows None m m0). }
    { unfold m0. by rewrite lookup_insert_eq. }
    { lia. }
    rewrite app_nil_r in *. exists s', m', (Tree nn (f (data n)) new). rewrite (bind_ok _ _ _ _ _ E1). split_and!; try done.
    + split; [|intros x Hx; by apply Hg', Hg0]. intros x v _ Ex. apply Hg'; [congruence|]. by apply Hg0.
    + exact (proj2 Hg' nn Hroot).
  - intros ts. destruct ts as [|t ts _] using rev_ind; intros k nn dn new s m p Hr Hk Hts Hpn Hroot Enn Hnew Hf.
    { exists s, m, []. cbn [map last copy_children]. by split_and!. }
    apply Forall_app in Hts as [Hts [Ht _]%Forall_cons]. unfold all_addrs in Hf. rewrite map_app, concat_app, length_app in Hf. cbn in Hf. rewrite app_nil_r in Hf.
    change (concat (map addrs ts)) with (all_addrs ts) in Hf.
    destruct (copy_child f fuel t ts k nn dn new s m p IH Hr Hk Ht Hpn Hroot Enn Hnew) as (s1 & m1 & t' & n & E1 & Hprev & Hr1 & Hg1 & Hk1 & En1 & Ht1 & Hc1 & Hroot1); [lia|].
    assert (length (addrs t) <> 0)%nat by (by destruct t).
    destruct (proj2 IH ts (root_of t :: k) nn dn (t' :: new) s1 m1 p Hr1 Hk1) as (s2 & m2 & new' & E2 & Hr2 & Hg2 & En2 & Ht2 & Hc2); try done.
    { rewrite Forall_forall in *. intros t0 Ht0. apply (tree_grows (Some nn) m); [done| |by apply Hts]. intros x [= <-].
      apply (root_not_in m); [by apply Hts|done|]. intros H'. apply (proj2 Hroot p). unfold child. rewrite Hk, H'. apply elem_of_app. left.
      rewrite map_app. apply elem_of_app. left. apply list_elem_of_fmap. by exists t0. }
    { lia. }
    exists s2, m2, (new' ++ [t']). rewrite map_app, last_app. cbn [map last]. rewrite copy_children_eq. split_and!; try done.
    + unfold mbind, M_bind in E1 |- *. destruct (copy_deep f fuel (root_of t) s) as [[c s']|]; [|done].
      destruct (kr_ntree_prepend (Some nn) (Some c) s') as [[? s'']|]; [|done]. rewrite E1. by rewrite Hprev.
    + by eapply grows_trans.
    + by rewrite <- app_assoc.
    + by rewrite <- app_assoc.
    + apply Forall2_app; [done|]. by constructor.
Qed.

Lemma grows_apart s s' m m' t : ntree_rep s m -> ntree_rep s' m' -> grows None m m' -> tree_of m' t -> m !! root_of t = None ->
  Forall (fun x => m !! x = None) (addrs t).
Proof.
  intros Hr Hr' Hg Ht Hno. assert (Hup : forall x y, above m' x y -> is_Some (m !! x) -> is_Some (m !! y)).
  { intros x y Hxy. induction Hxy as [x|x q y Hxq _ IH]; [done|]. intros Hx. apply IH.
    destruct (nt_dom _ _ Hr x Hx) as [n En]. destruct (parent n) as [q0|] eqn:Ep.
    - pose proof (parent_child s m x q0 n Hr En Ep) as Hc. assert (Hq0 : is_Some (m !! q0)).
      { apply kids_dom. intros E. unfold child in Hc. rewrite E in Hc. by apply not_elem_of_nil in Hc. }
      assert (Hc' : child m' x q0) by (unfold child; by rewrite (kids_grows None m m' q0 Hg Hq0)).
      by rewrite (one_parent s' m' x q q0 Hr' Hxq Hc').
    - destruct (proj2 (proj2 Hg x (proj2 (root_parent s m x n Hr En) Ep)) q Hxq). }
  apply Forall_forall. intros x Hx. destruct (m !! x) eqn:E; [|done]. apply (above_addrs m' t Ht) in Hx.
  destruct (Hup x _ Hx) as [? ?]; [by eexists|congruence].
Qed.

(** A copy of a tree, whatever it hangs below, is a tree of new nodes that is on its own:
    of the same shape, with the data that the function makes of the data copied; and nothing
    of the forest that was there changes. *)
Theorem kr_ntree_copy_deep_copies s m t (f : D -> D) : ntree_rep s m -> tree_of m t ->
  exists s' m' t', kr_ntree_copy_deep (Some (root_of t)) (Some f) s = Ok (Some (root_of t'), s') /\ ntree_rep s' m' /\
    tree_of m' t' /\ copied f t t' /\ root m' (root_of t') /\
    Forall (fun x => m !! x = None) (addrs t') /\ (forall x v, m !! x = Some v -> m' !! x = Some v).
Proof.
  intros Hr Ht. pose proof (addrs_size s m t Hr Ht) as Hs.
  destruct (proj1 (copy_ok f (fuel_of s)) t s m Hr Ht) as (s' & m' & t' & E & Hr' & Hg & Ht' & Hc & Hroot & Hno); [unfold fuel_of; lia|].
  exists s', m', t'. split_and!; try done; [|by apply (grows_apart s s' m m')|intros x v; by apply Hg].
  unfold kr_ntree_copy_deep. by rewrite (bind_ok _ _ _ (root_of t') s').
Qed.

(** * How many nodes, how many levels *)

Fixpoint height (t : tree) : nat := match t with Tree _ _ cs => S (list_max (map height cs)) end.
Definition counted s flags p : bool :=
  match s !! p with Some n => has flags (if KR_NTREE_IS_LEAF n then KR_TRAVERSE_LEAFS else KR_TRAVERSE_NON_LEAFS) | None => false end.
Definition count s flags l : Z := Z.of_nat (length (List.filter (counted s flags) l)).
Lemma count_app s flags l l' : count s flags (l ++ l') = count s flags l + count s flags l'.
Proof. unfold count. rewrite List.filter_app, length_app. lia. Qed.
Lemma count_one s flags p n : s !! p = Some n ->
  count s flags [p] = if has flags (if KR_NTREE_IS_LEAF n then KR_TRAVERSE_LEAFS else KR_TRAVERSE_NON_LEAFS) then 1 else 0.
Proof. intros En. unfold count, counted. cbn. rewrite En. by destruct (has flags _). Qed.

Lemma count_run s flags fuel :
  (forall t (x : Z), linked_node s t -> 0 <= x < 2 ^ 32 -> (2 * length (addrs t) <= fuel)%nat ->
     kr_ntree_count_func s flags fuel (root_of t) x = Ok (u32 (x + count s flags (addrs t)))) /\
  (forall ts par pr (x : Z), linked_trees s par pr ts -> 0 <= x < 2 ^ 32 -> (2 * length (all_addrs ts) + 1 <= fuel)%nat ->
     nodes_loop s flags fuel (head (map root_of ts)) x = Ok (u32 (x + count s flags (all_addrs ts)))).
Proof.
  assert (Hid : forall x, 0 <= x < 2 ^ 32 -> u32 (x + 0) = x) by (intros x Hx; rewrite Z.add_0_r; by apply wrapu_small).
  induction fuel as [|fuel [IHn IHl]]; [split; [intros [p d cs]|]; intros; cbn [addrs List.length] in *; lia|]. split.
  - intros [p d cs] x (n & En & Hch & Hl) Hx Hf. pose proof (leaf_of s (Tree p d cs) n En Hch) as Hleaf. cbn [root_of cs_of addrs List.length] in *.
    change (concat (map addrs cs)) with (all_addrs cs) in *. cbn [kr_ntree_count_func]. rewrite (node_at_ok s p n), Hch by done.
    change (p :: all_addrs cs) with ([p] ++ all_addrs cs). rewrite count_app, (count_one s flags p n), Hleaf by done.
    destruct cs as [|c cs]; cbn [map head] in *.
    + change (count s flags (all_addrs [])) with 0. rewrite Z.add_0_r. cbv iota. destruct (has flags KR_TRAVERSE_LEAFS); [done|by rewrite Hid].
    + cbv iota. rewrite (IHl (c :: cs) (Some p) None); [| |destruct (has flags _); [apply wrapu_range; lia|lia]|lia]; [|exact Hl].
      destruct (has flags _); [rewrite wrapu_add_l; do 2 f_equal; lia|done].
  - intros ts par pr x Hl Hx Hf. destruct ts as [|t ts]; [change (count s flags (all_addrs [])) with 0; cbn; by rewrite Hid|].
    destruct (linked_head s par pr t ts Hl) as (Ht & Hts & n & En & Hn). cbn [map head nodes_loop].
    assert (Hlen : all_addrs (t :: ts) = addrs t ++ all_addrs ts) by done. rewrite Hlen in *. rewrite length_app in Hf.
    assert (length (addrs t) <> 0)%nat by (by destruct t). rewrite IHn by (done || lia). unfold mbind, res_bind, node_at. rewrite En. cbn [of_option]. rewrite Hn.
    rewrite (IHl ts par _ _ Hts) by (apply wrapu_range || lia; lia). rewrite wrapu_add_l, count_app. do 2 f_equal. lia.
Qed.

Lemma height_size t : (height t <= length (addrs t))%nat.
Proof.
  induction t as [p d cs IH] using tree_induction. cbn [height addrs List.length]. apply le_n_S. apply list_max_le, List.Forall_map.
  rewrite Forall_forall in IH. apply List.Forall_forall. intros t Ht. apply list_elem_of_In in Ht. specialize (IH t Ht).
  apply list_elem_of_split in Ht as (c1 & c2 & ->). rewrite map_app, concat_app, length_app. cbn. rewrite length_app. lia.
Qed.
Lemma height_run s fuel :
  (forall t, linked_node s t -> Z.of_nat (length (addrs t)) < 2 ^ 32 -> (2 * length (addrs t) <= fuel)%nat ->
     kr_ntree_max_height_at s fuel (root_of t) = Ok (Z.of_nat (height t))) /\
  (forall ts par pr k, linked_trees s par pr ts -> Z.of_nat (length (all_addrs ts)) < 2 ^ 32 -> (2 * length (all_addrs ts) + 1 <= fuel)%nat ->
     height_loop s fuel (head (map root_of ts)) (Z.of_nat k) = Ok (Z.of_nat (k `max` list_max (map height ts)))).
Proof.
  induction fuel as [|fuel [IHn IHl]]; [split; [intros [p d cs]|]; intros; cbn [addrs List.length] in *; lia|]. split.
  - intros [p d cs] (n & En & Hch & Hl) Hs Hf. pose proof (height_size (Tree p d cs)) as Hh. cbn [root_of cs_of addrs height List.length] in *.
    change (concat (map addrs cs)) with (all_addrs cs) in *. cbn [kr_ntree_max_height_at]. rewrite (node_at_ok s p n), Hch by done.
    change 0 with (Z.of_nat 0). rewrite (IHl cs (Some p) None 0%nat Hl) by lia. cbn [mbind]. unfold mbind, res_bind.
    rewrite wrapu_small by lia. f_equal. lia.
  - intros ts par pr k Hl Hs Hf. destruct ts as [|t ts]; [cbn; do 2 f_equal; lia|].
    destruct (linked_head s par pr t ts Hl) as (Ht & Hts & n & En & Hn). cbn [map head height_loop].
    assert (Hlen : all_addrs (t :: ts) = addrs t ++ all_addrs ts) by done. rewrite Hlen, length_app in *.
    assert (length (addrs t) <> 0)%nat by (by destruct t). rewrite IHn by (done || lia). unfold mbind, res_bind, node_at. rewrite En. cbn [of_option]. rewrite Hn.
    replace (if Z.of_nat k <? Z.of_nat (height t) then Z.of_nat (height t) else Z.of_nat k) with (Z.of_nat (k `max` height t))
      by (destruct (Z.ltb_spec (Z.of_nat k) (Z.of_nat (height t))); lia).
    rewrite (IHl ts par _ _ Hts) by lia. do 2 f_equal. change (list_max (height t :: map height ts)) with (height t `max` list_max (map height ts))%nat. lia.
Qed.

(** The number of nodes is the number of addresses of the tree of the kind asked for, the
    height the number of nodes on its longest path. *)
Theorem kr_ntree_measures s m t flags : ntree_rep s m -> tree_of m t -> Z.of_nat (base.size s) < UINT_MAX -> flags <= KR_TRAVERSE_MASK ->
  kr_ntree_n_nodes s (Some (root_of t)) flags = Ok (count s flags (addrs t)) /\
  kr_ntree_max_height s (Some (root_of t)) = Ok (Z.of_nat (height t)).
Proof.
  intros Hr Ht Hs Hf. pose proof (linked_tree s m t Hr Ht) as Hl. pose proof (addrs_size s m t Hr Ht) as Hsz. unfold UINT_MAX in Hs. split.
  - unfold kr_ntree_n_nodes. rewrite (proj2 (Z.ltb_ge KR_TRAVERSE_MASK flags)) by lia.
    rewrite (proj1 (count_run s flags (fuel_of s)) t 0 Hl) by (unfold fuel_of; lia). f_equal. apply wrapu_small. unfold count.
    pose proof (List.filter_length_le (counted s flags) (addrs t)). lia.
  - apply (proj1 (height_run s (fuel_of s)) t Hl); [lia|unfold fuel_of; lia].
Qed.
End Forest.

(** * Examples *)

(** The nodes seen, the last one first. *)
Definition note (p : ptr) (n : T_KRNTree (D:=Z)) (seen : list Z) : bool * list Z := (bool_decide (data n = 30), data n :: seen).
Lemma kr_ntree_traverse_visits_witness :
  kr_ntree_traverse ex_store note (Some 1%positive) KR_PRE_ORDER KR_TRAVERSE_ALL (-1) [] = Ok [30; 40; 20; 10] /\
  kr_ntree_traverse ex_store note (Some 1%positive) KR_LEVEL_ORDER KR_TRAVERSE_ALL (-1) [] = Ok [30; 20; 10] /\
  kr_ntree_traverse ex_store note (Some 1%positive) KR_POST_ORDER KR_TRAVERSE_NON_LEAVES 1 [] = Ok [10].
Proof.
  split_and!.
  - etransitivity; [apply (kr_ntree_traverse_visits ex_store ex_forest ex_tree note KR_PRE_ORDER KR_TRAVERSE_ALL (-1) [] ex_rep ex_tree_of ex_size); [done|done|by left]|vm_compute; reflexivity].
  - etransitivity; [apply (kr_ntree_traverse_visits ex_store ex_forest ex_tree note KR_LEVEL_ORDER KR_TRAVERSE_ALL (-1) [] ex_rep ex_tree_of ex_size); [done|done|by left]|vm_compute; reflexivity].
  - etransitivity; [apply (kr_ntree_traverse_visits ex_store ex_forest ex_tree note KR_POST_ORDER KR_TRAVERSE_NON_LEAVES 1 [] ex_rep ex_tree_of ex_size); [done|done|right; by split]|vm_compute; reflexivity].
Defined.
Lemma kr_ntree_traverse_depth_zero_witness :
  kr_ntree_traverse ex_store note (Some 1%positive) KR_POST_ORDER KR_TRAVERSE_NON_LEAVES 0 [] = Ok [10; 20].
Proof.
  etransitivity; [apply (kr_ntree_traverse_depth_zero ex_store ex_forest ex_tree note KR_POST_ORDER KR_TRAVERSE_NON_LEAVES [] ex_rep ex_tree_of ex_size); done|vm_compute; reflexivity].
Defined.
Lemma kr_ntree_find_first_witness :
  kr_ntree_find ex_store (Some 1%positive) KR_IN_ORDER KR_TRAVERSE_ALL 30 = Ok (Some 3%positive) /\
  kr_ntree_find ex_store (Some 1%positive) KR_IN_ORDER KR_TRAVERSE_NON_LEAVES 30 = Ok None.
Proof.
  split.
  - etransitivity; [apply (kr_ntree_find_first ex_store ex_forest ex_tree KR_IN_ORDER KR_TRAVERSE_ALL 30 ex_rep ex_tree_of ex_size); done|vm_compute; reflexivity].
  - etransitivity; [apply (kr_ntree_find_first ex_store ex_forest ex_tree KR_IN_ORDER KR_TRAVERSE_NON_LEAVES 30 ex_rep ex_tree_of ex_size); done|vm_compute; reflexivity].
Defined.

Lemma kr_ntree_copy_deep_copies_witness : exists s' m' t',
  kr_ntree_copy_deep (Some 2%positive) (Some (Z.add 1)) ex_store = Ok (Some (root_of t'), s') /\ ntree_rep s' m' /\ tree_of m' t' /\
  copied (Z.add 1) (Tree 2%positive 20 [Tree 4%positive 40 []]) t' /\ root m' (root_of t').
Proof.
  destruct (kr_ntree_copy_deep_copies ex_store ex_forest (Tree 2%positive 20 [Tree 4%positive 40 []]) (Z.add 1) ex_rep)
    as (s' & m' & t' & E & Hr & Ht & Hc & Hroot & _).
  - repeat (constructor; [vm_compute; reflexivity|]); repeat constructor; vm_compute; reflexivity.
  - exists s', m', t'. exact (conj E (conj Hr (conj Ht (conj Hc Hroot)))).
Defined.
Lemma kr_ntree_measures_witness :
  kr_ntree_n_nodes ex_store (Some 1%positive) KR_TRAVERSE_LEAVES = Ok 2 /\ kr_ntree_max_height ex_store (Some 1%positive) = Ok 3.
Proof.
  destruct (kr_ntree_measures ex_store ex_forest ex_tree KR_TRAVERSE_LEAVES ex_rep ex_tree_of ex_size) as [E1 E2]; [done|].
  split; [etransitivity; [exact E1|vm_compute; reflexivity]|exact E2].
Defined.
