(* ===== verification/KrEvent.v ===== *)
(** The event loop (krutils/kr_event.c with kr_event_select.c, kr_event.h).

    The build defines neither [HAVE_EPOLL_CTL] nor [HAVE_KQUEUE]: the loop stands on
    [select].  The world of the handlers is [W]; the clock, [select], and what the handlers
    do are arguments.  A handler is a program of calls on the loop, each with the answer of
    the last and the world as it is; a finalizer changes the world only.  A time event is
    reached by its identifier, which is unique, instead of its address; the identifiers do not
    run out (there are 2^63 of them). *)

From S2P Require Import Prelude.
Local Open Scope Z_scope.
#[local] Notation length := List.length.

Definition KR_EVENT_OK : Z := 0.
Definition KR_EVENT_ERR : Z := -1.
Definition KR_EVENT_NONE : Z := 0.
Definition KR_EVENT_READABLE : Z := 1.
Definition KR_EVENT_WRITABLE : Z := 2.
Definition KR_EVENT_FILE_EVENTS : Z := 1.
Definition KR_EVENT_TIME_EVENTS : Z := 2.
Definition KR_EVENT_ALL_EVENTS : Z := Z.lor KR_EVENT_FILE_EVENTS KR_EVENT_TIME_EVENTS.
Definition KR_EVENT_DONT_WAIT : Z := 4.
Definition KR_EVENT_NOMORE : Z := -1.

(** The size of an [fd_set]. *)
Definition FD_SETSIZE : Z := 1024.

(** [mask & bit]. *)
Definition has (mask bit : Z) : bool := negb (Z.land mask bit =? 0).

(** * Data

    Handlers are names; one that was never set is [None]. *)

Record T_KRFileEvent := mkFileEvent {
  mask : Z;
  rfileProc : option Z;
  wfileProc : option Z;
  clientData : Z
}.
Record T_KRTimeEvent := mkTimeEvent {
  id : Z;
  when_sec : Z;
  when_ms : Z;
  timeProc : Z;
  finalizerProc : option Z;
  t_clientData : Z
}.
(** The sets that [select] is given. *)
Record T_KREventApiState := mkApi { rfds : gset Z; wfds : gset Z }.
Record T_KREventLoop := mkLoop {
  maxfd : Z;
  setsize : Z;
  timeEventNextId : Z;
  events : list T_KRFileEvent;
  timeEventHead : list T_KRTimeEvent;
  stop : bool;
  apidata : T_KREventApiState;
  beforesleep : option Z
}.

(** The calls that handlers make, and programs of them. *)
Inductive call :=
  | FileCreate (fd mask proc data : Z)
  | FileDelete (fd mask : Z)
  | FileGet (fd : Z)
  | TimeCreate (milliseconds proc data : Z) (finalizer : option Z)
  | TimeDelete (i : Z)
  | LoopStop.

Section KrEvent.
Context {W : Type}.
Inductive prog :=
  | Done (w : W) (r : Z)
  | Do (c : call) (w : W) (k : Z -> W -> prog).

(** Seconds and microseconds. *)
Variable gettimeofday : W -> Z * Z * W.
(** The descriptors below [nfds] of two sets that are ready, within a time. *)
Variable select : Z -> gset Z -> gset Z -> option (Z * Z) -> W -> Z * gset Z * gset Z * W.
Variable file_proc : Z -> Z -> Z -> Z -> W -> prog.
Variable time_proc : Z -> Z -> Z -> W -> prog.
Variable sleep_proc : Z -> W -> prog.
Variable finalizer : Z -> Z -> W -> W.

Record state := mkState { loop : T_KREventLoop; world : W }.

Definition get_loop : M state T_KREventLoop := fun s => Ok (loop s, s).
Definition set_loop (l : T_KREventLoop) : M state unit := fun s => Ok (tt, mkState l (world s)).
Definition get_world : M state W := fun s => Ok (world s, s).
Definition set_world (w : W) : M state unit := fun s => Ok (tt, mkState (loop s) w).

Definition with_events (l : T_KREventLoop) (ev : list T_KRFileEvent) : T_KREventLoop :=
  mkLoop (maxfd l) (setsize l) (timeEventNextId l) ev (timeEventHead l) (stop l) (apidata l) (beforesleep l).
Definition with_maxfd (l : T_KREventLoop) (m : Z) : T_KREventLoop :=
  mkLoop m (setsize l) (timeEventNextId l) (events l) (timeEventHead l) (stop l) (apidata l) (beforesleep l).
Definition with_api (l : T_KREventLoop) (a : T_KREventApiState) : T_KREventLoop :=
  mkLoop (maxfd l) (setsize l) (timeEventNextId l) (events l) (timeEventHead l) (stop l) a (beforesleep l).
Definition with_timers (l : T_KREventLoop) (nextid : Z) (h : list T_KRTimeEvent) : T_KREventLoop :=
  mkLoop (maxfd l) (setsize l) nextid (events l) h (stop l) (apidata l) (beforesleep l).
Definition with_stop (l : T_KREventLoop) (b : bool) : T_KREventLoop :=
  mkLoop (maxfd l) (setsize l) (timeEventNextId l) (events l) (timeEventHead l) b (apidata l) (beforesleep l).

(** * The loop *)

(** The handlers of a new array are not set. *)
Definition kr_event_loop_create (size : Z) : T_KREventLoop :=
  mkLoop (-1) size 0 (replicate (Z.to_nat size) (mkFileEvent KR_EVENT_NONE None None 0)) [] false (mkApi ∅ ∅) None.
Definition kr_event_set_before_sleep_proc (f : option Z) : M state unit :=
  l ← get_loop; set_loop (mkLoop (maxfd l) (setsize l) (timeEventNextId l) (events l) (timeEventHead l) (stop l) (apidata l) f).
Definition kr_event_loop_stop : M state unit := l ← get_loop; set_loop (with_stop l true).

(** * File events *)

Definition event_at (l : T_KREventLoop) (fd : Z) : res T_KRFileEvent :=
  if fd <? 0 then Fault OutOfBounds else of_option OutOfBounds (events l !! Z.to_nat fd).

(** [FD_SET] and [FD_CLR]. *)
Definition fd_set (b : bool) (fd : Z) (fds : gset Z) : res (gset Z) :=
  if (fd <? 0) || (FD_SETSIZE <=? fd) then Fault OutOfBounds
  else Ok (if b then fds ∪ {[fd]} else fds ∖ {[fd]}).
Definition fd_change (b : bool) (a : T_KREventApiState) (fd msk : Z) : res T_KREventApiState :=
  r ← (if has msk KR_EVENT_READABLE then fd_set b fd (rfds a) else Ok (rfds a));
  w ← (if has msk KR_EVENT_WRITABLE then fd_set b fd (wfds a) else Ok (wfds a));
  Ok (mkApi r w).
Definition kr_event_api_add (fd msk : Z) : M state Z :=
  l ← get_loop; a ← lift (fd_change true (apidata l) fd msk); set_loop (with_api l a);; mret 0.
Definition kr_event_api_del (fd msk : Z) : M state unit :=
  l ← get_loop; a ← lift (fd_change false (apidata l) fd msk); set_loop (with_api l a).

Definition kr_event_file_create (fd msk proc data : Z) : M state Z :=
  l ← get_loop;
  if setsize l <=? fd then mret KR_EVENT_ERR
  else
    fe ← lift (event_at l fd);
    rc ← kr_event_api_add fd msk;
    if rc =? -1 then mret KR_EVENT_ERR
    else
      l ← get_loop;
      let fe := mkFileEvent (Z.lor (mask fe) msk)
                  (if has msk KR_EVENT_READABLE then Some proc else rfileProc fe)
                  (if has msk KR_EVENT_WRITABLE then Some proc else wfileProc fe) data in
      let l := with_events l (<[Z.to_nat fd := fe]> (events l)) in
      set_loop (if maxfd l <? fd then with_maxfd l fd else l);;
      mret KR_EVENT_OK.

(** [for (j = n - 1; j >= 0; j--) if (events[j].mask != KR_EVENT_NONE) break;]. *)
Fixpoint last_used (ev : list T_KRFileEvent) (n : nat) : res Z :=
  match n with
  | O => Ok (-1)
  | S n =>
      fe ← of_option OutOfBounds (ev !! n);
      if negb (mask fe =? KR_EVENT_NONE) then Ok (Z.of_nat n) else last_used ev n
  end.
Definition kr_event_file_delete (fd msk : Z) : M state unit :=
  l ← get_loop;
  if setsize l <=? fd then mret tt
  else
    fe ← lift (event_at l fd);
    if mask fe =? KR_EVENT_NONE then mret tt
    else
      let m := Z.ldiff (mask fe) msk in
      let l := with_events l (<[Z.to_nat fd := mkFileEvent m (rfileProc fe) (wfileProc fe) (clientData fe)]> (events l)) in
      l ← (if (fd =? maxfd l) && (m =? KR_EVENT_NONE) then j ← lift (last_used (events l) (Z.to_nat (maxfd l))); mret (with_maxfd l j)
           else mret l);
      set_loop l;;
      kr_event_api_del fd msk.

Definition kr_event_file_get (fd : Z) : M state Z :=
  l ← get_loop;
  if setsize l <=? fd then mret 0 else fe ← lift (event_at l fd); mret (mask fe).

(** * Time events *)

Definition aeGetTime : M state (Z * Z) :=
  w ← get_world;
  let '(sec, usec, w) := gettimeofday w in
  set_world w;; mret (sec, Z.quot usec 1000).

Definition aeAddMillisecondsToNow (milliseconds : Z) : M state (Z * Z) :=
  '(cur_sec, cur_ms) ← aeGetTime;
  let sec := i64 (cur_sec + Z.quot milliseconds 1000) in
  let ms := i64 (cur_ms + Z.rem milliseconds 1000) in
  mret (if 1000 <=? ms then (i64 (sec + 1), ms - 1000) else (sec, ms)).

Definition kr_event_time_create (milliseconds proc data : Z) (fin : option Z) : M state Z :=
  l ← get_loop;
  let i := timeEventNextId l in
  set_loop (with_timers l (i + 1) (timeEventHead l));;
  '(sec, ms) ← aeAddMillisecondsToNow milliseconds;
  l ← get_loop;
  set_loop (with_timers l (timeEventNextId l) (mkTimeEvent i sec ms proc fin data :: timeEventHead l));;
  mret i.

(** The first event with the identifier, and the others. *)
Fixpoint take_event (i : Z) (h : list T_KRTimeEvent) : option (T_KRTimeEvent * list T_KRTimeEvent) :=
  match h with
  | [] => None
  | te :: h => if id te =? i then Some (te, h) else '(x, h) ← take_event i h; Some (x, te :: h)
  end.
Definition kr_event_time_delete (i : Z) : M state Z :=
  l ← get_loop;
  match take_event i (timeEventHead l) with
  | None => mret KR_EVENT_ERR
  | Some (te, h) =>
      set_loop (with_timers l (timeEventNextId l) h);;
      match finalizerProc te with
      | Some f => w ← get_world; set_world (finalizer f (t_clientData te) w)
      | None => mret tt
      end;;
      mret KR_EVENT_OK
  end.

Definition sooner (x y : T_KRTimeEvent) : bool :=
  (when_sec x <? when_sec y) || ((when_sec x =? when_sec y) && (when_ms x <? when_ms y)).
Fixpoint nearest_of (nearest : option T_KRTimeEvent) (h : list T_KRTimeEvent) : option T_KRTimeEvent :=
  match h with
  | [] => nearest
  | te :: h =>
      nearest_of (match nearest with Some n => if sooner te n then Some te else nearest | None => Some te end) h
  end.
Definition aeSearchNearestTimer (l : T_KREventLoop) : option T_KRTimeEvent := nearest_of None (timeEventHead l).

(** * Handlers *)

Definition run_call (c : call) : M state Z :=
  match c with
  | FileCreate fd msk proc data => kr_event_file_create fd msk proc data
  | FileDelete fd msk => kr_event_file_delete fd msk;; mret 0
  | FileGet fd => kr_event_file_get fd
  | TimeCreate ms proc data fin => kr_event_time_create ms proc data fin
  | TimeDelete i => kr_event_time_delete i
  | LoopStop => kr_event_loop_stop;; mret 0
  end.
Fixpoint run_prog (p : prog) : M state Z :=
  match p with
  | Done w r => set_world w;; mret r
  | Do c w k => set_world w;; z ← run_call c; w ← get_world; run_prog (k z w)
  end.

(** * One round *)

(** [te->when_sec] and [te->when_ms] of a time event that must still be there. *)
Fixpoint rearm (i sec ms : Z) (h : list T_KRTimeEvent) : option (list T_KRTimeEvent) :=
  match h with
  | [] => None
  | te :: h =>
      if id te =? i then Some (mkTimeEvent i sec ms (timeProc te) (finalizerProc te) (t_clientData te) :: h)
      else h ← rearm i sec ms h; Some (te :: h)
  end.
Definition is_due (now_sec now_ms : Z) (te : T_KRTimeEvent) : bool :=
  (when_sec te <? now_sec) || ((now_sec =? when_sec te) && (when_ms te <=? now_ms)).

Definition fire_timer (te : T_KRTimeEvent) : M state unit :=
  w ← get_world;
  retval ← run_prog (time_proc (timeProc te) (id te) (t_clientData te) w);
  if negb (retval =? KR_EVENT_NOMORE) then
    '(sec, ms) ← aeAddMillisecondsToNow retval;
    l ← get_loop;
    h ← lift (of_option BadPointer (rearm (id te) sec ms (timeEventHead l)));
    set_loop (with_timers l (timeEventNextId l) h)
  else kr_event_time_delete (id te);; mret tt.

(** The identifiers of the events that were processed, the last one first. *)
Fixpoint time_events_loop (maxId : Z) (fuel : nat) (te : list T_KRTimeEvent) (processed : list Z) : M state (list Z) :=
  match fuel with
  | O => fail NoFuel
  | S fuel =>
      match te with
      | [] => mret processed
      | te :: rest =>
          if maxId <? id te then time_events_loop maxId fuel rest processed
          else
            '(now_sec, now_ms) ← aeGetTime;
            if is_due now_sec now_ms te then
              fire_timer te;;
              l ← get_loop;
              time_events_loop maxId fuel (timeEventHead l) (id te :: processed)
            else time_events_loop maxId fuel rest processed
      end
  end.
Definition processTimeEvents (fuel : nat) : M state (list Z) :=
  l ← get_loop;
  time_events_loop (timeEventNextId l - 1) fuel (timeEventHead l) [].

(** How long [select] may wait: seconds and microseconds, [None] for ever. *)
Definition wait_time (shortest : T_KRTimeEvent) (now_sec now_ms : Z) : Z * Z :=
  let sec := when_sec shortest - now_sec in
  let '(sec, usec) := if when_ms shortest <? now_ms then (sec - 1, ((when_ms shortest + 1000) - now_ms) * 1000)
                      else (sec, (when_ms shortest - now_ms) * 1000) in
  (if sec <? 0 then 0 else sec, if usec <? 0 then 0 else usec).
Definition poll_time (flags : Z) : M state (option (Z * Z)) :=
  l ← get_loop;
  match (if has flags KR_EVENT_TIME_EVENTS && negb (has flags KR_EVENT_DONT_WAIT) then aeSearchNearestTimer l else None) with
  | Some shortest => '(now_sec, now_ms) ← aeGetTime; mret (Some (wait_time shortest now_sec now_ms))
  | None => mret (if has flags KR_EVENT_DONT_WAIT then Some (0, 0) else None)
  end.

(** [for (j = 0; j <= maxfd; j++)]: the descriptors registered, with what is ready. *)
Fixpoint fired_from (ev : list T_KRFileEvent) (r w : gset Z) (j : nat) (n : nat) : res (list (Z * Z)) :=
  match n with
  | O => Ok []
  | S n =>
      fe ← of_option OutOfBounds (ev !! j);
      rest ← fired_from ev r w (S j) n;
      if mask fe =? KR_EVENT_NONE then Ok rest
      else
        let fd := Z.of_nat j in
        let m := if has (mask fe) KR_EVENT_READABLE && bool_decide (fd ∈ r) then KR_EVENT_READABLE else 0 in
        let m := if has (mask fe) KR_EVENT_WRITABLE && bool_decide (fd ∈ w) then Z.lor m KR_EVENT_WRITABLE else m in
        Ok ((fd, m) :: rest)
  end.
Definition kr_event_api_poll (tvp : option (Z * Z)) : M state (list (Z * Z)) :=
  l ← get_loop;
  w ← get_world;
  let '(retval, r, wr, w) := select (maxfd l + 1) (rfds (apidata l)) (wfds (apidata l)) tvp w in
  set_world w;;
  if 0 <? retval then lift (fired_from (events l) r wr 0 (Z.to_nat (maxfd l + 1))) else mret [].

Definition run_handler (proc : option Z) (fd data m : Z) : M state unit :=
  match proc with
  | None => fail BadPointer
  | Some f => w ← get_world; run_prog (file_proc f fd data m w);; mret tt
  end.

(** One event that fired; whether its handlers were called. *)
Definition dispatch (fd m : Z) : M state (bool * bool) :=
  l ← get_loop;
  fe ← lift (event_at l fd);
  let rfired := has (Z.land (mask fe) m) KR_EVENT_READABLE in
  (if rfired then run_handler (rfileProc fe) fd (clientData fe) m else mret tt);;
  l ← get_loop;
  fe ← lift (event_at l fd);
  let wfired := has (Z.land (mask fe) m) KR_EVENT_WRITABLE && (negb rfired || negb (bool_decide (wfileProc fe = rfileProc fe))) in
  (if wfired then run_handler (wfileProc fe) fd (clientData fe) m else mret tt);;
  mret (rfired, wfired).
Fixpoint dispatch_all (fired : list (Z * Z)) : M state unit :=
  match fired with [] => mret tt | (fd, m) :: fired => dispatch fd m;; dispatch_all fired end.

Definition kr_event_process (fuel : nat) (flags : Z) : M state Z :=
  if negb (has flags KR_EVENT_TIME_EVENTS) && negb (has flags KR_EVENT_FILE_EVENTS) then mret 0
  else
    l ← get_loop;
    numevents ← (if negb (maxfd l =? -1) || (has flags KR_EVENT_TIME_EVENTS && negb (has flags KR_EVENT_DONT_WAIT)) then
                   tvp ← poll_time flags;
                   fired ← kr_event_api_poll tvp;
                   dispatch_all fired;;
                   mret (Z.of_nat (length fired))
                 else mret 0);
    timers ← (if has flags KR_EVENT_TIME_EVENTS then processTimeEvents fuel else mret []);
    mret (i32 (numevents + Z.of_nat (length timers))).

(** [while (!eventLoop->stop)], for a number of rounds. *)
Fixpoint run_rounds (fuel rounds : nat) : M state unit :=
  match rounds with
  | O => fail NoFuel
  | S rounds =>
      l ← get_loop;
      if stop l then mret tt
      else
        match beforesleep l with Some f => w ← get_world; run_prog (sleep_proc f w);; mret tt | None => mret tt end;;
        kr_event_process fuel KR_EVENT_ALL_EVENTS;;
        run_rounds fuel rounds
  end.
Definition kr_event_loop_run (fuel rounds : nat) : M state unit :=
  l ← get_loop; set_loop (with_stop l false);; run_rounds fuel rounds.

(** * The registry of a loop

    The sets given to [select] hold the descriptors whose masks have the bit, handlers are
    set where their bit is, [maxfd] is the greatest descriptor registered, and the time
    events have identifiers of their own. *)

Definition bit_ok (l : T_KREventLoop) (j : nat) (fe : T_KRFileEvent) : Prop :=
  (has (mask fe) KR_EVENT_READABLE = true <-> Z.of_nat j ∈ rfds (apidata l)) /\
  (has (mask fe) KR_EVENT_WRITABLE = true <-> Z.of_nat j ∈ wfds (apidata l)) /\
  (has (mask fe) KR_EVENT_READABLE = true -> is_Some (rfileProc fe)) /\
  (has (mask fe) KR_EVENT_WRITABLE = true -> is_Some (wfileProc fe)).
Record registry (l : T_KREventLoop) : Prop := {
  reg_size : setsize l <= FD_SETSIZE;
  reg_len : length (events l) = Z.to_nat (setsize l);
  reg_bits : forall j fe, events l !! j = Some fe -> bit_ok l j fe;
  reg_range : forall fd, fd ∈ rfds (apidata l) ∪ wfds (apidata l) -> 0 <= fd < setsize l;
  reg_max : -1 <= maxfd l < Z.max 0 (setsize l);
  reg_above : forall j fe, events l !! j = Some fe -> maxfd l < Z.of_nat j -> mask fe = KR_EVENT_NONE;
  reg_used : 0 <= maxfd l -> exists fe, events l !! Z.to_nat (maxfd l) = Some fe /\ mask fe <> KR_EVENT_NONE;
  reg_ids : NoDup (map id (timeEventHead l));
  reg_timers : Forall (fun te => id te < timeEventNextId l /\ 0 <= when_ms te < 1000) (timeEventHead l)
}.

(** What the calls on a loop leave as it was: the time events that are there, but for those
    deleted, and [self] among them. *)
Record evolves (self : option Z) (l l' : T_KREventLoop) : Prop := {
  ev_reg : registry l';
  ev_size : setsize l' = setsize l;
  ev_next : timeEventNextId l <= timeEventNextId l';
  ev_old : forall te, te ∈ timeEventHead l' -> id te < timeEventNextId l -> te ∈ timeEventHead l;
  ev_self : forall i, self = Some i -> i ∈ map id (timeEventHead l) -> i ∈ map id (timeEventHead l')
}.
Lemma loop_evolves_refl self l : registry l -> evolves self l l.
Proof. intros H. constructor; [done|done|lia|done|done]. Qed.
Lemma loop_evolves_trans self l1 l2 l3 : evolves self l1 l2 -> evolves self l2 l3 -> evolves self l1 l3.
Proof.
  intros [_ S1 N1 O1 F1] [R2 S2 N2 O2 F2]. constructor; [done|congruence|lia| |].
  - intros te H Hi. apply O1; [|done]. apply O2; [done|lia].
  - intros i E Hi. apply F2; [done|]. by apply F1.
Qed.

(** ** Bits *)

Lemma has_bit m k : 0 <= k -> has m (2 ^ k) = Z.testbit m k.
Proof.
  intros Hk. unfold has. destruct (Z.testbit m k) eqn:E.
  - apply negb_true_iff, Z.eqb_neq. intros H. apply (f_equal (fun z => Z.testbit z k)) in H.
    rewrite Z.land_spec, E, Z.pow2_bits_true, Z.bits_0 in H by done. done.
  - apply negb_false_iff, Z.eqb_eq. apply Z.bits_inj'. intros n Hn. rewrite Z.land_spec, Z.bits_0, Z.pow2_bits_eqb by done.
    destruct (Z.eqb_spec k n) as [<-|]; [by rewrite E|apply andb_false_r].
Qed.
Lemma has_read m : has m KR_EVENT_READABLE = Z.testbit m 0.
Proof. by apply (has_bit m 0). Qed.
Lemma has_write m : has m KR_EVENT_WRITABLE = Z.testbit m 1.
Proof. by apply (has_bit m 1). Qed.
Lemma has_none : has KR_EVENT_NONE KR_EVENT_READABLE = false /\ has KR_EVENT_NONE KR_EVENT_WRITABLE = false.
Proof. done. Qed.
Lemma mask_none m : (exists k, 0 <= k /\ Z.testbit m k = true) -> m <> KR_EVENT_NONE.
Proof. intros (k & Hk & H) ->. by rewrite Z.bits_0 in H. Qed.

Lemma fd_set_ok b fd fds : 0 <= fd < FD_SETSIZE -> fd_set b fd fds = Ok (if b then fds ∪ {[fd]} else fds ∖ {[fd]}).
Proof. intros H. unfold fd_set. rewrite (proj2 (Z.ltb_ge fd 0)), (proj2 (Z.leb_gt FD_SETSIZE fd)) by lia. done. Qed.
(** What a change of the sets makes of membership. *)
Lemma fd_change_ok b a fd msk : 0 <= fd < FD_SETSIZE -> exists a', fd_change b a fd msk = Ok a' /\
  (forall x, x ∈ rfds a' <-> if has msk KR_EVENT_READABLE && bool_decide (x = fd) then b = true else x ∈ rfds a) /\
  (forall x, x ∈ wfds a' <-> if has msk KR_EVENT_WRITABLE && bool_decide (x = fd) then b = true else x ∈ wfds a).
Proof.
  clear select file_proc time_proc sleep_proc finalizer gettimeofday.
  intros H. unfold fd_change. rewrite !fd_set_ok by done.
  assert (Hset : forall (X : gset Z) x, x ∈ (if b then X ∪ {[fd]} else X ∖ {[fd]}) <-> if bool_decide (x = fd) then b = true else x ∈ X).
  { intros X x. destruct (bool_decide_reflect (x = fd)) as [->|Hne], b; rewrite ?elem_of_union, ?elem_of_difference, ?elem_of_singleton; tauto || done || (split; [intros [_ Hx]; by destruct Hx|done]). }
  destruct (has msk KR_EVENT_READABLE), (has msk KR_EVENT_WRITABLE); eexists; (split; [reflexivity|]); cbn [andb rfds wfds]; split; intros x; try apply Hset; done.
Qed.

Lemma event_at_ok l fd : registry l -> 0 <= fd < setsize l -> exists fe, event_at l fd = Ok fe /\ events l !! Z.to_nat fd = Some fe.
Proof.
  intros Hr Hfd. destruct (events l !! Z.to_nat fd) as [fe|] eqn:E.
  - exists fe. unfold event_at. rewrite (proj2 (Z.ltb_ge fd 0)), E by lia. done.
  - apply lookup_ge_None in E. rewrite (reg_len l Hr) in E. lia.
Qed.

(** The event of one descriptor changes, and the sets with it. *)
Lemma registry_change l fd fe a m mx : registry l -> 0 <= fd < setsize l ->
  let l' := mkLoop mx (setsize l) (timeEventNextId l) (<[Z.to_nat fd := fe]> (events l)) (timeEventHead l) (stop l) a (beforesleep l) in
  mask fe = m ->
  bit_ok l' (Z.to_nat fd) fe ->
  (forall x, x <> fd -> (x ∈ rfds a <-> x ∈ rfds (apidata l)) /\ (x ∈ wfds a <-> x ∈ wfds (apidata l))) ->
  -1 <= mx < setsize l ->
  (forall j fe', events l' !! j = Some fe' -> mx < Z.of_nat j -> mask fe' = KR_EVENT_NONE) ->
  (0 <= mx -> exists fe', events l' !! Z.to_nat mx = Some fe' /\ mask fe' <> KR_EVENT_NONE) ->
  registry l'.
Proof.
  intros Hr Hfd l' Hm Hbit Hsame Hmx Habove Hused. constructor; try done.
  - apply Hr.
  - cbn. rewrite length_insert. apply Hr.
  - intros j fe' E. destruct (decide (j = Z.to_nat fd)) as [->|Hne].
    + cbn in E. rewrite list_lookup_insert_eq in E by (rewrite (reg_len l Hr); lia). by injection E as <-.
    + cbn in E. rewrite list_lookup_insert_ne in E by done. destruct (reg_bits l Hr j fe' E) as (H1 & H2 & H3 & H4).
      destruct (Hsame (Z.of_nat j)) as [Hr1 Hw1]; [lia|]. unfold bit_ok. cbn. by rewrite Hr1, Hw1.
  - intros x Hx. cbn in *. destruct (decide (x = fd)) as [->|Hne]; [done|]. destruct (Hsame x Hne) as [H1 H2].
    apply (reg_range l Hr). rewrite elem_of_union in *. by rewrite <- H1, <- H2.
  - cbn. lia.
  - apply Hr.
  - apply Hr.
Qed.

Lemma same_timers self l l' : registry l' -> setsize l' = setsize l -> timeEventNextId l' = timeEventNextId l -> timeEventHead l' = timeEventHead l ->
  evolves self l l'.
Proof. intros Hr Hs Hn Ht. constructor; [done|done|lia|by rewrite Ht|by rewrite Ht]. Qed.

Lemma get_k {B} (k : T_KREventLoop -> M state B) s : (get_loop ≫= k) s = k (loop s) s.
Proof. done. Qed.
Lemma set_k {B} l (k : unit -> M state B) s : (set_loop l ≫= k) s = k tt (mkState l (world s)).
Proof. done. Qed.
Lemma world_k {B} (k : W -> M state B) s : (get_world ≫= k) s = k (world s) s.
Proof. done. Qed.
Lemma set_world_k {B} w (k : unit -> M state B) s : (set_world w ≫= k) s = k tt (mkState (loop s) w).
Proof. done. Qed.
Lemma ret_k {A B} (x : A) (k : A -> M state B) s : (mret x ≫= k) s = k x s.
Proof. done. Qed.
Lemma api_add_ok fd msk s a : fd_change true (apidata (loop s)) fd msk = Ok a ->
  kr_event_api_add fd msk s = Ok (0, mkState (with_api (loop s) a) (world s)).
Proof. intros E. unfold kr_event_api_add. by rewrite get_k, bind_lift, E. Qed.
Lemma api_del_ok fd msk s a : fd_change false (apidata (loop s)) fd msk = Ok a ->
  kr_event_api_del fd msk s = Ok (tt, mkState (with_api (loop s) a) (world s)).
Proof. intros E. unfold kr_event_api_del. by rewrite get_k, bind_lift, E. Qed.

Lemma file_create_ok self fd msk proc data s : registry (loop s) -> 0 <= fd -> 1 <= msk <= 3 ->
  wp (kr_event_file_create fd msk proc data) s (fun _ s' => evolves self (loop s) (loop s') /\ world s' = world s).
Proof.
  clear select file_proc time_proc sleep_proc finalizer gettimeofday.
  intros Hr Hfd Hmsk. destruct s as [l w]. cbn [loop] in *. unfold wp, kr_event_file_create. rewrite get_k. cbn [loop world].
  destruct (Z.leb_spec (setsize l) fd); [split; [by apply loop_evolves_refl|done]|].
  assert (Hf : 0 <= fd < setsize l) by lia. destruct (event_at_ok l fd Hr Hf) as (fe & E & El). rewrite bind_lift, E.
  pose proof (reg_size l Hr) as Hsz. destruct (fd_change_ok true (apidata l) fd msk) as (a & Ea & Hra & Hwa); [lia|].
  rewrite (bind_ok _ _ _ _ _ (api_add_ok fd msk (mkState l w) a Ea)). cbv beta. change (0 =? -1) with false. cbv iota. rewrite get_k, set_k. cbn -[Z.ltb Z.leb insert].
  destruct (reg_bits l Hr _ fe El) as (H1 & H2 & H3 & H4). rewrite Z2Nat.id in H1, H2 by lia.
  split; [|done]. set (fe' := mkFileEvent _ _ _ _).
  set (mx := if maxfd l <? fd then fd else maxfd l).
  assert (Hmx : mx = Z.max (maxfd l) fd) by (unfold mx; destruct (Z.ltb_spec (maxfd l) fd); lia).
  assert (Hl : registry (mkLoop mx (setsize l) (timeEventNextId l) (<[Z.to_nat fd := fe']> (events l)) (timeEventHead l) (stop l) a (beforesleep l))).
  { pose proof (reg_max l Hr) as Hm. assert (Hne : mask fe' <> KR_EVENT_NONE).
    { apply mask_none. destruct (Z.testbit msk 0) eqn:E0; [exists 0; cbn [mask fe']; rewrite Z.lor_spec, E0, orb_true_r; by split|].
      destruct (Z.testbit msk 1) eqn:E1; [exists 1; cbn [mask fe']; rewrite Z.lor_spec, E1, orb_true_r; by split|].
      assert (msk = 1 \/ msk = 2 \/ msk = 3) as [-> | [-> | ->]] by lia; done. }
    apply (registry_change l fd fe' a (mask fe') mx); try done.
    - unfold bit_ok. cbn [apidata rfds wfds mask fe' rfileProc wfileProc]. rewrite Z2Nat.id by lia. rewrite Hra, Hwa.
      rewrite !has_read, !has_write, !Z.lor_spec in *. rewrite bool_decide_eq_true_2 by done.
      destruct (Z.testbit msk 0), (Z.testbit msk 1); cbn [andb]; rewrite ?orb_true_r, ?orb_false_r; repeat split; try done; try tauto; intros; by eexists.
    - intros x Hx. rewrite Hra, Hwa, bool_decide_eq_false_2, !andb_false_r by done. done.
    - lia.
    - intros j fe0 Ej Hj. cbn in Ej. rewrite list_lookup_insert_ne in Ej by lia. apply (reg_above l Hr j fe0 Ej). lia.
    - intros H0. cbn [events]. destruct (decide (mx = fd)) as [->|Hn].
      + exists fe'. rewrite list_lookup_insert_eq by (rewrite (reg_len l Hr); lia). done.
      + assert (mx = maxfd l) as Em by lia. destruct (reg_used l Hr) as (fe0 & E0 & Hn0); [lia|]. exists fe0. rewrite Em.
        rewrite list_lookup_insert_ne by lia. done. }
  unfold with_maxfd, with_events, with_api. cbn. unfold mx in Hl. destruct (Z.ltb_spec (maxfd l) fd); cbn in Hl |- *; by apply same_timers.
Qed.

Lemma last_used_ok ev n : (n <= length ev)%nat -> exists j, last_used ev n = Ok j /\ -1 <= j < Z.of_nat n /\
  (forall i fe, ev !! i = Some fe -> j < Z.of_nat i -> (i < n)%nat -> mask fe = KR_EVENT_NONE) /\
  (0 <= j -> exists fe, ev !! Z.to_nat j = Some fe /\ mask fe <> KR_EVENT_NONE).
Proof.
  induction n as [|n IH]; intros Hn; cbn [last_used]; [exists (-1); split_and!; try lia; done|].
  destruct (ev !! n) as [fe|] eqn:E; [|apply lookup_ge_None in E; lia]. cbn [of_option mbind res_bind].
  destruct (Z.eqb_spec (mask fe) KR_EVENT_NONE) as [Em|Em]; cbn [negb].
  - destruct IH as (j & -> & Hj & Habove & Hused); [lia|]. exists j. split; [done|]. split; [lia|]. split; [|done].
    intros i fe' Ei Hi Hin. destruct (decide (i = n)) as [->|]; [congruence|]. apply (Habove i fe' Ei Hi). lia.
  - exists (Z.of_nat n). split; [done|]. split; [lia|]. split.
    + intros i fe' Ei Hi Hin. lia.
    + intros _. exists fe. by rewrite Nat2Z.id.
Qed.

Lemma file_delete_ok self fd msk s : registry (loop s) -> 0 <= fd ->
  wp (kr_event_file_delete fd msk) s (fun _ s' => evolves self (loop s) (loop s') /\ world s' = world s).
Proof.
  clear select file_proc time_proc sleep_proc finalizer gettimeofday.
  intros Hr Hfd. destruct s as [l w]. cbn [loop] in *. unfold wp, kr_event_file_delete. rewrite get_k. cbn [loop world].
  destruct (Z.leb_spec (setsize l) fd); [split; [by apply loop_evolves_refl|done]|].
  assert (Hf : 0 <= fd < setsize l) by lia. destruct (event_at_ok l fd Hr Hf) as (fe & E & El). rewrite bind_lift, E.
  pose proof (reg_size l Hr) as Hsz. pose proof (reg_len l Hr) as Hlen. pose proof (reg_max l Hr) as Hm.
  destruct (Z.eqb_spec (mask fe) KR_EVENT_NONE) as [Em|Em]; [split; [by apply loop_evolves_refl|done]|].
  destruct (fd_change_ok false (apidata l) fd msk) as (a & Ea & Hra & Hwa); [lia|].
  destruct (reg_bits l Hr _ fe El) as (H1 & H2 & H3 & H4). rewrite Z2Nat.id in H1, H2 by lia.
  set (m := Z.ldiff (mask fe) msk). set (fe' := mkFileEvent m (rfileProc fe) (wfileProc fe) (clientData fe)).
  set (ev := <[Z.to_nat fd := fe']> (events l)).
  assert (Hle : fd <= maxfd l). { destruct (decide (fd <= maxfd l)) as [|Hgt]; [done|]. destruct Em. apply (reg_above l Hr _ fe El). lia. }
  assert (Hfin : forall mx, -1 <= mx < setsize l -> (forall j fe0, ev !! j = Some fe0 -> mx < Z.of_nat j -> mask fe0 = KR_EVENT_NONE) ->
    (0 <= mx -> exists fe0, ev !! Z.to_nat mx = Some fe0 /\ mask fe0 <> KR_EVENT_NONE) ->
    evolves self l (mkLoop mx (setsize l) (timeEventNextId l) ev (timeEventHead l) (stop l) a (beforesleep l))).
  { intros mx Hmx Hab Hus. apply same_timers; [|done..]. apply (registry_change l fd fe' a m mx); try done.
    - unfold bit_ok. cbn [apidata rfds wfds mask fe' rfileProc wfileProc]. rewrite Z2Nat.id by lia. rewrite Hra, Hwa.
      unfold m. rewrite !has_read, !has_write, !Z.ldiff_spec in *. rewrite bool_decide_eq_true_2 by done.
      destruct (Z.testbit msk 0), (Z.testbit msk 1); cbn [andb negb]; rewrite ?andb_false_r, ?andb_true_r; split_and!; try done.
    - intros x Hx. rewrite Hra, Hwa, bool_decide_eq_false_2, !andb_false_r by done. done. }
  assert (Hother : forall j fe0, ev !! j = Some fe0 -> fd < Z.of_nat j -> events l !! j = Some fe0).
  { intros j fe0 Ej Hj. unfold ev in Ej. by rewrite list_lookup_insert_ne in Ej by lia. }
  assert (Hnew : ev !! Z.to_nat fd = Some fe') by (unfold ev; rewrite list_lookup_insert_eq; [done|lia]).
  change (maxfd (with_events l ev)) with (maxfd l). change (events (with_events l ev)) with ev.
  destruct (Z.eqb_spec fd (maxfd l)) as [Eq|Hne]; cbn [andb].
  - destruct (Z.eqb_spec m KR_EVENT_NONE) as [Hm0|Hm0].
    + destruct (last_used_ok ev (Z.to_nat (maxfd l))) as (j & Ej & Hj & Hab & Hus); [unfold ev; rewrite length_insert; lia|].
      erewrite bind_ok; [|rewrite bind_lift, Ej; reflexivity].
      rewrite set_k, (api_del_ok fd msk _ a) by done. split; [|done]. apply (Hfin j); [lia| |done].
      intros i fe0 Ei Hi. destruct (decide (i < Z.to_nat (maxfd l))%nat); [by apply (Hab i fe0 Ei Hi)|].
      destruct (decide (i = Z.to_nat fd)) as [->|]; [by replace fe0 with fe' by congruence|]. apply (reg_above l Hr i fe0); [apply Hother|]; [done|lia|lia].
    + rewrite ret_k, set_k, (api_del_ok fd msk _ a) by done. split; [|done]. apply (Hfin (maxfd l)); [lia| |].
      * intros j fe0 Ej Hj. apply (reg_above l Hr j fe0); [apply Hother|]; [done|lia|lia].
      * intros _. exists fe'. by rewrite <- Eq.
  - rewrite ret_k, set_k, (api_del_ok fd msk _ a) by done. split; [|done]. apply (Hfin (maxfd l)); [lia| |].
    + intros j fe0 Ej Hj. apply (reg_above l Hr j fe0); [apply Hother|]; [done|lia|lia].
    + intros H0. destruct (reg_used l Hr H0) as (fe0 & E0 & Hn0). exists fe0. split; [|done]. unfold ev. rewrite list_lookup_insert_ne by lia. done.
Qed.

Lemma registry_create size : 0 <= size <= FD_SETSIZE -> registry (kr_event_loop_create size).
Proof.
  intros Hs. constructor; cbn; try lia.
  - apply length_replicate.
  - intros j fe E. apply lookup_replicate_1 in E as [-> _]. unfold bit_ok. cbn. repeat split; try done; intros H; by apply elem_of_empty in H.
  - intros fd H. apply elem_of_union in H as [H|H]; by apply elem_of_empty in H.
  - intros j fe E _. by apply lookup_replicate_1 in E as [-> _].
  - constructor.
  - constructor.
Qed.

(** * Legal programs

    While [P] holds of the world the clock is between two times; programs keep [P], name
    descriptors that exist and directions, wait no negative time, do not delete the time
    event [self], and answer what [R] says. *)
Variable P : W -> Prop.
Variable R : Z -> Prop.
Variable T0 T1 : Z.
Definition clock_ok : Prop := T1 < 2 ^ 60 /\ forall w, P w ->
  let '(sec, usec, w') := gettimeofday w in
  P w' /\ 0 <= sec /\ 0 <= usec < 1000000 /\ T0 <= sec * 1000 + Z.quot usec 1000 <= T1.
Definition finalizers_ok : Prop := forall f d w, P w -> P (finalizer f d w).
Definition answers_ok : Prop := forall r, R r -> r = KR_EVENT_NOMORE \/ 0 <= r <= INT_MAX.
Definition call_ok (self : option Z) (c : call) : Prop :=
  match c with
  | FileCreate fd msk _ _ => 0 <= fd /\ 1 <= msk <= 3
  | FileDelete fd _ | FileGet fd => 0 <= fd
  | TimeCreate ms _ _ _ => 0 <= ms <= INT_MAX
  | TimeDelete i => self <> Some i
  | LoopStop => True
  end.
Fixpoint prog_ok (Q : Z -> Prop) (self : option Z) (p : prog) : Prop :=
  match p with
  | Done w r => P w /\ Q r
  | Do c w k => P w /\ call_ok self c /\ forall z w', P w' -> prog_ok Q self (k z w')
  end.

Hypothesis Hclock : clock_ok.
Hypothesis Hfin : finalizers_ok.
Hypothesis Hans : answers_ok.

Definition due_at (te : T_KRTimeEvent) : Z := when_sec te * 1000 + when_ms te.
Lemma get_time_ok s : P (world s) -> wp aeGetTime s (fun '(sec, ms) s' =>
  loop s' = loop s /\ P (world s') /\ 0 <= sec /\ 0 <= ms < 1000 /\ T0 <= sec * 1000 + ms <= T1).
Proof.
  intros Hp. unfold wp, aeGetTime. rewrite world_k. pose proof (proj2 Hclock (world s) Hp) as H. destruct (gettimeofday (world s)) as [[sec usec] w'].
  rewrite set_world_k. cbn. destruct H as (Hp' & Hs & Hu & Ht). split; [done|]. split; [done|]. split; [done|]. split; [|done].
  rewrite Z.quot_div_nonneg by lia. split; [apply Z.div_pos; lia|apply Z.div_lt_upper_bound; lia].
Qed.
Lemma add_time_ok r s : P (world s) -> 0 <= r <= INT_MAX -> wp (aeAddMillisecondsToNow r) s (fun '(sec, ms) s' =>
  loop s' = loop s /\ P (world s') /\ 0 <= ms < 1000 /\ T0 + r <= sec * 1000 + ms <= T1 + r).
Proof.
  intros Hp Hr. unfold aeAddMillisecondsToNow. apply wp_bind. eapply wp_mono; [by apply get_time_ok|].
  intros [sec ms] s' (El & Hp' & Hs & Hm & Ht). unfold wp, mret, M_ret. rewrite Z.quot_div_nonneg, Z.rem_mod_nonneg by lia.
  pose proof (Z.mod_pos_bound r 1000 eq_refl) as Hb. pose proof (Z_div_mod_eq_full r 1000) as Hd.
  pose proof (proj1 Hclock) as HT. unfold INT_MAX in Hr.
  assert (0 <= r / 1000 <= r) by (split; [apply Z.div_pos; lia|apply Z.div_le_upper_bound; lia]).
  rewrite (wraps_small 64 (sec + r / 1000)), (wraps_small 64 (ms + r mod 1000)) by lia.
  destruct (Z.leb_spec 1000 (ms + r mod 1000)); rewrite ?(wraps_small 64 (sec + r / 1000 + 1)) by lia; (split; [exact El|]); (split; [exact Hp'|]); lia.
Qed.

Lemma time_create_ok self ms proc data fin s : registry (loop s) -> P (world s) -> 0 <= ms <= INT_MAX ->
  wp (kr_event_time_create ms proc data fin) s (fun _ s' => evolves self (loop s) (loop s') /\ P (world s')).
Proof.
  intros Hr Hp Hms. unfold kr_event_time_create, wp. rewrite get_k, set_k.
  destruct (wp_elim _ _ _ (add_time_ok ms (mkState (with_timers (loop s) (timeEventNextId (loop s) + 1) (timeEventHead (loop s))) (world s)) Hp Hms))
    as ([sec m] & s' & E & El & Hp' & Hm & _).
  rewrite (bind_ok _ _ _ _ _ E). rewrite get_k, set_k, El. cbn. split; [|done]. destruct (loop s) as [mx sz nx ev h st a bs]. unfold with_timers. cbn in *.
  destruct Hr as [H1 H2 H3 H4 H5 H6 H7 H8 H9]. cbn in *. constructor; cbn; [constructor; cbn; try done| done|lia| |].
  - constructor; [|done]. intros Hin. apply list_elem_of_fmap in Hin as (te & E' & Hte). rewrite Forall_forall in H9. specialize (H9 te Hte). lia.
  - constructor; [cbn; lia|]. eapply Forall_impl; [exact H9|]. cbn. intros te. lia.
  - intros te [->|Hte]%elem_of_cons; [cbn; lia|done].
  - intros i _ Hi. by right.
Qed.

Lemma take_event_split i h te h' : take_event i h = Some (te, h') -> id te = i /\ exists a b, h = a ++ te :: b /\ h' = a ++ b.
Proof.
  revert h'. induction h as [|x h IH]; intros h' E; cbn in E; [done|]. destruct (Z.eqb_spec (id x) i) as [<-|Hne].
  - injection E as <- <-. split; [done|]. by exists [], h.
  - destruct (take_event i h) as [[y r]|]; [|done]. cbn in E. injection E as <- <-. destruct (IH r eq_refl) as (Ei & a & b & -> & ->).
    split; [done|]. by exists (x :: a), b.
Qed.
Lemma take_event_none i h : take_event i h = None -> i ∉ map id h.
Proof.
  induction h as [|x h IH]; intros E; [by apply not_elem_of_nil|]. cbn in *. destruct (Z.eqb_spec (id x) i) as [|Hne]; [done|].
  destruct (take_event i h) as [[]|]; [done|]. intros [->|Hin]%elem_of_cons; [done|]. by apply IH.
Qed.
Lemma fewer_timers l a te b : registry l -> timeEventHead l = a ++ te :: b ->
  registry (with_timers l (timeEventNextId l) (a ++ b)).
Proof.
  intros [H1 H2 H3 H4 H5 H6 H7 H8 H9] E. rewrite E in *. constructor; try done; cbn.
  - rewrite map_app in *. cbn in H8. apply NoDup_app in H8 as (Ha & Hd & [_ Hb]%NoDup_cons). apply NoDup_app. split_and!; [done| |done].
    intros x Hx Hx'. apply (Hd x Hx). by right.
  - apply Forall_app in H9 as [Ha [_ Hb]%Forall_cons]. by apply Forall_app.
Qed.
Lemma time_delete_ok self i s : registry (loop s) -> P (world s) -> self <> Some i ->
  wp (kr_event_time_delete i) s (fun _ s' => evolves self (loop s) (loop s') /\ P (world s') /\ i ∉ map id (timeEventHead (loop s'))).
Proof.
  clear select file_proc time_proc sleep_proc.
  intros Hr Hp Hself. unfold wp, kr_event_time_delete. rewrite get_k. destruct (take_event i (timeEventHead (loop s))) as [[te h]|] eqn:E.
  - destruct (take_event_split _ _ _ _ E) as (Ei & a & b & Eh & ->). rewrite set_k.
    assert (Hev : evolves self (loop s) (with_timers (loop s) (timeEventNextId (loop s)) (a ++ b))).
    { constructor; [by eapply fewer_timers|done|cbn; lia| |]; cbn; rewrite Eh.
      - intros x Hx _. rewrite elem_of_app in *. rewrite elem_of_cons. tauto.
      - intros j Ej Hj. rewrite map_app in *. cbn in Hj. rewrite elem_of_app, elem_of_cons in *. destruct Hj as [|[->|]]; [tauto|congruence|tauto]. }
    assert (Hno : i ∉ map id (a ++ b)).
    { pose proof (reg_ids _ Hr) as Hn. rewrite Eh, map_app in Hn. cbn in Hn. apply NoDup_app in Hn as (_ & Hd & [Hb _]%NoDup_cons).
      rewrite <- Ei, map_app, elem_of_app. intros [H|H]; [|done]. apply (Hd _ H). by left. }
    destruct (finalizerProc te); cbn; split_and!; try done. by apply Hfin.
  - cbn. split_and!; [by apply loop_evolves_refl|done|]. by apply take_event_none.
Qed.

Lemma run_call_ok self c s : registry (loop s) -> P (world s) -> call_ok self c ->
  wp (run_call c) s (fun _ s' => evolves self (loop s) (loop s') /\ P (world s')).
Proof.
  clear select file_proc time_proc sleep_proc.
  intros Hr Hp Hc. destruct c as [fd msk proc data|fd msk|fd|ms proc data fin|i|]; cbn [run_call call_ok] in *.
  - eapply wp_mono; [apply file_create_ok; [done|lia|lia]|]. intros _ s' [He ->]. done.
  - apply wp_bind. eapply wp_mono; [by apply file_delete_ok|]. intros _ s' [He Hw]. unfold wp. cbn. by rewrite Hw.
  - unfold wp, kr_event_file_get. rewrite get_k. destruct (Z.leb_spec (setsize (loop s)) fd); [split; [by apply loop_evolves_refl|done]|].
    destruct (event_at_ok (loop s) fd Hr) as (fe & E & _); [lia|]. rewrite bind_lift, E. split; [by apply loop_evolves_refl|done].
  - by apply time_create_ok.
  - eapply wp_mono; [by apply time_delete_ok|]. intros _ s' (He & Hw & _). done.
  - unfold wp. cbn. split; [|done]. apply same_timers; try done. destruct Hr. by constructor.
Qed.
Lemma run_prog_ok Q self p : forall s, registry (loop s) -> prog_ok Q self p ->
  wp (run_prog p) s (fun r s' => evolves self (loop s) (loop s') /\ P (world s') /\ Q r).
Proof.
  clear select file_proc time_proc sleep_proc.
  induction p as [w r|c w k IH]; intros s Hr Hp; cbn [run_prog prog_ok] in *.
  - unfold wp. cbn. split_and!; [by apply loop_evolves_refl|apply Hp..].
  - destruct Hp as (Hw & Hc & Hk). unfold wp. rewrite set_world_k.
    destruct (wp_elim _ _ _ (run_call_ok self c (mkState (loop s) w) Hr Hw Hc)) as (z & s1 & E1 & Hev1 & Hp1).
    rewrite (bind_ok _ _ _ _ _ E1), world_k. destruct (wp_elim _ _ _ (IH z (world s1) s1 (ev_reg _ _ _ Hev1) (Hk z _ Hp1))) as (r & s2 & -> & Hev2 & Hp2 & Hr2).
    split_and!; [by eapply loop_evolves_trans|done|done].
Qed.

(** ** Handlers *)

Definition select_ok : Prop := forall n r w t x, P x -> let '(_, _, _, y) := select n r w t x in P y.
Definition file_handlers_ok : Prop := forall f fd d m w, 0 <= fd -> P w -> prog_ok (fun _ => True) None (file_proc f fd d m w).
Definition time_handlers_ok : Prop := forall f i d w, P w -> prog_ok R (Some i) (time_proc f i d w).
Hypothesis Hsel : select_ok.
Hypothesis Hfile : file_handlers_ok.
Hypothesis Htime : time_handlers_ok.

Lemma fired_from_ok ev r w n : forall j, (j + n <= length ev)%nat -> exists l, fired_from ev r w j n = Ok l /\
  Forall (fun x => Z.of_nat j <= x.1 < Z.of_nat (j + n)) l.
Proof.
  induction n as [|n IH]; intros j Hn; cbn [fired_from]; [by exists []|].
  destruct (ev !! j) as [fe|] eqn:E; [|apply lookup_ge_None in E; lia]. cbn [of_option mbind res_bind].
  destruct (IH (S j)) as (l & -> & Hl); [lia|]. cbn [mbind res_bind]. assert (Hl' : Forall (fun x => Z.of_nat j <= x.1 < Z.of_nat (j + S n)) l).
  { eapply Forall_impl; [exact Hl|]. cbn. intros x. lia. }
  destruct (mask fe =? KR_EVENT_NONE); eexists; (split; [reflexivity|]); [done|]. constructor; [cbn; lia|done].
Qed.
Lemma poll_ok tvp s : registry (loop s) -> P (world s) ->
  wp (kr_event_api_poll tvp) s (fun fired s' => loop s' = loop s /\ P (world s') /\ Forall (fun x => 0 <= x.1 < setsize (loop s)) fired).
Proof.
  clear sleep_proc.
  intros Hr Hp. unfold wp, kr_event_api_poll. rewrite get_k, world_k.
  pose proof (Hsel (maxfd (loop s) + 1) (rfds (apidata (loop s))) (wfds (apidata (loop s))) tvp (world s) Hp) as Hs.
  destruct (select _ _ _ tvp (world s)) as [[[rv r] w] x]. rewrite set_world_k. destruct (0 <? rv); [|done].
  pose proof (reg_max _ Hr) as Hm. pose proof (reg_len _ Hr) as Hl.
  destruct (fired_from_ok (events (loop s)) r w (Z.to_nat (maxfd (loop s) + 1)) 0) as (l & El & Hf); [lia|].
  unfold lift. rewrite El. split; [done|]. split; [done|]. eapply Forall_impl; [exact Hf|]. cbn. intros y. lia.
Qed.
Lemma poll_time_ok flags s : registry (loop s) -> P (world s) ->
  wp (poll_time flags) s (fun _ s' => loop s' = loop s /\ P (world s')).
Proof.
  intros Hr Hp. unfold poll_time. unfold wp. rewrite get_k. destruct (if _ && _ then _ else None) as [te|]; [|done].
  destruct (wp_elim _ _ _ (get_time_ok s Hp)) as ([sec ms] & s' & E & El & Hp' & _). rewrite (bind_ok _ _ _ _ _ E). done.
Qed.

Lemma has_land m m' b k : 0 <= k -> b = 2 ^ k -> has (Z.land m m') b = true -> has m b = true.
Proof. intros Hk -> H. rewrite has_bit in * by done. rewrite Z.land_spec in H. by apply andb_true_iff in H as [H _]. Qed.
Lemma handler_ok proc fd d m s : registry (loop s) -> P (world s) -> 0 <= fd -> is_Some proc ->
  wp (run_handler proc fd d m) s (fun _ s' => evolves None (loop s) (loop s') /\ P (world s')).
Proof.
  clear sleep_proc.
  intros Hr Hp Hfd [f ->]. unfold run_handler, wp. rewrite world_k.
  destruct (wp_elim _ _ _ (run_prog_ok _ None _ s Hr (Hfile f fd d m _ Hfd Hp))) as (r & s' & E & He & Hp' & _). by rewrite (bind_ok _ _ _ _ _ E).
Qed.
Lemma dispatch_ok fd m s : registry (loop s) -> P (world s) -> 0 <= fd < setsize (loop s) ->
  wp (dispatch fd m) s (fun _ s' => evolves None (loop s) (loop s') /\ P (world s')).
Proof.
  clear sleep_proc.
  intros Hr Hp Hfd. unfold dispatch, wp. rewrite get_k. destruct (event_at_ok _ fd Hr Hfd) as (fe & E & El). rewrite bind_lift, E.
  destruct (reg_bits _ Hr _ fe El) as (_ & _ & Hpr & _).
  assert (H1 : wp (if has (Z.land (mask fe) m) KR_EVENT_READABLE then run_handler (rfileProc fe) fd (clientData fe) m else mret tt) s
    (fun _ s' => evolves None (loop s) (loop s') /\ P (world s'))).
  { destruct (has (Z.land (mask fe) m) KR_EVENT_READABLE) eqn:Eh; [|split; [by apply loop_evolves_refl|done]].
    apply handler_ok; [done|done|lia|]. by apply Hpr, (has_land _ m _ 0). }
  destruct (wp_elim _ _ _ H1) as ([] & s1 & E1 & He1 & Hp1). rewrite (bind_ok _ _ _ _ _ E1), get_k.
  destruct (event_at_ok (loop s1) fd (ev_reg _ _ _ He1)) as (fe1 & E2 & El2); [by rewrite (ev_size _ _ _ He1)|]. rewrite bind_lift, E2.
  destruct (reg_bits _ (ev_reg _ _ _ He1) _ fe1 El2) as (_ & _ & _ & Hpw).
  destruct (has (Z.land (mask fe1) m) KR_EVENT_WRITABLE && _) eqn:Eh; [|by split].
  apply andb_true_iff in Eh as [Eh _]. apply (has_land _ m _ 1) in Eh; [|done..].
  destruct (wp_elim _ _ _ (handler_ok (wfileProc fe1) fd (clientData fe1) m s1 (ev_reg _ _ _ He1) Hp1 (proj1 Hfd) (Hpw Eh))) as ([] & s2 & E3 & He2 & Hp2).
  rewrite (bind_ok _ _ _ _ _ E3). split; [by eapply loop_evolves_trans|done].
Qed.
Lemma dispatch_all_ok fired : forall s, registry (loop s) -> P (world s) -> Forall (fun x => 0 <= x.1 < setsize (loop s)) fired ->
  wp (dispatch_all fired) s (fun _ s' => evolves None (loop s) (loop s') /\ P (world s')).
Proof.
  induction fired as [|[fd m] fired IH]; intros s Hr Hp Hf; [split; [by apply loop_evolves_refl|done]|]. apply Forall_cons in Hf as [Hfd Hf].
  cbn [dispatch_all]. unfold wp. destruct (wp_elim _ _ _ (dispatch_ok fd m s Hr Hp Hfd)) as (b & s1 & E1 & He1 & Hp1). rewrite (bind_ok _ _ _ _ _ E1).
  destruct (wp_elim _ _ _ (IH s1 (ev_reg _ _ _ He1) Hp1 ltac:(by rewrite (ev_size _ _ _ He1)))) as (u & s2 & E2 & He2 & Hp2). rewrite E2.
  split; [by eapply loop_evolves_trans|done].
Qed.

(** ** Time events *)

Lemma is_due_iff te sec ms : 0 <= when_ms te < 1000 -> 0 <= ms < 1000 -> is_due sec ms te = bool_decide (due_at te <= sec * 1000 + ms).
Proof.
  intros Hw Hm. unfold is_due, due_at. destruct (bool_decide_reflect (when_sec te * 1000 + when_ms te <= sec * 1000 + ms)) as [H|H];
    [apply orb_true_iff|apply orb_false_iff]; rewrite ?andb_true_iff, ?andb_false_iff; rewrite ?Z.ltb_lt, ?Z.ltb_ge, ?Z.eqb_eq, ?Z.eqb_neq, ?Z.leb_le, ?Z.leb_gt; lia.
Qed.
Lemma rearm_split i sec ms h : i ∈ map id h -> exists a te b, h = a ++ te :: b /\ id te = i /\
  rearm i sec ms h = Some (a ++ mkTimeEvent i sec ms (timeProc te) (finalizerProc te) (t_clientData te) :: b).
Proof.
  induction h as [|x h IH]; intros Hi; [by apply not_elem_of_nil in Hi|]. cbn [rearm map] in *.
  destruct (Z.eqb_spec (id x) i) as [<-|Hne]; [by exists [], x, h|]. apply elem_of_cons in Hi as [->|Hi]; [done|].
  destruct (IH Hi) as (a & te & b & -> & Ei & ->). by exists (x :: a), te, b.
Qed.
Lemma rearm_none i sec ms h : i ∉ map id h -> rearm i sec ms h = None.
Proof.
  induction h as [|x h IH]; intros Hi; [done|]. cbn [rearm map] in *. apply not_elem_of_cons in Hi as [Hne Hi].
  by rewrite (proj2 (Z.eqb_neq (id x) i)), IH by (done || by intros ->).
Qed.
Lemma same_event l te te' : registry l -> te ∈ timeEventHead l -> te' ∈ timeEventHead l -> id te = id te' -> te = te'.
Proof.
  intros Hr Ht Ht' E. pose proof (reg_ids l Hr) as Hn. apply list_elem_of_lookup in Ht as [i Hi], Ht' as [j Hj].
  assert (i = j) as ->; [|congruence]. apply (NoDup_lookup _ i j (id te) Hn); rewrite list_lookup_fmap, ?Hi, ?Hj; [done|by rewrite E].
Qed.

(** An event that is processed is deleted or put off. *)
Definition put_off (i : Z) (l l' : T_KREventLoop) : Prop :=
  registry l' /\ setsize l' = setsize l /\ timeEventNextId l <= timeEventNextId l' /\
  forall te, te ∈ timeEventHead l' -> id te < timeEventNextId l ->
    (te ∈ timeEventHead l /\ id te <> i) \/ (id te = i /\ T1 < due_at te).
Hypothesis Hlong : forall r, R r -> r = KR_EVENT_NOMORE \/ T1 - T0 < r.

Lemma fire_ok te s : registry (loop s) -> P (world s) -> te ∈ timeEventHead (loop s) ->
  wp (fire_timer te) s (fun _ s' => put_off (id te) (loop s) (loop s') /\ P (world s')).
Proof.
  clear sleep_proc.
  intros Hr Hp Hte. unfold fire_timer, wp. rewrite world_k.
  destruct (wp_elim _ _ _ (run_prog_ok R (Some (id te)) _ s Hr (Htime (timeProc te) (id te) (t_clientData te) _ Hp))) as (r & s1 & E1 & He1 & Hp1 & HR).
  rewrite (bind_ok _ _ _ _ _ E1). destruct He1 as [R1 S1 N1 O1 F1].
  assert (Hin : id te ∈ map id (timeEventHead (loop s1))) by (apply F1; [done|]; apply list_elem_of_fmap; by exists te).
  destruct (Z.eqb_spec r KR_EVENT_NOMORE) as [->|Hr1]; cbn [negb].
  - destruct (wp_elim _ _ _ (time_delete_ok None (id te) s1 R1 Hp1 ltac:(done))) as (z & s2 & E2 & [R2 S2 N2 O2 _] & Hp2 & Hno).
    rewrite (bind_ok _ _ _ _ _ E2). split; [|done]. split_and!; [done|congruence|lia|]. intros x Hx Hi. left.
    split; [apply O1; [apply O2; [done|lia]|done]|]. intros E. apply Hno. apply list_elem_of_fmap. by exists x.
  - destruct (Hans r HR) as [|Hr2]; [done|]. destruct (Hlong r HR) as [|Hr3]; [done|].
    destruct (wp_elim _ _ _ (add_time_ok r s1 Hp1 Hr2)) as ([sec ms] & s2 & E2 & El2 & Hp2 & Hms & Ht). rewrite (bind_ok _ _ _ _ _ E2), get_k, El2.
    destruct (rearm_split (id te) sec ms _ Hin) as (a & te' & b & Eh & Ei & Er). rewrite bind_lift, Er. cbn [of_option]. cbn. split; [|done].
    set (te2 := mkTimeEvent _ _ _ _ _ _). pose proof (reg_ids _ R1) as Hids. pose proof (reg_timers _ R1) as Htm. rewrite Eh in Hids, Htm.
    assert (Hreg : registry (with_timers (loop s1) (timeEventNextId (loop s1)) (a ++ te2 :: b))).
    { destruct R1. constructor; try done; cbn; rewrite ?map_app in *; cbn in *; [by rewrite <- Ei|].
      apply Forall_app in Htm as [Ha [Hb Hc]%Forall_cons]. apply Forall_app. split; [done|]. constructor; [cbn; lia|done]. }
    split; [done|]. split; [done|]. split; [done|]. cbn. intros x Hx Hi. rewrite elem_of_app, elem_of_cons in Hx.
    assert (Hcase : x = te2 \/ x ∈ a ++ b) by (rewrite elem_of_app; tauto). destruct Hcase as [->|Hx'].
    + right. split; [done|]. unfold due_at. cbn. lia.
    + left. split; [apply O1; [|done]; rewrite Eh, elem_of_app, elem_of_cons; rewrite elem_of_app in Hx'; tauto|].
      intros E. rewrite map_app in Hids. cbn in Hids. apply NoDup_app in Hids as (_ & Hd & [Hb _]%NoDup_cons).
      apply elem_of_app in Hx' as [Hx'|Hx'].
      * apply (Hd (id x)); [apply list_elem_of_fmap; by exists x|]. rewrite Ei, E. by left.
      * apply Hb. rewrite Ei, <- E. apply list_elem_of_fmap. by exists x.
Qed.

(** What a round does to the events with identifiers up to [M]. *)
Definition pending (M : Z) (l : T_KREventLoop) : list T_KRTimeEvent :=
  filter (fun te => id te <= M /\ due_at te <= T1) (timeEventHead l).
Record served (M : Z) (l l' : T_KREventLoop) (out : list Z) : Prop := {
  sv_reg : registry l';
  sv_size : setsize l' = setsize l;
  sv_left : forall te, te ∈ timeEventHead l' -> id te <= M -> T0 < due_at te /\ (te ∈ timeEventHead l \/ id te ∈ out);
  sv_out : forall i, i ∈ out -> i <= M /\ exists te, te ∈ timeEventHead l /\ id te = i /\ due_at te <= T1;
  sv_once : NoDup out
}.
Lemma pending_less M l l' te : registry l -> registry l' -> M < timeEventNextId l -> put_off (id te) l l' -> te ∈ pending M l ->
  (length (pending M l') < length (pending M l))%nat.
Proof.
  clear sleep_proc.
  intros Hr Hr' HM (_ & _ & _ & Hput) Hte. unfold pending in *.
  set (f := fun x => id x <= M /\ due_at x <= T1) in *.
  assert (Hnd : NoDup (map id (filter f (timeEventHead l')))).
  { apply NoDup_fmap_2_strong; [|apply NoDup_filter, (NoDup_fmap_1 id), Hr']. intros x y Hx Hy.
    apply list_elem_of_filter in Hx as [_ Hx], Hy as [_ Hy]. by apply (same_event l'). }
  assert (Hsub : forall i, i ∈ id te :: map id (filter f (timeEventHead l')) -> i ∈ map id (filter f (timeEventHead l))).
  { intros i [->|Hi]%elem_of_cons; [apply list_elem_of_fmap; by exists te|]. apply list_elem_of_fmap in Hi as (x & -> & Hx).
    apply list_elem_of_filter in Hx as [[Hx1 Hx2] Hx]. apply list_elem_of_fmap. exists x. split; [done|].
    destruct (Hput x Hx) as [[Hx3 _]|[_ Hx3]]; [lia| |lia]. by apply list_elem_of_filter. }
  assert (Hno : id te ∉ map id (filter f (timeEventHead l'))).
  { intros Hi. apply list_elem_of_fmap in Hi as (x & E & Hx). apply list_elem_of_filter in Hx as [[Hx1 Hx2] Hx].
    destruct (Hput x Hx) as [[_ Hne]|[_ Hx3]]; [lia|by apply Hne|lia]. }
  rewrite <- (length_map id (filter f (timeEventHead l))), <- (length_map id (filter f (timeEventHead l'))).
  apply (List.NoDup_incl_length (l := id te :: map id (filter f (timeEventHead l')))).
  - apply NoDup_ListNoDup. by constructor.
  - intros i Hi. apply list_elem_of_In. apply Hsub. by apply list_elem_of_In.
Qed.

Lemma time_loop_ok M : forall k s, registry (loop s) -> P (world s) -> M < timeEventNextId (loop s) -> (length (pending M (loop s)) <= k)%nat ->
  forall suf pre acc, timeEventHead (loop s) = pre ++ suf -> Forall (fun te => id te <= M -> T0 < due_at te) pre ->
  exists fuel s' out, P (world s') /\ served M (loop s) (loop s') out /\
    forall fuel', (fuel <= fuel')%nat -> time_events_loop M fuel' suf acc s = Ok (out ++ acc, s').
Proof.
  clear sleep_proc.
  induction k as [k IHk] using (well_founded_induction lt_wf). intros s Hr Hp HM Hk suf. revert s Hr Hp HM Hk.
  induction suf as [|te suf IHs]; intros s Hr Hp HM Hk pre acc Eh Hpre.
  - exists 1%nat, s, []. split; [done|]. split; [|intros [|f] Hf; [lia|done]]. rewrite app_nil_r in Eh. constructor; try done.
    + intros te Hte Hi. split; [|by left]. rewrite Eh in Hte. rewrite Forall_forall in Hpre. by apply Hpre.
    + intros i Hi. by apply not_elem_of_nil in Hi.
    + constructor.
  - assert (Hte : te ∈ timeEventHead (loop s)) by (rewrite Eh; apply elem_of_app; right; by left).
    destruct (Z.ltb_spec M (id te)) as [Hlt|Hle].
    + destruct (IHs s Hr Hp HM Hk (pre ++ [te]) acc) as (fuel & s' & out & Hp' & Hsv & Hrun).
      { by rewrite <- app_assoc. } { apply Forall_app. split; [done|]. constructor; [lia|done]. }
      exists (S fuel), s', out. split_and!; [done|done|]. intros [|f] Hf; [lia|]. cbn [time_events_loop].
      rewrite (proj2 (Z.ltb_lt M (id te)) Hlt). apply Hrun. lia.
    + destruct (wp_elim _ _ _ (get_time_ok s Hp)) as ([sec ms] & s1 & E1 & El1 & Hp1 & _ & Hms & Ht).
      pose proof (reg_timers _ Hr) as Htm. rewrite Forall_forall in Htm. destruct (Htm te Hte) as [_ Hw].
      destruct (is_due sec ms te) eqn:Ed; pose proof Ed as Ed'; rewrite is_due_iff in Ed' by done.
      * apply bool_decide_eq_true in Ed'.
        destruct (wp_elim _ _ _ (fire_ok te s1 ltac:(by rewrite El1) Hp1 ltac:(by rewrite El1))) as (u & s2 & E2 & Hput & Hp2).
        rewrite El1 in Hput. assert (Hpend : te ∈ pending M (loop s)) by (apply list_elem_of_filter; split; [lia|done]).
        pose proof (pending_less M _ _ te Hr (proj1 Hput) HM Hput Hpend) as Hless.
        destruct Hput as (R2 & S2 & N2 & O2).
        destruct (IHk (length (pending M (loop s2))) ltac:(lia) s2 R2 Hp2 ltac:(lia) ltac:(lia) (timeEventHead (loop s2)) [] (id te :: acc) eq_refl ltac:(constructor))
          as (fuel & s' & out & Hp' & Hsv & Hrun).
        exists (S fuel), s', (out ++ [id te]). split; [done|]. split.
        { destruct Hsv as [V1 V2 V3 V4 V5]. constructor; [done|congruence| | |].
          - intros x Hx Hi. destruct (V3 x Hx Hi) as [V6 V7]. split; [done|]. rewrite elem_of_app, list_elem_of_singleton.
            destruct V7 as [V7|]; [|tauto]. destruct (O2 x V7) as [[]|[]]; [lia|tauto|tauto].
          - intros i [Hi|Hi]%elem_of_app.
            + destruct (V4 i Hi) as (Hi1 & x & Hx & Ex & Hd). split; [done|]. exists x. split; [|done]. destruct (O2 x Hx) as [[]|[]]; [lia|done|lia].
            + apply list_elem_of_singleton in Hi as ->. split; [lia|]. exists te. split_and!; [done|done|lia].
          - apply NoDup_app. split_and!; [done| |apply NoDup_singleton]. intros i Hi Hi'. apply list_elem_of_singleton in Hi' as ->.
            destruct (V4 _ Hi) as (Hi1 & x & Hx & Ex & Hd). destruct (O2 x Hx) as [[]|[]]; [lia|done|lia]. }
        intros [|f] Hf; [lia|]. cbn [time_events_loop]. rewrite (proj2 (Z.ltb_ge M (id te)) Hle), (bind_ok _ _ _ _ _ E1), Ed, (bind_ok _ _ _ _ _ E2), get_k.
        rewrite Hrun by lia. by rewrite <- app_assoc.
      * apply bool_decide_eq_false in Ed'.
        destruct (IHs s1 ltac:(by rewrite El1) Hp1 ltac:(by rewrite El1) ltac:(by rewrite El1) (pre ++ [te]) acc) as (fuel & s' & out & Hp' & Hsv & Hrun).
        { by rewrite El1, <- app_assoc. } { apply Forall_app. split; [done|]. constructor; [lia|done]. }
        rewrite El1 in Hsv. exists (S fuel), s', out. split_and!; [done|done|]. intros [|f] Hf; [lia|]. cbn [time_events_loop].
        rewrite (proj2 (Z.ltb_ge M (id te)) Hle), (bind_ok _ _ _ _ _ E1), Ed. apply Hrun. lia.
Qed.

(** C28. A round of the loop ends, whatever is ready, without touching a handler that is not
    set or an event that is freed, and keeps the registry in order.  Of the time events that
    were there each one that is due is processed, unless it was deleted; none is processed
    twice, and none that is made meanwhile.  Handlers may make and delete any events but for
    this: that of a time event does not delete its own event
    ([kr_event_self_delete] shows what happens then), and it answers that it is done or asks
    for a delay longer than the round, whose times are between [T0] and [T1]
    ([kr_event_zero_spins] shows why). *)
Theorem kr_event_round flags s : registry (loop s) -> P (world s) -> has flags KR_EVENT_TIME_EVENTS = true ->
  exists fuel n s' out, (forall fuel', (fuel <= fuel')%nat -> kr_event_process fuel' flags s = Ok (n, s')) /\
    registry (loop s') /\ P (world s') /\ NoDup out /\
    (forall te, te ∈ timeEventHead (loop s) -> due_at te <= T0 -> id te ∈ out \/ id te ∉ map id (timeEventHead (loop s'))) /\
    exists l1, evolves None (loop s) l1 /\ forall i, i ∈ out -> i ∈ map id (timeEventHead l1).
Proof.
  clear sleep_proc.
  intros Hr Hp Hfl. unfold kr_event_process. rewrite Hfl. cbn [negb andb].
  assert (H1 : wp (if negb (maxfd (loop s) =? -1) || negb (has flags KR_EVENT_DONT_WAIT) then
      tvp ← poll_time flags; fired ← kr_event_api_poll tvp; dispatch_all fired;; mret (Z.of_nat (length fired)) else mret 0) s
    (fun _ s' => evolves None (loop s) (loop s') /\ P (world s'))).
  { destruct (_ || _); [|split; [by apply loop_evolves_refl|done]]. unfold wp.
    destruct (wp_elim _ _ _ (poll_time_ok flags s Hr Hp)) as (tvp & s1 & E1 & El1 & Hp1). rewrite (bind_ok _ _ _ _ _ E1).
    destruct (wp_elim _ _ _ (poll_ok tvp s1 ltac:(by rewrite El1) Hp1)) as (fired & s2 & E2 & El2 & Hp2 & Hf). rewrite (bind_ok _ _ _ _ _ E2).
    destruct (wp_elim _ _ _ (dispatch_all_ok fired s2 ltac:(by rewrite El2, El1) Hp2 ltac:(by rewrite El2))) as (u & s3 & E3 & He3 & Hp3).
    rewrite (bind_ok _ _ _ _ _ E3). cbn. rewrite El2, El1 in He3. done. }
  destruct (wp_elim _ _ _ H1) as (n & s1 & E1 & He1 & Hp1).
  destruct (time_loop_ok (timeEventNextId (loop s1) - 1) _ s1 (ev_reg _ _ _ He1) Hp1 ltac:(lia) (le_n _) (timeEventHead (loop s1)) [] [] eq_refl ltac:(constructor))
    as (fuel & s' & out & Hp' & Hsv & Hrun).
  destruct Hsv as [V1 V2 V3 V4 V5]. exists fuel, (i32 (n + Z.of_nat (length out))), s', out. split_and!; try done.
  - intros fuel' Hf. rewrite get_k, (bind_ok _ _ _ _ _ E1). unfold processTimeEvents. erewrite bind_ok; [|rewrite get_k, Hrun by lia; reflexivity].
    by rewrite app_nil_r.
  - intros te Hte Hd. destruct (decide (id te ∈ out)) as [|Hno]; [by left|]. right. intros Hin. apply list_elem_of_fmap in Hin as (x & Ex & Hx).
    destruct He1 as [A1 A2 A3 A4 _]. pose proof (reg_timers _ Hr) as Htm. rewrite Forall_forall in Htm. specialize (Htm te Hte).
    destruct (V3 x Hx ltac:(lia)) as [Hx1 [Hx2|Hx2]]; [|by rewrite <- Ex in Hx2].
    assert (x = te) as ->; [|lia]. apply (same_event (loop s) x te Hr); [apply A4; [done|lia]|done|done].
  - exists (loop s1). split; [done|]. intros i Hi. destruct (V4 i Hi) as (_ & te & Hte & <- & _). apply list_elem_of_fmap. by exists te.
Qed.

(** C29. Whatever a program does with a new loop, every call ends, and [select] is given
    exactly the descriptors registered for reading and for writing, up to the greatest; the
    identifiers of the time events are distinct. *)
Theorem kr_event_keeps_registry size Q p w : 0 <= size <= FD_SETSIZE -> prog_ok Q None p ->
  exists r s', run_prog p (mkState (kr_event_loop_create size) w) = Ok (r, s') /\ registry (loop s') /\ Q r.
Proof using Hclock Hfin.
  intros Hs Hp. destruct (wp_elim _ _ _ (run_prog_ok Q None p (mkState (kr_event_loop_create size) w) (registry_create size Hs) Hp)) as (r & s' & E & He & _ & Hq).
  exists r, s'. split; [done|]. split; [apply He|done].
Qed.
End KrEvent.

(** The wait for a time event that is not due is the time that is left; for one that is
    overdue it is not zero, but what is left of the time modulo a second. *)
Theorem kr_event_wait_time te now_sec now_ms : 0 <= when_ms te < 1000 -> 0 <= now_ms < 1000 ->
  let d := due_at te - (now_sec * 1000 + now_ms) in
  let '(sec, usec) := wait_time te now_sec now_ms in
  sec * 1000 + usec / 1000 = if 0 <=? d then d else d mod 1000.
Proof.
  intros Hw Hn. unfold wait_time, due_at. cbv zeta. set (s := when_sec te - now_sec). set (m := when_ms te - now_ms).
  assert (Ed : when_sec te * 1000 + when_ms te - (now_sec * 1000 + now_ms) = s * 1000 + m) by (unfold s, m; lia). rewrite Ed.
  assert (Hmod : forall k r, s * 1000 + m = k * 1000 + r -> 0 <= r < 1000 -> (s * 1000 + m) mod 1000 = r).
  { intros k r E Hr. symmetry. apply (Z.mod_unique_pos _ _ k); lia. }
  destruct (Z.ltb_spec (when_ms te) now_ms).
  - replace (when_ms te + 1000 - now_ms) with (m + 1000) by (unfold m; lia).
    rewrite (proj2 (Z.ltb_ge ((m + 1000) * 1000) 0)), Z.div_mul by (unfold m; lia).
    destruct (Z.ltb_spec (s - 1) 0), (Z.leb_spec 0 (s * 1000 + m)); try (unfold m in *; lia). rewrite (Hmod (s - 1) (m + 1000)); unfold m in *; lia.
  - fold m. rewrite (proj2 (Z.ltb_ge (m * 1000) 0)), Z.div_mul by (unfold m; lia).
    destruct (Z.ltb_spec s 0), (Z.leb_spec 0 (s * 1000 + m)); try (unfold m in *; lia). rewrite (Hmod s m); unfold m in *; lia.
Qed.

(** A time event whose handler asks for no delay, on a clock that stands, is processed
    again and again: the round never ends. *)
Theorem kr_event_zero_spins {W} (clock : W -> Z * Z * W) file_fin time_proc sec te l (w : W) : 0 <= sec < 2 ^ 53 ->
  (forall w, clock w = (sec, 0, w)) -> (forall f i d w, time_proc f i d w = Done w 0) ->
  timeEventHead l = [te] -> id te < timeEventNextId l -> due_at te <= sec * 1000 -> 0 <= when_ms te < 1000 ->
  forall fuel, processTimeEvents clock time_proc file_fin fuel (mkState l w) = Fault NoFuel.
Proof.
  intros Hs Hclk Htp Hl Hid Hdue Hms fuel. unfold processTimeEvents. rewrite get_k. cbn [loop]. rewrite Hl.
  assert (Hget : forall (s : state (W:=W)), aeGetTime clock s = Ok ((sec, 0), mkState (loop s) (world s))).
  { intros s. unfold aeGetTime. by rewrite world_k, Hclk. }
  assert (H : forall M fuel l te acc, timeEventHead l = [te] -> id te <= M -> due_at te <= sec * 1000 -> 0 <= when_ms te < 1000 ->
    time_events_loop clock time_proc file_fin M fuel [te] acc (mkState l w) = Fault NoFuel).
  { clear l te fuel Hl Hid Hdue Hms. intros M fuel. induction fuel as [|fuel' IH]; intros l te acc Hl Hi Hd Hm; [done|]. cbn [time_events_loop].
    rewrite (proj2 (Z.ltb_ge M (id te))) by lia. rewrite (bind_ok _ _ _ _ _ (Hget _)). cbv beta iota. cbn [loop world].
    rewrite is_due_iff, bool_decide_eq_true_2 by lia.
    assert (E : fire_timer clock time_proc file_fin te (mkState l w) =
      Ok (tt, mkState (with_timers l (timeEventNextId l) [mkTimeEvent (id te) sec 0 (timeProc te) (finalizerProc te) (t_clientData te)]) w)).
    { unfold fire_timer. rewrite world_k, Htp. cbn [run_prog]. erewrite bind_ok by reflexivity. cbn [loop world]. change (0 =? KR_EVENT_NOMORE) with false. cbn [negb].
      unfold aeAddMillisecondsToNow. erewrite bind_ok; [|rewrite (bind_ok _ _ _ _ _ (Hget _)); reflexivity]. cbn [loop world].
      change (Z.quot 0 1000) with 0. change (Z.rem 0 1000) with 0. rewrite !Z.add_0_r, (wraps_small 64 sec) by lia. change (i64 0) with 0. change (1000 <=? 0) with false. cbv iota beta.
      rewrite get_k, bind_lift. cbn [loop]. rewrite Hl. cbn [rearm]. by rewrite Z.eqb_refl. }
    rewrite (bind_ok _ _ _ _ _ E), get_k. cbn [loop with_timers timeEventHead]. apply IH; cbn; try done. unfold due_at. cbn. lia. }
  apply H; [done|lia|done|done].
Qed.

(** A handler that deletes its own time event and asks for a delay all the same: the loop
    writes the next time into the event that is freed. *)
Theorem kr_event_self_delete {W} (clock : W -> Z * Z * W) fin time_proc te ms (s : state (W:=W)) : registry (loop s) ->
  time_proc (timeProc te) (id te) (t_clientData te) (world s) = Do (TimeDelete (id te)) (world s) (fun _ w => Done w ms) ->
  ms <> KR_EVENT_NOMORE -> fire_timer clock time_proc fin te s = Fault BadPointer.
Proof.
  intros Hr Hp Hms. unfold fire_timer. rewrite world_k, Hp. cbn [run_prog].
  destruct (wp_elim _ _ _ (time_delete_ok fin (fun _ => True) ltac:(done) None (id te) s Hr I ltac:(done)))
    as (z & s1 & E & _ & _ & Hno). destruct s as [l w]. cbn [world loop] in *.
  assert (Erun : (set_world w;; r ← run_call clock fin (TimeDelete (id te)); w ← get_world; (fun _ w => run_prog clock fin (Done w ms)) r w)
    (mkState l w) = Ok (ms, s1)).
  { rewrite set_world_k, (bind_ok _ _ _ _ _ E), world_k. by destruct s1. }
  rewrite (bind_ok _ _ _ _ _ Erun), (proj2 (Z.eqb_neq ms KR_EVENT_NOMORE) Hms). cbn [negb].
  unfold aeAddMillisecondsToNow, aeGetTime. destruct (clock (world s1)) as [[sec usec] w'] eqn:Hc.
  erewrite bind_ok; [|erewrite bind_ok; [|rewrite world_k, Hc, set_world_k; reflexivity]; reflexivity].
  destruct (if _ <=? _ then _ else _) as [sec' ms']. rewrite get_k, bind_lift. cbn [loop].
  by rewrite rearm_none.
Qed.

(** * An example *)

Definition ex_clock (w : list Z) : Z * Z * list Z := (5, 0, w).
Definition ex_select (n : Z) (r wr : gset Z) (t : option (Z * Z)) (w : list Z) : Z * gset Z * gset Z * list Z := (1, r, wr, w).
(** The handler of a descriptor gives it up; that of a time event makes another one. *)
Definition ex_file (f fd d m : Z) (w : list Z) : prog := Do (FileDelete fd KR_EVENT_READABLE) (fd :: w) (fun _ w => Done w 0).
Definition ex_timer (f i d : Z) (w : list Z) : prog := Do (TimeCreate 1000 f 0 None) (i :: w) (fun _ w => Done w 5000).
Definition ex_fin (f d : Z) (w : list Z) : list Z := w.
Definition ex_start : prog (W:=list Z) :=
  Do (FileCreate 3 KR_EVENT_READABLE 7 0) ([] : list Z) (fun _ w => Do (TimeCreate 0 8 0 None) w (fun _ w => Done w 0)).
Definition ex_state : state (W:=list Z) :=
  match run_prog ex_clock ex_fin ex_start (mkState (kr_event_loop_create 16) []) with Ok (_, s) => s | Fault _ => mkState (kr_event_loop_create 16) [] end.

Definition ex_P (w : list Z) : Prop := True.
Definition ex_R (r : Z) : Prop := r = 5000.
Lemma ex_clock_ok : clock_ok ex_clock ex_P 5000 5000.
Proof. split; [done|]. intros w _. cbn. split_and!; try done; lia. Qed.
Lemma ex_answers : answers_ok ex_R.
Proof. intros r ->. right. done. Qed.
Lemma ex_start_ok : prog_ok ex_P (fun r => r = 0) None ex_start.
Proof. cbn. unfold ex_P, INT_MAX. by split_and!. Qed.
Lemma ex_registry : registry (loop ex_state).
Proof.
  destruct (wp_elim _ _ _ (run_prog_ok ex_clock ex_fin ex_P 5000 5000 ex_clock_ok (fun _ _ _ _ => I) (fun r => r = 0) None ex_start
    (mkState (kr_event_loop_create 16) []) (registry_create 16 ltac:(done)) ex_start_ok)) as (r & s & E & He & _).
  unfold ex_state. rewrite E. apply He.
Qed.
Lemma ex_round : match kr_event_process ex_clock ex_select ex_file ex_timer ex_fin 20 KR_EVENT_ALL_EVENTS ex_state with
  | Ok (n, s) => Some (n, world s, maxfd (loop s), map id (timeEventHead (loop s))) | Fault _ => None end = Some (2, [0; 3], -1, [1; 0]).
Proof. vm_compute. reflexivity. Qed.

Lemma kr_event_round_witness : exists fuel n s' out,
  (forall fuel', (fuel <= fuel')%nat -> kr_event_process ex_clock ex_select ex_file ex_timer ex_fin fuel' KR_EVENT_ALL_EVENTS ex_state = Ok (n, s')) /\
  registry (loop s') /\ NoDup (out : list Z).
Proof.
  destruct (kr_event_round ex_clock ex_select ex_file ex_timer ex_fin ex_P ex_R 5000 5000 ex_clock_ok (fun _ _ _ _ => I) ex_answers)
    with (flags := KR_EVENT_ALL_EVENTS) (s := ex_state) as (fuel & n & s' & out & Hrun & Hr & _ & Hn & Hdue & _).
  - intros n r w t x _. exact I.
  - intros f fd d m w Hfd _. cbn. unfold ex_P. by split_and!.
  - intros f i d w _. cbn. unfold ex_P, ex_R, INT_MAX. by split_and!.
  - intros r ->. right. lia.
  - apply ex_registry.
  - exact I.
  - reflexivity.
  - exists fuel, n, s', out. exact (conj Hrun (conj Hr Hn)).
Defined.
Lemma kr_event_keeps_registry_witness : exists r s',
  run_prog ex_clock ex_fin ex_start (mkState (kr_event_loop_create 16) []) = Ok (r, s') /\ registry (loop s') /\ r = 0.
Proof.
  exact (kr_event_keeps_registry ex_clock ex_fin ex_P 5000 5000 ex_clock_ok (fun _ _ _ _ => I) 16 (fun r => r = 0) ex_start []
    ltac:(done) ex_start_ok).
Defined.
Lemma kr_event_wait_time_witness : wait_time (mkTimeEvent 0 5 250 8 None 0) 5 750 = (0, 500000) /\ 0 * 1000 + 500000 / 1000 = 500.
Proof.
  split; [reflexivity|].
  exact (kr_event_wait_time (mkTimeEvent 0 5 250 8 None 0) 5 750 ltac:(cbn; lia) ltac:(lia)).
Defined.
Lemma kr_event_zero_spins_witness :
  processTimeEvents ex_clock (fun _ _ _ w => Done w 0) ex_fin 100
    (mkState (with_timers (kr_event_loop_create 16) 1 [mkTimeEvent 0 5 0 8 None 0]) []) = Fault NoFuel.
Proof.
  apply (kr_event_zero_spins ex_clock ex_fin (fun _ _ _ w => Done w 0) 5 (mkTimeEvent 0 5 0 8 None 0)); try done; cbn; lia.
Defined.

Lemma kr_event_self_delete_witness :
  fire_timer ex_clock (fun _ i _ w => Do (TimeDelete i) w (fun _ w => Done w 5000)) ex_fin (mkTimeEvent 0 5 0 8 None 0)
    (mkState (kr_event_loop_create 16) []) = Fault BadPointer.
Proof.
  apply (kr_event_self_delete ex_clock ex_fin (fun _ i _ w => Do (TimeDelete i) w (fun _ w => Done w 5000))
    (mkTimeEvent 0 5 0 8 None 0) 5000); [apply registry_create; done|reflexivity|done].
Defined.
