(* ===== verification/KrConhash.v ===== *)
(** Consistent hashing: krutils/kr_conhash.c, over the skip lists of KrSkiplist.

    The actual nodes live in a store, each with the array of its virtual nodes.  The two
    skip lists hold pointers: a value of [vnode_list] is the address of a virtual node (its
    actual node and its index), a value of [node_list] the address of an actual node, or of
    the local variable of [kr_conhash_lookup].  Such a value carries the string that the
    comparison functions read at the address, which is written before the insertion and
    never again.  The hash function of the caller is an argument. *)

From S2P Require Import Prelude KrString KrSkiplist.
From stdpp Require Import sorting pretty.
From Stdlib Require Import Sorted Ascii String.
Local Open Scope Z_scope.
#[local] Notation length := List.length.
#[local] Arguments String.append !_ _ / : simpl nomatch.

(** * CRC-16 *)

Definition crc16tab : list Z := [
   0x0000; 0x1021; 0x2042; 0x3063; 0x4084; 0x50a5; 0x60c6; 0x70e7;
   0x8108; 0x9129; 0xa14a; 0xb16b; 0xc18c; 0xd1ad; 0xe1ce; 0xf1ef;
   0x1231; 0x0210; 0x3273; 0x2252; 0x52b5; 0x4294; 0x72f7; 0x62d6;
   0x9339; 0x8318; 0xb37b; 0xa35a; 0xd3bd; 0xc39c; 0xf3ff; 0xe3de;
   0x2462; 0x3443; 0x0420; 0x1401; 0x64e6; 0x74c7; 0x44a4; 0x5485;
   0xa56a; 0xb54b; 0x8528; 0x9509; 0xe5ee; 0xf5cf; 0xc5ac; 0xd58d;
   0x3653; 0x2672; 0x1611; 0x0630; 0x76d7; 0x66f6; 0x5695; 0x46b4;
   0xb75b; 0xa77a; 0x9719; 0x8738; 0xf7df; 0xe7fe; 0xd79d; 0xc7bc;
   0x48c4; 0x58e5; 0x6886; 0x78a7; 0x0840; 0x1861; 0x2802; 0x3823;
   0xc9cc; 0xd9ed; 0xe98e; 0xf9af; 0x8948; 0x9969; 0xa90a; 0xb92b;
   0x5af5; 0x4ad4; 0x7ab7; 0x6a96; 0x1a71; 0x0a50; 0x3a33; 0x2a12;
   0xdbfd; 0xcbdc; 0xfbbf; 0xeb9e; 0x9b79; 0x8b58; 0xbb3b; 0xab1a;
   0x6ca6; 0x7c87; 0x4ce4; 0x5cc5; 0x2c22; 0x3c03; 0x0c60; 0x1c41;
   0xedae; 0xfd8f; 0xcdec; 0xddcd; 0xad2a; 0xbd0b; 0x8d68; 0x9d49;
   0x7e97; 0x6eb6; 0x5ed5; 0x4ef4; 0x3e13; 0x2e32; 0x1e51; 0x0e70;
   0xff9f; 0xefbe; 0xdfdd; 0xcffc; 0xbf1b; 0xaf3a; 0x9f59; 0x8f78;
   0x9188; 0x81a9; 0xb1ca; 0xa1eb; 0xd10c; 0xc12d; 0xf14e; 0xe16f;
   0x1080; 0x00a1; 0x30c2; 0x20e3; 0x5004; 0x4025; 0x7046; 0x6067;
   0x83b9; 0x9398; 0xa3fb; 0xb3da; 0xc33d; 0xd31c; 0xe37f; 0xf35e;
   0x02b1; 0x1290; 0x22f3; 0x32d2; 0x4235; 0x5214; 0x6277; 0x7256;
   0xb5ea; 0xa5cb; 0x95a8; 0x8589; 0xf56e; 0xe54f; 0xd52c; 0xc50d;
   0x34e2; 0x24c3; 0x14a0; 0x0481; 0x7466; 0x6447; 0x5424; 0x4405;
   0xa7db; 0xb7fa; 0x8799; 0x97b8; 0xe75f; 0xf77e; 0xc71d; 0xd73c;
   0x26d3; 0x36f2; 0x0691; 0x16b0; 0x6657; 0x7676; 0x4615; 0x5634;
   0xd94c; 0xc96d; 0xf90e; 0xe92f; 0x99c8; 0x89e9; 0xb98a; 0xa9ab;
   0x5844; 0x4865; 0x7806; 0x6827; 0x18c0; 0x08e1; 0x3882; 0x28a3;
   0xcb7d; 0xdb5c; 0xeb3f; 0xfb1e; 0x8bf9; 0x9bd8; 0xabbb; 0xbb9a;
   0x4a75; 0x5a54; 0x6a37; 0x7a16; 0x0af1; 0x1ad0; 0x2ab3; 0x3a92;
   0xfd2e; 0xed0f; 0xdd6c; 0xcd4d; 0xbdaa; 0xad8b; 0x9de8; 0x8dc9;
   0x7c26; 0x6c07; 0x5c64; 0x4c45; 0x3ca2; 0x2c83; 0x1ce0; 0x0cc1;
   0xef1f; 0xff3e; 0xcf5d; 0xdf7c; 0xaf9b; 0xbfba; 0x8fd9; 0x9ff8;
   0x6e17; 0x7e36; 0x4e55; 0x5e74; 0x2e93; 0x3eb2; 0x0ed1; 0x1ef0].

(** [crc] is a [uint16_t]; the characters are signed. *)
Fixpoint crc16_loop (crc : Z) (str : string) : Z :=
  match str with
  | EmptyString => crc
  | String c str' =>
      let i := Z.land (Z.lxor (Z.shiftr crc 8) (schar c)) 255 in
      crc16_loop (u16 (Z.lxor (Z.shiftl crc 8) (nth (Z.to_nat i) crc16tab 0))) str'
  end.

Definition kr_crc16_hash (buf : string) : Z := crc16_loop 0 buf.

(** * Data *)

Inductive E_KRNodeStatus := KR_NODE_STATUS_CREATED | KR_NODE_STATUS_INSERTED | KR_NODE_STATUS_DELETED.

Record T_KRVirtualNode := mkVnode { v_hash : Z; vid : string }.

Section Conhash.
(** [P] is the type of the private data. *)
Context {P : Type}.

Record T_KRActualNode := mkNode {
  n_hash : Z; id : string; weights : Z; kicks : Z; vnodes : list T_KRVirtualNode;
  priv : P; status : E_KRNodeStatus
}.

(** The addresses that the skip lists hold, with the strings found there. *)
Record vaddr := mkVaddr { v_node : ptr; v_index : nat; v_vid : string }.
Record naddr := mkNaddr { n_node : option ptr; n_id : string }.

Record T_KRConHash := mkConHash {
  hash_func : string -> Z;
  free_func : bool;
  vnode_list : T_KRSkipList (V:=vaddr);
  node_list : T_KRSkipList (V:=naddr)
}.

(** The actual nodes, the stores of the two lists, and what was given to [free_func]. *)
Record state := mkState {
  heap : gmap ptr T_KRActualNode;
  vstore : store (V:=vaddr);
  nstore : store (V:=naddr);
  freed : list P
}.

Definition kr_vnode_compare (v1 v2 : vaddr) : Z := strcmp (v_vid v1) (v_vid v2).
Definition kr_node_compare (v1 v2 : naddr) : Z := strcmp (n_id v1) (n_id v2).

Definition on_vlist {A} (f : M store A) : M state A := fun s =>
  match f (vstore s) with
  | Ok (a, vs) => Ok (a, mkState (heap s) vs (nstore s) (freed s))
  | Fault e => Fault e
  end.
Definition on_nlist {A} (f : M store A) : M state A := fun s =>
  match f (nstore s) with
  | Ok (a, ns) => Ok (a, mkState (heap s) (vstore s) ns (freed s))
  | Fault e => Fault e
  end.

Definition get_node (p : ptr) : M state T_KRActualNode := fun s =>
  match heap s !! p with Some n => Ok (n, s) | None => Fault BadPointer end.
Definition put_node (p : ptr) (n : T_KRActualNode) : M state unit := fun s =>
  match heap s !! p with
  | Some _ => Ok (tt, mkState (<[p := n]> (heap s)) (vstore s) (nstore s) (freed s))
  | None => Fault BadPointer
  end.

(** * Operations *)

Definition ID_SIZE : nat := 100.

(** [strncpy] of an identifier: from [ID_SIZE] characters on there is no final null, and
    the functions of strings read past the end of the array. *)
Definition copy_id (i : string) : res string :=
  if (String.length i <? ID_SIZE)%nat then Ok i else Fault OutOfBounds.

(** [kr_calloc] clears the virtual nodes. *)
Definition kr_conhash_create_node (i : string) (weights : Z) (priv : P) : M state ptr := fun s =>
  match copy_id i with
  | Ok i =>
      let p := fresh (dom (heap s)) in
      let n := mkNode 0 i weights 0 (replicate (Z.to_nat weights) (mkVnode 0 "")) priv
                      KR_NODE_STATUS_CREATED in
      Ok (p, mkState (<[p := n]> (heap s)) (vstore s) (nstore s) (freed s))
  | Fault e => Fault e
  end.

Definition kr_conhash_free_node (krch : T_KRConHash) (p : ptr) : M state unit := fun s =>
  match heap s !! p with
  | Some n => Ok (tt, mkState (delete p (heap s)) (vstore s) (nstore s)
                        (if free_func krch then freed s ++ [priv n] else freed s))
  | None => Fault BadPointer
  end.

Definition kr_conhash_construct (hash_func : option (string -> Z)) (free_func : bool)
    : M state T_KRConHash :=
  vl ← on_vlist (kr_skiplist_create kr_vnode_compare);
  nl ← on_nlist (kr_skiplist_create kr_node_compare);
  mret (mkConHash (match hash_func with Some f => f | None => kr_crc16_hash end) free_func vl nl).

(** [snprintf(vid, "%s-%03d", id, i)], which fits in its 128 characters. *)
Definition vnode_id (i : string) (k : nat) : string := (i ++ "-" ++ print_padded 3 (Z.of_nat k))%string.

Definition with_vnode (n : T_KRActualNode) (k : nat) (v : T_KRVirtualNode) : T_KRActualNode :=
  mkNode (n_hash n) (id n) (weights n) (kicks n) (<[k := v]> (vnodes n)) (priv n) (status n).
Definition with_hash (n : T_KRActualNode) (h : Z) (st : E_KRNodeStatus) : T_KRActualNode :=
  mkNode h (id n) (weights n) (kicks n) (vnodes n) (priv n) st.

Section Calls.
(** The random numbers of the skip lists, and the clock. *)
Context (random : Z -> nat -> Z) (time : Z).

Fixpoint insert_vnodes (krch : T_KRConHash) (p : ptr) (k m : nat) : M state T_KRConHash :=
  match m with
  | O => mret krch
  | S m' =>
      n ← get_node p;
      let v := vnode_id (id n) k in
      let h := hash_func krch v in
      put_node p (with_vnode n k (mkVnode h v));;
      '(_, vl) ← on_vlist (kr_skiplist_insert random time (vnode_list krch) h (mkVaddr p k v));
      insert_vnodes (mkConHash (hash_func krch) (free_func krch) vl (node_list krch)) p (S k) m'
  end.

Definition kr_conhash_insert_node (krch : T_KRConHash) (p : ptr) : M state T_KRConHash :=
  n ← get_node p;
  krch ← insert_vnodes krch p 0 (Z.to_nat (weights n));
  n ← get_node p;
  let h := hash_func krch (id n) in
  put_node p (with_hash n h (status n));;
  '(_, nl) ← on_nlist (kr_skiplist_insert random time (node_list krch) h (mkNaddr (Some p) (id n)));
  n ← get_node p;
  put_node p (with_hash n h KR_NODE_STATUS_INSERTED);;
  mret (mkConHash (hash_func krch) (free_func krch) (vnode_list krch) nl).

(** The virtual nodes are found by their hash and the string they hold. *)
Fixpoint delete_vnodes (krch : T_KRConHash) (p : ptr) (k m : nat) : M state T_KRConHash :=
  match m with
  | O => mret krch
  | S m' =>
      n ← get_node p;
      v ← (fun s => match vnodes n !! k with Some v => Ok (v, s) | None => Fault OutOfBounds end);
      '(_, vl) ← on_vlist (kr_skiplist_delete (vnode_list krch) (v_hash v) (mkVaddr p k (vid v)));
      delete_vnodes (mkConHash (hash_func krch) (free_func krch) vl (node_list krch)) p (S k) m'
  end.

Definition kr_conhash_delete_node (krch : T_KRConHash) (p : ptr) : M state T_KRConHash :=
  n ← get_node p;
  krch ← delete_vnodes krch p 0 (Z.to_nat (weights n));
  n ← get_node p;
  '(_, nl) ← on_nlist (kr_skiplist_delete (node_list krch) (n_hash n) (mkNaddr (Some p) (id n)));
  put_node p (with_hash n (n_hash n) KR_NODE_STATUS_DELETED);;
  mret (mkConHash (hash_func krch) (free_func krch) (vnode_list krch) nl).

(** The address found, [None] for [NULL]. *)
Definition kr_conhash_lookup (krch : T_KRConHash) (i : string) : M state (option ptr) :=
  c ← lift (copy_id i);
  a ← on_nlist (kr_skiplist_lookup (node_list krch) (hash_func krch i) (mkNaddr None c));
  mret (a ≫= n_node).

Definition kr_conhash_add (krch : T_KRConHash) (i : string) (weights : Z) (priv : P)
    : M state (Z * T_KRConHash) :=
  p ← kr_conhash_create_node i weights priv;
  krch ← kr_conhash_insert_node krch p;
  mret (0, krch).

Definition kr_conhash_remove (krch : T_KRConHash) (i : string) : M state (Z * T_KRConHash) :=
  p ← kr_conhash_lookup krch i;
  match p with
  | None => mret (-1, krch)
  | Some p =>
      krch ← kr_conhash_delete_node krch p;
      kr_conhash_free_node krch p;;
      mret (0, krch)
  end.

Definition kr_conhash_adjust_weights (krch : T_KRConHash) (i : string) (weights : Z)
    : M state (Z * T_KRConHash) :=
  del_node ← kr_conhash_lookup krch i;
  match del_node with
  | None => mret (-1, krch)
  | Some del_node =>
      n ← get_node del_node;
      add_node ← kr_conhash_create_node i weights (priv n);
      krch ← kr_conhash_delete_node krch del_node;
      kr_conhash_free_node krch del_node;;
      krch ← kr_conhash_insert_node krch add_node;
      mret (0, krch)
  end.

(** [kicks = ++kicks % UINT_MAX]. *)
Definition kick (n : T_KRActualNode) : T_KRActualNode :=
  mkNode (n_hash n) (id n) (weights n) (u32 (kicks n + 1) `mod` UINT_MAX) (vnodes n) (priv n) (status n).

Definition kr_conhash_locate (krch : T_KRConHash) (object : string) : M state (option ptr) :=
  a ← on_vlist (kr_skiplist_lookup_cycle (vnode_list krch) (hash_func krch object));
  match a with
  | None => mret None
  | Some v =>
      n ← get_node (v_node v);
      put_node (v_node v) (kick n);;
      mret (Some (v_node v))
  end.

End Calls.

Definition kr_conhash_foreach_node {A} (krch : T_KRConHash) (func : option naddr -> A -> A) (data : A)
    : M state A :=
  on_nlist (kr_skiplist_foreach (node_list krch) func data).

(** [kr_skiplist_foreach] with [kr_conhash_free_node]: the values are those of the list. *)
Definition free_nodes (krch : T_KRConHash) (addrs : list (option naddr)) : M state unit :=
  foldr (fun a k => match a ≫= n_node with
                    | Some p => kr_conhash_free_node krch p;; k
                    | None => fail NullDeref
                    end) (mret tt) addrs.

Definition kr_conhash_destruct (krch : T_KRConHash) : M state unit :=
  addrs ← on_nlist (kr_skiplist_foreach (node_list krch) (fun a l => l ++ [a]) []);
  free_nodes krch addrs;;
  on_vlist (kr_skiplist_free (vnode_list krch));;
  on_nlist (kr_skiplist_free (node_list krch)).

End Conhash.

(** * CRC-16 is the division by 0x1021 *)

(** One bit of the remainder by x^16 + x^12 + x^5 + 1, and a character of the message. *)
Definition crc_bit (x : Z) : Z :=
  let y := u16 (Z.shiftl x 1) in if Z.testbit x 15 then Z.lxor y 0x1021 else y.

Fixpoint crc_reference (crc : Z) (s : string) : Z :=
  match s with
  | EmptyString => crc
  | String c s' => crc_reference (Nat.iter 8 crc_bit (Z.lxor crc (Z.shiftl (uchar c) 8))) s'
  end.

(** The step of the table on the remainder with the character added. *)
Definition crc_table_step (x : Z) : Z :=
  u16 (Z.lxor (Z.shiftl x 8) (nth (Z.to_nat (Z.shiftr x 8)) crc16tab 0)).

Lemma u16_lxor a b : u16 (Z.lxor a b) = Z.lxor (u16 a) (u16 b).
Proof.
  unfold wrapu. rewrite <- !Z.land_ones by lia. apply Z.bits_inj'. intros i Hi.
  rewrite !Z.land_spec, !Z.lxor_spec, !Z.land_spec. by destruct (Z.testbit a i), (Z.testbit b i), (Z.testbit _ i).
Qed.

Lemma lxor_range a b n : 0 <= n -> 0 <= a < 2 ^ n -> 0 <= b < 2 ^ n -> 0 <= Z.lxor a b < 2 ^ n.
Proof.
  intros Hn Ha Hb. assert (H : Z.lxor a b = wrapu n (Z.lxor a b)); [|rewrite H; by apply wrapu_range].
  unfold wrapu. rewrite <- Z.land_ones by done. apply Z.bits_inj'. intros i Hi.
  rewrite Z.land_spec, Z.lxor_spec. destruct (decide (i < n)) as [Hin|Hin].
  - by rewrite Z.ones_spec_low, andb_true_r by lia.
  - assert (Hbits : forall z, 0 <= z < 2 ^ n -> Z.testbit z i = false).
    { intros z Hz. rewrite <- (Z.mod_small z (2 ^ n)) by done. apply Z.mod_pow2_bits_high. lia. }
    by rewrite (Hbits a), (Hbits b).
Qed.

Lemma crc_bit_lxor a b : crc_bit (Z.lxor a b) = Z.lxor (crc_bit a) (crc_bit b).
Proof.
  unfold crc_bit. rewrite Z.shiftl_lxor, u16_lxor, Z.lxor_spec.
  destruct (Z.testbit a 15), (Z.testbit b 15); simpl; apply Z.bits_inj'; intros i Hi;
    rewrite ?Z.lxor_spec; by destruct (Z.testbit (u16 (Z.shiftl a 1)) i),
      (Z.testbit (u16 (Z.shiftl b 1)) i), (Z.testbit 0x1021 i).
Qed.

Lemma crc_bits_lxor n a b :
  Nat.iter n crc_bit (Z.lxor a b) = Z.lxor (Nat.iter n crc_bit a) (Nat.iter n crc_bit b).
Proof. induction n as [|n IH]; [done|]. simpl. by rewrite IH, crc_bit_lxor. Qed.

(** The table, on the high byte of a remainder; the low byte moves up. *)
Definition crc_check (n : nat) : bool :=
  forallb (fun h => (nth h crc16tab 0 =? Nat.iter 8 crc_bit (Z.shiftl (Z.of_nat h) 8)) &&
                    (u16 (nth h crc16tab 0) =? nth h crc16tab 0) &&
                    (Z.shiftl (Z.of_nat h) 8 =? Nat.iter 8 crc_bit (Z.of_nat h))) (seq 0 n).

Lemma crc_check_spec n h : crc_check n = true -> (h < n)%nat ->
  nth h crc16tab 0 = Nat.iter 8 crc_bit (Z.shiftl (Z.of_nat h) 8) /\
  u16 (nth h crc16tab 0) = nth h crc16tab 0 /\
  Z.shiftl (Z.of_nat h) 8 = Nat.iter 8 crc_bit (Z.of_nat h).
Proof.
  unfold crc_check. intros Hc Hh. rewrite forallb_forall in Hc.
  specialize (Hc h (proj2 (in_seq n 0 h) ltac:(lia))).
  apply andb_true_iff in Hc as [Hc H3]. apply andb_true_iff in Hc as [H1 H2].
  apply Z.eqb_eq in H1, H2, H3. done.
Qed.

Lemma crc_table_checked : crc_check 256 = true.
Proof. vm_compute. reflexivity. Qed.

Lemma high_low x : 0 <= x < 65536 ->
  x = Z.lxor (Z.shiftl (x / 256) 8) (x mod 256) /\ u16 (Z.shiftl x 8) = Z.shiftl (x mod 256) 8.
Proof.
  intros Hx. pose proof (Z_div_mod_eq_full x 256) as Hd.
  pose proof (Z.mod_pos_bound x 256 eq_refl) as Hm. split.
  - rewrite <- Z.add_nocarry_lxor; [rewrite Z.shiftl_mul_pow2; lia|].
    apply Z.bits_inj'. intros i Hi. rewrite Z.land_spec, Z.bits_0. destruct (decide (i < 8)).
    + by rewrite Z.shiftl_spec_low by lia.
    + change 256 with (2 ^ 8); rewrite (Z.mod_pow2_bits_high x 8 i) by lia. apply andb_false_r.
  - unfold wrapu. rewrite !Z.shiftl_mul_pow2 by lia. change (2 ^ 16) with (256 * 2 ^ 8).
    by rewrite Z.mul_mod_distr_r by lia.
Qed.

Lemma crc_table_bits x : 0 <= x < 65536 -> crc_table_step x = Nat.iter 8 crc_bit x.
Proof.
  intros Hx. destruct (high_low x Hx) as [Hhl Hu]. pose proof (Z.mod_pos_bound x 256 eq_refl) as Hm.
  assert (Hd : 0 <= x / 256 < 256) by (pose proof (Z_div_mod_eq_full x 256); lia).
  destruct (crc_check_spec 256 (Z.to_nat (x / 256)) crc_table_checked) as (H1 & H2 & _); [lia|].
  destruct (crc_check_spec 256 (Z.to_nat (x mod 256)) crc_table_checked) as (_ & _ & H3); [lia|].
  rewrite Z2Nat.id in H1, H3 by lia. unfold crc_table_step.
  rewrite u16_lxor, Hu, Z.shiftr_div_pow2 by lia. change (2 ^ 8) with 256. rewrite H2, H1, H3.
  rewrite Z.lxor_comm, <- crc_bits_lxor. by rewrite <- Hhl.
Qed.

Lemma land_lxor a b m : Z.land (Z.lxor a b) m = Z.lxor (Z.land a m) (Z.land b m).
Proof.
  apply Z.bits_inj'. intros i Hi. rewrite !Z.land_spec, !Z.lxor_spec, !Z.land_spec.
  by destruct (Z.testbit a i), (Z.testbit b i), (Z.testbit m i).
Qed.

Lemma schar_land c : Z.land (schar c) 255 = uchar c.
Proof. destruct c as [[] [] [] [] [] [] [] []]; reflexivity. Qed.

Lemma crc_step crc c :
  0 <= crc < 65536 ->
  u16 (Z.lxor (Z.shiftl crc 8)
        (nth (Z.to_nat (Z.land (Z.lxor (Z.shiftr crc 8) (schar c)) 255)) crc16tab 0)) =
  crc_table_step (Z.lxor crc (Z.shiftl (uchar c) 8)).
Proof.
  intros Hcrc. pose proof (uchar_bound c) as Hb. unfold crc_table_step.
  assert (Hi : Z.land (Z.lxor (Z.shiftr crc 8) (schar c)) 255 =
               Z.shiftr (Z.lxor crc (Z.shiftl (uchar c) 8)) 8).
  { rewrite Z.shiftr_lxor, Z.shiftr_shiftl_l, Z.shiftl_0_r, land_lxor, schar_land by lia.
    f_equal. change 255 with (Z.ones 8). rewrite Z.land_ones, Z.shiftr_div_pow2 by lia.
    apply Z.mod_small. split; [apply Z.div_pos; lia|]. apply Z.div_lt_upper_bound; lia. }
  rewrite Hi, !u16_lxor. f_equal. rewrite Z.shiftl_lxor, Z.shiftl_shiftl, u16_lxor by lia.
  assert (u16 (Z.shiftl (uchar c) (8 + 8)) = 0) as ->; [|by rewrite Z.lxor_0_r].
  unfold wrapu. rewrite Z.shiftl_mul_pow2 by lia. apply Z.mod_mul. lia.
Qed.

Lemma crc_loop_reference s : forall crc, 0 <= crc < 65536 -> crc16_loop crc s = crc_reference crc s.
Proof.
  induction s as [|c s IH]; intros crc Hcrc; [done|]. cbn [crc16_loop crc_reference].
  pose proof (uchar_bound c) as Hb.
  assert (Hx : 0 <= Z.lxor crc (Z.shiftl (uchar c) 8) < 65536).
  { apply (lxor_range _ _ 16); [lia|done|]. rewrite Z.shiftl_mul_pow2 by lia. lia. }
  rewrite crc_step, IH by done || apply (wrapu_range 16 _ ltac:(done)). by rewrite crc_table_bits.
Qed.

(** The table-driven [kr_crc16_hash], on 16-bit words and signed characters, computes
    the remainder of the message by the polynomial 0x1021, bit by bit. *)
Theorem kr_crc16_hash_reference (s : string) : kr_crc16_hash s = crc_reference 0 s.
Proof. by apply crc_loop_reference. Qed.

(** * Identifiers of virtual nodes *)

Lemma digits_no_dash (a : string) b : digits (a ++ String "-"%char b) = false.
Proof. induction a as [|c a IH]; [done|]. cbn [String.append digits]. rewrite IH. apply andb_false_r. Qed.

Lemma append_dash_inj (a b d e : string) :
  digits d = true -> digits e = true ->
  (a ++ String "-"%char d)%string = (b ++ String "-"%char e)%string -> a = b /\ d = e.
Proof.
  intros Hd He. revert b. induction a as [|x a IH]; intros [|y b]; cbn [String.append]; intros H.
  - by injection H as ->.
  - injection H as <- ->. by rewrite digits_no_dash in Hd.
  - injection H as -> <-. by rewrite digits_no_dash in He.
  - injection H as -> H. destruct (IH b H) as [-> ->]. done.
Qed.

Lemma vnode_id_inj i j k l : vnode_id i k = vnode_id j l -> i = j /\ k = l.
Proof.
  unfold vnode_id. intros H.
  destruct (print_padded_value 3 (Z.of_nat k)) as [Hk Hdk]; [lia|].
  destruct (print_padded_value 3 (Z.of_nat l)) as [Hl Hdl]; [lia|].
  destruct (append_dash_inj _ _ _ _ Hdk Hdl H) as [-> E]. split; [done|].
  rewrite E, Hl in Hk. lia.
Qed.

(** * The comparison functions order strings *)

Lemma strcmp_comparison {A} (f : A -> string) : Comparison (fun a b => strcmp (f a) (f b)).
Proof.
  split.
  - intros a b. rewrite (strcmp_antisym (f a)). lia.
  - intros a b c. apply strcmp_trans.
  - intros a b c H. apply strcmp_eq in H. by rewrite H.
Qed.

#[global] Instance vnode_comparison : Comparison kr_vnode_compare := strcmp_comparison v_vid.
#[global] Instance node_comparison : Comparison kr_node_compare := strcmp_comparison n_id.

Lemma same_vnode k v e : same kr_vnode_compare k v e = true <-> e.1 = k /\ v_vid e.2 = v_vid v.
Proof. rewrite same_iff. unfold kr_vnode_compare. rewrite strcmp_eq. naive_solver. Qed.

Lemma same_node k v e : same kr_node_compare k v e = true <-> e.1 = k /\ n_id e.2 = n_id v.
Proof. rewrite same_iff. unfold kr_node_compare. rewrite strcmp_eq. naive_solver. Qed.

(** * The invariant *)

Section Invariant.
Context {P : Type}.
Implicit Types (s : state (P:=P)) (n : T_KRActualNode (P:=P)) (live : gmap ptr (T_KRActualNode (P:=P))).

Definition ventry (krch : T_KRConHash) (i : string) (p : ptr) (k : nat) : Z * vaddr :=
  (hash_func krch (vnode_id i k), mkVaddr p k (vnode_id i k)).
Definition nentry (krch : T_KRConHash) (i : string) (p : ptr) : Z * naddr :=
  (hash_func krch i, mkNaddr (Some p) i).

(** A node that is in the lists. *)
Record node_ok (krch : T_KRConHash) (n : T_KRActualNode (P:=P)) : Prop := {
  ok_id : (String.length (id n) < ID_SIZE)%nat;
  ok_hash : n_hash n = hash_func krch (id n);
  ok_vnodes : forall k, (k < Z.to_nat (weights n))%nat ->
    vnodes n !! k = Some (mkVnode (hash_func krch (vnode_id (id n) k)) (vnode_id (id n) k))
}.

(** The lists hold the nodes [live] and their virtual nodes: [ves] and [nes]. *)
Record ch_rep s (krch : T_KRConHash) live (ves : list (Z * vaddr)) (nes : list (Z * naddr)) : Prop := {
  ch_live : forall p n, live !! p = Some n -> heap s !! p = Some n /\ node_ok krch n;
  ch_unique : forall p p' n n', live !! p = Some n -> live !! p' = Some n' -> id n = id n' -> p = p';
  ch_vlist : exists ps, skip_rep (vstore s) (vnode_list krch) ps ves;
  ch_nlist : exists ps, skip_rep (nstore s) (node_list krch) ps nes;
  ch_vcmp : compare_func (vnode_list krch) = kr_vnode_compare;
  ch_ncmp : compare_func (node_list krch) = kr_node_compare;
  ch_bound : length_ (vnode_list krch) <= UINT_MAX /\ length_ (node_list krch) <= UINT_MAX;
  ch_ves : forall e, e ∈ ves <-> exists p n k,
    live !! p = Some n /\ (k < Z.to_nat (weights n))%nat /\ e = ventry krch (id n) p k;
  ch_nes : forall e, e ∈ nes <-> exists p n, live !! p = Some n /\ e = nentry krch (id n) p
}.

Definition same_hash (krch krch' : T_KRConHash) : Prop :=
  hash_func krch' = hash_func krch /\ free_func krch' = free_func krch.

(** ** Insertion of the virtual nodes of a node *)

Lemma skip_sorted s krch live ves nes :
  ch_rep s krch live ves nes -> StronglySorted (entry_lt kr_vnode_compare) ves.
Proof. intros [_ _ [ps H] _ Hc _ _ _ _]. rewrite <- Hc. apply (rep_sorted _ _ _ _ H). Qed.

Lemma insert_vnodes_spec random time p : forall m k s krch n ps ves,
  heap s !! p = Some n -> length (vnodes n) = (k + m)%nat ->
  skip_rep (vstore s) (vnode_list krch) ps ves -> compare_func (vnode_list krch) = kr_vnode_compare ->
  (forall e j, e ∈ ves -> (k <= j)%nat -> v_vid e.2 <> vnode_id (id n) j) ->
  length_ (vnode_list krch) + Z.of_nat m <= UINT_MAX ->
  exists s' krch' n' ps' ves', insert_vnodes random time krch p k m s = Ok (krch', s') /\
    heap s' = <[p := n']> (heap s) /\ nstore s' = nstore s /\ freed s' = freed s /\
    (id n' = id n /\ weights n' = weights n /\ priv n' = priv n /\ length (vnodes n') = length (vnodes n)) /\
    (forall j, vnodes n' !! j = if decide (k <= j < k + m)%nat
       then Some (mkVnode (hash_func krch (vnode_id (id n) j)) (vnode_id (id n) j))
       else vnodes n !! j) /\
    skip_rep (vstore s') (vnode_list krch') ps' ves' /\
    compare_func (vnode_list krch') = kr_vnode_compare /\ node_list krch' = node_list krch /\
    length_ (vnode_list krch') = length_ (vnode_list krch) + Z.of_nat m /\
    same_hash krch krch' /\
    (forall e, e ∈ ves' <-> e ∈ ves \/ exists j, (k <= j < k + m)%nat /\ e = ventry krch (id n) p j) /\
    List.filter (fun e => negb (bool_decide (v_node e.2 = p))) ves' =
      List.filter (fun e => negb (bool_decide (v_node e.2 = p))) ves.
Proof.
  induction m as [|m IH]; intros k s krch n ps ves Hn Hl Hrep Hcmp Hnew Hmax; cbn [insert_vnodes].
  { exists s, krch, n, ps, ves. rewrite insert_id by done. split_and!; try done.
    - intros j. by rewrite decide_False by lia.
    - simpl. lia.
    - intros e. split; [by left|]. intros [?|(j & ? & _)]; [done|lia]. }
  unfold mbind at 1, M_bind at 1. unfold get_node at 1. rewrite Hn.
  unfold mbind at 1, M_bind at 1. unfold put_node at 1. rewrite Hn.
  set (v := vnode_id (id n) k). set (h := hash_func krch v).
  set (n1 := with_vnode n k (mkVnode h v)).
  pose proof (rep_len _ _ _ _ Hrep) as Hlen.
  destruct (skip_insert_spec random time (vstore s) (vnode_list krch) ps ves h (mkVaddr p k v))
    as (x & vl & vs & ps1 & Ei & Hr1 & Hc1); [rewrite Hcmp; apply _|done|lia|].
  unfold mbind at 1, M_bind at 1. unfold on_vlist at 1. cbn [vstore]. rewrite Ei. cbn [heap nstore freed].
  rewrite Hcmp in Hr1. pose proof (rep_sorted _ _ _ _ Hrep) as Hsort. rewrite Hcmp in Hsort.
  assert (Hnotsame : forall e, e ∈ ves -> same kr_vnode_compare h (mkVaddr p k v) e = false).
  { intros e He. apply not_true_iff_false. rewrite same_vnode. simpl. intros [_ Hv].
    by apply (Hnew e k He (le_n k)). }
  destruct (insert_filter kr_vnode_compare (fun e => negb (bool_decide (v_node e.2 = p))) h (mkVaddr p k v) ves
    Hsort) as [Hf1 Hlen1]; [simpl; by rewrite bool_decide_true|done|].
  destruct (IH (S k) (mkState (<[p:=n1]> (heap s)) vs (nstore s) (freed s))
    (mkConHash (hash_func krch) (free_func krch) vl (node_list krch)) n1 ps1
    (spec_insert kr_vnode_compare h (mkVaddr p k v) ves))
    as (s' & krch' & n' & ps' & ves' & E & Hh & Hns & Hfr & (Hid & Hw & Hpr & Hlv) & Hv & Hr & Hc & Hnl & Hle & Hsh & Hel & Hfil).
  - simpl. by rewrite lookup_insert_eq.
  - simpl. rewrite length_insert. lia.
  - done.
  - simpl. congruence.
  - intros e j He Hj. apply elem_of_insert in He as [->|[He _]]; [| |apply _|done].
    + simpl. intros Hv. apply vnode_id_inj in Hv as [_ Hkj]. lia.
    + apply (Hnew e j He). lia.
  - simpl. rewrite (rep_len _ _ _ _ Hr1), Hlen1. lia.
  - exists s', krch', n', ps', ves'. simpl in *. rewrite length_insert in Hlv.
    rewrite insert_insert_eq in Hh. destruct Hsh as [Hh1 Hh2].
    split_and!; try done.
    + intros j. rewrite Hv. destruct (decide (j = k)) as [->|Hjk].
      * rewrite decide_False, decide_True by lia. apply list_lookup_insert_eq. lia.
      * rewrite list_lookup_insert_ne by done. repeat case_decide; done || lia.
    + rewrite Hle, (rep_len _ _ _ _ Hr1), Hlen1. lia.
    + intros e. rewrite Hel, elem_of_insert by (apply _ || done). split.
      * intros [[->|[He _]]|(j & Hj & ->)]; [right; exists k; split; [lia|done]|by left|].
        right. exists j. split; [lia|done].
      * intros [He|(j & Hj & ->)]; [left; right; split; [done|by apply Hnotsame]|].
        destruct (decide (j = k)) as [->|Hne]; [left; by left|right]. exists j. split; [lia|done].
    + rewrite Hfil, Hf1. done.
Qed.

(** ** Insertion of a node *)

Definition not_of (p : ptr) (e : Z * vaddr) : bool := negb (bool_decide (v_node e.2 = p)).

Lemma filter_all {A} (f : A -> bool) l : (forall x, x ∈ l -> f x = true) -> List.filter f l = l.
Proof.
  induction l as [|x l IH]; intros H; [done|]. simpl. rewrite H by left. f_equal. apply IH.
  intros y Hy. apply H. by right.
Qed.

Lemma not_of_live s krch live ves nes p :
  ch_rep s krch live ves nes -> live !! p = None -> List.filter (not_of p) ves = ves.
Proof.
  intros Hrep Hp. apply filter_all. intros e He. apply (ch_ves _ _ _ _ _ Hrep) in He as (q & n & k & Hq & _ & ->).
  unfold not_of. simpl. rewrite bool_decide_false; [done|]. congruence.
Qed.

(** The lists with a node more, once the node is in both. *)
Lemma ch_rep_insert s krch live ves nes s' krch' p n ves' ps qs :
  let h := hash_func krch (id n) in let a := mkNaddr (Some p) (id n) in
  ch_rep s krch live ves nes -> live !! p = None ->
  (forall q m, live !! q = Some m -> id m <> id n) ->
  heap s' = <[p := n]> (heap s) -> same_hash krch krch' -> node_ok krch n ->
  skip_rep (vstore s') (vnode_list krch') ps ves' ->
  skip_rep (nstore s') (node_list krch') qs (spec_insert kr_node_compare h a nes) ->
  compare_func (vnode_list krch') = kr_vnode_compare -> compare_func (node_list krch') = kr_node_compare ->
  length_ (vnode_list krch') <= UINT_MAX -> length_ (node_list krch') <= UINT_MAX ->
  (forall e, e ∈ ves' <-> e ∈ ves \/ exists j, (j < Z.to_nat (weights n))%nat /\ e = ventry krch (id n) p j) ->
  ch_rep s' krch' (<[p := n]> live) ves' (spec_insert kr_node_compare h a nes).
Proof.
  intros h a Hrep Hp Hfresh Hh [Hhf _] Hok Hv Hn Hvc Hnc Hvm Hnm Hel.
  pose proof Hrep as [Hlive Huniq _ [qs0 Hnl] _ Hnc0 _ Hves Hnes].
  pose proof (rep_sorted _ _ _ _ Hnl) as Hsn. rewrite Hnc0 in Hsn.
  assert (Hput : forall q m, <[p := n]> live !! q = Some m <-> q = p /\ m = n \/ live !! q = Some m).
  { intros q m. rewrite lookup_insert_Some. split; [naive_solver|].
    intros [[-> ->]|Hq]; [by left|right]. split; [congruence|done]. }
  constructor; try done.
  - intros q m [[-> ->]|Hq]%Hput.
    + rewrite Hh, lookup_insert_eq. split; [done|]. destruct Hok. by constructor; rewrite ?Hhf.
    + rewrite Hh, lookup_insert_ne by congruence. destruct (Hlive q m Hq) as [? [? ? ?]].
      split; [done|]. by constructor; rewrite ?Hhf.
  - intros q q' m m' [[-> ->]|Hq]%Hput [[-> ->]|Hq']%Hput Heq; [done| | |by eapply Huniq].
    + by destruct (Hfresh q' m' Hq').
    + by destruct (Hfresh q m Hq).
  - by exists ps.
  - by exists qs.
  - intros e. rewrite Hel, Hves. unfold ventry. rewrite Hhf. split.
    + intros [(q & m & k & Hq & Hk & ->)|(j & Hj & ->)].
      * exists q, m, k. split; [|done]. apply Hput. by right.
      * exists p, n, j. split; [|done]. apply Hput. by left.
    + intros (q & m & k & [[-> ->]|Hq]%Hput & Hk & ->); [right; by exists k|left; by exists q, m, k].
  - intros e. rewrite elem_of_insert by (apply _ || done). rewrite Hnes. unfold nentry. rewrite Hhf. split.
    + intros [->|[(q & m & Hq & ->) _]]; [exists p, n|exists q, m]; (split; [apply Hput|done]); auto.
    + intros (q & m & [[-> ->]|Hq]%Hput & ->); [by left|right]. split; [by exists q, m|].
      apply not_true_iff_false. rewrite same_node. intros [_ Hs]. by apply (Hfresh q m Hq).
Qed.

Lemma insert_node_spec random time s krch live ves nes p n :
  ch_rep s krch live ves nes -> heap s !! p = Some n -> live !! p = None ->
  (forall q n', live !! q = Some n' -> id n' <> id n) -> (String.length (id n) < ID_SIZE)%nat ->
  length (vnodes n) = Z.to_nat (weights n) -> 0 <= weights n ->
  length_ (vnode_list krch) + weights n <= UINT_MAX -> length_ (node_list krch) < UINT_MAX ->
  exists s' krch' n' ves' nes', kr_conhash_insert_node random time krch p s = Ok (krch', s') /\
    heap s' = <[p := n']> (heap s) /\ id n' = id n /\ weights n' = weights n /\ priv n' = priv n /\
    freed s' = freed s /\ same_hash krch krch' /\
    (length_ (vnode_list krch') = length_ (vnode_list krch) + weights n /\
     length_ (node_list krch') = length_ (node_list krch) + 1) /\
    ch_rep s' krch' (<[p := n']> live) ves' nes' /\ List.filter (not_of p) ves' = ves.
Proof.
  intros Hrep Hn Hp Hfresh Hid Hlv Hw Hv Hm. pose proof Hrep as [Hlive Huniq [ps Hvl] [qs Hnl] Hvc Hnc _ Hves Hnes].
  unfold kr_conhash_insert_node. unfold mbind at 1, M_bind at 1. unfold get_node at 1. rewrite Hn.
  destruct (insert_vnodes_spec random time p (Z.to_nat (weights n)) 0 s krch n ps ves)
    as (s1 & k1 & n1 & ps1 & ves1 & E1 & Hh1 & Hns1 & Hf1 & (Hid1 & Hw1 & Hpr1 & _) & Hvn & Hvl1 & Hvc1 & Hnl1 & Hle1
        & [Hhf1 Hff1] & Hel1 & Hfil1); try done; [|lia|].
  { intros e j He _ Hvid. apply Hves in He as (q & n' & k & Hq & _ & ->). simpl in Hvid.
    apply vnode_id_inj in Hvid as [Heq _]. by apply (Hfresh q n' Hq). }
  unfold mbind at 1, M_bind at 1. rewrite E1. unfold mbind at 1, M_bind at 1. unfold get_node at 1.
  rewrite Hh1, lookup_insert_eq. unfold mbind at 1, M_bind at 1. unfold put_node at 1.
  rewrite Hh1, lookup_insert_eq, insert_insert_eq, Hhf1, Hid1.
  set (h := hash_func krch (id n)).
  destruct (skip_insert_spec random time (nstore s) (node_list krch) qs nes h (mkNaddr (Some p) (id n)))
    as (x & nl & ns & qs2 & Ei & Hr2 & Hc2); [rewrite Hnc; apply _|done|rewrite <- (rep_len _ _ _ _ Hnl); lia|].
  unfold mbind at 1, M_bind at 1. unfold on_nlist at 1. cbn [nstore vstore heap freed].
  rewrite Hns1, Hnl1, Ei. unfold mbind at 1, M_bind at 1. unfold get_node at 1. cbn [heap].
  rewrite lookup_insert_eq. unfold mbind at 1, M_bind at 1. unfold put_node at 1. cbn [heap].
  rewrite lookup_insert_eq, insert_insert_eq.
  set (n2 := with_hash (with_hash n1 h (status n1)) h KR_NODE_STATUS_INSERTED).
  eexists _, _, n2, ves1, (spec_insert kr_node_compare h (mkNaddr (Some p) (id n)) nes).
  split; [done|]. cbn [heap freed]. rewrite Hnc in Hr2. pose proof (rep_sorted _ _ _ _ Hnl) as Hsn.
  rewrite Hnc in Hsn.
  assert (Hnn : forall e, e ∈ nes -> same kr_node_compare h (mkNaddr (Some p) (id n)) e = false).
  { intros e He. apply not_true_iff_false. rewrite same_node. intros [_ Hs].
    apply Hnes in He as (q & n' & Hq & ->). by apply (Hfresh q n' Hq). }
  destruct (insert_filter kr_node_compare (fun _ => false) h (mkNaddr (Some p) (id n)) nes Hsn eq_refl Hnn)
    as [_ Hlen2].
  assert (Hlen3 : length_ nl = length_ (node_list krch) + 1).
  { rewrite (rep_len _ _ _ _ Hr2), Hlen2, (rep_len _ _ _ _ Hnl). lia. }
  split_and!; try done.
  - cbn [vnode_list]. lia.
  - assert (Hid2 : id n2 = id n) by done. clear Hnn Hlen2. revert Hr2. unfold h. rewrite <- Hid2. intros Hr2.
    eapply (ch_rep_insert s krch live ves nes _ _ p n2); try done; cbn [heap vnode_list node_list]; try congruence.
    + intros q m Hq. rewrite Hid2. exact (Hfresh q m Hq).
    + constructor; simpl; rewrite ?Hid1; [done|done|]. intros k Hk. rewrite Hvn.
      by rewrite decide_True by lia.
    + lia.
    + rewrite Hlen3. lia.
    + intros e. rewrite Hel1. simpl. rewrite Hid1, Hw1.
      split; (intros [He|(j & Hj & He)]; [by left|right; exists j; split; [lia|exact He]]).
  - etransitivity; [exact Hfil1|]. by apply (not_of_live _ _ _ _ _ _ Hrep).
Qed.

(** ** Deletion of a node *)

Lemma delete_vnodes_spec p n : forall m k s krch ps ves,
  heap s !! p = Some n -> node_ok krch n -> (k + m <= Z.to_nat (weights n))%nat ->
  skip_rep (vstore s) (vnode_list krch) ps ves -> compare_func (vnode_list krch) = kr_vnode_compare ->
  length_ (vnode_list krch) <= UINT_MAX ->
  exists s' krch' ps', delete_vnodes krch p k m s = Ok (krch', s') /\
    heap s' = heap s /\ nstore s' = nstore s /\ freed s' = freed s /\
    skip_rep (vstore s') (vnode_list krch') ps' (List.filter (fun e => negb (existsb (fun j =>
      same kr_vnode_compare (hash_func krch (vnode_id (id n) j)) (mkVaddr p j (vnode_id (id n) j)) e)
      (seq k m))) ves) /\
    compare_func (vnode_list krch') = kr_vnode_compare /\ node_list krch' = node_list krch /\
    length_ (vnode_list krch') <= UINT_MAX /\ same_hash krch krch'.
Proof.
  induction m as [|m IH]; intros k s krch ps ves Hn Hok Hk Hrep Hcmp Hmax; cbn [delete_vnodes].
  { exists s, krch, ps. rewrite filter_all by done. by split_and!. }
  unfold mbind at 1, M_bind at 1. unfold get_node at 1. rewrite Hn.
  unfold mbind at 1, M_bind at 1. rewrite (ok_vnodes _ _ Hok k) by lia. cbn [v_hash vid].
  set (v := vnode_id (id n) k). set (h := hash_func krch v).
  destruct (skip_delete_spec (vstore s) (vnode_list krch) ps ves h (mkVaddr p k v))
    as (vl & vs & ps1 & Ed & Hr1 & Hc1); [rewrite Hcmp; apply _|done|by rewrite <- (rep_len _ _ _ _ Hrep)|].
  unfold mbind at 1, M_bind at 1. unfold on_vlist at 1. rewrite Ed. rewrite Hcmp in Hr1.
  destruct (IH (S k) (mkState (heap s) vs (nstore s) (freed s))
    (mkConHash (hash_func krch) (free_func krch) vl (node_list krch)) ps1
    (spec_delete kr_vnode_compare h (mkVaddr p k v) ves))
    as (s' & krch' & ps' & E & Hh & Hns & Hfr & Hr & Hc & Hnl & Hm & [Hh1 Hh2]); try done.
  - by destruct Hok; constructor.
  - lia.
  - simpl. congruence.
  - simpl. rewrite (rep_len _ _ _ _ Hr1). rewrite (rep_len _ _ _ _ Hrep) in Hmax.
    unfold spec_delete. pose proof (List.filter_length_le
      (fun e => negb (same kr_vnode_compare h (mkVaddr p k v) e)) ves). lia.
  - exists s', krch', ps'. split_and!; try done.
    assert (Hf : forall g1 g2 : Z * vaddr -> bool, List.filter (fun e => negb (g1 e)) (List.filter (fun e => negb (g2 e)) ves)
      = List.filter (fun e => negb (g2 e || g1 e)) ves).
    { intros g1 g2. clear. induction ves as [|e ves IH]; [done|]. simpl.
      destruct (g2 e); simpl; [done|]. destruct (g1 e); simpl; by rewrite IH. }
    unfold spec_delete in Hr. rewrite Hf in Hr. exact Hr.
Qed.

Lemma delete_filter s krch live ves nes p n :
  ch_rep s krch live ves nes -> live !! p = Some n ->
  List.filter (fun e => negb (existsb (fun j =>
      same kr_vnode_compare (hash_func krch (vnode_id (id n) j)) (mkVaddr p j (vnode_id (id n) j)) e)
      (seq 0 (Z.to_nat (weights n))))) ves = List.filter (not_of p) ves.
Proof.
  intros Hrep Hp. apply List.filter_ext_in. intros e He. unfold not_of. f_equal.
  apply list_elem_of_In, (ch_ves _ _ _ _ _ Hrep) in He as (q & n' & k & Hq & Hk & ->). simpl.
  apply eq_true_iff_eq. rewrite existsb_exists, bool_decide_eq_true. split.
  - intros (j & _ & Hs). apply same_vnode in Hs as [_ Hs]. simpl in Hs.
    apply vnode_id_inj in Hs as [Hid _]. by apply (ch_unique _ _ _ _ _ Hrep q p n' n).
  - intros ->. assert (n' = n) as -> by congruence. exists k. split; [apply in_seq; lia|].
    by apply same_vnode.
Qed.

(** The lists without a node, once the node is out of both. *)
Lemma ch_rep_delete s krch live ves nes p n s' krch' ps qs n' :
  ch_rep s krch live ves nes -> live !! p = Some n ->
  heap s' = <[p := n']> (heap s) -> same_hash krch krch' ->
  skip_rep (vstore s') (vnode_list krch') ps (List.filter (not_of p) ves) ->
  skip_rep (nstore s') (node_list krch') qs
    (spec_delete kr_node_compare (hash_func krch (id n)) (mkNaddr (Some p) (id n)) nes) ->
  compare_func (vnode_list krch') = kr_vnode_compare -> compare_func (node_list krch') = kr_node_compare ->
  length_ (vnode_list krch') <= UINT_MAX -> length_ (node_list krch') <= UINT_MAX ->
  ch_rep s' krch' (delete p live) (List.filter (not_of p) ves)
    (spec_delete kr_node_compare (hash_func krch (id n)) (mkNaddr (Some p) (id n)) nes).
Proof.
  intros Hrep Hp Hh [Hhf _] Hv Hn Hvc Hnc Hvm Hnm. pose proof Hrep as [Hlive Huniq _ _ _ _ _ Hves Hnes].
  constructor; try done.
  - intros q m [Hqp Hq]%lookup_delete_Some. rewrite Hh, lookup_insert_ne by done.
    destruct (Hlive q m Hq) as [? [? ? ?]]. split; [done|]. by constructor; rewrite ?Hhf.
  - intros q q' m m' [_ Hq]%lookup_delete_Some [_ Hq']%lookup_delete_Some. by apply Huniq.
  - by exists ps.
  - by exists qs.
  - intros e. rewrite list_elem_of_In, List.filter_In, <- list_elem_of_In, Hves.
    unfold ventry, not_of. rewrite Hhf. split.
    + intros [(q & m & k & Hq & Hk & ->) Hne]. simpl in Hne. apply negb_true_iff, bool_decide_eq_false in Hne.
      exists q, m, k. rewrite lookup_delete_ne by done. done.
    + intros (q & m & k & [Hqp Hq]%lookup_delete_Some & Hk & ->). split; [by exists q, m, k|].
      simpl. by rewrite bool_decide_false.
  - intros e. rewrite elem_of_delete, Hnes. unfold nentry. rewrite Hhf. split.
    + intros [(q & m & Hq & ->) Hs]. exists q, m. split; [|done]. apply lookup_delete_Some. split; [|done].
      intros ->. assert (m = n) as -> by congruence. apply not_true_iff_false in Hs. apply Hs.
      by apply same_node.
    + intros (q & m & [Hqp Hq]%lookup_delete_Some & ->). split; [by exists q, m|].
      apply not_true_iff_false. rewrite same_node. simpl. intros [_ Hid].
      apply Hqp. symmetry. by apply (Huniq q p m n).
Qed.

Lemma delete_node_spec s krch live ves nes p n :
  ch_rep s krch live ves nes -> live !! p = Some n ->
  exists s' krch' n' nes', kr_conhash_delete_node krch p s = Ok (krch', s') /\
    heap s' = <[p := n']> (heap s) /\ priv n' = priv n /\ freed s' = freed s /\
    length_ (node_list krch') <= length_ (node_list krch) /\
    same_hash krch krch' /\ ch_rep s' krch' (delete p live) (List.filter (not_of p) ves) nes'.
Proof.
  intros Hrep Hp. pose proof Hrep as [Hlive _ [ps Hv] [qs Hn] Hvc Hnc [Hvm Hnm] _ _].
  destruct (Hlive p n Hp) as [Hh Hok]. unfold kr_conhash_delete_node.
  unfold mbind at 1, M_bind at 1. unfold get_node at 1. rewrite Hh.
  destruct (delete_vnodes_spec p n (Z.to_nat (weights n)) 0 s krch ps ves Hh Hok)
    as (s1 & k1 & ps1 & E1 & Hh1 & Hns1 & Hf1 & Hr1 & Hc1 & Hnl1 & Hm1 & [Hhf Hff]); try done.
  rewrite (delete_filter _ _ _ _ _ _ _ Hrep Hp) in Hr1.
  unfold mbind at 1, M_bind at 1. rewrite E1. unfold mbind at 1, M_bind at 1. unfold get_node at 1.
  rewrite Hh1, Hh. rewrite (ok_hash _ _ Hok).
  destruct (skip_delete_spec (nstore s) (node_list krch) qs nes (hash_func krch (id n)) (mkNaddr (Some p) (id n)))
    as (nl & ns & qs2 & Ed & Hr2 & Hc2); [rewrite Hnc; apply _|done|by rewrite <- (rep_len _ _ _ _ Hn)|].
  unfold mbind at 1, M_bind at 1. unfold on_nlist at 1. rewrite Hns1, Hnl1, Ed.
  unfold mbind at 1, M_bind at 1. unfold put_node at 1. cbn [heap vstore nstore freed]. rewrite Hh1, Hh.
  rewrite Hnc in Hr2.
  eexists _, _, _, (spec_delete kr_node_compare (hash_func krch (id n)) (mkNaddr (Some p) (id n)) nes).
  split; [done|]. cbn [heap freed node_list].
  assert (Hle : length_ nl <= length_ (node_list krch)).
  { rewrite (rep_len _ _ _ _ Hr2), (rep_len _ _ _ _ Hn). unfold spec_delete.
    pose proof (List.filter_length_le (fun e => negb (same kr_node_compare (hash_func krch (id n))
      (mkNaddr (Some p) (id n)) e)) nes). lia. }
  split_and!; try done. eapply ch_rep_delete; try done; cbn [node_list vnode_list]; [congruence|lia].
Qed.

(** A node that is in no list can leave the store, or enter it. *)
Lemma ch_rep_heap s krch live ves nes h' f :
  ch_rep s krch live ves nes -> (forall p n, live !! p = Some n -> h' !! p = Some n) ->
  ch_rep (mkState h' (vstore s) (nstore s) f) krch live ves nes.
Proof.
  intros [Hlive ? ? ? ? ? ? ? ?] Hh. constructor; try done. intros p n Hp.
  destruct (Hlive p n Hp) as [_ Hok]. split; [by apply Hh|done].
Qed.

(** ** Lookup *)

Lemma lookup_conhash s krch live ves nes i :
  ch_rep s krch live ves nes -> (String.length i < ID_SIZE)%nat ->
  exists r, kr_conhash_lookup krch i s = Ok (r, s) /\
    match r with
    | Some p => exists n, live !! p = Some n /\ id n = i
    | None => forall p n, live !! p = Some n -> id n <> i
    end.
Proof.
  intros [_ _ _ [qs Hn] _ Hnc _ _ Hnes] Hi. unfold kr_conhash_lookup, copy_id.
  rewrite (proj2 (Nat.ltb_lt _ _) Hi). unfold mbind, M_bind, lift, on_nlist.
  rewrite (skip_lookup_spec _ _ _ _ _ _ ltac:(rewrite Hnc; apply _) Hn), Hnc.
  pose proof (lookup_elem kr_node_compare (hash_func krch i) (mkNaddr None i) nes) as Hl.
  destruct (spec_lookup _ _ _ _) as [a|]; eexists; (split; [by destruct s|]); simpl.
  - destruct Hl as (e & He & Hs & <-). apply same_node in Hs as [_ Hs]. simpl in Hs.
    apply Hnes in He as (p & n & Hp & ->). simpl in *. by exists n.
  - intros p n Hp <-. specialize (Hl (nentry krch (id n) p)).
    rewrite (proj2 (same_node _ _ _)) in Hl by done. discriminate Hl. apply Hnes. by exists p, n.
Qed.

(** ** The calls *)

Abbreviation full s krch ves nes := (ch_rep s krch (heap s) ves nes).

Definition after_free (krch : T_KRConHash) (f : list P) (n : T_KRActualNode (P:=P)) : list P :=
  if free_func krch then f ++ [priv n] else f.

Lemma create_node_conhash s i w pr :
  (String.length i < ID_SIZE)%nat ->
  exists p n, heap s !! p = None /\ kr_conhash_create_node i w pr s =
      Ok (p, mkState (<[p := n]> (heap s)) (vstore s) (nstore s) (freed s)) /\
    id n = i /\ weights n = w /\ priv n = pr /\ length (vnodes n) = Z.to_nat w.
Proof.
  intros Hi. unfold kr_conhash_create_node, copy_id. rewrite (proj2 (Nat.ltb_lt _ _) Hi).
  exists (fresh (dom (heap s))). eexists. split; [apply not_elem_of_dom, is_fresh|].
  split; [done|]. simpl. by rewrite length_replicate.
Qed.

Lemma add_spec random time s krch ves nes i w pr :
  full s krch ves nes -> (forall p n, heap s !! p = Some n -> id n <> i) ->
  (String.length i < ID_SIZE)%nat -> 0 <= w -> length_ (vnode_list krch) + w <= UINT_MAX ->
  length_ (node_list krch) < UINT_MAX ->
  exists s' krch' p n ves' nes', kr_conhash_add random time krch i w pr s = Ok (0, krch', s') /\
    heap s !! p = None /\ heap s' = <[p := n]> (heap s) /\ id n = i /\ weights n = w /\ priv n = pr /\
    freed s' = freed s /\ same_hash krch krch' /\
    (length_ (vnode_list krch') = length_ (vnode_list krch) + w /\
     length_ (node_list krch') = length_ (node_list krch) + 1) /\
    full s' krch' ves' nes' /\ List.filter (not_of p) ves' = ves.
Proof.
  intros Hrep Hfresh Hi Hw Hv Hm. unfold kr_conhash_add. unfold mbind at 1, M_bind at 1.
  destruct (create_node_conhash s i w pr Hi) as (p & n & Hp & -> & Hid & Hwn & Hpr & Hl).
  set (s0 := mkState _ _ _ _).
  assert (Hrep0 : ch_rep s0 krch (heap s) ves nes).
  { apply ch_rep_heap; [done|]. intros q m Hq. by rewrite lookup_insert_ne by congruence. }
  destruct (insert_node_spec random time s0 krch (heap s) ves nes p n Hrep0)
    as (s1 & k1 & n1 & ves1 & nes1 & E & Hh & Hid1 & Hw1 & Hp1 & Hf1 & Hsh & [Hl1 Hl2] & Hr1 & Hfil);
    rewrite ?Hid, ?Hwn; try done; [apply lookup_insert_eq|].
  unfold mbind, M_bind. rewrite E. simpl in Hh. rewrite insert_insert_eq in Hh.
  exists s1, k1, p, n1, ves1, nes1. rewrite Hh. split_and!; try done; congruence.
Qed.

Lemma remove_absent s krch ves nes i :
  full s krch ves nes -> (String.length i < ID_SIZE)%nat ->
  (forall p n, heap s !! p = Some n -> id n <> i) -> kr_conhash_remove krch i s = Ok (-1, krch, s).
Proof.
  intros Hrep Hi Habs. unfold kr_conhash_remove, mbind, M_bind.
  destruct (lookup_conhash _ _ _ _ _ i Hrep Hi) as (r & -> & Hr). destruct r as [p|]; [|done].
  destruct Hr as (n & Hn & Hid). by destruct (Habs p n Hn).
Qed.

Lemma lookup_present s krch ves nes p n :
  full s krch ves nes -> heap s !! p = Some n -> kr_conhash_lookup krch (id n) s = Ok (Some p, s).
Proof.
  intros Hrep Hp. pose proof (ch_live _ _ _ _ _ Hrep p n Hp) as [_ [Hi _ _]].
  destruct (lookup_conhash _ _ _ _ _ (id n) Hrep Hi) as (r & -> & Hr). destruct r as [q|].
  - destruct Hr as (m & Hm & Hid). by rewrite (ch_unique _ _ _ _ _ Hrep q p m n Hm Hp Hid).
  - by destruct (Hr p n Hp).
Qed.

(** A node taken out of the lists and freed. *)
Lemma delete_free_spec s krch live ves nes p n :
  ch_rep s krch live ves nes -> live !! p = Some n ->
  exists s' krch' nes', (krch' ← kr_conhash_delete_node krch p; kr_conhash_free_node krch' p;; mret krch') s
      = Ok (krch', s') /\
    heap s' = delete p (heap s) /\ freed s' = after_free krch (freed s) n /\
    length_ (node_list krch') <= length_ (node_list krch) /\ same_hash krch krch' /\
    ch_rep s' krch' (delete p live) (List.filter (not_of p) ves) nes'.
Proof.
  intros Hrep Hp.
  destruct (delete_node_spec s krch live ves nes p n Hrep Hp)
    as (s1 & k1 & n1 & nes1 & E & Hh & Hpr & Hf & Hle & [Hh1 Hff] & Hr).
  unfold mbind, M_bind. rewrite E. unfold kr_conhash_free_node. rewrite Hh, lookup_insert_eq.
  eexists _, k1, nes1. split; [done|]. cbn [heap freed]. rewrite delete_insert_eq, Hff, Hf, Hpr.
  split_and!; try done. apply ch_rep_heap; [done|]. intros q m [Hqp Hq]%lookup_delete_Some.
  rewrite lookup_delete_ne by done. by apply (ch_live _ _ _ _ _ Hrep).
Qed.

Lemma remove_spec s krch ves nes p n :
  full s krch ves nes -> heap s !! p = Some n ->
  exists s' krch' nes', kr_conhash_remove krch (id n) s = Ok (0, krch', s') /\
    heap s' = delete p (heap s) /\ freed s' = after_free krch (freed s) n /\ same_hash krch krch' /\
    full s' krch' (List.filter (not_of p) ves) nes'.
Proof.
  intros Hrep Hp. unfold kr_conhash_remove. unfold mbind at 1, M_bind at 1.
  rewrite (lookup_present _ _ _ _ _ _ Hrep Hp).
  destruct (delete_free_spec s krch (heap s) ves nes p n Hrep Hp) as (s' & krch' & nes' & E & Hh & Hf & _ & Hsh & Hr).
  exists s', krch', nes'. rewrite Hh. split_and!; try done. unfold mbind, M_bind in *.
  destruct (kr_conhash_delete_node krch p s) as [[k1 s1]|]; [|done].
  destruct (kr_conhash_free_node k1 p s1) as [[[] s2]|]; [|done]. by injection E as -> ->.
Qed.

Lemma adjust_spec random time s krch ves nes p n w :
  full s krch ves nes -> heap s !! p = Some n -> 0 <= w ->
  length_ (vnode_list krch) + w <= UINT_MAX -> length_ (node_list krch) < UINT_MAX ->
  exists s' krch' p' n' ves' nes', kr_conhash_adjust_weights random time krch (id n) w s = Ok (0, krch', s') /\
    heap s !! p' = None /\ heap s' = <[p' := n']> (delete p (heap s)) /\
    id n' = id n /\ weights n' = w /\ priv n' = priv n /\
    freed s' = after_free krch (freed s) n /\ same_hash krch krch' /\
    full s' krch' ves' nes' /\ List.filter (not_of p') ves' = List.filter (not_of p) ves.
Proof.
  intros Hrep Hp Hw Hmax Hnmax. pose proof (ch_live _ _ _ _ _ Hrep p n Hp) as [_ [Hid _ _]].
  unfold kr_conhash_adjust_weights. unfold mbind at 1, M_bind at 1.
  rewrite (lookup_present _ _ _ _ _ _ Hrep Hp). unfold mbind at 1, M_bind at 1. unfold get_node at 1.
  rewrite Hp. unfold mbind at 1, M_bind at 1.
  destruct (create_node_conhash s (id n) w (priv n) Hid) as (p' & n' & Hp' & -> & Hid' & Hw' & Hpr' & Hl').
  set (s0 := mkState _ _ _ _). assert (Hne : p' <> p) by congruence.
  assert (Hrep0 : ch_rep s0 krch (heap s) ves nes).
  { apply ch_rep_heap; [done|]. intros q m Hq. by rewrite lookup_insert_ne by congruence. }
  destruct (delete_free_spec s0 krch (heap s) ves nes p n Hrep0 Hp) as (s1 & k1 & nes1 & E1 & Hh1 & Hf1 & Hle1 & Hsh1 & Hr1).
  simpl in Hh1. rewrite delete_insert_ne in Hh1 by done.
  pose proof (ch_vlist _ _ _ _ _ Hr1) as [ps1 Hv1]. pose proof (ch_nlist _ _ _ _ _ Hr1) as [qs1 Hn1].
  pose proof (ch_vlist _ _ _ _ _ Hrep) as [ps Hv].
  destruct (insert_node_spec random time s1 k1 (delete p (heap s)) (List.filter (not_of p) ves) nes1 p' n' Hr1)
    as (s2 & k2 & n2 & ves2 & nes2 & E2 & Hh2 & Hid2 & Hw2 & Hp2 & Hf2 & Hsh2 & _ & Hr2 & Hfil2);
    rewrite ?Hid', ?Hw'; try done.
  - rewrite Hh1. apply lookup_insert_eq.
  - by rewrite lookup_delete_ne by done.
  - intros q m [Hqp Hq]%lookup_delete_Some Heq. apply Hqp. symmetry. by apply (ch_unique _ _ _ _ _ Hrep q p m n).
  - rewrite (rep_len _ _ _ _ Hv1). rewrite (rep_len _ _ _ _ Hv) in Hmax.
    pose proof (List.filter_length_le (not_of p) ves). lia.
  - lia.
  - rewrite Hh1, insert_insert_eq in Hh2.
    exists s2, k2, p', n2, ves2, nes2. rewrite Hh2, Hf2, Hf1, Hid2, Hw2, Hp2.
    destruct Hsh1 as [? ?], Hsh2 as [? ?]. split_and!; try done; try (split; congruence).
    unfold mbind, M_bind in *. destruct (kr_conhash_delete_node krch p s0) as [[k3 s3]|]; [|done].
    destruct (kr_conhash_free_node k3 p s3) as [[[] s4]|]; [|done]. injection E1 as -> ->. by rewrite E2.
Qed.

(** ** Location *)

Definition owner (krch : T_KRConHash) (ves : list (Z * vaddr)) (object : string) : option ptr :=
  (fun e => v_node e.2) <$> cycle_entry (hash_func krch object) ves.

Lemma kick_rep s krch ves nes p n :
  full s krch ves nes -> heap s !! p = Some n ->
  ch_rep (mkState (<[p := kick n]> (heap s)) (vstore s) (nstore s) (freed s)) krch
    (<[p := kick n]> (heap s)) ves nes.
Proof.
  intros [Hlive Huniq Hv Hn Hvc Hnc Hb Hves Hnes] Hp.
  assert (Hk : forall q m, <[p := kick n]> (heap s) !! q = Some m <->
    exists m', heap s !! q = Some m' /\ m = if decide (q = p) then kick m' else m').
  { intros q m. destruct (decide (q = p)) as [->|Hq].
    - rewrite lookup_insert_eq, Hp. naive_solver.
    - rewrite lookup_insert_ne by done. naive_solver. }
  assert (Hid : forall (q : ptr) (m m' : T_KRActualNode (P:=P)), m = (if decide (q = p) then kick m' else m') -> id m = id m' /\ weights m = weights m').
  { intros q m m' ->. by case_decide. }
  constructor; try done; cbn [heap vstore nstore].
  - intros q m Hq. split; [done|]. apply Hk in Hq as (m' & Hq & ->).
    destruct (Hlive q m' Hq) as [_ [? ? ?]]. case_decide; by constructor.
  - intros q q' m m' (m1 & Hq & Hm)%Hk (m2 & Hq' & Hm')%Hk Heq. apply (Huniq q q' m1 m2); [done..|].
    destruct (Hid _ _ _ Hm), (Hid _ _ _ Hm'). congruence.
  - intros e. rewrite Hves. split.
    + intros (q & m & k & Hq & Hlt & ->).
      destruct (Hid q (if decide (q = p) then kick m else m) m eq_refl) as [Hi Hw]. exists q, (if decide (q = p) then kick m else m), k.
      rewrite Hi, Hw. split_and!; [|done|done]. apply Hk. by exists m.
    + intros (q & m & k & (m' & Hq & Hm)%Hk & Hlt & ->). destruct (Hid _ _ _ Hm) as [Hi Hw].
      exists q, m', k. by rewrite <- Hi, <- Hw.
  - intros e. rewrite Hnes. split.
    + intros (q & m & Hq & ->). destruct (Hid q (if decide (q = p) then kick m else m) m eq_refl) as [Hi Hw].
      exists q, (if decide (q = p) then kick m else m). rewrite Hi. split; [|done]. apply Hk. by exists m.
    + intros (q & m & (m' & Hq & Hm)%Hk & ->). destruct (Hid _ _ _ Hm) as [Hi Hw].
      exists q, m'. by rewrite <- Hi.
Qed.

Lemma locate_heap s krch ves nes object :
  full s krch ves nes ->
  exists s', kr_conhash_locate krch object s = Ok (owner krch ves object, s') /\ full s' krch ves nes /\
    heap s' = match owner krch ves object with Some p => alter kick p (heap s) | None => heap s end /\
    (forall p, owner krch ves object = Some p -> is_Some (heap s !! p)).
Proof.
  intros Hrep. pose proof (ch_vlist _ _ _ _ _ Hrep) as [ps Hv]. unfold kr_conhash_locate, owner.
  unfold mbind at 1, M_bind at 1. unfold on_vlist.
  rewrite (cycle_spec _ _ _ _ _ ltac:(rewrite (ch_vcmp _ _ _ _ _ Hrep); apply _) Hv), cycle_entry_value.
  pose proof (cycle_entry_elem (hash_func krch object) ves) as Hel.
  destruct (cycle_entry (hash_func krch object) ves) as [e|]; simpl.
  - specialize (Hel e eq_refl). apply (ch_ves _ _ _ _ _ Hrep) in Hel as (p & n & k & Hp & _ & ->).
    simpl. unfold mbind, M_bind, get_node, put_node. cbn [heap]. rewrite Hp. cbn [heap]. rewrite Hp.
    eexists. split; [done|]. cbn [heap]. split_and!.
    + apply (kick_rep _ _ _ _ _ _ Hrep Hp).
    + apply map_eq. intros q. destruct (decide (q = p)) as [->|Hq].
      * by rewrite lookup_insert_eq, lookup_alter_eq, Hp.
      * by rewrite lookup_insert_ne, lookup_alter_ne by done.
    + intros q [= <-]. by eexists.
  - exists s. split; [by destruct s|]. by split_and!.
Qed.

Lemma locate_spec s krch ves nes object :
  full s krch ves nes ->
  exists s', kr_conhash_locate krch object s = Ok (owner krch ves object, s') /\
    full s' krch ves nes /\ dom (heap s') = dom (heap s) /\
    (forall p, owner krch ves object = Some p -> p ∈ dom (heap s)).
Proof.
  intros Hrep. destruct (locate_heap s krch ves nes object Hrep) as (s' & E & Hf & Hh & Hp).
  exists s'. split_and!; [done..| |].
  - rewrite Hh. destruct (owner krch ves object) as [p|]; [|done]. apply set_eq. intros q. rewrite !elem_of_dom.
    destruct (decide (q = p)) as [->|Hq]; [|by rewrite lookup_alter_ne by done].
    rewrite lookup_alter_eq. by destruct (heap s !! p).
  - intros p Ho. apply elem_of_dom. by apply Hp.
Qed.

(** A node that leaves moves only its own objects, and one that enters takes objects from
    the others without moving any between them. *)
Lemma owner_delete krch ves p object :
  owner krch ves object <> Some p ->
  owner krch (List.filter (not_of p) ves) object = owner krch ves object.
Proof.
  unfold owner. destruct (cycle_entry (hash_func krch object) ves) as [e|] eqn:E; simpl; intros Hne.
  - rewrite (cycle_entry_filter (not_of p) _ _ _ E); [done|]. unfold not_of.
    rewrite bool_decide_false; [done|]. congruence.
  - assert (ves = []) as ->; [|done]. unfold cycle_entry in E.
    destruct (List.find _ ves); [done|]. by destruct ves.
Qed.

Lemma construct_spec hf ff :
  exists s krch, kr_conhash_construct hf ff (mkState ∅ (mkStore ∅ 0) (mkStore ∅ 0) []) = Ok (krch, s) /\
    full s krch [] [] /\ heap s = ∅ /\ freed s = [].
Proof.
  unfold kr_conhash_construct, mbind, M_bind, on_vlist, on_nlist. cbn [vstore].
  destruct (create_spec kr_vnode_compare) as (vl & vs & -> & Hv & Hvc). cbn [nstore].
  destruct (create_spec kr_node_compare) as (nl & ns & -> & Hn & Hnc). cbn [nstore heap vstore freed].
  eexists _, _. split; [done|]. split; [|done]. constructor; cbn [heap vstore nstore vnode_list node_list]; try done.
  - by exists [].
  - by exists [].
  - by rewrite (rep_len _ _ _ _ Hv), (rep_len _ _ _ _ Hn).
  - intros e. rewrite elem_of_nil. split; [done|]. intros (? & ? & ? & ? & _). set_solver.
  - intros e. rewrite elem_of_nil. split; [done|]. intros (? & ? & ? & _). set_solver.
Qed.

(** ** Histories *)

(** Identifiers are added once, as the header asks, and fit in their array; the lists do
    not outgrow their lengths. *)
Inductive reached (random : Z -> nat -> Z) : state (P:=P) -> T_KRConHash -> Prop :=
  | reached_new hf ff s krch :
      kr_conhash_construct hf ff (mkState ∅ (mkStore ∅ 0) (mkStore ∅ 0) []) = Ok (krch, s) ->
      reached random s krch
  | reached_add time i w pr s krch z s' krch' :
      reached random s krch -> (forall p n, heap s !! p = Some n -> id n <> i) ->
      (String.length i < ID_SIZE)%nat -> 0 <= w -> length_ (vnode_list krch) + w <= UINT_MAX ->
      length_ (node_list krch) < UINT_MAX ->
      kr_conhash_add random time krch i w pr s = Ok (z, krch', s') -> reached random s' krch'
  | reached_remove i s krch z s' krch' :
      reached random s krch -> (String.length i < ID_SIZE)%nat ->
      kr_conhash_remove krch i s = Ok (z, krch', s') -> reached random s' krch'
  | reached_adjust time i w s krch z s' krch' :
      reached random s krch -> (String.length i < ID_SIZE)%nat -> 0 <= w ->
      length_ (vnode_list krch) + w <= UINT_MAX -> length_ (node_list krch) < UINT_MAX ->
      kr_conhash_adjust_weights random time krch i w s = Ok (z, krch', s') -> reached random s' krch'
  | reached_locate object s krch r s' :
      reached random s krch -> kr_conhash_locate krch object s = Ok (r, s') -> reached random s' krch.

Lemma find_id s (i : string) :
  (exists p n, heap s !! p = Some n /\ id n = i) \/ (forall p n, heap s !! p = Some n -> id n <> i).
Proof.
  destruct (decide (Exists (fun q => id q.2 = i) (map_to_list (heap s)))) as [H|H].
  - left. apply Exists_exists in H as ([p n] & Hin & Hid). exists p, n. split; [|done].
    by apply elem_of_map_to_list.
  - right. intros p n Hp Hid. apply H, Exists_exists. exists (p, n). split; [|done].
    by apply elem_of_map_to_list.
Qed.

Lemma adjust_absent random time s krch ves nes i w :
  full s krch ves nes -> (String.length i < ID_SIZE)%nat ->
  (forall p n, heap s !! p = Some n -> id n <> i) ->
  kr_conhash_adjust_weights random time krch i w s = Ok (-1, krch, s).
Proof.
  intros Hrep Hi Habs. unfold kr_conhash_adjust_weights, mbind, M_bind.
  destruct (lookup_conhash _ _ _ _ _ i Hrep Hi) as (r & -> & Hr). destruct r as [p|]; [|done].
  destruct Hr as (n & Hn & Hid). by destruct (Habs p n Hn).
Qed.

Lemma reached_full random s krch : reached random s krch -> exists ves nes, full s krch ves nes.
Proof.
  induction 1 as [hf ff s krch E|time i w pr s krch z s' krch' _ (ves & nes & IH) Hfr Hi Hw Hv Hn E
    |i s krch z s' krch' _ (ves & nes & IH) Hi E|time i w s krch z s' krch' _ (ves & nes & IH) Hi Hw Hv Hn E
    |object s krch r s' _ (ves & nes & IH) E].
  - destruct (construct_spec hf ff) as (s1 & k1 & E1 & Hf & _). rewrite E in E1. injection E1 as -> ->.
    by exists [], [].
  - destruct (add_spec random time s krch ves nes i w pr IH Hfr Hi Hw Hv Hn)
      as (s1 & k1 & p & n & ves1 & nes1 & E1 & _ & _ & _ & _ & _ & _ & _ & _ & Hr & _).
    rewrite E in E1. injection E1 as -> -> ->. by exists ves1, nes1.
  - destruct (find_id s i) as [(p & n & Hp & <-)|Habs].
    + destruct (remove_spec s krch ves nes p n IH Hp) as (s1 & k1 & nes1 & E1 & _ & _ & _ & Hr).
      rewrite E in E1. injection E1 as -> -> ->. by exists (List.filter (not_of p) ves), nes1.
    + rewrite (remove_absent _ _ _ _ _ IH Hi Habs) in E. injection E as <- <- <-. by exists ves, nes.
  - destruct (find_id s i) as [(p & n & Hp & <-)|Habs].
    + destruct (adjust_spec random time s krch ves nes p n w IH Hp Hw Hv Hn)
        as (s1 & k1 & p1 & n1 & ves1 & nes1 & E1 & _ & _ & _ & _ & _ & _ & _ & Hr & _).
      rewrite E in E1. injection E1 as -> -> ->. by exists ves1, nes1.
    + rewrite (adjust_absent _ _ _ _ _ _ _ _ IH Hi Habs) in E. injection E as <- <- <-. by exists ves, nes.
  - destruct (locate_spec s krch ves nes object IH) as (s1 & E1 & Hr & _). rewrite E in E1.
    injection E1 as -> ->. by exists ves, nes.
Qed.

(** * Properties *)

(** Whatever the history of a consistent hash, its ring holds exactly the virtual nodes
    of its nodes, in the order of their hashes and identifiers, and an object belongs to
    the node of the first virtual node at or after its hash, or of the first of all. *)
Theorem kr_conhash_locate_ring random s (krch : T_KRConHash) :
  reached random s krch ->
  exists ves, StronglySorted (entry_lt kr_vnode_compare) ves /\
    (forall e, e ∈ ves <-> exists p n k, heap s !! p = Some n /\ (k < Z.to_nat (weights n))%nat /\
                             e = ventry krch (id n) p k) /\
    forall object, exists s',
      kr_conhash_locate krch object s = Ok (v_node <$> spec_cycle (hash_func krch object) ves, s').
Proof.
  intros Hr. destruct (reached_full _ _ _ Hr) as (ves & nes & Hf). exists ves.
  split; [apply (skip_sorted _ _ _ _ _ Hf)|]. split; [apply (ch_ves _ _ _ _ _ Hf)|]. intros object.
  destruct (locate_spec _ _ _ _ object Hf) as (s' & E & _). exists s'. rewrite E, cycle_entry_value.
  unfold owner. by destruct (cycle_entry _ _).
Qed.

(** C35. Whatever the history of a consistent hash: when a node is removed, only the objects
    it owned move; when a node is added, an object keeps its owner or goes to the new node. *)
Theorem kr_conhash_stable random s (krch : T_KRConHash) :
  reached random s krch ->
  (forall p n, heap s !! p = Some n ->
    exists s' krch', kr_conhash_remove krch (id n) s = Ok (0, krch', s') /\ heap s' = delete p (heap s) /\
      forall object, exists r r' s1 s2, kr_conhash_locate krch object s = Ok (r, s1) /\
        kr_conhash_locate krch' object s' = Ok (r', s2) /\ r' <> Some p /\ (r <> Some p -> r' = r)) /\
  (forall time i w pr, (forall p n, heap s !! p = Some n -> id n <> i) ->
    (String.length i < ID_SIZE)%nat -> 0 <= w -> length_ (vnode_list krch) + w <= UINT_MAX ->
    length_ (node_list krch) < UINT_MAX ->
    exists s' krch' p n, kr_conhash_add random time krch i w pr s = Ok (0, krch', s') /\
      heap s !! p = None /\ heap s' = <[p := n]> (heap s) /\ id n = i /\ weights n = w /\
      forall object, exists r r' s1 s2, kr_conhash_locate krch object s = Ok (r, s1) /\
        kr_conhash_locate krch' object s' = Ok (r', s2) /\ (r' = r \/ r' = Some p)).
Proof.
  intros Hr. destruct (reached_full _ _ _ Hr) as (ves & nes & Hf). split.
  - intros p n Hp. destruct (remove_spec _ _ _ _ _ _ Hf Hp) as (s' & krch' & nes' & E & Hh & _ & [Hhf _] & Hf').
    exists s', krch'. split; [done|]. split; [done|]. intros object.
    destruct (locate_spec _ _ _ _ object Hf) as (s1 & E1 & _).
    destruct (locate_spec _ _ _ _ object Hf') as (s2 & E2 & _ & _ & Hin).
    eexists _, _, s1, s2. split; [done|]. split; [done|]. split.
    + intros Ho. apply Hin in Ho. rewrite Hh, dom_delete_L in Ho. set_solver.
    + intros Hne. unfold owner at 1. rewrite Hhf. by apply owner_delete.
  - intros time i w pr Hfr Hi Hw Hv Hn.
    destruct (add_spec random time _ _ _ _ i w pr Hf Hfr Hi Hw Hv Hn)
      as (s' & krch' & p & n & ves' & nes' & E & Hp & Hh & Hid & Hwn & _ & _ & [Hhf _] & _ & Hf' & <-).
    exists s', krch', p, n. split_and!; try done. intros object.
    destruct (locate_spec _ _ _ _ object Hf) as (s1 & E1 & _).
    destruct (locate_spec _ _ _ _ object Hf') as (s2 & E2 & _).
    eexists _, _, s1, s2. split; [done|]. split; [done|].
    destruct (decide (owner krch' ves' object = Some p)) as [?|Hne]; [by right|left].
    rewrite <- (owner_delete _ _ _ _ Hne). unfold owner. by rewrite Hhf.
Qed.

(** [kr_conhash_adjust_weights] gives the new node the private data of the old one, and
    then frees them with it: after any history, when the hash has a free function, the node
    that takes the place of the old one refers to data that were freed. *)
Theorem kr_conhash_adjust_frees_priv random time s (krch : T_KRConHash) p n w :
  reached random s krch -> heap s !! p = Some n -> free_func krch = true -> 0 <= w ->
  length_ (vnode_list krch) + w <= UINT_MAX -> length_ (node_list krch) < UINT_MAX ->
  exists s' krch' p' n', kr_conhash_adjust_weights random time krch (id n) w s = Ok (0, krch', s') /\
    heap s' = <[p' := n']> (delete p (heap s)) /\ id n' = id n /\ weights n' = w /\
    priv n' = priv n /\ freed s' = freed s ++ [priv n].
Proof.
  intros Hr Hp Hff Hw Hv Hn. destruct (reached_full _ _ _ Hr) as (ves & nes & Hf).
  destruct (adjust_spec random time _ _ _ _ p n w Hf Hp Hw Hv Hn)
    as (s' & krch' & p' & n' & ves' & nes' & E & _ & Hh & Hid & Hwn & Hpr & Hfr & _).
  exists s', krch', p', n'. unfold after_free in Hfr. rewrite Hff in Hfr. by split_and!.
Qed.

End Invariant.

(** Two servers of weights 2 and 1, with the default hash and the numbers of a counter. *)
Definition counter (seed : Z) (n : nat) : Z := seed + Z.of_nat n.

Lemma example_reached :
  exists (s : state (P:=Z)) krch p n, reached counter s krch /\ heap s !! p = Some n /\
    id n = "a"%string /\ weights n = 2 /\ priv n = 10 /\ free_func krch = true /\ freed s = [] /\
    length_ (vnode_list krch) = 3 /\ length_ (node_list krch) = 2.
Proof.
  destruct (construct_spec (P:=Z) None true) as (s0 & k0 & E0 & Hf0 & Hh0 & Hfr0).
  pose proof (ch_vlist _ _ _ _ _ Hf0) as [ps Hv0]. pose proof (ch_nlist _ _ _ _ _ Hf0) as [qs Hn0].
  apply rep_len in Hv0, Hn0. simpl in Hv0, Hn0. assert (Hff0 : free_func k0 = true).
  { unfold kr_conhash_construct, mbind, M_bind, on_vlist, on_nlist in E0.
    destruct (kr_skiplist_create kr_vnode_compare _) as [[? ?]|]; [|done].
    destruct (kr_skiplist_create kr_node_compare _) as [[? ?]|]; [|done]. by injection E0 as <- <-. }
  destruct (add_spec counter 0 s0 k0 [] [] "a" 2 10 Hf0)
    as (s1 & k1 & p & n & ves & nes & E1 & Hp & Hh1 & Hid & Hw & Hpr & Hfr1 & [_ Hff1] & [Hl1 Hl2] & Hf1 & _);
    [rewrite Hh0; intros ? ?; by rewrite lookup_empty|apply Nat.ltb_lt; reflexivity|lia|rewrite Hv0; done|rewrite Hn0; done|].
  assert (Hfresh : forall q m, heap s1 !! q = Some m -> id m <> "b"%string).
  { intros q m. rewrite Hh1, Hh0, insert_empty. intros [<- <-]%lookup_singleton_Some. by rewrite Hid. }
  destruct (add_spec counter 0 s1 k1 ves nes "b" 1 20 Hf1 Hfresh)
    as (s2 & k2 & p2 & n2 & ves2 & nes2 & E2 & Hp2 & Hh2 & _ & _ & _ & Hfr2 & [_ Hff2] & [Hl3 Hl4] & _);
    [apply Nat.ltb_lt; reflexivity|lia|rewrite Hl1, Hv0; done|rewrite Hl2, Hn0; done|].
  assert (Hr2 : reached counter s2 k2).
  { eapply (reached_add _ 0 "b" 1 20 s1 k1); [|exact Hfresh|apply Nat.ltb_lt; reflexivity|lia| | |exact E2].
    - eapply (reached_add _ 0 "a" 2 10 s0 k0); [by eapply reached_new, E0| |apply Nat.ltb_lt; reflexivity|lia| | |exact E1].
      + rewrite Hh0. intros ? ?. by rewrite lookup_empty.
      + by rewrite Hv0.
      + by rewrite Hn0.
    - by rewrite Hl1, Hv0.
    - by rewrite Hl2, Hn0. }
  assert (Hpn : heap s2 !! p = Some n).
  { rewrite Hh2, Hh1, lookup_insert_ne; [apply lookup_insert_eq|]. intros ->.
    rewrite Hh1, lookup_insert_eq in Hp2. discriminate Hp2. }
  exists s2, k2, p, n. split; [exact Hr2|]. split; [exact Hpn|].
  rewrite Hid, Hw, Hpr, Hff2, Hff1, Hfr2, Hfr1, Hfr0, Hl3, Hl1, Hl4, Hl2, Hv0, Hn0. by split_and!.
Qed.

Lemma kr_conhash_locate_ring_witness :
  exists (s : state (P:=Z)) krch, reached counter s krch /\ length_ (vnode_list krch) = 3 /\
    exists ves, StronglySorted (entry_lt kr_vnode_compare) ves /\
      (forall e, e ∈ ves <-> exists p n k, heap s !! p = Some n /\ (k < Z.to_nat (weights n))%nat /\
                               e = ventry krch (id n) p k) /\
      forall object, exists s',
        kr_conhash_locate krch object s = Ok (v_node <$> spec_cycle (hash_func krch object) ves, s').
Proof.
  destruct example_reached as (s & krch & p & n & Hr & _ & _ & _ & _ & _ & _ & Hl & _).
  exists s, krch. split; [exact Hr|]. split; [exact Hl|]. apply (kr_conhash_locate_ring counter s krch Hr).
Defined.

Lemma kr_conhash_stable_witness :
  exists (s : state (P:=Z)) krch p n s' krch', reached counter s krch /\ heap s !! p = Some n /\
    kr_conhash_remove krch "a" s = Ok (0, krch', s') /\ heap s' = delete p (heap s) /\
    forall object, exists r r' s1 s2, kr_conhash_locate krch object s = Ok (r, s1) /\
      kr_conhash_locate krch' object s' = Ok (r', s2) /\ r' <> Some p /\ (r <> Some p -> r' = r).
Proof.
  destruct example_reached as (s & krch & p & n & Hr & Hp & Hid & _).
  destruct (kr_conhash_stable counter s krch Hr) as [Hrem _].
  destruct (Hrem p n Hp) as (s' & krch' & E & H). rewrite Hid in E.
  exists s, krch, p, n, s', krch'. split; [exact Hr|]. split; [exact Hp|]. split; [exact E|exact H].
Defined.

Lemma kr_conhash_adjust_frees_priv_witness :
  exists (s : state (P:=Z)) krch s' krch' p' n', reached counter s krch /\
    kr_conhash_adjust_weights counter 0 krch "a" 5 s = Ok (0, krch', s') /\
    heap s' !! p' = Some n' /\ priv n' = 10 /\ freed s' = [10].
Proof.
  destruct example_reached as (s & krch & p & n & Hr & Hp & Hid & Hw & Hpr & Hff & Hfr & Hl1 & Hl2).
  destruct (kr_conhash_adjust_frees_priv counter 0 s krch p n 5 Hr Hp Hff)
    as (s' & krch' & p' & n' & E & Hh & _ & _ & Hpr' & Hfr'); [done|rewrite Hl1; done|rewrite Hl2; done|].
  exists s, krch, s', krch', p', n'. rewrite <- Hid. split; [exact Hr|]. split; [exact E|].
  rewrite Hh, lookup_insert_eq, Hpr', Hfr', Hfr, Hpr. by split_and!.
Defined.
