(* ===== verification/KrCoordi.v ===== *)
(** The coordinator (krcoordi/kr_coordi_handle.c, kr_coordi.c, kr_coordi_config.c).

    Servers and clients come online over their connections; an event of a client goes to
    the server that consistent hashing finds for its identifier, and the replies go back.
    The state is the global [krcoordi] with the memory it reaches: the connectors, and the
    stores of the consistent hash (KrConhash) and of the list (KrList).  A key of the table
    of descriptors is an address, of the [fd] of a connector or of a local variable; it
    carries the descriptor that is found there, which is never written again, and comparing
    it once the connector is freed is a fault.  A value of the list of clients is the
    address of a connector with its identifier, which the list compares.

    A descriptor that is open is a socket with the scripts of its reads and writes; what the
    event loop reports is an argument. *)

From S2P Require Import Prelude KrString KrList KrHashtable KrTypes KrHashset KrJson KrProtocol KrServer KrShell KrMessage KrSkiplist KrConhash.
From Stdlib Require Import Ascii String.
Local Open Scope Z_scope.
#[local] Notation length := List.length.

(** * Data *)

Inductive E_KRCoordiRole := KR_COORDI_SERVER | KR_COORDI_CLIENT.

Record T_KRCoordiConnector := mkConnector {
  c_fd : Z;
  role : E_KRCoordiRole;
  c_id : string;
  ip : string;
  aplnum : Z;
  rplnum : Z;
  errnum : Z;
  c_weights : Z;
  replica : Z
}.

Record client_ref := mkClientRef { cl_conn : option ptr; cl_id : string }.
#[export] Instance client_ref_eq : EqDecision client_ref.
Proof. solve_decision. Defined.
Record fd_key := mkFdKey { k_conn : option ptr; k_fd : Z }.
#[export] Instance fd_key_eq : EqDecision fd_key.
Proof. solve_decision. Defined.

Record T_KRCoordi := mkCoordi {
  servers : T_KRConHash;
  clients : KrList.T_KRList (V:=client_ref) (U:=unit);
  fdtable : T_KRHashTable (K:=fd_key) (V:=ptr);
  conns : gmap ptr T_KRCoordiConnector;
  hash_mem : KrConhash.state (P:=ptr);
  list_mem : KrList.store (V:=client_ref);
  socks : gmap Z socket
}.

(** [++aplnum] and the like. *)
Definition count_apply (c : T_KRCoordiConnector) : T_KRCoordiConnector :=
  mkConnector (c_fd c) (role c) (c_id c) (ip c) (u32 (aplnum c + 1)) (rplnum c) (errnum c) (c_weights c) (replica c).
Definition count_reply (c : T_KRCoordiConnector) : T_KRCoordiConnector :=
  mkConnector (c_fd c) (role c) (c_id c) (ip c) (aplnum c) (u32 (rplnum c + 1)) (errnum c) (c_weights c) (replica c).
Definition count_error (c : T_KRCoordiConnector) : T_KRCoordiConnector :=
  mkConnector (c_fd c) (role c) (c_id c) (ip c) (aplnum c) (rplnum c) (u32 (errnum c + 1)) (c_weights c) (replica c).

(** ** Access to the state *)

Definition with_conns (c : gmap ptr T_KRCoordiConnector) (s : T_KRCoordi) : T_KRCoordi :=
  mkCoordi (servers s) (clients s) (fdtable s) c (hash_mem s) (list_mem s) (socks s).
Definition with_socks (k : gmap Z socket) (s : T_KRCoordi) : T_KRCoordi :=
  mkCoordi (servers s) (clients s) (fdtable s) (conns s) (hash_mem s) (list_mem s) k.
Definition with_fdtable (t : T_KRHashTable) (s : T_KRCoordi) : T_KRCoordi :=
  mkCoordi (servers s) (clients s) t (conns s) (hash_mem s) (list_mem s) (socks s).

Definition get_conn (p : ptr) : M T_KRCoordi T_KRCoordiConnector := fun s =>
  match conns s !! p with Some c => Ok (c, s) | None => Fault BadPointer end.
Definition put_conn (p : ptr) (c : T_KRCoordiConnector) : M T_KRCoordi unit := fun s =>
  match conns s !! p with Some _ => Ok (tt, with_conns (<[p := c]> (conns s)) s) | None => Fault BadPointer end.
Definition alloc_conn (c : T_KRCoordiConnector) : M T_KRCoordi ptr := fun s =>
  let p := fresh (dom (conns s)) in Ok (p, with_conns (<[p := c]> (conns s)) s).
Definition free_conn (p : ptr) : M T_KRCoordi unit := fun s =>
  match conns s !! p with Some _ => Ok (tt, with_conns (delete p (conns s)) s) | None => Fault BadPointer end.

Definition on_servers {A} (f : T_KRConHash -> M (KrConhash.state (P:=ptr)) A) : M T_KRCoordi A := fun s =>
  match f (servers s) (hash_mem s) with
  | Ok (a, h) => Ok (a, mkCoordi (servers s) (clients s) (fdtable s) (conns s) h (list_mem s) (socks s))
  | Fault e => Fault e
  end.
Definition set_servers (krch : T_KRConHash) : M T_KRCoordi unit := fun s =>
  Ok (tt, mkCoordi krch (clients s) (fdtable s) (conns s) (hash_mem s) (list_mem s) (socks s)).
Definition on_clients {A} (f : KrList.T_KRList -> M (KrList.store (V:=client_ref)) A) : M T_KRCoordi A := fun s =>
  match f (clients s) (list_mem s) with
  | Ok (a, m) => Ok (a, mkCoordi (servers s) (clients s) (fdtable s) (conns s) (hash_mem s) m (socks s))
  | Fault e => Fault e
  end.
Definition set_clients (l : KrList.T_KRList) : M T_KRCoordi unit := fun s =>
  Ok (tt, mkCoordi (servers s) l (fdtable s) (conns s) (hash_mem s) (list_mem s) (socks s)).

(** ** The table of descriptors *)

Definition fd_hash (k : fd_key) : Z := kr_int_hash (k_fd k).
Definition fd_equal (a b : fd_key) : bool := kr_int_equal (k_fd a) (k_fd b).

(** A search compares its key with the keys of the same hash that it meets; descriptors of
    connections have the same hash when they are the same. *)
Definition dangling (s : T_KRCoordi) (nd : T_KRHashNode (K:=fd_key) (V:=ptr)) : bool :=
  match KrHashtable.key nd with
  | Some (mkFdKey (Some p) _) => bool_decide (conns s !! p = None)
  | _ => false
  end.
Definition compares_freed (s : T_KRCoordi) (k : fd_key) : bool :=
  existsb (fun nd => (KrHashtable.key_hash nd =? hash_value fd_hash k) && dangling s nd) (KrHashtable.nodes (fdtable s)).

Definition on_fdtable {A} (k : fd_key) (f : T_KRHashTable -> res (A * T_KRHashTable)) : M T_KRCoordi A := fun s =>
  if compares_freed s k then Fault BadPointer
  else match f (fdtable s) with Ok (a, t) => Ok (a, with_fdtable t s) | Fault e => Fault e end.
Definition fd_lookup (fd : Z) : M T_KRCoordi (option ptr) :=
  let k := mkFdKey None fd in
  on_fdtable k (fun t => p ← kr_hashtable_lookup fd_hash (Some fd_equal) (Some t) k; Ok (p, t)).
Definition fd_replace (p : ptr) (fd : Z) : M T_KRCoordi unit :=
  let k := mkFdKey (Some p) fd in
  on_fdtable k (fun t => '(t, _) ← kr_hashtable_replace fd_hash (Some fd_equal) t k (Some p); Ok (tt, t)).
Definition fd_remove (fd : Z) : M T_KRCoordi unit :=
  let k := mkFdKey None fd in
  on_fdtable k (fun t => '(_, t, _) ← kr_hashtable_remove fd_hash (Some fd_equal) (Some t) k;
                         t ← of_option NullDeref t; Ok (tt, t)).

(** ** Sockets *)

(** [kr_event_file_delete] and [close]. *)
Definition close_fd (fd : Z) : M T_KRCoordi unit := fun s => Ok (tt, with_socks (delete fd (socks s)) s).

(** A descriptor that is closed cannot be written: [write] is an error. *)
Definition write_message (fd : Z) (krmsg : T_KRMessage) (k : gmap Z socket) : res (Z * T_KRMessage * gmap Z socket) :=
  match k !! fd with
  | Some x => '(n, m, x) ← kr_message_write x krmsg; Ok (n, m, <[fd := x]> k)
  | None => Ok (-1, (kr_message_head_dump krmsg).1, k)
  end.

(** * Handlers *)

Section Handlers.
(** The random numbers and the clock of the skip lists, and the address of a peer. *)
Context (random : Z -> nat -> Z) (time : Z) (peer : Z -> string).

Definition kr_coordi_handle_svron (fd : Z) (krmsg : T_KRMessage) : M T_KRCoordi Z :=
  apply_json ← lift (cJSON_Parse (msgbuf krmsg));
  match apply_json with
  | None => mret (-1)
  | Some apply_json =>
      weights ← lift (d_to_i32 (cJSON_GetNumber apply_json "weights"));
      if weights <=? 0 then mret (-1)
      else
        replica ← lift (d_to_i32 (cJSON_GetNumber apply_json "replica"));
        if replica <=? 0 then mret (-1)
        else
          node ← on_servers (fun krch => kr_conhash_lookup krch (c_text (serverid krmsg)));
          match node with
          | Some _ => mret 0
          | None =>
              let id := c_text (serverid krmsg) in
              ptServer ← alloc_conn (mkConnector fd KR_COORDI_SERVER id (peer fd) 0 0 0 weights replica);
              r ← on_servers (fun krch => kr_conhash_add random time krch id weights ptServer);
              set_servers r.2;;
              fd_replace ptServer fd;;
              mret 0
          end
  end.

Definition kr_coordi_handle_svroff (fd : Z) (krmsg : T_KRMessage) : M T_KRCoordi Z :=
  node ← on_servers (fun krch => kr_conhash_lookup krch (c_text (serverid krmsg)));
  match node with
  | None => mret 0
  | Some node =>
      fd_remove fd;;
      n ← on_servers (fun _ => KrConhash.get_node node);
      let ptServer := priv n in
      c ← get_conn ptServer;
      r ← on_servers (fun krch => kr_conhash_remove krch (c_id c));
      set_servers r.2;;
      close_fd fd;;
      free_conn ptServer;;
      mret 0
  end.

(** The client with an identifier. *)
Definition search_client (i : string) : M T_KRCoordi (option ptr) :=
  node ← on_clients (fun l => kr_list_search l (mkClientRef None i));
  match node with
  | None => mret None
  | Some node =>
      n ← on_clients (fun _ => KrList.read_node (Some node));
      p ← lift (of_option NullDeref (cl_conn (KrList.value n)));
      mret (Some p)
  end.

Definition kr_coordi_handle_clion (fd : Z) (krmsg : T_KRMessage) : M T_KRCoordi Z :=
  node ← on_clients (fun l => kr_list_search l (mkClientRef None (c_text (clientid krmsg))));
  match node with
  | Some _ => mret 0
  | None =>
      let id := c_text (clientid krmsg) in
      ptClient ← alloc_conn (mkConnector fd KR_COORDI_CLIENT id (peer fd) 0 0 0 0 0);
      l ← on_clients (fun l => kr_list_add_tail l (mkClientRef (Some ptClient) id));
      set_clients l;;
      fd_replace ptClient fd;;
      mret 0
  end.

Definition kr_coordi_handle_clioff (fd : Z) (krmsg : T_KRMessage) : M T_KRCoordi Z :=
  node ← search_client (c_text (clientid krmsg));
  match node with
  | None => mret 0
  | Some ptClient =>
      c ← get_conn ptClient;
      l ← on_clients (fun l => kr_list_remove l (mkClientRef None (c_id c)));
      set_clients l;;
      fd_remove fd;;
      close_fd fd;;
      free_conn ptClient;;
      mret 0
  end.

(** The callback of [kr_conhash_foreach_node], on the connectors, the sockets and the
    message, whose empty names are dashed when it is written. *)
Definition kr_coordi_send_to_server (h : gmap ptr (T_KRActualNode (P:=ptr))) (a : option naddr)
    (acc : res (gmap ptr T_KRCoordiConnector * gmap Z socket * T_KRMessage)) :
    res (gmap ptr T_KRCoordiConnector * gmap Z socket * T_KRMessage) :=
  '(cs, k, krmsg) ← acc;
  a ← of_option NullDeref (a ≫= n_node);
  n ← of_option BadPointer (h !! a);
  ptServer ← of_option BadPointer (cs !! priv n);
  if negb (replica ptServer =? 0) || String.eqb (c_id ptServer) (c_text (serverid krmsg)) then
    '(nLen, krmsg, k) ← write_message (c_fd ptServer) krmsg k;
    if nLen <=? 0 then Ok (<[priv n := count_error ptServer]> cs, k, krmsg)
    else Ok (cs, k, krmsg)
  else Ok (cs, k, krmsg).

Definition update_conn (p : ptr) (f : T_KRCoordiConnector -> T_KRCoordiConnector) : M T_KRCoordi T_KRCoordiConnector :=
  c ← get_conn p; put_conn p (f c);; mret c.

Definition with_serverid (l : list Z) (m : T_KRMessage) : T_KRMessage :=
  mkMessage (fd m) (msgtype m) (msgid m) l (clientid m) (datasrc m) (msglen m) (msgbuf m).

(** [kr_conhash_foreach_node] with [kr_coordi_send_to_server]. *)
Definition send_to_all (krmsg : T_KRMessage) : M T_KRCoordi unit := fun s =>
  match kr_conhash_foreach_node (servers s) (kr_coordi_send_to_server (heap (hash_mem s)))
          (Ok (conns s, socks s, krmsg)) (hash_mem s) with
  | Ok (Ok (cs, k, _), _) => Ok (tt, with_socks k (with_conns cs s))
  | Ok (Fault e, _) | Fault e => Fault e
  end.

(** The server that the message names, or else the one the ring has for its identifier. *)
Definition find_server (krmsg : T_KRMessage) : M T_KRCoordi (option ptr) :=
  first ← lift (of_option OutOfBounds (serverid krmsg !! 0%nat));
  server ← (if negb (first =? 0) then on_servers (fun krch => kr_conhash_lookup krch (c_text (serverid krmsg))) else mret None);
  match server with
  | Some p => mret (Some p)
  | None => on_servers (fun krch => kr_conhash_locate krch (c_text (msgid krmsg)))
  end.

Definition kr_coordi_handle_apply (fd : Z) (krmsg : T_KRMessage) : M T_KRCoordi Z :=
  node ← search_client (c_text (clientid krmsg));
  match node with
  | None => mret (-1)
  | Some ptClient =>
      update_conn ptClient count_apply;;
      server ← find_server krmsg;
      match server with
      | None => mret (-1)
      | Some server =>
          n ← on_servers (fun _ => KrConhash.get_node server);
          c ← get_conn (priv n);
          sid ← lift (strcpy (serverid krmsg) (c_id c));
          update_conn (priv n) count_apply;;
          send_to_all (with_serverid sid krmsg);;
          mret 0
      end
  end.

Definition kr_coordi_handle_reply (fd : Z) (krmsg : T_KRMessage) : M T_KRCoordi Z :=
  server ← on_servers (fun krch => kr_conhash_lookup krch (c_text (serverid krmsg)));
  match server with
  | None => mret (-1)
  | Some server =>
      n ← on_servers (fun _ => KrConhash.get_node server);
      update_conn (priv n) count_reply;;
      node ← search_client (c_text (clientid krmsg));
      match node with
      | None => mret (-1)
      | Some ptClient =>
          c ← get_conn ptClient;
          w ← (fun s => match write_message (c_fd c) krmsg (socks s) with
                        | Ok (n, _, k) => Ok (n, with_socks k s)
                        | Fault e => Fault e
                        end);
          if w <=? 0 then update_conn ptClient count_error;; mret (-1)
          else update_conn ptClient count_reply;; mret 0
      end
  end.

Definition kr_coordi_handle_message (fd : Z) (krmsg : T_KRMessage) : M T_KRCoordi Z :=
  let t := msgtype krmsg in
  if t =? KR_MSGTYPE_SVRON then kr_coordi_handle_svron fd krmsg
  else if t =? KR_MSGTYPE_SVROFF then kr_coordi_handle_svroff fd krmsg
  else if t =? KR_MSGTYPE_CLION then kr_coordi_handle_clion fd krmsg
  else if t =? KR_MSGTYPE_CLIOFF then kr_coordi_handle_clioff fd krmsg
  else if (t =? KR_MSGTYPE_INSERT_EVENT) || (t =? KR_MSGTYPE_DETECT_EVENT) then kr_coordi_handle_apply fd krmsg
  else if (t =? KR_MSGTYPE_SUCCESS) || (t =? KR_MSGTYPE_ERROR) then kr_coordi_handle_reply fd krmsg
  else mret (-1).

(** The message that stands for the end of a connection. *)
Definition offline (c : T_KRCoordiConnector) : res T_KRMessage :=
  let m := kr_message_alloc in
  match role c with
  | KR_COORDI_SERVER =>
      i ← strcpy (serverid m) (c_id c);
      Ok (mkMessage 0 KR_MSGTYPE_SVROFF (msgid m) i (clientid m) 0 0 None)
  | KR_COORDI_CLIENT =>
      i ← strcpy (clientid m) (c_id c);
      Ok (mkMessage 0 KR_MSGTYPE_CLIOFF (msgid m) (serverid m) i 0 0 None)
  end.

Definition kr_coordi_read_handler (fd : Z) : M T_KRCoordi unit :=
  m ← (fun s => match socks s !! fd with
                | None => Fault BadPointer
                | Some x => match kr_message_read fd x with
                            | Ok (m, x) => Ok (m, with_socks (<[fd := x]> (socks s)) s)
                            | Fault e => Fault e
                            end
                end);
  match m with
  | Some m => kr_coordi_handle_message fd m;; mret tt
  | None =>
      ptConn ← fd_lookup fd;
      match ptConn with
      | None => close_fd fd
      | Some ptConn =>
          c ← get_conn ptConn;
          m ← lift (offline c);
          kr_coordi_handle_message fd m;; mret tt
      end
  end.

(** The connection that was accepted, and whether the event loop takes its descriptor. *)
Definition kr_coordi_tcp_accept_handler (cfd : option (Z * socket)) (created : bool) : M T_KRCoordi unit := fun s =>
  match cfd with
  | Some (fd, x) => if created then Ok (tt, with_socks (<[fd := x]> (socks s)) s) else Ok (tt, s)
  | None => Ok (tt, s)
  end.

End Handlers.

(** * Start and end (kr_coordi.c) *)

Definition kr_coordi_client_match (v key : client_ref) : bool := String.eqb (cl_id v) (cl_id key).

Definition kr_coordi_initialize : res T_KRCoordi :=
  t ← kr_hashtable_new;
  r ← kr_conhash_construct None false (KrConhash.mkState ∅ (KrSkiplist.mkStore ∅ 0) (KrSkiplist.mkStore ∅ 0) []);
  let l := kr_list_new (V:=client_ref) (U:=unit) in
  let l := KrList.mkList (KrList.head l) (KrList.tail l) (KrList.dup l) (has_free l) (Some kr_coordi_client_match)
             (KrList.compare l) (KrList.len l) in
  Ok (mkCoordi r.1 l t ∅ r.2 (KrList.mkStore ∅ []) ∅).

(** The connectors are not released. *)
Definition kr_coordi_finalize : M T_KRCoordi unit :=
  (fun s => _ ← kr_hashtable_destroy (fdtable s); Ok (tt, s));;
  on_servers kr_conhash_destruct;;
  on_clients kr_list_destroy.

(** * The configuration (kr_coordi_config.c)

    The contents of the file are an argument, [None] when it cannot be opened. *)

Record coordi_config := mkConfig {
  coordiid : option string; daemonize : Z; pidfile : option string; maxevents : Z;
  tcpbindaddr : option string; tcpport : Z; logpath : option string; logname : option string; loglevel : Z
}.
Definition kr_coordi_config_parse (getenv : string -> option string) (data : option string) (krcoordi : coordi_config)
    : res (Z * coordi_config) :=
  match data with
  | None => Ok (-1, krcoordi)
  | Some data =>
      krjson ← cJSON_Parse (Some (c_memory data));
      match krjson with
      | None => Ok (-1, krcoordi)
      | Some krjson =>
          match cJSON_GetObjectItem krjson "coordi" with
          | None => Ok (-1, krcoordi)
          | Some coordi =>
              let string_of name := kr_string_dupenv getenv (cJSON_GetString coordi name) in
              let int_of name := d_to_i32 (cJSON_GetNumber coordi name) in
              coordiid ← string_of "COORDIID"%string;
              daemonize ← int_of "DAEMONIZE"%string;
              pidfile ← string_of "PIDFILE"%string;
              maxevents ← int_of "MAXEVENTS"%string;
              tcpbindaddr ← string_of "TCPBINDADDR"%string;
              tcpport ← int_of "TCPPORT"%string;
              logpath ← string_of "LOGPATH"%string;
              logname ← string_of "LOGNAME"%string;
              loglevel ← int_of "LOGLEVEL"%string;
              Ok (0, mkConfig coordiid daemonize pidfile maxevents tcpbindaddr tcpport logpath logname loglevel)
          end
      end
  end.

(** * The connectors, and what refers to them *)

Section Coordi.
Context (random : Z -> nat -> Z) (time : Z) (peer : Z -> string).

#[local] Instance fd_keys : HashKeys fd_hash (Some fd_equal) k_fd.
Proof.
  split.
  - intros a b. unfold fd_equal, kr_int_equal. destruct (Z.eqb_spec (k_fd a) (k_fd b)); by case_bool_decide.
  - intros a b E. unfold fd_hash. by rewrite E.
Qed.
Abbreviation fd_map := (gmap Z (fd_key * option ptr)).
Implicit Types (s : T_KRCoordi) (fm : fd_map) (ps : list (ptr * client_ref)).
Abbreviation fd_rep := (hashtable_rep fd_hash k_fd).

(** ** The table of descriptors *)

Definition keys_live (cs : gmap ptr T_KRCoordiConnector) fm : Prop :=
  forall fd k v, fm !! fd = Some (k, v) -> exists p, k_conn k = Some p /\ is_Some (cs !! p).

Lemma compares_live s fm k : fd_rep (fdtable s) fm -> keys_live (conns s) fm -> compares_freed s k = false.
Proof.
  intros (n & [_ Hok _ _ _] & _) Hlive. unfold compares_freed. apply not_true_iff_false. intros H.
  apply existsb_exists in H as (nd & Hin & [Hh Hd]%andb_true_iff). apply Z.eqb_eq in Hh.
  apply list_elem_of_In, list_elem_of_lookup in Hin as [i Hi].
  destruct (no_live _ _ _ _ _ Hok i nd Hi (live_hv _ _ _ Hh)) as (k' & Hk & _ & Hm & _).
  unfold dangling in Hd. rewrite Hk in Hd. destruct (Hlive _ _ _ Hm) as (p & Hp & Hsome).
  destruct k' as [[q|] fd']; [|done]. injection Hp as ->. apply bool_decide_eq_true in Hd. rewrite Hd in Hsome. by destruct Hsome.
Qed.

Lemma with_fdtable_same s : with_fdtable (fdtable s) s = s.
Proof. by destruct s. Qed.

Lemma fd_lookup_spec s fm fd : fd_rep (fdtable s) fm -> keys_live (conns s) fm ->
  fd_lookup fd s = Ok (fm !! fd ≫= snd, s).
Proof.
  intros Hr Hl. unfold fd_lookup, on_fdtable. rewrite (compares_live s fm) by done.
  rewrite (lookup_spec _ _ _ _ _ (mkFdKey None fd) Hr). cbn. by rewrite with_fdtable_same.
Qed.
Lemma fd_replace_spec s fm p fd : fd_rep (fdtable s) fm -> keys_live (conns s) fm ->
  Z.of_nat (base.size fm) < MAX_ENTRIES ->
  exists t, fd_replace p fd s = Ok (tt, with_fdtable t s) /\ fd_rep t (<[fd := (mkFdKey (Some p) fd, Some p)]> fm).
Proof.
  intros Hr Hl Hs. unfold fd_replace, on_fdtable. rewrite (compares_live s fm) by done.
  destruct (insert_internal_spec fd_hash (Some fd_equal) k_fd (fdtable s) fm (mkFdKey (Some p) fd) (Some p) true Hr Hs)
    as (t & E & Hr' & _).
  unfold kr_hashtable_replace. rewrite E. cbn. exists t. split; [done|]. cbn in Hr'.
  by destruct (fm !! fd) as [[? ?]|].
Qed.
Lemma fd_remove_spec s fm fd : fd_rep (fdtable s) fm -> keys_live (conns s) fm ->
  exists t, fd_remove fd s = Ok (tt, with_fdtable t s) /\ fd_rep t (delete fd fm).
Proof.
  intros Hr Hl. unfold fd_remove, on_fdtable. rewrite (compares_live s fm) by done.
  destruct (remove_internal_spec fd_hash (Some fd_equal) k_fd (fdtable s) fm (mkFdKey None fd) true Hr) as (t & E & Hr' & _).
  unfold kr_hashtable_remove. rewrite E. cbn. by exists t.
Qed.

(** ** The invariant

    The consistent hash, the list and the table hold what they should, each connector once:
    a server is a node of the hash with its identifier, a client an entry of the list; the
    table leads from an open descriptor to its connector, and no name is used twice. *)
Record coordi_rep s (ves : list (Z * vaddr)) (nes : list (Z * naddr)) ps fm : Prop := {
  cr_hash : ch_rep (hash_mem s) (servers s) (heap (hash_mem s)) ves nes;
  cr_list : list_rep (list_mem s) (clients s) ps;
  cr_match : match_ (clients s) = Some kr_coordi_client_match;
  cr_names : NoDup (map (fun r => cl_id r.2) ps);
  cr_fds : fd_rep (fdtable s) fm;
  cr_fm : forall fd k v, fm !! fd = Some (k, v) ->
    exists p c, k = mkFdKey (Some p) fd /\ v = Some p /\ conns s !! p = Some c /\ c_fd c = fd;
  cr_conns : forall p c, conns s !! p = Some c ->
    is_Some (fm !! c_fd c) /\ is_Some (socks s !! c_fd c) /\ name_ok 26 (c_id c);
  cr_unique : forall p p' c c', conns s !! p = Some c -> conns s !! p' = Some c' -> c_fd c = c_fd c' -> p = p';
  cr_nodes : forall a n, heap (hash_mem s) !! a = Some n ->
    exists c, conns s !! priv n = Some c /\ role c = KR_COORDI_SERVER /\ c_id c = KrConhash.id n /\ 0 < replica c;
  cr_servers : forall p c, conns s !! p = Some c -> role c = KR_COORDI_SERVER ->
    exists a n, heap (hash_mem s) !! a = Some n /\ priv n = p;
  cr_refs : forall q r, (q, r) ∈ ps ->
    exists p c, cl_conn r = Some p /\ conns s !! p = Some c /\ role c = KR_COORDI_CLIENT /\ c_id c = cl_id r;
  cr_clients : forall p c, conns s !! p = Some c -> role c = KR_COORDI_CLIENT ->
    exists q r, (q, r) ∈ ps /\ cl_conn r = Some p
}.
Definition coordi_ok s : Prop := exists ves nes ps fm, coordi_rep s ves nes ps fm.

Lemma rep_live s ves nes ps fm : coordi_rep s ves nes ps fm -> keys_live (conns s) fm.
Proof. intros Hr fd k v Hk. destruct (cr_fm _ _ _ _ _ Hr _ _ _ Hk) as (p & c & -> & _ & Hp & _). exists p. by rewrite Hp. Qed.

(** A connector that changes nothing but its counters. *)
Definition same_conn (c c' : T_KRCoordiConnector) : Prop :=
  c_fd c' = c_fd c /\ role c' = role c /\ c_id c' = c_id c /\ replica c' = replica c.

Lemma rep_update s ves nes ps fm cs k :
  coordi_rep s ves nes ps fm ->
  (forall p c', cs !! p = Some c' -> exists c, conns s !! p = Some c /\ same_conn c c') ->
  (forall p c, conns s !! p = Some c -> exists c', cs !! p = Some c' /\ same_conn c c') ->
  (forall fd, is_Some (socks s !! fd) -> is_Some (k !! fd)) ->
  coordi_rep (with_socks k (with_conns cs s)) ves nes ps fm.
Proof.
  intros Hr Hback Hfwd Hk. destruct Hr as [H1 H2 H3 H4 H5 H6 H7 H8 H9 H10 H11 H12].
  constructor; cbn; try done.
  - intros fd key v Hm. destruct (H6 _ _ _ Hm) as (p & c & -> & -> & Hp & Hf).
    destruct (Hfwd _ _ Hp) as (c' & Hp' & Hs & _). exists p, c'. split_and!; congruence.
  - intros p c' Hp. destruct (Hback _ _ Hp) as (c & Hc & -> & _ & -> & _). destruct (H7 _ _ Hc) as (? & ? & ?).
    split_and!; auto.
  - intros p p' c1 c1' Hp Hp'. destruct (Hback _ _ Hp) as (c & Hc & -> & _). destruct (Hback _ _ Hp') as (c' & Hc' & -> & _).
    by apply H8.
  - intros a n Ha. destruct (H9 _ _ Ha) as (c & Hc & Hrole & Hid & Hrep). destruct (Hfwd _ _ Hc) as (c' & Hc' & _ & Hr1 & Hr2 & Hr3).
    exists c'. split_and!; congruence.
  - intros p c' Hp Hrole. destruct (Hback _ _ Hp) as (c & Hc & _ & Hr1 & _). apply (H10 p c Hc). congruence.
  - intros q r Hq. destruct (H11 _ _ Hq) as (p & c & Hp & Hc & Hrole & Hid). destruct (Hfwd _ _ Hc) as (c' & Hc' & _ & Hr1 & Hr2 & _).
    exists p, c'. split_and!; congruence.
  - intros p c' Hp Hrole. destruct (Hback _ _ Hp) as (c & Hc & _ & Hr1 & _). apply (H12 p c Hc). congruence.
Qed.
Lemma rep_counter s ves nes ps fm p f c :
  coordi_rep s ves nes ps fm -> conns s !! p = Some c -> same_conn c (f c) ->
  coordi_rep (with_conns (<[p := f c]> (conns s)) s) ves nes ps fm.
Proof.
  intros Hr Hp Hf. pose proof (rep_update s ves nes ps fm (<[p := f c]> (conns s)) (socks s) Hr) as H. apply H; [| |done].
  - intros q c' Hq. destruct (decide (q = p)) as [->|Hne].
    + rewrite lookup_insert_eq in Hq. injection Hq as <-. by exists c.
    + rewrite lookup_insert_ne in Hq by done. by exists c'.
  - intros q c' Hq. destruct (decide (q = p)) as [->|Hne].
    + rewrite lookup_insert_eq. exists (f c). split; [done|]. congruence.
    + rewrite lookup_insert_ne by done. by exists c'.
Qed.
Lemma rep_socks s ves nes ps fm k :
  coordi_rep s ves nes ps fm -> (forall fd, is_Some (socks s !! fd) -> is_Some (k !! fd)) ->
  coordi_rep (with_socks k s) ves nes ps fm.
Proof.
  intros Hr Hk. pose proof (rep_update s ves nes ps fm (conns s) k Hr) as H.
  replace (with_socks k s) with (with_socks k (with_conns (conns s) s)) by (by destruct s).
  apply H; [intros p c' Hp|intros p c' Hp|done]; by exists c'.
Qed.

(** ** Searches *)

Lemma on_servers_lookup s ves nes ps fm i :
  coordi_rep s ves nes ps fm -> (String.length i < ID_SIZE)%nat ->
  exists r, on_servers (fun krch => kr_conhash_lookup krch i) s = Ok (r, s) /\
    match r with
    | Some a => exists n, heap (hash_mem s) !! a = Some n /\ KrConhash.id n = i
    | None => forall a n, heap (hash_mem s) !! a = Some n -> KrConhash.id n <> i
    end.
Proof.
  intros Hr Hi. destruct (lookup_conhash _ _ _ _ _ i (cr_hash _ _ _ _ _ Hr) Hi) as (r & E & H).
  exists r. split; [|done]. unfold on_servers. rewrite E. by destruct s.
Qed.

Lemma names_unique ps q r q' r' : NoDup (map (fun x : ptr * client_ref => cl_id x.2) ps) ->
  (q, r) ∈ ps -> (q', r') ∈ ps -> cl_id r = cl_id r' -> q = q' /\ r = r'.
Proof.
  intros Hnd Hq Hq' Hid. apply list_elem_of_lookup in Hq as [i Hi], Hq' as [j Hj].
  assert (i = j) as ->.
  { eapply (NoDup_lookup _ i j (cl_id r)); [exact Hnd| |]; rewrite list_lookup_fmap.
    - by rewrite Hi.
    - by rewrite Hj, Hid. }
  rewrite Hi in Hj. by injection Hj as -> ->.
Qed.

Lemma search_node s ves nes ps fm i :
  coordi_rep s ves nes ps fm ->
  on_clients (fun l => kr_list_search l (mkClientRef None i)) s =
    Ok (fst <$> List.find (fun x => String.eqb (cl_id x.2) i) ps, s).
Proof.
  intros Hr. unfold on_clients.
  assert (H : wp (kr_list_search (clients s) (mkClientRef None i)) (list_mem s) (fun r m =>
    r = (fst <$> List.find (fun x => String.eqb (cl_id x.2) i) ps) /\ m = list_mem s)).
  { apply (wp_search _ _ ps); [apply Hr|]. split; [|done]. unfold first_match, node_match. by rewrite (cr_match _ _ _ _ _ Hr). }
  destruct (wp_elim _ _ _ H) as (r & m & -> & -> & ->). by destruct s.
Qed.
Lemma find_client ps i :
  match List.find (fun x : ptr * client_ref => String.eqb (cl_id x.2) i) ps with
  | Some (q, r) => (q, r) ∈ ps /\ cl_id r = i
  | None => forall q r, (q, r) ∈ ps -> cl_id r <> i
  end.
Proof.
  destruct (List.find _ ps) as [[q r]|] eqn:E.
  - apply List.find_some in E as [Hin He]. split; [by apply list_elem_of_In|]. by apply String.eqb_eq.
  - intros q r Hin Hid. apply list_elem_of_In in Hin. pose proof (List.find_none _ _ E _ Hin) as H. cbn in H.
    rewrite Hid, String.eqb_refl in H. done.
Qed.

Lemma search_client_spec s ves nes ps fm i :
  coordi_rep s ves nes ps fm ->
  exists r, search_client i s = Ok (r, s) /\
    match r with
    | Some p => exists c q r, conns s !! p = Some c /\ role c = KR_COORDI_CLIENT /\ c_id c = i /\ (q, r) ∈ ps /\
                  cl_conn r = Some p /\ cl_id r = i
    | None => forall q r, (q, r) ∈ ps -> cl_id r <> i
    end.
Proof.
  intros Hr. unfold search_client. unfold mbind at 1, M_bind at 1. rewrite (search_node _ _ _ _ _ _ Hr).
  pose proof (find_client ps i) as Hf. destruct (List.find _ ps) as [[q r]|]; cbn [fmap option_fmap option_map fst].
  - destruct Hf as [Hin Hid]. destruct (cr_refs _ _ _ _ _ Hr _ _ Hin) as (p & c & Hp & Hc & Hrole & Hcid).
    exists (Some p). split; [|exists c, q, r; split_and!; congruence].
    apply list_elem_of_split in Hin as (a & b & ->). unfold mbind at 1, M_bind at 1. unfold on_clients, KrList.read_node.
    rewrite (dseg_lookup _ _ _ _ _ _ _ (KrList.rep_seg _ _ _ (cr_list _ _ _ _ _ Hr))). cbn [KrList.value].
    unfold mbind, M_bind, lift. rewrite Hp. by destruct s.
  - by exists None.
Qed.

(** ** Coming online *)

(** What the handler makes of the body: the weight and the replica, if it accepts them. *)
Definition svron_request (body : option (list Z)) : res (option (Z * Z)) :=
  j ← cJSON_Parse body;
  match j with
  | None => Ok None
  | Some j =>
      w ← d_to_i32 (cJSON_GetNumber j "weights");
      if w <=? 0 then Ok None
      else r ← d_to_i32 (cJSON_GetNumber j "replica"); Ok (if r <=? 0 then None else Some (w, r))
  end.

(** The lists and the table do not outgrow their lengths. *)
Record room s : Prop := {
  rm_vnodes : length_ (vnode_list (servers s)) + INT_MAX <= UINT_MAX;
  rm_nodes : length_ (node_list (servers s)) < UINT_MAX;
  rm_clients : KrList.len (clients s) < UINT_MAX;
  rm_fds : nnodes (fdtable s) < MAX_ENTRIES
}.
Lemma room_size s ves nes ps fm : coordi_rep s ves nes ps fm -> room s -> Z.of_nat (base.size fm) < MAX_ENTRIES.
Proof.
  intros Hr Hroom. destruct (cr_fds _ _ _ _ _ Hr) as (n & Hok & _). rewrite <- (tk_size _ _ _ _ _ Hok). apply Hroom.
Qed.

(** A connection without a connector. *)
Definition unregistered s fd : Prop := forall p c, conns s !! p = Some c -> c_fd c <> fd.
Lemma unregistered_fm s ves nes ps fm fd : coordi_rep s ves nes ps fm -> unregistered s fd -> fm !! fd = None.
Proof.
  intros Hr Hu. destruct (fm !! fd) as [[k v]|] eqn:E; [|done].
  destruct (cr_fm _ _ _ _ _ Hr _ _ _ E) as (p & c & _ & _ & Hp & Hf). by destruct (Hu p c Hp).
Qed.

Lemma fresh_conn s : conns s !! fresh (dom (conns s)) = None.
Proof. apply not_elem_of_dom, is_fresh. Qed.
Lemma with_conns_with s c c' : with_conns c (with_conns c' s) = with_conns c s.
Proof. done. Qed.

(** The parts of the invariant that a new connector keeps. *)
Lemma rep_insert s ves nes ps fm p c s' ves' nes' ps' t :
  coordi_rep s ves nes ps fm -> conns s !! p = None -> unregistered s (c_fd c) ->
  is_Some (socks s !! c_fd c) -> name_ok 26 (c_id c) ->
  conns s' = <[p := c]> (conns s) -> socks s' = socks s -> fdtable s' = t ->
  fd_rep t (<[c_fd c := (mkFdKey (Some p) (c_fd c), Some p)]> fm) ->
  ch_rep (hash_mem s') (servers s') (heap (hash_mem s')) ves' nes' ->
  list_rep (list_mem s') (clients s') ps' -> match_ (clients s') = Some kr_coordi_client_match ->
  NoDup (map (fun r => cl_id r.2) ps') ->
  (forall a n, heap (hash_mem s') !! a = Some n -> heap (hash_mem s) !! a = Some n \/
     (priv n = p /\ role c = KR_COORDI_SERVER /\ c_id c = KrConhash.id n /\ 0 < replica c)) ->
  (forall a n, heap (hash_mem s) !! a = Some n -> heap (hash_mem s') !! a = Some n) ->
  (role c = KR_COORDI_SERVER -> exists a n, heap (hash_mem s') !! a = Some n /\ priv n = p) ->
  (forall q r, (q, r) ∈ ps' -> (q, r) ∈ ps \/ (cl_conn r = Some p /\ role c = KR_COORDI_CLIENT /\ c_id c = cl_id r)) ->
  (forall x, x ∈ ps -> x ∈ ps') ->
  (role c = KR_COORDI_CLIENT -> exists q r, (q, r) ∈ ps' /\ cl_conn r = Some p) ->
  coordi_rep s' ves' nes' ps' (<[c_fd c := (mkFdKey (Some p) (c_fd c), Some p)]> fm).
Proof.
  intros Hr Hp Hu Hsock Hid Ec Es Et Hfd Hh Hl Hmt Hnd Hn1 Hn2 Hn3 Hl1 Hl2 Hl3.
  assert (Hold : forall q d, conns s !! q = Some d -> conns s' !! q = Some d).
  { intros q d Hq. rewrite Ec, lookup_insert_ne; [done|congruence]. }
  assert (Hnew : forall q d, conns s' !! q = Some d -> (q = p /\ d = c) \/ conns s !! q = Some d).
  { intros q d. rewrite Ec. destruct (decide (q = p)) as [->|Hne].
    - rewrite lookup_insert_eq. intros [= <-]. by left.
    - rewrite lookup_insert_ne by done. by right. }
  constructor; try done; try (by rewrite Et).
  - intros fd k v. destruct (decide (fd = c_fd c)) as [->|Hne].
    + rewrite lookup_insert_eq. intros [= <- <-]. exists p, c. split_and!; [done..| |done]. by rewrite Ec, lookup_insert_eq.
    + rewrite lookup_insert_ne by done. intros Hk. destruct (cr_fm _ _ _ _ _ Hr _ _ _ Hk) as (q & d & -> & -> & Hq & Hf).
      exists q, d. split_and!; auto.
  - intros q d Hq. rewrite Es. destruct (Hnew _ _ Hq) as [[-> ->]|Hq'].
    + rewrite lookup_insert_eq. split_and!; [by eexists|done..].
    + destruct (cr_conns _ _ _ _ _ Hr _ _ Hq') as (? & ? & ?).
      rewrite lookup_insert_ne by (intros E; by destruct (Hu _ _ Hq')). by split_and!.
  - intros q q' d d' Hq Hq' Hf. destruct (Hnew _ _ Hq) as [[-> ->]|Hq1], (Hnew _ _ Hq') as [[-> ->]|Hq2]; [done| | |].
    + by destruct (Hu _ _ Hq2).
    + by destruct (Hu _ _ Hq1).
    + by apply (cr_unique _ _ _ _ _ Hr q q' d d').
  - intros a n Ha. destruct (Hn1 _ _ Ha) as [Ha'|(-> & Hrole & Hi & Hrep)].
    + destruct (cr_nodes _ _ _ _ _ Hr _ _ Ha') as (d & Hd & H). exists d. auto.
    + exists c. split_and!; try done. by rewrite Ec, lookup_insert_eq.
  - intros q d Hq Hrole. destruct (Hnew _ _ Hq) as [[-> ->]|Hq']; [by apply Hn3|].
    destruct (cr_servers _ _ _ _ _ Hr _ _ Hq' Hrole) as (a & n & Ha & Hn). exists a, n. auto.
  - intros q r Hq. destruct (Hl1 _ _ Hq) as [Hq'|(Hc & Hrole & Hi)].
    + destruct (cr_refs _ _ _ _ _ Hr _ _ Hq') as (x & d & ? & ? & ? & ?). exists x, d. auto.
    + exists p, c. split_and!; try done. by rewrite Ec, lookup_insert_eq.
  - intros q d Hq Hrole. destruct (Hnew _ _ Hq) as [[-> ->]|Hq']; [by apply Hl3|].
    destruct (cr_clients _ _ _ _ _ Hr _ _ Hq' Hrole) as (x & r & Hx & Hr'). exists x, r. auto.
Qed.

(** The server or the client with a name. *)
Definition online s (ro : E_KRCoordiRole) (i : string) (p : ptr) (c : T_KRCoordiConnector) : Prop :=
  conns s !! p = Some c /\ role c = ro /\ c_id c = i.
Definition nobody s ro i : Prop := forall p c, ~ online s ro i p c.

Lemma server_online s ves nes ps fm i a n :
  coordi_rep s ves nes ps fm -> heap (hash_mem s) !! a = Some n -> KrConhash.id n = i ->
  exists c, online s KR_COORDI_SERVER i (priv n) c /\ 0 < replica c.
Proof.
  intros Hr Ha <-. destruct (cr_nodes _ _ _ _ _ Hr _ _ Ha) as (c & Hc & Hrole & Hi & Hrep). by exists c.
Qed.
Lemma server_nobody s ves nes ps fm i :
  coordi_rep s ves nes ps fm -> (forall a n, heap (hash_mem s) !! a = Some n -> KrConhash.id n <> i) -> nobody s KR_COORDI_SERVER i.
Proof.
  intros Hr Hn p c (Hc & Hrole & Hi). destruct (cr_servers _ _ _ _ _ Hr _ _ Hc Hrole) as (a & n & Ha & Hp).
  destruct (cr_nodes _ _ _ _ _ Hr _ _ Ha) as (c' & Hc' & _ & Hi' & _). apply (Hn a n Ha). congruence.
Qed.

(** What coming online leaves: one connector more, for the connection. *)
Definition came_online s fd (c : T_KRCoordiConnector) s' : Prop :=
  c_fd c = fd /\ coordi_ok s' /\ socks s' = socks s /\ exists p, conns s !! p = None /\ conns s' = <[p := c]> (conns s).

Lemma svron_spec s fd m :
  coordi_ok s -> room s -> unregistered s fd -> is_Some (socks s !! fd) -> message_ok m ->
  let i := c_text (serverid m) in
  match svron_request (msgbuf m) with
  | Fault e => kr_coordi_handle_svron random time peer fd m s = Fault e
  | Ok None => kr_coordi_handle_svron random time peer fd m s = Ok (-1, s)
  | Ok (Some (w, r)) =>
      (exists p c, online s KR_COORDI_SERVER i p c) /\ kr_coordi_handle_svron random time peer fd m s = Ok (0, s) \/
      nobody s KR_COORDI_SERVER i /\ exists s', kr_coordi_handle_svron random time peer fd m s = Ok (0, s') /\
        came_online s fd (mkConnector fd KR_COORDI_SERVER i (peer fd) 0 0 0 w r) s'
  end.
Proof.
  intros (ves & nes & ps & fm & Hr) Hroom Hu Hsock Hm i.
  unfold svron_request, kr_coordi_handle_svron. rewrite bind_lift.
  destruct (cJSON_Parse (msgbuf m)) as [[j|]|e]; cbn [mbind res_bind]; [|done|done]. rewrite bind_lift.
  destruct (d_to_i32 (cJSON_GetNumber j "weights")) as [w|e] eqn:Ew; cbn [mbind res_bind]; [|done].
  destruct (Z.leb_spec w 0) as [|Hw]; [done|]. rewrite bind_lift.
  destruct (d_to_i32 (cJSON_GetNumber j "replica")) as [r|e]; cbn [mbind res_bind]; [|done].
  destruct (Z.leb_spec r 0) as [|Hrep]; [done|].
  pose proof (c_text_ok _ _ (mo_serverid _ Hm)) as Hname. fold i in Hname |- *. pose proof (proj1 Hname) as Hlen.
  assert (Hi : (String.length i < ID_SIZE)%nat) by (unfold ID_SIZE; lia).
  destruct (on_servers_lookup s ves nes ps fm i Hr Hi) as (found & El & Hfound).
  rewrite (bind_ok _ _ _ _ _ El). destruct found as [a|].
  { left. split; [|done]. destruct Hfound as (n & Ha & Hn). destruct (server_online _ _ _ _ _ _ _ _ Hr Ha Hn) as (c & Hc & _). by exists (priv n), c. }
  right. split; [by apply (server_nobody s ves nes ps fm)|].
  set (c := mkConnector fd KR_COORDI_SERVER i (peer fd) 0 0 0 w r). set (p := fresh (dom (conns s))).
  pose proof (fresh_conn s) as Hp. fold p in Hp.
  rewrite (bind_ok _ _ _ p (with_conns (<[p := c]> (conns s)) s)) by done.
  assert (Hw2 : w <= INT_MAX).
  { revert Ew. unfold d_to_i32, d_to_int. destruct (d_trunc _); [|done]. destruct (andb _ _) eqn:Eb; [|done]. intros [= ->].
    apply andb_true_iff in Eb as [_ Eb]. by apply Z.leb_le in Eb. }
  destruct (add_spec random time (hash_mem s) (servers s) ves nes i w p (cr_hash _ _ _ _ _ Hr) Hfound Hi)
    as (h' & krch' & a & n & ves' & nes' & Ea & Hfree & Hh & Hn1 & Hn2 & Hn3 & _ & _ & _ & Hrep' & _);
    [lia|pose proof (rm_vnodes _ Hroom); lia|apply Hroom|].
  set (s1 := mkCoordi (servers s) (clients s) (fdtable s) (<[p := c]> (conns s)) h' (list_mem s) (socks s)).
  set (s2 := mkCoordi krch' (clients s) (fdtable s) (<[p := c]> (conns s)) h' (list_mem s) (socks s)).
  rewrite (bind_ok _ _ _ (0, krch') s1) by (unfold on_servers; cbn [servers hash_mem with_conns]; by rewrite Ea).
  rewrite (bind_ok _ _ _ tt s2) by done.
  pose proof (unregistered_fm _ _ _ _ _ _ Hr Hu) as Hfm.
  destruct (fd_replace_spec s2 fm p fd) as (t & Et & Ht).
  { apply Hr. }
  { intros fd' k v Hk. destruct (rep_live _ _ _ _ _ Hr _ _ _ Hk) as (q & Hq & Hs). exists q. split; [done|].
    cbn. rewrite lookup_insert_ne; [done|]. intros <-. rewrite Hp in Hs. by destruct Hs. }
  { by apply (room_size _ _ _ _ _ Hr). }
  rewrite (bind_ok _ _ _ _ _ Et). eexists. split; [reflexivity|].
  split_and!; [done| |done|exists p; by split].
  exists ves', nes', ps, (<[c_fd c := (mkFdKey (Some p) (c_fd c), Some p)]> fm).
  eapply (rep_insert s ves nes ps fm p c); try done; try apply Hr.
  - intros b x. cbn. rewrite Hh. destruct (decide (b = a)) as [->|Hne].
    + rewrite lookup_insert_eq. intros [= <-]. right. split_and!; done.
    + rewrite lookup_insert_ne by done. by left.
  - intros b x Hb. cbn. rewrite Hh, lookup_insert_ne; [done|congruence].
  - intros _. exists a, n. cbn. by rewrite Hh, lookup_insert_eq.
  - by left.
Qed.

Lemma client_online s ves nes ps fm q r :
  coordi_rep s ves nes ps fm -> (q, r) ∈ ps -> exists p c, cl_conn r = Some p /\ online s KR_COORDI_CLIENT (cl_id r) p c.
Proof.
  intros Hr Hin. destruct (cr_refs _ _ _ _ _ Hr _ _ Hin) as (p & c & Hp & Hc & Hrole & Hi). exists p, c. by split_and!.
Qed.
Lemma client_nobody s ves nes ps fm i :
  coordi_rep s ves nes ps fm -> (forall q r, (q, r) ∈ ps -> cl_id r <> i) -> nobody s KR_COORDI_CLIENT i.
Proof.
  intros Hr Hn p c (Hc & Hrole & Hi). destruct (cr_clients _ _ _ _ _ Hr _ _ Hc Hrole) as (q & r & Hin & Hp).
  destruct (cr_refs _ _ _ _ _ Hr _ _ Hin) as (p' & c' & Hp' & Hc' & _ & Hi'). apply (Hn q r Hin). congruence.
Qed.

Lemma add_client s ves nes ps fm v cs :
  coordi_rep s ves nes ps fm -> KrList.len (clients s) < UINT_MAX ->
  exists l' m' q, on_clients (fun l => kr_list_add_tail l v) (with_conns cs s) =
      Ok (l', mkCoordi (servers s) (clients s) (fdtable s) cs (hash_mem s) m' (socks s)) /\
    list_rep m' l' (ps ++ [(q, v)]) /\ match_ l' = Some kr_coordi_client_match.
Proof.
  intros Hr Hlen. destruct (wp_elim _ _ _ (wp_add_tail _ _ _ v (cr_list _ _ _ _ _ Hr) Hlen)) as (l' & m' & E & q & _ & Hu & _).
  exists l', m', q. unfold on_clients. cbn [clients list_mem with_conns]. rewrite E. split; [done|].
  destruct Hu as [Hrep (_ & _ & Hmt & _) _]. split; [done|]. by rewrite Hmt, (cr_match _ _ _ _ _ Hr).
Qed.

Lemma clion_spec s fd m :
  coordi_ok s -> room s -> unregistered s fd -> is_Some (socks s !! fd) -> message_ok m ->
  let i := c_text (clientid m) in
  (exists p c, online s KR_COORDI_CLIENT i p c) /\ kr_coordi_handle_clion peer fd m s = Ok (0, s) \/
  nobody s KR_COORDI_CLIENT i /\ exists s', kr_coordi_handle_clion peer fd m s = Ok (0, s') /\
    came_online s fd (mkConnector fd KR_COORDI_CLIENT i (peer fd) 0 0 0 0 0) s'.
Proof.
  intros (ves & nes & ps & fm & Hr) Hroom Hu Hsock Hm i.
  pose proof (c_text_ok _ _ (mo_clientid _ Hm)) as Hname. fold i in Hname |- *. pose proof (proj1 Hname) as Hlen.
  unfold kr_coordi_handle_clion. fold i. rewrite (bind_ok _ _ _ _ _ (search_node _ _ _ _ _ i Hr)).
  pose proof (find_client ps i) as Hf. destruct (List.find _ ps) as [[q r]|]; cbn [fmap option_fmap option_map fst].
  { left. split; [|done]. destruct Hf as [Hin <-]. destruct (client_online _ _ _ _ _ _ _ Hr Hin) as (p & c & _ & Hc). by exists p, c. }
  right. split; [by apply (client_nobody s ves nes ps fm)|].
  set (c := mkConnector fd KR_COORDI_CLIENT i (peer fd) 0 0 0 0 0). set (p := fresh (dom (conns s))).
  pose proof (fresh_conn s) as Hp. fold p in Hp.
  rewrite (bind_ok _ _ _ p (with_conns (<[p := c]> (conns s)) s)) by done.
  destruct (add_client s ves nes ps fm (mkClientRef (Some p) i) (<[p := c]> (conns s)) Hr (rm_clients _ Hroom))
    as (l' & m' & q & Ea & Hl & Hmt).
  rewrite (bind_ok _ _ _ _ _ Ea).
  set (s2 := mkCoordi (servers s) l' (fdtable s) (<[p := c]> (conns s)) (hash_mem s) m' (socks s)).
  rewrite (bind_ok _ _ _ tt s2) by done.
  destruct (fd_replace_spec s2 fm p fd) as (t & Et & Ht).
  { apply Hr. }
  { intros fd' k v Hk. destruct (rep_live _ _ _ _ _ Hr _ _ _ Hk) as (x & Hx & Hs). exists x. split; [done|].
    cbn. rewrite lookup_insert_ne; [done|]. intros <-. rewrite Hp in Hs. by destruct Hs. }
  { by apply (room_size _ _ _ _ _ Hr). }
  rewrite (bind_ok _ _ _ _ _ Et). eexists. split; [reflexivity|].
  split_and!; [done| |done|exists p; by split].
  exists ves, nes, (ps ++ [(q, mkClientRef (Some p) i)]), (<[c_fd c := (mkFdKey (Some p) (c_fd c), Some p)]> fm).
  eapply (rep_insert s ves nes ps fm p c); try done; try apply Hr.
  - rewrite map_app. apply NoDup_app. split_and!; [apply Hr| |by apply NoDup_singleton].
    intros x Hx ->%list_elem_of_singleton. apply list_elem_of_fmap in Hx as ([q' r'] & He & Hin). by apply (Hf q' r' Hin).
  - by left.
  - intros q' r' [Hin|Hin]%elem_of_app; [by left|]. apply list_elem_of_singleton in Hin as [= -> ->]. by right.
  - intros x Hx. apply elem_of_app. by left.
  - intros _. exists q, (mkClientRef (Some p) i). split; [|done]. apply elem_of_app. right. by apply list_elem_of_singleton.
Qed.

(** ** Going offline *)

Lemma rep_delete s ves nes ps fm p c s' ves' nes' ps' :
  coordi_rep s ves nes ps fm -> conns s !! p = Some c ->
  conns s' = delete p (conns s) -> socks s' = delete (c_fd c) (socks s) ->
  fd_rep (fdtable s') (delete (c_fd c) fm) ->
  ch_rep (hash_mem s') (servers s') (heap (hash_mem s')) ves' nes' ->
  list_rep (list_mem s') (clients s') ps' -> match_ (clients s') = Some kr_coordi_client_match ->
  NoDup (map (fun r => cl_id r.2) ps') ->
  (forall a n, heap (hash_mem s') !! a = Some n <-> heap (hash_mem s) !! a = Some n /\ priv n <> p) ->
  (forall q r, (q, r) ∈ ps' <-> (q, r) ∈ ps /\ cl_conn r <> Some p) ->
  coordi_rep s' ves' nes' ps' (delete (c_fd c) fm).
Proof.
  intros Hr Hp Ec Es Hfd Hh Hl Hmt Hnd Hn Hps.
  assert (Hback : forall q d, conns s' !! q = Some d -> q <> p /\ conns s !! q = Some d).
  { intros q d. rewrite Ec. intros [? ?]%lookup_delete_Some. by split. }
  assert (Hfwd : forall q d, q <> p -> conns s !! q = Some d -> conns s' !! q = Some d).
  { intros q d Hq Hd. by rewrite Ec, lookup_delete_ne by done. }
  assert (Hfd' : forall q d, q <> p -> conns s !! q = Some d -> c_fd d <> c_fd c).
  { intros q d Hq Hd E. apply Hq. by apply (cr_unique _ _ _ _ _ Hr q p d c). }
  constructor; try done.
  - intros fd k v [Hne Hk]%lookup_delete_Some. destruct (cr_fm _ _ _ _ _ Hr _ _ _ Hk) as (q & d & -> & -> & Hq & Hf).
    exists q, d. split_and!; try done. apply Hfwd; [|done]. intros ->. rewrite Hp in Hq. injection Hq as ->. by rewrite Hf in Hne.
  - intros q d Hd. destruct (Hback _ _ Hd) as [Hq Hd']. destruct (cr_conns _ _ _ _ _ Hr _ _ Hd') as (? & ? & ?).
    rewrite Es, !lookup_delete_ne by (intros E; by destruct (Hfd' q d Hq Hd')). by split_and!.
  - intros q q' d d' Hd Hd'. destruct (Hback _ _ Hd), (Hback _ _ Hd'). by apply (cr_unique _ _ _ _ _ Hr).
  - intros a n [Ha Hpr]%Hn. destruct (cr_nodes _ _ _ _ _ Hr _ _ Ha) as (d & Hd & H). exists d. auto.
  - intros q d Hd Hrole. destruct (Hback _ _ Hd) as [Hq Hd']. destruct (cr_servers _ _ _ _ _ Hr _ _ Hd' Hrole) as (a & n & Ha & <-).
    exists a, n. split; [|done]. by apply Hn.
  - intros q r [Hin Hcl]%Hps. destruct (cr_refs _ _ _ _ _ Hr _ _ Hin) as (x & d & Hx & Hd & H). exists x, d.
    split_and!; try done; [|by destruct H..]. apply Hfwd; [congruence|done].
  - intros q d Hd Hrole. destruct (Hback _ _ Hd) as [Hq Hd']. destruct (cr_clients _ _ _ _ _ Hr _ _ Hd' Hrole) as (x & r & Hx & Hc).
    exists x, r. split; [|done]. apply Hps. split; [done|]. congruence.
Qed.

Lemma svroff_run s ves nes ps fm fd m :
  coordi_rep s ves nes ps fm -> message_ok m ->
  let i := c_text (serverid m) in
  nobody s KR_COORDI_SERVER i /\ kr_coordi_handle_svroff fd m s = Ok (0, s) \/
  exists a n c krch h t ves' nes', online s KR_COORDI_SERVER i (priv n) c /\ heap (hash_mem s) !! a = Some n /\
    kr_coordi_handle_svroff fd m s =
      Ok (0, mkCoordi krch (clients s) t (delete (priv n) (conns s)) h (list_mem s) (delete fd (socks s))) /\
    fd_rep t (delete fd fm) /\ heap h = delete a (heap (hash_mem s)) /\ ch_rep h krch (heap h) ves' nes'.
Proof.
  intros Hr Hm i. pose proof (c_text_ok _ _ (mo_serverid _ Hm)) as Hname. fold i in Hname. pose proof (proj1 Hname) as Hlen.
  assert (Hi : (String.length i < ID_SIZE)%nat) by (unfold ID_SIZE; lia).
  unfold kr_coordi_handle_svroff. fold i.
  destruct (on_servers_lookup s ves nes ps fm i Hr Hi) as (found & El & Hfound). rewrite (bind_ok _ _ _ _ _ El).
  destruct found as [a|]; [|left; split; [by apply (server_nobody s ves nes ps fm)|done]].
  right. destruct Hfound as (n & Ha & Hid). destruct (server_online _ _ _ _ _ _ _ _ Hr Ha Hid) as (c & Hc & _).
  destruct (fd_remove_spec s fm fd (cr_fds _ _ _ _ _ Hr) (rep_live _ _ _ _ _ Hr)) as (t & Et & Ht).
  rewrite (bind_ok _ _ _ _ _ Et). rewrite (bind_ok _ _ _ n (with_fdtable t s)).
  2:{ unfold on_servers, KrConhash.get_node. cbn [hash_mem with_fdtable]. rewrite Ha. by destruct s. }
  rewrite (bind_ok _ _ _ c (with_fdtable t s)).
  2:{ unfold get_conn. cbn [conns with_fdtable]. destruct Hc as (-> & _). done. }
  destruct (remove_spec _ _ ves nes a n (cr_hash _ _ _ _ _ Hr) Ha) as (h & krch & nes' & Er & Hh & _ & _ & Hrep).
  replace (c_id c) with (KrConhash.id n) by (destruct Hc as (_ & _ & ->); done).
  rewrite (bind_ok _ _ _ (0, krch) (mkCoordi (servers s) (clients s) t (conns s) h (list_mem s) (socks s))).
  2:{ unfold on_servers. cbn [hash_mem servers with_fdtable]. by rewrite Er. }
  exists a, n, c, krch, h, t, (List.filter (not_of a) ves), nes'. split_and!; try done.
  unfold set_servers, close_fd, free_conn, mbind, M_bind. cbn. by destruct Hc as (-> & _).
Qed.

(** What going offline leaves: the connector is gone and its connection closed. *)
Definition went_offline s (p : ptr) (c : T_KRCoordiConnector) s' : Prop :=
  coordi_ok s' /\ conns s' = delete p (conns s) /\ socks s' = delete (c_fd c) (socks s).

Lemma svroff_spec s fd m :
  coordi_ok s -> message_ok m ->
  let i := c_text (serverid m) in
  nobody s KR_COORDI_SERVER i /\ kr_coordi_handle_svroff fd m s = Ok (0, s) \/
  exists p c, online s KR_COORDI_SERVER i p c /\
    (c_fd c = fd -> exists s', kr_coordi_handle_svroff fd m s = Ok (0, s') /\ went_offline s p c s').
Proof.
  intros (ves & nes & ps & fm & Hr) Hm i.
  destruct (svroff_run s ves nes ps fm fd m Hr Hm) as [H|(a & n & c & krch & h & t & ves' & nes' & Hc & Ha & E & Ht & Hh & Hrep)]; [by left|].
  right. exists (priv n), c. split; [done|]. intros <-. eexists. split; [exact E|]. split; [|done].
  exists ves', nes', ps, (delete (c_fd c) fm).
  eapply (rep_delete s ves nes ps fm (priv n) c); try done; try apply Hr; try apply Hc.
  - intros b x. cbn. rewrite Hh. split.
    + intros [Hne Hb]%lookup_delete_Some. split; [done|]. intros E'. apply Hne. symmetry.
      apply (ch_unique _ _ _ _ _ (cr_hash _ _ _ _ _ Hr) b a x n Hb Ha).
      destruct (cr_nodes _ _ _ _ _ Hr _ _ Hb) as (d & Hd & _ & Hid & _).
      destruct (cr_nodes _ _ _ _ _ Hr _ _ Ha) as (d' & Hd' & _ & Hid' & _). congruence.
    + intros [Hb Hpr]. apply lookup_delete_Some. split; [congruence|done].
  - intros q r. split; [|by intros [? _]]. intros Hin. split; [done|]. intros Hcl.
    destruct (cr_refs _ _ _ _ _ Hr _ _ Hin) as (x & d & Hx & Hd & Hrole & _). destruct Hc as (Hc1 & Hc2 & _). congruence.
Qed.

Lemma remove_client s ves nes ps fm q r i :
  coordi_rep s ves nes ps fm -> (q, r) ∈ ps -> cl_id r = i ->
  exists l' m' a b, ps = a ++ (q, r) :: b /\
    on_clients (fun l => kr_list_remove l (mkClientRef None i)) s =
      Ok (l', mkCoordi (servers s) (clients s) (fdtable s) (conns s) (hash_mem s) m' (socks s)) /\
    list_rep m' l' (a ++ b) /\ match_ l' = Some kr_coordi_client_match.
Proof.
  intros Hr Hin Hri. destruct (first_match (clients s) (mkClientRef None i) ps) as [[q' r']|] eqn:Efm.
  - destruct (first_match_split _ _ _ _ _ Efm) as (a & b & Eps & _ & Hmat).
    unfold node_match in Hmat. rewrite (cr_match _ _ _ _ _ Hr) in Hmat. apply String.eqb_eq in Hmat. cbn in Hmat.
    destruct (names_unique ps q r q' r' (cr_names _ _ _ _ _ Hr) Hin) as [-> ->].
    { rewrite Eps. apply elem_of_app. right. by left. }
    { by rewrite Hri, Hmat. }
    pose proof (cr_list _ _ _ _ _ Hr) as Hl. rewrite Eps in Hl.
    assert (H : wp (kr_list_remove (clients s) (mkClientRef None i)) (list_mem s) (fun l' m' =>
      updated (list_mem s) (clients s) (a ++ (q', r') :: b) m' l' (a ++ b))).
    { apply (wp_remove _ _ (a ++ (q', r') :: b)); [done|]. rewrite <- Eps, Efm, Eps.
      eapply wp_mono; [by apply wp_delete|]. intros ? ? [? _]. done. }
    destruct (wp_elim _ _ _ H) as (l' & m' & E & [Hrep (_ & _ & Hmt & _) _]). exists l', m', a, b.
    unfold on_clients. rewrite E. split_and!; try done. by rewrite Hmt, (cr_match _ _ _ _ _ Hr).
  - unfold first_match in Efm. apply list_elem_of_In in Hin. pose proof (List.find_none _ _ Efm _ Hin) as H.
    unfold node_match in H. rewrite (cr_match _ _ _ _ _ Hr) in H. unfold kr_coordi_client_match in H. cbn in H.
    by rewrite Hri, String.eqb_refl in H.
Qed.

Lemma clioff_spec s fd m :
  coordi_ok s -> message_ok m ->
  let i := c_text (clientid m) in
  nobody s KR_COORDI_CLIENT i /\ kr_coordi_handle_clioff fd m s = Ok (0, s) \/
  exists p c, online s KR_COORDI_CLIENT i p c /\
    (c_fd c = fd -> exists s', kr_coordi_handle_clioff fd m s = Ok (0, s') /\ went_offline s p c s').
Proof.
  intros (ves & nes & ps & fm & Hr) Hm i. unfold kr_coordi_handle_clioff. fold i.
  destruct (search_client_spec s ves nes ps fm i Hr) as (found & Es & Hfound). rewrite (bind_ok _ _ _ _ _ Es).
  destruct found as [p|]; [|left; split; [by apply (client_nobody s ves nes ps fm)|done]].
  right. destruct Hfound as (c & q & r & Hp & Hrole & Hid & Hin & Hcl & Hri). exists p, c. split; [by split_and!|]. intros <-.
  rewrite (bind_ok _ _ _ c s) by (unfold get_conn; by rewrite Hp). rewrite Hid.
  destruct (remove_client s ves nes ps fm q r i Hr Hin Hri) as (l' & m' & a & b & Eps & E & Hl & Hmt). rewrite (bind_ok _ _ _ _ _ E).
  set (s1 := mkCoordi (servers s) l' (fdtable s) (conns s) (hash_mem s) m' (socks s)).
  rewrite (bind_ok _ _ _ tt s1) by done.
  destruct (fd_remove_spec s1 fm (c_fd c) (cr_fds _ _ _ _ _ Hr) (rep_live _ _ _ _ _ Hr)) as (t & Et & Ht).
  rewrite (bind_ok _ _ _ _ _ Et).
  eexists. split; [unfold close_fd, free_conn, mbind, M_bind; cbn; by rewrite Hp|]. split; [|done].
  exists ves, nes, (a ++ b), (delete (c_fd c) fm).
  pose proof (cr_names _ _ _ _ _ Hr) as Hnd. rewrite Eps, map_app in Hnd. cbn in Hnd.
  apply NoDup_app in Hnd as (Hna & Hdis & [Hnq Hnb]%NoDup_cons).
  eapply (rep_delete s ves nes ps fm p c); try done; try apply Hr.
  - rewrite map_app. apply NoDup_app. split_and!; try done. intros x Hx Hy. apply (Hdis x Hx). by right.
  - intros y n. split; [|by intros [? _]]. intros Hy. split; [done|]. intros Hpr.
    destruct (cr_nodes _ _ _ _ _ Hr _ _ Hy) as (d & Hd & Hrd & _). congruence.
  - intros q' r'. rewrite Eps. rewrite !elem_of_app, elem_of_cons. split.
    + intros Hor. split; [tauto|]. intros Hcl'. destruct (cr_refs _ _ _ _ _ Hr q' r') as (x & d & Hx & Hd & _ & Hid').
      { rewrite Eps. rewrite elem_of_app, elem_of_cons. tauto. }
      assert (Heq : cl_id r' = cl_id r) by congruence. destruct Hor as [Hor|Hor].
      * apply (Hdis (cl_id r')); [apply list_elem_of_fmap; by exists (q', r')|]. rewrite Heq. by left.
      * apply Hnq. apply list_elem_of_fmap. by exists (q', r').
    + intros [[?|[[= -> ->]|?]] Hcl']; [by left|congruence|by right].
Qed.

(** ** Writing to the servers *)

Lemma net_write_total w : forall fuel out buf count totlen,
  (length w < fuel)%nat -> 0 <= totlen <= count -> count <= size_of buf ->
  exists n out' w', kr_net_write fuel w out buf count totlen = Ok (n, out', w').
Proof.
  induction w as [|e w IH]; intros [|fuel] out buf count totlen Hf Ht Hb; cbn [List.length] in Hf; try lia;
    cbn [kr_net_write]; (destruct (totlen =? count) eqn:Heq; [by repeat eexists|]); apply Z.eqb_neq in Heq.
  - by repeat eexists.
  - destruct e as [[|j]| |]; [by repeat eexists| |apply IH; lia|by repeat eexists].
    set (k := Z.min (Z.of_nat (S j)) (count - totlen)).
    assert (Hk : 0 <= k <= count - totlen) by lia. unfold mem_read.
    rewrite (proj2 (Z.ltb_ge totlen 0)), (proj2 (Z.ltb_ge k 0)), (proj2 (Z.ltb_ge (size_of buf) (totlen + k))) by lia.
    cbn [orb mbind res_bind]. apply IH; lia.
Qed.
Lemma net_write_runs k buf count : 0 <= count <= size_of buf -> exists n k', net_write k buf count = Ok (n, k').
Proof.
  intros Hc. unfold net_write. destruct (net_write_total (s_writes k) (S (length (s_writes k))) [] buf count 0) as (n & o & w & ->);
    [lia|lia|lia|]. by repeat eexists.
Qed.

Lemma head_dump_size m : size_of (kr_message_head_dump m).2 = 81.
Proof.
  assert (H : 80 <= size_of (head_text (kr_message_head_dump m).1)).
  { unfold head_text, print_d, print_s, pad, size_of. rewrite !length_app, !length_replicate.
    unfold KR_MSGTYPE_LEN, KR_MSGID_LEN, KR_SERVERID_LEN, KR_CLIENTID_LEN, KR_DATASRC_LEN, KR_MSGLEN_LEN. lia. }
  change (kr_message_head_dump m).2 with (take 80 (head_text (kr_message_head_dump m).1) ++ [0]).
  unfold size_of in *. rewrite length_app, length_take. change (length [0]) with 1%nat. lia.
Qed.
Lemma sent_idem m : sent (sent m) = sent m.
Proof.
  assert (H : forall l, dashed (dashed l) = dashed l) by (intros [|[] l]; done).
  unfold sent, kr_message_head_dump. cbn. by rewrite !H.
Qed.

(** A message whose body is there is written, or not, but nothing else is touched. *)
Lemma message_write_runs x m : body_held m -> exists n x', kr_message_write x m = Ok (n, sent m, x').
Proof.
  intros Hb. unfold kr_message_write. rewrite (surjective_pairing (kr_message_head_dump m)). fold (sent m).
  destruct (net_write_runs x (kr_message_head_dump m).2 KR_MSGHEADER_LEN) as (n & x1 & ->).
  { rewrite head_dump_size. done. }
  cbn [mbind res_bind]. destruct (n <? 0); [by repeat eexists|]. destruct (n =? 0); [by repeat eexists|].
  destruct (n =? KR_MSGHEADER_LEN); [|by repeat eexists]. cbn [andb]. change (msglen (sent m)) with (msglen m).
  change (msgbuf (sent m)) with (msgbuf m). destruct (Z.ltb_spec 0 (msglen m)) as [Hpos|]; [|by repeat eexists].
  destruct (msgbuf m) as [b|] eqn:Eb; [|by repeat eexists]. specialize (Hb b Eb).
  destruct (net_write_runs x1 b (msglen m)) as (n2 & x2 & ->); [lia|]. by repeat eexists.
Qed.
Lemma write_message_runs fd m k : body_held m -> exists n k', write_message fd m k = Ok (n, sent m, k') /\
  (forall f, is_Some (k !! f) <-> is_Some (k' !! f)) /\ (forall f, f <> fd -> k' !! f = k !! f).
Proof.
  intros Hb. unfold write_message. destruct (k !! fd) as [x|] eqn:Ex.
  - destruct (message_write_runs x m Hb) as (n & x' & ->). cbn [mbind res_bind]. exists n, (<[fd := x']> k). split_and!; [done| |].
    + intros f. destruct (decide (f = fd)) as [->|Hne]; [rewrite lookup_insert_eq, Ex; split; by eexists|by rewrite lookup_insert_ne].
    + intros f Hne. by rewrite lookup_insert_ne.
  - by exists (-1), k.
Qed.

Lemma same_conn_refl c : same_conn c c.
Proof. by split_and!. Qed.
Lemma same_conn_trans a b c : same_conn a b -> same_conn b c -> same_conn a c.
Proof. intros (? & ? & ? & ?) (? & ? & ? & ?). split_and!; congruence. Qed.

(** Connectors with other counters, and the same open descriptors. *)
Record advance (cs : gmap ptr T_KRCoordiConnector) (k : gmap Z socket) (cs' : gmap ptr T_KRCoordiConnector) (k' : gmap Z socket) : Prop := {
  adv_back : forall p c', cs' !! p = Some c' -> exists c, cs !! p = Some c /\ same_conn c c';
  adv_fwd : forall p c, cs !! p = Some c -> exists c', cs' !! p = Some c' /\ same_conn c c';
  adv_open : forall f, is_Some (k !! f) <-> is_Some (k' !! f)
}.
Lemma advance_refl cs k : advance cs k cs k.
Proof. split; [intros p c H; exists c; split; [done|apply same_conn_refl]..|done]. Qed.
Lemma advance_trans cs k cs1 k1 cs2 k2 : advance cs k cs1 k1 -> advance cs1 k1 cs2 k2 -> advance cs k cs2 k2.
Proof.
  intros [B1 F1 O1] [B2 F2 O2]. split.
  - intros p c H. destruct (B2 p c H) as (c1 & H1 & S1). destruct (B1 p c1 H1) as (c0 & H0 & S0).
    exists c0. split; [done|]. by eapply same_conn_trans.
  - intros p c H. destruct (F1 p c H) as (c1 & H1 & S1). destruct (F2 p c1 H1) as (c2 & H2 & S2).
    exists c2. split; [done|]. by eapply same_conn_trans.
  - intros f. by rewrite O1, O2.
Qed.
Lemma advance_counter cs k p c f : cs !! p = Some c -> same_conn c (f c) -> advance cs k (<[p := f c]> cs) k.
Proof.
  intros Hp Hf. split; [| |done].
  - intros q d. destruct (decide (q = p)) as [->|Hne].
    + rewrite lookup_insert_eq. intros [= <-]. by exists c.
    + rewrite lookup_insert_ne by done. intros H. exists d. split; [done|apply same_conn_refl].
  - intros q d H. destruct (decide (q = p)) as [->|Hne].
    + rewrite lookup_insert_eq. exists (f c). split; [done|]. congruence.
    + rewrite lookup_insert_ne by done. exists d. split; [done|apply same_conn_refl].
Qed.
Lemma rep_advance s ves nes ps fm cs k :
  coordi_rep s ves nes ps fm -> advance (conns s) (socks s) cs k -> coordi_rep (with_socks k (with_conns cs s)) ves nes ps fm.
Proof. intros Hr [Hb Hf Ho]. apply (rep_update s ves nes ps fm cs k Hr Hb Hf). intros f. apply Ho. Qed.

(** The nodes of the list are nodes of the hash with a connector. *)
Definition sends_to (h : gmap ptr (T_KRActualNode (P:=ptr))) (cs : gmap ptr T_KRCoordiConnector) (e : Z * naddr) : Prop :=
  exists a n c, n_node e.2 = Some a /\ h !! a = Some n /\ cs !! priv n = Some c.

Lemma send_fold_runs h es : forall cs k m,
  Forall (sends_to h cs) es -> body_held m ->
  exists cs' k' m', foldl (fun acc e => kr_coordi_send_to_server h (Some e.2) acc) (Ok (cs, k, m)) es = Ok (cs', k', m') /\
    advance cs k cs' k'.
Proof.
  induction es as [|e es IH]; intros cs k m Hes Hb; cbn [foldl].
  { exists cs, k, m. split; [done|apply advance_refl]. }
  apply Forall_cons in Hes as [(a & n & c & Ha & Hn & Hc) Hes].
  assert (Hstep : exists cs1 k1 m1, kr_coordi_send_to_server h (Some e.2) (Ok (cs, k, m)) = Ok (cs1, k1, m1) /\
    advance cs k cs1 k1 /\ body_held m1).
  { unfold kr_coordi_send_to_server. cbn [mbind res_bind option_bind]. unfold mbind at 1, option_bind.
    rewrite Ha. cbn [of_option mbind res_bind]. rewrite Hn. cbn [of_option mbind res_bind]. rewrite Hc. cbn [of_option mbind res_bind].
    destruct (_ || _); [|exists cs, k, m; split_and!; [done|apply advance_refl|done]].
    destruct (write_message_runs (c_fd c) m k Hb) as (w & k1 & -> & Hopen & _). cbn [mbind res_bind].
    destruct (w <=? 0).
    - exists (<[priv n := count_error c]> cs), k1, (sent m). split_and!; [done| |done].
      eapply advance_trans; [by apply (advance_counter cs k (priv n) c count_error)|].
      split; [intros p d H; exists d; split; [done|apply same_conn_refl]..|done].
    - exists cs, k1, (sent m). split_and!; [done| |done].
      split; [intros p d H; exists d; split; [done|apply same_conn_refl]..|done]. }
  destruct Hstep as (cs1 & k1 & m1 & -> & Hadv & Hb1). destruct (IH cs1 k1 m1) as (cs' & k' & m' & E & Hadv'); [|done|].
  - eapply Forall_impl; [exact Hes|]. intros x (a' & n' & c' & Ha' & Hn' & Hc').
    destruct (adv_fwd _ _ _ _ Hadv _ _ Hc') as (d & Hd & _). by exists a', n', d.
  - exists cs', k', m'. split; [exact E|]. by eapply advance_trans.
Qed.

Lemma nodes_send s ves nes ps fm : coordi_rep s ves nes ps fm -> Forall (sends_to (heap (hash_mem s)) (conns s)) nes.
Proof.
  intros Hr. apply Forall_forall. intros e He. apply (ch_nes _ _ _ _ _ (cr_hash _ _ _ _ _ Hr)) in He as (a & n & Ha & ->).
  destruct (cr_nodes _ _ _ _ _ Hr _ _ Ha) as (c & Hc & _). by exists a, n, c.
Qed.
Lemma send_to_all_eq s ves nes ps fm m :
  coordi_rep s ves nes ps fm ->
  send_to_all m s = match foldl (fun acc e => kr_coordi_send_to_server (heap (hash_mem s)) (Some e.2) acc) (Ok (conns s, socks s, m)) nes with
                    | Ok (cs, k, _) => Ok (tt, with_socks k (with_conns cs s))
                    | Fault e => Fault e
                    end.
Proof.
  intros Hr. destruct (ch_nlist _ _ _ _ _ (cr_hash _ _ _ _ _ Hr)) as [qs Hn].
  unfold send_to_all, kr_conhash_foreach_node, on_nlist. rewrite (skip_foreach_spec _ _ _ _ _ _ Hn).
  by destruct (foldl _ _ nes) as [[[? ?] ?]|].
Qed.

(** ** Events and replies *)

Definition with_hash_mem h s : T_KRCoordi := mkCoordi (servers s) (clients s) (fdtable s) (conns s) h (list_mem s) (socks s).
Lemma rep_hash_mem s ves nes ps fm h :
  coordi_rep s ves nes ps fm -> ch_rep h (servers s) (heap h) ves nes ->
  (forall a n, heap h !! a = Some n -> exists n0, heap (hash_mem s) !! a = Some n0 /\ priv n = priv n0 /\ KrConhash.id n = KrConhash.id n0) ->
  (forall a n0, heap (hash_mem s) !! a = Some n0 -> exists n, heap h !! a = Some n /\ priv n = priv n0) ->
  coordi_rep (with_hash_mem h s) ves nes ps fm.
Proof.
  intros Hr Hh Hback Hfwd. destruct Hr as [H1 H2 H3 H4 H5 H6 H7 H8 H9 H10 H11 H12]. constructor; try done; cbn.
  - intros a n Ha. destruct (Hback _ _ Ha) as (n0 & Ha0 & -> & ->). by apply (H9 a).
  - intros p c Hc Hrole. destruct (H10 p c Hc Hrole) as (a & n0 & Ha & <-). destruct (Hfwd _ _ Ha) as (n & Hn & Hp). by exists a, n.
Qed.

(** The server that an event is for: the one it names, or the one of its identifier in the
    ring. *)
Definition named s (m : T_KRMessage) (a : ptr) : Prop :=
  exists b n, serverid m !! 0%nat = Some b /\ b <> 0 /\ heap (hash_mem s) !! a = Some n /\ KrConhash.id n = c_text (serverid m).
Definition unnamed s (m : T_KRMessage) : Prop := forall a, ~ named s m a.
Definition chosen s (ves : list (Z * vaddr)) (m : T_KRMessage) (r : option ptr) : Prop :=
  match r with Some a => named s m a | None => False end \/
  unnamed s m /\ r = owner (servers s) ves (c_text (msgid m)).

Lemma choose_server s ves nes ps fm m :
  coordi_rep s ves nes ps fm -> message_ok m ->
  exists r h, find_server m s = Ok (r, with_hash_mem h s) /\
    chosen s ves m r /\ coordi_rep (with_hash_mem h s) ves nes ps fm /\
    (forall a, r = Some a -> exists n n', heap (hash_mem s) !! a = Some n /\ heap h !! a = Some n' /\
       priv n' = priv n /\ KrConhash.id n' = KrConhash.id n).
Proof.
  intros Hr Hm. pose proof (proj1 (c_text_ok _ _ (mo_serverid _ Hm))) as Hlen.
  assert (Hi : (String.length (c_text (serverid m)) < ID_SIZE)%nat) by (unfold ID_SIZE; lia).
  assert (Hself : with_hash_mem (hash_mem s) s = s) by (by destruct s).
  destruct (mo_serverid _ Hm) as (l & El & Hl). destruct (serverid m) as [|b l'] eqn:Es; [by destruct l|].
  rewrite <- Es in Hi. unfold find_server. rewrite bind_lift. replace (serverid m !! 0%nat) with (Some b) by (by rewrite Es). cbn [of_option].
  assert (Hloc : unnamed s m -> exists r h, on_servers (fun krch => kr_conhash_locate krch (c_text (msgid m))) s = Ok (r, with_hash_mem h s) /\
    chosen s ves m r /\ coordi_rep (with_hash_mem h s) ves nes ps fm /\
    (forall a, r = Some a -> exists n n', heap (hash_mem s) !! a = Some n /\ heap h !! a = Some n' /\
       priv n' = priv n /\ KrConhash.id n' = KrConhash.id n)).
  { intros Hun. destruct (locate_heap _ _ _ _ (c_text (msgid m)) (cr_hash _ _ _ _ _ Hr)) as (h & E & Hh & Hheap & Hown).
    exists (owner (servers s) ves (c_text (msgid m))), h. unfold on_servers. rewrite E.
    assert (Hk : forall a n0, heap (hash_mem s) !! a = Some n0 -> exists n, heap h !! a = Some n /\ priv n = priv n0 /\ KrConhash.id n = KrConhash.id n0).
    { intros a n0 Ha. rewrite Hheap. destruct (owner _ _ _) as [o|]; [|by exists n0].
      destruct (decide (a = o)) as [->|Hne]; [|rewrite lookup_alter_ne by done; by exists n0].
      rewrite lookup_alter_eq, Ha. by exists (kick n0). }
    split_and!; [done|by right| |].
    - apply rep_hash_mem; [done..| |intros a n0 Ha; destruct (Hk a n0 Ha) as (n & ? & ? & _); by exists n].
      intros a n Ha. assert (Hs : is_Some (heap (hash_mem s) !! a)).
      { rewrite Hheap in Ha. destruct (owner _ _ _) as [o|]; [|by eexists].
        destruct (decide (a = o)) as [->|Hne]; [by apply Hown|]. rewrite lookup_alter_ne in Ha by done. by eexists. }
      destruct Hs as [n0 Hn0]. destruct (Hk a n0 Hn0) as (n' & Hn' & ? & ?). exists n0. rewrite Ha in Hn'. injection Hn' as ->. done.
    - intros a Ho. destruct (Hown a Ho) as [n0 Hn0]. destruct (Hk a n0 Hn0) as (n' & ? & ? & ?). by exists n0, n'. }
  destruct (Z.eqb_spec b 0) as [->|Hb]; cbn [negb].
  - rewrite (bind_ok _ _ _ None s) by done. apply Hloc. intros a (b' & n & E & Hb' & _). rewrite Es in E. by injection E as <-.
  - destruct (on_servers_lookup s ves nes ps fm _ Hr Hi) as (found & Ef & Hfound). rewrite (bind_ok _ _ _ _ _ Ef).
    destruct found as [a|].
    + destruct Hfound as (n & Ha & Hid). exists (Some a), (hash_mem s). rewrite Hself. split_and!; [done| |done|].
      * left. exists b, n. by rewrite Es at 1.
      * intros a' [= <-]. by exists n, n.
    + apply Hloc. intros a (b' & n & _ & _ & Ha & Hid). by apply (Hfound a n).
Qed.

Definition send_to_all_from (p : ptr) (c : T_KRCoordiConnector) (q : ptr) (d : T_KRCoordiConnector) h s : T_KRCoordi :=
  with_conns (<[q := count_apply d]> (<[p := count_apply c]> (conns s))) (with_hash_mem h s).

Lemma strcpy_array n l i : array_ok n l -> (String.length i <= n)%nat -> exists l', strcpy l i = Ok (string_bytes i ++ [0] ++ l') /\
  array_ok n (string_bytes i ++ [0] ++ l').
Proof.
  intros (a & -> & Ha & Hby) Hi. pose proof (string_bytes_length i) as Hs. pose proof (string_bytes_range i) as Hbi.
  set (b := string_bytes i) in *.
  unfold strcpy. fold b.
  rewrite (memcpy_eq (a ++ [0]) [] (take (S (length b)) (a ++ [0])) (drop (S (length b)) (a ++ [0]))); [|by rewrite take_drop|done|].
  2:{ unfold size_of. rewrite length_take, !length_app. change (length [0]) with 1%nat. lia. }
  exists (drop (S (length b)) (a ++ [0])). split; [by rewrite <- app_assoc|].
  destruct (decide (length b = n)) as [Hn|Hn].
  - exists b. rewrite drop_ge by (rewrite length_app; change (length [0]) with 1%nat; lia). by split_and!.
  - exists (b ++ [0] ++ drop (S (length b)) a). rewrite drop_app_le by lia. split_and!; [by rewrite <- !app_assoc| |].
    + rewrite !length_app, length_drop. change (length [0]) with 1%nat. lia.
    + apply Forall_app. split; [done|]. apply Forall_app. split; [by repeat constructor|]. by apply Forall_drop.
Qed.

Lemma client_unique s ves nes ps fm i p c p' c' :
  coordi_rep s ves nes ps fm -> online s KR_COORDI_CLIENT i p c -> online s KR_COORDI_CLIENT i p' c' -> p = p' /\ c = c'.
Proof.
  intros Hr (Hp & Hrole & Hid) (Hp' & Hrole' & Hid'). assert (p = p') as ->; [|split; congruence].
  destruct (cr_clients _ _ _ _ _ Hr _ _ Hp Hrole) as (q1 & r1 & Hin1 & Hc1).
  destruct (cr_clients _ _ _ _ _ Hr _ _ Hp' Hrole') as (q2 & r2 & Hin2 & Hc2).
  destruct (cr_refs _ _ _ _ _ Hr _ _ Hin1) as (x1 & d1 & ? & ? & _ & Hi1).
  destruct (cr_refs _ _ _ _ _ Hr _ _ Hin2) as (x2 & d2 & ? & ? & _ & Hi2).
  destruct (names_unique ps q1 r1 q2 r2 (cr_names _ _ _ _ _ Hr) Hin1 Hin2) as [_ ->]; congruence.
Qed.
Lemma server_unique s ves nes ps fm i p c p' c' :
  coordi_rep s ves nes ps fm -> online s KR_COORDI_SERVER i p c -> online s KR_COORDI_SERVER i p' c' -> p = p' /\ c = c'.
Proof.
  intros Hr (H1 & H2 & H3) (H1' & H2' & H3').
  destruct (cr_servers _ _ _ _ _ Hr _ _ H1 H2) as (a & n & Ha & Hn), (cr_servers _ _ _ _ _ Hr _ _ H1' H2') as (a' & n' & Ha' & Hn').
  destruct (cr_nodes _ _ _ _ _ Hr _ _ Ha) as (e & He & _ & Hi & _), (cr_nodes _ _ _ _ _ Hr _ _ Ha') as (e' & He' & _ & Hi' & _).
  assert (Haa : a = a') by (apply (ch_unique _ _ _ _ _ (cr_hash _ _ _ _ _ Hr) a a' n n' Ha Ha'); congruence).
  assert (p = p') by congruence. split; congruence.
Qed.
Lemma update_conn_eq s p c f : conns s !! p = Some c -> update_conn p f s = Ok (c, with_conns (<[p := f c]> (conns s)) s).
Proof. intros Hp. unfold update_conn, get_conn, put_conn, mbind, M_bind. by rewrite Hp, Hp. Qed.

Lemma apply_run s ves nes ps fm fd m :
  coordi_rep s ves nes ps fm -> message_ok m ->
  let i := c_text (clientid m) in
  nobody s KR_COORDI_CLIENT i /\ kr_coordi_handle_apply fd m s = Ok (-1, s) \/
  exists p c, online s KR_COORDI_CLIENT i p c /\
    (chosen s ves m None /\ (exists s', kr_coordi_handle_apply fd m s = Ok (-1, s') /\ coordi_rep s' ves nes ps fm) \/
     exists a n d h l, chosen s ves m (Some a) /\ heap (hash_mem s) !! a = Some n /\ conns s !! priv n = Some d /\
       online s KR_COORDI_SERVER (KrConhash.id n) (priv n) d /\ 0 < replica d /\
       array_ok 26 (string_bytes (c_id d) ++ [0] ++ l) /\
       coordi_rep (send_to_all_from p c (priv n) d h s) ves nes ps fm /\
       kr_coordi_handle_apply fd m s =
         (send_to_all (with_serverid (string_bytes (c_id d) ++ [0] ++ l) m);; mret 0) (send_to_all_from p c (priv n) d h s)).
Proof.
  intros Hr Hm i. unfold kr_coordi_handle_apply. fold i.
  destruct (search_client_spec s ves nes ps fm i Hr) as (found & Es & Hfound). rewrite (bind_ok _ _ _ _ _ Es).
  destruct found as [p|]; [|left; split; [by apply (client_nobody s ves nes ps fm)|done]].
  right. destruct Hfound as (c & q & r & Hp & Hrole & Hid & _). exists p, c. split; [by split_and!|].
  set (s1 := with_conns (<[p := count_apply c]> (conns s)) s).
  rewrite (bind_ok _ _ _ c s1) by (by apply update_conn_eq).
  assert (Hr1 : coordi_rep s1 ves nes ps fm) by (by apply rep_counter).
  destruct (choose_server s1 ves nes ps fm m Hr1 Hm) as (found & h & Ec & Hch & Hr2 & Hnode). rewrite (bind_ok _ _ _ _ _ Ec).
  destruct found as [a|]; [right|left; split; [exact Hch|eexists; split; [done|exact Hr2]]].
  destruct (Hnode a eq_refl) as (n & n' & Ha & Ha' & Hpr & Hid').
  destruct (cr_nodes _ _ _ _ _ Hr _ _ Ha) as (d & Hd & Hrd & Hidd & Hrep).
  rewrite (bind_ok _ _ _ n' (with_hash_mem h s1)) by (unfold on_servers, KrConhash.get_node; cbn [hash_mem with_hash_mem]; by rewrite Ha').
  rewrite Hpr. assert (Hne : priv n <> p) by congruence.
  assert (Hd1 : conns (with_hash_mem h s1) !! priv n = Some d) by (cbn; by rewrite lookup_insert_ne).
  rewrite (bind_ok _ _ _ d (with_hash_mem h s1)) by (unfold get_conn; by rewrite Hd1).
  destruct (cr_conns _ _ _ _ _ Hr _ _ Hd) as (_ & _ & [Hlen _]).
  destruct (strcpy_array 26 (serverid m) (c_id d) (mo_serverid _ Hm) Hlen) as (l & El & Hl).
  rewrite bind_lift, El. rewrite (bind_ok _ _ _ d (send_to_all_from p c (priv n) d h s)) by (by rewrite (update_conn_eq _ _ _ _ Hd1)).
  exists a, n, d, h, l. split_and!; try done.
  pose proof (rep_counter (with_hash_mem h s1) ves nes ps fm (priv n) count_apply d Hr2 Hd1) as Hr3. by apply Hr3.
Qed.

Lemma cut_null_short l : (length (cut_null l) <= length l)%nat.
Proof. induction l as [|b l IH]; cbn [cut_null]; [done|]. destruct (b =? 0); cbn [List.length]; lia. Qed.
Lemma array_name_fits n l : (0 < n)%nat -> array_ok n l -> name_fits (Z.of_nat n) l.
Proof.
  intros Hn (a & -> & Ha & _). split; [unfold size_of; rewrite length_app; change (length [0]) with 1%nat; lia|].
  assert (H : forall a : list Z, (length (cut_null (a ++ [0%Z])) <= length a)%nat).
  { clear. induction a as [|b a IH]; cbn [app cut_null]; [done|]. destruct (b =? 0); cbn [List.length]; lia. }
  destruct a as [|b a]; [cbn in Ha; lia|]. unfold size_of.
  destruct (Z.eq_dec b 0) as [->|Hb]; [pose proof (H (45 :: a)) as Hl|pose proof (H (b :: a)) as Hl].
  - cbn [app dashed List.length] in *. lia.
  - replace (dashed ((b :: a) ++ [0])) with ((b :: a) ++ [0]) by (by destruct b). lia.
Qed.
Lemma message_fits m : message_ok m -> header_fits m.
Proof.
  intros Hm. split; [apply Hm| | | |apply Hm].
  - apply (array_name_fits 16); [lia|apply Hm].
  - apply (array_name_fits 26); [lia|apply Hm].
  - apply (array_name_fits 26); [lia|apply Hm].
Qed.
Lemma sent_wire m : header_fits m -> body_ok m ->
  header_fits (sent m) /\ body_ok (sent m) /\ cut_head (sent m) = cut_head m /\ body_of (sent m) = body_of m.
Proof.
  intros [Hty Hid Hsid Hcid Hsrc] Hb.
  assert (Hd : forall l, dashed (dashed l) = dashed l) by (intros [|[] l]; done).
  assert (Hn : forall n l, name_fits n l -> name_fits n (dashed l)).
  { intros n l [H1 H2]. split; [by destruct l as [|[] l]|by rewrite Hd]. }
  split_and!; try done.
  - constructor; cbn; auto.
  - unfold cut_head, head_front, sent, kr_message_head_dump. cbn [fst msgtype msgid serverid clientid datasrc msglen]. by rewrite !Hd.
Qed.

(** The descriptor of the server of an entry. *)
Definition server_fd (h : gmap ptr (T_KRActualNode (P:=ptr))) (cs : gmap ptr T_KRCoordiConnector) (e : Z * naddr) : option Z :=
  a ← n_node e.2; n ← h !! a; c ← cs !! priv n; Some (c_fd c).
Definition reachable (h : gmap ptr (T_KRActualNode (P:=ptr))) (cs : gmap ptr T_KRCoordiConnector) (k : gmap Z socket) (room : Z) (e : Z * naddr) : Prop :=
  exists a n c x, n_node e.2 = Some a /\ h !! a = Some n /\ cs !! priv n = Some c /\ replica c <> 0 /\
    k !! c_fd c = Some x /\ ready (s_writes x) room.

(** Every server gets the message, once. *)
Lemma send_fold_all h cs es : forall k m,
  Forall (reachable h cs k (KR_MSGHEADER_LEN + Z.max 0 (msglen m))) es -> NoDup (map (server_fd h cs) es) ->
  header_fits m -> body_ok m ->
  exists k' m', foldl (fun acc e => kr_coordi_send_to_server h (Some e.2) acc) (Ok (cs, k, m)) es = Ok (cs, k', m') /\
    (forall e f, e ∈ es -> server_fd h cs e = Some f -> exists x w, k !! f = Some x /\
       k' !! f = Some (mkSocket (s_in x) (s_out x ++ cut_head m ++ body_of m) w)) /\
    (forall f, (forall e, e ∈ es -> server_fd h cs e <> Some f) -> k' !! f = k !! f).
Proof.
  induction es as [|e es IH]; intros k m Hes Hnd Hm Hb; cbn [foldl].
  { exists k, m. split_and!; [done| |done]. intros e f He. by apply not_elem_of_nil in He. }
  apply Forall_cons in Hes as [(a & n & c & x & Ha & Hn & Hc & Hrep & Hx & Hready) Hes].
  cbn [map] in Hnd. apply NoDup_cons in Hnd as [Hnew Hnd].
  assert (Hfd : server_fd h cs e = Some (c_fd c)).
  { unfold server_fd. rewrite Ha. cbn [mbind option_bind]. rewrite Hn. cbn [mbind option_bind]. by rewrite Hc. }
  destruct (message_write_spec x m Hm Hb Hready) as (w & r & Ew & Hr).
  set (x1 := mkSocket (s_in x) (s_out x ++ cut_head m ++ body_of m) w) in *.
  assert (Hstep : kr_coordi_send_to_server h (Some e.2) (Ok (cs, k, m)) = Ok (cs, <[c_fd c := x1]> k, sent m)).
  { unfold kr_coordi_send_to_server. cbn [mbind res_bind option_bind]. unfold mbind at 1, option_bind.
    rewrite Ha. cbn [of_option mbind res_bind]. rewrite Hn. cbn [of_option mbind res_bind]. rewrite Hc. cbn [of_option mbind res_bind].
    rewrite (proj2 (Z.eqb_neq _ _) Hrep). cbn [negb orb]. unfold write_message. rewrite Hx, Ew. cbn [mbind res_bind].
    by rewrite (proj2 (Z.leb_gt _ _)) by lia. }
  rewrite Hstep. destruct (sent_wire m Hm Hb) as (Hm' & Hb' & Hch & Hbo).
  assert (Hother : forall e', e' ∈ es -> server_fd h cs e' <> Some (c_fd c)).
  { intros e' He' E. apply Hnew. rewrite Hfd. apply list_elem_of_fmap. by exists e'. }
  destruct (IH (<[c_fd c := x1]> k) (sent m)) as (k' & m' & E & Hin & Hout); [|done..|].
  { apply Forall_forall. intros e' He'. rewrite Forall_forall in Hes.
    destruct (Hes e' He') as (a' & n' & c' & x' & Ha' & Hn' & Hc' & Hrep' & Hx' & Hready'). exists a', n', c', x'.
    split_and!; try done. rewrite lookup_insert_ne; [done|]. intros Heq. apply (Hother e' He').
    unfold server_fd. rewrite Ha'. cbn [mbind option_bind]. rewrite Hn'. cbn [mbind option_bind]. rewrite Hc'. cbn. by rewrite Heq. }
  rewrite Hch, Hbo in Hin. exists k', m'. split_and!; [exact E| |].
  - intros e' f [->|He']%elem_of_cons Hf.
    + rewrite Hfd in Hf. injection Hf as <-. exists x, w. split; [done|].
      rewrite Hout by (intros e' He'; by apply Hother). by rewrite lookup_insert_eq.
    + destruct (Hin e' f He' Hf) as (y & w' & Hy & Hk'). exists y, w'. split; [|done].
      rewrite lookup_insert_ne in Hy; [done|]. intros Heq. apply (Hother e' He'). by rewrite Hf, Heq.
  - intros f Hf. rewrite Hout by (intros e' He'; apply Hf; by right). rewrite lookup_insert_ne; [done|].
    intros Heq. apply (Hf e); [by left|]. by rewrite Hfd, Heq.
Qed.

Lemma nodes_nodup s ves nes ps fm : coordi_rep s ves nes ps fm -> NoDup nes.
Proof.
  intros Hr. destruct (ch_nlist _ _ _ _ _ (cr_hash _ _ _ _ _ Hr)) as [qs Hn].
  pose proof (KrSkiplist.rep_sorted _ _ _ _ Hn) as Hs. rewrite (ch_ncmp _ _ _ _ _ (cr_hash _ _ _ _ _ Hr)) in Hs.
  clear -Hs. induction Hs as [|e es Hs IH He]; constructor; [|done]. intros Hin. rewrite Forall_forall in He.
  specialize (He e Hin). unfold entry_lt, precedes, kr_node_compare in He.
  by rewrite Z.ltb_irrefl, Z.eqb_refl, strcmp_refl in He.
Qed.
Lemma server_fd_of s ves nes ps fm e f : coordi_rep s ves nes ps fm -> e ∈ nes ->
  server_fd (heap (hash_mem s)) (conns s) e = Some f ->
  exists a n c, heap (hash_mem s) !! a = Some n /\ e = nentry (servers s) (KrConhash.id n) a /\
    conns s !! priv n = Some c /\ role c = KR_COORDI_SERVER /\ 0 < replica c /\ c_fd c = f.
Proof.
  intros Hr He Hf. apply (ch_nes _ _ _ _ _ (cr_hash _ _ _ _ _ Hr)) in He as (a & n & Ha & ->).
  destruct (cr_nodes _ _ _ _ _ Hr _ _ Ha) as (c & Hc & Hrole & _ & Hrep). exists a, n, c. split_and!; try done.
  unfold server_fd in Hf. cbn in Hf. rewrite Ha in Hf. cbn in Hf. rewrite Hc in Hf. by injection Hf.
Qed.
Lemma server_fds_nodup s ves nes ps fm : coordi_rep s ves nes ps fm ->
  NoDup (map (server_fd (heap (hash_mem s)) (conns s)) nes).
Proof.
  intros Hr. apply NoDup_fmap_2_strong; [|by eapply nodes_nodup]. intros e e' He He' Heq.
  pose proof (nodes_send _ _ _ _ _ Hr) as Hs. rewrite Forall_forall in Hs.
  destruct (Hs e He) as (a0 & n0 & c0 & H1 & H2 & H3).
  assert (Hf : server_fd (heap (hash_mem s)) (conns s) e = Some (c_fd c0)).
  { unfold server_fd. rewrite H1. cbn. rewrite H2. cbn. by rewrite H3. }
  rewrite Hf in Heq. symmetry in Heq.
  destruct (server_fd_of _ _ _ _ _ _ _ Hr He Hf) as (a & n & c & Ha & -> & Hc & _ & _ & Hfc).
  destruct (server_fd_of _ _ _ _ _ _ _ Hr He' Heq) as (a' & n' & c' & Ha' & -> & Hc' & _ & _ & Hfc').
  assert (Hpr : priv n = priv n') by (apply (cr_unique _ _ _ _ _ Hr (priv n) (priv n') c c' Hc Hc'); congruence).
  destruct (cr_nodes _ _ _ _ _ Hr _ _ Ha) as (d & Hd & _ & Hi & _).
  destruct (cr_nodes _ _ _ _ _ Hr _ _ Ha') as (d' & Hd' & _ & Hi' & _).
  assert (Hid : KrConhash.id n = KrConhash.id n') by congruence.
  by rewrite Hid, (ch_unique _ _ _ _ _ (cr_hash _ _ _ _ _ Hr) a a' n n' Ha Ha' Hid).
Qed.

(** The server that an event goes to. *)
Definition target s (m : T_KRMessage) (a : ptr) : Prop :=
  named s m a \/ unnamed s m /\ exists h, kr_conhash_locate (servers s) (c_text (msgid m)) (hash_mem s) = Ok (Some a, h).
Lemma chosen_target s ves nes ps fm m r a :
  coordi_rep s ves nes ps fm -> chosen s ves m r -> target s m a -> r = Some a.
Proof.
  intros Hr Hc Ht. destruct Hc as [Hc|[Hun Hc]], Ht as [Ht|[Hun' [h Ht]]].
  - destruct r as [b|]; [|done]. destruct Hc as (x & n & _ & _ & Hb & Hi), Ht as (x' & n' & _ & _ & Ha & Hi').
    f_equal. apply (ch_unique _ _ _ _ _ (cr_hash _ _ _ _ _ Hr) b a n n' Hb Ha). congruence.
  - destruct r as [b|]; [|done]. by destruct (Hun' b).
  - by destruct (Hun a).
  - destruct (locate_heap _ _ _ _ (c_text (msgid m)) (cr_hash _ _ _ _ _ Hr)) as (h' & E & _). rewrite E in Ht. congruence.
Qed.

(** The two counters of an event. *)
Lemma advance_counted s ves nes ps fm p c a n d h :
  coordi_rep s ves nes ps fm -> conns s !! p = Some c -> role c = KR_COORDI_CLIENT ->
  heap (hash_mem s) !! a = Some n -> conns s !! priv n = Some d ->
  advance (conns s) (socks s) (conns (send_to_all_from p c (priv n) d h s)) (socks s).
Proof.
  intros Hr Hp Hrole Ha Hd. eapply advance_trans; [by apply (advance_counter (conns s) (socks s) p c count_apply)|].
  apply (advance_counter _ _ (priv n) d count_apply); [|done]. rewrite lookup_insert_ne; [done|].
  intros Heq. destruct (cr_nodes _ _ _ _ _ Hr _ _ Ha) as (e & He & Hre & _). congruence.
Qed.
(** The servers that are online are the entries of the list. *)
Lemma server_entries s ves nes ps fm q e : coordi_rep s ves nes ps fm -> conns s !! q = Some e -> role e = KR_COORDI_SERVER ->
  exists x, x ∈ nes /\ server_fd (heap (hash_mem s)) (conns s) x = Some (c_fd e).
Proof.
  intros Hr Hq He. destruct (cr_servers _ _ _ _ _ Hr q e Hq He) as (b & nb & Hb & <-).
  exists (nentry (servers s) (KrConhash.id nb) b). split; [apply (ch_nes _ _ _ _ _ (cr_hash _ _ _ _ _ Hr)); by exists b, nb|].
  unfold server_fd. cbn. rewrite Hb. cbn. by rewrite Hq.
Qed.

(** C8. An event of a client that is online is counted for it and for the server that it
    names or that the ring has for its identifier; it is written, with that server's name,
    to every server that is online and to nothing else: consistent hashing decides only
    which server answers for the event. *)
Theorem kr_coordi_routes_event s fd m p c a n d :
  coordi_ok s -> message_ok m -> body_ok m -> online s KR_COORDI_CLIENT (c_text (clientid m)) p c ->
  target s m a -> heap (hash_mem s) !! a = Some n -> conns s !! priv n = Some d ->
  (forall q e, conns s !! q = Some e -> role e = KR_COORDI_SERVER ->
     exists x, socks s !! c_fd e = Some x /\ ready (s_writes x) (KR_MSGHEADER_LEN + Z.max 0 (msglen m))) ->
  exists s' l, kr_coordi_handle_apply fd m s = Ok (0, s') /\ coordi_ok s' /\
    conns s' = <[priv n := count_apply d]> (<[p := count_apply c]> (conns s)) /\
    (forall q e x, conns s !! q = Some e -> role e = KR_COORDI_SERVER -> socks s !! c_fd e = Some x ->
       exists w, socks s' !! c_fd e =
         Some (mkSocket (s_in x) (s_out x ++ wire (with_serverid (string_bytes (c_id d) ++ [0] ++ l) m)) w)) /\
    (forall f, (forall q e, conns s !! q = Some e -> role e = KR_COORDI_SERVER -> c_fd e <> f) -> socks s' !! f = socks s !! f).
Proof.
  intros (ves & nes & ps & fm & Hr) Hm Hbody Hon Ht Ha Hd Hsocks. pose proof Hon as (Hp & Hrole & Hid).
  destruct (apply_run s ves nes ps fm fd m Hr Hm) as [[Hno _]|(p' & c' & Hon' & Hcase)]; [by destruct (Hno p c)|].
  destruct (client_unique s ves nes ps fm _ p c p' c' Hr Hon Hon') as [<- <-].
  destruct Hcase as [[Hch _]|(b & n' & d' & h & l & Hch & Hb & Hd' & _ & _ & Hl & Hr3 & Erun)].
  { by pose proof (chosen_target _ _ _ _ _ _ _ _ Hr Hch Ht). }
  pose proof (chosen_target _ _ _ _ _ _ _ _ Hr Hch Ht) as [= ->].
  rewrite Ha in Hb. injection Hb as <-. rewrite Hd in Hd'. injection Hd' as <-.
  set (s3 := send_to_all_from p c (priv n) d h s) in *. set (m' := with_serverid (string_bytes (c_id d) ++ [0] ++ l) m) in *.
  assert (Hm' : message_ok m') by (destruct Hm; by constructor).
  pose proof (advance_counted s ves nes ps fm p c a n d h Hr Hp Hrole Ha Hd) as Hadv. fold s3 in Hadv.
  destruct (send_fold_all (heap (hash_mem s3)) (conns s3) nes (socks s) m') as (k' & m1 & Ef & Hin & Hout).
  { apply Forall_forall. intros e He. pose proof (nodes_send _ _ _ _ _ Hr3) as Hs. rewrite Forall_forall in Hs.
    destruct (Hs e He) as (a0 & n0 & c0 & H1 & H2 & H3).
    destruct (adv_back _ _ _ _ Hadv _ _ H3) as (c1 & Hc1 & Hfd & Hrl & _ & Hrp).
    destruct (cr_nodes _ _ _ _ _ Hr3 _ _ H2) as (c2 & Hc2 & Hrole2 & _ & Hrep2). rewrite H3 in Hc2. injection Hc2 as <-.
    destruct (Hsocks (priv n0) c1 Hc1) as (x & Hx & Hready); [congruence|].
    exists a0, n0, c0, x. split_and!; try done; [lia|by rewrite Hfd]. }
  { by eapply server_fds_nodup. }
  { by apply message_fits. }
  { exact Hbody. }
  rewrite (bind_ok _ _ _ tt (with_socks k' (with_conns (conns s3) s3))) in Erun.
  2:{ rewrite (send_to_all_eq s3 ves nes ps fm) by done. change (socks s3) with (socks s). by rewrite Ef. }
  exists (with_socks k' (with_conns (conns s3) s3)), l. split; [exact Erun|].
  assert (Hwire : cut_head m' ++ body_of m' = wire m') by (rewrite cut_head_fits; [done|apply Hm']).
  split_and!.
  - exists ves, nes, ps, fm. apply (rep_advance s3); [done|].
    destruct (send_fold_runs (heap (hash_mem s3)) nes (conns s3) (socks s) m') as (cs2 & k2 & m2 & E2 & Ha2);
      [by eapply nodes_send|apply Hm'|]. rewrite Ef in E2. by injection E2 as <- <- _.
  - done.
  - intros q e x Hq He Hx. destruct (adv_fwd _ _ _ _ Hadv _ _ Hq) as (e' & He' & Hfd & Hrl & _).
    destruct (server_entries s3 ves nes ps fm q e' Hr3 He') as (y & Hy & Hf); [congruence|].
    destruct (Hin y _ Hy Hf) as (x' & w & Hx' & Hk). rewrite Hfd, Hx in Hx'. injection Hx' as <-.
    exists w. rewrite Hfd, Hwire in Hk. exact Hk.
  - intros f Hf. apply Hout. intros e He E. destruct (server_fd_of _ _ _ _ _ _ _ Hr3 He E) as (b & nb & cb & _ & _ & Hcb & Hrb & _ & <-).
    destruct (adv_back _ _ _ _ Hadv _ _ Hcb) as (e0 & He0 & Hfd & Hrl & _). apply (Hf (priv nb) e0 He0); congruence.
Qed.

Lemma reply_run s ves nes ps fm fd m :
  coordi_rep s ves nes ps fm -> message_ok m ->
  nobody s KR_COORDI_SERVER (c_text (serverid m)) /\ kr_coordi_handle_reply fd m s = Ok (-1, s) \/
  exists q d, online s KR_COORDI_SERVER (c_text (serverid m)) q d /\
    let s1 := with_conns (<[q := count_reply d]> (conns s)) s in
    (nobody s KR_COORDI_CLIENT (c_text (clientid m)) /\ kr_coordi_handle_reply fd m s = Ok (-1, s1) \/
     exists p c n k, online s KR_COORDI_CLIENT (c_text (clientid m)) p c /\ p <> q /\
       write_message (c_fd c) m (socks s) = Ok (n, sent m, k) /\ (forall f, is_Some (socks s !! f) <-> is_Some (k !! f)) /\
       kr_coordi_handle_reply fd m s =
         if n <=? 0 then Ok (-1, with_socks k (with_conns (<[p := count_error c]> (conns s1)) s1))
         else Ok (0, with_socks k (with_conns (<[p := count_reply c]> (conns s1)) s1))).
Proof.
  intros Hr Hm. pose proof (proj1 (c_text_ok _ _ (mo_serverid _ Hm))) as Hlen.
  assert (Hi : (String.length (c_text (serverid m)) < ID_SIZE)%nat) by (unfold ID_SIZE; lia).
  unfold kr_coordi_handle_reply.
  destruct (on_servers_lookup s ves nes ps fm _ Hr Hi) as (found & Ef & Hfound). rewrite (bind_ok _ _ _ _ _ Ef).
  destruct found as [a|]; [|left; split; [by apply (server_nobody s ves nes ps fm)|done]].
  right. destruct Hfound as (n & Ha & Hid). destruct (server_online _ _ _ _ _ _ _ _ Hr Ha Hid) as (d & Hd & _).
  exists (priv n), d. split; [done|]. cbv zeta.
  rewrite (bind_ok _ _ _ n s) by (unfold on_servers, KrConhash.get_node; rewrite Ha; by destruct s).
  pose proof Hd as (Hd1 & Hrd & _). rewrite (bind_ok _ _ _ _ _ (update_conn_eq _ _ _ _ Hd1)).
  set (s1 := with_conns (<[priv n := count_reply d]> (conns s)) s).
  assert (Hr1 : coordi_rep s1 ves nes ps fm) by (by apply rep_counter).
  destruct (search_client_spec s1 ves nes ps fm (c_text (clientid m)) Hr1) as (fc & Es & Hfc). rewrite (bind_ok _ _ _ _ _ Es).
  destruct fc as [p|]; [|left; split; [by apply (client_nobody s ves nes ps fm)|done]].
  right. destruct Hfc as (c & q & r & Hp & Hrole & Hcid & _).
  assert (Hne : p <> priv n).
  { intros ->. unfold s1 in Hp. cbn in Hp. rewrite lookup_insert_eq in Hp. injection Hp as <-. cbn in Hrole. congruence. }
  assert (Hp0 : conns s !! p = Some c) by (unfold s1 in Hp; cbn in Hp; by rewrite lookup_insert_ne in Hp).
  destruct (write_message_runs (c_fd c) m (socks s) (mo_body _ Hm)) as (w & k & Ew & Hopen & _).
  exists p, c, w, k. split_and!; try done.
  rewrite (bind_ok _ _ _ c s1) by (unfold get_conn; by rewrite Hp).
  rewrite (bind_ok _ _ _ w (with_socks k s1)) by (change (socks s1) with (socks s); by rewrite Ew).
  assert (Hp2 : conns (with_socks k s1) !! p = Some c) by done.
  destruct (w <=? 0); by rewrite (bind_ok _ _ _ _ _ (update_conn_eq _ _ _ _ Hp2)).
Qed.

(** C10. A reply of a server that is online goes to the client it names, byte for byte, and is
    counted for both. *)
Theorem kr_coordi_passes_reply s fd m q d p c x :
  coordi_ok s -> message_ok m -> body_ok m -> online s KR_COORDI_SERVER (c_text (serverid m)) q d ->
  online s KR_COORDI_CLIENT (c_text (clientid m)) p c ->
  socks s !! c_fd c = Some x -> ready (s_writes x) (KR_MSGHEADER_LEN + Z.max 0 (msglen m)) ->
  exists s' w, kr_coordi_handle_reply fd m s = Ok (0, s') /\ coordi_ok s' /\
    conns s' = <[p := count_reply c]> (<[q := count_reply d]> (conns s)) /\
    socks s' = <[c_fd c := mkSocket (s_in x) (s_out x ++ wire m) w]> (socks s).
Proof.
  intros (ves & nes & ps & fm & Hr) Hm Hbody Hq Hp Hx Hready.
  destruct (reply_run s ves nes ps fm fd m Hr Hm) as [[Hno _]|(q' & d' & Hq' & Hcase)]; [by destruct (Hno q d)|].
  destruct (server_unique s ves nes ps fm _ q d q' d' Hr Hq Hq') as [<- <-].
  destruct Hcase as [[Hno _]|(p' & c' & n & k & Hp' & _ & Ew & Hopen & E)]; [by destruct (Hno p c)|].
  destruct (client_unique s ves nes ps fm _ p c p' c' Hr Hp Hp') as [<- <-].
  destruct (message_write_spec x m (message_fits m Hm) Hbody Hready) as (w & n' & Ew' & Hn).
  unfold write_message in Ew. rewrite Hx, Ew' in Ew. cbn [mbind res_bind] in Ew. injection Ew as <- <-.
  rewrite (proj2 (Z.leb_gt _ _)) in E by lia. rewrite cut_head_fits in E by apply Hm.
  eexists _, w. split; [exact E|]. split_and!; [|done|done].
  exists ves, nes, ps, fm. apply (rep_advance (with_conns (<[q := count_reply d]> (conns s)) s)).
  - destruct Hq as (Hq1 & _). by apply rep_counter.
  - destruct Hq as (Hq1 & Hq2 & _), Hp as (Hp1 & Hp2 & _). rewrite cut_head_fits in Hopen by apply Hm.
    eapply advance_trans; [|apply (advance_counter _ _ p c count_reply); [|done]].
    + split; [intros y e H; exists e; split; [exact H|apply same_conn_refl]..|done].
    + cbn. rewrite lookup_insert_ne by congruence. done.
Qed.

(** ** Every message *)

(** A connection comes online once, and only while there is room; and a connection ends for
    itself only. *)
Record orderly s fd (m : T_KRMessage) : Prop := {
  or_svron : msgtype m = KR_MSGTYPE_SVRON -> unregistered s fd /\ room s;
  or_clion : msgtype m = KR_MSGTYPE_CLION -> unregistered s fd /\ room s;
  or_svroff : msgtype m = KR_MSGTYPE_SVROFF -> forall p c, online s KR_COORDI_SERVER (c_text (serverid m)) p c -> c_fd c = fd;
  or_clioff : msgtype m = KR_MSGTYPE_CLIOFF -> forall p c, online s KR_COORDI_CLIENT (c_text (clientid m)) p c -> c_fd c = fd
}.

Lemma room_socks s k : room s -> room (with_socks k s).
Proof. by intros []. Qed.
Lemma orderly_socks s fd m k : orderly s fd m -> orderly (with_socks k s) fd m.
Proof.
  intros [H1 H2 H3 H4]. constructor; try done.
  - intros E. destruct (H1 E) as [? ?]. split; [done|by apply room_socks].
  - intros E. destruct (H2 E). split; [done|by apply room_socks].
Qed.

Lemma apply_ok s fd m : coordi_ok s -> message_ok m ->
  exists n s', kr_coordi_handle_apply fd m s = Ok (n, s') /\ coordi_ok s'.
Proof.
  intros (ves & nes & ps & fm & Hr) Hm.
  destruct (apply_run s ves nes ps fm fd m Hr Hm) as [[_ E]|(p & c & _ & [(_ & s' & E & Hr')|(a & n & d & h & l & _ & _ & _ & _ & _ & Hl & Hr3 & E)])].
  - rewrite E. exists (-1), s. split; [done|]. by exists ves, nes, ps, fm.
  - rewrite E. exists (-1), s'. split; [done|]. by exists ves, nes, ps, fm.
  - set (m' := with_serverid _ m) in *. set (s3 := send_to_all_from p c (priv n) d h s) in *.
    destruct (send_fold_runs (heap (hash_mem s3)) nes (conns s3) (socks s3) m') as (cs & k & m1 & Ef & Hadv);
      [by eapply nodes_send|apply Hm|].
    rewrite (bind_ok _ _ _ tt (with_socks k (with_conns cs s3))) in E
      by (rewrite (send_to_all_eq s3 ves nes ps fm) by done; by rewrite Ef).
    exists 0, (with_socks k (with_conns cs s3)). split; [exact E|]. exists ves, nes, ps, fm. by apply rep_advance.
Qed.
Lemma reply_ok s fd m : coordi_ok s -> message_ok m ->
  exists n s', kr_coordi_handle_reply fd m s = Ok (n, s') /\ coordi_ok s'.
Proof.
  intros (ves & nes & ps & fm & Hr) Hm.
  destruct (reply_run s ves nes ps fm fd m Hr Hm) as [[_ E]|(q & d & (Hq & Hq2 & _) & Hcase)].
  { rewrite E. exists (-1), s. split; [done|]. by exists ves, nes, ps, fm. }
  cbv zeta in Hcase. set (s1 := with_conns (<[q := count_reply d]> (conns s)) s) in *.
  assert (Hr1 : coordi_rep s1 ves nes ps fm) by (by apply rep_counter).
  destruct Hcase as [[_ E]|(p & c & n & k & (Hp & Hp2 & _) & Hne & _ & Hopen & E)].
  { rewrite E. exists (-1), s1. split; [done|]. by exists ves, nes, ps, fm. }
  assert (Hcnt : forall f, same_conn c (f c) -> coordi_rep (with_socks k (with_conns (<[p := f c]> (conns s1)) s1)) ves nes ps fm).
  { intros f Hf. apply (rep_advance s1); [done|]. eapply advance_trans; [|apply (advance_counter _ _ p c f); [|done]].
    - split; [intros y e H; exists e; split; [exact H|apply same_conn_refl]..|exact Hopen].
    - cbn. by rewrite lookup_insert_ne. }
  rewrite E. destruct (n <=? 0); (eexists _, _; split; [done|]; exists ves, nes, ps, fm).
  - by apply (Hcnt count_error).
  - by apply (Hcnt count_reply).
Qed.

Definition bad_request (m : T_KRMessage) (e : fault) : Prop :=
  msgtype m = KR_MSGTYPE_SVRON /\ svron_request (msgbuf m) = Fault e.

Lemma message_outcome s fd m : coordi_ok s -> is_Some (socks s !! fd) -> message_ok m -> orderly s fd m ->
  (exists n s', kr_coordi_handle_message random time peer fd m s = Ok (n, s') /\ coordi_ok s') \/
  (exists e, bad_request m e /\ kr_coordi_handle_message random time peer fd m s = Fault e).
Proof.
  intros Hs Hf Hm [H1 H2 H3 H4]. unfold kr_coordi_handle_message.
  destruct (Z.eqb_spec (msgtype m) KR_MSGTYPE_SVRON) as [E|_].
  { destruct (H1 E) as (Hu & Hroom). pose proof (svron_spec s fd m Hs Hroom Hu Hf Hm) as H.
    destruct (svron_request (msgbuf m)) as [r|e] eqn:Hreq; [left|right; by exists e].
    destruct r as [[w r]|]; [|rewrite H; by exists (-1), s].
    destruct H as [[_ H]|(_ & s' & H & _ & Hok & _)]; rewrite H; eauto. }
  left.
  destruct (Z.eqb_spec (msgtype m) KR_MSGTYPE_SVROFF) as [E|_].
  { destruct (svroff_spec s fd m Hs Hm) as [[_ H]|(p & c & Hp & H)]; [rewrite H; eauto|].
    destruct (H (H3 E p c Hp)) as (s' & -> & Hok & _). eauto. }
  destruct (Z.eqb_spec (msgtype m) KR_MSGTYPE_CLION) as [E|_].
  { destruct (H2 E) as (Hu & Hroom).
    destruct (clion_spec s fd m Hs Hroom Hu Hf Hm) as [[_ H]|(_ & s' & H & _ & Hok & _)]; rewrite H; eauto. }
  destruct (Z.eqb_spec (msgtype m) KR_MSGTYPE_CLIOFF) as [E|_].
  { destruct (clioff_spec s fd m Hs Hm) as [[_ H]|(p & c & Hp & H)]; [rewrite H; eauto|].
    destruct (H (H4 E p c Hp)) as (s' & -> & Hok & _). eauto. }
  destruct (_ || _); [by apply apply_ok|]. destruct (_ || _); [by apply reply_ok|]. by exists (-1), s.
Qed.

Lemma message_handled s fd m : coordi_ok s -> is_Some (socks s !! fd) -> message_ok m -> orderly s fd m ->
  (msgtype m = KR_MSGTYPE_SVRON -> exists r, svron_request (msgbuf m) = Ok r) ->
  exists n s', kr_coordi_handle_message random time peer fd m s = Ok (n, s') /\ coordi_ok s'.
Proof.
  intros Hs Hf Hm Ho Hreq. destruct (message_outcome s fd m Hs Hf Hm Ho) as [H|(e & [Ht He] & _)]; [done|].
  destruct (Hreq Ht) as [r Hr]. congruence.
Qed.

(** ** The end of a connection *)

Lemma array_zeros n : array_ok n (zero_bytes (Z.of_nat n + 1)).
Proof.
  exists (zero_bytes (Z.of_nat n)). split_and!; [|unfold zero_bytes; rewrite length_replicate; lia|by apply Forall_replicate].
  by rewrite zero_bytes_app by lia.
Qed.
Lemma offline_spec c : name_ok 26 (c_id c) -> exists m, offline c = Ok m /\ message_ok m /\
  match role c with
  | KR_COORDI_SERVER => msgtype m = KR_MSGTYPE_SVROFF /\ c_text (serverid m) = c_id c
  | KR_COORDI_CLIENT => msgtype m = KR_MSGTYPE_CLIOFF /\ c_text (clientid m) = c_id c
  end.
Proof.
  intros [Hl Hn]. unfold offline.
  assert (H26 : array_ok 26 (zero_bytes (26 + 1))) by apply (array_zeros 26).
  assert (H16 : array_ok 16 (zero_bytes (16 + 1))) by apply (array_zeros 16).
  destruct (strcpy_array 26 (zero_bytes (26 + 1)) (c_id c) H26 Hl) as (l & E & Hl').
  destruct (role c); cbn [kr_message_alloc serverid clientid];
    (change (strcpy _ (c_id c)) with (strcpy (zero_bytes (26 + 1)) (c_id c)); rewrite E; cbn [mbind res_bind];
     eexists; split; [done|]; split; [|split; [done|by apply c_text_name]]; by constructor).
Qed.

Lemma rep_close s ves nes ps fm fd : coordi_rep s ves nes ps fm -> fm !! fd = None ->
  coordi_rep (with_socks (delete fd (socks s)) s) ves nes ps fm.
Proof.
  intros Hr Hf. destruct Hr as [H1 H2 H3 H4 H5 H6 H7 H8 H9 H10 H11 H12]. constructor; try done. cbn.
  intros p c Hp. destruct (H7 p c Hp) as (Hs & Hk & Hn). split_and!; try done.
  rewrite lookup_delete_ne; [done|]. intros ->. rewrite Hf in Hs. by destruct Hs.
Qed.

(** C9. Whatever arrives on an open connection, the round of the event loop that reads it
    ends, touches no connector that has been freed, and leaves every connector known to the
    table and to the hash or the list, once: as long as a connection comes online only once
    and while the lists and the table have room, and goes offline for itself ([orderly]).  A
    connection that ends needs no such condition.  The one exception is stated: a request to
    come online whose body makes the parser of JSON read beyond its bytes, which no null
    ends, or whose numbers no [int] holds. *)
Theorem kr_coordi_keeps_connectors s fd x :
  coordi_ok s -> socks s !! fd = Some x -> byte_input (s_in x) ->
  (forall m k, kr_message_read fd x = Ok (Some m, k) -> orderly s fd m) ->
  (exists s', kr_coordi_read_handler random time peer fd s = Ok (tt, s') /\ coordi_ok s') \/
  (exists m k e, kr_message_read fd x = Ok (Some m, k) /\ bad_request m e /\
     kr_coordi_read_handler random time peer fd s = Fault e).
Proof.
  intros (ves & nes & ps & fm & Hr) Hx Hin Hord. unfold kr_coordi_read_handler.
  destruct (message_read_runs fd x Hin) as (r & k & E & Hm).
  set (s1 := with_socks (<[fd := k]> (socks s)) s).
  rewrite (bind_ok _ _ _ r s1) by (by rewrite Hx, E).
  assert (Hr1 : coordi_rep s1 ves nes ps fm).
  { apply rep_socks; [done|]. intros f Hf. destruct (decide (f = fd)) as [->|Hne]; [rewrite lookup_insert_eq; by eexists|by rewrite lookup_insert_ne]. }
  assert (Hs1 : coordi_ok s1) by (by exists ves, nes, ps, fm).
  assert (Hf1 : is_Some (socks s1 !! fd)) by (cbn; rewrite lookup_insert_eq; by eexists).
  destruct r as [m|].
  { destruct (message_outcome s1 fd m Hs1 Hf1 (Hm m eq_refl)) as [(n & s' & Eh & Hok)|(e & Hbad & Eh)];
      [by apply orderly_socks, (Hord m k)|left|right].
    - rewrite (bind_ok _ _ _ _ _ Eh). by exists s'.
    - exists m, k, e. split_and!; [done..|]. unfold mbind, M_bind. by rewrite Eh. }
  left.
  rewrite (bind_ok _ _ _ _ _ (fd_lookup_spec s1 fm fd (cr_fds _ _ _ _ _ Hr1) (rep_live _ _ _ _ _ Hr1))).
  destruct (fm !! fd) as [[key v]|] eqn:Ef; cbn [mbind option_bind snd].
  - destruct (cr_fm _ _ _ _ _ Hr1 _ _ _ Ef) as (p & c & -> & -> & Hp & Hc).
    rewrite (bind_ok _ _ _ c s1) by (unfold get_conn; by rewrite Hp).
    destruct (cr_conns _ _ _ _ _ Hr1 _ _ Hp) as (_ & _ & Hname).
    destruct (offline_spec c Hname) as (m & Em & Hmok & Hrole). rewrite bind_lift, Em.
    destruct (message_handled s1 fd m Hs1 Hf1 Hmok) as (n & s' & Eh & Hok);
      [|destruct (role c); destruct Hrole as [-> _]; discriminate|rewrite (bind_ok _ _ _ _ _ Eh); by exists s'].
    destruct (role c) eqn:Ero; destruct Hrole as [Ety Eid]; constructor; rewrite Ety; try done; rewrite Eid; intros _ p' c' Hp'.
    + by destruct (server_unique s1 ves nes ps fm (c_id c) p c p' c' Hr1) as [_ <-].
    + by destruct (client_unique s1 ves nes ps fm (c_id c) p c p' c' Hr1) as [_ <-].
  - eexists. split; [reflexivity|]. exists ves, nes, ps, fm. by apply (rep_close s1).
Qed.

(** The exception: the bytes of a request are not ended by a null, so that the parser of a
    body that opens an object, and no more, goes on reading behind it. *)
Theorem kr_coordi_unterminated_request s fd m :
  msgbuf m = Some [123] ->
  kr_coordi_handle_svron random time peer fd m s = Fault OutOfBounds.
Proof. intros Hb. unfold kr_coordi_handle_svron. by rewrite bind_lift, Hb. Qed.

(** A connection that sends the end of a server that came online over another one is
    closed itself; the connector is freed, while the table keeps its key.  When the connection
    of that server ends, the search for its connector reads the freed memory. *)
Theorem kr_coordi_foreign_end s fd m q d x k :
  coordi_ok s -> message_ok m -> msgtype m = KR_MSGTYPE_SVROFF ->
  online s KR_COORDI_SERVER (c_text (serverid m)) q d -> c_fd d <> fd ->
  socks s !! c_fd d = Some x -> kr_message_read (c_fd d) x = Ok (None, k) ->
  exists s', kr_coordi_handle_message random time peer fd m s = Ok (0, s') /\
    socks s' = delete fd (socks s) /\ conns s' = delete q (conns s) /\
    kr_coordi_read_handler random time peer (c_fd d) s' = Fault BadPointer.
Proof.
  intros (ves & nes & ps & fm & Hr) Hm Hty Hq Hne Hx Hread.
  destruct (svroff_run s ves nes ps fm fd m Hr Hm) as [[Hno _]|(a & n & c & krch & h & t & ves' & nes' & Hc & _ & E & Ht & _)];
    [by destruct (Hno q d)|].
  destruct (server_unique s ves nes ps fm _ q d (priv n) c Hr Hq Hc) as [Epr <-]. rewrite <- Epr in E.
  unfold kr_coordi_handle_message. rewrite Hty. cbn [Z.eqb Pos.eqb KR_MSGTYPE_SVRON KR_MSGTYPE_SVROFF].
  eexists. split; [exact E|]. split_and!; [done..|].
  set (s1 := mkCoordi _ _ _ _ _ _ _). unfold kr_coordi_read_handler.
  set (s2 := with_socks (<[c_fd d := k]> (socks s1)) s1).
  rewrite (bind_ok _ _ _ None s2).
  2:{ unfold s1 at 1. cbn [socks]. by rewrite lookup_delete_ne, Hx, Hread by done. }
  destruct (proj1 (cr_conns _ _ _ _ _ Hr _ _ (proj1 Hq))) as [[key v] Hfm].
  destruct (cr_fm _ _ _ _ _ Hr _ _ _ Hfm) as (p & e & -> & -> & Hp & Hfe).
  assert (p = q) as -> by (by apply (cr_unique _ _ _ _ _ Hr p q e d Hp (proj1 Hq))).
  destruct Ht as (w & [_ Hok _ _ _] & _).
  destruct (no_complete _ _ _ _ _ Hok (c_fd d) (mkFdKey (Some q) (c_fd d)) (Some q)) as (_ & i & Hi).
  { by rewrite lookup_delete_ne. }
  assert (Hfree : compares_freed s2 (mkFdKey None (c_fd d)) = true).
  { unfold compares_freed. apply existsb_exists. eexists. split; [apply list_elem_of_In, list_elem_of_lookup; exists i; exact Hi|].
    apply andb_true_iff. split; [apply Z.eqb_eq; cbn; done|]. unfold dangling. cbn [KrHashtable.key].
    apply bool_decide_eq_true. cbn. by rewrite lookup_delete_eq. }
  unfold fd_lookup, on_fdtable. apply bind_fault. by rewrite Hfree.
Qed.

(** The coordinator starts in order. *)
Lemma initialize_ok : exists s, kr_coordi_initialize = Ok s /\ coordi_ok s /\ room s /\ conns s = ∅ /\ socks s = ∅.
Proof.
  unfold kr_coordi_initialize, kr_hashtable_new.
  destruct (new_full_spec fd_hash k_fd (V:=ptr) false false) as (t & -> & Ht & _).
  cbn [mbind res_bind].
  destruct (construct_spec (P:=ptr) None false) as (h & krch & Eh & Hh & Hheap & _). rewrite Eh. cbn [mbind res_bind fst snd].
  eexists. split; [reflexivity|]. split; [|split; [|by split]].
  - exists [], [], [], ∅. constructor; cbn [servers clients fdtable conns hash_mem list_mem socks].
    + exact Hh.
    + split; cbn; [reflexivity|apply NoDup_nil_2|reflexivity..|unfold UINT_MAX; lia].
    + reflexivity.
    + constructor.
    + exact Ht.
    + intros fd k v Hk. rewrite lookup_empty in Hk. discriminate Hk.
    + intros p c Hc. rewrite lookup_empty in Hc. discriminate Hc.
    + intros p p' c c' Hc. rewrite lookup_empty in Hc. discriminate Hc.
    + intros a n Hn. rewrite Hheap, lookup_empty in Hn. discriminate Hn.
    + intros p c Hc. rewrite lookup_empty in Hc. discriminate Hc.
    + intros q r Hin. inversion Hin.
    + intros p c Hc. rewrite lookup_empty in Hc. discriminate Hc.
  - pose proof (ch_vlist _ _ _ _ _ Hh) as [ps Hv]. pose proof (ch_nlist _ _ _ _ _ Hh) as [qs Hn].
    apply KrSkiplist.rep_len in Hv, Hn. destruct Ht as (w & Hok & _). pose proof (tk_size _ _ _ _ _ Hok) as Hsz.
    rewrite map_size_empty in Hsz. constructor; cbn [servers clients fdtable]; [by rewrite Hv|by rewrite Hn|done|by rewrite Hsz].
Qed.

End Coordi.

(** * Examples *)

Definition ex_name (n : Z) (s : string) : list Z := string_bytes s ++ zero_bytes (n + 1 - Z.of_nat (String.length s)).
Definition ex_message (ty : Z) (sid cid body : string) : T_KRMessage :=
  let b := string_bytes body in
  mkMessage 0 ty (ex_name 16 "0001") (ex_name 26 sid) (ex_name 26 cid) 7 (size_of b) (match b with [] => None | _ => Some b end).
Definition ex_quote : string := String (ascii_of_nat 34) EmptyString.
Definition ex_svron : T_KRMessage :=
  ex_message KR_MSGTYPE_SVRON "server" "" ("{" ++ ex_quote ++ "weights" ++ ex_quote ++ ":1," ++ ex_quote ++ "replica" ++ ex_quote ++ ":1}").
Definition ex_clion : T_KRMessage := ex_message KR_MSGTYPE_CLION "" "client" "".
Definition ex_random : Z -> nat -> Z := fun _ _ => 0.
Definition ex_peer : Z -> string := fun _ => "peer"%string.

(** A server over the descriptor 5 and a client over 6. *)
Definition ex_accepted (sv cl : socket) : res T_KRCoordi :=
  s ← kr_coordi_initialize;
  '(_, s) ← kr_coordi_tcp_accept_handler (Some (5, sv)) true s;
  '(_, s) ← kr_coordi_tcp_accept_handler (Some (6, cl)) true s; Ok s.
Definition ex_served (sv cl : socket) : res T_KRCoordi :=
  s ← ex_accepted sv cl; '(_, s) ← kr_coordi_handle_message ex_random 0 ex_peer 5 ex_svron s; Ok s.
Definition ex_run (sv cl : socket) : res T_KRCoordi :=
  s ← ex_served sv cl; '(_, s) ← kr_coordi_handle_message ex_random 0 ex_peer 6 ex_clion s; Ok s.
Definition ex_server : T_KRCoordiConnector := mkConnector 5 KR_COORDI_SERVER "server" "peer" 0 0 0 1 1.
Definition ex_client : T_KRCoordiConnector := mkConnector 6 KR_COORDI_CLIENT "client" "peer" 0 0 0 0 0.

Lemma array_checked n l : length l = S n -> last l = Some 0 -> forallb (fun b => (0 <=? b) && (b <? 256)) l = true -> array_ok n l.
Proof.
  intros Hl Hlast Hb. destruct l as [|x a _] using rev_ind; [done|]. rewrite last_snoc in Hlast. injection Hlast as ->.
  exists a. split_and!; [done|rewrite length_app in Hl; cbn in Hl; lia|].
  rewrite forallb_app in Hb. apply andb_true_iff in Hb as [Hb _]. rewrite forallb_forall in Hb.
  apply Forall_forall. intros b Hin. apply list_elem_of_In, Hb in Hin. lia.
Qed.
Lemma ex_message_ok ty sid cid body :
  int_fits ty -> array_ok 26 (ex_name 26 sid) -> array_ok 26 (ex_name 26 cid) -> int_fits (size_of (string_bytes body)) ->
  message_ok (ex_message ty sid cid body).
Proof.
  intros Hty Hs Hc Hb. constructor; try done.
  - apply array_checked; by vm_compute.
  - intros b. unfold ex_message. cbn [msgbuf msglen]. destruct (string_bytes body); [done|]. by intros [= <-].
Qed.
Ltac ex_ok := apply ex_message_ok; [by unfold int_fits|apply array_checked; by vm_compute..|unfold int_fits; vm_compute; by split].

Lemma ex_svron_ok : message_ok ex_svron.
Proof. ex_ok. Qed.
Lemma ex_clion_ok : message_ok ex_clion.
Proof. ex_ok. Qed.

Lemma ex_svron_request : exists r, svron_request (msgbuf ex_svron) = Ok r.
Proof. eexists. by vm_compute. Qed.
Lemma ex_clion_request : msgtype ex_clion = KR_MSGTYPE_SVRON -> exists r, svron_request (msgbuf ex_clion) = Ok r.
Proof. discriminate. Qed.
Lemma ex_svron_orderly s : conns s = ∅ -> room s -> orderly s 5 ex_svron.
Proof.
  intros Hc Hr. split; [|done..]. intros _. split_and!; [|done].
  intros p c Hp. rewrite Hc in Hp. by apply lookup_empty_Some in Hp.
Qed.
Lemma ex_clion_orderly s : conns s = <[1%positive := ex_server]> ∅ -> room s -> orderly s 6 ex_clion.
Proof.
  intros Hc Hr. split; [done| |done..]. intros _. split; [|done]. intros p c Hp. rewrite Hc in Hp.
  apply lookup_insert_Some in Hp as [[_ <-]|[_ Hp]]; [done|]. by apply lookup_empty_Some in Hp.
Qed.

Lemma ex_accepted_ok sv cl : exists s, ex_accepted sv cl = Ok s /\ coordi_ok s /\ room s /\
  socks s = <[6 := cl]> (<[5 := sv]> ∅) /\ conns s = ∅.
Proof.
  destruct initialize_ok as (s0 & E0 & H0 & Hroom & Hc & Hk). unfold ex_accepted. rewrite E0. clear E0.
  exists (with_socks (<[6 := cl]> (<[5 := sv]> ∅)) s0). split; [cbn; by rewrite Hk|]. split; [|split; [by apply room_socks|done]].
  destruct H0 as (ves & nes & ps & fm & Hr). exists ves, nes, ps, fm. apply rep_socks; [done|]. rewrite Hk. by intros ? [? ?].
Qed.

(** What the states are is computed on their parts. *)
Lemma ex_served_parts sv cl : match ex_served sv cl with
  | Ok s => (length_ (vnode_list (servers s)) = 1 /\ length_ (node_list (servers s)) = 1 /\ KrList.len (clients s) = 0 /\ nnodes (fdtable s) = 1) /\
      socks s = <[6 := cl]> (<[5 := sv]> ∅) /\ conns s = <[1%positive := ex_server]> ∅
  | Fault _ => False
  end.
Proof. vm_compute. repeat split. Qed.
Lemma ex_run_parts sv cl : match ex_run sv cl with
  | Ok s => socks s = <[6 := cl]> (<[5 := sv]> ∅) /\ conns s = <[2%positive := ex_client]> (<[1%positive := ex_server]> ∅) /\
      match heap (hash_mem s) !! 1%positive with Some n => KrConhash.id n = "server"%string /\ priv n = 1%positive | None => False end /\
      match kr_conhash_locate (servers s) "0001" (hash_mem s) with Ok (r, _) => r = Some 1%positive | Fault _ => False end
  | Fault _ => False
  end.
Proof. vm_compute. repeat split. Qed.

Lemma ex_served_ok sv cl : exists s, ex_served sv cl = Ok s /\ coordi_ok s /\ room s /\
  socks s = <[6 := cl]> (<[5 := sv]> ∅) /\ conns s = <[1%positive := ex_server]> ∅.
Proof.
  destruct (ex_accepted_ok sv cl) as (s2 & E2 & H2 & Hroom & Hk & Hc).
  assert (Hf : is_Some (socks s2 !! 5)) by (rewrite Hk, lookup_insert_ne, lookup_insert_eq by discriminate; eexists; reflexivity).
  destruct (message_handled ex_random 0 ex_peer s2 5 ex_svron H2 Hf ex_svron_ok (ex_svron_orderly s2 Hc Hroom) (fun _ => ex_svron_request)) as (n & s & E & Hok).
  assert (Es : ex_served sv cl = Ok s) by (unfold ex_served; rewrite E2; cbn [mbind res_bind]; rewrite E; reflexivity).
  clear E E2. exists s. pose proof (ex_served_parts sv cl) as H. rewrite Es in H. destruct H as ((H3 & H4 & H5 & H6) & H7 & H8).
  split; [exact Es|]. split; [exact Hok|]. split; [|split; [exact H7|exact H8]].
  constructor; [rewrite H3|rewrite H4|rewrite H5|rewrite H6]; clear; by vm_compute.
Qed.
Lemma ex_run_ok sv cl : exists s, ex_run sv cl = Ok s /\ coordi_ok s /\
  socks s = <[6 := cl]> (<[5 := sv]> ∅) /\ conns s = <[2%positive := ex_client]> (<[1%positive := ex_server]> ∅) /\
  (exists n h, heap (hash_mem s) !! 1%positive = Some n /\ KrConhash.id n = "server"%string /\ priv n = 1%positive /\
     kr_conhash_locate (servers s) "0001" (hash_mem s) = Ok (Some 1%positive, h)).
Proof.
  destruct (ex_served_ok sv cl) as (s2 & E2 & H2 & Hroom & Hk & Hc).
  assert (Hf : is_Some (socks s2 !! 6)) by (rewrite Hk, lookup_insert_eq; eexists; reflexivity).
  destruct (message_handled ex_random 0 ex_peer s2 6 ex_clion H2 Hf ex_clion_ok (ex_clion_orderly s2 Hc Hroom) ex_clion_request) as (n & s & E & Hok).
  assert (Es : ex_run sv cl = Ok s) by (unfold ex_run; rewrite E2; cbn [mbind res_bind]; rewrite E; reflexivity).
  clear E E2. exists s. pose proof (ex_run_parts sv cl) as H. rewrite Es in H. destruct H as (H3 & H4 & H5 & H6).
  split; [exact Es|]. split; [exact Hok|]. split; [exact H3|]. split; [exact H4|].
  destruct (heap (hash_mem s) !! 1%positive) as [x|]; [|contradiction].
  destruct (kr_conhash_locate (servers s) "0001" (hash_mem s)) as [[r h]|]; [|contradiction]. rewrite H6.
  exists x, h. destruct H5. repeat split; assumption.
Qed.

Definition ex_event : T_KRMessage := ex_message KR_MSGTYPE_DETECT_EVENT "" "client" "hi".
Definition ex_reply : T_KRMessage := ex_message KR_MSGTYPE_SUCCESS "server" "client" "yes".
Definition ex_end : T_KRMessage := ex_message KR_MSGTYPE_SVROFF "server" "" "".
Lemma ex_event_ok : message_ok ex_event.
Proof. ex_ok. Qed.
Lemma ex_reply_ok : message_ok ex_reply.
Proof. ex_ok. Qed.
Lemma ex_end_ok : message_ok ex_end.
Proof. ex_ok. Qed.
Definition idle : socket := mkSocket [] [] writable.

Lemma kr_coordi_routes_event_witness : exists s, ex_run idle idle = Ok s /\ exists s',
  kr_coordi_handle_apply 6 ex_event s = Ok (0, s') /\ coordi_ok s'.
Proof.
  destruct (ex_run_ok idle idle) as (s & E & H). exists s. split; [exact E|]. clear E.
  destruct H as (Hok & Hk & Hc & n & h & Ha & _ & Hpr & Hloc).
  destruct (kr_coordi_routes_event s 6 ex_event 2%positive ex_client 1%positive n ex_server Hok ex_event_ok) as (s' & l & Eh & Hok' & _).
  - intros _. eexists. split; [reflexivity|]. by vm_compute.
  - unfold online. rewrite Hc. by vm_compute.
  - right. split; [|exists h; exact Hloc]. intros a (b & n' & Hb & Hb' & _). vm_compute in Hb. injection Hb as <-. by apply Hb'.
  - exact Ha.
  - transitivity (conns s !! 1%positive); [f_equal; exact Hpr|]. rewrite Hc. by vm_compute.
  - rewrite Hc, Hk. intros q e Hq He. rewrite !lookup_insert_Some in Hq. destruct Hq as [[_ <-]|[_ [[_ <-]|[_ Hq]]]].
    + discriminate He.
    + exists idle. split; [reflexivity|]. apply writable_ready. by vm_compute.
    + by apply lookup_empty_Some in Hq.
  - exists s'. split; [exact Eh|exact Hok'].
Defined.

Lemma kr_coordi_passes_reply_witness : exists s, ex_run idle idle = Ok s /\ exists s' w,
  kr_coordi_handle_reply 5 ex_reply s = Ok (0, s') /\ socks s' = <[6 := mkSocket [] (wire ex_reply) w]> (socks s).
Proof.
  destruct (ex_run_ok idle idle) as (s & E & H). exists s. split; [exact E|]. clear E.
  destruct H as (Hok & Hk & Hc & _).
  destruct (kr_coordi_passes_reply s 5 ex_reply 1%positive ex_server 2%positive ex_client idle Hok ex_reply_ok) as (s' & w & Eh & _ & _ & Hs).
  - intros _. eexists. split; [reflexivity|]. by vm_compute.
  - unfold online. rewrite Hc. by vm_compute.
  - unfold online. rewrite Hc. by vm_compute.
  - rewrite Hk. apply lookup_insert_eq.
  - apply writable_ready. by vm_compute.
  - exists s', w. split; [exact Eh|exact Hs].
Defined.

Lemma kr_coordi_keeps_connectors_witness : exists s, ex_run idle (mkSocket [RBytes (wire ex_event)] [] []) = Ok s /\ exists s',
  kr_coordi_read_handler ex_random 0 ex_peer 6 s = Ok (tt, s') /\ coordi_ok s'.
Proof.
  set (x := mkSocket [RBytes (wire ex_event)] [] []).
  destruct (ex_run_ok idle x) as (s & E & H). exists s. split; [exact E|]. clear E.
  destruct H as (Hok & Hk & Hc & _).
  assert (Ht : match kr_message_read 6 x with Ok (Some m, _) => msgtype m = KR_MSGTYPE_DETECT_EVENT | _ => False end)
    by (by vm_compute).
  destruct (kr_coordi_keeps_connectors ex_random 0 ex_peer s 6 x Hok)
    as [(s' & Eh & Hok')|(m & k & e & Em & [Hty _] & _)].
  - rewrite Hk. by rewrite lookup_insert_eq.
  - constructor; [|constructor]. apply Forall_forall. intros b Hb. apply list_elem_of_In in Hb.
    assert (Hall : forallb (fun b => (0 <=? b) && (b <? 256)) (wire ex_event) = true) by (by vm_compute).
    rewrite forallb_forall in Hall. apply Hall in Hb. lia.
  - intros m k Em. rewrite Em in Ht. split; intros Hm; rewrite Ht in Hm; discriminate Hm.
  - exists s'. split; [exact Eh|exact Hok'].
  - exfalso. rewrite Em, Hty in Ht. discriminate Ht.
Defined.

Lemma kr_coordi_foreign_end_witness : exists s, ex_run (mkSocket [] [] []) idle = Ok s /\ exists s',
  kr_coordi_handle_message ex_random 0 ex_peer 6 ex_end s = Ok (0, s') /\
  kr_coordi_read_handler ex_random 0 ex_peer 5 s' = Fault BadPointer.
Proof.
  set (x := mkSocket [] [] []).
  destruct (ex_run_ok x idle) as (s & E & H). exists s. split; [exact E|]. clear E.
  destruct H as (Hok & Hk & Hc & _).
  destruct (kr_coordi_foreign_end ex_random 0 ex_peer s 6 ex_end 1%positive ex_server x x Hok ex_end_ok) as (s' & Eh & _ & _ & Hf).
  - reflexivity.
  - unfold online. rewrite Hc. by vm_compute.
  - discriminate.
  - rewrite Hk. by vm_compute.
  - by vm_compute.
  - exists s'. split; [exact Eh|exact Hf].
Defined.

Lemma kr_coordi_unterminated_request_witness : exists s, kr_coordi_initialize = Ok s /\
  kr_coordi_handle_svron ex_random 0 ex_peer 5
    (ex_message KR_MSGTYPE_SVRON "srv" "" "{") s = Fault OutOfBounds.
Proof.
  destruct initialize_ok as (s & E & _). exists s. split; [exact E|].
  by apply (kr_coordi_unterminated_request ex_random 0 ex_peer s 5).
Defined.
